(* ===== verification/_CoqProject ===== *)
-Q . S2P
Prelude.v
Sbuffer.v
Lookup3.v
Dname.v
DnameCompare.v
DnamePkt.v
DnameOut.v
Lruhash.v
LruhashLinks.v
LruhashSpec.v
LruhashApi.v
Slabhash.v
WgEncoding.v
Rfc1982.v
Rtt.v
Timehist.v
Rbtree.v
RbtreeTree.v
RbtreeInsert.v
RbtreeAdd.v
RbtreeFixup.v
RbtreeDelete.v
RbtreeRemove.v
RbtreeApi.v
PathOrder.v
DnsTree.v
DnsTreeSpec.v
NameTree.v
Bits.v
AddrTree.v
Subnet.v
SubnetTree.v
SubnetLru.v
SubnetOps.v
SubnetClean.v
SubnetFind.v
SubnetInsert.v
SubnetStore.v
SubnetDelete.v
SubnetApi.v
Autotrust.v
AutotrustKeys.v
AutotrustRrset.v
AutotrustTable.v
AutotrustAssemble.v
AutotrustProbe.v
AutotrustPrime.v
AutotrustSafe.v
AutotrustTrust.v
AutotrustTimer.v
RrDef.v
Msgparse.v
MsgMemory.v
MsgPkt.v
MsgRdata.v
MsgLists.v
MsgOps.v
MsgSigs.v
MsgChange.v
MsgFind.v
MsgRr.v
MsgSections.v
MsgPacket.v
MsgEdns.v
PackedRrset.v
PackedBlock.v
Msgreply.v
ReplyRrset.v
ReplyMessage.v
ReplyParse.v
Msgencode.v
EncodeTree.v
EncodeStore.v
EncodeNames.v
EncodeRdata.v
EncodeRrset.v
EncodeSection.v
EncodeMessage.v
EncodeReply.v
