(* ===== verification/Prelude.v ===== *)
(** * CWD Gate: verification of the resolver core

    CWD Gate is a DNS filtering appliance: a web front end and installers around the
    resolver Unbound (src/unbound-dns, C) and the WireGuard tools
    (src/Wireguard/src, C).  This library models the core of the two C programs and
    proves what makes it correct.

    ** How the program is put together, and which files model it

    A DNS packet is held in an [sldns_buffer] (sldns/sbuffer.h), the names in it are
    read, compared and hashed by util/data/dname.c, and util/data/msgparse.c turns it
    into RRsets by the table of RR types of sldns/rrdef.c; util/data/msgreply.c makes a
    reply of these, whose RRsets are the packed blocks of util/data/packed_rrset.c, and
    util/data/msgencode.c writes replies to packets again; caches are hash tables with an LRU
    list (util/storage/lruhash.c), split in slabs (slabhash.c), whose bins are chosen
    by the hash of lookup3.c.  Zones, trust anchors and access lists are kept in
    red-black trees (util/rbtree.c), most of them with links to the closest encloser
    (util/storage/dnstree.c).  The validator keeps its trust anchors current by RFC
    5011 (validator/autotrust.c): a DNSKEY response that the validator primes with
    goes through the state table of every key, and a timer probes the trust points.
    Answers that hold for a subnet of clients are cached in a radix tree with a list in
    order of use (edns-subnet/addrtree.c).

    - this file: the [outcome] monad of C code, the state monad [ST] over it,
      machine integers, lists indexed by Z, tactics and the hint database;
    - [Sbuffer]: sldns/sbuffer.h and sbuffer.c, the whole interface;
    - [Lookup3]: util/storage/lookup3.c, hashword and hashlittle;
    - [Dname] (names as labels, validity, lengths), [DnameCompare] (comparison,
      canonical order, subdomains), [DnamePkt] (compressed names in packets),
      [DnameOut] (writing and printing): util/data/dname.c;
    - [RrDef]: sldns/rrdef.c, the table of RR types; [Msgparse] (definitions):
      util/data/msgparse.c, a state monad over the packet, [msg_parse], the RRsets and
      the RRs; [MsgPkt] (the functions on the packet alone), [MsgRdata] (rdata written
      out), [MsgLists] and [MsgOps] (the linked structures, the operations on them, the
      invariant between RRs), [MsgSigs] and [MsgChange] (signatures that
      move to what they cover), [MsgFind] (the RRset of an RR), [MsgRr], [MsgSections],
      [MsgPacket] (an RR, a section, the packet), [MsgMemory] (failed allocations) and
      [MsgEdns] (the OPT record);
    - [PackedRrset] (definitions), [PackedBlock] (the packed block, the
      order and hash of keys): util/data/packed_rrset.c; [Msgreply] (definitions):
      util/data/msgreply.c from the parsed packet to the reply, in the state monad of
      the parser; [ReplyRrset] (the rdata of an RR, an RRset), [ReplyMessage] (the
      message) and [ReplyParse] (packets to replies, the targets of CNAMEs) are the proofs;
    - [Msgencode] (definitions): util/data/msgencode.c, a state monad over the packet
      and the tree of the names in it; [EncodeTree] (bytes of a packet, chains of
      compression pointers, looking up names), [EncodeStore] (storing names),
      [EncodeNames], [EncodeRdata], [EncodeRrset], [EncodeSection] (writing each),
      [EncodeMessage] (the header and the sections) and [EncodeReply] (the whole, and
      packets that are parsed and encoded again) are the proofs;
    - [Lruhash] (definitions), [LruhashLinks] (the pointers), [LruhashSpec]
      (the invariant), [LruhashApi] (the operations): util/storage/lruhash.c;
    - [Slabhash]: util/storage/slabhash.c on top of [Lruhash];
    - [Rbtree] (definitions), [RbtreeTree] (trees and the pointers that represent
      them, rotations), [RbtreeInsert], [RbtreeAdd] (with searching and walking),
      [RbtreeFixup], [RbtreeDelete], [RbtreeRemove] (one step each), [RbtreeApi]
      (the operations): util/rbtree.c;
    - [DnsTree] (definitions), [PathOrder] and [DnsTreeSpec] (the proof for any keys
      that are paths), [NameTree] and [AddrTree] (names and netblocks):
      util/storage/dnstree.c, parts of util/net_help.c, and the caller in
      respip/respip.c;
    - [Bits] (the bits of an address); [Subnet] (definitions), [SubnetTree] (the
      prefixes of the nodes), [SubnetLru] (the list in order of use), [SubnetOps],
      [SubnetClean], [SubnetFind], [SubnetInsert], [SubnetStore], [SubnetDelete] (one
      operation each), [SubnetApi] (what the operations promise):
      edns-subnet/addrtree.c;
    - [Autotrust] (the keys of a trust point and the state table), [AutotrustRrset]
      (the DNSKEY response and the assembled anchors), [AutotrustProbe] (processing a
      response, the trees of trust points, the probe timer): validator/autotrust.c,
      with the readers of validator/val_sigcrypt.c, sldns/str2wire.c and
      sldns/keyraw.c it uses, util/random.c and compat/arc4random_uniform.c;
      [AutotrustKeys] (the table of RFC 5011 and the steps of a key),
      [AutotrustTable], [AutotrustAssemble], [AutotrustPrime], [AutotrustSafe],
      [AutotrustTrust], [AutotrustTimer] are the proofs;
    - [WgEncoding]: src/Wireguard/src/encoding.c; [Rfc1982], [Rtt], [Timehist]:
      util/rfc_1982.c, util/rtt.c, util/timehist.c and util/timeval_func.c.

    ** How C is modelled

    A function that can fault is in [outcome]: [Ok], [Fault] with what went wrong (a
    read or write of memory that is not there, a signed overflow, a failed assertion,
    taking a lock one holds) or [OutOfFuel].  A [uint8_t*] is the list of the bytes from
    it to the end of its memory.  Structures that point at each other live in a
    finite map from addresses, and operations on them are state transformers over
    [outcome].  Unsigned integers wrap ([u8], [u16], [u32], [u64]); a signed
    operation that overflows is a [Fault] ([sint]).  malloc takes its answers from
    a list, so that every failure is possible.

    ** What the theorems show

    - Packets and names: every call of the buffer's interface but printf, with arguments of
      the right types, keeps its invariant inside of its memory, or stops at an assertion; names in packets are walked in bounded time whatever their
      pointers, and mean the labels they decompress to; comparison is the order of
      labels, the hash respects it, writing and reading are inverse.
    - Messages: parsing any packet ends without a fault whatever allocations fail,
      and leaves the packet as it was; what is accepted is well-formed, each RRset
      found by its hash and each RR of a size that its rdata written out has; what is
      in an RRset is a record of the packet with its name, type and class, and every
      record of the packet is in its RRset, but for those whose RRset is in a section
      before and, when the question is for RRSIG or ANY, a signature that is there
      already; each key is there once, under conditions that are shown to be needed; only a failed allocation gives
      SERVFAIL.
    - Replies: making a reply of any packet ends without a fault, every block large
      enough, and writes the parsed packet out: names and rdata decompressed, TTLs as
      the settings limit them, trust by section, and keys whose stored hash is their
      own; RRsets that are stored and copied later are the same but for the time that
      passed; keys are ordered, and equal ones have one hash; targets of CNAMEs are
      names inside of the block.
    - Encoding: a reply is encoded without a fault, within the limit, to a message
      whose names and rdata the functions that parse read as those of the reply.  In
      the answer and authority sections RRsets with their signatures are whole or not
      there; in the additional section the signatures come after all the records, and
      an RRset can lose them.  The bit TC is set when an answer is missing; what is
      asked for is all there when there is room for it; every reply that was made of a
      packet can be encoded.
    - Containers: sequences of operations on the hash tables and on the red-black
      tree refine operations on lists, down to the pointers; searches in the tree
      are logarithmic; the closest-encloser trees find the longest match.
    - Subnets: while memory lasts and for a maximum of at most 2^32 - 3 nodes, any run
      of insertions and lookups in the radix tree keeps the tree,
      its list, its size and its count of nodes in step, and deletion frees each element
      once; lookups find the first entry on the way that may answer, by the rule of
      the code, which is narrower than the one in the header of the tree.
    - RFC 5011: the state table of the code is that of the RFC; processing a
      well-formed response keeps the trust points well-formed and in both trees whatever
      allocations fail, and changes keys only by steps of the table, unless it stops at an
      assertion of a debug build or at a validated signature that expires in 2038 or
      later; no key becomes trusted without grounds, validation being by anchors that
      were fixed before it; without a configured ZSK the add hold-down holds over any
      sequence of responses; while memory lasts the probe timer probes all that is due
      once, and ends, and without memory it can wait for a lock it holds itself.
    - Small components: round trips of the WireGuard key encodings, serial number
      arithmetic, bounds of the retransmission timer, time histograms.
    - Faults found on the way are lemmas about the definitions too, each with an
      input that shows it.

    ** Fuel

    Loops that follow pointers take fuel, and theorems show that enough was given:
    walks of a name 256 labels and 257 pointers at most, hash chains and trees the
    number of their nodes, the radix tree 256 levels, its clean-up the square of the
    number of nodes, the loops of the parser the number of RRsets or RRs there are,
    or the bytes of the options, the probe timer one round for every node of the tree of
    probes and one to find that nothing is due, the walks in the tree of names the
    number of its nodes.

    ** Not modelled

    Locks other than those of trust points (one thread runs at a time), logging,
    the state file of autotrust, OpenSSL (the class [Sigcrypt] is what the code
    expects of it), sockets and events, the iterator and validator state machines,
    the EDNS options of queries (they need the configuration and cookies),
    replies outside of a region (the allocator of alloc.c), configuration, the Curve25519 code (generated by
    verified tools), PHP, JavaScript and shell. *)

From stdpp Require Export base list option numbers decidable tactics sets gmap.
From Stdlib Require Export ZArith Lia.

#[global] Open Scope Z_scope.
#[global] Set Default Goal Selector "!".

(** ** Outcomes of C code

    A C function that may read memory out of range, fail an assertion or loop
    is modelled in the [outcome] monad.  A [Fault] says what went wrong;
    [OutOfFuel] is only a device of the model and is excluded by the theorems that
    state a result. *)

Inductive fault_kind :=
  (** memory that is not there: out of range, freed, NULL; or a lock released that is not held *)
  | Undefined
  (** a signed operation or a shift out of its range *)
  | Overflow
  (** [assert] or [log_assert] stops the program *)
  | Assertion
  (** taking a lock that one holds: the thread waits for itself *)
  | Deadlock.

#[global] Instance fault_kind_eq_dec : EqDecision fault_kind.
Proof. solve_decision. Defined.

Inductive outcome (A : Type) : Type :=
  | Ok (a : A)
  | Fault (k : fault_kind)
  | OutOfFuel.
Arguments Ok {_} _.
Arguments Fault {_} _.
Arguments OutOfFuel {_}.

#[global] Instance outcome_ret : MRet outcome := @Ok.

#[global] Instance outcome_bind : MBind outcome := fun A B f m =>
  match m with
  | Ok a => f a
  | Fault f => Fault f
  | OutOfFuel => OutOfFuel
  end.

#[global] Instance outcome_fmap : FMap outcome := fun A B f m =>
  match m with
  | Ok a => Ok (f a)
  | Fault f => Fault f
  | OutOfFuel => OutOfFuel
  end.

(** [assert(b)] and [log_assert(b)]: a debug build stops when [b] is false. *)
Definition c_assert (b : bool) : outcome unit := if b then Ok tt else Fault Assertion.

(** C's truth values. *)
Definition c_bool (b : bool) : Z := if b then 1 else 0.

Declare Scope cwd_scope.
Delimit Scope cwd_scope with cwd.
#[global] Open Scope cwd_scope.

Notation "'check!' b ; z" := (mbind (fun _ : unit => z) (c_assert b))
  (at level 100, b at level 99, z at level 200, right associativity,
   only parsing) : cwd_scope.

Lemma bind_Ok {A B} (f : A -> outcome B) a : mbind f (Ok a) = f a.
Proof. done. Qed.

Lemma bind_Fault {A B} (f : A -> outcome B) k : mbind f (Fault k) = Fault k.
Proof. done. Qed.

Lemma bind_inv {A B} (f : A -> outcome B) m b :
  mbind f m = Ok b -> exists a, m = Ok a /\ f a = Ok b.
Proof. destruct m as [a| |]; [|done|done]. intros. by exists a. Qed.

(** ** State: C code that reads and writes a structure *)

Definition ST (S A : Type) : Type := S -> outcome (A * S).

#[global] Instance ST_ret S : MRet (ST S) := fun A a s => Ok (a, s).
#[global] Instance ST_bind S : MBind (ST S) := fun A B f m s =>
  match m s with
  | Ok (a, s') => f a s'
  | Fault f => Fault f
  | OutOfFuel => OutOfFuel
  end.

Lemma st_bind_ok {S A B} (m : ST S A) (f : A -> ST S B) s a s' : m s = Ok (a, s') -> mbind f m s = f a s'.
Proof. intros E. unfold mbind, ST_bind. by rewrite E. Qed.

Lemma st_bind_assoc {S A B C} (m : ST S A) (f : A -> ST S B) (g : B -> ST S C) s :
  mbind g (mbind f m) s = mbind (fun a => mbind g (f a)) m s.
Proof. unfold mbind, ST_bind. by destruct (m s) as [[a s']| |]. Qed.

Lemma st_ret {S A B} (a : A) (f : A -> ST S B) s : mbind f (mret a) s = f a s.
Proof. done. Qed.

Lemma c_assert_true b : b = true -> c_assert b = Ok tt.
Proof. by intros ->. Qed.

(** ** Memory: the answers of the next calls of malloc; it succeeds after that *)

Definition mem : Type := list bool.
Definition malloc (m : mem) : bool * mem := match m with [] => (true, []) | b :: m' => (b, m') end.
Definition mallocs_ok (m : mem) : Prop := Forall (eq true) m.

Lemma malloc_ok m b m' : malloc m = (b, m') -> mallocs_ok m -> b = true /\ mallocs_ok m'.
Proof. destruct m as [|x m]; intros [= <- <-] H; [done|]. apply Forall_cons in H as [<- H]. done. Qed.

(** ** The ends of a linked list, when [n] follows it and [p] comes before *)

Definition hd_or {A} (l : list A) (n : option A) : option A := match l with a :: _ => Some a | [] => n end.
Definition last_or {A} (l : list A) (p : option A) : option A := match list.last l with Some a => Some a | None => p end.

Lemma hd_or_app {A} (l1 l2 : list A) n : hd_or (l1 ++ l2) n = hd_or l1 (hd_or l2 n).
Proof. by destruct l1. Qed.

Lemma last_or_cons {A} (a : A) l p : last_or (a :: l) p = last_or l (Some a).
Proof. unfold last_or. rewrite last_cons. by destruct (list.last l). Qed.

Lemma last_or_snoc {A} (l : list A) a p : last_or (l ++ [a]) p = Some a.
Proof. unfold last_or. by rewrite last_snoc. Qed.

(** ** Machine integers *)

Definition wrap (w z : Z) : Z := z mod 2 ^ w.
Abbreviation u8 := (wrap 8).
Abbreviation u16 := (wrap 16).
Abbreviation u32 := (wrap 32).
Abbreviation u64 := (wrap 64).

(** Conversion to a signed [w]-bit integer (two's complement). *)
Definition swrap (w z : Z) : Z := (z + 2 ^ (w - 1)) mod 2 ^ w - 2 ^ (w - 1).
Abbreviation i32 := (swrap 32).

Definition in_u (w z : Z) : Prop := 0 <= z < 2 ^ w.
Definition in_s (w z : Z) : Prop := - 2 ^ (w - 1) <= z < 2 ^ (w - 1).
Abbreviation is_byte := (in_u 8).
Abbreviation bytes_ok := (Forall (in_u 8)).

Lemma wrap_small w z : in_u w z -> wrap w z = z.
Proof. intros H. by apply Z.mod_small. Qed.

Lemma wrap_range w z : 0 <= w -> in_u w (wrap w z).
Proof. intros. apply Z.mod_pos_bound. by apply Z.pow_pos_nonneg. Qed.

Lemma swrap_small w z : 0 < w -> in_s w z -> swrap w z = z.
Proof.
  unfold swrap, in_s. intros Hw H.
  assert (2 ^ w = 2 * 2 ^ (w - 1)) as E.
  { rewrite <- Z.pow_succ_r by lia. f_equal. lia. }
  rewrite Z.mod_small; lia.
Qed.

(** Congruence modulo [2^w]: the equivalence under which the wrap-around of
    intermediate results can be forgotten. *)
Inductive eqw (w x y : Z) : Prop := eqw_intro : wrap w x = wrap w y -> eqw w x y.

#[global] Instance eqw_equivalence w : Equivalence (eqw w).
Proof.
  split.
  - done.
  - intros x y [H]. by constructor.
  - intros x y z [H] [H']. constructor. congruence.
Qed.

#[global] Instance eqw_add w : Proper (eqw w ==> eqw w ==> eqw w) Z.add.
Proof.
  intros x x' [H] y y' [H']. constructor. unfold wrap in *.
  rewrite (Zplus_mod x), (Zplus_mod x'). congruence.
Qed.

#[global] Instance eqw_sub w : Proper (eqw w ==> eqw w ==> eqw w) Z.sub.
Proof.
  intros x x' [H] y y' [H']. constructor. unfold wrap in *.
  rewrite (Zminus_mod x), (Zminus_mod x'). congruence.
Qed.

#[global] Instance eqw_mul w : Proper (eqw w ==> eqw w ==> eqw w) Z.mul.
Proof.
  intros x x' [H] y y' [H']. constructor. unfold wrap in *.
  rewrite (Zmult_mod x), (Zmult_mod x'). congruence.
Qed.

Lemma wrap_eqw w x : eqw w (wrap w x) x.
Proof. constructor. apply Zmod_mod. Qed.

#[global] Instance eqw_wrap_proper w : Proper (eqw w ==> eqw w) (wrap w).
Proof. intros x y H. by rewrite !wrap_eqw. Qed.

Lemma eqw_wrap w x y : eqw w x y -> wrap w x = wrap w y.
Proof. by intros []. Qed.

#[global] Instance in_u_dec w z : Decision (in_u w z).
Proof. unfold in_u. apply _. Defined.

(** The result of signed arithmetic; a result that does not fit is undefined. *)
Definition sint (w z : Z) : outcome Z :=
  if (- 2 ^ (w - 1) <=? z) && (z <? 2 ^ (w - 1)) then Ok z else Fault Overflow.

Lemma sint_ok w z : in_s w z -> sint w z = Ok z.
Proof.
  intros [H1 H2]. unfold sint. by rewrite (proj2 (Z.leb_le _ _)), (proj2 (Z.ltb_lt _ _)).
Qed.

(** One signed operation at the head of the goal. *)
Ltac sint_step :=
  match goal with
  | |- mbind _ (sint ?w ?z) = _ => rewrite (sint_ok w z), bind_Ok by (unfold in_s; lia)
  end.

Lemma land_255 x : Z.land x 255 = x mod 256.
Proof. apply (Z.land_ones x 8). lia. Qed.

Lemma land_ones_byte x k : 0 <= k -> Z.land x (Z.ones k) = x mod 2 ^ k.
Proof. apply Z.land_ones. Qed.

Lemma testbit_small b k i : 0 <= b < 2 ^ k -> k <= i -> Z.testbit b i = false.
Proof.
  intros Hb Hi. destruct (Z.eq_dec b 0) as [->|]; [apply Z.bits_0|].
  apply Z.bits_above_log2; [lia|].
  assert (Z.log2 b < k) by (apply Z.log2_lt_pow2; lia). lia.
Qed.

Lemma land_shiftl_low a b k : 0 <= b < 2 ^ k -> Z.land (Z.shiftl a k) b = 0.
Proof.
  intros Hb. apply Z.bits_inj'. intros i Hi. rewrite Z.land_spec, Z.bits_0.
  destruct (Z.lt_ge_cases i k).
  - by rewrite Z.shiftl_spec_low.
  - by rewrite (testbit_small b k i), andb_false_r.
Qed.

(** Bits that do not overlap are added. *)
Lemma lor_shiftl_add a b k :
  0 <= k -> 0 <= b < 2 ^ k -> Z.lor (Z.shiftl a k) b = a * 2 ^ k + b.
Proof.
  intros Hk Hb. rewrite <- Z.shiftl_mul_pow2 by done.
  rewrite Z.add_nocarry_lxor by (by apply land_shiftl_low).
  symmetry. apply Z.lxor_lor. by apply land_shiftl_low.
Qed.

(** [lia] with division and modulo by constants. *)
Ltac divlia :=
  change (2 ^ 8) with 256 in *; change (2 ^ 16) with 65536 in *;
  change (2 ^ 24) with 16777216 in *; change (2 ^ 32) with 4294967296 in *;
  Z.to_euclidean_division_equations; lia.

Create HintDb cwd.

(** ** C pointers into byte arrays

    A [uint8_t*] that is only moved forward is the suffix of the array it
    points to: [*d] is its head and [d += n] drops [n] bytes.  Reading past the
    array, or moving past its one-past-the-end position, is a [Fault]. *)

Definition zlen {A} (l : list A) : Z := Z.of_nat (length l).
Definition ztake {A} (n : Z) (l : list A) : list A := take (Z.to_nat n) l.
Definition zdrop {A} (n : Z) (l : list A) : list A := drop (Z.to_nat n) l.

Definition deref (d : list Z) : outcome Z :=
  match d with
  | [] => Fault Undefined
  | b :: _ => Ok b
  end.

(** [*d++] *)
Definition next (d : list Z) : outcome (Z * list Z) :=
  match d with
  | [] => Fault Undefined
  | b :: d' => Ok (b, d')
  end.

(** [d += n] *)
Definition advance (n : Z) (d : list Z) : outcome (list Z) :=
  if (0 <=? n) && (n <=? zlen d) then Ok (zdrop n d) else Fault Undefined.

(** [memcpy] of [n] bytes out of [d]. *)
Definition read_bytes (n : Z) (d : list Z) : outcome (list Z) :=
  if (0 <=? n) && (n <=? zlen d) then Ok (ztake n d) else Fault Undefined.

(** Read of [d[i]]. *)
Definition index (d : list Z) (i : Z) : outcome Z :=
  if 0 <=? i then
    match d !! Z.to_nat i with Some b => Ok b | None => Fault Undefined end
  else Fault Undefined.

(** Store of [d[i] = b]. *)
Definition store (d : list Z) (i b : Z) : outcome (list Z) :=
  if (0 <=? i) && (i <? zlen d) then Ok (<[Z.to_nat i := b]> d) else Fault Undefined.

Section ZList.
Context {A : Type}.
Implicit Types l k : list A.

Lemma zlen_nil : zlen (@nil A) = 0.
Proof. done. Qed.

Lemma zlen_cons (x : A) l : zlen (x :: l) = 1 + zlen l.
Proof. unfold zlen. simpl. lia. Qed.

Lemma to_nat_zlen l : Z.to_nat (zlen l) = length l.
Proof. unfold zlen. lia. Qed.

Lemma zlen_app l k : zlen (l ++ k) = zlen l + zlen k.
Proof. unfold zlen. rewrite length_app. lia. Qed.

Lemma zlen_nonneg l : 0 <= zlen l.
Proof. unfold zlen. lia. Qed.

Lemma zlen_map {B} (f : A -> B) l : zlen (map f l) = zlen l.
Proof. unfold zlen. by rewrite length_map. Qed.

Lemma zlen_rev l : zlen (rev l) = zlen l.
Proof. unfold zlen. by rewrite length_rev. Qed.

Lemma zlen_0_inv l : zlen l = 0 -> l = [].
Proof. destruct l; [done|]. rewrite zlen_cons. pose proof (zlen_nonneg l). lia. Qed.

Lemma zlen_zdrop n l : 0 <= n <= zlen l -> zlen (zdrop n l) = zlen l - n.
Proof. unfold zlen, zdrop. intros. rewrite length_drop. lia. Qed.

Lemma zlen_ztake n l : 0 <= n <= zlen l -> zlen (ztake n l) = n.
Proof. unfold zlen, ztake. intros. rewrite length_take. lia. Qed.

Lemma zdrop_app_zlen l k : zdrop (zlen l) (l ++ k) = k.
Proof. unfold zdrop, zlen. rewrite Nat2Z.id. by rewrite drop_app_length. Qed.

Lemma ztake_app_zlen l k : ztake (zlen l) (l ++ k) = l.
Proof. unfold ztake, zlen. rewrite Nat2Z.id. by rewrite take_app_length. Qed.

Lemma ztake_zdrop n l : ztake n l ++ zdrop n l = l.
Proof. apply take_drop. Qed.

Lemma zdrop_0 l : zdrop 0 l = l.
Proof. done. Qed.

Lemma zdrop_zdrop n m l : 0 <= n -> 0 <= m -> zdrop n (zdrop m l) = zdrop (m + n) l.
Proof. intros. unfold zdrop. rewrite drop_drop. f_equal. lia. Qed.
End ZList.

Lemma bytes_ok_ztake n d : bytes_ok d -> bytes_ok (ztake n d).
Proof. apply Forall_take. Qed.
Lemma bytes_ok_zdrop n d : bytes_ok d -> bytes_ok (zdrop n d).
Proof. apply Forall_drop. Qed.
#[export] Hint Resolve bytes_ok_ztake bytes_ok_zdrop : cwd.

Lemma advance_ok n d : 0 <= n <= zlen d -> advance n d = Ok (zdrop n d).
Proof. intros. unfold advance. by rewrite !(proj2 (Z.leb_le _ _)) by lia. Qed.

Lemma read_bytes_ok n d : 0 <= n <= zlen d -> read_bytes n d = Ok (ztake n d).
Proof. intros. unfold read_bytes. by rewrite !(proj2 (Z.leb_le _ _)) by lia. Qed.

Lemma advance_app l r : advance (zlen l) (l ++ r) = Ok r.
Proof.
  rewrite advance_ok; [by rewrite zdrop_app_zlen|].
  rewrite zlen_app. pose proof (zlen_nonneg l). pose proof (zlen_nonneg r). lia.
Qed.

Lemma advance_1 x d : advance 1 (x :: d) = Ok d.
Proof. exact (advance_app [x] d). Qed.

Lemma index_app_r d k i :
  zlen d <= i -> index (d ++ k) i = index k (i - zlen d).
Proof.
  intros. pose proof (zlen_nonneg d). unfold index.
  rewrite !(proj2 (Z.leb_le _ _)) by lia.
  rewrite lookup_app_r by (unfold zlen in *; lia).
  f_equal. unfold zlen. replace (Z.to_nat (i - Z.of_nat (length d)))
    with (Z.to_nat i - length d)%nat by lia. done.
Qed.

Lemma index_ok d i : 0 <= i < zlen d -> exists b, index d i = Ok b /\ d !! Z.to_nat i = Some b.
Proof.
  intros H. unfold index. rewrite (proj2 (Z.leb_le _ _)) by lia.
  destruct (lookup_lt_is_Some_2 d (Z.to_nat i)) as [b E]; [unfold zlen in H; lia|].
  exists b. by rewrite E.
Qed.

Lemma index_zdrop d n i :
  0 <= n <= zlen d -> 0 <= i -> index (zdrop n d) i = index d (n + i).
Proof.
  intros. unfold index, zdrop. rewrite !(proj2 (Z.leb_le _ _)) by lia.
  rewrite lookup_drop. by replace (Z.to_nat n + Z.to_nat i)%nat with (Z.to_nat (n + i)) by lia.
Qed.

Lemma index_byte d i b : bytes_ok d -> index d i = Ok b -> is_byte b.
Proof.
  unfold index. intros Hd. destruct (0 <=? i); [|done].
  destruct (d !! Z.to_nat i) eqn:E; [|done]. intros [= ->].
  by eapply Forall_lookup_1 in E.
Qed.

(** Facts about one byte are decided by evaluating them on all 256. *)
Lemma byte_forall (P : Z -> bool) :
  forallb P (seqZ 0 256) = true -> forall x, is_byte x -> P x = true.
Proof.
  intros H x [Hx1 Hx2]. rewrite forallb_forall in H. apply H.
  apply list_elem_of_In, elem_of_seqZ. change (2 ^ 8) with 256 in Hx2. lia.
Qed.

(** Decide a test of a literal comparison in a hypothesis or the goal. *)
Ltac zcase :=
  match goal with
  | |- context [?x <? ?y] => destruct (Z.ltb_spec x y)
  | |- context [?x <=? ?y] => destruct (Z.leb_spec x y)
  | |- context [?x =? ?y] => destruct (Z.eqb_spec x y)
  end.

Lemma ltb_true x y : x < y -> (x <? y) = true.
Proof. apply Z.ltb_lt. Qed.
Lemma ltb_false x y : y <= x -> (x <? y) = false.
Proof. apply Z.ltb_ge. Qed.
Lemma leb_true x y : x <= y -> (x <=? y) = true.
Proof. apply Z.leb_le. Qed.
Lemma leb_false x y : y < x -> (x <=? y) = false.
Proof. apply Z.leb_gt. Qed.
Lemma eqb_true x y : x = y -> (x =? y) = true.
Proof. apply Z.eqb_eq. Qed.
Lemma eqb_false x y : x <> y -> (x =? y) = false.
Proof. apply Z.eqb_neq. Qed.

Lemma Ok_inj {A} (a b : A) : Ok a = Ok b -> a = b.
Proof. by intros [= ->]. Qed.

(** ** Three-way lexicographic comparison: -1, 0, 1

    The reference order for the comparison routines. *)

Fixpoint lex (l1 l2 : list Z) : Z :=
  match l1, l2 with
  | [], [] => 0
  | [], _ :: _ => -1
  | _ :: _, [] => 1
  | x :: l1', y :: l2' => if x <? y then -1 else if y <? x then 1 else lex l1' l2'
  end.

Lemma lex_refl l : lex l l = 0.
Proof. induction l as [|x l IH]; simpl; [done|]. by rewrite Z.ltb_irrefl. Qed.

Lemma lex_eq l1 : forall l2, lex l1 l2 = 0 <-> l1 = l2.
Proof.
  induction l1 as [|x l1 IH]; intros [|y l2]; simpl; try done.
  destruct (Z.ltb_spec x y); [split; [done|intros [= ? ?]; lia]|].
  destruct (Z.ltb_spec y x); [split; [done|intros [= ? ?]; lia]|].
  rewrite IH. split; [intros ->; f_equal; lia|by intros [= ? ->]].
Qed.

Lemma lex_sym l1 : forall l2, lex l2 l1 = - lex l1 l2.
Proof.
  induction l1 as [|x l1 IH]; intros [|y l2]; simpl; try done.
  destruct (Z.ltb_spec x y), (Z.ltb_spec y x); try lia. by rewrite IH.
Qed.

Lemma lex_range l1 : forall l2, lex l1 l2 = -1 \/ lex l1 l2 = 0 \/ lex l1 l2 = 1.
Proof.
  induction l1 as [|x l1 IH]; intros [|y l2]; simpl; auto.
  destruct (x <? y); auto. destruct (y <? x); auto.
Qed.

Lemma lex_trans l1 : forall l2 l3, lex l1 l2 = -1 -> lex l2 l3 = -1 -> lex l1 l3 = -1.
Proof.
  induction l1 as [|x l1 IH]; intros [|y l2] [|z l3]; simpl; try done.
  destruct (Z.ltb_spec x y), (Z.ltb_spec y x), (Z.ltb_spec y z), (Z.ltb_spec z y),
    (Z.ltb_spec x z), (Z.ltb_spec z x); intros; try done; try lia. by eapply IH.
Qed.

Lemma lex_app_l l a b : lex (l ++ a) (l ++ b) = lex a b.
Proof. induction l as [|x l IH]; simpl; [done|]. by rewrite Z.ltb_irrefl. Qed.

Lemma lex_app_diff l1 : forall l2 a b,
  length l1 = length l2 -> lex l1 l2 <> 0 -> lex (l1 ++ a) (l2 ++ b) = lex l1 l2.
Proof.
  induction l1 as [|x l1 IH]; intros [|y l2] a b; simpl; intros Hl; try done.
  destruct (x <? y); [done|]. destruct (y <? x); [done|]. auto.
Qed.
