(* ===== verification/Sbuffer.v ===== *)
(** * The packet buffer (sldns/sbuffer.h, sldns/sbuffer.c)

    [sldns_buffer] is the cursor over a byte array through which the resolver
    reads and writes every DNS message.  The record below has the fields of the
    C struct; [size_t] values are [Z] with unsigned 64-bit wrap-around where the
    code computes with them.  [malloc] and [realloc] are parameters: the result
    of an allocation is the block it returns ([None] for NULL, otherwise a block
    of unspecified content). *)

From S2P Require Import Prelude.

Record sldns_buffer := mk_buffer {
  _position : Z;
  _limit : Z;
  _capacity : Z;
  _data : option (list Z);
  _fixed : bool;
  _status_err : bool;
}.

(** ** Big-endian integers in memory *)

Definition sldns_read_uint16 (src : list Z) : outcome Z :=
  p0 ← index src 0; p1 ← index src 1;
  Ok (Z.lor (Z.shiftl p0 8) p1).

Definition sldns_read_uint32 (src : list Z) : outcome Z :=
  p0 ← index src 0; p1 ← index src 1; p2 ← index src 2; p3 ← index src 3;
  Ok (Z.lor (Z.lor (Z.lor (Z.shiftl p0 24) (Z.shiftl p1 16)) (Z.shiftl p2 8)) p3).

Definition sldns_write_uint16 (data : Z) : list Z :=
  [Z.land (Z.shiftr data 8) 255; Z.land data 255].

Definition sldns_write_uint32 (data : Z) : list Z :=
  [Z.land (Z.shiftr data 24) 255; Z.land (Z.shiftr data 16) 255;
   Z.land (Z.shiftr data 8) 255; Z.land data 255].

Definition sldns_write_uint48 (data : Z) : list Z :=
  [Z.land (Z.shiftr data 40) 255; Z.land (Z.shiftr data 32) 255;
   Z.land (Z.shiftr data 24) 255; Z.land (Z.shiftr data 16) 255;
   Z.land (Z.shiftr data 8) 255; Z.land data 255].

(** ** State checks *)

(** The assertions of [sldns_buffer_invariant]. *)
Definition sldns_buffer_invariant (b : sldns_buffer) : bool :=
  (b.(_position) <=? b.(_limit)) && (b.(_limit) <=? b.(_capacity)) &&
  match b.(_data) with Some _ => true | None => false end.

(** The block behind [_data]; using a NULL block is a fault. *)
Definition the_data (b : sldns_buffer) : outcome (list Z) :=
  match b.(_data) with Some d => Ok d | None => Fault Undefined end.

Definition set_pos (b : sldns_buffer) (p : Z) : sldns_buffer :=
  mk_buffer p b.(_limit) b.(_capacity) b.(_data) b.(_fixed) b.(_status_err).

Definition set_data (b : sldns_buffer) (d : list Z) : sldns_buffer :=
  mk_buffer b.(_position) b.(_limit) b.(_capacity) (Some d) b.(_fixed) b.(_status_err).

Definition set_err (b : sldns_buffer) : sldns_buffer :=
  mk_buffer b.(_position) b.(_limit) b.(_capacity) b.(_data) b.(_fixed) true.

(** ** Construction *)

(** [struct_ok] says whether the [malloc] of the struct succeeded; [block] is
    what the [malloc] of the data returned.  NULL is [None]. *)
Definition sldns_buffer_new (struct_ok : bool) (block : option (list Z))
    (capacity : Z) : outcome (option sldns_buffer) :=
  if negb struct_ok then Ok None else
  match block with
  | None => Ok None
  | Some d =>
      let b := mk_buffer 0 capacity capacity (Some d) false false in
      check! sldns_buffer_invariant b; Ok (Some b)
  end.

Definition sldns_buffer_new_frm_data (block : option (list Z))
    (data : list Z) (size : Z) : outcome sldns_buffer :=
  match block with
  | None => Ok (mk_buffer 0 size size None false true)
  | Some _ =>
      bytes ← read_bytes size data;
      let b := mk_buffer 0 size size (Some bytes) false false in
      check! sldns_buffer_invariant b; Ok b
  end.

Definition sldns_buffer_init_frm_data (data : list Z) (size : Z) : sldns_buffer :=
  mk_buffer 0 size size (Some data) true false.

(** ** Cursor *)

Definition sldns_buffer_clear (b : sldns_buffer) : outcome sldns_buffer :=
  check! sldns_buffer_invariant b;
  Ok (mk_buffer 0 b.(_capacity) b.(_capacity) b.(_data) b.(_fixed) b.(_status_err)).

Definition sldns_buffer_flip (b : sldns_buffer) : outcome sldns_buffer :=
  check! sldns_buffer_invariant b;
  Ok (mk_buffer 0 b.(_position) b.(_capacity) b.(_data) b.(_fixed) b.(_status_err)).

Definition sldns_buffer_rewind (b : sldns_buffer) : outcome sldns_buffer :=
  check! sldns_buffer_invariant b; Ok (set_pos b 0).

Definition sldns_buffer_position (b : sldns_buffer) : Z := b.(_position).

Definition sldns_buffer_set_position (b : sldns_buffer) (mark : Z) : outcome sldns_buffer :=
  check! (mark <=? b.(_limit)); Ok (set_pos b mark).

(** [count] is a [ssize_t]: the sum is computed in [size_t]. *)
Definition sldns_buffer_skip (b : sldns_buffer) (count : Z) : outcome sldns_buffer :=
  check! (u64 (b.(_position) + count) <=? b.(_limit));
  Ok (set_pos b (u64 (b.(_position) + count))).

Definition sldns_buffer_limit (b : sldns_buffer) : Z := b.(_limit).

Definition sldns_buffer_set_limit (b : sldns_buffer) (limit : Z) : outcome sldns_buffer :=
  check! (limit <=? b.(_capacity));
  Ok (mk_buffer (if limit <? b.(_position) then limit else b.(_position))
        limit b.(_capacity) b.(_data) b.(_fixed) b.(_status_err)).

Definition sldns_buffer_capacity (b : sldns_buffer) : Z := b.(_capacity).

(** [block] is what [realloc] returned: the old bytes that fit come first. *)
Definition sldns_buffer_set_capacity (block : option (list Z))
    (b : sldns_buffer) (capacity : Z) : outcome (Z * sldns_buffer) :=
  check! sldns_buffer_invariant b;
  check! ((b.(_position) <=? capacity) && negb b.(_fixed));
  old ← the_data b;
  match block with
  | None => Ok (0, set_err b)
  | Some fresh =>
      let d := ztake capacity old ++ zdrop (zlen old) (ztake capacity fresh) in
      Ok (1, mk_buffer b.(_position) capacity capacity (Some d) b.(_fixed) b.(_status_err))
  end.

(** [realloc] is the allocator's answer for the size asked. *)
Definition sldns_buffer_reserve (realloc : Z -> option (list Z))
    (b : sldns_buffer) (amount : Z) : outcome (Z * sldns_buffer) :=
  check! sldns_buffer_invariant b;
  check! (negb b.(_fixed));
  let need := u64 (b.(_position) + amount) in
  if b.(_capacity) <? need then
    let new_capacity := u64 (b.(_capacity) * 3) / 2 in
    let new_capacity := if new_capacity <? need then need else new_capacity in
    '(r, b1) ← sldns_buffer_set_capacity (realloc new_capacity) b new_capacity;
    if r =? 0 then Ok (0, set_err b1)
    else Ok (1, mk_buffer b1.(_position) b1.(_capacity) b1.(_capacity) b1.(_data)
                  b1.(_fixed) b1.(_status_err))
  else
    Ok (1, mk_buffer b.(_position) b.(_capacity) b.(_capacity) b.(_data)
             b.(_fixed) b.(_status_err)).

(** ** Pointers into the data *)

Definition sldns_buffer_at (b : sldns_buffer) (at_ : Z) : outcome (list Z) :=
  check! (at_ <=? b.(_limit)); d ← the_data b; advance at_ d.

Definition sldns_buffer_begin (b : sldns_buffer) : outcome (list Z) := sldns_buffer_at b 0.
Definition sldns_buffer_end (b : sldns_buffer) : outcome (list Z) := sldns_buffer_at b b.(_limit).
Definition sldns_buffer_current (b : sldns_buffer) : outcome (list Z) :=
  sldns_buffer_at b b.(_position).

Definition sldns_buffer_remaining_at (b : sldns_buffer) (at_ : Z) : outcome Z :=
  check! sldns_buffer_invariant b;
  check! (at_ <=? b.(_limit));
  Ok (if at_ <? b.(_limit) then b.(_limit) - at_ else 0).

Definition sldns_buffer_remaining (b : sldns_buffer) : outcome Z :=
  sldns_buffer_remaining_at b b.(_position).

Definition sldns_buffer_available_at (b : sldns_buffer) (at_ count : Z) : outcome bool :=
  r ← sldns_buffer_remaining_at b at_; Ok (count <=? r).

Definition sldns_buffer_available (b : sldns_buffer) (count : Z) : outcome bool :=
  sldns_buffer_available_at b b.(_position) count.

(** ** Writing *)

(** [memcpy(data + at, bytes, n)] on the block. *)
Definition splice (d : list Z) (at_ : Z) (bytes : list Z) : outcome (list Z) :=
  if (0 <=? at_) && (at_ + zlen bytes <=? zlen d)
  then Ok (ztake at_ d ++ bytes ++ zdrop (at_ + zlen bytes) d) else Fault Undefined.

Definition sldns_buffer_write_at (b : sldns_buffer) (at_ : Z) (data : list Z) (count : Z)
    : outcome sldns_buffer :=
  av ← sldns_buffer_available_at b at_ count;
  check! av;
  bytes ← read_bytes count data;
  d ← the_data b; d' ← splice d at_ bytes; Ok (set_data b d').

(** [memset(data + at, c, count)] converts [c] to an unsigned char. *)
Definition sldns_buffer_set_at (b : sldns_buffer) (at_ c count : Z) : outcome sldns_buffer :=
  av ← sldns_buffer_available_at b at_ count;
  check! av;
  d ← the_data b; d' ← splice d at_ (replicate (Z.to_nat count) (u8 c)); Ok (set_data b d').

(** [buffer->_position += count] after a write or a read. *)
Definition bump (b : sldns_buffer) (count : Z) : sldns_buffer :=
  set_pos b (u64 (b.(_position) + count)).

Definition sldns_buffer_write (b : sldns_buffer) (data : list Z) (count : Z)
    : outcome sldns_buffer :=
  b' ← sldns_buffer_write_at b b.(_position) data count; Ok (bump b' count).

(** A C string is its bytes up to the first NUL; [strlen] needs the NUL. *)
Fixpoint c_strlen (s : list Z) : outcome Z :=
  match s with
  | [] => Fault Undefined
  | c :: s' => if c =? 0 then Ok 0 else n ← c_strlen s'; Ok (1 + n)
  end.

Definition sldns_buffer_write_string_at (b : sldns_buffer) (at_ : Z) (str : list Z)
    : outcome sldns_buffer :=
  n ← c_strlen str; sldns_buffer_write_at b at_ str n.

Definition sldns_buffer_write_string (b : sldns_buffer) (str : list Z)
    : outcome sldns_buffer :=
  n ← c_strlen str; sldns_buffer_write b str n.

(** The common shape of the fixed-width stores: check the room, store. *)
Definition write_raw_at (b : sldns_buffer) (at_ : Z) (bytes : list Z) : outcome sldns_buffer :=
  av ← sldns_buffer_available_at b at_ (zlen bytes);
  check! av;
  d ← the_data b; d' ← splice d at_ bytes; Ok (set_data b d').

Definition sldns_buffer_write_u8_at (b : sldns_buffer) (at_ data : Z) : outcome sldns_buffer :=
  write_raw_at b at_ [data].
Definition sldns_buffer_write_u8 (b : sldns_buffer) (data : Z) : outcome sldns_buffer :=
  b' ← sldns_buffer_write_u8_at b b.(_position) data; Ok (bump b' 1).

Definition sldns_buffer_write_u16_at (b : sldns_buffer) (at_ data : Z) : outcome sldns_buffer :=
  write_raw_at b at_ (sldns_write_uint16 data).
Definition sldns_buffer_write_u16 (b : sldns_buffer) (data : Z) : outcome sldns_buffer :=
  b' ← sldns_buffer_write_u16_at b b.(_position) data; Ok (bump b' 2).

Definition sldns_buffer_write_u32_at (b : sldns_buffer) (at_ data : Z) : outcome sldns_buffer :=
  write_raw_at b at_ (sldns_write_uint32 data).
Definition sldns_buffer_write_u32 (b : sldns_buffer) (data : Z) : outcome sldns_buffer :=
  b' ← sldns_buffer_write_u32_at b b.(_position) data; Ok (bump b' 4).

Definition sldns_buffer_write_u48_at (b : sldns_buffer) (at_ data : Z) : outcome sldns_buffer :=
  write_raw_at b at_ (sldns_write_uint48 data).
Definition sldns_buffer_write_u48 (b : sldns_buffer) (data : Z) : outcome sldns_buffer :=
  b' ← sldns_buffer_write_u48_at b b.(_position) data; Ok (bump b' 6).

(** ** Reading *)

Definition sldns_buffer_read_at (b : sldns_buffer) (at_ count : Z) : outcome (list Z) :=
  av ← sldns_buffer_available_at b at_ count;
  check! av;
  d ← the_data b; p ← advance at_ d; read_bytes count p.

Definition sldns_buffer_read (b : sldns_buffer) (count : Z)
    : outcome (list Z * sldns_buffer) :=
  r ← sldns_buffer_read_at b b.(_position) count; Ok (r, bump b count).

Definition sldns_buffer_read_u8_at (b : sldns_buffer) (at_ : Z) : outcome Z :=
  av ← sldns_buffer_available_at b at_ 1;
  check! av;
  d ← the_data b; index d at_.
Definition sldns_buffer_read_u8 (b : sldns_buffer) : outcome (Z * sldns_buffer) :=
  r ← sldns_buffer_read_u8_at b b.(_position); Ok (r, bump b 1).

Definition sldns_buffer_read_u16_at (b : sldns_buffer) (at_ : Z) : outcome Z :=
  av ← sldns_buffer_available_at b at_ 2;
  check! av;
  d ← the_data b; p ← advance at_ d; sldns_read_uint16 p.
Definition sldns_buffer_read_u16 (b : sldns_buffer) : outcome (Z * sldns_buffer) :=
  r ← sldns_buffer_read_u16_at b b.(_position); Ok (r, bump b 2).

Definition sldns_buffer_read_u32_at (b : sldns_buffer) (at_ : Z) : outcome Z :=
  av ← sldns_buffer_available_at b at_ 4;
  check! av;
  d ← the_data b; p ← advance at_ d; sldns_read_uint32 p.
Definition sldns_buffer_read_u32 (b : sldns_buffer) : outcome (Z * sldns_buffer) :=
  r ← sldns_buffer_read_u32_at b b.(_position); Ok (r, bump b 4).

(** ** Status, copy *)

Definition sldns_buffer_status (b : sldns_buffer) : Z := c_bool b.(_status_err).

(** [None] is a NULL buffer. *)
Definition sldns_buffer_status_ok (b : option sldns_buffer) : bool :=
  match b with Some b => sldns_buffer_status b =? 0 | None => false end.

Definition sldns_buffer_copy (result from : sldns_buffer) : outcome sldns_buffer :=
  let tocopy := sldns_buffer_limit from in
  let tocopy := if sldns_buffer_capacity result <? tocopy
                then sldns_buffer_capacity result else tocopy in
  r1 ← sldns_buffer_clear result;
  src ← sldns_buffer_begin from;
  r2 ← sldns_buffer_write r1 src tocopy;
  sldns_buffer_flip r2.

(** [formatted] is what [vsnprintf] makes of the format and its arguments
    ([None]: it reports an error).  It stores at most [remaining - 1] bytes and
    a NUL, and returns the length of the whole formatted text. *)
Definition sldns_buffer_printf (formatted : option (list Z)) (b : sldns_buffer)
    : outcome (Z * sldns_buffer) :=
  if sldns_buffer_status_ok (Some b) then
    check! sldns_buffer_invariant b;
    check! (b.(_limit) =? b.(_capacity));
    remaining ← sldns_buffer_remaining b;
    match formatted with
    | None => Ok (-1, set_err b)
    | Some text =>
        let stored := if remaining =? 0 then [] else ztake (remaining - 1) text ++ [0] in
        d ← the_data b;
        d' ← splice d b.(_position) stored;
        Ok (zlen text, bump (set_data b d') (zlen text))
    end
  else Ok (0, b).

(** ** Well-formed buffers

    [buf_ok b d]: the block of [b] is [d], as long as [_capacity] says, and the
    cursor is in order.  Objects are smaller than [2^63] bytes (PTRDIFF_MAX). *)

Record buf_ok (b : sldns_buffer) (d : list Z) : Prop := {
  bo_data : b.(_data) = Some d;
  bo_len : zlen d = b.(_capacity);
  bo_pos : 0 <= b.(_position) <= b.(_limit);
  bo_lim : b.(_limit) <= b.(_capacity);
  bo_cap : b.(_capacity) < 2 ^ 63;
  bo_bytes : bytes_ok d;
}.

Definition buffer_wf (b : sldns_buffer) : Prop := exists d, buf_ok b d.

#[export] Hint Resolve bo_data bo_len bo_pos bo_lim bo_cap bo_bytes : cwd.

Lemma invariant_ok b d : buf_ok b d -> sldns_buffer_invariant b = true.
Proof.
  intros []. unfold sldns_buffer_invariant. rewrite bo_data0.
  rewrite !andb_true_iff, !Z.leb_le. lia.
Qed.

Lemma the_data_ok b d : buf_ok b d -> the_data b = Ok d.
Proof. intros []. unfold the_data. by rewrite bo_data0. Qed.

Lemma available_at_ok b d at_ n :
  buf_ok b d -> 0 <= at_ -> 0 <= n ->
  at_ <= b.(_limit) ->
  sldns_buffer_available_at b at_ n = Ok (at_ + n <=? b.(_limit)).
Proof.
  intros H Ha Hn Hl. unfold sldns_buffer_available_at, sldns_buffer_remaining_at.
  rewrite (invariant_ok _ _ H). cbn [c_assert mbind outcome_bind].
  rewrite (proj2 (Z.leb_le _ _) Hl). cbn [c_assert mbind outcome_bind].
  f_equal. destruct (Z.ltb_spec at_ (_limit b)); lia.
Qed.

Lemma available_at_fault b d at_ n :
  buf_ok b d -> b.(_limit) < at_ -> sldns_buffer_available_at b at_ n = Fault Assertion.
Proof.
  intros H Ha. unfold sldns_buffer_available_at, sldns_buffer_remaining_at.
  rewrite (invariant_ok _ _ H). cbn [c_assert mbind outcome_bind].
  by rewrite (proj2 (Z.leb_gt _ _) Ha).
Qed.

(** Every access is guarded by [available_at]: it goes through exactly when the
    range lies below the limit. *)
Lemma guarded {A} b d at_ n (k : outcome A) :
  buf_ok b d -> 0 <= at_ -> 0 <= n ->
  (av ← sldns_buffer_available_at b at_ n; check! av; k)
  = if at_ + n <=? b.(_limit) then k else Fault Assertion.
Proof.
  intros H Ha Hn. destruct (Z.le_gt_cases at_ (_limit b)) as [Hl|Hl].
  - rewrite (available_at_ok _ _ _ _ H Ha Hn Hl), bind_Ok.
    by destruct (at_ + n <=? _limit b).
  - rewrite (available_at_fault _ _ _ _ H Hl).
    rewrite (proj2 (Z.leb_gt _ _)) by lia. done.
Qed.

Definition spliced (d : list Z) (at_ : Z) (bytes : list Z) : list Z :=
  ztake at_ d ++ bytes ++ zdrop (at_ + zlen bytes) d.

Lemma splice_ok d at_ bytes :
  0 <= at_ -> at_ + zlen bytes <= zlen d -> splice d at_ bytes = Ok (spliced d at_ bytes).
Proof.
  intros. unfold splice.
  by rewrite (proj2 (Z.leb_le _ _)), (proj2 (Z.leb_le _ _)) by lia.
Qed.

Lemma zlen_spliced d at_ bytes :
  0 <= at_ -> at_ + zlen bytes <= zlen d -> zlen (spliced d at_ bytes) = zlen d.
Proof.
  intros. pose proof (zlen_nonneg bytes).
  unfold spliced. rewrite !zlen_app, zlen_ztake, zlen_zdrop by lia. lia.
Qed.

Lemma bytes_ok_spliced d at_ bytes :
  bytes_ok d -> bytes_ok bytes -> bytes_ok (spliced d at_ bytes).
Proof. intros. unfold spliced. rewrite !Forall_app. auto with cwd. Qed.

Lemma set_data_ok b d d' :
  buf_ok b d -> zlen d' = zlen d -> bytes_ok d' -> buf_ok (set_data b d') d'.
Proof. intros [] ? ?. split; simpl; auto; lia. Qed.

Lemma set_pos_ok b d p : buf_ok b d -> 0 <= p <= b.(_limit) -> buf_ok (set_pos b p) d.
Proof. intros [] ?. split; simpl; auto; lia. Qed.

Lemma spliced_ok b d at_ bytes :
  buf_ok b d -> 0 <= at_ -> at_ + zlen bytes <= b.(_limit) -> bytes_ok bytes ->
  buf_ok (set_data b (spliced d at_ bytes)) (spliced d at_ bytes).
Proof.
  intros H ???. destruct H as [] eqn:E. clear E.
  apply set_data_ok with d; [done| |].
  - apply zlen_spliced; lia.
  - by apply bytes_ok_spliced.
Qed.

Lemma bump_ok b d n :
  buf_ok b d -> 0 <= n -> b.(_position) + n <= b.(_limit) ->
  bump b n = set_pos b (b.(_position) + n) /\ buf_ok (bump b n) d.
Proof.
  intros H Hn Hl.
  assert (u64 (_position b + n) = _position b + n) as E.
  { apply wrap_small. destruct H. unfold in_u. lia. }
  unfold bump. rewrite E. split; [done|]. apply set_pos_ok; [done|].
  destruct H. lia.
Qed.

(** ** Each access, in full: the result when the range fits, [Fault] otherwise *)

Lemma write_raw_at_spec b d at_ bytes :
  buf_ok b d -> 0 <= at_ ->
  write_raw_at b at_ bytes =
    if at_ + zlen bytes <=? b.(_limit)
    then Ok (set_data b (spliced d at_ bytes)) else Fault Assertion.
Proof.
  intros H Ha. unfold write_raw_at.
  rewrite (guarded b d) by (done || apply zlen_nonneg).
  destruct (Z.leb_spec (at_ + zlen bytes) (_limit b)); [|done].
  rewrite (the_data_ok _ _ H), bind_Ok, splice_ok; [done|done|].
  destruct H; lia.
Qed.

Lemma write_at_spec b d at_ data n :
  buf_ok b d -> 0 <= at_ -> 0 <= n <= zlen data ->
  sldns_buffer_write_at b at_ data n =
    if at_ + n <=? b.(_limit)
    then Ok (set_data b (spliced d at_ (ztake n data))) else Fault Assertion.
Proof.
  intros H Ha Hn. unfold sldns_buffer_write_at.
  rewrite (guarded b d) by (done || lia).
  destruct (Z.leb_spec (at_ + n) (_limit b)); [|done].
  unfold read_bytes. rewrite !(proj2 (Z.leb_le _ _)) by lia. cbn [andb].
  rewrite bind_Ok, (the_data_ok _ _ H), bind_Ok, splice_ok; [done|done|].
  rewrite zlen_ztake by lia. destruct H; lia.
Qed.

Lemma set_at_spec b d at_ c n :
  buf_ok b d -> 0 <= at_ -> 0 <= n ->
  sldns_buffer_set_at b at_ c n =
    if at_ + n <=? b.(_limit)
    then Ok (set_data b (spliced d at_ (replicate (Z.to_nat n) (u8 c)))) else Fault Assertion.
Proof.
  intros H Ha Hn. unfold sldns_buffer_set_at.
  rewrite (guarded b d) by (done || lia).
  destruct (Z.leb_spec (at_ + n) (_limit b)); [|done].
  rewrite (the_data_ok _ _ H), bind_Ok, splice_ok; [done|done|].
  unfold zlen at 1. rewrite length_replicate. destruct H; lia.
Qed.

Lemma read_at_spec b d at_ n :
  buf_ok b d -> 0 <= at_ -> 0 <= n ->
  sldns_buffer_read_at b at_ n =
    if at_ + n <=? b.(_limit) then Ok (ztake n (zdrop at_ d)) else Fault Assertion.
Proof.
  intros H Ha Hn. unfold sldns_buffer_read_at.
  rewrite (guarded b d) by (done || lia).
  destruct (Z.leb_spec (at_ + n) (_limit b)); [|done].
  rewrite (the_data_ok _ _ H), bind_Ok. destruct H.
  unfold advance. rewrite !(proj2 (Z.leb_le _ _)) by lia. cbn [andb]. rewrite bind_Ok.
  unfold read_bytes. rewrite !(proj2 (Z.leb_le _ _)); [done| |lia].
  rewrite zlen_zdrop by lia. lia.
Qed.

Lemma read_u8_at_spec b d at_ :
  buf_ok b d -> 0 <= at_ ->
  sldns_buffer_read_u8_at b at_ = if at_ + 1 <=? b.(_limit) then index d at_ else Fault Assertion.
Proof.
  intros H Ha. unfold sldns_buffer_read_u8_at. rewrite (guarded b d) by (done || lia).
  destruct (at_ + 1 <=? _limit b); [|done]. by rewrite (the_data_ok _ _ H).
Qed.

Lemma at_ok b d at_ :
  buf_ok b d -> 0 <= at_ <= b.(_limit) -> sldns_buffer_at b at_ = Ok (zdrop at_ d).
Proof.
  intros H Ha. unfold sldns_buffer_at. rewrite (proj2 (Z.leb_le _ _)) by lia.
  simpl. rewrite (the_data_ok _ _ H), bind_Ok. unfold advance. destruct H.
  by rewrite !(proj2 (Z.leb_le _ _)) by lia.
Qed.

Lemma read_u16_at_spec b d at_ :
  buf_ok b d -> 0 <= at_ ->
  sldns_buffer_read_u16_at b at_ =
    if at_ + 2 <=? b.(_limit) then sldns_read_uint16 (zdrop at_ d) else Fault Assertion.
Proof.
  intros H Ha. unfold sldns_buffer_read_u16_at. rewrite (guarded b d) by (done || lia).
  destruct (Z.leb_spec (at_ + 2) (_limit b)); [|done]. rewrite (the_data_ok _ _ H), bind_Ok.
  unfold advance. destruct H. by rewrite !(proj2 (Z.leb_le _ _)) by lia.
Qed.

Lemma read_u32_at_spec b d at_ :
  buf_ok b d -> 0 <= at_ ->
  sldns_buffer_read_u32_at b at_ =
    if at_ + 4 <=? b.(_limit) then sldns_read_uint32 (zdrop at_ d) else Fault Assertion.
Proof.
  intros H Ha. unfold sldns_buffer_read_u32_at. rewrite (guarded b d) by (done || lia).
  destruct (Z.leb_spec (at_ + 4) (_limit b)); [|done]. rewrite (the_data_ok _ _ H), bind_Ok.
  unfold advance. destruct H. by rewrite !(proj2 (Z.leb_le _ _)) by lia.
Qed.

(** Big-endian encodings read back, whatever follows them in memory. *)
Lemma read_write_uint16 v r :
  in_u 16 v -> sldns_read_uint16 (sldns_write_uint16 v ++ r) = Ok v.
Proof.
  unfold in_u. intros H. unfold sldns_read_uint16, sldns_write_uint16, index. simpl.
  f_equal. rewrite !land_255, Z.shiftr_div_pow2 by lia.
  rewrite lor_shiftl_add; [divlia|lia|]. apply Z.mod_pos_bound. lia.
Qed.

Lemma read_write_uint32 v r :
  in_u 32 v -> sldns_read_uint32 (sldns_write_uint32 v ++ r) = Ok v.
Proof.
  unfold in_u. intros H. unfold sldns_read_uint32, sldns_write_uint32, index. simpl.
  f_equal. rewrite !land_255, !Z.shiftr_div_pow2 by lia.
  pose proof (Z.mod_pos_bound (v / 2 ^ 24) 256 eq_refl).
  pose proof (Z.mod_pos_bound (v / 2 ^ 16) 256 eq_refl).
  pose proof (Z.mod_pos_bound (v / 2 ^ 8) 256 eq_refl).
  pose proof (Z.mod_pos_bound v 256 eq_refl).
  rewrite <- !Z.lor_assoc.
  rewrite (lor_shiftl_add (_ mod _) (v mod 256) 8) by lia.
  rewrite (lor_shiftl_add _ _ 16) by lia.
  rewrite (lor_shiftl_add _ _ 24) by lia. divlia.
Qed.

Lemma write_uint16_bytes v : bytes_ok (sldns_write_uint16 v).
Proof. repeat constructor; rewrite land_255; apply Z.mod_pos_bound; lia. Qed.
Lemma write_uint32_bytes v : bytes_ok (sldns_write_uint32 v).
Proof. repeat constructor; rewrite land_255; apply Z.mod_pos_bound; lia. Qed.
Lemma write_uint48_bytes v : bytes_ok (sldns_write_uint48 v).
Proof. repeat constructor; rewrite land_255; apply Z.mod_pos_bound; lia. Qed.
#[export] Hint Resolve write_uint16_bytes write_uint32_bytes write_uint48_bytes : cwd.

(** ** The operations of a client, as data

    [run_op] is one call of the interface, and the buffer after it: what a call
    returns is left out, but for [OpNew], which puts the new buffer in the place of the
    old one if there is one.  [op_typed] says that the arguments of a call
    have their C types (and that [malloc] and [realloc] return blocks of the size asked,
    smaller than PTRDIFF_MAX); [op_fits] is the precondition a client has to
    check before the call.  [sldns_buffer_printf] is apart, at the end of this file. *)

Inductive buf_op :=
  | OpClear | OpFlip | OpRewind
  | OpSetPosition (mark : Z) | OpSkip (count : Z) | OpSetLimit (limit : Z)
  | OpReserve (realloc : Z -> option (list Z)) (amount : Z)
  | OpWriteAt (at_ : Z) (data : list Z) (count : Z)
  | OpWrite (data : list Z) (count : Z)
  | OpSetAt (at_ c count : Z)
  | OpWriteU8At (at_ v : Z) | OpWriteU8 (v : Z)
  | OpWriteU16At (at_ v : Z) | OpWriteU16 (v : Z)
  | OpWriteU32At (at_ v : Z) | OpWriteU32 (v : Z)
  | OpWriteU48At (at_ v : Z) | OpWriteU48 (v : Z)
  | OpRead (count : Z) | OpReadU8 | OpReadU16 | OpReadU32
  | OpWriteStringAt (at_ : Z) (str : list Z) | OpWriteString (str : list Z)
  | OpReadAt (at_ count : Z) | OpReadU8At (at_ : Z) | OpReadU16At (at_ : Z) | OpReadU32At (at_ : Z)
  | OpAt (at_ : Z) | OpBegin | OpEnd | OpCurrent
  | OpRemainingAt (at_ : Z) | OpRemaining
  | OpAvailableAt (at_ count : Z) | OpAvailable (count : Z)
  | OpPosition | OpLimit | OpCapacity | OpStatus
  | OpSetCapacity (block : option (list Z)) (capacity : Z)
  | OpCopy (from : sldns_buffer)
  | OpNew (struct_ok : bool) (block : option (list Z)) (capacity : Z)
  | OpNewFrmData (block : option (list Z)) (data : list Z) (size : Z)
  | OpInitFrmData (data : list Z) (size : Z).

(** A call that only looks at the buffer. *)
Definition looks {A} (b : sldns_buffer) (r : outcome A) : outcome sldns_buffer := (fun _ => b) <$> r.

Definition run_op (b : sldns_buffer) (op : buf_op) : outcome sldns_buffer :=
  match op with
  | OpClear => sldns_buffer_clear b
  | OpFlip => sldns_buffer_flip b
  | OpRewind => sldns_buffer_rewind b
  | OpSetPosition m => sldns_buffer_set_position b m
  | OpSkip c => sldns_buffer_skip b c
  | OpSetLimit l => sldns_buffer_set_limit b l
  | OpReserve realloc n => snd <$> sldns_buffer_reserve realloc b n
  | OpWriteAt a d n => sldns_buffer_write_at b a d n
  | OpWrite d n => sldns_buffer_write b d n
  | OpSetAt a c n => sldns_buffer_set_at b a c n
  | OpWriteU8At a v => sldns_buffer_write_u8_at b a v
  | OpWriteU8 v => sldns_buffer_write_u8 b v
  | OpWriteU16At a v => sldns_buffer_write_u16_at b a v
  | OpWriteU16 v => sldns_buffer_write_u16 b v
  | OpWriteU32At a v => sldns_buffer_write_u32_at b a v
  | OpWriteU32 v => sldns_buffer_write_u32 b v
  | OpWriteU48At a v => sldns_buffer_write_u48_at b a v
  | OpWriteU48 v => sldns_buffer_write_u48 b v
  | OpRead n => snd <$> sldns_buffer_read b n
  | OpReadU8 => snd <$> sldns_buffer_read_u8 b
  | OpReadU16 => snd <$> sldns_buffer_read_u16 b
  | OpReadU32 => snd <$> sldns_buffer_read_u32 b
  | OpWriteStringAt a str => sldns_buffer_write_string_at b a str
  | OpWriteString str => sldns_buffer_write_string b str
  | OpReadAt a n => looks b (sldns_buffer_read_at b a n)
  | OpReadU8At a => looks b (sldns_buffer_read_u8_at b a)
  | OpReadU16At a => looks b (sldns_buffer_read_u16_at b a)
  | OpReadU32At a => looks b (sldns_buffer_read_u32_at b a)
  | OpAt a => looks b (sldns_buffer_at b a)
  | OpBegin => looks b (sldns_buffer_begin b)
  | OpEnd => looks b (sldns_buffer_end b)
  | OpCurrent => looks b (sldns_buffer_current b)
  | OpRemainingAt a => looks b (sldns_buffer_remaining_at b a)
  | OpRemaining => looks b (sldns_buffer_remaining b)
  | OpAvailableAt a n => looks b (sldns_buffer_available_at b a n)
  | OpAvailable n => looks b (sldns_buffer_available b n)
  | OpPosition => looks b (Ok (sldns_buffer_position b))
  | OpLimit => looks b (Ok (sldns_buffer_limit b))
  | OpCapacity => looks b (Ok (sldns_buffer_capacity b))
  | OpStatus => looks b (Ok (sldns_buffer_status b, sldns_buffer_status_ok (Some b)))
  | OpSetCapacity block n => snd <$> sldns_buffer_set_capacity block b n
  | OpCopy from => sldns_buffer_copy b from
  | OpNew struct_ok block n => r ← sldns_buffer_new struct_ok block n; Ok (default b r)
  | OpNewFrmData block data n => sldns_buffer_new_frm_data block data n
  | OpInitFrmData data n => Ok (sldns_buffer_init_frm_data data n)
  end.

(** What [malloc] or [realloc] answers for [n] bytes. *)
Definition block_ok (block : option (list Z)) (n : Z) : Prop :=
  forall d, block = Some d -> zlen d = n /\ n < 2 ^ 63 /\ bytes_ok d.

(** [realloc] answers with a block of the size asked, or NULL when the size
    cannot be an object's size. *)
Definition realloc_ok (realloc : Z -> option (list Z)) : Prop :=
  forall n d, 0 <= n -> realloc n = Some d -> zlen d = n /\ n < 2 ^ 63 /\ bytes_ok d.

Definition op_typed (op : buf_op) : Prop :=
  match op with
  | OpClear | OpFlip | OpRewind | OpReadU8 | OpReadU16 | OpReadU32 => True
  | OpBegin | OpEnd | OpCurrent | OpRemaining | OpPosition | OpLimit | OpCapacity | OpStatus => True
  | OpReadU8At n | OpReadU16At n | OpReadU32At n | OpAt n | OpRemainingAt n | OpAvailable n => in_u 64 n
  | OpReadAt a n | OpAvailableAt a n => in_u 64 a /\ in_u 64 n
  | OpWriteStringAt a str => in_u 64 a /\ bytes_ok str /\ 0 ∈ str
  | OpWriteString str => bytes_ok str /\ 0 ∈ str
  | OpSetCapacity block n => in_u 64 n /\ block_ok block n
  | OpCopy from => buffer_wf from
  | OpNew _ block n => in_u 64 n /\ block_ok block n
  | OpNewFrmData _ data n => 0 <= n <= zlen data /\ n < 2 ^ 63 /\ bytes_ok data
  | OpInitFrmData data n => n = zlen data /\ n < 2 ^ 63 /\ bytes_ok data
  | OpSetPosition n | OpSetLimit n | OpRead n => in_u 64 n
  | OpSkip c => in_s 64 c
  | OpReserve realloc n => realloc_ok realloc /\ in_u 64 n
  | OpWriteAt a d n => in_u 64 a /\ 0 <= n <= zlen d /\ bytes_ok d
  | OpWrite d n => 0 <= n <= zlen d /\ bytes_ok d
  | OpSetAt a c n => in_u 64 a /\ in_s 32 c /\ in_u 64 n
  | OpWriteU8At a v => in_u 64 a /\ is_byte v
  | OpWriteU8 v => is_byte v
  | OpWriteU16At a v => in_u 64 a /\ in_u 16 v
  | OpWriteU16 v => in_u 16 v
  | OpWriteU32At a v => in_u 64 a /\ in_u 32 v
  | OpWriteU32 v => in_u 32 v
  | OpWriteU48At a v => in_u 64 a /\ in_u 64 v
  | OpWriteU48 v => in_u 64 v
  end.

(** The length of a C string. *)
Fixpoint text_len (str : list Z) : Z :=
  match str with
  | [] => 0
  | c :: str' => if c =? 0 then 0 else 1 + text_len str'
  end.

Definition op_fits (b : sldns_buffer) (op : buf_op) : bool :=
  let room at_ n := at_ + n <=? b.(_limit) in
  match op with
  | OpClear | OpFlip | OpRewind => true
  | OpBegin | OpEnd | OpCurrent | OpRemaining | OpAvailable _ | OpPosition | OpLimit | OpCapacity | OpStatus => true
  | OpCopy _ | OpNew _ _ _ | OpNewFrmData _ _ _ | OpInitFrmData _ _ => true
  | OpAt a | OpRemainingAt a | OpAvailableAt a _ => room a 0
  | OpReadAt a n => room a n
  | OpReadU8At a => room a 1
  | OpReadU16At a => room a 2
  | OpReadU32At a => room a 4
  | OpWriteStringAt a str => room a (text_len str)
  | OpWriteString str => room b.(_position) (text_len str)
  | OpSetCapacity _ n => (b.(_position) <=? n) && negb b.(_fixed)
  | OpSetPosition m => m <=? b.(_limit)
  | OpSkip c => (0 <=? b.(_position) + c) && (b.(_position) + c <=? b.(_limit))
  | OpSetLimit l => l <=? b.(_capacity)
  | OpReserve _ _ => negb b.(_fixed)
  | OpWriteAt a _ n | OpSetAt a _ n => room a n
  | OpWriteU8At a _ => room a 1
  | OpWriteU16At a _ => room a 2
  | OpWriteU32At a _ => room a 4
  | OpWriteU48At a _ => room a 6
  | OpWrite _ n | OpRead n => room b.(_position) n
  | OpWriteU8 _ | OpReadU8 => room b.(_position) 1
  | OpWriteU16 _ | OpReadU16 => room b.(_position) 2
  | OpWriteU32 _ | OpReadU32 => room b.(_position) 4
  | OpWriteU48 _ => room b.(_position) 6
  end.

(** The shape all the cursor-relative stores share. *)
Lemma write_seq_spec b d bytes n :
  buf_ok b d -> bytes_ok bytes -> n = zlen bytes ->
  let r := (b' ← write_raw_at b b.(_position) bytes; Ok (bump b' n)) in
  if b.(_position) + n <=? b.(_limit) then
    let d' := spliced d b.(_position) bytes in
    r = Ok (set_pos (set_data b d') (b.(_position) + n))
    /\ buf_ok (set_pos (set_data b d') (b.(_position) + n)) d'
  else r = Fault Assertion.
Proof.
  intros H Hb ->. pose proof (zlen_nonneg bytes). cbn zeta.
  rewrite (write_raw_at_spec _ _ _ _ H) by (destruct H; lia).
  destruct (Z.leb_spec (_position b + zlen bytes) (_limit b)); [|done].
  assert (buf_ok (set_data b (spliced d (_position b) bytes))
                 (spliced d (_position b) bytes)) as H'.
  { apply spliced_ok; [done|destruct H; lia|done|done]. }
  destruct (bump_ok _ _ (zlen bytes) H') as [E ?]; [lia|simpl; lia|].
  rewrite bind_Ok. simpl in E. rewrite E in *. done.
Qed.

Lemma write_seq_wf b d bytes n :
  buf_ok b d -> bytes_ok bytes -> n = zlen bytes ->
  let r := (b' ← write_raw_at b b.(_position) bytes; Ok (bump b' n)) in
  if b.(_position) + n <=? b.(_limit) then exists b', r = Ok b' /\ buffer_wf b'
  else r = Fault Assertion.
Proof.
  intros H Hb Hn. pose proof (write_seq_spec b d bytes n H Hb Hn) as W. cbn zeta in *.
  destruct (_position b + n <=? _limit b); [|done].
  destruct W as [-> W]. eexists. split; [done|]. by eexists.
Qed.

Lemma write_raw_at_wf b d at_ bytes n :
  buf_ok b d -> 0 <= at_ -> bytes_ok bytes -> n = zlen bytes ->
  if at_ + n <=? b.(_limit) then exists b', write_raw_at b at_ bytes = Ok b' /\ buffer_wf b'
  else write_raw_at b at_ bytes = Fault Assertion.
Proof.
  intros H Ha Hb ->. rewrite (write_raw_at_spec _ _ _ _ H Ha).
  destruct (Z.leb_spec (at_ + zlen bytes) (_limit b)); [|done].
  eexists. split; [done|]. eexists. by apply spliced_ok.
Qed.

Lemma bump_wf b d n :
  buf_ok b d -> 0 <= n -> b.(_position) + n <= b.(_limit) -> buffer_wf (bump b n).
Proof. intros H ??. eexists. by eapply bump_ok. Qed.

(** A cursor-relative read whose value is [v] when the range fits. *)
Lemma read_seq_wf {A} b d n (r : outcome A) :
  buf_ok b d -> 0 <= n ->
  (if b.(_position) + n <=? b.(_limit) then exists v, r = Ok v else r = Fault Assertion) ->
  let res := snd <$> (v ← r; Ok (v, bump b n)) in
  if b.(_position) + n <=? b.(_limit) then exists b', res = Ok b' /\ buffer_wf b'
  else res = Fault Assertion.
Proof.
  intros H Hn Hr. cbn zeta. destruct (Z.leb_spec (_position b + n) (_limit b)).
  - destruct Hr as [v ->]. simpl. eexists. split; [done|]. by eapply bump_wf.
  - by rewrite Hr.
Qed.

Lemma uint16_total d : 2 <= zlen d -> exists v, sldns_read_uint16 d = Ok v.
Proof.
  intros H. unfold sldns_read_uint16.
  destruct (index_ok d 0) as (? & -> & _); [lia|].
  destruct (index_ok d 1) as (? & -> & _); [lia|]. simpl. eauto.
Qed.

Lemma uint32_total d : 4 <= zlen d -> exists v, sldns_read_uint32 d = Ok v.
Proof.
  intros H. unfold sldns_read_uint32.
  destruct (index_ok d 0) as (? & -> & _); [lia|].
  destruct (index_ok d 1) as (? & -> & _); [lia|].
  destruct (index_ok d 2) as (? & -> & _); [lia|].
  destruct (index_ok d 3) as (? & -> & _); [lia|]. simpl. eauto.
Qed.

(** The growth step: the result when [realloc] answers, and when it does not. *)
Lemma set_capacity_wf realloc b d n :
  buf_ok b d -> realloc_ok realloc -> b.(_fixed) = false -> b.(_position) <= n ->
  (realloc n = None /\
   sldns_buffer_set_capacity (realloc n) b n = Ok (0, set_err b))
  \/ (exists d', sldns_buffer_set_capacity (realloc n) b n
        = Ok (1, mk_buffer b.(_position) n n (Some d') false b.(_status_err))
      /\ buf_ok (mk_buffer b.(_position) n n (Some d') false b.(_status_err)) d'
      /\ ztake (Z.min n (zlen d)) d' = ztake (Z.min n (zlen d)) d).
Proof.
  intros H Hr Hf Hn. unfold sldns_buffer_set_capacity.
  rewrite (invariant_ok _ _ H), Hf, (proj2 (Z.leb_le _ _) Hn). cbn [c_assert mbind outcome_bind andb negb].
  rewrite (the_data_ok _ _ H), bind_Ok.
  destruct (realloc n) as [fresh|] eqn:E; [right|left; done].
  destruct (Hr n fresh) as (Hl & Hn' & Hb); [destruct H; lia|done|]. eexists. split; [done|].
  pose proof (zlen_nonneg d). pose proof (zlen_nonneg fresh). destruct H.
  split; [split; simpl; try done; try lia|].
  - unfold zlen, ztake, zdrop in *.
    rewrite length_app, length_take, length_drop, length_take. lia.
  - rewrite Forall_app. auto with cwd.
  - unfold ztake, zdrop, zlen in *. rewrite take_app_le.
    + rewrite take_take. f_equal. lia.
    + rewrite length_take. lia.
Qed.

Lemma reserve_wf realloc b d n :
  buf_ok b d -> realloc_ok realloc -> in_u 64 n ->
  if negb b.(_fixed)
  then exists b', snd <$> sldns_buffer_reserve realloc b n = Ok b' /\ buffer_wf b'
  else snd <$> sldns_buffer_reserve realloc b n = Fault Assertion.
Proof.
  intros H Hr Hn. unfold sldns_buffer_reserve. rewrite (invariant_ok _ _ H).
  cbn [c_assert mbind outcome_bind].
  destruct (_fixed b) eqn:Hf; [done|]. cbn [c_assert mbind outcome_bind negb].
  set (need := u64 (_position b + n)).
  destruct (Z.ltb_spec (_capacity b) need) as [Hc|Hc].
  - set (nc := if _ <? need then need else _).
    assert (need <= nc) as Hnc.
    { subst nc. destruct (Z.ltb_spec (u64 (_capacity b * 3) / 2) need); lia. }
    destruct (set_capacity_wf realloc b d nc H Hr Hf) as [[_ ->]|(d' & -> & H' & _)].
    + destruct H; lia.
    + simpl. eexists. split; [done|]. exists d. destruct H. split; simpl; auto.
    + simpl. eexists. split; [done|]. exists d'. destruct H'. split; simpl in *; auto.
  - simpl. eexists. split; [done|]. exists d. destruct H. split; simpl; auto; lia.
Qed.

Lemma read_at_total b d n :
  buf_ok b d -> 0 <= n ->
  if b.(_position) + n <=? b.(_limit)
  then exists v, sldns_buffer_read_at b b.(_position) n = Ok v
  else sldns_buffer_read_at b b.(_position) n = Fault Assertion.
Proof.
  intros H Hn. rewrite (read_at_spec _ _ _ _ H) by (destruct H; lia).
  destruct (_position b + n <=? _limit b); eauto.
Qed.

Lemma read_ints_total b d :
  buf_ok b d ->
  (if b.(_position) + 1 <=? b.(_limit)
   then exists v, sldns_buffer_read_u8_at b b.(_position) = Ok v
   else sldns_buffer_read_u8_at b b.(_position) = Fault Assertion) /\
  (if b.(_position) + 2 <=? b.(_limit)
   then exists v, sldns_buffer_read_u16_at b b.(_position) = Ok v
   else sldns_buffer_read_u16_at b b.(_position) = Fault Assertion) /\
  (if b.(_position) + 4 <=? b.(_limit)
   then exists v, sldns_buffer_read_u32_at b b.(_position) = Ok v
   else sldns_buffer_read_u32_at b b.(_position) = Fault Assertion).
Proof.
  intros H. assert (0 <= _position b) as Hp by (destruct H; lia).
  rewrite (read_u8_at_spec _ _ _ H Hp), (read_u16_at_spec _ _ _ H Hp),
    (read_u32_at_spec _ _ _ H Hp). destruct H.
  split; [|split].
  - destruct (Z.leb_spec (_position b + 1) (_limit b)); [|done].
    destruct (index_ok d (_position b)) as (? & -> & _); [lia|]. eauto.
  - destruct (Z.leb_spec (_position b + 2) (_limit b)); [|done].
    apply uint16_total. rewrite zlen_zdrop; lia.
  - destruct (Z.leb_spec (_position b + 4) (_limit b)); [|done].
    apply uint32_total. rewrite zlen_zdrop; lia.
Qed.

Lemma cursor_ops_wf b d :
  buf_ok b d ->
  (exists b', sldns_buffer_clear b = Ok b' /\ buffer_wf b') /\
  (exists b', sldns_buffer_flip b = Ok b' /\ buffer_wf b') /\
  (exists b', sldns_buffer_rewind b = Ok b' /\ buffer_wf b').
Proof.
  intros H. unfold sldns_buffer_clear, sldns_buffer_flip, sldns_buffer_rewind.
  rewrite (invariant_ok _ _ H). simpl. destruct H.
  repeat split; eexists; (split; [done|]); exists d; split; simpl; auto; lia.
Qed.

Lemma skip_wf b d c :
  buf_ok b d -> in_s 64 c ->
  if (0 <=? b.(_position) + c) && (b.(_position) + c <=? b.(_limit))
  then exists b', sldns_buffer_skip b c = Ok b' /\ buffer_wf b'
  else sldns_buffer_skip b c = Fault Assertion.
Proof.
  intros H Hc. unfold sldns_buffer_skip. unfold in_s in Hc. simpl in Hc.
  pose proof (bo_pos _ _ H). pose proof (bo_lim _ _ H). pose proof (bo_cap _ _ H).
  destruct (Z.leb_spec 0 (_position b + c)); cbn [andb].
  - rewrite wrap_small by (unfold in_u; lia).
    destruct (Z.leb_spec (_position b + c) (_limit b)); [|done].
    simpl. eexists. split; [done|]. exists d. apply set_pos_ok; [done|lia].
  - replace (u64 (_position b + c)) with (_position b + c + 2 ^ 64).
    + by rewrite (proj2 (Z.leb_gt _ _)) by lia.
    + unfold wrap. apply Z.mod_unique with (-1); lia.
Qed.

Lemma set_limit_wf b d l :
  buf_ok b d -> 0 <= l ->
  if l <=? b.(_capacity)
  then exists b', sldns_buffer_set_limit b l = Ok b' /\ buffer_wf b'
  else sldns_buffer_set_limit b l = Fault Assertion.
Proof.
  intros H Hl. unfold sldns_buffer_set_limit.
  destruct (Z.leb_spec l (_capacity b)); [|done].
  simpl. eexists. split; [done|]. exists d. destruct H.
  split; simpl; auto; destruct (Z.ltb_spec l (_position b)); lia.
Qed.

Lemma set_position_wf b d m :
  buf_ok b d -> 0 <= m ->
  if m <=? b.(_limit)
  then exists b', sldns_buffer_set_position b m = Ok b' /\ buffer_wf b'
  else sldns_buffer_set_position b m = Fault Assertion.
Proof.
  intros H Hm. unfold sldns_buffer_set_position.
  destruct (Z.leb_spec m (_limit b)); [|done].
  simpl. eexists. split; [done|]. exists d. apply set_pos_ok; [done|lia].
Qed.

Lemma write_at_wf b d at_ data n :
  buf_ok b d -> 0 <= at_ -> 0 <= n <= zlen data -> bytes_ok data ->
  if at_ + n <=? b.(_limit)
  then exists b', sldns_buffer_write_at b at_ data n = Ok b' /\ buffer_wf b'
  else sldns_buffer_write_at b at_ data n = Fault Assertion.
Proof.
  intros H Ha Hn Hb. rewrite (write_at_spec _ _ _ _ _ H Ha Hn).
  destruct (Z.leb_spec (at_ + n) (_limit b)); [|done].
  eexists. split; [done|]. eexists. apply spliced_ok; auto with cwd.
  rewrite zlen_ztake; lia.
Qed.

Lemma write_wf b d data n :
  buf_ok b d -> 0 <= n <= zlen data -> bytes_ok data ->
  if b.(_position) + n <=? b.(_limit)
  then exists b', sldns_buffer_write b data n = Ok b' /\ buffer_wf b'
  else sldns_buffer_write b data n = Fault Assertion.
Proof.
  intros H Hn Hb. unfold sldns_buffer_write.
  rewrite (write_at_spec _ _ _ _ _ H) by (destruct H; lia).
  destruct (Z.leb_spec (_position b + n) (_limit b)); [|done].
  simpl. eexists. split; [done|]. eapply bump_wf; [|lia|done].
  apply spliced_ok; auto with cwd; [destruct H; lia|]. rewrite zlen_ztake; lia.
Qed.

Lemma set_at_wf b d at_ c n :
  buf_ok b d -> 0 <= at_ -> 0 <= n ->
  if at_ + n <=? b.(_limit)
  then exists b', sldns_buffer_set_at b at_ c n = Ok b' /\ buffer_wf b'
  else sldns_buffer_set_at b at_ c n = Fault Assertion.
Proof.
  intros H Ha Hn. rewrite (set_at_spec _ _ _ _ _ H Ha Hn).
  destruct (Z.leb_spec (at_ + n) (_limit b)); [|done].
  eexists. split; [done|]. eexists. apply spliced_ok; [done|done| |].
  - unfold zlen. rewrite length_replicate. lia.
  - apply Forall_replicate, wrap_range. lia.
Qed.

(** The read accesses, at any place. *)
Lemma looks_wf {A} b (r : outcome A) (fits : bool) :
  buffer_wf b -> (if fits then exists v, r = Ok v else r = Fault Assertion) ->
  if fits then exists b', looks b r = Ok b' /\ buffer_wf b' else looks b r = Fault Assertion.
Proof. destruct fits; [intros ? [v ->]; by exists b|by intros ? ->]. Qed.

Lemma read_at_any b d at_ n :
  buf_ok b d -> 0 <= at_ -> 0 <= n ->
  if at_ + n <=? b.(_limit) then exists v, sldns_buffer_read_at b at_ n = Ok v else sldns_buffer_read_at b at_ n = Fault Assertion.
Proof. intros H Ha Hn. rewrite (read_at_spec _ _ _ _ H Ha Hn). destruct (_ <=? _); eauto. Qed.

Lemma read_ints_any b d at_ :
  buf_ok b d -> 0 <= at_ ->
  (if at_ + 1 <=? b.(_limit) then exists v, sldns_buffer_read_u8_at b at_ = Ok v else sldns_buffer_read_u8_at b at_ = Fault Assertion) /\
  (if at_ + 2 <=? b.(_limit) then exists v, sldns_buffer_read_u16_at b at_ = Ok v else sldns_buffer_read_u16_at b at_ = Fault Assertion) /\
  (if at_ + 4 <=? b.(_limit) then exists v, sldns_buffer_read_u32_at b at_ = Ok v else sldns_buffer_read_u32_at b at_ = Fault Assertion).
Proof.
  intros H Ha. rewrite (read_u8_at_spec _ _ _ H Ha), (read_u16_at_spec _ _ _ H Ha), (read_u32_at_spec _ _ _ H Ha). destruct H.
  split; [|split].
  - destruct (Z.leb_spec (at_ + 1) (_limit b)); [|done]. destruct (index_ok d at_) as (? & -> & _); [lia|]. eauto.
  - destruct (Z.leb_spec (at_ + 2) (_limit b)); [|done]. apply uint16_total. rewrite zlen_zdrop; lia.
  - destruct (Z.leb_spec (at_ + 4) (_limit b)); [|done]. apply uint32_total. rewrite zlen_zdrop; lia.
Qed.

Lemma places_total b d at_ n :
  buf_ok b d -> 0 <= at_ -> 0 <= n ->
  (if at_ + 0 <=? b.(_limit) then exists v, sldns_buffer_at b at_ = Ok v else sldns_buffer_at b at_ = Fault Assertion) /\
  (if at_ + 0 <=? b.(_limit) then exists v, sldns_buffer_remaining_at b at_ = Ok v else sldns_buffer_remaining_at b at_ = Fault Assertion) /\
  (if at_ + 0 <=? b.(_limit) then exists v, sldns_buffer_available_at b at_ n = Ok v else sldns_buffer_available_at b at_ n = Fault Assertion).
Proof.
  intros H Ha Hn. rewrite Z.add_0_r. destruct (Z.leb_spec at_ (_limit b)) as [Hl|Hl].
  - rewrite (at_ok _ _ _ H), (available_at_ok _ _ _ _ H) by lia. unfold sldns_buffer_remaining_at. rewrite (invariant_ok _ _ H), (proj2 (Z.leb_le _ _) Hl). cbn. eauto 10.
  - rewrite (available_at_fault _ _ _ _ H Hl). unfold sldns_buffer_remaining_at, sldns_buffer_at. by rewrite (invariant_ok _ _ H), (proj2 (Z.leb_gt _ _) Hl).
Qed.

Lemma strlen_ok str : 0 ∈ str -> c_strlen str = Ok (text_len str) /\ 0 <= text_len str <= zlen str.
Proof.
  induction str as [|c str IH]; [by intros ?%not_elem_of_nil|]. intros Hin. rewrite zlen_cons. pose proof (zlen_nonneg str). cbn [c_strlen text_len].
  destruct (Z.eqb_spec c 0) as [->|]; [split; [done|lia]|]. apply elem_of_cons in Hin as [?|Hin]; [congruence|]. destruct (IH Hin) as [-> ?]. split; [done|lia].
Qed.

Lemma set_capacity_fits b d block n :
  buf_ok b d -> block_ok block n -> 0 <= n ->
  if (b.(_position) <=? n) && negb b.(_fixed)
  then exists b', snd <$> sldns_buffer_set_capacity block b n = Ok b' /\ buffer_wf b'
  else snd <$> sldns_buffer_set_capacity block b n = Fault Assertion.
Proof.
  intros H Hb Hn. destruct (Z.leb_spec (_position b) n) as [Hp|Hp]; cbn [andb].
  2:{ unfold sldns_buffer_set_capacity. by rewrite (invariant_ok _ _ H), (proj2 (Z.leb_gt _ _) Hp). }
  destruct (_fixed b) eqn:Hf; cbn [negb].
  { unfold sldns_buffer_set_capacity. by rewrite (invariant_ok _ _ H), Hf, andb_false_r. }
  destruct (set_capacity_wf (fun m => if m =? n then block else None) b d n H) as [[E1 E2]|(d' & E & H' & _)]; try done.
  { intros m x Hm. destruct (Z.eqb_spec m n) as [->|]; [by apply Hb|done]. }
  - rewrite Z.eqb_refl in E2. rewrite E2. cbn. eexists. split; [done|]. exists d. destruct H. by split.
  - rewrite Z.eqb_refl in E. rewrite E. cbn. eexists. split; [done|]. by exists d'.
Qed.

Lemma copy_wf b d from :
  buf_ok b d -> buffer_wf from -> exists b', sldns_buffer_copy b from = Ok b' /\ buffer_wf b'.
Proof.
  intros H [d2 H2]. destruct (cursor_ops_wf _ _ H) as ((b1 & E1 & _) & _). unfold sldns_buffer_copy. rewrite E1. cbn [mbind outcome_bind].
  unfold sldns_buffer_clear in E1. rewrite (invariant_ok _ _ H) in E1. cbn in E1. injection E1 as <-. set (b1 := mk_buffer 0 _ _ _ _ _).
  assert (buf_ok b1 d) as H1 by (destruct H; split; cbn; try done; lia).
  unfold sldns_buffer_begin. rewrite (at_ok _ _ _ H2) by (destruct H2; lia). cbn [mbind outcome_bind]. rewrite zdrop_0.
  set (n := if _ <? _ then _ else _). assert (0 <= n <= zlen d2 /\ n <= _capacity b) as (Hn & Hc).
  { subst n. unfold sldns_buffer_capacity, sldns_buffer_limit. destruct H, H2. destruct (Z.ltb_spec (_capacity b) (_limit from)); lia. }
  pose proof (write_wf b1 d d2 n H1 Hn (bo_bytes _ _ H2)) as W. rewrite (proj2 (Z.leb_le _ _)) in W by (cbn; lia).
  destruct W as (b2 & -> & d3 & H3). cbn [mbind outcome_bind]. apply (cursor_ops_wf _ _ H3).
Qed.

(** A new buffer; if there is no memory for the data of one that is there, it is lost. *)
Definition lost (op : buf_op) (b' : sldns_buffer) : Prop :=
  match op with OpNewFrmData None _ _ => b'.(_data) = None /\ b'.(_status_err) = true | _ => False end.

Lemma new_wf b ok block n : buffer_wf b -> block_ok block n -> 0 <= n ->
  exists b', (r ← sldns_buffer_new ok block n; Ok (default b r)) = Ok b' /\ buffer_wf b'.
Proof.
  intros H Hb Hn. unfold sldns_buffer_new. destruct ok; cbn [negb]; [|by exists b]. destruct block as [d|]; [|by exists b].
  destruct (Hb d eq_refl) as (Hl & Hm & Hd). assert (buf_ok (mk_buffer 0 n n (Some d) false false) d) as H' by (split; cbn; done || lia).
  rewrite (invariant_ok _ _ H'). cbn. eexists. split; [done|]. by exists d.
Qed.

Lemma new_frm_data_wf block data n : 0 <= n <= zlen data -> n < 2 ^ 63 -> bytes_ok data ->
  exists b', sldns_buffer_new_frm_data block data n = Ok b' /\ (buffer_wf b' \/ lost (OpNewFrmData block data n) b').
Proof.
  intros Hn Hm Hd. unfold sldns_buffer_new_frm_data. destruct block as [x|]; [|eexists; split; [done|]; by right].
  unfold read_bytes. rewrite !(proj2 (Z.leb_le _ _)) by lia. cbn [andb mbind outcome_bind].
  assert (buf_ok (mk_buffer 0 n n (Some (ztake n data)) false false) (ztake n data)) as H'.
  { split; cbn; try done; try lia; [rewrite zlen_ztake; lia|by apply bytes_ok_ztake]. }
  rewrite (invariant_ok _ _ H'). cbn. eexists. split; [done|]. left. by exists (ztake n data).
Qed.

(** Every call but that which may lose the buffer. *)
Lemma buffer_calls_safe b op :
  buffer_wf b -> op_typed op -> (forall block data n, op <> OpNewFrmData block data n) ->
  if op_fits b op then exists b', run_op b op = Ok b' /\ buffer_wf b'
  else run_op b op = Fault Assertion.
Proof.
  intros Hb Ht Hne. pose proof Hb as [d H]. pose proof (cursor_ops_wf _ _ H) as (?&?&?).
  assert (forall a n, 0 <= a -> 0 <= n -> _) as Hpl by exact (fun a n Ha Hn => places_total b d a n H Ha Hn).
  assert (0 <= b.(_position) <= b.(_limit)) as Hpos by apply H.
  destruct op; simpl in Ht |- *; unfold in_u in Ht;
    try (destruct_and! Ht); auto.
  - eapply set_position_wf; [done|lia].
  - by eapply skip_wf.
  - eapply set_limit_wf; [done|lia].
  - by eapply reserve_wf.
  - eapply write_at_wf; eauto; lia.
  - by eapply write_wf.
  - eapply set_at_wf; eauto; lia.
  - eapply write_raw_at_wf; eauto. by repeat constructor.
  - eapply write_seq_wf; eauto. by repeat constructor.
  - eapply write_raw_at_wf; eauto with cwd; lia.
  - eapply write_seq_wf; eauto with cwd.
  - eapply write_raw_at_wf; eauto with cwd; lia.
  - eapply write_seq_wf; eauto with cwd.
  - eapply write_raw_at_wf; eauto with cwd; lia.
  - eapply write_seq_wf; eauto with cwd.
  - eapply read_seq_wf; [done|lia|]. eapply read_at_total; [done|lia].
  - eapply read_seq_wf; [done|lia|]. by eapply read_ints_total.
  - eapply read_seq_wf; [done|lia|]. by eapply read_ints_total.
  - eapply read_seq_wf; [done|lia|]. by eapply read_ints_total.
  - destruct (strlen_ok str) as [E ?]; [done|]. unfold sldns_buffer_write_string_at. rewrite E, bind_Ok. eapply write_at_wf; eauto; lia.
  - destruct (strlen_ok str) as [E ?]; [done|]. unfold sldns_buffer_write_string. rewrite E, bind_Ok. by eapply write_wf.
  - apply looks_wf; [done|]. eapply read_at_any; [done|lia..].
  - apply looks_wf; [done|]. eapply read_ints_any; [done|lia].
  - apply looks_wf; [done|]. eapply read_ints_any; [done|lia].
  - apply looks_wf; [done|]. eapply read_ints_any; [done|lia].
  - apply looks_wf; [done|]. apply (Hpl at_ 0); lia.
  - apply (looks_wf b _ true); [done|]. unfold sldns_buffer_begin. rewrite (at_ok _ _ _ H); eauto; lia.
  - apply (looks_wf b _ true); [done|]. unfold sldns_buffer_end. rewrite (at_ok _ _ _ H); eauto; lia.
  - apply (looks_wf b _ true); [done|]. unfold sldns_buffer_current. rewrite (at_ok _ _ _ H); eauto; lia.
  - apply looks_wf; [done|]. apply (Hpl at_ 0); lia.
  - apply (looks_wf b _ true); [done|]. destruct (Hpl b.(_position) 0) as (_ & X & _); [lia..|].
    rewrite Z.add_0_r, (proj2 (Z.leb_le _ _)) in X by lia. done.
  - apply looks_wf; [done|]. apply (Hpl at_ count); lia.
  - apply (looks_wf b _ true); [done|]. destruct (Hpl b.(_position) count) as (_ & _ & X); [lia..|].
    rewrite Z.add_0_r, (proj2 (Z.leb_le _ _)) in X by lia. done.
  - by exists b.
  - by exists b.
  - by exists b.
  - by exists b.
  - eapply set_capacity_fits; [done|done|lia].
  - by eapply copy_wf.
  - apply new_wf; [done|done|lia].
  - by destruct (Hne block data size).
  - eexists. split; [done|]. exists data. pose proof (zlen_nonneg data). split; cbn; done || lia.
Qed.



(** ** Messages as sequences of fields

    The codec view of the interface: what a sequence of writes puts in the
    buffer is what the same sequence of reads takes out of it. *)

Inductive field := FU8 (v : Z) | FU16 (v : Z) | FU32 (v : Z) | FBytes (l : list Z).
Inductive shape := SU8 | SU16 | SU32 | SBytes (n : Z).

Definition shape_of (f : field) : shape :=
  match f with FU8 _ => SU8 | FU16 _ => SU16 | FU32 _ => SU32 | FBytes l => SBytes (zlen l) end.

Definition field_typed (f : field) : Prop :=
  match f with
  | FU8 v => is_byte v | FU16 v => in_u 16 v | FU32 v => in_u 32 v | FBytes l => bytes_ok l
  end.

Definition enc (f : field) : list Z :=
  match f with
  | FU8 v => [v] | FU16 v => sldns_write_uint16 v | FU32 v => sldns_write_uint32 v
  | FBytes l => l
  end.

Definition write_field (b : sldns_buffer) (f : field) : outcome sldns_buffer :=
  match f with
  | FU8 v => sldns_buffer_write_u8 b v
  | FU16 v => sldns_buffer_write_u16 b v
  | FU32 v => sldns_buffer_write_u32 b v
  | FBytes l => sldns_buffer_write b l (zlen l)
  end.

Definition read_field (b : sldns_buffer) (s : shape) : outcome (field * sldns_buffer) :=
  match s with
  | SU8 => '(v, b') ← sldns_buffer_read_u8 b; Ok (FU8 v, b')
  | SU16 => '(v, b') ← sldns_buffer_read_u16 b; Ok (FU16 v, b')
  | SU32 => '(v, b') ← sldns_buffer_read_u32 b; Ok (FU32 v, b')
  | SBytes n => '(l, b') ← sldns_buffer_read b n; Ok (FBytes l, b')
  end.

Fixpoint write_fields (b : sldns_buffer) (fs : list field) : outcome sldns_buffer :=
  match fs with
  | [] => Ok b
  | f :: fs' => b' ← write_field b f; write_fields b' fs'
  end.

Fixpoint read_fields (b : sldns_buffer) (ss : list shape) : outcome (list field * sldns_buffer) :=
  match ss with
  | [] => Ok ([], b)
  | s :: ss' =>
      '(f, b1) ← read_field b s;
      '(fs, b2) ← read_fields b1 ss';
      Ok (f :: fs, b2)
  end.

Definition enc_all (fs : list field) : list Z := concat (map enc fs).

Lemma enc_bytes f : field_typed f -> bytes_ok (enc f).
Proof. destruct f; simpl; auto with cwd. Qed.

(** Two adjacent stores are one store of the concatenation. *)
Lemma spliced_spliced d p x y :
  0 <= p -> p + zlen x + zlen y <= zlen d ->
  spliced (spliced d p x) (p + zlen x) y = spliced d p (x ++ y).
Proof.
  intros Hp Hl. pose proof (zlen_nonneg x). pose proof (zlen_nonneg y).
  unfold spliced at 1. unfold spliced at 2.
  assert (zlen (ztake p d ++ x) = p + zlen x) as E.
  { rewrite zlen_app, zlen_ztake; lia. }
  rewrite <- E at 1. unfold spliced at 1. rewrite (app_assoc (ztake p d)), ztake_app_zlen.
  unfold spliced. rewrite <- !app_assoc. f_equal. f_equal. f_equal.
  rewrite zlen_app, <- (zdrop_zdrop (zlen y) (p + zlen x)) by lia.
  rewrite (app_assoc (ztake p d)), <- E, zdrop_app_zlen.
  rewrite E, zdrop_zdrop by lia. f_equal. lia.
Qed.

Lemma write_field_spec b d f :
  buf_ok b d -> field_typed f -> b.(_position) + zlen (enc f) <= b.(_limit) ->
  let d' := spliced d b.(_position) (enc f) in
  let b' := set_pos (set_data b d') (b.(_position) + zlen (enc f)) in
  write_field b f = Ok b' /\ buf_ok b' d'.
Proof.
  intros H Hf Hl. cbn zeta.
  pose proof (write_seq_spec b d (enc f) _ H (enc_bytes f Hf) eq_refl) as W. cbn zeta in W.
  rewrite (proj2 (Z.leb_le _ _)) in W by done. destruct W as [W1 W2].
  split; [|done]. rewrite <- W1.
  destruct f as [v|v|v|l]; [done..|]. simpl in *.
  unfold sldns_buffer_write.
  rewrite (write_at_spec _ _ _ _ _ H) by (pose proof (zlen_nonneg l); destruct H; lia).
  rewrite (write_raw_at_spec _ _ _ _ H) by (destruct H; lia).
  unfold ztake, zlen. rewrite Nat2Z.id. by rewrite take_ge by lia.
Qed.

Lemma write_fields_spec fs : forall b d,
  buf_ok b d -> Forall field_typed fs ->
  b.(_position) + zlen (enc_all fs) <= b.(_limit) ->
  let d' := spliced d b.(_position) (enc_all fs) in
  let b' := set_pos (set_data b d') (b.(_position) + zlen (enc_all fs)) in
  write_fields b fs = Ok b' /\ buf_ok b' d'.
Proof.
  induction fs as [|f fs IH]; intros b d H Hf Hl; cbn zeta.
  - change (enc_all []) with (@nil Z).
    assert (spliced d (_position b) [] = d) as ->.
    { unfold spliced. rewrite zlen_nil, Z.add_0_r. apply take_drop. }
    cbn [write_fields]. rewrite zlen_nil, Z.add_0_r.
    assert (set_pos (set_data b d) (_position b) = b) as ->; [|done].
    destruct b, H; simpl in *. unfold set_pos, set_data. simpl. by rewrite bo_data0.
  - inversion_clear Hf as [|? ? Hf1 Hf2].
    change (enc_all (f :: fs)) with (enc f ++ enc_all fs) in *.
    rewrite zlen_app in *. pose proof (zlen_nonneg (enc f)). pose proof (zlen_nonneg (enc_all fs)).
    destruct (write_field_spec b d f H Hf1) as [E W1]; [lia|].
    destruct (IH _ _ W1 Hf2) as [E2 W2]; [simpl; lia|].
    simpl. rewrite E, bind_Ok. cbn [_position set_pos set_data] in *.
    rewrite spliced_spliced in E2, W2 by (destruct H; lia).
    rewrite Z.add_assoc. done.
Qed.

Lemma index_app_l d k i : 0 <= i < zlen d -> index (d ++ k) i = index d i.
Proof.
  intros. unfold index. rewrite (proj2 (Z.leb_le _ _)) by lia.
  by rewrite lookup_app_l by (unfold zlen in *; lia).
Qed.

Lemma read_field_spec b d f rest :
  buf_ok b d -> field_typed f ->
  zdrop b.(_position) d = enc f ++ rest ->
  b.(_position) + zlen (enc f) <= b.(_limit) ->
  read_field b (shape_of f) = Ok (f, set_pos b (b.(_position) + zlen (enc f))).
Proof.
  intros H Hf Hd Hl. pose proof (zlen_nonneg (enc f)).
  assert (0 <= _position b) as Hp by (destruct H; lia).
  destruct (bump_ok _ _ (zlen (enc f)) H) as [<- _]; [lia|done|].
  destruct f as [v|v|v|l]; cbn [enc shape_of read_field field_typed] in *.
  - unfold sldns_buffer_read_u8. rewrite (read_u8_at_spec _ _ _ H Hp).
    rewrite (proj2 (Z.leb_le (_position b + 1) _) Hl).
    rewrite <- (Z.add_0_r (_position b)) at 1. rewrite <- index_zdrop, Hd; [done| |lia].
    destruct H; lia.
  - unfold sldns_buffer_read_u16. rewrite (read_u16_at_spec _ _ _ H Hp).
    rewrite (proj2 (Z.leb_le (_position b + 2) _) Hl), Hd.
    by rewrite (read_write_uint16 v rest).
  - unfold sldns_buffer_read_u32. rewrite (read_u32_at_spec _ _ _ H Hp).
    rewrite (proj2 (Z.leb_le (_position b + 4) _) Hl), Hd.
    by rewrite (read_write_uint32 v rest).
  - unfold sldns_buffer_read. rewrite (read_at_spec _ _ _ _ H Hp) by done.
    rewrite (proj2 (Z.leb_le _ _) Hl), Hd, ztake_app_zlen. done.
Qed.

Lemma read_fields_spec fs : forall b d rest,
  buf_ok b d -> Forall field_typed fs ->
  zdrop b.(_position) d = enc_all fs ++ rest ->
  b.(_position) + zlen (enc_all fs) <= b.(_limit) ->
  read_fields b (map shape_of fs) = Ok (fs, set_pos b (b.(_position) + zlen (enc_all fs))).
Proof.
  induction fs as [|f fs IH]; intros b d rest H Hf Hd Hl; simpl.
  - change (enc_all []) with (@nil Z). rewrite zlen_nil, Z.add_0_r. by destruct b.
  - inversion_clear Hf as [|? ? Hf1 Hf2].
    change (enc_all (f :: fs)) with (enc f ++ enc_all fs) in *.
    rewrite zlen_app in *. pose proof (zlen_nonneg (enc f)). pose proof (zlen_nonneg (enc_all fs)).
    rewrite <- app_assoc in Hd.
    rewrite (read_field_spec b d f _ H Hf1 Hd) by lia. rewrite bind_Ok.
    rewrite (IH _ d rest); simpl; [by rewrite Z.add_assoc| |done| |lia].
    + apply set_pos_ok; [done|]. destruct H; lia.
    + rewrite <- zdrop_zdrop by (destruct H; lia). by rewrite Hd, zdrop_app_zlen.
Qed.

(** Round trip: any sequence of typed fields that fits in the capacity can
    be written after [sldns_buffer_clear]; after [sldns_buffer_flip] the same
    sequence of reads returns exactly those fields and leaves nothing unread. *)
Lemma buffer_fields_roundtrip b fs :
  buffer_wf b -> Forall field_typed fs -> zlen (enc_all fs) <= b.(_capacity) ->
  exists b1 b2 b3 b4,
    sldns_buffer_clear b = Ok b1 /\ write_fields b1 fs = Ok b2 /\
    sldns_buffer_flip b2 = Ok b3 /\
    read_fields b3 (map shape_of fs) = Ok (fs, b4) /\
    sldns_buffer_remaining b4 = Ok 0.
Proof.
  intros [d H] Hf Hl. pose proof (zlen_nonneg (enc_all fs)).
  set (b1 := mk_buffer 0 b.(_capacity) b.(_capacity) b.(_data) b.(_fixed) b.(_status_err)).
  assert (buf_ok b1 d) as W1 by (destruct H; split; simpl; auto; lia).
  destruct (write_fields_spec fs b1 d W1 Hf) as [E2 H2]; [done|].
  set (b2 := set_pos _ _) in *. set (d2 := spliced d _ _) in *.
  set (b3 := mk_buffer 0 b2.(_position) b2.(_capacity) b2.(_data) b2.(_fixed) b2.(_status_err)).
  assert (buf_ok b3 d2) as H3.
  { destruct H2. split; simpl in *; auto; lia. }
  exists b1, b2, b3, (set_pos b3 (0 + zlen (enc_all fs))).
  split; [by unfold sldns_buffer_clear; rewrite (invariant_ok _ _ H)|].
  split; [done|].
  split; [by unfold sldns_buffer_flip; rewrite (invariant_ok _ _ H2)|].
  split.
  - eapply (read_fields_spec fs b3 d2); [done|done|simpl; by rewrite zdrop_0|simpl; lia].
  - unfold sldns_buffer_remaining, sldns_buffer_remaining_at. cbn [_position set_pos _limit b3 b2].
    assert (buf_ok (set_pos b3 (0 + zlen (enc_all fs))) d2) as H4.
    { apply set_pos_ok; [done|]. simpl. lia. }
    pose proof (invariant_ok _ _ H4) as I. simpl in I |- *. rewrite I. simpl.
    rewrite Z.leb_refl. simpl. by rewrite Z.ltb_irrefl.
Qed.

Lemma buffer_fields_roundtrip_witness :
  let b := mk_buffer 2 5 8 (Some (replicate 8 0)) false false in
  exists b1 b2 b3 b4,
    sldns_buffer_clear b = Ok b1 /\
    write_fields b1 [FU16 4660; FU8 5; FBytes [9; 8]] = Ok b2 /\
    sldns_buffer_flip b2 = Ok b3 /\
    read_fields b3 (map shape_of [FU16 4660; FU8 5; FBytes [9; 8]])
      = Ok ([FU16 4660; FU8 5; FBytes [9; 8]], b4) /\
    sldns_buffer_remaining b4 = Ok 0.
Proof.
  intros b. apply (buffer_fields_roundtrip b [FU16 4660; FU8 5; FBytes [9; 8]]).
  - exists (replicate 8 0). split; simpl; try done; try lia.
    repeat constructor; unfold in_u; lia.
  - repeat constructor; unfold in_u; lia.
  - done.
Defined.

Lemma zdrop_prefix_eq {A} (d d' : list A) n m :
  0 <= n <= m -> ztake m d = ztake m d' -> ztake n d = ztake n d'.
Proof.
  intros H E. unfold ztake in *.
  replace (Z.to_nat n) with (Nat.min (Z.to_nat n) (Z.to_nat m)) by lia.
  by rewrite <- !take_take, E.
Qed.

(** [sldns_buffer_reserve]: unless [position + amount] wraps around
    [size_t], it returns 1 with room for [amount] more bytes, the position and
    all bytes written so far kept; it returns 0 only when [realloc] failed for
    the capacity it asked, with the error status set. *)
Lemma buffer_reserve_spec realloc b d amount :
  buf_ok b d -> realloc_ok realloc -> b.(_fixed) = false ->
  0 <= amount -> b.(_position) + amount < 2 ^ 64 ->
  exists r b' d',
    sldns_buffer_reserve realloc b amount = Ok (r, b') /\ buf_ok b' d' /\
    b'.(_position) = b.(_position) /\
    ztake b.(_position) d' = ztake b.(_position) d /\
    ((r = 1 /\ b.(_position) + amount <= b'.(_limit)) \/
     (r = 0 /\ b'.(_status_err) = true /\
      exists n, b.(_position) + amount <= n /\ realloc n = None)).
Proof.
  intros H Hr Hf Ha Hs. unfold sldns_buffer_reserve. rewrite (invariant_ok _ _ H), Hf.
  cbn [c_assert mbind outcome_bind negb].
  rewrite (wrap_small 64 (_position b + amount)) by (destruct H; unfold in_u; lia).
  destruct (Z.ltb_spec (_capacity b) (_position b + amount)) as [Hc|Hc].
  - set (nc := if _ <? _ then _ else _).
    assert (_position b + amount <= nc) as Hnc.
    { subst nc. destruct (Z.ltb_spec (u64 (_capacity b * 3) / 2) (_position b + amount)); lia. }
    destruct (set_capacity_wf realloc b d nc H Hr Hf) as [[E ->]|(d' & -> & H' & P)].
    + lia.
    + exists 0, (set_err (set_err b)), d. split; [done|].
      destruct H. split; [split; simpl; auto|]. split; [done|]. split; [done|].
      right. split; [done|]. split; [done|]. by exists nc.
    + exists 1. do 2 eexists. split; [simpl; reflexivity|].
      split; [destruct H'; split; simpl in *; eauto|]. split; [done|]. split.
      * eapply zdrop_prefix_eq; [|exact P]. destruct H. lia.
      * left. simpl. lia.
  - exists 1. do 2 eexists. split; [reflexivity|].
    split; [destruct H; split; simpl; eauto; lia|]. split; [done|]. split; [done|].
    left. simpl. lia.
Qed.

Lemma buffer_reserve_spec_witness :
  exists r b' d',
    sldns_buffer_reserve (fun n => if n <? 100 then Some (replicate (Z.to_nat n) 0) else None)
      (mk_buffer 2 3 4 (Some [1; 2; 3; 4]) false false) 9 = Ok (r, b') /\
    buf_ok b' d' /\ b'.(_position) = 2 /\ ztake 2 d' = ztake 2 [1; 2; 3; 4] /\
    ((r = 1 /\ 2 + 9 <= b'.(_limit)) \/
     (r = 0 /\ b'.(_status_err) = true /\
      exists n, 2 + 9 <= n /\
        (if n <? 100 then Some (replicate (Z.to_nat n) 0) else None) = None)).
Proof.
  apply (buffer_reserve_spec
    (fun n => if n <? 100 then Some (replicate (Z.to_nat n) 0) else None)
    (mk_buffer 2 3 4 (Some [1; 2; 3; 4]) false false) [1; 2; 3; 4] 9).
  - split; simpl; try done; try lia. repeat constructor; unfold in_u; lia.
  - intros n d Hn. destruct (Z.ltb_spec n 100); [|done]. intros [= <-].
    unfold zlen. rewrite length_replicate. repeat split; [lia|lia|].
    apply Forall_replicate. unfold in_u. lia.
  - done.
  - lia.
  - simpl. lia.
Defined.

(** [sldns_buffer_printf] advances the position by the length [vsnprintf]
    reports, which is the length of the whole text: the buffer stays well formed
    exactly when the text fits in the remaining space, and a longer text leaves
    a position beyond the limit. *)
Lemma buffer_printf_invariant b d text :
  buf_ok b d -> b.(_status_err) = false -> b.(_limit) = b.(_capacity) ->
  bytes_ok text -> b.(_position) + zlen text < 2 ^ 64 ->
  exists b', sldns_buffer_printf (Some text) b = Ok (zlen text, b') /\
    sldns_buffer_invariant b' = (b.(_position) + zlen text <=? b.(_limit)) /\
    (b.(_position) + zlen text <= b.(_limit) -> buffer_wf b').
Proof.
  intros H Hs Hc Ht Hb. pose proof (zlen_nonneg text).
  unfold sldns_buffer_printf, sldns_buffer_status_ok, sldns_buffer_status. rewrite Hs. simpl.
  unfold sldns_buffer_remaining, sldns_buffer_remaining_at.
  rewrite (invariant_ok _ _ H), Hc, Z.eqb_refl, (the_data_ok _ _ H). simpl.
  pose proof (bo_pos _ _ H). pose proof (bo_lim _ _ H). pose proof (bo_len _ _ H).
  rewrite (proj2 (Z.leb_le _ _)) by lia. simpl.
  set (rem := if _position b <? _capacity b then _ else 0).
  set (stored := if rem =? 0 then [] else _).
  assert (rem = _capacity b - _position b) as Er.
  { subst rem. destruct (Z.ltb_spec (_position b) (_capacity b)); lia. }
  assert (zlen stored <= rem /\ bytes_ok stored) as [Hst Hsb].
  { subst stored. destruct (Z.eqb_spec rem 0) as [->|]; [done|].
    rewrite zlen_app, Forall_app. split; [|split; [auto with cwd|]].
    - unfold zlen, ztake. rewrite length_take. simpl. lia.
    - apply Forall_singleton. unfold in_u. lia. }
  rewrite splice_ok by lia. simpl.
  assert (u64 (_position b + zlen text) = _position b + zlen text) as Eu.
  { apply wrap_small. unfold in_u. lia. }
  eexists. split; [done|]. split.
  - unfold sldns_buffer_invariant, bump, set_pos, set_data. simpl. rewrite Eu.
    destruct (Z.leb_spec (_position b + zlen text) (_limit b)); simpl; [|by rewrite (proj2 (Z.leb_gt _ _)) by lia].
    rewrite !(proj2 (Z.leb_le _ _)) by lia. done.
  - intros Hf. eapply (bump_wf _ (spliced d (_position b) stored)); simpl; [|lia|lia].
    apply spliced_ok; [done|lia|lia|done].
Qed.

Lemma buffer_printf_invariant_witness :
  let b := mk_buffer 1 3 3 (Some [0; 0; 0]) false false in
  exists b', sldns_buffer_printf (Some [97; 98; 99]) b = Ok (zlen [97; 98; 99], b') /\
    sldns_buffer_invariant b' = (1 + zlen [97; 98; 99] <=? 3) /\
    (1 + zlen [97; 98; 99] <= 3 -> buffer_wf b').
Proof.
  intros b. apply (buffer_printf_invariant b [0; 0; 0] [97; 98; 99]); try done.
  - split; simpl; try done; try lia. repeat constructor; unfold in_u; lia.
  - repeat constructor; unfold in_u; lia.
Defined.

(** ** The reader's view

    [reads b d w]: the bytes between the position and the limit are [w].  The
    clients that parse a message are proved against these three lemmas. *)

Definition reads (b : sldns_buffer) (d w : list Z) : Prop :=
  buf_ok b d /\ w = zdrop b.(_position) (ztake b.(_limit) d).

Lemma zlen_window b d : buf_ok b d ->
  zlen (zdrop b.(_position) (ztake b.(_limit) d)) = b.(_limit) - b.(_position).
Proof.
  intros []. pose proof (zlen_ztake (_limit b) d ltac:(lia)) as E.
  rewrite zlen_zdrop; lia.
Qed.

Lemma remaining_reads b d w : reads b d w -> sldns_buffer_remaining b = Ok (zlen w).
Proof.
  intros [H ->]. rewrite (zlen_window _ _ H).
  unfold sldns_buffer_remaining, sldns_buffer_remaining_at.
  rewrite (invariant_ok _ _ H). destruct H.
  rewrite leb_true by lia. simpl. f_equal. zcase; lia.
Qed.

Lemma index_window b d i :
  buf_ok b d -> 0 <= i < b.(_limit) - b.(_position) ->
  index (zdrop b.(_position) (ztake b.(_limit) d)) i = index d (b.(_position) + i).
Proof.
  intros H Hi. destruct H.
  rewrite index_zdrop by (rewrite ?zlen_ztake; lia).
  rewrite <- (ztake_zdrop (_limit b) d) at 2. symmetry. apply index_app_l.
  rewrite zlen_ztake; lia.
Qed.

Lemma set_pos_reads b d w n :
  reads b d w -> 0 <= n <= zlen w ->
  reads (set_pos b (b.(_position) + n)) d (zdrop n w).
Proof.
  intros [H ->] Hn. rewrite (zlen_window _ _ H) in Hn. split.
  - apply set_pos_ok; [done|]. destruct H; lia.
  - simpl. destruct H. by rewrite zdrop_zdrop by lia.
Qed.

Lemma read_u8_reads b d x w :
  reads b d (x :: w) ->
  sldns_buffer_read_u8 b = Ok (x, set_pos b (b.(_position) + 1)) /\
  reads (set_pos b (b.(_position) + 1)) d w.
Proof.
  intros R. pose proof (zlen_nonneg w) as Hw.
  split; [|by apply (set_pos_reads _ _ _ 1 R); rewrite zlen_cons; lia].
  destruct R as [H E]. pose proof (zlen_window _ _ H) as L. rewrite <- E, zlen_cons in L.
  pose proof (index_window _ _ 0 H ltac:(lia)) as I. rewrite <- E, Z.add_0_r in I.
  unfold sldns_buffer_read_u8. rewrite (read_u8_at_spec _ _ _ H) by (destruct H; lia).
  rewrite leb_true, <- I by lia. simpl. f_equal. f_equal.
  apply (bump_ok _ _ 1 H); lia.
Qed.

Lemma skip_reads b d w n :
  reads b d w -> 0 <= n <= zlen w ->
  sldns_buffer_skip b n = Ok (set_pos b (b.(_position) + n)) /\
  reads (set_pos b (b.(_position) + n)) d (zdrop n w).
Proof.
  intros R Hn. split; [|by apply set_pos_reads].
  destruct R as [H ->]. rewrite (zlen_window _ _ H) in Hn. unfold sldns_buffer_skip.
  rewrite wrap_small by (destruct H; unfold in_u; lia). by rewrite leb_true by lia.
Qed.
