(* ===== verification/Lookup3.v ===== *)
(** * The hash function (util/storage/lookup3.c)

    Bob Jenkins' lookup3, by which every cache of the resolver finds its bins.
    [raninit] (a static variable set by [hash_set_raninit]) and the key's
    address are arguments; [le] is HASH_LITTLE_ENDIAN.  A key is a list of
    bytes, read 32, 16 or 8 bits at a time depending on its address. *)

From S2P Require Import Prelude.

Definition rot (x k : Z) : Z := Z.lor (u32 (Z.shiftl x k)) (Z.shiftr x (32 - k)).

(** The internal state (a, b, c). *)
Definition hstate : Type := Z * Z * Z.

Definition mix (s : hstate) : hstate :=
  let '(a, b, c) := s in
  let a := u32 (a - c) in let a := Z.lxor a (rot c 4) in let c := u32 (c + b) in
  let b := u32 (b - a) in let b := Z.lxor b (rot a 6) in let a := u32 (a + c) in
  let c := u32 (c - b) in let c := Z.lxor c (rot b 8) in let b := u32 (b + a) in
  let a := u32 (a - c) in let a := Z.lxor a (rot c 16) in let c := u32 (c + b) in
  let b := u32 (b - a) in let b := Z.lxor b (rot a 19) in let a := u32 (a + c) in
  let c := u32 (c - b) in let c := Z.lxor c (rot b 4) in let b := u32 (b + a) in
  (a, b, c).

Definition final (s : hstate) : hstate :=
  let '(a, b, c) := s in
  let c := Z.lxor c b in let c := u32 (c - rot b 14) in
  let a := Z.lxor a c in let a := u32 (a - rot c 11) in
  let b := Z.lxor b a in let b := u32 (b - rot a 25) in
  let c := Z.lxor c b in let c := u32 (c - rot b 16) in
  let a := Z.lxor a c in let a := u32 (a - rot c 4) in
  let b := Z.lxor b a in let b := u32 (b - rot a 14) in
  let c := Z.lxor c b in let c := u32 (c - rot b 24) in
  (a, b, c).

Arguments mix : simpl never.
Arguments final : simpl never.

(** ** hashword *)

Fixpoint hashword_loop (fuel : nat) (k : list Z) (length : Z) (s : hstate)
    : outcome (list Z * Z * hstate) :=
  if 3 <? length then
    match fuel with
    | O => OutOfFuel
    | S fuel' =>
        let '(a, b, c) := s in
        k0 ← index k 0; k1 ← index k 1; k2 ← index k 2;
        k' ← advance 3 k;
        hashword_loop fuel' k' (length - 3) (mix (u32 (a + k0), u32 (b + k1), u32 (c + k2)))
    end
  else Ok (k, length, s).

Definition hashword (raninit : Z) (k : list Z) (length initval : Z) : outcome Z :=
  let a := u32 (raninit + u32 (Z.shiftl (u32 length) 2) + initval) in
  '(k, length, (a, b, c)) ← hashword_loop (Z.to_nat length) k length (a, a, a);
  let case1 b c := k0 ← index k 0; Ok (snd (final (u32 (a + k0), b, c))) in
  let case2 c := k1 ← index k 1; case1 (u32 (b + k1)) c in
  match length with
  | 3 => k2 ← index k 2; case2 (u32 (c + k2))
  | 2 => case2 c
  | 1 => case1 b c
  | _ => Ok c
  end.

(** ** hashlittle *)

(** Loads from the key: [k8[i]], and [k[i]] of a [uint16_t*] or [uint32_t*] on
    a little-endian machine. *)
Definition ld8 (k : list Z) (i : Z) : outcome Z := index k i.
Definition ld16 (k : list Z) (i : Z) : outcome Z :=
  b0 ← index k (2 * i); b1 ← index k (2 * i + 1); Ok (b0 + 256 * b1).
Definition ld32 (k : list Z) (i : Z) : outcome Z :=
  b0 ← index k (4 * i); b1 ← index k (4 * i + 1);
  b2 ← index k (4 * i + 2); b3 ← index k (4 * i + 3);
  Ok (b0 + 256 * b1 + 65536 * b2 + 16777216 * b3).

Definition shl (x n : Z) : Z := u32 (Z.shiftl x n).

(** The additions of one full block, for each of the three ways to read it. *)
Definition block32 (k : list Z) (s : hstate) : outcome hstate :=
  let '(a, b, c) := s in
  k0 ← ld32 k 0; k1 ← ld32 k 1; k2 ← ld32 k 2;
  Ok (u32 (a + k0), u32 (b + k1), u32 (c + k2)).

Definition block16 (k : list Z) (s : hstate) : outcome hstate :=
  let '(a, b, c) := s in
  k0 ← ld16 k 0; k1 ← ld16 k 1; k2 ← ld16 k 2; k3 ← ld16 k 3; k4 ← ld16 k 4; k5 ← ld16 k 5;
  Ok (u32 (a + u32 (k0 + shl k1 16)), u32 (b + u32 (k2 + shl k3 16)),
      u32 (c + u32 (k4 + shl k5 16))).

Definition add4 (x k0 k1 k2 k3 : Z) : Z :=
  let x := u32 (x + k0) in
  let x := u32 (x + shl k1 8) in
  let x := u32 (x + shl k2 16) in
  u32 (x + shl k3 24).

Definition block8 (k : list Z) (s : hstate) : outcome hstate :=
  let '(a, b, c) := s in
  k0 ← ld8 k 0; k1 ← ld8 k 1; k2 ← ld8 k 2; k3 ← ld8 k 3;
  k4 ← ld8 k 4; k5 ← ld8 k 5; k6 ← ld8 k 6; k7 ← ld8 k 7;
  k8 ← ld8 k 8; k9 ← ld8 k 9; k10 ← ld8 k 10; k11 ← ld8 k 11;
  Ok (add4 a k0 k1 k2 k3, add4 b k4 k5 k6 k7, add4 c k8 k9 k10 k11).

(** [while (length > 12)], with the block step of the branch. *)
Fixpoint hash_loop (block : list Z -> hstate -> outcome hstate)
    (fuel : nat) (k : list Z) (length : Z) (s : hstate) : outcome (list Z * Z * hstate) :=
  if 12 <? length then
    match fuel with
    | O => OutOfFuel
    | S fuel' =>
        s' ← block k s; k' ← advance 12 k;
        hash_loop block fuel' k' (length - 12) (mix s')
    end
  else Ok (k, length, s).

(** The switch of the 32-bit branch; [None] is [case 0: return c]. *)
Definition tail32 (k : list Z) (length : Z) (s : hstate) : outcome (option hstate) :=
  let '(a, b, c) := s in
  let case1 a := k0 ← ld8 k 0; Ok (Some (u32 (a + k0), b, c)) in
  let case2 a := k1 ← ld8 k 1; case1 (u32 (a + shl k1 8)) in
  let case4 b c := k0 ← ld32 k 0; Ok (Some (u32 (a + k0), b, c)) in
  let case5 b := k4 ← ld8 k 4; case4 (u32 (b + k4)) c in
  let case6 b := k5 ← ld8 k 5; case5 (u32 (b + shl k5 8)) in
  let case8 c := k1 ← ld32 k 1; case4 (u32 (b + k1)) c in
  let case9 c := k8 ← ld8 k 8; case8 (u32 (c + k8)) in
  let case10 c := k9 ← ld8 k 9; case9 (u32 (c + shl k9 8)) in
  match length with
  | 12 => k2 ← ld32 k 2; case8 (u32 (c + k2))
  | 11 => k10 ← ld8 k 10; case10 (u32 (c + shl k10 16))
  | 10 => case10 c
  | 9 => case9 c
  | 8 => case8 c
  | 7 => k6 ← ld8 k 6; case6 (u32 (b + shl k6 16))
  | 6 => case6 b
  | 5 => case5 b
  | 4 => case4 b c
  | 3 => k2 ← ld8 k 2; case2 (u32 (a + shl k2 16))
  | 2 => case2 a
  | 1 => case1 a
  | _ => Ok None
  end.

Definition tail16 (k : list Z) (length : Z) (s : hstate) : outcome (option hstate) :=
  let '(a, b, c) := s in
  let pair i := lo ← ld16 k i; hi ← ld16 k (i + 1); Ok (u32 (lo + shl hi 16)) in
  let case2 a := k0 ← ld16 k 0; Ok (Some (u32 (a + k0), b, c)) in
  let case4 b c := p0 ← pair 0; Ok (Some (u32 (a + p0), b, c)) in
  let case6 b := k2 ← ld16 k 2; case4 (u32 (b + k2)) c in
  let case8 c := p2 ← pair 2; case4 (u32 (b + p2)) c in
  let case10 c := k4 ← ld16 k 4; case8 (u32 (c + k4)) in
  match length with
  | 12 => p4 ← pair 4; case8 (u32 (c + p4))
  | 11 => k10 ← ld8 k 10; case10 (u32 (c + shl k10 16))
  | 10 => case10 c
  | 9 => k8 ← ld8 k 8; case8 (u32 (c + k8))
  | 8 => case8 c
  | 7 => k6 ← ld8 k 6; case6 (u32 (b + shl k6 16))
  | 6 => case6 b
  | 5 => k4 ← ld8 k 4; case4 (u32 (b + k4)) c
  | 4 => case4 b c
  | 3 => k2 ← ld8 k 2; case2 (u32 (a + shl k2 16))
  | 2 => case2 a
  | 1 => k0 ← ld8 k 0; Ok (Some (u32 (a + k0), b, c))
  | _ => Ok None
  end.

Definition tail8 (k : list Z) (length : Z) (s : hstate) : outcome (option hstate) :=
  let '(a, b, c) := s in
  let case1 a b c := k0 ← ld8 k 0; Ok (Some (u32 (a + k0), b, c)) in
  let case2 a b c := k1 ← ld8 k 1; case1 (u32 (a + shl k1 8)) b c in
  let case3 a b c := k2 ← ld8 k 2; case2 (u32 (a + shl k2 16)) b c in
  let case4 b c := k3 ← ld8 k 3; case3 (u32 (a + shl k3 24)) b c in
  let case5 b c := k4 ← ld8 k 4; case4 (u32 (b + k4)) c in
  let case6 b c := k5 ← ld8 k 5; case5 (u32 (b + shl k5 8)) c in
  let case7 b c := k6 ← ld8 k 6; case6 (u32 (b + shl k6 16)) c in
  let case8 c := k7 ← ld8 k 7; case7 (u32 (b + shl k7 24)) c in
  let case9 c := k8 ← ld8 k 8; case8 (u32 (c + k8)) in
  let case10 c := k9 ← ld8 k 9; case9 (u32 (c + shl k9 8)) in
  let case11 c := k10 ← ld8 k 10; case10 (u32 (c + shl k10 16)) in
  match length with
  | 12 => k11 ← ld8 k 11; case11 (u32 (c + shl k11 24))
  | 11 => case11 c
  | 10 => case10 c
  | 9 => case9 c
  | 8 => case8 c
  | 7 => case7 b c
  | 6 => case6 b c
  | 5 => case5 b c
  | 4 => case4 b c
  | 3 => case3 a b c
  | 2 => case2 a b c
  | 1 => case1 a b c
  | _ => Ok None
  end.

(** One branch: the loop, the switch, [final]. *)
Definition hash_branch (block : list Z -> hstate -> outcome hstate)
    (tail : list Z -> Z -> hstate -> outcome (option hstate))
    (key : list Z) (length : Z) (s : hstate) : outcome Z :=
  '(k, l, s') ← hash_loop block (Z.to_nat length) key length s;
  t ← tail k l s';
  match t with
  | None => Ok (snd s')
  | Some s'' => Ok (snd (final s''))
  end.

Definition hashlittle (le : bool) (raninit addr : Z) (key : list Z) (length initval : Z)
    : outcome Z :=
  let a := u32 (u32 (raninit + u32 length) + initval) in
  if le && (Z.land addr 3 =? 0) then hash_branch block32 tail32 key length (a, a, a)
  else if le && (Z.land addr 1 =? 0) then hash_branch block16 tail16 key length (a, a, a)
  else hash_branch block8 tail8 key length (a, a, a).

(** The reference implementation's own test vectors: the string
    "Four score and seven years ago" with seeds 0 and 1. *)
Definition four_score : list Z :=
  [70;111;117;114;32;115;99;111;114;101;32;97;110;100;32;115;101;118;101;110;32;
   121;101;97;114;115;32;97;103;111].

Example hashlittle_vector_0 :
  hashlittle true 3735928559 0 four_score 30 0 = Ok 393676113 (* 0x17770551 *).
Proof. vm_compute. reflexivity. Qed.

Example hashlittle_vector_1 :
  hashlittle true 3735928559 2 four_score 30 1 = Ok 3445784929 (* 0xcd628161 *).
Proof. vm_compute. reflexivity. Qed.

(** ** The value does not depend on how the key is read *)

Lemma shl_mul x n : 0 <= n -> shl x n = u32 (x * 2 ^ n).
Proof. intros. unfold shl. by rewrite Z.shiftl_mul_pow2. Qed.

(** Sums of 32-bit words agree when they agree modulo [2^32]. *)
Ltac u32_sum :=
  unfold add4; rewrite ?shl_mul by lia;
  apply eqw_wrap; rewrite ?wrap_eqw;
  match goal with |- eqw _ ?x ?y => replace x with y by lia; reflexivity end.

(** Take the first bytes of a key that is long enough. *)
Ltac take_bytes k H n :=
  lazymatch n with
  | O => idtac
  | S ?m =>
      let x := fresh "x" in
      destruct k as [|x k]; [exfalso; unfold zlen in H; simpl in H; lia|];
      take_bytes k H m
  end.

Lemma block16_eq k s : 12 <= zlen k -> block16 k s = block8 k s.
Proof.
  intros H. destruct s as [[a b] c]. take_bytes k H 12%nat.
  unfold block16, block8, ld16, ld8, index. simpl.
  f_equal. f_equal; [f_equal|]; u32_sum.
Qed.

Lemma block32_eq k s : 12 <= zlen k -> block32 k s = block8 k s.
Proof.
  intros H. destruct s as [[a b] c]. take_bytes k H 12%nat.
  unfold block32, block8, ld32, ld8, index. simpl.
  f_equal. f_equal; [f_equal|]; u32_sum.
Qed.

Lemma tail_len_cases l : 0 <= l <= 12 ->
  l = 0 \/ l = 1 \/ l = 2 \/ l = 3 \/ l = 4 \/ l = 5 \/ l = 6 \/ l = 7 \/
  l = 8 \/ l = 9 \/ l = 10 \/ l = 11 \/ l = 12.
Proof. lia. Qed.

Lemma some3_eq (a b c a' b' c' : Z) :
  a = a' -> b = b' -> c = c' -> Ok (Some (a, b, c)) = Ok (Some (a', b', c')).
Proof. by intros -> -> ->. Qed.

(** Each case of a switch, with the bytes it reads named. *)
Ltac tail_cases k H Hl :=
  destruct (tail_len_cases _ Hl) as
    [->|[->|[->|[->|[->|[->|[->|[->|[->|[->|[->|[->| ->]]]]]]]]]]]];
  match type of H with
  | ?l <= _ => let n := eval vm_compute in (Z.to_nat l) in take_bytes k H n
  end;
  unfold ld32, ld16, ld8, index; simpl;
  first [reflexivity | apply some3_eq; first [reflexivity | u32_sum]].

Lemma tail32_eq k l s : 0 <= l <= 12 -> l <= zlen k -> tail32 k l s = tail8 k l s.
Proof. intros Hl H. destruct s as [[a b] c]. tail_cases k H Hl. Qed.

Lemma tail16_eq k l s : 0 <= l <= 12 -> l <= zlen k -> tail16 k l s = tail8 k l s.
Proof. intros Hl H. destruct s as [[a b] c]. tail_cases k H Hl. Qed.

Lemma tail8_app k r l s : 0 <= l <= 12 -> l <= zlen k -> tail8 (k ++ r) l s = tail8 k l s.
Proof. intros Hl H. destruct s as [[a b] c]. tail_cases k H Hl. Qed.

(** The switch returns early only for an empty rest; otherwise it gives a state. *)
Lemma tail8_total k l s :
  0 <= l <= 12 -> l <= zlen k ->
  if l =? 0 then tail8 k l s = Ok None else exists s', tail8 k l s = Ok (Some s').
Proof.
  intros Hl H. destruct s as [[a b] c].
  destruct (tail_len_cases _ Hl) as
    [->|[->|[->|[->|[->|[->|[->|[->|[->|[->|[->|[->| ->]]]]]]]]]]]]; simpl Z.eqb; [done|..];
  match type of H with
  | ?l <= _ => let n := eval vm_compute in (Z.to_nat l) in take_bytes k H n
  end; unfold tail8, ld8, index; simpl; eexists; reflexivity.
Qed.

Lemma block8_total k s : 12 <= zlen k -> exists s', block8 k s = Ok s'.
Proof.
  intros H. destruct s as [[a b] c]. take_bytes k H 12%nat.
  unfold block8, ld8, index. simpl. eexists. reflexivity.
Qed.

Lemma block8_app k r s : 12 <= zlen k -> block8 (k ++ r) s = block8 k s.
Proof. intros H. destruct s as [[a b] c]. by take_bytes k H 12%nat. Qed.

(** A way to read blocks is right when it computes what the byte loads do. *)
Class BlockReader (block : list Z -> hstate -> outcome hstate) : Prop :=
  block_reads : forall k s, 12 <= zlen k -> block k s = block8 k s.
Class TailReader (tail : list Z -> Z -> hstate -> outcome (option hstate)) : Prop :=
  tail_reads : forall k l s, 0 <= l <= 12 -> l <= zlen k -> tail k l s = tail8 k l s.

#[export] Instance block32_reader : BlockReader block32 := block32_eq.
#[export] Instance block16_reader : BlockReader block16 := block16_eq.
#[export] Instance block8_reader : BlockReader block8 := fun _ _ _ => eq_refl.
#[export] Instance tail32_reader : TailReader tail32 := tail32_eq.
#[export] Instance tail16_reader : TailReader tail16 := tail16_eq.
#[export] Instance tail8_reader : TailReader tail8 := fun _ _ _ _ _ => eq_refl.

Section Readers.
Context (block : list Z -> hstate -> outcome hstate) `{!BlockReader block}.
Context (tail : list Z -> Z -> hstate -> outcome (option hstate)) `{!TailReader tail}.

(** The loop ends, leaves 1 to 12 bytes unless there were none, and reads
    nothing of what follows the key. *)
Lemma hash_loop_spec fuel : forall k r l s,
  0 <= l -> l = zlen k -> (Z.to_nat l <= fuel)%nat ->
  exists k' l' s',
    hash_loop block fuel (k ++ r) l s = Ok (k' ++ r, l', s') /\
    hash_loop block8 fuel k l s = Ok (k', l', s') /\
    0 <= l' <= 12 /\ l' = zlen k' /\ (l' = 0 -> l = 0 /\ s' = s).
Proof.
  induction fuel as [|fuel IH]; intros k r l s Hl Hk Hf;
    simpl; destruct (Z.ltb_spec 12 l) as [H12|H12].
  - lia.
  - exists k, l, s. repeat split; auto; lia.
  - destruct (block8_total k s) as [s' Hs]; [lia|].
    rewrite (block_reads (k ++ r)) by (rewrite zlen_app; pose proof (zlen_nonneg r); lia).
    rewrite block8_app, Hs, !bind_Ok by lia.
    assert (advance 12 k = Ok (zdrop 12 k)) as ->.
    { unfold advance. by rewrite (proj2 (Z.leb_le 12 _)) by lia. }
    assert (advance 12 (k ++ r) = Ok (zdrop 12 k ++ r)) as ->.
    { unfold advance. rewrite zlen_app. pose proof (zlen_nonneg r).
      rewrite (proj2 (Z.leb_le 12 _)) by lia. simpl. f_equal.
      unfold zdrop. rewrite drop_app_le; [done|]. unfold zlen in *. lia. }
    rewrite !bind_Ok.
    destruct (IH (zdrop 12 k) r (l - 12) (mix s')) as (k' & l' & s'' & E1 & E2 & ? & ? & ?).
    + lia.
    + rewrite zlen_zdrop; lia.
    + lia.
    + exists k', l', s''. rewrite E1, E2. repeat split; try done; try lia.
  - exists k, l, s. repeat split; auto; lia.
Qed.
End Readers.

Lemma final_c_range s : in_u 32 (snd (final s)).
Proof. destruct s as [[a b] c]. apply wrap_range. lia. Qed.

Lemma hash_branch_spec key length s :
  length = zlen key -> in_u 32 (snd s) ->
  exists h, in_u 32 h /\
    forall block (_ : BlockReader block) tail (_ : TailReader tail) rest,
      hash_branch block tail (key ++ rest) length s = Ok h.
Proof.
  intros Hl Hs. pose proof (zlen_nonneg key).
  destruct (hash_loop_spec block8 (Z.to_nat length) key [] length s)
    as (k & l & s' & _ & E & Hr & Hk & H0); [lia|done|lia|].
  pose proof (tail8_total k l s' Hr ltac:(lia)) as T.
  destruct (Z.eqb_spec l 0) as [Hz|Hz].
  - exists (snd s). split; [done|]. intros block ? tail ? rest.
    destruct (hash_loop_spec block (Z.to_nat length) key rest length s)
      as (k2 & l2 & s2 & E1 & E2 & _); [lia|done|lia|].
    rewrite E in E2. injection E2 as <- <- <-.
    unfold hash_branch. rewrite E1. simpl.
    pose proof (zlen_nonneg rest).
    rewrite tail_reads by (rewrite ?zlen_app; lia). rewrite tail8_app by lia.
    rewrite T, bind_Ok. by rewrite (proj2 (H0 Hz)).
  - destruct T as [st T]. exists (snd (final st)). split; [apply final_c_range|].
    intros block ? tail ? rest.
    destruct (hash_loop_spec block (Z.to_nat length) key rest length s)
      as (k2 & l2 & s2 & E1 & E2 & _); [lia|done|lia|].
    rewrite E in E2. injection E2 as <- <- <-.
    unfold hash_branch. rewrite E1. simpl.
    pose proof (zlen_nonneg rest).
    rewrite tail_reads by (rewrite ?zlen_app; lia). rewrite tail8_app by lia.
    by rewrite T, bind_Ok.
Qed.

Lemma hashlittle_agree raninit key initval :
  exists h, in_u 32 h /\
    forall le addr rest,
      hashlittle le raninit addr (key ++ rest) (zlen key) initval = Ok h.
Proof.
  set (a := u32 (u32 (raninit + u32 (zlen key)) + initval)).
  destruct (hash_branch_spec key (zlen key) (a, a, a) eq_refl) as (h & Hh & E).
  { apply wrap_range. lia. }
  exists h. split; [done|]. intros le addr rest. unfold hashlittle. fold a.
  destruct (le && (Z.land addr 3 =? 0)); [by apply E; apply _|].
  destruct (le && (Z.land addr 1 =? 0)); by apply E; apply _.
Qed.

(** The hash as a total function, for the clients of [hashlittle]. *)
Definition hashlittle_val (raninit : Z) (key : list Z) (initval : Z) : Z :=
  match hashlittle false raninit 0 key (zlen key) initval with Ok h => h | _ => 0 end.

Lemma hashlittle_val_spec le raninit addr key rest initval :
  hashlittle le raninit addr (key ++ rest) (zlen key) initval
  = Ok (hashlittle_val raninit key initval).
Proof.
  destruct (hashlittle_agree raninit key initval) as (h & _ & P).
  unfold hashlittle_val. rewrite P. specialize (P false 0 []). rewrite app_nil_r in P.
  by rewrite P.
Qed.

(** C39. [hashlittle] is a function of the key's bytes alone: for every address
    alignment and endianness it reads the key in range, never touches what
    follows it in memory, and returns the same 32-bit value. *)
Theorem hashlittle_portable le le' raninit addr addr' key rest rest' initval :
  hashlittle le raninit addr (key ++ rest) (zlen key) initval
  = hashlittle le' raninit addr' (key ++ rest') (zlen key) initval /\
  exists h, in_u 32 h /\
    hashlittle le raninit addr (key ++ rest) (zlen key) initval = Ok h.
Proof.
  destruct (hashlittle_agree raninit key initval) as (h & Hh & P).
  rewrite !P. split; [done|]. by exists h.
Qed.

(** ** hashword and hashlittle *)

(** The bytes of an array of 32-bit words on a little-endian machine. *)
Definition le_bytes (w : Z) : list Z :=
  [w mod 256; (w / 256) mod 256; (w / 65536) mod 256; w / 16777216].
Definition words_bytes (ws : list Z) : list Z := concat (map le_bytes ws).

Lemma words_bytes_len ws : zlen (words_bytes ws) = 4 * zlen ws.
Proof.
  induction ws as [|w ws IH]; [done|].
  change (words_bytes (w :: ws)) with (le_bytes w ++ words_bytes ws).
  rewrite zlen_app, IH, zlen_cons. change (zlen (le_bytes w)) with 4. lia.
Qed.

Lemma ld32_words w ws i :
  in_u 32 w -> ws !! i = Some w -> ld32 (words_bytes ws) (Z.of_nat i) = Ok w.
Proof.
  intros Hw. revert i. induction ws as [|v ws IH]; intros i Hi; [done|].
  change (words_bytes (v :: ws)) with (le_bytes v ++ words_bytes ws).
  destruct i as [|i]; simpl in Hi.
  - injection Hi as ->. unfold ld32, index. simpl. f_equal. unfold in_u in Hw. divlia.
  - specialize (IH i Hi). unfold ld32 in IH |- *.
    rewrite !index_app_r by (change (zlen (le_bytes v)) with 4; lia).
    change (zlen (le_bytes v)) with 4.
    replace (4 * Z.of_nat (S i) - 4) with (4 * Z.of_nat i) by lia.
    replace (4 * Z.of_nat (S i) + 1 - 4) with (4 * Z.of_nat i + 1) by lia.
    replace (4 * Z.of_nat (S i) + 2 - 4) with (4 * Z.of_nat i + 2) by lia.
    by replace (4 * Z.of_nat (S i) + 3 - 4) with (4 * Z.of_nat i + 3) by lia.
Qed.

(** The two loops run in step. *)
Lemma hashword_loop_sim fuel : forall ws l s,
  0 <= l -> l = zlen ws -> Forall (in_u 32) ws -> (Z.to_nat l <= fuel)%nat ->
  exists ws' l' s', hashword_loop fuel ws l s = Ok (ws', l', s') /\
    l' = zlen ws' /\ 0 <= l' <= 3 /\ Forall (in_u 32) ws' /\
    forall fuel', (Z.to_nat (4 * l) <= fuel')%nat ->
      hash_loop block32 fuel' (words_bytes ws) (4 * l) s
      = Ok (words_bytes ws', 4 * l', s').
Proof.
  induction fuel as [|fuel IH]; intros ws l s Hl Hw HF Hf;
    simpl; destruct (Z.ltb_spec 3 l) as [H3|H3].
  - lia.
  - exists ws, l, s. repeat split; auto; try lia. intros fuel' Hf'.
    destruct fuel'; simpl; by rewrite (proj2 (Z.ltb_ge 12 (4 * l))) by lia.
  - destruct s as [[a b] c].
    destruct ws as [|w0 [|w1 [|w2 ws]]];
      try (exfalso; unfold zlen in Hw; simpl in Hw; lia).
    rewrite !zlen_cons in Hw.
    inversion HF as [|? ? F0 HF1]; subst x l0. inversion HF1 as [|? ? F1 HF2]; subst x l0.
    inversion HF2 as [|? ? F2 HF3]; subst x l0.
    unfold index, advance. simpl. rewrite !zlen_cons.
    rewrite (proj2 (Z.leb_le _ _)) by (pose proof (zlen_nonneg ws); lia). simpl.
    change (zdrop 3 (w0 :: w1 :: w2 :: ws)) with ws.
    set (s' := mix _).
    destruct (IH ws (l - 3) s') as (ws' & l' & st & E & ? & ? & ? & E'); [lia|lia|done|lia|].
    exists ws', l', st. rewrite E. repeat split; try done; try lia.
    intros fuel' Hf'. destruct fuel' as [|fuel']; [lia|]. cbn [hash_loop].
    rewrite (proj2 (Z.ltb_lt 12 (4 * l))) by lia.
    pose proof (ld32_words w0 (w0 :: w1 :: w2 :: ws) 0 F0 eq_refl) as L0.
    pose proof (ld32_words w1 (w0 :: w1 :: w2 :: ws) 1 F1 eq_refl) as L1.
    pose proof (ld32_words w2 (w0 :: w1 :: w2 :: ws) 2 F2 eq_refl) as L2.
    change (Z.of_nat 0) with 0 in L0. change (Z.of_nat 1) with 1 in L1.
    change (Z.of_nat 2) with 2 in L2.
    assert (block32 (words_bytes (w0 :: w1 :: w2 :: ws)) (a, b, c)
            = Ok (u32 (a + w0), u32 (b + w1), u32 (c + w2))) as ->.
    { unfold block32. by rewrite L0, L1, L2. }
    rewrite bind_Ok, advance_ok, bind_Ok
      by (rewrite words_bytes_len, !zlen_cons; pose proof (zlen_nonneg ws); lia).
    change (zdrop 12 (words_bytes (w0 :: w1 :: w2 :: ws))) with (words_bytes ws).
    replace (4 * l - 12) with (4 * (l - 3)) by lia. apply E'. lia.
  - exists ws, l, s. repeat split; auto; try lia. intros fuel' Hf'.
    destruct fuel'; simpl; by rewrite (proj2 (Z.ltb_ge 12 (4 * l))) by lia.
Qed.

(** The equivalence the comment above [hashword] claims: on a little-endian
    machine [hashword] on an array of words is [hashlittle] on its bytes. *)
Lemma hashword_equiv raninit addr ws initval :
  Forall (in_u 32) ws ->
  exists h, hashword raninit ws (zlen ws) initval = Ok h /\
    hashlittle true raninit addr (words_bytes ws) (4 * zlen ws) initval = Ok h.
Proof.
  intros HF. pose proof (zlen_nonneg ws).
  set (a := u32 (raninit + u32 (Z.shiftl (u32 (zlen ws)) 2) + initval)).
  assert (u32 (u32 (raninit + u32 (4 * zlen ws)) + initval) = a) as Ea.
  { subst a. rewrite Z.shiftl_mul_pow2 by lia. apply eqw_wrap. rewrite !wrap_eqw.
    replace (4 * zlen ws) with (zlen ws * 2 ^ 2) by lia. reflexivity. }
  pose proof (hashlittle_val_spec true raninit addr (words_bytes ws) [] initval) as V.
  rewrite <- (hashlittle_val_spec true raninit 0 (words_bytes ws) [] initval) in V.
  rewrite app_nil_r, words_bytes_len in V. rewrite V. clear V.
  unfold hashlittle. rewrite Ea. simpl.
  destruct (hashword_loop_sim (Z.to_nat (zlen ws)) ws (zlen ws) (a, a, a))
    as (ws' & l' & [[a' b'] c'] & E & Hl & Hr & HF' & E'); [lia|done|done|lia|].
  unfold hashword, hash_branch. fold a. rewrite E, bind_Ok, E' by lia. rewrite bind_Ok.
  assert (forall i w, ws' !! i = Some w -> ld32 (words_bytes ws') (Z.of_nat i) = Ok w) as L.
  { intros i w Hi. apply ld32_words; [|done]. by eapply Forall_lookup_1 in Hi. }
  destruct ws' as [|w0 [|w1 [|w2 [|? ?]]]]; subst l';
    try (exfalso; unfold zlen in Hr; simpl in Hr; lia).
  - eexists. split; reflexivity.
  - pose proof (L 0%nat w0 eq_refl) as L0. change (Z.of_nat 0) with 0 in L0.
    change (4 * zlen [w0]) with 4. change (zlen [w0]) with 1. unfold tail32.
    rewrite L0. eexists. split; reflexivity.
  - pose proof (L 0%nat w0 eq_refl) as L0. pose proof (L 1%nat w1 eq_refl) as L1.
    change (Z.of_nat 0) with 0 in L0. change (Z.of_nat 1) with 1 in L1.
    change (4 * zlen [w0; w1]) with 8. change (zlen [w0; w1]) with 2. unfold tail32.
    rewrite L0, L1. eexists. split; reflexivity.
  - pose proof (L 0%nat w0 eq_refl) as L0. pose proof (L 1%nat w1 eq_refl) as L1.
    pose proof (L 2%nat w2 eq_refl) as L2.
    change (Z.of_nat 0) with 0 in L0. change (Z.of_nat 1) with 1 in L1.
    change (Z.of_nat 2) with 2 in L2.
    change (4 * zlen [w0; w1; w2]) with 12. change (zlen [w0; w1; w2]) with 3. unfold tail32.
    rewrite L0, L1, L2. eexists. split; reflexivity.
Qed.

Lemma hashword_equiv_witness :
  exists h, hashword 3735928559 [1; 2; 3; 4294967295] (zlen [1; 2; 3; 4294967295]) 7 = Ok h /\
    hashlittle true 3735928559 2 (words_bytes [1; 2; 3; 4294967295])
      (4 * zlen [1; 2; 3; 4294967295]) 7 = Ok h.
Proof.
  apply (hashword_equiv 3735928559 2 [1; 2; 3; 4294967295] 7).
  repeat constructor; unfold in_u; lia.
Defined.
