(* ===== verification/Dname.v ===== *)
(** * Domain names in wire format (util/data/dname.c, uncompressed names)

    A [uint8_t* dname] is the suffix of the memory it points to (see the
    prelude).  The specification side is a list of labels: [wire ls] is the
    encoding of the name with labels [ls], and [name_ok ls] says that it obeys
    the limits of the DNS (labels of 1 to 63 bytes, 255 bytes in all). *)

From S2P Require Import Prelude Sbuffer Lookup3.

Definition LDNS_MAX_LABELLEN : Z := 63.
Definition LDNS_MAX_DOMAINLEN : Z := 255.
Definition MAX_COMPRESS_PTRS : Z := 256.

(** [tolower] and [isalnum] of ctype.h in the C locale. *)
Definition tolower (c : Z) : Z := if (65 <=? c) && (c <=? 90) then c + 32 else c.
Definition isalnum (c : Z) : bool :=
  ((48 <=? c) && (c <=? 57)) || ((65 <=? c) && (c <=? 90)) || ((97 <=? c) && (c <=? 122)).

Definition LABEL_IS_PTR (x : Z) : bool := Z.land x 192 =? 192.
Definition PTR_OFFSET (x y : Z) : Z := Z.lor (Z.shiftl (Z.land x 63) 8) y.

(** ** Specification: names as lists of labels *)

Abbreviation label := (list Z).
Abbreviation name := (list (list Z)).

Definition wire (ls : name) : list Z := concat (map (fun l => zlen l :: l) ls) ++ [0].

Definition lower_name (ls : name) : name := map (map tolower) ls.

Definition label_ok (l : label) : Prop := 1 <= zlen l <= 63 /\ bytes_ok l.
Definition name_ok (ls : name) : Prop := Forall label_ok ls /\ zlen (wire ls) <= 255.

(** ** Length and validity *)

(** Each round of [query_dname_len] adds to [len], which stays below 256: 256
    rounds of fuel are never used up. *)
Fixpoint query_dname_len_loop (fuel : nat) (query : sldns_buffer) (len : Z)
    : outcome (Z * sldns_buffer) :=
  match fuel with
  | O => OutOfFuel
  | S fuel' =>
      rem ← sldns_buffer_remaining query;
      if rem <? 1 then Ok (0, query) else
      '(labellen, query) ← sldns_buffer_read_u8 query;
      if negb (Z.land labellen 192 =? 0) then Ok (0, query) else
      let len := len + (labellen + 1) in
      if LDNS_MAX_DOMAINLEN <? len then Ok (0, query) else
      if labellen =? 0 then Ok (len, query) else
      rem ← sldns_buffer_remaining query;
      if rem <? labellen then Ok (0, query) else
      query ← sldns_buffer_skip query labellen;
      query_dname_len_loop fuel' query len
  end.

Definition query_dname_len (query : sldns_buffer) : outcome (Z * sldns_buffer) :=
  query_dname_len_loop 256 query 0.

Fixpoint dname_valid_loop (fuel : nat) (dname : list Z) (labellen len maxlen : Z) : outcome Z :=
  if labellen =? 0 then
    let len := len + 1 in
    if maxlen <? len then Ok 0 else Ok len
  else
    match fuel with
    | O => OutOfFuel
    | S fuel' =>
        if negb (Z.land labellen 192 =? 0) then Ok 0 else
        let len := len + (labellen + 1) in
        if LDNS_MAX_DOMAINLEN <=? len then Ok 0 else
        if maxlen <? len then Ok 0 else
        dname ← advance labellen dname;
        '(labellen, dname) ← next dname;
        dname_valid_loop fuel' dname labellen len maxlen
    end.

Definition dname_valid (dname : list Z) (maxlen : Z) : outcome Z :=
  if maxlen =? 0 then Ok 0 else
  '(labellen, dname) ← next dname;
  dname_valid_loop 256 dname labellen 0 maxlen.

(** ** Counting *)

Fixpoint dname_count_labels_loop (fuel : nat) (dname : list Z) (lablen labs : Z) : outcome Z :=
  if lablen =? 0 then Ok labs else
  match fuel with
  | O => OutOfFuel
  | S fuel' =>
      let labs := labs + 1 in
      dname ← advance lablen dname;
      '(lablen, dname) ← next dname;
      dname_count_labels_loop fuel' dname lablen labs
  end.

Definition dname_count_labels (dname : list Z) : outcome Z :=
  '(lablen, dname) ← next dname;
  dname_count_labels_loop (length dname) dname lablen 1.

Fixpoint dname_count_size_labels_loop (fuel : nat) (dname : list Z) (lablen labs sz : Z)
    : outcome (Z * Z) :=
  if lablen =? 0 then Ok (labs, sz) else
  match fuel with
  | O => OutOfFuel
  | S fuel' =>
      let labs := labs + 1 in
      let sz := sz + (lablen + 1) in
      dname ← advance lablen dname;
      '(lablen, dname) ← next dname;
      dname_count_size_labels_loop fuel' dname lablen labs sz
  end.

(** Returns the label count and the value stored in [*size]. *)
Definition dname_count_size_labels (dname : list Z) : outcome (Z * Z) :=
  '(lablen, dname) ← next dname;
  dname_count_size_labels_loop (length dname) dname lablen 1 1.

(** ** Writing to a buffer, printing *)

Fixpoint dname_buffer_write_loop (fuel : nat) (pkt : sldns_buffer) (dname : list Z) (lablen : Z)
    : outcome (Z * sldns_buffer) :=
  if lablen =? 0 then Ok (1, pkt) else
  match fuel with
  | O => OutOfFuel
  | S fuel' =>
      rem ← sldns_buffer_remaining pkt;
      if rem <? lablen + 1 then Ok (0, pkt) else
      pkt ← sldns_buffer_write pkt dname lablen;
      dname ← advance lablen dname;
      '(lablen, dname) ← next dname;
      pkt ← sldns_buffer_write_u8 pkt lablen;
      dname_buffer_write_loop fuel' pkt dname lablen
  end.

Definition dname_buffer_write (pkt : sldns_buffer) (dname : list Z) : outcome (Z * sldns_buffer) :=
  rem ← sldns_buffer_remaining pkt;
  if rem <? 1 then Ok (0, pkt) else
  '(lablen, dname) ← next dname;
  pkt ← sldns_buffer_write_u8 pkt lablen;
  dname_buffer_write_loop (length dname) pkt dname lablen.

(** The characters of one label in [dname_str]. *)
Fixpoint dname_str_label (n : nat) (dname : list Z) : outcome (list Z * list Z) :=
  match n with
  | O => Ok ([], dname)
  | S n' =>
      '(c, dname) ← next dname;
      '(s, rest) ← dname_str_label n' dname;
      Ok ((if isalnum c || (c =? 45) || (c =? 95) || (c =? 42) then c else 63) :: s, rest)
  end.

Fixpoint dname_str_loop (fuel : nat) (dname : list Z) (lablen len : Z) : outcome (list Z) :=
  if lablen =? 0 then Ok [0] else
  match fuel with
  | O => OutOfFuel
  | S fuel' =>
      if LDNS_MAX_LABELLEN <? lablen then Ok [35; 0] else
      let len := len + (lablen + 1) in
      if LDNS_MAX_DOMAINLEN - 1 <=? len then Ok [38; 0] else
      '(s, dname) ← dname_str_label (Z.to_nat lablen) dname;
      '(lablen, dname) ← next dname;
      rest ← dname_str_loop fuel' dname lablen len;
      Ok (s ++ [46] ++ rest)
  end.

(** What is stored at [str], NUL included; [None] is a NULL [dname]. *)
Definition dname_str (dname : option (list Z)) : outcome (list Z) :=
  match dname with
  | None => Ok [46; 0]
  | Some dname =>
      c ← deref dname;
      if c =? 0 then Ok [46; 0] else
      '(lablen, dname) ← next dname;
      dname_str_loop 256 dname lablen 0
  end.

(** ** Labels at the front *)

Definition dname_is_root (dname : list Z) : outcome bool :=
  len ← index dname 0;
  check! (negb (LABEL_IS_PTR len));
  Ok (len =? 0).

Definition dname_remove_label (dname : list Z) (len : Z) : outcome (list Z * Z) :=
  lablen ← index dname 0;
  check! (negb (LABEL_IS_PTR lablen));
  check! (lablen <? len);
  if lablen =? 0 then Ok (dname, len) else
  dname ← advance (lablen + 1) dname;
  Ok (dname, len - (lablen + 1)).

Fixpoint dname_remove_labels_loop (n : nat) (dname : list Z) (len : Z) : outcome (list Z * Z) :=
  match n with
  | O => Ok (dname, len)
  | S n' => '(dname, len) ← dname_remove_label dname len; dname_remove_labels_loop n' dname len
  end.

Definition dname_remove_labels (dname : list Z) (len n : Z) : outcome (list Z * Z) :=
  dname_remove_labels_loop (Z.to_nat n) dname len.

Definition dname_is_wild (dname : list Z) : outcome bool :=
  c0 ← index dname 0;
  if c0 =? 1 then c1 ← index dname 1; Ok (c1 =? 42) else Ok false.

Fixpoint dname_signame_label_count_loop (fuel : nat) (dname : list Z) (lablen count : Z)
    : outcome Z :=
  if lablen =? 0 then Ok count else
  match fuel with
  | O => OutOfFuel
  | S fuel' =>
      dname ← advance lablen dname;
      dname ← advance 1 dname;
      lablen ← index dname 0;
      dname_signame_label_count_loop fuel' dname lablen (count + 1)
  end.

Definition dname_signame_label_count (dname : list Z) : outcome Z :=
  c0 ← deref dname;
  if c0 =? 0 then Ok 0 else
  wild ← dname_is_wild dname;
  dname ← (if (wild : bool) then advance 2 dname else Ok dname);
  lablen ← index dname 0;
  dname_signame_label_count_loop (length dname) dname lablen 0.

(** ** Wire format *)

Lemma wire_nil : wire [] = [0].
Proof. done. Qed.

Lemma wire_cons l ls : wire (l :: ls) = zlen l :: l ++ wire ls.
Proof. unfold wire. simpl. by rewrite <- app_assoc. Qed.

Lemma zlen_wire_cons l ls : zlen (wire (l :: ls)) = 1 + zlen l + zlen (wire ls).
Proof. rewrite wire_cons, zlen_cons, zlen_app. lia. Qed.

Lemma zlen_wire_pos ls : 1 <= zlen (wire ls).
Proof. unfold wire. rewrite zlen_app. pose proof (zlen_nonneg (concat (map (λ l, zlen l :: l) ls))). change (zlen [0]) with 1. lia. Qed.

Lemma wire_labels_bound ls :
  Forall label_ok ls -> 2 * Z.of_nat (length ls) + 1 <= zlen (wire ls).
Proof.
  induction 1 as [|l ls [Hl _] _ IH]; [done|].
  rewrite zlen_wire_cons. simpl length. lia.
Qed.

Lemma name_ok_cons l ls : name_ok (l :: ls) -> label_ok l /\ name_ok ls.
Proof.
  intros [H1 H2]. inversion_clear H1. rewrite zlen_wire_cons in H2.
  pose proof (zlen_nonneg l). split; [done|]. split; [done|lia].
Qed.

Lemma bytes_ok_wire ls : Forall label_ok ls -> bytes_ok (wire ls).
Proof.
  induction 1 as [|l ls [Hl Hb] _ IH].
  - rewrite wire_nil. apply Forall_singleton. unfold in_u. lia.
  - rewrite wire_cons. constructor; [unfold in_u; lia|]. by apply Forall_app.
Qed.

(** Bits of a length byte. *)
Lemma lablen_bits x : is_byte x -> (Z.land x 192 =? 0) = (x <? 64).
Proof.
  intros H. apply eqb_true_iff.
  exact (byte_forall (fun x => eqb (Z.land x 192 =? 0) (x <? 64)) eq_refl x H).
Qed.

Lemma label_is_ptr_range x : is_byte x -> LABEL_IS_PTR x = (192 <=? x).
Proof.
  intros H. apply eqb_true_iff.
  exact (byte_forall (fun x => eqb (LABEL_IS_PTR x) (192 <=? x)) eq_refl x H).
Qed.

Lemma tolower_byte x : is_byte x -> is_byte (tolower x).
Proof. unfold tolower, in_u. intros. repeat zcase; simpl; lia. Qed.

(** ** dname_valid *)

Lemma dname_valid_loop_complete ls : forall fuel d ll len maxlen rest,
  ll :: d = wire ls ++ rest -> Forall label_ok ls ->
  len + zlen (wire ls) <= 255 -> len + zlen (wire ls) <= maxlen ->
  (length ls <= fuel)%nat -> 0 <= len ->
  dname_valid_loop fuel d ll len maxlen = Ok (len + zlen (wire ls)).
Proof.
  induction ls as [|l ls IH]; intros fuel d ll len maxlen rest Hd Hls H255 Hmax Hf Hlen.
  - rewrite wire_nil in Hd. injection Hd as -> ->.
    change (zlen (wire [])) with 1 in *.
    destruct fuel; simpl; by rewrite ltb_false by lia.
  - inversion_clear Hls as [|? ? [Hl Hb] Hls']. rewrite zlen_wire_cons in *.
    rewrite wire_cons in Hd. simpl in Hd. injection Hd as -> ->.
    pose proof (zlen_wire_pos ls).
    destruct fuel as [|fuel]; [simpl in Hf; lia|]. simpl.
    rewrite eqb_false by lia. rewrite lablen_bits by (unfold in_u; lia).
    rewrite ltb_true by lia. simpl.
    unfold LDNS_MAX_DOMAINLEN. rewrite leb_false, ltb_false by lia.
    rewrite <- app_assoc, advance_app, bind_Ok.
    destruct (wire ls ++ rest) as [|ll' d'] eqn:E.
    { destruct ls; rewrite ?wire_nil, ?wire_cons in E; discriminate. }
    simpl. rewrite (IH fuel d' ll' _ maxlen rest); [f_equal; lia|done|done|lia|lia| |lia].
    simpl in Hf. lia.
Qed.

Lemma dname_valid_loop_sound fuel : forall d ll len maxlen n,
  bytes_ok (ll :: d) -> 0 <= len -> len <= 254 ->
  dname_valid_loop fuel d ll len maxlen = Ok n -> n <> 0 ->
  exists ls rest, ll :: d = wire ls ++ rest /\ Forall label_ok ls /\
    n = len + zlen (wire ls) /\ n <= maxlen /\ n <= 255.
Proof.
  induction fuel as [|fuel IH]; intros d ll len maxlen n Hb Hlen H254 E Hn; simpl in E.
  - destruct (Z.eqb_spec ll 0) as [->|]; [|done].
    destruct (Z.ltb_spec maxlen (len + 1)); injection E as <-; [done|].
    exists [], d. rewrite wire_nil. change (zlen [0]) with 1. repeat split; auto; lia.
  - destruct (Z.eqb_spec ll 0) as [->|Hll].
    { destruct (Z.ltb_spec maxlen (len + 1)); injection E as <-; [done|].
      exists [], d. rewrite wire_nil. change (zlen [0]) with 1. repeat split; auto; lia. }
    inversion_clear Hb as [|? ? Hb1 Hb2]. rewrite lablen_bits in E by done.
    destruct (Z.ltb_spec ll 64); simpl in E; [|by injection E as <-].
    unfold LDNS_MAX_DOMAINLEN in E.
    destruct (Z.leb_spec 255 (len + (ll + 1))); [by injection E as <-|].
    destruct (Z.ltb_spec maxlen (len + (ll + 1))); [by injection E as <-|].
    apply bind_inv in E as (d1 & Ed & E). unfold advance in Ed.
    destruct ((0 <=? ll) && (ll <=? zlen d)) eqn:Ea; [|done]. injection Ed as <-.
    apply andb_true_iff in Ea as [Ea1%Z.leb_le Ea2%Z.leb_le].
    apply bind_inv in E as ([ll' d'] & Ed & E).
    destruct (zdrop ll d) as [|x y] eqn:Ezd; [done|]. simpl in Ed. injection Ed as -> ->.
    destruct (IH d' ll' (len + (ll + 1)) maxlen n) as (ls & rest & E1 & E2 & E3 & E4 & E5);
      [|lia|lia|done|done|].
    { rewrite <- Ezd. auto with cwd. }
    exists (ztake ll d :: ls), rest.
    assert (zlen (ztake ll d) = ll) as Elen by (apply zlen_ztake; lia).
    split; [|split; [|split; [|split]]]; [| |rewrite zlen_wire_cons; lia|lia|lia].
    + rewrite wire_cons, Elen. simpl. f_equal. rewrite <- app_assoc, <- E1, <- Ezd.
      symmetry. apply ztake_zdrop.
    + constructor; [|done]. split; [lia|auto with cwd].
Qed.

Lemma dname_valid_loop_total fuel : forall d ll len maxlen,
  bytes_ok (ll :: d) -> 0 <= len <= 254 -> maxlen - len <= zlen d ->
  256 - len <= Z.of_nat fuel ->
  exists n, dname_valid_loop fuel d ll len maxlen = Ok n.
Proof.
  induction fuel as [|fuel IH]; intros d ll len maxlen Hb Hlen Hm Hf; [lia|].
  simpl. destruct (Z.eqb_spec ll 0); [destruct (maxlen <? len + 1); eauto|].
  inversion_clear Hb as [|? ? Hb1 Hb2]. unfold in_u in Hb1.
  destruct (negb _); [by eauto|]. unfold LDNS_MAX_DOMAINLEN.
  destruct (Z.leb_spec 255 (len + (ll + 1))); [by eauto|].
  destruct (Z.ltb_spec maxlen (len + (ll + 1))); [by eauto|].
  rewrite advance_ok, bind_Ok by lia.
  pose proof (zlen_zdrop ll d ltac:(lia)) as Hz.
  destruct (zdrop ll d) as [|ll' d'] eqn:E; [rewrite zlen_nil in Hz; lia|].
  rewrite zlen_cons in Hz. simpl. apply IH; [|lia|lia|lia].
  rewrite <- E. auto with cwd.
Qed.

Lemma app_wire_nonempty ls rest : exists b d, wire ls ++ rest = b :: d.
Proof. destruct ls; rewrite ?wire_nil, ?wire_cons; simpl; eauto. Qed.

Lemma wire_app_inj ls ls' rest rest' :
  Forall label_ok ls -> Forall label_ok ls' ->
  wire ls ++ rest = wire ls' ++ rest' -> ls = ls' /\ rest = rest'.
Proof.
  intros H. revert ls'. induction H as [|l ls [Hl _] _ IH]; intros ls' H' E;
    destruct H' as [|l' ls' [Hl' _] Hls']; rewrite ?wire_nil, ?wire_cons in E; simpl in E.
  - by injection E.
  - injection E as E _. lia.
  - injection E as E _. lia.
  - injection E as El E. rewrite <- !app_assoc in E.
    apply app_inj_1 in E as [-> E]; [|unfold zlen in El; lia].
    destruct (IH ls' Hls' E) as [-> ->]. done.
Qed.

(** C20. [dname_valid] decides exactly the wire format: given [maxlen] bytes and
    the byte after them, it always answers; a non-zero answer [n] means that the
    memory starts with the encoding, of length [n], of a name within the DNS
    limits that fits in [maxlen], and every such name is accepted. *)
Theorem dname_valid_spec d maxlen :
  bytes_ok d -> 0 <= maxlen < zlen d ->
  exists n, dname_valid d maxlen = Ok n /\
    (n <> 0 <-> exists ls rest, name_ok ls /\ d = wire ls ++ rest /\
                  n = zlen (wire ls) /\ zlen (wire ls) <= maxlen) /\
    (n = 0 <-> ~ exists ls rest, name_ok ls /\ d = wire ls ++ rest /\
                  zlen (wire ls) <= maxlen).
Proof.
  intros Hb Hm. unfold dname_valid.
  destruct (Z.eqb_spec maxlen 0) as [->|Hz].
  { exists 0. split; [done|]. split.
    - split; [done|]. intros (ls & ? & ? & ? & ? & ?). pose proof (zlen_wire_pos ls). lia.
    - split; [|done]. intros _ (ls & ? & ? & ? & ?). pose proof (zlen_wire_pos ls). lia. }
  destruct d as [|ll d]; [unfold zlen in Hm; simpl in Hm; lia|]. rewrite zlen_cons in Hm. cbn [next].
  rewrite bind_Ok.
  destruct (dname_valid_loop_total 256 d ll 0 maxlen) as [n En]; [done|lia|lia|simpl; lia|].
  assert (forall ls rest, name_ok ls -> ll :: d = wire ls ++ rest ->
            zlen (wire ls) <= maxlen -> n = zlen (wire ls)) as Hc.
  { intros ls rest [H1 H2] H3 H4.
    rewrite (dname_valid_loop_complete ls 256 d ll 0 maxlen rest) in En; try done.
    - by injection En.
    - pose proof (wire_labels_bound ls H1). lia. }
  assert (n <> 0 -> exists ls rest, name_ok ls /\ ll :: d = wire ls ++ rest /\
            n = zlen (wire ls) /\ zlen (wire ls) <= maxlen) as Hs.
  { intros Hn. destruct (dname_valid_loop_sound 256 d ll 0 maxlen n)
      as (ls & rest & E1 & E2 & E3 & E4 & E5); try done.
    exists ls, rest. repeat split; try done; lia. }
  exists n. split; [done|]. split; split.
  - done.
  - intros (ls & rest & H1 & H2 & -> & H4). pose proof (zlen_wire_pos ls). lia.
  - intros -> (ls & rest & H1 & H2 & H4). pose proof (zlen_wire_pos ls).
    rewrite <- (Hc ls rest H1 H2 H4) in *. lia.
  - intros Hno. destruct (Z.eq_dec n 0) as [|Hn]; [done|]. exfalso. apply Hno.
    destruct (Hs Hn) as (ls & rest & ? & ? & ? & ?). by exists ls, rest.
Qed.

Lemma dname_valid_spec_witness :
  exists n, dname_valid [1; 97; 0; 7] 3 = Ok n /\
    (n <> 0 <-> exists ls rest, name_ok ls /\ [1; 97; 0; 7] = wire ls ++ rest /\
                  n = zlen (wire ls) /\ zlen (wire ls) <= 3) /\
    (n = 0 <-> ~ exists ls rest, name_ok ls /\ [1; 97; 0; 7] = wire ls ++ rest /\
                  zlen (wire ls) <= 3).
Proof.
  apply (dname_valid_spec [1; 97; 0; 7] 3).
  - repeat constructor; unfold in_u; lia.
  - split; [lia|reflexivity].
Defined.

(** A readable byte after the allocation is needed: on an allocation of
    exactly [maxlen] bytes that holds one label and no terminating zero,
    [dname_valid] reads the byte after the allocation. *)
Lemma dname_valid_overread l :
  label_ok l -> dname_valid (zlen l :: l) (1 + zlen l) = Fault Undefined.
Proof.
  intros [Hl _]. unfold dname_valid. rewrite eqb_false by lia. cbn [next]. rewrite bind_Ok.
  generalize 255%nat. intros fuel. cbn [dname_valid_loop].
  rewrite eqb_false by lia. rewrite lablen_bits by (unfold in_u; lia).
  rewrite ltb_true by lia. cbn [negb]. unfold LDNS_MAX_DOMAINLEN.
  rewrite leb_false, ltb_false by lia. rewrite advance_ok, bind_Ok by lia.
  unfold zdrop, zlen. by rewrite Nat2Z.id, drop_all.
Qed.

Lemma dname_valid_overread_witness :
  dname_valid (zlen [99; 111; 109] :: [99; 111; 109]) (1 + zlen [99; 111; 109]) = Fault Undefined.
Proof.
  apply (dname_valid_overread [99; 111; 109]).
  split; [unfold zlen; simpl; lia|]. repeat constructor; unfold in_u; lia.
Defined.

(** ** query_dname_len *)

Lemma query_dname_len_loop_complete ls : forall fuel b d rest len,
  reads b d (wire ls ++ rest) -> Forall label_ok ls ->
  0 <= len -> len + zlen (wire ls) <= 255 -> (length ls < fuel)%nat ->
  query_dname_len_loop fuel b len
  = Ok (len + zlen (wire ls), set_pos b (b.(_position) + zlen (wire ls))).
Proof.
  induction ls as [|l ls IH]; intros [|fuel] b d rest len R Hls Hlen H255 Hf;
    [lia| |simpl in Hf; lia|]; cbn [query_dname_len_loop].
  - rewrite wire_nil in *. cbn [app] in R.
    rewrite (remaining_reads _ _ _ R), bind_Ok, zlen_cons.
    pose proof (zlen_nonneg rest). rewrite ltb_false by lia.
    destruct (read_u8_reads _ _ _ _ R) as [-> _]. rewrite bind_Ok.
    change (zlen [0]) with 1 in *. simpl. unfold LDNS_MAX_DOMAINLEN.
    by rewrite ltb_false by lia.
  - inversion_clear Hls as [|? ? [Hl Hb] Hls']. rewrite zlen_wire_cons in *.
    rewrite wire_cons in R. cbn [app] in R. rewrite <- app_assoc in R.
    pose proof (zlen_wire_pos ls). pose proof (zlen_nonneg rest).
    rewrite (remaining_reads _ _ _ R), bind_Ok, zlen_cons, !zlen_app.
    rewrite ltb_false by lia.
    destruct (read_u8_reads _ _ _ _ R) as [-> R1]. rewrite bind_Ok.
    rewrite lablen_bits by (unfold in_u; lia). rewrite ltb_true by lia. cbn [negb].
    unfold LDNS_MAX_DOMAINLEN. rewrite ltb_false, eqb_false by lia.
    rewrite (remaining_reads _ _ _ R1), bind_Ok, !zlen_app. rewrite ltb_false by lia.
    destruct (skip_reads _ _ _ (zlen l) R1) as [-> R2]; [rewrite !zlen_app; lia|].
    rewrite bind_Ok. rewrite zdrop_app_zlen in R2.
    rewrite (IH fuel _ _ _ _ R2 Hls') by (simpl in Hf; lia). cbn [set_pos _position].
    f_equal. f_equal; [lia|]. unfold set_pos. simpl. f_equal. lia.
Qed.

Lemma query_dname_len_loop_sound fuel : forall b d w len,
  reads b d w -> bytes_ok w -> 0 <= len <= 254 -> 255 - len <= Z.of_nat fuel ->
  exists n b', query_dname_len_loop fuel b len = Ok (n, b') /\ buf_ok b' d /\
    (n <> 0 -> exists ls rest, w = wire ls ++ rest /\ Forall label_ok ls /\
                 n = len + zlen (wire ls) /\ n <= 255).
Proof.
  induction fuel as [|fuel IH]; intros b d w len R Hb Hlen Hf; [lia|].
  cbn [query_dname_len_loop]. rewrite (remaining_reads _ _ _ R), bind_Ok.
  pose proof (proj1 R) as B.
  destruct w as [|x w]; [by exists 0, b|]. rewrite zlen_cons.
  pose proof (zlen_nonneg w). rewrite ltb_false by lia.
  destruct (read_u8_reads _ _ _ _ R) as [-> R1]. rewrite bind_Ok. pose proof (proj1 R1) as B1.
  inversion_clear Hb as [|? ? Hx Hw]. unfold in_u in Hx.
  rewrite lablen_bits by done. destruct (Z.ltb_spec x 64); cbn [negb]; [|by do 2 eexists].
  unfold LDNS_MAX_DOMAINLEN.
  destruct (Z.ltb_spec 255 (len + (x + 1))); [by do 2 eexists|].
  destruct (Z.eqb_spec x 0) as [->|Hx0].
  { do 2 eexists. split; [done|]. split; [done|]. intros _. exists [], w.
    change (zlen (wire [])) with 1. repeat split; auto; lia. }
  rewrite (remaining_reads _ _ _ R1), bind_Ok.
  destruct (Z.ltb_spec (zlen w) x); [by do 2 eexists|].
  destruct (skip_reads _ _ _ x R1) as [-> R2]; [lia|]. rewrite bind_Ok.
  destruct (Z.eq_dec (len + (x + 1)) 255) as [E255|Hn255].
  - (* the name is full: the next round rejects whatever follows *)
    destruct fuel as [|fuel]; [lia|]. cbn [query_dname_len_loop].
    rewrite (remaining_reads _ _ _ R2), bind_Ok. pose proof (proj1 R2) as B2.
    destruct (zdrop x w) as [|y w'] eqn:Ew; [by do 2 eexists|].
    rewrite zlen_cons. pose proof (zlen_nonneg w'). rewrite ltb_false by lia.
    destruct (read_u8_reads _ _ _ _ R2) as [-> R3]. rewrite bind_Ok.
    pose proof (proj1 R3) as B3.
    assert (is_byte y) as Hy.
    { assert (bytes_ok (zdrop x w)) as Hz by auto with cwd. rewrite Ew in Hz.
      by inversion Hz. }
    unfold in_u in Hy. destruct (negb _); [by do 2 eexists|].
    unfold LDNS_MAX_DOMAINLEN. rewrite ltb_true by lia. by do 2 eexists.
  - destruct (IH _ _ _ (len + (x + 1)) R2) as (n & b' & -> & B' & Hn);
      [auto with cwd|lia|lia|].
    exists n, b'. split; [done|]. split; [done|]. intros Hn0.
    destruct (Hn Hn0) as (ls & rest & E1 & E2 & E3 & E4).
    exists (ztake x w :: ls), rest.
    assert (zlen (ztake x w) = x) as Elen by (apply zlen_ztake; lia).
    rewrite zlen_wire_cons, wire_cons, Elen. simpl. rewrite <- app_assoc, <- E1, ztake_zdrop.
    repeat split; try done; try lia. constructor; [|done]. split; [lia|auto with cwd].
Qed.

(** [query_dname_len] parses exactly the wire format: on any well-formed
    buffer it returns without leaving the block; it returns [n <> 0] exactly when
    the unread bytes start with a name within the DNS limits, of length [n], and
    then the position is right after that name. *)
Lemma query_dname_len_ok b d w :
  reads b d w -> bytes_ok w ->
  exists n b', query_dname_len b = Ok (n, b') /\ buf_ok b' d /\
    (n <> 0 <-> exists ls rest, name_ok ls /\ w = wire ls ++ rest /\ n = zlen (wire ls)) /\
    (n <> 0 -> b' = set_pos b (b.(_position) + n)) /\
    (forall ls rest, name_ok ls -> w = wire ls ++ rest -> n = zlen (wire ls)).
Proof.
  intros R Hw. unfold query_dname_len.
  assert (forall ls rest, name_ok ls -> w = wire ls ++ rest ->
    query_dname_len_loop 256 b 0
    = Ok (zlen (wire ls), set_pos b (b.(_position) + zlen (wire ls)))) as Hc.
  { intros ls rest [H1 H2] ->. pose proof (wire_labels_bound ls H1).
    apply (query_dname_len_loop_complete ls 256 b d rest 0); auto; lia. }
  destruct (query_dname_len_loop_sound 256 b d w 0) as (n & b' & E & B & Hn);
    [done|done|lia|simpl; lia|].
  assert (n <> 0 -> exists ls rest, name_ok ls /\ w = wire ls ++ rest /\ n = zlen (wire ls)) as Hs.
  { intros Hn0. destruct (Hn Hn0) as (ls & rest & ? & ? & ? & ?). exists ls, rest.
    repeat split; auto; lia. }
  exists n, b'. split; [done|]. split; [done|]. split; [|split].
  - split; [done|]. intros (ls & rest & ? & ? & ->). pose proof (zlen_wire_pos ls). lia.
  - intros Hn0. destruct (Hs Hn0) as (ls & rest & H1 & H2 & ->).
    rewrite (Hc _ _ H1 H2) in E. by injection E.
  - intros ls rest H1 H2. rewrite (Hc _ _ H1 H2) in E. by injection E.
Qed.

Lemma query_dname_len_ok_witness :
  let b := mk_buffer 1 5 6 (Some [9; 1; 97; 0; 5; 6]) false false in
  exists n b', query_dname_len b = Ok (n, b') /\ buf_ok b' [9; 1; 97; 0; 5; 6] /\
    (n <> 0 <-> exists ls rest, name_ok ls /\ [1; 97; 0; 5] = wire ls ++ rest /\ n = zlen (wire ls)) /\
    (n <> 0 -> b' = set_pos b (1 + n)) /\
    (forall ls rest, name_ok ls -> [1; 97; 0; 5] = wire ls ++ rest -> n = zlen (wire ls)).
Proof.
  intros b. apply (query_dname_len_ok b [9; 1; 97; 0; 5; 6] [1; 97; 0; 5]).
  - split; [|reflexivity]. split; simpl; try done; try lia.
    repeat constructor; unfold in_u; lia.
  - repeat constructor; unfold in_u; lia.
Defined.
