(* ===== verification/DnameCompare.v ===== *)
(** * Comparing, ordering and hashing names (util/data/dname.c)

    The label-by-label comparisons: [dname_lab_cmp] and the subdomain tests
    built on it, the canonical order of DNSSEC, label search; and the theorems
    about the comparison and the hash of uncompressed names. *)

From S2P Require Import Prelude Sbuffer Lookup3 Dname.

(** ** Comparison of uncompressed names *)

(** The inner [while(lab1--)]: [inl] is a [return], [inr] the two pointers after
    the loop. *)
Fixpoint compare_label_bytes (n : nat) (d1 d2 : list Z)
    : outcome (Z + list Z * list Z) :=
  match n with
  | O => Ok (inr (d1, d2))
  | S n' =>
      c1 ← deref d1; c2 ← deref d2;
      if negb (c1 =? c2) && negb (tolower c1 =? tolower c2) then
        if tolower c1 <? tolower c2 then Ok (inl (-1)) else Ok (inl 1)
      else
        d1 ← advance 1 d1; d2 ← advance 1 d2;
        compare_label_bytes n' d1 d2
  end.

Fixpoint query_dname_compare_loop (fuel : nat) (d1 d2 : list Z) : outcome Z :=
  match fuel with
  | O => OutOfFuel
  | S fuel' =>
      '(lab1, d1) ← next d1;
      '(lab2, d2) ← next d2;
      if (lab1 =? 0) && (lab2 =? 0) then Ok 0 else
      if negb (lab1 =? lab2) then (if lab1 <? lab2 then Ok (-1) else Ok 1) else
      check! ((lab1 =? lab2) && negb (lab1 =? 0));
      r ← compare_label_bytes (Z.to_nat lab1) d1 d2;
      match r with
      | inl v => Ok v
      | inr (d1, d2) => query_dname_compare_loop fuel' d1 d2
      end
  end.

Definition query_dname_compare (d1 d2 : list Z) : outcome Z :=
  query_dname_compare_loop (S (length d1)) d1 d2.

(** ** Lowercasing in place: the memory from [dname] on, after the call *)

Fixpoint lower_bytes (n : nat) (d : list Z) : outcome (list Z * list Z) :=
  match n with
  | O => Ok ([], d)
  | S n' =>
      '(c, d') ← next d;
      '(low, rest) ← lower_bytes n' d';
      Ok (tolower c :: low, rest)
  end.

Fixpoint query_dname_tolower_loop (fuel : nat) (dname : list Z) : outcome (list Z) :=
  match fuel with
  | O => OutOfFuel
  | S fuel' =>
      labellen ← deref dname;
      if labellen =? 0 then Ok dname else
      dname ← advance 1 dname;
      '(low, dname) ← lower_bytes (Z.to_nat labellen) dname;
      rest ← query_dname_tolower_loop fuel' dname;
      Ok (labellen :: low ++ rest)
  end.

Definition query_dname_tolower (dname : list Z) : outcome (list Z) :=
  query_dname_tolower_loop (S (length dname)) dname.

(** ** Hashing *)

Section Hash.
(** Byte order of the machine, the random seed and where [labuf] lies. *)
Context (le : bool) (raninit addr : Z).

Fixpoint dname_query_hash_loop (fuel : nat) (dname : list Z) (h : Z) : outcome Z :=
  match fuel with
  | O => OutOfFuel
  | S fuel' =>
      '(lablen, dname) ← next dname;
      if lablen =? 0 then Ok h else
      check! (lablen <=? LDNS_MAX_LABELLEN);
      '(low, dname) ← lower_bytes (Z.to_nat lablen) dname;
      let labuf := lablen :: low in
      h ← hashlittle le raninit addr labuf (lablen + 1) h;
      dname_query_hash_loop fuel' dname h
  end.

Definition dname_query_hash (dname : list Z) (h : Z) : outcome Z :=
  dname_query_hash_loop (S (length dname)) dname h.
End Hash.

(** ** Label-wise comparison *)

Fixpoint memlowercmp (n : nat) (p1 p2 : list Z) : outcome Z :=
  match n with
  | O => Ok 0
  | S n' =>
      c1 ← deref p1; c2 ← deref p2;
      if negb (c1 =? c2) && negb (tolower c1 =? tolower c2) then
        if tolower c1 <? tolower c2 then Ok (-1) else Ok 1
      else
        p1 ← advance 1 p1; p2 ← advance 1 p2;
        memlowercmp n' p1 p2
  end.

(** [while(atlabel > labs) { len = *d++; d += len; atlabel--; }] *)
Fixpoint skip_labels (n : nat) (d : list Z) : outcome (list Z) :=
  match n with
  | O => Ok d
  | S n' => '(len, d) ← next d; d ← advance len d; skip_labels n' d
  end.

(** The inlined [memlowercmp] of [dname_lab_cmp]: the difference found, if any,
    and the two pointers, both at the end of the label. *)
Fixpoint lab_cmp_bytes (n : nat) (d1 d2 : list Z) : outcome (option Z * list Z * list Z) :=
  match n with
  | O => Ok (None, d1, d2)
  | S n' =>
      c1 ← deref d1; c2 ← deref d2;
      if negb (c1 =? c2) && negb (tolower c1 =? tolower c2) then
        e1 ← advance (Z.of_nat n) d1; e2 ← advance (Z.of_nat n) d2;
        if tolower c1 <? tolower c2 then Ok (Some (-1), e1, e2) else Ok (Some 1, e1, e2)
      else
        d1 ← advance 1 d1; d2 ← advance 1 d2;
        lab_cmp_bytes n' d1 d2
  end.

(** [while(atlabel > 1)]: [n] is [atlabel - 1].  Returns [lastdiff], [lastmlabs]. *)
Fixpoint dname_lab_cmp_loop (n : nat) (d1 d2 : list Z) (atlabel lastdiff lastmlabs : Z)
    : outcome (Z * Z) :=
  match n with
  | O => Ok (lastdiff, lastmlabs)
  | S n' =>
      '(len1, d1) ← next d1;
      '(len2, d2) ← next d2;
      if negb (len1 =? len2) then
        check! (negb (len1 =? 0) && negb (len2 =? 0));
        d1 ← advance len1 d1; d2 ← advance len2 d2;
        dname_lab_cmp_loop n' d1 d2 (atlabel - 1) (if len1 <? len2 then -1 else 1) atlabel
      else
        '(diff, d1, d2) ← lab_cmp_bytes (Z.to_nat len1) d1 d2;
        match diff with
        | Some v => dname_lab_cmp_loop n' d1 d2 (atlabel - 1) v atlabel
        | None => dname_lab_cmp_loop n' d1 d2 (atlabel - 1) lastdiff lastmlabs
        end
  end.

(** Both comparisons first skip to the same label, and finish alike. *)
Definition align_labels (d1 : list Z) (labs1 : Z) (d2 : list Z) (labs2 : Z)
    : outcome (list Z * list Z * Z) :=
  if labs2 <? labs1 then
    d1 ← skip_labels (Z.to_nat (labs1 - labs2)) d1; Ok (d1, d2, labs2)
  else if labs1 <? labs2 then
    d2 ← skip_labels (Z.to_nat (labs2 - labs1)) d2; Ok (d1, d2, labs1)
  else Ok (d1, d2, labs1).

Definition lab_cmp_result (labs1 labs2 lastdiff lastmlabs : Z) : Z * Z :=
  (if lastdiff =? 0 then
     if labs2 <? labs1 then 1 else if labs1 <? labs2 then -1 else lastdiff
   else lastdiff, lastmlabs - 1).

(** Returns the comparison and the value stored in [*mlabs]. *)
Definition dname_lab_cmp (d1 : list Z) (labs1 : Z) (d2 : list Z) (labs2 : Z) : outcome (Z * Z) :=
  '(d1, d2, atlabel) ← align_labels d1 labs1 d2 labs2;
  '(lastdiff, lastmlabs) ←
    dname_lab_cmp_loop (Z.to_nat (atlabel - 1)) d1 d2 atlabel 0 (atlabel + 1);
  Ok (lab_cmp_result labs1 labs2 lastdiff lastmlabs).

Definition memcanoncmp (p1 : list Z) (len1 : Z) (p2 : list Z) (len2 : Z) : outcome Z :=
  let min := if len1 <? len2 then len1 else len2 in
  c ← memlowercmp (Z.to_nat min) p1 p2;
  if negb (c =? 0) then Ok c else
  if len1 <? len2 then Ok (-1) else
  if len2 <? len1 then Ok 1 else Ok 0.

Fixpoint dname_canon_lab_cmp_loop (n : nat) (d1 d2 : list Z) (atlabel lastdiff lastmlabs : Z)
    : outcome (Z * Z) :=
  match n with
  | O => Ok (lastdiff, lastmlabs)
  | S n' =>
      '(len1, d1) ← next d1;
      '(len2, d2) ← next d2;
      c ← memcanoncmp d1 len1 d2 len2;
      d1 ← advance len1 d1; d2 ← advance len2 d2;
      if negb (c =? 0)
      then dname_canon_lab_cmp_loop n' d1 d2 (atlabel - 1) (if c <? 0 then -1 else 1) atlabel
      else dname_canon_lab_cmp_loop n' d1 d2 (atlabel - 1) lastdiff lastmlabs
  end.

Definition dname_canon_lab_cmp (d1 : list Z) (labs1 : Z) (d2 : list Z) (labs2 : Z)
    : outcome (Z * Z) :=
  '(d1, d2, atlabel) ← align_labels d1 labs1 d2 labs2;
  '(lastdiff, lastmlabs) ←
    dname_canon_lab_cmp_loop (Z.to_nat (atlabel - 1)) d1 d2 atlabel 0 (atlabel + 1);
  Ok (lab_cmp_result labs1 labs2 lastdiff lastmlabs).

Definition dname_canonical_compare (d1 d2 : list Z) : outcome Z :=
  labs1 ← dname_count_labels d1;
  labs2 ← dname_count_labels d2;
  '(c, m) ← dname_canon_lab_cmp d1 labs1 d2 labs2;
  Ok c.

Definition dname_strict_subdomain (d1 : list Z) (labs1 : Z) (d2 : list Z) (labs2 : Z)
    : outcome bool :=
  if labs1 <=? labs2 then Ok false else
  '(c, m) ← dname_lab_cmp d1 labs1 d2 labs2;
  if 0 <? c then Ok (m =? labs2) else Ok false.

Definition dname_strict_subdomain_c (d1 d2 : list Z) : outcome bool :=
  labs1 ← dname_count_labels d1;
  labs2 ← dname_count_labels d2;
  dname_strict_subdomain d1 labs1 d2 labs2.

Definition dname_subdomain_c (d1 d2 : list Z) : outcome bool :=
  labs1 ← dname_count_labels d1;
  labs2 ← dname_count_labels d2;
  if labs1 <? labs2 then Ok false else
  '(c, m) ← dname_lab_cmp d1 labs1 d2 labs2;
  if c <? 0 then Ok false else Ok (m =? labs2).

Definition dname_get_shared_topdomain (d1 d2 : list Z) : outcome (list Z) :=
  labs1 ← dname_count_labels d1;
  labs2 ← dname_count_labels d2;
  '(c, m) ← dname_lab_cmp d1 labs1 d2 labs2;
  '(d1, len) ← dname_remove_labels d1 LDNS_MAX_DOMAINLEN (labs1 - m);
  Ok d1.

(** [char] is signed: a byte of the prefix above 127 is negative. *)
Definition schar (c : Z) : Z := if c <? 128 then c else c - 256.

Fixpoint startswith_loop (plen : nat) (label prefix : list Z) : outcome (option (list Z)) :=
  match plen with
  | O => Ok (Some label)
  | S plen' =>
      p ← deref prefix; c ← deref label;
      if negb (schar p =? tolower c) then Ok None else
      prefix ← advance 1 prefix; label ← advance 1 label;
      startswith_loop plen' label prefix
  end.

(** Returns the truth value and, when true, the value stored in [*endptr]
    ([None] is NULL). *)
Definition dname_lab_startswith (label prefix : list Z) : outcome (bool * option (list Z)) :=
  plen ← c_strlen prefix;
  lablen ← deref label;
  if lablen <? plen then Ok (false, None) else
  label ← advance 1 label;
  r ← startswith_loop (Z.to_nat plen) label prefix;
  match r with
  | None => Ok (false, None)
  | Some label => Ok (true, if plen <? lablen then Some label else None)
  end.

Fixpoint dname_has_label_loop (fuel : nat) (dname : list Z) (dnamelen : Z) (label : list Z)
    (len : Z) : outcome bool :=
  if dnamelen <? len then Ok false else
  match fuel with
  | O => OutOfFuel
  | S fuel' =>
      c ← deref dname;
      l ← deref label;
      if c =? 0 then Ok (c =? l) else
      found ← (if (c =? l) && negb (l =? 0)
               then p1 ← advance 1 dname; p2 ← advance 1 label;
                    r ← memlowercmp (Z.to_nat c) p1 p2; Ok (r =? 0)
               else Ok false);
      if (found : bool) then Ok true else
      dname ← advance c dname;
      dname ← advance 1 dname;
      dname_has_label_loop fuel' dname dnamelen label (len + c + 1)
  end.

Definition dname_has_label (dname : list Z) (dnamelen : Z) (label : list Z) : outcome bool :=
  if dnamelen <? 1 then Ok false else
  len ← deref dname;
  dname_has_label_loop (S (length dname)) dname dnamelen label len.

(** ** Lowercased labels *)

Lemma tolower_cmp_eq c1 c2 :
  negb (c1 =? c2) && negb (tolower c1 =? tolower c2) = negb (tolower c1 =? tolower c2).
Proof. destruct (Z.eqb_spec c1 c2) as [->|]; [by rewrite Z.eqb_refl|done]. Qed.

Lemma tolower_idem c : tolower (tolower c) = tolower c.
Proof.
  unfold tolower. destruct (Z.leb_spec 65 c), (Z.leb_spec c 90); cbn [andb];
    repeat (zcase; cbn [andb]); lia.
Qed.

Lemma label_ok_lower l : label_ok l -> label_ok (map tolower l).
Proof.
  intros [Hl Hb]. split; [by rewrite zlen_map|].
  apply Forall_map. eapply Forall_impl; [exact Hb|]. intros x. apply tolower_byte.
Qed.

Lemma labels_ok_lower ls : Forall label_ok ls -> Forall label_ok (lower_name ls).
Proof. intros H. apply Forall_map. eapply Forall_impl; [exact H|]. apply label_ok_lower. Qed.

Lemma lower_name_cons l ls : lower_name (l :: ls) = map tolower l :: lower_name ls.
Proof. done. Qed.

Lemma zlen_wire_lower ls : zlen (wire (lower_name ls)) = zlen (wire ls).
Proof.
  induction ls as [|l ls IH]; [done|].
  by rewrite lower_name_cons, !zlen_wire_cons, zlen_map, IH.
Qed.

Lemma wire_inj ls ls' :
  Forall label_ok ls -> Forall label_ok ls' -> wire ls = wire ls' -> ls = ls'.
Proof.
  intros H H' E. apply (wire_app_inj ls ls' [] []); [done|done|]. by rewrite E.
Qed.

(** ** query_dname_compare *)

Lemma compare_label_bytes_spec l1 : forall l2 r1 r2,
  length l1 = length l2 ->
  compare_label_bytes (length l1) (l1 ++ r1) (l2 ++ r2)
  = Ok (let c := lex (map tolower l1) (map tolower l2) in
        if c =? 0 then inr (r1, r2) else inl c).
Proof.
  induction l1 as [|x l1 IH]; intros [|y l2] r1 r2 Hl; try done.
  cbn [length compare_label_bytes app deref]. rewrite !bind_Ok, tolower_cmp_eq.
  cbn [map lex].
  destruct (Z.eqb_spec (tolower x) (tolower y)) as [E|E]; cbn [negb].
  - rewrite E, Z.ltb_irrefl. rewrite !advance_1, !bind_Ok. apply IH. by injection Hl.
  - destruct (Z.ltb_spec (tolower x) (tolower y)); [done|]. by rewrite ltb_true by lia.
Qed.

Lemma lex_wire_cons l1 l2 ls1 ls2 :
  lex (wire (l1 :: ls1)) (wire (l2 :: ls2))
  = if zlen l1 <? zlen l2 then -1 else if zlen l2 <? zlen l1 then 1
    else if lex l1 l2 =? 0 then lex (wire ls1) (wire ls2) else lex l1 l2.
Proof.
  rewrite !wire_cons. cbn [lex].
  destruct (Z.ltb_spec (zlen l1) (zlen l2)); [done|].
  destruct (Z.ltb_spec (zlen l2) (zlen l1)); [done|].
  destruct (Z.eqb_spec (lex l1 l2) 0) as [E|E].
  - apply lex_eq in E as ->. apply lex_app_l.
  - apply lex_app_diff; [unfold zlen in *; lia|done].
Qed.

Lemma query_dname_compare_loop_spec ls1 : forall ls2 fuel r1 r2,
  Forall label_ok ls1 -> Forall label_ok ls2 -> (length ls1 < fuel)%nat ->
  query_dname_compare_loop fuel (wire ls1 ++ r1) (wire ls2 ++ r2)
  = Ok (lex (wire (lower_name ls1)) (wire (lower_name ls2))).
Proof.
  induction ls1 as [|l1 ls1 IH]; intros ls2 [|fuel] r1 r2 H1 H2 Hf; simpl in Hf; try lia;
    cbn [query_dname_compare_loop].
  - rewrite wire_nil. cbn [app next]. rewrite bind_Ok.
    destruct H2 as [|l2 ls2 [Hl2 _] H2]; [done|].
    rewrite wire_cons. cbn [app next]. rewrite bind_Ok.
    rewrite (eqb_false (zlen l2) 0), (eqb_false 0 (zlen l2)), andb_false_r by lia.
    cbn [negb]. rewrite ltb_true by lia.
    rewrite lower_name_cons, wire_cons, zlen_map. cbn [lower_name map].
    rewrite wire_nil. cbn [lex]. by rewrite ltb_true by lia.
  - inversion_clear H1 as [|? ? [Hl1 _] H1'].
    rewrite wire_cons. cbn [app next]. rewrite bind_Ok.
    destruct H2 as [|l2 ls2 [Hl2 _] H2].
    { rewrite wire_nil. cbn [app next]. rewrite bind_Ok.
      rewrite (eqb_false (zlen l1) 0) by lia. cbn [andb negb]. rewrite ltb_false by lia.
      rewrite lower_name_cons, wire_cons, zlen_map. cbn [lower_name map].
      rewrite wire_nil. cbn [lex]. by rewrite ltb_false, ltb_true by lia. }
    rewrite wire_cons. cbn [app next]. rewrite bind_Ok.
    rewrite (eqb_false (zlen l1) 0) by lia. cbn [andb].
    rewrite !lower_name_cons, lex_wire_cons, !zlen_map.
    destruct (Z.eqb_spec (zlen l1) (zlen l2)) as [El|El]; cbn [negb].
    + cbn [andb negb c_assert]. rewrite bind_Ok, El, Z.ltb_irrefl.
      rewrite <- !app_assoc. rewrite <- El. rewrite to_nat_zlen.
      rewrite compare_label_bytes_spec by (unfold zlen in El; lia). rewrite bind_Ok.
      cbn zeta. destruct (lex _ _ =? 0); [|done]. apply IH; auto; lia.
    + destruct (Z.ltb_spec (zlen l1) (zlen l2)); [done|]. by rewrite ltb_true by lia.
Qed.

Lemma length_wire_lt ls r : (length ls < length (wire ls ++ r))%nat.
Proof.
  rewrite length_app. enough (length ls < length (wire ls))%nat by lia.
  induction ls as [|l ls IH]; [simpl; lia|]. rewrite wire_cons. cbn [length].
  rewrite length_app. lia.
Qed.

Lemma length_wire_ge ls r : (length ls < S (length (wire ls ++ r)))%nat.
Proof. pose proof (length_wire_lt ls r). lia. Qed.

Lemma query_dname_compare_wire ls1 ls2 r1 r2 :
  Forall label_ok ls1 -> Forall label_ok ls2 ->
  query_dname_compare (wire ls1 ++ r1) (wire ls2 ++ r2)
  = Ok (lex (wire (lower_name ls1)) (wire (lower_name ls2))).
Proof.
  intros. apply query_dname_compare_loop_spec; auto. apply length_wire_ge.
Qed.

Lemma lex_lower_eq ls1 ls2 :
  Forall label_ok ls1 -> Forall label_ok ls2 ->
  lex (wire (lower_name ls1)) (wire (lower_name ls2)) = 0 <-> lower_name ls1 = lower_name ls2.
Proof.
  intros. rewrite lex_eq. split; [|by intros ->].
  intros E. by apply wire_inj in E; [|apply labels_ok_lower..].
Qed.

(** [query_dname_compare] on names is the lexicographic comparison of their
    lowercased wire formats; it is 0 exactly when the names are equal up to
    case, and swapping the arguments negates it. *)
Lemma query_dname_compare_spec ls1 ls2 r1 r2 :
  name_ok ls1 -> name_ok ls2 ->
  exists c, query_dname_compare (wire ls1 ++ r1) (wire ls2 ++ r2) = Ok c /\
    c = lex (wire (lower_name ls1)) (wire (lower_name ls2)) /\
    (c = 0 <-> lower_name ls1 = lower_name ls2) /\
    query_dname_compare (wire ls2 ++ r2) (wire ls1 ++ r1) = Ok (- c).
Proof.
  intros [H1 _] [H2 _]. eexists. rewrite !query_dname_compare_wire by done.
  split; [done|]. split; [done|]. split; [by apply lex_lower_eq|]. by rewrite lex_sym.
Qed.

Lemma query_dname_compare_spec_witness :
  exists c, query_dname_compare (wire [[87; 87]; [99]] ++ []) (wire [[119; 119]; [67]] ++ [5]) = Ok c /\
    c = lex (wire (lower_name [[87; 87]; [99]])) (wire (lower_name [[119; 119]; [67]])) /\
    (c = 0 <-> lower_name [[87; 87]; [99]] = lower_name [[119; 119]; [67]]) /\
    query_dname_compare (wire [[119; 119]; [67]] ++ [5]) (wire [[87; 87]; [99]] ++ []) = Ok (- c).
Proof.
  apply (query_dname_compare_spec [[87; 87]; [99]] [[119; 119]; [67]] [] [5]).
  - split; [|done]. repeat constructor; unfold in_u, zlen; simpl; lia.
  - split; [|done]. repeat constructor; unfold in_u, zlen; simpl; lia.
Defined.

(** ** Lowercasing and hashing *)

Lemma lower_bytes_spec l r : lower_bytes (length l) (l ++ r) = Ok (map tolower l, r).
Proof. induction l as [|x l IH]; simpl; [done|]. by rewrite IH. Qed.

Lemma query_dname_tolower_loop_spec ls : forall fuel r,
  Forall label_ok ls -> (length ls < fuel)%nat ->
  query_dname_tolower_loop fuel (wire ls ++ r) = Ok (wire (lower_name ls) ++ r).
Proof.
  induction ls as [|l ls IH]; intros [|fuel] r H Hf; simpl in Hf; try lia;
    cbn [query_dname_tolower_loop].
  - by rewrite wire_nil.
  - inversion_clear H as [|? ? [Hl _] H']. rewrite wire_cons, lower_name_cons, wire_cons.
    cbn [app deref]. rewrite bind_Ok, eqb_false by lia.
    rewrite advance_1, bind_Ok, <- app_assoc. rewrite to_nat_zlen.
    rewrite lower_bytes_spec, bind_Ok, IH by (done || lia). rewrite bind_Ok, zlen_map.
    by rewrite <- app_assoc.
Qed.

(** The value of the label-wise hash. *)
Definition name_hash (raninit : Z) (ls : name) (h : Z) : Z :=
  fold_left (fun h l => hashlittle_val raninit (zlen l :: map tolower l) h) ls h.

Lemma hash_label le raninit addr l h :
  hashlittle le raninit addr (zlen l :: map tolower l) (zlen l + 1) h
  = Ok (hashlittle_val raninit (zlen l :: map tolower l) h).
Proof.
  pose proof (hashlittle_val_spec le raninit addr (zlen l :: map tolower l) [] h) as E.
  by rewrite app_nil_r, zlen_cons, zlen_map, Z.add_comm in E.
Qed.

Lemma dname_query_hash_loop_spec le raninit addr ls : forall fuel r h,
  Forall label_ok ls -> (length ls < fuel)%nat ->
  dname_query_hash_loop le raninit addr fuel (wire ls ++ r) h = Ok (name_hash raninit ls h).
Proof.
  induction ls as [|l ls IH]; intros [|fuel] r h H Hf; simpl in Hf; try lia;
    cbn [dname_query_hash_loop].
  - by rewrite wire_nil.
  - inversion_clear H as [|? ? [Hl _] H']. rewrite wire_cons.
    cbn [app next]. rewrite bind_Ok, eqb_false by lia. unfold LDNS_MAX_LABELLEN.
    rewrite leb_true by lia. cbn [c_assert]. rewrite bind_Ok, <- app_assoc.
    rewrite to_nat_zlen, lower_bytes_spec, bind_Ok.
    rewrite hash_label, bind_Ok.
    apply IH; [done|lia].
Qed.

Lemma dname_query_hash_wire le raninit addr ls r h :
  Forall label_ok ls ->
  dname_query_hash le raninit addr (wire ls ++ r) h = Ok (name_hash raninit ls h).
Proof. intros. apply dname_query_hash_loop_spec; [done|]. apply length_wire_ge. Qed.

Lemma name_hash_lower raninit ls1 : forall ls2 h,
  lower_name ls1 = lower_name ls2 -> name_hash raninit ls1 h = name_hash raninit ls2 h.
Proof.
  induction ls1 as [|l1 ls1 IH]; intros [|l2 ls2] h E; try done.
  rewrite !lower_name_cons in E. injection E as El E. simpl.
  assert (zlen l1 = zlen l2) as Ez.
  { rewrite <- (zlen_map tolower l1), <- (zlen_map tolower l2). by rewrite El. }
  rewrite El, Ez. by apply IH.
Qed.

(** The hash respects the comparison: two names that [query_dname_compare]
    finds equal have the same [dname_query_hash], whatever the byte order and
    the addresses involved. *)
Lemma dname_hash_respects_compare le raninit addr addr' ls1 ls2 r1 r2 h :
  name_ok ls1 -> name_ok ls2 ->
  query_dname_compare (wire ls1 ++ r1) (wire ls2 ++ r2) = Ok 0 ->
  exists v, dname_query_hash le raninit addr (wire ls1 ++ r1) h = Ok v /\
            dname_query_hash le raninit addr' (wire ls2 ++ r2) h = Ok v.
Proof.
  intros [H1 _] [H2 _] E. rewrite query_dname_compare_wire in E by done.
  injection E as E. apply lex_lower_eq in E; [|done|done].
  exists (name_hash raninit ls1 h). rewrite !dname_query_hash_wire by done.
  split; [done|]. f_equal. symmetry. by apply name_hash_lower.
Qed.

Lemma dname_hash_respects_compare_witness :
  exists v, dname_query_hash true 1 0 (wire [[87; 87]; [99]] ++ []) 3 = Ok v /\
            dname_query_hash true 1 1 (wire [[119; 119]; [67]] ++ []) 3 = Ok v.
Proof.
  apply (dname_hash_respects_compare true 1 0 1 [[87; 87]; [99]] [[119; 119]; [67]] [] [] 3).
  - split; [|done]. repeat constructor; unfold in_u, zlen; simpl; lia.
  - split; [|done]. repeat constructor; unfold in_u, zlen; simpl; lia.
  - reflexivity.
Defined.

(** [query_dname_tolower] rewrites a name in place to its lowercase form,
    leaves what follows it alone, and the result compares equal to the original. *)
Lemma query_dname_tolower_spec ls r :
  name_ok ls ->
  query_dname_tolower (wire ls ++ r) = Ok (wire (lower_name ls) ++ r) /\
  query_dname_compare (wire (lower_name ls) ++ r) (wire ls ++ r) = Ok 0.
Proof.
  intros [H _]. split.
  - apply query_dname_tolower_loop_spec; [done|]. apply length_wire_ge.
  - rewrite query_dname_compare_wire by auto using labels_ok_lower. f_equal.
    apply lex_lower_eq; auto using labels_ok_lower.
    unfold lower_name. rewrite map_map. apply map_ext. intros l.
    rewrite map_map. apply map_ext. intros c. apply tolower_idem.
Qed.

Lemma query_dname_tolower_spec_witness :
  query_dname_tolower (wire [[87; 87]; [99]] ++ [65]) = Ok (wire (lower_name [[87; 87]; [99]]) ++ [65]) /\
  query_dname_compare (wire (lower_name [[87; 87]; [99]]) ++ [65]) (wire [[87; 87]; [99]] ++ [65]) = Ok 0.
Proof.
  apply (query_dname_tolower_spec [[87; 87]; [99]] [65]).
  split; [|done]. repeat constructor; unfold in_u, zlen; simpl; lia.
Defined.

(** ** Label-wise comparison from the right

    Both [dname_lab_cmp] and [dname_canon_lab_cmp] walk the labels from left to
    right and keep the last difference.  What they compute is the lexicographic
    comparison of the two names read from the root, for a comparison [f] of
    labels that finds labels equal exactly when they are equal up to case. *)

Section FromTheRoot.
Context (f : label -> label -> Z).

Fixpoint lexl (l1 l2 : name) : Z :=
  match l1, l2 with
  | [], [] => 0
  | [], _ :: _ => -1
  | _ :: _, [] => 1
  | x :: l1', y :: l2' => if f x y =? 0 then lexl l1' l2' else f x y
  end.

(** Length of the longest common prefix. *)
Fixpoint common (l1 l2 : name) : nat :=
  match l1, l2 with
  | x :: l1', y :: l2' => if f x y =? 0 then S (common l1' l2') else O
  | _, _ => O
  end.

(** The loops, on labels. *)
Fixpoint walk (a b : name) (atlabel d m : Z) : Z * Z :=
  match a, b with
  | x :: a', y :: b' =>
      if f x y =? 0 then walk a' b' (atlabel - 1) d m
      else walk a' b' (atlabel - 1) (f x y) atlabel
  | _, _ => (d, m)
  end.

Lemma common_le l1 : forall l2, (common l1 l2 <= length l1)%nat /\ (common l1 l2 <= length l2)%nat.
Proof.
  induction l1 as [|x l1 IH]; intros [|y l2]; simpl; try lia.
  destruct (f x y =? 0); [|lia]. destruct (IH l2). lia.
Qed.

Lemma common_snoc p : forall q x y,
  length p = length q ->
  common (p ++ [x]) (q ++ [y])
  = if (common p q =? length p)%nat
    then (length p + if (f x y =? 0)%Z then 1 else 0)%nat else common p q.
Proof.
  induction p as [|u p IH]; intros [|v q] x y Hl; try done; simpl.
  destruct (f u v =? 0); [|done]. rewrite IH by (by injection Hl).
  simpl. by destruct (common p q =? length p)%nat.
Qed.

Lemma lexl_snoc p : forall q x y,
  length p = length q ->
  lexl (p ++ [x]) (q ++ [y])
  = if (common p q =? length p)%nat then (if f x y =? 0 then 0 else f x y) else lexl p q.
Proof.
  induction p as [|u p IH]; intros [|v q] x y Hl; try done; simpl.
  destruct (f u v =? 0); [|done]. rewrite IH by (by injection Hl). done.
Qed.

Lemma walk_spec a : forall b at_ d m,
  length a = length b -> at_ = Z.of_nat (length a) + 1 ->
  walk a b at_ d m
  = let c := common (rev a) (rev b) in
    if (c =? length a)%nat then (d, m) else (lexl (rev a) (rev b), Z.of_nat c + 2).
Proof.
  induction a as [|x a IH]; intros [|y b] at_ d m Hl Hat; try done.
  cbn [walk rev]. cbn zeta. simpl in Hl.
  rewrite common_snoc, lexl_snoc by (rewrite !length_rev; lia). rewrite length_rev.
  cbn [length] in *.
  pose proof (common_le (rev a) (rev b)) as [Hc _]. rewrite length_rev in Hc.
  destruct (Z.eqb_spec (f x y) 0) as [E|E].
  - rewrite IH by lia. cbn zeta.
    destruct (Nat.eqb_spec (common (rev a) (rev b)) (length a)) as [Ec|Ec].
    + by rewrite (proj2 (Nat.eqb_eq _ _)) by lia.
    + by rewrite (proj2 (Nat.eqb_neq _ _)) by lia.
  - rewrite IH by lia. cbn zeta.
    destruct (Nat.eqb_spec (common (rev a) (rev b)) (length a)) as [Ec|Ec].
    + rewrite (proj2 (Nat.eqb_neq _ _)) by lia. f_equal. lia.
    + by rewrite (proj2 (Nat.eqb_neq _ _)) by lia.
Qed.

(** Extending one side: the aligned comparison, then the lengths. *)
Lemma common_app p : forall q r,
  length p = length q -> common (p ++ r) q = common p q /\ common q (p ++ r) = common q p.
Proof.
  induction p as [|u p IH]; intros [|v q] r Hl; try done; simpl.
  { by destruct r. }
  destruct (IH q r) as [E1 E2]; [by injection Hl|].
  split; [destruct (f u v =? 0)|destruct (f v u =? 0)]; congruence.
Qed.

Lemma lexl_app p : forall q r,
  length p = length q -> r <> [] ->
  lexl (p ++ r) q = (if (common p q =? length p)%nat then 1 else lexl p q) /\
  lexl q (p ++ r) = (if (common q p =? length p)%nat then -1 else lexl q p).
Proof.
  induction p as [|u p IH]; intros [|v q] r Hl Hr; try done; simpl.
  { by destruct r. }
  destruct (IH q r) as [E1 E2]; [by injection Hl|done|].
  split; [destruct (f u v =? 0)|destruct (f v u =? 0)]; done.
Qed.

Lemma lexl_same p : forall q, length p = length q ->
  (common p q =? length p)%nat = true -> lexl p q = 0.
Proof.
  induction p as [|u p IH]; intros [|v q] Hl; try done; simpl.
  destruct (f u v =? 0); [|done]. intros Hc. apply IH; [by injection Hl|done].
Qed.

Context (Hf0 : forall x y, f x y = 0 <-> map tolower x = map tolower y).

Lemma lexl_diff p : forall q, length p = length q ->
  (common p q =? length p)%nat = false -> lexl p q <> 0.
Proof.
  induction p as [|u p IH]; intros [|v q] Hl; try done; simpl.
  destruct (Z.eqb_spec (f u v) 0); [|done]. intros Hc. apply IH; [by injection Hl|done].
Qed.

(** The common prefix is common up to case, and is the longest such. *)
Lemma common_spec l1 : forall l2,
  take (common l1 l2) (lower_name l1) = take (common l1 l2) (lower_name l2).
Proof.
  induction l1 as [|x l1 IH]; intros [|y l2]; simpl; try done.
  destruct (Z.eqb_spec (f x y) 0) as [E|E]; [|done]. cbn [take].
  rewrite (IH l2). f_equal. by apply Hf0.
Qed.

Lemma common_max l1 : forall l2 n,
  (n <= length l1)%nat -> (n <= length l2)%nat ->
  take n (lower_name l1) = take n (lower_name l2) -> (n <= common l1 l2)%nat.
Proof.
  induction l1 as [|x l1 IH]; intros [|y l2] [|n]; simpl; try lia.
  intros H1 H2 [= E1 E2]. rewrite eqb_true by (by apply Hf0).
  specialize (IH l2 n ltac:(lia) ltac:(lia) E2). lia.
Qed.
End FromTheRoot.

(** The two comparisons of labels: by length first, or canonical. *)
Definition length_order (x y : label) : Z :=
  if zlen x <? zlen y then -1 else if zlen y <? zlen x then 1
  else lex (map tolower x) (map tolower y).
Definition canon_order (x y : label) : Z := lex (map tolower x) (map tolower y).

Lemma canon_order_0 x y : canon_order x y = 0 <-> map tolower x = map tolower y.
Proof. apply lex_eq. Qed.

Lemma length_order_0 x y : length_order x y = 0 <-> map tolower x = map tolower y.
Proof.
  unfold length_order.
  assert (map tolower x = map tolower y -> zlen x = zlen y) as Hz.
  { intros E. rewrite <- (zlen_map tolower x), <- (zlen_map tolower y). by rewrite E. }
  destruct (Z.ltb_spec (zlen x) (zlen y)); [split; [done|intros E; apply Hz in E; lia]|].
  destruct (Z.ltb_spec (zlen y) (zlen x)); [split; [done|intros E; apply Hz in E; lia]|].
  apply lex_eq.
Qed.

(** ** The loops on wire format *)

Lemma count_labels_loop_spec ls : forall fuel d ll labs rest,
  ll :: d = wire ls ++ rest -> Forall label_ok ls -> (length ls <= fuel)%nat ->
  dname_count_labels_loop fuel d ll labs = Ok (labs + zlen ls).
Proof.
  induction ls as [|l ls IH]; intros fuel d ll labs rest Hd H Hf.
  - rewrite wire_nil in Hd. injection Hd as -> ->. change (zlen (@nil label)) with 0.
    rewrite Z.add_0_r. by destruct fuel.
  - inversion_clear H as [|? ? [Hl _] H']. rewrite wire_cons in Hd. simpl in Hd.
    injection Hd as -> ->. destruct fuel as [|fuel]; [simpl in Hf; lia|].
    cbn [dname_count_labels_loop]. rewrite eqb_false by lia.
    rewrite <- app_assoc, advance_app, bind_Ok.
    destruct (app_wire_nonempty ls rest) as (b & d & E). rewrite E. cbn [next].
    rewrite bind_Ok, (IH fuel d b (labs + 1) rest) by (done || (simpl in Hf; lia)).
    f_equal. rewrite zlen_cons. lia.
Qed.

Lemma dname_count_labels_wire ls rest :
  Forall label_ok ls -> dname_count_labels (wire ls ++ rest) = Ok (1 + zlen ls).
Proof.
  intros H. pose proof (length_wire_lt ls rest) as Hl. unfold dname_count_labels.
  destruct (app_wire_nonempty ls rest) as (b & d & E). rewrite E in Hl |- *.
  cbn [next]. rewrite bind_Ok. simpl in Hl.
  apply (count_labels_loop_spec ls _ d b 1 rest); [done|done|lia].
Qed.

Lemma skip_labels_spec p : forall s r,
  Forall label_ok p -> skip_labels (length p) (wire (p ++ s) ++ r) = Ok (wire s ++ r).
Proof.
  induction p as [|l p IH]; intros s r H; [done|]. inversion_clear H.
  cbn [app length skip_labels]. rewrite wire_cons. cbn [app next].
  rewrite bind_Ok, <- app_assoc, advance_app, bind_Ok. by apply IH.
Qed.

Lemma lab_cmp_bytes_spec l1 : forall l2 r1 r2,
  length l1 = length l2 ->
  lab_cmp_bytes (length l1) (l1 ++ r1) (l2 ++ r2)
  = Ok (let c := lex (map tolower l1) (map tolower l2) in
        if c =? 0 then None else Some c, r1, r2).
Proof.
  induction l1 as [|x l1 IH]; intros [|y l2] r1 r2 Hl; try done.
  cbn [length lab_cmp_bytes app deref]. rewrite !bind_Ok, tolower_cmp_eq.
  cbn [map lex]. cbn zeta.
  destruct (Z.eqb_spec (tolower x) (tolower y)) as [E|E]; cbn [negb].
  - rewrite E, Z.ltb_irrefl. rewrite !advance_1, !bind_Ok. apply IH. by injection Hl.
  - assert (advance (Z.of_nat (S (length l1))) (x :: l1 ++ r1) = Ok r1) as ->.
    { exact (advance_app (x :: l1) r1). }
    assert (advance (Z.of_nat (S (length l1))) (y :: l2 ++ r2) = Ok r2) as ->.
    { simpl in Hl. replace (S (length l1)) with (length (y :: l2)) by (simpl; lia).
      exact (advance_app (y :: l2) r2). }
    rewrite !bind_Ok.
    destruct (Z.ltb_spec (tolower x) (tolower y)); [done|]. by rewrite ltb_true by lia.
Qed.

Lemma dname_lab_cmp_loop_spec a : forall b r1 r2 at_ d m,
  length a = length b -> Forall label_ok a -> Forall label_ok b ->
  dname_lab_cmp_loop (length a) (wire a ++ r1) (wire b ++ r2) at_ d m
  = Ok (walk length_order a b at_ d m).
Proof.
  induction a as [|x a IH]; intros [|y b] r1 r2 at_ d m Hl Ha Hb; try done.
  inversion_clear Ha as [|? ? [Hx _] Ha']. inversion_clear Hb as [|? ? [Hy _] Hb'].
  cbn [length dname_lab_cmp_loop walk]. rewrite !wire_cons. cbn [app next]. rewrite !bind_Ok.
  rewrite <- !app_assoc. injection Hl as Hl.
  destruct (Z.eqb_spec (zlen x) (zlen y)) as [E|E]; cbn [negb].
  - rewrite to_nat_zlen, lab_cmp_bytes_spec by (unfold zlen in E; lia). rewrite bind_Ok.
    cbn zeta. unfold length_order. rewrite E, Z.ltb_irrefl.
    destruct (lex _ _ =? 0); by apply IH.
  - rewrite !(eqb_false _ 0) by lia. cbn [negb andb c_assert].
    rewrite bind_Ok, !advance_app, !bind_Ok. unfold length_order.
    destruct (Z.ltb_spec (zlen x) (zlen y)); [by apply IH|].
    rewrite ltb_true by lia. by apply IH.
Qed.

Lemma memlowercmp_spec l1 : forall l2 r1 r2,
  length l1 = length l2 ->
  memlowercmp (length l1) (l1 ++ r1) (l2 ++ r2) = Ok (lex (map tolower l1) (map tolower l2)).
Proof.
  induction l1 as [|x l1 IH]; intros [|y l2] r1 r2 Hl; try done.
  cbn [length memlowercmp app deref]. rewrite !bind_Ok, tolower_cmp_eq. cbn [map lex].
  destruct (Z.eqb_spec (tolower x) (tolower y)) as [E|E]; cbn [negb].
  - rewrite E, Z.ltb_irrefl. rewrite !advance_1, !bind_Ok. apply IH. by injection Hl.
  - destruct (Z.ltb_spec (tolower x) (tolower y)); [done|]. by rewrite ltb_true by lia.
Qed.

(** A comparison of prefixes of equal length, and then the lengths. *)
Lemma lex_take (l1 l2 : list Z) n :
  (n <= length l1)%nat -> (n <= length l2)%nat ->
  lex l1 l2 = if lex (take n l1) (take n l2) =? 0 then lex (drop n l1) (drop n l2)
              else lex (take n l1) (take n l2).
Proof.
  intros H1 H2. rewrite <- (take_drop n l1) at 1. rewrite <- (take_drop n l2) at 1.
  destruct (Z.eqb_spec (lex (take n l1) (take n l2)) 0) as [E|E].
  - apply lex_eq in E. rewrite E. apply lex_app_l.
  - apply lex_app_diff; [rewrite !length_take; lia|done].
Qed.

Lemma memcanoncmp_spec x y r1 r2 :
  memcanoncmp (x ++ r1) (zlen x) (y ++ r2) (zlen y) = Ok (canon_order x y).
Proof.
  unfold memcanoncmp, canon_order.
  set (n := Nat.min (length x) (length y)).
  assert (Z.to_nat (if zlen x <? zlen y then zlen x else zlen y) = n) as ->.
  { unfold zlen in *. zcase; lia. }
  assert (memlowercmp n (x ++ r1) (y ++ r2)
          = Ok (lex (take n (map tolower x)) (take n (map tolower y)))) as ->.
  { rewrite <- (take_drop n x) at 1. rewrite <- (take_drop n y) at 1. rewrite <- !app_assoc.
    pose proof (memlowercmp_spec (take n x) (take n y) (drop n x ++ r1) (drop n y ++ r2)) as E.
    rewrite !length_take in E. rewrite !firstn_map. replace (Nat.min n (length x)) with n in E by lia.
    apply E. lia. }
  rewrite bind_Ok, (lex_take (map tolower x) (map tolower y) n) by (rewrite length_map; lia).
  destruct (lex (take n _) (take n _) =? 0); cbn [negb]; [|done].
  rewrite !skipn_map. unfold zlen in *.
  destruct (Z.ltb_spec (Z.of_nat (length x)) (Z.of_nat (length y))).
  { rewrite drop_ge by lia. destruct (drop n y) as [|u v] eqn:Ey; [|done].
    apply (f_equal length) in Ey. rewrite length_drop in Ey. simpl in Ey. lia. }
  destruct (Z.ltb_spec (Z.of_nat (length y)) (Z.of_nat (length x))).
  { rewrite (drop_ge y) by lia. destruct (drop n x) as [|u v] eqn:Ex; [|done].
    apply (f_equal length) in Ex. rewrite length_drop in Ex. simpl in Ex. lia. }
  rewrite !drop_ge by lia. done.
Qed.

Lemma dname_canon_lab_cmp_loop_spec a : forall b r1 r2 at_ d m,
  length a = length b ->
  dname_canon_lab_cmp_loop (length a) (wire a ++ r1) (wire b ++ r2) at_ d m
  = Ok (walk canon_order a b at_ d m).
Proof.
  induction a as [|x a IH]; intros [|y b] r1 r2 at_ d m Hl; try done.
  cbn [length dname_canon_lab_cmp_loop walk]. rewrite !wire_cons. cbn [app next].
  rewrite !bind_Ok. rewrite <- !app_assoc. injection Hl as Hl.
  rewrite memcanoncmp_spec, bind_Ok, !advance_app, !bind_Ok.
  destruct (Z.eqb_spec (canon_order x y) 0) as [E|E]; cbn [negb]; [by apply IH|].
  rewrite IH by done. f_equal. f_equal.
  destruct (lex_range (map tolower x) (map tolower y)) as [R|[R|R]];
    unfold canon_order in *; rewrite R in *; done.
Qed.

Lemma align_labels_spec ls1 ls2 r1 r2 :
  Forall label_ok ls1 -> Forall label_ok ls2 ->
  exists a b p q, ls1 = p ++ a /\ ls2 = q ++ b /\ length a = length b /\
    (p = [] \/ q = []) /\
    align_labels (wire ls1 ++ r1) (1 + zlen ls1) (wire ls2 ++ r2) (1 + zlen ls2)
    = Ok (wire a ++ r1, wire b ++ r2, 1 + zlen a).
Proof.
  intros H1 H2. unfold align_labels.
  destruct (Z.ltb_spec (1 + zlen ls2) (1 + zlen ls1)) as [Hl|Hl]; [|
    destruct (Z.ltb_spec (1 + zlen ls1) (1 + zlen ls2)) as [Hl2|Hl2]].
  - set (n := Z.to_nat (1 + zlen ls1 - (1 + zlen ls2))).
    exists (drop n ls1), ls2, (take n ls1), [].
    assert (n <= length ls1)%nat by (unfold zlen in *; lia).
    assert (length (drop n ls1) = length ls2) by (rewrite length_drop; unfold zlen in *; lia).
    rewrite take_drop. repeat split; auto.
    pose proof (skip_labels_spec (take n ls1) (drop n ls1) r1) as E.
    rewrite take_drop, length_take in E. replace (Nat.min n (length ls1)) with n in E by lia.
    rewrite E by (by apply Forall_take). rewrite bind_Ok. unfold zlen. do 2 f_equal. lia.
  - set (n := Z.to_nat (1 + zlen ls2 - (1 + zlen ls1))).
    exists ls1, (drop n ls2), [], (take n ls2).
    assert (n <= length ls2)%nat by (unfold zlen in *; lia).
    assert (length (drop n ls2) = length ls1) by (rewrite length_drop; unfold zlen in *; lia).
    rewrite take_drop. repeat split; auto.
    pose proof (skip_labels_spec (take n ls2) (drop n ls2) r2) as E.
    rewrite take_drop, length_take in E. replace (Nat.min n (length ls2)) with n in E by lia.
    by rewrite E by (by apply Forall_take).
  - exists ls1, ls2, [], []. repeat split; auto. unfold zlen in *. lia.
Qed.

(** Aligned walk plus lengths: the comparison of the names read from the root. *)
Lemma walk_result f ls1 ls2 a b p q :
  (forall x y, f x y = 0 <-> map tolower x = map tolower y) ->
  ls1 = p ++ a -> ls2 = q ++ b -> length a = length b -> (p = [] \/ q = []) ->
  (let '(lastdiff, lastmlabs) := walk f a b (1 + zlen a) 0 (1 + zlen a + 1) in
   lab_cmp_result (1 + zlen ls1) (1 + zlen ls2) lastdiff lastmlabs)
  = (lexl f (rev ls1) (rev ls2), 1 + Z.of_nat (common f (rev ls1) (rev ls2))).
Proof.
  intros Hf -> -> Hl Hpq.
  rewrite walk_spec by (auto; unfold zlen; lia). cbn zeta.
  rewrite !zlen_app. unfold lab_cmp_result.
  assert (length (rev a) = length (rev b)) as Hr by (rewrite !length_rev; lia).
  assert (zlen a = zlen b) as Hz by (unfold zlen; lia).
  pose proof (lexl_same f (rev a) (rev b) Hr) as Hs.
  pose proof (lexl_diff f (rev a) (rev b) Hr) as Hd.
  rewrite length_rev in Hs, Hd.
  assert (Z.of_nat (length a) = zlen a) as Hza by done.
  rewrite !rev_app_distr. destruct Hpq as [-> | ->]; cbn [rev app]; rewrite ?app_nil_r.
  - destruct (common_app f (rev b) (rev a) (rev q)) as [_ ->]; [lia|].
    destruct q as [|y q].
    + cbn [rev]. rewrite app_nil_r.
      destruct (common f (rev a) (rev b) =? length a)%nat eqn:E.
      * rewrite Hs by done. apply Nat.eqb_eq in E. rewrite Z.eqb_refl, !(zlen_nil (A := label)).
        rewrite !ltb_false by lia. f_equal. lia.
      * rewrite eqb_false by auto. f_equal. lia.
    + destruct (lexl_app f (rev b) (rev a) (rev (y :: q))) as [_ ->]; [lia| |].
      { intros E. apply (f_equal length) in E. rewrite length_rev in E. done. }
      replace (length (rev b)) with (length a) by (rewrite length_rev; lia).
      rewrite (zlen_nil (A := label)), zlen_cons. pose proof (zlen_nonneg q).
      destruct (common f (rev a) (rev b) =? length a)%nat eqn:E.
      * apply Nat.eqb_eq in E. rewrite Z.eqb_refl, ltb_false, ltb_true by lia. f_equal. lia.
      * rewrite eqb_false by auto. f_equal. lia.
  - destruct (common_app f (rev a) (rev b) (rev p)) as [-> _]; [lia|].
    destruct p as [|x p].
    + cbn [rev]. rewrite app_nil_r.
      destruct (common f (rev a) (rev b) =? length a)%nat eqn:E.
      * rewrite Hs by done. apply Nat.eqb_eq in E. rewrite Z.eqb_refl, !(zlen_nil (A := label)).
        rewrite !ltb_false by lia. f_equal. lia.
      * rewrite eqb_false by auto. f_equal. lia.
    + destruct (lexl_app f (rev a) (rev b) (rev (x :: p))) as [-> _]; [lia| |].
      { intros E. apply (f_equal length) in E. rewrite length_rev in E. done. }
      rewrite length_rev, (zlen_nil (A := label)), zlen_cons. pose proof (zlen_nonneg p).
      destruct (common f (rev a) (rev b) =? length a)%nat eqn:E.
      * apply Nat.eqb_eq in E. rewrite Z.eqb_refl, ltb_true by lia. f_equal. lia.
      * rewrite eqb_false by auto. f_equal. lia.
Qed.

Lemma dname_lab_cmp_wire ls1 ls2 r1 r2 :
  Forall label_ok ls1 -> Forall label_ok ls2 ->
  dname_lab_cmp (wire ls1 ++ r1) (1 + zlen ls1) (wire ls2 ++ r2) (1 + zlen ls2)
  = Ok (lexl length_order (rev ls1) (rev ls2),
        1 + Z.of_nat (common length_order (rev ls1) (rev ls2))).
Proof.
  intros H1 H2. unfold dname_lab_cmp.
  destruct (align_labels_spec ls1 ls2 r1 r2 H1 H2) as (a & b & p & q & E1 & E2 & Hl & Hpq & ->).
  rewrite bind_Ok. replace (Z.to_nat (1 + zlen a - 1)) with (length a) by (unfold zlen; lia).
  subst ls1 ls2. apply Forall_app in H1 as [_ H1]. apply Forall_app in H2 as [_ H2].
  rewrite dname_lab_cmp_loop_spec, bind_Ok by done.
  rewrite <- (walk_result length_order (p ++ a) (q ++ b) a b p q) by (done || apply length_order_0).
  by destruct (walk _ _ _ _ _ _).
Qed.

Lemma dname_canon_lab_cmp_wire ls1 ls2 r1 r2 :
  Forall label_ok ls1 -> Forall label_ok ls2 ->
  dname_canon_lab_cmp (wire ls1 ++ r1) (1 + zlen ls1) (wire ls2 ++ r2) (1 + zlen ls2)
  = Ok (lexl canon_order (rev ls1) (rev ls2),
        1 + Z.of_nat (common canon_order (rev ls1) (rev ls2))).
Proof.
  intros H1 H2. unfold dname_canon_lab_cmp.
  destruct (align_labels_spec ls1 ls2 r1 r2 H1 H2) as (a & b & p & q & E1 & E2 & Hl & Hpq & ->).
  rewrite bind_Ok. replace (Z.to_nat (1 + zlen a - 1)) with (length a) by (unfold zlen; lia).
  rewrite dname_canon_lab_cmp_loop_spec, bind_Ok by done.
  rewrite <- (walk_result canon_order ls1 ls2 a b p q) by (done || apply canon_order_0).
  by destruct (walk _ _ _ _ _ _).
Qed.

(** ** The canonical order *)

Definition canon_cmp (ls1 ls2 : name) : Z := lexl canon_order (rev ls1) (rev ls2).

Lemma canon_lexl_sym l1 : forall l2, lexl canon_order l2 l1 = - lexl canon_order l1 l2.
Proof.
  induction l1 as [|x l1 IH]; intros [|y l2]; simpl; try done.
  assert (canon_order y x = - canon_order x y) as -> by apply lex_sym.
  destruct (Z.eqb_spec (canon_order x y) 0) as [->|E]; [apply IH|].
  by rewrite eqb_false by lia.
Qed.

Lemma canon_lexl_eq l1 : forall l2, lexl canon_order l1 l2 = 0 <-> lower_name l1 = lower_name l2.
Proof.
  induction l1 as [|x l1 IH]; intros [|y l2]; simpl; try done.
  destruct (Z.eqb_spec (canon_order x y) 0) as [E|E].
  - rewrite IH. apply canon_order_0 in E. rewrite E. split; [by intros ->|by intros [= ->]].
  - split; [done|]. intros [= E' _]. by apply canon_order_0 in E'.
Qed.

Lemma canon_lexl_trans l1 : forall l2 l3,
  lexl canon_order l1 l2 = -1 -> lexl canon_order l2 l3 = -1 -> lexl canon_order l1 l3 = -1.
Proof.
  induction l1 as [|x l1 IH]; intros [|y l2] [|z l3]; simpl; try done.
  destruct (Z.eqb_spec (canon_order x y) 0) as [E|E], (Z.eqb_spec (canon_order y z) 0) as [E'|E'];
    intros H1 H2.
  - apply canon_order_0 in E, E'. rewrite eqb_true; [by eapply IH|].
    apply canon_order_0. congruence.
  - assert (canon_order x z = canon_order y z) as ->.
    { apply canon_order_0 in E. unfold canon_order. by rewrite E. }
    by rewrite eqb_false.
  - assert (canon_order x z = canon_order x y) as ->.
    { apply canon_order_0 in E'. unfold canon_order. by rewrite E'. }
    by rewrite eqb_false.
  - assert (canon_order x z = -1) as ->; [|done].
    unfold canon_order in *. by eapply lex_trans.
Qed.

Lemma lower_name_rev ls : lower_name (rev ls) = rev (lower_name ls).
Proof. unfold lower_name. by rewrite map_rev. Qed.

Lemma rev_lower_inj ls1 ls2 :
  lower_name (rev ls1) = lower_name (rev ls2) <-> lower_name ls1 = lower_name ls2.
Proof.
  rewrite !lower_name_rev. split; [|by intros ->].
  intros E. by rewrite <- (rev_involutive (lower_name ls1)), E, rev_involutive.
Qed.

Lemma dname_canonical_compare_wire ls1 ls2 r1 r2 :
  Forall label_ok ls1 -> Forall label_ok ls2 ->
  dname_canonical_compare (wire ls1 ++ r1) (wire ls2 ++ r2) = Ok (canon_cmp ls1 ls2).
Proof.
  intros H1 H2. unfold dname_canonical_compare.
  rewrite !dname_count_labels_wire, !bind_Ok by done.
  by rewrite dname_canon_lab_cmp_wire, bind_Ok by done.
Qed.

(** C21. [dname_canonical_compare] is the canonical DNS order of RFC 4034: names
    are compared label by label from the root, labels as strings of lowercased
    bytes with a shorter label first on a tie.  It is a total order on names up
    to case: 0 exactly on equal names, antisymmetric and transitive. *)
Theorem dname_canonical_compare_order ls1 ls2 ls3 r1 r2 r3 :
  name_ok ls1 -> name_ok ls2 -> name_ok ls3 ->
  dname_canonical_compare (wire ls1 ++ r1) (wire ls2 ++ r2) = Ok (canon_cmp ls1 ls2) /\
  (dname_canonical_compare (wire ls1 ++ r1) (wire ls2 ++ r2) = Ok 0 <->
     lower_name ls1 = lower_name ls2) /\
  dname_canonical_compare (wire ls2 ++ r2) (wire ls1 ++ r1) = Ok (- canon_cmp ls1 ls2) /\
  (dname_canonical_compare (wire ls1 ++ r1) (wire ls2 ++ r2) = Ok (-1) ->
   dname_canonical_compare (wire ls2 ++ r2) (wire ls3 ++ r3) = Ok (-1) ->
   dname_canonical_compare (wire ls1 ++ r1) (wire ls3 ++ r3) = Ok (-1)).
Proof.
  intros [H1 _] [H2 _] [H3 _]. rewrite !dname_canonical_compare_wire by done.
  unfold canon_cmp. split; [done|]. split; [|split].
  - rewrite <- rev_lower_inj, <- canon_lexl_eq. split; [by intros [= ->]|by intros ->].
  - by rewrite canon_lexl_sym.
  - intros [= E1] [= E2]. f_equal. by eapply canon_lexl_trans.
Qed.

Lemma dname_canonical_compare_order_witness :
  let a := [[97]; [122]] in let b := [[98]; [122]] in let c := [[122; 97]] in
  dname_canonical_compare (wire a ++ []) (wire b ++ []) = Ok (canon_cmp a b) /\
  (dname_canonical_compare (wire a ++ []) (wire b ++ []) = Ok 0 <->
     lower_name a = lower_name b) /\
  dname_canonical_compare (wire b ++ []) (wire a ++ []) = Ok (- canon_cmp a b) /\
  (dname_canonical_compare (wire a ++ []) (wire b ++ []) = Ok (-1) ->
   dname_canonical_compare (wire b ++ []) (wire c ++ []) = Ok (-1) ->
   dname_canonical_compare (wire a ++ []) (wire c ++ []) = Ok (-1)).
Proof.
  intros a b c. apply (dname_canonical_compare_order a b c [] [] []).
  - split; [|done]. repeat constructor; unfold in_u, zlen; simpl; lia.
  - split; [|done]. repeat constructor; unfold in_u, zlen; simpl; lia.
  - split; [|done]. repeat constructor; unfold in_u, zlen; simpl; lia.
Defined.

(** ** Subdomains *)

Definition is_suffix (s l : name) : Prop := exists p, l = p ++ s.

Lemma suffix_common f ls1 ls2 :
  (forall x y, f x y = 0 <-> map tolower x = map tolower y) ->
  common f (rev ls1) (rev ls2) = length ls2 <-> is_suffix (lower_name ls2) (lower_name ls1).
Proof.
  intros Hf. split.
  - intros E. pose proof (common_spec f Hf (rev ls1) (rev ls2)) as Hc. rewrite E in Hc.
    rewrite !lower_name_rev in Hc.
    assert (length (rev (lower_name ls2)) = length ls2) as Hlen.
    { unfold lower_name. by rewrite length_rev, length_map. }
    rewrite <- Hlen in Hc at 2. rewrite firstn_all in Hc.
    exists (rev (drop (length ls2) (rev (lower_name ls1)))).
    rewrite <- (rev_involutive (lower_name ls1)) at 1.
    rewrite <- (take_drop (length ls2) (rev (lower_name ls1))) at 1.
    by rewrite Hc, rev_app_distr, rev_involutive.
  - intros [p E]. pose proof (common_le f (rev ls1) (rev ls2)) as [_ Hle].
    rewrite length_rev in Hle.
    assert (length ls1 = length p + length ls2)%nat as Hl.
    { apply (f_equal length) in E. unfold lower_name in E.
      rewrite length_app, !length_map in E. done. }
    enough (length ls2 <= common f (rev ls1) (rev ls2))%nat by lia.
    apply common_max; [done|rewrite length_rev; lia|rewrite length_rev; lia|].
    rewrite !lower_name_rev, E, rev_app_distr.
    rewrite !firstn_app.
    assert (length (rev (lower_name ls2)) = length ls2) as ->.
    { unfold lower_name. by rewrite length_rev, length_map. }
    by rewrite Nat.sub_diag, app_nil_r.
Qed.

(** A name below or at another does not compare before it. *)
Lemma lexl_common_full f l1 : forall l2,
  common f l1 l2 = length l2 -> (length l2 <= length l1)%nat ->
  lexl f l1 l2 = (if (length l1 =? length l2)%nat then 0 else 1).
Proof.
  induction l1 as [|x l1 IH]; intros [|y l2]; simpl; try done; try lia.
  destruct (f x y =? 0); [|done]. intros [= E] Hl. apply IH; [done|lia].
Qed.

(** [dname_subdomain_c d1 d2] holds exactly when the labels of [d2] are the
    last labels of [d1] up to case, and [dname_strict_subdomain_c] when moreover
    [d1] has more labels. *)
Lemma dname_subdomain_spec ls1 ls2 r1 r2 :
  name_ok ls1 -> name_ok ls2 ->
  exists b1 b2,
    dname_subdomain_c (wire ls1 ++ r1) (wire ls2 ++ r2) = Ok b1 /\
    dname_strict_subdomain_c (wire ls1 ++ r1) (wire ls2 ++ r2) = Ok b2 /\
    (b1 = true <-> is_suffix (lower_name ls2) (lower_name ls1)) /\
    (b2 = true <-> is_suffix (lower_name ls2) (lower_name ls1) /\
                   (length ls2 < length ls1)%nat).
Proof.
  intros [H1 _] [H2 _].
  unfold dname_subdomain_c, dname_strict_subdomain_c, dname_strict_subdomain.
  rewrite !dname_count_labels_wire, !bind_Ok, !dname_lab_cmp_wire, !bind_Ok by done.
  set (c := lexl length_order (rev ls1) (rev ls2)).
  set (m := common length_order (rev ls1) (rev ls2)).
  pose proof (suffix_common length_order ls1 ls2 length_order_0) as Hs. fold m in Hs.
  assert (is_suffix (lower_name ls2) (lower_name ls1) -> (length ls2 <= length ls1)%nat) as Hlen.
  { intros [p E]. apply (f_equal length) in E. unfold lower_name in E.
    rewrite length_app, !length_map in E. lia. }
  assert (m = length ls2 -> (length ls2 <= length ls1)%nat ->
          c = if (length ls1 =? length ls2)%nat then 0 else 1) as Hc.
  { intros E Hl. subst c m. rewrite (lexl_common_full length_order).
    - by rewrite !length_rev.
    - by rewrite length_rev.
    - rewrite !length_rev. lia. }
  assert ((1 + Z.of_nat m =? 1 + zlen ls2) = (m =? length ls2)%nat) as ->.
  { unfold zlen. destruct (Nat.eqb_spec m (length ls2)); [apply eqb_true; lia|apply eqb_false; lia]. }
  assert (m <= length ls1)%nat as Hm.
  { pose proof (common_le length_order (rev ls1) (rev ls2)) as [E _].
    by rewrite length_rev in E. }
  exists (m =? length ls2)%nat, ((m =? length ls2)%nat && (length ls2 <? length ls1)%nat).
  unfold zlen. split; [|split; [|split]].
  - destruct (Z.ltb_spec (1 + Z.of_nat (length ls1)) (1 + Z.of_nat (length ls2))).
    + f_equal. symmetry. apply Nat.eqb_neq. lia.
    + destruct (Z.ltb_spec c 0); [|done]. f_equal. symmetry. apply Nat.eqb_neq. intros E.
      rewrite Hc in * by lia. destruct (length ls1 =? length ls2)%nat; lia.
  - destruct (Z.leb_spec (1 + Z.of_nat (length ls1)) (1 + Z.of_nat (length ls2))).
    + rewrite (proj2 (Nat.ltb_ge _ _)) by lia. by rewrite andb_false_r.
    + rewrite (proj2 (Nat.ltb_lt _ _)) by lia. rewrite andb_true_r.
      destruct (Z.ltb_spec 0 c); [done|]. f_equal. symmetry. apply Nat.eqb_neq. intros E.
      rewrite Hc in * by lia. rewrite (proj2 (Nat.eqb_neq _ _)) in * by lia. lia.
  - rewrite Nat.eqb_eq. done.
  - by rewrite andb_true_iff, Nat.eqb_eq, Nat.ltb_lt, Hs.
Qed.

Lemma dname_subdomain_spec_witness :
  let a := [[119]; [69; 120]] in let b := [[101; 88]] in
  exists b1 b2,
    dname_subdomain_c (wire a ++ []) (wire b ++ []) = Ok b1 /\
    dname_strict_subdomain_c (wire a ++ []) (wire b ++ []) = Ok b2 /\
    (b1 = true <-> is_suffix (lower_name b) (lower_name a)) /\
    (b2 = true <-> is_suffix (lower_name b) (lower_name a) /\ (length b < length a)%nat).
Proof.
  intros a b. apply (dname_subdomain_spec a b [] []).
  - split; [|done]. repeat constructor; unfold in_u, zlen; simpl; lia.
  - split; [|done]. repeat constructor; unfold in_u, zlen; simpl; lia.
Defined.

(** ** Removing labels *)

Lemma dname_remove_labels_loop_spec p : forall s r len,
  Forall label_ok (p ++ s) -> zlen (wire (p ++ s)) <= len ->
  dname_remove_labels_loop (length p) (wire (p ++ s) ++ r) len
  = Ok (wire s ++ r, len - (zlen (wire (p ++ s)) - zlen (wire s))).
Proof.
  induction p as [|l p IH]; intros s r len H Hl; cbn [app length dname_remove_labels_loop].
  - do 2 f_equal. lia.
  - cbn [app] in H, Hl. inversion_clear H as [|? ? [Hlab _] H'].
    unfold dname_remove_label. rewrite zlen_wire_cons in *. rewrite wire_cons. cbn [app].
    change (index (zlen l :: (l ++ wire (p ++ s)) ++ r) 0) with (Ok (zlen l)).
    rewrite bind_Ok, label_is_ptr_range by (unfold in_u; lia).
    pose proof (zlen_wire_pos (p ++ s)).
    rewrite leb_false by lia. cbn [negb c_assert]. rewrite bind_Ok, ltb_true by lia.
    cbn [c_assert]. rewrite bind_Ok, eqb_false by lia.
    assert (advance (zlen l + 1) (zlen l :: (l ++ wire (p ++ s)) ++ r)
            = Ok (wire (p ++ s) ++ r)) as ->.
    { pose proof (advance_app (zlen l :: l) (wire (p ++ s) ++ r)) as A.
      rewrite zlen_cons, Z.add_comm in A. cbn [app] in A. by rewrite app_assoc in A. }
    rewrite !bind_Ok, IH by (done || lia). do 2 f_equal. lia.
Qed.

(** [dname_get_shared_topdomain d1 d2] returns a pointer into [d1], to the
    longest suffix (in labels) that both names share up to case. *)
Lemma dname_get_shared_topdomain_spec ls1 ls2 r1 r2 :
  name_ok ls1 -> name_ok ls2 ->
  exists p s, ls1 = p ++ s /\
    dname_get_shared_topdomain (wire ls1 ++ r1) (wire ls2 ++ r2) = Ok (wire s ++ r1) /\
    is_suffix (lower_name s) (lower_name ls2) /\
    forall t, is_suffix t (lower_name ls1) -> is_suffix t (lower_name ls2) ->
      (length t <= length s)%nat.
Proof.
  intros [H1 L1] [H2 _]. unfold dname_get_shared_topdomain.
  rewrite !dname_count_labels_wire, !bind_Ok, !dname_lab_cmp_wire, !bind_Ok by done.
  set (m := common length_order (rev ls1) (rev ls2)).
  pose proof (common_le length_order (rev ls1) (rev ls2)) as [M1 M2]. fold m in M1, M2.
  rewrite !length_rev in M1, M2.
  set (n := (length ls1 - m)%nat).
  exists (take n ls1), (drop n ls1). split; [by rewrite take_drop|].
  assert (length (drop n ls1) = m) as Hd by (rewrite length_drop; lia).
  split; [|split].
  - unfold dname_remove_labels.
    replace (Z.to_nat (1 + zlen ls1 - (1 + Z.of_nat m))) with (length (take n ls1))
      by (rewrite length_take; unfold zlen; lia).
    rewrite <- (take_drop n ls1) at 2.
    rewrite dname_remove_labels_loop_spec; rewrite ?take_drop; [done|done|].
    unfold LDNS_MAX_DOMAINLEN. lia.
  - pose proof (common_spec length_order length_order_0 (rev ls1) (rev ls2)) as E. fold m in E.
    rewrite !lower_name_rev in E.
    assert (forall ls, (m <= length ls)%nat ->
      take m (rev (lower_name ls)) = rev (lower_name (drop (length ls - m) ls))) as R.
    { intros ls Hls. unfold lower_name. rewrite firstn_rev, length_map, skipn_map. done. }
    rewrite (R ls1 M1), (R ls2 M2) in E. fold n in E.
    apply (f_equal (@rev _)) in E. rewrite !rev_involutive in E. rewrite E.
    exists (lower_name (take (length ls2 - m) ls2)).
    unfold lower_name. by rewrite <- map_app, take_drop.
  - intros t [p1 E1] [p2 E2]. rewrite Hd.
    assert (length (lower_name ls1) = length ls1) as N1 by (unfold lower_name; by rewrite length_map).
    assert (length (lower_name ls2) = length ls2) as N2 by (unfold lower_name; by rewrite length_map).
    apply common_max; [apply length_order_0| | |].
    + rewrite length_rev, <- N1, E1, length_app. lia.
    + rewrite length_rev, <- N2, E2, length_app. lia.
    + rewrite !lower_name_rev, E1, E2, !rev_app_distr.
      rewrite <- (length_rev t). by rewrite !firstn_app, !Nat.sub_diag, !firstn_all.
Qed.

Lemma dname_get_shared_topdomain_spec_witness :
  let a := [[119]; [69; 120]; [110]] in let b := [[101]; [78]] in
  exists p s, a = p ++ s /\
    dname_get_shared_topdomain (wire a ++ [1]) (wire b ++ []) = Ok (wire s ++ [1]) /\
    is_suffix (lower_name s) (lower_name b) /\
    forall t, is_suffix t (lower_name a) -> is_suffix t (lower_name b) ->
      (length t <= length s)%nat.
Proof.
  intros a b. apply (dname_get_shared_topdomain_spec a b [1] []).
  - split; [|done]. repeat constructor; unfold in_u, zlen; simpl; lia.
  - split; [|done]. repeat constructor; unfold in_u, zlen; simpl; lia.
Defined.

(** ** dname_has_label *)

(** One label against the one searched for: a length byte and the bytes. *)
Lemma has_label_test l lab rl rl' :
  label_ok l ->
  (if (zlen l =? zlen lab) && negb (zlen lab =? 0)
   then p1 ← advance 1 (zlen l :: l ++ rl); p2 ← advance 1 (zlen lab :: lab ++ rl');
        r ← memlowercmp (Z.to_nat (zlen l)) p1 p2; Ok (r =? 0)
   else Ok false)
  = Ok (lex (map tolower l) (map tolower lab) =? 0).
Proof.
  intros [Hl _].
  destruct (Z.eqb_spec (zlen l) (zlen lab)) as [E|E].
  - rewrite eqb_false by lia. cbn [andb negb]. rewrite !advance_1, !bind_Ok.
    rewrite to_nat_zlen, memlowercmp_spec by (unfold zlen in E; lia). done.
  - cbn [andb]. rewrite eqb_false; [done|]. intros E'. apply lex_eq in E'.
    rewrite <- (zlen_map tolower l), <- (zlen_map tolower lab), E' in E. done.
Qed.

Lemma has_label_loop_sound ls : forall fuel r dnamelen lab rl len,
  Forall label_ok ls -> (length ls < fuel)%nat ->
  exists b, dname_has_label_loop fuel (wire ls ++ r) dnamelen (zlen lab :: lab ++ rl) len = Ok b /\
    (b = true -> lab = [] \/ exists l, l ∈ ls /\ map tolower l = map tolower lab).
Proof.
  induction ls as [|l ls IH]; intros [|fuel] r dnamelen lab rl len H Hf; simpl in Hf; try lia;
    cbn [dname_has_label_loop]; destruct (dnamelen <? len); try (by exists false).
  - rewrite wire_nil. cbn [app deref]. rewrite !bind_Ok, Z.eqb_refl.
    eexists. split; [done|]. intros E%Z.eqb_eq. left. apply zlen_0_inv. lia.
  - inversion_clear H as [|? ? Hl H']. rewrite wire_cons. cbn [app deref]. rewrite !bind_Ok.
    rewrite eqb_false by (destruct Hl; lia).
    rewrite <- app_assoc, has_label_test, bind_Ok by done.
    destruct (Z.eqb_spec (lex (map tolower l) (map tolower lab)) 0) as [E|E].
    + exists true. split; [done|]. intros _. right. exists l. split; [set_solver|].
      by apply lex_eq.
    + assert (advance (zlen l) (zlen l :: l ++ wire ls ++ r)
              = Ok (zdrop (zlen l) (zlen l :: l ++ wire ls ++ r))) as ->.
      { apply advance_ok. rewrite zlen_cons, zlen_app. pose proof (zlen_nonneg l).
        pose proof (zlen_nonneg (wire ls ++ r)). lia. }
      rewrite bind_Ok.
      assert (advance 1 (zdrop (zlen l) (zlen l :: l ++ wire ls ++ r)) = Ok (wire ls ++ r)) as ->.
      { pose proof (zlen_nonneg l). pose proof (zlen_nonneg (wire ls ++ r)).
        rewrite advance_ok.
        - rewrite zdrop_zdrop by lia. f_equal.
          pose proof (zdrop_app_zlen (zlen l :: l) (wire ls ++ r)) as Z0.
          by rewrite zlen_cons, Z.add_comm in Z0.
        - rewrite zlen_zdrop; rewrite zlen_cons, zlen_app; lia. }
      rewrite bind_Ok.
      destruct (IH fuel r dnamelen lab rl (len + zlen l + 1) H' ltac:(lia)) as (b & -> & Hb).
      exists b. split; [done|]. intros Hb'. destruct (Hb Hb') as [?|(l' & ? & ?)]; [by left|].
      right. exists l'. set_solver.
Qed.

Lemma has_label_sound ls lab r rl :
  name_ok ls ->
  exists b, dname_has_label (wire ls ++ r) (zlen (wire ls)) (zlen lab :: lab ++ rl) = Ok b /\
    (b = true -> lab = [] \/ exists l, l ∈ ls /\ map tolower l = map tolower lab).
Proof.
  intros [H _]. unfold dname_has_label. pose proof (zlen_wire_pos ls).
  rewrite ltb_false by lia.
  pose proof (length_wire_ge ls r) as Hf.
  destruct (app_wire_nonempty ls r) as (x & d & E).
  assert (deref (wire ls ++ r) = Ok x) as -> by (by rewrite E).
  rewrite bind_Ok. apply has_label_loop_sound; [done|lia].
Qed.

Lemma has_label_misses l ls lab r rl :
  name_ok (l :: ls) -> zlen (wire (l :: ls)) <= 2 * zlen l ->
  map tolower l <> map tolower lab ->
  dname_has_label (wire (l :: ls) ++ r) (zlen (wire (l :: ls))) (zlen lab :: lab ++ rl) = Ok false.
Proof.
  intros Hn Hlen Hne. destruct (name_ok_cons _ _ Hn) as [Hl _].
  unfold dname_has_label. pose proof (zlen_wire_pos (l :: ls)). rewrite ltb_false by lia.
  rewrite zlen_wire_cons in *. rewrite wire_cons. cbn [app deref]. rewrite bind_Ok.
  pose proof (zlen_wire_pos ls).
  cbn [dname_has_label_loop]. rewrite ltb_false by lia. cbn [deref]. rewrite !bind_Ok.
  rewrite eqb_false by (destruct Hl; lia).
  rewrite <- app_assoc, has_label_test, bind_Ok by done.
  rewrite eqb_false by (by rewrite lex_eq).
  pose proof (zlen_nonneg l). pose proof (zlen_nonneg (wire ls ++ r)).
  rewrite advance_ok, bind_Ok by (rewrite zlen_cons, zlen_app; lia).
  rewrite advance_ok, bind_Ok by (rewrite zlen_zdrop; rewrite zlen_cons, zlen_app; lia).
  set (fuel := length _). destruct fuel; cbn [dname_has_label_loop]; by rewrite ltb_true by lia.
Qed.

(** [dname_has_label] always answers, and when it says 1 the name has the
    label, up to case (the empty label being the root).  But it misses labels: it
    adds the length of the label it leaves, not of the one it enters, to the length
    it compares with [dnamelen], so that when the first label is at least as long as
    half the name, no later label is ever found. *)
Lemma dname_has_label_spec ls lab r rl :
  name_ok ls ->
  (exists b, dname_has_label (wire ls ++ r) (zlen (wire ls)) (zlen lab :: lab ++ rl) = Ok b /\
     (b = true -> lab = [] \/ exists l, l ∈ ls /\ map tolower l = map tolower lab)) /\
  (forall l, head ls = Some l -> zlen (wire ls) <= 2 * zlen l -> map tolower l <> map tolower lab ->
     dname_has_label (wire ls ++ r) (zlen (wire ls)) (zlen lab :: lab ++ rl) = Ok false).
Proof.
  intros Hn. split; [by apply has_label_sound|]. intros l Hl Hlen Hne.
  destruct ls as [|l' ls]; [done|]. injection Hl as ->. by apply has_label_misses.
Qed.

(** abcdefgh.x has the label x, but is not found to have it. *)
Lemma dname_has_label_spec_witness :
  let l := [97; 98; 99; 100; 101; 102; 103; 104] in
  [120] ∈ [l; [120]] /\
  dname_has_label (wire [l; [120]] ++ []) (zlen (wire [l; [120]])) (zlen [120] :: [120] ++ []) = Ok false.
Proof.
  intros l. split; [set_solver|]. apply (dname_has_label_spec [l; [120]] [120] [] []) with (l := l).
  - split; [|done]. repeat constructor; unfold in_u, zlen; simpl; lia.
  - done.
  - done.
  - done.
Defined.
