(* ===== verification/DnamePkt.v ===== *)
(** * Compressed domain names in packets (util/data/dname.c, pkt functions)

    A name in a packet is a chain of labels and compression pointers.  The
    relation [decomp] says which list of labels such a chain stands for and how
    many pointers it follows; every routine is related to it, and through it to
    the routines for uncompressed names of [Dname] and [DnameCompare]. *)

From S2P Require Import Prelude Sbuffer Lookup3 Dname DnameCompare.

(** ** Parsing: the length of a name at the position of a packet

    A round adds to [len] or to [ptrcount], which are bounded by 255 and 258. *)

Fixpoint pkt_dname_len_loop (fuel : nat) (pkt : sldns_buffer) (len ptrcount endpos : Z)
    : outcome (Z * sldns_buffer) :=
  match fuel with
  | O => OutOfFuel
  | S fuel' =>
      rem ← sldns_buffer_remaining pkt;
      if rem <? 1 then Ok (0, pkt) else
      '(labellen, pkt) ← sldns_buffer_read_u8 pkt;
      if LABEL_IS_PTR labellen then
        rem ← sldns_buffer_remaining pkt;
        if rem <? 1 then Ok (0, pkt) else
        '(y, pkt) ← sldns_buffer_read_u8 pkt;
        let ptr := u16 (PTR_OFFSET labellen y) in
        if MAX_COMPRESS_PTRS <? ptrcount then Ok (0, pkt) else
        if sldns_buffer_limit pkt <=? ptr then Ok (0, pkt) else
        let endpos := if endpos =? 0 then sldns_buffer_position pkt else endpos in
        pkt ← sldns_buffer_set_position pkt ptr;
        pkt_dname_len_loop fuel' pkt len (ptrcount + 1) endpos
      else
        if 63 <? labellen then Ok (0, pkt) else
        let len := len + (1 + labellen) in
        if LDNS_MAX_DOMAINLEN <? len then Ok (0, pkt) else
        if labellen =? 0 then
          pkt ← (if negb (endpos =? 0) then sldns_buffer_set_position pkt endpos else Ok pkt);
          Ok (len, pkt)
        else
        rem ← sldns_buffer_remaining pkt;
        if rem <? labellen then Ok (0, pkt) else
        pkt ← sldns_buffer_skip pkt labellen;
        pkt_dname_len_loop fuel' pkt len ptrcount endpos
  end.

Definition pkt_dname_len (pkt : sldns_buffer) : outcome (Z * sldns_buffer) :=
  pkt_dname_len_loop 600 pkt 0 0 0.

(** ** Following a name by pointer

    [dname] is a pointer into the packet, or to an uncompressed name elsewhere.
    The fuel covers a walk over the whole block for each of the pointers that
    [MAX_COMPRESS_PTRS] lets through. *)

Definition chase_fuel (pkt : sldns_buffer) (dname : list Z) : nat :=
  match pkt.(_data) with
  | Some d => S (length dname + 258 * S (length d))
  | None => S (length dname)
  end.

Fixpoint pkt_compare_bytes (n : nat) (d1 d2 : list Z) : outcome (Z + list Z * list Z) :=
  match n with
  | O => Ok (inr (d1, d2))
  | S n' =>
      c1 ← deref d1; c2 ← deref d2;
      if negb (tolower c1 =? tolower c2) then
        if tolower c1 <? tolower c2 then Ok (inl (-1)) else Ok (inl 1)
      else
        d1 ← advance 1 d1; d2 ← advance 1 d2;
        pkt_compare_bytes n' d1 d2
  end.

Fixpoint dname_pkt_compare_loop (fuel : nat) (pkt : sldns_buffer)
    (len1 : Z) (d1 : list Z) (len2 : Z) (d2 : list Z) (count1 count2 : Z) : outcome Z :=
  if (len1 =? 0) && (len2 =? 0) then Ok 0 else
  match fuel with
  | O => OutOfFuel
  | S fuel' =>
      if LABEL_IS_PTR len1 then
        y ← deref d1;
        if sldns_buffer_limit pkt <=? PTR_OFFSET len1 y then Ok (-1) else
        if MAX_COMPRESS_PTRS <? count1 then Ok (-1) else
        d1 ← sldns_buffer_at pkt (PTR_OFFSET len1 y);
        '(len1, d1) ← next d1;
        dname_pkt_compare_loop fuel' pkt len1 d1 len2 d2 (count1 + 1) count2
      else if LABEL_IS_PTR len2 then
        y ← deref d2;
        if sldns_buffer_limit pkt <=? PTR_OFFSET len2 y then Ok 1 else
        if MAX_COMPRESS_PTRS <? count2 then Ok 1 else
        d2 ← sldns_buffer_at pkt (PTR_OFFSET len2 y);
        '(len2, d2) ← next d2;
        dname_pkt_compare_loop fuel' pkt len1 d1 len2 d2 count1 (count2 + 1)
      else
        check! (len1 <=? LDNS_MAX_LABELLEN);
        check! (len2 <=? LDNS_MAX_LABELLEN);
        if negb (len1 =? len2) then (if len1 <? len2 then Ok (-1) else Ok 1) else
        check! ((len1 =? len2) && negb (len1 =? 0));
        r ← pkt_compare_bytes (Z.to_nat len1) d1 d2;
        match r with
        | inl v => Ok v
        | inr (d1, d2) =>
            '(len1, d1) ← next d1;
            '(len2, d2) ← next d2;
            dname_pkt_compare_loop fuel' pkt len1 d1 len2 d2 count1 count2
        end
  end.

Definition dname_pkt_compare (pkt : sldns_buffer) (d1 d2 : list Z) : outcome Z :=
  let fuel := (chase_fuel pkt d1 + chase_fuel pkt d2)%nat in
  '(len1, d1) ← next d1;
  '(len2, d2) ← next d2;
  dname_pkt_compare_loop fuel pkt len1 d1 len2 d2 0 0.

Section PktHash.
Context (le : bool) (raninit addr : Z).

Fixpoint dname_pkt_hash_loop (fuel : nat) (pkt : sldns_buffer) (lablen : Z) (dname : list Z)
    (count h : Z) : outcome Z :=
  if lablen =? 0 then Ok h else
  match fuel with
  | O => OutOfFuel
  | S fuel' =>
      if LABEL_IS_PTR lablen then
        y ← deref dname;
        if sldns_buffer_limit pkt <=? PTR_OFFSET lablen y then Ok h else
        if MAX_COMPRESS_PTRS <? count then Ok h else
        dname ← sldns_buffer_at pkt (PTR_OFFSET lablen y);
        '(lablen, dname) ← next dname;
        dname_pkt_hash_loop fuel' pkt lablen dname (count + 1) h
      else
        check! (lablen <=? LDNS_MAX_LABELLEN);
        '(low, dname) ← lower_bytes (Z.to_nat lablen) dname;
        let labuf := lablen :: low in
        h ← hashlittle le raninit addr labuf (lablen + 1) h;
        '(lablen, dname) ← next dname;
        dname_pkt_hash_loop fuel' pkt lablen dname count h
  end.

Definition dname_pkt_hash (pkt : sldns_buffer) (dname : list Z) (h : Z) : outcome Z :=
  let fuel := chase_fuel pkt dname in
  '(lablen, dname) ← next dname;
  dname_pkt_hash_loop fuel pkt lablen dname 0 h.
End PktHash.

(** The bytes [dname_pkt_copy] stores from [to] on, in order. *)
Fixpoint dname_pkt_copy_loop (fuel : nat) (pkt : sldns_buffer) (lablen : Z) (dname : list Z)
    (comprcount len : Z) : outcome (list Z) :=
  if lablen =? 0 then Ok [0] else
  match fuel with
  | O => OutOfFuel
  | S fuel' =>
      if LABEL_IS_PTR lablen then
        if MAX_COMPRESS_PTRS <? comprcount then Ok [0] else
        y ← deref dname;
        if sldns_buffer_limit pkt <=? PTR_OFFSET lablen y then Ok [] else
        dname ← sldns_buffer_at pkt (PTR_OFFSET lablen y);
        '(lablen, dname) ← next dname;
        dname_pkt_copy_loop fuel' pkt lablen dname (comprcount + 1) len
      else
        if LDNS_MAX_LABELLEN <? lablen then Ok [0] else
        let len := len + (lablen + 1) in
        if LDNS_MAX_DOMAINLEN <=? len then Ok [0] else
        bytes ← read_bytes lablen dname;
        dname ← advance lablen dname;
        '(lablen', dname) ← next dname;
        rest ← dname_pkt_copy_loop fuel' pkt lablen' dname comprcount len;
        Ok (lablen :: bytes ++ rest)
  end.

Definition dname_pkt_copy (pkt : sldns_buffer) (dname : list Z) : outcome (list Z) :=
  '(lablen, dname) ← next dname;
  dname_pkt_copy_loop 600 pkt lablen dname 0 0.

(** ??compressionptr?? and ??extendedlabel?? *)
Definition str_compressionptr : list Z :=
  [63; 63; 99; 111; 109; 112; 114; 101; 115; 115; 105; 111; 110; 112; 116; 114; 63; 63].
Definition str_extendedlabel : list Z :=
  [63; 63; 101; 120; 116; 101; 110; 100; 101; 100; 108; 97; 98; 101; 108; 63; 63].

(** The characters [dname_print] puts on its stream. *)
Fixpoint dname_print_loop (fuel : nat) (pkt : option sldns_buffer) (lablen : Z)
    (dname : list Z) (count : Z) : outcome (list Z) :=
  if lablen =? 0 then Ok [] else
  match fuel with
  | O => OutOfFuel
  | S fuel' =>
      if LABEL_IS_PTR lablen then
        match pkt with
        | None => Ok str_compressionptr
        | Some pkt =>
            y ← deref dname;
            if sldns_buffer_limit pkt <=? PTR_OFFSET lablen y then Ok str_compressionptr else
            if MAX_COMPRESS_PTRS <? count then Ok str_compressionptr else
            dname ← sldns_buffer_at pkt (PTR_OFFSET lablen y);
            '(lablen, dname) ← next dname;
            dname_print_loop fuel' (Some pkt) lablen dname (count + 1)
        end
      else
        if LDNS_MAX_LABELLEN <? lablen then Ok str_extendedlabel else
        bytes ← read_bytes lablen dname;
        dname ← advance lablen dname;
        '(lablen, dname) ← next dname;
        rest ← dname_print_loop fuel' pkt lablen dname count;
        Ok (bytes ++ [46] ++ rest)
  end.

Definition dname_print (pkt : option sldns_buffer) (dname : option (list Z)) : outcome (list Z) :=
  match dname with
  | None => Ok []
  | Some dname =>
      let fuel := match pkt with Some b => chase_fuel b dname | None => S (length dname) end in
      '(lablen, dname) ← next dname;
      s ← dname_print_loop fuel pkt lablen dname 0;
      Ok ((if lablen =? 0 then [46] else []) ++ s)
  end.

(** ** Lowercasing a name in the packet

    Here the block is changed while it is walked, so [dname] is an offset. *)

Fixpoint tolower_bytes (n : nat) (d : list Z) (dname : Z) : outcome (list Z * Z) :=
  match n with
  | O => Ok (d, dname)
  | S n' =>
      c ← index d dname;
      d ← store d dname (tolower c);
      tolower_bytes n' d (dname + 1)
  end.

Fixpoint pkt_dname_tolower_loop (fuel : nat) (d : list Z) (limit lablen dname count : Z)
    : outcome (list Z) :=
  if lablen =? 0 then Ok d else
  match fuel with
  | O => OutOfFuel
  | S fuel' =>
      if LABEL_IS_PTR lablen then
        y ← index d dname;
        if limit <=? PTR_OFFSET lablen y then Ok d else
        let dname := PTR_OFFSET lablen y in
        lablen ← index d dname;
        let dname := dname + 1 in
        if MAX_COMPRESS_PTRS <? count then Ok d else
        pkt_dname_tolower_loop fuel' d limit lablen dname (count + 1)
      else
        if limit <=? dname + lablen then Ok d else
        '(d, dname) ← tolower_bytes (Z.to_nat lablen) d dname;
        if limit <=? dname then Ok d else
        lablen ← index d dname;
        pkt_dname_tolower_loop fuel' d limit lablen (dname + 1) count
  end.

Definition pkt_dname_tolower (pkt : sldns_buffer) (dname : Z) : outcome sldns_buffer :=
  if pkt.(_limit) <=? dname then Ok pkt else
  d ← the_data pkt;
  lablen ← index d dname;
  d ← pkt_dname_tolower_loop (S (259 * S (length d))) d pkt.(_limit) lablen (dname + 1) 0;
  Ok (set_data pkt d).

(** ** What a chain of labels and pointers stands for

    [decomp d limit k p ls e]: the chain at [p] spells the labels [ls], follows
    [k] pointers into the first [limit] bytes of [d], and takes [e] bytes where
    it stands. *)

Inductive decomp (d : list Z) (limit : Z) : Z -> list Z -> name -> Z -> Prop :=
  | decomp_root r :
      decomp d limit 0 (0 :: r) [] 1
  | decomp_label k l r ls e :
      label_ok l -> decomp d limit k r ls e ->
      decomp d limit k (zlen l :: l ++ r) (l :: ls) (1 + zlen l + e)
  | decomp_ptr k x y r ls e :
      is_byte x -> is_byte y -> LABEL_IS_PTR x = true -> PTR_OFFSET x y < limit ->
      decomp d limit k (zdrop (PTR_OFFSET x y) d) ls e ->
      decomp d limit (k + 1) (x :: y :: r) ls 2.

Lemma decomp_labels d limit k p ls e : decomp d limit k p ls e -> Forall label_ok ls.
Proof. induction 1; auto. Qed.

Lemma decomp_count d limit k p ls e : decomp d limit k p ls e -> 0 <= k.
Proof. induction 1; lia. Qed.

Lemma decomp_end d limit k p ls e : decomp d limit k p ls e -> 1 <= e <= zlen p.
Proof.
  induction 1 as [r|k l r ls e [Hl _] _ IH|k x y r ls e]; rewrite ?zlen_cons, ?zlen_app in *;
    try pose proof (zlen_nonneg r); lia.
Qed.

Lemma ptr_offset_range x y : is_byte x -> is_byte y -> 0 <= PTR_OFFSET x y < 2 ^ 14.
Proof.
  intros Hx Hy. unfold PTR_OFFSET. rewrite lor_shiftl_add by (unfold in_u in Hy; lia).
  change 63 with (Z.ones 6). rewrite Z.land_ones by lia. unfold in_u in *.
  pose proof (Z.mod_pos_bound x (2 ^ 6) ltac:(lia)). lia.
Qed.

(** A name is not a pointer where a label or the root stands. *)
Lemma lablen_not_ptr l : label_ok l -> LABEL_IS_PTR (zlen l) = false.
Proof.
  intros [Hl _]. rewrite label_is_ptr_range by (unfold in_u; lia). by rewrite leb_false by lia.
Qed.

Lemma label_is_ptr_0 : LABEL_IS_PTR 0 = false.
Proof. done. Qed.

Lemma ptr_nonzero x : LABEL_IS_PTR x = true -> (x =? 0) = false.
Proof. destruct (Z.eqb_spec x 0) as [->|]; done. Qed.

(** A name stands for the same labels when the memory behind the message grows. *)
Lemma decomp_weaken msg tail k p ls e :
  decomp msg (zlen msg) k p ls e ->
  decomp (msg ++ tail) (zlen msg) k (p ++ tail) ls e.
Proof.
  induction 1 as [r|k l r ls e Hl _ IH|k x y r ls e Hx Hy Hp Ho _ IH]; cbn [app].
  - constructor.
  - rewrite <- app_assoc. by constructor.
  - eapply decomp_ptr; [done..|].
    pose proof (ptr_offset_range x y Hx Hy). unfold zdrop in *.
    rewrite drop_app_le by (unfold zlen in Ho; lia). done.
Qed.

(** What stands first decides how the chain goes on. *)
Lemma decomp_label_inv d limit k l r ls e :
  label_ok l -> decomp d limit k (zlen l :: l ++ r) ls e ->
  exists ls' e', ls = l :: ls' /\ e = 1 + zlen l + e' /\ decomp d limit k r ls' e'.
Proof.
  intros Hl H. inversion H; subst.
  - destruct Hl. lia.
  - match goal with E : _ ++ _ = l ++ r |- _ =>
      apply app_inj_1 in E as [-> ->]; [|unfold zlen in *; lia] end. eauto.
  - rewrite lablen_not_ptr in * by done. done.
Qed.

Lemma decomp_ptr_inv d limit k x y r ls e :
  LABEL_IS_PTR x = true -> decomp d limit k (x :: y :: r) ls e ->
  exists k' e', k = k' + 1 /\ e = 2 /\ decomp d limit k' (zdrop (PTR_OFFSET x y) d) ls e'.
Proof.
  intros Hp H. inversion H; subst.
  - done.
  - rewrite lablen_not_ptr in * by done. done.
  - eauto.
Qed.

Lemma decomp_root_inv d limit k r ls e :
  decomp d limit k (0 :: r) ls e -> k = 0 /\ ls = [] /\ e = 1.
Proof.
  intros H. inversion H as [|? l ? ? ? [Hl _]|]; subst; [done|lia|].
  rewrite label_is_ptr_0 in *. done.
Qed.

(** A chain spells one name only. *)
Lemma decomp_fun d limit k p ls e : decomp d limit k p ls e ->
  forall k' ls' e', decomp d limit k' p ls' e' -> k = k' /\ ls = ls' /\ e = e'.
Proof.
  induction 1 as [r|k l r ls e Hl _ IH|k x y r ls e Hx Hy Hp Ho _ IH]; intros k' ls' e' H.
  - by apply decomp_root_inv in H as (-> & -> & ->).
  - apply decomp_label_inv in H as (? & ? & -> & -> & H); [|done].
    by destruct (IH _ _ _ H) as (-> & -> & ->).
  - apply decomp_ptr_inv in H as (? & ? & -> & -> & H); [|done].
    by destruct (IH _ _ _ H) as (-> & -> & _).
Qed.

(** ** pkt_dname_len *)

Lemma set_position_reads b d m :
  buf_ok b d -> 0 <= m <= b.(_limit) ->
  sldns_buffer_set_position b m = Ok (set_pos b m) /\
  reads (set_pos b m) d (zdrop m (ztake b.(_limit) d)).
Proof.
  intros H Hm. split; [|by split; [apply set_pos_ok|]].
  unfold sldns_buffer_set_position. by rewrite leb_true by lia.
Qed.

Lemma reads_pos b d w : reads b d w -> b.(_position) + zlen w = b.(_limit) /\ 0 <= b.(_position).
Proof. intros [H ->]. rewrite (zlen_window _ _ H). destruct H. lia. Qed.

Lemma pkt_dname_len_loop_complete d k p ls e : forall limit, decomp (ztake limit d) limit k p ls e ->
  forall fuel b len ptrcount endpos,
  b.(_limit) = limit -> reads b d p -> 0 <= len -> len + zlen (wire ls) <= 255 ->
  0 <= ptrcount -> ptrcount + k <= 257 -> 0 <= endpos <= limit ->
  k + zlen ls < Z.of_nat fuel ->
  pkt_dname_len_loop fuel b len ptrcount endpos
  = Ok (len + zlen (wire ls), set_pos b (if endpos =? 0 then b.(_position) + e else endpos)).
Proof.
  intros limit D. induction D as [r|k l r ls e Hl D IH|k x y r ls e Hx Hy Hp Ho D IH];
    intros [|fuel] b len ptrcount endpos Lim R Hlen H255 Hpc Hk Hend Hf;
    pose proof (zlen_nonneg r); rewrite ?zlen_cons in Hf;
    [unfold zlen in Hf; lia| |unfold zlen in Hf; pose proof (decomp_count _ _ _ _ _ _ D); lia|
     |unfold zlen in Hf; pose proof (decomp_count _ _ _ _ _ _ D); lia|];
    cbn [pkt_dname_len_loop]; rewrite (remaining_reads _ _ _ R), bind_Ok, !zlen_cons;
    rewrite ltb_false by (unfold zlen; lia);
    destruct (read_u8_reads _ _ _ _ R) as [-> R1]; rewrite bind_Ok.
  - rewrite label_is_ptr_0. change (zlen (wire [])) with 1 in *. cbn [Z.ltb Z.compare Z.eqb].
    unfold LDNS_MAX_DOMAINLEN. rewrite ltb_false by lia.
    destruct (Z.eqb_spec endpos 0); cbn [negb]; [done|].
    destruct (set_position_reads _ _ endpos (proj1 R1)) as [-> _]; [simpl; lia|]. done.
  - rewrite lablen_not_ptr by done. rewrite zlen_wire_cons in *. destruct Hl as [Hl _].
    rewrite ltb_false by lia. pose proof (zlen_wire_pos ls).
    unfold LDNS_MAX_DOMAINLEN. rewrite ltb_false, eqb_false by lia.
    rewrite (remaining_reads _ _ _ R1), bind_Ok, zlen_app. rewrite ltb_false by lia.
    destruct (skip_reads _ _ _ (zlen l) R1) as [-> R2]; [rewrite zlen_app; lia|].
    rewrite bind_Ok, zdrop_app_zlen in *. rewrite IH; [|exact Lim|exact R2|lia..].
    cbn [set_pos _position]. f_equal. f_equal; [lia|]. unfold set_pos. simpl. f_equal.
    destruct (endpos =? 0); lia.
  - rewrite Hp. rewrite (remaining_reads _ _ _ R1), bind_Ok, zlen_cons, ltb_false by lia.
    destruct (read_u8_reads _ _ _ _ R1) as [-> R2]. rewrite bind_Ok.
    pose proof (ptr_offset_range x y Hx Hy). pose proof (decomp_count _ _ _ _ _ _ D).
    rewrite wrap_small by (unfold in_u; lia).
    unfold MAX_COMPRESS_PTRS. rewrite ltb_false by lia.
    unfold sldns_buffer_limit. cbn [set_pos _limit]. rewrite leb_false by lia.
    destruct (set_position_reads _ _ (PTR_OFFSET x y) (proj1 R2)) as [-> R3]; [simpl; lia|].
    rewrite bind_Ok. destruct (reads_pos _ _ _ R) as [P1 P2]. rewrite !zlen_cons in P1.
    change (_limit (set_pos (set_pos b (_position b + 1)) (_position (set_pos b (_position b + 1)) + 1)))
      with (_limit b) in R3. rewrite Lim in R3.
    rewrite IH; [|exact Lim|exact R3|lia|lia|lia|lia| |lia].
    + f_equal. f_equal. unfold set_pos, sldns_buffer_position. simpl. f_equal.
      destruct (Z.eqb_spec endpos 0).
      * rewrite eqb_false; lia.
      * by rewrite eqb_false.
    + unfold sldns_buffer_position. simpl. destruct (endpos =? 0); lia.
Qed.

Lemma pkt_dname_len_loop_sound fuel : forall b d w len ptrcount endpos,
  reads b d w -> 0 <= len <= 255 -> 0 <= ptrcount <= 257 -> 0 <= endpos <= b.(_limit) ->
  514 - ptrcount - len < Z.of_nat fuel ->
  exists n b', pkt_dname_len_loop fuel b len ptrcount endpos = Ok (n, b') /\ buf_ok b' d /\
    (n <> 0 -> exists k ls e, decomp (ztake b.(_limit) d) b.(_limit) k w ls e /\
                 n = len + zlen (wire ls) /\ n <= 255 /\ ptrcount + k <= 257).
Proof.
  induction fuel as [|fuel IH]; intros b d w len ptrcount endpos R Hlen Hpc He Hf; [lia|].
  cbn [pkt_dname_len_loop]. rewrite (remaining_reads _ _ _ R), bind_Ok.
  pose proof (proj1 R) as B.
  assert (bytes_ok w) as Hw.
  { rewrite (proj2 R). destruct B. auto with cwd. }
  destruct w as [|x w]; [by exists 0, b|]. rewrite zlen_cons.
  pose proof (zlen_nonneg w). rewrite ltb_false by lia.
  destruct (reads_pos _ _ _ R) as [P1 P2]. rewrite zlen_cons in P1.
  destruct (read_u8_reads _ _ _ _ R) as [-> R1]. rewrite bind_Ok. pose proof (proj1 R1) as B1.
  inversion_clear Hw as [|? ? Hx Hw']. unfold in_u in Hx.
  destruct (LABEL_IS_PTR x) eqn:Ep.
  - rewrite (remaining_reads _ _ _ R1), bind_Ok.
    destruct w as [|y w]; [by do 2 eexists|]. rewrite zlen_cons in *.
    pose proof (zlen_nonneg w). rewrite ltb_false by lia.
    destruct (read_u8_reads _ _ _ _ R1) as [-> R2]. rewrite bind_Ok. pose proof (proj1 R2) as B2.
    inversion_clear Hw' as [|? ? Hy Hw]. pose proof (ptr_offset_range x y Hx Hy).
    rewrite wrap_small by (unfold in_u; lia). unfold MAX_COMPRESS_PTRS.
    destruct (Z.ltb_spec 256 ptrcount); [by do 2 eexists|].
    unfold sldns_buffer_limit. cbn [set_pos _limit].
    destruct (Z.leb_spec (_limit b) (PTR_OFFSET x y)); [by do 2 eexists|].
    destruct (set_position_reads _ _ (PTR_OFFSET x y) B2) as [-> R3]; [simpl; lia|].
    rewrite bind_Ok. eapply IH in R3 as (n & b' & -> & B' & Hn);
      [|lia|lia| |lia].
    + exists n, b'. split; [done|]. split; [done|]. intros Hn0.
      destruct (Hn Hn0) as (k & ls & e & D & ? & ? & ?). exists (k + 1), ls, 2.
      split; [|lia]. by eapply decomp_ptr.
    + unfold sldns_buffer_position. simpl. destruct (endpos =? 0); lia.
  - destruct (Z.ltb_spec 63 x); [by do 2 eexists|]. unfold LDNS_MAX_DOMAINLEN.
    destruct (Z.ltb_spec 255 (len + (1 + x))); [by do 2 eexists|].
    destruct (Z.eqb_spec x 0) as [->|Hx0].
    { assert (exists k ls e, decomp (ztake (_limit b) d) (_limit b) k (0 :: w) ls e /\
        len + (1 + 0) = len + zlen (wire ls) /\ len + (1 + 0) <= 255 /\ ptrcount + k <= 257).
      { exists 0, [], 1. split; [constructor|]. change (zlen (wire [])) with 1. lia. }
      destruct (Z.eqb_spec endpos 0); cbn [negb]; [by do 2 eexists|].
      destruct (set_position_reads _ _ endpos B1) as [-> R2]; [simpl; lia|].
      pose proof (proj1 R2). by do 2 eexists. }
    rewrite (remaining_reads _ _ _ R1), bind_Ok.
    destruct (Z.ltb_spec (zlen w) x); [by do 2 eexists|].
    destruct (skip_reads _ _ _ x R1) as [-> R2]; [lia|]. rewrite bind_Ok.
    eapply IH in R2 as (n & b' & -> & B' & Hn); [|lia|lia|simpl; lia|lia].
    exists n, b'. split; [done|]. split; [done|]. intros Hn0.
    destruct (Hn Hn0) as (k & ls & e & D & ? & ? & ?).
    assert (zlen (ztake x w) = x) as Elen by (apply zlen_ztake; lia).
    exists k, (ztake x w :: ls), (1 + zlen (ztake x w) + e).
    split; [|rewrite zlen_wire_cons, Elen; lia].
    rewrite <- (ztake_zdrop x w) at 1. rewrite <- Elen at 1.
    constructor; [|done]. split; [lia|auto with cwd].
Qed.

(** The name [ls] stands at offset [pos] of the message, in [e] bytes: its chain
    stays in the message, follows at most 257 pointers and spells a name of at
    most 255 bytes. *)
Definition pkt_name (b : sldns_buffer) (d : list Z) (pos : Z) (ls : name) (e : Z) : Prop :=
  0 <= pos /\ zlen (wire ls) <= 255 /\
  exists k, k <= 257 /\
    decomp (ztake b.(_limit) d) b.(_limit) k (zdrop pos (ztake b.(_limit) d)) ls e.

(** Parsing leaves all but the position of the packet alone. *)
Lemma pkt_dname_len_loop_pos fuel : forall b len ptrcount endpos n b',
  pkt_dname_len_loop fuel b len ptrcount endpos = Ok (n, b') -> b' = set_pos b b'.(_position).
Proof.
  assert (forall b, b = set_pos b b.(_position)) as Hself by (by intros []).
  assert (forall b b1 b' p, b1 = set_pos b p -> b' = set_pos b1 b'.(_position) -> b' = set_pos b b'.(_position)) as Htr
    by (by intros b b1 b' p -> ->).
  assert (forall b x b1, sldns_buffer_read_u8 b = Ok (x, b1) -> b1 = set_pos b b1.(_position)) as Hread.
  { intros b x b1 (v & _ & E)%bind_inv. by injection E as _ <-. }
  assert (forall b m b1, sldns_buffer_set_position b m = Ok b1 -> b1 = set_pos b b1.(_position)) as Hset.
  { intros b m b1 (v & _ & E)%bind_inv. by injection E as <-. }
  assert (forall b m b1, sldns_buffer_skip b m = Ok b1 -> b1 = set_pos b b1.(_position)) as Hskip.
  { intros b m b1 (v & _ & E)%bind_inv. by injection E as <-. }
  induction fuel as [|fuel IH]; intros b len ptrcount endpos n b'; [done|]. cbn [pkt_dname_len_loop].
  intros (rem & _ & E)%bind_inv. destruct (rem <? 1); [injection E as _ <-; apply Hself|].
  apply bind_inv in E as ([x b1] & E1%Hread & E). destruct (LABEL_IS_PTR x).
  - apply bind_inv in E as (rem1 & _ & E). destruct (rem1 <? 1); [by injection E as _ <-|].
    apply bind_inv in E as ([y b2] & E2%Hread & E). pose proof (Htr _ _ _ _ E1 E2) as E3.
    destruct (MAX_COMPRESS_PTRS <? ptrcount); [by injection E as _ <-|].
    destruct (_ <=? _); [by injection E as _ <-|].
    apply bind_inv in E as (b3 & E4%Hset & E). apply IH in E.
    exact (Htr _ _ _ _ (Htr _ _ _ _ E3 E4) E).
  - destruct (63 <? x); [by injection E as _ <-|]. destruct (LDNS_MAX_DOMAINLEN <? _); [by injection E as _ <-|].
    destruct (x =? 0).
    + apply bind_inv in E as (b2 & E2 & E). injection E as _ <-. destruct (negb (endpos =? 0)).
      * apply Hset in E2. exact (Htr _ _ _ _ E1 E2).
      * by injection E2 as <-.
    + apply bind_inv in E as (rem1 & _ & E). destruct (rem1 <? x); [by injection E as _ <-|].
      apply bind_inv in E as (b2 & E2%Hskip & E). apply IH in E.
      exact (Htr _ _ _ _ (Htr _ _ _ _ E1 E2) E).
Qed.

(** There is a name at the position, or the result is 0. *)
Lemma pkt_dname_len_parse b d :
  buf_ok b d ->
  exists n b', pkt_dname_len b = Ok (n, b') /\ buf_ok b' d /\ b' = set_pos b b'.(_position) /\
    ((exists ls e, pkt_name b d b.(_position) ls e /\ n = zlen (wire ls) /\ b' = set_pos b (b.(_position) + e)) \/
     (n = 0 /\ forall ls e, ~ pkt_name b d b.(_position) ls e)).
Proof.
  intros B. set (w := zdrop (_position b) (ztake (_limit b) d)).
  assert (reads b d w) as R by done.
  unfold pkt_dname_len. destruct (reads_pos _ _ _ R) as [P1 P2]. pose proof (zlen_nonneg w).
  destruct (pkt_dname_len_loop_sound 600 b d w 0 0 0 R) as (n & b' & E & B' & Hn); try lia.
  assert (forall ls e, pkt_name b d b.(_position) ls e ->
       n = zlen (wire ls) /\ b' = set_pos b (b.(_position) + e)) as Hc.
  { intros ls e (_ & Hl & k & Hk & D).
    rewrite (pkt_dname_len_loop_complete d k w ls e _ D) in E; try done; try lia.
    - by injection E as <- <-.
    - pose proof (wire_labels_bound _ (decomp_labels _ _ _ _ _ _ D)). unfold zlen in *. lia. }
  exists n, b'. split; [done|]. split; [done|]. split; [by apply pkt_dname_len_loop_pos in E|].
  destruct (Z.eq_dec n 0) as [->|Hn0].
  - right. split; [done|]. intros ls e N. destruct (Hc _ _ N) as [? _]. pose proof (zlen_wire_pos ls). lia.
  - left. destruct (Hn Hn0) as (k & ls & e & D & ? & ? & ?). exists ls, e.
    assert (pkt_name b d b.(_position) ls e) as N; [|by destruct (Hc _ _ N)].
    split; [done|]. split; [lia|]. exists k. split; [lia|done].
Qed.

(** A name is parsed in one way only. *)
Lemma pkt_name_fun b d pos ls e ls' e' : pkt_name b d pos ls e -> pkt_name b d pos ls' e' -> ls = ls' /\ e = e'.
Proof. intros (_ & _ & k & _ & D) (_ & _ & k' & _ & D'). by destruct (decomp_fun _ _ _ _ _ _ D _ _ _ D') as (_ & -> & ->). Qed.

(** [pkt_dname_len] parses exactly the compressed names: on any well-formed
    packet it returns, without leaving the message; it returns [n <> 0] exactly
    when a name stands at the position, [n] is then the length of its uncompressed
    form, and the position moves right after the name (after its first pointer,
    when it has one). *)
Lemma pkt_dname_len_spec b d :
  buf_ok b d ->
  exists n b', pkt_dname_len b = Ok (n, b') /\ buf_ok b' d /\
    (n <> 0 <-> exists ls e, pkt_name b d b.(_position) ls e) /\
    (forall ls e, pkt_name b d b.(_position) ls e ->
       n = zlen (wire ls) /\ b' = set_pos b (b.(_position) + e)).
Proof.
  intros B. destruct (pkt_dname_len_parse b d B) as (n & b' & E & B' & _ & H). exists n, b'. do 2 (split; [done|]).
  destruct H as [(ls & e & N & Hn & Hb)|[-> H]].
  - pose proof (zlen_wire_pos ls). split; [split; [by exists ls, e|lia]|].
    intros ls' e' N'. by destruct (pkt_name_fun _ _ _ _ _ _ _ N N') as [<- <-].
  - split; [split; [done|by intros (ls & e & N%H)]|]. by intros ls e N%H.
Qed.

(** A message whose second name, at offset 4, is b followed by a pointer to the
    first one, the label A. *)
Definition sample_msg : list Z := [1; 65; 0; 0; 1; 98; 192; 0; 7].
Definition sample_pkt : sldns_buffer := mk_buffer 4 9 9 (Some sample_msg) false false.

Lemma sample_ok : buf_ok sample_pkt sample_msg.
Proof. split; simpl; try done; try lia. repeat constructor; unfold in_u; lia. Qed.

Lemma sample_name : pkt_name sample_pkt sample_msg 4 [[98]; [65]] 4.
Proof.
  split; [lia|]. split; [done|]. exists 1. split; [lia|]. cbn.
  apply (decomp_label _ _ 1 [98] [192; 0; 7] [[65]] 2).
  - split; [done|]. repeat constructor; unfold in_u; lia.
  - apply (decomp_ptr _ _ 0 192 0 [7] [[65]] 3); try done.
    apply (decomp_label _ _ 0 [65] [0; 0; 1; 98; 192; 0; 7] [] 1); [|constructor].
    split; [done|]. repeat constructor; unfold in_u; lia.
Qed.

Lemma pkt_dname_len_spec_witness :
  exists n b', pkt_dname_len sample_pkt = Ok (n, b') /\ buf_ok b' sample_msg /\
    (n <> 0 <-> exists ls e, pkt_name sample_pkt sample_msg 4 ls e) /\
    (forall ls e, pkt_name sample_pkt sample_msg 4 ls e ->
       n = zlen (wire ls) /\ b' = set_pos sample_pkt (4 + e)).
Proof. apply (pkt_dname_len_spec sample_pkt sample_msg). exact sample_ok. Defined.

(** ** Following names

    The four walks are proved by rule induction on [decomp]; [follow_ptr] is the
    step they share. *)

Lemma follow_ptr {A} b d x y (f : Z * list Z -> outcome A) :
  buf_ok b d -> is_byte x -> is_byte y -> PTR_OFFSET x y < b.(_limit) ->
  (sldns_buffer_limit b <=? PTR_OFFSET x y) = false /\
  (p ← sldns_buffer_at b (PTR_OFFSET x y); q ← next p; f q)
  = (q ← next (zdrop (PTR_OFFSET x y) d); f q).
Proof.
  intros B Hx Hy Ho. pose proof (ptr_offset_range x y Hx Hy). split.
  - by apply leb_false.
  - by rewrite (at_ok _ _ _ B) by lia.
Qed.

Lemma decomp_next d limit k p ls e :
  decomp d limit k p ls e -> exists x q, p = x :: q /\ next p = Ok (x, q).
Proof. destruct 1; simpl; eauto. Qed.

Lemma dname_pkt_copy_loop_spec b d k p ls e : buf_ok b d -> decomp d b.(_limit) k p ls e ->
  forall fuel lablen q count len,
  p = lablen :: q -> 0 <= count -> count + k <= 257 -> 0 <= len ->
  len + zlen (wire ls) <= 255 -> k + zlen ls < Z.of_nat fuel ->
  dname_pkt_copy_loop fuel b lablen q count len = Ok (wire ls).
Proof.
  intros B D. induction D as [r|k l r ls e Hl D IH|k x y r ls e Hx Hy Hp Ho D IH];
    intros fuel lablen q count len Hq Hc Hk Hlen H255 Hf; injection Hq as <- <-;
    (destruct fuel as [|fuel]; [try pose proof (decomp_count _ _ _ _ _ _ D); unfold zlen in Hf; lia|]);
    cbn [dname_pkt_copy_loop].
  - done.
  - rewrite zlen_wire_cons, zlen_cons in *. pose proof (zlen_wire_pos ls).
    rewrite lablen_not_ptr by done. destruct Hl as [Hl _].
    rewrite eqb_false by lia. unfold LDNS_MAX_LABELLEN, LDNS_MAX_DOMAINLEN.
    rewrite ltb_false, leb_false by lia.
    rewrite read_bytes_ok, bind_Ok by (rewrite zlen_app; pose proof (zlen_nonneg r); lia).
    rewrite ztake_app_zlen, advance_app, bind_Ok.
    destruct (decomp_next _ _ _ _ _ _ D) as (x & q & -> & ->). rewrite bind_Ok.
    rewrite (IH fuel x q) by (done || lia). by rewrite bind_Ok, wire_cons.
  - pose proof (decomp_count _ _ _ _ _ _ D).
    rewrite ptr_nonzero, Hp by done. unfold MAX_COMPRESS_PTRS. rewrite ltb_false by lia.
    cbn [deref]. rewrite bind_Ok.
    destruct (follow_ptr b d x y (fun '(lablen, dname) =>
      dname_pkt_copy_loop fuel b lablen dname (count + 1) len) B Hx Hy Ho) as [-> ->].
    destruct (decomp_next _ _ _ _ _ _ D) as (x' & q & E & ->). rewrite bind_Ok.
    by rewrite (IH fuel x' q) by (done || lia).
Qed.

Lemma dname_pkt_hash_loop_spec le raninit addr b d k p ls e :
  buf_ok b d -> decomp d b.(_limit) k p ls e ->
  forall fuel lablen q count h,
  p = lablen :: q -> 0 <= count -> count + k <= 257 -> k + zlen ls < Z.of_nat fuel ->
  dname_pkt_hash_loop le raninit addr fuel b lablen q count h = Ok (name_hash raninit ls h).
Proof.
  intros B D. induction D as [r|k l r ls e Hl D IH|k x y r ls e Hx Hy Hp Ho D IH];
    intros fuel lablen q count h Hq Hc Hk Hf; injection Hq as <- <-;
    (destruct fuel as [|fuel]; [try pose proof (decomp_count _ _ _ _ _ _ D); unfold zlen in Hf; lia|]);
    cbn [dname_pkt_hash_loop].
  - done.
  - rewrite zlen_cons in *. rewrite lablen_not_ptr by done.
    rewrite eqb_false by (destruct Hl; lia). unfold LDNS_MAX_LABELLEN.
    rewrite leb_true by (destruct Hl; lia). cbn [c_assert]. rewrite bind_Ok.
    rewrite to_nat_zlen, lower_bytes_spec, bind_Ok.
    destruct (decomp_next _ _ _ _ _ _ D) as (x & q & -> & Eq).
    rewrite hash_label, bind_Ok, Eq, bind_Ok. by rewrite (IH fuel x q) by (done || lia).
  - pose proof (decomp_count _ _ _ _ _ _ D).
    rewrite ptr_nonzero, Hp by done. cbn [deref]. rewrite bind_Ok.
    destruct (follow_ptr b d x y (fun '(lablen, dname) =>
      dname_pkt_hash_loop le raninit addr fuel b lablen dname (count + 1) h) B Hx Hy Ho) as [-> Ef].
    unfold MAX_COMPRESS_PTRS. rewrite ltb_false by lia. rewrite Ef.
    destruct (decomp_next _ _ _ _ _ _ D) as (x' & q & E & ->). rewrite bind_Ok.
    by rewrite (IH fuel x' q) by (done || lia).
Qed.

(** *** Comparison *)

Section Compare.
Context (b : sldns_buffer) (d : list Z) (B : buf_ok b d).

(** The loop compares the names at [p1] and [p2] the way [query_dname_compare]
    compares their uncompressed forms. *)
Definition compares (k1 : Z) (p1 : list Z) (ls1 : name) (k2 : Z) (p2 : list Z) (ls2 : name) : Prop :=
  forall fuel len1 q1 len2 q2 count1 count2,
    p1 = len1 :: q1 -> p2 = len2 :: q2 ->
    0 <= count1 -> count1 + k1 <= 257 -> 0 <= count2 -> count2 + k2 <= 257 ->
    k1 + zlen ls1 + k2 + zlen ls2 < Z.of_nat fuel ->
    dname_pkt_compare_loop fuel b len1 q1 len2 q2 count1 count2
    = Ok (lex (wire (lower_name ls1)) (wire (lower_name ls2))).

Lemma compares_ptr1 k1 x y r ls1 e1 k2 p2 ls2 e2 :
  is_byte x -> is_byte y -> LABEL_IS_PTR x = true -> PTR_OFFSET x y < b.(_limit) ->
  decomp d b.(_limit) k1 (zdrop (PTR_OFFSET x y) d) ls1 e1 ->
  decomp d b.(_limit) k2 p2 ls2 e2 ->
  compares k1 (zdrop (PTR_OFFSET x y) d) ls1 k2 p2 ls2 ->
  compares (k1 + 1) (x :: y :: r) ls1 k2 p2 ls2.
Proof.
  intros Hx Hy Hp Ho D1 D2 IH fuel len1 q1 len2 q2 c1 c2 E1 E2 Hc1 Hk1 Hc2 Hk2 Hf.
  pose proof (decomp_count _ _ _ _ _ _ D1). pose proof (decomp_count _ _ _ _ _ _ D2).
  injection E1 as <- <-. destruct fuel as [|fuel]; [unfold zlen in Hf; lia|].
  cbn [dname_pkt_compare_loop]. rewrite ptr_nonzero, Hp by done. cbn [andb deref].
  rewrite bind_Ok.
  destruct (follow_ptr b d x y (fun '(len1, d1) =>
    dname_pkt_compare_loop fuel b len1 d1 len2 q2 (c1 + 1) c2) B Hx Hy Ho) as [-> Ef].
  unfold MAX_COMPRESS_PTRS. rewrite ltb_false, Ef by lia.
  destruct (decomp_next _ _ _ _ _ _ D1) as (x' & q & E & ->). rewrite bind_Ok.
  apply IH; done || lia.
Qed.

Lemma compares_ptr2 k1 p1 ls1 e1 k2 x y r ls2 e2 :
  is_byte x -> is_byte y -> LABEL_IS_PTR x = true -> PTR_OFFSET x y < b.(_limit) ->
  (forall len1 q1, p1 = len1 :: q1 -> LABEL_IS_PTR len1 = false) ->
  decomp d b.(_limit) k1 p1 ls1 e1 ->
  decomp d b.(_limit) k2 (zdrop (PTR_OFFSET x y) d) ls2 e2 ->
  compares k1 p1 ls1 k2 (zdrop (PTR_OFFSET x y) d) ls2 ->
  compares k1 p1 ls1 (k2 + 1) (x :: y :: r) ls2.
Proof.
  intros Hx Hy Hp Ho Hn D1 D2 IH fuel len1 q1 len2 q2 c1 c2 E1 E2 Hc1 Hk1 Hc2 Hk2 Hf.
  pose proof (decomp_count _ _ _ _ _ _ D1). pose proof (decomp_count _ _ _ _ _ _ D2).
  injection E2 as <- <-. destruct fuel as [|fuel]; [unfold zlen in Hf; lia|].
  cbn [dname_pkt_compare_loop].
  rewrite (ptr_nonzero x), andb_false_r, (Hn _ _ E1), Hp by done. cbn [deref]. rewrite bind_Ok.
  destruct (follow_ptr b d x y (fun '(len2, d2) =>
    dname_pkt_compare_loop fuel b len1 q1 len2 d2 c1 (c2 + 1)) B Hx Hy Ho) as [-> Ef].
  unfold MAX_COMPRESS_PTRS. rewrite ltb_false, Ef by lia.
  destruct (decomp_next _ _ _ _ _ _ D2) as (x' & q & E & ->). rewrite bind_Ok.
  apply IH; done || lia.
Qed.

Lemma pkt_compare_bytes_spec l1 : forall l2 r1 r2,
  length l1 = length l2 ->
  pkt_compare_bytes (length l1) (l1 ++ r1) (l2 ++ r2)
  = Ok (let c := lex (map tolower l1) (map tolower l2) in
        if c =? 0 then inr (r1, r2) else inl c).
Proof.
  induction l1 as [|x l1 IH]; intros [|y l2] r1 r2 Hl; try done.
  cbn [length pkt_compare_bytes app deref]. rewrite !bind_Ok. cbn [map lex].
  destruct (Z.eqb_spec (tolower x) (tolower y)) as [E|E]; cbn [negb].
  - rewrite E, Z.ltb_irrefl, !advance_1, !bind_Ok. apply IH. by injection Hl.
  - destruct (Z.ltb_spec (tolower x) (tolower y)); [done|]. by rewrite ltb_true by lia.
Qed.

Lemma compares_root_label k2 l2 r2 ls2 r : label_ok l2 -> 0 <= k2 ->
  compares 0 (0 :: r) [] k2 (zlen l2 :: l2 ++ r2) (l2 :: ls2).
Proof.
  intros Hl Hk fuel len1 q1 len2 q2 c1 c2 E1 E2 _ _ _ _ Hf. injection E1 as <- <-.
  injection E2 as <- <-. destruct fuel as [|fuel]; [unfold zlen in Hf; lia|].
  cbn [dname_pkt_compare_loop]. rewrite label_is_ptr_0, lablen_not_ptr by done.
  destruct Hl as [Hl _]. rewrite (eqb_false (zlen l2) 0), (eqb_false 0 (zlen l2)) by lia.
  unfold LDNS_MAX_LABELLEN. rewrite (leb_true (zlen l2)), (ltb_true 0) by lia.
  rewrite lower_name_cons, wire_cons, zlen_map. cbn. by rewrite ltb_true by lia.
Qed.

Lemma compares_label_root k1 l1 r1 ls1 r : label_ok l1 -> 0 <= k1 ->
  compares k1 (zlen l1 :: l1 ++ r1) (l1 :: ls1) 0 (0 :: r) [].
Proof.
  intros Hl Hk fuel len1 q1 len2 q2 c1 c2 E1 E2 _ _ _ _ Hf. injection E1 as <- <-.
  injection E2 as <- <-. destruct fuel as [|fuel]; [unfold zlen in Hf; lia|].
  cbn [dname_pkt_compare_loop]. rewrite label_is_ptr_0, lablen_not_ptr by done.
  destruct Hl as [Hl _]. rewrite (eqb_false (zlen l1) 0) by lia.
  unfold LDNS_MAX_LABELLEN. rewrite (leb_true (zlen l1)), (ltb_false (zlen l1)) by lia.
  rewrite lower_name_cons, wire_cons, zlen_map. cbn. by rewrite ltb_false, ltb_true by lia.
Qed.

Lemma compares_labels k1 l1 r1 ls1 e1 k2 l2 r2 ls2 e2 :
  label_ok l1 -> label_ok l2 ->
  decomp d b.(_limit) k1 r1 ls1 e1 -> decomp d b.(_limit) k2 r2 ls2 e2 ->
  compares k1 r1 ls1 k2 r2 ls2 ->
  compares k1 (zlen l1 :: l1 ++ r1) (l1 :: ls1) k2 (zlen l2 :: l2 ++ r2) (l2 :: ls2).
Proof.
  intros Hl1 Hl2 D1 D2 IH fuel len1 q1 len2 q2 c1 c2 E1 E2 Hc1 Hk1 Hc2 Hk2 Hf.
  pose proof (decomp_count _ _ _ _ _ _ D1). pose proof (decomp_count _ _ _ _ _ _ D2).
  injection E1 as <- <-. injection E2 as <- <-. rewrite !zlen_cons in Hf.
  destruct fuel as [|fuel]; [unfold zlen in Hf; lia|].
  cbn [dname_pkt_compare_loop]. rewrite !lablen_not_ptr by done.
  destruct Hl1 as [Hl1 _], Hl2 as [Hl2 _]. rewrite (eqb_false (zlen l1) 0) by lia.
  unfold LDNS_MAX_LABELLEN. rewrite !leb_true by lia. cbn [andb c_assert]. rewrite !bind_Ok.
  rewrite !lower_name_cons, lex_wire_cons, !zlen_map.
  destruct (Z.eqb_spec (zlen l1) (zlen l2)) as [El|El]; cbn [negb].
  - cbn [andb negb c_assert]. rewrite bind_Ok, El, Z.ltb_irrefl, <- El, to_nat_zlen.
    rewrite pkt_compare_bytes_spec by (unfold zlen in El; lia). rewrite bind_Ok. cbn zeta.
    destruct (lex _ _ =? 0); [|done].
    destruct (decomp_next _ _ _ _ _ _ D1) as (x1 & s1 & F1 & ->).
    destruct (decomp_next _ _ _ _ _ _ D2) as (x2 & s2 & F2 & ->).
    rewrite !bind_Ok. apply IH; done || lia.
  - destruct (Z.ltb_spec (zlen l1) (zlen l2)); [done|]. by rewrite ltb_true by lia.
Qed.

Lemma decomp_compares k1 p1 ls1 e1 : decomp d b.(_limit) k1 p1 ls1 e1 ->
  forall k2 p2 ls2 e2, decomp d b.(_limit) k2 p2 ls2 e2 -> compares k1 p1 ls1 k2 p2 ls2.
Proof.
  intros D1. induction D1 as [r|k l r ls e Hl D IH|k x y r ls e Hx Hy Hp Ho D IH].
  - intros k2 p2 ls2 e2 D2. induction D2 as [r2|k2 l2 r2 ls2 e2 Hl D2|].
    + by intros [] len1 q1 len2 q2 c1 c2 [= <- <-] [= <- <-].
    + apply compares_root_label; [done|by eapply decomp_count].
    + eapply compares_ptr2; try done; [|constructor]. by intros ? ? [= <- <-].
  - intros k2 p2 ls2 e2 D2. induction D2 as [r2|k2 l2 r2 ls2 e2 Hl2 D2|].
    + apply compares_label_root; [done|by eapply decomp_count].
    + eapply compares_labels; eauto.
    + eapply compares_ptr2; try done; [|by constructor]. intros ? ? [= <- <-].
      by apply lablen_not_ptr.
  - intros k2 p2 ls2 e2 D2. eapply compares_ptr1; eauto.
Qed.
End Compare.

(** *** Printing *)

Definition dotted (ls : name) : list Z := concat (map (fun l => l ++ [46]) ls).

Lemma dname_print_loop_spec b d k p ls e : buf_ok b d -> decomp d b.(_limit) k p ls e ->
  forall fuel lablen q count,
  p = lablen :: q -> 0 <= count -> count + k <= 257 -> k + zlen ls < Z.of_nat fuel ->
  dname_print_loop fuel (Some b) lablen q count = Ok (dotted ls).
Proof.
  intros B D. induction D as [r|k l r ls e Hl D IH|k x y r ls e Hx Hy Hp Ho D IH];
    intros fuel lablen q count Hq Hc Hk Hf; injection Hq as <- <-;
    (destruct fuel as [|fuel]; [try pose proof (decomp_count _ _ _ _ _ _ D); unfold zlen in Hf; lia|]);
    cbn [dname_print_loop].
  - done.
  - rewrite zlen_cons in *. rewrite lablen_not_ptr by done. destruct Hl as [Hl _].
    rewrite eqb_false by lia. unfold LDNS_MAX_LABELLEN. rewrite ltb_false by lia.
    rewrite read_bytes_ok, bind_Ok by (rewrite zlen_app; pose proof (zlen_nonneg r); lia).
    rewrite ztake_app_zlen, advance_app, bind_Ok.
    destruct (decomp_next _ _ _ _ _ _ D) as (x & q & -> & ->). rewrite bind_Ok.
    rewrite (IH fuel x q) by (done || lia). rewrite bind_Ok. unfold dotted.
    cbn [map concat]. by rewrite <- app_assoc.
  - pose proof (decomp_count _ _ _ _ _ _ D).
    rewrite ptr_nonzero, Hp by done. cbn [deref]. rewrite bind_Ok.
    destruct (follow_ptr b d x y (fun '(lablen, dname) =>
      dname_print_loop fuel (Some b) lablen dname (count + 1)) B Hx Hy Ho) as [-> Ef].
    unfold MAX_COMPRESS_PTRS. rewrite ltb_false by lia. rewrite Ef.
    destruct (decomp_next _ _ _ _ _ _ D) as (x' & q & E & ->). rewrite bind_Ok.
    by rewrite (IH fuel x' q) by (done || lia).
Qed.

(** ** The packet routines on names that stand in the packet *)

Lemma pkt_name_ptr b d pos ls e :
  buf_ok b d -> pkt_name b d pos ls e ->
  name_ok ls /\ sldns_buffer_at b pos = Ok (zdrop pos d) /\
  exists k, 0 <= k <= 257 /\ decomp d b.(_limit) k (zdrop pos d) ls e /\
    k + zlen ls < Z.of_nat (chase_fuel b (zdrop pos d)).
Proof.
  intros B (Hpos & Hl & k & Hk & D). pose proof (decomp_labels _ _ _ _ _ _ D) as Hok.
  pose proof (wire_labels_bound _ Hok) as Hw. pose proof (decomp_count _ _ _ _ _ _ D).
  assert (pos < b.(_limit) /\ b.(_limit) <= zlen d) as [Hlim Hlim'].
  { apply decomp_end in D. destruct B. split; [|lia].
    destruct (Z.lt_ge_cases pos (_limit b)); [done|].
    unfold zdrop, ztake, zlen in D. rewrite length_drop, length_take in D. lia. }
  split; [done|]. split; [apply at_ok; [done|lia]|]. exists k. split; [lia|].
  split.
  - assert (zlen (ztake b.(_limit) d) = b.(_limit)) as Em by (apply zlen_ztake; lia).
    rewrite <- Em in D at 2. apply (decomp_weaken _ (zdrop b.(_limit) d)) in D.
    rewrite ztake_zdrop, Em in D.
    assert (zdrop pos d = zdrop pos (ztake (_limit b) d) ++ zdrop (_limit b) d) as ->; [|done].
    rewrite <- (ztake_zdrop (_limit b) d) at 1. unfold zdrop at 1.
    rewrite drop_app_le by (unfold zlen in Em; lia). done.
  - unfold chase_fuel. rewrite (bo_data _ _ B). unfold zlen in *. lia.
Qed.

(** C18. Decompression: where a name stands in the packet, [dname_pkt_copy]
    stores exactly its uncompressed form (which fits the 255 bytes callers
    provide), [dname_pkt_hash] returns the hash [dname_query_hash] gives to that
    form, and [dname_print] prints its labels. *)
Theorem dname_pkt_decompress le raninit addr b d pos ls e h :
  buf_ok b d -> pkt_name b d pos ls e ->
  exists p, sldns_buffer_at b pos = Ok p /\ name_ok ls /\
    dname_pkt_copy b p = Ok (wire ls) /\
    dname_pkt_hash le raninit addr b p h = dname_query_hash le raninit addr (wire ls) h /\
    dname_print (Some b) (Some p) = Ok (if e =? 1 then [46] else dotted ls).
Proof.
  intros B N. destruct (pkt_name_ptr _ _ _ _ _ B N) as (Hok & Hat & k & Hk & D & Hf).
  destruct Hok as [Hls H255]. pose proof (wire_labels_bound _ Hls) as Hw.
  destruct (decomp_next _ _ _ _ _ _ D) as (x & q & Ep & En).
  exists (zdrop pos d). split; [done|]. split; [done|]. split; [|split].
  - unfold dname_pkt_copy. rewrite En, bind_Ok.
    eapply dname_pkt_copy_loop_spec; try done; unfold zlen in *; lia.
  - unfold dname_pkt_hash. rewrite En, bind_Ok.
    pose proof (dname_query_hash_wire le raninit addr ls [] h Hls) as Eh.
    rewrite app_nil_r in Eh. rewrite Eh.
    eapply dname_pkt_hash_loop_spec; try done; lia.
  - unfold dname_print. rewrite En, bind_Ok.
    rewrite (dname_print_loop_spec b d k (zdrop pos d) ls e) by (done || lia).
    rewrite bind_Ok. f_equal. clear Hf Hw Hls H255 En Hat N.
    rewrite Ep in D. inversion D; subst.
    + done.
    + match goal with H : label_ok _ |- _ => destruct H end.
      match goal with H : decomp _ _ _ _ _ _ |- _ => apply decomp_end in H end.
      by rewrite !eqb_false by lia.
    + by rewrite ptr_nonzero by done.
Qed.

Lemma dname_pkt_decompress_witness :
  exists p, sldns_buffer_at sample_pkt 4 = Ok p /\ name_ok [[98]; [65]] /\
    dname_pkt_copy sample_pkt p = Ok (wire [[98]; [65]]) /\
    dname_pkt_hash true 1 0 sample_pkt p 5 = dname_query_hash true 1 0 (wire [[98]; [65]]) 5 /\
    dname_print (Some sample_pkt) (Some p) = Ok (if 4 =? 1 then [46] else dotted [[98]; [65]]).
Proof.
  apply (dname_pkt_decompress true 1 0 sample_pkt sample_msg 4 [[98]; [65]] 4 5).
  - exact sample_ok.
  - exact sample_name.
Defined.

(** An uncompressed name is a chain without pointers. *)
Lemma decomp_wire d limit ls r : Forall label_ok ls ->
  decomp d limit 0 (wire ls ++ r) ls (zlen (wire ls)).
Proof.
  induction 1 as [|l ls Hl _ IH]; [constructor|].
  rewrite zlen_wire_cons, wire_cons. cbn [app]. rewrite <- app_assoc. by constructor.
Qed.

Lemma dname_pkt_compare_decomp b d k1 p1 ls1 e1 k2 p2 ls2 e2 :
  buf_ok b d -> decomp d b.(_limit) k1 p1 ls1 e1 -> decomp d b.(_limit) k2 p2 ls2 e2 ->
  k1 <= 257 -> k2 <= 257 ->
  k1 + zlen ls1 < Z.of_nat (chase_fuel b p1) -> k2 + zlen ls2 < Z.of_nat (chase_fuel b p2) ->
  dname_pkt_compare b p1 p2 = Ok (lex (wire (lower_name ls1)) (wire (lower_name ls2))).
Proof.
  intros B D1 D2 Hk1 Hk2 Hf1 Hf2.
  destruct (decomp_next _ _ _ _ _ _ D1) as (x1 & q1 & E1 & N1).
  destruct (decomp_next _ _ _ _ _ _ D2) as (x2 & q2 & E2 & N2).
  unfold dname_pkt_compare. rewrite N1, N2, !bind_Ok.
  eapply decomp_compares; try done; lia.
Qed.

(** [dname_pkt_compare] on two names of a packet, or on one of them and an
    uncompressed name elsewhere, gives the answer of [query_dname_compare] on the
    uncompressed forms: names compare the same whatever their compression. *)
Lemma dname_pkt_compare_spec b d pos1 ls1 e1 pos2 ls2 e2 r :
  buf_ok b d -> pkt_name b d pos1 ls1 e1 -> pkt_name b d pos2 ls2 e2 ->
  exists p1 p2, sldns_buffer_at b pos1 = Ok p1 /\ sldns_buffer_at b pos2 = Ok p2 /\
    dname_pkt_compare b p1 p2 = query_dname_compare (wire ls1) (wire ls2) /\
    dname_pkt_compare b p1 (wire ls2 ++ r) = query_dname_compare (wire ls1) (wire ls2).
Proof.
  intros B N1 N2.
  destruct (pkt_name_ptr _ _ _ _ _ B N1) as ([Hls1 _] & Hat1 & k1 & Hk1 & D1 & Hf1).
  destruct (pkt_name_ptr _ _ _ _ _ B N2) as ([Hls2 H2] & Hat2 & k2 & Hk2 & D2 & Hf2).
  exists (zdrop pos1 d), (zdrop pos2 d). split; [done|]. split; [done|].
  pose proof (query_dname_compare_wire ls1 ls2 [] [] Hls1 Hls2) as Eq.
  rewrite !app_nil_r in Eq. rewrite Eq. split.
  - eapply dname_pkt_compare_decomp; try done; lia.
  - eapply dname_pkt_compare_decomp; [done|done|by apply decomp_wire|lia|lia|done|].
    unfold chase_fuel. destruct B as [-> _ _ _ _ _].
    pose proof (length_wire_lt ls2 r). unfold zlen. lia.
Qed.

Lemma dname_pkt_compare_spec_witness :
  exists p1 p2, sldns_buffer_at sample_pkt 4 = Ok p1 /\ sldns_buffer_at sample_pkt 4 = Ok p2 /\
    dname_pkt_compare sample_pkt p1 p2 = query_dname_compare (wire [[98]; [65]]) (wire [[98]; [65]]) /\
    dname_pkt_compare sample_pkt p1 (wire [[98]; [65]] ++ [7])
    = query_dname_compare (wire [[98]; [65]]) (wire [[98]; [65]]).
Proof.
  apply (dname_pkt_compare_spec sample_pkt sample_msg 4 [[98]; [65]] 4 4 [[98]; [65]] 4 [7]).
  - exact sample_ok.
  - exact sample_name.
  - exact sample_name.
Defined.

(** ** Termination on any bytes: pointer loops are cut *)

Lemma bind_fuel {A B} (m : outcome A) (f : A -> outcome B) :
  m <> OutOfFuel -> (forall a, m = Ok a -> f a <> OutOfFuel) -> mbind f m <> OutOfFuel.
Proof. destruct m as [a| |]; simpl; auto. Qed.

Lemma next_fuel q : next q <> OutOfFuel.
Proof. by destruct q. Qed.
Lemma deref_fuel q : deref q <> OutOfFuel.
Proof. by destruct q. Qed.
Lemma assert_fuel c : c_assert c <> OutOfFuel.
Proof. by destruct c. Qed.
Lemma at_fuel b o : sldns_buffer_at b o <> OutOfFuel.
Proof.
  unfold sldns_buffer_at, the_data. apply bind_fuel; [apply assert_fuel|]. intros _ _.
  apply bind_fuel; [by destruct (_data b)|]. intros d _. unfold advance. by destruct (_ && _).
Qed.
Lemma advance_fuel n d : advance n d <> OutOfFuel.
Proof. unfold advance. by destruct (_ && _). Qed.
Lemma read_bytes_fuel n d : read_bytes n d <> OutOfFuel.
Proof. unfold read_bytes. by destruct (_ && _). Qed.
Lemma lower_bytes_fuel n : forall d, lower_bytes n d <> OutOfFuel.
Proof.
  induction n as [|n IH]; intros d; simpl; [done|]. apply bind_fuel; [apply next_fuel|].
  intros [c d'] _. apply bind_fuel; [apply IH|]. by intros [low rest] _.
Qed.
Lemma compare_bytes_fuel n : forall d1 d2, pkt_compare_bytes n d1 d2 <> OutOfFuel.
Proof.
  induction n as [|n IH]; intros d1 d2; simpl; [done|].
  apply bind_fuel; [apply deref_fuel|]. intros c1 _.
  apply bind_fuel; [apply deref_fuel|]. intros c2 _. destruct (negb _); [by destruct (_ <? _)|].
  apply bind_fuel; [apply advance_fuel|]. intros ? _.
  apply bind_fuel; [apply advance_fuel|]. intros ? _. apply IH.
Qed.
#[export] Hint Resolve next_fuel deref_fuel assert_fuel at_fuel advance_fuel read_bytes_fuel
  lower_bytes_fuel compare_bytes_fuel : cwd.

(** How far the steps of the walks move. *)
Lemma next_Ok q x q' : next q = Ok (x, q') -> q = x :: q'.
Proof. destruct q; [done|]. by intros [= -> ->]. Qed.

Lemma advance_Ok n d d' : advance n d = Ok d' -> zlen d' <= zlen d.
Proof.
  unfold advance. destruct (_ && _); [|done]. intros [= <-].
  unfold zlen, zdrop. rewrite length_drop. lia.
Qed.

Lemma at_suffix b d o p :
  buf_ok b d -> sldns_buffer_at b o = Ok p -> zlen p <= zlen d /\ bytes_ok p.
Proof.
  intros B. unfold sldns_buffer_at. destruct (o <=? _limit b); [|done]. simpl.
  rewrite (the_data_ok _ _ B), bind_Ok. unfold advance. destruct (_ && _); [|done].
  intros [= <-]. destruct B. split; [|auto with cwd].
  unfold zlen, zdrop. rewrite length_drop. lia.
Qed.

Lemma lower_bytes_Ok n : forall d low rest,
  lower_bytes n d = Ok (low, rest) -> length low = n /\ exists pre, d = pre ++ rest.
Proof.
  induction n as [|n IH]; intros d low rest; simpl; [by intros [= <- <-]; split; [|exists []]|].
  intros ([c d'] & En & ([low' rest'] & El & [= <- <-])%bind_inv)%bind_inv.
  apply next_Ok in En as ->. destruct (IH _ _ _ El) as [<- (pre & ->)].
  split; [done|]. by exists (c :: pre).
Qed.

Lemma compare_bytes_Ok n : forall d1 d2 q1 q2,
  pkt_compare_bytes n d1 d2 = Ok (inr (q1, q2)) -> zlen q1 <= zlen d1 /\ zlen q2 <= zlen d2.
Proof.
  induction n as [|n IH]; intros d1 d2 q1 q2; simpl; [by intros [= <- <-]|].
  intros (c1 & _ & (c2 & _ & E)%bind_inv)%bind_inv.
  destruct (negb _); [by destruct (_ <? _)|].
  apply bind_inv in E as (d1' & E1 & (d2' & E2 & E)%bind_inv).
  apply advance_Ok in E1, E2. apply IH in E. lia.
Qed.

(** Each pointer followed leaves at most one walk over the block. *)
Definition walk (d : list Z) (count : Z) (q : list Z) : Z := (257 - count) * (1 + zlen d) + zlen q.

Lemma walk_ptr b d o p x q count q0 :
  buf_ok b d -> sldns_buffer_at b o = Ok p -> next p = Ok (x, q) -> count <= 256 ->
  walk d (count + 1) q < walk d count q0.
Proof.
  intros B [Hp _]%(at_suffix _ _ _ _ B) En%next_Ok Hc. subst p. rewrite zlen_cons in Hp.
  unfold walk. pose proof (zlen_nonneg q0). nia.
Qed.

Lemma walk_nonneg d count q : count <= 257 -> 0 <= walk d count q.
Proof. unfold walk. pose proof (zlen_nonneg q). pose proof (zlen_nonneg d). nia. Qed.

Section Termination.
Context (b : sldns_buffer) (d : list Z) (B : buf_ok b d).

Lemma dname_pkt_compare_loop_fuel fuel : forall len1 q1 len2 q2 c1 c2,
  c1 <= 257 -> c2 <= 257 -> walk d c1 q1 + walk d c2 q2 < Z.of_nat fuel ->
  dname_pkt_compare_loop fuel b len1 q1 len2 q2 c1 c2 <> OutOfFuel.
Proof.
  induction fuel as [|fuel IH]; intros len1 q1 len2 q2 c1 c2 H1 H2 Hf;
    pose proof (walk_nonneg d c1 q1 H1); pose proof (walk_nonneg d c2 q2 H2); [lia|].
  cbn [dname_pkt_compare_loop]. destruct (_ && _); [done|]. unfold MAX_COMPRESS_PTRS.
  destruct (LABEL_IS_PTR len1).
  { apply bind_fuel; [auto with cwd|]. intros y _. destruct (_ <=? _); [done|].
    destruct (Z.ltb_spec 256 c1); [done|].
    apply bind_fuel; [auto with cwd|]. intros p Ep.
    apply bind_fuel; [auto with cwd|]. intros [x q] En.
    pose proof (walk_ptr _ _ _ _ _ _ c1 q1 B Ep En ltac:(lia)). apply IH; lia. }
  destruct (LABEL_IS_PTR len2).
  { apply bind_fuel; [auto with cwd|]. intros y _. destruct (_ <=? _); [done|].
    destruct (Z.ltb_spec 256 c2); [done|].
    apply bind_fuel; [auto with cwd|]. intros p Ep.
    apply bind_fuel; [auto with cwd|]. intros [x q] En.
    pose proof (walk_ptr _ _ _ _ _ _ c2 q2 B Ep En ltac:(lia)). apply IH; lia. }
  apply bind_fuel; [auto with cwd|]. intros _ _. apply bind_fuel; [auto with cwd|]. intros _ _.
  destruct (negb _); [by destruct (_ <? _)|].
  apply bind_fuel; [auto with cwd|]. intros _ _. apply bind_fuel; [auto with cwd|].
  intros [v|[r1 r2]] Er; [done|]. apply compare_bytes_Ok in Er as [].
  apply bind_fuel; [auto with cwd|]. intros [x1 s1] ->%next_Ok.
  apply bind_fuel; [auto with cwd|]. intros [x2 s2] ->%next_Ok.
  rewrite !zlen_cons in *. apply IH; unfold walk in *; lia.
Qed.

Lemma dname_pkt_hash_loop_fuel le raninit addr fuel : forall lablen q count h,
  bytes_ok (lablen :: q) -> count <= 257 -> walk d count q < Z.of_nat fuel ->
  dname_pkt_hash_loop le raninit addr fuel b lablen q count h <> OutOfFuel.
Proof.
  induction fuel as [|fuel IH]; intros lablen q count h Hb Hc Hf;
    pose proof (walk_nonneg d count q Hc); [lia|].
  cbn [dname_pkt_hash_loop]. destruct (_ =? _); [done|]. unfold MAX_COMPRESS_PTRS.
  destruct (LABEL_IS_PTR lablen).
  { apply bind_fuel; [auto with cwd|]. intros y _. destruct (_ <=? _); [done|].
    destruct (Z.ltb_spec 256 count); [done|].
    apply bind_fuel; [auto with cwd|]. intros p Ep.
    apply bind_fuel; [auto with cwd|]. intros [x q'] En.
    pose proof (walk_ptr _ _ _ _ _ _ count q B Ep En ltac:(lia)).
    apply (at_suffix _ _ _ _ B) in Ep as [_ Hp]. apply next_Ok in En as ->. apply IH; done || lia. }
  inversion_clear Hb as [|? ? Hl Hq].
  apply bind_fuel; [auto with cwd|]. intros _ _. apply bind_fuel; [auto with cwd|].
  intros [low rest] (Hlow & pre & ->)%lower_bytes_Ok.
  pose proof (hashlittle_val_spec le raninit addr (lablen :: low) [] h) as E.
  rewrite app_nil_r, zlen_cons in E. replace (1 + zlen low) with (lablen + 1) in E
    by (unfold zlen, in_u in *; lia).
  rewrite E, bind_Ok. apply bind_fuel; [auto with cwd|]. intros [x q'] ->%next_Ok.
  apply Forall_app in Hq as [_ Hq]. apply IH; [done|done|].
  unfold walk in *. rewrite zlen_app, zlen_cons in *. pose proof (zlen_nonneg pre). lia.
Qed.

Lemma dname_print_loop_fuel fuel : forall lablen q count,
  count <= 257 -> walk d count q < Z.of_nat fuel ->
  dname_print_loop fuel (Some b) lablen q count <> OutOfFuel.
Proof.
  induction fuel as [|fuel IH]; intros lablen q count Hc Hf;
    pose proof (walk_nonneg d count q Hc); [lia|].
  cbn [dname_print_loop]. destruct (_ =? _); [done|]. unfold MAX_COMPRESS_PTRS.
  destruct (LABEL_IS_PTR lablen).
  { apply bind_fuel; [auto with cwd|]. intros y _. destruct (_ <=? _); [done|].
    destruct (Z.ltb_spec 256 count); [done|].
    apply bind_fuel; [auto with cwd|]. intros p Ep.
    apply bind_fuel; [auto with cwd|]. intros [x q'] En.
    pose proof (walk_ptr _ _ _ _ _ _ count q B Ep En ltac:(lia)). apply IH; lia. }
  destruct (_ <? _); [done|]. apply bind_fuel; [auto with cwd|]. intros bytes _.
  apply bind_fuel; [auto with cwd|]. intros q1 Ha%advance_Ok.
  apply bind_fuel; [auto with cwd|]. intros [x q'] ->%next_Ok. rewrite zlen_cons in Ha.
  apply bind_fuel; [|done]. apply IH; unfold walk in *; lia.
Qed.

Lemma dname_pkt_copy_loop_fuel fuel : forall lablen q count len,
  0 <= count <= 257 -> 0 <= len <= 254 -> 257 - count + (255 - len) < Z.of_nat fuel ->
  bytes_ok (lablen :: q) ->
  dname_pkt_copy_loop fuel b lablen q count len <> OutOfFuel /\
  (forall out, dname_pkt_copy_loop fuel b lablen q count len = Ok out -> zlen out + len <= 255).
Proof.
  induction fuel as [|fuel IH]; intros lablen q count len Hc Hl Hf Hb; [lia|].
  cbn [dname_pkt_copy_loop]. unfold MAX_COMPRESS_PTRS, LDNS_MAX_LABELLEN, LDNS_MAX_DOMAINLEN.
  assert (forall out, Ok [0] = Ok out -> zlen out + len <= 255) as H0
    by (intros ? [= <-]; change (zlen [0]) with 1; lia).
  destruct (Z.eqb_spec lablen 0) as [->|Hl0]; [done|].
  inversion_clear Hb as [|? ? Hlab Hq]. unfold in_u in Hlab.
  destruct (LABEL_IS_PTR lablen).
  { destruct (Z.ltb_spec 256 count); [done|].
    destruct (deref q) as [y| |] eqn:Ey; [|done|by destruct (deref_fuel q)]. rewrite bind_Ok.
    destruct (_ <=? _); [split; [done|]; intros ? [= <-]; change (zlen (@nil Z)) with 0; lia|].
    destruct (sldns_buffer_at b _) as [p| |] eqn:Ep; [|done|by apply at_fuel in Ep].
    rewrite bind_Ok. apply (at_suffix _ _ _ _ B) in Ep as [_ Hp].
    destruct p as [|x p]; [done|]. cbn [next]. rewrite bind_Ok. apply IH; done || lia. }
  destruct (Z.ltb_spec 63 lablen); [done|].
  destruct (Z.leb_spec 255 (len + (lablen + 1))); [done|].
  unfold read_bytes, advance. destruct ((0 <=? lablen) && (lablen <=? zlen q)) eqn:Eq; [|done].
  apply andb_true_iff in Eq as [_ Eq%Z.leb_le]. rewrite !bind_Ok.
  pose proof (bytes_ok_zdrop lablen q Hq) as Hz.
  destruct (zdrop lablen q) as [|x p]; [done|]. cbn [next]. rewrite bind_Ok.
  destruct (IH x p count (len + (lablen + 1))) as [IH1 IH2]; try done; try lia.
  destruct (dname_pkt_copy_loop _ _ _ _ _ _) as [out| |]; [|done|done].
  rewrite bind_Ok. split; [done|]. intros ? [= <-]. specialize (IH2 _ eq_refl).
  rewrite zlen_cons, zlen_app, zlen_ztake by lia. lia.
Qed.
End Termination.

Lemma walk_start b d p x q :
  buf_ok b d -> p = x :: q -> walk d 0 q < Z.of_nat (chase_fuel b p).
Proof.
  intros B ->. unfold walk, chase_fuel. rewrite (bo_data _ _ B). simpl length.
  unfold zlen. lia.
Qed.

(** C17. Compression pointer loops are cut: on any packet and any bytes at
    [p1] and [p2], the routines that follow names return (or read a byte outside
    the block, or fail an assertion on a label of more than 63 bytes); they never
    loop, and [dname_pkt_copy] never stores more than 255 bytes. *)
Theorem dname_pkt_walks_terminate le raninit addr b d p1 p2 h :
  buf_ok b d -> bytes_ok p1 -> bytes_ok p2 ->
  dname_pkt_compare b p1 p2 <> OutOfFuel /\
  dname_pkt_hash le raninit addr b p1 h <> OutOfFuel /\
  dname_print (Some b) (Some p1) <> OutOfFuel /\
  dname_pkt_copy b p1 <> OutOfFuel /\
  (forall out, dname_pkt_copy b p1 = Ok out -> zlen out <= 255).
Proof.
  intros B H1 H2.
  destruct p1 as [|x1 q1]; [by repeat split|].
  pose proof (walk_start b d _ x1 q1 B eq_refl).
  destruct (dname_pkt_copy_loop_fuel b d B 600 x1 q1 0 0) as [C1 C2]; [lia..|done|].
  change (dname_pkt_copy b (x1 :: q1)) with (dname_pkt_copy_loop 600 b x1 q1 0 0).
  split; [|split; [|split; [|split]]].
  - unfold dname_pkt_compare. destruct p2 as [|x2 q2]; [done|]. cbn [next]. rewrite !bind_Ok.
    pose proof (walk_start b d _ x2 q2 B eq_refl).
    apply (dname_pkt_compare_loop_fuel b d B); lia.
  - unfold dname_pkt_hash. cbn [next]. rewrite bind_Ok.
    apply (dname_pkt_hash_loop_fuel b d B); done || lia.
  - unfold dname_print. cbn [next]. rewrite bind_Ok. apply bind_fuel; [|done].
    apply (dname_print_loop_fuel b d B); lia.
  - exact C1.
  - intros out E. apply C2 in E. lia.
Qed.

(** Two pointers at each other. *)
Lemma dname_pkt_walks_terminate_witness :
  let b := mk_buffer 0 4 4 (Some [192; 2; 192; 0]) false false in
  let p := [192; 2; 192; 0] in
  dname_pkt_compare b p p <> OutOfFuel /\
  dname_pkt_hash true 1 0 b p 5 <> OutOfFuel /\
  dname_print (Some b) (Some p) <> OutOfFuel /\
  dname_pkt_copy b p <> OutOfFuel /\
  (forall out, dname_pkt_copy b p = Ok out -> zlen out <= 255).
Proof.
  intros b p. apply (dname_pkt_walks_terminate true 1 0 b p p p 5).
  - split; simpl; try done; try lia. repeat constructor; unfold in_u; lia.
  - repeat constructor; unfold in_u; lia.
  - repeat constructor; unfold in_u; lia.
Defined.

(** ** pkt_dname_tolower *)

(** [d'] is [d] with some bytes below [limit] lowercased. *)
Definition lowered (limit : Z) (d d' : list Z) : Prop :=
  length d' = length d /\
  forall i c, d !! i = Some c -> d' !! i = Some c \/ (Z.of_nat i < limit /\ d' !! i = Some (tolower c)).

Lemma lowered_refl limit d : lowered limit d d.
Proof. split; auto. Qed.

Lemma lowered_trans limit d1 d2 d3 :
  lowered limit d1 d2 -> lowered limit d2 d3 -> lowered limit d1 d3.
Proof.
  intros [L1 H1] [L2 H2]. split; [lia|]. intros i c Hc.
  destruct (H1 i c Hc) as [E|[Hi E]]; [by apply H2|].
  destruct (H2 i _ E) as [?|[_ E']]; [by right|]. rewrite tolower_idem in E'. by right.
Qed.

Lemma lowered_bytes limit d d' : lowered limit d d' -> bytes_ok d -> bytes_ok d'.
Proof.
  intros [L H] Hd. apply Forall_lookup. intros i c' Hc'.
  destruct (lookup_lt_is_Some_2 d i) as [c Hc]; [apply lookup_lt_Some in Hc'; lia|].
  assert (is_byte c) as Hbc by (by eapply Forall_lookup_1 in Hc).
  destruct (H i c Hc) as [E|[_ E]]; simplify_eq; [done|]. by apply tolower_byte.
Qed.

Lemma lowered_store limit d p c :
  0 <= p < limit -> d !! Z.to_nat p = Some c -> lowered limit d (<[Z.to_nat p := tolower c]> d).
Proof.
  intros Hp Hc. split; [by rewrite length_insert|]. intros i x Hx.
  destruct (decide (i = Z.to_nat p)) as [->|Hi].
  - right. split; [lia|]. simplify_eq. apply list_lookup_insert_eq.
    by apply lookup_lt_Some in Hc.
  - left. by rewrite list_lookup_insert_ne.
Qed.

Lemma tolower_bytes_spec limit n : forall d p,
  0 <= p -> p + Z.of_nat n <= limit -> limit <= zlen d ->
  exists d', tolower_bytes n d p = Ok (d', p + Z.of_nat n) /\ lowered limit d d'.
Proof.
  induction n as [|n IH]; intros d p Hp Hn Hl; cbn [tolower_bytes].
  - exists d. split; [do 2 f_equal; lia|apply lowered_refl].
  - destruct (index_ok d p ltac:(lia)) as (c & -> & Hc). rewrite bind_Ok.
    unfold store. rewrite leb_true, ltb_true by lia. cbn [andb]. rewrite bind_Ok.
    pose proof (lowered_store limit d p c ltac:(lia) Hc) as Hs.
    destruct (IH (<[Z.to_nat p := tolower c]> d) (p + 1)) as (d' & -> & Hd'); [lia|lia| |].
    { unfold zlen. rewrite length_insert. exact Hl. }
    exists d'. split; [do 2 f_equal; lia|]. by eapply lowered_trans.
Qed.

Lemma pkt_dname_tolower_loop_spec limit fuel : forall d lablen p count,
  bytes_ok d -> is_byte lablen -> 0 <= p <= limit -> limit < zlen d -> 0 <= count <= 257 ->
  (257 - count) * (1 + limit) + (limit - p) < Z.of_nat fuel ->
  exists d', pkt_dname_tolower_loop fuel d limit lablen p count = Ok d' /\ lowered limit d d'.
Proof.
  induction fuel as [|fuel IH]; intros d lablen p count Hd Hb Hp Hl Hc Hf; [nia|].
  cbn [pkt_dname_tolower_loop]. pose proof (lowered_refl limit d) as Hr.
  destruct (Z.eqb_spec lablen 0); [by exists d|].
  destruct (LABEL_IS_PTR lablen).
  - destruct (index_ok d p ltac:(lia)) as (y & Ey & Hy). rewrite Ey, bind_Ok.
    pose proof (ptr_offset_range lablen y Hb (index_byte _ _ _ Hd Ey)) as Ho.
    destruct (Z.leb_spec limit (PTR_OFFSET lablen y)); [by exists d|]. cbn zeta.
    destruct (index_ok d (PTR_OFFSET lablen y) ltac:(lia)) as (x & Ex & _).
    rewrite Ex, bind_Ok. unfold MAX_COMPRESS_PTRS. destruct (Z.ltb_spec 256 count); [by exists d|].
    apply IH; [done|by eapply index_byte|lia|lia|lia|nia].
  - unfold in_u in Hb. destruct (Z.leb_spec limit (p + lablen)); [by exists d|].
    destruct (tolower_bytes_spec limit (Z.to_nat lablen) d p) as (d1 & -> & Hd1); [lia..|].
    rewrite bind_Ok, Z2Nat.id by lia. rewrite leb_false by lia.
    pose proof (lowered_bytes _ _ _ Hd1 Hd) as Hb1.
    assert (zlen d1 = zlen d) as E1 by (unfold zlen; by rewrite (proj1 Hd1)).
    destruct (index_ok d1 (p + lablen) ltac:(lia)) as (x & Ex & _). rewrite Ex, bind_Ok.
    destruct (IH d1 x (p + lablen + 1) count) as (d2 & -> & Hd2);
      [done|by eapply index_byte|lia|lia|lia|lia|].
    exists d2. split; [done|]. by eapply lowered_trans.
Qed.

(** [pkt_dname_tolower] is safe on any bytes when the block has a byte after
    the message: it returns (pointer loops included), every byte it changes is a
    byte of the message that it lowercases, and the packet stays well formed. *)
Lemma pkt_dname_tolower_safe b d dname :
  buf_ok b d -> 0 <= dname -> b.(_limit) < b.(_capacity) ->
  exists d', pkt_dname_tolower b dname = Ok (set_data b d') /\
    buf_ok (set_data b d') d' /\ lowered b.(_limit) d d'.
Proof.
  intros B Hp Hl. unfold pkt_dname_tolower. pose proof (bo_len _ _ B) as Hlen.
  pose proof (bo_bytes _ _ B) as Hd. pose proof (bo_pos _ _ B).
  destruct (Z.leb_spec (_limit b) dname).
  { exists d. assert (set_data b d = b) as ->; [|split; [done|split; [done|apply lowered_refl]]].
    destruct b. unfold set_data. simpl. f_equal. symmetry. exact (bo_data _ _ B). }
  rewrite (the_data_ok _ _ B), bind_Ok.
  destruct (index_ok d dname ltac:(lia)) as (x & Ex & _). rewrite Ex, bind_Ok.
  destruct (pkt_dname_tolower_loop_spec (_limit b) (S (259 * S (length d))) d x (dname + 1) 0)
    as (d' & -> & Hd'); [done|by eapply index_byte|lia|lia|lia|unfold zlen in *; nia|].
  rewrite bind_Ok. exists d'. split; [done|]. split; [|done].
  apply (set_data_ok b d); [done|unfold zlen; by rewrite (proj1 Hd')|by eapply lowered_bytes].
Qed.

Lemma pkt_dname_tolower_safe_witness :
  let d := [2; 65; 66; 192; 0; 9] in
  let b := mk_buffer 0 5 6 (Some d) false false in
  exists d', pkt_dname_tolower b 0 = Ok (set_data b d') /\
    buf_ok (set_data b d') d' /\ lowered 5 d d'.
Proof.
  intros d b. apply (pkt_dname_tolower_safe b d 0).
  - split; simpl; try done; try lia. repeat constructor; unfold in_u; lia.
  - lia.
  - reflexivity.
Defined.
