(* ===== verification/DnameOut.v ===== *)
(** * Names on the way out (util/data/dname.c)

    Writing a name to a packet, the label counts, cutting labels off, and the
    printable form.  The definitions are in [Dname]; this file proves what they
    compute on every name. *)

From S2P Require Import Prelude Sbuffer Lookup3 Dname DnameCompare.

(** ** dname_buffer_write *)

(** The buffer after [bytes] were stored at the position. *)
Definition append (b : sldns_buffer) (d bytes : list Z) : sldns_buffer :=
  set_pos (set_data b (spliced d b.(_position) bytes)) (b.(_position) + zlen bytes).

Lemma append_nil b d : buf_ok b d -> append b d [] = b.
Proof.
  intros B. unfold append. rewrite zlen_nil, Z.add_0_r.
  assert (spliced d (_position b) [] = d) as ->.
  { unfold spliced. rewrite zlen_nil, Z.add_0_r. apply take_drop. }
  destruct b. unfold set_pos, set_data. simpl. f_equal. symmetry. exact (bo_data _ _ B).
Qed.

Lemma append_append b d x y :
  buf_ok b d -> b.(_position) + zlen x + zlen y <= b.(_limit) ->
  append (append b d x) (spliced d b.(_position) x) y = append b d (x ++ y).
Proof.
  intros B Hl. unfold append. cbn [set_pos set_data _position].
  rewrite spliced_spliced by (destruct B; lia). unfold set_pos, set_data. simpl. f_equal.
  rewrite zlen_app. lia.
Qed.

Lemma write_u8_append b d v :
  buf_ok b d -> is_byte v -> b.(_position) + 1 <= b.(_limit) ->
  sldns_buffer_write_u8 b v = Ok (append b d [v]) /\
  buf_ok (append b d [v]) (spliced d b.(_position) [v]).
Proof. intros B Hv Hl. exact (write_field_spec b d (FU8 v) B Hv Hl). Qed.

Lemma write_append b d l r :
  buf_ok b d -> bytes_ok l -> b.(_position) + zlen l <= b.(_limit) ->
  sldns_buffer_write b (l ++ r) (zlen l) = Ok (append b d l) /\
  buf_ok (append b d l) (spliced d b.(_position) l).
Proof.
  intros B Hb Hl. destruct (write_field_spec b d (FBytes l) B Hb Hl) as [E B'].
  split; [|exact B']. etransitivity; [|exact E]. cbn [write_field]. unfold sldns_buffer_write.
  pose proof (zlen_nonneg r). pose proof (zlen_nonneg l).
  rewrite !(write_at_spec _ d) by (done || (destruct B; rewrite ?zlen_app; lia)).
  rewrite ztake_app_zlen. unfold ztake, zlen. by rewrite Nat2Z.id, firstn_all.
Qed.

Lemma remaining_ok b d : buf_ok b d ->
  sldns_buffer_remaining b = Ok (b.(_limit) - b.(_position)).
Proof. intros B. by rewrite (remaining_reads b d _ (conj B eq_refl)), (zlen_window _ _ B). Qed.

Lemma dname_buffer_write_loop_spec ls : forall fuel b d lablen tl r,
  buf_ok b d -> Forall label_ok ls -> wire ls = lablen :: tl -> (length ls <= fuel)%nat ->
  if b.(_position) + zlen tl <=? b.(_limit) then
    dname_buffer_write_loop fuel b (tl ++ r) lablen = Ok (1, append b d tl) /\
    buf_ok (append b d tl) (spliced d b.(_position) tl)
  else exists x, dname_buffer_write_loop fuel b (tl ++ r) lablen = Ok (0, append b d x) /\
         buf_ok (append b d x) (spliced d b.(_position) x) /\ b.(_position) + zlen x <= b.(_limit).
Proof.
  induction ls as [|l ls IH]; intros fuel b d lablen tl r B Hls E Hf.
  - rewrite wire_nil in E. injection E as <- <-. rewrite zlen_nil, leb_true by (destruct B; lia).
    pose proof (write_append b d [] [] B) as W. rewrite append_nil in * by done.
    split; [by destruct fuel|]. apply W; [done|]. rewrite zlen_nil. destruct B. lia.
  - inversion_clear Hls as [|? ? [Hl Hb] Hls']. rewrite wire_cons in E. injection E as <- <-.
    destruct fuel as [|fuel]; [simpl in Hf; lia|]. cbn [dname_buffer_write_loop].
    rewrite eqb_false by lia. rewrite (remaining_ok _ _ B), bind_Ok.
    pose proof (bytes_ok_wire ls Hls') as Hw.
    destruct (wire ls) as [|y tl] eqn:Ew; [by pose proof (zlen_wire_pos ls) as Z0; rewrite Ew in Z0|].
    inversion_clear Hw as [|? ? Hy Htl]. pose proof (zlen_nonneg tl) as Hz.
    rewrite zlen_app, zlen_cons.
    destruct (Z.ltb_spec (_limit b - _position b) (zlen l + 1)).
    { rewrite leb_false by lia. exists []. pose proof (write_append b d [] [] B) as W. rewrite append_nil in * by done.
      destruct W as [_ W]; [done|rewrite zlen_nil; destruct B; lia|]. split; [done|]. split; [done|]. rewrite zlen_nil. destruct B. lia. }
    rewrite <- app_assoc. cbn [app].
    destruct (write_append b d l (y :: tl ++ r) B Hb) as [-> B1]; [lia|].
    rewrite bind_Ok, advance_app, bind_Ok. cbn [next]. rewrite bind_Ok.
    destruct (write_u8_append _ _ y B1 Hy) as [-> B2]; [simpl; lia|]. rewrite bind_Ok.
    rewrite append_append in * by (done || (change (zlen [y]) with 1; lia)).
    specialize (IH fuel _ _ y tl r B2 Hls' eq_refl ltac:(simpl in Hf; lia)).
    cbn [append set_pos set_data _position _limit] in IH.
    rewrite zlen_app in IH. change (zlen [y]) with 1 in IH.
    replace (_position b + (zlen l + (1 + zlen tl))) with (_position b + (zlen l + 1) + zlen tl) by lia.
    destruct (Z.leb_spec (_position b + (zlen l + 1) + zlen tl) (_limit b)).
    2:{ destruct IH as (z & IH & Bx & Hx). exists ((l ++ [y]) ++ z).
        rewrite spliced_spliced in IH, Bx by (change (zlen [y]) with 1; destruct B; lia).
        rewrite append_append in IH, Bx by (done || (rewrite zlen_app; change (zlen [y]) with 1; lia)).
        replace (_position b + (zlen l + 1)) with (_position b + zlen (l ++ [y])) in Bx
          by (rewrite zlen_app; change (zlen [y]) with 1; lia).
        rewrite spliced_spliced in Bx by (rewrite ?zlen_app; change (zlen [y]) with 1; destruct B; lia).
        split; [exact IH|]. split; [exact Bx|]. rewrite !zlen_app. change (zlen [y]) with 1. lia. }
    rewrite spliced_spliced in IH by (change (zlen [y]) with 1; destruct B; lia).
    replace (_position b + (zlen l + 1)) with (_position b + zlen (l ++ [y])) in IH
      by (rewrite zlen_app; change (zlen [y]) with 1; lia).
    rewrite append_append in IH; [|done|rewrite zlen_app; change (zlen [y]) with 1; lia].
    rewrite spliced_spliced in IH
      by (rewrite ?zlen_app; change (zlen [y]) with 1; destruct B; lia).
    rewrite <- app_assoc in IH. exact IH.
Qed.

(** The whole of it: all of the name, or as much as there is room for. *)
Lemma dname_buffer_write_wire b d ls r : buf_ok b d -> Forall label_ok ls ->
  if b.(_position) + zlen (wire ls) <=? b.(_limit) then
    dname_buffer_write b (wire ls ++ r) = Ok (1, append b d (wire ls)) /\
    buf_ok (append b d (wire ls)) (spliced d b.(_position) (wire ls))
  else exists x, dname_buffer_write b (wire ls ++ r) = Ok (0, append b d x) /\
         buf_ok (append b d x) (spliced d b.(_position) x) /\ b.(_position) + zlen x <= b.(_limit).
Proof.
  intros B Hls. unfold dname_buffer_write. rewrite (remaining_ok _ _ B), bind_Ok.
  pose proof (bytes_ok_wire ls Hls) as Hw. pose proof (zlen_wire_pos ls) as Hpos. pose proof (length_wire_lt ls r) as Hf.
  destruct (Z.ltb_spec (_limit b - _position b) 1) as [Hr|Hr].
  { rewrite leb_false by lia. exists []. pose proof (write_append b d [] [] B) as W. rewrite append_nil in * by done.
    destruct W as [_ W]; [done|rewrite zlen_nil; destruct B; lia|]. split; [done|]. split; [done|]. rewrite zlen_nil. destruct B. lia. }
  destruct (wire ls) as [|x tl] eqn:Ew; [by rewrite zlen_nil in Hpos|].
  inversion_clear Hw as [|? ? Hx Htl]. cbn [app next]. rewrite bind_Ok.
  destruct (write_u8_append b d x B Hx) as [-> B1]; [lia|]. rewrite bind_Ok.
  simpl in Hf. pose proof (dname_buffer_write_loop_spec ls (length (tl ++ r)) _ _ x tl r B1 Hls Ew ltac:(lia)) as L.
  cbn [append set_pos set_data _position _limit] in L. change (zlen [x]) with 1 in L. rewrite zlen_cons in *.
  rewrite Z.add_assoc. change (_position b + 1) with (_position b + zlen [x]) in L.
  destruct (Z.leb_spec (_position b + 1 + zlen tl) (_limit b)).
  - rewrite leb_true in L by (change (zlen [x]) with 1; lia). destruct L as [L B2].
    rewrite spliced_spliced in B2 by (change (zlen [x]) with 1; destruct B; lia).
    fold (append b d [x]) in L, B2. rewrite append_append in L, B2 by (done || (change (zlen [x]) with 1; lia)). by split.
  - rewrite leb_false in L by (change (zlen [x]) with 1; lia). destruct L as (z & L & B2 & Hz). exists (x :: z).
    change (zlen [x]) with 1 in Hz. rewrite zlen_cons. pose proof (zlen_nonneg z).
    rewrite spliced_spliced in B2 by (change (zlen [x]) with 1; destruct B; lia).
    fold (append b d [x]) in L, B2. rewrite append_append in L, B2 by (done || (change (zlen [x]) with 1; lia)). split; [exact L|]. split; [exact B2|lia].
Qed.

(** What is stored at the position is what is read there. *)
Lemma reads_append b d w :
  buf_ok b d -> buf_ok (append b d w) (spliced d b.(_position) w) ->
  b.(_position) + zlen w <= b.(_limit) ->
  exists rest, reads (set_pos (append b d w) b.(_position)) (spliced d b.(_position) w) (w ++ rest).
Proof.
  intros B B' Hl. pose proof (zlen_nonneg w).
  exists (zdrop (b.(_position) + zlen w) (ztake b.(_limit) d)). split.
  - apply set_pos_ok; [done|]. simpl. destruct B; lia.
  - cbn [append set_pos set_data _position _limit]. destruct B.
    assert (zlen (ztake (_position b) d) = _position b) as Ep by (apply zlen_ztake; lia).
    unfold spliced. rewrite app_assoc. unfold ztake at 2.
    rewrite take_app_ge by (rewrite length_app; unfold zlen in *; lia).
    rewrite <- app_assoc. rewrite <- Ep at 2. rewrite zdrop_app_zlen. f_equal.
    unfold zdrop, ztake. rewrite skipn_firstn_comm, length_app. f_equal.
    unfold zlen, ztake in *. lia.
Qed.

(** Writing and reading a name: [dname_buffer_write] succeeds exactly when
    the wire format fits between the position and the limit; it then stores that
    wire format and nothing else, and [query_dname_len] from the old position
    reads the name back and ends where the writer ended.  On failure the buffer
    stays well formed. *)
Lemma dname_buffer_write_roundtrip b d ls r :
  buf_ok b d -> name_ok ls ->
  exists res b', dname_buffer_write b (wire ls ++ r) = Ok (res, b') /\ buffer_wf b' /\
    res = (if zlen (wire ls) <=? b.(_limit) - b.(_position) then 1 else 0) /\
    (res = 1 -> b' = append b d (wire ls) /\
       query_dname_len (set_pos b' b.(_position)) = Ok (zlen (wire ls), b')).
Proof.
  intros B [Hls H255]. pose proof (dname_buffer_write_wire b d ls r B Hls) as W.
  destruct (Z.leb_spec (_position b + zlen (wire ls)) (_limit b)).
  - rewrite leb_true by lia. destruct W as [L B2]. exists 1, (append b d (wire ls)). split; [exact L|]. split; [by eexists|]. split; [done|].
    intros _. split; [done|]. destruct (reads_append b d (wire ls) B B2) as [rest R]; [lia|].
    unfold query_dname_len. pose proof (wire_labels_bound ls Hls).
    by rewrite (query_dname_len_loop_complete ls 256 _ _ _ 0 R) by (done || lia).
  - rewrite leb_false by lia. destruct W as (x & L & B' & _). exists 0, (append b d x). split; [exact L|]. split; [by eexists|]. done.
Qed.

Lemma dname_buffer_write_roundtrip_witness :
  let b := mk_buffer 1 6 7 (Some [9; 9; 9; 9; 9; 9; 9]) false false in
  exists res b', dname_buffer_write b (wire [[97; 98]] ++ [5]) = Ok (res, b') /\ buffer_wf b' /\
    res = (if zlen (wire [[97; 98]]) <=? 6 - 1 then 1 else 0) /\
    (res = 1 -> b' = append b [9; 9; 9; 9; 9; 9; 9] (wire [[97; 98]]) /\
       query_dname_len (set_pos b' 1) = Ok (zlen (wire [[97; 98]]), b')).
Proof.
  intros b. apply (dname_buffer_write_roundtrip b [9; 9; 9; 9; 9; 9; 9] [[97; 98]] [5]).
  - split; simpl; try done; try lia. repeat constructor; unfold in_u; lia.
  - split; [|done]. repeat constructor; unfold in_u, zlen; simpl; lia.
Defined.

(** ** Counting and cutting labels *)

Lemma count_size_labels_loop_spec ls : forall fuel d ll labs sz rest,
  ll :: d = wire ls ++ rest -> Forall label_ok ls -> (length ls <= fuel)%nat ->
  dname_count_size_labels_loop fuel d ll labs sz = Ok (labs + zlen ls, sz + zlen (wire ls) - 1).
Proof.
  induction ls as [|l ls IH]; intros fuel d ll labs sz rest Hd H Hf.
  - rewrite wire_nil in Hd. injection Hd as -> ->.
    change (zlen (@nil label)) with 0. change (zlen (wire [])) with 1.
    destruct fuel; cbn; do 2 f_equal; lia.
  - inversion_clear H as [|? ? [Hl _] H']. rewrite wire_cons in Hd. simpl in Hd.
    injection Hd as -> ->. destruct fuel as [|fuel]; [simpl in Hf; lia|].
    cbn [dname_count_size_labels_loop]. rewrite eqb_false by lia.
    rewrite <- app_assoc, advance_app, bind_Ok.
    destruct (app_wire_nonempty ls rest) as (b & d & E). rewrite E. cbn [next].
    rewrite bind_Ok, (IH fuel d b _ _ rest) by (done || (simpl in Hf; lia)).
    rewrite zlen_cons, zlen_wire_cons. do 2 f_equal; lia.
Qed.

Lemma signame_loop_spec ls : forall fuel d ll count rest,
  ll :: d = wire ls ++ rest -> Forall label_ok ls -> (length ls <= fuel)%nat ->
  dname_signame_label_count_loop fuel (ll :: d) ll count = Ok (count + zlen ls).
Proof.
  induction ls as [|l ls IH]; intros fuel d ll count rest Hd H Hf.
  - rewrite wire_nil in Hd. injection Hd as -> ->. change (zlen (@nil label)) with 0.
    destruct fuel; cbn; f_equal; lia.
  - inversion_clear H as [|? ? [Hl _] H']. rewrite wire_cons in Hd. simpl in Hd.
    injection Hd as -> ->. destruct fuel as [|fuel]; [simpl in Hf; lia|].
    cbn [dname_signame_label_count_loop]. rewrite eqb_false by lia.
    rewrite <- app_assoc. pose proof (zlen_nonneg (wire ls ++ rest)).
    rewrite advance_ok, bind_Ok by (rewrite zlen_cons, zlen_app; lia).
    assert (advance 1 (zdrop (zlen l) (zlen l :: l ++ wire ls ++ rest)) = Ok (wire ls ++ rest)) as ->.
    { rewrite advance_ok by (rewrite zlen_zdrop; rewrite zlen_cons, zlen_app; lia).
      rewrite zdrop_zdrop by lia. pose proof (zdrop_app_zlen (zlen l :: l) (wire ls ++ rest)) as Z0.
      by rewrite zlen_cons, Z.add_comm in Z0; rewrite <- Z0 at 2. }
    rewrite bind_Ok. destruct (app_wire_nonempty ls rest) as (b & d & E). rewrite E. cbn [index].
    change (index (b :: d) 0) with (Ok b).
    rewrite bind_Ok, (IH fuel d b _ rest) by (done || (simpl in Hf; lia)).
    rewrite zlen_cons. f_equal. lia.
Qed.

Lemma dname_remove_label_spec l ls r :
  label_ok l ->
  dname_remove_label (wire (l :: ls) ++ r) (zlen (wire (l :: ls))) = Ok (wire ls ++ r, zlen (wire ls)).
Proof.
  intros Hl. unfold dname_remove_label. rewrite zlen_wire_cons, wire_cons. cbn [app].
  change (index (zlen l :: (l ++ wire ls) ++ r) 0) with (Ok (zlen l)). rewrite bind_Ok.
  pose proof (zlen_wire_pos ls). destruct Hl as [Hl _].
  rewrite label_is_ptr_range by (unfold in_u; lia). rewrite leb_false, ltb_true by lia.
  cbn [negb c_assert]. rewrite !bind_Ok, eqb_false by lia.
  rewrite <- app_assoc. pose proof (advance_app (zlen l :: l) (wire ls ++ r)) as A.
  rewrite zlen_cons, Z.add_comm in A. cbn [app] in A. rewrite A, bind_Ok. do 2 f_equal. lia.
Qed.

Lemma remove_labels_loop_wire n : forall ls r, Forall label_ok ls ->
  dname_remove_labels_loop n (wire ls ++ r) (zlen (wire ls))
  = Ok (wire (drop n ls) ++ r, zlen (wire (drop n ls))).
Proof.
  induction n as [|n IH]; intros ls r H; [done|]. cbn [dname_remove_labels_loop].
  destruct H as [|l ls Hl H].
  - change (dname_remove_label (wire [] ++ r) (zlen (wire []))) with (Ok (wire [] ++ r, zlen (wire []))).
    rewrite bind_Ok. rewrite IH by constructor. by rewrite !drop_nil.
  - rewrite dname_remove_label_spec, bind_Ok by done. by apply IH.
Qed.

(** The wildcard label. *)
Definition is_star (l : label) : bool := bool_decide (l = [42]).

Definition star_count (ls : name) : Z :=
  match ls with l :: _ => if is_star l then 1 else 0 | [] => 0 end.

Lemma dname_is_wild_spec l ls r :
  label_ok l -> dname_is_wild (wire (l :: ls) ++ r) = Ok (is_star l).
Proof.
  intros [Hl _]. unfold dname_is_wild. rewrite wire_cons. cbn [app].
  change (index (zlen l :: (l ++ wire ls) ++ r) 0) with (Ok (zlen l)). rewrite bind_Ok.
  unfold is_star. destruct l as [|x [|y l]].
  - unfold zlen in Hl. simpl in Hl. lia.
  - change (zlen [x] =? 1) with true. cbn [app].
    change (index (zlen [x] :: x :: wire ls ++ r) 1) with (Ok x). rewrite bind_Ok. f_equal.
    destruct (Z.eqb_spec x 42) as [->|]; case_bool_decide; congruence.
  - rewrite eqb_false; [|rewrite !zlen_cons; pose proof (zlen_nonneg l); lia].
    f_equal. by rewrite bool_decide_eq_false_2 by congruence.
Qed.

Lemma dname_signame_label_count_spec ls r :
  Forall label_ok ls -> dname_signame_label_count (wire ls ++ r) = Ok (zlen ls - star_count ls).
Proof.
  intros H. unfold dname_signame_label_count. destruct H as [|l ls Hl H]; [done|].
  rewrite dname_is_wild_spec by done. rewrite wire_cons. cbn [app deref]. rewrite !bind_Ok.
  rewrite eqb_false by (destruct Hl; lia). cbn [star_count].
  pose proof (length_wire_lt ls r) as Hlen.
  destruct (is_star l) eqn:Es.
  - unfold is_star in Es. apply bool_decide_eq_true in Es as ->.
    pose proof (advance_app [zlen [42]; 42] (wire ls ++ r)) as A. cbn [app] in A.
    change (zlen [zlen [42]; 42]) with 2 in A. cbn [app]. rewrite A, bind_Ok.
    destruct (app_wire_nonempty ls r) as (b & d & E). rewrite E in Hlen |- *.
    change (index (b :: d) 0) with (Ok b). rewrite bind_Ok.
    rewrite (signame_loop_spec ls _ d b 0 r) by (done || lia).
    f_equal. rewrite zlen_cons. lia.
  - rewrite bind_Ok.
    change (index (zlen l :: (l ++ wire ls) ++ r) 0) with (Ok (zlen l)). rewrite bind_Ok.
    rewrite (signame_loop_spec (l :: ls) _ ((l ++ wire ls) ++ r) (zlen l) 0 r).
    + f_equal; lia.
    + by rewrite wire_cons.
    + by constructor.
    + simpl. rewrite <- app_assoc, length_app. lia.
Qed.

(** The label counts of a name: [dname_count_labels] counts the root too,
    [dname_count_size_labels] also gives the length of the wire format, the
    label count of a signed name leaves the root and a leading wildcard out
    (RFC 4034), and [dname_remove_labels] cuts [n] labels off, stopping at the
    root. *)
Lemma dname_label_counts ls r n :
  name_ok ls -> 0 <= n ->
  dname_count_labels (wire ls ++ r) = Ok (1 + zlen ls) /\
  dname_count_size_labels (wire ls ++ r) = Ok (1 + zlen ls, zlen (wire ls)) /\
  dname_signame_label_count (wire ls ++ r) = Ok (zlen ls - star_count ls) /\
  dname_remove_labels (wire ls ++ r) (zlen (wire ls)) n
  = Ok (wire (zdrop n ls) ++ r, zlen (wire (zdrop n ls))).
Proof.
  intros [H _] Hn. split; [|split; [|split]].
  - by apply dname_count_labels_wire.
  - unfold dname_count_size_labels. pose proof (length_wire_lt ls r) as Hl.
    destruct (app_wire_nonempty ls r) as (b & d & E). rewrite E in Hl |- *. cbn [next].
    rewrite bind_Ok. simpl in Hl.
    rewrite (count_size_labels_loop_spec ls _ d b 1 1 r) by (done || lia). do 2 f_equal. lia.
  - by apply dname_signame_label_count_spec.
  - by apply remove_labels_loop_wire.
Qed.

Lemma dname_label_counts_witness :
  let ls := [[42]; [99; 111; 109]] in
  dname_count_labels (wire ls ++ []) = Ok (1 + zlen ls) /\
  dname_count_size_labels (wire ls ++ []) = Ok (1 + zlen ls, zlen (wire ls)) /\
  dname_signame_label_count (wire ls ++ []) = Ok (zlen ls - star_count ls) /\
  dname_remove_labels (wire ls ++ []) (zlen (wire ls)) 1
  = Ok (wire (zdrop 1 ls) ++ [], zlen (wire (zdrop 1 ls))).
Proof.
  intros ls. apply (dname_label_counts ls [] 1).
  - split; [|done]. repeat constructor; unfold in_u, zlen; simpl; lia.
  - lia.
Defined.

(** ** dname_str *)

Definition printable (c : Z) : Z :=
  if isalnum c || (c =? 45) || (c =? 95) || (c =? 42) then c else 63.

(** The text of a name: its labels, printable, each with a dot. *)
Definition name_str (ls : name) : list Z := concat (map (fun l => map printable l ++ [46]) ls).

Lemma dname_str_label_spec l r :
  dname_str_label (length l) (l ++ r) = Ok (map printable l, r).
Proof. induction l as [|x l IH]; simpl; [done|]. by rewrite IH. Qed.

Lemma dname_str_label_inv n : forall d s rest,
  dname_str_label n d = Ok (s, rest) ->
  length s = n /\ Forall (fun c => c <> 0) s /\ exists pre, d = pre ++ rest.
Proof.
  induction n as [|n IH]; intros d s rest; simpl.
  - intros [= <- <-]. split; [done|]. split; [done|]. by exists [].
  - intros ([c d'] & En & ([s' rest'] & El & [= <- <-])%bind_inv)%bind_inv.
    destruct d as [|x d]; [done|]. injection En as -> ->.
    destruct (IH _ _ _ El) as (<- & Hs & pre & ->). split; [done|]. split; [|by exists (c :: pre)].
    constructor; [|done]. destruct (isalnum c || _ || _ || _) eqn:E; [|lia].
    intros ->. done.
Qed.

Lemma dname_str_label_fuel n : forall d, dname_str_label n d <> OutOfFuel.
Proof.
  induction n as [|n IH]; intros [|x d]; simpl; try done.
  specialize (IH d). by destruct (dname_str_label n d) as [[]| |].
Qed.

Lemma dname_str_loop_spec ls : forall fuel d ll len rest,
  ll :: d = wire ls ++ rest -> Forall label_ok ls -> (length ls <= fuel)%nat ->
  0 <= len -> len + zlen (wire ls) <= 254 ->
  dname_str_loop fuel d ll len = Ok (name_str ls ++ [0]).
Proof.
  induction ls as [|l ls IH]; intros fuel d ll len rest Hd H Hf Hlen H254.
  - rewrite wire_nil in Hd. injection Hd as -> ->. by destruct fuel.
  - inversion_clear H as [|? ? [Hl _] H']. rewrite wire_cons in Hd. simpl in Hd.
    injection Hd as -> ->. destruct fuel as [|fuel]; [simpl in Hf; lia|].
    rewrite zlen_wire_cons in H254. pose proof (zlen_wire_pos ls).
    cbn [dname_str_loop]. rewrite eqb_false by lia.
    unfold LDNS_MAX_LABELLEN, LDNS_MAX_DOMAINLEN. rewrite ltb_false, leb_false by lia.
    rewrite <- app_assoc, to_nat_zlen, dname_str_label_spec, bind_Ok.
    destruct (app_wire_nonempty ls rest) as (b & d & E). rewrite E. cbn [next]. rewrite bind_Ok.
    rewrite (IH fuel d b _ rest) by (done || (simpl in Hf; lia)).
    rewrite bind_Ok. unfold name_str. cbn [map concat]. by rewrite <- !app_assoc.
Qed.

(** What the loop stores is a C string of at most [255 - len] bytes. *)
Lemma dname_str_loop_bound fuel : forall d ll len,
  bytes_ok (ll :: d) -> 0 <= len <= 253 -> 253 - len < Z.of_nat fuel ->
  dname_str_loop fuel d ll len <> OutOfFuel /\
  forall out, dname_str_loop fuel d ll len = Ok out ->
    exists s, out = s ++ [0] /\ Forall (fun c => c <> 0) s /\ zlen out + len <= 255.
Proof.
  induction fuel as [|fuel IH]; intros d ll len Hb Hlen Hf; [lia|].
  cbn [dname_str_loop].
  assert (forall s, Forall (fun c => c <> 0) s -> zlen s <= 1 ->
    (Ok (s ++ [0]) <> OutOfFuel /\ forall out, Ok (s ++ [0]) = Ok out ->
    exists s, out = s ++ [0] /\ Forall (fun c => c <> 0) s /\ zlen out + len <= 255)) as Hend.
  { intros s Hs Hl1. split; [done|]. intros out [= <-]. exists s. rewrite zlen_app.
    change (zlen [0]) with 1. repeat split; [done|lia]. }
  destruct (Z.eqb_spec ll 0); [by apply (Hend [])|].
  unfold LDNS_MAX_LABELLEN, LDNS_MAX_DOMAINLEN. inversion_clear Hb as [|? ? Hl Hd].
  unfold in_u in Hl.
  destruct (Z.ltb_spec 63 ll); [apply (Hend [35]); [repeat constructor; lia|done]|].
  destruct (Z.leb_spec (255 - 1) (len + (ll + 1))); [apply (Hend [38]); [repeat constructor; lia|done]|].
  destruct (dname_str_label (Z.to_nat ll) d) as [[s d1]| |] eqn:Es;
    [|done|by apply dname_str_label_fuel in Es].
  apply dname_str_label_inv in Es as (Hs1 & Hs2 & pre & ->). rewrite bind_Ok.
  apply Forall_app in Hd as [_ Hd]. destruct d1 as [|x d1]; [done|]. cbn [next]. rewrite bind_Ok.
  destruct (IH d1 x (len + (ll + 1))) as [IH1 IH2]; [done|lia|lia|].
  destruct (dname_str_loop fuel d1 x _) as [out| |]; [|done|done]. rewrite bind_Ok.
  split; [done|]. intros ? [= <-]. destruct (IH2 _ eq_refl) as (s' & -> & Hs' & Hz).
  exists (s ++ [46] ++ s'). rewrite <- !app_assoc. split; [done|]. split.
  - repeat (apply Forall_app; split); try done. repeat constructor; lia.
  - unfold zlen in *. rewrite !length_app in *. simpl in *. rewrite ?length_app. simpl. lia.
Qed.

(** [dname_str] is safe for the 256-byte buffer its callers provide: on any
    bytes it terminates, and what it stores is one NUL-terminated string of at
    most 255 bytes.  Names of up to 254 bytes print in full; the 255-byte ones
    are cut with an ampersand. *)
Lemma dname_str_spec p ls r :
  bytes_ok p -> name_ok ls -> ls <> [] ->
  dname_str (Some p) <> OutOfFuel /\
  (forall out, dname_str (Some p) = Ok out ->
     exists s, out = s ++ [0] /\ Forall (fun c => c <> 0) s /\ zlen out <= 255) /\
  (zlen (wire ls) <= 254 -> dname_str (Some (wire ls ++ r)) = Ok (name_str ls ++ [0])).
Proof.
  intros Hp [Hls _] Hne. unfold dname_str.
  assert (forall x d, p = x :: d -> dname_str_loop 256 d x 0 <> OutOfFuel /\
    forall out, dname_str_loop 256 d x 0 = Ok out ->
    exists s, out = s ++ [0] /\ Forall (fun c => c <> 0) s /\ zlen out + 0 <= 255) as L.
  { intros x d ->. apply dname_str_loop_bound; [done|lia|lia]. }
  split; [|split].
  - destruct p as [|x d]; [done|]. cbn [deref next]. rewrite bind_Ok. destruct (x =? 0); [done|].
    rewrite bind_Ok. by apply (L x d).
  - intros out. destruct p as [|x d]; [done|]. cbn [deref next]. rewrite bind_Ok.
    destruct (x =? 0).
    + intros [= <-]. exists [46]. split; [done|]. split; [|done]. apply Forall_singleton. lia.
    + rewrite bind_Ok. intros E. destruct (L x d eq_refl) as [_ L2].
      destruct (L2 _ E) as (s & ? & ? & ?). exists s. repeat split; [done|done|lia].
  - intros H254. destruct Hls as [|l ls Hl Hls]; [done|]. rewrite wire_cons. cbn [app deref next].
    rewrite !bind_Ok, eqb_false by (destruct Hl; lia).
    apply (dname_str_loop_spec (l :: ls) 256 _ _ 0 r); [by rewrite wire_cons|by constructor| |lia|lia].
    pose proof (wire_labels_bound (l :: ls) (Forall_cons_2 _ _ _ Hl Hls)). lia.
Qed.

Lemma dname_str_spec_witness :
  let ls := [[119; 7; 119]; [99]] in
  dname_str (Some [200; 1]) <> OutOfFuel /\
  (forall out, dname_str (Some [200; 1]) = Ok out ->
     exists s, out = s ++ [0] /\ Forall (fun c => c <> 0) s /\ zlen out <= 255) /\
  (zlen (wire ls) <= 254 -> dname_str (Some (wire ls ++ [])) = Ok (name_str ls ++ [0])).
Proof.
  intros ls. apply (dname_str_spec [200; 1] ls []).
  - repeat constructor; unfold in_u; lia.
  - split; [|done]. repeat constructor; unfold in_u, zlen; simpl; lia.
  - done.
Defined.
