(* ===== verification/Lruhash.v ===== *)
(** * The LRU hash table (util/storage/lruhash.c)

    The table at the level of its pointers: a heap of entries, each with its
    overflow link and its two LRU links, and the table with its array of bins.
    Operations run in a state monad over [outcome]; using an entry that is not
    in the heap (never allocated, or freed by [delkeyfunc]) is a [Fault].

    The callbacks are parameters: [sizefunc] and [compfunc] as functions, the
    deletion callbacks as entries of a log, [delkeyfunc] also taking the entry
    out of the heap (the entry is part of the key structure).  Locks are not
    modelled: each operation holds the table lock while it works. *)

From S2P Require Import Prelude.

Abbreviation addr := positive.
Abbreviation ptr := (option positive).

(** ** State *)

Record lruhash_entry (K D : Type) := mk_entry {
  overflow_next : ptr;
  lru_next : ptr;
  lru_prev : ptr;
  e_hash : Z;
  e_key : K;
  e_data : D;
}.
Arguments mk_entry {_ _} _ _ _ _ _ _.
Arguments overflow_next {_ _} _.
Arguments lru_next {_ _} _.
Arguments lru_prev {_ _} _.
Arguments e_hash {_ _} _.
Arguments e_key {_ _} _.
Arguments e_data {_ _} _.

Record lruhash (K : Type) := mk_lruhash {
  markdelfunc : option (K -> K);
  size : Z;
  size_mask : Z;
  array : list ptr;
  lru_start : ptr;
  lru_end : ptr;
  num : Z;
  space_used : Z;
  space_max : Z;
  max_collisions : Z;
}.
Arguments mk_lruhash {_} _ _ _ _ _ _ _ _ _ _.
Arguments markdelfunc {_} _.
Arguments size {_} _.
Arguments size_mask {_} _.
Arguments array {_} _.
Arguments lru_start {_} _.
Arguments lru_end {_} _.
Arguments num {_} _.
Arguments space_used {_} _.
Arguments space_max {_} _.
Arguments max_collisions {_} _.

(** Calls of the deletion callbacks. *)
Inductive event (K D : Type) := DelKey (k : K) | DelData (d : D).
Arguments DelKey {_ _} _.
Arguments DelData {_ _} _.

Record world (K D : Type) := mk_world {
  heap : gmap addr (lruhash_entry K D);
  table : lruhash K;
  deleted : list (event K D);
}.
Arguments mk_world {_ _} _ _ _.
Arguments heap {_ _} _.
Arguments table {_ _} _.
Arguments deleted {_ _} _.

(** ** The monad *)

Definition M (K D A : Type) : Type := world K D -> outcome (A * world K D).

#[global] Instance M_ret K D : MRet (M K D) := fun A a w => Ok (a, w).
#[global] Instance M_bind K D : MBind (M K D) := fun A B f m w =>
  match m w with
  | Ok (a, w') => f a w'
  | Fault f => Fault f
  | OutOfFuel => OutOfFuel
  end.

Section Operations.
Context {K D : Type}.
Implicit Types (t : lruhash K) (e : lruhash_entry K D) (w : world K D).

Definition fault {A} : M K D A := fun _ => Fault Undefined.
Definition out_of_fuel {A} : M K D A := fun _ => OutOfFuel.

Definition get_world : M K D (world K D) := fun w => Ok (w, w).
Definition get_table : M K D (lruhash K) := fun w => Ok (w.(table), w).
Definition set_table (f : lruhash K -> lruhash K) : M K D unit := fun w =>
  Ok (tt, mk_world w.(heap) (f w.(table)) w.(deleted)).

(** [*p] for an entry pointer. *)
Definition load (a : addr) : M K D (lruhash_entry K D) := fun w =>
  match w.(heap) !! a with Some e => Ok (e, w) | None => Fault Undefined end.
(** An assignment to a field of [*p]. *)
Definition modify (a : addr) (f : lruhash_entry K D -> lruhash_entry K D) : M K D unit := fun w =>
  match w.(heap) !! a with
  | Some e => Ok (tt, mk_world (<[a := f e]> w.(heap)) w.(table) w.(deleted))
  | None => Fault Undefined
  end.

Definition set_overflow_next (p : ptr) e :=
  mk_entry p e.(lru_next) e.(lru_prev) e.(e_hash) e.(e_key) e.(e_data).
Definition set_lru_next (p : ptr) e :=
  mk_entry e.(overflow_next) p e.(lru_prev) e.(e_hash) e.(e_key) e.(e_data).
Definition set_lru_prev (p : ptr) e :=
  mk_entry e.(overflow_next) e.(lru_next) p e.(e_hash) e.(e_key) e.(e_data).
Definition set_key (k : K) e :=
  mk_entry e.(overflow_next) e.(lru_next) e.(lru_prev) e.(e_hash) k e.(e_data).
Definition set_e_data (d : D) e :=
  mk_entry e.(overflow_next) e.(lru_next) e.(lru_prev) e.(e_hash) e.(e_key) d.

Definition with_array (a : list ptr) t :=
  mk_lruhash t.(markdelfunc) t.(size) t.(size_mask) a t.(lru_start) t.(lru_end)
    t.(num) t.(space_used) t.(space_max) t.(max_collisions).
Definition with_lru (s l : ptr) t :=
  mk_lruhash t.(markdelfunc) t.(size) t.(size_mask) t.(array) s l
    t.(num) t.(space_used) t.(space_max) t.(max_collisions).
Definition with_num (n : Z) t :=
  mk_lruhash t.(markdelfunc) t.(size) t.(size_mask) t.(array) t.(lru_start) t.(lru_end)
    n t.(space_used) t.(space_max) t.(max_collisions).
Definition with_space (s : Z) t :=
  mk_lruhash t.(markdelfunc) t.(size) t.(size_mask) t.(array) t.(lru_start) t.(lru_end)
    t.(num) s t.(space_max) t.(max_collisions).
Definition with_collisions (c : Z) t :=
  mk_lruhash t.(markdelfunc) t.(size) t.(size_mask) t.(array) t.(lru_start) t.(lru_end)
    t.(num) t.(space_used) t.(space_max) c.
Definition with_size (s m : Z) (a : list ptr) t :=
  mk_lruhash t.(markdelfunc) s m a t.(lru_start) t.(lru_end)
    t.(num) t.(space_used) t.(space_max) t.(max_collisions).

(** [array[i].overflow_list] and an assignment to it. *)
Definition bin_head (ar : list ptr) (i : Z) : M K D ptr :=
  if 0 <=? i then match ar !! Z.to_nat i with Some p => mret p | None => fault end else fault.
Definition bin_set (ar : list ptr) (i : Z) (p : ptr) : M K D (list ptr) :=
  if (0 <=? i) && (i <? zlen ar) then mret (<[Z.to_nat i := p]> ar) else fault.

(** The call of [table->delkeyfunc] frees the key and the entry in it. *)
Definition delkey (a : addr) : M K D unit := fun w =>
  match w.(heap) !! a with
  | Some e => Ok (tt, mk_world (delete a w.(heap)) w.(table) (w.(deleted) ++ [DelKey e.(e_key)]))
  | None => Fault Undefined
  end.
Definition deldata (d : D) : M K D unit := fun w =>
  Ok (tt, mk_world w.(heap) w.(table) (w.(deleted) ++ [DelData d])).
(** The call of [table->markdelfunc] on [p->key], when it is set. *)
Definition markdel (a : addr) : M K D unit :=
  t ← get_table;
  match t.(markdelfunc) with
  | Some md => e ← load a; modify a (set_key (md e.(e_key)))
  | None => mret tt
  end.

(** A chain of the heap has no more entries than the heap. *)
Definition chain_fuel w : nat := S (base.size w.(heap)).

(** ** Creation *)

(** [bin_init] of a zeroed array, the part that is not locks. *)
Definition bin_init (n : Z) : list ptr := replicate (Z.to_nat n) None.

(** [None] is NULL; the two booleans say which allocations succeed. *)
Definition lruhash_create (alloc_table alloc_array : bool) (start_size maxmem : Z)
    : option (lruhash K) :=
  if negb alloc_table then None else
  if negb alloc_array then None else
  Some (mk_lruhash None start_size (i32 (u64 (start_size - 1))) (bin_init start_size)
          None None 0 0 maxmem 0).

(** ** The LRU list *)

Definition lru_front (entry : addr) : M K D unit :=
  modify entry (set_lru_prev None);;
  t ← get_table;
  modify entry (set_lru_next t.(lru_start));;
  match t.(lru_start) with
  | None => set_table (fun t => with_lru t.(lru_start) (Some entry) t)
  | Some s => modify s (set_lru_prev (Some entry))
  end;;
  set_table (fun t => with_lru (Some entry) t.(lru_end) t).

Definition lru_remove (entry : addr) : M K D unit :=
  e ← load entry;
  match e.(lru_prev) with
  | Some p => modify p (set_lru_next e.(lru_next))
  | None => set_table (fun t => with_lru e.(lru_next) t.(lru_end) t)
  end;;
  e ← load entry;
  match e.(lru_next) with
  | Some n => modify n (set_lru_prev e.(lru_prev))
  | None => set_table (fun t => with_lru t.(lru_start) e.(lru_prev) t)
  end.

Definition lru_touch (entry : addr) : M K D unit :=
  t ← get_table;
  if decide (t.(lru_start) = Some entry) then mret tt else
  lru_remove entry;;
  lru_front entry.

Definition lru_demote (entry : addr) : M K D unit :=
  t ← get_table;
  if decide (t.(lru_end) = Some entry) then mret tt else
  lru_remove entry;;
  modify entry (set_lru_next None);;
  t ← get_table;
  modify entry (set_lru_prev t.(lru_end));;
  match t.(lru_end) with
  | None => set_table (fun t => with_lru (Some entry) t.(lru_end) t)
  | Some l => modify l (set_lru_next (Some entry))
  end;;
  set_table (fun t => with_lru t.(lru_start) (Some entry) t).

(** ** Bins *)

(** [prevp] points at the head of the bin ([inl]) or at the link of an entry. *)
Fixpoint bin_overflow_remove_loop (fuel : nat) (bin : Z) (prevp : unit + addr) (p : ptr)
    (entry : addr) : M K D unit :=
  match p with
  | None => mret tt
  | Some a =>
      match fuel with
      | O => out_of_fuel
      | S fuel' =>
          e ← load a;
          if decide (a = entry) then
            match prevp with
            | inl _ =>
                t ← get_table;
                ar ← bin_set t.(array) bin e.(overflow_next);
                set_table (with_array ar)
            | inr q => modify q (set_overflow_next e.(overflow_next))
            end
          else bin_overflow_remove_loop fuel' bin (inr a) e.(overflow_next) entry
      end
  end.

Definition bin_overflow_remove (bin : Z) (entry : addr) : M K D unit :=
  w ← get_world;
  p ← bin_head w.(table).(array) bin;
  bin_overflow_remove_loop (chain_fuel w) bin (inl tt) p entry.

(** Moving one overflow list into the new array. *)
Fixpoint bin_split_chain (fuel : nat) (newa : list ptr) (newmask : Z) (p : ptr)
    : M K D (list ptr) :=
  match p with
  | None => mret newa
  | Some a =>
      match fuel with
      | O => out_of_fuel
      | S fuel' =>
          e ← load a;
          let newbin := Z.land e.(e_hash) newmask in
          hd ← bin_head newa newbin;
          modify a (set_overflow_next hd);;
          newa ← bin_set newa newbin (Some a);
          bin_split_chain fuel' newa newmask e.(overflow_next)
      end
  end.

Fixpoint bin_split_loop (bins : list ptr) (newa : list ptr) (newmask : Z) : M K D (list ptr) :=
  match bins with
  | [] => mret newa
  | p :: bins' =>
      w ← get_world;
      newa ← bin_split_chain (chain_fuel w) newa newmask p;
      bin_split_loop bins' newa newmask
  end.

(** The loop over [i < table->size] reads the first [size] bins. *)
Definition bin_split (newa : list ptr) (newmask : Z) : M K D (list ptr) :=
  t ← get_table;
  if zlen t.(array) <? t.(size) then fault else
  bin_split_loop (ztake t.(size) t.(array)) newa newmask.

(** [alloc]: whether [calloc] of the new array succeeds.  Shifting the [int]
    mask out of its range is undefined. *)
Definition table_grow (alloc : bool) : M K D unit :=
  t ← get_table;
  if t.(size_mask) =? i32 (Z.shiftr (2 ^ 64 - 1) 1) then mret tt else
  if negb alloc then mret tt else
  let newa := bin_init (u64 (t.(size) * 2)) in
  if bool_decide (in_s 32 (Z.shiftl t.(size_mask) 1)) then
    let newmask := Z.lor (Z.shiftl t.(size_mask) 1) 1 in
    newa ← bin_split newa newmask;
    set_table (with_size (u64 (t.(size) * 2)) newmask newa)
  else fun _ => Fault Overflow.

Section Callbacks.
Context (sizefunc : K -> D -> Z) (compfunc : K -> K -> Z).

(** The entry found (or NULL) and the number of entries passed over. *)
Fixpoint bin_find_entry_loop (fuel : nat) (p : ptr) (hash : Z) (key : K) (c : Z)
    : M K D (ptr * Z) :=
  match p with
  | None => mret (None, c)
  | Some a =>
      match fuel with
      | O => out_of_fuel
      | S fuel' =>
          e ← load a;
          if (e.(e_hash) =? hash) && (compfunc e.(e_key) key =? 0) then mret (Some a, c)
          else bin_find_entry_loop fuel' e.(overflow_next) hash key (u64 (c + 1))
      end
  end.

Definition bin_find_entry (bin : Z) (hash : Z) (key : K) : M K D (ptr * Z) :=
  w ← get_world;
  p ← bin_head w.(table).(array) bin;
  bin_find_entry_loop (chain_fuel w) p hash key 0.

(** One round of [reclaim_space]: the least recently used entry leaves the
    table and is put first in [list]. *)
Definition reclaim_one (list : ptr) : M K D ptr :=
  t ← get_table;
  match t.(lru_end) with
  | None => fun _ => Fault Assertion
  | Some d =>
      e ← load d;
      match e.(lru_prev) with
      | None => fun _ => Fault Assertion
      | Some p =>
          set_table (fun t => with_lru t.(lru_start) (Some p) t);;
          modify p (set_lru_next None);;
          let bin := Z.land e.(e_hash) t.(size_mask) in
          set_table (fun t => with_num (u64 (t.(num) - 1)) t);;
          bin_overflow_remove bin d;;
          modify d (set_overflow_next list);;
          e ← load d;
          set_table (fun t =>
            with_space (u64 (t.(space_used) - sizefunc e.(e_key) e.(e_data))) t);;
          markdel d;;
          mret (Some d)
      end
  end.

(** Takes and returns the list of entries scheduled for deletion. *)
Fixpoint reclaim_space_loop (fuel : nat) (list : ptr) : M K D ptr :=
  t ← get_table;
  if (1 <? t.(num)) && (t.(space_max) <? t.(space_used)) then
    match fuel with
    | O => out_of_fuel
    | S fuel' =>
        list ← reclaim_one list;
        reclaim_space_loop fuel' list
    end
  else mret list.

Definition reclaim_space (list : ptr) : M K D ptr :=
  t ← get_table;
  reclaim_space_loop (Z.to_nat t.(num)) list.

(** Freeing what was scheduled, outside of the critical region. *)
Fixpoint finish_reclaim_loop (fuel : nat) (reclaimlist : ptr) : M K D unit :=
  match reclaimlist with
  | None => mret tt
  | Some a =>
      match fuel with
      | O => out_of_fuel
      | S fuel' =>
          e ← load a;
          let n := e.(overflow_next) in
          let d := e.(e_data) in
          delkey a;;
          deldata d;;
          finish_reclaim_loop fuel' n
      end
  end.

Definition finish_reclaim (reclaimlist : ptr) : M K D unit :=
  w ← get_world;
  finish_reclaim_loop (chain_fuel w) reclaimlist.

(** ** The interface *)

(** [entry] is put first in its bin and first in the LRU list. *)
Definition add_entry (bin : Z) (entry : addr) (need_size collisions : Z) : M K D unit :=
  t ← get_table;
  hd ← bin_head t.(array) bin;
  modify entry (set_overflow_next hd);;
  ar ← bin_set t.(array) bin (Some entry);
  set_table (with_array ar);;
  lru_front entry;;
  set_table (fun t => with_num (u64 (t.(num) + 1)) t);;
  t ← get_table;
  (if t.(max_collisions) <? collisions then set_table (with_collisions collisions)
   else mret tt);;
  set_table (fun t => with_space (u64 (t.(space_used) + need_size)) t).

(** The end of both insertions: reclaim, grow, free. *)
Definition finish_insert (alloc : bool) : M K D unit :=
  t ← get_table;
  reclaimlist ← (if t.(space_max) <? t.(space_used) then reclaim_space None else mret None);
  t ← get_table;
  (if t.(size) <=? t.(num) then table_grow alloc else mret tt);;
  finish_reclaim reclaimlist.

Definition lruhash_insert (alloc : bool) (hash : Z) (entry : addr) (data : D) : M K D unit :=
  e ← load entry;
  let need_size := sizefunc e.(e_key) data in
  t ← get_table;
  let bin := Z.land hash t.(size_mask) in
  '(found, collisions) ← bin_find_entry bin hash e.(e_key);
  match found with
  | None => add_entry bin entry need_size collisions
  | Some f =>
      fe ← load f;
      set_table (fun t =>
        with_space (u64 (t.(space_used) + (need_size - sizefunc fe.(e_key) fe.(e_data)))) t);;
      delkey entry;;
      lru_touch f;;
      fe ← load f;
      deldata fe.(e_data);;
      modify f (set_e_data data)
  end;;
  finish_insert alloc.

Definition lruhash_lookup (hash : Z) (key : K) : M K D ptr :=
  t ← get_table;
  let bin := Z.land hash t.(size_mask) in
  '(entry, _) ← bin_find_entry bin hash key;
  match entry with
  | Some a => lru_touch a;; mret (Some a)
  | None => mret None
  end.

Definition lruhash_remove (hash : Z) (key : K) : M K D unit :=
  t ← get_table;
  let bin := Z.land hash t.(size_mask) in
  '(entry, _) ← bin_find_entry bin hash key;
  match entry with
  | None => mret tt
  | Some a =>
      bin_overflow_remove bin a;;
      lru_remove a;;
      set_table (fun t => with_num (u64 (t.(num) - 1)) t);;
      e ← load a;
      set_table (fun t =>
        with_space (u64 (t.(space_used) - sizefunc e.(e_key) e.(e_data))) t);;
      markdel a;;
      e ← load a;
      let d := e.(e_data) in
      delkey a;;
      deldata d
  end.

Definition lruhash_insert_or_retrieve (alloc : bool) (hash : Z) (entry : addr) (data : D)
    : M K D addr :=
  e ← load entry;
  let need_size := sizefunc e.(e_key) data in
  t ← get_table;
  let bin := Z.land hash t.(size_mask) in
  '(found, collisions) ← bin_find_entry bin hash e.(e_key);
  found ← match found with
          | Some f => mret f
          | None => add_entry bin entry need_size collisions;; mret entry
          end;
  finish_insert alloc;;
  mret found.

(** [(int)table->space_used + diff_size] is an addition of two [int]s. *)
Definition lruhash_update_space_used (diff_size : Z) : M K D unit :=
  t ← get_table;
  let sum := i32 t.(space_used) + diff_size in
  if bool_decide (in_s 32 sum) then
    set_table (with_space (if sum <? 0 then 0 else sum));;
    t ← get_table;
    reclaimlist ← (if t.(space_max) <? t.(space_used) then reclaim_space None else mret None);
    finish_reclaim reclaimlist
  else fun _ => Fault Overflow.
End Callbacks.

(** ** The whole table *)

(** [bin_delete] and [bin_clear]: [mark] says whether [markdelfunc] is called. *)
Fixpoint free_chain (fuel : nat) (mark : bool) (p : ptr) : M K D unit :=
  match p with
  | None => mret tt
  | Some a =>
      match fuel with
      | O => out_of_fuel
      | S fuel' =>
          e ← load a;
          let np := e.(overflow_next) in
          let d := e.(e_data) in
          (if mark then markdel a else mret tt);;
          delkey a;;
          deldata d;;
          free_chain fuel' mark np
      end
  end.

Definition bin_clear (bin : Z) : M K D unit :=
  w ← get_world;
  p ← bin_head w.(table).(array) bin;
  free_chain (chain_fuel w) true p;;
  t ← get_table;
  ar ← bin_set t.(array) bin None;
  set_table (with_array ar).

Definition bin_delete (bin : Z) : M K D unit :=
  w ← get_world;
  p ← bin_head w.(table).(array) bin;
  ar ← bin_set w.(table).(array) bin None;
  set_table (with_array ar);;
  free_chain (chain_fuel w) false p.

Fixpoint for_bins (n : nat) (i : Z) (body : Z -> M K D unit) : M K D unit :=
  match n with
  | O => mret tt
  | S n' => body i;; for_bins n' (i + 1) body
  end.

Definition lruhash_clear : M K D unit :=
  t ← get_table;
  for_bins (Z.to_nat t.(size)) 0 bin_clear;;
  set_table (with_lru None None);;
  set_table (with_num 0);;
  set_table (with_space 0).

(** The table itself is freed after the loop. *)
Definition lruhash_delete : M K D unit :=
  t ← get_table;
  for_bins (Z.to_nat t.(size)) 0 bin_delete.

(** [sizeof] of the table and of a bin with its lock are parameters. *)
Definition lruhash_get_mem (sizeof_table sizeof_bin sizeof_lock : Z) : M K D Z :=
  t ← get_table;
  let s := sizeof_table + t.(space_used) in
  let s := if negb (t.(size) =? 0) then s + t.(size) * (sizeof_bin + sizeof_lock) else s in
  mret (u64 (s + sizeof_lock)).

Definition lruhash_setmarkdel (md : option (K -> K)) : M K D unit :=
  set_table (fun t => mk_lruhash md t.(size) t.(size_mask) t.(array) t.(lru_start) t.(lru_end)
    t.(num) t.(space_used) t.(space_max) t.(max_collisions)).

Fixpoint traverse_chain (fuel : nat) (func : addr -> M K D unit) (p : ptr) : M K D unit :=
  match p with
  | None => mret tt
  | Some a =>
      match fuel with
      | O => out_of_fuel
      | S fuel' =>
          func a;;
          e ← load a;
          traverse_chain fuel' func e.(overflow_next)
      end
  end.

Definition lruhash_traverse (func : addr -> M K D unit) : M K D unit :=
  t ← get_table;
  for_bins (Z.to_nat t.(size)) 0 (fun i =>
    w ← get_world;
    p ← bin_head w.(table).(array) i;
    traverse_chain (chain_fuel w) func p).
End Operations.
