(* ===== verification/LruhashLinks.v ===== *)
(** * The links of the LRU hash table

    What the overflow chains and the doubly linked LRU list of a heap represent,
    and what each routine of [Lruhash] that changes links does to them.  Every
    routine is framed: it leaves the other kind of links and the payload of all
    entries alone. *)

From S2P Require Import Prelude Lruhash.

(** ** Running the monad *)

Section Monad.
Context {K D : Type}.
Implicit Types (w : world K D).

Lemma mbind_ok {A B} (m : M K D A) (f : A -> M K D B) w a w' :
  m w = Ok (a, w') -> (m ≫= f) w = f a w'.
Proof. unfold mbind, M_bind. by intros ->. Qed.

Lemma mbind_inv {A B} (m : M K D A) (f : A -> M K D B) w b w' :
  (m ≫= f) w = Ok (b, w') -> exists a w1, m w = Ok (a, w1) /\ f a w1 = Ok (b, w').
Proof. unfold mbind, M_bind. destruct (m w) as [[a w1]| |]; [eauto|done|done]. Qed.

Lemma run_ret {A B} (a : A) (f : A -> M K D B) w : (mret a ≫= f) w = f a w.
Proof. done. Qed.

Lemma run_table {B} (f : lruhash K -> M K D B) w : (get_table ≫= f) w = f w.(table) w.
Proof. done. Qed.

Lemma run_world {B} (f : world K D -> M K D B) w : (get_world ≫= f) w = f w w.
Proof. done. Qed.

Lemma run_set {B} g (f : unit -> M K D B) w :
  (set_table g ≫= f) w = f tt (mk_world w.(heap) (g w.(table)) w.(deleted)).
Proof. done. Qed.

Lemma run_load {B} a e (f : lruhash_entry K D -> M K D B) w :
  w.(heap) !! a = Some e -> (load a ≫= f) w = f e w.
Proof. intros H. apply mbind_ok. unfold load. by rewrite H. Qed.

Lemma modify_ok a g e w :
  w.(heap) !! a = Some e ->
  modify a g w = Ok (tt, mk_world (<[a := g e]> w.(heap)) w.(table) w.(deleted)).
Proof. intros H. unfold modify. by rewrite H. Qed.

Lemma run_modify {B} a g e (f : unit -> M K D B) w :
  w.(heap) !! a = Some e ->
  (modify a g ≫= f) w = f tt (mk_world (<[a := g e]> w.(heap)) w.(table) w.(deleted)).
Proof. intros H. apply mbind_ok. by apply modify_ok. Qed.

Lemma run_bin_head {B} ar i p (f : ptr -> M K D B) w :
  0 <= i -> ar !! Z.to_nat i = Some p -> (bin_head ar i ≫= f) w = f p w.
Proof. intros Hi H. apply mbind_ok. unfold bin_head. by rewrite leb_true, H by lia. Qed.

Lemma run_bin_set {B} ar i p (f : list ptr -> M K D B) w :
  0 <= i < zlen ar -> (bin_set ar i p ≫= f) w = f (<[Z.to_nat i := p]> ar) w.
Proof. intros Hi. apply mbind_ok. unfold bin_set. by rewrite leb_true, ltb_true by lia. Qed.
End Monad.

Section Links.
Context {K D : Type}.
Implicit Types (h : gmap addr (lruhash_entry K D)) (w : world K D) (l : list addr).

(** ** Frames *)

(** Everything of an entry but its LRU links, and but its overflow link. *)
Definition off_lru (e : lruhash_entry K D) := (e.(overflow_next), e.(e_hash), e.(e_key), e.(e_data)).
Definition off_overflow (e : lruhash_entry K D) :=
  (e.(lru_next), e.(lru_prev), e.(e_hash), e.(e_key), e.(e_data)).

Definition frame {T} (v : lruhash_entry K D -> T) h h' : Prop :=
  forall a, v <$> h' !! a = v <$> h !! a.

#[export] Instance frame_preorder {T} (v : lruhash_entry K D -> T) : PreOrder (frame v).
Proof. split; [done|]. intros h1 h2 h3 H1 H2 a. by rewrite H2, H1. Qed.

Lemma frame_insert {T} (v : lruhash_entry K D -> T) h a e e' :
  h !! a = Some e -> v e' = v e -> frame v h (<[a := e']> h).
Proof.
  intros Ha Hv b. destruct (decide (a = b)) as [->|Hne].
  - rewrite lookup_insert_eq, Ha. simpl. by rewrite Hv.
  - by rewrite lookup_insert_ne.
Qed.

Lemma frame_lookup {T} (v : lruhash_entry K D -> T) h h' a e :
  frame v h h' -> h !! a = Some e -> exists e', h' !! a = Some e' /\ v e' = v e.
Proof.
  intros F Ha. specialize (F a). rewrite Ha in F. simpl in F.
  destruct (h' !! a) as [e'|]; [|done]. exists e'. split; [done|]. by injection F.
Qed.

Lemma frame_dom {T} (v : lruhash_entry K D -> T) h h' : frame v h h' -> dom h' = dom h.
Proof.
  intros F. apply set_eq. intros a. rewrite !elem_of_dom. specialize (F a).
  destruct (h' !! a), (h !! a); done.
Qed.

(** ** Overflow chains *)

Fixpoint chain h (p : ptr) l : Prop :=
  match l with
  | [] => p = None
  | a :: l' => p = Some a /\ exists e, h !! a = Some e /\ chain h e.(overflow_next) l'
  end.

Lemma chain_ext h h' p l :
  (forall a, a ∈ l -> overflow_next <$> h' !! a = overflow_next <$> h !! a) ->
  chain h p l -> chain h' p l.
Proof.
  revert p. induction l as [|a l IH]; intros p F; simpl; [done|].
  intros (-> & e & He & Hc). split; [done|].
  pose proof (F a ltac:(set_solver)) as Fa. rewrite He in Fa. simpl in Fa.
  destruct (h' !! a) as [e'|]; [|done]. exists e'. split; [done|].
  injection Fa as ->. apply IH; [|done]. intros b Hb. apply F. set_solver.
Qed.

Lemma chain_frame h h' p l : frame off_lru h h' -> chain h p l -> chain h' p l.
Proof.
  intros F. apply chain_ext. intros a _. specialize (F a).
  destruct (h' !! a), (h !! a); try done. simpl in *. unfold off_lru in F. congruence.
Qed.

Lemma chain_insert h p l a e : a ∉ l -> chain h p l -> chain (<[a := e]> h) p l.
Proof.
  intros Ha. apply chain_ext. intros b Hb. rewrite lookup_insert_ne; [done|]. set_solver.
Qed.

Lemma chain_delete h p l a : a ∉ l -> chain h p l -> chain (delete a h) p l.
Proof.
  intros Ha. apply chain_ext. intros b Hb. rewrite lookup_delete_ne; [done|]. set_solver.
Qed.

Lemma chain_elem h p l a : chain h p l -> a ∈ l -> exists e, h !! a = Some e.
Proof.
  revert p. induction l as [|b l IH]; intros p; simpl; [set_solver|].
  intros (-> & e & He & Hc) [->|Hl]%elem_of_cons; [by exists e|by eapply IH].
Qed.

Lemma chain_app h p l1 a l2 : chain h p (l1 ++ a :: l2) ->
  exists e, h !! a = Some e /\ chain h e.(overflow_next) l2.
Proof.
  revert p. induction l1 as [|b l1 IH]; intros p; simpl.
  - intros (_ & e & He & Hc). eauto.
  - intros (_ & e & He & Hc). eauto.
Qed.

(** The entry after [q] is unlinked. *)
Lemma chain_unlink h p l1 q eq a ea l2 :
  NoDup (l1 ++ q :: a :: l2) -> chain h p (l1 ++ q :: a :: l2) ->
  h !! q = Some eq -> h !! a = Some ea ->
  chain (<[q := set_overflow_next ea.(overflow_next) eq]> h) p (l1 ++ q :: l2).
Proof.
  revert p. induction l1 as [|b l1 IH]; intros p N C Hq Ha; cbn [app chain] in *.
  - destruct C as (-> & e & He & _ & e' & He' & C). simplify_eq.
    split; [done|]. eexists. rewrite lookup_insert_eq. split; [done|]. simpl.
    apply chain_insert; [|done]. inversion_clear N. set_solver.
  - destruct C as (-> & e & He & C). inversion_clear N as [|? ? Nb N'].
    split; [done|]. exists e. rewrite lookup_insert_ne by set_solver. split; [done|]. by apply IH.
Qed.

(** A chain without repetitions is no longer than the heap: its fuel is enough. *)
Lemma chain_fuel_enough w p l : chain w.(heap) p l -> NoDup l -> (length l < chain_fuel w)%nat.
Proof.
  intros C N. unfold chain_fuel. apply Nat.lt_succ_r.
  rewrite <- (size_list_to_set (C := gset addr)) by done. rewrite <- size_dom.
  apply subseteq_size. intros a Ha%elem_of_list_to_set.
  apply elem_of_dom. by eapply chain_elem in C as [? ->].
Qed.

(** ** The doubly linked list *)

Fixpoint dll h (prev : ptr) l (nxt : ptr) : Prop :=
  match l with
  | [] => True
  | a :: l' =>
      (exists e, h !! a = Some e /\ e.(lru_prev) = prev /\ e.(lru_next) = hd_or l' nxt)
      /\ dll h (Some a) l' nxt
  end.

Lemma dll_app h prev l1 l2 nxt :
  dll h prev (l1 ++ l2) nxt <->
  dll h prev l1 (hd_or l2 nxt) /\ dll h (last_or l1 prev) l2 nxt.
Proof.
  revert prev. induction l1 as [|a l1 IH]; intros prev; cbn [app dll]; [tauto|].
  rewrite IH, last_or_cons, hd_or_app. tauto.
Qed.

Lemma dll_ext h h' prev l nxt :
  (forall a, a ∈ l -> (fun e => (lru_next e, lru_prev e)) <$> h' !! a
                     = (fun e => (lru_next e, lru_prev e)) <$> h !! a) ->
  dll h prev l nxt -> dll h' prev l nxt.
Proof.
  revert prev. induction l as [|a l IH]; intros prev F; simpl; [done|].
  intros ((e & He & Hp & Hn) & Hd). split.
  - pose proof (F a ltac:(set_solver)) as Fa. rewrite He in Fa. simpl in Fa.
    destruct (h' !! a) as [e'|]; [|done]. exists e'. injection Fa as -> ->. done.
  - apply IH; [|done]. intros b Hb. apply F. set_solver.
Qed.

Lemma dll_frame h h' prev l nxt : frame off_overflow h h' -> dll h prev l nxt -> dll h' prev l nxt.
Proof.
  intros F. apply dll_ext. intros a _. specialize (F a).
  destruct (h' !! a), (h !! a); try done. simpl in *. unfold off_overflow in F. congruence.
Qed.

Lemma dll_insert h prev l nxt a e : a ∉ l -> dll h prev l nxt -> dll (<[a := e]> h) prev l nxt.
Proof.
  intros Ha. apply dll_ext. intros b Hb. rewrite lookup_insert_ne; [done|]. set_solver.
Qed.

Lemma dll_delete h prev l nxt a : a ∉ l -> dll h prev l nxt -> dll (delete a h) prev l nxt.
Proof.
  intros Ha. apply dll_ext. intros b Hb. rewrite lookup_delete_ne; [done|]. set_solver.
Qed.

Lemma dll_elem h prev l nxt a : dll h prev l nxt -> a ∈ l -> exists e, h !! a = Some e.
Proof.
  revert prev. induction l as [|b l IH]; intros prev; simpl; [set_solver|].
  intros ((e & He & _) & Hd) [->|Hl]%elem_of_cons; [by exists e|by eapply IH].
Qed.

(** Redirecting the link out of either end of a segment. *)
Lemma dll_set_next h prev l b e nxt nxt' :
  b ∉ l -> dll h prev (l ++ [b]) nxt -> h !! b = Some e ->
  dll (<[b := set_lru_next nxt' e]> h) prev (l ++ [b]) nxt'.
Proof.
  intros Hb. rewrite !dll_app. cbn [dll hd_or]. intros (H1 & (e' & He & Hp & Hn) & _) Hb'.
  simplify_eq. split; [by apply dll_insert|]. split; [|done].
  eexists. rewrite lookup_insert_eq. done.
Qed.

Lemma dll_set_prev h prev prev' b e l nxt :
  b ∉ l -> dll h prev (b :: l) nxt -> h !! b = Some e ->
  dll (<[b := set_lru_prev prev' e]> h) prev' (b :: l) nxt.
Proof.
  intros Hb. cbn [dll]. intros ((e' & He & Hp & Hn) & H) Hb'. simplify_eq.
  split; [|by apply dll_insert]. eexists. rewrite lookup_insert_eq. done.
Qed.

(** The LRU list of the table is [l], from most to least recently used. *)
Record lru_rep h (s t : ptr) l : Prop := {
  lr_dll : dll h None l None;
  lr_start : s = hd_or l None;
  lr_end : t = last_or l None;
  lr_nodup : NoDup l;
}.

Lemma lru_rep_frame h h' s t l : frame off_overflow h h' -> lru_rep h s t l -> lru_rep h' s t l.
Proof. intros F []. split; try done. by eapply dll_frame. Qed.

(** ** The LRU routines *)

Lemma off_lru_next p e : off_lru (set_lru_next p e) = off_lru e.
Proof. done. Qed.
Lemma off_lru_prev p e : off_lru (set_lru_prev p e) = off_lru e.
Proof. done. Qed.

(** The result of a routine that only changes LRU links. *)
Definition lru_result w (r : outcome (unit * world K D)) l' : Prop :=
  exists h' s t, r = Ok (tt, mk_world h' (with_lru s t w.(table)) w.(deleted)) /\
    frame off_lru w.(heap) h' /\ lru_rep h' s t l'.

Lemma lru_front_spec w l a :
  lru_rep w.(heap) w.(table).(lru_start) w.(table).(lru_end) l -> a ∉ l ->
  is_Some (w.(heap) !! a) ->
  lru_result w (lru_front a w) (a :: l).
Proof.
  intros [Hd Hs Ht Hn] Ha [e He]. unfold lru_front.
  erewrite run_modify, run_table by done. erewrite run_modify by (cbn [heap]; by rewrite lookup_insert_eq).
  cbn [heap table deleted]. rewrite insert_insert_eq, Hs.
  set (e1 := set_lru_next _ _).
  assert (frame off_lru (heap w) (<[a := e1]> (heap w))) as F by (by eapply frame_insert).
  destruct l as [|s l]; cbn [hd_or].
  - do 3 eexists. split; [reflexivity|]. split; [done|].
    split; [|done|done|apply NoDup_singleton].
    cbn [dll heap]. split; [|done]. exists e1. by rewrite lookup_insert_eq.
  - apply not_elem_of_cons in Ha as [Has Hal]. apply NoDup_cons in Hn as [Hsl Hn].
    destruct (dll_elem _ _ _ _ s Hd) as [es Hes]; [set_solver|].
    erewrite run_modify by (cbn [heap]; by rewrite lookup_insert_ne).
    do 3 eexists. split; [reflexivity|]. cbn [heap table]. split.
    + etrans; [exact F|]. eapply frame_insert; [by rewrite lookup_insert_ne|done].
    + split; [|done|rewrite Ht; by rewrite !last_or_cons|].
      2:{ repeat (apply NoDup_cons; split); [set_solver|set_solver|done]. }
      cbn [dll]. split.
      * exists e1. rewrite lookup_insert_ne, lookup_insert_eq by done. done.
      * apply (dll_set_prev _ None); [done| |by rewrite lookup_insert_ne].
        apply dll_insert; [set_solver|done].
Qed.

(** Unlinking one side at a time: the entry before [a] skips it. *)
Lemma unlink_prev w l1 a l2 e :
  NoDup (l1 ++ a :: l2) -> dll w.(heap) None (l1 ++ a :: l2) None -> w.(heap) !! a = Some e ->
  exists h',
    match e.(lru_prev) with
    | Some p => modify p (set_lru_next e.(lru_next))
    | None => set_table (fun t => with_lru e.(lru_next) t.(lru_end) t)
    end w
    = Ok (tt, mk_world h' (with_lru (match l1 with [] => hd_or l2 None | _ => w.(table).(lru_start) end)
                             w.(table).(lru_end) w.(table)) w.(deleted)) /\
    frame off_lru w.(heap) h' /\ h' !! a = Some e /\
    dll h' None l1 (hd_or l2 None) /\ dll h' (Some a) l2 None.
Proof.
  intros N Hd He. rewrite dll_app in Hd. destruct Hd as [H1 H2]. cbn [hd_or dll] in H1, H2.
  destruct H2 as ((e' & He' & Hp & Hn) & H2). simplify_eq.
  apply NoDup_app in N as (N1 & N12 & N2). apply NoDup_cons in N2 as [Na2 N2].
  destruct l1 as [|p l1 _] using rev_ind.
  - rewrite Hp, Hn. exists (heap w). cbn [last_or last]. done.
  - rewrite Hp, Hn, last_or_snoc.
    destruct (dll_elem _ _ _ _ p H1) as [ep Hep]; [set_solver|].
    assert (p <> a) by (intros ->; apply (N12 a); set_solver).
    apply NoDup_app in N1 as (N1 & N1p & _).
    rewrite (modify_ok _ _ ep) by done.
    exists (<[p := set_lru_next (hd_or l2 None) ep]> (heap w)). split.
    + do 2 f_equal. destruct w as [h t d]. destruct t. by destruct l1.
    + split; [by eapply frame_insert|]. split; [by rewrite lookup_insert_ne|]. split.
      * eapply dll_set_next; [|done|done]. intros Hin. apply (N1p p); [done|set_solver].
      * apply dll_insert; [|done]. intros Hin. apply (N12 p); set_solver.
Qed.

(** The entry after [a] points back over it. *)
Lemma unlink_next w l1 a l2 e :
  NoDup (l1 ++ a :: l2) -> w.(heap) !! a = Some e ->
  e.(lru_prev) = last_or l1 None -> e.(lru_next) = hd_or l2 None ->
  dll w.(heap) None l1 (hd_or l2 None) -> dll w.(heap) (Some a) l2 None ->
  exists h',
    match e.(lru_next) with
    | Some n => modify n (set_lru_prev e.(lru_prev))
    | None => set_table (fun t => with_lru t.(lru_start) e.(lru_prev) t)
    end w
    = Ok (tt, mk_world h' (with_lru w.(table).(lru_start)
                             (match l2 with [] => last_or l1 None | _ => w.(table).(lru_end) end) w.(table))
                       w.(deleted)) /\
    frame off_lru w.(heap) h' /\ dll h' None (l1 ++ l2) None.
Proof.
  intros N He Hp Hn H1 H2. rewrite Hp, Hn.
  apply NoDup_app in N as (N1 & N12 & N2). apply NoDup_cons in N2 as [Na2 N2].
  destruct l2 as [|n l2]; cbn [hd_or].
  - exists (heap w). split; [done|]. split; [done|]. by rewrite app_nil_r.
  - destruct (dll_elem _ _ _ _ n H2) as [en Hen]; [set_solver|].
    rewrite (modify_ok _ _ en) by done. eexists. split; [|split].
    + do 2 f_equal. by destruct w as [h [] d].
    + by eapply frame_insert.
    + rewrite dll_app. cbn [hd_or]. apply NoDup_cons in N2 as [Nn2 _]. split.
      * apply dll_insert; [|done]. intros Hin. apply (N12 n); set_solver.
      * by eapply dll_set_prev.
Qed.

Lemma lru_remove_spec w l1 a l2 :
  lru_rep w.(heap) w.(table).(lru_start) w.(table).(lru_end) (l1 ++ a :: l2) ->
  lru_result w (lru_remove a w) (l1 ++ l2).
Proof.
  intros [Hd Hs Ht Hn]. unfold lru_remove, lru_result.
  destruct (dll_elem _ _ _ _ a Hd) as [e He]; [set_solver|].
  assert (e.(lru_prev) = last_or l1 None /\ e.(lru_next) = hd_or l2 None) as [Ep En].
  { rewrite dll_app in Hd. destruct Hd as [_ ((e' & He' & ? & ?) & _)]. by simplify_eq. }
  rewrite (run_load _ e) by done.
  destruct (unlink_prev w l1 a l2 e Hn Hd He) as (h1 & E1 & F1 & He1 & D1 & D2).
  rewrite (mbind_ok _ _ _ _ _ E1). rewrite (run_load _ e) by done.
  destruct (unlink_next (mk_world h1 (with_lru (match l1 with [] => hd_or l2 None | _ => lru_start (table w) end)
                             (lru_end (table w)) (table w)) (deleted w)) l1 a l2 e)
    as (h2 & E2 & F2 & D3); try done.
  cbn [heap table deleted] in *. rewrite E2. do 3 eexists. split; [reflexivity|].
  split; [by etrans|]. split; [done| | |].
  - cbn [with_lru lru_start]. rewrite Hs. by destruct l1.
  - cbn [with_lru lru_end]. rewrite Ht. destruct l2 as [|n l2 _] using rev_ind.
    + by rewrite app_nil_r.
    + rewrite app_comm_cons, !app_assoc, !last_or_snoc. by destruct l2.
  - apply NoDup_app in Hn as (N1 & N12 & N2). apply NoDup_cons in N2 as [Na2 N2].
    apply NoDup_app. split; [done|]. split; [|done]. intros x Hx Hx2. apply (N12 x Hx). set_solver.
Qed.

Lemma lru_result_trans w h1 s1 t1 r l' :
  frame off_lru w.(heap) h1 ->
  lru_result (mk_world h1 (with_lru s1 t1 w.(table)) w.(deleted)) r l' ->
  lru_result w r l'.
Proof.
  intros F (h2 & s & t & -> & F2 & R). do 3 eexists. split; [reflexivity|].
  split; [by etrans|done].
Qed.

Lemma lru_touch_spec w l1 a l2 :
  lru_rep w.(heap) w.(table).(lru_start) w.(table).(lru_end) (l1 ++ a :: l2) ->
  lru_result w (lru_touch a w) (a :: l1 ++ l2).
Proof.
  intros R. unfold lru_touch. rewrite run_table.
  destruct (dll_elem _ _ _ _ a (lr_dll _ _ _ _ R)) as [e He]; [set_solver|].
  pose proof (lr_nodup _ _ _ _ R) as N.
  apply NoDup_app in N as (N1 & N12 & N2). apply NoDup_cons in N2 as [Na2 N2].
  destruct (decide _) as [E|E].
  - destruct l1 as [|b l1].
    + exists (heap w), (lru_start (table w)), (lru_end (table w)).
      split; [by destruct w as [h [] d]|done].
    + rewrite (lr_start _ _ _ _ R) in E. cbn in E. injection E as ->.
      exfalso. apply (N12 a); set_solver.
  - destruct (lru_remove_spec _ _ _ _ R) as (h1 & s & t & E1 & F1 & R1).
    rewrite (mbind_ok _ _ _ _ _ E1). apply (lru_result_trans w h1 s t); [done|].
    apply lru_front_spec; [done| |].
    + intros [Hin|Hin]%elem_of_app; [|done]. apply (N12 a); set_solver.
    + cbn [heap]. destruct (frame_lookup _ _ _ _ _ F1 He) as (e' & -> & _). done.
Qed.

(** [lru_demote] moves the entry to the other end. *)
Lemma lru_demote_spec w l1 a l2 :
  lru_rep w.(heap) w.(table).(lru_start) w.(table).(lru_end) (l1 ++ a :: l2) ->
  lru_result w (lru_demote a w) (l1 ++ l2 ++ [a]).
Proof.
  intros R. unfold lru_demote. rewrite run_table.
  destruct (dll_elem _ _ _ _ a (lr_dll _ _ _ _ R)) as [e He]; [set_solver|].
  pose proof (lr_nodup _ _ _ _ R) as N.
  apply NoDup_app in N as (N1 & N12 & N2). apply NoDup_cons in N2 as [Na2 N2].
  destruct (decide _) as [E|E].
  { destruct l2 as [|b l2 _] using rev_ind.
    - exists (heap w), (lru_start (table w)), (lru_end (table w)).
      split; [by destruct w as [h [] d]|done].
    - rewrite (lr_end _ _ _ _ R), app_comm_cons, app_assoc, last_or_snoc in E.
      injection E as ->. exfalso. set_solver. }
  destruct (lru_remove_spec _ _ _ _ R) as (h1 & s & t & E1 & F1 & R1).
  rewrite (mbind_ok _ _ _ _ _ E1). apply (lru_result_trans w h1 s t); [done|].
  assert (a ∉ l1 ++ l2) as Ha.
  { intros [Hin|Hin]%elem_of_app; [|done]. apply (N12 a); set_solver. }
  destruct (frame_lookup _ _ _ _ _ F1 He) as (e1 & He1 & _). clear E1 F1 R E He e.
  rewrite app_assoc. destruct R1 as [Hd Hs Ht Hn]. revert Hd Hs Ht Hn Ha.
  generalize (l1 ++ l2). clear l1 l2 N1 N12 Na2 N2. intros l Hd -> -> Hn Ha.
  erewrite run_modify, run_table by done. erewrite run_modify by (cbn [heap]; by rewrite lookup_insert_eq).
  cbn [heap table deleted with_lru lru_end lru_start]. rewrite insert_insert_eq.
  set (e2 := set_lru_prev _ _).
  assert (frame off_lru h1 (<[a := e2]> h1)) as F by (by eapply frame_insert).
  destruct l as [|b l _] using rev_ind.
  - do 3 eexists. split; [reflexivity|]. split; [done|]. split; [|done|done|apply NoDup_singleton].
    cbn [app dll heap]. split; [|done]. exists e2. by rewrite lookup_insert_eq.
  - rewrite last_or_snoc. destruct (dll_elem _ _ _ _ b Hd) as [eb Heb]; [set_solver|].
    assert (a <> b) by set_solver.
    erewrite run_modify by (cbn [heap]; by rewrite lookup_insert_ne).
    do 3 eexists. split; [reflexivity|]. cbn [heap table]. split.
    + etrans; [exact F|]. eapply frame_insert; [by rewrite lookup_insert_ne|done].
    + split; [| |by rewrite last_or_snoc|].
      * rewrite dll_app. cbn [hd_or dll]. split.
        -- apply (dll_set_next _ _ _ _ _ None); [|apply dll_insert; [done|done]|by rewrite lookup_insert_ne].
           apply NoDup_app in Hn as (_ & Hn & _). intros Hin. apply (Hn b); set_solver.
        -- split; [|done]. exists e2. rewrite lookup_insert_ne, lookup_insert_eq by done.
           unfold e2. cbn [set_lru_prev set_lru_next lru_prev lru_next]. by rewrite !last_or_snoc.
      * cbn [with_lru lru_start]. by destruct l.
      * apply NoDup_app. split; [done|]. split; [|apply NoDup_singleton]. set_solver.
Qed.

(** ** The bins *)

(** The bins of the array hold the entries [bins], each in the bin its hash says. *)
Record bins_rep h (mask : Z) (ar : list ptr) (bins : list (list addr)) : Prop := {
  br_chains : Forall2 (chain h) ar bins;
  br_nodup : NoDup (concat bins);
  br_placed : forall i l a e, bins !! i = Some l -> a ∈ l -> h !! a = Some e ->
    Z.land e.(e_hash) mask = Z.of_nat i;
}.

(** Replacing one bin. *)
Lemma concat_insert {A} (bins : list (list A)) (i : nat) (l : list A) :
  bins !! i = Some l -> exists rest, concat bins ≡ₚ l ++ rest /\
    forall l' : list A, concat (<[i := l']> bins) ≡ₚ l' ++ rest.
Proof.
  intros H. exists (concat (take i bins) ++ concat (drop (S i) bins)). split.
  - rewrite <- (take_drop_middle bins i l H) at 1. rewrite concat_app. simpl.
    rewrite !app_assoc. f_equiv. apply Permutation_app_comm.
  - intros l'. rewrite insert_take_drop by (by apply lookup_lt_Some in H).
    rewrite concat_app. simpl. rewrite !app_assoc. f_equiv. apply Permutation_app_comm.
Qed.

Lemma elem_of_concat {A} (bins : list (list A)) x :
  x ∈ concat bins <-> exists (i : nat) (l : list A), bins !! i = Some l /\ x ∈ l.
Proof.
  rewrite list_elem_of_In, in_concat. split.
  - intros (l & Hl & Hx). apply list_elem_of_In in Hl, Hx.
    apply list_elem_of_lookup in Hl as [i Hi]. eauto.
  - intros (i & l & Hi & Hx). exists l. split; apply list_elem_of_In; [|done].
    by eapply list_elem_of_lookup_2.
Qed.

Lemma bins_lookup h mask ar bins i p :
  bins_rep h mask ar bins -> ar !! i = Some p -> exists l, bins !! i = Some l /\ chain h p l.
Proof.
  intros [C _ _] Hp. destruct (Forall2_lookup_l _ _ _ _ _ C Hp) as (l & Hl & Hc). eauto.
Qed.

Lemma bins_nodup_at h mask ar bins i l :
  bins_rep h mask ar bins -> bins !! i = Some l -> NoDup l.
Proof.
  intros [_ N _] Hl. destruct (concat_insert bins i l Hl) as (rest & E & _).
  rewrite E in N. by apply NoDup_app in N as [N _].
Qed.

(** A bin other than the [i]th has none of its entries. *)
Lemma bins_disjoint h mask ar bins i j l l' a :
  bins_rep h mask ar bins -> bins !! i = Some l -> bins !! j = Some l' ->
  a ∈ l -> a ∈ l' -> i = j.
Proof.
  intros [C N P] Hi Hj Ha Ha'.
  destruct (Forall2_lookup_r _ _ _ _ _ C Hi) as (p & Hp & Hc).
  destruct (chain_elem _ _ _ _ Hc Ha) as [e He].
  pose proof (P i l a e Hi Ha He). pose proof (P j l' a e Hj Ha' He). lia.
Qed.

(** The bins are made of the overflow links and the hashes of their entries. *)
Lemma bins_ext h h' mask ar bins :
  (forall a, a ∈ concat bins -> (fun e => (overflow_next e, e_hash e)) <$> h' !! a
                               = (fun e => (overflow_next e, e_hash e)) <$> h !! a) ->
  bins_rep h mask ar bins -> bins_rep h' mask ar bins.
Proof.
  intros F [C N P].
  assert (forall i l a, bins !! i = Some l -> a ∈ l -> a ∈ concat bins) as Hin.
  { intros i l a Hi Ha. apply elem_of_concat. eauto. }
  split; [|done|].
  - apply Forall2_same_length_lookup. split; [by eapply Forall2_length|].
    intros i p l Hp Hl. eapply chain_ext; [|by eapply Forall2_lookup_lr].
    intros a Ha. specialize (F a (Hin _ _ _ Hl Ha)).
    destruct (h' !! a), (h !! a); try done. simpl in *. congruence.
  - intros i l a e' Hi Ha He'. specialize (F a (Hin _ _ _ Hi Ha)). rewrite He' in F.
    destruct (h !! a) as [e|] eqn:He; [|done]. simpl in F. injection F as _ ->. by eapply P.
Qed.

Lemma bins_frame h h' mask ar bins :
  frame off_lru h h' -> bins_rep h mask ar bins -> bins_rep h' mask ar bins.
Proof.
  intros F. apply bins_ext. intros a _. specialize (F a).
  destruct (h' !! a), (h !! a); try done. simpl in *. unfold off_lru in F. congruence.
Qed.

Lemma bins_insert_other h mask ar bins a e :
  a ∉ concat bins -> bins_rep h mask ar bins -> bins_rep (<[a := e]> h) mask ar bins.
Proof.
  intros Ha. apply bins_ext. intros b Hb. rewrite lookup_insert_ne; [done|]. by intros ->.
Qed.

Lemma bins_delete_other h mask ar bins a :
  a ∉ concat bins -> bins_rep h mask ar bins -> bins_rep (delete a h) mask ar bins.
Proof.
  intros Ha. apply bins_ext. intros b Hb. rewrite lookup_delete_ne; [done|]. by intros ->.
Qed.

(** Putting an entry first in its bin. *)
Lemma bins_push h mask ar bins i p l a e :
  bins_rep h mask ar bins -> a ∉ concat bins -> h !! a = Some e ->
  Z.land e.(e_hash) mask = Z.of_nat i -> ar !! i = Some p -> bins !! i = Some l ->
  bins_rep (<[a := set_overflow_next p e]> h) mask (<[i := Some a]> ar) (<[i := a :: l]> bins).
Proof.
  intros B Ha He Hm Hp Hl.
  pose proof (bins_insert_other _ _ _ _ _ (set_overflow_next p e) Ha B) as [C N P].
  destruct (concat_insert bins i l Hl) as (rest & E & E'). split.
  - apply Forall2_insert; [done|]. cbn [chain]. split; [done|].
    eexists. rewrite lookup_insert_eq. split; [done|]. simpl.
    eapply Forall2_lookup_lr; eauto.
  - rewrite E'. cbn [app]. apply NoDup_cons. rewrite <- E. split; [done|]. apply B.
  - intros j l' b e' Hj Hb He'. destruct (decide (i = j)) as [<-|Hij].
    + rewrite list_lookup_insert_eq in Hj by (by apply lookup_lt_Some in Hl). injection Hj as <-.
      apply elem_of_cons in Hb as [->|Hb].
      * rewrite lookup_insert_eq in He'. injection He' as <-. done.
      * by eapply P.
    + rewrite list_lookup_insert_ne in Hj by done. by eapply P.
Qed.

Section Find.
Context (compfunc : K -> K -> Z).

Definition matches h (hash : Z) (key : K) (a : addr) : Prop :=
  exists e, h !! a = Some e /\ e.(e_hash) = hash /\ compfunc e.(e_key) key = 0.

Lemma bin_find_entry_loop_spec w hash key l : forall fuel p c,
  chain w.(heap) p l -> (length l < fuel)%nat ->
  exists r c', bin_find_entry_loop compfunc fuel p hash key c w = Ok ((r, c'), w) /\
    match r with
    | Some a => a ∈ l /\ matches w.(heap) hash key a
    | None => forall a, a ∈ l -> ~ matches w.(heap) hash key a
    end.
Proof.
  induction l as [|b l IH]; intros [|fuel] p c C Hf; try (simpl in Hf; lia);
    cbn [chain bin_find_entry_loop] in *.
  - subst p. do 2 eexists. split; [done|]. set_solver.
  - destruct C as (-> & e & He & C). rewrite (run_load _ e) by done.
    destruct (Z.eqb_spec (e_hash e) hash) as [Eh|Eh], (Z.eqb_spec (compfunc (e_key e) key) 0)
      as [Ek|Ek]; cbn [andb].
    1:{ do 2 eexists. split; [done|]. split; [set_solver|]. by exists e. }
    all: destruct (IH fuel (overflow_next e) (u64 (c + 1)) C ltac:(simpl in Hf; lia))
      as (r & c' & -> & Hr); do 2 eexists; split; [done|].
    all: destruct r as [a|]; [destruct Hr; split; [set_solver|done]|].
    all: intros a [->|Ha]%elem_of_cons; [|by apply Hr].
    all: intros (e' & He' & ? & ?); simplify_eq.
Qed.

Lemma bin_find_entry_spec w hash key i bins l :
  bins_rep w.(heap) w.(table).(size_mask) w.(table).(array) bins ->
  0 <= i -> bins !! Z.to_nat i = Some l ->
  exists r c', bin_find_entry compfunc i hash key w = Ok ((r, c'), w) /\
    match r with
    | Some a => a ∈ l /\ matches w.(heap) hash key a
    | None => forall a, a ∈ l -> ~ matches w.(heap) hash key a
    end.
Proof.
  intros B Hi Hl. destruct (Forall2_lookup_r _ _ _ _ _ (br_chains _ _ _ _ B) Hl) as (p & Hp & C).
  unfold bin_find_entry. rewrite run_world, (run_bin_head _ _ p) by done.
  apply bin_find_entry_loop_spec; [done|]. eapply chain_fuel_enough; [done|].
  by eapply bins_nodup_at.
Qed.
End Find.

(** *** Taking an entry out of its bin *)

Lemma bin_overflow_remove_loop_spec w i a ea l2 : forall l1 fuel p prevp,
  chain w.(heap) p (l1 ++ a :: l2) -> a ∉ l1 -> w.(heap) !! a = Some ea ->
  (length l1 < fuel)%nat ->
  bin_overflow_remove_loop fuel i prevp p a w
  = match (match last l1 with Some q => inr q | None => prevp end) with
    | inl _ => (t ← get_table; ar ← bin_set t.(array) i ea.(overflow_next);
                set_table (with_array ar)) w
    | inr q => modify q (set_overflow_next ea.(overflow_next)) w
    end.
Proof.
  induction l1 as [|b l1 IH]; intros [|fuel] p prevp C Ha Hea Hf; try (simpl in Hf; lia);
    cbn [app chain] in C.
  - destruct C as (-> & e & He & C). assert (e = ea) as -> by congruence.
    cbn [bin_overflow_remove_loop last].
    rewrite (run_load _ ea) by done. rewrite decide_True by done. by destruct prevp.
  - destruct C as (-> & e & He & C). cbn [bin_overflow_remove_loop].
    rewrite (run_load _ e) by done. rewrite decide_False by set_solver.
    rewrite (IH fuel) by (done || set_solver || (simpl in Hf; lia)).
    rewrite last_cons. by destruct (last l1).
Qed.

Lemma bin_overflow_remove_spec w bins i l1 a l2 :
  bins_rep w.(heap) w.(table).(size_mask) w.(table).(array) bins ->
  0 <= i -> bins !! Z.to_nat i = Some (l1 ++ a :: l2) ->
  exists h' ar', bin_overflow_remove i a w
    = Ok (tt, mk_world h' (with_array ar' w.(table)) w.(deleted)) /\
    frame off_overflow w.(heap) h' /\ length ar' = length w.(table).(array) /\
    (forall b, b ∉ concat bins -> h' !! b = w.(heap) !! b) /\
    bins_rep h' w.(table).(size_mask) ar' (<[Z.to_nat i := l1 ++ l2]> bins).
Proof.
  intros B Hi Hl. pose proof (bins_nodup_at _ _ _ _ _ _ B Hl) as N.
  destruct (Forall2_lookup_r _ _ _ _ _ (br_chains _ _ _ _ B) Hl) as (p & Hp & C).
  destruct (chain_app _ _ _ _ _ C) as (ea & Hea & C2).
  pose proof (chain_fuel_enough _ _ _ C N) as Hf. rewrite length_app in Hf. cbn [length] in Hf.
  destruct (concat_insert bins _ _ Hl) as (rest & E & E').
  assert (NoDup (concat (<[Z.to_nat i := l1 ++ l2]> bins))) as N'.
  { rewrite E'. pose proof (br_nodup _ _ _ _ B) as Nb. rewrite E in Nb.
    rewrite <- Permutation_middle in Nb. cbn [app] in Nb. by apply NoDup_cons in Nb as [_ ?]. }
  assert (a ∉ l1) as Ha1.
  { apply NoDup_app in N as (_ & N & _). intros Hin. apply (N a Hin). set_solver. }
  unfold bin_overflow_remove. rewrite run_world, (run_bin_head _ _ p) by done.
  rewrite (bin_overflow_remove_loop_spec w i a ea l2 l1) by (done || lia).
  assert (forall h' ar', frame off_overflow (heap w) h' ->
    Forall2 (chain h') ar' (<[Z.to_nat i := l1 ++ l2]> bins) ->
    bins_rep h' (size_mask (table w)) ar' (<[Z.to_nat i := l1 ++ l2]> bins)) as Hrep.
  { intros h' ar' F C'. split; [done|done|]. intros j l b e' Hj Hb He'.
    assert (exists e, heap w !! b = Some e /\ e_hash e = e_hash e') as (e & He & <-).
    { specialize (F b). rewrite He' in F. simpl in F. destruct (heap w !! b) as [e|]; [|done].
      exists e. split; [done|]. simpl in F. unfold off_overflow in F. congruence. }
    destruct (decide (Z.to_nat i = j)) as [<-|Hij].
    - rewrite list_lookup_insert_eq in Hj by (by apply lookup_lt_Some in Hl). injection Hj as <-.
      eapply (br_placed _ _ _ _ B); [done| |done]. set_solver.
    - rewrite list_lookup_insert_ne in Hj by done. by eapply (br_placed _ _ _ _ B). }
  destruct l1 as [|q l1 _] using rev_ind; cbn [last].
  - rewrite run_table.
    assert (zlen (array (table w)) > i) as Hz.
    { apply lookup_lt_Some in Hp. unfold zlen. lia. }
    rewrite run_bin_set by lia. exists (heap w), (<[Z.to_nat i := overflow_next ea]> (array (table w))).
    split; [done|]. split; [done|]. split; [apply length_insert|]. split; [done|].
    apply Hrep; [done|].
    apply Forall2_insert; [apply B|done].
  - rewrite last_snoc. destruct (chain_elem _ _ _ q C) as [eq Hq]; [set_solver|].
    rewrite (modify_ok _ _ eq) by done. rewrite <- app_assoc in C, N, Hl. cbn [app] in C, N, Hl.
    exists (<[q := set_overflow_next (overflow_next ea) eq]> (heap w)), (array (table w)).
    assert (frame off_overflow (heap w) (<[q := set_overflow_next (overflow_next ea) eq]> (heap w)))
      as F by (by eapply frame_insert).
    split; [by destruct w as [h [] d]|]. split; [done|]. split; [done|]. split.
    { intros b Hb. apply lookup_insert_ne. intros ->. apply Hb. apply elem_of_concat.
      do 2 eexists. split; [done|]. set_solver. }
    apply Hrep; [done|].
    apply Forall2_same_length_lookup. split.
    { rewrite length_insert. eapply Forall2_length, B. }
    intros j p' l' Hp' Hl'. destruct (decide (Z.to_nat i = j)) as [<-|Hij].
    + rewrite list_lookup_insert_eq in Hl' by (by apply lookup_lt_Some in Hl). simplify_eq.
      rewrite <- app_assoc. by eapply chain_unlink.
    + rewrite list_lookup_insert_ne in Hl' by done. apply chain_insert.
      * intros Hin. apply Hij. eapply (bins_disjoint _ _ _ _ _ _ _ _ q B Hl Hl'); [set_solver|done].
      * eapply Forall2_lookup_lr; [apply B|done|done].
Qed.

(** *** Growing: every chain is moved, entry by entry *)

Lemma bin_split_chain_spec newmask l : forall fuel p w newa nb,
  chain w.(heap) p l -> NoDup l -> (length l < fuel)%nat ->
  bins_rep w.(heap) newmask newa nb -> (forall a, a ∈ l -> a ∉ concat nb) ->
  (forall a e, a ∈ l -> w.(heap) !! a = Some e ->
     0 <= Z.land e.(e_hash) newmask < zlen newa) ->
  exists h' newa' nb',
    bin_split_chain fuel newa newmask p w = Ok (newa', mk_world h' w.(table) w.(deleted)) /\
    frame off_overflow w.(heap) h' /\ (forall a, a ∉ l -> h' !! a = w.(heap) !! a) /\
    bins_rep h' newmask newa' nb' /\ concat nb' ≡ₚ l ++ concat nb /\
    length newa' = length newa.
Proof.
  induction l as [|a l IH]; intros [|fuel] p w newa nb C N Hf B Hdis Hidx; try (simpl in Hf; lia);
    cbn [chain bin_split_chain] in *.
  - subst p. exists (heap w), newa, nb. by destruct w.
  - destruct C as (-> & e & He & C). apply NoDup_cons in N as [Na N].
    pose proof (Hidx a e ltac:(set_solver) He) as Hi. rewrite (run_load _ e) by done. cbn zeta.
    set (i := Z.land (e_hash e) newmask) in *.
    destruct (lookup_lt_is_Some_2 newa (Z.to_nat i)) as [q Hq]; [unfold zlen in Hi; lia|].
    destruct (bins_lookup _ _ _ _ _ _ B Hq) as (lq & Hlq & Cq).
    rewrite (run_bin_head _ _ q) by (done || lia).
    rewrite (run_modify _ _ e) by done. rewrite run_bin_set by lia.
    assert (a ∉ concat nb) as Hanb by (apply Hdis; set_solver).
    pose proof (bins_push _ _ _ _ (Z.to_nat i) q lq a e B Hanb He ltac:(unfold i in *; lia) Hq Hlq) as B1.
    destruct (concat_insert nb _ _ Hlq) as (rest & E & E').
    assert (concat (<[Z.to_nat i := a :: lq]> nb) ≡ₚ a :: concat nb) as Ec.
    { rewrite E', E. done. }
    assert (frame off_overflow (heap w) (<[a := set_overflow_next q e]> (heap w))) as F1
      by (by eapply frame_insert).
    destruct (IH fuel (overflow_next e) (mk_world (<[a := set_overflow_next q e]> (heap w)) (table w) (deleted w))
      (<[Z.to_nat i := Some a]> newa) (<[Z.to_nat i := a :: lq]> nb))
      as (h' & newa' & nb' & Er & F2 & Hot & B2 & Ep & Hln); cbn [heap] in *.
    + by apply chain_insert.
    + done.
    + simpl in Hf. lia.
    + done.
    + intros b Hb. rewrite Ec. apply not_elem_of_cons. split; [set_solver|]. apply Hdis. set_solver.
    + intros b e' Hb. rewrite lookup_insert_ne by set_solver. intros He'. unfold zlen.
      rewrite length_insert. apply (Hidx b); [set_solver|done].
    + exists h', newa', nb'. split; [exact Er|]. split; [by etrans|]. split; [|split; [done|]].
      * intros b Hb. rewrite Hot by set_solver. apply lookup_insert_ne. set_solver.
      * split; [|by rewrite Hln, length_insert]. rewrite Ep, Ec. cbn [app].
        by rewrite <- Permutation_middle.
Qed.

Lemma bin_split_loop_spec newmask : forall bins ar w newa nb,
  Forall2 (chain w.(heap)) ar bins -> NoDup (concat bins) ->
  bins_rep w.(heap) newmask newa nb -> (forall a, a ∈ concat bins -> a ∉ concat nb) ->
  (forall a e, a ∈ concat bins -> w.(heap) !! a = Some e ->
     0 <= Z.land e.(e_hash) newmask < zlen newa) ->
  exists h' newa' nb',
    bin_split_loop ar newa newmask w = Ok (newa', mk_world h' w.(table) w.(deleted)) /\
    frame off_overflow w.(heap) h' /\
    (forall a, a ∉ concat bins -> h' !! a = w.(heap) !! a) /\
    bins_rep h' newmask newa' nb' /\ concat nb' ≡ₚ concat bins ++ concat nb /\
    length newa' = length newa.
Proof.
  induction bins as [|l bins IH]; intros ar w newa nb C N B Hdis Hidx;
    inversion_clear C as [|p ? ar' ? Cl C']; cbn [bin_split_loop concat] in *.
  - exists (heap w), newa, nb. by destruct w.
  - rewrite run_world. apply NoDup_app in N as (Nl & Nlb & Nb).
    destruct (bin_split_chain_spec newmask l (chain_fuel w) p w newa nb)
      as (h1 & newa1 & nb1 & E1 & F1 & Hot & B1 & P1 & L1); try done.
    { by eapply chain_fuel_enough. }
    { intros a Ha. apply Hdis. set_solver. }
    { intros a e Ha. apply Hidx. set_solver. }
    rewrite (mbind_ok _ _ _ _ _ E1).
    destruct (IH ar' (mk_world h1 (table w) (deleted w)) newa1 nb1)
      as (h2 & newa2 & nb2 & E2 & F2 & Hot2 & B2 & P2 & L2); cbn [heap table deleted] in *.
    + apply Forall2_same_length_lookup. split; [by eapply Forall2_length|].
      intros i q lq Hq Hlq. eapply chain_ext; [|by eapply Forall2_lookup_lr].
      intros a Ha. rewrite Hot; [done|]. intros Hal. apply (Nlb a Hal). apply elem_of_concat. eauto.
    + done.
    + done.
    + intros a Ha. rewrite P1. rewrite not_elem_of_app. split.
      * intros Hal. by apply (Nlb a).
      * apply Hdis. set_solver.
    + intros a e Ha He. unfold zlen. rewrite L1.
      assert (a ∉ l) as Hal by (intros Hal; by apply (Nlb a)).
      rewrite Hot in He by done. apply (Hidx a); [set_solver|done].
    + exists h2, newa2, nb2. split; [done|]. split; [by etrans|]. split.
      { intros a [Ha1 Ha2]%not_elem_of_app. by rewrite Hot2, Hot. }
      split; [done|]. split; [|by rewrite L2]. rewrite P2, P1. rewrite !app_assoc.
      f_equiv. apply Permutation_app_comm.
Qed.
End Links.
