(* ===== verification/LruhashSpec.v ===== *)
(** * What the LRU hash table promises

    The specification is a list of items, most recently used first.  [table_ok]
    ties the pointers of the table to such a list; the routines that reclaim
    space and grow the table are proved to keep it, and the operations of the
    interface are proved to be the operations on lists. *)

From S2P Require Import Prelude Lruhash LruhashLinks.

(** ** The specification: a cache is a list *)

(** An item is a hash, a key and the data. *)

Section Evict.
Context {A : Type} (sz : A -> Z).
Implicit Types l : list A.

Definition total l : Z := foldr (fun x s => sz x + s) 0 l.

(** As many of the items as fit in [budget], and those that are left. *)
Fixpoint fit (budget : Z) l : list A * list A :=
  match l with
  | [] => ([], [])
  | x :: l' =>
      if sz x <=? budget then
        let '(k, g) := fit (budget - sz x) l' in (x :: k, g)
      else ([], l)
  end.

(** The most recently used item always stays, then as many as fit in [max]. *)
Definition evict (max : Z) l : list A * list A :=
  match l with
  | [] => ([], [])
  | x :: l' => let '(k, g) := fit (max - sz x) l' in (x :: k, g)
  end.

Lemma total_cons x l : total (x :: l) = sz x + total l.
Proof. done. Qed.

Lemma total_app l1 l2 : total (l1 ++ l2) = total l1 + total l2.
Proof. induction l1 as [|x l1 IH]; cbn [app]; [done|]. rewrite !total_cons. lia. Qed.

Lemma total_perm l1 l2 : l1 ≡ₚ l2 -> total l1 = total l2.
Proof. induction 1; simpl; lia. Qed.

#[global] Instance total_proper : Proper (Permutation ==> eq) total.
Proof. intros l1 l2 P. by apply total_perm. Qed.

Lemma fit_app budget l : forall k g, fit budget l = (k, g) -> l = k ++ g.
Proof.
  revert budget. induction l as [|x l IH]; intros budget k g; simpl; [by intros [= <- <-]|].
  destruct (sz x <=? budget); [|by intros [= <- <-]].
  destruct (fit (budget - sz x) l) as [k' g'] eqn:E. intros [= <- <-].
  by rewrite (IH _ _ _ E).
Qed.

Lemma evict_app max l k g : evict max l = (k, g) -> l = k ++ g.
Proof.
  destruct l as [|x l]; simpl; [by intros [= <- <-]|].
  destruct (fit (max - sz x) l) as [k' g'] eqn:E. intros [= <- <-].
  by rewrite (fit_app _ _ _ _ E).
Qed.

Lemma total_ge_len l : (forall x, x ∈ l -> 1 <= sz x) -> zlen l <= total l.
Proof.
  induction l as [|x l IH]; intros H; [done|]. rewrite zlen_cons, total_cons.
  pose proof (H x ltac:(set_solver)). assert (zlen l <= total l); [|lia].
  apply IH. intros y Hy. apply H. set_solver.
Qed.

Context (Hsz : forall x, 0 <= sz x).

Lemma total_nonneg l : 0 <= total l.
Proof. induction l as [|x l IH]; simpl; [lia|]. specialize (Hsz x). lia. Qed.

Lemma fit_all budget l : total l <= budget -> fit budget l = (l, []).
Proof.
  revert budget. induction l as [|x l IH]; intros budget H; simpl; [done|].
  rewrite total_cons in H. pose proof (total_nonneg l). rewrite leb_true by lia.
  by rewrite IH by lia.
Qed.

Lemma fit_snoc budget l x : budget < total (l ++ [x]) ->
  fit budget (l ++ [x]) = (let '(k, g) := fit budget l in (k, g ++ [x])).
Proof.
  revert budget. induction l as [|y l IH]; intros budget H; cbn [app fit].
  - cbn in H. by rewrite leb_false by lia.
  - cbn [app] in H. rewrite total_cons in H. destruct (Z.leb_spec (sz y) budget); [|done].
    rewrite IH by lia. by destruct (fit (budget - sz y) l).
Qed.

Lemma evict_all max l : total l <= max \/ (length l <= 1)%nat -> evict max l = (l, []).
Proof.
  destruct l as [|x l]; [done|]. intros [H|H]; cbn [evict].
  - rewrite total_cons in H. by rewrite fit_all by lia.
  - destruct l; [done|simpl in H; lia].
Qed.

Lemma evict_snoc max l x : l <> [] -> max < total (l ++ [x]) ->
  evict max (l ++ [x]) = (let '(k, g) := evict max l in (k, g ++ [x])).
Proof.
  destruct l as [|y l]; [done|]. intros _ H. cbn [app evict] in *. rewrite total_cons in H.
  rewrite fit_snoc by lia. by destruct (fit (max - sz y) l).
Qed.

(** What stays fits, or is one item. *)
Lemma fit_bound budget l k g : 0 <= budget -> fit budget l = (k, g) -> total k <= budget.
Proof.
  revert budget k g. induction l as [|x l IH]; intros budget k g Hb; simpl; [by intros [= <- <-]|].
  destruct (Z.leb_spec (sz x) budget); [|by intros [= <- <-]].
  destruct (fit (budget - sz x) l) as [k' g'] eqn:E. intros [= <- <-].
  apply IH in E; [|lia]. rewrite total_cons. lia.
Qed.

Lemma evict_bound max l k g : (forall x, 1 <= sz x) -> evict max l = (k, g) ->
  total k <= max \/ (length k <= 1)%nat.
Proof.
  intros H1. destruct l as [|x l]; simpl; [intros [= <- <-]; simpl; lia|].
  destruct (fit (max - sz x) l) as [k' g'] eqn:E. intros [= <- <-].
  destruct (Z.le_gt_cases (sz x) max).
  - left. apply fit_bound in E; [|lia]. rewrite total_cons. lia.
  - right. destruct l as [|y l]; simpl in E; [by injection E as <- <-|].
    specialize (H1 y). rewrite leb_false in E by lia. by injection E as <- <-.
Qed.
End Evict.

Lemma total_map {A B} (f : A -> B) sz l : total sz (map f l) = total (fun x => sz (f x)) l.
Proof. induction l as [|x l IH]; simpl; congruence. Qed.

Lemma total_ext {A} (sz sz' : A -> Z) l :
  (forall x, x ∈ l -> sz x = sz' x) -> total sz l = total sz' l.
Proof.
  induction l as [|x l IH]; intros H; simpl; [done|].
  rewrite (H x) by set_solver. rewrite IH; [done|]. intros y Hy. apply H. set_solver.
Qed.

(** The first element that [P] accepts, with what is before and after it. *)
Fixpoint split_first {A} (P : A -> bool) (l : list A) : option (list A * A * list A) :=
  match l with
  | [] => None
  | x :: l' =>
      if P x then Some ([], x, l') else
      match split_first P l' with
      | Some (pre, y, post) => Some (x :: pre, y, post)
      | None => None
      end
  end.

Lemma split_first_mid {A} (P : A -> bool) l1 x l2 :
  (forall y, y ∈ l1 -> P y = false) -> P x = true ->
  split_first P (l1 ++ x :: l2) = Some (l1, x, l2).
Proof.
  induction l1 as [|y l1 IH]; intros H Hx; cbn [app split_first]; [by rewrite Hx|].
  rewrite H by set_solver. rewrite IH; [done| |done]. intros z Hz. apply H. set_solver.
Qed.

Lemma split_first_inv {A} (P : A -> bool) l : forall pre x post,
  split_first P l = Some (pre, x, post) -> l = pre ++ x :: post /\ P x = true.
Proof.
  induction l as [|y l IH]; intros pre x post; cbn [split_first]; [done|].
  destruct (P y) eqn:E; [by intros [= <- <- <-]|].
  destruct (split_first P l) as [[[pre' z] post']|]; [|done]. intros [= <- <- <-].
  destruct (IH _ _ _ eq_refl) as [-> ?]. done.
Qed.

Lemma split_first_none {A} (P : A -> bool) l :
  (forall y, y ∈ l -> P y = false) -> split_first P l = None.
Proof.
  induction l as [|y l IH]; intros H; cbn [split_first]; [done|].
  rewrite H by set_solver. rewrite IH; [done|]. intros z Hz. apply H. set_solver.
Qed.

Lemma fit_ext {A} (sz sz' : A -> Z) l : forall budget,
  (forall x, x ∈ l -> sz x = sz' x) -> fit sz budget l = fit sz' budget l.
Proof.
  induction l as [|x l IH]; intros budget H; cbn [fit]; [done|].
  rewrite (H x) by set_solver. rewrite IH; [done|]. intros y Hy. apply H. set_solver.
Qed.

Lemma evict_ext {A} (sz sz' : A -> Z) max l :
  (forall x, x ∈ l -> sz x = sz' x) -> evict sz max l = evict sz' max l.
Proof.
  destruct l as [|x l]; intros H; cbn [evict]; [done|].
  rewrite (H x) by set_solver. rewrite (fit_ext sz sz'); [done|]. intros y Hy. apply H. set_solver.
Qed.

(** ** The invariant *)

Section Invariant.
Context {K D : Type} (sizefunc : K -> D -> Z) (compfunc : K -> K -> Z).
Implicit Types (h : gmap addr (lruhash_entry K D)) (w : world K D) (e : lruhash_entry K D)
  (t : lruhash K) (lru extra : list addr).

Definition payload e := (e.(e_hash), e.(e_key), e.(e_data)).
Definition esize e : Z := sizefunc e.(e_key) e.(e_data).
Definition asize h (a : addr) : Z := match h !! a with Some e => esize e | None => 0 end.

(** The array is as long as [size] says, a power of two, and the mask fits. *)
Definition table_shape t : Prop := exists k, 0 <= k <= 31 /\ t.(size) = 2 ^ k /\
  t.(size_mask) = 2 ^ k - 1 /\ zlen t.(array) = 2 ^ k.

(** Equal keys are stored once. *)
Definition keys_unique h lru : Prop := forall a b ea eb,
  a ∈ lru -> b ∈ lru -> h !! a = Some ea -> h !! b = Some eb ->
  ea.(e_hash) = eb.(e_hash) -> compfunc ea.(e_key) eb.(e_key) = 0 -> a = b.

(** The table holds exactly the entries [lru], in this order of use, in the
    bins [bins]; the heap holds these and the entries [extra]. *)
Record table_ok w (bins : list (list addr)) lru extra : Prop := {
  to_shape : table_shape w.(table);
  to_bins : bins_rep w.(heap) w.(table).(size_mask) w.(table).(array) bins;
  to_lru : lru_rep w.(heap) w.(table).(lru_start) w.(table).(lru_end) lru;
  to_perm : concat bins ≡ₚ lru;
  to_dom : dom w.(heap) = list_to_set (lru ++ extra);
  to_nodup : NoDup (lru ++ extra);
  to_hash : forall a e, a ∈ lru -> w.(heap) !! a = Some e -> in_u 32 e.(e_hash);
  to_num : w.(table).(num) = zlen lru;
  to_space : w.(table).(space_used) = total (asize w.(heap)) lru;
  to_bound : w.(table).(space_used) < 2 ^ 64;
  to_unique : keys_unique w.(heap) lru;
}.

Lemma frame_payload_lru h h' : frame off_lru h h' -> frame payload h h'.
Proof.
  intros F a. specialize (F a). destruct (h' !! a), (h !! a); try done. simpl in *.
  unfold off_lru, payload in *. congruence.
Qed.

Lemma frame_payload_overflow h h' : frame off_overflow h h' -> frame payload h h'.
Proof.
  intros F a. specialize (F a). destruct (h' !! a), (h !! a); try done. simpl in *.
  unfold off_overflow, payload in *. congruence.
Qed.

(** [h'] has the payload of [h] on the entries of [l]. *)
Definition same_on h h' (l : list addr) : Prop :=
  forall a, a ∈ l -> payload <$> h' !! a = payload <$> h !! a.

Lemma asize_payload h h' a : payload <$> h' !! a = payload <$> h !! a -> asize h' a = asize h a.
Proof.
  unfold asize, esize, payload. destruct (h' !! a), (h !! a); try done. simpl.
  by intros [= _ -> ->].
Qed.

Lemma total_same_on h h' l : same_on h h' l -> total (asize h') l = total (asize h) l.
Proof. intros H. apply total_ext. intros a Ha. by apply asize_payload, H. Qed.

Lemma unique_ext h h' lru :
  (forall a, a ∈ lru -> (fun e => (e_hash e, e_key e)) <$> h' !! a
                       = (fun e => (e_hash e, e_key e)) <$> h !! a) ->
  keys_unique h lru -> keys_unique h' lru.
Proof.
  intros S U a b ea eb Ha Hb Ea Eb Eh Ek.
  pose proof (S a Ha) as Sa. pose proof (S b Hb) as Sb. rewrite Ea in Sa. rewrite Eb in Sb.
  destruct (h !! a) as [ea'|] eqn:Ea'; [|done]. destruct (h !! b) as [eb'|] eqn:Eb'; [|done].
  simpl in Sa, Sb. injection Sa as Sa1 Sa2. injection Sb as Sb1 Sb2.
  apply (U a b ea' eb'); congruence.
Qed.

Lemma unique_same_on h h' lru : same_on h h' lru -> keys_unique h lru -> keys_unique h' lru.
Proof.
  intros S. apply unique_ext. intros a Ha. specialize (S a Ha).
  destruct (h' !! a), (h !! a); try done. simpl in *. unfold payload in S. congruence.
Qed.

Lemma hash_same_on h h' lru : same_on h h' lru ->
  (forall a e, a ∈ lru -> h !! a = Some e -> in_u 32 e.(e_hash)) ->
  (forall a e, a ∈ lru -> h' !! a = Some e -> in_u 32 e.(e_hash)).
Proof.
  intros S H a e Ha He. specialize (S a Ha). rewrite He in S.
  destruct (h !! a) as [e'|] eqn:E; [|done]. simpl in S. injection S as -> _ _. by eapply H.
Qed.

Lemma same_on_sub h h' l l' : same_on h h' l -> (forall a, a ∈ l' -> a ∈ l) -> same_on h h' l'.
Proof. intros S H a Ha. apply S. by apply H. Qed.

Lemma frame_same_on h h' l : frame payload h h' -> same_on h h' l.
Proof. intros F a _. apply F. Qed.

(** The bin of a hash exists. *)
Lemma bin_in_range t hash : table_shape t -> in_u 32 hash ->
  0 <= Z.land hash t.(size_mask) < zlen t.(array).
Proof.
  intros (k & Hk & _ & -> & ->) _. replace (2 ^ k - 1) with (Z.ones k).
  - rewrite Z.land_ones by lia. apply Z.mod_pos_bound. apply Z.pow_pos_nonneg; lia.
  - rewrite Z.ones_equiv. lia.
Qed.

Lemma table_ok_elem w bins lru extra a :
  table_ok w bins lru extra -> a ∈ lru ++ extra -> exists e, w.(heap) !! a = Some e.
Proof.
  intros T Ha. apply elem_of_dom. rewrite (to_dom _ _ _ _ T). by apply elem_of_list_to_set.
Qed.

(** The bin an entry of the table is in. *)
Lemma table_ok_bin w bins lru extra a e :
  table_ok w bins lru extra -> a ∈ lru -> w.(heap) !! a = Some e ->
  exists l1 l2, bins !! Z.to_nat (Z.land e.(e_hash) w.(table).(size_mask)) = Some (l1 ++ a :: l2).
Proof.
  intros T Ha He. rewrite <- (to_perm _ _ _ _ T) in Ha. apply elem_of_concat in Ha as (i & l & Hi & Ha).
  rewrite (br_placed _ _ _ _ (to_bins _ _ _ _ T) i l a e) by done. rewrite Nat2Z.id.
  apply list_elem_of_split in Ha as (l1 & l2 & ->). eauto.
Qed.

(** ** Reclaiming space *)

Context (Hsize : forall k d, 1 <= sizefunc k d).

(** The key as [markdelfunc] leaves it. *)
Definition mark (md : option (K -> K)) (k : K) : K := match md with Some f => f k | None => k end.

(** What does not change: the callbacks' log and the settings of the table. *)
Definition settings w := (w.(table).(markdelfunc), w.(table).(space_max), w.(deleted)).

Lemma markdel_spec w a e :
  w.(heap) !! a = Some e ->
  exists e', markdel a w = Ok (tt, mk_world (<[a := e']> w.(heap)) w.(table) w.(deleted)) /\
    overflow_next e' = overflow_next e /\
    payload e' = (e.(e_hash), mark w.(table).(markdelfunc) e.(e_key), e.(e_data)).
Proof.
  intros He. unfold markdel. rewrite run_table. destruct (markdelfunc (table w)) as [f|].
  - rewrite (run_load _ e) by done. rewrite (modify_ok _ _ e) by done.
    eexists. split; [done|]. done.
  - exists e. rewrite insert_id by done. by destruct w.
Qed.

Lemma asize_pos h a e : h !! a = Some e -> 1 <= asize h a.
Proof. intros He. unfold asize. rewrite He. apply Hsize. Qed.

Lemma asize_nonneg h a : 0 <= asize h a.
Proof.
  destruct (h !! a) as [e|] eqn:E; [pose proof (asize_pos _ _ _ E); lia|].
  unfold asize. by rewrite E.
Qed.

(** Every entry takes space, so there are no more entries than bytes. *)
Lemma table_ok_len w bins lru extra :
  table_ok w bins lru extra -> zlen lru <= total (asize w.(heap)) lru.
Proof.
  intros T. apply total_ge_len. intros x Hx.
  destruct (table_ok_elem _ _ _ _ x T) as [ex Hex]; [set_solver|]. by eapply asize_pos.
Qed.

Lemma lru_rep_unlink_last h s l p d ep :
  lru_rep h s (Some d) ((l ++ [p]) ++ [d]) -> h !! p = Some ep ->
  lru_rep (<[p := set_lru_next None ep]> h) s (Some p) (l ++ [p]).
Proof.
  intros [Hd Hs _ N] Hp. rewrite dll_app in Hd. destruct Hd as [Hd _]. cbn [hd_or] in Hd.
  apply NoDup_app in N as (N & _ & _). split; [|by rewrite Hs; destruct l|by rewrite last_or_snoc|done].
  eapply dll_set_next; [|done|done].
  apply NoDup_app in N as (_ & N & _). intros Hin. apply (N p Hin). set_solver.
Qed.

(** The invariant after a change that keeps the heap and a part of the entries. *)
Lemma table_ok_rebuild w bins lru extra h' t' del bins' lru' extra' :
  table_ok w bins lru extra ->
  table_shape t' -> bins_rep h' t'.(size_mask) t'.(array) bins' ->
  lru_rep h' t'.(lru_start) t'.(lru_end) lru' -> concat bins' ≡ₚ lru' ->
  dom h' = dom w.(heap) -> lru' ++ extra' ≡ₚ lru ++ extra -> (forall a, a ∈ lru' -> a ∈ lru) ->
  same_on w.(heap) h' lru' -> t'.(num) = zlen lru' ->
  t'.(space_used) = total (asize w.(heap)) lru' -> t'.(space_used) < 2 ^ 64 ->
  table_ok (mk_world h' t' del) bins' lru' extra'.
Proof.
  intros T Hshape B R P Hdom Hall Hsub S Hnum Hspace Hbound. split; cbn [heap table]; try done.
  - rewrite Hdom, (to_dom _ _ _ _ T). apply set_eq. intros a. rewrite !elem_of_list_to_set.
    by rewrite Hall.
  - rewrite Hall. apply T.
  - eapply hash_same_on; [exact S|]. intros a x Ha. apply (to_hash _ _ _ _ T). by apply Hsub.
  - by rewrite (total_same_on _ _ _ S).
  - eapply unique_same_on; [exact S|]. intros a b ea eb Ha Hb.
    apply (to_unique _ _ _ _ T); by apply Hsub.
Qed.

Lemma shape_array t ar : table_shape t -> length ar = length t.(array) -> table_shape (with_array ar t).
Proof.
  intros (k & Hk1 & Hk2 & Hk3 & Hk4) L. exists k. unfold zlen in *. cbn. rewrite L. done.
Qed.

(** Taking an entry out of its bin takes it out of the table. *)
Lemma bin_remove_perm bins i l1 a l2 lru :
  bins !! i = Some (l1 ++ a :: l2) -> concat bins ≡ₚ a :: lru ->
  concat (<[i := l1 ++ l2]> bins) ≡ₚ lru.
Proof.
  intros Hb P. destruct (concat_insert bins _ _ Hb) as (rest & Ec & Ec').
  rewrite Ec'. apply (Permutation_cons_inv (a := a)). rewrite <- P, Ec.
  by rewrite <- (Permutation_middle l1 l2 a).
Qed.

(** The end of [reclaim_one], from the removal out of the bin on. *)
Lemma reclaim_rest w1 bins extra list d e i l1 l2 :
  bins_rep w1.(heap) w1.(table).(size_mask) w1.(table).(array) bins ->
  chain w1.(heap) list extra -> w1.(heap) !! d = Some e -> 0 <= i ->
  bins !! Z.to_nat i = Some (l1 ++ d :: l2) ->
  (forall a, a ∈ extra -> a ∉ concat bins) ->
  exists h' ar' e',
    (bin_overflow_remove i d;;
     modify d (set_overflow_next list);;
     e ← load d;
     set_table (fun t => with_space (u64 (t.(space_used) - sizefunc e.(e_key) e.(e_data))) t);;
     markdel d;;
     mret (Some d)) w1
    = Ok (Some d, mk_world h' (with_space (u64 (w1.(table).(space_used) - esize e))
                                 (with_array ar' w1.(table))) w1.(deleted)) /\
    h' !! d = Some e' /\ dom h' = dom w1.(heap) /\ length ar' = length w1.(table).(array) /\
    payload e' = (e.(e_hash), mark w1.(table).(markdelfunc) e.(e_key), e.(e_data)) /\
    chain h' (Some d) (d :: extra) /\
    bins_rep h' w1.(table).(size_mask) ar' (<[Z.to_nat i := l1 ++ l2]> bins) /\
    (forall a, a <> d -> payload <$> h' !! a = payload <$> w1.(heap) !! a) /\
    (forall s z l, d ∉ l -> lru_rep w1.(heap) s z l -> lru_rep h' s z l).
Proof.
  intros B1 C He Hi Hbin Hex.
  assert (d ∈ concat bins) as Hd by (apply elem_of_concat; do 2 eexists; split; [done|set_solver]).
  assert (d ∉ extra) as Hde by (intros Hin; by apply (Hex d)).
  destruct (bin_overflow_remove_spec w1 bins i l1 d l2 B1 Hi Hbin)
    as (h2 & ar2 & E2 & F2 & Lar & Hot & B2).
  rewrite (mbind_ok _ _ _ _ _ E2).
  destruct (frame_lookup _ _ _ _ _ F2 He) as (e2 & He2 & Hoff).
  assert (payload e2 = payload e) as Hp2 by (unfold payload; unfold off_overflow in Hoff; congruence).
  rewrite (run_modify _ _ e2) by done. cbn [heap table deleted].
  rewrite (run_load _ (set_overflow_next list e2)) by (cbn [heap]; apply lookup_insert_eq).
  rewrite run_set. cbn [heap table deleted].
  set (h3 := <[d := set_overflow_next list e2]> h2). set (t3 := with_space _ _).
  destruct (markdel_spec (mk_world h3 t3 (deleted w1)) d (set_overflow_next list e2))
    as (e4 & E4 & Hov & Hpay); [unfold h3; cbn [heap]; apply lookup_insert_eq|].
  rewrite (mbind_ok _ _ _ _ _ E4). cbn [heap table deleted] in *.
  unfold h3 in *. rewrite insert_insert_eq in *. clear h3.
  exists (<[d := e4]> h2), ar2, e4. split.
  { unfold t3. injection Hp2 as _ Ek Ed. unfold esize. cbn. by rewrite Ek, Ed. }
  split; [apply lookup_insert_eq|]. split.
  { rewrite dom_insert_lookup_L by (by rewrite He2). by apply (frame_dom _ _ _ F2). }
  split; [done|]. split; [|split; [|split; [|split]]].
  - rewrite Hpay. injection Hp2 as Eh Ek Ed. cbn. by rewrite Eh, Ek, Ed.
  - cbn [chain]. split; [done|]. exists e4. rewrite lookup_insert_eq. split; [done|].
    rewrite Hov. cbn [set_overflow_next overflow_next]. apply chain_insert; [done|].
    eapply chain_ext; [|exact C]. intros a Ha. by rewrite Hot by (by apply Hex).
  - apply bins_insert_other; [|exact B2].
    pose proof (br_nodup _ _ _ _ B1) as N. destruct (concat_insert bins _ _ Hbin) as (rest & Ec & Ec').
    rewrite Ec'. rewrite Ec, <- (Permutation_middle l1 l2 d) in N. by apply NoDup_cons in N as [N _].
  - intros a Ha. rewrite lookup_insert_ne by done. by apply frame_payload_overflow.
  - intros s z l Hl R. apply (lru_rep_frame _ _ _ _ _ F2) in R as [Dl Sl El Nl].
    split; [|done..]. by apply dll_insert.
Qed.

Lemma reclaim_one_spec w bins l d extra list :
  table_ok w bins (l ++ [d]) extra -> chain w.(heap) list extra -> l <> [] ->
  exists w1 bins1, reclaim_one sizefunc list w = Ok (Some d, w1) /\
    table_ok w1 bins1 l (d :: extra) /\ chain w1.(heap) (Some d) (d :: extra) /\
    same_on w.(heap) w1.(heap) (l ++ extra) /\
    (forall e, w.(heap) !! d = Some e -> payload <$> w1.(heap) !! d
       = Some (e.(e_hash), mark w.(table).(markdelfunc) e.(e_key), e.(e_data))) /\
    settings w1 = settings w.
Proof.
  intros T C Hl. destruct l as [|p l _] using rev_ind; [done|]. clear Hl.
  destruct (table_ok_elem _ _ _ _ d T) as [e He]; [set_solver|].
  destruct (table_ok_elem _ _ _ _ p T) as [ep Hep]; [set_solver|].
  pose proof (to_nodup _ _ _ _ T) as N. pose proof (to_lru _ _ _ _ T) as R.
  assert (lru_end (table w) = Some d) as Eend by (by rewrite (lr_end _ _ _ _ R), last_or_snoc).
  assert (lru_prev e = Some p) as Eprev.
  { pose proof (lr_dll _ _ _ _ R) as Hd. rewrite dll_app in Hd. destruct Hd as [_ Hd].
    rewrite last_or_snoc in Hd. cbn [dll] in Hd. destruct Hd as [(e' & He' & Hp & _) _]. by simplify_eq. }
  assert (((l ++ [p]) ++ [d]) ++ extra ≡ₚ d :: (l ++ [p]) ++ extra) as Pall.
  { rewrite <- (app_assoc (l ++ [p])). cbn [app]. by rewrite <- Permutation_middle. }
  assert (d ∉ (l ++ [p]) ++ extra) as Hdn by (rewrite Pall in N; by apply NoDup_cons in N as [N _]).
  unfold reclaim_one. rewrite run_table, Eend. rewrite (run_load _ e) by done. rewrite Eprev.
  rewrite run_set. cbn [heap table deleted]. rewrite (run_modify _ _ ep) by done. cbn zeta.
  rewrite run_set. cbn [heap table deleted].
  set (h1 := <[p := set_lru_next None ep]> (heap w)). set (t1 := with_num _ _).
  assert (frame off_lru (heap w) h1) as F1 by (by eapply frame_insert).
  destruct (table_ok_bin _ _ _ _ d e T ltac:(set_solver) He) as (l1 & l2 & Hbin).
  set (i := Z.land (e_hash e) (size_mask (table w))) in *.
  assert (0 <= i) as Hi.
  { apply (bin_in_range (table w)); [apply T|]. eapply (to_hash _ _ _ _ T d); [set_solver|done]. }
  destruct (reclaim_rest (mk_world h1 t1 (deleted w)) bins extra list d e i l1 l2)
    as (h' & ar' & e' & -> & He' & Hdom & Lar & Hpay & C' & B' & Hsame & HR); cbn [heap table] in *.
  { apply (bins_frame _ _ _ _ _ F1), T. }
  { by eapply chain_frame. }
  { unfold h1. rewrite lookup_insert_ne; [done|]. set_solver. }
  { done. }
  { done. }
  { intros a Ha. rewrite (to_perm _ _ _ _ T). intros Hin. apply NoDup_app in N as (_ & N & _). by apply (N a). }
  assert (forall a, a <> d -> payload <$> h' !! a = payload <$> heap w !! a) as Hsame'.
  { intros a Ha. rewrite Hsame by done. by apply frame_payload_lru. }
  assert (same_on (heap w) h' ((l ++ [p]) ++ extra)) as S.
  { intros a Ha. apply Hsame'. intros ->. done. }
  eexists _, (<[Z.to_nat i := l1 ++ l2]> bins). split; [reflexivity|].
  pose proof (to_space _ _ _ _ T) as Hspace. pose proof (to_bound _ _ _ _ T) as Hbound.
  rewrite total_app in Hspace. unfold asize at 2 in Hspace. cbn in Hspace. rewrite He in Hspace.
  pose proof (total_nonneg (asize (heap w)) (asize_nonneg _) (l ++ [p])) as Hnn.
  pose proof (Hsize (e_key e) (e_data e)) as Hpos. fold (esize e) in Hpos.
  pose proof (table_ok_len _ _ _ _ T) as Hn. rewrite zlen_app in Hn. change (zlen [d]) with 1 in Hn.
  rewrite <- (to_space _ _ _ _ T) in Hn.
  assert (u64 (space_used (table w) - esize e) = total (asize (heap w)) (l ++ [p])) as Hu.
  { rewrite wrap_small by (unfold in_u; lia). lia. }
  split; [|split; [exact C'|split; [exact S|split; [|done]]]].
  - eapply (table_ok_rebuild w bins _ extra); [exact T| | | | | | | | | | |];
      cbn [t1 with_num with_space with_array with_lru size_mask array lru_start lru_end num space_used].
    + by apply (shape_array (table w)), Lar; apply T.
    + exact B'.
    + apply HR; [set_solver|]. eapply lru_rep_unlink_last; [|done]. by rewrite <- Eend.
    + eapply bin_remove_perm; [done|]. rewrite (to_perm _ _ _ _ T). by rewrite <- Permutation_cons_append.
    + rewrite Hdom. by apply (frame_dom _ _ _ F1).
    + rewrite Pall. symmetry. apply Permutation_middle.
    + set_solver.
    + eapply same_on_sub; [exact S|]. set_solver.
    + rewrite (to_num _ _ _ _ T), zlen_app. change (zlen [d]) with 1.
      pose proof (zlen_nonneg (l ++ [p])). rewrite wrap_small by (unfold in_u; lia). lia.
    + exact Hu.
    + apply wrap_range. lia.
  - intros e0 He0. assert (e0 = e) as -> by congruence. cbn [heap]. rewrite He'. cbn. by rewrite Hpay.
Qed.

(** [h'] has the entries of [l] as [markdelfunc] leaves them. *)
Definition marked_on (md : option (K -> K)) h h' (l : list addr) : Prop :=
  forall a e, a ∈ l -> h !! a = Some e ->
    payload <$> h' !! a = Some (e.(e_hash), mark md e.(e_key), e.(e_data)).

(** What [reclaim_space] does: entries [g] leave the table, in front of [extra]. *)
Definition reclaimed w k g extra (r : outcome (ptr * world K D)) : Prop :=
  exists w' bins' p', r = Ok (p', w') /\
    table_ok w' bins' k (g ++ extra) /\ chain w'.(heap) p' (g ++ extra) /\
    same_on w.(heap) w'.(heap) (k ++ extra) /\
    marked_on w.(table).(markdelfunc) w.(heap) w'.(heap) g /\ settings w' = settings w.

Lemma reclaim_nothing w bins lru extra list k g :
  table_ok w bins lru extra -> chain w.(heap) list extra ->
  evict (asize w.(heap)) w.(table).(space_max) lru = (k, g) ->
  (1 <? num (table w)) && (space_max (table w) <? space_used (table w)) = false ->
  reclaimed w k g extra (Ok (list, w)).
Proof.
  intros T C E Ec. rewrite evict_all in E.
  - injection E as <- <-. exists w, bins, list. do 4 (split; [done|]). split; [|done].
    intros a e Ha. by apply elem_of_nil in Ha.
  - apply asize_nonneg.
  - apply andb_false_iff in Ec as [Ec%Z.ltb_ge|Ec%Z.ltb_ge].
    + right. rewrite (to_num _ _ _ _ T) in Ec. unfold zlen in Ec. lia.
    + left. by rewrite (to_space _ _ _ _ T) in Ec.
Qed.

Lemma reclaim_space_loop_spec lru : forall fuel w bins extra list k g,
  table_ok w bins lru extra -> chain w.(heap) list extra -> (length lru <= fuel)%nat ->
  evict (asize w.(heap)) w.(table).(space_max) lru = (k, g) ->
  reclaimed w k g extra (reclaim_space_loop sizefunc fuel list w).
Proof.
  induction lru as [|d l IH] using rev_ind; intros fuel w bins extra list k g T C Hf E.
  { assert ((1 <? num (table w)) && (space_max (table w) <? space_used (table w)) = false) as Ec
      by (by rewrite (to_num _ _ _ _ T)).
    destruct fuel; cbn [reclaim_space_loop]; rewrite run_table, Ec; by eapply reclaim_nothing. }
  destruct ((1 <? num (table w)) && (space_max (table w) <? space_used (table w))) eqn:Ec;
    [|destruct fuel; cbn [reclaim_space_loop]; rewrite run_table, Ec; by eapply reclaim_nothing].
  pose proof Ec as [E1%Z.ltb_lt E2%Z.ltb_lt]%andb_true_iff.
  rewrite (to_num _ _ _ _ T), zlen_app in E1. change (zlen [d]) with 1 in E1.
  rewrite (to_space _ _ _ _ T) in E2. rewrite length_app in Hf. cbn [length] in Hf.
  assert (l <> []) as Hl by (intros ->; rewrite zlen_nil in E1; lia).
  destruct fuel as [|fuel]; [lia|]. cbn [reclaim_space_loop]. rewrite run_table, Ec.
  destruct (reclaim_one_spec w bins l d extra list T C Hl) as (w1 & bins1 & Er & T1 & C1 & S1 & M1 & Set1).
  rewrite (mbind_ok _ _ _ _ _ Er). rewrite evict_snoc in E by (done || apply asize_nonneg).
  destruct (evict (asize (heap w)) (space_max (table w)) l) as [k0 g0] eqn:E0. injection E as <- <-.
  pose proof Set1 as Set1'. injection Set1' as Hmd Hmax Hdel.
  destruct (IH fuel w1 bins1 (d :: extra) (Some d) k0 g0 T1 C1) as (w' & bins' & p' & Er' & T' & C' & S' & M' & Set').
  { lia. }
  { rewrite Hmax, <- E0. apply evict_ext. intros x Hx. apply asize_payload, S1. set_solver. }
  pose proof (evict_app _ _ _ _ _ E0) as El.
  exists w', bins', p'. rewrite <- app_assoc. split; [done|]. split; [done|]. split; [done|].
  split; [|split; [|congruence]].
  - intros a Ha. rewrite S' by set_solver. apply S1. rewrite El. set_solver.
  - intros a e [Ha|Ha]%elem_of_app He.
    + assert (payload <$> heap w1 !! a = payload <$> heap w !! a) as Sa.
      { apply S1. rewrite El. set_solver. }
      rewrite He in Sa. destruct (heap w1 !! a) as [e1|] eqn:He1; [|done]. simpl in Sa.
      rewrite (M' a e1 Ha He1), Hmd. injection Sa as -> -> ->. done.
    + apply list_elem_of_singleton in Ha as ->. rewrite S' by set_solver. by apply M1.
Qed.

(** *** Freeing the entries that were scheduled *)

(** What [delkeyfunc] and [deldatafunc] are called with. *)
Definition del_events (x : Z * K * D) : list (event K D) := [DelKey x.1.2; DelData x.2].
Definition events_of (l : list (Z * K * D)) : list (event K D) := concat (map del_events l).

Definition payloads h (l : list addr) : list (Z * K * D) := omap (fun a => payload <$> h !! a) l.

Lemma payloads_same h h' l : same_on h h' l -> payloads h' l = payloads h l.
Proof using Type.
  clear Hsize.
  induction l as [|a l IH]; intros S; [done|]. unfold payloads. cbn [omap list_omap].
  rewrite (S a) by set_solver. fold (payloads h' l) (payloads h l). rewrite IH; [done|].
  intros b Hb. apply S. set_solver.
Qed.

Lemma finish_reclaim_loop_spec g : forall fuel w p,
  chain w.(heap) p g -> NoDup g -> (length g < fuel)%nat ->
  exists h', finish_reclaim_loop fuel p w
    = Ok (tt, mk_world h' w.(table) (w.(deleted) ++ events_of (payloads w.(heap) g))) /\
    forall a, h' !! a = if decide (a ∈ g) then None else w.(heap) !! a.
Proof.
  induction g as [|a g IH]; intros [|fuel] w p C N Hf; try (simpl in Hf; lia);
    cbn [chain finish_reclaim_loop] in *.
  - subst p. exists (heap w). split; [by rewrite app_nil_r; destruct w|]. done.
  - destruct C as (-> & e & He & C). apply NoDup_cons in N as [Na N].
    rewrite (run_load _ e) by done. cbn zeta. unfold delkey, deldata.
    unfold mbind at 1, M_bind at 1. rewrite He. unfold mbind at 1, M_bind at 1. cbn [heap table deleted].
    destruct (IH fuel (mk_world (delete a (heap w)) (table w) ((deleted w ++ [DelKey (e_key e)]) ++ [DelData (e_data e)]))
      (overflow_next e)) as (h' & Er & Hh'); cbn [heap table deleted] in *.
    { by apply chain_delete. }
    { done. }
    { simpl in Hf. lia. }
    exists h'. split.
    + rewrite Er. do 2 f_equal. f_equal. rewrite <- !app_assoc. f_equal.
      unfold payloads at 2. cbn [omap list_omap]. rewrite He. cbn [fmap option_fmap option_map].
      unfold events_of at 2. cbn [map concat]. unfold del_events at 1. cbn [app payload fst snd].
      do 2 f_equal. fold (payloads (heap w) g). fold (events_of (payloads (heap w) g)). f_equal.
      apply payloads_same. intros b Hb. rewrite lookup_delete_ne; [done|]. set_solver.
    + intros b. rewrite Hh'. destruct (decide (b ∈ g)) as [Hb|Hb].
      { by rewrite decide_True by (by right). }
      destruct (decide (b = a)) as [->|Hba].
      * rewrite decide_True by (by left). apply lookup_delete_eq.
      * rewrite decide_False by (by apply not_elem_of_cons). by apply lookup_delete_ne.
Qed.

(** Entries outside of the table can be freed. *)
Lemma table_ok_free w bins lru extra h' del :
  table_ok w bins lru extra ->
  (forall a, h' !! a = if decide (a ∈ extra) then None else w.(heap) !! a) ->
  table_ok (mk_world h' w.(table) del) bins lru [].
Proof.
  intros T Hh'. pose proof (to_nodup _ _ _ _ T) as N. apply NoDup_app in N as (Nl & Nle & _).
  assert (forall a, a ∈ lru -> h' !! a = heap w !! a) as Hl.
  { intros a Ha. rewrite Hh', decide_False; [done|]. by apply Nle. }
  destruct T as [Tshape Tbins Tlru Tperm Tdom Tnodup Thash Tnum Tspace Tbound Tuniq].
  split; cbn [heap table]; try done.
  - eapply bins_ext; [|done]. intros a Ha. rewrite Hl; [done|]. by rewrite <- Tperm.
  - destruct Tlru as [Dl Sl El Nll]. split; [|done..]. eapply dll_ext; [|done].
    intros a Ha. by rewrite Hl.
  - rewrite app_nil_r. apply set_eq. intros a. rewrite elem_of_dom, elem_of_list_to_set, Hh'.
    assert (a ∈ dom (heap w) <-> a ∈ lru ++ extra) as Ha by (by rewrite Tdom, elem_of_list_to_set).
    rewrite elem_of_dom, elem_of_app in Ha. destruct (decide (a ∈ extra)) as [He|He].
    + split; [by intros []|]. intros Hin. by destruct (Nle a Hin).
    + rewrite Ha. tauto.
  - by rewrite app_nil_r.
  - intros a e Ha. rewrite Hl by done. by apply Thash.
  - rewrite Tspace. apply total_ext. intros a Ha. apply asize_payload. by rewrite Hl.
  - intros a b ea eb Ha Hb. rewrite !Hl by done. by apply Tuniq.
Qed.

(** ** Growing the table *)

Lemma concat_replicate_nil n : concat (replicate n (@nil addr)) = [].
Proof. by induction n. Qed.

Lemma empty_bins h mask n : bins_rep h mask (replicate n None) (replicate n []).
Proof.
  split.
  - by apply Forall2_replicate.
  - rewrite concat_replicate_nil. apply NoDup_nil_2.
  - intros i l a e [-> _]%lookup_replicate []%elem_of_nil.
Qed.

Lemma newmask_ones k : 0 <= k -> Z.lor (Z.shiftl (2 ^ k - 1) 1) 1 = 2 ^ (k + 1) - 1.
Proof.
  intros Hk. rewrite lor_shiftl_add by lia. rewrite Z.pow_add_r by lia. lia.
Qed.

Lemma table_grow_spec alloc w bins lru extra :
  table_ok w bins lru extra -> w.(table).(size) <= 2 ^ 30 ->
  exists w' bins', table_grow alloc w = Ok (tt, w') /\
    table_ok w' bins' lru extra /\ frame off_overflow w.(heap) w'.(heap) /\
    (forall a, a ∉ lru -> w'.(heap) !! a = w.(heap) !! a) /\ settings w' = settings w.
Proof.
  intros T Hs. destruct (to_shape _ _ _ _ T) as (k & Hk & Esize & Emask & Elen).
  assert (k <= 30) as Hk30.
  { rewrite Esize in Hs. destruct (Z.le_gt_cases k 30); [done|].
    pose proof (Z.pow_le_mono_r 2 31 k). lia. }
  pose proof (Z.pow_pos_nonneg 2 k ltac:(lia) ltac:(lia)) as Hp.
  pose proof (Z.pow_le_mono_r 2 k 30 ltac:(lia) ltac:(lia)) as Hp30.
  unfold table_grow. rewrite run_table, Emask.
  change (i32 (Z.shiftr (2 ^ 64 - 1) 1)) with (-1). rewrite eqb_false by lia.
  destruct alloc; cbn [negb]; [|by exists w, bins].
  rewrite bool_decide_eq_true_2.
  2:{ unfold in_s. rewrite Z.shiftl_mul_pow2 by lia. lia. }
  rewrite newmask_ones, Esize by lia. cbn zeta.
  assert (u64 (2 ^ k * 2) = 2 ^ (k + 1)) as ->.
  { rewrite Z.pow_add_r by lia. apply wrap_small. unfold in_u. lia. }
  unfold bin_split. unfold mbind at 1, M_bind at 1. rewrite run_table, Esize.
  rewrite ltb_false by lia.
  assert (ztake (2 ^ k) (array (table w)) = array (table w)) as ->.
  { rewrite <- Elen. unfold ztake. rewrite to_nat_zlen. apply firstn_all. }
  pose proof (to_bins _ _ _ _ T) as B.
  destruct (bin_split_loop_spec (2 ^ (k + 1) - 1) bins (array (table w)) w (bin_init (2 ^ (k + 1)))
    (replicate (Z.to_nat (2 ^ (k + 1))) [])) as (h' & newa & nb & -> & F & Hot & B' & P & L).
  { apply B. }
  { apply B. }
  { apply empty_bins. }
  { intros a _. rewrite concat_replicate_nil. apply not_elem_of_nil. }
  { intros a e _ _. unfold bin_init, zlen. rewrite length_replicate, Z2Nat.id by (apply Z.pow_nonneg; lia).
    replace (2 ^ (k + 1) - 1) with (Z.ones (k + 1)) by (rewrite Z.ones_equiv; lia).
    rewrite Z.land_ones by lia. apply Z.mod_pos_bound, Z.pow_pos_nonneg; lia. }
  eexists _, nb. split; [reflexivity|]. cbn [heap table deleted].
  assert (concat nb ≡ₚ lru) as P'.
  { rewrite P, (to_perm _ _ _ _ T). by rewrite concat_replicate_nil, app_nil_r. }
  split; [|split; [done|split; [|done]]].
  - eapply (table_ok_rebuild w bins lru extra); [exact T| | | | | | | | | | |];
      cbn [with_size size size_mask array lru_start lru_end num space_used]; try done.
    + exists (k + 1). unfold zlen. cbn [with_size size size_mask array]. rewrite L. unfold bin_init.
      rewrite length_replicate, Z2Nat.id by (apply Z.pow_nonneg; lia). repeat split; lia.
    + eapply lru_rep_frame; [done|]. apply T.
    + by apply (frame_dom _ _ _ F).
    + apply frame_same_on. by apply frame_payload_overflow.
    + apply T.
    + apply T.
    + apply T.
  - intros a Ha. apply Hot. by rewrite (to_perm _ _ _ _ T).
Qed.

(** ** The end of an insertion *)

Lemma marked_payloads md h h' l :
  (forall a, a ∈ l -> exists e, h !! a = Some e) -> marked_on md h h' l ->
  payloads h' l = map (fun x => (x.1.1, mark md x.1.2, x.2)) (payloads h l).
Proof.
  induction l as [|a l IH]; intros Hin Hm; [done|]. unfold payloads. cbn [omap list_omap].
  destruct (Hin a ltac:(set_solver)) as [e He]. rewrite (Hm a e) by (done || set_solver).
  rewrite He. cbn. fold (payloads h' l) (payloads h l). f_equal. apply IH.
  - intros b Hb. apply Hin. set_solver.
  - intros b eb Hb. apply Hm. set_solver.
Qed.

Definition mark_item (md : option (K -> K)) (x : Z * K * D) : Z * K * D := (x.1.1, mark md x.1.2, x.2).

Lemma reclaim_maybe_spec w bins lru k g :
  table_ok w bins lru [] -> evict (asize w.(heap)) w.(table).(space_max) lru = (k, g) ->
  reclaimed w k g [] ((if space_max (table w) <? space_used (table w) then reclaim_space sizefunc None
                       else mret None) w).
Proof.
  intros T E. destruct (Z.ltb_spec (space_max (table w)) (space_used (table w))) as [Hs|Hs].
  - unfold reclaim_space. rewrite run_table.
    eapply reclaim_space_loop_spec; [exact T|done| |done].
    rewrite (to_num _ _ _ _ T), to_nat_zlen. lia.
  - eapply reclaim_nothing; [exact T|done|done|]. rewrite (ltb_false (space_max _)) by lia. apply andb_false_r.
Qed.

(** What [finish_insert] and the end of [lruhash_update_space_used] do: the
    table keeps [k], the entries [g] are freed after they were marked. *)
Definition evicted w k g w' : Prop :=
  (exists bins', table_ok w' bins' k []) /\ same_on w.(heap) w'.(heap) k /\
  w'.(deleted) = w.(deleted) ++ events_of (map (mark_item w.(table).(markdelfunc)) (payloads w.(heap) g)) /\
  w'.(table).(space_max) = w.(table).(space_max) /\
  w'.(table).(markdelfunc) = w.(table).(markdelfunc).

Lemma finish_reclaim_spec w0 w bins bins0 lru k g p :
  table_ok w0 bins0 lru [] -> lru = k ++ g ->
  table_ok w bins k (g ++ []) -> chain w.(heap) p (g ++ []) ->
  same_on w0.(heap) w.(heap) k -> marked_on w0.(table).(markdelfunc) w0.(heap) w.(heap) g ->
  settings w = settings w0 ->
  exists w', finish_reclaim p w = Ok (tt, w') /\ evicted w0 k g w'.
Proof.
  rewrite app_nil_r. intros T0 -> T C S Mk Set1. unfold finish_reclaim. rewrite run_world.
  pose proof (to_nodup _ _ _ _ T) as N. apply NoDup_app in N as (_ & Nkg & Ng).
  destruct (finish_reclaim_loop_spec g (chain_fuel w) w p C Ng) as (h' & -> & Hh').
  { by eapply chain_fuel_enough. }
  eexists. split; [reflexivity|]. injection Set1 as Hmd Hmax Hdel.
  assert (payloads (heap w) g = map (mark_item (markdelfunc (table w0))) (payloads (heap w0) g)) as Hpay.
  { apply marked_payloads; [|done]. intros a Ha. apply (table_ok_elem _ _ _ _ a T0). set_solver. }
  split; [|split; [|split; [|done]]]; cbn [heap table deleted].
  - exists bins. by eapply table_ok_free.
  - intros a Ha. rewrite Hh', decide_False by (by apply Nkg). by apply S.
  - by rewrite Hdel, Hpay.
Qed.

Lemma finish_insert_spec alloc w bins lru k g :
  table_ok w bins lru [] -> zlen lru < 2 ^ 31 ->
  evict (asize w.(heap)) w.(table).(space_max) lru = (k, g) ->
  exists w', finish_insert sizefunc alloc w = Ok (tt, w') /\ evicted w k g w'.
Proof.
  intros T Hn E. unfold finish_insert. rewrite run_table.
  destruct (reclaim_maybe_spec w bins lru k g T E) as (w1 & bins1 & p & E1 & T1 & C1 & S1 & M1 & Set1).
  rewrite (mbind_ok _ _ _ _ _ E1), run_table. pose proof (evict_app _ _ _ _ _ E) as El.
  assert (same_on (heap w) (heap w1) k) as Sk by (eapply same_on_sub; [exact S1|set_solver]).
  destruct (Z.leb_spec (size (table w1)) (num (table w1))) as [Hg|Hg].
  - assert (size (table w1) <= 2 ^ 30) as H30.
    { rewrite (to_num _ _ _ _ T1) in Hg. destruct (to_shape _ _ _ _ T1) as (j & Hj & Ej & _).
      rewrite El, zlen_app in Hn. pose proof (zlen_nonneg g).
      assert (j < 31) by (apply (Z.pow_lt_mono_r_iff 2); lia). rewrite Ej. apply Z.pow_le_mono_r; lia. }
    destruct (table_grow_spec alloc w1 bins1 k (g ++ []) T1 H30) as (w2 & bins2 & E2 & T2 & F2 & Hot & Set2).
    rewrite (mbind_ok _ _ _ _ _ E2). pose proof (frame_payload_overflow _ _ F2) as Fp.
    eapply (finish_reclaim_spec w w2 bins2 bins lru k g); try done.
    + eapply chain_ext; [|exact C1]. intros a Ha. rewrite Hot; [done|].
      pose proof (to_nodup _ _ _ _ T1) as N. apply NoDup_app in N as (_ & N & _).
      intros Hk. by apply (N a).
    + intros a Ha. rewrite (Fp a). by apply Sk.
    + intros a e Ha He. rewrite (Fp a). by apply M1.
    + congruence.
  - rewrite run_ret. by eapply (finish_reclaim_spec w w1 bins1 bins lru k g).
Qed.
End Invariant.
