(* ===== verification/LruhashApi.v ===== *)
(** * The operations of the LRU hash table refine operations on lists

    A cache is the list of its items (hash, key, data), most recently used
    first.  Each operation of lruhash.c is proved to return without touching
    freed memory, to leave no entry in the heap that is not in the table, and to
    do to the list what the specification says, deletion callbacks included. *)

From S2P Require Import Prelude Lruhash LruhashLinks LruhashSpec.

Section Api.
Context {K D : Type} (sizefunc : K -> D -> Z) (compfunc : K -> K -> Z).
Implicit Types (h : gmap addr (lruhash_entry K D)) (w : world K D) (e : lruhash_entry K D)
  (c : list (Z * K * D)).

(** ** The specification *)

Definition isize (x : Z * K * D) : Z := sizefunc x.1.2 x.2.

Definition hit (hash : Z) (key : K) (x : Z * K * D) : bool :=
  (x.1.1 =? hash) && (compfunc x.1.2 key =? 0).

(** Looking an item up makes it the most recently used one. *)
Definition cache_lookup (hash : Z) (key : K) c : option (Z * K * D) * list (Z * K * D) :=
  match split_first (hit hash key) c with
  | Some (pre, x, post) => (Some x, x :: pre ++ post)
  | None => (None, c)
  end.

(** A new item goes first; an item that is there keeps its key, gets the new
    data and goes first, and the new key and the old data are deleted. *)
Definition cache_put (hash : Z) (key : K) (data : D) c : list (Z * K * D) * list (event K D) :=
  match split_first (hit hash key) c with
  | Some (pre, x, post) => ((x.1, data) :: pre ++ post, [DelKey key; DelData x.2])
  | None => ((hash, key, data) :: c, [])
  end.

(** Then the least recently used items leave until the rest fits. *)
Definition cache_insert (max : Z) (md : option (K -> K)) (hash : Z) (key : K) (data : D) c
    : list (Z * K * D) * list (event K D) :=
  let '(c1, ev) := cache_put hash key data c in
  let '(keep, gone) := evict isize max c1 in
  (keep, ev ++ events_of (map (mark_item md) gone)).

Definition cache_remove (md : option (K -> K)) (hash : Z) (key : K) c
    : list (Z * K * D) * list (event K D) :=
  match split_first (hit hash key) c with
  | Some (pre, x, post) => (pre ++ post, del_events (mark_item md x))
  | None => (c, [])
  end.

(** The table of [w] holds the cache [c], and the heap nothing else. *)
Definition cache_rep w c : Prop :=
  exists bins lru, table_ok sizefunc compfunc w bins lru [] /\ c = payloads w.(heap) lru.

(** ** What [sizefunc] and [compfunc] promise

    [Hsize]: the size includes the size of struct lruhash_entry (lruhash.h);
    [Hcomp]: [compfunc] returns 0 exactly on equal keys. *)
Context (Hsize : forall k d, 1 <= sizefunc k d).
Context (Hcomp : Equivalence (fun k1 k2 => compfunc k1 k2 = 0)).

(** Two keys equal to the same key are equal. *)
Lemma comp_join k1 k2 k : compfunc k1 k = 0 -> compfunc k2 k = 0 -> compfunc k1 k2 = 0.
Proof.
  intros H1 H2. destruct Hcomp as [_ Sym Tr]. exact (Tr k1 k k2 H1 (Sym k2 k H2)).
Qed.

Lemma payloads_cons h a l e : h !! a = Some e -> payloads h (a :: l) = payload e :: payloads h l.
Proof. intros He. unfold payloads. cbn [omap list_omap]. by rewrite He. Qed.

Lemma payloads_app h l1 l2 : payloads h (l1 ++ l2) = payloads h l1 ++ payloads h l2.
Proof. unfold payloads. apply omap_app. Qed.

Lemma elem_of_payloads h l x : x ∈ payloads h l <-> exists a e, a ∈ l /\ h !! a = Some e /\ x = payload e.
Proof.
  unfold payloads. rewrite list_elem_of_omap. split.
  - intros (a & Ha & E). destruct (h !! a) as [e|] eqn:He; [|done]. simpl in E.
    injection E as <-. eauto.
  - intros (a & e & Ha & He & ->). exists a. by rewrite He.
Qed.

Lemma total_payloads h l : (forall a, a ∈ l -> exists e, h !! a = Some e) ->
  total isize (payloads h l) = total (asize sizefunc h) l.
Proof.
  induction l as [|a l IH]; intros H; [done|]. destruct (H a ltac:(set_solver)) as [e He].
  rewrite (payloads_cons _ _ _ e) by done. rewrite !total_cons, IH.
  - unfold asize at 2. rewrite He. done.
  - intros b Hb. apply H. set_solver.
Qed.

Lemma zlen_payloads h l : (forall a, a ∈ l -> exists e, h !! a = Some e) ->
  zlen (payloads h l) = zlen l.
Proof.
  induction l as [|a l IH]; intros H; [done|]. destruct (H a ltac:(set_solver)) as [e He].
  rewrite (payloads_cons _ _ _ e) by done. rewrite !zlen_cons, IH; [done|].
  intros b Hb. apply H. set_solver.
Qed.

Lemma fit_payloads h l : forall budget, (forall a, a ∈ l -> exists e, h !! a = Some e) ->
  fit isize budget (payloads h l)
  = let '(k, g) := fit (asize sizefunc h) budget l in (payloads h k, payloads h g).
Proof.
  induction l as [|a l IH]; intros budget H; [done|]. destruct (H a ltac:(set_solver)) as [e He].
  rewrite (payloads_cons _ _ _ e) by done. cbn [fit].
  assert (isize (payload e) = asize sizefunc h a) as -> by (unfold asize; by rewrite He).
  destruct (_ <=? budget).
  - rewrite IH by (intros b Hb; apply H; set_solver). destruct (fit _ _ l) as [k g].
    by rewrite (payloads_cons _ _ _ e).
  - by rewrite (payloads_cons _ _ _ e).
Qed.

(** Evicting items is evicting the entries they are in. *)
Lemma evict_payloads h l max : (forall a, a ∈ l -> exists e, h !! a = Some e) ->
  evict isize max (payloads h l)
  = let '(k, g) := evict (asize sizefunc h) max l in (payloads h k, payloads h g).
Proof.
  intros H. destruct l as [|a l]; [done|]. destruct (H a ltac:(set_solver)) as [e He].
  rewrite (payloads_cons _ _ _ e) by done. cbn [evict].
  assert (isize (payload e) = asize sizefunc h a) as -> by (unfold asize; by rewrite He).
  rewrite fit_payloads by (intros b Hb; apply H; set_solver). destruct (fit _ _ l) as [k g].
  by rewrite (payloads_cons _ _ _ e).
Qed.

(** ** Finding an entry finds the item *)

Lemma hit_matches h hash key a e : h !! a = Some e ->
  hit hash key (payload e) = true <-> matches compfunc h hash key a.
Proof.
  intros He. unfold hit, matches. cbn. rewrite andb_true_iff, !Z.eqb_eq. split.
  - intros []. by exists e.
  - intros (e' & He' & ? & ?). by simplify_eq.
Qed.

Lemma find_spec w bins lru extra hash key :
  table_ok sizefunc compfunc w bins lru extra -> in_u 32 hash ->
  exists r col, bin_find_entry compfunc (Z.land hash w.(table).(size_mask)) hash key w
    = Ok ((r, col), w) /\
    match r with
    | Some f => exists l1 l2 ef, lru = l1 ++ f :: l2 /\ w.(heap) !! f = Some ef /\
        ef.(e_hash) = hash /\ compfunc ef.(e_key) key = 0 /\
        split_first (hit hash key) (payloads w.(heap) lru)
        = Some (payloads w.(heap) l1, payload ef, payloads w.(heap) l2)
    | None => (forall a, a ∈ lru -> ~ matches compfunc w.(heap) hash key a) /\
        split_first (hit hash key) (payloads w.(heap) lru) = None
    end.
Proof.
  intros T Hh. pose proof (bin_in_range _ hash (to_shape _ _ _ _ _ _ T) Hh) as Hi.
  set (i := Z.land hash (size_mask (table w))) in *. pose proof (to_bins _ _ _ _ _ _ T) as B.
  destruct (lookup_lt_is_Some_2 (array (table w)) (Z.to_nat i)) as [p Hp]; [unfold zlen in Hi; lia|].
  destruct (bins_lookup _ _ _ _ _ _ B Hp) as (l & Hl & Hc).
  destruct (bin_find_entry_spec compfunc w hash key i bins l B) as (r & col & -> & Hr); [lia|done|].
  exists r, col. split; [done|]. destruct r as [f|].
  - destruct Hr as [Hf (ef & Hef & Eh & Ek)].
    assert (f ∈ lru) as Hfl by (rewrite <- (to_perm _ _ _ _ _ _ T); apply elem_of_concat; eauto).
    apply list_elem_of_split in Hfl as (l1 & l2 & ->). exists l1, l2, ef.
    do 4 (split; [done|]). rewrite payloads_app, (payloads_cons _ _ _ ef) by done.
    apply split_first_mid; [|by apply (hit_matches (heap w) _ _ f); [|exists ef]].
    intros y (b & eb & Hb & Heb & ->)%elem_of_payloads.
    destruct (hit hash key (payload eb)) eqn:E; [|done]. exfalso.
    apply (hit_matches (heap w) _ _ b) in E as (eb' & Heb' & Eh' & Ek'); [|done]. simplify_eq.
    assert (b = f) as ->.
    { apply (to_unique _ _ _ _ _ _ T b f eb ef); [set_solver|set_solver|done|done|congruence|].
      by apply (comp_join _ _ key). }
    pose proof (to_nodup _ _ _ _ _ _ T) as N. apply NoDup_app in N as (N & _ & _).
    apply NoDup_app in N as (_ & N & _). apply (N f Hb). set_solver.
  - assert (forall a, a ∈ lru -> ~ matches compfunc (heap w) hash key a) as Hno.
    { intros a Ha Hm. pose proof Hm as (ea & Hea & Eh & Ek).
      destruct (table_ok_bin _ _ _ _ _ _ a ea T Ha Hea) as (l1 & l2 & Hl').
      rewrite Eh in Hl'. fold i in Hl'. rewrite Hl in Hl'. injection Hl' as ->.
      apply (Hr a); [set_solver|done]. }
    split; [done|]. apply split_first_none. intros y (b & eb & Hb & Heb & ->)%elem_of_payloads.
    destruct (hit hash key (payload eb)) eqn:E; [|done].
    apply (hit_matches (heap w) _ _ b) in E; [|done]. by destruct (Hno b Hb).
Qed.

(** ** Touching *)

Lemma touch_perm (l1 : list addr) f l2 : f :: l1 ++ l2 ≡ₚ l1 ++ f :: l2.
Proof. apply Permutation_middle. Qed.

Lemma lru_touch_ok w bins l1 f l2 extra :
  table_ok sizefunc compfunc w bins (l1 ++ f :: l2) extra ->
  exists w', lru_touch f w = Ok (tt, w') /\
    table_ok sizefunc compfunc w' bins (f :: l1 ++ l2) extra /\
    frame off_lru w.(heap) w'.(heap) /\ settings w' = settings w /\
    w'.(table).(size_mask) = w.(table).(size_mask).
Proof.
  intros T. destruct (lru_touch_spec w l1 f l2 (to_lru _ _ _ _ _ _ T)) as (h' & s & t & -> & F & R).
  eexists. split; [reflexivity|]. split; [|done].
  eapply (table_ok_rebuild _ _ w bins _ extra); [exact T|..];
    cbn [with_lru size_mask array lru_start lru_end num space_used].
  - apply T.
  - apply (bins_frame _ _ _ _ _ F), T.
  - done.
  - rewrite touch_perm. apply T.
  - by apply (frame_dom _ _ _ F).
  - by rewrite touch_perm.
  - intros a Ha. by rewrite <- touch_perm.
  - apply frame_same_on. by apply frame_payload_lru.
  - rewrite (to_num _ _ _ _ _ _ T). unfold zlen. by rewrite touch_perm.
  - rewrite (to_space _ _ _ _ _ _ T). apply total_perm. by rewrite touch_perm.
  - apply T.
Qed.

Lemma table_ok_entries w bins lru extra : table_ok sizefunc compfunc w bins lru extra ->
  forall a, a ∈ lru -> exists e, w.(heap) !! a = Some e.
Proof. intros T a Ha. eapply table_ok_elem; [exact T|]. set_solver. Qed.

Lemma lookup_refines w c hash key :
  cache_rep w c -> in_u 32 hash ->
  exists r w', lruhash_lookup compfunc hash key w = Ok (r, w') /\
    cache_rep w' (cache_lookup hash key c).2 /\
    (r ≫= fun a => payload <$> w'.(heap) !! a) = (cache_lookup hash key c).1 /\
    settings w' = settings w.
Proof.
  intros (bins & lru & T & ->) Hh. unfold lruhash_lookup, cache_lookup. rewrite run_table. cbn zeta.
  destruct (find_spec w bins lru [] hash key T Hh) as (r & col & E & Hr).
  rewrite (mbind_ok _ _ _ _ _ E). destruct r as [f|].
  - destruct Hr as (l1 & l2 & ef & -> & Hef & _ & _ & ->).
    destruct (lru_touch_ok w bins l1 f l2 [] T) as (w' & E' & T' & F & Set1 & _).
    rewrite (mbind_ok _ _ _ _ _ E'). exists (Some f), w'. split; [done|].
    pose proof (frame_payload_lru _ _ F) as Fp. cbn [fst snd]. split; [|split; [|done]].
    + exists bins, (f :: l1 ++ l2). split; [done|].
      rewrite (payloads_same (heap w) (heap w')) by (by apply frame_same_on).
      by rewrite (payloads_cons _ _ _ ef), payloads_app.
    + cbn. by rewrite (Fp f), Hef.
  - destruct Hr as [_ ->]. exists None, w. split; [done|]. split; [|done]. by exists bins, lru.
Qed.

(** ** Adding an entry *)

(** The caller's new entry, before the call. *)
Definition with_entry (a : addr) e w : world K D := mk_world (<[a := e]> w.(heap)) w.(table) w.(deleted).

Lemma table_ok_alloc w bins lru a e :
  table_ok sizefunc compfunc w bins lru [] -> a ∉ dom w.(heap) ->
  table_ok sizefunc compfunc (with_entry a e w) bins lru [a].
Proof.
  intros T Ha. pose proof (to_dom _ _ _ _ _ _ T) as Hdom. rewrite app_nil_r in Hdom.
  assert (a ∉ lru) as Hal by (rewrite Hdom in Ha; by rewrite elem_of_list_to_set in Ha).
  assert (forall b, b ∈ lru -> <[a := e]> (heap w) !! b = heap w !! b) as Hl.
  { intros b Hb. rewrite lookup_insert_ne; [done|]. by intros ->. }
  destruct T as [Tshape Tbins Tlru Tperm Tdom Tnodup Thash Tnum Tspace Tbound Tuniq].
  split; cbn [with_entry heap table]; try done.
  - apply bins_insert_other; [|done]. by rewrite Tperm.
  - destruct Tlru as [Dl Sl El Nl]. split; [|done..]. by apply dll_insert.
  - rewrite dom_insert_L, Hdom, list_to_set_app_L. cbn. set_solver.
  - rewrite app_nil_r in Tnodup. apply NoDup_app. split; [done|]. split; [|apply NoDup_singleton].
    intros b Hb Hb'. apply list_elem_of_singleton in Hb' as ->. done.
  - intros b eb Hb. rewrite Hl by done. by apply Thash.
  - rewrite Tspace. apply total_ext. intros b Hb. apply asize_payload. by rewrite Hl.
  - intros b b' eb eb' Hb Hb'. rewrite !Hl by done. by apply Tuniq.
Qed.

(** The invariant with one more entry in front. *)
Lemma table_ok_add w bins lru a e h' t' del bins' :
  table_ok sizefunc compfunc w bins lru [a] -> w.(heap) !! a = Some e ->
  in_u 32 e.(e_hash) -> (forall b, b ∈ lru -> ~ matches compfunc w.(heap) e.(e_hash) e.(e_key) b) ->
  table_shape t' -> bins_rep h' t'.(size_mask) t'.(array) bins' ->
  lru_rep h' t'.(lru_start) t'.(lru_end) (a :: lru) -> concat bins' ≡ₚ a :: lru ->
  frame payload w.(heap) h' -> t'.(num) = 1 + zlen lru ->
  t'.(space_used) = w.(table).(space_used) + esize sizefunc e -> t'.(space_used) < 2 ^ 64 ->
  table_ok sizefunc compfunc (mk_world h' t' del) bins' (a :: lru) [].
Proof.
  intros T He Hh Hno Hsh B R P F Hnum Hspace Hb.
  pose proof (frame_same_on _ _ (a :: lru) F) as S. split; cbn [heap table]; try done.
  - rewrite (frame_dom _ _ _ F), (to_dom _ _ _ _ _ _ T). rewrite !list_to_set_app_L. cbn. set_solver.
  - rewrite app_nil_r. pose proof (to_nodup _ _ _ _ _ _ T) as N.
    by rewrite <- Permutation_cons_append in N.
  - eapply hash_same_on; [exact S|]. intros b eb [->|Hb']%elem_of_cons Heb.
    + by simplify_eq.
    + by eapply (to_hash _ _ _ _ _ _ T).
  - by rewrite zlen_cons.
  - rewrite (total_same_on _ _ _ _ S), total_cons, Hspace, (to_space _ _ _ _ _ _ T).
    unfold asize at 2. rewrite He. lia.
  - eapply unique_same_on; [exact S|].
    assert (forall b eb, b ∈ lru -> heap w !! b = Some eb -> e_hash eb = e_hash e ->
      compfunc (e_key eb) (e_key e) = 0 -> False) as Hx.
    { intros b eb Hb' Heb Eh Ek. apply (Hno b Hb'). by exists eb. }
    intros b b' eb eb' [->|H1]%elem_of_cons [->|H2]%elem_of_cons Heb Heb' Eh Ek; simplify_eq; try done.
    + exfalso. eapply Hx; [exact H2|done|done|]. destruct Hcomp as [_ Sym _]. by apply Sym.
    + exfalso. by eapply Hx.
    + by eapply (to_unique _ _ _ _ _ _ T).
Qed.

Lemma add_entry_spec w bins lru a e col :
  table_ok sizefunc compfunc w bins lru [a] -> w.(heap) !! a = Some e -> in_u 32 e.(e_hash) ->
  (forall b, b ∈ lru -> ~ matches compfunc w.(heap) e.(e_hash) e.(e_key) b) ->
  w.(table).(space_used) + esize sizefunc e < 2 ^ 64 ->
  exists w' bins', add_entry (Z.land e.(e_hash) w.(table).(size_mask)) a (esize sizefunc e) col w
      = Ok (tt, w') /\
    table_ok sizefunc compfunc w' bins' (a :: lru) [] /\ frame payload w.(heap) w'.(heap) /\
    settings w' = settings w.
Proof.
  intros T He Hh Hno Hb. pose proof (bin_in_range _ _ (to_shape _ _ _ _ _ _ T) Hh) as Hi.
  set (i := Z.land (e_hash e) (size_mask (table w))) in *. pose proof (to_bins _ _ _ _ _ _ T) as B.
  destruct (lookup_lt_is_Some_2 (array (table w)) (Z.to_nat i)) as [p Hp]; [unfold zlen in Hi; lia|].
  destruct (bins_lookup _ _ _ _ _ _ B Hp) as (l & Hl & Hc).
  assert (a ∉ lru) as Hal.
  { pose proof (to_nodup _ _ _ _ _ _ T) as N. apply NoDup_app in N as (_ & N & _).
    intros Hin. apply (N a Hin). set_solver. }
  unfold add_entry. rewrite run_table, (run_bin_head _ _ p) by (done || lia).
  rewrite (run_modify _ _ e) by done. rewrite run_bin_set by lia. rewrite run_set.
  cbn [heap table deleted].
  pose proof (bins_push _ _ _ _ (Z.to_nat i) p l a e B ltac:(by rewrite (to_perm _ _ _ _ _ _ T)) He
    ltac:(unfold i in *; lia) Hp Hl) as B1.
  set (h1 := <[a := set_overflow_next p e]> (heap w)) in *.
  set (ar := <[Z.to_nat i := Some a]> (array (table w))) in *.
  assert (frame off_overflow (heap w) h1) as F1 by (by eapply frame_insert).
  destruct (lru_front_spec (mk_world h1 (with_array ar (table w)) (deleted w)) lru a)
    as (h2 & s & t & E2 & F2 & R2); cbn [heap table deleted] in *.
  { eapply lru_rep_frame; [exact F1|]. apply T. }
  { done. }
  { unfold h1. by rewrite lookup_insert_eq. }
  rewrite (mbind_ok _ _ _ _ _ E2), run_set, run_table. cbn [heap table deleted].
  destruct (concat_insert bins _ _ Hl) as (rest & Ec & Ec').
  pose proof (table_ok_len _ _ Hsize _ _ _ _ T) as Hlen. rewrite <- (to_space _ _ _ _ _ _ T) in Hlen.
  pose proof (zlen_nonneg lru). pose proof (Hsize (e_key e) (e_data e)) as He1. fold (esize sizefunc e) in He1.
  assert (forall upd : lruhash K -> lruhash K, let t' := with_space (u64 (space_used (table w) + esize sizefunc e))
      (upd (with_num (u64 (num (table w) + 1)) (with_lru s t (with_array ar (table w))))) in
    (upd = (fun t => t) \/ upd = with_collisions col) ->
    table_ok sizefunc compfunc (mk_world h2 t' (deleted w)) (<[Z.to_nat i := a :: l]> bins) (a :: lru) []) as Hok.
  { intros upd t' Hc'.
    assert (u64 (space_used (table w) + esize sizefunc e) = space_used (table w) + esize sizefunc e) as Hu.
    { apply wrap_small. unfold in_u. lia. }
    assert (u64 (num (table w) + 1) = 1 + zlen lru) as Hn.
    { rewrite (to_num _ _ _ _ _ _ T), wrap_small by (unfold in_u; lia). lia. }
    eapply table_ok_add; [exact T|exact He|done|done|..]; unfold t';
      destruct Hc' as [-> | ->];
      cbn [with_space with_collisions with_num with_lru with_array size_mask array lru_start lru_end num space_used];
      try done; try (rewrite Hu; done).
    1,2: apply (shape_array (table w) ar); [apply T|apply length_insert].
    1,2: by apply (bins_frame _ _ _ _ _ F2).
    1,2: rewrite Ec'; cbn [app]; by rewrite <- Ec, (to_perm _ _ _ _ _ _ T).
    1,2: etrans; [by apply frame_payload_overflow|by apply frame_payload_lru]. }
  assert (frame payload (heap w) h2) as Fp.
  { etrans; [by apply frame_payload_overflow|by apply frame_payload_lru]. }
  destruct (max_collisions _ <? col).
  - eexists _, _. split; [reflexivity|]. split; [apply (Hok (with_collisions col)); by right|done].
  - eexists _, _. split; [reflexivity|]. split; [apply (Hok (fun t => t)); by left|done].
Qed.

(** ** Replacing the data of an entry *)

(** [Hkeysize]: keys that are identical calculate to the same size (lruhash.h). *)
Context (Hkeysize : forall k1 k2 d, compfunc k1 k2 = 0 -> sizefunc k1 d = sizefunc k2 d).

(** The update branch of [lruhash_insert]. *)
Definition update_entry (entry f : addr) (need_size : Z) (data : D) : M K D unit :=
  fe ← load f;
  set_table (fun t =>
    with_space (u64 (t.(space_used) + (need_size - sizefunc fe.(e_key) fe.(e_data)))) t);;
  delkey entry;;
  lru_touch f;;
  fe ← load f;
  deldata fe.(e_data);;
  modify f (set_e_data data).

(** The invariant after [f] got new data and went first, and [a] was freed. *)
Lemma table_ok_replace w bins l1 f l2 a ef e3 h3 t3 del :
  table_ok sizefunc compfunc w bins (l1 ++ f :: l2) [a] ->
  w.(heap) !! f = Some ef -> h3 !! f = Some e3 ->
  (e3.(overflow_next), e3.(e_hash), e3.(e_key)) = (ef.(overflow_next), ef.(e_hash), ef.(e_key)) ->
  (forall b, b ∈ l1 ++ l2 -> off_lru <$> h3 !! b = off_lru <$> w.(heap) !! b) ->
  dom h3 = dom w.(heap) ∖ {[a]} -> lru_rep h3 t3.(lru_start) t3.(lru_end) (f :: l1 ++ l2) ->
  table_shape t3 -> t3.(size_mask) = w.(table).(size_mask) -> t3.(array) = w.(table).(array) ->
  t3.(num) = w.(table).(num) ->
  t3.(space_used) = esize sizefunc e3 + total (asize sizefunc w.(heap)) (l1 ++ l2) ->
  t3.(space_used) < 2 ^ 64 ->
  table_ok sizefunc compfunc (mk_world h3 t3 del) bins (f :: l1 ++ l2) [] /\
  same_on w.(heap) h3 (l1 ++ l2).
Proof.
  intros T Hef Hf3 Heq Hoth Hdom R2 Hsh Hmask Harr Hnum Hspace Hb. injection Heq as Hov Hh Hke.
  pose proof (to_nodup _ _ _ _ _ _ T) as N. apply NoDup_app in N as (N & Na & _).
  assert (same_on (heap w) h3 (l1 ++ l2)) as S.
  { intros b Hb'. specialize (Hoth b Hb'). destruct (h3 !! b), (heap w !! b); try done.
    simpl in *. unfold off_lru, payload in *. congruence. }
  assert (forall b, b ∈ l1 ++ f :: l2 -> b = f \/ b ∈ l1 ++ l2) as Hcase.
  { intros b. rewrite <- touch_perm. apply elem_of_cons. }
  split; [|done]. split; cbn [heap table]; rewrite ?Hmask, ?Harr, ?Hnum; try done.
  - eapply bins_ext; [|apply T]. intros b Hb'. rewrite (to_perm _ _ _ _ _ _ T) in Hb'.
    destruct (Hcase b Hb') as [->|Hb2].
    + rewrite Hf3, Hef. cbn. by rewrite Hov, Hh.
    + specialize (Hoth b Hb2). destruct (h3 !! b), (heap w !! b); try done.
      simpl in *. unfold off_lru in Hoth. congruence.
  - rewrite touch_perm. apply T.
  - rewrite app_nil_r, Hdom, (to_dom _ _ _ _ _ _ T).
    apply set_eq. intros b. rewrite elem_of_difference, !elem_of_list_to_set, elem_of_app, <- touch_perm.
    rewrite list_elem_of_singleton, elem_of_singleton. split; [tauto|]. intros Hb'.
    split; [by left|]. rewrite touch_perm in Hb'. intros ->. apply (Na a Hb'). by left.
  - rewrite app_nil_r. by rewrite touch_perm.
  - intros b eb Hb' Heb. rewrite touch_perm in Hb'. destruct (Hcase b Hb') as [->|Hb2].
    + rewrite Hf3 in Heb. injection Heb as <-. rewrite Hh. by eapply (to_hash _ _ _ _ _ _ T f).
    + specialize (Hoth b Hb2). rewrite Heb in Hoth. destruct (heap w !! b) as [eb'|] eqn:Eb; [|done].
      simpl in Hoth. injection Hoth as _ -> _ _. by eapply (to_hash _ _ _ _ _ _ T b).
  - rewrite (to_num _ _ _ _ _ _ T). unfold zlen. by rewrite touch_perm.
  - rewrite Hspace, total_cons, (total_same_on _ _ _ _ S). unfold asize at 2. by rewrite Hf3.
  - intros b b' eb eb' Hb1 Hb2. rewrite touch_perm in Hb1, Hb2. revert b b' eb eb' Hb1 Hb2.
    refine (unique_ext _ (heap w) h3 (l1 ++ f :: l2) _ (to_unique _ _ _ _ _ _ T)).
    intros b Hb'. destruct (Hcase b Hb') as [->|Hb2].
    + rewrite Hf3, Hef. cbn. by rewrite Hh, Hke.
    + specialize (S b Hb2). destruct (h3 !! b), (heap w !! b); try done.
      simpl in *. unfold payload in S. congruence.
Qed.

Lemma update_entry_spec w bins l1 f l2 a e ef data :
  table_ok sizefunc compfunc w bins (l1 ++ f :: l2) [a] ->
  w.(heap) !! a = Some e -> w.(heap) !! f = Some ef -> compfunc ef.(e_key) e.(e_key) = 0 ->
  w.(table).(space_used) + sizefunc e.(e_key) data < 2 ^ 64 ->
  exists w', update_entry a f (sizefunc e.(e_key) data) data w = Ok (tt, w') /\
    table_ok sizefunc compfunc w' bins (f :: l1 ++ l2) [] /\
    payload <$> w'.(heap) !! f = Some (ef.(e_hash), ef.(e_key), data) /\
    same_on w.(heap) w'.(heap) (l1 ++ l2) /\
    w'.(table).(markdelfunc) = w.(table).(markdelfunc) /\
    w'.(table).(space_max) = w.(table).(space_max) /\
    w'.(deleted) = w.(deleted) ++ [DelKey e.(e_key); DelData ef.(e_data)].
Proof.
  intros T He Hef Hk Hb. pose proof (to_nodup _ _ _ _ _ _ T) as N. apply NoDup_app in N as (N & Na & _).
  assert (forall b, b ∈ l1 ++ f :: l2 -> b <> a) as Hba.
  { intros b Hin ->. apply (Na a Hin). by left. }
  assert (f ∉ l1 ++ l2) as Hf by (rewrite <- touch_perm in N; by apply NoDup_cons in N as [N _]).
  assert (f <> a) as Hfa by (apply Hba; rewrite <- touch_perm; by left).
  unfold update_entry. rewrite (run_load _ ef) by done. rewrite run_set. cbn [heap table deleted].
  unfold delkey at 1. unfold mbind at 1, M_bind at 1. cbn [heap table deleted]. rewrite He.
  set (t1 := with_space _ _).
  destruct (lru_touch_spec (mk_world (delete a (heap w)) t1 (deleted w ++ [DelKey (e_key e)])) l1 f l2)
    as (h2 & s & z & E2 & F2 & R2); cbn [heap table deleted] in *.
  { destruct (to_lru _ _ _ _ _ _ T) as [Dl Sl El Nl]. split; [|done..]. apply dll_delete; [|done].
    intros Hin. by apply (Hba a). }
  rewrite (mbind_ok _ _ _ _ _ E2).
  assert (delete a (heap w) !! f = Some ef) as Hef1 by (by rewrite lookup_delete_ne).
  destruct (frame_lookup _ _ _ _ _ F2 Hef1) as (e2 & He2 & Hoff). injection Hoff as Hov Hh Hke Hda.
  rewrite (run_load _ e2) by done. unfold deldata at 1. unfold mbind at 1, M_bind at 1.
  cbn [heap table deleted]. rewrite (modify_ok _ _ e2) by done. cbn [heap table deleted].
  pose proof (total_nonneg (asize sizefunc (heap w)) (asize_nonneg _ Hsize _) (l1 ++ l2)) as Hnn.
  pose proof (Hsize (e_key ef) (e_data ef)) as Hpos. pose proof (Hsize (e_key e) data) as Hpos'.
  pose proof (to_space _ _ _ _ _ _ T) as Hsp.
  rewrite (total_perm _ _ _ (symmetry (touch_perm l1 f l2))), total_cons in Hsp.
  unfold asize at 1, esize in Hsp. rewrite Hef in Hsp.
  eexists. split; [reflexivity|].
  destruct (table_ok_replace w bins l1 f l2 a ef (set_e_data data e2) (<[f := set_e_data data e2]> h2)
    (with_lru s z t1) ((deleted w ++ [DelKey (e_key e)]) ++ [DelData (e_data e2)]))
    as [T' S]; cbn [t1 with_lru with_space size_mask array lru_start lru_end num space_used]; try done.
  - apply lookup_insert_eq.
  - cbn. by rewrite Hov, Hh, Hke.
  - intros b Hin. rewrite lookup_insert_ne by (by intros ->). rewrite (F2 b).
    rewrite lookup_delete_ne; [done|]. symmetry. apply Hba. rewrite <- touch_perm. by right.
  - rewrite dom_insert_lookup_L by (by rewrite He2). by rewrite (frame_dom _ _ _ F2), dom_delete_L.
  - destruct R2 as [Dl Sl El Nl]. split; [|done..]. eapply dll_ext; [|exact Dl].
    intros b _. destruct (decide (b = f)) as [->|Hbf].
    + by rewrite lookup_insert_eq, He2.
    + by rewrite lookup_insert_ne.
  - apply T.
  - unfold esize. cbn. rewrite Hke, <- (Hkeysize _ _ data Hk).
    rewrite wrap_small by (rewrite <- (Hkeysize _ _ data Hk) in *; unfold in_u; lia).
    lia.
  - apply wrap_range. lia.
  - split; [exact T'|]. split; [|split; [exact S|split; [done|split; [done|]]]].
    + cbn [heap]. rewrite lookup_insert_eq. unfold payload. cbn. by rewrite Hh, Hke.
    + cbn [deleted]. by rewrite Hda, <- app_assoc.
Qed.

(** ** Insertion *)

(** The space the table may use, and the callback. *)
Definition limits w := (w.(table).(space_max), w.(table).(markdelfunc)).

Lemma finish_insert_refines alloc w bins lru :
  table_ok sizefunc compfunc w bins lru [] -> zlen lru < 2 ^ 31 ->
  exists w', finish_insert sizefunc alloc w = Ok (tt, w') /\ limits w' = limits w /\
    cache_rep w' (evict isize w.(table).(space_max) (payloads w.(heap) lru)).1 /\
    w'.(deleted) = w.(deleted) ++ events_of (map (mark_item w.(table).(markdelfunc))
      (evict isize w.(table).(space_max) (payloads w.(heap) lru)).2).
Proof.
  intros T Hn. destruct (evict (asize sizefunc (heap w)) (space_max (table w)) lru) as [k g] eqn:E.
  destruct (finish_insert_spec _ _ Hsize alloc w bins lru k g T Hn E)
    as (w' & Er & (bins' & T') & S & Hd & Hm & Hmd).
  exists w'. split; [done|]. rewrite evict_payloads by (eapply table_ok_entries; exact T).
  rewrite E. cbn [fst snd]. split; [unfold limits; congruence|]. split; [|done].
  exists bins', k. split; [done|]. symmetry. by apply payloads_same.
Qed.

Lemma insert_refines alloc w c a e hash data :
  cache_rep w c -> a ∉ dom w.(heap) -> e.(e_hash) = hash -> e.(e_data) = data -> in_u 32 hash ->
  total isize c + sizefunc e.(e_key) data < 2 ^ 64 -> zlen c + 1 < 2 ^ 31 ->
  exists w', lruhash_insert sizefunc compfunc alloc hash a data (with_entry a e w) = Ok (tt, w') /\
    limits w' = limits w /\
    let r := cache_insert w.(table).(space_max) w.(table).(markdelfunc) hash e.(e_key) data c in
    cache_rep w' r.1 /\ w'.(deleted) = w.(deleted) ++ r.2.
Proof.
  intros (bins & lru & T0 & ->) Ha Eh Ed Hh Hs Hn.
  pose proof (table_ok_alloc w bins lru a e T0 Ha) as T.
  pose proof (table_ok_entries _ _ _ _ T0) as Hent.
  rewrite (total_payloads _ _ Hent), <- (to_space _ _ _ _ _ _ T0) in Hs.
  rewrite (zlen_payloads _ _ Hent) in Hn.
  assert (forall b, b ∈ lru -> heap (with_entry a e w) !! b = heap w !! b) as Hl.
  { intros b Hb. cbn. apply lookup_insert_ne. intros ->. apply Ha. apply elem_of_dom.
    by destruct (Hent b Hb) as [? ->]. }
  assert (payloads (heap (with_entry a e w)) lru = payloads (heap w) lru) as Hpay.
  { apply payloads_same. intros b Hb. by rewrite Hl. }
  assert (heap (with_entry a e w) !! a = Some e) as Hae by (cbn; apply lookup_insert_eq).
  unfold lruhash_insert. rewrite (run_load _ e) by done. rewrite run_table. cbn zeta.
  unfold cache_insert, cache_put.
  destruct (find_spec (with_entry a e w) bins lru [a] hash (e_key e) T Hh) as (r & col & E & Hr).
  rewrite (mbind_ok _ _ _ _ _ E). rewrite Hpay in Hr. destruct r as [f|].
  - destruct Hr as (l1 & l2 & ef & -> & Hef & Ehf & Ekf & ->).
    destruct (update_entry_spec (with_entry a e w) bins l1 f l2 a e ef data T Hae Hef Ekf Hs)
      as (w1 & E1 & T1 & Pf & S1 & Hmd & Hmax & Hdel).
    change (sizefunc (e_key e) data) with (sizefunc (e_key e) data) in E1.
    rewrite (mbind_ok _ _ _ _ _ E1).
    destruct (finish_insert_refines alloc w1 bins (f :: l1 ++ l2) T1) as (w' & E2 & L2 & R2 & D2).
    { unfold zlen in *. rewrite touch_perm. lia. }
    exists w'. split; [done|]. unfold limits in L2. rewrite Hmd, Hmax in *. split; [done|].
    assert (payloads (heap w1) (f :: l1 ++ l2) = (e_hash ef, e_key ef, data)
      :: payloads (heap (with_entry a e w)) l1 ++ payloads (heap (with_entry a e w)) l2) as P1.
    { unfold payloads at 1. cbn [omap list_omap]. rewrite Pf. f_equal. rewrite <- payloads_app.
      by apply payloads_same. }
    rewrite P1 in R2, D2. change (table (with_entry a e w)) with (table w) in *.
    change ((payload ef).1, data) with (e_hash ef, e_key ef, data).
    change (payload ef).2 with (e_data ef).
    destruct (evict isize _ _) as [keep gone]. cbn [fst snd] in *. split; [done|].
    rewrite D2, Hdel. cbn [with_entry deleted]. by rewrite <- app_assoc.
  - destruct Hr as [Hno ->].
    assert (esize sizefunc e = sizefunc (e_key e) data) as Hes by (unfold esize; by rewrite Ed).
    destruct (add_entry_spec (with_entry a e w) bins lru a e col T Hae)
      as (w1 & bins1 & E1 & T1 & F1 & Set1); [by rewrite Eh|by rewrite Eh|by rewrite Hes|].
    rewrite Eh, Hes in E1. rewrite (mbind_ok _ _ _ _ _ E1). injection Set1 as Hmd Hmax Hdel.
    destruct (finish_insert_refines alloc w1 bins1 (a :: lru) T1) as (w' & E2 & L2 & R2 & D2).
    { rewrite zlen_cons. lia. }
    exists w'. split; [done|]. unfold limits in L2. rewrite Hmd, Hmax in *. split; [done|].
    assert (payloads (heap w1) (a :: lru) = (hash, e_key e, data) :: payloads (heap w) lru) as P1.
    { rewrite (payloads_same (heap (with_entry a e w)) (heap w1)) by (by apply frame_same_on).
      rewrite (payloads_cons _ _ _ e), Hpay by done. unfold payload. by rewrite Eh, Ed. }
    rewrite P1 in R2, D2. cbn [with_entry table] in *. destruct (evict isize _ _) as [keep gone]. cbn [fst snd] in *.
    split; [done|]. rewrite D2, Hdel. done.
Qed.

(** ** Removal *)

Lemma remove_refines w c hash key :
  cache_rep w c -> in_u 32 hash ->
  exists w', lruhash_remove sizefunc compfunc hash key w = Ok (tt, w') /\ limits w' = limits w /\
    let r := cache_remove w.(table).(markdelfunc) hash key c in
    cache_rep w' r.1 /\ w'.(deleted) = w.(deleted) ++ r.2.
Proof.
  intros (bins & lru & T & ->) Hh. unfold lruhash_remove, cache_remove. rewrite run_table. cbn zeta.
  destruct (find_spec w bins lru [] hash key T Hh) as (r & col & E & Hr).
  rewrite (mbind_ok _ _ _ _ _ E). destruct r as [f|].
  2:{ destruct Hr as [_ ->]. exists w. split; [done|]. split; [done|]. cbn. rewrite app_nil_r.
      split; [by exists bins, lru|done]. }
  destruct Hr as (l1 & l2 & ef & -> & Hef & Ehf & Ekf & ->).
  pose proof (to_nodup _ _ _ _ _ _ T) as N. rewrite app_nil_r, <- touch_perm in N.
  apply NoDup_cons in N as [Hf N].
  destruct (table_ok_bin _ _ _ _ _ _ f ef T) as (b1 & b2 & Hbin);
    [rewrite <- touch_perm; by left|done|]. rewrite Ehf in Hbin.
  pose proof (bin_in_range _ hash (to_shape _ _ _ _ _ _ T) Hh) as Hi.
  destruct (bin_overflow_remove_spec w bins _ b1 f b2 (to_bins _ _ _ _ _ _ T) (proj1 Hi) Hbin)
    as (h1 & ar & E1 & F1 & Lar & _ & B1).
  rewrite (mbind_ok _ _ _ _ _ E1).
  destruct (lru_remove_spec (mk_world h1 (with_array ar (table w)) (deleted w)) l1 f l2)
    as (h2 & s & z & E2 & F2 & R2); cbn [heap table deleted] in *.
  { eapply lru_rep_frame; [exact F1|]. apply T. }
  rewrite (mbind_ok _ _ _ _ _ E2), run_set. cbn [heap table deleted].
  destruct (frame_lookup _ _ _ _ _ F1 Hef) as (e1 & He1 & Ho1).
  destruct (frame_lookup _ _ _ _ _ F2 He1) as (e2 & He2 & Ho2).
  assert (payload e2 = payload ef) as Hp2.
  { unfold payload. unfold off_overflow, off_lru in *. congruence. }
  rewrite (run_load _ e2) by done. rewrite run_set. cbn [heap table deleted].
  set (t3 := with_space _ _).
  destruct (markdel_spec (mk_world h2 t3 (deleted w)) f e2 He2) as (e3 & E3 & _ & Hp3).
  rewrite (mbind_ok _ _ _ _ _ E3). cbn [heap table deleted] in *.
  rewrite (run_load _ e3) by (cbn [heap]; apply lookup_insert_eq). cbn zeta.
  unfold delkey at 1. unfold mbind at 1, M_bind at 1. cbn [heap table deleted]. rewrite lookup_insert_eq.
  unfold deldata. cbn [heap table deleted]. rewrite delete_insert_eq.
  eexists. split; [reflexivity|]. split; [done|]. cbn [fst snd heap table deleted].
  assert (frame payload (heap w) h2) as Fp.
  { etrans; [by apply frame_payload_overflow|by apply frame_payload_lru]. }
  injection Hp2 as Eh2 Ek2 Ed2. split.
  2:{ rewrite <- app_assoc. f_equal. unfold del_events, mark_item. injection Hp3 as _ -> ->. cbn.
      by rewrite Ek2, Ed2. }
  exists (<[Z.to_nat (Z.land hash (size_mask (table w))) := b1 ++ b2]> bins), (l1 ++ l2). split.
  2:{ rewrite <- payloads_app. symmetry. apply payloads_same. intros b Hb.
      cbn [heap]. rewrite lookup_delete_ne by (by intros ->). apply Fp. }
  eapply (table_ok_free _ _ (mk_world h2 t3 []) _ _ [f]).
  2:{ intros b. destruct (decide (b ∈ [f])) as [->%list_elem_of_singleton|Hb].
      - apply lookup_delete_eq.
      - rewrite lookup_delete_ne; [done|]. intros ->. apply Hb. by left. }
  pose proof (to_space _ _ _ _ _ _ T) as Hsp. pose proof (to_bound _ _ _ _ _ _ T) as Hbd.
  pose proof (table_ok_len _ _ Hsize _ _ _ _ T) as Hlen. rewrite <- Hsp in Hlen.
  rewrite (total_perm _ _ _ (symmetry (touch_perm l1 f l2))), total_cons in Hsp.
  unfold asize at 1 in Hsp. rewrite Hef in Hsp.
  pose proof (total_nonneg (asize sizefunc (heap w)) (asize_nonneg _ Hsize _) (l1 ++ l2)) as Hnn.
  pose proof (Hsize (e_key ef) (e_data ef)) as Hpos. fold (esize sizefunc ef) in Hpos.
  assert (zlen (l1 ++ f :: l2) = 1 + zlen (l1 ++ l2)) as Hz.
  { rewrite <- zlen_cons with (x := f). unfold zlen. by rewrite touch_perm. }
  pose proof (zlen_nonneg (l1 ++ l2)).
  eapply (table_ok_rebuild _ _ w bins _ []); [exact T|..];
    cbn [t3 with_num with_space with_array with_lru size_mask array lru_start lru_end num space_used].
  - apply (shape_array (table w)); [apply T|done].
  - by apply (bins_frame _ _ _ _ _ F2).
  - done.
  - eapply bin_remove_perm; [done|]. rewrite (to_perm _ _ _ _ _ _ T). by rewrite touch_perm.
  - by rewrite (frame_dom _ _ _ F2), (frame_dom _ _ _ F1).
  - rewrite app_nil_r, <- (touch_perm l1 f l2). symmetry. apply Permutation_cons_append.
  - intros b Hb. rewrite <- touch_perm. by right.
  - by apply frame_same_on.
  - rewrite (to_num _ _ _ _ _ _ T), Hz, wrap_small by (unfold in_u; lia). lia.
  - rewrite Ek2, Ed2. fold (esize sizefunc ef). rewrite wrap_small by (unfold in_u; lia). lia.
  - apply wrap_range. lia.
Qed.

(** ** Sequences of operations *)

Inductive lru_op :=
  | OpInsert (alloc : bool) (hash : Z) (key : K) (data : D)
  | OpLookup (hash : Z) (key : K)
  | OpRemove (hash : Z) (key : K).

(** The item of the entry a lookup returns; an insertion allocates its entry. *)
Definition exec_op w (op : lru_op) : outcome (option (Z * K * D) * world K D) :=
  match op with
  | OpInsert alloc hash key data =>
      let a := fresh (dom w.(heap)) in
      '(_, w') ← lruhash_insert sizefunc compfunc alloc hash a data
                   (with_entry a (mk_entry None None None hash key data) w);
      Ok (None, w')
  | OpLookup hash key =>
      '(r, w') ← lruhash_lookup compfunc hash key w;
      Ok (r ≫= fun a => payload <$> w'.(heap) !! a, w')
  | OpRemove hash key =>
      '(_, w') ← lruhash_remove sizefunc compfunc hash key w;
      Ok (None, w')
  end.

Fixpoint exec w (ops : list lru_op) : outcome (list (option (Z * K * D)) * world K D) :=
  match ops with
  | [] => Ok ([], w)
  | op :: ops' =>
      '(r, w1) ← exec_op w op;
      '(rs, w2) ← exec w1 ops';
      Ok (r :: rs, w2)
  end.

(** The same on lists: result, cache, deletions. *)
Definition spec_op (max : Z) (md : option (K -> K)) c (op : lru_op)
    : option (Z * K * D) * list (Z * K * D) * list (event K D) :=
  match op with
  | OpInsert _ hash key data => (None, (cache_insert max md hash key data c).1, (cache_insert max md hash key data c).2)
  | OpLookup hash key => (cache_lookup hash key c, [])
  | OpRemove hash key => (None, (cache_remove md hash key c).1, (cache_remove md hash key c).2)
  end.

Fixpoint spec (max : Z) (md : option (K -> K)) c (ops : list lru_op)
    : list (option (Z * K * D)) * list (Z * K * D) * list (event K D) :=
  match ops with
  | [] => ([], c, [])
  | op :: ops' =>
      let '(r, c1, ev1) := spec_op max md c op in
      let '(rs, c2, ev2) := spec max md c1 ops' in
      (r :: rs, c2, ev1 ++ ev2)
  end.

Definition op_ok (op : lru_op) : Prop :=
  match op with OpInsert _ hash _ _ | OpLookup hash _ | OpRemove hash _ => in_u 32 hash end.

(** The bytes an operation may add. *)
Definition cost (op : lru_op) : Z :=
  match op with OpInsert _ _ key data => sizefunc key data | _ => 0 end.

Lemma cost_nonneg op : 0 <= cost op.
Proof. destruct op as [? ? key data| |]; cbn; [|lia..]. specialize (Hsize key data). lia. Qed.

Lemma isize_nonneg x : 0 <= isize x.
Proof. unfold isize. specialize (Hsize x.1.2 x.2). lia. Qed.

Lemma total_evict max c : total isize (evict isize max c).1 <= total isize c.
Proof.
  destruct (evict isize max c) as [k g] eqn:E. pose proof (evict_app _ _ _ _ _ E) as ->. cbn [fst].
  rewrite total_app. pose proof (total_nonneg isize isize_nonneg g). lia.
Qed.

Lemma zlen_evict max c : zlen (evict isize max c).1 <= zlen c.
Proof.
  destruct (evict isize max c) as [k g] eqn:E. pose proof (evict_app _ _ _ _ _ E) as ->. cbn [fst].
  rewrite zlen_app. pose proof (zlen_nonneg g). lia.
Qed.

Lemma zlen_touch {A} (pre : list A) x post : zlen (x :: pre ++ post) = zlen (pre ++ x :: post).
Proof. unfold zlen. by rewrite Permutation_middle. Qed.

(** The budget of a sequence: no operation adds more than its cost and one item. *)
Lemma cache_put_budget hash key data c :
  total isize (cache_put hash key data c).1 <= total isize c + sizefunc key data /\
  zlen (cache_put hash key data c).1 <= zlen c + 1.
Proof.
  unfold cache_put. destruct (split_first (hit hash key) c) as [[[pre x] post]|] eqn:E; cbn [fst snd].
  - apply split_first_inv in E as [-> Hx]. unfold hit in Hx.
    apply andb_true_iff in Hx as [_ Hx%Z.eqb_eq].
    rewrite total_cons, zlen_app, !zlen_cons, zlen_app.
    rewrite (total_perm isize (pre ++ x :: post) (x :: pre ++ post)) by (symmetry; apply Permutation_middle).
    rewrite total_cons. pose proof (isize_nonneg x). unfold isize at 1. cbn [fst snd].
    rewrite (Hkeysize _ _ data Hx). lia.
  - rewrite total_cons, zlen_cons. unfold isize at 1. cbn. lia.
Qed.

Lemma spec_op_budget max md c op :
  total isize (spec_op max md c op).1.2 <= total isize c + cost op /\
  zlen (spec_op max md c op).1.2 <= zlen c + 1.
Proof.
  destruct op as [alloc hash key data|hash key|hash key]; cbn [spec_op cost fst snd].
  - unfold cache_insert. pose proof (cache_put_budget hash key data c) as [H1 H2].
    destruct (cache_put hash key data c) as [c1 ev]. cbn [fst snd] in *.
    pose proof (total_evict max c1). pose proof (zlen_evict max c1).
    destruct (evict isize max c1) as [k g]. cbn [fst snd] in *. lia.
  - unfold cache_lookup. destruct (split_first (hit hash key) c) as [[[pre x] post]|] eqn:E; cbn [fst snd].
    + apply split_first_inv in E as [-> _]. rewrite zlen_touch.
      rewrite (total_perm isize (x :: pre ++ post) (pre ++ x :: post)) by apply Permutation_middle. lia.
    + lia.
  - unfold cache_remove. destruct (split_first (hit hash key) c) as [[[pre x] post]|] eqn:E; cbn [fst snd].
    + apply split_first_inv in E as [-> _]. rewrite <- zlen_touch, zlen_cons.
      rewrite (total_perm isize (pre ++ x :: post) (x :: pre ++ post)) by (symmetry; apply Permutation_middle).
      rewrite total_cons. pose proof (isize_nonneg x). lia.
    + lia.
Qed.

Lemma exec_op_refines w c op :
  cache_rep w c -> op_ok op -> total isize c + cost op < 2 ^ 64 -> zlen c + 1 < 2 ^ 31 ->
  exists w', exec_op w op = Ok ((spec_op w.(table).(space_max) w.(table).(markdelfunc) c op).1.1, w') /\
    limits w' = limits w /\
    cache_rep w' (spec_op w.(table).(space_max) w.(table).(markdelfunc) c op).1.2 /\
    w'.(deleted) = w.(deleted) ++ (spec_op w.(table).(space_max) w.(table).(markdelfunc) c op).2.
Proof.
  intros R Hop Hs Hn. destruct op as [alloc hash key data|hash key|hash key]; cbn [exec_op spec_op cost op_ok fst snd] in *.
  - destruct (insert_refines alloc w c (fresh (dom (heap w))) (mk_entry None None None hash key data) hash data)
      as (w' & E & L & R' & D'); try done.
    { apply is_fresh. }
    cbn zeta. rewrite E. exists w'. split; [done|]. done.
  - destruct (lookup_refines w c hash key R Hop) as (r & w' & E & R' & Er & Set1). rewrite E.
    exists w'. rewrite bind_Ok, Er. split; [done|]. injection Set1 as Hmd Hmax Hdel.
    split; [unfold limits; congruence|]. split; [done|]. by rewrite app_nil_r.
  - destruct (remove_refines w c hash key R Hop) as (w' & E & L & R' & D'). rewrite E.
    exists w'. split; [done|]. done.
Qed.

Lemma exec_refines ops : forall w c,
  cache_rep w c -> Forall op_ok ops -> total isize c + total cost ops < 2 ^ 64 ->
  zlen c + zlen ops < 2 ^ 31 ->
  exists w', exec w ops = Ok ((spec w.(table).(space_max) w.(table).(markdelfunc) c ops).1.1, w') /\
    limits w' = limits w /\
    cache_rep w' (spec w.(table).(space_max) w.(table).(markdelfunc) c ops).1.2 /\
    w'.(deleted) = w.(deleted) ++ (spec w.(table).(space_max) w.(table).(markdelfunc) c ops).2.
Proof.
  induction ops as [|op ops IH]; intros w c R Hops Hs Hn.
  - exists w. cbn. by rewrite app_nil_r.
  - inversion_clear Hops as [|? ? Hop Hops']. rewrite total_cons in Hs. rewrite zlen_cons in Hn.
    pose proof (total_nonneg cost cost_nonneg ops). pose proof (zlen_nonneg ops).
    destruct (exec_op_refines w c op R Hop) as (w1 & E1 & L1 & R1 & D1); [lia|lia|].
    pose proof (spec_op_budget (space_max (table w)) (markdelfunc (table w)) c op) as [B1 B2].
    injection L1 as Hmax Hmd. cbn [exec spec]. rewrite E1, bind_Ok.
    destruct (spec_op (space_max (table w)) (markdelfunc (table w)) c op) as [[r c1] ev1] eqn:Eo.
    cbn [fst snd] in *. destruct (IH w1 c1 R1 Hops') as (w2 & E2 & L2 & R2 & D2); [lia|lia|].
    rewrite Hmax, Hmd in E2, R2, D2. rewrite E2, bind_Ok.
    destruct (spec (space_max (table w)) (markdelfunc (table w)) c1 ops) as [[rs c2] ev2].
    cbn [fst snd] in *. exists w2. split; [done|]. split; [unfold limits in *; congruence|].
    split; [done|]. by rewrite D2, D1, <- app_assoc.
Qed.

(** A new table is the empty cache. *)
Lemma create_empty k max md : 0 <= k <= 31 ->
  exists t, lruhash_create true true (2 ^ k) max = Some t /\
    exists w, lruhash_setmarkdel md (mk_world ∅ t []) = Ok (tt, w) /\
      cache_rep w [] /\ limits w = (max, md) /\ w.(deleted) = [].
Proof.
  intros Hk. eexists. split; [reflexivity|]. eexists. split; [reflexivity|]. split; [|done].
  pose proof (Z.pow_pos_nonneg 2 k ltac:(lia) ltac:(lia)).
  pose proof (Z.pow_le_mono_r 2 k 31 ltac:(lia) ltac:(lia)).
  exists (replicate (Z.to_nat (2 ^ k)) []), []. split; [|done].
  split; cbn [heap table size size_mask array lru_start lru_end num space_used]; try done.
  - exists k. cbn [size size_mask array]. split; [done|]. split; [done|]. split.
    + rewrite wrap_small by (unfold in_u; lia). apply swrap_small; [lia|]. unfold in_s. lia.
    + unfold bin_init, zlen. rewrite length_replicate. lia.
  - apply empty_bins.
  - split; [done|done|done|apply NoDup_nil_2].
  - by rewrite concat_replicate_nil.
  - apply NoDup_nil_2.
Qed.

(** C1. The LRU hash table implements a list cache: from a new table of any
    power-of-two size, any sequence of insertions, lookups and removals runs
    without touching freed memory, every lookup returns the item the list
    specification returns, the table ends up with the items of the
    specification in their order of use and the heap with nothing else, and the
    deletion callbacks are called on exactly the keys and data the
    specification drops, in its order (growing the table and eviction
    included). *)
Theorem lruhash_run_refines k max md ops :
  0 <= k <= 31 -> Forall op_ok ops -> total cost ops < 2 ^ 64 -> zlen ops < 2 ^ 31 ->
  exists t w0 w', lruhash_create true true (2 ^ k) max = Some t /\
    lruhash_setmarkdel md (mk_world ∅ t []) = Ok (tt, w0) /\
    exec w0 ops = Ok ((spec max md [] ops).1.1, w') /\
    cache_rep w' (spec max md [] ops).1.2 /\ w'.(deleted) = (spec max md [] ops).2.
Proof.
  intros Hk Hops Hs Hn. destruct (create_empty k max md Hk) as (t & Et & w0 & Ew & R & L & Hd).
  injection L as Hmax Hmd. destruct (exec_refines ops w0 [] R Hops) as (w' & E & _ & R' & D');
    [cbn; lia|change (zlen (@nil (Z * K * D))) with 0; lia|].
  rewrite Hmax, Hmd, Hd in *. exists t, w0, w'. done.
Qed.

Lemma cache_rep_space w c : cache_rep w c ->
  w.(table).(space_used) = total isize c /\ w.(table).(num) = zlen c.
Proof.
  intros (bins & lru & T & ->). pose proof (table_ok_entries _ _ _ _ T) as Hent.
  rewrite (total_payloads _ _ Hent), (zlen_payloads _ _ Hent). split; apply T.
Qed.

(** The item inserted is first in the cache and answers the next lookup. *)
Lemma cache_insert_head max md hash key data c :
  exists k' rest, (cache_insert max md hash key data c).1 = (hash, k', data) :: rest /\
    compfunc k' key = 0.
Proof.
  unfold cache_insert, cache_put.
  destruct (split_first (hit hash key) c) as [[[pre [[hx kx] dx]] post]|] eqn:E.
  - apply split_first_inv in E as [_ [Hx%Z.eqb_eq Hk%Z.eqb_eq]%andb_true_iff]. cbn in Hx, Hk. subst hx.
    cbn [evict fst snd]. destruct (fit _ _ _) as [kk g]. exists kx, kk. done.
  - cbn [evict]. destruct (fit _ _ _) as [kk g]. exists key, kk. split; [done|].
    destruct Hcomp as [Re _ _]. apply Re.
Qed.

(** Insertion keeps the memory bound and the data: after [lruhash_insert]
    the space in use is the sum of the sizes of the entries and within
    [space_max], or one entry alone is left; and a lookup of the key right after
    it returns an entry with the data inserted. *)
Lemma lruhash_insert_bounded alloc w c a e hash data :
  cache_rep w c -> a ∉ dom w.(heap) -> e.(e_hash) = hash -> e.(e_data) = data -> in_u 32 hash ->
  total isize c + sizefunc e.(e_key) data < 2 ^ 64 -> zlen c + 1 < 2 ^ 31 ->
  exists w' c', lruhash_insert sizefunc compfunc alloc hash a data (with_entry a e w) = Ok (tt, w') /\
    cache_rep w' c' /\ w'.(table).(space_used) = total isize c' /\
    (w'.(table).(space_used) <= w'.(table).(space_max) \/ w'.(table).(num) <= 1) /\
    exists r w'' er, lruhash_lookup compfunc hash e.(e_key) w' = Ok (Some r, w'') /\
      w''.(heap) !! r = Some er /\ er.(e_data) = data /\ compfunc er.(e_key) e.(e_key) = 0.
Proof.
  intros R Ha Eh Ed Hh Hs Hn.
  destruct (insert_refines alloc w c a e hash data R Ha Eh Ed Hh Hs Hn) as (w' & E & L & R' & _).
  set (r := cache_insert _ _ _ _ _ _) in *. exists w', r.1. split; [done|]. split; [done|].
  destruct (cache_rep_space _ _ R') as [Es En]. split; [done|]. injection L as Hmax Hmd. split.
  - rewrite Es, En, Hmax. unfold r, cache_insert. destruct (cache_put _ _ _ _) as [c1 ev].
    destruct (evict isize (space_max (table w)) c1) as [k g] eqn:Ee. cbn [fst].
    apply evict_bound in Ee as [|]; [by left|right; unfold zlen; lia|].
    intros x. unfold isize. apply Hsize.
  - destruct (cache_insert_head (space_max (table w)) (markdelfunc (table w)) hash (e_key e) data c)
      as (k' & rest & Er & Hk'). fold r in Er.
    destruct (lookup_refines w' r.1 hash (e_key e) R' Hh) as (p & w'' & El & _ & Hp & _).
    unfold cache_lookup in Hp. rewrite Er in Hp. cbn [split_first] in Hp.
    assert (hit hash (e_key e) (hash, k', data) = true) as Hhit.
    { unfold hit. cbn. by rewrite Z.eqb_refl, Hk'. }
    rewrite Hhit in Hp. cbn [fst] in Hp. destruct p as [p|]; [|done]. cbn in Hp.
    destruct (heap w'' !! p) as [er|] eqn:Ep; [|done]. cbn in Hp. injection Hp as _ Hk Hd.
    exists p, w'', er. rewrite Hk, Hd. done.
Qed.

(** A table within its bound evicts nothing. *)
Lemma finish_insert_idle alloc w bins lru extra :
  table_ok sizefunc compfunc w bins lru extra -> zlen lru < 2 ^ 31 ->
  (w.(table).(space_used) <= w.(table).(space_max) \/ w.(table).(num) <= 1) ->
  exists w' bins', finish_insert sizefunc alloc w = Ok (tt, w') /\
    table_ok sizefunc compfunc w' bins' lru extra /\ frame off_overflow w.(heap) w'.(heap) /\
    (forall a, a ∉ lru -> w'.(heap) !! a = w.(heap) !! a) /\ settings w' = settings w.
Proof.
  intros T Hn Hb. unfold finish_insert. rewrite run_table.
  assert ((if space_max (table w) <? space_used (table w) then reclaim_space sizefunc None
           else mret None) w = Ok (None, w)) as E1.
  { destruct (Z.ltb_spec (space_max (table w)) (space_used (table w))); [|done].
    unfold reclaim_space. rewrite run_table. destruct Hb as [|Hb]; [lia|].
    destruct (Z.to_nat (num (table w))); cbn [reclaim_space_loop]; rewrite run_table;
      by rewrite (ltb_false 1) by lia. }
  rewrite (mbind_ok _ _ _ _ _ E1), run_table.
  destruct (Z.leb_spec (size (table w)) (num (table w))) as [Hg|Hg].
  - assert (size (table w) <= 2 ^ 30) as H30.
    { rewrite (to_num _ _ _ _ _ _ T) in Hg. destruct (to_shape _ _ _ _ _ _ T) as (j & Hj & Ej & _).
      assert (j < 31) by (apply (Z.pow_lt_mono_r_iff 2); lia). rewrite Ej. apply Z.pow_le_mono_r; lia. }
    destruct (table_grow_spec _ _ alloc w bins lru extra T H30) as (w2 & bins2 & E2 & T2 & F2 & Hot & Set2).
    rewrite (mbind_ok _ _ _ _ _ E2). exists w2, bins2. split; [|done]. done.
  - exists w, bins. done.
Qed.

(** A new entry is added, and the eviction that follows does not take it. *)
Lemma add_entry_kept alloc w bins lru a e col :
  let we := with_entry a e w in
  table_ok sizefunc compfunc we bins lru [a] -> we.(heap) !! a = Some e -> in_u 32 e.(e_hash) ->
  (forall b, b ∈ lru -> ~ matches compfunc we.(heap) e.(e_hash) e.(e_key) b) ->
  split_first (hit e.(e_hash) e.(e_key)) (payloads we.(heap) lru) = None ->
  w.(table).(space_used) + esize sizefunc e < 2 ^ 64 -> zlen lru + 1 < 2 ^ 31 ->
  exists w1 w' er, add_entry (Z.land e.(e_hash) w.(table).(size_mask)) a (esize sizefunc e) col we = Ok (tt, w1) /\
    finish_insert sizefunc alloc w1 = Ok (tt, w') /\ w'.(heap) !! a = Some er /\ payload er = payload e /\
    cache_rep w' (cache_insert w.(table).(space_max) w.(table).(markdelfunc)
                    e.(e_hash) e.(e_key) e.(e_data) (payloads we.(heap) lru)).1.
Proof.
  intros we T Hae Hh Hno Hsf Hs Hn.
  destruct (add_entry_spec we bins lru a e col T Hae Hh Hno Hs) as (w1 & bins1 & E1 & T1 & F1 & Set1).
  injection Set1 as Hmd Hmax Hdel.
  destruct (evict (asize sizefunc (heap w1)) (space_max (table w1)) (a :: lru)) as [k g] eqn:Ee.
  destruct (finish_insert_spec _ _ Hsize alloc w1 bins1 (a :: lru) k g T1) as
    (w' & E2 & (bins' & T') & S & _); [rewrite zlen_cons; lia|done|].
  assert (a ∈ k) as Hak.
  { cbn [evict] in Ee. destruct (fit _ _ _) as [kk gg]. injection Ee as <- _. by left. }
  destruct (table_ok_entries _ _ _ _ T' a Hak) as [er Her].
  assert (payload er = payload e) as Hp.
  { specialize (S a Hak). rewrite (F1 a), Her, Hae in S. by apply (inj Some) in S. }
  exists w1, w', er. split; [done|]. split; [done|]. split; [done|]. split; [done|].
  exists bins', k. split; [done|]. unfold cache_insert, cache_put. rewrite Hsf.
  assert (payloads (heap w1) (a :: lru) = (e_hash e, e_key e, e_data e) :: payloads (heap we) lru) as P1.
  { rewrite (payloads_same (heap we) (heap w1)) by (by apply frame_same_on). by rewrite (payloads_cons _ _ _ e). }
  rewrite <- P1, <- Hmax, evict_payloads by (eapply table_ok_entries; exact T1). rewrite Ee.
  cbn [fst snd]. symmetry. by apply payloads_same.
Qed.

(** [lruhash_insert_or_retrieve] is safe to use after it returns: on a table
    within its bound, it returns an entry that is in the table (so neither the
    entry presented nor the one found is evicted by the call), with an equal
    key; when the key was there, the cache and the presented entry stay as they
    are. *)
Lemma lruhash_insert_or_retrieve_safe alloc w c a e hash data :
  cache_rep w c -> a ∉ dom w.(heap) -> e.(e_hash) = hash -> e.(e_data) = data -> in_u 32 hash ->
  total isize c + sizefunc e.(e_key) data < 2 ^ 64 -> zlen c + 1 < 2 ^ 31 ->
  (w.(table).(space_used) <= w.(table).(space_max) \/ w.(table).(num) <= 1) ->
  exists w' r er, lruhash_insert_or_retrieve sizefunc compfunc alloc hash a data (with_entry a e w)
      = Ok (r, w') /\
    w'.(heap) !! r = Some er /\ compfunc er.(e_key) e.(e_key) = 0 /\
    match split_first (hit hash e.(e_key)) c with
    | Some (_, x, _) => payload er = x /\ w'.(heap) !! a = Some e /\ w'.(deleted) = w.(deleted)
    | None => r = a /\ cache_rep w' (cache_insert w.(table).(space_max) w.(table).(markdelfunc)
                                      hash e.(e_key) data c).1
    end.
Proof.
  intros (bins & lru & T0 & ->) Ha Eh Ed Hh Hs Hn Hb.
  pose proof (table_ok_alloc w bins lru a e T0 Ha) as T.
  pose proof (table_ok_entries _ _ _ _ T0) as Hent.
  rewrite (total_payloads _ _ Hent), <- (to_space _ _ _ _ _ _ T0) in Hs.
  rewrite (zlen_payloads _ _ Hent) in Hn.
  assert (a ∉ lru) as Hal.
  { intros Hin. apply Ha. apply elem_of_dom. by destruct (Hent a Hin) as [? ->]. }
  assert (payloads (heap (with_entry a e w)) lru = payloads (heap w) lru) as Hpay.
  { apply payloads_same. intros b Hb'. cbn. rewrite lookup_insert_ne; [done|]. by intros ->. }
  assert (heap (with_entry a e w) !! a = Some e) as Hae by (cbn; apply lookup_insert_eq).
  unfold lruhash_insert_or_retrieve. rewrite (run_load _ e) by done. rewrite run_table. cbn zeta.
  destruct (find_spec (with_entry a e w) bins lru [a] hash (e_key e) T Hh) as (r & col & E & Hr).
  rewrite (mbind_ok _ _ _ _ _ E). rewrite Hpay in Hr. destruct r as [f|].
  - destruct Hr as (l1 & l2 & ef & -> & Hef & Ehf & Ekf & ->). rewrite run_ret.
    destruct (finish_insert_idle alloc (with_entry a e w) bins (l1 ++ f :: l2) [a] T) as
      (w' & bins' & E' & T' & F & Hot & Set1); [lia|done|].
    rewrite (mbind_ok _ _ _ _ _ E'). destruct (frame_lookup _ _ _ _ _ F Hef) as (er & Her & Ho).
    assert (payload er = payload ef) as Hp by (unfold payload; unfold off_overflow in Ho; congruence).
    exists w', f, er. split; [done|]. split; [done|]. split.
    { injection Hp as _ -> _. done. }
    split; [done|]. split; [by rewrite Hot|]. by injection Set1.
  - destruct Hr as [Hno Hsf]. rewrite Hsf. subst hash data.
    destruct (add_entry_kept alloc w bins lru a e col T Hae Hh Hno) as (w1 & w' & er & E1 & E2 & Her & Hp & R);
      [by rewrite Hpay|done|lia|].
    erewrite mbind_ok by (erewrite mbind_ok by exact E1; reflexivity). rewrite (mbind_ok _ _ _ _ _ E2).
    exists w', a, er. split; [done|]. split; [done|]. split.
    { injection Hp as _ -> _. destruct Hcomp as [Re _ _]. apply Re. }
    split; [done|]. by rewrite Hpay in R.
Qed.

(** The heap determines the entries of a table. *)
Lemma table_ok_lru w w' bins bins' lru lru' : table_ok sizefunc compfunc w bins lru [] ->
  table_ok sizefunc compfunc w' bins' lru' [] -> w'.(heap) = w.(heap) -> lru ≡ₚ lru'.
Proof.
  intros T T' E. pose proof (to_dom _ _ _ _ _ _ T) as Hd. pose proof (to_dom _ _ _ _ _ _ T') as Hd'.
  pose proof (to_nodup _ _ _ _ _ _ T) as N. pose proof (to_nodup _ _ _ _ _ _ T') as N'.
  rewrite app_nil_r in *. rewrite E, Hd in Hd'. apply NoDup_Permutation; [done..|].
  intros a. rewrite <- !(elem_of_list_to_set (C := gset addr)). by rewrite Hd'.
Qed.

Lemma update_space_used_ok w diff_size sum s : 0 <= s <= w.(table).(space_max) -> in_s 32 sum ->
  i32 w.(table).(space_used) + diff_size = sum -> (if sum <? 0 then 0 else sum) = s ->
  lruhash_update_space_used sizefunc diff_size w
  = Ok (tt, mk_world w.(heap) (with_space s w.(table)) w.(deleted)).
Proof.
  intros Hs Hin Esum Es. unfold lruhash_update_space_used. rewrite run_table. cbn zeta.
  rewrite Esum, bool_decide_eq_true_2 by done. rewrite Es, run_set, run_table.
  cbn [table with_space space_max space_used]. rewrite ltb_false by lia. by rewrite run_ret.
Qed.

(** [lruhash_update_space_used] adds the difference through an [int]: below
    2 GiB, and while the result is within [space_max], the space becomes the sum
    (or 0 when that is negative); a table that holds from 2 to 4 GiB is recorded
    as empty, with all of its entries still there: it is no longer a table whose
    [space_used] is the size of what it holds, and it stops evicting. *)
Lemma lruhash_update_space_used_truncates w c diff_size :
  cache_rep w c -> in_s 32 diff_size -> 0 <= w.(table).(space_max) ->
  let su := total isize c in
  let r := lruhash_update_space_used sizefunc diff_size w in
  (su < 2 ^ 31 -> su + diff_size < 2 ^ 31 -> su + diff_size <= w.(table).(space_max) ->
     r = Ok (tt, mk_world w.(heap) (with_space (Z.max 0 (su + diff_size)) w.(table)) w.(deleted))) /\
  (2 ^ 31 <= su < 2 ^ 32 -> - 2 ^ 31 <= su - 2 ^ 32 + diff_size < 0 ->
     exists w', r = Ok (tt, w') /\ w'.(heap) = w.(heap) /\ w'.(table).(space_used) = 0 /\
       forall c', ~ cache_rep w' c').
Proof.
  intros R Hd Hmax. cbn zeta. unfold in_s in Hd. destruct (cache_rep_space w c R) as [Esu _].
  pose proof (total_nonneg isize isize_nonneg c). rewrite <- Esu in *. set (su := space_used (table w)) in *. split.
  - intros H1 H2 H3. assert (i32 su = su) as Ei by (apply swrap_small; [lia|]; unfold in_s; lia).
    apply (update_space_used_ok w diff_size (su + diff_size)); [lia|unfold in_s; lia|fold su; lia|].
    destruct (Z.ltb_spec (su + diff_size) 0); lia.
  - intros H1 H2. assert (i32 su = su - 2 ^ 32) as Ei.
    { unfold swrap. change (32 - 1) with 31. rewrite <- (Z_mod_plus_full _ (-1)).
      rewrite Z.mod_small; lia. }
    eexists. split; [apply (update_space_used_ok w diff_size (su - 2 ^ 32 + diff_size) 0);
      [lia|unfold in_s; lia|fold su; lia|by rewrite ltb_true by lia]|].
    split; [done|]. split; [done|]. intros c' (bins' & lru' & T' & _). destruct R as (bins & lru & T & _).
    pose proof (table_ok_lru _ _ _ _ _ _ T T' eq_refl) as P. pose proof (to_space _ _ _ _ _ _ T') as E'.
    cbn [heap table with_space space_used] in E'. rewrite <- P, <- (to_space _ _ _ _ _ _ T) in E'. fold su in E'. lia.
Qed.

(** ** Emptying the table *)

Lemma free_chain_spec (mk : bool) l : forall fuel w p,
  chain w.(heap) p l -> NoDup l -> (length l < fuel)%nat ->
  exists h', free_chain fuel mk p w
    = Ok (tt, mk_world h' w.(table) (w.(deleted) ++ events_of
            (map (mark_item (if mk then w.(table).(markdelfunc) else None)) (payloads w.(heap) l)))) /\
    forall a, h' !! a = if decide (a ∈ l) then None else w.(heap) !! a.
Proof.
  induction l as [|a l IH]; intros [|fuel] w p C N Hf; try (simpl in Hf; lia);
    cbn [chain free_chain] in *.
  - subst p. exists (heap w). split; [by rewrite app_nil_r; destruct w|]. done.
  - destruct C as (-> & e & He & C). apply NoDup_cons in N as [Na N].
    rewrite (run_load _ e) by done. cbn zeta.
    assert (exists e', (if mk then markdel a else mret tt) w
      = Ok (tt, mk_world (<[a := e']> (heap w)) (table w) (deleted w)) /\
      payload e' = mark_item (if mk then markdelfunc (table w) else None) (payload e)) as (e' & E' & Hp').
    { destruct mk.
      - destruct (markdel_spec w a e He) as (e' & E' & _ & Hp'). exists e'. split; [done|]. by rewrite Hp'.
      - exists e. split; [|done]. rewrite insert_id by done. by destruct w. }
    rewrite (mbind_ok _ _ _ _ _ E'). unfold delkey at 1, deldata at 1.
    unfold mbind at 1, M_bind at 1. cbn [heap table deleted]. rewrite lookup_insert_eq, delete_insert_eq.
    unfold mbind at 1, M_bind at 1. cbn [heap table deleted].
    destruct (IH fuel (mk_world (delete a (heap w)) (table w)
      ((deleted w ++ [DelKey (e_key e')]) ++ [DelData (e_data e)])) (overflow_next e)) as (h' & Er & Hh');
      cbn [heap table deleted] in *.
    { by apply chain_delete. }
    { done. }
    { simpl in Hf. lia. }
    exists h'. split.
    + rewrite Er. rewrite (payloads_cons _ _ _ e) by done.
      rewrite (payloads_same (heap w) (delete a (heap w))).
      2:{ intros b Hb. rewrite lookup_delete_ne; [done|]. by intros ->. }
      do 3 f_equal. rewrite <- !app_assoc. f_equal. cbn [map]. unfold events_of at 2. cbn [map concat].
      rewrite <- Hp'. unfold del_events at 1. unfold payload at 1. cbn [app fst snd].
      injection Hp' as _ _ <-. done.
    + intros b. rewrite Hh'. destruct (decide (b ∈ l)) as [Hb|Hb].
      { by rewrite decide_True by (by right). }
      destruct (decide (b = a)) as [->|Hba].
      * rewrite decide_True by (by left). apply lookup_delete_eq.
      * rewrite decide_False by (by apply not_elem_of_cons). by apply lookup_delete_ne.
Qed.

Lemma bin_at_mid (pre : list ptr) p post :
  (pre ++ p :: post) !! Z.to_nat (zlen pre) = Some p /\
  <[Z.to_nat (zlen pre) := None]> (pre ++ p :: post) = pre ++ None :: post /\
  0 <= zlen pre < zlen (pre ++ p :: post).
Proof.
  rewrite to_nat_zlen. split; [by apply list_lookup_middle|]. split.
  - by rewrite insert_app_r_alt, Nat.sub_diag by lia.
  - unfold zlen. rewrite length_app. cbn. lia.
Qed.

(** What clearing one bin does; [mk]: the keys are marked first. *)
Definition frees_bin (mk : bool) (body : Z -> M K D unit) : Prop :=
  forall w pre p post l, w.(table).(array) = pre ++ p :: post -> chain w.(heap) p l -> NoDup l ->
    exists h', body (zlen pre) w
      = Ok (tt, mk_world h' (with_array (pre ++ None :: post) w.(table)) (w.(deleted) ++ events_of
              (map (mark_item (if mk then w.(table).(markdelfunc) else None)) (payloads w.(heap) l)))) /\
      forall a, h' !! a = if decide (a ∈ l) then None else w.(heap) !! a.

Lemma bin_clear_frees : frees_bin true bin_clear.
Proof.
  intros w pre p post l Ear C N. destruct (bin_at_mid pre p post) as (H1 & H2 & H3).
  unfold bin_clear. rewrite run_world, Ear, (run_bin_head _ _ p) by (done || lia).
  destruct (free_chain_spec true l (chain_fuel w) w p C N) as (h' & E & Hh').
  { by eapply chain_fuel_enough. }
  rewrite (mbind_ok _ _ _ _ _ E), run_table. cbn [table]. rewrite Ear, run_bin_set by done.
  rewrite H2. exists h'. done.
Qed.

Lemma bin_delete_frees : frees_bin false bin_delete.
Proof.
  intros w pre p post l Ear C N. destruct (bin_at_mid pre p post) as (H1 & H2 & H3).
  unfold bin_delete. rewrite run_world, Ear, (run_bin_head _ _ p) by (done || lia).
  rewrite run_bin_set, H2, run_set by done.
  destruct (free_chain_spec false l (chain_fuel w)
    (mk_world (heap w) (with_array (pre ++ None :: post) (table w)) (deleted w)) p C N) as (h' & E & Hh').
  { by eapply chain_fuel_enough. }
  rewrite E. exists h'. done.
Qed.

Lemma events_app (l1 l2 : list (Z * K * D)) : events_of (l1 ++ l2) = events_of l1 ++ events_of l2.
Proof. unfold events_of. by rewrite map_app, concat_app. Qed.

Lemma for_bins_frees mk body : frees_bin mk body -> forall bins ar pre w,
  w.(table).(array) = pre ++ ar -> Forall2 (chain w.(heap)) ar bins -> NoDup (concat bins) ->
  exists h', for_bins (length ar) (zlen pre) body w
    = Ok (tt, mk_world h' (with_array (pre ++ replicate (length ar) None) w.(table))
            (w.(deleted) ++ events_of (map (mark_item (if mk then w.(table).(markdelfunc) else None))
               (payloads w.(heap) (concat bins))))) /\
    forall a, h' !! a = if decide (a ∈ concat bins) then None else w.(heap) !! a.
Proof.
  intros Hbody bins. induction bins as [|l bins IH]; intros ar pre w Ear C N;
    inversion C as [|p ? ar' ? Cl C' E1 E2]; subst; cbn [length for_bins concat] in *.
  - exists (heap w). split; [|done]. cbn [replicate]. rewrite <- Ear, app_nil_r.
    by destruct w as [h [] d].
  - apply NoDup_app in N as (Nl & Nlb & Nb).
    destruct (Hbody w pre p ar' l Ear Cl Nl) as (h1 & E1 & Hh1). rewrite (mbind_ok _ _ _ _ _ E1).
    set (w1 := mk_world h1 _ _).
    assert (forall a, a ∈ concat bins -> h1 !! a = heap w !! a) as Hkeep.
    { intros a Ha. rewrite Hh1, decide_False; [done|]. intros Hal. by apply (Nlb a). }
    replace (zlen pre + 1) with (zlen (pre ++ [None])) by (rewrite zlen_app; done).
    destruct (IH ar' (pre ++ [None]) w1) as (h' & E2 & Hh').
    { cbn. by rewrite <- app_assoc. }
    { apply Forall2_same_length_lookup. split; [by eapply Forall2_length|].
      intros i q lq Hq Hlq. eapply chain_ext; [|by eapply Forall2_lookup_lr].
      intros a Ha. cbn. rewrite Hkeep; [done|]. apply elem_of_concat. eauto. }
    { done. }
    exists h'. split.
    + rewrite E2. unfold w1. cbn [heap table deleted with_array markdelfunc]. do 2 f_equal. f_equal.
      * unfold with_array. cbn. f_equal. rewrite <- app_assoc. done.
      * rewrite payloads_app, map_app, events_app, <- app_assoc. f_equal. f_equal. f_equal. f_equal.
        apply payloads_same. intros a Ha. by rewrite Hkeep.
    + intros a. rewrite Hh'. cbn. rewrite Hh1.
      destruct (decide (a ∈ concat bins)) as [H1|H1], (decide (a ∈ l)) as [H2|H2],
        (decide (a ∈ l ++ concat bins)) as [H3|H3]; rewrite ?elem_of_app in H3; tauto || done.
Qed.

(** Everything that was in the heap of a table is freed. *)
Lemma all_freed w bins lru h' : table_ok sizefunc compfunc w bins lru [] ->
  (forall a, h' !! a = if decide (a ∈ concat bins) then None else w.(heap) !! a) -> h' = ∅.
Proof.
  intros T Hh'. apply map_empty. intros a. rewrite Hh'.
  destruct (decide (a ∈ concat bins)) as [Ha|Ha]; [done|]. rewrite (to_perm _ _ _ _ _ _ T) in Ha. apply not_elem_of_dom.
  rewrite (to_dom _ _ _ _ _ _ T), app_nil_r. by rewrite elem_of_list_to_set.
Qed.

Lemma payloads_perm h l1 l2 : l1 ≡ₚ l2 -> payloads h l1 ≡ₚ payloads h l2.
Proof. intros P. unfold payloads. by apply omap_Permutation. Qed.

(** Emptying and deleting a table free everything once: [lruhash_clear]
    leaves an empty cache and [lruhash_delete] an empty heap, and both call the
    deletion callbacks for every item that was in the cache exactly once (the
    former after [markdelfunc]). *)
Lemma lruhash_clear_frees w c :
  cache_rep w c ->
  (exists w' order, lruhash_clear w = Ok (tt, w') /\ cache_rep w' [] /\ w'.(heap) = ∅ /\
     order ≡ₚ c /\ w'.(deleted) = w.(deleted) ++ events_of (map (mark_item w.(table).(markdelfunc)) order)) /\
  (exists w' order, lruhash_delete w = Ok (tt, w') /\ w'.(heap) = ∅ /\
     order ≡ₚ c /\ w'.(deleted) = w.(deleted) ++ events_of (map (mark_item None) order)).
Proof.
  intros (bins & lru & T & ->). destruct (to_shape _ _ _ _ _ _ T) as (k & Hk & Esz & Emk & Elen).
  assert (Z.to_nat (size (table w)) = length (array (table w))) as Esize.
  { rewrite Esz, <- Elen. apply to_nat_zlen. }
  destruct (to_bins _ _ _ _ _ _ T) as [C N _].
  pose proof (payloads_perm (heap w) _ _ (to_perm _ _ _ _ _ _ T)) as P. split.
  - destruct (for_bins_frees true bin_clear bin_clear_frees bins (array (table w)) [] w) as (h' & E & Hh');
      [done..|]. pose proof (all_freed _ _ _ _ T Hh') as ->.
    unfold lruhash_clear. rewrite run_table, Esize. change 0 with (zlen (@nil ptr)) at 1.
    rewrite (mbind_ok _ _ _ _ _ E), run_set, run_set.
    eexists _, _. split; [reflexivity|]. cbn [heap table deleted]. split; [|split; [done|split; [exact P|done]]].
    exists (replicate (length (array (table w))) []), []. split; [|done].
    split; cbn [heap table with_array with_lru with_num with_space size size_mask array lru_start lru_end num space_used app]; try done.
    + exists k. cbn. unfold zlen in *. rewrite length_replicate. done.
    + apply empty_bins.
    + split; [done|done|done|apply NoDup_nil_2].
    + by rewrite concat_replicate_nil.
    + apply NoDup_nil_2.
  - destruct (for_bins_frees false bin_delete bin_delete_frees bins (array (table w)) [] w) as (h' & E & Hh');
      [done..|]. pose proof (all_freed _ _ _ _ T Hh') as ->.
    unfold lruhash_delete. rewrite run_table, Esize. change 0 with (zlen (@nil ptr)) at 1.
    rewrite E. eexists _, _. split; [reflexivity|]. split; [done|]. split; [exact P|done].
Qed.
End Api.

(** ** Witnesses: integer keys, ten bytes per entry *)

Definition toy_size (k d : Z) : Z := 10.
Definition toy_comp (k1 k2 : Z) : Z := k1 - k2.

Lemma toy_size_pos : forall k d, 1 <= toy_size k d.
Proof. intros. unfold toy_size. lia. Qed.

Lemma toy_comp_equiv : Equivalence (fun k1 k2 => toy_comp k1 k2 = 0).
Proof.
  unfold toy_comp. split.
  - intros x. lia.
  - intros x y H. lia.
  - intros x y z H1 H2. lia.
Qed.

Lemma toy_keysize : forall k1 k2 d, toy_comp k1 k2 = 0 -> toy_size k1 d = toy_size k2 d.
Proof. done. Qed.

(** Three insertions in a table with room for two, the key that was looked up
    last stays. *)
Definition toy_ops : list (@lru_op Z Z) :=
  [OpInsert true 7 100 1; OpInsert true 8 200 2; OpLookup 7 100; OpInsert true 9 300 3;
   OpLookup 8 200; OpRemove 9 300; OpLookup 7 100].

Lemma lruhash_run_refines_witness :
  exists t w0 w', lruhash_create true true (2 ^ 1) 25 = Some t /\
    lruhash_setmarkdel None (mk_world ∅ t []) = Ok (tt, w0) /\
    exec toy_size toy_comp w0 toy_ops
    = Ok ([None; None; Some (7, 100, 1); None; None; None; Some (7, 100, 1)], w') /\
    cache_rep toy_size toy_comp w' [(7, 100, 1)] /\
    w'.(deleted) = [DelKey 200; DelData 2; DelKey 300; DelData 3].
Proof.
  apply (lruhash_run_refines toy_size toy_comp toy_size_pos toy_comp_equiv toy_keysize 1 25 None toy_ops).
  - lia.
  - repeat constructor; unfold op_ok, in_u; simpl; lia.
  - reflexivity.
  - reflexivity.
Defined.

(** The table after one insertion. *)
Definition one_table (sz : Z) : lruhash Z :=
  mk_lruhash None 2 1 [None; Some 1%positive] (Some 1%positive) (Some 1%positive) 1 sz 25 0.
Definition one_world (sz : Z) : world Z Z :=
  mk_world {[ 1%positive := mk_entry None None None 7 100 1 ]} (one_table sz) [].

Lemma one_rep sz : 0 <= sz < 2 ^ 64 -> cache_rep (fun _ _ => sz) toy_comp (one_world sz) [(7, 100, 1)].
Proof.
  intros Hsz. exists [[]; [1%positive]], [1%positive]. split; [|done].
  assert (forall a e, heap (one_world sz) !! a = Some e -> a = 1%positive /\ e = mk_entry None None None 7 100 1) as Hone.
  { intros a e He. unfold one_world in He. cbn [heap] in He. apply lookup_singleton_Some in He as [<- <-]. done. }
  split; cbn [table one_world one_table size size_mask array lru_start lru_end num space_used].
  - exists 1. split; [lia|done].
  - split.
    + constructor; [done|]. constructor; [|constructor]. cbn. split; [done|]. eexists. split; [reflexivity|done].
    + apply NoDup_singleton.
    + intros [|[|i]] l a e Hi Ha He; [injection Hi as <-; by apply elem_of_nil in Ha| |done].
      destruct (Hone _ _ He) as [-> ->]. done.
  - split; [|done|done|apply NoDup_singleton]. cbn. split; [|done]. eexists. split; [reflexivity|done].
  - done.
  - cbn. rewrite dom_singleton_L. set_solver.
  - apply NoDup_singleton.
  - intros a e _ He. destruct (Hone _ _ He) as [-> ->]. unfold in_u. cbn. lia.
  - done.
  - unfold total. cbn [map foldr]. unfold asize, one_world. cbn [heap]. rewrite lookup_singleton_eq. unfold esize. lia.
  - lia.
  - intros a b ea eb _ _ Ha Hb _ _. destruct (Hone _ _ Ha) as [-> _], (Hone _ _ Hb) as [-> _]. done.
Qed.

Definition toy_world : world Z Z := one_world 10.

Lemma toy_rep : cache_rep toy_size toy_comp toy_world [(7, 100, 1)].
Proof. apply (one_rep 10). lia. Qed.

Lemma toy_fresh : 2%positive ∉ dom (heap toy_world).
Proof. cbn. rewrite dom_singleton_L. set_solver. Qed.

Lemma lruhash_insert_bounded_witness :
  let e := mk_entry None None None 8 200 2 in
  exists w' c', lruhash_insert toy_size toy_comp true 8 2%positive 2 (with_entry 2%positive e toy_world) = Ok (tt, w') /\
    cache_rep toy_size toy_comp w' c' /\ w'.(table).(space_used) = total (isize toy_size) c' /\
    (w'.(table).(space_used) <= w'.(table).(space_max) \/ w'.(table).(num) <= 1) /\
    exists r w'' er, lruhash_lookup toy_comp 8 200 w' = Ok (Some r, w'') /\
      w''.(heap) !! r = Some er /\ er.(e_data) = 2 /\ toy_comp er.(e_key) 200 = 0.
Proof.
  intros e.
  apply (lruhash_insert_bounded toy_size toy_comp toy_size_pos toy_comp_equiv toy_keysize true toy_world
    [(7, 100, 1)] 2%positive e 8 2).
  - exact toy_rep.
  - exact toy_fresh.
  - reflexivity.
  - reflexivity.
  - unfold in_u. lia.
  - reflexivity.
  - reflexivity.
Defined.

Lemma lruhash_insert_or_retrieve_safe_witness :
  let e := mk_entry None None None 7 100 2 in
  exists w' r er, lruhash_insert_or_retrieve toy_size toy_comp true 7 2%positive 2 (with_entry 2%positive e toy_world)
      = Ok (r, w') /\
    w'.(heap) !! r = Some er /\ toy_comp er.(e_key) 100 = 0 /\
    payload er = (7, 100, 1) /\ w'.(heap) !! 2%positive = Some e /\ w'.(deleted) = [].
Proof.
  intros e.
  apply (lruhash_insert_or_retrieve_safe toy_size toy_comp toy_size_pos toy_comp_equiv true toy_world
    [(7, 100, 1)] 2%positive e 7 2).
  - exact toy_rep.
  - exact toy_fresh.
  - reflexivity.
  - reflexivity.
  - unfold in_u. lia.
  - reflexivity.
  - reflexivity.
  - right. reflexivity.
Defined.

(** A table with one entry of 3 GiB, told of a change of nothing. *)
Lemma lruhash_update_space_used_truncates_witness :
  let w := one_world (3 * 2 ^ 30) in
  exists w', lruhash_update_space_used (fun _ _ => 3 * 2 ^ 30) 0 w = Ok (tt, w') /\
    w'.(heap) = w.(heap) /\ w'.(table).(space_used) = 0 /\
    forall c', ~ cache_rep (fun _ _ : Z => 3 * 2 ^ 30) toy_comp w' c'.
Proof.
  intros w.
  apply (lruhash_update_space_used_truncates (fun _ _ => 3 * 2 ^ 30) toy_comp ltac:(intros; lia) toy_comp_equiv
    w [(7, 100, 1)] 0).
  - apply one_rep. lia.
  - unfold in_s. lia.
  - done.
  - split; vm_compute; congruence.
  - split; vm_compute; congruence.
Defined.

Lemma lruhash_clear_frees_witness :
  (exists w' order, lruhash_clear toy_world = Ok (tt, w') /\ cache_rep toy_size toy_comp w' [] /\ w'.(heap) = ∅ /\
     order ≡ₚ [(7, 100, 1)] /\ w'.(deleted) = [] ++ events_of (map (mark_item None) order)) /\
  (exists w' order, lruhash_delete toy_world = Ok (tt, w') /\ w'.(heap) = ∅ /\
     order ≡ₚ [(7, 100, 1)] /\ w'.(deleted) = [] ++ events_of (map (mark_item None) order)).
Proof.
  apply (lruhash_clear_frees toy_size toy_comp toy_world [(7, 100, 1)]). exact toy_rep.
Defined.
