(* ===== verification/Slabhash.v ===== *)
(** * The slabbed hash table (util/storage/slabhash.c)

    A fixed number of LRU hash tables; the top bits of the hash choose the
    table.  Every table owns its entries, so a slab is the [world] of one table
    (its entries, its fields, what was deleted); a slab pointer may be NULL only
    while [slabhash_create] fills the array. *)

From S2P Require Import Prelude Lruhash LruhashLinks LruhashSpec LruhashApi.

Record slabhash (K D : Type) := mk_slabhash {
  sl_size : Z;
  sl_mask : Z;
  sl_shift : Z;
  sl_array : list (option (world K D));
}.
Arguments mk_slabhash {_ _} _ _ _ _.
Arguments sl_size {_ _} _.
Arguments sl_mask {_ _} _.
Arguments sl_shift {_ _} _.
Arguments sl_array {_ _} _.

Section Operations.
Context {K D : Type}.
Implicit Types (sl : slabhash K D).

Definition with_tables (ar : list (option (world K D))) sl :=
  mk_slabhash sl.(sl_size) sl.(sl_mask) sl.(sl_shift) ar.

(** An operation on [sl->array[i]]. *)
Definition on_table {A} (i : Z) (m : M K D A) sl : outcome (A * slabhash K D) :=
  match sl.(sl_array) !! Z.to_nat i with
  | Some (Some w) =>
      '(a, w) ← m w;
      Ok (a, with_tables (<[Z.to_nat i := Some w]> sl.(sl_array)) sl)
  | _ => Fault Undefined
  end.

(** The loop over the tables, from [i], with an accumulator. *)
Fixpoint for_tables {A} (n : nat) (i : Z) (body : A -> M K D A) (acc : A) sl
    : outcome (A * slabhash K D) :=
  match n with
  | O => Ok (acc, sl)
  | S n' =>
      '(acc, sl) ← on_table i (body acc) sl;
      for_tables n' (i + 1) body acc sl
  end.

(** [lruhash_delete] of a NULL pointer does nothing. *)
Fixpoint delete_tables (n : nat) (i : Z) sl : outcome (slabhash K D) :=
  match n with
  | O => Ok sl
  | S n' =>
      match sl.(sl_array) !! Z.to_nat i with
      | Some (Some w) =>
          '(_, sl) ← on_table i lruhash_delete sl;
          delete_tables n' (i + 1) sl
      | Some None => delete_tables n' (i + 1) sl
      | None => Fault Undefined
      end
  end.

Definition slabhash_delete (sl : option (slabhash K D)) : outcome (option (slabhash K D)) :=
  match sl with
  | None => Ok None
  | Some sl => sl ← delete_tables (Z.to_nat sl.(sl_size)) 0 sl; Ok (Some sl)
  end.

(** The mask moves up until its top bit is set. *)
Fixpoint shift_loop (fuel : nat) (mask shift : Z) : outcome (Z * Z) :=
  if Z.land mask 0x80000000 =? 0 then
    match fuel with
    | O => OutOfFuel
    | S fuel' => shift_loop fuel' (u32 (Z.shiftl mask 1)) (shift + 1)
    end
  else Ok (mask, shift).

Fixpoint create_tables (allocs : Z -> bool * bool) (n : nat) (i start_size max : Z) sl
    : outcome (option (slabhash K D)) :=
  match n with
  | O => Ok (Some sl)
  | S n' =>
      match lruhash_create (allocs i).1 (allocs i).2 start_size max with
      | Some t =>
          create_tables allocs n' (i + 1) start_size max
            (with_tables (<[Z.to_nat i := Some (mk_world ∅ t [])]> sl.(sl_array)) sl)
      | None =>
          _ ← slabhash_delete (Some sl);
          Ok None
      end
  end.

(** [alloc_sl], [alloc_array] and [allocs] say which allocations succeed. *)
Definition slabhash_create (alloc_sl alloc_array : bool) (allocs : Z -> bool * bool)
    (numtables start_size maxmem : Z) : outcome (option (slabhash K D)) :=
  if negb alloc_sl then Ok None else
  c_assert (0 <? numtables);;
  if negb alloc_array then Ok None else
  let mask := u32 (numtables - 1) in
  '(mask, shift) ←
    (if mask =? 0 then Ok (mask, 0)
     else c_assert (Z.land numtables mask =? 0);; shift_loop 32 mask 0);
  create_tables allocs (Z.to_nat numtables) 0 start_size (maxmem / numtables)
    (mk_slabhash numtables mask shift (replicate (Z.to_nat numtables) None)).

Definition slabhash_clear (sl : option (slabhash K D)) : outcome (option (slabhash K D)) :=
  match sl with
  | None => Ok None
  | Some sl =>
      '(_, sl) ← for_tables (Z.to_nat sl.(sl_size)) 0 (fun _ => lruhash_clear) tt sl;
      Ok (Some sl)
  end.

Definition slab_idx sl (hash : Z) : Z := Z.shiftr (Z.land hash sl.(sl_mask)) sl.(sl_shift).

Definition slabhash_gettable sl (hash : Z) : outcome (world K D) :=
  match sl.(sl_array) !! Z.to_nat (slab_idx sl hash) with
  | Some (Some w) => Ok w
  | _ => Fault Undefined
  end.

Definition slabhash_get_size sl : outcome (Z * slabhash K D) :=
  for_tables (Z.to_nat sl.(sl_size)) 0
    (fun total => t ← get_table; mret (u64 (total + t.(space_max)))) 0 sl.

Definition slabhash_is_size (sl : option (slabhash K D)) (size slabs : Z) : outcome bool :=
  match sl with
  | None => Ok false
  | Some sl =>
      if negb (sl.(sl_size) =? slabs) then Ok false else
      if slabs =? 0 then Ok false else
      '(total, _) ← slabhash_get_size sl;
      Ok (u64 ((size / slabs) * slabs) =? total)
  end.

Definition slabhash_get_mem (sizeof_slabhash sizeof_ptr sizeof_table sizeof_bin sizeof_lock : Z) sl
    : outcome (Z * slabhash K D) :=
  for_tables (Z.to_nat sl.(sl_size)) 0
    (fun total => m ← lruhash_get_mem sizeof_table sizeof_bin sizeof_lock; mret (u64 (total + m)))
    (u64 (sizeof_slabhash + sizeof_ptr * sl.(sl_size))) sl.

Definition slabhash_setmarkdel sl (md : option (K -> K)) : outcome (unit * slabhash K D) :=
  for_tables (Z.to_nat sl.(sl_size)) 0 (fun _ => lruhash_setmarkdel md) tt sl.

Definition slabhash_traverse sl (func : addr -> M K D unit) : outcome (unit * slabhash K D) :=
  for_tables (Z.to_nat sl.(sl_size)) 0 (fun _ => lruhash_traverse func) tt sl.

Definition count_slabhash_entries sl : outcome (Z * slabhash K D) :=
  for_tables (Z.to_nat sl.(sl_size)) 0 (fun cnt => t ← get_table; mret (u64 (cnt + t.(num)))) 0 sl.

(** The pair [cnt], [max_collisions]; a NULL output pointer drops one of them. *)
Definition get_slabhash_stats sl : outcome (Z * Z * slabhash K D) :=
  for_tables (Z.to_nat sl.(sl_size)) 0
    (fun '(cnt, max_coll) =>
       t ← get_table;
       mret (u64 (cnt + t.(num)),
             if max_coll <? t.(max_collisions) then t.(max_collisions) else max_coll)) (0, 0) sl.

Section Callbacks.
Context (sizefunc : K -> D -> Z) (compfunc : K -> K -> Z).

(** [entry] is an entry allocated by the caller, seen in the slab it goes to. *)
Definition slabhash_insert (alloc : bool) (hash : Z) (entry : addr) (data : D) sl
    : outcome (unit * slabhash K D) :=
  on_table (slab_idx sl hash) (lruhash_insert sizefunc compfunc alloc hash entry data) sl.

Definition slabhash_lookup (hash : Z) (key : K) sl : outcome (ptr * slabhash K D) :=
  on_table (slab_idx sl hash) (lruhash_lookup compfunc hash key) sl.

Definition slabhash_remove (hash : Z) (key : K) sl : outcome (unit * slabhash K D) :=
  on_table (slab_idx sl hash) (lruhash_remove sizefunc compfunc hash key) sl.

Definition slabhash_update_space_used (hash diff_size : Z) sl : outcome (unit * slabhash K D) :=
  on_table (slab_idx sl hash) (lruhash_update_space_used sizefunc diff_size) sl.
End Callbacks.
End Operations.

(** ** Creation *)

Section Create.
Context {K D : Type}.
Implicit Types (sl : slabhash K D).

(** What a new table is, for [2^k] slabs. *)
Definition new_slab (start_size max : Z) : world K D :=
  mk_world ∅ (mk_lruhash None start_size (i32 (u64 (start_size - 1))) (bin_init start_size)
                None None 0 0 max 0) [].

Definition new_slabhash (k start_size maxmem : Z) : slabhash K D :=
  mk_slabhash (2 ^ k) (2 ^ 32 - 2 ^ (32 - k)) (if k =? 0 then 0 else 32 - k)
    (replicate (Z.to_nat (2 ^ k)) (Some (new_slab start_size (maxmem / 2 ^ k)))).

Definition alloc_ok (p : bool * bool) : bool := p.1 && p.2.

Lemma shift_loop_spec k : 1 <= k <= 32 ->
  shift_loop 32 (2 ^ k - 1) 0 = Ok (2 ^ 32 - 2 ^ (32 - k), 32 - k).
Proof.
  intros Hk. assert (forallb (fun k => match shift_loop 32 (2 ^ k - 1) 0 with
    | Ok (m, s) => (m =? 2 ^ 32 - 2 ^ (32 - k)) && (s =? 32 - k) | _ => false end) (seqZ 1 32) = true)
    as H by (vm_compute; reflexivity).
  rewrite forallb_forall in H. specialize (H k). cbn beta in H.
  destruct (shift_loop 32 (2 ^ k - 1) 0) as [[m s]| |];
    [|discriminate H; apply list_elem_of_In, elem_of_seqZ; lia..].
  destruct (andb_prop _ _ (H ltac:(apply list_elem_of_In, elem_of_seqZ; lia))) as [->%Z.eqb_eq ->%Z.eqb_eq].
  done.
Qed.

Lemma new_slab_delete start_size max : 0 <= start_size ->
  exists w, lruhash_delete (new_slab start_size max) = Ok (tt, w).
Proof.
  intros Hs. unfold lruhash_delete. rewrite run_table. cbn [new_slab table size].
  destruct (for_bins_frees false bin_delete bin_delete_frees (replicate (Z.to_nat start_size) [])
    (bin_init start_size) [] (new_slab start_size max)) as (h & E & _).
  - done.
  - apply Forall2_replicate. constructor.
  - rewrite concat_replicate_nil. apply NoDup_nil_2.
  - unfold bin_init in E at 1. rewrite length_replicate in E. eexists. exact E.
Qed.

(** Deleting goes through when every table in the array can be deleted. *)
Lemma delete_tables_ok n : forall i sl, 0 <= i ->
  (forall j, i <= j < i + Z.of_nat n -> exists p, sl.(sl_array) !! Z.to_nat j = Some p /\
     forall w, p = Some w -> exists w', lruhash_delete w = Ok (tt, w')) ->
  exists sl', delete_tables n i sl = Ok sl'.
Proof.
  induction n as [|n IH]; intros i sl Hi H; [by eexists|]. cbn [delete_tables].
  destruct (H i ltac:(lia)) as (p & Ep & Hp). rewrite Ep. destruct p as [w|].
  - destruct (Hp w eq_refl) as [w' E]. unfold on_table. rewrite Ep, E, !bind_Ok. apply IH; [lia|].
    intros j Hj. cbn [sl_array with_tables]. rewrite list_lookup_insert_ne by lia. apply H. lia.
  - apply IH; [lia|]. intros j Hj. apply H. lia.
Qed.

Lemma create_tables_spec allocs start_size max size mask shift n : 0 <= start_size ->
  forall pre, size = zlen pre + Z.of_nat n ->
  Forall (fun p => p = Some (new_slab start_size max)) pre ->
  create_tables allocs n (zlen pre) start_size max (mk_slabhash size mask shift (pre ++ replicate n None))
  = Ok (if forallb (fun i => alloc_ok (allocs i)) (seqZ (zlen pre) (Z.of_nat n))
        then Some (mk_slabhash size mask shift (pre ++ replicate n (Some (new_slab start_size max))))
        else None).
Proof.
  intros Hs. induction n as [|n IH]; intros pre Hsize Hpre; [done|].
  cbn [create_tables]. rewrite seqZ_cons by lia. cbn [forallb].
  replace (Z.pred (Z.of_nat (S n))) with (Z.of_nat n) by lia.
  unfold alloc_ok at 1, lruhash_create. destruct (allocs (zlen pre)) as [a1 a2]. cbn [fst snd].
  assert (exists r, slabhash_delete (Some (mk_slabhash size mask shift (pre ++ replicate (S n) None))) = Ok r)
    as [r Edel].
  { unfold slabhash_delete. cbn [sl_size].
    destruct (delete_tables_ok (Z.to_nat size) 0 (mk_slabhash size mask shift (pre ++ replicate (S n) None)))
      as [sl' ->]; [lia| |by eexists].
    intros j Hj. cbn [sl_array]. destruct (lookup_lt_is_Some_2 (pre ++ replicate (S n) None) (Z.to_nat j)) as [p Ep].
    { rewrite length_app, length_replicate. unfold zlen in *. lia. }
    exists p. split; [done|]. intros w ->. apply lookup_app_Some in Ep as [Ep|[_ [? _]%lookup_replicate]]; [|done].
    rewrite Forall_lookup in Hpre. injection (Hpre _ _ Ep) as ->. by apply new_slab_delete. }
  destruct a1, a2; cbn [negb andb]; [|by rewrite Edel..].
  cbn [sl_array with_tables sl_size sl_mask sl_shift]. rewrite to_nat_zlen. cbn [replicate].
  rewrite insert_app_r_alt, Nat.sub_diag by done. cbn [insert list_insert]. specialize (IH (pre ++ [Some (new_slab start_size max)])).
  rewrite zlen_app, <- !app_assoc in IH. change (zlen [_]) with 1 in IH. cbn [app] in IH.
  fold (new_slab start_size max). rewrite <- Z.add_1_r. unfold with_tables. cbn [sl_size sl_mask sl_shift].
  apply IH; [lia|]. apply Forall_app. split; [done|]. by constructor.
Qed.

Lemma pow2_range k : 0 <= k <= 32 -> 1 <= 2 ^ k <= 2 ^ 32.
Proof. intros. split; [apply (Z.pow_le_mono_r 2 0); lia|apply Z.pow_le_mono_r; lia]. Qed.

Lemma slab_idx_new k start_size maxmem hash : 0 <= k <= 32 -> in_u 32 hash ->
  slab_idx (new_slabhash k start_size maxmem) hash = hash / 2 ^ (32 - k).
Proof.
  intros Hk Hh. unfold slab_idx, new_slabhash. cbn [sl_mask sl_shift]. unfold in_u in Hh.
  destruct (Z.eqb_spec k 0) as [->|].
  - replace (2 ^ 32 - 2 ^ (32 - 0)) with 0 by lia. rewrite Z.land_0_r, Z.shiftr_0_l, Z.div_small; [done|].
    change (32 - 0) with 32. lia.
  - replace (2 ^ 32 - 2 ^ (32 - k)) with (Z.shiftl (Z.ones k) (32 - k)).
    + rewrite Z.shiftr_land, Z.shiftr_shiftl_l by lia. replace (32 - k - (32 - k)) with 0 by lia.
      rewrite Z.shiftl_0_r, Z.land_ones, Z.shiftr_div_pow2 by lia. apply Z.mod_small.
      split; [apply Z.div_pos; lia|]. apply Z.div_lt_upper_bound; [lia|]. rewrite <- Z.pow_add_r by lia.
      replace (32 - k + k) with 32 by lia. lia.
    + rewrite Z.ones_equiv, Z.shiftl_mul_pow2 by lia. rewrite Z.mul_pred_l, <- Z.pow_add_r by lia.
      replace (k + (32 - k)) with 32 by lia. lia.
Qed.

Lemma slab_of_range k hash : 0 <= k <= 32 -> in_u 32 hash -> 0 <= hash / 2 ^ (32 - k) < 2 ^ k.
Proof.
  unfold in_u. intros Hk Hh. split; [apply Z.div_pos; lia|]. apply Z.div_lt_upper_bound; [lia|].
  rewrite <- Z.pow_add_r by lia. replace (32 - k + k) with 32 by lia. lia.
Qed.

(** The sum of [space_max] over equal tables. *)
Lemma get_size_loop w n : in_u 64 (space_max w.(table)) -> forall i total sl, 0 <= i ->
  (forall j, i <= j < i + Z.of_nat n -> sl.(sl_array) !! Z.to_nat j = Some (Some w)) ->
  0 <= total -> total + Z.of_nat n * space_max w.(table) < 2 ^ 64 ->
  exists sl', for_tables n i (fun total => t ← get_table; mret (u64 (total + t.(space_max)))) total sl
    = Ok (total + Z.of_nat n * space_max w.(table), sl').
Proof.
  intros Hu. induction n as [|n IH]; intros i total sl Hi H Ht Hb; [exists sl; cbn; f_equal; f_equal; lia|].
  cbn [for_tables]. unfold on_table. rewrite (H i) by lia. rewrite run_table. cbn [mret M_ret].
  unfold mret, M_ret. rewrite !bind_Ok. unfold in_u in Hu.
  rewrite wrap_small by (unfold in_u; nia).
  edestruct (IH (i + 1) (total + space_max (table w))) as [sl' ->]; [lia| |lia|nia|].
  - intros j Hj. cbn [sl_array with_tables]. rewrite list_lookup_insert_ne by lia. apply H. lia.
  - exists sl'. f_equal. f_equal. lia.
Qed.
End Create.

(**  Creating a slabbed table of [2^k] slabs.  It succeeds exactly when all
    allocations do, and a failure half-way deletes what was made without fault.
    The loop that shifts the mask ends; in the table made, the slab of a hash is
    given by its [k] top bits and lies in the array, and every slab is an empty
    table with its share of the memory; [slabhash_is_size] then tells the sizes
    that give the same share from those that do not. *)
Lemma slabhash_create_spec {K D} k start_size maxmem :
  0 <= k <= 32 -> 0 <= start_size -> in_u 64 maxmem ->
  (forall alloc_sl alloc_array allocs,
     slabhash_create alloc_sl alloc_array allocs (2 ^ k) start_size maxmem
     = Ok (if alloc_sl && alloc_array && forallb (fun i => alloc_ok (allocs i)) (seqZ 0 (2 ^ k))
           then Some (new_slabhash (K := K) (D := D) k start_size maxmem) else None)) /\
  (forall hash, in_u 32 hash ->
     let i := slab_idx (new_slabhash (K := K) (D := D) k start_size maxmem) hash in
     i = hash / 2 ^ (32 - k) /\ 0 <= i < 2 ^ k) /\
  (forall size', in_u 64 size' ->
     slabhash_is_size (Some (new_slabhash (K := K) (D := D) k start_size maxmem)) size' (2 ^ k)
     = Ok (size' / 2 ^ k =? maxmem / 2 ^ k)).
Proof.
  intros Hk Hs Hm. pose proof (pow2_range k Hk) as Hp. split; [|split].
  - intros alloc_sl alloc_array allocs. unfold slabhash_create.
    destruct alloc_sl, alloc_array; cbn [negb andb]; try done; rewrite (c_assert_true (0 <? 2 ^ k)), bind_Ok by (apply Z.ltb_lt; lia); [|done].
    rewrite (wrap_small 32 (2 ^ k - 1)) by (unfold in_u; lia).
    pose proof (create_tables_spec (K := K) (D := D) allocs start_size (maxmem / 2 ^ k) (2 ^ k) (2 ^ 32 - 2 ^ (32 - k))
      (if k =? 0 then 0 else 32 - k) (Z.to_nat (2 ^ k)) Hs []) as Hc.
    rewrite Z2Nat.id in Hc by lia. specialize (Hc eq_refl (Forall_nil_2 _)). cbn [app] in Hc.
    change (zlen []) with 0 in Hc. fold (new_slabhash (K := K) (D := D) k start_size maxmem) in Hc.
    destruct (Z.eqb_spec k 0) as [->|].
    + exact Hc.
    + pose proof (Z.pow_le_mono_r 2 1 k ltac:(lia) ltac:(lia)). rewrite eqb_false by lia.
      rewrite c_assert_true.
      * rewrite bind_Ok, shift_loop_spec, bind_Ok by lia. exact Hc.
      * apply Z.eqb_eq. replace (2 ^ k - 1) with (Z.ones k) by (rewrite Z.ones_equiv; lia).
        rewrite Z.land_ones by lia. apply Z_mod_same_full.
  - intros hash Hh. cbn zeta. rewrite slab_idx_new by done. split; [done|]. by apply slab_of_range.
  - intros size' Hsz. unfold slabhash_is_size. cbn [new_slabhash sl_size]. rewrite eqb_true, eqb_false by lia.
    cbn [negb]. unfold slabhash_get_size. cbn [new_slabhash sl_size]. unfold in_u in *.
    pose proof (Z.mul_div_le maxmem (2 ^ k) ltac:(lia)). pose proof (Z.div_pos maxmem (2 ^ k) ltac:(lia) ltac:(lia)).
    pose proof (Z.mul_div_le size' (2 ^ k) ltac:(lia)). pose proof (Z.div_pos size' (2 ^ k) ltac:(lia) ltac:(lia)).
    destruct (get_size_loop (K := K) (D := D) (new_slab start_size (maxmem / 2 ^ k)) (Z.to_nat (2 ^ k))) with
      (i := 0) (total := 0) (sl := new_slabhash (K := K) (D := D) k start_size maxmem) as [sl' ->];
      cbn [new_slab table space_max]; rewrite ?Z2Nat.id by lia; try (unfold in_u; nia).
    + intros j Hj. apply lookup_replicate. split; [done|lia].
    + rewrite bind_Ok, wrap_small by (unfold in_u; nia). f_equal. apply eq_true_iff_eq. rewrite !Z.eqb_eq.
      cbn [new_slab table space_max]. nia.
Qed.

Lemma slabhash_create_spec_witness :
  slabhash_create (K := Z) (D := Z) true true (fun _ => (true, true)) (2 ^ 2) 4 1000
  = Ok (Some (new_slabhash 2 4 1000)) /\ slab_idx (new_slabhash (K := Z) (D := Z) 2 4 1000) 0xC0000001 = 3.
Proof.
  destruct (slabhash_create_spec (K := Z) (D := Z) 2 4 1000) as (H & Hi & _);
    [lia|lia|unfold in_u; lia|]. split; [apply (H true true (fun _ => (true, true)))|].
  apply (Hi 0xC0000001). unfold in_u. lia.
Defined.

(** ** Sequences of operations *)

Section Run.
Context {K D : Type} (sizefunc : K -> D -> Z) (compfunc : K -> K -> Z).
Implicit Types (sl : slabhash K D) (op : @lru_op K D) (w : world K D).

Definition op_hash op : Z :=
  match op with OpInsert _ hash _ _ | OpLookup hash _ | OpRemove hash _ => hash end.

(** The caller's allocation of an entry, in the slab the entry goes to. *)
Definition new_entry (hash : Z) (key : K) (data : D) : M K D addr := fun w =>
  let a := fresh (dom w.(heap)) in Ok (a, with_entry a (mk_entry None None None hash key data) w).

Definition slab_exec_op sl op : outcome (option (Z * K * D) * slabhash K D) :=
  match op with
  | OpInsert alloc hash key data =>
      '(a, sl) ← on_table (slab_idx sl hash) (new_entry hash key data) sl;
      '(_, sl) ← slabhash_insert sizefunc compfunc alloc hash a data sl;
      Ok (None, sl)
  | OpLookup hash key =>
      '(r, sl) ← slabhash_lookup compfunc hash key sl;
      w ← slabhash_gettable sl hash;
      Ok (r ≫= fun a => payload <$> w.(heap) !! a, sl)
  | OpRemove hash key =>
      '(_, sl) ← slabhash_remove sizefunc compfunc hash key sl;
      Ok (None, sl)
  end.

Fixpoint slab_exec sl (ops : list lru_op) : outcome (list (option (Z * K * D)) * slabhash K D) :=
  match ops with
  | [] => Ok ([], sl)
  | op :: ops' =>
      '(r, sl1) ← slab_exec_op sl op;
      '(rs, sl2) ← slab_exec sl1 ops';
      Ok (r :: rs, sl2)
  end.

(** An operation is the operation of the LRU table in its slab. *)
Lemma slab_exec_op_table sl op w r w' :
  sl.(sl_array) !! Z.to_nat (slab_idx sl (op_hash op)) = Some (Some w) ->
  exec_op sizefunc compfunc w op = Ok (r, w') ->
  slab_exec_op sl op
  = Ok (r, with_tables (<[Z.to_nat (slab_idx sl (op_hash op)) := Some w']> sl.(sl_array)) sl).
Proof.
  intros Hi. pose proof (lookup_lt_Some _ _ _ Hi) as Hlt.
  destruct op as [alloc hash key data|hash key|hash key]; cbn [exec_op slab_exec_op op_hash] in *.
  - intros ([u w1] & E & [= <- <-])%bind_inv.
    unfold on_table at 1. rewrite Hi. unfold new_entry at 1. rewrite !bind_Ok.
    unfold slabhash_insert, on_table. change (slab_idx (with_tables _ sl) hash) with (slab_idx sl hash).
    cbn [sl_array with_tables]. rewrite list_lookup_insert_eq by done. rewrite E, !bind_Ok.
    by rewrite list_insert_insert_eq.
  - intros ([p w1] & E & [= <- <-])%bind_inv.
    unfold slabhash_lookup, on_table. rewrite Hi, E, !bind_Ok. unfold slabhash_gettable.
    change (slab_idx (with_tables _ sl) hash) with (slab_idx sl hash).
    cbn [sl_array with_tables]. by rewrite list_lookup_insert_eq.
  - intros ([u w1] & E & [= <- <-])%bind_inv.
    unfold slabhash_remove, on_table. by rewrite Hi, E, !bind_Ok.
Qed.

(** The operations of slab [i], and the results they got. *)
Definition ops_in (k : Z) (i : nat) (ops : list lru_op) : list lru_op :=
  filter (fun op => Z.to_nat (op_hash op / 2 ^ (32 - k)) = i) ops.

Definition results_in (k : Z) (i : nat) (ops : list lru_op) (rs : list (option (Z * K * D))) :=
  (filter (fun x => Z.to_nat (op_hash x.1 / 2 ^ (32 - k)) = i) (zip ops rs)).*2.

Context (Hsize : forall k d, 1 <= sizefunc k d).
Context (Hcomp : Equivalence (fun k1 k2 => compfunc k1 k2 = 0)).
Context (Hkeysize : forall k1 k2 d, compfunc k1 k2 = 0 -> sizefunc k1 d = sizefunc k2 d).

(** Slab [i] holds the cache [c i]. *)
Definition slabs_rep (k max : Z) (md : option (K -> K)) sl (c : nat -> list (Z * K * D))
    (del : nat -> list (event K D)) : Prop :=
  (forall hash, in_u 32 hash -> slab_idx sl hash = hash / 2 ^ (32 - k)) /\
  forall i, (i < Z.to_nat (2 ^ k))%nat -> exists w, sl.(sl_array) !! i = Some (Some w) /\
    cache_rep sizefunc compfunc w (c i) /\ limits w = (max, md) /\ w.(deleted) = del i.

(** Updating the cache of one slab. *)
Definition upd {A} (f : nat -> A) (j : nat) (x : A) : nat -> A := fun i => if decide (i = j) then x else f i.

Definition slab_of (k : Z) op : nat := Z.to_nat (op_hash op / 2 ^ (32 - k)).

Lemma slab_exec_op_refines k max md sl c del op : 0 <= k <= 32 ->
  slabs_rep k max md sl c del -> op_ok op ->
  total (isize sizefunc) (c (slab_of k op)) + cost sizefunc op < 2 ^ 64 ->
  zlen (c (slab_of k op)) + 1 < 2 ^ 31 ->
  let s := spec_op sizefunc compfunc max md (c (slab_of k op)) op in
  exists sl', slab_exec_op sl op = Ok (s.1.1, sl') /\
    slabs_rep k max md sl' (upd c (slab_of k op) s.1.2) (upd del (slab_of k op) (del (slab_of k op) ++ s.2)).
Proof.
  intros Hk [Hidx R] Hop Hb Hn. set (j := slab_of k op) in *.
  assert (in_u 32 (op_hash op)) as Hh by (destruct op; exact Hop).
  pose proof (slab_of_range k _ Hk Hh) as Hr.
  destruct (R j ltac:(unfold j, slab_of; lia)) as (w & Ew & Rw & Lw & Dw).
  destruct (exec_op_refines sizefunc compfunc Hsize Hcomp Hkeysize w (c j) op Rw Hop Hb Hn)
    as (w1 & E1 & L1 & R1 & D1).
  rewrite Lw in L1. injection Lw as Hmax Hmd. rewrite Hmax, Hmd in E1, R1, D1.
  assert (Z.to_nat (slab_idx sl (op_hash op)) = j) as Ej by (by rewrite Hidx).
  eexists. split; [apply (slab_exec_op_table sl op w _ w1); [by rewrite Ej|done]|]. rewrite Ej.
  split; [exact Hidx|]. intros i Hi. unfold upd. cbn [sl_array with_tables].
  destruct (decide (i = j)) as [->|Hne].
  - exists w1. rewrite list_lookup_insert_eq by (by eapply lookup_lt_Some). by rewrite D1, Dw.
  - destruct (R i Hi) as (w' & ? & ? & ? & ?). exists w'. by rewrite list_lookup_insert_ne.
Qed.

Lemma ops_in_cons k i op ops :
  ops_in k i (op :: ops) = if decide (i = slab_of k op) then op :: ops_in k i ops else ops_in k i ops.
Proof. unfold ops_in, slab_of. rewrite filter_cons. repeat case_decide; congruence. Qed.

Lemma results_in_cons k i op ops r rs :
  results_in k i (op :: ops) (r :: rs)
  = if decide (i = slab_of k op) then r :: results_in k i ops rs else results_in k i ops rs.
Proof. unfold results_in, slab_of. cbn [zip_with]. rewrite filter_cons. cbn [fst]. repeat case_decide; done || congruence. Qed.

Lemma slab_exec_refines k max md : 0 <= k <= 32 -> forall ops sl c del,
  slabs_rep k max md sl c del -> Forall op_ok ops ->
  (forall i, total (isize sizefunc) (c i) + total (cost sizefunc) ops < 2 ^ 64) ->
  (forall i, zlen (c i) + zlen ops < 2 ^ 31) ->
  exists rs sl', slab_exec sl ops = Ok (rs, sl') /\ length rs = length ops /\
    (forall i, results_in k i ops rs = (spec sizefunc compfunc max md (c i) (ops_in k i ops)).1.1) /\
    slabs_rep k max md sl' (fun i => (spec sizefunc compfunc max md (c i) (ops_in k i ops)).1.2)
      (fun i => del i ++ (spec sizefunc compfunc max md (c i) (ops_in k i ops)).2).
Proof.
  intros Hk. induction ops as [|op ops IH]; intros sl c del R Hops Hb Hn.
  - exists [], sl. split; [done|]. split; [done|]. split; [done|]. split; [apply R|].
    intros i Hi. destruct R as [_ R]. destruct (R i Hi) as (w & ? & ? & ? & ?).
    exists w. cbn. by rewrite app_nil_r.
  - inversion_clear Hops as [|? ? Hop Hops'].
    set (j := slab_of k op). pose proof (Hb j) as Hbj. pose proof (Hn j) as Hnj.
    rewrite total_cons in Hbj. rewrite zlen_cons in Hnj. pose proof (cost_nonneg sizefunc Hsize op).
    pose proof (total_nonneg (cost sizefunc) (cost_nonneg sizefunc Hsize) ops). pose proof (zlen_nonneg ops).
    destruct (slab_exec_op_refines k max md sl c del op Hk R Hop) as (sl1 & E1 & R1); fold j; [lia|lia|].
    pose proof (spec_op_budget sizefunc compfunc Hsize Hkeysize max md (c j) op) as [B1 B2]. fold j in E1, R1.
    destruct (spec_op sizefunc compfunc max md (c j) op) as [[r c1] ev1] eqn:Eo. cbn [fst snd] in *.
    destruct (IH sl1 _ _ R1 Hops') as (rs & sl' & E & Lr & Hres & Hidx & Hrep).
    { intros i. specialize (Hb i). rewrite total_cons in Hb. unfold upd. destruct (decide (i = j)); lia. }
    { intros i. specialize (Hn i). rewrite zlen_cons in Hn. unfold upd. destruct (decide (i = j)); lia. }
    cbn [slab_exec]. rewrite E1, bind_Ok, E, bind_Ok. exists (r :: rs), sl'.
    split; [done|]. split; [cbn; lia|]. unfold upd in *. split; [|split; [done|]].
    + intros i. specialize (Hres i). rewrite ops_in_cons, results_in_cons. fold j.
      destruct (decide (i = j)) as [->|]; [|done]. cbn [spec]. rewrite Eo.
      destruct (spec _ _ _ _ c1 _) as [[rs' c2] ev2]. cbn in *. by f_equal.
    + intros i Hi. destruct (Hrep i Hi) as (w' & E' & R' & L' & D'). exists w'.
      rewrite ops_in_cons. fold j. split; [done|].
      destruct (decide (i = j)) as [->|]; [|done]. cbn [spec]. rewrite Eo.
      destruct (spec _ _ _ _ c1 _) as [[rs' c2] ev2]. cbn in *. by rewrite app_assoc.
Qed.

(** A new slabbed table, after [slabhash_setmarkdel]. *)
Lemma setmarkdel_loop md w w' n : lruhash_setmarkdel md w = Ok (tt, w') -> forall pre i sl, i = zlen pre ->
  sl.(sl_array) = pre ++ replicate n (Some w) ->
  for_tables n i (fun _ => lruhash_setmarkdel md) tt sl
  = Ok (tt, with_tables (pre ++ replicate n (Some w')) sl).
Proof.
  intros E. induction n as [|n IH]; intros pre i sl Hi Har; cbn [for_tables replicate] in *.
  - rewrite <- Har. by destruct sl.
  - unfold on_table. rewrite Hi, to_nat_zlen, Har, list_lookup_middle by done.
    rewrite E, !bind_Ok, insert_app_r_alt, Nat.sub_diag by done. cbn [insert list_insert].
    rewrite (IH (pre ++ [Some w'])); [|by rewrite zlen_app|cbn [sl_array with_tables]; by rewrite <- app_assoc].
    by rewrite <- app_assoc.
Qed.

Lemma new_slabhash_rep k s max md : 0 <= k <= 32 -> 0 <= s <= 31 ->
  exists sl, slabhash_setmarkdel (new_slabhash k (2 ^ s) max) md = Ok (tt, sl) /\
    slabs_rep k (max / 2 ^ k) md sl (fun _ => []) (fun _ => []).
Proof.
  intros Hk Hs. unfold slabhash_setmarkdel. cbn [new_slabhash sl_size].
  destruct (create_empty sizefunc compfunc s (max / 2 ^ k) md Hs) as (t & [= <-] & w & Ew & R & L & Hd).
  rewrite (setmarkdel_loop md (new_slab (2 ^ s) (max / 2 ^ k)) w _ Ew []) by done.
  eexists. split; [reflexivity|]. split; [intros hash Hh; by apply (slab_idx_new (K := K) (D := D) k (2 ^ s) max)|].
  intros i Hi. exists w. split; [by apply lookup_replicate|done].
Qed.

(** C38.  The slabs are independent LRU caches: after creation, any sequence
    of insertions, lookups and removals runs without fault; the results of the
    operations that go to slab [i] are those of the list cache run on these
    operations alone, with the slab's share of the memory, and slab [i] ends
    with the items of that cache and has deleted what that cache dropped. *)
Theorem slabhash_run_refines k s max md ops :
  0 <= k <= 32 -> 0 <= s <= 31 ->
  Forall op_ok ops -> total (cost sizefunc) ops < 2 ^ 64 -> zlen ops < 2 ^ 31 ->
  exists sl rs sl', slabhash_setmarkdel (new_slabhash k (2 ^ s) max) md = Ok (tt, sl) /\
    slab_exec sl ops = Ok (rs, sl') /\ length rs = length ops /\
    forall i, (i < Z.to_nat (2 ^ k))%nat ->
      let sp := spec sizefunc compfunc (max / 2 ^ k) md [] (ops_in k i ops) in
      results_in k i ops rs = sp.1.1 /\
      exists w, sl'.(sl_array) !! i = Some (Some w) /\
        cache_rep sizefunc compfunc w sp.1.2 /\ w.(deleted) = sp.2.
Proof.
  intros Hk Hs Hops Hb Hn. destruct (new_slabhash_rep k s max md Hk Hs) as (sl & E0 & R).
  destruct (slab_exec_refines k (max / 2 ^ k) md Hk ops sl _ _ R Hops) as (rs & sl' & E & Lr & Hres & _ & Hrep).
  { intros i. cbn. lia. }
  { intros i. rewrite zlen_nil. lia. }
  exists sl, rs, sl'. split; [done|]. split; [done|]. split; [done|]. intros i Hi. cbn zeta.
  split; [apply Hres|]. destruct (Hrep i Hi) as (w & ? & ? & ? & ?). by exists w.
Qed.
End Run.

(** Two slabs: the lookup in the second slab does not save the first slab's key. *)
Definition slab_ops : list (@lru_op Z Z) :=
  [OpInsert true 7 100 1; OpInsert true 0x80000007 200 2; OpInsert true 8 300 3;
   OpLookup 7 100; OpLookup 0x80000007 200].

Lemma slabhash_run_refines_witness :
  exists sl rs sl', slabhash_setmarkdel (new_slabhash 1 (2 ^ 1) 30) None = Ok (tt, sl) /\
    slab_exec toy_size toy_comp sl slab_ops = Ok (rs, sl') /\ length rs = length slab_ops /\
    forall i, (i < Z.to_nat (2 ^ 1))%nat ->
      let sp := spec toy_size toy_comp (30 / 2 ^ 1) None [] (ops_in 1 i slab_ops) in
      results_in 1 i slab_ops rs = sp.1.1 /\
      exists w, sl'.(sl_array) !! i = Some (Some w) /\
        cache_rep toy_size toy_comp w sp.1.2 /\ w.(deleted) = sp.2.
Proof.
  apply (slabhash_run_refines toy_size toy_comp toy_size_pos toy_comp_equiv toy_keysize 1 1 30 None slab_ops).
  - lia.
  - lia.
  - repeat constructor; unfold op_ok, in_u; simpl; lia.
  - reflexivity.
  - reflexivity.
Defined.
