(* ===== verification/WgEncoding.v ===== *)
(** * WireGuard keys as text (Wireguard/src/encoding.c)

    The constant-time base64 and hex codecs of the wg tool.  A [char] is a
    signed byte; the expressions that select a range of characters with shifts
    and masks are kept as they are, on [Z], where [Z.land] and [Z.shiftr] act as
    the two's complement operations of C on values that fit an [int]. *)

From S2P Require Import Prelude Sbuffer.

Definition WG_KEY_LEN : Z := 32.
Definition WG_KEY_LEN_BASE64 : Z := ((WG_KEY_LEN + 2) / 3) * 4 + 1.
Definition WG_KEY_LEN_HEX : Z := WG_KEY_LEN * 2 + 1.

(** Conversion to [char]. *)
Abbreviation to_char := (swrap 8).
Abbreviation is_char := (in_s 8).

(** ** Base64 *)

Definition base64_char (input : Z) : Z :=
  to_char (input + 65
    + Z.land (Z.shiftr (25 - input) 8) 6
    - Z.land (Z.shiftr (51 - input) 8) 75
    - Z.land (Z.shiftr (61 - input) 8) 15
    + Z.land (Z.shiftr (62 - input) 8) 3).

Definition encode_base64 (s0 s1 s2 : Z) : list Z :=
  let input :=
    [Z.land (Z.shiftr s0 2) 63;
     Z.land (Z.lor (Z.shiftl s0 4) (Z.shiftr s1 4)) 63;
     Z.land (Z.lor (Z.shiftl s1 2) (Z.shiftr s2 6)) 63;
     Z.land s2 63] in
  map base64_char input.

(** The groups of three bytes of the loop, and the bytes it leaves. *)
Fixpoint encode_groups (n : nat) (key : list Z) : outcome (list Z * list Z) :=
  match n with
  | O => Ok ([], key)
  | S n' =>
      '(a, key) ← next key;
      '(b, key) ← next key;
      '(c, key) ← next key;
      '(rest, key) ← encode_groups n' key;
      Ok (encode_base64 a b c ++ rest, key)
  end.

(** The 45 characters stored at [base64]. *)
Definition key_to_base64 (key : list Z) : outcome (list Z) :=
  '(out, key) ← encode_groups (Z.to_nat (WG_KEY_LEN / 3)) key;
  '(a, key) ← next key;
  '(b, key) ← next key;
  let base64 := out ++ encode_base64 a b 0 ++ [0] in
  base64 ← store base64 (WG_KEY_LEN_BASE64 - 2) 61;
  store base64 (WG_KEY_LEN_BASE64 - 1) 0.

Definition base64_val (c : Z) : Z :=
  -1
  + Z.land (Z.shiftr (Z.land (65 - 1 - c) (c - (90 + 1))) 8) (c - 64)
  + Z.land (Z.shiftr (Z.land (97 - 1 - c) (c - (122 + 1))) 8) (c - 70)
  + Z.land (Z.shiftr (Z.land (48 - 1 - c) (c - (57 + 1))) 8) (c + 5)
  + Z.land (Z.shiftr (Z.land (43 - 1 - c) (c - (43 + 1))) 8) 63
  + Z.land (Z.shiftr (Z.land (47 - 1 - c) (c - (47 + 1))) 8) 64.

(** A character outside of the alphabet has the value -1, which the code shifts to the
    left: undefined in C11, and taken here as GCC and Clang compile it, as arithmetic. *)
Definition decode_base64 (c0 c1 c2 c3 : Z) : Z :=
  let val := 0 in
  let val := Z.lor val (Z.shiftl (base64_val c0) 18) in
  let val := Z.lor val (Z.shiftl (base64_val c1) 12) in
  let val := Z.lor val (Z.shiftl (base64_val c2) 6) in
  Z.lor val (Z.shiftl (base64_val c3) 0).

(** The loop: the value of [ret], the bytes of the key, and where it stops. *)
Fixpoint decode_groups (n : nat) (base64 : list Z) (ret : Z) : outcome (Z * list Z * list Z) :=
  match n with
  | O => Ok (ret, [], base64)
  | S n' =>
      '(c0, base64) ← next base64;
      '(c1, base64) ← next base64;
      '(c2, base64) ← next base64;
      '(c3, base64) ← next base64;
      let val := decode_base64 c0 c1 c2 c3 in
      let ret := u8 (Z.lor ret (Z.shiftr (u32 val) 31)) in
      '(ret, key, base64) ← decode_groups n' base64 ret;
      Ok (ret, [Z.land (Z.shiftr val 16) 255; Z.land (Z.shiftr val 8) 255; Z.land val 255] ++ key,
          base64)
  end.

(** The result and, when the length is right, the 32 bytes stored at [key]. *)
Definition key_from_base64 (base64 : list Z) : outcome (bool * option (list Z)) :=
  len ← c_strlen base64;
  if negb (len =? WG_KEY_LEN_BASE64 - 1) then Ok (false, None) else
  eq ← index base64 (WG_KEY_LEN_BASE64 - 2);
  if negb (eq =? 61) then Ok (false, None) else
  '(ret, key, base64) ← decode_groups (Z.to_nat (WG_KEY_LEN / 3)) base64 0;
  '(c0, base64) ← next base64;
  '(c1, base64) ← next base64;
  '(c2, base64) ← next base64;
  let val := decode_base64 c0 c1 c2 65 in
  let ret := u8 (Z.lor ret (Z.lor (Z.shiftr (u32 val) 31) (Z.land val 255))) in
  Ok (negb (Z.land 1 (Z.shiftr (ret - 1) 8) =? 0),
      Some (key ++ [Z.land (Z.shiftr val 16) 255; Z.land (Z.shiftr val 8) 255])).

(** ** Hex *)

Definition hex_char (nibble : Z) : Z :=
  to_char (u32 (u32 (87 + nibble) + Z.land (Z.shiftr (u32 (nibble - 10)) 8) (u32 (Z.lnot 38)))).

Fixpoint to_hex_loop (n : nat) (key : list Z) : outcome (list Z) :=
  match n with
  | O => Ok [0]
  | S n' =>
      '(b, key) ← next key;
      rest ← to_hex_loop n' key;
      Ok (hex_char (Z.shiftr b 4) :: hex_char (Z.land b 15) :: rest)
  end.

(** The 65 characters stored at [hex]. *)
Definition key_to_hex (key : list Z) : outcome (list Z) := to_hex_loop (Z.to_nat WG_KEY_LEN) key.

(** One character: [c_val] and what it adds to [ret]. *)
Definition hex_val (ch : Z) : Z * Z :=
  let c := u8 ch in
  let c_num := u8 (Z.lxor c 48) in
  let c_num0 := u8 (Z.shiftr (u32 (c_num - 10)) 8) in
  let c_alpha := u8 (u32 (Z.land c (u32 (Z.lnot 32)) - 55)) in
  let c_alpha0 := u8 (Z.shiftr (Z.lxor (u32 (c_alpha - 10)) (u32 (c_alpha - 16))) 8) in
  (u8 (Z.lor (Z.land c_num0 c_num) (Z.land c_alpha0 c_alpha)),
   u8 (Z.shiftr (Z.lor c_num0 c_alpha0 - 1) 8)).

Fixpoint from_hex_loop (n : nat) (hex : list Z) (ret : Z) : outcome (Z * list Z) :=
  match n with
  | O => Ok (ret, [])
  | S n' =>
      '(h0, hex) ← next hex;
      let '(c_val, bad) := hex_val h0 in
      let ret := Z.lor ret bad in
      let c_acc := u8 (c_val * 16) in
      '(h1, hex) ← next hex;
      let '(c_val, bad) := hex_val h1 in
      let ret := Z.lor ret bad in
      '(ret, key) ← from_hex_loop n' hex ret;
      Ok (ret, u8 (Z.lor c_acc c_val) :: key)
  end.

Definition key_from_hex (hex : list Z) : outcome (bool * option (list Z)) :=
  len ← c_strlen hex;
  if negb (len =? WG_KEY_LEN_HEX - 1) then Ok (false, None) else
  '(ret, key) ← from_hex_loop (Z.to_nat WG_KEY_LEN) hex 0;
  Ok (negb (Z.land 1 (Z.shiftr (ret - 1) 8) =? 0), Some key).

Fixpoint is_zero_loop (n : nat) (key : list Z) (acc : Z) : outcome Z :=
  match n with
  | O => Ok acc
  | S n' => '(b, key) ← next key; is_zero_loop n' key (Z.lor acc b)
  end.

Definition key_is_zero (key : list Z) : outcome bool :=
  acc ← is_zero_loop (Z.to_nat WG_KEY_LEN) key 0;
  Ok (negb (Z.land 1 (Z.shiftr (acc - 1) 8) =? 0)).

(** ** Characters, by evaluation on all of them *)

Lemma char_forall (P : Z -> bool) :
  forallb P (seqZ (-128) 256) = true -> forall c, is_char c -> P c = true.
Proof.
  intros H c [Hc1 Hc2]. rewrite forallb_forall in H. apply H.
  apply list_elem_of_In, elem_of_seqZ. change (2 ^ (8 - 1)) with 128 in *. lia.
Qed.

Definition is_sextet (v : Z) : bool := (0 <=? v) && (v <? 64).

Lemma sextet_char v : is_sextet v = true ->
  base64_val (base64_char v) = v /\ is_char (base64_char v) /\ base64_char v <> 0 /\ base64_char v <> 61.
Proof.
  intros [Hv1%Z.leb_le Hv2%Z.ltb_lt]%andb_true_iff.
  pose proof (byte_forall (fun v => if v <? 64 then
    (base64_val (base64_char v) =? v) && (43 <=? base64_char v) && (base64_char v <=? 122)
    && negb (base64_char v =? 61) else true) eq_refl v ltac:(unfold in_u; lia)) as H.
  cbn beta in H. rewrite ltb_true in H by lia.
  apply andb_true_iff in H as [[[H1%Z.eqb_eq H2%Z.leb_le]%andb_true_iff H3%Z.leb_le]%andb_true_iff
    H4%negb_true_iff%Z.eqb_neq].
  unfold in_s. repeat split; lia.
Qed.

Lemma char_sextet c : is_char c ->
  (base64_val c = -1 /\ forall v, is_sextet v = true -> base64_char v <> c) \/
  (is_sextet (base64_val c) = true /\ base64_char (base64_val c) = c).
Proof.
  intros Hc. pose proof (char_forall (fun c => (base64_val c =? -1) ||
    (is_sextet (base64_val c) && (base64_char (base64_val c) =? c))) eq_refl c Hc) as H.
  apply orb_true_iff in H as [H%Z.eqb_eq|[H1 H2%Z.eqb_eq]%andb_true_iff]; [left|right; done].
  split; [done|]. intros v Hv <-. destruct (sextet_char v Hv) as [E _].
  rewrite E in H. subst v. done.
Qed.

(** ** One group: three bytes and four characters *)

Lemma shiftr_div x k : 0 <= k -> Z.shiftr x k = x / 2 ^ k.
Proof. apply Z.shiftr_div_pow2. Qed.

Lemma land_63 x : Z.land x 63 = x mod 64.
Proof. apply (Z.land_ones x 6). lia. Qed.

(** The value of four digits; a digit of an invalid character is -1. *)
Lemma decode_digits c0 c1 c2 c3 :
  is_sextet (base64_val c0) = true -> is_sextet (base64_val c1) = true ->
  is_sextet (base64_val c2) = true -> is_sextet (base64_val c3) = true ->
  decode_base64 c0 c1 c2 c3
  = base64_val c0 * 262144 + base64_val c1 * 4096 + base64_val c2 * 64 + base64_val c3.
Proof.
  unfold decode_base64. generalize (base64_val c0) (base64_val c1) (base64_val c2) (base64_val c3).
  unfold is_sextet. intros d0 d1 d2 d3 [? ?]%andb_true_iff [? ?]%andb_true_iff [? ?]%andb_true_iff [? ?]%andb_true_iff.
  rewrite Z.lor_0_l, Z.shiftl_0_r.
  replace (Z.shiftl d1 12) with (d1 * 4096) by (rewrite Z.shiftl_mul_pow2; lia).
  rewrite lor_shiftl_add by lia.
  replace (d0 * 2 ^ 18 + d1 * 4096) with (Z.shiftl (d0 * 64 + d1) 12) by (rewrite Z.shiftl_mul_pow2; lia).
  replace (Z.shiftl d2 6) with (d2 * 64) by (rewrite Z.shiftl_mul_pow2; lia).
  rewrite lor_shiftl_add by lia.
  replace ((d0 * 64 + d1) * 2 ^ 12 + d2 * 64) with (Z.shiftl (d0 * 4096 + d1 * 64 + d2) 6)
    by (rewrite Z.shiftl_mul_pow2; lia).
  rewrite lor_shiftl_add by lia. lia.
Qed.

Lemma sign_bit val : Z.shiftr (u32 val) 31 = Z.shiftr val 31 mod 2.
Proof. rewrite !shiftr_div by lia. unfold wrap. divlia. Qed.

Definition digit_ok (d : Z) : Prop := -1 <= d < 64.

Lemma base64_val_digit c : is_char c -> digit_ok (base64_val c).
Proof.
  intros Hc. unfold digit_ok. destruct (char_sextet c Hc) as [[-> _]|[H _]]; [lia|].
  unfold is_sextet in H. apply andb_true_iff in H as []. lia.
Qed.

(** The sign bit of the value tells whether a character was invalid. *)
Lemma decode_bad c0 c1 c2 c3 : is_char c0 -> is_char c1 -> is_char c2 -> is_char c3 ->
  Z.shiftr (u32 (decode_base64 c0 c1 c2 c3)) 31
  = if (base64_val c0 =? -1) || (base64_val c1 =? -1) || (base64_val c2 =? -1) || (base64_val c3 =? -1)
    then 1 else 0.
Proof.
  intros H0%base64_val_digit H1%base64_val_digit H2%base64_val_digit H3%base64_val_digit.
  rewrite sign_bit. unfold decode_base64.
  revert H0 H1 H2 H3. generalize (base64_val c0) (base64_val c1) (base64_val c2) (base64_val c3).
  unfold digit_ok. intros d0 d1 d2 d3 H0 H1 H2 H3. rewrite !Z.shiftr_lor.
  assert (forall d k, -1 <= d < 64 -> 0 <= k <= 18 ->
    Z.shiftr (Z.shiftl d k) 31 = if d =? -1 then -1 else 0) as Hs.
  { intros d k Hd Hk. rewrite shiftr_div, Z.shiftl_mul_pow2 by lia.
    assert (1 <= 2 ^ k <= 2 ^ 18) as Hp.
    { split; [apply (Z.pow_le_mono_r 2 0); lia|apply Z.pow_le_mono_r; lia]. }
    destruct (Z.eqb_spec d (-1)) as [->|Hne].
    - symmetry. apply (Z.div_unique _ _ _ (2 ^ 31 - 2 ^ k)); lia.
    - apply Z.div_small. nia. }
  rewrite !Hs by lia.
  destruct (d0 =? -1), (d1 =? -1), (d2 =? -1), (d3 =? -1); reflexivity.
Qed.

Lemma encode_group a b c : is_byte a -> is_byte b -> is_byte c ->
  exists d0 d1 d2 d3, encode_base64 a b c = map base64_char [d0; d1; d2; d3] /\
    Forall (fun d => is_sextet d = true) [d0; d1; d2; d3] /\
    d0 = a / 4 /\ d1 = (a mod 4) * 16 + b / 16 /\ d2 = (b mod 16) * 4 + c / 64 /\ d3 = c mod 64.
Proof.
  unfold in_u. intros Ha Hb Hc. unfold encode_base64. rewrite !shiftr_div by lia.
  rewrite !lor_shiftl_add by (split || lia; divlia). rewrite !land_63.
  change (2 ^ 2) with 4. change (2 ^ 4) with 16. change (2 ^ 6) with 64.
  eexists _, _, _, _. split; [reflexivity|]. unfold is_sextet. split; [|divlia].
  repeat constructor; apply andb_true_iff; split; (apply Z.leb_le || apply Z.ltb_lt); divlia.
Qed.

(** The bytes of a group of digits. *)
Lemma group_bytes d0 d1 d2 d3 :
  Forall (fun d => is_sextet d = true) [d0; d1; d2; d3] ->
  let val := d0 * 262144 + d1 * 4096 + d2 * 64 + d3 in
  Z.land (Z.shiftr val 16) 255 = d0 * 4 + d1 / 16 /\
  Z.land (Z.shiftr val 8) 255 = (d1 mod 16) * 16 + d2 / 4 /\
  Z.land val 255 = (d2 mod 4) * 64 + d3.
Proof.
  intros H val. rewrite !land_255, !shiftr_div by lia.
  assert (0 <= d0 < 64 /\ 0 <= d1 < 64 /\ 0 <= d2 < 64 /\ 0 <= d3 < 64) as (? & ? & ? & ?).
  { unfold is_sextet in H. rewrite !Forall_cons in H. rewrite !andb_true_iff, !Z.leb_le, !Z.ltb_lt in H. tauto. }
  unfold val. change (2 ^ 8) with 256. change (2 ^ 16) with 65536. divlia.
Qed.

(** The bytes a group of characters stands for. *)
Definition val_bytes (val : Z) : list Z :=
  [Z.land (Z.shiftr val 16) 255; Z.land (Z.shiftr val 8) 255; Z.land val 255].

Lemma sextets_ok d0 d1 d2 d3 : Forall (fun d => is_sextet d = true) [d0; d1; d2; d3] ->
  let val := decode_base64 (base64_char d0) (base64_char d1) (base64_char d2) (base64_char d3) in
  val = d0 * 262144 + d1 * 4096 + d2 * 64 + d3 /\ Z.shiftr (u32 val) 31 = 0.
Proof.
  intros H val. rewrite !Forall_cons in H. destruct H as (H0 & H1 & H2 & H3 & _).
  destruct (sextet_char d0 H0) as (E0 & C0 & _), (sextet_char d1 H1) as (E1 & C1 & _),
    (sextet_char d2 H2) as (E2 & C2 & _), (sextet_char d3 H3) as (E3 & C3 & _).
  split.
  - unfold val. by rewrite decode_digits, E0, E1, E2, E3 by (by rewrite ?E0, ?E1, ?E2, ?E3).
  - unfold val. rewrite decode_bad by done. rewrite E0, E1, E2, E3.
    unfold is_sextet in *. rewrite !andb_true_iff, !Z.leb_le in *.
    by rewrite !eqb_false by lia.
Qed.

Lemma group_encode_decode a b c : is_byte a -> is_byte b -> is_byte c ->
  exists x0 x1 x2 x3, encode_base64 a b c = [x0; x1; x2; x3] /\
    Forall (fun x => is_char x /\ x <> 0) [x0; x1; x2; x3] /\
    val_bytes (decode_base64 x0 x1 x2 x3) = [a; b; c] /\
    Z.shiftr (u32 (decode_base64 x0 x1 x2 x3)) 31 = 0.
Proof.
  intros Ha Hb Hc. destruct (encode_group a b c Ha Hb Hc) as (d0 & d1 & d2 & d3 & E & Hd & E0 & E1 & E2 & E3).
  exists (base64_char d0), (base64_char d1), (base64_char d2), (base64_char d3).
  destruct (sextets_ok d0 d1 d2 d3 Hd) as [Hv Hbad]. split; [done|]. split; [|split; [|done]].
  - change [base64_char d0; base64_char d1; base64_char d2; base64_char d3]
      with (map base64_char [d0; d1; d2; d3]).
    apply Forall_map. eapply Forall_impl; [exact Hd|]. cbn. intros d H.
    destruct (sextet_char d H) as (_ & ? & ? & _). done.
  - rewrite Hv. unfold val_bytes. destruct (group_bytes d0 d1 d2 d3 Hd) as (-> & -> & ->).
    unfold in_u in *. rewrite E0, E1, E2, E3. f_equal; [divlia|]. f_equal; [divlia|]. f_equal. divlia.
Qed.

(** Characters whose value has no sign bit are the encoding of their bytes. *)
Lemma group_decode_encode c0 c1 c2 c3 :
  is_char c0 -> is_char c1 -> is_char c2 -> is_char c3 ->
  Z.shiftr (u32 (decode_base64 c0 c1 c2 c3)) 31 = 0 ->
  exists a b c, val_bytes (decode_base64 c0 c1 c2 c3) = [a; b; c] /\
    is_byte a /\ is_byte b /\ is_byte c /\ encode_base64 a b c = [c0; c1; c2; c3].
Proof.
  intros H0 H1 H2 H3 Hbad. rewrite decode_bad in Hbad by done.
  assert (forall c, is_char c -> (base64_val c =? -1) = false ->
    is_sextet (base64_val c) = true /\ base64_char (base64_val c) = c) as Hok.
  { intros c Hc E. destruct (char_sextet c Hc) as [[E' _]|]; [|done]. by rewrite E' in E. }
  destruct (base64_val c0 =? -1) eqn:B0; [done|]. destruct (base64_val c1 =? -1) eqn:B1; [done|].
  destruct (base64_val c2 =? -1) eqn:B2; [done|]. destruct (base64_val c3 =? -1) eqn:B3; [done|].
  destruct (Hok c0 H0 B0) as [S0 E0], (Hok c1 H1 B1) as [S1 E1], (Hok c2 H2 B2) as [S2 E2],
    (Hok c3 H3 B3) as [S3 E3]. clear Hok Hbad B0 B1 B2 B3.
  rewrite decode_digits by done.
  revert E0 E1 E2 E3 S0 S1 S2 S3.
  generalize (base64_val c0) (base64_val c1) (base64_val c2) (base64_val c3).
  intros d0 d1 d2 d3 E0 E1 E2 E3 S0 S1 S2 S3.
  assert (Forall (fun d => is_sextet d = true) [d0; d1; d2; d3]) as Hd by (by repeat constructor).
  destruct (group_bytes d0 d1 d2 d3 Hd) as (Ea & Eb & Ec).
  unfold val_bytes. rewrite Ea, Eb, Ec. eexists _, _, _. split; [reflexivity|].
  unfold is_sextet in *. rewrite !andb_true_iff, !Z.leb_le, !Z.ltb_lt in *.
  assert (is_byte (d0 * 4 + d1 / 16)) as Ba by (unfold in_u; divlia).
  assert (is_byte (d1 mod 16 * 16 + d2 / 4)) as Bb by (unfold in_u; divlia).
  assert (is_byte (d2 mod 4 * 64 + d3)) as Bc by (unfold in_u; divlia).
  split; [done|]. split; [done|]. split; [done|].
  destruct (encode_group _ _ _ Ba Bb Bc) as (e0 & e1 & e2 & e3 & -> & _ & F0 & F1 & F2 & F3).
  rewrite <- E0, <- E1, <- E2, <- E3. cbn [map]. repeat f_equal; subst; divlia.
Qed.

(** ** The loops *)

Lemma next_cons x l : next (x :: l) = Ok (x, l).
Proof. done. Qed.

Ltac nexts := repeat (rewrite next_cons, bind_Ok).

Lemma encode_groups_spec n : forall key, bytes_ok key -> (3 * n <= length key)%nat ->
  exists out, encode_groups n key = Ok (out, drop (3 * n) key) /\ length out = (4 * n)%nat /\
    Forall (fun x => is_char x /\ x <> 0) out /\
    forall r ret, in_u 8 ret ->
      decode_groups n (out ++ r) ret = Ok (ret, take (3 * n) key, r).
Proof.
  induction n as [|n IH]; intros key Hb Hl.
  - exists []. split; [done|]. done.
  - destruct key as [|a [|b [|c key]]]; cbn [length] in Hl; try lia.
    rewrite !Forall_cons in Hb. destruct Hb as (Ha & Hb & Hc & Hk).
    destruct (IH key Hk ltac:(lia)) as (out & E & L & Hch & Hdec).
    destruct (group_encode_decode a b c Ha Hb Hc) as (x0 & x1 & x2 & x3 & Ee & Hx & Hv & Hbad).
    exists ([x0; x1; x2; x3] ++ out).
    replace (3 * S n)%nat with (S (S (S (3 * n)))) by lia. cbn [drop take].
    split; [|split; [|split]].
    + cbn [encode_groups]. nexts. rewrite E, bind_Ok. by rewrite Ee.
    + cbn [app length]. lia.
    + by apply Forall_app.
    + intros r ret Hret. cbn [app decode_groups]. nexts. cbn zeta.
      rewrite Hbad, Z.lor_0_r, wrap_small by done. rewrite (Hdec r ret Hret), bind_Ok.
      unfold val_bytes in Hv. by injection Hv as -> -> ->.
Qed.

Lemma lor_zero x y : Z.lor x y = 0 -> x = 0 /\ y = 0.
Proof. apply Z.lor_eq_0_iff. Qed.

Lemma lor_u8 x y : in_u 8 x -> in_u 8 y -> in_u 8 (Z.lor x y).
Proof.
  unfold in_u. intros Hx Hy. split; [apply Z.lor_nonneg; lia|].
  destruct (Z.eq_dec (Z.lor x y) 0) as [->|]; [lia|].
  apply Z.log2_lt_pow2; [pose proof (Z.lor_nonneg x y); lia|]. rewrite Z.log2_lor by lia.
  apply Z.max_lub_lt; [destruct (Z.eq_dec x 0) as [->|]|destruct (Z.eq_dec y 0) as [->|]];
    try done; apply Z.log2_lt_pow2; lia.
Qed.

(** A sign bit is 0 or 1. *)
Lemma sign_bit_range val : 0 <= Z.shiftr (u32 val) 31 <= 1.
Proof.
  rewrite shiftr_div by lia. pose proof (wrap_range 32 val ltac:(lia)) as H. unfold in_u in H. divlia.
Qed.

Lemma lor_bit ret b : 0 <= ret <= 1 -> 0 <= b <= 1 -> 0 <= Z.lor ret b <= 1.
Proof.
  intros Hr Hb. assert (ret = 0 \/ ret = 1) as [-> | ->] by lia;
    assert (b = 0 \/ b = 1) as [-> | ->] by lia; done.
Qed.

Lemma decode_groups_spec n : forall s ret, Forall is_char s -> (4 * n <= length s)%nat -> 0 <= ret <= 1 ->
  exists ret' key, decode_groups n s ret = Ok (ret', key, drop (4 * n) s) /\ 0 <= ret' <= 1 /\
    length key = (3 * n)%nat /\ bytes_ok key /\
    (ret' = 0 -> ret = 0 /\ forall key', encode_groups n (key ++ key') = Ok (take (4 * n) s, key')).
Proof.
  induction n as [|n IH]; intros s ret Hc Hl Hret.
  - exists ret, []. split; [done|]. split; [done|]. done.
  - destruct s as [|c0 [|c1 [|c2 [|c3 s]]]]; cbn [length] in Hl; try lia.
    rewrite !Forall_cons in Hc. destruct Hc as (H0 & H1 & H2 & H3 & Hs).
    cbn [decode_groups]. nexts. cbn zeta.
    set (val := decode_base64 c0 c1 c2 c3). pose proof (sign_bit_range val) as Hsb.
    pose proof (lor_bit _ _ Hret Hsb) as Hlor.
    rewrite wrap_small by (unfold in_u; lia).
    destruct (IH s _ Hs ltac:(lia) Hlor) as (ret' & key & -> & Hr' & L & Hbk & Henc). rewrite bind_Ok.
    fold (val_bytes val). exists ret', (val_bytes val ++ key).
    replace (4 * S n)%nat with (S (S (S (S (4 * n))))) by lia. cbn [drop take].
    split; [done|]. split; [done|]. split; [cbn [val_bytes app length]; lia|]. split.
    + apply Forall_app. split; [|done]. unfold val_bytes.
      repeat constructor; rewrite land_255; unfold in_u; apply Z.mod_pos_bound; lia.
    + intros E0. destruct (Henc E0) as [Hz Henc']. apply lor_zero in Hz as [-> Hbad].
      split; [done|]. intros key'.
      destruct (group_decode_encode c0 c1 c2 c3 H0 H1 H2 H3 Hbad) as (a & b & c & Ev & _ & _ & _ & Ee).
      fold val in Ev. rewrite Ev. cbn [app encode_groups].
      nexts. rewrite Henc', bind_Ok, Ee. done.
Qed.

(** ** C strings *)

Lemma strlen_app l r : Forall (fun c => c <> 0) l -> c_strlen (l ++ 0 :: r) = Ok (zlen l).
Proof.
  induction 1 as [|c l Hc _ IH]; [done|]. cbn [app c_strlen]. rewrite eqb_false by done.
  by rewrite IH, bind_Ok, zlen_cons.
Qed.

Lemma strlen_inv s n : c_strlen s = Ok n ->
  exists l r, s = l ++ 0 :: r /\ zlen l = n /\ Forall (fun c => c <> 0) l.
Proof.
  revert n. induction s as [|c s IH]; intros n; [done|]. cbn [c_strlen].
  destruct (Z.eqb_spec c 0) as [->|Hc].
  - intros [= <-]. by exists [], s.
  - intros (m & (l & r & -> & <- & H)%IH & [= <-])%bind_inv.
    exists (c :: l), r. rewrite zlen_cons. split; [done|]. split; [done|]. by constructor.
Qed.

Lemma strlen_total s : 0 ∈ s -> exists n, c_strlen s = Ok n.
Proof.
  induction s as [|c s IH]; [by intros ?%elem_of_nil|]. cbn [c_strlen].
  destruct (Z.eqb_spec c 0); [by eexists|]. intros [|H]%elem_of_cons; [congruence|].
  destruct (IH H) as [n' ->]. by eexists.
Qed.

(** The answer of the constant-time test on [ret]. *)
Lemma ret_test ret : in_u 8 ret -> negb (Z.land 1 (Z.shiftr (ret - 1) 8) =? 0) = (ret =? 0).
Proof.
  intros H. apply eqb_true_iff.
  exact (byte_forall (fun ret => eqb (negb (Z.land 1 (Z.shiftr (ret - 1) 8) =? 0)) (ret =? 0)) eq_refl ret H).
Qed.

(** ** Keys in base64 *)

Lemma store_app (out l : list Z) i v : 0 <= i < zlen l ->
  store (out ++ l) (zlen out + i) v = Ok (out ++ <[Z.to_nat i := v]> l).
Proof.
  intros Hi. unfold store. rewrite zlen_app, leb_true, ltb_true by (pose proof (zlen_nonneg out); lia).
  cbn [andb]. f_equal. unfold zlen in *. rewrite insert_app_r_alt by lia. do 2 f_equal. lia.
Qed.

Lemma store_end (out : list Z) x0 x1 x2 x3 y : length out = 40%nat ->
  (b ← store (out ++ [x0; x1; x2; x3; y]) (WG_KEY_LEN_BASE64 - 2) 61;
   store b (WG_KEY_LEN_BASE64 - 1) 0) = Ok (out ++ [x0; x1; x2; 61; 0]).
Proof.
  intros L. assert (zlen out = 40) as Lz by (unfold zlen; lia).
  change (WG_KEY_LEN_BASE64 - 2) with (40 + 3). change (WG_KEY_LEN_BASE64 - 1) with (40 + 4).
  rewrite <- Lz, store_app by (unfold zlen; cbn [length]; lia). rewrite bind_Ok.
  by rewrite store_app by (unfold zlen; rewrite length_insert; cbn [length]; lia).
Qed.

Lemma key_to_base64_spec key : bytes_ok key -> zlen key = 32 ->
  exists out x0 x1 x2, key_to_base64 key = Ok (out ++ [x0; x1; x2; 61; 0]) /\ length out = 40%nat /\
    Forall (fun x => is_char x /\ x <> 0) (out ++ [x0; x1; x2; 61]) /\
    forall r, key_from_base64 (out ++ [x0; x1; x2; 61; 0] ++ r) = Ok (true, Some key).
Proof.
  intros Hb Hl. unfold zlen in Hl.
  destruct (encode_groups_spec 10 key Hb ltac:(lia)) as (out & E & L & Hch & Hdec).
  assert (exists a b, drop (3 * 10) key = [a; b]) as (a & b & Ed).
  { assert (length (drop (3 * 10) key) = 2%nat) as L2 by (rewrite length_drop; lia).
    destruct (drop (3 * 10) key) as [|a [|b [|]]]; try discriminate. eauto. }
  assert (is_byte a /\ is_byte b) as [Ha Hbb].
  { pose proof (Forall_drop _ (3 * 10) key Hb) as H. rewrite Ed, !Forall_cons in H. tauto. }
  destruct (group_encode_decode a b 0 Ha Hbb ltac:(unfold in_u; lia))
    as (x0 & x1 & x2 & x3 & Ee & Hx & Hv & Hbad).
  assert (x3 = 65) as -> by (unfold encode_base64 in Ee; cbn [map] in Ee; by injection Ee).
  exists out, x0, x1, x2. rewrite !Forall_cons in Hx. destruct Hx as (H0 & H1 & H2 & H3 & _).
  assert (Forall (fun x => is_char x /\ x <> 0) (out ++ [x0; x1; x2; 61])) as Hall.
  { apply Forall_app. split; [done|]. by repeat (apply Forall_cons; split; [done|]). }
  split; [|split; [done|split; [done|]]].
  - unfold key_to_base64. change (Z.to_nat (WG_KEY_LEN / 3)) with 10%nat.
    rewrite E, Ed, bind_Ok. nexts. rewrite Ee. cbn zeta. by apply store_end.
  - intros r. unfold key_from_base64.
    assert (out ++ [x0; x1; x2; 61; 0] ++ r = (out ++ [x0; x1; x2; 61]) ++ 0 :: r) as Es
      by (by rewrite <- app_assoc).
    assert (c_strlen (out ++ [x0; x1; x2; 61; 0] ++ r) = Ok (WG_KEY_LEN_BASE64 - 1)) as ->.
    { rewrite Es, strlen_app by (eapply Forall_impl; [exact Hall|]; by intros ? []).
      f_equal. unfold zlen. by rewrite length_app, L. }
    rewrite bind_Ok, eqb_true by done. cbn [negb].
    rewrite index_app_r by (unfold zlen; rewrite L; done).
    assert (WG_KEY_LEN_BASE64 - 2 - zlen out = 3) as -> by (unfold zlen; by rewrite L).
    change (index _ 3) with (Ok (A := Z) 61). rewrite bind_Ok. cbn [Z.eqb Pos.eqb negb].
    change (Z.to_nat (WG_KEY_LEN / 3)) with 10%nat.
    rewrite Hdec by (unfold in_u; lia). rewrite bind_Ok. cbn [app]. nexts. cbn zeta.
    unfold val_bytes in Hv. injection Hv as -> -> Hv. rewrite Hbad, Hv.
    cbn. do 3 f_equal. rewrite <- Ed. apply (take_drop 30).
Qed.

Lemma key_from_base64_canonical s : Forall is_char s -> 0 ∈ s ->
  exists ok k, key_from_base64 s = Ok (ok, k) /\
    (ok = true -> exists key out r, k = Some key /\ bytes_ok key /\ zlen key = 32 /\
       key_to_base64 key = Ok out /\ s = out ++ r).
Proof.
  intros Hc Hz. unfold key_from_base64. destruct (strlen_total s Hz) as [n En]. rewrite En, bind_Ok.
  destruct (strlen_inv s n En) as (l & r & Es & Hn & Hnz).
  destruct (Z.eqb_spec n (WG_KEY_LEN_BASE64 - 1)) as [E|E]; cbn [negb]; [|by do 2 eexists].
  change (WG_KEY_LEN_BASE64 - 1) with 44 in E. subst n.
  assert (length l = 44%nat) as Ll by (unfold zlen in E; lia).
  assert (exists out c0 c1 c2 c3, l = out ++ [c0; c1; c2; c3] /\ length out = 40%nat)
    as (out & c0 & c1 & c2 & c3 & -> & Lout).
  { assert (length (drop 40 l) = 4%nat) as L4 by (rewrite length_drop; lia).
    destruct (drop 40 l) as [|c0 [|c1 [|c2 [|c3 [|]]]]] eqn:E4; try discriminate.
    exists (take 40 l), c0, c1, c2, c3. rewrite <- E4, take_drop, length_take. split; [done|lia]. }
  rewrite <- app_assoc in Es. cbn [app] in Es. subst s.
  rewrite index_app_r by (unfold zlen; rewrite Lout; done).
  assert (WG_KEY_LEN_BASE64 - 2 - zlen out = 3) as -> by (unfold zlen; by rewrite Lout).
  change (index _ 3) with (Ok (A := Z) c3). rewrite bind_Ok.
  destruct (Z.eqb_spec c3 61) as [->|]; cbn [negb]; [|by do 2 eexists].
  change (Z.to_nat (WG_KEY_LEN / 3)) with 10%nat.
  destruct (decode_groups_spec 10 (out ++ c0 :: c1 :: c2 :: 61 :: 0 :: r) 0 Hc)
    as (ret & key & -> & Hret & Lk & Hbk & Henc); [rewrite length_app; lia|lia|].
  rewrite bind_Ok. rewrite drop_app_length' by lia. nexts. cbn zeta.
  apply Forall_app in Hc as [_ Hc]. rewrite !Forall_cons in Hc. destruct Hc as (H0 & H1 & H2 & _).
  set (val := decode_base64 c0 c1 c2 65). pose proof (sign_bit_range val) as Hsb.
  assert (in_u 8 (Z.land val 255)) as Hlow by (rewrite land_255; unfold in_u; apply Z.mod_pos_bound; lia).
  do 2 eexists. split; [reflexivity|]. rewrite ret_test by (apply wrap_range; lia). intros Eret%Z.eqb_eq.
  assert (Z.lor ret (Z.lor (Z.shiftr (u32 val) 31) (Z.land val 255)) = 0) as Ez.
  { rewrite wrap_small in Eret; [done|]. unfold in_u in Hlow. repeat apply lor_u8; unfold in_u; lia. }
  apply lor_zero in Ez as [-> [Hbad Hl0]%lor_zero].
  destruct (group_decode_encode c0 c1 c2 65 H0 H1 H2 ltac:(unfold in_s; lia) Hbad)
    as (a & b & c & Ev & Ha & Hb & _ & Ee). fold val in Ev.
  assert (c = 0) as -> by (unfold val_bytes in Ev; injection Ev; congruence).
  unfold val_bytes in Ev. injection Ev as Ea Eb _. rewrite Ea, Eb.
  exists (key ++ [a; b]), (out ++ [c0; c1; c2; 61; 0]), r. split; [done|].
  split; [apply Forall_app; split; [done|by repeat (apply Forall_cons; split; [done|])]|].
  split; [unfold zlen; rewrite length_app, Lk; done|]. split; [|by rewrite <- app_assoc].
  unfold key_to_base64. change (Z.to_nat (WG_KEY_LEN / 3)) with 10%nat.
  destruct (Henc eq_refl) as [_ ->]. rewrite bind_Ok. nexts. rewrite Ee. cbn zeta.
  rewrite take_app_length' by lia. by apply store_end.
Qed.

(** C40.  The base64 codec is a bijection between keys and the texts it
    accepts.  For every 32-byte key, [key_to_base64] stores a text that
    [key_from_base64] accepts and turns back into the key, whatever follows the
    text in memory.  For every C string, of signed characters, [key_from_base64]
    terminates without reading past the string's end; and if it accepts, the
    32 bytes it stores are a key whose canonical text is the string itself: no
    second spelling of a key (stray bits in the last digit, foreign
    characters, a missing padding) gets through. *)
Theorem key_base64_bijective :
  (forall key, bytes_ok key -> zlen key = WG_KEY_LEN ->
     exists text, key_to_base64 key = Ok text /\ zlen text = WG_KEY_LEN_BASE64 /\
       Forall is_char text /\ forall r, key_from_base64 (text ++ r) = Ok (true, Some key)) /\
  (forall s, Forall is_char s -> 0 ∈ s ->
     exists ok k, key_from_base64 s = Ok (ok, k) /\
       (ok = true -> exists key text r, k = Some key /\ bytes_ok key /\ zlen key = WG_KEY_LEN /\
          key_to_base64 key = Ok text /\ s = text ++ r)).
Proof.
  split.
  - intros key Hb Hl. destruct (key_to_base64_spec key Hb Hl) as (out & x0 & x1 & x2 & E & L & Hall & Hdec).
    eexists. split; [exact E|]. split; [unfold zlen; by rewrite length_app, L|]. split.
    + change [x0; x1; x2; 61; 0] with ([x0; x1; x2; 61] ++ [0]). rewrite app_assoc.
      apply Forall_app. split; [eapply Forall_impl; [exact Hall|]; by intros ? []|by repeat constructor].
    + intros r. rewrite <- app_assoc. apply Hdec.
  - intros s Hc Hz. exact (key_from_base64_canonical s Hc Hz).
Qed.

(** ** Keys in hex *)

(** The value of a hexadecimal digit, of either case. *)
Definition hex_digit (c : Z) : option Z :=
  if (48 <=? c) && (c <=? 57) then Some (c - 48)
  else if (97 <=? c) && (c <=? 102) then Some (c - 87)
  else if (65 <=? c) && (c <=? 70) then Some (c - 55)
  else None.

(** The bytes that pairs of digits stand for. *)
Fixpoint hex_bytes (s : list Z) : option (list Z) :=
  match s with
  | [] => Some []
  | [_] => None
  | h :: l :: s' =>
      match hex_digit h, hex_digit l, hex_bytes s' with
      | Some h, Some l, Some key => Some (16 * h + l :: key)
      | _, _, _ => None
      end
  end.

Lemma hex_val_spec c : is_char c ->
  match hex_digit c with
  | Some v => hex_val c = (v, 0) /\ 0 <= v < 16
  | None => hex_val c = (0, 255)
  end.
Proof.
  intros Hc. pose proof (char_forall (fun c => let '(v, bad) := hex_val c in
    match hex_digit c with
    | Some d => (v =? d) && (bad =? 0) && (0 <=? d) && (d <? 16)
    | None => (v =? 0) && (bad =? 255)
    end) eq_refl c Hc) as H.
  cbn beta in H. destruct (hex_val c) as [v bad], (hex_digit c) as [d|].
  - rewrite !andb_true_iff, !Z.eqb_eq, Z.leb_le, Z.ltb_lt in H. destruct H as [[[-> ->] ?] ?]. done.
  - rewrite andb_true_iff, !Z.eqb_eq in H. by destruct H as [-> ->].
Qed.

Lemma nibble_char n : 0 <= n < 16 ->
  hex_digit (hex_char n) = Some n /\ is_char (hex_char n) /\ hex_char n <> 0.
Proof.
  intros Hn. pose proof (byte_forall (fun n => if n <? 16 then
    match hex_digit (hex_char n) with
    | Some d => (d =? n) && (48 <=? hex_char n) && (hex_char n <=? 102)
    | None => false
    end else true) eq_refl n ltac:(unfold in_u; lia)) as H.
  cbn beta in H. rewrite ltb_true in H by lia. destruct (hex_digit (hex_char n)); [|done].
  rewrite !andb_true_iff, Z.eqb_eq, !Z.leb_le in H. destruct H as [[-> ?] ?]. unfold in_s.
  repeat split; lia.
Qed.

Lemma nibbles_byte h l : 0 <= h < 16 -> 0 <= l < 16 -> u8 (Z.lor (u8 (h * 16)) l) = 16 * h + l.
Proof.
  intros Hh Hl. rewrite (wrap_small 8 (h * 16)) by (unfold in_u; lia).
  replace (h * 16) with (Z.shiftl h 4) by (rewrite Z.shiftl_mul_pow2; lia).
  rewrite lor_shiftl_add by lia. rewrite wrap_small; [lia|unfold in_u; lia].
Qed.

(** The loop computes [hex_bytes], and 255 instead of its flag when a character
    is not a digit. *)
Lemma from_hex_loop_spec n : forall s r ret, Forall is_char s -> length s = (2 * n)%nat ->
  (ret = 0 \/ ret = 255) ->
  exists ret' k, from_hex_loop n (s ++ r) ret = Ok (ret', k) /\
    match hex_bytes s with Some key => ret' = ret /\ k = key | None => ret' = 255 end /\
    (ret' = 0 \/ ret' = 255) /\ (ret = 255 -> ret' = 255).
Proof.
  induction n as [|n IH]; intros s r ret Hc L Hret.
  - destruct s; [|done]. exists ret, []. cbn. tauto.
  - destruct s as [|h [|l s]]; cbn [length] in L; try lia.
    rewrite !Forall_cons in Hc. destruct Hc as (Hh & Hl & Hs).
    cbn [app from_hex_loop hex_bytes]. nexts.
    pose proof (hex_val_spec h Hh) as Eh. pose proof (hex_val_spec l Hl) as El.
    destruct (hex_val h) as [vh bh]. cbn beta iota zeta. nexts. destruct (hex_val l) as [vl bl].
    assert (bh = 0 \/ bh = 255) as Bh by (destruct (hex_digit h); destruct_and?; simplify_eq; tauto).
    assert (bl = 0 \/ bl = 255) as Bl by (destruct (hex_digit l); destruct_and?; simplify_eq; tauto).
    assert (let x := Z.lor (Z.lor ret bh) bl in (x = 0 \/ x = 255)
      /\ (x = 0 -> ret = 0 /\ bh = 0 /\ bl = 0)) as [Hx Hx0]
      by (destruct Hret as [-> | ->], Bh as [-> | ->], Bl as [-> | ->]; cbn; split; try tauto; done).
    cbn zeta in Hx, Hx0.
    destruct (IH s r _ Hs ltac:(lia) Hx) as (ret' & k & -> & Hk & Hr & Hr255). rewrite bind_Ok.
    do 2 eexists. split; [reflexivity|]. split; [|split; [done|]].
    + destruct (hex_digit h) as [dh|].
      * destruct (hex_digit l) as [dl|].
        -- destruct Eh as [[= -> ->] Rh], El as [[= -> ->] Rl]. rewrite !Z.lor_0_r in Hk.
           destruct (hex_bytes s); [|done]. destruct Hk as [-> ->]. split; [done|].
           by rewrite nibbles_byte.
        -- injection El as -> ->. apply Hr255. destruct Hx as [?%Hx0|]; [lia|done].
      * injection Eh as -> ->. apply Hr255. destruct Hx as [?%Hx0|]; [lia|done].
    + intros ->. apply Hr255. destruct Hx as [?%Hx0|]; [lia|done].
Qed.

Lemma to_hex_loop_spec n : forall key, bytes_ok key -> length key = n ->
  exists s, to_hex_loop n key = Ok (s ++ [0]) /\ length s = (2 * n)%nat /\
    Forall (fun x => is_char x /\ x <> 0) s /\ hex_bytes s = Some key.
Proof.
  induction n as [|n IH]; intros key Hb L.
  - destruct key; [|done]. by exists [].
  - destruct key as [|b key]; [done|]. cbn in L. apply Forall_cons in Hb as [Hb Hk].
    destruct (IH key Hk ltac:(lia)) as (s & E & Ls & Hs & Hex).
    exists (hex_char (Z.shiftr b 4) :: hex_char (Z.land b 15) :: s).
    assert (Z.shiftr b 4 = b / 16) as Eh by (by rewrite shiftr_div by lia).
    assert (Z.land b 15 = b mod 16) as El by (apply (Z.land_ones b 4); lia).
    unfold in_u in Hb. change (2 ^ 8) with 256 in Hb.
    destruct (nibble_char (Z.shiftr b 4)) as (D1 & C1 & N1); [rewrite Eh; divlia|].
    destruct (nibble_char (Z.land b 15)) as (D2 & C2 & N2); [rewrite El; divlia|].
    cbn [to_hex_loop]. nexts. rewrite E, bind_Ok. split; [done|]. split; [cbn; lia|].
    split; [by repeat (apply Forall_cons; split; [done|])|].
    cbn [hex_bytes]. rewrite D1, D2, Hex, Eh, El. do 2 f_equal. divlia.
Qed.

Lemma is_zero_loop_spec n : forall key acc, bytes_ok key -> length key = n -> in_u 8 acc ->
  exists acc', is_zero_loop n key acc = Ok acc' /\ in_u 8 acc' /\
    (acc' = 0 <-> acc = 0 /\ key = replicate n 0).
Proof.
  induction n as [|n IH]; intros key acc Hb L Hacc.
  - destruct key; [|done]. exists acc. cbn. tauto.
  - destruct key as [|b key]; [done|]. cbn in L. apply Forall_cons in Hb as [Hb Hk].
    destruct (IH key (Z.lor acc b) Hk ltac:(lia) (lor_u8 _ _ Hacc Hb)) as (acc' & E & Hr & Hiff).
    exists acc'. cbn [is_zero_loop]. nexts. split; [done|]. split; [done|].
    rewrite Hiff, Z.lor_eq_0_iff. cbn. split; [intros [[-> ->] ->]; done|].
    intros [-> [= -> ->]]. done.
Qed.

Lemma key_from_hex_spec l r : Forall is_char l -> Forall (fun c => c <> 0) l ->
  exists k, key_from_hex (l ++ 0 :: r)
      = Ok (bool_decide (zlen l = WG_KEY_LEN_HEX - 1) && bool_decide (is_Some (hex_bytes l)), k) /\
    forall key, zlen l = WG_KEY_LEN_HEX - 1 -> hex_bytes l = Some key -> k = Some key.
Proof.
  intros Hc Hnz. unfold key_from_hex. rewrite strlen_app, bind_Ok by done.
  destruct (Z.eqb_spec (zlen l) (WG_KEY_LEN_HEX - 1)) as [E|E]; cbn [negb];
    [|rewrite bool_decide_false by done; by eexists].
  rewrite bool_decide_true by done.
  destruct (from_hex_loop_spec (Z.to_nat WG_KEY_LEN) l (0 :: r) 0 Hc) as (ret & k & -> & Hk & Hr & _);
    [unfold zlen in E; change (WG_KEY_LEN_HEX - 1) with 64 in E; change (Z.to_nat WG_KEY_LEN) with 32%nat; lia|tauto|].
  rewrite bind_Ok, ret_test by (unfold in_u; lia). exists (Some k). split.
  - do 2 f_equal. destruct (hex_bytes l); [by destruct Hk as [-> _]|by subst].
  - intros key _ E'. rewrite E' in Hk. by destruct Hk as [_ ->].
Qed.

(**  The hex codec and the zero test.  [key_to_hex] stores 64 digits and a
    terminator that [key_from_hex] turns back into the key.  On any C string
    [key_from_hex] terminates within the string, and it answers true exactly when
    the string has 64 characters, every one a hexadecimal digit of either case;
    the key stored is then the one the digits spell.  [key_is_zero] answers
    true for the key of 32 zero bytes and for no other. *)
Lemma key_hex_spec :
  (forall key, bytes_ok key -> zlen key = WG_KEY_LEN ->
     exists text, key_to_hex key = Ok text /\ zlen text = WG_KEY_LEN_HEX /\
       Forall is_char text /\ forall r, key_from_hex (text ++ r) = Ok (true, Some key)) /\
  (forall l r, Forall is_char l -> Forall (fun c => c <> 0) l ->
     exists k, key_from_hex (l ++ 0 :: r)
         = Ok (bool_decide (zlen l = WG_KEY_LEN_HEX - 1) && bool_decide (is_Some (hex_bytes l)), k) /\
       forall key, zlen l = WG_KEY_LEN_HEX - 1 -> hex_bytes l = Some key -> k = Some key) /\
  (forall key, bytes_ok key -> zlen key = WG_KEY_LEN ->
     key_is_zero key = Ok (bool_decide (key = replicate (Z.to_nat WG_KEY_LEN) 0))).
Proof.
  split; [|split; [exact key_from_hex_spec|]].
  - intros key Hb Hl.
    destruct (to_hex_loop_spec (Z.to_nat WG_KEY_LEN) key Hb) as (s & E & L & Hs & Hex);
      [unfold zlen in Hl; change WG_KEY_LEN with 32 in *; lia|].
    exists (s ++ [0]). assert (Forall is_char s) as Hc by (eapply Forall_impl; [exact Hs|]; by intros ? []).
    split; [done|]. split; [unfold zlen; by rewrite length_app, L|].
    split; [apply Forall_app; split; [done|by repeat constructor]|]. intros r. rewrite <- app_assoc. cbn [app].
    destruct (key_from_hex_spec s r Hc) as (k & -> & Hk); [eapply Forall_impl; [exact Hs|]; by intros ? []|].
    assert (zlen s = WG_KEY_LEN_HEX - 1) as Hz by (unfold zlen; by rewrite L).
    rewrite (Hk key Hz Hex), !bool_decide_true by (rewrite ?Hex; done). done.
  - intros key Hb Hl. unfold key_is_zero.
    destruct (is_zero_loop_spec (Z.to_nat WG_KEY_LEN) key 0 Hb) as (acc & -> & Hr & Hiff);
      [unfold zlen in Hl; change WG_KEY_LEN with 32 in *; lia|unfold in_u; lia|].
    rewrite bind_Ok, ret_test by done. f_equal. apply eq_true_iff_eq. rewrite bool_decide_eq_true, Z.eqb_eq. tauto.
Qed.
