(* ===== verification/Rfc1982.v ===== *)
(** * Serial number arithmetic (util/rfc_1982.c) *)

From S2P Require Import Prelude.

Definition compare_1982 (a b : Z) : Z :=
  let cutoff := Z.shiftl 1 (32 - 1) in
  if a =? b then 0
  else if ((a <? b) && (u32 (b - a) <? cutoff)) || ((b <? a) && (cutoff <? u32 (a - b))) then -1
  else 1.

Definition subtract_1982 (a b : Z) : Z :=
  let cutoff := Z.shiftl 1 (32 - 1) in
  if a =? b then 0
  else if (a <? b) && (u32 (b - a) <? cutoff) then u32 (b - a)
  else if (b <? a) && (cutoff <? u32 (a - b)) then u32 (0xffffffff - u32 (u32 (a - b) - 1))
  else 0.

(** The distance from [a] forward to [b] on the circle of 32-bit numbers. *)
Definition ahead (a b : Z) : Z := u32 (b - a).

Lemma ahead_cases a b : in_u 32 a -> in_u 32 b ->
  ahead a b = (if a <=? b then b - a else b - a + 2 ^ 32) /\ in_u 32 (ahead a b).
Proof.
  intros Ha Hb. split; [|by apply wrap_range]. unfold ahead, wrap, in_u in *.
  destruct (Z.leb_spec a b); [apply Z.mod_small; lia|].
  symmetry. apply (Z.mod_unique _ _ (-1)); lia.
Qed.

Lemma compare_ahead a b : in_u 32 a -> in_u 32 b ->
  compare_1982 a b = (if ahead a b =? 0 then 0 else if ahead a b <? 2 ^ 31 then -1 else 1) /\
  subtract_1982 a b = (if ahead a b <? 2 ^ 31 then ahead a b else 0).
Proof.
  intros Ha Hb. destruct (ahead_cases a b Ha Hb) as [E _]. unfold in_u in *.
  unfold compare_1982, subtract_1982. change (Z.shiftl 1 (32 - 1)) with (2 ^ 31).
  destruct (Z.eqb_spec a b) as [->|Hne].
  { rewrite Z.leb_refl, Z.sub_diag in E. by rewrite E. }
  destruct (Z.ltb_spec a b) as [H|H].
  - rewrite (ltb_false b a), leb_true in * by lia. rewrite (wrap_small 32 (b - a)) by (unfold in_u; lia).
    rewrite E, eqb_false by lia. rewrite orb_false_r. cbn [andb]. by destruct (b - a <? 2 ^ 31).
  - rewrite (ltb_true b a), leb_false in * by lia. rewrite (wrap_small 32 (a - b)) by (unfold in_u; lia).
    rewrite E, eqb_false by lia. cbn [andb orb].
    rewrite (wrap_small 32 (a - b - 1)) by (unfold in_u; lia).
    rewrite (wrap_small 32 (0xffffffff - (a - b - 1))) by (unfold in_u; lia).
    destruct (Z.ltb_spec (2 ^ 31) (a - b)), (Z.ltb_spec (b - a + 2 ^ 32) (2 ^ 31)); try lia; split; lia.
Qed.

Lemma ahead_add a s : in_u 32 a -> in_u 32 s -> ahead a (u32 (a + s)) = s.
Proof.
  intros Ha Hs. unfold ahead. rewrite <- (wrap_small 32 s) at 2 by done. apply eqw_wrap.
  rewrite wrap_eqw. by replace (a + s - a) with s by lia.
Qed.

(**  Serial numbers compare as RFC 1982 says, across the wrap-around: with
    [d] the distance from [a] forward to [b], [a] is smaller exactly when
    [0 < d < 2^31] and [subtract_1982] is then [d]; adding any increment below
    [2^31] to a serial gives a larger one, whose difference is the increment;
    the comparison changes sign with its arguments except at the distance [2^31],
    for which the RFC leaves it open (the code answers 1 both ways). *)
Lemma serial_1982_spec a b : in_u 32 a -> in_u 32 b ->
  (compare_1982 a b = 0 <-> a = b) /\
  (compare_1982 a b = -1 <-> 0 < ahead a b < 2 ^ 31) /\
  subtract_1982 a b = (if ahead a b <? 2 ^ 31 then ahead a b else 0) /\
  (forall s, 0 < s < 2 ^ 31 -> compare_1982 a (u32 (a + s)) = -1 /\ subtract_1982 a (u32 (a + s)) = s) /\
  (ahead a b <> 2 ^ 31 -> compare_1982 b a = - compare_1982 a b) /\
  (ahead a b = 2 ^ 31 -> compare_1982 a b = 1 /\ compare_1982 b a = 1).
Proof.
  intros Ha Hb. destruct (compare_ahead a b Ha Hb) as [E1 E2], (compare_ahead b a Hb Ha) as [E3 _].
  destruct (ahead_cases a b Ha Hb) as [A1 R1], (ahead_cases b a Hb Ha) as [A2 R2]. unfold in_u in *.
  assert (ahead a b = 0 <-> a = b) as H0 by (rewrite A1; zcase; lia).
  assert (ahead a b <> 0 -> ahead b a = 2 ^ 32 - ahead a b) as Hs
    by (rewrite A1, A2; destruct (Z.leb_spec a b), (Z.leb_spec b a); lia).
  split; [|split; [|split; [done|split; [|split]]]].
  - rewrite E1. repeat zcase; lia.
  - rewrite E1. repeat zcase; lia.
  - intros s Hs'. assert (in_u 32 s) as Hsu by (unfold in_u; lia).
    destruct (compare_ahead a (u32 (a + s)) Ha) as [-> ->]; [by apply wrap_range|].
    rewrite (ahead_add a s Ha Hsu), eqb_false, ltb_true by lia. done.
  - intros Hne. rewrite E1, E3. destruct (Z.eqb_spec (ahead a b) 0) as [E|E].
    + assert (a = b) as <- by tauto. by rewrite E.
    + rewrite (Hs E). repeat zcase; lia.
  - intros E. rewrite E1, E3, Hs, E by lia. done.
Qed.

Lemma serial_1982_spec_witness :
  compare_1982 4294967290 5 = -1 /\ subtract_1982 4294967290 5 = 11.
Proof.
  destruct (serial_1982_spec 4294967290 5 ltac:(unfold in_u; lia) ltac:(unfold in_u; lia)) as (_ & H & -> & _).
  split; [apply H; split; reflexivity|reflexivity].
Defined.
