(* ===== verification/Rtt.v ===== *)
(** * Round trip time estimates (util/rtt.c)

    The smoothed round trip time of a server, its variance and the timeout.
    All fields are [int]s: an operation whose arithmetic leaves the range is a
    [Fault].  The clamps and the first guess come from the configuration. *)

From S2P Require Import Prelude.

Record rtt_info := mk_rtt {
  srtt : Z;
  rttvar : Z;
  rto : Z;
}.

Section Rtt.
(** The globals [RTT_MIN_TIMEOUT], [RTT_MAX_TIMEOUT] and [UNKNOWN_SERVER_NICENESS]. *)
Context (RTT_MIN_TIMEOUT RTT_MAX_TIMEOUT UNKNOWN_SERVER_NICENESS : Z).
Implicit Types rtt : rtt_info.

Definition calc_rto rtt : outcome Z :=
  v ← sint 32 (4 * rtt.(rttvar));
  rto ← sint 32 (rtt.(srtt) + v);
  let rto := if rto <? RTT_MIN_TIMEOUT then RTT_MIN_TIMEOUT else rto in
  let rto := if RTT_MAX_TIMEOUT <? rto then RTT_MAX_TIMEOUT else rto in
  Ok rto.

(** The structure the caller passes is overwritten. *)
Definition rtt_init : outcome rtt_info :=
  let srtt := 0 in
  let rttvar := Z.quot UNKNOWN_SERVER_NICENESS 4 in
  rto ← calc_rto (mk_rtt srtt rttvar 0);
  Ok (mk_rtt srtt rttvar rto).

Definition rtt_timeout rtt : Z := rtt.(rto).

Definition rtt_unclamped rtt : outcome Z :=
  c ← calc_rto rtt;
  if negb (c =? rtt.(rto)) then Ok rtt.(rto) else
  v ← sint 32 (4 * rtt.(rttvar));
  sint 32 (rtt.(srtt) + v).

Definition rtt_update rtt (ms : Z) : outcome rtt_info :=
  delta ← sint 32 (ms - rtt.(srtt));
  srtt' ← sint 32 (rtt.(srtt) + Z.quot delta 8);
  delta ← (if delta <? 0 then sint 32 (- delta) else Ok delta);
  dv ← sint 32 (delta - rtt.(rttvar));
  rttvar' ← sint 32 (rtt.(rttvar) + Z.quot dv 4);
  rto' ← calc_rto (mk_rtt srtt' rttvar' rtt.(rto));
  Ok (mk_rtt srtt' rttvar' rto').

Definition rtt_lost rtt (orig : Z) : outcome rtt_info :=
  if rtt.(rto) <? orig then Ok rtt else
  orig ← sint 32 (orig * 2);
  if rtt.(rto) <=? orig then
    let rto := orig in
    let rto := if RTT_MAX_TIMEOUT <? rto then RTT_MAX_TIMEOUT else rto in
    Ok (mk_rtt rtt.(srtt) rtt.(rttvar) rto)
  else Ok rtt.

Definition rtt_notimeout rtt : outcome Z := calc_rto rtt.

(** ** Runs *)

Inductive rtt_event := Answer (ms : Z) | Lost (orig : Z).

Definition rtt_step rtt (ev : rtt_event) : outcome rtt_info :=
  match ev with
  | Answer ms => rtt_update rtt ms
  | Lost orig => rtt_lost rtt orig
  end.

Fixpoint rtt_run rtt (evs : list rtt_event) : outcome rtt_info :=
  match evs with
  | [] => Ok rtt
  | ev :: evs' => rtt ← rtt_step rtt ev; rtt_run rtt evs'
  end.

(** A sane configuration, and a bound [top] on the times the caller measures. *)
Context (top : Z).
Context (Hmin : 0 <= RTT_MIN_TIMEOUT <= RTT_MAX_TIMEOUT) (Hmax : RTT_MAX_TIMEOUT < 2 ^ 30).
Context (Hnice : 0 <= UNKNOWN_SERVER_NICENESS < 2 ^ 30) (Htop : UNKNOWN_SERVER_NICENESS <= 4 * top)
  (Htop' : 5 * top < 2 ^ 31).

Record rtt_ok rtt : Prop := {
  ok_srtt : 0 <= rtt.(srtt) <= top;
  ok_rttvar : 0 <= rtt.(rttvar) <= top;
  ok_rto : RTT_MIN_TIMEOUT <= rtt.(rto) <= RTT_MAX_TIMEOUT;
}.

Definition event_ok (ev : rtt_event) : Prop :=
  match ev with Answer ms => 0 <= ms <= top | Lost orig => 0 <= orig end.

(** The exact value before the clamps. *)
Definition estimate rtt : Z := rtt.(srtt) + 4 * rtt.(rttvar).
Definition clamp (x : Z) : Z := Z.min RTT_MAX_TIMEOUT (Z.max RTT_MIN_TIMEOUT x).

Lemma calc_rto_spec rtt : 0 <= rtt.(srtt) <= top -> 0 <= rtt.(rttvar) <= top ->
  calc_rto rtt = Ok (clamp (estimate rtt)).
Proof using Hmin Htop'.
  intros H1 H2. unfold calc_rto, clamp, estimate. rewrite sint_ok, bind_Ok by (unfold in_s; lia).
  rewrite sint_ok, bind_Ok by (unfold in_s; lia). f_equal.
  destruct (Z.ltb_spec (srtt rtt + 4 * rttvar rtt) RTT_MIN_TIMEOUT); zcase; lia.
Qed.

Lemma rtt_init_ok : exists rtt, rtt_init = Ok rtt /\ rtt_ok rtt.
Proof using Hmin Hnice Htop Htop'.
  unfold rtt_init. assert (0 <= Z.quot UNKNOWN_SERVER_NICENESS 4 <= top) as Hq.
  { rewrite Z.quot_div_nonneg by lia. divlia. }
  rewrite calc_rto_spec by (cbn [srtt rttvar]; lia). rewrite bind_Ok. eexists. split; [done|].
  split; cbn [srtt rttvar rto]; unfold clamp; lia.
Qed.

(** A step towards [y] by a fraction stays between the two. *)
Lemma quot_between x y n : 0 < n -> Z.min x y <= x + Z.quot (y - x) n <= Z.max x y.
Proof using. intros Hn. clear - Hn. Z.to_euclidean_division_equations. nia. Qed.

Lemma rtt_update_spec rtt ms : rtt_ok rtt -> 0 <= ms <= top ->
  let srtt' := rtt.(srtt) + Z.quot (ms - rtt.(srtt)) 8 in
  let rttvar' := rtt.(rttvar) + Z.quot (Z.abs (ms - rtt.(srtt)) - rtt.(rttvar)) 4 in
  let rtt' := mk_rtt srtt' rttvar' (clamp (srtt' + 4 * rttvar')) in
  rtt_update rtt ms = Ok rtt' /\ rtt_ok rtt'.
Proof using Hmin Hmax Htop'.
  intros [H1 H2 H3] Hms. cbn zeta. unfold rtt_update.
  pose proof (quot_between (srtt rtt) ms 8 ltac:(lia)) as Q1.
  pose proof (quot_between (rttvar rtt) (Z.abs (ms - srtt rtt)) 4 ltac:(lia)) as Q2.
  split; [|split; cbn [srtt rttvar rto]; unfold clamp; lia].
  sint_step. sint_step.
  replace (if ms - srtt rtt <? 0 then _ else _) with (Ok (Z.abs (ms - srtt rtt))).
  2: { zcase; [rewrite sint_ok by (unfold in_s; lia)|]; f_equal; lia. }
  rewrite bind_Ok. sint_step. sint_step.
  by rewrite calc_rto_spec by (cbn [srtt rttvar]; lia).
Qed.

Lemma rtt_lost_spec rtt orig : rtt_ok rtt -> 0 <= orig ->
  exists rtt', rtt_lost rtt orig = Ok rtt' /\ rtt_ok rtt' /\
    rtt'.(srtt) = rtt.(srtt) /\ rtt'.(rttvar) = rtt.(rttvar) /\
    rtt'.(rto) = if decide (orig <= rtt.(rto) <= 2 * orig) then Z.min RTT_MAX_TIMEOUT (2 * orig)
                 else rtt.(rto).
Proof using Hmin Hmax.
  intros [H1 H2 H3] Ho. unfold rtt_lost. destruct (Z.ltb_spec (rto rtt) orig).
  { exists rtt. rewrite decide_False by lia. done. }
  rewrite sint_ok, bind_Ok by (unfold in_s; lia). destruct (Z.leb_spec (rto rtt) (orig * 2)).
  - eexists. split; [done|]. cbn [srtt rttvar rto]. rewrite decide_True by lia.
    split; [split; cbn [srtt rttvar rto]; try zcase; lia|]. split; [done|]. split; [done|]. zcase; lia.
  - exists rtt. rewrite decide_False by lia. done.
Qed.

Lemma rtt_run_ok evs : forall rtt, rtt_ok rtt -> Forall event_ok evs ->
  exists rtt', rtt_run rtt evs = Ok rtt' /\ rtt_ok rtt'.
Proof using Hmin Hmax Htop'.
  induction evs as [|ev evs IH]; intros rtt Hok Hev; [by eexists|].
  inversion_clear Hev as [|? ? He Hes]. cbn [rtt_run]. destruct ev as [ms|orig]; cbn [rtt_step].
  - destruct (rtt_update_spec rtt ms Hok He) as [-> Hok']. rewrite bind_Ok. by apply IH.
  - destruct (rtt_lost_spec rtt orig Hok He) as (rtt' & -> & Hok' & _). rewrite bind_Ok. by apply IH.
Qed.

(** [n] losses in a row, each of a query sent with the current timeout. *)
Fixpoint lose (n : nat) rtt : outcome rtt_info :=
  match n with
  | O => Ok rtt
  | S n' => rtt ← rtt_lost rtt (rtt_timeout rtt); lose n' rtt
  end.

Lemma lose_spec n : forall rtt, rtt_ok rtt ->
  exists rtt', lose n rtt = Ok rtt' /\ rtt_ok rtt' /\
    rtt'.(rto) = Z.min RTT_MAX_TIMEOUT (2 ^ Z.of_nat n * rtt.(rto)).
Proof using Hmin Hmax.
  induction n as [|n IH]; intros rtt Hok.
  - exists rtt. split; [done|]. split; [done|]. destruct Hok as [_ _ H]. change (2 ^ Z.of_nat 0) with 1. lia.
  - cbn [lose]. unfold rtt_timeout. destruct (ok_rto _ Hok) as [Hr1 Hr2].
    destruct (rtt_lost_spec rtt (rto rtt) Hok ltac:(lia)) as (rtt1 & -> & Hok1 & _ & _ & Hrto).
    rewrite decide_True in Hrto by lia. rewrite bind_Ok.
    destruct (IH rtt1 Hok1) as (rtt' & -> & Hok' & Er). exists rtt'. split; [done|]. split; [done|].
    rewrite Er, Hrto, Nat2Z.inj_succ, Z.pow_succ_r by lia.
    pose proof (Z.pow_pos_nonneg 2 (Z.of_nat n) ltac:(lia) ltac:(lia)).
    clear Hnice Htop Htop'. nia.
Qed.

(**  The timeout of a server is always usable.  From [rtt_init], through
    any sequence of answers (within the bound on measured times) and of losses
    (of queries sent with any non-negative timeout), no [int] overflows and the
    timeout stays within the configured clamps; it is then the clamped
    estimate after an answer, and doubles with every loss up to the maximum:
    [n] losses in a row give [min(max, 2^n * rto)]; a loss reported for a
    query sent with another timeout never lowers it. *)
Lemma rtt_run_safe evs : Forall event_ok evs ->
  exists rtt0 rtt, rtt_init = Ok rtt0 /\ rtt_run rtt0 evs = Ok rtt /\ rtt_ok rtt /\
    (forall ms, 0 <= ms <= top -> exists rtt', rtt_update rtt ms = Ok rtt' /\
       rtt_timeout rtt' = clamp (estimate rtt') /\ rtt_unclamped rtt' = Ok (estimate rtt')) /\
    (forall orig, 0 <= orig -> exists rtt', rtt_lost rtt orig = Ok rtt' /\
       rtt_timeout rtt <= rtt_timeout rtt' /\ rtt_notimeout rtt' = rtt_notimeout rtt) /\
    (forall n, exists rtt', lose n rtt = Ok rtt' /\
       rtt_timeout rtt' = Z.min RTT_MAX_TIMEOUT (2 ^ Z.of_nat n * rtt_timeout rtt)).
Proof using Hmin Hmax Hnice Htop Htop'.
  intros Hev. destruct rtt_init_ok as (rtt0 & E0 & Hok0). destruct (rtt_run_ok evs rtt0 Hok0 Hev) as (rtt & E & Hok).
  exists rtt0, rtt. split; [done|]. split; [done|]. split; [done|]. split; [|split].
  - intros ms Hms. destruct (rtt_update_spec rtt ms Hok Hms) as [-> [H1 H2 H3]].
    eexists. split; [done|]. split; [done|]. unfold rtt_unclamped. rewrite calc_rto_spec, bind_Ok by done.
    unfold estimate. cbn [srtt rttvar rto] in *. rewrite Z.eqb_refl. cbn [negb].
    rewrite sint_ok, bind_Ok by (unfold in_s; lia). apply sint_ok. unfold in_s. lia.
  - intros orig Ho. destruct (rtt_lost_spec rtt orig Hok Ho) as (rtt' & -> & _ & E1 & E2 & E3).
    exists rtt'. split; [done|]. unfold rtt_timeout, rtt_notimeout, calc_rto. rewrite E1, E2. split; [|done].
    rewrite E3. destruct (ok_rto _ Hok). case_decide; lia.
  - intros n. destruct (lose_spec n rtt Hok) as (rtt' & -> & _ & E'). by exists rtt'.
Qed.
End Rtt.

(** The defaults of the configuration, times up to two minutes. *)
Lemma rtt_run_safe_witness :
  exists rtt0 rtt, rtt_init 50 120000 376 = Ok rtt0 /\
    rtt_run 50 120000 rtt0 [Answer 30; Lost 376; Answer 2000] = Ok rtt.
Proof.
  destruct (rtt_run_safe 50 120000 376 120000 ltac:(lia) ltac:(lia) ltac:(lia) ltac:(lia) ltac:(lia)
    [Answer 30; Lost 376; Answer 2000]) as (rtt0 & rtt & H0 & H & _).
  - repeat constructor; simpl; lia.
  - by exists rtt0, rtt.
Defined.
