(* ===== verification/Timehist.v ===== *)
(** * Time values and the histogram of them
      (util/timeval_func.c, util/timehist.c)

    [time_t] and [suseconds_t] are signed 64-bit integers; arithmetic on them
    that leaves the range is a [Fault].  Counters are [size_t]. *)

From S2P Require Import Prelude.

Record timeval := mk_timeval {
  tv_sec : Z;
  tv_usec : Z;
}.

(** ** timeval_func.c *)

Definition timeval_subtract (end_ start : timeval) : outcome timeval :=
  let end_usec := end_.(tv_usec) in
  sec ← sint 64 (end_.(tv_sec) - start.(tv_sec));
  '(end_usec, sec) ←
    (if end_usec <? start.(tv_usec) then
       end_usec ← sint 64 (end_usec + 1000000);
       sec ← sint 64 (sec - 1);
       Ok (end_usec, sec)
     else Ok (end_usec, sec));
  usec ← sint 64 (end_usec - start.(tv_usec));
  Ok (mk_timeval sec usec).

Definition timeval_add (d add : timeval) : outcome timeval :=
  sec ← sint 64 (d.(tv_sec) + add.(tv_sec));
  usec ← sint 64 (d.(tv_usec) + add.(tv_usec));
  if 1000000 <=? usec then
    sec ← sint 64 (sec + 1);
    Ok (mk_timeval sec (usec - 1000000))
  else Ok (mk_timeval sec usec).

Definition timeval_divide (sum : timeval) (d : Z) : outcome timeval :=
  if d <=? 0 then Ok (mk_timeval 0 0) else
  let sec := Z.quot sum.(tv_sec) d in
  let usec := Z.quot sum.(tv_usec) d in
  whole ← sint 64 (sec * d);
  leftover ← sint 64 (sum.(tv_sec) - whole);
  let leftover := if leftover <=? 0 then 0 else leftover in
  part ← sint 64 (leftover * 1000000);
  usec ← sint 64 (usec + Z.quot part d);
  let sec := if sec <? 0 then 0 else sec in
  let usec := if usec <? 0 then 0 else usec in
  Ok (mk_timeval sec usec).

Definition timeval_smaller (x y : timeval) : bool :=
  if x.(tv_sec) <? y.(tv_sec) then true
  else if x.(tv_sec) =? y.(tv_sec) then
    if x.(tv_usec) <=? y.(tv_usec) then true else false
  else false.

(** ** timehist.c *)

Record th_buck := mk_buck {
  lower : timeval;
  upper : timeval;
  count : Z;
}.

Record timehist := mk_timehist {
  num : Z;
  buckets : list th_buck;
}.

Definition NUM_BUCKETS_HIST : Z := 40.

Definition timestwo (v : timeval) : timeval :=
  if (v.(tv_sec) =? 0) && (v.(tv_usec) =? 0) then mk_timeval v.(tv_sec) 1 else
  let sec := v.(tv_sec) * 2 in
  let usec := v.(tv_usec) * 2 in
  if usec =? 1024 * 1024 then mk_timeval 1 0 else mk_timeval sec usec.

(** The buckets from one whose lower bound is [last]. *)
Fixpoint dosetup (n : nat) (last : timeval) : list th_buck :=
  match n with
  | O => []
  | S n' => let up := timestwo last in mk_buck last up 0 :: dosetup n' up
  end.

(** [None] is NULL; the booleans say which allocations succeed. *)
Definition timehist_setup (alloc_hist alloc_buckets : bool) : option timehist :=
  if negb alloc_hist then None else
  if negb alloc_buckets then None else
  Some (mk_timehist NUM_BUCKETS_HIST (dosetup (Z.to_nat NUM_BUCKETS_HIST) (mk_timeval 0 0))).

Definition set_count (c : Z) (b : th_buck) : th_buck := mk_buck b.(lower) b.(upper) c.

(** [hist->buckets[i].count = f(hist->buckets[i])] *)
Definition on_bucket (i : Z) (f : th_buck -> Z) (hist : timehist) : outcome timehist :=
  match hist.(buckets) !! Z.to_nat i with
  | Some b =>
      if 0 <=? i then Ok (mk_timehist hist.(num) (<[Z.to_nat i := set_count (f b) b]> hist.(buckets)))
      else Fault Undefined
  | None => Fault Undefined
  end.

Definition incr (b : th_buck) : Z := u64 (b.(count) + 1).

Fixpoint clear_loop (n : nat) (i : Z) (hist : timehist) : outcome timehist :=
  match n with
  | O => Ok hist
  | S n' => hist ← on_bucket i (fun _ => 0) hist; clear_loop n' (i + 1) hist
  end.

Definition timehist_clear (hist : timehist) : outcome timehist :=
  clear_loop (Z.to_nat hist.(num)) 0 hist.

Fixpoint insert_loop (n : nat) (i : Z) (hist : timehist) (tv : timeval) : outcome timehist :=
  match n with
  | O => on_bucket (u64 (hist.(num) - 1)) incr hist
  | S n' =>
      match hist.(buckets) !! Z.to_nat i with
      | Some b => if timeval_smaller tv b.(upper) then on_bucket i incr hist
                  else insert_loop n' (i + 1) hist tv
      | None => Fault Undefined
      end
  end.

Definition timehist_insert (hist : timehist) (tv : timeval) : outcome timehist :=
  insert_loop (Z.to_nat hist.(num)) 0 hist tv.

Fixpoint count_loop (n : nat) (i : Z) (hist : timehist) (res : Z) : outcome Z :=
  match n with
  | O => Ok res
  | S n' =>
      match hist.(buckets) !! Z.to_nat i with
      | Some b => count_loop n' (i + 1) hist (u64 (res + b.(count)))
      | None => Fault Undefined
      end
  end.

Definition timehist_count (hist : timehist) : outcome Z :=
  count_loop (Z.to_nat hist.(num)) 0 hist 0.

(** The conversions between [size_t] and [long long]. *)
Fixpoint export_loop (n : nat) (i : Z) (hist : timehist) (array : list Z) : outcome (list Z) :=
  match n with
  | O => Ok array
  | S n' =>
      match hist.(buckets) !! Z.to_nat i with
      | Some b =>
          array ← store array i (swrap 64 b.(count));
          export_loop n' (i + 1) hist array
      | None => Fault Undefined
      end
  end.

Definition timehist_export (hist : option timehist) (array : list Z) (sz : Z) : outcome (list Z) :=
  match hist with
  | None => Ok array
  | Some hist =>
      let sz := if hist.(num) <? sz then hist.(num) else sz in
      export_loop (Z.to_nat sz) 0 hist array
  end.

Fixpoint import_loop (n : nat) (i : Z) (hist : timehist) (array : list Z) : outcome timehist :=
  match n with
  | O => Ok hist
  | S n' =>
      x ← index array i;
      hist ← on_bucket i (fun _ => u64 x) hist;
      import_loop n' (i + 1) hist array
  end.

Definition timehist_import (hist : option timehist) (array : list Z) (sz : Z) : outcome (option timehist) :=
  match hist with
  | None => Ok None
  | Some hist =>
      let sz := if hist.(num) <? sz then hist.(num) else sz in
      hist ← import_loop (Z.to_nat sz) 0 hist array;
      Ok (Some hist)
  end.

(** ** Time values *)

Definition usecs (tv : timeval) : Z := tv.(tv_sec) * 1000000 + tv.(tv_usec).

(** A time value as the system hands it out. *)
Definition norm (tv : timeval) : Prop := 0 <= tv.(tv_sec) < 2 ^ 62 /\ 0 <= tv.(tv_usec) < 1000000.

Lemma timeval_smaller_spec x y : norm x -> norm y -> timeval_smaller x y = (usecs x <=? usecs y).
Proof. intros [] []. unfold timeval_smaller, usecs. repeat zcase; try done; lia. Qed.

Lemma timeval_divide_spec sum d : norm sum -> 0 < d < 2 ^ 40 ->
  exists avg, timeval_divide sum d = Ok avg /\ norm avg /\ usecs sum / d - 1 <= usecs avg <= usecs sum / d.
Proof.
  intros [Hs Hu] Hd. unfold timeval_divide. rewrite leb_false by lia.
  rewrite !Z.quot_div_nonneg by lia.
  pose proof (Z.div_mod (tv_sec sum) d ltac:(lia)) as Es. pose proof (Z.mod_pos_bound (tv_sec sum) d ltac:(lia)) as Rs.
  pose proof (Z.div_mod (tv_usec sum) d ltac:(lia)) as Eu. pose proof (Z.mod_pos_bound (tv_usec sum) d ltac:(lia)) as Ru.
  set (q := tv_sec sum / d) in *. set (left := tv_sec sum mod d) in *. set (u := tv_usec sum / d) in *.
  assert (0 <= q < 2 ^ 62) as Hq by nia. assert (0 <= u < 1000000) as Hu' by nia.
  replace (tv_sec sum) with (d * q + left) by lia.
  rewrite (sint_ok 64 (q * d)), bind_Ok by (unfold in_s; nia).
  replace (d * q + left - q * d) with left by lia. rewrite sint_ok, bind_Ok by (unfold in_s; lia).
  replace (if left <=? 0 then 0 else left) with left by (zcase; lia).
  rewrite (sint_ok 64 (left * 1000000)), bind_Ok by (unfold in_s; lia).
  rewrite Z.quot_div_nonneg by lia.
  pose proof (Z.div_mod (left * 1000000) d ltac:(lia)) as Ep.
  pose proof (Z.mod_pos_bound (left * 1000000) d ltac:(lia)) as Rp.
  set (p := left * 1000000 / d) in *. set (pm := (left * 1000000) mod d) in *.
  assert (0 <= p) as Hp by nia. assert (u + p < 1000000) as Hlt by nia.
  rewrite sint_ok, bind_Ok by (unfold in_s; lia). rewrite (ltb_false q 0), (ltb_false (u + p) 0) by lia.
  eexists. split; [done|]. split; [split; cbn [tv_sec tv_usec]; lia|]. unfold usecs at 2 3. cbn [tv_sec tv_usec].
  assert (usecs sum = d * (q * 1000000 + (u + p)) + (pm + tv_usec sum mod d)) as -> by (unfold usecs; nia).
  rewrite Z.add_comm, (Z.mul_comm d), Z.div_add by lia.
  pose proof (Z.div_pos (pm + tv_usec sum mod d) d ltac:(lia) ltac:(lia)).
  pose proof (Z.div_lt_upper_bound (pm + tv_usec sum mod d) d 2 ltac:(lia) ltac:(lia)). lia.
Qed.

(**  Arithmetic on time values is exact arithmetic on microseconds: the
    comparison, the difference (of a later and an earlier time), and the sum
    agree with it and give values whose microseconds stay below a million, and
    the average is the quotient rounded down, or one microsecond less. *)
Lemma timeval_arithmetic_spec x y : norm x -> norm y ->
  timeval_smaller x y = (usecs x <=? usecs y) /\
  (usecs x <= usecs y ->
     exists d, timeval_subtract y x = Ok d /\ norm d /\ usecs d = usecs y - usecs x) /\
  (tv_sec x + tv_sec y < 2 ^ 62 - 1 ->
     exists d, timeval_add x y = Ok d /\ norm d /\ usecs d = usecs x + usecs y) /\
  (forall d, d <= 0 -> timeval_divide x d = Ok (mk_timeval 0 0)) /\
  (forall d, 0 < d < 2 ^ 40 -> exists avg, timeval_divide x d = Ok avg /\ norm avg /\
     usecs x / d - 1 <= usecs avg <= usecs x / d).
Proof.
  intros Hx Hy. split; [by apply timeval_smaller_spec|]. split; [|split; [|split]].
  - destruct Hx as [Hxs Hxu], Hy as [Hys Hyu]. unfold usecs. intros H. unfold timeval_subtract.
    rewrite (sint_ok 64 (tv_sec y - tv_sec x)), bind_Ok by (unfold in_s; lia). zcase.
    + rewrite (sint_ok 64 (tv_usec y + 1000000)), bind_Ok by (unfold in_s; lia).
      rewrite (sint_ok 64 (tv_sec y - tv_sec x - 1)), bind_Ok by (unfold in_s; lia).
      rewrite bind_Ok, sint_ok, bind_Ok by (unfold in_s; lia).
      eexists. split; [done|]. unfold norm. cbn [tv_sec tv_usec]. lia.
    + rewrite bind_Ok, sint_ok, bind_Ok by (unfold in_s; lia).
      eexists. split; [done|]. unfold norm. cbn [tv_sec tv_usec]. lia.
  - destruct Hx as [Hxs Hxu], Hy as [Hys Hyu]. unfold usecs. intros H. unfold timeval_add.
    rewrite (sint_ok 64 (tv_sec x + tv_sec y)), bind_Ok by (unfold in_s; lia).
    rewrite (sint_ok 64 (tv_usec x + tv_usec y)), bind_Ok by (unfold in_s; lia). zcase.
    + rewrite sint_ok, bind_Ok by (unfold in_s; lia).
      eexists. split; [done|]. unfold norm. cbn [tv_sec tv_usec]. lia.
    + eexists. split; [done|]. unfold norm. cbn [tv_sec tv_usec]. lia.
  - intros d Hd. unfold timeval_divide. by rewrite leb_true.
  - intros d Hd. by apply timeval_divide_spec.
Qed.

Lemma timeval_arithmetic_spec_witness :
  exists d, timeval_subtract (mk_timeval 12 100) (mk_timeval 10 900000) = Ok d /\ norm d /\
    usecs d = 1100100.
Proof.
  destruct (timeval_arithmetic_spec (mk_timeval 10 900000) (mk_timeval 12 100)) as (_ & H & _).
  - unfold norm. simpl. lia.
  - unfold norm. simpl. lia.
  - apply H. unfold usecs. simpl. lia.
Defined.

(** ** The histogram *)

(** The upper bound of bucket [i] in microseconds: powers of two up to half a
    second, then powers of two of seconds. *)
Definition bound (i : Z) : Z := if i <? 20 then 2 ^ i else 1000000 * 2 ^ (i - 20).

(** The times bucket [i] is for; the last one also takes what is too large. *)
Definition in_bucket (i : Z) (tv : timeval) : bool :=
  ((i =? 0) || (bound (i - 1) <? usecs tv)) && ((i =? 39) || (usecs tv <=? bound i)).

Definition fresh_buckets : list th_buck := Eval vm_compute in dosetup 40 (mk_timeval 0 0).

(** The histogram with counts [cs]. *)
Definition hist_with (cs : list Z) : timehist := mk_timehist 40 (zip_with set_count cs fresh_buckets).

Lemma setup_hist : timehist_setup true true = Some (hist_with (replicate 40 0)).
Proof. reflexivity. Qed.

Lemma fresh_bucket i b : fresh_buckets !! i = Some b ->
  norm b.(upper) /\ usecs b.(upper) = bound (Z.of_nat i).
Proof.
  intros Hb. assert (Forall (fun x => norm x.2.(upper) /\ usecs x.2.(upper) = bound (Z.of_nat x.1))
    (zip (seq 0 40) fresh_buckets)) as H.
  { unfold norm. repeat constructor; vm_compute; congruence. }
  rewrite Forall_lookup in H. apply (H i (i, b)). apply lookup_zip_with_Some. exists i, b.
  split; [done|]. split; [|done]. apply lookup_seq. split; [done|]. apply lookup_lt_Some in Hb. exact Hb.
Qed.

Lemma bound_mono i j : 0 <= i <= j -> j < 40 -> bound i <= bound j.
Proof.
  intros Hi Hj. assert (forallb (fun i => forallb (fun j => (j <? i) || (bound i <=? bound j)) (seqZ 0 40)) (seqZ 0 40) = true)
    as H by (vm_compute; reflexivity).
  rewrite forallb_forall in H. specialize (H i ltac:(apply list_elem_of_In, elem_of_seqZ; lia)). cbn beta in H.
  rewrite forallb_forall in H. specialize (H j ltac:(apply list_elem_of_In, elem_of_seqZ; lia)). cbn beta in H.
  rewrite ltb_false in H by lia. by apply Z.leb_le.
Qed.

Lemma in_bucket_inj i j tv : 0 <= i < 40 -> 0 <= j < 40 ->
  in_bucket i tv = true -> in_bucket j tv = true -> i = j.
Proof.
  assert (forall i j, 0 <= i < j -> j < 40 -> in_bucket i tv = true -> in_bucket j tv = true -> False) as H.
  { intros a b Ha Hb [_ H1]%andb_true_iff [H2 _]%andb_true_iff.
    rewrite eqb_false in H1, H2 by lia. apply Z.leb_le in H1. apply Z.ltb_lt in H2.
    pose proof (bound_mono a (b - 1) ltac:(lia) ltac:(lia)). lia. }
  intros Hi Hj B1 B2. destruct (Z.lt_trichotomy i j) as [?|[?|?]]; [|done|]; exfalso.
  - apply (H i j); done || lia.
  - apply (H j i); done || lia.
Qed.

Lemma hist_lookup cs i : length cs = 40%nat -> 0 <= i < 40 -> exists c b,
  cs !! Z.to_nat i = Some c /\ fresh_buckets !! Z.to_nat i = Some b /\
  (hist_with cs).(buckets) !! Z.to_nat i = Some (set_count c b).
Proof.
  intros L Hi. destruct (lookup_lt_is_Some_2 cs (Z.to_nat i)) as [c Hc]; [lia|].
  destruct (lookup_lt_is_Some_2 fresh_buckets (Z.to_nat i)) as [b Hb]; [change (length _) with 40%nat; lia|].
  exists c, b. split; [done|]. split; [done|]. apply lookup_zip_with_Some. eauto.
Qed.

Lemma on_bucket_hist cs i f c b : length cs = 40%nat -> 0 <= i < 40 ->
  cs !! Z.to_nat i = Some c -> fresh_buckets !! Z.to_nat i = Some b ->
  on_bucket i f (hist_with cs) = Ok (hist_with (<[Z.to_nat i := f (set_count c b)]> cs)).
Proof.
  intros L Hi Hc Hb. destruct (hist_lookup cs i L Hi) as (c' & b' & Hc' & Hb' & E).
  rewrite Hc in Hc'. rewrite Hb in Hb'. injection Hc' as <-. injection Hb' as <-.
  unfold on_bucket. rewrite E, leb_true by lia. unfold hist_with. cbn [num buckets]. do 2 f_equal.
  change (set_count (f (set_count c b)) (set_count c b)) with (set_count (f (set_count c b)) b).
  by rewrite insert_zip_with, (list_insert_id fresh_buckets).
Qed.

Lemma insert_loop_spec cs tv n : length cs = 40%nat -> norm tv -> forall i, i + Z.of_nat n = 40 -> 0 <= i ->
  (i = 0 \/ bound (i - 1) < usecs tv) ->
  exists j c, 0 <= j < 40 /\ in_bucket j tv = true /\ cs !! Z.to_nat j = Some c /\
    insert_loop n i (hist_with cs) tv = Ok (hist_with (<[Z.to_nat j := u64 (c + 1)]> cs)).
Proof.
  intros L Htv. induction n as [|n IH]; intros i Hn Hi Hlow.
  - assert (i = 40) as -> by lia. destruct (hist_lookup cs 39 L ltac:(lia)) as (c & b & Hc & Hb & _).
    exists 39, c. split; [lia|]. split; [|split; [done|]].
    + unfold in_bucket. cbn [Z.eqb Pos.eqb orb]. rewrite andb_true_r. apply Z.ltb_lt.
      pose proof (bound_mono 38 39 ltac:(lia) ltac:(lia)). change (40 - 1) with 39 in Hlow. change (39 - 1) with 38. lia.
    + cbn [insert_loop]. change (u64 (num (hist_with cs) - 1)) with 39. by erewrite on_bucket_hist.
  - destruct (hist_lookup cs i L ltac:(lia)) as (c & b & Hc & Hb & E). cbn [insert_loop]. rewrite E.
    destruct (fresh_bucket _ _ Hb) as [Hnb Hub]. rewrite Z2Nat.id in Hub by lia.
    cbn [upper set_count]. rewrite timeval_smaller_spec, Hub by done. destruct (Z.leb_spec (usecs tv) (bound i)).
    + exists i, c. split; [lia|]. split; [|split; [done|by erewrite on_bucket_hist by (done || lia)]].
      unfold in_bucket. rewrite (leb_true (usecs tv)) by done. rewrite orb_true_r, andb_true_r.
      apply orb_true_iff. rewrite Z.eqb_eq, Z.ltb_lt. done.
    + apply IH; [lia|lia|]. right. by replace (i + 1 - 1) with i by lia.
Qed.

Fixpoint insert_all (hist : timehist) (tvs : list timeval) : outcome timehist :=
  match tvs with
  | [] => Ok hist
  | tv :: tvs' => hist ← timehist_insert hist tv; insert_all hist tvs'
  end.

Definition hits (i : Z) (tvs : list timeval) : Z := zlen (filter (fun tv => in_bucket i tv = true) tvs).

Lemma hits_cons i tv tvs : hits i (tv :: tvs) = c_bool (in_bucket i tv) + hits i tvs.
Proof.
  unfold hits. rewrite filter_cons. destruct (in_bucket i tv); cbn [c_bool].
  - rewrite decide_True by done. apply zlen_cons.
  - rewrite decide_False by done. lia.
Qed.

Definition sumz (l : list Z) : Z := foldr Z.add 0 l.

Lemma sumz_insert l : forall j c x, l !! j = Some c -> sumz (<[j := x]> l) = sumz l - c + x.
Proof.
  intros j c x Hj. apply list_elem_of_split_length in Hj as (l1 & l2 & -> & ->).
  rewrite insert_app_r_alt, Nat.sub_diag by done. cbn [insert list_insert]. unfold sumz.
  rewrite !foldr_app. cbn [foldr].
  assert (forall a l, foldr Z.add a l = a + foldr Z.add 0 l) as Hf.
  { intros a l. induction l as [|z l IH]; cbn; lia. }
  rewrite (Hf (c + _)), (Hf (x + _)). lia.
Qed.

Lemma insert_all_spec tvs : Forall norm tvs -> forall cs, length cs = 40%nat ->
  (forall i c, cs !! i = Some c -> 0 <= c /\ c + zlen tvs < 2 ^ 63) ->
  exists cs', insert_all (hist_with cs) tvs = Ok (hist_with cs') /\ length cs' = 40%nat /\ sumz cs' = sumz cs + zlen tvs /\
    forall i c, 0 <= i -> cs !! Z.to_nat i = Some c -> cs' !! Z.to_nat i = Some (c + hits i tvs).
Proof.
  induction 1 as [|tv tvs Htv _ IH]; intros cs L Hc.
  - exists cs. split; [done|]. split; [done|]. split; [unfold zlen; cbn; lia|]. intros i c _ ->. unfold hits. cbn. f_equal. unfold zlen. cbn. lia.
  - destruct (insert_loop_spec cs tv 40 L Htv 0 ltac:(lia) ltac:(lia) ltac:(lia)) as (j & c & Hj & Bj & Ecj & E).
    cbn [insert_all]. unfold timehist_insert. change (Z.to_nat (num (hist_with cs))) with 40%nat.
    rewrite E, bind_Ok. destruct (Hc _ _ Ecj) as [Hc1 Hc2]. rewrite zlen_cons in Hc2.
    pose proof (zlen_nonneg tvs). rewrite wrap_small by (unfold in_u; lia).
    destruct (IH (<[Z.to_nat j := c + 1]> cs)) as (cs' & -> & L' & Hsum & Hcs').
    { by rewrite length_insert. }
    { intros i x. destruct (decide (i = Z.to_nat j)) as [->|Hne].
      - rewrite list_lookup_insert_eq by lia. intros [= <-]. lia.
      - rewrite list_lookup_insert_ne by done. intros Hx%Hc. rewrite zlen_cons in Hx. lia. }
    exists cs'. split; [done|]. split; [done|].
    split; [rewrite Hsum, (sumz_insert _ _ c) by done; rewrite zlen_cons; lia|].
    intros i x Hi Hx. rewrite hits_cons.
    destruct (decide (i = j)) as [->|Hne].
    + rewrite Ecj in Hx. injection Hx as <-. rewrite Bj.
      rewrite (Hcs' j (c + 1) Hi) by (by rewrite list_lookup_insert_eq by lia). cbn [c_bool]. f_equal. lia.
    + rewrite (Hcs' i x Hi) by (by rewrite list_lookup_insert_ne by lia).
      destruct (in_bucket i tv) eqn:Bi; [|done].
      exfalso. apply Hne. eapply in_bucket_inj; try done. apply lookup_lt_Some in Hx. lia.
Qed.

Lemma sumz_nonneg l : Forall (fun c => 0 <= c) l -> 0 <= sumz l.
Proof. unfold sumz. induction 1; cbn; lia. Qed.

Lemma count_loop_spec cs n : length cs = 40%nat -> Forall (fun c => 0 <= c) cs -> sumz cs < 2 ^ 64 ->
  forall i res, 0 <= i -> i + Z.of_nat n = 40 -> 0 <= res -> res + sumz (drop (Z.to_nat i) cs) = sumz cs ->
  count_loop n i (hist_with cs) res = Ok (sumz cs).
Proof.
  intros L Hpos Hs. induction n as [|n IH]; intros i res Hi Hn Hres Hsum.
  - rewrite drop_ge in Hsum by lia. cbn in *. f_equal. lia.
  - destruct (hist_lookup cs i L ltac:(lia)) as (c & b & Hc & Hb & E). cbn [count_loop]. rewrite E.
    cbn [count set_count]. rewrite (drop_S _ c) in Hsum by done. cbn [sumz foldr] in Hsum.
    fold (sumz (drop (S (Z.to_nat i)) cs)) in Hsum.
    assert (0 <= c) by (by eapply Forall_lookup_1 in Hpos).
    pose proof (sumz_nonneg _ (Forall_drop _ (S (Z.to_nat i)) cs Hpos)).
    rewrite wrap_small by (unfold in_u; lia). apply IH; try lia.
    replace (Z.to_nat (i + 1)) with (S (Z.to_nat i)) by lia. lia.
Qed.

Lemma export_loop_spec cs n : length cs = 40%nat -> Forall (in_u 63) cs ->
  forall i array, 0 <= i -> i + Z.of_nat n = 40 -> length array = 40%nat ->
  export_loop n i (hist_with cs) array = Ok (take (Z.to_nat i) array ++ drop (Z.to_nat i) cs).
Proof.
  intros L Hcs. induction n as [|n IH]; intros i array Hi Hn La.
  - cbn [export_loop]. rewrite take_ge by lia. rewrite (drop_ge cs) by lia. by rewrite app_nil_r.
  - destruct (hist_lookup cs i L ltac:(lia)) as (c & b & Hc & Hb & E). cbn [export_loop]. rewrite E.
    cbn [count set_count]. unfold store. rewrite leb_true, ltb_true by (unfold zlen; lia). cbn [andb].
    assert (in_u 63 c) as Hcu by (by eapply Forall_lookup_1 in Hcs).
    rewrite bind_Ok, swrap_small by (unfold in_u, in_s in *; lia).
    rewrite IH by (rewrite ?length_insert; lia). f_equal.
    replace (Z.to_nat (i + 1)) with (S (Z.to_nat i)) by lia.
    rewrite (drop_S cs c (Z.to_nat i)) by done. rewrite (take_S_r _ _ c) by (rewrite list_lookup_insert_eq by lia; done).
    rewrite take_insert_ge by lia. by rewrite <- app_assoc.
Qed.

Lemma import_loop_spec vs n : length vs = 40%nat -> Forall (in_u 63) vs ->
  forall i cs, 0 <= i -> i + Z.of_nat n = 40 -> length cs = 40%nat ->
  import_loop n i (hist_with cs) vs = Ok (hist_with (take (Z.to_nat i) cs ++ drop (Z.to_nat i) vs)).
Proof.
  intros L Hvs. induction n as [|n IH]; intros i cs Hi Hn Lc.
  - cbn [import_loop]. rewrite take_ge by lia. rewrite (drop_ge vs) by lia. by rewrite app_nil_r.
  - destruct (hist_lookup cs i Lc ltac:(lia)) as (c & b & Hc & Hb & _). cbn [import_loop].
    destruct (lookup_lt_is_Some_2 vs (Z.to_nat i)) as [v Hv]; [lia|].
    unfold index. rewrite leb_true, Hv, bind_Ok by lia.
    assert (in_u 63 v) as Hvu by (by eapply Forall_lookup_1 in Hvs).
    rewrite (on_bucket_hist cs i _ c b), bind_Ok by (done || lia). rewrite wrap_small by (unfold in_u in *; lia).
    rewrite IH by (rewrite ?length_insert; lia). do 2 f_equal.
    replace (Z.to_nat (i + 1)) with (S (Z.to_nat i)) by lia.
    rewrite (drop_S vs v (Z.to_nat i)) by done. rewrite (take_S_r _ _ v) by (rewrite list_lookup_insert_eq by lia; done).
    rewrite take_insert_ge by lia. by rewrite <- app_assoc.
Qed.

Lemma clear_loop_spec n : forall i cs, 0 <= i -> i + Z.of_nat n = 40 -> length cs = 40%nat ->
  clear_loop n i (hist_with cs) = Ok (hist_with (take (Z.to_nat i) cs ++ replicate n 0)).
Proof.
  induction n as [|n IH]; intros i cs Hi Hn Lc.
  - cbn [clear_loop replicate]. rewrite take_ge by lia. by rewrite app_nil_r.
  - destruct (hist_lookup cs i Lc ltac:(lia)) as (c & b & Hc & Hb & _). cbn [clear_loop].
    rewrite (on_bucket_hist cs i _ c b), bind_Ok by (done || lia).
    rewrite IH by (rewrite ?length_insert; lia). do 2 f_equal.
    replace (Z.to_nat (i + 1)) with (S (Z.to_nat i)) by lia.
    rewrite (take_S_r _ _ 0) by (rewrite list_lookup_insert_eq by lia; done).
    rewrite take_insert_ge by lia. by rewrite <- app_assoc.
Qed.

(**  The histogram counts what was inserted.  After any sequence of
    insertions into a new histogram (fewer than [2^63]), exporting it gives in
    position [i] the number of the times that lie between the bounds of bucket
    [i]; [timehist_count] gives their number; importing the export into a new
    histogram restores it; clearing it gives the new histogram back.  No index
    leaves the bucket array. *)
Lemma timehist_counts tvs array : Forall norm tvs -> zlen tvs < 2 ^ 63 -> zlen array = NUM_BUCKETS_HIST ->
  exists h0 h cs, timehist_setup true true = Some h0 /\ insert_all h0 tvs = Ok h /\
    timehist_export (Some h) array NUM_BUCKETS_HIST = Ok cs /\
    cs = map (fun i => hits i tvs) (seqZ 0 NUM_BUCKETS_HIST) /\
    timehist_count h = Ok (zlen tvs) /\
    timehist_import (Some h0) cs NUM_BUCKETS_HIST = Ok (Some h) /\
    timehist_clear h = Ok h0.
Proof.
  intros Htv Hlen La. pose proof (zlen_nonneg tvs).
  destruct (insert_all_spec tvs Htv (replicate 40 0) eq_refl) as (cs & E & L & Hsum & Hcs).
  { intros i c [-> _]%lookup_replicate. lia. }
  assert (cs = map (fun i => hits i tvs) (seqZ 0 NUM_BUCKETS_HIST)) as Ecs.
  { apply list_eq. intros i. destruct (decide (i < 40)%nat) as [Hi|Hi].
    - rewrite list_lookup_fmap, lookup_seqZ_lt by (unfold NUM_BUCKETS_HIST; lia). cbn [fmap option_fmap option_map].
      rewrite <- (Nat2Z.id i) at 1. rewrite (Hcs (Z.of_nat i) 0) by (lia || (apply lookup_replicate; lia)). f_equal.
    - rewrite !lookup_ge_None_2; [done| |lia]. rewrite length_map, length_seqZ. unfold NUM_BUCKETS_HIST. lia. }
  assert (Forall (in_u 63) cs) as Hu.
  { rewrite Ecs. apply Forall_map, Forall_true. intros i. unfold hits, in_u. pose proof (zlen_nonneg (filter (fun tv => in_bucket i tv = true) tvs)).
    unfold zlen in *. pose proof (length_filter (fun tv => in_bucket i tv = true) tvs). lia. }
  assert (length array = 40%nat) as La' by (unfold zlen, NUM_BUCKETS_HIST in La; lia).
  exists (hist_with (replicate 40 0)), (hist_with cs), cs. split; [apply setup_hist|]. split; [done|].
  split; [exact (export_loop_spec cs 40 L Hu 0 array ltac:(lia) ltac:(lia) La')|]. split; [done|]. split; [|split].
  - assert (sumz cs = zlen tvs) as <- by (rewrite Hsum; change (sumz (replicate 40 0)) with 0; lia).
    apply (count_loop_spec cs 40 L); try done; [|rewrite Hsum; change (sumz (replicate 40 0)) with 0; lia].
    eapply Forall_impl; [exact Hu|]. unfold in_u. lia.
  - unfold timehist_import. change (Z.to_nat _) with 40%nat.
    by rewrite (import_loop_spec cs 40 L Hu 0 (replicate 40 0)).
  - exact (clear_loop_spec 40 0 cs ltac:(lia) ltac:(lia) L).
Qed.

Lemma timehist_counts_witness :
  exists h0 h cs, timehist_setup true true = Some h0 /\
    insert_all h0 [mk_timeval 0 3; mk_timeval 5 7; mk_timeval 0 4] = Ok h /\
    timehist_export (Some h) (replicate 40 (-1)) NUM_BUCKETS_HIST = Ok cs /\ cs !! 2%nat = Some 2.
Proof.
  destruct (timehist_counts [mk_timeval 0 3; mk_timeval 5 7; mk_timeval 0 4] (replicate 40 (-1)))
    as (h0 & h & cs & H0 & H1 & H2 & H3 & _).
  - repeat constructor; unfold norm; simpl; lia.
  - reflexivity.
  - reflexivity.
  - exists h0, h, cs. split; [exact H0|]. split; [exact H1|]. split; [exact H2|]. rewrite H3. reflexivity.
Defined.
