(* ===== verification/Rbtree.v ===== *)
(** * Red-black trees (util/rbtree.c)

    The tree at the level of its pointers: a heap of nodes with parent, left and
    right links and a colour.  [None] stands for [RBTREE_NULL], the address of the
    global [rbtree_null_node], whose links are itself and which is black; a write to
    that shared node, or any use of a node that is not in the heap, is a [Fault].
    The comparison function is a parameter. *)

From S2P Require Import Prelude.

Abbreviation addr := positive.
Abbreviation ptr := (option positive).

Inductive colour := BLACK | RED.

#[global] Instance colour_eq_dec : EqDecision colour.
Proof. solve_decision. Defined.

Record rbnode (K : Type) := mk_node {
  parent : ptr;
  left_ : ptr;
  right_ : ptr;
  key : K;
  color : colour;
}.
Arguments mk_node {_} _ _ _ _ _.
Arguments parent {_} _.
Arguments left_ {_} _.
Arguments right_ {_} _.
Arguments key {_} _.
Arguments color {_} _.

(** The nodes and the fields of the tree ([cmp] apart). *)
Record rbtree (K : Type) := mk_rbtree {
  nodes : gmap addr (rbnode K);
  root : ptr;
  count : Z;
}.
Arguments mk_rbtree {_} _ _ _.
Arguments nodes {_} _.
Arguments root {_} _.
Arguments count {_} _.

Section Rbtree.
Context {K : Type} (cmp : K -> K -> Z).
Implicit Types (s : rbtree K) (n : rbnode K) (p : ptr) (a : addr).

Abbreviation R := (ST (rbtree K)).

Definition fault {A} : R A := fun _ => Fault Undefined.
Definition out_of_fuel {A} : R A := fun _ => OutOfFuel.
Definition r_assert (b : bool) : R unit := if b then mret tt else fun _ => Fault Assertion.

Definition with_nodes (h : gmap addr (rbnode K)) s : rbtree K := mk_rbtree h s.(root) s.(count).

Definition get_root : R ptr := fun s => Ok (s.(root), s).
Definition set_root p : R unit := fun s => Ok (tt, mk_rbtree s.(nodes) p s.(count)).
Definition set_count (f : Z -> Z) : R unit := fun s => Ok (tt, mk_rbtree s.(nodes) s.(root) (f s.(count))).

(** A field of [*p]; the null node has the value [d]. *)
Definition get {A} (d : A) (f : rbnode K -> A) p : R A := fun s =>
  match p with
  | None => Ok (d, s)
  | Some a => match s.(nodes) !! a with Some n => Ok (f n, s) | None => Fault Undefined end
  end.
Definition get_parent := get None parent.
Definition get_left := get None left_.
Definition get_right := get None right_.
Definition get_color := get BLACK color.
(** The key of the null node is NULL, which [cmp] cannot take. *)
Definition get_key p : R K := fun s =>
  match p with
  | None => Fault Undefined
  | Some a => match s.(nodes) !! a with Some n => Ok (n.(key), s) | None => Fault Undefined end
  end.

(** An assignment to a field of [*p]. *)
Definition put (f : rbnode K -> rbnode K) p : R unit := fun s =>
  match p with
  | None => Fault Undefined
  | Some a =>
      match s.(nodes) !! a with
      | Some n => Ok (tt, with_nodes (<[a := f n]> s.(nodes)) s)
      | None => Fault Undefined
      end
  end.
Definition to_parent p n := mk_node p n.(left_) n.(right_) n.(key) n.(color).
Definition to_left p n := mk_node n.(parent) p n.(right_) n.(key) n.(color).
Definition to_right p n := mk_node n.(parent) n.(left_) p n.(key) n.(color).
Definition to_color c n := mk_node n.(parent) n.(left_) n.(right_) n.(key) c.
Definition set_parent p v := put (to_parent v) p.
Definition set_left p v := put (to_left v) p.
Definition set_right p v := put (to_right v) p.
Definition set_color p c := put (to_color c) p.

(** A walk in a tree has no more steps than there are nodes. *)
Definition walk_fuel : R nat := fun s => Ok (S (size s.(nodes)), s).

(** ** Creation *)

(** [rbtree_init] on a structure whose nodes live in [h]. *)
Definition rbtree_init (h : gmap addr (rbnode K)) : rbtree K := mk_rbtree h None 0.

(** [alloc]: whether [malloc] succeeds. *)
Definition rbtree_create (alloc : bool) (h : gmap addr (rbnode K)) : option (rbtree K) :=
  if negb alloc then None else Some (rbtree_init h).

(** ** Rotations *)

Definition rbtree_rotate_left (node : ptr) : R unit :=
  right ← get_right node;
  rl ← get_left right;
  set_right node rl;;
  rl ← get_left right;
  (if decide (rl <> None) then set_parent rl node else mret tt);;
  np ← get_parent node;
  set_parent right np;;
  np ← get_parent node;
  (if decide (np <> None) then
     npl ← get_left np;
     if decide (node = npl) then set_left np right else set_right np right
   else set_root right);;
  set_left right node;;
  set_parent node right.

Definition rbtree_rotate_right (node : ptr) : R unit :=
  left ← get_left node;
  lr ← get_right left;
  set_left node lr;;
  lr ← get_right left;
  (if decide (lr <> None) then set_parent lr node else mret tt);;
  np ← get_parent node;
  set_parent left np;;
  np ← get_parent node;
  (if decide (np <> None) then
     npr ← get_right np;
     if decide (node = npr) then set_right np left else set_left np left
   else set_root left);;
  set_right left node;;
  set_parent node left.

(** ** Insertion *)

(** One round of the loop; the node to go on with. *)
Definition insert_fixup_step (node : ptr) : R ptr :=
  np ← get_parent node;
  gp ← get_parent np;
  gpl ← get_left gp;
  if decide (np = gpl) then
    uncle ← get_right gp;
    uc ← get_color uncle;
    if decide (uc = RED) then
      set_color np BLACK;;
      set_color uncle BLACK;;
      np ← get_parent node;
      gp ← get_parent np;
      set_color gp RED;;
      mret gp
    else
      npr ← get_right np;
      node ← (if decide (node = npr) then rbtree_rotate_left np;; mret np else mret node);
      np ← get_parent node;
      set_color np BLACK;;
      gp ← get_parent np;
      set_color gp RED;;
      rbtree_rotate_right gp;;
      mret node
  else
    uncle ← get_left gp;
    uc ← get_color uncle;
    if decide (uc = RED) then
      set_color np BLACK;;
      set_color uncle BLACK;;
      np ← get_parent node;
      gp ← get_parent np;
      set_color gp RED;;
      mret gp
    else
      npl ← get_left np;
      node ← (if decide (node = npl) then rbtree_rotate_right np;; mret np else mret node);
      np ← get_parent node;
      set_color np BLACK;;
      gp ← get_parent np;
      set_color gp RED;;
      rbtree_rotate_left gp;;
      mret node.

Fixpoint insert_fixup_loop (fuel : nat) (node : ptr) : R unit :=
  rt ← get_root;
  if decide (node = rt) then mret tt else
  np ← get_parent node;
  pc ← get_color np;
  if decide (pc = RED) then
    match fuel with
    | O => out_of_fuel
    | S fuel' => node ← insert_fixup_step node; insert_fixup_loop fuel' node
    end
  else mret tt.

Definition rbtree_insert_fixup (node : ptr) : R unit :=
  fuel ← walk_fuel;
  insert_fixup_loop fuel node;;
  rt ← get_root;
  set_color rt BLACK.

(** The search for the new parent: [None] for a duplicate, or [parent] and [r]. *)
Fixpoint insert_find (fuel : nat) (k : K) (node parent : ptr) (r : Z) : R (option (ptr * Z)) :=
  match node with
  | None => mret (Some (parent, r))
  | Some _ =>
      match fuel with
      | O => out_of_fuel
      | S fuel' =>
          nk ← get_key node;
          let r := cmp k nk in
          if r =? 0 then mret None else
          let parent := node in
          node ← (if r <? 0 then get_left node else get_right node);
          insert_find fuel' k node parent r
      end
  end.

(** NULL is [None]. *)
Definition rbtree_insert (data : ptr) : R ptr :=
  node ← get_root;
  fuel ← walk_fuel;
  k ← get_key data;
  found ← insert_find fuel k node None 0;
  match found with
  | None => mret None
  | Some (parent, r) =>
      set_parent data parent;;
      set_right data None;;
      set_left data None;;
      set_color data RED;;
      set_count (fun c => u64 (c + 1));;
      (if decide (parent <> None) then
         if r <? 0 then set_left parent data else set_right parent data
       else set_root data);;
      rbtree_insert_fixup data;;
      mret data
  end.

(** ** Lookup *)

(** The exact match flag and [*result] ([None] is NULL). *)
Fixpoint find_less_equal_loop (fuel : nat) (k : K) (node result : ptr) : R (bool * ptr) :=
  match node with
  | None => mret (false, result)
  | Some _ =>
      match fuel with
      | O => out_of_fuel
      | S fuel' =>
          nk ← get_key node;
          let r := cmp k nk in
          if r =? 0 then mret (true, node) else
          if r <? 0 then
            node ← get_left node;
            find_less_equal_loop fuel' k node result
          else
            let result := node in
            node ← get_right node;
            find_less_equal_loop fuel' k node result
      end
  end.

Definition rbtree_find_less_equal (k : K) : R (bool * ptr) :=
  node ← get_root;
  fuel ← walk_fuel;
  find_less_equal_loop fuel k node None.

Definition rbtree_search (k : K) : R ptr :=
  '(found, node) ← rbtree_find_less_equal k;
  mret (if found : bool then node else None).

(** ** Deletion *)

Definition change_parent_ptr (parent old new : ptr) : R unit :=
  if decide (parent = None) then
    rt ← get_root;
    r_assert (bool_decide (rt = old));;
    if decide (rt = old) then set_root new else mret tt
  else
    l ← get_left parent;
    r ← get_right parent;
    r_assert (bool_decide (l = old) || bool_decide (r = old) || bool_decide (l = new) || bool_decide (r = new));;
    (if decide (l = old) then set_left parent new else mret tt);;
    r ← get_right parent;
    if decide (r = old) then set_right parent new else mret tt.

Definition change_child_ptr (child old new : ptr) : R unit :=
  if decide (child = None) then mret tt else
  cp ← get_parent child;
  r_assert (bool_decide (cp = old) || bool_decide (cp = new));;
  if decide (cp = old) then set_parent child new else mret tt.

(** [for(...; node->left != RBTREE_NULL; node = node->left)] *)
Fixpoint leftmost (fuel : nat) (node : ptr) : R ptr :=
  l ← get_left node;
  if decide (l = None) then mret node else
  match fuel with
  | O => out_of_fuel
  | S fuel' => leftmost fuel' l
  end.

Fixpoint rightmost (fuel : nat) (node : ptr) : R ptr :=
  r ← get_right node;
  if decide (r = None) then mret node else
  match fuel with
  | O => out_of_fuel
  | S fuel' => rightmost fuel' r
  end.

(** The sibling of the node that is one black short. *)
Definition the_sibling (child child_parent : ptr) : R ptr :=
  r ← get_right child_parent;
  if decide (r = child) then get_left child_parent else get_right child_parent.

(** [p->color == BLACK && sibling->color == BLACK && both its children are]; the
    first colour to compare with is an argument. *)
Definition all_black (c : colour) (child_parent sibling : ptr) : R bool :=
  pc ← get_color child_parent;
  if negb (bool_decide (pc = c)) then mret false else
  sc ← get_color sibling;
  if negb (bool_decide (sc = BLACK)) then mret false else
  sl ← get_left sibling;
  slc ← get_color sl;
  if negb (bool_decide (slc = BLACK)) then mret false else
  sr ← get_right sibling;
  src ← get_color sr;
  mret (bool_decide (src = BLACK)).

(** The loop; [inl]: return, [inr]: child, its parent and its sibling. *)
Fixpoint delete_fixup_loop (fuel : nat) (child child_parent sibling : ptr)
    : R (unit + ptr * ptr * ptr) :=
  if decide (child_parent = None) then mret (inl tt) else
  sc ← get_color sibling;
  sibling ← (if decide (sc = RED) then
      set_color child_parent RED;;
      set_color sibling BLACK;;
      r ← get_right child_parent;
      (if decide (r = child) then rbtree_rotate_right child_parent
       else rbtree_rotate_left child_parent);;
      the_sibling child child_parent
    else mret sibling);
  ab ← all_black BLACK child_parent sibling;
  if (ab : bool) then
    (if decide (sibling <> None) then set_color sibling RED else mret tt);;
    let child := child_parent in
    child_parent ← get_parent child_parent;
    sibling ← the_sibling child child_parent;
    match fuel with
    | O => out_of_fuel
    | S fuel' => delete_fixup_loop fuel' child child_parent sibling
    end
  else mret (inr (child, child_parent, sibling)).

(** [sibling->color == BLACK && x->color == RED && y->color == BLACK], with [x] and
    [y] the children of [sibling]. *)
Definition one_red (sibling : ptr) (fx fy : ptr -> R ptr) : R bool :=
  sc ← get_color sibling;
  if negb (bool_decide (sc = BLACK)) then mret false else
  x ← fx sibling;
  xc ← get_color x;
  if negb (bool_decide (xc = RED)) then mret false else
  y ← fy sibling;
  yc ← get_color y;
  mret (bool_decide (yc = BLACK)).

(** The part after the loop. *)
Definition delete_fixup_end (child child_parent sibling : ptr) : R unit :=
  ab ← all_black RED child_parent sibling;
  if (ab : bool) then
    (if decide (sibling <> None) then set_color sibling RED else mret tt);;
    set_color child_parent BLACK
  else
  r_assert (bool_decide (sibling <> None));;
  r ← get_right child_parent;
  t1 ← (if decide (r = child) then one_red sibling get_right get_left else mret false);
  sibling ← (if (t1 : bool) then
      set_color sibling RED;;
      sr ← get_right sibling;
      set_color sr BLACK;;
      rbtree_rotate_left sibling;;
      the_sibling child child_parent
    else
      l ← get_left child_parent;
      t2 ← (if decide (l = child) then one_red sibling get_left get_right else mret false);
      if (t2 : bool) then
        set_color sibling RED;;
        sl ← get_left sibling;
        set_color sl BLACK;;
        rbtree_rotate_right sibling;;
        the_sibling child child_parent
      else mret sibling);
  pc ← get_color child_parent;
  set_color sibling pc;;
  set_color child_parent BLACK;;
  r ← get_right child_parent;
  if decide (r = child) then
    sl ← get_left sibling;
    slc ← get_color sl;
    r_assert (bool_decide (slc = RED));;
    set_color sl BLACK;;
    rbtree_rotate_right child_parent
  else
    sr ← get_right sibling;
    src ← get_color sr;
    r_assert (bool_decide (src = RED));;
    set_color sr BLACK;;
    rbtree_rotate_left child_parent.

Definition rbtree_delete_fixup (child child_parent : ptr) : R unit :=
  sibling ← the_sibling child child_parent;
  fuel ← walk_fuel;
  x ← delete_fixup_loop fuel child child_parent sibling;
  match x with
  | inl _ => mret tt
  | inr (child, child_parent, sibling) => delete_fixup_end child child_parent sibling
  end.

(** Swapping [to_delete] with the smallest node of its right subtree. *)
Definition delete_swap (to_delete smright : ptr) : R unit :=
  tc ← get_color to_delete;
  sc ← get_color smright;
  set_color to_delete sc;;
  set_color smright tc;;
  tp ← get_parent to_delete;
  change_parent_ptr tp to_delete smright;;
  tr ← get_right to_delete;
  (if decide (tr <> smright) then
     sp ← get_parent smright;
     change_parent_ptr sp smright to_delete
   else mret tt);;
  sl ← get_left smright;
  change_child_ptr sl smright to_delete;;
  sl ← get_left smright;
  change_child_ptr sl smright to_delete;;
  sr ← get_right smright;
  change_child_ptr sr smright to_delete;;
  sr ← get_right smright;
  change_child_ptr sr smright to_delete;;
  tl ← get_left to_delete;
  change_child_ptr tl to_delete smright;;
  tr ← get_right to_delete;
  (if decide (tr <> smright) then change_child_ptr tr to_delete smright else mret tt);;
  tr ← get_right to_delete;
  (if decide (tr = smright) then
     set_right to_delete to_delete;;
     set_parent smright smright
   else mret tt);;
  tp ← get_parent to_delete;
  sp ← get_parent smright;
  set_parent to_delete sp;;
  set_parent smright tp;;
  tl ← get_left to_delete;
  sl ← get_left smright;
  set_left to_delete sl;;
  set_left smright tl;;
  tr ← get_right to_delete;
  sr ← get_right smright;
  set_right to_delete sr;;
  set_right smright tr.

(** Unlinking [to_delete], which has at most one child. *)
Definition delete_unlink (to_delete : ptr) : R unit :=
  l ← get_left to_delete;
  r ← get_right to_delete;
  r_assert (bool_decide (l = None) || bool_decide (r = None));;
  let child := if decide (l <> None) then l else r in
  tp ← get_parent to_delete;
  change_parent_ptr tp to_delete child;;
  tp ← get_parent to_delete;
  change_child_ptr child to_delete tp;;
  tc ← get_color to_delete;
  (if decide (tc = RED) then mret tt else
   cc ← get_color child;
   if decide (cc = RED) then
     if decide (child <> None) then set_color child BLACK else mret tt
   else
     tp ← get_parent to_delete;
     rbtree_delete_fixup child tp);;
  set_parent to_delete None;;
  set_left to_delete None;;
  set_right to_delete None;;
  set_color to_delete BLACK.

Definition rbtree_delete (k : K) : R ptr :=
  to_delete ← rbtree_search k;
  if decide (to_delete = None) then mret None else
  set_count (fun c => u64 (c - 1));;
  l ← get_left to_delete;
  r ← get_right to_delete;
  (if decide (l <> None /\ r <> None) then
     fuel ← walk_fuel;
     smright ← leftmost fuel r;
     delete_swap to_delete smright
   else mret tt);;
  delete_unlink to_delete;;
  mret to_delete.

(** ** Iteration: [None] is [RBTREE_NULL] *)

Definition rbtree_first : R ptr := node ← get_root; fuel ← walk_fuel; leftmost fuel node.
Definition rbtree_last : R ptr := node ← get_root; fuel ← walk_fuel; rightmost fuel node.

Fixpoint next_up (fuel : nat) (node parent : ptr) : R ptr :=
  if decide (parent = None) then mret parent else
  pr ← get_right parent;
  if decide (node = pr) then
    match fuel with
    | O => out_of_fuel
    | S fuel' => pp ← get_parent parent; next_up fuel' parent pp
    end
  else mret parent.

Fixpoint prev_up (fuel : nat) (node parent : ptr) : R ptr :=
  if decide (parent = None) then mret parent else
  pl ← get_left parent;
  if decide (node = pl) then
    match fuel with
    | O => out_of_fuel
    | S fuel' => pp ← get_parent parent; prev_up fuel' parent pp
    end
  else mret parent.

Definition rbtree_next (node : ptr) : R ptr :=
  fuel ← walk_fuel;
  r ← get_right node;
  if decide (r <> None) then leftmost fuel r
  else p ← get_parent node; next_up fuel node p.

Definition rbtree_previous (node : ptr) : R ptr :=
  fuel ← walk_fuel;
  l ← get_left node;
  if decide (l <> None) then rightmost fuel l
  else p ← get_parent node; prev_up fuel node p.

Fixpoint traverse_post (fuel : nat) (func : addr -> R unit) (node : ptr) : R unit :=
  match node with
  | None => mret tt
  | Some a =>
      match fuel with
      | O => out_of_fuel
      | S fuel' =>
          l ← get_left node;
          traverse_post fuel' func l;;
          r ← get_right node;
          traverse_post fuel' func r;;
          func a
      end
  end.

Definition traverse_postorder (func : addr -> R unit) : R unit :=
  node ← get_root;
  fuel ← walk_fuel;
  traverse_post fuel func node.
End Rbtree.

(** ** A run *)

Definition z_node (k : Z) : rbnode Z := mk_node None None None k RED.
Definition z_cmp (x y : Z) : Z := x - y.
Definition z_tree : rbtree Z :=
  rbtree_init (list_to_map (map (fun k => (Z.to_pos k, z_node k)) [1; 2; 3; 4; 5; 6; 7])).

Fixpoint z_insert (ks : list Z) : ST (rbtree Z) (list (option positive)) :=
  match ks with
  | [] => mret []
  | k :: ks' => r ← rbtree_insert z_cmp (Some (Z.to_pos k)); rs ← z_insert ks'; mret (r :: rs)
  end.

Example z_run :
  match (z_insert [3; 1; 2; 7; 6; 5; 4; 3];; rbtree_delete z_cmp 3;; rbtree_find_less_equal z_cmp 3) z_tree with
  | Ok (r, s) => (r, s.(root), s.(count)) = ((false, Some 2%positive), Some 2%positive, 6)
  | _ => False
  end.
Proof. vm_compute. reflexivity. Qed.
