(* ===== verification/RbtreeTree.v ===== *)
(** * The shape of a red-black tree in memory

    Trees and contexts (a tree with a hole) as data, what it means for the heap of
    nodes of Rbtree.v to hold one, and how the assignments of the code change it:
    painting a node, and the two rotations. *)

From S2P Require Import Prelude Rbtree.

Section Tree.
Context {K : Type}.

Inductive tree :=
  | E
  | N (c : colour) (l : tree) (a : addr) (k : K) (r : tree).

(** A node on the path from a place up to the root, with its other subtree. *)
Inductive frame :=
  | FL (c : colour) (a : addr) (k : K) (r : tree)
  | FR (c : colour) (l : tree) (a : addr) (k : K).

Implicit Types (t l r : tree) (h : gmap addr (rbnode K)) (s : rbtree K) (ctx : list frame) (p : ptr).

Definition root_of t : ptr := match t with E => None | N _ _ a _ _ => Some a end.
Definition colour_of t : colour := match t with E => BLACK | N c _ _ _ _ => c end.

Fixpoint inorder t : list (K * addr) :=
  match t with
  | E => []
  | N _ l a k r => inorder l ++ (k, a) :: inorder r
  end.

Fixpoint addrs t : list addr :=
  match t with
  | E => []
  | N _ l a _ r => addrs l ++ a :: addrs r
  end.

Definition fill1 (f : frame) t : tree :=
  match f with
  | FL c a k r => N c t a k r
  | FR c l a k => N c l a k t
  end.

(** Plugging a tree into a context, the innermost frame first. *)
Fixpoint fill ctx t : tree :=
  match ctx with
  | [] => t
  | f :: ctx' => fill ctx' (fill1 f t)
  end.

Definition frame_addr (f : frame) : addr := match f with FL _ a _ _ | FR _ _ a _ => a end.
Definition frame_colour (f : frame) : colour := match f with FL c _ _ _ | FR c _ _ _ => c end.

(** The node above the hole. *)
Definition up p ctx : ptr := match ctx with [] => p | f :: _ => Some (frame_addr f) end.

Fixpoint ctx_addrs ctx : list addr :=
  match ctx with
  | [] => []
  | FL _ a _ t :: ctx' | FR _ t a _ :: ctx' => a :: addrs t ++ ctx_addrs ctx'
  end.

Fixpoint before ctx : list (K * addr) :=
  match ctx with
  | [] => []
  | FL _ _ _ _ :: ctx' => before ctx'
  | FR _ l a k :: ctx' => before ctx' ++ inorder l ++ [(k, a)]
  end.

Fixpoint after ctx : list (K * addr) :=
  match ctx with
  | [] => []
  | FL _ a k r :: ctx' => (k, a) :: inorder r ++ after ctx'
  | FR _ _ _ _ :: ctx' => after ctx'
  end.

Lemma inorder_fill ctx : forall t, inorder (fill ctx t) = before ctx ++ inorder t ++ after ctx.
Proof.
  induction ctx as [|[c a k r|c l a k] ctx IH]; intros t; cbn [fill before after].
  - by rewrite app_nil_r.
  - rewrite IH. cbn [fill1 inorder]. by rewrite <- !app_assoc.
  - rewrite IH. cbn [fill1 inorder]. by rewrite <- !app_assoc.
Qed.

Lemma addrs_inorder t : addrs t = (inorder t).*2.
Proof. induction t as [|c l IHl a k r IHr]; cbn; [done|]. by rewrite fmap_app, fmap_cons, IHl, IHr. Qed.

Lemma addrs_fill ctx : forall t, addrs (fill ctx t) ≡ₚ ctx_addrs ctx ++ addrs t.
Proof.
  induction ctx as [|[c a k r|c l a k] ctx IH]; intros t; cbn [fill ctx_addrs]; [done| |];
    rewrite IH; cbn [fill1 addrs app]; solve_Permutation.
Qed.

(** ** Trees in the heap *)

Fixpoint tree_rep h p t : Prop :=
  match t with
  | E => True
  | N c l a k r => h !! a = Some (mk_node p (root_of l) (root_of r) k c) /\
      tree_rep h (Some a) l /\ tree_rep h (Some a) r
  end.

Fixpoint ctx_rep h p (hole : ptr) ctx : Prop :=
  match ctx with
  | [] => True
  | FL c a k r :: ctx' => h !! a = Some (mk_node (up p ctx') hole (root_of r) k c) /\
      tree_rep h (Some a) r /\ ctx_rep h p (Some a) ctx'
  | FR c l a k :: ctx' => h !! a = Some (mk_node (up p ctx') (root_of l) hole k c) /\
      tree_rep h (Some a) l /\ ctx_rep h p (Some a) ctx'
  end.

Lemma fill_rep h p ctx : forall t,
  tree_rep h p (fill ctx t) <-> ctx_rep h p (root_of t) ctx /\ tree_rep h (up p ctx) t.
Proof.
  induction ctx as [|[c a k r|c l a k] ctx IH]; intros t; cbn [fill ctx_rep up]; [tauto| |];
    rewrite IH; cbn [fill1 root_of tree_rep frame_addr]; tauto.
Qed.

Lemma tree_rep_ext h h' t : (forall x, x ∈ addrs t -> h' !! x = h !! x) -> forall p, tree_rep h p t -> tree_rep h' p t.
Proof.
  induction t as [|c l IHl a k r IHr]; intros H p; cbn [tree_rep addrs] in *; [done|].
  intros (Ha & Hl & Hr). split; [rewrite H; [done|set_solver]|].
  split; [apply IHl|apply IHr]; try done; intros x Hx; apply H; set_solver.
Qed.

Lemma ctx_rep_ext h h' p ctx : (forall x, x ∈ ctx_addrs ctx -> h' !! x = h !! x) ->
  forall hole, ctx_rep h p hole ctx -> ctx_rep h' p hole ctx.
Proof.
  induction ctx as [|[c a k r|c l a k] ctx IH]; intros H hole; cbn [ctx_rep ctx_addrs] in *; [done| |];
    intros (Ha & Ht & Hc); (split; [rewrite H; [done|set_solver]|]);
    (split; [eapply tree_rep_ext; [|done]|apply IH; [|done]]); intros x Hx; apply H; set_solver.
Qed.

(** Changing the parent of a tree, or the child a context has in its hole. *)
Definition reparent t p h : gmap addr (rbnode K) :=
  match t with E => h | N _ _ a _ _ => alter (to_parent p) a h end.

Definition rehole ctx (new : ptr) h : gmap addr (rbnode K) :=
  match ctx with
  | [] => h
  | FL _ a _ _ :: _ => alter (to_left new) a h
  | FR _ _ a _ :: _ => alter (to_right new) a h
  end.

Lemma reparent_ne t p h x : x ∉ addrs t -> reparent t p h !! x = h !! x.
Proof. destruct t as [|c l a k r]; cbn; [done|]. intros Hx. apply lookup_alter_ne. set_solver. Qed.

Lemma rehole_ne ctx new h x : x ∉ ctx_addrs ctx -> rehole ctx new h !! x = h !! x.
Proof. destruct ctx as [|[]]; cbn; [done|..]; intros Hx; apply lookup_alter_ne; set_solver. Qed.

Lemma tree_rep_reparent h p p' t : NoDup (addrs t) -> tree_rep h p t -> tree_rep (reparent t p' h) p' t.
Proof.
  destruct t as [|c l a k r]; cbn [tree_rep addrs reparent]; [done|].
  intros (Nl & Nlr & Nr)%NoDup_app (Ha & Hl & Hr). apply NoDup_cons in Nr as [Nar Nr].
  split; [by rewrite lookup_alter_eq, Ha|].
  split; (eapply tree_rep_ext; [|done]); intros x Hx; apply lookup_alter_ne; intros ->; [|done].
  apply (Nlr x Hx). set_solver.
Qed.

Lemma ctx_rep_rehole h p hole new ctx : NoDup (ctx_addrs ctx) ->
  ctx_rep h p hole ctx -> ctx_rep (rehole ctx new h) p new ctx.
Proof.
  destruct ctx as [|[c a k r|c l a k] ctx]; cbn [ctx_rep ctx_addrs rehole]; [done| |];
    intros [Na Nt]%NoDup_cons (Ha & Ht & Hc);
    (split; [by rewrite lookup_alter_eq, Ha|]);
    (split; [eapply tree_rep_ext; [|done]|eapply ctx_rep_ext; [|done]]);
    intros x Hx; apply lookup_alter_ne; set_solver.
Qed.

(** Changing the parent above a whole context. *)
Definition reparent_ctx ctx p h : gmap addr (rbnode K) :=
  match last ctx with None => h | Some f => alter (to_parent p) (frame_addr f) h end.

Lemma frame_addr_in f ctx : f ∈ ctx -> frame_addr f ∈ ctx_addrs ctx.
Proof.
  induction ctx as [|g ctx IH]; [by intros ?%elem_of_nil|].
  intros [->|Hf]%elem_of_cons; [destruct g; cbn; set_solver|]. specialize (IH Hf). destruct g; cbn; set_solver.
Qed.

Lemma ctx_rep_reparent h p p' ctx : NoDup (ctx_addrs ctx) -> forall hole,
  ctx_rep h p hole ctx -> ctx_rep (reparent_ctx ctx p' h) p' hole ctx.
Proof.
  induction ctx as [|f ctx IH]; intros ND hole C; [done|].
  destruct ctx as [|g ctx].
  - unfold reparent_ctx. cbn [last]. destruct f as [c a k r|c l a k]; cbn [frame_addr ctx_rep ctx_addrs up] in *;
      apply NoDup_cons in ND as [Na _]; destruct C as (Ha & Ht & _);
      (split; [by rewrite lookup_alter_eq, Ha|]); (split; [|done]);
      (eapply tree_rep_ext; [|done]); intros x Hx; apply lookup_alter_ne; set_solver.
  - assert (reparent_ctx (f :: g :: ctx) p' h = reparent_ctx (g :: ctx) p' h) as -> by done.
    assert (exists f', last (g :: ctx) = Some f' /\ f' ∈ g :: ctx) as (f' & Ef & Hf').
    { destruct (last (g :: ctx)) as [f'|] eqn:Ef; [|by apply last_None in Ef].
      exists f'. split; [done|]. by eapply last_Some_elem_of. }
    pose proof (frame_addr_in _ _ Hf') as Hin.
    assert (forall x, x ∉ ctx_addrs (g :: ctx) -> reparent_ctx (g :: ctx) p' h !! x = h !! x) as Hne.
    { intros x Hx. unfold reparent_ctx. rewrite Ef. apply lookup_alter_ne. intros Heq. apply Hx. by rewrite <- Heq. }
    cbn [ctx_rep] in C |- *. cbn [up]. destruct f as [c a k r|c l a k]; cbn [ctx_addrs] in ND; fold (ctx_addrs (g :: ctx)) in ND.
    all: apply NoDup_cons in ND as [Na (_ & Ntc & Nc)%NoDup_app]; destruct C as (Ha & Ht & C).
    all: split; [rewrite Hne; [exact Ha|set_solver]|].
    all: split; [eapply tree_rep_ext; [|done]; intros x Hx; apply Hne; by apply Ntc|].
    all: by apply IH.
Qed.
(** The structure holds the tree [t], and every node once. *)
Record rep s t : Prop := {
  rep_tree : tree_rep s.(nodes) None t;
  rep_root : s.(root) = root_of t;
  rep_nodup : NoDup (addrs t);
}.

(** Nodes that are not in the list are untouched, no node appears or goes, and the
    keys stay. *)
Record evolves (L : list (K * addr)) s s' : Prop := {
  ev_count : s'.(count) = s.(count);
  ev_other : forall x, x ∉ L.*2 -> s'.(nodes) !! x = s.(nodes) !! x;
  ev_keys : forall x, key <$> s'.(nodes) !! x = key <$> s.(nodes) !! x;
}.

#[export] Instance evolves_preorder L : PreOrder (evolves L).
Proof.
  split; [by split|]. intros s1 s2 s3 [C1 O1 K1] [C2 O2 K2]. split; [congruence| |].
  - intros x Hx. by rewrite O2, O1.
  - intros x. by rewrite K2.
Qed.

(** Two trees with the same nodes in order can stand for each other in [evolves]
    and [NoDup]. *)
Lemma addrs_same t t' : inorder t' = inorder t -> addrs t' = addrs t.
Proof. intros H. by rewrite !addrs_inorder, H. Qed.

Lemma inorder_fill_eq ctx t t' : inorder t' = inorder t -> inorder (fill ctx t') = inorder (fill ctx t).
Proof. intros H. by rewrite !inorder_fill, H. Qed.

Lemma rep_focus s ctx t : rep s (fill ctx t) ->
  ctx_rep s.(nodes) None (root_of t) ctx /\ tree_rep s.(nodes) (up None ctx) t /\
  NoDup (ctx_addrs ctx ++ addrs t).
Proof.
  intros [T _ ND]. apply fill_rep in T as [C T]. split; [done|]. split; [done|]. by rewrite <- addrs_fill.
Qed.

Lemma root_fill ctx t : root_of (fill ctx t) = match last ctx with None => root_of t | Some f => Some (frame_addr f) end.
Proof.
  revert t. induction ctx as [|f ctx IH]; intros t; [done|]. cbn [fill]. rewrite IH.
  destruct ctx as [|g ctx]; [by destruct f|]. change (last (f :: g :: ctx)) with (last (g :: ctx)).
  destruct (last (g :: ctx)) eqn:El; [done|]. by apply last_None in El.
Qed.

(** Reads and writes of a node that is there. *)
Lemma run_get {A B} (d : A) f a n (F : A -> ST (rbtree K) B) s :
  s.(nodes) !! a = Some n -> mbind F (get d f (Some a)) s = F (f n) s.
Proof. intros H. apply st_bind_ok. unfold get. by rewrite H. Qed.

Lemma run_get_key {B} a n (F : K -> ST (rbtree K) B) s :
  s.(nodes) !! a = Some n -> mbind F (get_key (Some a)) s = F (key n) s.
Proof. intros H. apply st_bind_ok. unfold get_key. by rewrite H. Qed.

Lemma run_get_null {A B} (d : A) f (F : A -> ST (rbtree K) B) s : mbind F (get d f None) s = F d s.
Proof. done. Qed.

Lemma alter_some {A} (f : A -> A) (a : addr) n (h : gmap addr A) : h !! a = Some n -> <[a := f n]> h = alter f a h.
Proof.
  intros H. apply map_eq. intros x. destruct (decide (x = a)) as [->|Hne].
  - by rewrite lookup_insert_eq, lookup_alter_eq, H.
  - by rewrite lookup_insert_ne, lookup_alter_ne.
Qed.

Lemma run_put f a n s : s.(nodes) !! a = Some n ->
  put f (Some a) s = Ok (tt, with_nodes (alter f a s.(nodes)) s).
Proof. intros H. unfold put. rewrite H. by rewrite (alter_some f a n). Qed.

Lemma key_alter (f : rbnode K -> rbnode K) a h x : (forall n, key (f n) = key n) ->
  key <$> alter f a h !! x = key <$> h !! x.
Proof.
  intros Hf. destruct (decide (x = a)) as [->|]; [|by rewrite lookup_alter_ne].
  rewrite lookup_alter_eq. destruct (h !! a); cbn; [by rewrite Hf|done].
Qed.

Lemma key_reparent t p h x : key <$> reparent t p h !! x = key <$> h !! x.
Proof. destruct t; [done|]. by apply key_alter. Qed.

Lemma key_rehole ctx new h x : key <$> rehole ctx new h !! x = key <$> h !! x.
Proof. destruct ctx as [|[]]; [done|..]; by apply key_alter. Qed.

(** ** Painting *)

Lemma set_color_rep s ctx c l a k r c' : rep s (fill ctx (N c l a k r)) ->
  exists s', set_color (Some a) c' s = Ok (tt, s') /\ rep s' (fill ctx (N c' l a k r)) /\
    evolves (inorder (fill ctx (N c l a k r))) s s'.
Proof.
  intros R. pose proof (rep_focus _ _ _ R) as (C & (Ha & Hl & Hr) & ND).
  assert (a ∈ addrs (fill ctx (N c l a k r))) as Hin by (rewrite addrs_fill; cbn; set_solver).
  eexists. split; [by eapply run_put|]. split; [split|split].
  - apply fill_rep. cbn [with_nodes nodes]. apply NoDup_app in ND as (_ & Nc & ND).
    cbn [addrs] in Nc, ND. apply NoDup_app in ND as (_ & Nl & [Nr _]%NoDup_cons).
    split; [eapply ctx_rep_ext; [|exact C]; intros x Hx; apply lookup_alter_ne; specialize (Nc x Hx); set_solver|].
    cbn [tree_rep]. split; [by rewrite lookup_alter_eq, Ha|].
    split; (eapply tree_rep_ext; [|done]); intros x Hx; apply lookup_alter_ne; [specialize (Nl x Hx)|]; set_solver.
  - cbn. rewrite (rep_root _ _ R), !root_fill. by destruct (last ctx).
  - rewrite (addrs_same (fill ctx (N c l a k r))) by (by apply inorder_fill_eq). apply R.
  - done.
  - intros x Hx. apply lookup_alter_ne. rewrite <- addrs_inorder in Hx. by intros ->.
  - intros x. by apply key_alter.
Qed.
End Tree.

(** ** Rotations of a red-black tree in memory *)

Section Rotate.
Context {K : Type}.
Implicit Types (t l r m : @tree K) (h : gmap addr (rbnode K)) (s : rbtree K) (ctx : list (@frame K)) (p : ptr).

Definition relinked ctx (new : ptr) s : rbtree K :=
  mk_rbtree (rehole ctx new s.(nodes)) (match ctx with [] => new | _ => s.(root) end) s.(count).

(** A child of a subtree is not the node [a] when [a] is not in it. *)
Lemma root_of_ne t a : a ∉ addrs t -> Some a <> root_of t.
Proof. destruct t as [|c l b k r]; cbn; [done|]. intros Ha [= ->]. set_solver. Qed.

Lemma relink_left_ok s ctx a new : ctx_rep s.(nodes) None (Some a) ctx -> a ∉ ctx_addrs ctx ->
  (if decide (up None ctx <> None) then
     npl ← get_left (up None ctx);
     if decide (Some a = npl) then set_left (up None ctx) new else set_right (up None ctx) new
   else set_root new) s = Ok (tt, relinked ctx new s).
Proof.
  destruct ctx as [|[c q k r|c l q k] ctx]; cbn [ctx_rep up frame_addr ctx_addrs]; [done| |]; intros (Hq & Ht & C) Ha.
  - rewrite decide_True by done. unfold get_left. rewrite (run_get _ _ _ _ _ _ Hq). cbn [left_].
    rewrite decide_True by done. by eapply run_put.
  - rewrite decide_True by done. unfold get_left. rewrite (run_get _ _ _ _ _ _ Hq). cbn [left_].
    rewrite decide_False by (apply root_of_ne; set_solver). by eapply run_put.
Qed.

Lemma relink_right_ok s ctx a new : ctx_rep s.(nodes) None (Some a) ctx -> a ∉ ctx_addrs ctx ->
  (if decide (up None ctx <> None) then
     npr ← get_right (up None ctx);
     if decide (Some a = npr) then set_right (up None ctx) new else set_left (up None ctx) new
   else set_root new) s = Ok (tt, relinked ctx new s).
Proof.
  destruct ctx as [|[c q k r|c l q k] ctx]; cbn [ctx_rep up frame_addr ctx_addrs]; [done| |]; intros (Hq & Ht & C) Ha.
  - rewrite decide_True by done. unfold get_right. rewrite (run_get _ _ _ _ _ _ Hq). cbn [right_].
    rewrite decide_False by (apply root_of_ne; set_solver). by eapply run_put.
  - rewrite decide_True by done. unfold get_right. rewrite (run_get _ _ _ _ _ _ Hq). cbn [right_].
    rewrite decide_True by done. by eapply run_put.
Qed.

Lemma set_child_parent_ok s t p v : tree_rep s.(nodes) p t ->
  (if decide (root_of t <> None) then set_parent (root_of t) v else mret tt) s
  = Ok (tt, with_nodes (reparent t v s.(nodes)) s).
Proof.
  destruct t as [|c l a k r]; cbn [root_of tree_rep reparent]; [by destruct s|].
  intros (Ha & _). rewrite decide_True by done. by eapply run_put.
Qed.

(** The heap after a rotation: [a] goes below [b], the subtree [m] between them
    changes its parent.  [fa]: the new child of [a]; [fb]: the new child of [b]. *)
Definition rotated (fa fb : rbnode K -> rbnode K) (a b : addr) m ctx h : gmap addr (rbnode K) :=
  alter (to_parent (Some b)) a (alter fb b (rehole ctx (Some b)
    (alter (to_parent (up None ctx)) b (reparent m (Some a) (alter fa a h))))).

Section Heap.
Context (a b : addr) (l m r : @tree K) (ctx : list (@frame K)) (h : gmap addr (rbnode K)).
Context (fa fb : rbnode K -> rbnode K).
Context (ND : NoDup (ctx_addrs ctx ++ [a; b] ++ addrs l ++ addrs m ++ addrs r)).

Lemma rotated_sep : a <> b /\ a ∉ ctx_addrs ctx /\ b ∉ ctx_addrs ctx /\ a ∉ addrs m /\ b ∉ addrs m /\
  NoDup (ctx_addrs ctx) /\ NoDup (addrs m) /\
  (forall x, x ∈ addrs l -> x <> a /\ x <> b /\ x ∉ ctx_addrs ctx /\ x ∉ addrs m) /\
  (forall x, x ∈ addrs m -> x <> a /\ x <> b /\ x ∉ ctx_addrs ctx) /\
  (forall x, x ∈ addrs r -> x <> a /\ x <> b /\ x ∉ ctx_addrs ctx /\ x ∉ addrs m) /\
  (forall x, x ∈ ctx_addrs ctx -> x <> a /\ x <> b /\ x ∉ addrs m).
Proof using ND.
  apply NoDup_app in ND as (Nc & Ncx & N2). apply NoDup_app in N2 as (Nab & Nabx & N3).
  apply NoDup_app in N3 as (_ & Nlx & N4). apply NoDup_app in N4 as (Nm & Nmx & _).
  apply NoDup_cons in Nab as [Nab _]. repeat split; set_solver.
Qed.

Lemma rotated_ne x : x <> a -> x <> b -> x ∉ ctx_addrs ctx -> x ∉ addrs m ->
  rotated fa fb a b m ctx h !! x = h !! x.
Proof using Type.
  intros. unfold rotated. rewrite !lookup_alter_ne, rehole_ne by done.
  by rewrite lookup_alter_ne, reparent_ne, lookup_alter_ne by done.
Qed.

Lemma rotated_outer : tree_rep h (Some a) l -> tree_rep (rotated fa fb a b m ctx h) (Some a) l.
Proof using ND.
  destruct rotated_sep as (_ & _ & _ & _ & _ & _ & _ & Hl & _).
  apply tree_rep_ext. intros x Hx. destruct (Hl x Hx) as (? & ? & ? & ?). by apply rotated_ne.
Qed.

Lemma rotated_outer_r p : tree_rep h p r -> tree_rep (rotated fa fb a b m ctx h) p r.
Proof using ND.
  destruct rotated_sep as (_ & _ & _ & _ & _ & _ & _ & _ & _ & Hr & _).
  apply tree_rep_ext. intros x Hx. destruct (Hr x Hx) as (? & ? & ? & ?). by apply rotated_ne.
Qed.

Lemma rotated_middle p : tree_rep h p m -> tree_rep (rotated fa fb a b m ctx h) (Some a) m.
Proof using ND.
  destruct rotated_sep as (_ & _ & _ & _ & _ & _ & Nm & _ & Hm & _). intros T.
  apply (tree_rep_ext (reparent m (Some a) h)); [|by eapply tree_rep_reparent].
  intros x Hx. destruct (Hm x Hx) as (? & ? & ?). unfold rotated.
  rewrite !lookup_alter_ne, rehole_ne, lookup_alter_ne by done.
  destruct m as [|c ml y k mr]; cbn [reparent]; [by rewrite lookup_alter_ne|].
  destruct (decide (x = y)) as [->|Hne].
  - rewrite !lookup_alter_eq. by rewrite lookup_alter_ne.
  - rewrite !(lookup_alter_ne _ _ y) by done. by rewrite lookup_alter_ne.
Qed.

Lemma rotated_ctx : ctx_rep h None (Some a) ctx -> ctx_rep (rotated fa fb a b m ctx h) None (Some b) ctx.
Proof using ND.
  destruct rotated_sep as (_ & _ & _ & _ & _ & Nc & _ & _ & _ & _ & Hc). intros C.
  apply (ctx_rep_ext (rehole ctx (Some b) h)); [|by eapply ctx_rep_rehole].
  intros x Hx. destruct (Hc x Hx) as (? & ? & ?). unfold rotated. rewrite !lookup_alter_ne by done.
  set (h1 := alter (to_parent (up None ctx)) b (reparent m (Some a) (alter fa a h))).
  assert (h1 !! x = h !! x) as E1.
  { unfold h1. by rewrite lookup_alter_ne, reparent_ne, lookup_alter_ne. }
  destruct ctx as [|[c q k t|c t q k] ctx']; cbn [rehole]; [done| |];
    (destruct (decide (x = q)) as [->|Hne]; [by rewrite !lookup_alter_eq, E1|by rewrite !lookup_alter_ne]).
Qed.

Lemma rotated_a n : h !! a = Some n -> rotated fa fb a b m ctx h !! a = Some (to_parent (Some b) (fa n)).
Proof using ND.
  destruct rotated_sep as (? & ? & ? & ? & ? & _). intros Ha. unfold rotated.
  rewrite lookup_alter_eq, lookup_alter_ne, rehole_ne, lookup_alter_ne, reparent_ne, lookup_alter_eq by done.
  by rewrite Ha.
Qed.

Lemma rotated_b n : h !! b = Some n ->
  rotated fa fb a b m ctx h !! b = Some (fb (to_parent (up None ctx) n)).
Proof using ND.
  destruct rotated_sep as (? & ? & ? & ? & ? & _). intros Hb. unfold rotated.
  rewrite lookup_alter_ne, lookup_alter_eq, rehole_ne, lookup_alter_eq, reparent_ne, lookup_alter_ne by done.
  by rewrite Hb.
Qed.

Lemma rotated_keys x : (forall n, key (fa n) = key n) -> (forall n, key (fb n) = key n) ->
  key <$> rotated fa fb a b m ctx h !! x = key <$> h !! x.
Proof using Type.
  intros Ha Hb. unfold rotated.
  by rewrite key_alter, key_alter, key_rehole, key_alter, key_reparent, key_alter.
Qed.
End Heap.

(** The result, for a rotation that takes [t] to [t']. *)
Lemma rotated_rep s ctx t t' h' : rep s (fill ctx t) -> inorder t' = inorder t ->
  ctx_rep h' None (root_of t') ctx -> tree_rep h' (up None ctx) t' ->
  (forall x, x ∉ addrs (fill ctx t) -> h' !! x = s.(nodes) !! x) ->
  (forall x, key <$> h' !! x = key <$> s.(nodes) !! x) ->
  let s' := mk_rbtree h' (match ctx with [] => root_of t' | _ => s.(root) end) s.(count) in
  rep s' (fill ctx t') /\ evolves (inorder (fill ctx t)) s s'.
Proof.
  intros R Hin C T Ho Hk s'. split; [split|split].
  - apply fill_rep. done.
  - cbn. rewrite root_fill. destruct ctx as [|f ctx]; [done|]. rewrite (rep_root _ _ R), root_fill.
    destruct (last (f :: ctx)) eqn:El; [done|]. by apply last_None in El.
  - rewrite (addrs_same (fill ctx t)) by (by apply inorder_fill_eq). apply R.
  - done.
  - intros x Hx. apply Ho. by rewrite addrs_inorder.
  - done.
Qed.

(** Execution, on the parts of the heap that matter. *)
Lemma rotate_left_run s ctx c1 l a ka c2 m b kb r :
  let h := s.(nodes) in
  NoDup (ctx_addrs ctx ++ [a; b] ++ addrs l ++ addrs m ++ addrs r) ->
  ctx_rep h None (Some a) ctx -> h !! a = Some (mk_node (up None ctx) (root_of l) (Some b) ka c1) ->
  h !! b = Some (mk_node (Some a) (root_of m) (root_of r) kb c2) -> tree_rep h (Some b) m ->
  rbtree_rotate_left (Some a) s
  = Ok (tt, mk_rbtree (rotated (to_right (root_of m)) (to_left (Some a)) a b m ctx h)
              (match ctx with [] => Some b | _ => s.(root) end) s.(count)).
Proof.
  intros h ND C Ha Hb Hm.
  destruct (rotated_sep a b l m r ctx ND) as (Nab & Nac & Nbc & Nam & Nbm & _ & _ & _ & Hmx & _ & Hcx).
  unfold rbtree_rotate_left, get_right, get_left, get_parent.
  rewrite (run_get _ _ _ _ _ _ Ha). cbn [right_]. rewrite (run_get _ _ _ _ _ _ Hb). cbn [left_].
  erewrite st_bind_ok by (by eapply run_put). fold h. set (h1 := alter _ a h).
  assert (h1 !! b = h !! b) as Eb by (by apply lookup_alter_ne).
  assert (h1 !! a = Some (to_right (root_of m) (mk_node (up None ctx) (root_of l) (Some b) ka c1))) as Ea
    by (unfold h1; by rewrite lookup_alter_eq, Ha).
  rewrite (run_get _ _ _ (mk_node (Some a) (root_of m) (root_of r) kb c2)) by (cbn; by rewrite Eb). cbn [left_].
  erewrite st_bind_ok.
  2: { apply (set_child_parent_ok _ m (Some b)). cbn. eapply tree_rep_ext; [|exact Hm].
       intros x Hx. apply lookup_alter_ne. by destruct (Hmx x Hx). }
  cbn [nodes with_nodes]. set (h2 := reparent m _ h1).
  assert (h2 !! a = h1 !! a) as E2a by (by apply reparent_ne).
  assert (h2 !! b = h1 !! b) as E2b by (by apply reparent_ne).
  erewrite run_get by (cbn; rewrite E2a; exact Ea). cbn [parent to_right].
  erewrite st_bind_ok by (eapply run_put; cbn; rewrite E2b, Eb; exact Hb). cbn [nodes with_nodes].
  set (h3 := alter _ b h2). assert (h3 !! a = h1 !! a) as E3a by (unfold h3; by rewrite lookup_alter_ne).
  erewrite run_get by (cbn; rewrite E3a; exact Ea). cbn [parent to_right].
  erewrite st_bind_ok.
  2: { apply relink_left_ok; [|done]. cbn. eapply ctx_rep_ext; [|exact C]. intros x Hx.
       destruct (Hcx x Hx) as (? & ? & ?). unfold h3, h2, h1. by rewrite lookup_alter_ne, reparent_ne, lookup_alter_ne. }
  unfold relinked. cbn [nodes with_nodes root count].
  erewrite st_bind_ok by (eapply run_put; cbn; rewrite rehole_ne by done; unfold h3; rewrite lookup_alter_eq, E2b, Eb, Hb; reflexivity).
  etrans; [eapply run_put; cbn; rewrite lookup_alter_ne, rehole_ne, E3a by done; exact Ea|done].
Qed.

Lemma rotate_left_rep s ctx c1 l a ka c2 m b kb r :
  rep s (fill ctx (N c1 l a ka (N c2 m b kb r))) ->
  exists s', rbtree_rotate_left (Some a) s = Ok (tt, s') /\
    rep s' (fill ctx (N c2 (N c1 l a ka m) b kb r)) /\
    evolves (inorder (fill ctx (N c1 l a ka (N c2 m b kb r)))) s s'.
Proof.
  intros R. pose proof (rep_focus _ _ _ R) as (C & (Ha & Hl & Hb & Hm & Hr) & ND).
  assert (NoDup (ctx_addrs ctx ++ [a; b] ++ addrs l ++ addrs m ++ addrs r)) as ND'.
  { cbn [addrs] in ND. assert (addrs l ++ a :: addrs m ++ b :: addrs r
      ≡ₚ [a; b] ++ addrs l ++ addrs m ++ addrs r) as P by solve_Permutation. by rewrite <- P. }
  eexists. split; [by apply (rotate_left_run s ctx c1 l a ka c2 m b kb r)|].
  apply (rotated_rep s ctx (N c1 l a ka (N c2 m b kb r)) (N c2 (N c1 l a ka m) b kb r)).
  - done.
  - cbn. by rewrite <- app_assoc.
  - by eapply rotated_ctx.
  - cbn [tree_rep root_of]. erewrite rotated_b, rotated_a by done.
    split; [done|]. split; [|by eapply rotated_outer_r]. split; [done|].
    split; [by eapply rotated_outer|by eapply rotated_middle].
  - intros x Hx. rewrite addrs_fill in Hx. cbn [addrs] in Hx. apply rotated_ne; set_solver.
  - intros x. by apply rotated_keys.
Qed.

Lemma rotate_right_run s ctx c1 l a ka c2 m b kb r :
  let h := s.(nodes) in
  NoDup (ctx_addrs ctx ++ [a; b] ++ addrs r ++ addrs m ++ addrs l) ->
  ctx_rep h None (Some a) ctx -> h !! a = Some (mk_node (up None ctx) (Some b) (root_of r) ka c1) ->
  h !! b = Some (mk_node (Some a) (root_of l) (root_of m) kb c2) -> tree_rep h (Some b) m ->
  rbtree_rotate_right (Some a) s
  = Ok (tt, mk_rbtree (rotated (to_left (root_of m)) (to_right (Some a)) a b m ctx h)
              (match ctx with [] => Some b | _ => s.(root) end) s.(count)).
Proof.
  intros h ND C Ha Hb Hm.
  destruct (rotated_sep a b r m l ctx ND) as (Nab & Nac & Nbc & Nam & Nbm & _ & _ & _ & Hmx & _ & Hcx).
  unfold rbtree_rotate_right, get_right, get_left, get_parent.
  rewrite (run_get _ _ _ _ _ _ Ha). cbn [left_]. rewrite (run_get _ _ _ _ _ _ Hb). cbn [right_].
  erewrite st_bind_ok by (by eapply run_put). fold h. set (h1 := alter _ a h).
  assert (h1 !! b = h !! b) as Eb by (by apply lookup_alter_ne).
  assert (h1 !! a = Some (to_left (root_of m) (mk_node (up None ctx) (Some b) (root_of r) ka c1))) as Ea
    by (unfold h1; by rewrite lookup_alter_eq, Ha).
  rewrite (run_get _ _ _ (mk_node (Some a) (root_of l) (root_of m) kb c2)) by (cbn; by rewrite Eb). cbn [right_].
  erewrite st_bind_ok.
  2: { apply (set_child_parent_ok _ m (Some b)). cbn. eapply tree_rep_ext; [|exact Hm].
       intros x Hx. apply lookup_alter_ne. by destruct (Hmx x Hx). }
  cbn [nodes with_nodes]. set (h2 := reparent m _ h1).
  assert (h2 !! a = h1 !! a) as E2a by (by apply reparent_ne).
  assert (h2 !! b = h1 !! b) as E2b by (by apply reparent_ne).
  erewrite run_get by (cbn; rewrite E2a; exact Ea). cbn [parent to_left].
  erewrite st_bind_ok by (eapply run_put; cbn; rewrite E2b, Eb; exact Hb). cbn [nodes with_nodes].
  set (h3 := alter _ b h2). assert (h3 !! a = h1 !! a) as E3a by (unfold h3; by rewrite lookup_alter_ne).
  erewrite run_get by (cbn; rewrite E3a; exact Ea). cbn [parent to_left].
  erewrite st_bind_ok.
  2: { apply relink_right_ok; [|done]. cbn. eapply ctx_rep_ext; [|exact C]. intros x Hx.
       destruct (Hcx x Hx) as (? & ? & ?). unfold h3, h2, h1. by rewrite lookup_alter_ne, reparent_ne, lookup_alter_ne. }
  unfold relinked. cbn [nodes with_nodes root count].
  erewrite st_bind_ok by (eapply run_put; cbn; rewrite rehole_ne by done; unfold h3; rewrite lookup_alter_eq, E2b, Eb, Hb; reflexivity).
  etrans; [eapply run_put; cbn; rewrite lookup_alter_ne, rehole_ne, E3a by done; exact Ea|done].
Qed.

Lemma rotate_right_rep s ctx c1 l a ka c2 m b kb r :
  rep s (fill ctx (N c1 (N c2 l b kb m) a ka r)) ->
  exists s', rbtree_rotate_right (Some a) s = Ok (tt, s') /\
    rep s' (fill ctx (N c2 l b kb (N c1 m a ka r))) /\
    evolves (inorder (fill ctx (N c1 (N c2 l b kb m) a ka r))) s s'.
Proof.
  intros R. pose proof (rep_focus _ _ _ R) as (C & (Ha & (Hb & Hl & Hm) & Hr) & ND).
  assert (NoDup (ctx_addrs ctx ++ [a; b] ++ addrs r ++ addrs m ++ addrs l)) as ND'.
  { cbn [addrs] in ND. assert ((addrs l ++ b :: addrs m) ++ a :: addrs r
      ≡ₚ [a; b] ++ addrs r ++ addrs m ++ addrs l) as P by solve_Permutation. by rewrite <- P. }
  eexists. split; [by apply (rotate_right_run s ctx c1 l a ka c2 m b kb r)|].
  apply (rotated_rep s ctx (N c1 (N c2 l b kb m) a ka r) (N c2 l b kb (N c1 m a ka r))).
  - done.
  - cbn. by rewrite <- app_assoc.
  - by eapply rotated_ctx.
  - cbn [tree_rep root_of]. erewrite rotated_b, rotated_a by done.
    split; [done|]. split; [by eapply rotated_outer_r|]. split; [done|].
    split; [by eapply rotated_middle|by eapply rotated_outer].
  - intros x Hx. rewrite addrs_fill in Hx. cbn [addrs] in Hx. apply rotated_ne; set_solver.
  - intros x. by apply rotated_keys.
Qed.
End Rotate.
