(* ===== verification/RbtreeInsert.v ===== *)
(** * Insertion into a red-black tree keeps it balanced *)

From S2P Require Import Prelude Rbtree RbtreeTree.

Section Balance.
Context {K : Type}.
Implicit Types (t l r m : @tree K) (s : rbtree K) (ctx : list (@frame K)) (p : ptr).

(** Every path has [n] black nodes, and no red node has a red child. *)
Inductive balanced : @tree K -> nat -> Prop :=
  | bal_E : balanced E 0
  | bal_B l a k r n : balanced l n -> balanced r n -> balanced (N BLACK l a k r) (S n)
  | bal_R l a k r n : balanced l n -> balanced r n -> colour_of l = BLACK -> colour_of r = BLACK ->
      balanced (N RED l a k r) n.

Definition rb t : Prop := colour_of t = BLACK /\ exists n, balanced t n.

Definition sibling (f : @frame K) : @tree K := match f with FL _ _ _ t | FR _ t _ _ => t end.

(** The context makes a black-rooted tree of a tree of black height [n] in its
    hole; the flag says whether that tree may be red. *)
Inductive ctx_bal : list (@frame K) -> nat -> bool -> Prop :=
  | cb_nil n : ctx_bal [] n false
  | cb_B f ctx n b : frame_colour f = BLACK -> balanced (sibling f) n -> ctx_bal ctx (S n) b ->
      ctx_bal (f :: ctx) n true
  | cb_R f ctx n : frame_colour f = RED -> balanced (sibling f) n -> colour_of (sibling f) = BLACK ->
      ctx_bal ctx n true -> ctx_bal (f :: ctx) n false.

Lemma balanced_inv c l a k r n : balanced (N c l a k r) n ->
  match c with
  | BLACK => exists n', n = S n' /\ balanced l n' /\ balanced r n'
  | RED => balanced l n /\ balanced r n /\ colour_of l = BLACK /\ colour_of r = BLACK
  end.
Proof. inversion 1; subst; eauto. Qed.

Lemma fill1_black f t n : frame_colour f = BLACK -> balanced (sibling f) n -> balanced t n ->
  balanced (fill1 f t) (S n) /\ colour_of (fill1 f t) = BLACK.
Proof. destruct f; cbn; intros -> ? ?; split; try done; by constructor. Qed.

Lemma fill1_red f t n : frame_colour f = RED -> balanced (sibling f) n -> colour_of (sibling f) = BLACK ->
  balanced t n -> colour_of t = BLACK -> balanced (fill1 f t) n.
Proof. destruct f; cbn; intros -> ? ? ? ?; by constructor. Qed.

Lemma fill_rb ctx n b : ctx_bal ctx n b -> forall t, balanced t n -> (b = false -> colour_of t = BLACK) ->
  rb (fill ctx t).
Proof.
  induction 1 as [n|f ctx n b Hf Hs Hc IH|f ctx n Hf Hs Hsb Hc IH]; intros t Ht Hb; cbn [fill].
  - split; eauto.
  - destruct (fill1_black f t n Hf Hs Ht). by apply IH.
  - apply IH; [|done]. apply fill1_red; auto.
Qed.

Definition blacken t : @tree K := match t with E => E | N _ l a k r => N BLACK l a k r end.

Lemma blacken_rb t n : balanced t n -> rb (blacken t).
Proof.
  destruct t as [|c l a k r]; [split; eauto|]. intros H. split; [done|].
  apply balanced_inv in H. destruct c.
  - destruct H as (n' & -> & ? & ?). exists (S n'). by constructor.
  - destruct H as (? & ? & _). exists (S n). by constructor.
Qed.

Lemma blacken_black t : colour_of t = BLACK -> blacken t = t.
Proof. destruct t; cbn; [done|]. by intros ->. Qed.

Lemma blacken_inorder t : inorder (blacken t) = inorder t.
Proof. by destruct t. Qed.

Lemma rep_node s ctx c l a k r : rep s (fill ctx (N c l a k r)) ->
  s.(nodes) !! a = Some (mk_node (up None ctx) (root_of l) (root_of r) k c).
Proof. intros R. by destruct (rep_focus _ _ _ R) as (_ & (H & _) & _). Qed.

(** The same for the node of the innermost frame. *)
Lemma rep_frame s f ctx t : rep s (fill (f :: ctx) t) ->
  s.(nodes) !! (frame_addr f) = Some (match f with
    | FL c _ k r => mk_node (up None ctx) (root_of t) (root_of r) k c
    | FR c l _ k => mk_node (up None ctx) (root_of l) (root_of t) k c
    end).
Proof. intros R. destruct (rep_focus _ _ _ R) as (C & _ & _). by destruct f; destruct C. Qed.

(** The root of a subtree is not the root of a disjoint one. *)
Lemma focus_ne s f ctx c l a k r : rep s (fill (f :: ctx) (N c l a k r)) -> root_of (sibling f) <> Some a.
Proof.
  intros R. destruct (rep_focus _ _ _ R) as (_ & _ & ND). apply NoDup_app in ND as (_ & N1 & _).
  destruct (sibling f) as [|c' l' a' k' r'] eqn:Es; [done|]. cbn. intros [= ->].
  apply (N1 a); [|cbn; set_solver]. destruct f; cbn in *; subst; cbn; set_solver.
Qed.

(** Reading the colour of a subtree's root. *)
Lemma run_get_color {B} s p t (F : colour -> ST (rbtree K) B) :
  tree_rep s.(nodes) p t -> mbind F (get_color (root_of t)) s = F (colour_of t) s.
Proof.
  destruct t as [|c l a k r]; [done|]. intros (H & _). unfold get_color. cbn [root_of].
  by rewrite (run_get _ _ _ _ _ _ H).
Qed.

(** What a part of the code has to show: it runs, the tree becomes [t'], and
    nothing outside of the tree changes. *)
Definition does {A} (m : ST (rbtree K) A) s (v : A) t t' : Prop :=
  exists s', m s = Ok (v, s') /\ rep s' t' /\ inorder t' = inorder t /\ evolves (inorder t) s s'.

Lemma does_bind {A B} (m : ST (rbtree K) A) (F : A -> ST (rbtree K) B) s v w t t1 t2 :
  does m s v t t1 -> (forall s1, rep s1 t1 -> does (F v) s1 w t1 t2) -> does (mbind F m) s w t t2.
Proof.
  intros (s1 & E1 & R1 & I1 & V1) H. destruct (H s1 R1) as (s2 & E2 & R2 & I2 & V2).
  exists s2. rewrite (st_bind_ok _ _ _ _ _ E1). split; [done|]. split; [done|]. split; [congruence|].
  rewrite I1 in V2. by etrans.
Qed.

Lemma does_ret {A} (v : A) s t : rep s t -> does (mret v) s v t t.
Proof. intros R. exists s. by split. Qed.

Lemma does_color s ctx c l a k r c' : rep s (fill ctx (N c l a k r)) ->
  does (set_color (Some a) c') s tt (fill ctx (N c l a k r)) (fill ctx (N c' l a k r)).
Proof.
  intros R. destruct (set_color_rep s ctx c l a k r c' R) as (s' & E1 & R' & V). exists s'.
  split; [done|]. split; [done|]. split; [by apply inorder_fill_eq|done].
Qed.

Lemma does_rotate_left s ctx c1 l a ka c2 m b kb r : rep s (fill ctx (N c1 l a ka (N c2 m b kb r))) ->
  does (rbtree_rotate_left (Some a)) s tt (fill ctx (N c1 l a ka (N c2 m b kb r)))
    (fill ctx (N c2 (N c1 l a ka m) b kb r)).
Proof.
  intros R. destruct (rotate_left_rep _ _ _ _ _ _ _ _ _ _ _ R) as (s' & E1 & R' & V). exists s'.
  split; [done|]. split; [done|]. split; [|done]. apply inorder_fill_eq. cbn. by rewrite <- app_assoc.
Qed.

Lemma does_rotate_right s ctx c1 l a ka c2 m b kb r : rep s (fill ctx (N c1 (N c2 l b kb m) a ka r)) ->
  does (rbtree_rotate_right (Some a)) s tt (fill ctx (N c1 (N c2 l b kb m) a ka r))
    (fill ctx (N c2 l b kb (N c1 m a ka r))).
Proof.
  intros R. destruct (rotate_right_rep _ _ _ _ _ _ _ _ _ _ _ R) as (s' & E1 & R' & V). exists s'.
  split; [done|]. split; [done|]. split; [|done]. apply inorder_fill_eq. cbn. by rewrite <- app_assoc.
Qed.

Lemma does_get {A B} (d : A) f a n (F : A -> ST (rbtree K) B) s v t t' :
  s.(nodes) !! a = Some n -> does (F (f n)) s v t t' -> does (mbind F (get d f (Some a))) s v t t'.
Proof. intros H (s' & E1 & ?). exists s'. by rewrite (run_get _ _ _ _ _ _ H). Qed.

Lemma does_get_color {B} s p u (F : colour -> ST (rbtree K) B) v t t' :
  tree_rep s.(nodes) p u -> does (F (colour_of u)) s v t t' -> does (mbind F (get_color (root_of u))) s v t t'.
Proof. intros H (s' & E1 & ?). exists s'. by rewrite (run_get_color _ _ _ _ H). Qed.

Definition paint (f : @frame K) (c : colour) : @frame K :=
  match f with FL _ a k r => FL c a k r | FR _ l a k => FR c l a k end.

Lemma does_color_frame s ctx f t c' : rep s (fill (f :: ctx) t) ->
  does (set_color (Some (frame_addr f)) c') s tt (fill (f :: ctx) t) (fill (paint f c' :: ctx) t).
Proof. destruct f as [c a k r|c l a k]; cbn [fill fill1 frame_addr paint]; intros R; by apply does_color. Qed.

Lemma frame_parent s f ctx t : rep s (fill (f :: ctx) t) ->
  exists n, s.(nodes) !! frame_addr f = Some n /\ parent n = up None ctx /\ color n = frame_colour f.
Proof. intros R. rewrite (rep_frame _ _ _ _ R). destruct f; by eexists. Qed.

(** ** One round, the uncle being red *)

Lemma paint_addr f c : frame_addr (paint f c) = frame_addr f.
Proof. by destruct f. Qed.

(** The grandparent's frame around the parent [f] and the uncle [u]. *)
Lemma step_uncle_red s ctx f g X ul u uk ur xl x xk xr : X = N RED xl x xk xr ->
  sibling g = N RED ul u uk ur -> rep s (fill (f :: g :: ctx) X) ->
  exists t', does (insert_fixup_step (Some x)) s (Some (frame_addr g)) (fill (f :: g :: ctx) X) (fill ctx t') /\
    t' = fill1 (match g with
                | FL _ a k _ => FL RED a k (N BLACK ul u uk ur)
                | FR _ _ a k => FR RED (N BLACK ul u uk ur) a k
                end) (fill1 (paint f BLACK) X).
Proof.
  intros -> Hu R. eexists. split; [|reflexivity]. unfold insert_fixup_step.
  pose proof (rep_node s (f :: g :: ctx) _ _ _ _ _ R) as Hx.
  destruct (frame_parent s f (g :: ctx) _ R) as (nf & Hf & Ef & _). cbn [up] in Ef.
  pose proof (rep_frame s g ctx (fill1 f (N RED xl x xk xr)) R) as Hg.
  assert (root_of (fill1 f (N RED xl x xk xr)) = Some (frame_addr f)) as Er by (by destruct f).
  eapply does_get; [exact Hx|]. cbn [parent up]. eapply does_get; [exact Hf|]. rewrite Ef.
  eapply does_get; [exact Hg|].
  destruct g as [gc ga gk gr|gc gl ga gk]; cbn [sibling frame_addr left_ right_] in *; subst.
  - rewrite Er, decide_True by done. eapply does_get; [exact Hg|]. cbn [right_ root_of].
    eapply does_get; [exact (rep_node s (FR gc _ ga gk :: ctx) _ _ _ _ _ R)|]. cbn [color].
    rewrite decide_True by done.
    eapply does_bind; [by apply (does_color_frame s (FL gc ga gk _ :: ctx) f)|]. intros s1 R1.
    eapply does_bind; [by apply (does_color s1 (FR gc _ ga gk :: ctx) RED ul u uk ur BLACK)|]. intros s2 R2.
    cbn [fill fill1] in R2.
    eapply does_get; [exact (rep_node s2 (paint f BLACK :: FL gc ga gk _ :: ctx) _ _ _ _ _ R2)|].
    cbn [parent up]. destruct (frame_parent s2 (paint f BLACK) (FL gc ga gk _ :: ctx) _ R2) as (nf2 & Hf2 & Ef2 & _).
    rewrite paint_addr in Hf2 |- *. eapply does_get; [exact Hf2|]. rewrite Ef2. cbn [up frame_addr].
    eapply does_bind; [by apply (does_color s2 ctx gc _ ga gk _ RED)|]. intros s3 R3. by apply does_ret.
  - rewrite decide_False.
    2: { intros E1. pose proof (rep_focus s (FR gc (N RED ul u uk ur) ga gk :: ctx) (fill1 f (N RED xl x xk xr)) R) as (_ & _ & ND).
         apply NoDup_app in ND as (_ & N1 & _). injection E1 as E1. apply (N1 u); [cbn; set_solver|].
         rewrite <- E1. destruct f; cbn; set_solver. }
    eapply does_get; [exact Hg|]. cbn [left_ root_of].
    eapply does_get; [exact (rep_node s (FL gc ga gk _ :: ctx) _ _ _ _ _ R)|]. cbn [color].
    rewrite decide_True by done.
    eapply does_bind; [by apply (does_color_frame s (FR gc _ ga gk :: ctx) f)|]. intros s1 R1.
    eapply does_bind; [by apply (does_color s1 (FL gc ga gk _ :: ctx) RED ul u uk ur BLACK)|]. intros s2 R2.
    cbn [fill fill1] in R2.
    eapply does_get; [exact (rep_node s2 (paint f BLACK :: FR gc _ ga gk :: ctx) _ _ _ _ _ R2)|].
    cbn [parent up]. destruct (frame_parent s2 (paint f BLACK) (FR gc _ ga gk :: ctx) _ R2) as (nf2 & Hf2 & Ef2 & _).
    rewrite paint_addr in Hf2 |- *. eapply does_get; [exact Hf2|]. rewrite Ef2. cbn [up frame_addr].
    eapply does_bind; [by apply (does_color s2 ctx gc _ ga gk _ RED)|]. intros s3 R3. by apply does_ret.
Qed.

(** ** One round, the uncle being black *)

(** [z] is a child of the black root of [t]. *)
Definition below_black z t : Prop :=
  exists l y yk r, t = N BLACK l y yk r /\ (root_of l = Some z \/ root_of r = Some z).

(** Paint and rotate: the parent [y] of [z] is a left child. *)
Lemma step_finish_left s ctx gc A y yk B ga gk U z : root_of A = Some z ->
  rep s (fill ctx (N gc (N RED A y yk B) ga gk U)) ->
  does (np ← get_parent (Some z);
        set_color np BLACK;; gp ← get_parent np; set_color gp RED;; rbtree_rotate_right gp;; mret (Some z)) s
    (Some z) (fill ctx (N gc (N RED A y yk B) ga gk U)) (fill ctx (N BLACK A y yk (N RED B ga gk U))).
Proof.
  destruct A as [|zc zl z' zk zr]; [done|]. intros [= ->] R.
  eapply does_get; [exact (rep_node s (FL RED y yk B :: FL gc ga gk U :: ctx) _ _ _ _ _ R)|]. cbn [parent up frame_addr].
  eapply does_bind; [by apply (does_color s (FL gc ga gk U :: ctx) RED _ y yk B BLACK)|]. intros s1 R1.
  eapply does_get; [exact (rep_node s1 (FL gc ga gk U :: ctx) _ _ _ _ _ R1)|]. cbn [parent up frame_addr].
  eapply does_bind; [by apply (does_color s1 ctx gc _ ga gk U RED)|]. intros s2 R2.
  eapply does_bind; [by apply does_rotate_right|]. intros s3 R3. by apply does_ret.
Qed.

Lemma step_finish_right s ctx gc A y yk B ga gk U z : root_of A = Some z ->
  rep s (fill ctx (N gc U ga gk (N RED B y yk A))) ->
  does (np ← get_parent (Some z);
        set_color np BLACK;; gp ← get_parent np; set_color gp RED;; rbtree_rotate_left gp;; mret (Some z)) s
    (Some z) (fill ctx (N gc U ga gk (N RED B y yk A))) (fill ctx (N BLACK (N RED U ga gk B) y yk A)).
Proof.
  destruct A as [|zc zl z' zk zr]; [done|]. intros [= ->] R.
  eapply does_get; [exact (rep_node s (FR RED B y yk :: FR gc U ga gk :: ctx) _ _ _ _ _ R)|]. cbn [parent up frame_addr].
  eapply does_bind; [by apply (does_color s (FR gc U ga gk :: ctx) RED B y yk _ BLACK)|]. intros s1 R1.
  eapply does_get; [exact (rep_node s1 (FR gc U ga gk :: ctx) _ _ _ _ _ R1)|]. cbn [parent up frame_addr].
  eapply does_bind; [by apply (does_color s1 ctx gc U ga gk _ RED)|]. intros s2 R2.
  eapply does_bind; [by apply does_rotate_left|]. intros s3 R3. by apply does_ret.
Qed.

(** The two inner subtrees move; what is needed of their balance. *)
Definition step_result (X sf sg t' : @tree K) : Prop :=
  forall n, balanced X n -> balanced sf n -> balanced sg n -> colour_of sf = BLACK -> colour_of sg = BLACK ->
  balanced t' (S n).

Lemma step_uncle_black_left s ctx f gc ga gk U X xl x xk xr : X = N RED xl x xk xr ->
  frame_colour f = RED -> colour_of U = BLACK -> rep s (fill (f :: FL gc ga gk U :: ctx) X) ->
  exists z t', does (insert_fixup_step (Some x)) s (Some z) (fill (f :: FL gc ga gk U :: ctx) X) (fill ctx t') /\
    below_black z t' /\ step_result X (sibling f) U t'.
Proof.
  intros -> Hf HU R. unfold insert_fixup_step.
  pose proof (rep_node s (f :: FL gc ga gk U :: ctx) _ _ _ _ _ R) as Hx.
  destruct (frame_parent s f (FL gc ga gk U :: ctx) _ R) as (nf & Hnf & Ef & _). cbn [up frame_addr] in Ef.
  pose proof (rep_frame s (FL gc ga gk U) ctx (fill1 f (N RED xl x xk xr)) R) as Hg.
  assert (root_of (fill1 f (N RED xl x xk xr)) = Some (frame_addr f)) as Er by (by destruct f).
  destruct (rep_focus s (FL gc ga gk U :: ctx) _ R) as ((_ & HUr & _) & _ & _).
  pose proof (rep_frame _ _ _ _ R) as Hp.
  destruct f as [fc pa pk pr|fc pl pa pk]; cbn [frame_colour sibling frame_addr] in *; subst fc.
  - exists x, (N BLACK (N RED xl x xk xr) pa pk (N RED pr ga gk U)). split; [|split].
    + eapply does_get; [exact Hx|]. cbn [parent up frame_addr]. eapply does_get; [exact Hnf|]. rewrite Ef.
      eapply does_get; [exact Hg|]. cbn [left_]. rewrite Er, decide_True by done.
      eapply does_get; [exact Hg|]. cbn [right_]. eapply does_get_color; [exact HUr|]. rewrite HU, decide_False by done.
      eapply does_get; [exact Hp|]. cbn [right_].
      rewrite decide_False by (intros E1; by apply (focus_ne s (FL RED pa pk pr) (FL gc ga gk U :: ctx) _ _ _ _ _ R)).
      eapply does_bind; [by apply does_ret|]. intros s1 R1. by apply step_finish_left.
    + eexists _, _, _, _. split; [done|]. by left.
    + intros n Hn Hs HgU Hb _. constructor; [done|]. by constructor.
  - exists pa, (N BLACK (N RED pl pa pk xl) x xk (N RED xr ga gk U)). split; [|split].
    + eapply does_get; [exact Hx|]. cbn [parent up frame_addr]. eapply does_get; [exact Hnf|]. rewrite Ef.
      eapply does_get; [exact Hg|]. cbn [left_]. rewrite Er, decide_True by done.
      eapply does_get; [exact Hg|]. cbn [right_]. eapply does_get_color; [exact HUr|]. rewrite HU, decide_False by done.
      eapply does_get; [exact Hp|]. cbn [right_ root_of]. rewrite decide_True by done.
      eapply does_bind; [|intros s1 R1; by apply (step_finish_left s1 ctx gc (N RED pl pa pk xl) x xk xr ga gk U pa)].
      eapply does_bind; [by apply (does_rotate_left s (FL gc ga gk U :: ctx))|]. intros s1 R1. by apply does_ret.
    + eexists _, _, _, _. split; [done|]. by left.
    + intros n Hn Hs HgU Hb _. apply balanced_inv in Hn as (? & ? & ? & ?). constructor; by constructor.
Qed.

Lemma step_uncle_black_right s ctx f gc ga gk U X xl x xk xr : X = N RED xl x xk xr ->
  frame_colour f = RED -> colour_of U = BLACK -> rep s (fill (f :: FR gc U ga gk :: ctx) X) ->
  exists z t', does (insert_fixup_step (Some x)) s (Some z) (fill (f :: FR gc U ga gk :: ctx) X) (fill ctx t') /\
    below_black z t' /\ step_result X (sibling f) U t'.
Proof.
  intros -> Hf HU R. unfold insert_fixup_step.
  pose proof (rep_node s (f :: FR gc U ga gk :: ctx) _ _ _ _ _ R) as Hx.
  destruct (frame_parent s f (FR gc U ga gk :: ctx) _ R) as (nf & Hnf & Ef & _). cbn [up frame_addr] in Ef.
  pose proof (rep_frame s (FR gc U ga gk) ctx (fill1 f (N RED xl x xk xr)) R) as Hg.
  assert (Some (frame_addr f) <> root_of U) as Er.
  { intros E1. destruct f; (eapply (focus_ne s (FR gc U ga gk) ctx); [exact R|exact (eq_sym E1)]). }
  destruct (rep_focus s (FR gc U ga gk :: ctx) _ R) as ((_ & HUr & _) & _ & _).
  pose proof (rep_frame _ _ _ _ R) as Hp.
  destruct f as [fc pa pk pr|fc pl pa pk]; cbn [frame_colour sibling frame_addr] in *; subst fc.
  - exists pa, (N BLACK (N RED U ga gk xl) x xk (N RED xr pa pk pr)). split; [|split].
    + eapply does_get; [exact Hx|]. cbn [parent up frame_addr]. eapply does_get; [exact Hnf|]. rewrite Ef.
      eapply does_get; [exact Hg|]. cbn [left_]. rewrite decide_False by done.
      eapply does_get; [exact Hg|]. cbn [left_]. eapply does_get_color; [exact HUr|]. rewrite HU, decide_False by done.
      eapply does_get; [exact Hp|]. cbn [left_ root_of]. rewrite decide_True by done.
      eapply does_bind; [|intros s1 R1; by apply (step_finish_right s1 ctx gc (N RED xr pa pk pr) x xk xl ga gk U pa)].
      eapply does_bind; [by apply (does_rotate_right s (FR gc U ga gk :: ctx))|]. intros s1 R1. by apply does_ret.
    + eexists _, _, _, _. split; [done|]. by right.
    + intros n Hn Hs HgU Hb _. apply balanced_inv in Hn as (? & ? & ? & ?). constructor; by constructor.
  - exists x, (N BLACK (N RED U ga gk pl) pa pk (N RED xl x xk xr)). split; [|split].
    + eapply does_get; [exact Hx|]. cbn [parent up frame_addr]. eapply does_get; [exact Hnf|]. rewrite Ef.
      eapply does_get; [exact Hg|]. cbn [left_]. rewrite decide_False by done.
      eapply does_get; [exact Hg|]. cbn [left_]. eapply does_get_color; [exact HUr|]. rewrite HU, decide_False by done.
      eapply does_get; [exact Hp|]. cbn [left_].
      rewrite decide_False by (intros E1; by apply (focus_ne s (FR RED pl pa pk) (FR gc U ga gk :: ctx) _ _ _ _ _ R)).
      eapply does_bind; [by apply does_ret|]. intros s1 R1. by apply step_finish_right.
    + eexists _, _, _, _. split; [done|]. by right.
    + intros n Hn Hs HgU Hb _. constructor; [|done]. by constructor.
Qed.

Lemma step_uncle_black s ctx f g X xl x xk xr : X = N RED xl x xk xr ->
  frame_colour f = RED -> colour_of (sibling g) = BLACK -> rep s (fill (f :: g :: ctx) X) ->
  exists z t', does (insert_fixup_step (Some x)) s (Some z) (fill (f :: g :: ctx) X) (fill ctx t') /\
    below_black z t' /\ step_result X (sibling f) (sibling g) t'.
Proof.
  destruct g as [gc ga gk U|gc U ga gk]; intros; [by eapply step_uncle_black_left|by eapply step_uncle_black_right].
Qed.

(** ** The loop *)

Lemma does_root {B} (F : ptr -> ST (rbtree K) B) s v t t' : rep s t ->
  does (F (root_of t)) s v t t' -> does (mbind F get_root) s v t t'.
Proof. intros R (s' & E1 & ?). exists s'. rewrite <- (rep_root _ _ R) in E1. by rewrite <- E1. Qed.

Lemma does_fuel {B} (F : nat -> ST (rbtree K) B) s v t t' :
  does (F (S (size s.(nodes)))) s v t t' -> does (mbind F walk_fuel) s v t t'.
Proof. done. Qed.

Lemma last_frame_in (f : @frame K) ctx : last ctx = Some f -> frame_addr f ∈ ctx_addrs ctx.
Proof. intros H. apply frame_addr_in. by eapply last_Some_elem_of. Qed.

Lemma root_fill_ne s f ctx c l a k r : rep s (fill (f :: ctx) (N c l a k r)) ->
  Some a <> root_of (fill (f :: ctx) (N c l a k r)).
Proof.
  intros R. destruct (rep_focus _ _ _ R) as (_ & _ & (_ & N1 & _)%NoDup_app). rewrite root_fill.
  destruct (last (f :: ctx)) as [g|] eqn:El; [|by apply last_None in El]. intros [= ->].
  apply (N1 _ (last_frame_in _ _ El)). cbn. set_solver.
Qed.

Lemma ctx_bal_inv f ctx n b : ctx_bal (f :: ctx) n b ->
  match b with
  | true => frame_colour f = BLACK /\ balanced (sibling f) n /\ exists b', ctx_bal ctx (S n) b'
  | false => frame_colour f = RED /\ balanced (sibling f) n /\ colour_of (sibling f) = BLACK /\ ctx_bal ctx n true
  end.
Proof. inversion 1; subst; eauto. Qed.

Lemma does_bind_ex {A B} (m : ST (rbtree K) A) (F : A -> ST (rbtree K) B) s v w t t1 (P : @tree K -> Prop) :
  does m s v t t1 -> (forall s1, rep s1 t1 -> exists t', does (F v) s1 w t1 t' /\ P t') ->
  exists t', does (mbind F m) s w t t' /\ P t'.
Proof.
  intros (s1 & E1 & R1 & I1 & V1) H. destruct (H s1 R1) as (t' & (s2 & E2 & R2 & I2 & V2) & HP).
  exists t'. split; [|done]. exists s2. rewrite (st_bind_ok _ _ _ _ _ E1). split; [done|]. split; [done|].
  split; [congruence|]. rewrite I1 in V2. by etrans.
Qed.

(** Below a red node the loop makes a round. *)
Lemma insert_fixup_loop_round fuel s f ctx c l a k r : frame_colour f = RED ->
  rep s (fill (f :: ctx) (N c l a k r)) ->
  insert_fixup_loop (S fuel) (Some a) s = (node ← insert_fixup_step (Some a); insert_fixup_loop fuel node) s.
Proof.
  intros Hf R. cbn [insert_fixup_loop]. destruct (frame_parent s f ctx _ R) as (nf & Hnf & _ & Ec).
  unfold get_root at 1. erewrite st_bind_ok by reflexivity. rewrite (rep_root _ _ R).
  rewrite decide_False by (by eapply root_fill_ne). unfold get_parent, get_color.
  rewrite (run_get _ _ _ _ _ _ (rep_node s (f :: ctx) _ _ _ _ _ R)). cbn [parent up].
  by rewrite (run_get _ _ _ _ _ _ Hnf), Ec, Hf, decide_True.
Qed.

Lemma does_eq {A} (m m' : ST (rbtree K) A) s v t t' : m s = m' s -> does m' s v t t' -> does m s v t t'.
Proof. intros E1 (s' & E2 & ?). exists s'. by rewrite E1. Qed.

(** The loop stops below a black node. *)
Lemma insert_fixup_loop_stop fuel s ctx t z : below_black z t -> rep s (fill ctx t) ->
  does (insert_fixup_loop fuel (Some z)) s tt (fill ctx t) (fill ctx t).
Proof.
  intros (l & y & yk & r & -> & Hz) R.
  assert (exists f zc zl zk zr, fill1 f (N zc zl z zk zr) = N BLACK l y yk r /\ frame_colour f = BLACK)
    as (f & zc & zl & zk & zr & Ef & Hf).
  { destruct Hz as [Hz|Hz].
    - destruct l as [|zc zl z' zk zr]; [done|]. injection Hz as ->. by exists (FL BLACK y yk r), zc, zl, zk, zr.
    - destruct r as [|zc zl z' zk zr]; [done|]. injection Hz as ->. by exists (FR BLACK l y yk), zc, zl, zk, zr. }
  rewrite <- Ef in *. change (fill ctx (fill1 f (N zc zl z zk zr))) with (fill (f :: ctx) (N zc zl z zk zr)) in *.
  destruct fuel as [|fuel]; cbn [insert_fixup_loop]; (eapply does_root; [exact R|]);
    rewrite decide_False by (by eapply root_fill_ne);
    (eapply does_get; [exact (rep_node s (f :: ctx) _ _ _ _ _ R)|]); cbn [parent up];
    destruct (frame_parent s f ctx _ R) as (nf & Hnf & _ & Ec);
    (eapply does_get; [exact Hnf|]); rewrite Ec, Hf, decide_False by done; by apply does_ret.
Qed.

Lemma insert_fixup_loop_does fuel : forall s ctx n b xl x xk xr,
  ctx_bal ctx n b -> balanced (N RED xl x xk xr) n -> rep s (fill ctx (N RED xl x xk xr)) ->
  (length ctx <= 2 * fuel)%nat ->
  exists t', does (insert_fixup_loop fuel (Some x)) s tt (fill ctx (N RED xl x xk xr)) t' /\ rb (blacken t').
Proof.
  induction fuel as [fuel IH] using lt_wf_ind. intros s ctx n b xl x xk xr Hc HX R Hfuel.
  destruct ctx as [|f ctx].
  { exists (N RED xl x xk xr). split; [|by eapply blacken_rb].
    destruct fuel; cbn [insert_fixup_loop]; (eapply does_root; [exact R|]); cbn [fill root_of];
      rewrite decide_True by done; by apply does_ret. }
  destruct fuel as [|fuel]; [cbn in Hfuel; lia|]. cbn [insert_fixup_loop].
  pose proof (rep_node s (f :: ctx) _ _ _ _ _ R) as Hx.
  destruct (frame_parent s f ctx _ R) as (nf & Hnf & Ef & Ecf).
  pose proof (ctx_bal_inv _ _ _ _ Hc) as Hinv. destruct b.
  - destruct Hinv as (Hf & Hsf & b' & Hc').
    exists (fill (f :: ctx) (N RED xl x xk xr)).
    assert (rb (fill (f :: ctx) (N RED xl x xk xr))) as Hrb by (eapply fill_rb; [exact Hc|done|done]).
    split; [|rewrite blacken_black; [done|apply Hrb]].
    eapply does_root; [exact R|]. rewrite decide_False by (by eapply root_fill_ne).
    eapply does_get; [exact Hx|]. cbn [parent up]. eapply does_get; [exact Hnf|].
    rewrite Ecf, Hf, decide_False by done. by apply does_ret.
  - destruct Hinv as (Hf & Hsf & Hsfb & Hc'). destruct ctx as [|g ctx]; [inversion Hc'|].
    apply ctx_bal_inv in Hc' as (Hg & Hsg & b' & Hc').
    pose proof (insert_fixup_loop_round fuel s f (g :: ctx) RED xl x xk xr Hf R) as Eround.
    cut (exists t', does (node ← insert_fixup_step (Some x); insert_fixup_loop fuel node) s tt
           (fill (f :: g :: ctx) (N RED xl x xk xr)) t' /\ rb (blacken t')).
    { intros (t' & D & H). exists t'. split; [|done]. by eapply does_eq. }
    clear Eround Hx Hnf Ef Ecf nf.
    destruct (colour_of (sibling g)) eqn:Ecg.
    + destruct (step_uncle_black s ctx f g _ xl x xk xr eq_refl Hf Ecg R) as (z & t' & D & Hz & Ht').
      exists (fill ctx t'). split; [eapply does_bind; [exact D|]; intros s1 R1; by apply insert_fixup_loop_stop|].
      assert (rb (fill ctx t')) as Hrb
        by (eapply fill_rb; [exact Hc'|by apply (Ht' n)|by destruct Hz as (? & ? & ? & ? & -> & _)]).
      rewrite blacken_black; [done|apply Hrb].
    + destruct (sibling g) as [|uc ul u uk ur] eqn:Esg; [done|]. cbn in Ecg. subst uc.
      destruct (step_uncle_red s ctx f g _ ul u uk ur xl x xk xr eq_refl Esg R) as (t' & D & Et').
      apply balanced_inv in Hsg as (Hul & Hur & _).
      eapply does_bind_ex; [exact D|]. intros s1 R1. cbn [length] in Hfuel.
      destruct (fill1_black (paint f BLACK) (N RED xl x xk xr) n) as [Hp1 Hp2]; [by destruct f|by destruct f|done|].
      destruct g as [gc ga gk U|gc U ga gk]; cbn [fill1 frame_addr] in *; subst t';
        (eapply (IH fuel); [lia|exact Hc'| |exact R1|lia]); constructor; try done; by constructor.
Qed.

(** Painting the root after the loop. *)
Lemma rep_size s t : rep s t -> (length (addrs t) <= size s.(nodes))%nat.
Proof.
  intros R. assert (forall t p, tree_rep s.(nodes) p t -> forall x, x ∈ addrs t -> x ∈ dom s.(nodes)) as Hd.
  { clear. induction t as [|c l IHl a k r IHr]; intros p T x; cbn [addrs]; [by intros ?%elem_of_nil|].
    destruct T as (Ha & Hl & Hr). intros [Hx|[->|Hx]%elem_of_cons]%elem_of_app; [by eapply IHl| |by eapply IHr].
    by apply elem_of_dom_2 in Ha. }
  rewrite <- size_dom, <- (size_list_to_set (C := gset addr) (addrs t)) by apply R.
  apply subseteq_size. intros x Hx%elem_of_list_to_set. by eapply Hd; [apply R|].
Qed.

Lemma length_ctx ctx t : (length ctx <= length (addrs (fill ctx t)))%nat.
Proof.
  rewrite addrs_fill, length_app. induction ctx as [|[] ctx IH]; cbn [length ctx_addrs]; [lia|..];
    rewrite length_app; lia.
Qed.

Lemma insert_fixup_does s ctx n b x k : ctx_bal ctx n b -> balanced (N RED E x k E) n ->
  rep s (fill ctx (N RED E x k E)) ->
  exists t', does (rbtree_insert_fixup (Some x)) s tt (fill ctx (N RED E x k E)) t' /\ rb t'.
Proof.
  intros Hc HX R. unfold rbtree_insert_fixup.
  pose proof (rep_size _ _ R). pose proof (length_ctx ctx (N RED E x k E)).
  destruct (insert_fixup_loop_does (S (size (nodes s))) s ctx n b E x k E Hc HX R) as (t' & D & Hrb); [lia|].
  exists (blacken t'). split; [|done]. apply does_fuel. eapply does_bind; [exact D|]. intros s1 R1.
  destruct D as (_ & _ & _ & Ei & _). eapply does_root; [exact R1|].
  destruct t' as [|c l a k' r].
  - rewrite inorder_fill in Ei. cbn in Ei. by destruct (before ctx).
  - by apply (does_color s1 []).
Qed.
End Balance.

(** Read a field of a node whose contents are known. *)
Ltac rd H := unfold get_parent, get_left, get_right, get_color; rewrite (run_get _ _ _ _ _ _ H);
  cbn [parent left_ right_ key color root_of frame_addr].
