(* ===== verification/RbtreeAdd.v ===== *)
(** * Searching, walking and adding to a red-black tree

    What [cmp] promises, the ordered list a tree stands for, and the lookups and
    iterators as operations on that list; then the insertion. *)

From Stdlib Require Import Sorted.
From S2P Require Import Prelude Rbtree RbtreeTree RbtreeInsert.

(** The comparison is that of a total preorder, like [strcmp]. *)
Class TotalCmp {K : Type} (cmp : K -> K -> Z) : Prop := {
  cmp_sym x y : cmp x y < 0 <-> 0 < cmp y x;
  cmp_trans x y z : cmp x y <= 0 -> cmp y z <= 0 -> cmp x z <= 0;
}.

Section Order.
Context {K : Type} (cmp : K -> K -> Z) `{!TotalCmp cmp}.
Implicit Types (x y z k : K) (L : list (K * addr)).

Lemma cmp_refl x : cmp x x = 0.
Proof. destruct (cmp_sym x x) as [H1 H2]. destruct (Z.lt_total (cmp x x) 0) as [H|[H|H]]; [|done|]; lia. Qed.

Lemma cmp_eq_sym x y : cmp x y = 0 -> cmp y x = 0.
Proof. pose proof (cmp_sym x y). pose proof (cmp_sym y x). lia. Qed.

Lemma cmp_le_trans x y z : cmp x y <= 0 -> cmp y z <= 0 -> cmp x z <= 0.
Proof. apply cmp_trans. Qed.

Lemma cmp_lt_le x y z : cmp x y < 0 -> cmp y z <= 0 -> cmp x z < 0.
Proof.
  intros H1 H2. assert (cmp x z <= 0) by (apply (cmp_le_trans x y z); lia).
  destruct (Z.eq_dec (cmp x z) 0) as [E1|]; [|lia]. apply cmp_eq_sym in E1.
  assert (cmp y x <= 0) by (apply (cmp_le_trans y z x); lia). apply cmp_sym in H1. lia.
Qed.

Lemma cmp_le_lt x y z : cmp x y <= 0 -> cmp y z < 0 -> cmp x z < 0.
Proof.
  intros H1 H2. assert (cmp x z <= 0) by (apply (cmp_le_trans x y z); lia).
  destruct (Z.eq_dec (cmp x z) 0) as [E1|]; [|lia]. apply cmp_eq_sym in E1.
  assert (cmp z y <= 0) by (apply (cmp_le_trans z x y); lia). apply cmp_sym in H2. lia.
Qed.

Definition sorted L : Prop := StronglySorted (fun x y : K * addr => cmp x.1 y.1 < 0) L.

Lemma sorted_app L1 L2 : sorted (L1 ++ L2) <->
  sorted L1 /\ sorted L2 /\ forall x y : K * addr, x ∈ L1 -> y ∈ L2 -> cmp x.1 y.1 < 0.
Proof.
  unfold sorted. induction L1 as [|z L1 IH]; cbn [app].
  - split; [|tauto]. intros H. split; [constructor|]. split; [done|]. by intros ? ? ?%elem_of_nil.
  - split.
    + intros [H1 H2]%StronglySorted_inv. apply IH in H1 as (S1 & S2 & H). rewrite Forall_app in H2.
      split; [constructor; tauto|]. split; [done|]. intros x y [->|Hx]%elem_of_cons Hy; [|by apply H].
      destruct H2 as [_ H2]. rewrite Forall_forall in H2. by apply H2.
    + intros ([S1 F1]%StronglySorted_inv & S2 & H). constructor.
      * apply IH. split; [done|]. split; [done|]. intros x y Hx Hy. apply H; [by right|done].
      * apply Forall_app. split; [done|]. apply Forall_forall. intros y Hy. apply H; [by left|done].
Qed.

(** The entries below, at and above a key. *)
Definition below k L := filter (fun x : K * addr => 0 < cmp k x.1) L.
Definition at_key k L := filter (fun x : K * addr => cmp k x.1 = 0) L.
Definition above k L := filter (fun x : K * addr => cmp k x.1 < 0) L.

Lemma part_app k L1 L2 : below k (L1 ++ L2) = below k L1 ++ below k L2 /\
  at_key k (L1 ++ L2) = at_key k L1 ++ at_key k L2 /\ above k (L1 ++ L2) = above k L1 ++ above k L2.
Proof. unfold below, at_key, above. by rewrite !filter_app. Qed.

Lemma part_below k L : Forall (fun x : K * addr => 0 < cmp k x.1) L -> below k L = L /\ at_key k L = [] /\ above k L = [].
Proof.
  induction 1 as [|x L Hx _ (I1 & I2 & I3)]; [done|]. unfold below, at_key, above in *. rewrite !filter_cons.
  rewrite decide_True, !decide_False by lia. rewrite I1. done.
Qed.

Lemma part_above k L : Forall (fun x : K * addr => cmp k x.1 < 0) L -> below k L = [] /\ at_key k L = [] /\ above k L = L.
Proof.
  induction 1 as [|x L Hx _ (I1 & I2 & I3)]; [done|]. unfold below, at_key, above in *. rewrite !filter_cons.
  rewrite !decide_False, decide_True by lia. rewrite I3. done.
Qed.

(** Around an entry: left of it everything is smaller, right of it larger. *)
Lemma sorted_mid L1 k a L2 : sorted (L1 ++ (k, a) :: L2) ->
  sorted L1 /\ sorted L2 /\ (forall k', cmp k' k <= 0 -> Forall (fun x : K * addr => cmp k' x.1 < 0) L2) /\
  (forall k', 0 <= cmp k' k -> Forall (fun x : K * addr => 0 < cmp k' x.1) L1).
Proof.
  intros (S1 & [S2 F2]%StronglySorted_inv & H)%sorted_app. split; [done|]. split; [done|]. split.
  - intros k' Hk. eapply Forall_impl; [exact F2|]. cbn. intros y Hy. by eapply cmp_le_lt.
  - intros k' Hk. apply Forall_forall. intros x Hx. apply cmp_sym.
    specialize (H x (k, a) Hx ltac:(by left)). cbn in H. eapply cmp_lt_le; [exact H|].
    pose proof (cmp_sym k' k). pose proof (cmp_sym k k'). destruct (Z.eq_dec (cmp k' k) 0) as [E1|]; [|lia].
    apply cmp_eq_sym in E1. lia.
Qed.
End Order.

Section Find.
Context {K : Type} (cmp : K -> K -> Z) `{!TotalCmp cmp}.
Implicit Types (t l r m : @tree K) (s : rbtree K) (ctx : list (@frame K)) (p : ptr) (k : K) (L : list (K * addr)).

Fixpoint height t : nat := match t with E => 0 | N _ l _ _ r => S (Nat.max (height l) (height r)) end.

Lemma height_addrs t : (height t <= length (addrs t))%nat.
Proof. induction t as [|c l IHl a k r IHr]; cbn; [lia|]. rewrite length_app. cbn. lia. Qed.

(** ** rbtree_find_less_equal *)

Definition spec_less_equal k L : bool * ptr :=
  match at_key cmp k L with
  | x :: _ => (true, Some x.2)
  | [] => (false, snd <$> last (below cmp k L))
  end.

(** With a result for when nothing of the tree is below the key. *)
Definition less_equal_or k L (res : ptr) : bool * ptr :=
  match at_key cmp k L with
  | x :: _ => (true, Some x.2)
  | [] => (false, match last (below cmp k L) with Some x => Some x.2 | None => res end)
  end.

Lemma find_less_equal_loop_spec k t : forall fuel p res s, sorted cmp (inorder t) -> tree_rep s.(nodes) p t ->
  (height t < fuel)%nat ->
  find_less_equal_loop cmp fuel k (root_of t) res s = Ok (less_equal_or k (inorder t) res, s).
Proof.
  induction t as [|c l IHl a ka r IHr]; intros [|fuel] p res s Hs T Hf; [lia|done|lia|].
  cbn [height] in Hf. destruct T as (Ha & Hl & Hr). cbn [inorder] in Hs.
  destruct (sorted_mid cmp _ _ _ _ Hs) as (Sl & Sr & Hgt & Hlt).
  cbn [root_of find_less_equal_loop]. rewrite (run_get_key _ _ _ _ Ha). cbn [key].
  unfold less_equal_or. cbn [inorder]. destruct (part_app cmp k (inorder l) ((ka, a) :: inorder r)) as (-> & -> & _).
  destruct (Z.eqb_spec (cmp k ka) 0) as [E1|E1]; [|destruct (Z.ltb_spec (cmp k ka) 0) as [E2|E2]].
  - destruct (part_below cmp k (inorder l) (Hlt k ltac:(lia))) as (_ & -> & _). cbn [app].
    unfold at_key. rewrite filter_cons, decide_True by done. done.
  - unfold get_left. rewrite (run_get _ _ _ _ _ _ Ha). cbn [left_]. rewrite (IHl _ (Some a)) by (done || lia).
    unfold less_equal_or.
    destruct (part_above cmp k ((ka, a) :: inorder r)) as (-> & -> & _); [constructor; [done|apply Hgt; lia]|].
    by rewrite !app_nil_r.
  - unfold get_right. rewrite (run_get _ _ _ _ _ _ Ha). cbn [right_]. rewrite (IHr _ (Some a)) by (done || lia).
    unfold less_equal_or. destruct (part_below cmp k (inorder l) (Hlt k ltac:(lia))) as (-> & -> & _). cbn [app].
    unfold at_key at 2. rewrite filter_cons, decide_False by done. fold (at_key cmp k (inorder r)).
    destruct (at_key cmp k (inorder r)); [|done]. do 3 f_equal.
    unfold below at 2. rewrite filter_cons, decide_True by (cbn; lia). fold (below cmp k (inorder r)).
    rewrite last_app. cbn [last]. destruct (last (below cmp k (inorder r))) as [x|] eqn:El; rewrite last_cons, El; done.
Qed.

Lemma find_less_equal_spec s t k : rep s t -> sorted cmp (inorder t) ->
  rbtree_find_less_equal cmp k s = Ok (spec_less_equal k (inorder t), s).
Proof.
  intros R Hs. unfold rbtree_find_less_equal. unfold get_root at 1. erewrite st_bind_ok by reflexivity.
  rewrite (rep_root _ _ R). unfold walk_fuel at 1. erewrite st_bind_ok by reflexivity.
  pose proof (rep_size _ _ R). pose proof (height_addrs t).
  rewrite (find_less_equal_loop_spec k t _ None) by (done || apply R || lia).
  unfold less_equal_or, spec_less_equal. destruct (at_key cmp k (inorder t)); [|done].
  by destruct (last (below cmp k (inorder t))).
Qed.

Definition spec_search k L : ptr := snd <$> head (at_key cmp k L).

Lemma search_spec s t k : rep s t -> sorted cmp (inorder t) ->
  rbtree_search cmp k s = Ok (spec_search k (inorder t), s).
Proof.
  intros R Hs. unfold rbtree_search. erewrite st_bind_ok by (by apply (find_less_equal_spec s t)).
  unfold spec_less_equal, spec_search. by destruct (at_key cmp k (inorder t)).
Qed.
End Find.

(** ** rbtree_insert adds an entry to the ordered list

    The walk to the free place, the link to the new leaf, and the repair of
    RbtreeInsert.v, composed. *)

(** ** Splitting an ordered list at a key *)

Section Split.
Context {K : Type} (cmp : K -> K -> Z) `{!TotalCmp cmp}.
Implicit Types (k : K) (L : list (K * addr)).

Lemma part_cons k x L :
  below cmp k (x :: L) = (if decide (0 < cmp k x.1) then x :: below cmp k L else below cmp k L) /\
  at_key cmp k (x :: L) = (if decide (cmp k x.1 = 0) then x :: at_key cmp k L else at_key cmp k L) /\
  above cmp k (x :: L) = (if decide (cmp k x.1 < 0) then x :: above cmp k L else above cmp k L).
Proof. unfold below, at_key, above. by rewrite !filter_cons. Qed.

Lemma sorted_split k L : sorted cmp L ->
  L = below cmp k L ++ at_key cmp k L ++ above cmp k L /\ (length (at_key cmp k L) <= 1)%nat.
Proof.
  induction L as [|[k' a] L IH]; intros Hs; [split; [done|cbn; lia]|].
  destruct (sorted_mid cmp [] k' a L Hs) as (_ & HsL & Hgt & _). destruct (IH HsL) as [E1 H1].
  destruct (part_cons k (k', a) L) as (-> & -> & ->). cbn [fst].
  destruct (Z.lt_total (cmp k k') 0) as [H|[H|H]].
  - rewrite !decide_False, decide_True by lia. destruct (part_above cmp k L) as (-> & -> & ->); [apply Hgt; lia|].
    split; [done|cbn; lia].
  - rewrite decide_False, decide_True, decide_False by lia.
    destruct (part_above cmp k L) as (-> & -> & ->); [apply Hgt; lia|]. split; [done|cbn; lia].
  - rewrite decide_True, !decide_False by lia. split; [|done]. cbn [app]. by f_equal.
Qed.

Lemma sorted_part k L : sorted cmp L ->
  sorted cmp (below cmp k L) /\ sorted cmp (above cmp k L) /\
  forall x y, x ∈ below cmp k L -> y ∈ above cmp k L -> cmp x.1 y.1 < 0.
Proof.
  intros Hs. destruct (sorted_split k L Hs) as [E1 _]. rewrite E1 in Hs. apply sorted_app in Hs as (S1 & S2 & H).
  apply sorted_app in S2 as (_ & S2 & _). split; [done|]. split; [done|]. intros x y Hx Hy. apply H; [done|].
  apply elem_of_app. by right.
Qed.

Lemma sorted_remove k L : sorted cmp L -> sorted cmp (below cmp k L ++ above cmp k L).
Proof. intros Hs. apply sorted_app. by apply sorted_part. Qed.

Lemma sorted_add k a L : sorted cmp L -> sorted cmp (below cmp k L ++ (k, a) :: above cmp k L).
Proof.
  intros Hs. destruct (sorted_part k L Hs) as (S1 & S2 & H). apply sorted_app. split; [done|]. split.
  - constructor; [done|]. apply Forall_forall. intros x [Hx _]%list_elem_of_filter. exact Hx.
  - intros x y Hx [->|Hy]%elem_of_cons; [|by apply H]. cbn [fst].
    apply list_elem_of_filter in Hx as [Hx _]. by apply (cmp_sym (cmp := cmp)) in Hx.
Qed.

(** An entry is at its own key. *)
Lemma at_key_elem k a L : (k, a) ∈ L -> at_key cmp k L <> [].
Proof.
  intros H E1. assert ((k, a) ∈ at_key cmp k L) as H2.
  { apply list_elem_of_filter. split; [|done]. cbn. by apply cmp_refl. }
  rewrite E1 in H2. by apply elem_of_nil in H2.
Qed.
End Split.

(** ** The free place *)

Section Add.
Context {K : Type} (cmp : K -> K -> Z) `{!TotalCmp cmp}.
Implicit Types (t l r m : @tree K) (s : rbtree K) (ctx : list (@frame K)) (p : ptr) (k : K).

(** The last comparison tells on which side the hole is. *)
Definition hole_side ctx (r : Z) : Prop :=
  match ctx with
  | [] => True
  | FL _ _ _ _ :: _ => r < 0
  | FR _ _ _ _ :: _ => 0 <= r
  end.

(** The context of the free place for [k] that the walk reaches in [t]. *)
Definition place k t ctx ctx' : Prop :=
  fill ctx' E = fill ctx t /\ before ctx' = before ctx ++ below cmp k (inorder t) /\
  after ctx' = above cmp k (inorder t) ++ after ctx.

Lemma insert_find_found k t : forall fuel p parent (v : Z) s, sorted cmp (inorder t) -> tree_rep s.(nodes) p t ->
  (height t < fuel)%nat -> at_key cmp k (inorder t) <> [] ->
  insert_find cmp fuel k (root_of t) parent v s = Ok (None, s).
Proof.
  induction t as [|c l IHl a ka r IHr]; intros [|fuel] p parent v s Hs T Hf Hk; [lia|done|lia|].
  cbn [height] in Hf. destruct T as (Ha & Hl & Hr). cbn [inorder] in Hs, Hk.
  destruct (sorted_mid cmp _ _ _ _ Hs) as (Sl & Sr & Hgt & Hlt).
  cbn [root_of insert_find]. rewrite (run_get_key _ _ _ _ Ha). cbn [key].
  destruct (part_app cmp k (inorder l) ((ka, a) :: inorder r)) as (_ & E1 & _). rewrite E1 in Hk.
  destruct (part_cons cmp k (ka, a) (inorder r)) as (_ & E5 & _). rewrite E5 in Hk. cbn [fst] in Hk.
  destruct (Z.eqb_spec (cmp k ka) 0) as [E2|E2]; [done|]. rewrite decide_False in Hk by done.
  destruct (Z.ltb_spec (cmp k ka) 0) as [E3|E3].
  - rd Ha. apply (IHl _ (Some a)); [done|done|lia|].
    destruct (part_above cmp k (inorder r)) as (_ & E4 & _); [apply Hgt; lia|]. by rewrite E4, app_nil_r in Hk.
  - rd Ha. apply (IHr _ (Some a)); [done|done|lia|].
    destruct (part_below cmp k (inorder l)) as (_ & E4 & _); [apply Hlt; lia|]. by rewrite E4 in Hk.
Qed.

Lemma insert_find_free k t : forall fuel ctx (v : Z) s, sorted cmp (inorder t) -> tree_rep s.(nodes) (up None ctx) t ->
  (height t < fuel)%nat -> at_key cmp k (inorder t) = [] -> hole_side ctx v ->
  exists ctx' (r' : Z), insert_find cmp fuel k (root_of t) (up None ctx) v s = Ok (Some (up None ctx', r'), s) /\
    place k t ctx ctx' /\ hole_side ctx' r'.
Proof.
  induction t as [|c l IHl a ka r IHr]; intros [|fuel] ctx v s Hs T Hf Hk Hv; [lia| |lia|].
  { exists ctx, v. split; [done|]. split; [|done]. split; [done|]. by rewrite app_nil_r. }
  cbn [height] in Hf. destruct T as (Ha & Hl & Hr). cbn [inorder] in Hs, Hk.
  destruct (sorted_mid cmp _ _ _ _ Hs) as (Sl & Sr & Hgt & Hlt).
  cbn [root_of insert_find]. rewrite (run_get_key _ _ _ _ Ha). cbn [key].
  destruct (part_app cmp k (inorder l) ((ka, a) :: inorder r)) as (E1 & E2 & E3). rewrite E2 in Hk.
  apply app_eq_nil in Hk as [Hkl Hk]. destruct (part_cons cmp k (ka, a) (inorder r)) as (B1 & B2 & B3).
  rewrite B2 in Hk. cbn [fst] in Hk, B1, B3.
  destruct (Z.eqb_spec (cmp k ka) 0) as [E4|E4]; [by rewrite decide_True in Hk|]. rewrite decide_False in Hk by done.
  unfold place. cbn [inorder]. rewrite E1, E3.
  destruct (Z.ltb_spec (cmp k ka) 0) as [E5|E5].
  - rd Ha. destruct (IHl fuel (FL c a ka r :: ctx) (cmp k ka) s) as (ctx' & r' & ER & (P1 & P2 & P3) & Hr');
      [done|done|lia|done|done|]. exists ctx', r'. split; [exact ER|]. split; [|done]. split; [done|].
    destruct (part_above cmp k ((ka, a) :: inorder r)) as (-> & _ & ->); [constructor; [done|apply Hgt; lia]|].
    rewrite P2, P3. cbn [before after]. by rewrite app_nil_r, <- app_assoc.
  - rd Ha. destruct (IHr fuel (FR c l a ka :: ctx) (cmp k ka) s) as (ctx' & r' & ER & (P1 & P2 & P3) & Hr');
      [done|done|lia|done|cbn; lia|]. exists ctx', r'. split; [exact ER|]. split; [|done]. split; [done|].
    destruct (part_below cmp k (inorder l)) as (-> & _ & ->); [apply Hlt; lia|].
    rewrite B1, B3, decide_True, decide_False by lia.
    rewrite P2, P3. cbn [before after]. by rewrite <- !app_assoc.
Qed.

(** ** The link *)

Lemma run_put_insert f a n s : s.(nodes) !! a = Some n ->
  put f (Some a) s = Ok (tt, with_nodes (<[a := f n]> s.(nodes)) s).
Proof. intros H. unfold put. by rewrite H. Qed.

Definition leaf_at ctx a k s : rbtree K :=
  mk_rbtree (rehole ctx (Some a) (<[a := mk_node (up None ctx) None None k RED]> s.(nodes)))
    (match ctx with [] => Some a | _ => s.(root) end) (u64 (s.(count) + 1)).

Lemma up_some p ctx : ctx <> [] -> up p ctx <> None.
Proof. by destruct ctx. Qed.

Lemma link_run {B} (F : ST (rbtree K) B) s ctx a n (v : Z) : rep s (fill ctx E) -> a ∉ addrs (fill ctx E) -> s.(nodes) !! a = Some n ->
  hole_side ctx v ->
  (set_parent (Some a) (up None ctx);; set_right (Some a) None;; set_left (Some a) None;;
   set_color (Some a) RED;; set_count (fun c => u64 (c + 1));;
   (if decide (up None ctx <> None) then
      if v <? 0 then set_left (up None ctx) (Some a) else set_right (up None ctx) (Some a)
    else set_root (Some a));; F) s = F (leaf_at ctx a n.(key) s).
Proof.
  intros R Ha Hn Hv.
  erewrite st_bind_ok by (by apply run_put_insert). cbn [with_nodes nodes].
  erewrite st_bind_ok by (apply run_put_insert; apply lookup_insert_eq). cbn [with_nodes nodes].
  erewrite st_bind_ok by (apply run_put_insert; apply lookup_insert_eq). cbn [with_nodes nodes].
  erewrite st_bind_ok by (apply run_put_insert; apply lookup_insert_eq). cbn [with_nodes nodes].
  erewrite st_bind_ok by reflexivity. rewrite !insert_insert_eq. cbn [to_parent to_right to_left to_color parent left_ right_ key color].
  unfold leaf_at. cbn [with_nodes nodes root count].
  destruct (rep_focus _ _ _ R) as (C & _ & _). rewrite addrs_fill, app_nil_r in Ha.
  destruct ctx as [|[c q k r|c l q k] ctx]; [done| |]; cbn [up frame_addr hole_side ctx_rep ctx_addrs rehole] in *;
    destruct C as (Hq & _); assert (q <> a) by set_solver; rewrite decide_True by done.
  - rewrite (proj2 (Z.ltb_lt v 0)) by done. apply st_bind_ok with (a := tt). apply run_put with (n := mk_node (up None ctx) None (root_of r) k c).
    cbn. by rewrite lookup_insert_ne.
  - rewrite (proj2 (Z.ltb_ge v 0)) by done. apply st_bind_ok with (a := tt). apply run_put with (n := mk_node (up None ctx) (root_of l) None k c).
    cbn. by rewrite lookup_insert_ne.
Qed.

Lemma link_rep s ctx a k : rep s (fill ctx E) -> a ∉ addrs (fill ctx E) ->
  rep (leaf_at ctx a k s) (fill ctx (N RED E a k E)).
Proof.
  intros R Ha. destruct (rep_focus _ _ _ R) as (C & _ & ND). rewrite addrs_fill, app_nil_r in Ha.
  cbn [addrs] in ND. rewrite app_nil_r in ND. split.
  - apply fill_rep. split.
    + apply (ctx_rep_rehole _ _ None); [done|]. cbn. eapply ctx_rep_ext; [|exact C].
      intros x Hx. rewrite lookup_insert_ne; [done|]. by intros ->.
    + cbn. split; [|done]. by rewrite rehole_ne, lookup_insert_eq.
  - cbn. rewrite root_fill. destruct ctx as [|f ctx]; [done|]. rewrite (rep_root _ _ R), root_fill.
    destruct (last (f :: ctx)) eqn:El; [done|]. by apply last_None in El.
  - rewrite addrs_fill. cbn [addrs app]. apply NoDup_app. split; [done|]. split; [set_solver|apply NoDup_singleton].
Qed.

Lemma link_frame s ctx a n x : rep s (fill ctx E) -> s.(nodes) !! a = Some n ->
  (x ∉ a :: addrs (fill ctx E) -> (leaf_at ctx a n.(key) s).(nodes) !! x = s.(nodes) !! x) /\
  key <$> (leaf_at ctx a n.(key) s).(nodes) !! x = key <$> s.(nodes) !! x.
Proof.
  intros R Hn. cbn. split.
  - rewrite addrs_fill, app_nil_r. intros Hx. rewrite rehole_ne by set_solver. rewrite lookup_insert_ne; set_solver.
  - rewrite key_rehole. destruct (decide (x = a)) as [->|]; [by rewrite lookup_insert_eq, Hn|by rewrite lookup_insert_ne].
Qed.

(** ** The balance of a part of a balanced tree *)

Lemma fill_bal_inv ctx : forall t n, balanced (fill ctx t) n -> colour_of (fill ctx t) = BLACK ->
  exists n' b, ctx_bal ctx n' b /\ balanced t n' /\ (b = false -> colour_of t = BLACK).
Proof.
  induction ctx as [|f ctx IH]; intros t n Ht Hb; cbn [fill] in *.
  - exists n, false. split; [constructor|]. done.
  - destruct (IH _ _ Ht Hb) as (n' & b & Hc & Hf & Hcol).
    destruct (frame_colour f) eqn:Ef.
    + assert (exists m : nat, n' = S m /\ balanced t m /\ balanced (sibling f) m) as (m & -> & Htm & Hsm).
      { destruct f; cbn in *; subst; apply balanced_inv in Hf as (m & ? & ? & ?); eauto. }
      exists m, true. split; [by econstructor|]. done.
    + assert (balanced t n' /\ balanced (sibling f) n' /\ colour_of t = BLACK /\ colour_of (sibling f) = BLACK)
        as (Htm & Hsm & Hbt & Hbs) by (destruct f; cbn in *; subst; apply balanced_inv in Hf; tauto).
      destruct b; [|destruct f; cbn in *; subst; by specialize (Hcol eq_refl)].
      exists n', false. split; [by constructor|]. done.
Qed.

(** ** rbtree_insert *)

Record added s (L : list (K * addr)) s' : Prop := {
  ad_count : s'.(count) = u64 (s.(count) + 1);
  ad_other : forall x, x ∉ L.*2 -> s'.(nodes) !! x = s.(nodes) !! x;
  ad_keys : forall x, key <$> s'.(nodes) !! x = key <$> s.(nodes) !! x;
}.

Lemma insert_dup s t a n : rep s t -> sorted cmp (inorder t) -> s.(nodes) !! a = Some n ->
  at_key cmp n.(key) (inorder t) <> [] -> rbtree_insert cmp (Some a) s = Ok (None, s).
Proof.
  intros R Hs Hn Hk. unfold rbtree_insert. unfold get_root at 1. erewrite st_bind_ok by reflexivity.
  unfold walk_fuel at 1. erewrite st_bind_ok by reflexivity. rewrite (run_get_key _ _ _ _ Hn).
  pose proof (rep_size _ _ R). pose proof (height_addrs t). rewrite (rep_root _ _ R).
  by erewrite st_bind_ok by (eapply insert_find_found; [done|apply R|lia|done]).
Qed.

Lemma insert_new s t a n : rep s t -> rb t -> sorted cmp (inorder t) -> s.(nodes) !! a = Some n ->
  at_key cmp n.(key) (inorder t) = [] -> a ∉ addrs t ->
  exists s' t', rbtree_insert cmp (Some a) s = Ok (Some a, s') /\ rep s' t' /\ rb t' /\
    inorder t' = below cmp n.(key) (inorder t) ++ (n.(key), a) :: above cmp n.(key) (inorder t) /\
    added s (inorder t') s'.
Proof.
  intros R [Hbl [bh Hbal]] Hs Hn Hk Ha. pose proof (rep_size _ _ R). pose proof (height_addrs t).
  destruct (insert_find_free n.(key) t (S (size s.(nodes))) [] 0 s) as (ctx & r & Ef & (P1 & P2 & P3) & Hv);
    [done|apply R|lia|done|done|]. cbn [fill before after app] in P1, P2, P3. rewrite app_nil_r in P3.
  rewrite <- P1 in R, Ha, Hbal, Hbl. destruct (fill_bal_inv _ _ _ Hbal Hbl) as (n' & b & Hc & HE & _).
  pose proof (link_rep s ctx a n.(key) R Ha) as R1.
  destruct (insert_fixup_does (leaf_at ctx a n.(key) s) ctx n' b a n.(key) Hc) as (t' & (s' & Ex & R' & Ei & V) & Hrb);
    [by constructor|done|].
  exists s', t'. split; [|split; [done|split; [done|split]]].
  - unfold rbtree_insert. unfold get_root at 1. erewrite st_bind_ok by reflexivity.
    unfold walk_fuel at 1. erewrite st_bind_ok by reflexivity. rewrite (run_get_key _ _ _ _ Hn).
    rewrite (rep_root _ _ R), P1. erewrite st_bind_ok by exact Ef.
    cbn [fst snd]. rewrite (link_run _ s ctx a n r R Ha Hn Hv). by erewrite st_bind_ok by exact Ex.
  - rewrite Ei, inorder_fill, P2, P3. done.
  - destruct V as [V1 V2 V3]. split; [by rewrite V1|..].
    + intros x Hx. rewrite Ei in Hx. rewrite V2 by done. destruct (link_frame s ctx a n x R Hn) as [H1 _]. apply H1.
      rewrite <- addrs_inorder, addrs_fill in Hx. rewrite addrs_fill. cbn [addrs app] in *. set_solver.
    + intros x. rewrite V3. by destruct (link_frame s ctx a n x R Hn).
Qed.
End Add.
