(* ===== verification/RbtreeFixup.v ===== *)
(** * rbtree_delete_fixup restores the balance

    A tree that is one black node short sits in a context; every round either
    moves the shortage one node up or ends it. *)

From S2P Require Import Prelude Rbtree RbtreeTree RbtreeInsert RbtreeAdd.

Section Fixup.
Context {K : Type}.
Implicit Types (t l r m : @tree K) (s : rbtree K) (ctx : list (@frame K)) (f : @frame K) (p : ptr).

Abbreviation R := (ST (rbtree K)).

(** The other child of the node above the hole. *)
Definition sib ctx : ptr := match ctx with [] => None | f :: _ => root_of (sibling f) end.

Definition left_of t : @tree K := match t with E => E | N _ l _ _ _ => l end.
Definition right_of t : @tree K := match t with E => E | N _ _ _ _ r => r end.
Definition is_black t : bool := bool_decide (colour_of t = BLACK).

Lemma sibling_rep s f ctx t : rep s (fill (f :: ctx) t) -> tree_rep s.(nodes) (Some (frame_addr f)) (sibling f).
Proof. intros R. destruct (rep_focus _ _ _ R) as (C & _ & _). by destruct f; destruct C as (_ & ? & _). Qed.

(** The sibling is not confused with the child. *)
Lemma sibling_ne s f ctx t : rep s (fill (f :: ctx) t) -> sibling f <> E -> root_of (sibling f) <> root_of t.
Proof.
  intros R Hs. destruct t as [|c l a k r]; [by destruct (sibling f)|]. by eapply focus_ne.
Qed.

Lemma the_sibling_run s ctx t : rep s (fill ctx t) ->
  match ctx with [] => True | f :: _ => sibling f <> E end ->
  the_sibling (root_of t) (up None ctx) s = Ok (sib ctx, s).
Proof.
  intros R Hs. unfold the_sibling. destruct ctx as [|f ctx].
  - by destruct t.
  - pose proof (rep_frame _ _ _ _ R) as Hf. pose proof (sibling_ne _ _ _ _ R Hs). cbn [up sib].
    rd Hf. destruct f as [c a k r|c l a k]; cbn [right_ sibling frame_addr] in *.
    + rewrite decide_False by done. by unfold get_right, get; rewrite Hf.
    + rewrite decide_True by done. by unfold get_left, get; rewrite Hf.
Qed.

Lemma the_sibling_ok {B} (F : ptr -> R B) s ctx t : rep s (fill ctx t) ->
  match ctx with [] => True | f :: _ => sibling f <> E end ->
  mbind F (the_sibling (root_of t) (up None ctx)) s = F (sib ctx) s.
Proof. intros R Hs. apply st_bind_ok. by apply the_sibling_run. Qed.

Lemma does_the_sibling s ctx t : rep s (fill ctx t) ->
  match ctx with [] => True | f :: _ => sibling f <> E end ->
  does (the_sibling (root_of t) (up None ctx)) s (sib ctx) (fill ctx t) (fill ctx t).
Proof. intros R Hs. apply (does_eq _ (mret (sib ctx))); [by apply the_sibling_run|by apply does_ret]. Qed.

(** Reading a child of a tree, the empty one included. *)
Lemma run_left {B} (F : ptr -> R B) s p t : tree_rep s.(nodes) p t ->
  mbind F (get_left (root_of t)) s = F (root_of (left_of t)) s.
Proof. destruct t as [|c l a k r]; [done|]. intros (H & _). cbn [root_of]. by rd H. Qed.

Lemma run_right {B} (F : ptr -> R B) s p t : tree_rep s.(nodes) p t ->
  mbind F (get_right (root_of t)) s = F (root_of (right_of t)) s.
Proof. destruct t as [|c l a k r]; [done|]. intros (H & _). cbn [root_of]. by rd H. Qed.

Lemma left_rep s p t : tree_rep s.(nodes) p t -> tree_rep s.(nodes) (root_of t) (left_of t).
Proof. destruct t; [done|]. by intros (_ & ? & _). Qed.

Lemma right_rep s p t : tree_rep s.(nodes) p t -> tree_rep s.(nodes) (root_of t) (right_of t).
Proof. destruct t; [done|]. by intros (_ & _ & ?). Qed.

Lemma all_black_ok {B} (F : bool -> R B) c s f ctx t : rep s (fill (f :: ctx) t) ->
  mbind F (all_black c (Some (frame_addr f)) (root_of (sibling f))) s
  = F (bool_decide (frame_colour f = c) && is_black (sibling f) && is_black (left_of (sibling f))
       && is_black (right_of (sibling f))) s.
Proof.
  intros R. apply st_bind_ok. unfold all_black. destruct (frame_parent _ _ _ _ R) as (n & Hn & _ & Ec).
  pose proof (sibling_rep _ _ _ _ R) as S. rd Hn. rewrite Ec.
  destruct (bool_decide (frame_colour f = c)); [|done]. cbn [negb andb].
  rewrite (run_get_color _ _ _ _ S). fold (is_black (sibling f)). destruct (is_black (sibling f)); [|done]. cbn [negb andb].
  rewrite (run_left _ _ _ _ S), (run_get_color _ _ _ _ (left_rep _ _ _ S)). fold (is_black (left_of (sibling f))).
  destruct (is_black (left_of (sibling f))); [|done]. cbn [negb andb].
  by rewrite (run_right _ _ _ _ S), (run_get_color _ _ _ _ (right_rep _ _ _ S)).
Qed.

Lemma one_red_ok {B} (F : bool -> R B) s p t : tree_rep s.(nodes) p t ->
  mbind F (one_red (root_of t) get_left get_right) s
  = F (is_black t && negb (is_black (left_of t)) && is_black (right_of t)) s /\
  mbind F (one_red (root_of t) get_right get_left) s
  = F (is_black t && negb (is_black (right_of t)) && is_black (left_of t)) s.
Proof.
  intros S. assert (forall c, bool_decide (c = RED) = negb (bool_decide (c = BLACK))) as Hc by (by intros []).
  split; apply st_bind_ok; unfold one_red; rewrite (run_get_color _ _ _ _ S); fold (is_black t);
    (destruct (is_black t); [|done]); cbn [negb andb].
  - rewrite (run_left _ _ _ _ S), (run_get_color _ _ _ _ (left_rep _ _ _ S)), Hc. fold (is_black (left_of t)).
    destruct (is_black (left_of t)); [done|]. cbn [negb andb].
    by rewrite (run_right _ _ _ _ S), (run_get_color _ _ _ _ (right_rep _ _ _ S)).
  - rewrite (run_right _ _ _ _ S), (run_get_color _ _ _ _ (right_rep _ _ _ S)), Hc. fold (is_black (right_of t)).
    destruct (is_black (right_of t)); [done|]. cbn [negb andb].
    by rewrite (run_left _ _ _ _ S), (run_get_color _ _ _ _ (left_rep _ _ _ S)).
Qed.

(** ** The shortage *)

(** [t] in the context has one black node less than its sibling. *)
Record short ctx t n b : Prop := {
  sh_ctx : ctx_bal ctx (S n) b;
  sh_bal : balanced t n;
  sh_black : colour_of t = BLACK;
}.

Lemma balanced_S_node t n : balanced t (S n) -> t <> E.
Proof. intros H ->. inversion H. Qed.

Lemma short_sibling f ctx t n b : short (f :: ctx) t n b -> balanced (sibling f) (S n) /\ sibling f <> E.
Proof.
  intros [Hc _ _]. apply ctx_bal_inv in Hc. assert (balanced (sibling f) (S n)) by (destruct b; tauto).
  split; [done|]. by eapply balanced_S_node.
Qed.

(** Where the loop stops: the sibling is black, and the node above is red or a
    nephew is. *)
Record stopped ctx t n b f ctx' : Prop := {
  st_ctx : ctx = f :: ctx';
  st_short : short ctx t n b;
  st_sib : colour_of (sibling f) = BLACK;
  st_red : frame_colour f = RED \/ colour_of (left_of (sibling f)) = RED \/ colour_of (right_of (sibling f)) = RED;
}.

Lemma is_black_spec t : is_black t = true <-> colour_of t = BLACK.
Proof. apply bool_decide_eq_true. Qed.

Lemma is_black_false t : is_black t = false <-> colour_of t = RED.
Proof. unfold is_black. by destruct (colour_of t). Qed.

(** ** Running code whose result depends on the tree *)

Definition does_ex {A} (m : R A) s t (P : A -> @tree K -> Prop) : Prop :=
  exists v t', does m s v t t' /\ P v t'.

Lemma dx_bind {A B} (m : R A) (F : A -> R B) s v t t1 P :
  does m s v t t1 -> (forall s1, rep s1 t1 -> does_ex (F v) s1 t1 P) -> does_ex (mbind F m) s t P.
Proof.
  intros (s1 & E1 & R1 & I1 & V1) H. destruct (H s1 R1) as (w & t' & (s2 & E2 & R2 & I2 & V2) & HP).
  exists w, t'. split; [|done]. exists s2. rewrite (st_bind_ok _ _ _ _ _ E1). split; [done|]. split; [done|].
  split; [congruence|]. rewrite I1 in V2. by etrans.
Qed.

Lemma dx_eq {A} (m m' : R A) s t P : m s = m' s -> does_ex m' s t P -> does_ex m s t P.
Proof. intros E1 (v & t' & D & HP). exists v, t'. split; [by eapply does_eq|done]. Qed.

Lemma dx_ret {A} (v : A) s t (P : A -> @tree K -> Prop) : rep s t -> P v t -> does_ex (mret v) s t P.
Proof. intros R HP. exists v, t. split; [by apply does_ret|done]. Qed.

Lemma dx_does {A} (m : R A) s v t t' P : does m s v t t' -> P v t' -> does_ex m s t P.
Proof. by exists v, t'. Qed.

(** Painting a sibling. *)
Definition with_sibling f m : @frame K :=
  match f with FL c a k _ => FL c a k m | FR c _ a k => FR c m a k end.

Definition painted c t : @tree K := match t with E => E | N _ l a k r => N c l a k r end.

Lemma does_color_sibling s f ctx t c : rep s (fill (f :: ctx) t) -> sibling f <> E ->
  does (set_color (root_of (sibling f)) c) s tt (fill (f :: ctx) t)
    (fill (with_sibling f (painted c (sibling f)) :: ctx) t).
Proof.
  intros R Hs. destruct f as [fc a k m|fc m a k]; cbn [sibling with_sibling] in *;
    destruct m as [|mc ml x kx mr]; try done; cbn [root_of painted].
  - by apply (does_color s (FR fc t a k :: ctx) mc ml x kx mr c).
  - by apply (does_color s (FL fc a k t :: ctx) mc ml x kx mr c).
Qed.

(** The rotation that brings the sibling up. *)
Definition rotate_at (child parent : ptr) : R unit :=
  r ← get_right parent; if decide (r = child) then rbtree_rotate_right parent else rbtree_rotate_left parent.

(** The frames above the child after it: the old parent, and the sibling. *)
Definition lifted f m : list (@frame K) :=
  match f, m with
  | FL c a k _, N mc ml x kx mr => [FL c a k ml; FL mc x kx mr]
  | FR c _ a k, N mc ml x kx mr => [FR c mr a k; FR mc ml x kx]
  | _, E => []
  end.

Lemma does_rotate_at s f ctx t : rep s (fill (f :: ctx) t) -> sibling f <> E ->
  does (rotate_at (root_of t) (Some (frame_addr f))) s tt (fill (f :: ctx) t) (fill (lifted f (sibling f) ++ ctx) t).
Proof.
  intros R Hs. pose proof (rep_frame _ _ _ _ R) as Hf. pose proof (sibling_ne _ _ _ _ R Hs) as Hne.
  unfold rotate_at. eapply does_get; [exact Hf|].
  destruct f as [fc a k m|fc m a k]; cbn [sibling frame_addr right_] in *; destruct m as [|mc ml x kx mr]; try done.
  - rewrite decide_False by done. by apply does_rotate_left.
  - rewrite decide_True by done. by apply does_rotate_right.
Qed.

(** ** A red sibling *)

Lemma red_sibling f ctx t n b : short (f :: ctx) t n b -> colour_of (sibling f) = RED ->
  exists f' g, lifted (paint (with_sibling f (painted BLACK (sibling f))) RED) (painted BLACK (sibling f)) = [f'; g] /\
    frame_addr f' = frame_addr f /\ frame_colour f' = RED /\ stopped (f' :: g :: ctx) t n false f' (g :: ctx).
Proof.
  intros Hsh Hr. destruct Hsh as [Hc Ht Hb]. apply ctx_bal_inv in Hc.
  destruct b; [|destruct Hc as (_ & _ & Hbs & _); congruence]. destruct Hc as (Hf & Hs & b' & Hc).
  destruct f as [fc a k m|fc m a k]; cbn [sibling frame_colour] in *; subst fc;
    destruct m as [|mc ml x kx mr]; try done; cbn in Hr; subst mc;
    apply balanced_inv in Hs as (Hml & Hmr & Bml & Bmr); cbn [with_sibling paint painted lifted];
    eexists _, _; (split; [reflexivity|]); (split; [done|]); (split; [done|]); split; try done; try (by left);
    split; try done; apply cb_R; try done; by eapply cb_B.
Qed.

(** ** The loop *)

Definition loop_post (v : unit + ptr * ptr * ptr) t' : Prop :=
  match v with
  | inl _ => rb t'
  | inr x => exists ctx t n b f ctx', x = (root_of t, up None ctx, sib ctx) /\ t' = fill ctx t /\
      stopped ctx t n b f ctx'
  end.

(** Bringing a black sibling about. *)
Lemma make_black_does s f ctx t n b : short (f :: ctx) t n b -> rep s (fill (f :: ctx) t) ->
  exists f' ctx1 b', does
    (sc ← get_color (root_of (sibling f));
     if decide (sc = RED) then
       set_color (Some (frame_addr f)) RED;; set_color (root_of (sibling f)) BLACK;;
       r ← get_right (Some (frame_addr f));
       (if decide (r = root_of t) then rbtree_rotate_right (Some (frame_addr f))
        else rbtree_rotate_left (Some (frame_addr f)));;
       the_sibling (root_of t) (Some (frame_addr f))
     else mret (root_of (sibling f))) s (root_of (sibling f')) (fill (f :: ctx) t) (fill (f' :: ctx1) t) /\
    frame_addr f' = frame_addr f /\ short (f' :: ctx1) t n b' /\ colour_of (sibling f') = BLACK /\
    (frame_colour f' = RED \/ (f' = f /\ ctx1 = ctx)).
Proof.
  intros Hsh R. destruct (short_sibling _ _ _ _ _ Hsh) as [_ Hne].
  pose proof (sibling_rep _ _ _ _ R) as S. destruct (colour_of (sibling f)) eqn:Ec.
  - exists f, ctx, b. split; [|by eauto 6]. eapply does_get_color; [exact S|]. rewrite Ec, decide_False by done.
    by apply does_ret.
  - destruct (red_sibling f ctx t n b Hsh Ec) as (f' & g & El & Ea & Ef' & [_ Hs' Hb' _]).
    exists f', (g :: ctx), false. split.
    2: { split; [done|]. split; [done|]. split; [done|]. by left. }
    eapply does_get_color; [exact S|]. rewrite Ec, decide_True by done.
    eapply does_bind; [by apply (does_color_frame s ctx f t RED)|]. intros s1 R1.
    set (f2 := paint (with_sibling f (painted BLACK (sibling f))) RED) in *.
    assert (does (set_color (root_of (sibling f)) BLACK) s1 tt (fill (paint f RED :: ctx) t) (fill (f2 :: ctx) t)) as D1.
    { pose proof (does_color_sibling s1 (paint f RED) ctx t BLACK R1) as D1.
      destruct f; cbn [paint sibling with_sibling] in *; by apply D1. }
    eapply does_bind; [exact D1|]. intros s2 R2.
    assert (sibling f2 = painted BLACK (sibling f)) as Es2 by (by destruct f).
    assert (frame_addr f2 = frame_addr f) as Ef2 by (by destruct f).
    pose proof (does_rotate_at s2 f2 ctx t R2) as D. rewrite Ef2, Es2, El in D.
    eapply does_eq; [symmetry; apply (st_bind_assoc (get_right (Some (frame_addr f))))|].
    eapply does_bind; [apply D; by destruct (sibling f)|]. intros s3 R3. cbn [app] in R3 |- *.
    rewrite <- Ea. apply (does_the_sibling s3 (f' :: g :: ctx)); [done|]. by apply (short_sibling _ _ _ _ _ Hs').
Qed.

Lemma move_up f ctx t n b : short (f :: ctx) t n b -> frame_colour f = BLACK ->
  is_black (sibling f) && is_black (left_of (sibling f)) && is_black (right_of (sibling f)) = true ->
  exists b', short ctx (fill1 (with_sibling f (painted RED (sibling f))) t) (S n) b'.
Proof.
  intros Hsh Hf [[B1 B2]%andb_true_iff B3]%andb_true_iff. apply is_black_spec in B1, B2, B3.
  destruct (short_sibling _ _ _ _ _ Hsh) as [Hs Hne]. destruct Hsh as [Hc Ht Hb].
  apply ctx_bal_inv in Hc. destruct b; [|destruct Hc; congruence]. destruct Hc as (_ & _ & b' & Hc). exists b'.
  destruct f as [fc a k m|fc m a k]; cbn [sibling frame_colour] in *; subst fc;
    destruct m as [|mc ml x kx mr]; try done; cbn [colour_of left_of right_of] in *; subst mc;
    apply balanced_inv in Hs as (n' & [= <-] & Hml & Hmr); (split; [done| |done]);
    cbn [with_sibling painted fill1]; constructor; try done; by constructor.
Qed.

Lemma delete_fixup_loop_does fuel : forall s ctx t n b, short ctx t n b -> rep s (fill ctx t) ->
  (length ctx <= fuel)%nat ->
  does_ex (delete_fixup_loop fuel (root_of t) (up None ctx) (sib ctx)) s (fill ctx t) loop_post.
Proof.
  induction fuel as [fuel IH] using lt_wf_ind. intros s ctx t n b Hsh R Hf. destruct ctx as [|f ctx].
  { destruct fuel; (apply dx_ret; [done|]); destruct Hsh as [_ H1 H2]; (split; [done|]); by exists n. }
  destruct fuel as [|fuel]; [cbn in Hf; lia|]. cbn [delete_fixup_loop up sib]. rewrite decide_False by done.
  destruct (make_black_does s f ctx t n b Hsh R) as (f' & ctx1 & b' & D & Ea & Hsh' & Hb' & Hor).
  eapply dx_eq; [symmetry; apply (st_bind_assoc (get_color (root_of (sibling f))))|].
  eapply dx_bind; [exact D|]. clear D s R Hsh. intros s R. rewrite <- Ea.
  eapply dx_eq; [exact (all_black_ok _ BLACK s f' ctx1 t R)|].
  destruct (short_sibling _ _ _ _ _ Hsh') as [_ Hne].
  destruct (_ && _ && _ && _) eqn:Eab.
  - rewrite <- !andb_assoc in Eab. apply andb_true_iff in Eab as [Ef Eab]. apply bool_decide_eq_true in Ef.
    rewrite andb_assoc in Eab. destruct Hor as [?|[-> ->]]; [congruence|].
    destruct (move_up _ _ _ _ _ Hsh' Ef Eab) as (b2 & Hsh2).
    eapply dx_bind.
    { rewrite decide_True by (by destruct (sibling f)). by apply does_color_sibling. }
    intros s1 R1. set (f1 := with_sibling _ _) in *.
    assert (root_of (fill1 f1 t) = Some (frame_addr f)) as E1 by (by destruct f).
    destruct (frame_parent s1 f1 ctx t R1) as (nf & Hnf & Ep & _).
    assert (frame_addr f1 = frame_addr f) as E2 by (by destruct f). rewrite E2 in Hnf.
    eapply dx_eq; [exact (run_get None parent _ _ _ _ Hnf)|]. rewrite Ep, <- E1.
    eapply dx_eq; [apply (the_sibling_ok _ s1 ctx (fill1 f1 t)); [exact R1|]|].
    { destruct ctx as [|g ctx]; [done|]. by apply (short_sibling _ _ _ _ _ Hsh2). }
    apply (IH fuel ltac:(lia) s1 ctx (fill1 f1 t) (S n) b2); [done|done|]. cbn in Hf. lia.
  - apply dx_ret; [done|]. exists (f' :: ctx1), t, n, b', f', ctx1. split; [done|]. split; [done|].
    split; [done|done|done|]. destruct Hor as [?|_]; [by left|].
    apply andb_false_iff in Eab as [Eab|Eab]; [|right; right; by apply is_black_false].
    apply andb_false_iff in Eab as [Eab|Eab]; [|right; left; by apply is_black_false].
    left. rewrite (proj2 (is_black_spec (sibling f')) Hb'), andb_true_r in Eab.
    apply bool_decide_eq_false in Eab. by destruct (frame_colour f').
Qed.

(** ** After the loop *)

(** The nephew on the far side of the child. *)
Definition far f : @tree K := match f with FL _ _ _ m => right_of m | FR _ m _ _ => left_of m end.

(** The sibling, one black node higher than the child, with its far child red. *)
Record ready f n : Prop := {
  rd_bal : balanced (sibling f) (S n);
  rd_black : colour_of (sibling f) = BLACK;
  rd_far : colour_of (far f) = RED;
}.

(** The code that makes the far nephew red, before the rest [F]. *)
Definition far_red {B} (child child_parent sibling : ptr) (F : ptr -> R B) : R B :=
  r ← get_right child_parent;
  t1 ← (if decide (r = child) then one_red sibling get_right get_left else mret false);
  sibling ← (if (t1 : bool) then
      set_color sibling RED;;
      sr ← get_right sibling;
      set_color sr BLACK;;
      rbtree_rotate_left sibling;;
      the_sibling child child_parent
    else
      l ← get_left child_parent;
      t2 ← (if decide (l = child) then one_red sibling get_left get_right else mret false);
      if (t2 : bool) then
        set_color sibling RED;;
        sl ← get_left sibling;
        set_color sl BLACK;;
        rbtree_rotate_right sibling;;
        the_sibling child child_parent
      else mret sibling);
  F sibling.

(** The same, for a child on the left and on the right. *)
Lemma far_red_left {B} (F : ptr -> R B) s c a k m ctx t n P : rep s (fill (FL c a k m :: ctx) t) ->
  balanced m (S n) -> colour_of m = BLACK -> colour_of (left_of m) = RED \/ colour_of (right_of m) = RED ->
  (forall s' m', rep s' (fill (FL c a k m' :: ctx) t) -> ready (FL c a k m') n ->
     does_ex (F (root_of m')) s' (fill (FL c a k m' :: ctx) t) P) ->
  does_ex (far_red (root_of t) (Some a) (root_of m) F) s (fill (FL c a k m :: ctx) t) P.
Proof.
  intros R Hm Hb Hor HF. pose proof (rep_frame _ _ _ _ R) as Ha. cbn [frame_addr] in Ha.
  destruct m as [|mc ml x kx mr]; [by apply balanced_S_node in Hm|]. cbn in Hb. subst mc. cbn [left_of right_of] in Hor.
  pose proof (sibling_ne _ _ _ _ R ltac:(done)) as Hne. cbn [sibling] in Hne.
  apply (dx_eq _ _ _ _ _ (run_get None right_ _ _ _ _ Ha)). cbn [right_]. rewrite decide_False by done.
  apply (dx_eq _ _ _ _ _ (st_ret false _ s)).
  destruct (decide (colour_of mr = RED)) as [Er|Er].
  - pose proof (sibling_rep _ _ _ _ R) as S. cbn [sibling frame_addr] in S.
    eapply dx_bind; [|intros s1 R1; by apply HF].
    eapply does_get; [exact Ha|]. cbn [left_]. rewrite decide_True by done.
    eapply does_eq; [apply (one_red_ok _ _ _ _ S)|]. cbn [left_of right_of].
    assert (is_black mr = false) as -> by (by apply is_black_false). rewrite andb_false_r. by apply does_ret.
  - assert (colour_of mr = BLACK) as Ebr by (by destruct (colour_of mr)).
    destruct Hor as [El|]; [|done]. destruct ml as [|lc p z kz q]; [done|]. cbn in El. subst lc.
    apply balanced_inv in Hm as (n' & [= <-] & Hml & Hmr). apply balanced_inv in Hml as (Hp & Hq & Bp & Bq).
    pose proof (sibling_rep _ _ _ _ R) as S. cbn [sibling frame_addr] in S.
    eapply dx_bind; [|intros s1 R1; apply (HF s1 (N BLACK p z kz (N RED q x kx mr)) R1);
      split; [constructor; [done|by constructor]|done|done]].
    eapply does_get; [exact Ha|]. cbn [left_]. rewrite decide_True by done.
    eapply does_eq; [apply (one_red_ok _ _ _ _ S)|]. cbn [left_of right_of].
    assert (is_black mr = true) as -> by (by apply is_black_spec). cbn [is_black colour_of bool_decide negb andb].
    eapply does_bind; [by apply (does_color s (FR c t a k :: ctx) BLACK (N RED p z kz q) x kx mr RED)|]. intros s1 R1.
    eapply does_get; [exact (rep_node s1 (FR c t a k :: ctx) _ _ _ _ _ R1)|]. cbn [left_ root_of].
    eapply does_bind; [by apply (does_color s1 (FL RED x kx mr :: FR c t a k :: ctx) RED p z kz q BLACK)|]. intros s2 R2.
    eapply does_bind; [by apply (does_rotate_right s2 (FR c t a k :: ctx) RED p x kx BLACK q z kz mr)|]. intros s3 R3.
    by apply (does_the_sibling s3 (FL c a k (N BLACK p z kz (N RED q x kx mr)) :: ctx)).
Qed.

Lemma far_red_right {B} (F : ptr -> R B) s c a k m ctx t n P : rep s (fill (FR c m a k :: ctx) t) ->
  balanced m (S n) -> colour_of m = BLACK -> colour_of (left_of m) = RED \/ colour_of (right_of m) = RED ->
  (forall s' m', rep s' (fill (FR c m' a k :: ctx) t) -> ready (FR c m' a k) n ->
     does_ex (F (root_of m')) s' (fill (FR c m' a k :: ctx) t) P) ->
  does_ex (far_red (root_of t) (Some a) (root_of m) F) s (fill (FR c m a k :: ctx) t) P.
Proof.
  intros R Hm Hb Hor HF. pose proof (rep_frame _ _ _ _ R) as Ha. cbn [frame_addr] in Ha.
  destruct m as [|mc ml x kx mr]; [by apply balanced_S_node in Hm|]. cbn in Hb. subst mc. cbn [left_of right_of] in Hor.
  pose proof (sibling_ne _ _ _ _ R ltac:(done)) as Hne. cbn [sibling] in Hne.
  pose proof (sibling_rep _ _ _ _ R) as S. cbn [sibling frame_addr] in S.
  apply (dx_eq _ _ _ _ _ (run_get None right_ _ _ _ _ Ha)). cbn [right_]. rewrite decide_True by done.
  eapply dx_eq; [apply (one_red_ok _ _ _ _ S)|]. cbn [left_of right_of].
  destruct (decide (colour_of ml = RED)) as [Er|Er].
  - eapply dx_bind; [|intros s1 R1; by apply HF].
    assert (is_black ml = false) as -> by (by apply is_black_false). rewrite andb_false_r.
    eapply does_get; [exact Ha|]. cbn [left_]. rewrite decide_False by done. by apply does_ret.
  - assert (colour_of ml = BLACK) as Ebl by (by destruct (colour_of ml)).
    destruct Hor as [|El]; [done|]. destruct mr as [|lc p z kz q]; [done|]. cbn in El. subst lc.
    apply balanced_inv in Hm as (n' & [= <-] & Hml & Hmr). apply balanced_inv in Hmr as (Hp & Hq & Bp & Bq).
    eapply dx_bind; [|intros s1 R1; apply (HF s1 (N BLACK (N RED ml x kx p) z kz q) R1);
      split; [constructor; [by constructor|done]|done|done]].
    assert (is_black ml = true) as -> by (by apply is_black_spec). cbn [is_black colour_of bool_decide negb andb].
    eapply does_bind; [by apply (does_color s (FL c a k t :: ctx) BLACK ml x kx (N RED p z kz q) RED)|]. intros s1 R1.
    eapply does_get; [exact (rep_node s1 (FL c a k t :: ctx) _ _ _ _ _ R1)|]. cbn [right_ root_of].
    eapply does_bind; [by apply (does_color s1 (FR RED ml x kx :: FL c a k t :: ctx) RED p z kz q BLACK)|]. intros s2 R2.
    eapply does_bind; [by apply (does_rotate_left s2 (FL c a k t :: ctx) RED ml x kx BLACK p z kz q)|]. intros s3 R3.
    by apply (does_the_sibling s3 (FR c (N BLACK (N RED ml x kx p) z kz q) a k :: ctx)).
Qed.

(** The last rotation. *)
Definition last_turn (child child_parent sibling : ptr) : R unit :=
  pc ← get_color child_parent;
  set_color sibling pc;;
  set_color child_parent BLACK;;
  r ← get_right child_parent;
  if decide (r = child) then
    sl ← get_left sibling;
    slc ← get_color sl;
    r_assert (bool_decide (slc = RED));;
    set_color sl BLACK;;
    rbtree_rotate_right child_parent
  else
    sr ← get_right sibling;
    src ← get_color sr;
    r_assert (bool_decide (src = RED));;
    set_color sr BLACK;;
    rbtree_rotate_left child_parent.

(** What fills the context in place of a tree that was not short. *)
Definition repaired f n t' : Prop :=
  (frame_colour f = BLACK -> balanced t' (S (S n)) /\ colour_of t' = BLACK) /\
  (frame_colour f = RED -> balanced t' (S n)).

Lemma repaired_rb f ctx t n b t' : short (f :: ctx) t n b -> repaired f n t' -> rb (fill ctx t').
Proof.
  intros [Hc _ _] [H1 H2]. apply ctx_bal_inv in Hc. destruct b.
  - destruct Hc as (Hf & _ & b' & Hc). destruct (H1 Hf). by eapply fill_rb.
  - destruct Hc as (Hf & _ & _ & Hc). specialize (H2 Hf). by eapply fill_rb.
Qed.

Lemma repaired_node c f n l x kx r : frame_colour f = c -> balanced l (S n) -> balanced r (S n) ->
  colour_of l = BLACK -> colour_of r = BLACK -> repaired f n (N c l x kx r).
Proof. intros Hf ? ? ? ?. split; rewrite Hf; intros ->; [split; [by constructor|done]|by constructor]. Qed.

Lemma last_turn_does s f ctx t n : rep s (fill (f :: ctx) t) -> ready f n -> balanced t n ->
  exists t', does (last_turn (root_of t) (Some (frame_addr f)) (root_of (sibling f))) s tt (fill (f :: ctx) t)
    (fill ctx t') /\ repaired f n t'.
Proof.
  intros R [Hm Hb Hfar] Ht. pose proof (rep_frame _ _ _ _ R) as Ha.
  pose proof (sibling_ne _ _ _ _ R (balanced_S_node _ _ Hm)) as Hne. unfold last_turn.
  destruct f as [c a k m|c m a k]; cbn [sibling far frame_addr] in *; (destruct m as [|mc ml x kx mr]; [done|]);
    cbn in Hb; subst mc; apply balanced_inv in Hm as (n' & [= <-] & Hml & Hmr); cbn [left_of right_of] in Hfar.
  - destruct mr as [|rc p z kz q]; [done|]. cbn in Hfar. subst rc. apply balanced_inv in Hmr as (? & ? & _).
    exists (N c (N BLACK t a k ml) x kx (N BLACK p z kz q)). split.
    + eapply does_get; [exact Ha|]. cbn [color root_of].
      eapply does_bind; [by apply (does_color s (FR c t a k :: ctx) BLACK ml x kx _ c)|]. intros s1 R1.
      eapply does_bind; [by apply (does_color s1 ctx c t a k _ BLACK)|]. intros s2 R2.
      eapply does_get; [exact (rep_node s2 ctx _ _ _ _ _ R2)|]. cbn [right_ root_of]. rewrite decide_False by done.
      eapply does_get; [exact (rep_node s2 (FR BLACK t a k :: ctx) _ _ _ _ _ R2)|]. cbn [right_ root_of].
      eapply does_get; [exact (rep_node s2 (FR c ml x kx :: FR BLACK t a k :: ctx) _ _ _ _ _ R2)|]. cbn [color].
      eapply does_bind; [by apply does_ret|]. intros s3 R3.
      eapply does_bind; [by apply (does_color s3 (FR c ml x kx :: FR BLACK t a k :: ctx) RED p z kz q BLACK)|].
      intros s4 R4. by apply (does_rotate_left s4 ctx BLACK t a k c ml x kx _).
    + apply repaired_node; try done; by constructor.
  - destruct ml as [|lc p z kz q]; [done|]. cbn in Hfar. subst lc. apply balanced_inv in Hml as (? & ? & _).
    exists (N c (N BLACK p z kz q) x kx (N BLACK mr a k t)). split.
    + eapply does_get; [exact Ha|]. cbn [color root_of].
      eapply does_bind; [by apply (does_color s (FL c a k t :: ctx) BLACK _ x kx mr c)|]. intros s1 R1.
      eapply does_bind; [by apply (does_color s1 ctx c _ a k t BLACK)|]. intros s2 R2.
      eapply does_get; [exact (rep_node s2 ctx _ _ _ _ _ R2)|]. cbn [right_]. rewrite decide_True by done.
      eapply does_get; [exact (rep_node s2 (FL BLACK a k t :: ctx) _ _ _ _ _ R2)|]. cbn [left_ root_of].
      eapply does_get; [exact (rep_node s2 (FL c x kx mr :: FL BLACK a k t :: ctx) _ _ _ _ _ R2)|]. cbn [color].
      eapply does_bind; [by apply does_ret|]. intros s3 R3.
      eapply does_bind; [by apply (does_color s3 (FL c x kx mr :: FL BLACK a k t :: ctx) RED p z kz q BLACK)|].
      intros s4 R4. by apply (does_rotate_right s4 ctx BLACK _ a k c mr x kx t).
    + apply repaired_node; try done; by constructor.
Qed.

(** A red parent of an all-black family: the parent takes the black. *)
Lemma recolour_repaired f ctx t n b : short (f :: ctx) t n b -> frame_colour f = RED ->
  is_black (sibling f) && is_black (left_of (sibling f)) && is_black (right_of (sibling f)) = true ->
  repaired f n (fill1 (paint (with_sibling f (painted RED (sibling f))) BLACK) t).
Proof.
  intros Hsh Hf [[B1 B2]%andb_true_iff B3]%andb_true_iff. apply is_black_spec in B1, B2, B3.
  destruct (short_sibling _ _ _ _ _ Hsh) as [Hs Hne]. destruct Hsh as [_ Ht _].
  split; [congruence|]. intros _.
  destruct f as [fc a k m|fc m a k]; cbn [sibling] in *; destruct m as [|mc ml x kx mr]; try done;
    cbn [colour_of left_of right_of] in *; subst mc; apply balanced_inv in Hs as (n' & [= <-] & Hml & Hmr);
    cbn [with_sibling painted paint fill1]; constructor; try done; by constructor.
Qed.

Lemma delete_fixup_end_does s ctx t n b f ctx' : stopped ctx t n b f ctx' -> rep s (fill ctx t) ->
  does_ex (delete_fixup_end (root_of t) (up None ctx) (sib ctx)) s (fill ctx t) (fun _ => rb).
Proof.
  intros [-> Hsh Hb Hred] R. destruct (short_sibling _ _ _ _ _ Hsh) as [Hs Hne].
  unfold delete_fixup_end. cbn [up sib]. eapply dx_eq; [exact (all_black_ok _ RED s f ctx' t R)|].
  destruct (_ && _ && _ && _) eqn:Eab.
  - rewrite <- !andb_assoc in Eab. apply andb_true_iff in Eab as [Ef Eab]. apply bool_decide_eq_true in Ef.
    rewrite andb_assoc in Eab. rewrite decide_True by (by destruct (sibling f)).
    eapply dx_bind; [by apply does_color_sibling|]. intros s1 R1. set (f1 := with_sibling _ _) in *.
    assert (frame_addr f1 = frame_addr f) as <- by (by destruct f).
    eapply dx_does; [by apply does_color_frame|]. 
    apply (repaired_rb f ctx' t n b (fill1 (paint f1 BLACK) t) Hsh). by apply (recolour_repaired _ _ _ _ _ Hsh).
  - assert (colour_of (left_of (sibling f)) = RED \/ colour_of (right_of (sibling f)) = RED) as Hor.
    { apply andb_false_iff in Eab as [Eab|Eab]; [|right; by apply is_black_false].
      apply andb_false_iff in Eab as [Eab|Eab]; [|left; by apply is_black_false].
      rewrite (proj2 (is_black_spec (sibling f)) Hb), andb_true_r in Eab. apply bool_decide_eq_false in Eab.
      destruct Hred as [?|?]; done. }
    assert (bool_decide (root_of (sibling f) <> None) = true) as ->
      by (apply bool_decide_eq_true; by destruct (sibling f)).
    eapply dx_bind; [by apply does_ret|]. intros s1 R1. pose proof (sh_bal _ _ _ _ Hsh) as Ht.
    assert (forall s' f', rep s' (fill (f' :: ctx') t) -> ready f' n -> frame_addr f' = frame_addr f ->
      frame_colour f' = frame_colour f -> does_ex (last_turn (root_of t) (Some (frame_addr f)) (root_of (sibling f')))
        s' (fill (f' :: ctx') t) (fun _ => rb)) as HF.
    { intros s' f' R' Hr <- Ec. destruct (last_turn_does s' f' ctx' t n R' Hr Ht) as (t' & D & Hrep).
      eapply dx_does; [exact D|]. eapply repaired_rb; [exact Hsh|]. destruct Hrep. split; by rewrite <- Ec. }
    destruct f as [c a k m|c m a k]; cbn [sibling frame_addr frame_colour] in *.
    + apply (far_red_left (last_turn (root_of t) (Some a)) s1 c a k m ctx' t n); try done.
      intros s' m' R' Hr. by apply (HF s' (FL c a k m')).
    + apply (far_red_right (last_turn (root_of t) (Some a)) s1 c a k m ctx' t n); try done.
      intros s' m' R' Hr. by apply (HF s' (FR c m' a k)).
Qed.

(** ** rbtree_delete_fixup *)

Lemma delete_fixup_does s ctx t n b : short ctx t n b -> rep s (fill ctx t) ->
  does_ex (rbtree_delete_fixup (root_of t) (up None ctx)) s (fill ctx t) (fun _ => rb).
Proof.
  intros Hsh R. unfold rbtree_delete_fixup.
  eapply dx_eq; [apply the_sibling_ok; [exact R|]|].
  { destruct ctx; [done|]. by apply (short_sibling _ _ _ _ _ Hsh). }
  apply (dx_eq _ _ s _ _ (st_bind_ok _ _ s _ s eq_refl)).
  pose proof (rep_size _ _ R). pose proof (length_ctx ctx t).
  destruct (delete_fixup_loop_does (S (size (nodes s))) s ctx t n b Hsh R ltac:(lia)) as (v & t' & D & Hv).
  eapply dx_bind; [exact D|]. intros s1 R1. destruct v as [u|x]; [by apply dx_ret|].
  destruct Hv as (ctx1 & t1 & n1 & b1 & f1 & ctx1' & -> & -> & Hst). by eapply delete_fixup_end_does.
Qed.
End Fixup.
