(* ===== verification/RbtreeDelete.v ===== *)
(** * rbtree_delete takes an entry out of the ordered list

    The swap with the next node, the unlinking, and the repair of RbtreeFixup.v,
    composed. *)

From S2P Require Import Prelude Rbtree RbtreeTree RbtreeInsert RbtreeAdd RbtreeFixup.

Section Pointers.
Context {K : Type}.
Implicit Types (t l r m : @tree K) (h : gmap addr (rbnode K)) (s : rbtree K) (ctx : list (@frame K)) (p : ptr).

Lemma with_nodes_id s : with_nodes s.(nodes) s = s.
Proof. by destruct s. Qed.

Lemma relinked_inner ctx new s : ctx <> [] -> relinked ctx new s = with_nodes (rehole ctx new s.(nodes)) s.
Proof. by destruct ctx. Qed.

Lemma change_parent_ptr_ok s p ctx a new : ctx_rep s.(nodes) p (Some a) ctx -> a ∉ ctx_addrs ctx ->
  (ctx = [] -> p = None /\ s.(root) = Some a) ->
  change_parent_ptr (up p ctx) (Some a) new s = Ok (tt, relinked ctx new s).
Proof.
  intros C Ha Hroot. unfold change_parent_ptr. destruct ctx as [|[c q k r|c l q k] ctx]; cbn [up frame_addr ctx_addrs] in *.
  - destruct (Hroot eq_refl) as [-> Hr]. rewrite decide_True by done. unfold get_root.
    erewrite st_bind_ok by reflexivity. rewrite Hr, bool_decide_true by done. erewrite st_bind_ok by reflexivity.
    by rewrite decide_True.
  - destruct C as (Hq & Ht & C). rewrite decide_False by done. rd Hq. rd Hq.
    rewrite (bool_decide_true (Some a = Some a)) by done. erewrite st_bind_ok by reflexivity.
    rewrite (decide_True _ _ (eq_refl (Some a))). erewrite st_bind_ok by (by eapply run_put).
    erewrite run_get by (cbn; by rewrite lookup_alter_eq, Hq). cbn [to_left right_].
    rewrite decide_False; [done|]. intros E1. symmetry in E1. revert E1. apply root_of_ne. set_solver.
  - destruct C as (Hq & Ht & C). rewrite decide_False by done. rd Hq. rd Hq.
    rewrite (bool_decide_true (Some a = Some a)) by done. rewrite orb_true_r.
    erewrite st_bind_ok by reflexivity.
    assert (root_of l <> Some a) by (intros E1; symmetry in E1; revert E1; apply root_of_ne; set_solver).
    rewrite (decide_False (P := root_of l = Some a)) by done. erewrite st_bind_ok by reflexivity. rd Hq.
    rewrite decide_True by done. by eapply run_put.
Qed.

Lemma change_child_ptr_ok s t old new : tree_rep s.(nodes) old t ->
  change_child_ptr (root_of t) old new s = Ok (tt, with_nodes (reparent t new s.(nodes)) s).
Proof.
  destruct t as [|c l a k r]; cbn [tree_rep root_of reparent]; unfold change_child_ptr.
  - intros _. rewrite decide_True by done. by rewrite with_nodes_id.
  - intros (Ha & _). rewrite decide_False by done. rd Ha. rewrite bool_decide_true by done.
    erewrite st_bind_ok by reflexivity. rewrite decide_True by done. by eapply run_put.
Qed.

(** The calls are made twice in a row; the second one finds the work done. *)
Lemma change_child_ptr_done s t old new : tree_rep s.(nodes) new t -> new <> old ->
  change_child_ptr (root_of t) old new s = Ok (tt, s).
Proof.
  destruct t as [|c l a k r]; cbn [tree_rep root_of]; unfold change_child_ptr; [done|].
  intros (Ha & _) Hne. rewrite decide_False by done. rd Ha. rewrite (bool_decide_true (new = new)) by done.
  rewrite orb_true_r. erewrite st_bind_ok by reflexivity. by rewrite decide_False.
Qed.

Lemma ctx_top h p hole ctx f : ctx_rep h p hole ctx -> last ctx = Some f ->
  exists n, h !! frame_addr f = Some n /\ parent n = p.
Proof.
  revert hole. induction ctx as [|g ctx IH]; intros hole C Hl; [done|].
  destruct ctx as [|g' ctx].
  - injection Hl as ->. destruct f; destruct C as (Hf & _); eauto.
  - change (last (g' :: ctx) = Some f) in Hl. destruct g; destruct C as (_ & _ & C); by eapply IH.
Qed.

Lemma change_child_ctx_ok s t old new ctx hole : ctx <> [] -> ctx_rep s.(nodes) old hole ctx ->
  change_child_ptr (root_of (fill ctx t)) old new s = Ok (tt, with_nodes (reparent_ctx ctx new s.(nodes)) s).
Proof.
  intros Hne C. rewrite root_fill. unfold reparent_ctx. destruct (last ctx) as [f|] eqn:El; [|by apply last_None in El].
  destruct (ctx_top _ _ _ _ _ C El) as (n & Hn & Hp). unfold change_child_ptr. rewrite decide_False by done.
  rd Hn. rewrite Hp, bool_decide_true by done. erewrite st_bind_ok by reflexivity. rewrite decide_True by done.
  by eapply run_put.
Qed.

Lemma reparent_ctx_ne ctx p h x : x ∉ ctx_addrs ctx -> reparent_ctx ctx p h !! x = h !! x.
Proof.
  intros Hx. unfold reparent_ctx. destruct (last ctx) as [f|] eqn:El; [|done]. apply lookup_alter_ne.
  intros <-. apply Hx. by apply last_frame_in.
Qed.

Lemma key_reparent_ctx ctx p h x : key <$> reparent_ctx ctx p h !! x = key <$> h !! x.
Proof. unfold reparent_ctx. destruct (last ctx); [by apply key_alter|done]. Qed.

Lemma fill_app ctx1 ctx2 t : fill (ctx1 ++ ctx2) t = fill ctx2 (fill ctx1 t).
Proof. revert t. induction ctx1 as [|f ctx1 IH]; intros t; [done|]. apply IH. Qed.

Lemma before_app ctx1 ctx2 : before (ctx1 ++ ctx2) = before ctx2 ++ before ctx1.
Proof.
  induction ctx1 as [|[] ctx1 IH]; cbn [app before]; [by rewrite app_nil_r|done|]. by rewrite IH, <- app_assoc.
Qed.

Lemma after_app ctx1 ctx2 : after (ctx1 ++ ctx2) = after ctx1 ++ after ctx2.
Proof. induction ctx1 as [|[] ctx1 IH]; cbn [app after]; [done| |done]. by rewrite IH, <- app_assoc. Qed.

(** ** The ends of a tree *)

Lemma leftmost_ok t : forall fuel p s, t <> E -> tree_rep s.(nodes) p t -> (height t <= S fuel)%nat ->
  exists ctx c b kb r, t = fill ctx (N c E b kb r) /\ before ctx = [] /\
    leftmost fuel (root_of t) s = Ok (Some b, s).
Proof.
  induction t as [|c l IHl a k r _]; intros fuel p s Hne T Hf; [done|]. cbn [height] in Hf.
  destruct T as (Ha & Hl & _). destruct l as [|lc ll x kx lr].
  - exists [], c, a, k, r. split; [done|]. split; [done|]. destruct fuel; cbn [leftmost root_of]; by rd Ha.
  - destruct fuel as [|fuel]; [cbn in Hf; lia|].
    destruct (IHl fuel (Some a) s) as (ctx & c' & b & kb & r' & E1 & E2 & E3); [done|done|lia|].
    exists (ctx ++ [FL c a k r]), c', b, kb, r'. split; [by rewrite fill_app, <- E1|].
    split; [by rewrite before_app|]. cbn [leftmost root_of]. rd Ha. rewrite decide_False by done. exact E3.
Qed.

Lemma rightmost_ok t : forall fuel p s, t <> E -> tree_rep s.(nodes) p t -> (height t <= S fuel)%nat ->
  exists ctx c l b kb, t = fill ctx (N c l b kb E) /\ after ctx = [] /\
    rightmost fuel (root_of t) s = Ok (Some b, s).
Proof.
  induction t as [|c l _ a k r IHr]; intros fuel p s Hne T Hf; [done|]. cbn [height] in Hf.
  destruct T as (Ha & _ & Hr). destruct r as [|rc rl x kx rr].
  - exists [], c, l, a, k. split; [done|]. split; [done|]. destruct fuel; cbn [rightmost root_of]; by rd Ha.
  - destruct fuel as [|fuel]; [cbn in Hf; lia|].
    destruct (IHr fuel (Some a) s) as (ctx & c' & l' & b & kb & E1 & E2 & E3); [done|done|lia|].
    exists (ctx ++ [FR c l a k]), c', l', b, kb. split; [by rewrite fill_app, <- E1|].
    split; [by rewrite after_app, E2|]. cbn [rightmost root_of]. rd Ha. rewrite decide_False by done. exact E3.
Qed.
End Pointers.

(** ** The swap *)

Section Swap.
Context {K : Type} (a b : addr) (c c2 : colour) (k kb : K) (l rb : @tree K) (ctx ctx2 : list (@frame K)).
Implicit Types (h : gmap addr (rbnode K)) (s : rbtree K).

Definition swap_from : @tree K := N c l a k (fill ctx2 (N c2 E b kb rb)).
Definition swap_to : @tree K := N c l b kb (fill ctx2 (N c2 E a k rb)).

(** The links to the two nodes, redirected. *)
Definition swap_links h : gmap addr (rbnode K) :=
  reparent_ctx ctx2 (Some b) (reparent l (Some b) (reparent rb (Some a)
    (rehole ctx2 (Some a) (rehole ctx (Some b) (alter (to_color c) b (alter (to_color c2) a h)))))).

Definition swapped h : gmap addr (rbnode K) :=
  <[b := mk_node (up None ctx) (root_of l) (root_of (fill ctx2 (N c2 E a k rb))) kb c]>
  (<[a := mk_node (up (Some b) ctx2) None (root_of rb) k c2]> (swap_links h)).

Context (ND : NoDup (ctx_addrs ctx ++ [a; b] ++ addrs l ++ ctx_addrs ctx2 ++ addrs rb)).

Lemma swap_sep : a <> b /\ NoDup (ctx_addrs ctx) /\ NoDup (addrs l) /\ NoDup (ctx_addrs ctx2) /\ NoDup (addrs rb) /\
  (forall x, x ∈ ctx_addrs ctx -> x <> a /\ x <> b /\ x ∉ addrs l /\ x ∉ ctx_addrs ctx2 /\ x ∉ addrs rb) /\
  (forall x, x ∈ addrs l -> x <> a /\ x <> b /\ x ∉ ctx_addrs ctx /\ x ∉ ctx_addrs ctx2 /\ x ∉ addrs rb) /\
  (forall x, x ∈ ctx_addrs ctx2 -> x <> a /\ x <> b /\ x ∉ ctx_addrs ctx /\ x ∉ addrs l /\ x ∉ addrs rb) /\
  (forall x, x ∈ addrs rb -> x <> a /\ x <> b /\ x ∉ ctx_addrs ctx /\ x ∉ addrs l /\ x ∉ ctx_addrs ctx2) /\
  (a ∉ ctx_addrs ctx /\ a ∉ addrs l /\ a ∉ ctx_addrs ctx2 /\ a ∉ addrs rb) /\
  (b ∉ ctx_addrs ctx /\ b ∉ addrs l /\ b ∉ ctx_addrs ctx2 /\ b ∉ addrs rb).
Proof using ND.
  apply NoDup_app in ND as (N1 & X1 & N2). apply NoDup_app in N2 as (N2 & X2 & N3).
  apply NoDup_app in N3 as (N3 & X3 & N4). apply NoDup_app in N4 as (N4 & X4 & N5).
  apply NoDup_cons in N2 as [N2 _]. repeat split; set_solver.
Qed.

(** Each part sees only the change of its own link. *)
Lemma swapped_ne h x : x <> a -> x <> b -> x ∉ ctx_addrs ctx -> x ∉ addrs l -> x ∉ ctx_addrs ctx2 -> x ∉ addrs rb ->
  swapped h !! x = h !! x.
Proof using Type.
  intros. unfold swapped, swap_links. rewrite !lookup_insert_ne by done.
  rewrite reparent_ctx_ne, !reparent_ne, !rehole_ne by done. by rewrite !lookup_alter_ne.
Qed.

Lemma alter_congr (f : rbnode K -> rbnode K) (y x : addr) (h h' : gmap addr (rbnode K)) :
  h !! x = h' !! x -> alter f y h !! x = alter f y h' !! x.
Proof using Type.
  intros Hx. destruct (decide (x = y)) as [->|]; [by rewrite !lookup_alter_eq, Hx|by rewrite !lookup_alter_ne].
Qed.

Lemma reparent_congr t p h h' x : h !! x = h' !! x -> reparent t p h !! x = reparent t p h' !! x.
Proof using Type. destruct t; [done|]. apply alter_congr. Qed.
Lemma rehole_congr cx p h h' x : h !! x = h' !! x -> rehole cx p h !! x = rehole cx p h' !! x.
Proof using Type. destruct cx as [|[]]; [done|..]; apply alter_congr. Qed.
Lemma reparent_ctx_congr cx p h h' x : h !! x = h' !! x -> reparent_ctx cx p h !! x = reparent_ctx cx p h' !! x.
Proof using Type. unfold reparent_ctx. destruct (last cx); [|done]. apply alter_congr. Qed.

Lemma swapped_ctx h : ctx_rep h None (Some a) ctx -> ctx_rep (swapped h) None (Some b) ctx.
Proof using ND.
  destruct swap_sep as (_ & Nc & _ & _ & _ & Hx & _). intros C.
  apply (ctx_rep_ext (rehole ctx (Some b) h)); [|by eapply ctx_rep_rehole].
  intros x Hin. destruct (Hx x Hin) as (? & ? & ? & ? & ?). unfold swapped, swap_links.
  rewrite !lookup_insert_ne by done. rewrite reparent_ctx_ne, !reparent_ne, (rehole_ne ctx2) by done.
  apply rehole_congr. by rewrite !lookup_alter_ne.
Qed.

Lemma swapped_l h : tree_rep h (Some a) l -> tree_rep (swapped h) (Some b) l.
Proof using ND.
  destruct swap_sep as (_ & _ & Nl & _ & _ & _ & Hx & _). intros T.
  apply (tree_rep_ext (reparent l (Some b) h)); [|by eapply tree_rep_reparent].
  intros x Hin. destruct (Hx x Hin) as (? & ? & ? & ? & ?). unfold swapped, swap_links.
  rewrite !lookup_insert_ne by done. rewrite reparent_ctx_ne by done. apply reparent_congr.
  rewrite reparent_ne, !rehole_ne by done. by rewrite !lookup_alter_ne.
Qed.

Lemma swapped_rb h : tree_rep h (Some b) rb -> tree_rep (swapped h) (Some a) rb.
Proof using ND.
  destruct swap_sep as (_ & _ & _ & _ & Nr & _ & _ & _ & Hx & _). intros T.
  apply (tree_rep_ext (reparent rb (Some a) h)); [|by eapply tree_rep_reparent].
  intros x Hin. destruct (Hx x Hin) as (? & ? & ? & ? & ?). unfold swapped, swap_links.
  rewrite !lookup_insert_ne by done. rewrite reparent_ctx_ne, (reparent_ne l) by done. apply reparent_congr.
  rewrite !rehole_ne by done. by rewrite !lookup_alter_ne.
Qed.

Lemma swapped_ctx2 h : ctx_rep h (Some a) (Some b) ctx2 -> ctx_rep (swapped h) (Some b) (Some a) ctx2.
Proof using ND.
  destruct swap_sep as (_ & _ & _ & Nc & _ & _ & _ & Hx & _). intros C.
  apply (ctx_rep_ext (reparent_ctx ctx2 (Some b) (rehole ctx2 (Some a) h)));
    [|by eapply ctx_rep_reparent, ctx_rep_rehole].
  intros x Hin. destruct (Hx x Hin) as (? & ? & ? & ? & ?). unfold swapped, swap_links.
  rewrite !lookup_insert_ne by done. apply reparent_ctx_congr. rewrite !reparent_ne by done.
  apply rehole_congr. rewrite rehole_ne by done. by rewrite !lookup_alter_ne.
Qed.

Lemma swap_links_key h x : key <$> swap_links h !! x = key <$> h !! x.
Proof using Type. unfold swap_links. by rewrite key_reparent_ctx, !key_reparent, !key_rehole, !key_alter. Qed.

(** The structure before the swap, part by part. *)
Record swappable s : Prop := {
  sw_ctx : ctx_rep s.(nodes) None (Some a) ctx;
  sw_root : ctx = [] -> s.(root) = Some a;
  sw_a : s.(nodes) !! a = Some (mk_node (up None ctx) (root_of l) (root_of (fill ctx2 (N c2 E b kb rb))) k c);
  sw_l : tree_rep s.(nodes) (Some a) l;
  sw_ctx2 : ctx_rep s.(nodes) (Some a) (Some b) ctx2;
  sw_b : s.(nodes) !! b = Some (mk_node (up (Some a) ctx2) None (root_of rb) kb c2);
  sw_rb : tree_rep s.(nodes) (Some b) rb;
}.

Lemma right_is_next : root_of (fill ctx2 (N c2 E b kb rb)) = Some b <-> ctx2 = [].
Proof using ND.
  destruct swap_sep as (_ & _ & _ & _ & _ & _ & _ & _ & _ & _ & (_ & _ & Hb & _)). rewrite root_fill.
  split; [|by intros ->]. destruct (last ctx2) as [f|] eqn:El; [|by apply last_None in El].
  intros [= Ef]. exfalso. apply Hb. rewrite <- Ef. by apply last_frame_in.
Qed.

(** The parent of the next node, when that is not the node itself. *)
Lemma swap_inner_ok s : ctx_rep s.(nodes) (Some a) (Some b) ctx2 ->
  s.(nodes) !! b = Some (mk_node (up (Some a) ctx2) None (root_of rb) kb c) ->
  (if decide (root_of (fill ctx2 (N c2 E b kb rb)) <> Some b) then
     sp ← get_parent (Some b); change_parent_ptr sp (Some b) (Some a)
   else mret tt) s = Ok (tt, with_nodes (rehole ctx2 (Some a) s.(nodes)) s).
Proof using ND.
  intros C Hb. destruct swap_sep as (_ & _ & _ & _ & _ & _ & _ & _ & _ & _ & (_ & _ & Hb2 & _)).
  destruct (decide (ctx2 = [])) as [E1|E1].
  - rewrite decide_False by (rewrite right_is_next; tauto). rewrite E1. cbn [rehole]. by rewrite with_nodes_id.
  - rewrite decide_True by (by rewrite right_is_next). rd Hb. rewrite change_parent_ptr_ok by done.
    by rewrite relinked_inner.
Qed.

Lemma swap_top_ok s hole : ctx_rep s.(nodes) (Some a) hole ctx2 ->
  (if decide (root_of (fill ctx2 (N c2 E b kb rb)) <> Some b) then
     change_child_ptr (root_of (fill ctx2 (N c2 E b kb rb))) (Some a) (Some b)
   else mret tt) s = Ok (tt, with_nodes (reparent_ctx ctx2 (Some b) s.(nodes)) s).
Proof using ND.
  intros C. destruct (decide (ctx2 = [])) as [E1|E1].
  - rewrite decide_False by (rewrite right_is_next; tauto). rewrite E1. unfold reparent_ctx. cbn. by rewrite with_nodes_id.
  - rewrite decide_True by (by rewrite right_is_next). by eapply change_child_ctx_ok.
Qed.

(** The links, up to the exchange of the fields. *)
Definition swap_state s : rbtree K :=
  mk_rbtree (swap_links s.(nodes)) (match ctx with [] => Some b | _ => s.(root) end) s.(count).

Definition swap_fields : ST (rbtree K) unit :=
  tr ← get_right (Some a);
  (if decide (tr = Some b) then
     set_right (Some a) (Some a);;
     set_parent (Some b) (Some b)
   else mret tt);;
  tp ← get_parent (Some a);
  sp ← get_parent (Some b);
  set_parent (Some a) sp;;
  set_parent (Some b) tp;;
  tl ← get_left (Some a);
  sl ← get_left (Some b);
  set_left (Some a) sl;;
  set_left (Some b) tl;;
  tr ← get_right (Some a);
  sr ← get_right (Some b);
  set_right (Some a) sr;;
  set_right (Some b) tr.

Lemma swap_links_run s : swappable s -> delete_swap (Some a) (Some b) s = swap_fields (swap_state s).
Proof using ND.
  intros [C Hr Ha Hl C2 Hb Hrb].
  destruct swap_sep as (Nab & Nc & Nl & Nc2 & Nrb & Xc & Xl & Xc2 & Xrb & (Na1 & Na2 & Na3 & Na4) & (Nb1 & Nb2 & Nb3 & Nb4)).
  unfold delete_swap. rd Ha. rd Hb. set (F := swap_fields).
  erewrite st_bind_ok by (by eapply run_put). erewrite st_bind_ok.
  2: { eapply run_put. cbn. rewrite lookup_alter_ne by done. exact Hb. }
  cbn [with_nodes nodes root count]. set (h1 := alter (to_color c) b (alter (to_color c2) a (nodes s))).
  assert (h1 !! a = Some (mk_node (up None ctx) (root_of l) (root_of (fill ctx2 (N c2 E b kb rb))) k c2)) as H1a
    by (unfold h1; by rewrite lookup_alter_ne, lookup_alter_eq, Ha).
  assert (h1 !! b = Some (mk_node (up (Some a) ctx2) None (root_of rb) kb c)) as H1b
    by (unfold h1; by rewrite lookup_alter_eq, lookup_alter_ne, Hb).
  assert (forall x, x <> a -> x <> b -> h1 !! x = nodes s !! x) as H1x
    by (intros; unfold h1; by rewrite !lookup_alter_ne).
  erewrite run_get by exact H1a. cbn [parent].
  erewrite st_bind_ok.
  2: { apply change_parent_ptr_ok; [|done|by split; auto]. eapply ctx_rep_ext; [|exact C]. cbn. intros x Hx.
       destruct (Xc x Hx) as (? & ? & _). by apply H1x. }
  unfold relinked. cbn [nodes root count with_nodes].
  set (h2 := rehole ctx (Some b) h1). erewrite run_get by (unfold h2; cbn; rewrite rehole_ne by done; exact H1a). cbn [right_].
  erewrite st_bind_ok.
  2: { apply swap_inner_ok; cbn; unfold h2; [|by rewrite rehole_ne].
       eapply ctx_rep_ext; [|exact C2]. intros x Hx. destruct (Xc2 x Hx) as (? & ? & ? & _). rewrite rehole_ne by done. by apply H1x. }
  cbn [nodes root count with_nodes]. set (h3 := rehole ctx2 (Some a) h2).
  assert (h3 !! a = h1 !! a) as H3a by (unfold h3, h2; by rewrite !rehole_ne).
  assert (h3 !! b = h1 !! b) as H3b by (unfold h3, h2; by rewrite !rehole_ne).
  do 2 (erewrite run_get by (cbn; rewrite H3b; exact H1b); cbn [left_]; erewrite st_bind_ok by reflexivity).
  erewrite run_get by (cbn; rewrite H3b; exact H1b). cbn [right_]. erewrite st_bind_ok.
  2: { apply (change_child_ptr_ok _ rb). cbn. eapply tree_rep_ext; [|exact Hrb]. intros x Hx.
       destruct (Xrb x Hx) as (? & ? & ? & ? & ?). unfold h3, h2. rewrite !rehole_ne by done. by apply H1x. }
  cbn [nodes root count with_nodes]. set (h4 := reparent rb (Some a) h3).
  assert (h4 !! a = h1 !! a) as H4a by (unfold h4; by rewrite reparent_ne).
  assert (h4 !! b = h1 !! b) as H4b by (unfold h4; by rewrite reparent_ne).
  erewrite run_get by (cbn; rewrite H4b; exact H1b). cbn [right_]. erewrite st_bind_ok.
  2: { apply (change_child_ptr_done _ rb); [|congruence]. cbn. eapply tree_rep_reparent; [done|].
       eapply tree_rep_ext; [|exact Hrb]. intros x Hx. destruct (Xrb x Hx) as (? & ? & ? & ? & ?).
       unfold h3, h2. rewrite !rehole_ne by done. by apply H1x. }
  erewrite run_get by (cbn; rewrite H4a; exact H1a). cbn [left_]. erewrite st_bind_ok.
  2: { apply (change_child_ptr_ok _ l). cbn. eapply tree_rep_ext; [|exact Hl]. intros x Hx.
       destruct (Xl x Hx) as (? & ? & ? & ? & ?). unfold h4, h3, h2. rewrite reparent_ne, !rehole_ne by done. by apply H1x. }
  cbn [nodes root count with_nodes]. set (h5 := reparent l (Some b) h4).
  assert (h5 !! a = h1 !! a) as H5a by (unfold h5; by rewrite reparent_ne).
  erewrite run_get by (cbn; rewrite H5a; exact H1a). cbn [right_]. erewrite st_bind_ok.
  2: { apply (swap_top_ok _ (Some a)). cbn. apply (ctx_rep_ext (rehole ctx2 (Some a) (nodes s))); [|by eapply ctx_rep_rehole].
       intros x Hx. destruct (Xc2 x Hx) as (? & ? & ? & ? & ?). unfold h5, h4, h3. rewrite !reparent_ne by done.
       apply rehole_congr. unfold h2. rewrite rehole_ne by done. by apply H1x. }
  cbn [nodes root count with_nodes]. reflexivity.
Qed.

(** The exchange of the fields, on a heap of which only the two nodes matter. *)
Definition two (s : rbtree K) (na nb : rbnode K) : rbtree K := with_nodes (<[b := nb]> (<[a := na]> s.(nodes))) s.

Lemma two_id s na nb : s.(nodes) !! a = Some na -> s.(nodes) !! b = Some nb -> two s na nb = s.
Proof using Type. intros Ha Hb. unfold two. rewrite (insert_id _ a) by done. by rewrite insert_id, with_nodes_id. Qed.

Lemma two_get_a {A B} (d : A) f (F : A -> ST (rbtree K) B) s na nb : a <> b ->
  mbind F (get d f (Some a)) (two s na nb) = F (f na) (two s na nb).
Proof using Type. intros. apply run_get. cbn. by rewrite lookup_insert_ne, lookup_insert_eq. Qed.

Lemma two_get_b {A B} (d : A) f (F : A -> ST (rbtree K) B) s na nb :
  mbind F (get d f (Some b)) (two s na nb) = F (f nb) (two s na nb).
Proof using Type. apply run_get. cbn. by rewrite lookup_insert_eq. Qed.

Lemma two_put_a f s na nb : a <> b -> put f (Some a) (two s na nb) = Ok (tt, two s (f na) nb).
Proof using Type.
  intros Hne. erewrite run_put_insert by (cbn; by rewrite lookup_insert_ne, lookup_insert_eq).
  unfold two, with_nodes. cbn. by rewrite insert_insert_ne, insert_insert_eq.
Qed.

Lemma two_put_b f s na nb : put f (Some b) (two s na nb) = Ok (tt, two s na (f nb)).
Proof using Type.
  erewrite run_put_insert by (cbn; by rewrite lookup_insert_eq). unfold two, with_nodes. cbn. by rewrite insert_insert_eq.
Qed.

Lemma swap_fields_run s pa la ra pb lb rb' ca cb : a <> b ->
  s.(nodes) !! a = Some (mk_node pa la ra k ca) -> s.(nodes) !! b = Some (mk_node pb lb rb' kb cb) ->
  swap_fields s = Ok (tt, two s
    (mk_node (if decide (ra = Some b) then Some b else pb) lb rb' k ca)
    (mk_node pa la (if decide (ra = Some b) then Some a else ra) kb cb)).
Proof using Type.
  intros Hne Ha Hb. rewrite <- (two_id s _ _ Ha Hb) at 1. unfold swap_fields, get_right, get_left, get_parent, set_parent, set_left, set_right.
  rewrite two_get_a by done. cbn [right_].
  assert ((if decide (ra = Some b) then put (to_right (Some a)) (Some a);; put (to_parent (Some b)) (Some b) else mret tt)
      (two s (mk_node pa la ra k ca) (mk_node pb lb rb' kb cb))
    = Ok (tt, two s (mk_node pa la (if decide (ra = Some b) then Some a else ra) k ca)
                (mk_node (if decide (ra = Some b) then Some b else pb) lb rb' kb cb))) as E1.
  { case_decide; [|done]. erewrite st_bind_ok by (by apply two_put_a). apply two_put_b. }
  erewrite st_bind_ok by exact E1. clear E1.
  rewrite two_get_a, two_get_b by done. cbn [parent].
  erewrite st_bind_ok by (by apply two_put_a). erewrite st_bind_ok by apply two_put_b.
  rewrite two_get_a, two_get_b by done. cbn [to_parent left_].
  erewrite st_bind_ok by (by apply two_put_a). erewrite st_bind_ok by apply two_put_b.
  rewrite two_get_a, two_get_b by done. cbn [to_parent to_left right_].
  erewrite st_bind_ok by (by apply two_put_a). apply two_put_b.
Qed.

Lemma swap_links_node h x (n : rbnode K) : x = a \/ x = b -> h !! x = Some n ->
  swap_links h !! x = Some (to_color (if decide (x = a) then c2 else c) n).
Proof using ND.
  destruct swap_sep as (Nab & _ & _ & _ & _ & _ & _ & _ & _ & (? & ? & ? & ?) & (? & ? & ? & ?)).
  intros Hx Hn. unfold swap_links.
  destruct Hx as [->| ->]; rewrite reparent_ctx_ne, !reparent_ne, !rehole_ne by done.
  - by rewrite lookup_alter_ne, lookup_alter_eq, Hn, decide_True.
  - by rewrite lookup_alter_eq, lookup_alter_ne, Hn, decide_False.
Qed.

Lemma swap_run s : swappable s ->
  delete_swap (Some a) (Some b) s
  = Ok (tt, mk_rbtree (swapped s.(nodes)) (match ctx with [] => Some b | _ => s.(root) end) s.(count)).
Proof using ND.
  intros Hs. rewrite (swap_links_run _ Hs). destruct Hs as [_ _ Ha _ _ Hb _].
  destruct swap_sep as (Nab & _).
  pose proof (swap_links_node _ a _ ltac:(by left) Ha) as La. pose proof (swap_links_node _ b _ ltac:(by right) Hb) as Lb.
  rewrite decide_True in La by done. rewrite decide_False in Lb by done.
  rewrite (swap_fields_run (swap_state s) _ _ _ _ _ _ _ _ Nab La Lb). do 2 f_equal. unfold two, swapped, with_nodes.
  cbn [swap_state nodes root count parent left_ right_ key color].
  assert ((if decide (root_of (fill ctx2 (N c2 E b kb rb)) = Some b) then Some b else up (Some a) ctx2)
    = up (Some b) ctx2 /\ (if decide (root_of (fill ctx2 (N c2 E b kb rb)) = Some b) then Some a
      else root_of (fill ctx2 (N c2 E b kb rb))) = root_of (fill ctx2 (N c2 E a k rb))) as [-> ->]; [|done].
  destruct (decide (ctx2 = [])) as [E1|E1].
  - rewrite !decide_True by (by apply right_is_next). by rewrite E1.
  - rewrite !decide_False by (by rewrite right_is_next). split; [by destruct ctx2|].
    rewrite !root_fill. destruct (last ctx2) eqn:El; [done|]. by apply last_None in El.
Qed.
End Swap.

Section SwapRep.
Context {K : Type}.
Implicit Types (t l r m : @tree K) (s : rbtree K) (ctx : list (@frame K)).

(** Like [evolves], for a change that also moves nodes. *)
Record touches (A : list addr) s s' : Prop := {
  to_count : s'.(count) = s.(count);
  to_other : forall x, x ∉ A -> s'.(nodes) !! x = s.(nodes) !! x;
  to_keys : forall x, key <$> s'.(nodes) !! x = key <$> s.(nodes) !! x;
}.

Lemma swap_addrs c l a k ctx2 c2 b kb r :
  addrs (N c l a k (fill ctx2 (N c2 E b kb r))) ≡ₚ [a; b] ++ addrs l ++ ctx_addrs ctx2 ++ addrs r.
Proof. cbn [addrs]. rewrite addrs_fill. cbn [addrs app]. solve_Permutation. Qed.

Lemma delete_swap_rep s ctx c l a k ctx2 c2 b kb r :
  rep s (fill ctx (N c l a k (fill ctx2 (N c2 E b kb r)))) ->
  exists s', delete_swap (Some a) (Some b) s = Ok (tt, s') /\
    rep s' (fill ctx (N c l b kb (fill ctx2 (N c2 E a k r)))) /\
    touches (addrs (fill ctx (N c l a k (fill ctx2 (N c2 E b kb r))))) s s'.
Proof.
  intros R. destruct (rep_focus _ _ _ R) as (C & (Ha & Hl & T2) & ND). apply fill_rep in T2 as (C2 & Hb & _ & Hr).
  rewrite swap_addrs in ND.
  assert (swappable a b c c2 k kb l r ctx ctx2 s) as Hsw.
  { split; try done. intros ->. by rewrite (rep_root _ _ R). }
  eexists. split; [by apply (swap_run a b c c2 k kb l r ctx ctx2)|]. split; [split|split].
  - apply fill_rep. cbn [nodes root_of]. split; [by apply swapped_ctx|]. cbn [tree_rep].
    split; [by apply lookup_insert_eq|]. split; [by apply swapped_l|]. apply fill_rep.
    split; [by apply swapped_ctx2|]. cbn [tree_rep]. destruct (swap_sep _ _ _ _ _ _ ND) as (Nab & _).
    split; [unfold swapped; by rewrite lookup_insert_ne, lookup_insert_eq|]. split; [done|]. by apply swapped_rb.
  - cbn. rewrite root_fill. destruct ctx as [|f ctx]; [done|]. rewrite (rep_root _ _ R), root_fill.
    destruct (last (f :: ctx)) eqn:El; [done|]. by apply last_None in El.
  - pose proof (rep_nodup _ _ R) as N0. rewrite addrs_fill, swap_addrs in N0 |- *.
    eapply NoDup_Permutation_proper; [|exact N0]. solve_Permutation.
  - done.
  - intros x Hx. rewrite addrs_fill, swap_addrs in Hx. cbn [nodes]. apply swapped_ne; set_solver.
  - intros x. cbn [nodes]. unfold swapped. destruct (decide (x = b)) as [->|Hxb].
    + rewrite lookup_insert_eq. by rewrite Hb.
    + rewrite lookup_insert_ne by done. destruct (decide (x = a)) as [->|Hxa].
      * rewrite lookup_insert_eq. by rewrite Ha.
      * rewrite lookup_insert_ne by done. apply swap_links_key.
Qed.
End SwapRep.
