(* ===== verification/RbtreeRemove.v ===== *)
(** * rbtree_delete takes an entry out of the ordered list *)

From S2P Require Import Prelude Rbtree RbtreeTree RbtreeInsert RbtreeAdd RbtreeFixup RbtreeDelete.

Section Unlink.
Context {K : Type}.
Implicit Types (t l r m : @tree K) (s : rbtree K) (ctx : list (@frame K)) (a : addr) (k : K).

(** The structure once the links around [a] go to its only child. *)
Definition unlinked ctx t s : rbtree K :=
  mk_rbtree (reparent t (up None ctx) (rehole ctx (root_of t) s.(nodes)))
    (match ctx with [] => root_of t | _ => s.(root) end) s.(count).

(** The only child of a node. *)
Definition only_child l r : @tree K := match l with E => r | _ => l end.

Lemma only_child_ok s a c l k r p : s.(nodes) !! a = Some (mk_node p (root_of l) (root_of r) k c) ->
  tree_rep s.(nodes) (Some a) l -> tree_rep s.(nodes) (Some a) r ->
  tree_rep s.(nodes) (Some a) (only_child l r) /\
  (if decide (root_of l <> None) then root_of l else root_of r) = root_of (only_child l r).
Proof. intros Ha Hl Hr. by destruct l. Qed.

Section Heap.
Context (s : rbtree K) (ctx : list (@frame K)) (a : addr) (t : @tree K).
Context (C : ctx_rep s.(nodes) None (Some a) ctx) (T : tree_rep s.(nodes) (Some a) t).
Context (ND : NoDup (ctx_addrs ctx ++ addrs t)) (Ha : a ∉ ctx_addrs ctx) (Ht : a ∉ addrs t).

Lemma unlink_sep : NoDup (ctx_addrs ctx) /\ NoDup (addrs t) /\
  (forall x, x ∈ ctx_addrs ctx -> x ∉ addrs t) /\ (forall x, x ∈ addrs t -> x ∉ ctx_addrs ctx).
Proof using ND. clear -ND. apply NoDup_app in ND as (N1 & X & N2). repeat split; set_solver. Qed.

Lemma unlinked_rep : (ctx <> [] -> s.(root) = match last ctx with None => None | Some f => Some (frame_addr f) end) ->
  rep (unlinked ctx t s) (fill ctx t).
Proof using C T ND Ha.
  intros Hroot. destruct unlink_sep as (N1 & N2 & X1 & X2). split.
  - apply fill_rep. cbn [unlinked nodes]. split.
    + apply (ctx_rep_ext (rehole ctx (root_of t) s.(nodes))); [|by eapply ctx_rep_rehole].
      intros x Hx. apply reparent_ne. by apply X1.
    + eapply tree_rep_reparent; [done|]. eapply tree_rep_ext; [|exact T]. intros x Hx. apply rehole_ne. by apply X2.
  - cbn. rewrite root_fill. destruct ctx as [|f ctx']; [done|]. rewrite Hroot by done.
    destruct (last (f :: ctx')) eqn:El; [done|]. by apply last_None in El.
  - by rewrite addrs_fill.
Qed.

Lemma unlinked_ne x : x ∉ ctx_addrs ctx -> x ∉ addrs t -> (unlinked ctx t s).(nodes) !! x = s.(nodes) !! x.
Proof using Type. intros. cbn. by rewrite reparent_ne, rehole_ne. Qed.

Lemma unlink_run {B} (F : ST (rbtree K) B) n : s.(nodes) !! a = Some n -> n.(parent) = up None ctx ->
  (ctx = [] -> s.(root) = Some a) ->
  (tp ← get_parent (Some a); change_parent_ptr tp (Some a) (root_of t);;
   tp ← get_parent (Some a); change_child_ptr (root_of t) (Some a) tp;; F) s = F (unlinked ctx t s).
Proof using C T ND Ha Ht.
  intros Hn Hp Hroot. destruct unlink_sep as (_ & _ & _ & X2). rd Hn. rewrite Hp.
  erewrite st_bind_ok by (apply change_parent_ptr_ok; [exact C|done|by split; auto]).
  erewrite run_get by (unfold relinked; cbn; rewrite rehole_ne by done; exact Hn). rewrite Hp.
  erewrite st_bind_ok; [|apply change_child_ptr_ok; unfold relinked; cbn; eapply tree_rep_ext; [|exact T];
    intros x Hx; apply rehole_ne; by apply X2]. done.
Qed.
End Heap.

(** The repair, by the colours of the node and of its child. *)
Definition rebalance (to_delete child : ptr) : ST (rbtree K) unit :=
  tc ← get_color to_delete;
  (if decide (tc = RED) then mret tt else
   cc ← get_color child;
   if decide (cc = RED) then
     if decide (child <> None) then set_color child BLACK else mret tt
   else
     tp ← get_parent to_delete;
     rbtree_delete_fixup child tp).

(** A node with one child at most: either the child is red or there is none. *)
Lemma only_child_bal c l a k r n : balanced (N c l a k r) n -> l = E \/ r = E ->
  match c with
  | RED => balanced (only_child l r) n
  | BLACK => exists n', n = S n' /\ balanced (only_child l r) n' /\ (colour_of (only_child l r) = BLACK -> only_child l r = E)
  end.
Proof.
  intros H Hor. apply balanced_inv in H.
  assert (forall t, balanced t 0 -> colour_of t = BLACK -> t = E) as H0.
  { intros t Ht Hb. destruct t as [|tc tl x kx tr]; [done|]. cbn in Hb. subst tc. by apply balanced_inv in Ht as (? & ? & _). }
  destruct c; [destruct H as (n' & -> & Hl & Hr)|destruct H as (Hl & Hr & _)].
  - exists n'. split; [done|]. destruct Hor as [->| ->].
    + inversion Hl; subst. split; [done|]. by apply H0.
    + inversion Hr; subst. destruct l; [done|]. split; [done|]. by apply H0.
  - destruct Hor as [->| ->]; [done|]. by destruct l.
Qed.

Lemma rebalance_does s ctx c l a k r n : rep s (fill ctx (only_child l r)) -> rb (fill ctx (N c l a k r)) ->
  l = E \/ r = E -> s.(nodes) !! a = Some n -> n.(color) = c -> n.(parent) = up None ctx ->
  does_ex (rebalance (Some a) (root_of (only_child l r))) s (fill ctx (only_child l r)) (fun _ => rb).
Proof.
  intros R [Hcol [m Hbal]] Hor Hn Hc Hp. destruct (fill_bal_inv _ _ _ Hbal Hcol) as (n0 & b & Hctx & HN & Hb).
  pose proof (only_child_bal _ _ _ _ _ _ HN Hor) as Ht. unfold rebalance.
  eapply dx_eq; [exact (run_get BLACK color _ _ _ _ Hn)|]. rewrite Hc. destruct c.
  - rewrite decide_False by done. destruct Ht as (n' & -> & Ht & HE).
    destruct (rep_focus _ _ _ R) as (_ & T & _). eapply dx_eq; [exact (run_get_color _ _ _ _ T)|].
    destruct (colour_of (only_child l r)) eqn:Ec.
    + rewrite decide_False by done. eapply dx_eq; [exact (run_get None parent _ _ _ _ Hn)|]. rewrite Hp.
      eapply delete_fixup_does; [|exact R]. by split.
    + rewrite decide_True by done. destruct (only_child l r) as [|tc tl x kx tr]; [done|]. cbn in Ec. subst tc.
      rewrite decide_True by done. eapply dx_does; [by apply does_color|].
      eapply fill_rb; [exact Hctx| |done]. apply balanced_inv in Ht as (? & ? & _). by constructor.
  - rewrite decide_True by done. apply dx_ret; [done|]. eapply fill_rb; [exact Hctx|done|].
    intros ->. by specialize (Hb eq_refl).
Qed.

Lemma rep_outside s a n t : rep s t -> a ∉ addrs t -> rep (with_nodes (<[a := n]> s.(nodes)) s) t.
Proof.
  intros [T Hr N1] Ha. split; [|done|done]. eapply tree_rep_ext; [|exact T]. cbn. intros x Hx.
  rewrite lookup_insert_ne; [done|]. by intros ->.
Qed.

Lemma delete_unlink_rep s ctx c l a k r : rep s (fill ctx (N c l a k r)) -> rb (fill ctx (N c l a k r)) ->
  l = E \/ r = E ->
  exists s' t', delete_unlink (Some a) s = Ok (tt, s') /\ rep s' t' /\ rb t' /\
    inorder t' = inorder (fill ctx (only_child l r)) /\
    touches (addrs (fill ctx (N c l a k r))) s s'.
Proof.
  intros R Hrb Hor. destruct (rep_focus _ _ _ R) as (C & (Ha & Hl & Hr) & ND).
  set (t1 := only_child l r).
  destruct (only_child_ok s a c l k r _ Ha Hl Hr) as [T1 Ech]. fold t1 in T1, Ech.
  assert (addrs (N c l a k r) = addrs l ++ a :: addrs r) as Ead by done.
  assert (addrs (N c l a k r) ≡ₚ a :: addrs t1) as Pt1.
  { rewrite Ead. unfold t1. destruct Hor as [->| ->]; [done|]. destruct l; [done|]. cbn [only_child addrs]. solve_Permutation. }
  rewrite Pt1 in ND. assert (a ∉ ctx_addrs ctx /\ a ∉ addrs t1 /\ NoDup (ctx_addrs ctx ++ addrs t1)) as (Nac & Nat1 & ND1).
  { assert (ctx_addrs ctx ++ a :: addrs t1 ≡ₚ a :: ctx_addrs ctx ++ addrs t1) as P by solve_Permutation.
    rewrite P in ND. apply NoDup_cons in ND as [N1 N2]. set_solver. }
  set (s1 := unlinked ctx t1 s).
  assert (rep s1 (fill ctx t1)) as R1.
  { apply (unlinked_rep s ctx a t1 C T1 ND1 Nac). intros Hne. rewrite (rep_root _ _ R), root_fill.
    destruct (last ctx) eqn:El; [done|]. by apply last_None in El. }
  assert (s1.(nodes) !! a = s.(nodes) !! a) as Ea1 by (by apply unlinked_ne).
  destruct (rebalance_does s1 ctx c l a k r _ R1 Hrb Hor ltac:(by rewrite Ea1) eq_refl eq_refl)
    as ([] & t' & (s2 & E2 & R2 & I2 & V2) & Hrb2). fold t1 in E2, I2, V2.
  assert (a ∉ addrs (fill ctx t1)) as Nat2 by (rewrite addrs_fill; set_solver).
  assert (a ∉ addrs t') as Nat' by (by rewrite (addrs_same _ _ I2)).
  assert (s2.(nodes) !! a = s1.(nodes) !! a) as Ea2 by (apply (ev_other _ _ _ V2); by rewrite <- addrs_inorder).
  rewrite Ea1, Ha in Ea2.
  eexists (with_nodes (<[a := mk_node None None None k BLACK]> s2.(nodes)) s2), t'.
  split; [|split; [by apply rep_outside|split; [done|split; [done|split]]]].
  - unfold delete_unlink. rd Ha. rd Ha. erewrite st_bind_ok.
    2: { assert (bool_decide (root_of l = None) || bool_decide (root_of r = None) = true) as ->; [|reflexivity].
         apply orb_true_iff. destruct Hor as [->| ->]; [by left|by right]. }
    rewrite Ech. rewrite (unlink_run s ctx a t1 C T1 ND1 Nac Nat1 _ _ Ha eq_refl).
    2: { intros ->. by rewrite (rep_root _ _ R). }
    fold s1. eapply eq_trans; [symmetry; apply (st_bind_assoc (get_color (Some a)))|].
    erewrite st_bind_ok by exact E2.
    erewrite st_bind_ok by (by apply run_put_insert). cbn [with_nodes nodes].
    erewrite st_bind_ok by (apply run_put_insert; apply lookup_insert_eq). cbn [with_nodes nodes].
    erewrite st_bind_ok by (apply run_put_insert; apply lookup_insert_eq). cbn [with_nodes nodes].
    etrans; [apply run_put_insert; apply lookup_insert_eq|]. unfold with_nodes; cbn [nodes root count]; by rewrite !insert_insert_eq.
  - cbn. by rewrite (ev_count _ _ _ V2).
  - intros x Hx. rewrite addrs_fill, Pt1 in Hx. cbn [with_nodes nodes]. rewrite lookup_insert_ne by set_solver.
    rewrite (ev_other _ _ _ V2) by (rewrite <- addrs_inorder, addrs_fill; set_solver). apply unlinked_ne; set_solver.
  - intros x. cbn [with_nodes nodes]. destruct (decide (x = a)) as [->|Hxa]; [by rewrite lookup_insert_eq, Ha|].
    rewrite lookup_insert_ne, (ev_keys _ _ _ V2) by done. cbn. by rewrite key_reparent, key_rehole.
Qed.
End Unlink.

(** ** The swap keeps the balance *)

Section Shape.
Context {K : Type}.
Implicit Types (t l r : @tree K) (ctx : list (@frame K)).

Fixpoint same_shape t t' : Prop :=
  match t, t' with
  | E, E => True
  | N c l _ _ r, N c' l' _ _ r' => c = c' /\ same_shape l l' /\ same_shape r r'
  | _, _ => False
  end.

Lemma same_shape_refl t : same_shape t t.
Proof. by induction t; cbn. Qed.

Lemma same_shape_fill ctx : forall t t', same_shape t t' -> same_shape (fill ctx t) (fill ctx t').
Proof.
  induction ctx as [|[] ctx IH]; intros t t' H; [done|..]; apply IH; cbn; auto using same_shape_refl.
Qed.

Lemma same_shape_bal t : forall t' n, same_shape t t' -> balanced t n -> balanced t' n /\ colour_of t' = colour_of t.
Proof.
  induction t as [|c l IHl a k r IHr]; intros [|c' l' a' k' r'] n; cbn [same_shape]; try done.
  intros (<- & Hl & Hr) Hb. split; [|done]. apply balanced_inv in Hb. destruct c.
  - destruct Hb as (n' & -> & Bl & Br). destruct (IHl _ _ Hl Bl), (IHr _ _ Hr Br). by constructor.
  - destruct Hb as (Bl & Br & Cl & Cr). destruct (IHl _ _ Hl Bl), (IHr _ _ Hr Br). constructor; congruence.
Qed.

Lemma same_shape_rb t t' : same_shape t t' -> rb t -> rb t'.
Proof. intros H [Hc [n Hb]]. destruct (same_shape_bal _ _ _ H Hb) as [? E1]. split; [congruence|eauto]. Qed.

Lemma elem_focus t : forall k a, (k, a) ∈ inorder t -> exists ctx c l r, t = fill ctx (N c l a k r).
Proof.
  induction t as [|c l IHl b kb r IHr]; intros k a; cbn [inorder]; [by intros ?%elem_of_nil|].
  intros [H|[[= -> ->]|H]%elem_of_cons]%elem_of_app.
  - destruct (IHl _ _ H) as (ctx & c' & l' & r' & ->). exists (ctx ++ [FL c b kb r]), c', l', r'. by rewrite fill_app.
  - by exists [], c, l, r.
  - destruct (IHr _ _ H) as (ctx & c' & l' & r' & ->). exists (ctx ++ [FR c l b kb]), c', l', r'. by rewrite fill_app.
Qed.
End Shape.

(** ** rbtree_delete *)

Section Remove.
Context {K : Type} (cmp : K -> K -> Z) `{!TotalCmp cmp}.
Implicit Types (t l r m : @tree K) (s : rbtree K) (ctx : list (@frame K)) (a : addr) (k : K).

Lemma part_mid k L1 k' a L2 : sorted cmp (L1 ++ (k', a) :: L2) -> cmp k k' = 0 ->
  below cmp k (L1 ++ (k', a) :: L2) = L1 /\ above cmp k (L1 ++ (k', a) :: L2) = L2.
Proof.
  intros Hs Hk. destruct (sorted_mid cmp _ _ _ _ Hs) as (_ & _ & H2 & H1).
  destruct (part_app cmp k L1 ((k', a) :: L2)) as (-> & _ & ->).
  destruct (part_cons cmp k (k', a) L2) as (-> & _ & ->). cbn [fst]. rewrite !decide_False by lia.
  destruct (part_below cmp k L1) as (-> & _ & ->); [apply H1; lia|].
  destruct (part_above cmp k L2) as (-> & _ & ->); [apply H2; lia|]. by rewrite app_nil_r.
Qed.

Record removed s (L : list (K * addr)) s' : Prop := {
  rm_count : s'.(count) = u64 (s.(count) - 1);
  rm_other : forall x, x ∉ L.*2 -> s'.(nodes) !! x = s.(nodes) !! x;
  rm_keys : forall x, key <$> s'.(nodes) !! x = key <$> s.(nodes) !! x;
}.

(** Bringing the node to where it has one child at most. *)
Lemma delete_sink s ctx c l a k r : rep s (fill ctx (N c l a k r)) -> rb (fill ctx (N c l a k r)) ->
  exists s' ctx' c' l' r',
    (if decide (root_of l <> None /\ root_of r <> None) then
       fuel ← walk_fuel; smright ← leftmost fuel (root_of r); delete_swap (Some a) smright
     else mret tt) s = Ok (tt, s') /\
    rep s' (fill ctx' (N c' l' a k r')) /\ rb (fill ctx' (N c' l' a k r')) /\ (l' = E \/ r' = E) /\
    inorder (fill ctx' (only_child l' r')) = before ctx ++ inorder l ++ inorder r ++ after ctx /\
    addrs (fill ctx' (N c' l' a k r')) ≡ₚ addrs (fill ctx (N c l a k r)) /\
    touches (addrs (fill ctx (N c l a k r))) s s'.
Proof.
  intros R Hrb. destruct (decide (root_of l <> None /\ root_of r <> None)) as [[Hl Hr]|Hor].
  - destruct (rep_focus _ _ _ R) as (_ & (_ & _ & Tr) & _). pose proof (rep_size _ _ R) as Hsz.
    rewrite addrs_fill, length_app in Hsz. cbn [addrs] in Hsz. rewrite length_app in Hsz. cbn [length] in Hsz.
    pose proof (height_addrs r).
    destruct (leftmost_ok r (S (size s.(nodes))) (Some a) s) as (ctx2 & c2 & b & kb & r2 & -> & Hb2 & El);
      [by destruct r|done|lia|].
    destruct (delete_swap_rep s ctx c l a k ctx2 c2 b kb r2 R) as (s' & Es & R' & V).
    exists s', (ctx2 ++ FR c l b kb :: ctx), c2, E, r2. rewrite !fill_app. cbn [fill fill1 only_child].
    split; [|split; [done|split; [|split; [by left|split; [|split; [|done]]]]]].
    + unfold walk_fuel. erewrite st_bind_ok by reflexivity. erewrite st_bind_ok by exact El. exact Es.
    + eapply same_shape_rb; [|exact Hrb]. apply same_shape_fill. cbn. split; [done|]. split; [apply same_shape_refl|].
      by apply same_shape_fill; cbn; auto using same_shape_refl.
    + rewrite inorder_fill. cbn [inorder]. rewrite !inorder_fill, Hb2. cbn [app inorder].
      rewrite <- !app_assoc. cbn [app]. by rewrite <- !app_assoc.
    + rewrite !addrs_fill, !swap_addrs. solve_Permutation.
  - exists s, ctx, c, l, r. assert (l = E \/ r = E) as HE.
    { destruct l; [by left|]. destruct r; [by right|]. exfalso. by apply Hor. }
    split; [done|]. split; [done|]. split; [done|]. split; [done|]. split; [|done].
    rewrite inorder_fill. destruct HE as [->| ->]; [done|]. cbn. by destruct l; cbn; rewrite ?app_nil_r.
Qed.

Lemma delete_none s t k : rep s t -> sorted cmp (inorder t) -> at_key cmp k (inorder t) = [] ->
  rbtree_delete cmp k s = Ok (None, s).
Proof.
  intros R Hs Hk. unfold rbtree_delete. erewrite st_bind_ok by (by apply (search_spec cmp s t)).
  unfold spec_search. rewrite Hk. done.
Qed.

Lemma delete_some s t k x L : rep s t -> rb t -> sorted cmp (inorder t) -> at_key cmp k (inorder t) = x :: L ->
  exists s' t', rbtree_delete cmp k s = Ok (Some x.2, s') /\ rep s' t' /\ rb t' /\
    inorder t' = below cmp k (inorder t) ++ above cmp k (inorder t) /\ removed s (inorder t) s'.
Proof.
  intros R Hrb Hs Hk. destruct x as [k' a].
  assert ((k', a) ∈ inorder t /\ cmp k k' = 0) as [Hin Hk'].
  { assert ((k', a) ∈ at_key cmp k (inorder t)) as Hx by (rewrite Hk; by left).
    by apply list_elem_of_filter in Hx as [? ?]. }
  destruct (elem_focus t k' a Hin) as (ctx & c & l & r & ->).
  set (s0 := mk_rbtree s.(nodes) s.(root) (u64 (s.(count) - 1))).
  assert (rep s0 (fill ctx (N c l a k' r))) as R0 by (destruct R; by split).
  destruct (delete_sink s0 ctx c l a k' r R0 Hrb) as (s1 & ctx1 & c1 & l1 & r1 & E1 & R1 & Hrb1 & HE & Ei & Pa & V1).
  destruct (delete_unlink_rep s1 ctx1 c1 l1 a k' r1 R1 Hrb1 HE) as (s2 & t2 & E2 & R2 & Hrb2 & Ei2 & V2).
  exists s2, t2. split; [|split; [done|split; [done|split]]].
  - unfold rbtree_delete. erewrite st_bind_ok by (by apply (search_spec cmp s _ k R Hs)).
    unfold spec_search. rewrite Hk. cbn [head fmap option_fmap option_map snd]. rewrite decide_False by done.
    erewrite st_bind_ok by reflexivity. fold s0. pose proof (rep_node _ _ _ _ _ _ _ R0) as Ha. rd Ha. rd Ha.
    erewrite st_bind_ok by exact E1. by erewrite st_bind_ok by exact E2.
  - rewrite Ei2, Ei, inorder_fill. cbn [inorder].
    assert (before ctx ++ (inorder l ++ (k', a) :: inorder r) ++ after ctx
      = (before ctx ++ inorder l) ++ (k', a) :: inorder r ++ after ctx) as EL by (by rewrite <- !app_assoc).
    rewrite inorder_fill in Hs. cbn [inorder] in Hs. rewrite EL in Hs |- *.
    destruct (part_mid k _ _ _ _ Hs Hk') as [-> ->]. by rewrite <- !app_assoc.
  - split.
    + by rewrite (to_count _ _ _ V2), (to_count _ _ _ V1).
    + intros x Hx. rewrite <- addrs_inorder in Hx. rewrite (to_other _ _ _ V2) by (by rewrite Pa). by rewrite (to_other _ _ _ V1).
    + intros x. by rewrite (to_keys _ _ _ V2), (to_keys _ _ _ V1).
Qed.
End Remove.
