(* ===== verification/RbtreeApi.v ===== *)
(** * The red-black tree as an ordered map

    Iteration, traversal and the contract of the whole interface: the tree behaves
    as the list of its nodes in key order. *)

From S2P Require Import Prelude Rbtree RbtreeTree RbtreeInsert RbtreeAdd.
From S2P Require Import RbtreeFixup RbtreeDelete RbtreeRemove.

Section Walk.
Context {K : Type}.
Implicit Types (t l r m : @tree K) (s : rbtree K) (ctx : list (@frame K)) (a : addr) (k : K) (p : ptr).

Lemma height_fuel s t : rep s t -> (height t <= size s.(nodes))%nat.
Proof. intros R. pose proof (rep_size _ _ R). pose proof (height_addrs t). lia. Qed.

Lemma first_ok s t : rep s t -> rbtree_first s = Ok (snd <$> head (inorder t), s).
Proof.
  intros R. unfold rbtree_first, get_root, walk_fuel. do 2 erewrite st_bind_ok by reflexivity.
  rewrite (rep_root _ _ R). pose proof (height_fuel _ _ R). destruct t as [|c l a k r]; [done|].
  destruct (leftmost_ok (N c l a k r) (S (size s.(nodes))) None s) as (ctx & c' & b & kb & r' & Ef & Hb & El);
    [done|apply R|lia|]. rewrite El, Ef, inorder_fill, Hb. done.
Qed.

Lemma last_ok s t : rep s t -> rbtree_last s = Ok (snd <$> last (inorder t), s).
Proof.
  intros R. unfold rbtree_last, get_root, walk_fuel. do 2 erewrite st_bind_ok by reflexivity.
  rewrite (rep_root _ _ R). pose proof (height_fuel _ _ R). destruct t as [|c l a k r]; [done|].
  destruct (rightmost_ok (N c l a k r) (S (size s.(nodes))) None s) as (ctx & c' & l' & b & kb & Ef & Hb & El);
    [done|apply R|lia|]. rewrite El, Ef, inorder_fill, Hb, app_nil_r. cbn [inorder].
  by rewrite app_assoc, last_snoc.
Qed.

Lemma next_up_ok ctx : forall fuel s t, rep s (fill ctx t) -> t <> E -> (length ctx <= fuel)%nat ->
  next_up fuel (root_of t) (up None ctx) s = Ok (snd <$> head (after ctx), s).
Proof.
  induction ctx as [|f ctx IH]; intros fuel s t R Ht Hf; [by destruct fuel|].
  pose proof (rep_frame _ _ _ _ R) as Hn. destruct fuel as [|fuel]; [cbn in Hf; lia|]. cbn [next_up up].
  rewrite decide_False by done. rd Hn. destruct f as [c a k r|c l a k]; cbn [right_ frame_addr after head fmap] in *.
  - rewrite decide_False; [done|]. destruct t as [|tc tl x kx tr]; [done|].
    intros E1. by apply (focus_ne s (FL c a k r) ctx tc tl x kx tr R).
  - rewrite decide_True by done. rd Hn. apply (IH fuel s (fill1 (FR c l a k) t)); [done|done|]. cbn in Hf. lia.
Qed.

Lemma prev_up_ok ctx : forall fuel s t, rep s (fill ctx t) -> t <> E -> (length ctx <= fuel)%nat ->
  prev_up fuel (root_of t) (up None ctx) s = Ok (snd <$> last (before ctx), s).
Proof.
  induction ctx as [|f ctx IH]; intros fuel s t R Ht Hf; [by destruct fuel|].
  pose proof (rep_frame _ _ _ _ R) as Hn. destruct fuel as [|fuel]; [cbn in Hf; lia|]. cbn [prev_up up].
  rewrite decide_False by done. rd Hn. destruct f as [c a k r|c l a k]; cbn [left_ frame_addr before] in *.
  - rewrite decide_True by done. rd Hn. apply (IH fuel s (fill1 (FL c a k r) t)); [done|done|]. cbn in Hf. lia.
  - rewrite decide_False; [by rewrite app_assoc, last_snoc|]. destruct t as [|tc tl x kx tr]; [done|].
    intros E1. by apply (focus_ne s (FR c l a k) ctx tc tl x kx tr R).
Qed.

(** The neighbours of an entry. *)
Lemma inorder_split ctx c l a k r :
  inorder (fill ctx (N c l a k r)) = (before ctx ++ inorder l) ++ (k, a) :: inorder r ++ after ctx.
Proof. rewrite inorder_fill. cbn [inorder]. by rewrite <- !app_assoc. Qed.

Lemma next_ok s ctx c l a k r : rep s (fill ctx (N c l a k r)) ->
  rbtree_next (Some a) s = Ok (snd <$> head (inorder r ++ after ctx), s).
Proof.
  intros R. pose proof (rep_node _ _ _ _ _ _ _ R) as Ha. pose proof (height_fuel _ _ R) as Hh.
  pose proof (rep_size _ _ R) as Hs. pose proof (length_ctx ctx (N c l a k r)) as Hlen.
  unfold rbtree_next, walk_fuel. erewrite st_bind_ok by reflexivity. rd Ha. destruct r as [|rc rl b kb rr].
  - rewrite decide_False by tauto. rd Ha. apply (next_up_ok ctx _ s (N c l a k E)); [done|done|lia].
  - rewrite decide_True by done. destruct (rep_focus _ _ _ R) as (_ & (_ & _ & Tr) & _).
    rewrite addrs_fill, length_app in Hs. pose proof (height_addrs (N rc rl b kb rr)).
    cbn [addrs] in Hs. rewrite length_app in Hs. cbn [length] in Hs. cbn [addrs] in H.
    destruct (leftmost_ok (N rc rl b kb rr) (S (size s.(nodes))) (Some a) s) as (ctx2 & c2 & x & kx & r2 & Ef & Hb & El);
      [done|done|lia|]. change (Some b) with (root_of (N rc rl b kb rr)). rewrite El, Ef, inorder_fill, Hb. done.
Qed.

Lemma previous_ok s ctx c l a k r : rep s (fill ctx (N c l a k r)) ->
  rbtree_previous (Some a) s = Ok (snd <$> last (before ctx ++ inorder l), s).
Proof.
  intros R. pose proof (rep_node _ _ _ _ _ _ _ R) as Ha. pose proof (height_fuel _ _ R) as Hh.
  pose proof (rep_size _ _ R) as Hs. pose proof (length_ctx ctx (N c l a k r)) as Hlen.
  unfold rbtree_previous, walk_fuel. erewrite st_bind_ok by reflexivity. rd Ha. destruct l as [|lc ll b kb lr].
  - rewrite decide_False by tauto. rd Ha. cbn [inorder]. rewrite app_nil_r.
    apply (prev_up_ok ctx _ s (N c E a k r)); [done|done|lia].
  - rewrite decide_True by done. destruct (rep_focus _ _ _ R) as (_ & (_ & Tl & _) & _).
    rewrite addrs_fill, length_app in Hs. pose proof (height_addrs (N lc ll b kb lr)).
    cbn [addrs] in Hs. rewrite length_app in Hs. cbn [addrs] in H.
    destruct (rightmost_ok (N lc ll b kb lr) (S (size s.(nodes))) (Some a) s) as (ctx2 & c2 & l2 & x & kx & Ef & Hb & El);
      [done|done|lia|]. change (Some b) with (root_of (N lc ll b kb lr)). rewrite El, Ef, inorder_fill, Hb, app_nil_r.
    cbn [inorder]. by rewrite !app_assoc, last_snoc.
Qed.
End Walk.

(** ** Iteration over the whole tree *)

Section Iterate.
Context {K : Type}.
Implicit Types (t : @tree K) (s : rbtree K) (a : addr).

(** [for(node = n; node != RBTREE_NULL; node = next(node))], collecting the nodes. *)
Fixpoint iterate (fuel : nat) (next : ptr -> ST (rbtree K) ptr) (n : ptr) : ST (rbtree K) (list addr) :=
  match n with
  | None => mret []
  | Some a =>
      match fuel with
      | O => out_of_fuel
      | S fuel' => n' ← next n; L ← iterate fuel' next n'; mret (a :: L)
      end
  end.

(** [RBTREE_FOR]: the nodes it visits. *)
Definition RBTREE_FOR : ST (rbtree K) (list addr) :=
  n ← rbtree_first; fuel ← walk_fuel; iterate fuel rbtree_next n.

(** The same from the last node down. *)
Definition for_backwards : ST (rbtree K) (list addr) :=
  n ← rbtree_last; fuel ← walk_fuel; iterate fuel rbtree_previous n.

Lemma head_fmap {A B} (f : A -> B) (L : list A) : head (f <$> L) = f <$> head L.
Proof. by destruct L. Qed.

Lemma iterate_ok (next : ptr -> ST (rbtree K) ptr) s (L : list addr) :
  (forall L1 a L2, L = L1 ++ a :: L2 -> next (Some a) s = Ok (head L2, s)) ->
  forall L1 L2 fuel, L = L1 ++ L2 -> (length L2 <= fuel)%nat -> iterate fuel next (head L2) s = Ok (L2, s).
Proof.
  intros Hn L1 L2. revert L1. induction L2 as [|a L2 IH]; intros L1 fuel E1 Hf; [by destruct fuel|].
  destruct fuel as [|fuel]; [cbn in Hf; lia|]. cbn [iterate head].
  erewrite st_bind_ok by (by eapply Hn). erewrite st_bind_ok; [done|].
  apply (IH (L1 ++ [a])); [by rewrite <- app_assoc|cbn in Hf; lia].
Qed.

Lemma inorder_addr_focus t L1 a L2 : addrs t = L1 ++ a :: L2 -> NoDup (addrs t) ->
  exists ctx c l k r, t = fill ctx (N c l a k r) /\ (inorder r ++ after ctx).*2 = L2 /\
    (before ctx ++ inorder l).*2 = L1.
Proof.
  intros E1 Nd. assert (a ∈ addrs t) as Hin by (rewrite E1; set_solver).
  rewrite addrs_inorder in Hin. apply list_elem_of_fmap in Hin as ([k a'] & -> & Hin).
  destruct (elem_focus t k a' Hin) as (ctx & c & l & r & ->). exists ctx, c, l, k, r. split; [done|].
  rewrite addrs_inorder, inorder_split, fmap_app, fmap_cons in E1, Nd. cbn [snd] in *.
  assert (forall (A B C D : list addr) x, NoDup (A ++ x :: B) -> A ++ x :: B = C ++ x :: D -> A = C /\ B = D) as Hu.
  { clear. intros A. induction A as [|y A IH]; intros B C D x Nd E1; destruct C as [|z C]; cbn in E1; injection E1 as ?; subst.
    - done.
    - cbn in Nd. apply NoDup_cons in Nd as [Nx _]. set_solver.
    - cbn in Nd. apply NoDup_cons in Nd as [Nx _]. set_solver.
    - cbn in Nd. apply NoDup_cons in Nd as [_ Nd]. by destruct (IH B C D x Nd) as [-> ->]. }
  destruct (Hu _ _ _ _ _ Nd E1) as [-> ->]. done.
Qed.

(** The neighbours of an entry of the list. *)
Lemma neighbours_ok s t L1 k a L2 : rep s t -> inorder t = L1 ++ (k, a) :: L2 ->
  rbtree_next (Some a) s = Ok (snd <$> head L2, s) /\ rbtree_previous (Some a) s = Ok (snd <$> last L1, s).
Proof.
  intros R EL. assert (addrs t = L1.*2 ++ a :: L2.*2) as Es by (by rewrite addrs_inorder, EL, fmap_app).
  destruct (inorder_addr_focus t _ _ _ Es (rep_nodup _ _ R)) as (ctx & c & l & k' & r & -> & E2 & E3).
  erewrite next_ok, previous_ok by exact R. by rewrite <- head_fmap, <- fmap_last, E2, E3, head_fmap, fmap_last.
Qed.

Lemma for_ok s t : rep s t -> RBTREE_FOR s = Ok (addrs t, s).
Proof.
  intros R. unfold RBTREE_FOR. erewrite st_bind_ok by (by apply first_ok). unfold walk_fuel.
  erewrite st_bind_ok by reflexivity. rewrite <- head_fmap, <- addrs_inorder. pose proof (rep_size _ _ R).
  apply (iterate_ok rbtree_next s (addrs t)) with (L1 := []); [|done|lia].
  intros L1 a L2 E1. destruct (inorder_addr_focus _ _ _ _ E1 (rep_nodup _ _ R)) as (ctx & c & l & k & r & -> & <- & _).
  erewrite next_ok by exact R. by rewrite head_fmap.
Qed.

Lemma backwards_ok s t : rep s t -> for_backwards s = Ok (reverse (addrs t), s).
Proof.
  intros R. unfold for_backwards. erewrite st_bind_ok by (by apply last_ok). unfold walk_fuel.
  erewrite st_bind_ok by reflexivity. pose proof (rep_size _ _ R).
  rewrite <- fmap_last, <- addrs_inorder, <- head_reverse.
  apply (iterate_ok rbtree_previous s (reverse (addrs t))) with (L1 := []); [|done|rewrite length_reverse; lia].
  intros L1 a L2 E1. apply (f_equal reverse) in E1. rewrite reverse_involutive, reverse_app, reverse_cons, <- app_assoc in E1.
  destruct (inorder_addr_focus _ _ _ _ E1 (rep_nodup _ _ R)) as (ctx & c & l & k & r & -> & _ & E2).
  erewrite previous_ok by exact R. rewrite <- fmap_last, E2. by rewrite last_reverse.
Qed.
End Iterate.

(** ** traverse_postorder with a callback that frees the node *)

Section Free.
Context {K : Type}.
Implicit Types (t : @tree K) (s : rbtree K) (a : addr) (p : ptr).

(** [free(node)]: the node must be there, and is gone. *)
Definition free_node a : ST (rbtree K) unit := fun s =>
  match s.(nodes) !! a with
  | Some _ => Ok (tt, with_nodes (delete a s.(nodes)) s)
  | None => Fault Undefined
  end.

Definition without (h : gmap addr (rbnode K)) (A : list addr) : gmap addr (rbnode K) := foldr delete h A.

Lemma lookup_without h A x : without h A !! x = if decide (x ∈ A) then None else h !! x.
Proof.
  induction A as [|a A IH]; cbn [without foldr]; [done|]. fold (without h A). destruct (decide (x = a)) as [->|Hne].
  - rewrite lookup_delete_eq, decide_True; [done|by left].
  - rewrite lookup_delete_ne, IH by done. destruct (decide (x ∈ A)) as [H|H].
    + rewrite decide_True; [done|by right].
    + rewrite decide_False; [done|]. by intros [?|?]%elem_of_cons.
Qed.

Lemma traverse_free t : forall fuel p s, tree_rep s.(nodes) p t -> NoDup (addrs t) -> (height t <= fuel)%nat ->
  traverse_post fuel free_node (root_of t) s = Ok (tt, with_nodes (without s.(nodes) (addrs t)) s).
Proof.
  induction t as [|c l IHl a k r IHr]; intros fuel p s T Nd Hf; [destruct fuel; by destruct s|].
  cbn [height] in Hf. destruct fuel as [|fuel]; [lia|]. destruct T as (Ha & Hl & Hr). cbn [addrs] in Nd |- *.
  apply NoDup_app in Nd as (Nl & Xl & [Na Nr]%NoDup_cons). cbn [traverse_post root_of]. rd Ha.
  assert (a ∉ addrs l) as Nal by (intros H; apply (Xl a H); by left).
  erewrite st_bind_ok by (apply (IHl fuel (Some a)); [done|done|lia]). set (h1 := without s.(nodes) (addrs l)).
  assert (h1 !! a = s.(nodes) !! a) as E1 by (unfold h1; by rewrite lookup_without, decide_False).
  erewrite run_get by (cbn; rewrite E1; exact Ha). cbn [right_]. erewrite st_bind_ok.
  2: { apply (IHr fuel (Some a)); [|done|lia]. cbn. eapply tree_rep_ext; [|exact Hr]. intros x Hx. unfold h1.
       rewrite lookup_without, decide_False; [done|]. intros H. apply (Xl x H). by right. }
  unfold free_node, with_nodes. cbn [nodes root count]. fold h1.
  rewrite lookup_without, decide_False, E1, Ha by done. do 2 f_equal. f_equal.
  apply map_eq. intros x. destruct (decide (x = a)) as [->|Hne].
  - rewrite lookup_delete_eq, lookup_without, decide_True; [done|set_solver].
  - rewrite lookup_delete_ne by done. unfold h1. rewrite !lookup_without.
    repeat case_decide; try done; set_solver.
Qed.
End Free.

(** ** The height *)

Section Height.
Context {K : Type}.
Implicit Types (t : @tree K).

Lemma balanced_height t n : balanced t n ->
  (height t <= 2 * n + (if decide (colour_of t = RED) then 1 else 0))%nat /\ (2 ^ n <= S (length (addrs t)))%nat.
Proof.
  induction 1 as [|l a k r n Hl [IHl Sl] Hr [IHr Sr]|l a k r n Hl [IHl Sl] Hr [IHr Sr] Cl Cr];
    cbn [height addrs colour_of]; [done| |].
  - rewrite decide_False by done. rewrite length_app. cbn [length]. rewrite Nat.pow_succ_r'.
    destruct (decide (colour_of l = RED)), (decide (colour_of r = RED)); lia.
  - rewrite decide_True by done. rewrite length_app. cbn [length].
    rewrite decide_False in IHl by congruence. rewrite decide_False in IHr by congruence. lia.
Qed.

Lemma rb_height t : rb t -> (height t <= 2 * Nat.log2 (S (length (addrs t))))%nat.
Proof.
  intros [Hc [n Hb]]. destruct (balanced_height t n Hb) as [H1 H2]. rewrite decide_False in H1 by congruence.
  assert (n <= Nat.log2 (S (length (addrs t))))%nat; [|lia]. apply Nat.log2_le_pow2; lia.
Qed.
End Height.

(** ** The contract *)

Section Contract.
Context {K : Type} (cmp : K -> K -> Z) `{!TotalCmp cmp}.
Implicit Types (t : @tree K) (s : rbtree K) (a : addr) (k : K) (L : list (K * addr)).

Inductive op :=
  | Insert (a : addr)
  | Delete (k : K)
  | Search (k : K)
  | FindLessEqual (k : K)
  | First
  | Last
  | For.

Inductive answer :=
  | Node (p : ptr)
  | LessEqual (exact : bool) (p : ptr)
  | Nodes (L : list addr).

Definition run_op (o : op) : ST (rbtree K) answer :=
  match o with
  | Insert a => p ← rbtree_insert cmp (Some a); mret (Node p)
  | Delete k => p ← rbtree_delete cmp k; mret (Node p)
  | Search k => p ← rbtree_search cmp k; mret (Node p)
  | FindLessEqual k => '(e, p) ← rbtree_find_less_equal cmp k; mret (LessEqual e p)
  | First => p ← rbtree_first; mret (Node p)
  | Last => p ← rbtree_last; mret (Node p)
  | For => L ← RBTREE_FOR; mret (Nodes L)
  end.

Fixpoint run (os : list op) : ST (rbtree K) (list answer) :=
  match os with
  | [] => mret []
  | o :: os' => x ← run_op o; xs ← run os'; mret (x :: xs)
  end.

(** The specification: the entries in key order.  [kf]: the key in a node. *)
Definition spec_op (kf : addr -> option K) (o : op) L : answer * list (K * addr) :=
  match o with
  | Insert a =>
      match kf a with
      | Some k =>
          match at_key cmp k L with
          | [] => (Node (Some a), below cmp k L ++ (k, a) :: above cmp k L)
          | _ => (Node None, L)
          end
      | None => (Node None, L)
      end
  | Delete k =>
      match at_key cmp k L with
      | [] => (Node None, L)
      | x :: _ => (Node (Some x.2), below cmp k L ++ above cmp k L)
      end
  | Search k => (Node (snd <$> head (at_key cmp k L)), L)
  | FindLessEqual k =>
      match at_key cmp k L with
      | x :: _ => (LessEqual true (Some x.2), L)
      | [] => (LessEqual false (snd <$> last (below cmp k L)), L)
      end
  | First => (Node (snd <$> head L), L)
  | Last => (Node (snd <$> last L), L)
  | For => (Nodes L.*2, L)
  end.

Fixpoint spec_run (kf : addr -> option K) (os : list op) L : list answer * list (K * addr) :=
  match os with
  | [] => ([], L)
  | o :: os' => let (x, L1) := spec_op kf o L in let (xs, L2) := spec_run kf os' L1 in (x :: xs, L2)
  end.

(** What holds between two operations. *)
Record holds (kf : addr -> option K) s L : Prop := {
  h_tree : exists t, rep s t /\ rb t /\ inorder t = L;
  h_sorted : sorted cmp L;
  h_count : s.(count) = u64 (Z.of_nat (length L));
  h_keys : forall a, key <$> s.(nodes) !! a = kf a;
}.

Lemma u64_add_idemp x y : u64 (u64 x + y) = u64 (x + y).
Proof. unfold u64. by rewrite Zplus_mod_idemp_l. Qed.

Lemma rep_elem s t k a : rep s t -> (k, a) ∈ inorder t -> key <$> s.(nodes) !! a = Some k.
Proof.
  intros R Hin. destruct (elem_focus t k a Hin) as (ctx & c & l & r & ->). by rewrite (rep_node _ _ _ _ _ _ _ R).
Qed.

Lemma insert_step kf s L a k : holds kf s L -> kf a = Some k ->
  exists s', run_op (Insert a) s = Ok ((spec_op kf (Insert a) L).1, s') /\ holds kf s' (spec_op kf (Insert a) L).2.
Proof.
  intros [(t & R & Hrb & <-) Hs Hc Hk] Ha. cbn [run_op spec_op]. rewrite Ha.
  pose proof (Hk a) as Hka. rewrite Ha in Hka. destruct (s.(nodes) !! a) as [n|] eqn:En; [|done].
  injection Hka as <-. destruct (at_key cmp (key n) (inorder t)) as [|x L] eqn:Eat.
  - assert (a ∉ addrs t) as Hna.
    { intros Hin. rewrite addrs_inorder in Hin. apply list_elem_of_fmap in Hin as ([k a'] & -> & Hin). cbn in En.
      pose proof (rep_elem _ _ _ _ R Hin) as Hk'. cbn in Hk'. rewrite En in Hk'. injection Hk' as <-.
      by apply (at_key_elem cmp) in Hin. }
    destruct (insert_new cmp s t a n R Hrb Hs En Eat Hna) as (s' & t' & E1 & R' & Hrb' & Ei & [A1 A2 A3]).
    exists s'. split; [by erewrite st_bind_ok by exact E1|]. split.
    + by exists t'.
    + by apply sorted_add.
    + rewrite A1, Hc, u64_add_idemp. f_equal. cbn [snd]. destruct (sorted_split cmp (key n) _ Hs) as [E2 _].
      rewrite E2 at 1. rewrite Eat, !length_app. cbn [length]. lia.
    + intros x. by rewrite A3.
  - exists s. erewrite st_bind_ok; [split; [done|]|].
    + split; [by exists t|done|done|done].
    + eapply (insert_dup cmp s t); [done|done|done|]. by rewrite Eat.
Qed.

Lemma delete_step kf s L k : holds kf s L ->
  exists s', run_op (Delete k) s = Ok ((spec_op kf (Delete k) L).1, s') /\ holds kf s' (spec_op kf (Delete k) L).2.
Proof.
  intros [(t & R & Hrb & <-) Hs Hc Hk]. cbn [run_op spec_op].
  destruct (at_key cmp k (inorder t)) as [|x L] eqn:Eat.
  - exists s. erewrite st_bind_ok by (by apply (delete_none cmp s t)). split; [done|]. by split; [exists t|..].
  - destruct (delete_some cmp s t k x L R Hrb Hs Eat) as (s' & t' & E1 & R' & Hrb' & Ei & [A1 A2 A3]).
    exists s'. split; [by erewrite st_bind_ok by exact E1|]. split.
    + by exists t'.
    + by apply sorted_remove.
    + rewrite A1, Hc. unfold Z.sub. rewrite u64_add_idemp. f_equal. cbn [snd].
      destruct (sorted_split cmp k _ Hs) as [E2 E3]. rewrite E2 at 1. rewrite Eat in *. rewrite !length_app in *. cbn [length] in *. lia.
    + intros y. by rewrite A3.
Qed.

Lemma op_step kf s L o : holds kf s L -> (forall a, o = Insert a -> is_Some (kf a)) ->
  exists s', run_op o s = Ok ((spec_op kf o L).1, s') /\ holds kf s' (spec_op kf o L).2.
Proof.
  intros H Ho. destruct o as [a|k|k|k| | |].
  - destruct (Ho a eq_refl) as [k Hk]. by eapply insert_step.
  - by apply delete_step.
  - exists s. pose proof H as [(t & R & Hrb & <-) Hs _ _]. split; [|done]. cbn.
    by erewrite st_bind_ok by (by apply (search_spec cmp s t)).
  - exists s. pose proof H as [(t & R & Hrb & <-) Hs _ _]. cbn.
    erewrite st_bind_ok by (by apply (find_less_equal_spec cmp s t)). unfold spec_less_equal.
    by destruct (at_key cmp k (inorder t)).
  - exists s. pose proof H as [(t & R & Hrb & <-) Hs _ _]. split; [|done]. cbn. by erewrite st_bind_ok by (by apply first_ok).
  - exists s. pose proof H as [(t & R & Hrb & <-) Hs _ _]. split; [|done]. cbn. by erewrite st_bind_ok by (by apply last_ok).
  - exists s. pose proof H as [(t & R & Hrb & <-) Hs _ _]. split; [|done]. cbn. rewrite <- addrs_inorder.
    by erewrite st_bind_ok by (by apply for_ok).
Qed.

Lemma run_ok kf os : forall s L, holds kf s L -> (forall a, Insert a ∈ os -> is_Some (kf a)) ->
  exists s', run os s = Ok ((spec_run kf os L).1, s') /\ holds kf s' (spec_run kf os L).2.
Proof.
  induction os as [|o os IH]; intros s L H Ho; [by exists s|]. cbn [run spec_run].
  destruct (op_step kf s L o H) as (s1 & E1 & H1); [intros a ->; apply Ho; by left|].
  destruct (spec_op kf o L) as [x L1]. cbn [fst snd] in *.
  destruct (IH s1 L1 H1) as (s2 & E2 & H2); [intros a Ha; apply Ho; by right|].
  destruct (spec_run kf os L1) as [xs L2]. exists s2. split; [|done].
  erewrite st_bind_ok by exact E1. by erewrite st_bind_ok by exact E2.
Qed.

Lemma init_holds h : holds (fun a => key <$> h !! a) (rbtree_init h) [].
Proof. split; [exists E; split; [by split; [|done|apply NoDup_nil_2]|split; [|done]]|constructor|done|done]. split; [done|]. exists 0%nat. constructor. Qed.
End Contract.

(** ** Properties *)

Section Properties.
Context {K : Type} (cmp : K -> K -> Z) `{!TotalCmp cmp} (h : gmap addr (rbnode K)).

Abbreviation keys := (fun a => key <$> h !! a).

Lemma run_tree os : (forall a, Insert a ∈ os -> a ∈ dom h) ->
  exists s t, run cmp os (rbtree_init h) = Ok ((spec_run cmp keys os []).1, s) /\
    rep s t /\ rb t /\ inorder t = (spec_run cmp keys os []).2 /\ sorted cmp (spec_run cmp keys os []).2 /\
    s.(count) = u64 (Z.of_nat (length (spec_run cmp keys os []).2)).
Proof.
  intros Ho. destruct (run_ok cmp keys os (rbtree_init h) []) as (s & E1 & [(t & R & Hrb & Ei) Hs Hc _]).
  - by apply init_holds.
  - intros a Ha. destruct (proj1 (elem_of_dom _ _) (Ho a Ha)) as [n Hn]. rewrite Hn. by eexists.
  - by exists s, t.
Qed.

(** C22. From an empty tree, any sequence of insertions of existing nodes, deletions,
    lookups and iterations runs without touching the null node or a node outside of
    the heap, without an assertion failing and within the fuel; the answers are
    those of the list of entries in strict key order (a duplicate is refused, a
    deletion returns the node, a lookup the greatest entry not above the key), and
    the nodes in memory form a red-black tree of exactly that list. *)
Theorem rbtree_run_refines (os : list op) (xs : list answer) (L : list (K * addr)) :
  (forall a, Insert a ∈ os -> a ∈ dom h) -> spec_run cmp keys os [] = (xs, L) ->
  exists s t, run cmp os (rbtree_init h) = Ok (xs, s) /\ rep s t /\ rb t /\ inorder t = L /\ sorted cmp L /\
    s.(count) = u64 (Z.of_nat (length L)).
Proof. intros Ho E1. pose proof (run_tree os Ho) as H. by rewrite E1 in H. Qed.

(** C23. After any such sequence the iteration macro visits every node once in key
    order, the walk with rbtree_last and rbtree_previous visits them in the reverse
    order, and rbtree_next and rbtree_previous of a node are its neighbours, or
    RBTREE_NULL at the ends. *)
Theorem rbtree_iteration (os : list op) : (forall a, Insert a ∈ os -> a ∈ dom h) ->
  let L := (spec_run cmp keys os []).2 in
  exists s, run cmp os (rbtree_init h) = Ok ((spec_run cmp keys os []).1, s) /\
    RBTREE_FOR s = Ok (L.*2, s) /\ for_backwards s = Ok (reverse L.*2, s) /\
    forall L1 k a L2, L = L1 ++ (k, a) :: L2 ->
      rbtree_next (Some a) s = Ok (snd <$> head L2, s) /\ rbtree_previous (Some a) s = Ok (snd <$> last L1, s).
Proof.
  intros Ho L. destruct (run_tree os Ho) as (s & t & E1 & R & _ & Ei & _). exists s. split; [done|].
  assert (addrs t = L.*2) as Ea by (by rewrite addrs_inorder, Ei). rewrite <- Ea.
  split; [by apply for_ok|]. split; [by apply backwards_ok|]. intros L1 k a L2 EL.
  apply (neighbours_ok s t L1 k); [done|]. by rewrite Ei.
Qed.

(** C24. The tree is never deeper than twice the logarithm of its size: a lookup
    makes at most [2 * log2 (count + 1) + 1] rounds of its loop. *)
Theorem rbtree_search_logarithmic (os : list op) : (forall a, Insert a ∈ os -> a ∈ dom h) ->
  let L := (spec_run cmp keys os []).2 in
  exists s, run cmp os (rbtree_init h) = Ok ((spec_run cmp keys os []).1, s) /\
    forall k, find_less_equal_loop cmp (S (2 * Nat.log2 (S (length L)))) k s.(root) None s
      = Ok (match at_key cmp k L with
            | x :: _ => (true, Some x.2)
            | [] => (false, snd <$> last (below cmp k L))
            end, s).
Proof.
  intros Ho L. destruct (run_tree os Ho) as (s & t & E1 & R & Hrb & Ei & Hs & _). exists s. split; [done|]. intros k.
  pose proof (rb_height t Hrb) as Hh. rewrite addrs_inorder, length_fmap, Ei in Hh. fold L in Hh, Ei, Hs.
  rewrite (rep_root _ _ R), (find_less_equal_loop_spec cmp k t _ None); [|by rewrite Ei|apply R|lia].
  rewrite Ei. unfold less_equal_or. destruct (at_key cmp k L); [|done]. by destruct (last (below cmp k L)).
Qed.

(** C25. Freeing the nodes of a tree in postorder is safe: no freed node is read
    again, every node of the tree is freed exactly once and no other node is. *)
Theorem traverse_postorder_frees (os : list op) : (forall a, Insert a ∈ os -> a ∈ dom h) ->
  let L := (spec_run cmp keys os []).2 in
  exists s, run cmp os (rbtree_init h) = Ok ((spec_run cmp keys os []).1, s) /\
    exists s', traverse_postorder free_node s = Ok (tt, s') /\
      forall a, s'.(nodes) !! a = if decide (a ∈ L.*2) then None else s.(nodes) !! a.
Proof.
  intros Ho L. destruct (run_tree os Ho) as (s & t & E1 & R & _ & Ei & _). exists s. split; [done|].
  pose proof (height_fuel _ _ R).
  exists (with_nodes (without s.(nodes) (addrs t)) s). split.
  - unfold traverse_postorder, get_root, walk_fuel. do 2 erewrite st_bind_ok by reflexivity. rewrite (rep_root _ _ R).
    apply (traverse_free t _ None); [apply R|apply R|lia].
  - intros a. cbn [with_nodes nodes]. rewrite lookup_without, addrs_inorder, Ei. done.
Qed.
End Properties.

(** ** Instances *)

#[export] Instance z_cmp_total : TotalCmp z_cmp.
Proof. split; unfold z_cmp; intros; lia. Qed.

Definition z_heap : gmap addr (rbnode Z) := (z_tree).(nodes).
Definition z_ops : list (@op Z) :=
  [Insert 5%positive; Insert 2%positive; Insert 7%positive; Insert 1%positive; Insert 3%positive; Insert 6%positive;
   Insert 4%positive; Insert 5%positive; Delete 2; Delete 9; FindLessEqual 2; For].

Lemma z_ops_ok a : Insert a ∈ z_ops -> a ∈ dom z_heap.
Proof.
  intros H. apply elem_of_dom. revert a H. unfold z_ops.
  assert (forall os : list (@op Z), Forall (fun o => match o with Insert a => is_Some (z_heap !! a) | _ => True end) os ->
    forall a, Insert a ∈ os -> is_Some (z_heap !! a)) as Hf.
  { intros os Hos a Ha. rewrite Forall_forall in Hos. exact (Hos _ Ha). }
  apply Hf. repeat constructor; eexists; vm_compute; reflexivity.
Qed.

Lemma rbtree_run_refines_witness : exists xs L s,
  spec_run z_cmp (fun a => key <$> z_heap !! a) z_ops [] = (xs, L) /\ length L = 6%nat /\
  run z_cmp z_ops (rbtree_init z_heap) = Ok (xs, s).
Proof.
  eexists _, _.
  destruct (rbtree_run_refines z_cmp z_heap z_ops _ _ z_ops_ok ltac:(vm_compute; reflexivity)) as (s & t & E1 & _).
  exists s. split; [vm_compute; reflexivity|]. split; [reflexivity|exact E1].
Defined.

Lemma rbtree_iteration_witness : exists s : rbtree Z, RBTREE_FOR s = Ok ([1; 3; 4; 5; 6; 7]%positive, s).
Proof.
  destruct (rbtree_iteration z_cmp z_heap z_ops z_ops_ok) as (s & _ & E1 & _). exists s. exact E1.
Defined.

Lemma rbtree_search_logarithmic_witness : exists s,
  find_less_equal_loop z_cmp 5 2 s.(root) None s = Ok ((false, Some 1%positive), s).
Proof.
  destruct (rbtree_search_logarithmic z_cmp z_heap z_ops z_ops_ok) as (s & _ & H). exists s. exact (H 2).
Defined.

Lemma traverse_postorder_frees_witness : exists s s' : rbtree Z, traverse_postorder free_node s = Ok (tt, s') /\
  s'.(nodes) !! 3%positive = None /\ s.(nodes) !! 2%positive = s'.(nodes) !! 2%positive.
Proof.
  destruct (traverse_postorder_frees z_cmp z_heap z_ops z_ops_ok) as (s & _ & s' & E1 & H). exists s, s'.
  split; [exact E1|]. split; [exact (H 3%positive)|symmetry; exact (H 2%positive)].
Defined.
