(* ===== verification/PathOrder.v ===== *)
(** * Orders on paths

    The closest-encloser trees of util/storage/dnstree.c keep keys that are paths
    from a root: the labels of a name, or the bits of a netblock.  This file has the
    order on paths those trees use (element by element, a prefix before what it is a
    prefix of), and what makes a walk over the parents find the longest prefix. *)

From S2P Require Import Prelude Rbtree RbtreeTree RbtreeInsert RbtreeAdd.

Section Paths.
Context {T : Type} (f : T -> T -> Z) `{!TotalCmp f}.
Implicit Types (p q x y z : list T).

Fixpoint lexp x y : Z :=
  match x, y with
  | [], [] => 0
  | [], _ :: _ => -1
  | _ :: _, [] => 1
  | u :: x', v :: y' => if f u v =? 0 then lexp x' y' else f u v
  end.

(** The number of elements two paths share from the root. *)
Fixpoint commonp x y : nat :=
  match x, y with
  | u :: x', v :: y' => if f u v =? 0 then S (commonp x' y') else O
  | _, _ => O
  end.

Fixpoint prefixp p x : bool :=
  match p, x with
  | [], _ => true
  | _ :: _, [] => false
  | u :: p', v :: x' => (f u v =? 0) && prefixp p' x'
  end.

Lemma f_eq_trans u v w : f u v = 0 -> f v w = 0 -> f u w = 0.
Proof.
  intros H1 H2. pose proof (cmp_eq_sym f u v H1). pose proof (cmp_eq_sym f v w H2).
  assert (f u w <= 0) by (apply (cmp_trans u v w); lia). assert (f w u <= 0) by (apply (cmp_trans w v u); lia).
  destruct (Z.lt_total (f u w) 0) as [Hu|[Hu|Hu]]; [|done|lia]. apply cmp_sym in Hu. lia.
Qed.

Lemma f_eq_l u v w : f u v = 0 -> Z.sgn (f u w) = Z.sgn (f v w).
Proof.
  intros H1. pose proof (cmp_eq_sym f u v H1) as H2.
  destruct (Z.lt_total (f v w) 0) as [H|[H|H]].
  - assert (f u w < 0) by (apply (cmp_le_lt f u v w); lia). lia.
  - by rewrite (f_eq_trans u v w H1 H), H.
  - pose proof (proj2 (cmp_sym w v) H). assert (f w u < 0) as H3 by (apply (cmp_lt_le f w v u); lia).
    apply cmp_sym in H3. lia.
Qed.

Lemma lexp_sym x : forall y, lexp x y < 0 <-> 0 < lexp y x.
Proof.
  induction x as [|u x IH]; intros [|v y]; cbn [lexp]; [lia..|].
  destruct (Z.eqb_spec (f u v) 0) as [E1|E1], (Z.eqb_spec (f v u) 0) as [E2|E2].
  - apply IH.
  - by apply (cmp_eq_sym f) in E1.
  - by apply (cmp_eq_sym f) in E2.
  - apply cmp_sym.
Qed.

Lemma lexp_trans x : forall y z, lexp x y <= 0 -> lexp y z <= 0 -> lexp x z <= 0.
Proof.
  induction x as [|u x IH]; intros [|v y] [|w z]; cbn [lexp]; try lia.
  destruct (Z.eqb_spec (f u v) 0) as [E1|E1], (Z.eqb_spec (f v w) 0) as [E2|E2]; intros H1 H2.
  - rewrite (proj2 (Z.eqb_eq _ _)) by (by apply (f_eq_trans u v w)). by eapply IH.
  - pose proof (f_eq_l u v w E1). destruct (Z.eqb_spec (f u w) 0); lia.
  - assert (f u w < 0) by (apply (cmp_lt_le f u v w); lia). destruct (Z.eqb_spec (f u w) 0); lia.
  - assert (f u w < 0) by (apply (cmp_lt_le f u v w); lia). destruct (Z.eqb_spec (f u w) 0); lia.
Qed.

#[export] Instance lexp_total : TotalCmp lexp.
Proof. split; [intros x y; apply lexp_sym|intros x y z; apply lexp_trans]. Qed.

(** ** Prefixes *)

Lemma prefixp_refl p : prefixp p p = true.
Proof. induction p as [|u p IH]; cbn; [done|]. by rewrite cmp_refl, IH. Qed.

Lemma prefixp_length p : forall x, prefixp p x = true -> (length p <= length x)%nat.
Proof.
  induction p as [|u p IH]; intros [|v x]; cbn; try done; try lia.
  intros [_ H]%andb_true_iff. specialize (IH x H). lia.
Qed.

Lemma prefixp_trans p : forall q x, prefixp p q = true -> prefixp q x = true -> prefixp p x = true.
Proof.
  induction p as [|u p IH]; intros [|v q] [|w x]; cbn; try done.
  intros [E1 H1]%andb_true_iff [E2 H2]%andb_true_iff. apply Z.eqb_eq in E1, E2.
  by rewrite (f_eq_trans u v w E1 E2), (IH q x H1 H2).
Qed.

(** A prefix of [x] is a prefix of [y] just when they share it. *)
Lemma prefixp_common p : forall x y, prefixp p x = true -> prefixp p y = true <-> (length p <= commonp x y)%nat.
Proof.
  induction p as [|u p IH]; intros x y; [intros _; cbn; split; [lia|done]|].
  destruct x as [|v x]; [done|]. destruct y as [|w y]; cbn; [intros _; split; [done|lia]|].
  intros [E1 H1]%andb_true_iff. apply Z.eqb_eq in E1. pose proof (f_eq_l u v w E1) as Hs.
  destruct (Z.eqb_spec (f v w) 0) as [E2|E2], (Z.eqb_spec (f u w) 0) as [E3|E3]; cbn [andb]; try lia.
  rewrite (IH x y H1). lia.
Qed.

Lemma prefixp_le p : forall x, prefixp p x = true -> lexp p x <= 0.
Proof.
  induction p as [|u p IH]; intros [|v x]; cbn; try done; try lia.
  intros [E1 H1]%andb_true_iff. apply Z.eqb_eq in E1. rewrite E1. by apply IH.
Qed.

(** Everything between a path and one it is a prefix of has it as a prefix. *)
Lemma prefixp_convex p : forall x y, lexp p x <= 0 -> lexp x y <= 0 -> prefixp p y = true -> prefixp p x = true.
Proof.
  induction p as [|u p IH]; intros x y; [done|]. destruct x as [|v x]; [cbn; lia|].
  destruct y as [|w y]; [done|]. cbn [lexp prefixp]. intros H1 H2 [E3 H3]%andb_true_iff. apply Z.eqb_eq in E3. pose proof (f_eq_l u w v E3) as Hs.
  destruct (Z.eqb_spec (f u v) 0) as [E1|E1].
  - assert (f v w = 0) as E2.
    { apply (cmp_eq_sym f) in E1. by apply (f_eq_trans v u w). }
    rewrite E2 in H2. cbn [andb]. by apply (IH x y).
  - destruct (Z.eqb_spec (f v w) 0) as [E2|E2].
    + exfalso. apply E1, (f_eq_trans u w v E3). by apply (cmp_eq_sym f).
    + exfalso. assert (f v w < 0) as E4 by lia. apply cmp_sym in E4. lia.
Qed.

(** The prefixes of a path are prefixes of each other. *)
Lemma prefixp_linear q : forall p x, prefixp p x = true -> prefixp q x = true -> (length q <= length p)%nat ->
  prefixp q p = true.
Proof.
  induction q as [|u q IH]; intros [|v p] [|w x]; cbn; try done; try lia.
  intros [E1 H1]%andb_true_iff [E2 H2]%andb_true_iff Hl. apply Z.eqb_eq in E1, E2.
  rewrite (f_eq_trans u w v E2) by (by apply (cmp_eq_sym f)). by rewrite (IH p x H1 H2) by lia.
Qed.

Lemma prefixp_same p : forall x, prefixp p x = true -> length p = length x -> lexp p x = 0.
Proof.
  induction p as [|u p IH]; intros [|v x]; cbn; try done.
  intros [E1 H1]%andb_true_iff Hl. rewrite E1. apply IH; [done|lia].
Qed.
End Paths.

(** ** Keys that are paths

    What a key type promises to the tree: a group (the class of a name, the family
    of an address), a path, and a comparison of the two. *)
Class PathKey (K : Type) (cmp : K -> K -> Z) : Type := {
  elem : Type;
  elem_cmp : elem -> elem -> Z;
  elem_total : TotalCmp elem_cmp;
  group : K -> Z;
  path : K -> list elem;
  cmp_spec k1 k2 : Z.sgn (cmp k1 k2)
    = if group k1 <? group k2 then -1 else if group k2 <? group k1 then 1
      else Z.sgn (lexp elem_cmp (path k1) (path k2));
}.
#[export] Existing Instance elem_total.

Section Keys.
Context {K : Type} (cmp : K -> K -> Z) `{PK : !PathKey K cmp}.
Implicit Types (k p q x y : K).

Abbreviation lexk x y := (lexp elem_cmp (path x) (path y)).

Lemma cmp_lt_spec x y : cmp x y < 0 <-> group x < group y \/ (group x = group y /\ lexk x y < 0).
Proof.
  pose proof (cmp_spec x y) as H. destruct (Z.ltb_spec (group x) (group y)), (Z.ltb_spec (group y) (group x)); lia.
Qed.

Lemma cmp_le_spec x y : cmp x y <= 0 <-> group x < group y \/ (group x = group y /\ lexk x y <= 0).
Proof.
  pose proof (cmp_spec x y) as H. destruct (Z.ltb_spec (group x) (group y)), (Z.ltb_spec (group y) (group x)); lia.
Qed.

#[export] Instance path_key_total : TotalCmp cmp.
Proof.
  split.
  - intros x y. pose proof (cmp_spec x y) as H1. pose proof (cmp_spec y x) as H2.
    pose proof (cmp_sym (cmp := lexp elem_cmp) (path x) (path y)).
    destruct (Z.ltb_spec (group x) (group y)), (Z.ltb_spec (group y) (group x)); lia.
  - intros x y z. rewrite !cmp_le_spec. intros [H1|[E1 H1]] [H2|[E2 H2]]; try lia.
    right. split; [lia|]. by apply (cmp_trans (cmp := lexp elem_cmp) (path x) (path y) (path z)).
Qed.

(** [p] encloses [x]: the name is below it, the address is in the netblock. *)
Definition encl p x : bool := (group p =? group x) && prefixp elem_cmp (path p) (path x).

Lemma encl_spec p x : encl p x = true <-> group p = group x /\ prefixp elem_cmp (path p) (path x) = true.
Proof. unfold encl. by rewrite andb_true_iff, Z.eqb_eq. Qed.

Lemma encl_refl x : encl x x = true.
Proof. apply encl_spec. split; [done|]. exact (prefixp_refl elem_cmp (path x)). Qed.

Lemma encl_trans p q x : encl p q = true -> encl q x = true -> encl p x = true.
Proof. rewrite !encl_spec. intros [? ?] [? ?]. split; [congruence|]. by apply (prefixp_trans elem_cmp _ (path q)). Qed.

Lemma encl_le p x : encl p x = true -> cmp p x <= 0.
Proof. rewrite encl_spec, cmp_le_spec. intros [? ?]. right. split; [done|]. by apply (prefixp_le elem_cmp). Qed.

Lemma encl_convex p x y : cmp p x <= 0 -> cmp x y <= 0 -> encl p y = true -> encl p x = true.
Proof.
  rewrite !cmp_le_spec, !encl_spec. intros H1 H2 [Hg Hp].
  assert (group p = group x) by lia. split; [done|].
  destruct H1 as [?|[_ H1]]; [lia|]. destruct H2 as [?|[_ H2]]; [lia|]. by apply (prefixp_convex elem_cmp _ _ (path y)).
Qed.

Lemma encl_common p x y : encl p x = true -> group x = group y ->
  encl p y = true <-> (length (path p) <= commonp elem_cmp (path x) (path y))%nat.
Proof.
  rewrite !encl_spec. intros [Hg Hp] Hxy. rewrite (prefixp_common elem_cmp (path p) (path x) (path y) Hp).
  split; [intros [_ Hle]; exact Hle|]. intros Hle. split; [congruence|exact Hle].
Qed.

Lemma encl_linear p q x : encl p x = true -> encl q x = true -> (length (path q) <= length (path p))%nat ->
  encl q p = true.
Proof. rewrite !encl_spec. intros [? ?] [? ?] ?. split; [congruence|]. by apply (prefixp_linear elem_cmp _ _ (path x)). Qed.

Lemma encl_same p x : encl p x = true -> length (path p) = length (path x) -> cmp p x = 0.
Proof.
  rewrite encl_spec. intros [Hg Hp] Hl. pose proof (cmp_spec p x) as H.
  destruct (Z.ltb_spec (group p) (group x)), (Z.ltb_spec (group x) (group p)); try lia.
  rewrite (prefixp_same elem_cmp _ _ Hp Hl) in H. lia.
Qed.
End Keys.
