(* ===== verification/DnsTree.v ===== *)
(** * Closest-encloser trees (util/storage/dnstree.c)

    Trees of names and of netblocks on top of the red-black tree: every node has a
    second parent pointer, to the closest node that encloses it, with which a lookup
    finds the closest encloser of a key that is not in the tree.  The helpers on
    socket addresses are from util/net_help.c; the caller that deletes from an
    address tree is from respip/respip.c. *)

From S2P Require Import Prelude Rbtree Dname DnameCompare.

(** The red-black tree and the [parent] fields of the nodes that contain its nodes. *)
Record dtree (K : Type) := mk_dtree {
  tree : rbtree K;
  nparent : gmap addr ptr;
}.
Arguments mk_dtree {_} _ _.
Arguments tree {_} _.
Arguments nparent {_} _.

Section Tree.
Context {K : Type} (cmp : K -> K -> Z).
(** What the two kinds of keys have in common: [labs] or [net], the same [dclass] or
    [addrlen], and the number of labels or bits two keys share. *)
Context (depth : K -> Z) (same : K -> K -> bool) (in_common : K -> K -> outcome Z).

Abbreviation D := (ST (dtree K)).

Definition on_tree {A} (m : ST (rbtree K) A) : D A := fun s =>
  match m s.(tree) with
  | Ok (a, t) => Ok (a, mk_dtree t s.(nparent))
  | Fault f => Fault f
  | OutOfFuel => OutOfFuel
  end.

Definition pure {A} (m : outcome A) : D A := fun s =>
  match m with Ok a => Ok (a, s) | Fault f => Fault f | OutOfFuel => OutOfFuel end.

Definition node_key (p : ptr) : D K := on_tree (get_key p).

Definition get_nparent (a : addr) : D ptr := fun s =>
  match s.(nparent) !! a with Some p => Ok (p, s) | None => Fault Undefined end.

Definition set_nparent (a : addr) (p : ptr) : D unit := fun s =>
  Ok (tt, mk_dtree s.(tree) (<[a := p]> s.(nparent))).

Definition tree_init (h : gmap addr (rbnode K)) : dtree K := mk_dtree (rbtree_init h) ∅.

(** Filling in the fields of a node and inserting it. *)
Definition set_key (a : addr) (k : K) : ST (rbtree K) unit :=
  put (fun n => mk_node n.(parent) n.(left_) n.(right_) k n.(color)) (Some a).

Definition tree_insert (a : addr) (k : K) : D bool :=
  on_tree (set_key a k);;
  set_nparent a None;;
  r ← on_tree (rbtree_insert cmp (Some a));
  mret (bool_decide (r <> None)).

(** [for(; p; p = p->parent) if(p->depth <= m) break;] *)
Fixpoint go_up (fuel : nat) (p : ptr) (m : Z) : D ptr :=
  match p with
  | None => mret None
  | Some a =>
      match fuel with
      | O => fun _ => OutOfFuel
      | S fuel' =>
          k ← node_key p;
          if depth k <=? m then mret p else
          p' ← get_nparent a;
          go_up fuel' p' m
      end
  end.

(** One node of the walk in key order. *)
Definition init_parent (a : addr) (prev : ptr) : D unit :=
  set_nparent a None;;
  match prev with
  | None => mret tt
  | Some _ =>
      kp ← node_key prev;
      kn ← node_key (Some a);
      if negb (same kp kn) then mret tt else
      m ← pure (in_common kp kn);
      fuel ← on_tree walk_fuel;
      p ← go_up fuel prev m;
      match p with
      | Some _ => set_nparent a p
      | None => mret tt
      end
  end.

Fixpoint init_parents_loop (fuel : nat) (node prev : ptr) : D unit :=
  match node with
  | None => mret tt
  | Some a =>
      match fuel with
      | O => fun _ => OutOfFuel
      | S fuel' =>
          init_parent a prev;;
          node' ← on_tree (rbtree_next node);
          init_parents_loop fuel' node' node
      end
  end.

Definition init_parents_node (node : ptr) : D unit :=
  fuel ← on_tree walk_fuel;
  init_parents_loop fuel node None.

Definition init_parents : D unit :=
  node ← on_tree rbtree_first;
  init_parents_node node.

Definition tree_find (k : K) : D ptr := on_tree (rbtree_search cmp k).

Definition tree_lookup (k : K) : D ptr :=
  '(exact, res) ← on_tree (rbtree_find_less_equal cmp k);
  if (exact : bool) then mret res else
  match res with
  | None => mret None
  | Some _ =>
      kr ← node_key res;
      if negb (same kr k) then mret None else
      m ← pure (in_common kr k);
      fuel ← on_tree walk_fuel;
      go_up fuel res m
  end.

(** [respip_sockaddr_delete]: the previous node is [RBTREE_NULL], not NULL, when
    there is none. *)
Definition delete_node (a : addr) : D unit :=
  prev ← on_tree (rbtree_previous (Some a));
  k ← node_key (Some a);
  on_tree (rbtree_delete cmp k);;
  init_parents_node prev.
End Tree.

(** ** Trees of names *)

Record name_tree_node := mk_name_node {
  nt_name : list Z;
  nt_len : Z;
  nt_labs : Z;
  nt_dclass : Z;
}.

Definition name_tree_compare (x y : name_tree_node) : outcome Z :=
  if negb (x.(nt_dclass) =? y.(nt_dclass)) then
    (if x.(nt_dclass) <? y.(nt_dclass) then Ok (-1) else Ok 1)
  else
    '(r, m) ← dname_lab_cmp x.(nt_name) x.(nt_labs) y.(nt_name) y.(nt_labs);
    Ok r.

(** What callers put in a node: a valid name, its length and number of labels. *)
Definition name_node_ok (x : name_tree_node) : Prop :=
  exists ls, name_ok ls /\ x.(nt_name) = wire ls /\ x.(nt_len) = zlen (wire ls) /\ x.(nt_labs) = 1 + zlen ls.

Definition name_key : Type := { x : name_tree_node | name_node_ok x }.

(** The comparison as the tree calls it; it always returns ([name_cmp_ok]). *)
Definition name_cmp (x y : name_key) : Z :=
  match name_tree_compare (proj1_sig x) (proj1_sig y) with Ok r => r | _ => 0 end.

Definition name_depth (x : name_key) : Z := (proj1_sig x).(nt_labs).
Definition name_same (x y : name_key) : bool := (proj1_sig x).(nt_dclass) =? (proj1_sig y).(nt_dclass).
Definition name_common (x y : name_key) : outcome Z :=
  '(_, m) ← dname_lab_cmp (proj1_sig x).(nt_name) (proj1_sig x).(nt_labs)
              (proj1_sig y).(nt_name) (proj1_sig y).(nt_labs);
  Ok m.

Definition name_tree_init := tree_init (K := name_key).
Definition name_tree_insert := tree_insert name_cmp.
Definition name_tree_init_parents := init_parents name_depth name_same name_common.
Definition name_tree_find := tree_find name_cmp.
Definition name_tree_lookup := tree_lookup name_cmp name_depth name_same name_common.

(** ** Socket addresses (util/net_help.c) *)

Definition AF_INET : Z := 2.
Definition AF_INET6 : Z := 10.
Definition sizeof_sockaddr_in : Z := 16.
Definition sizeof_sockaddr_in6 : Z := 28.

(** A [sockaddr_storage] seen as a [sockaddr_in] or [sockaddr_in6] ([s_addr]: the
    bytes of [sin_addr] or [sin6_addr]) and as raw memory. *)
Record sockaddr := mk_sockaddr {
  s_family : Z;
  s_port : Z;
  s_addr : list Z;
  s_raw : list Z;
}.

(** The sign of memcmp is all the code uses. *)
Definition memcmp (x y : list Z) (n : Z) : outcome Z :=
  a ← read_bytes n x; b ← read_bytes n y; Ok (lex a b).

Definition sockaddr_cmp (addr1 : sockaddr) (len1 : Z) (addr2 : sockaddr) (len2 : Z) : outcome Z :=
  if len1 <? len2 then Ok (-1) else
  if len2 <? len1 then Ok 1 else
  if addr1.(s_family) <? addr2.(s_family) then Ok (-1) else
  if addr2.(s_family) <? addr1.(s_family) then Ok 1 else
  if addr1.(s_family) =? AF_INET then
    if addr1.(s_port) <? addr2.(s_port) then Ok (-1) else
    if addr2.(s_port) <? addr1.(s_port) then Ok 1 else
    memcmp addr1.(s_addr) addr2.(s_addr) 4
  else if addr1.(s_family) =? AF_INET6 then
    if addr1.(s_port) <? addr2.(s_port) then Ok (-1) else
    if addr2.(s_port) <? addr1.(s_port) then Ok 1 else
    memcmp addr1.(s_addr) addr2.(s_addr) 16
  else memcmp addr1.(s_raw) addr2.(s_raw) len1.

Definition sockaddr_cmp_addr (addr1 : sockaddr) (len1 : Z) (addr2 : sockaddr) (len2 : Z) : outcome Z :=
  if len1 <? len2 then Ok (-1) else
  if len2 <? len1 then Ok 1 else
  if addr1.(s_family) <? addr2.(s_family) then Ok (-1) else
  if addr2.(s_family) <? addr1.(s_family) then Ok 1 else
  if addr1.(s_family) =? AF_INET then memcmp addr1.(s_addr) addr2.(s_addr) 4
  else if addr1.(s_family) =? AF_INET6 then memcmp addr1.(s_addr) addr2.(s_addr) 16
  else memcmp addr1.(s_raw) addr2.(s_raw) len1.

Definition addr_is_ip6 (addr : sockaddr) (len : Z) : bool :=
  (len =? sizeof_sockaddr_in6) && (addr.(s_family) =? AF_INET6).

(** [while(!(z&0x80)) { match++; z<<=1; }] on a byte *)
Fixpoint leading_zeros (fuel : nat) (z match_ : Z) : outcome Z :=
  if negb (Z.land z 128 =? 0) then Ok match_ else
  match fuel with
  | O => OutOfFuel
  | S fuel' => leading_zeros fuel' (u8 (Z.shiftl z 1)) (match_ + 1)
  end.

Fixpoint bits_loop (to : nat) (s1 s2 : list Z) (match_ : Z) : outcome Z :=
  match to with
  | O => Ok match_
  | S to' =>
      '(x, s1) ← next s1;
      '(y, s2) ← next s2;
      if x =? y then bits_loop to' s1 s2 (match_ + 8) else
      let z := Z.lxor x y in
      check! (negb (z =? 0));
      leading_zeros 8 z match_
  end.

Definition addr_in_common (addr1 : sockaddr) (net1 : Z) (addr2 : sockaddr) (net2 addrlen : Z) : outcome Z :=
  let min := if net1 <? net2 then net1 else net2 in
  let to := if addr_is_ip6 addr1 addrlen then 16%nat else 4%nat in
  m ← bits_loop to addr1.(s_addr) addr2.(s_addr) 0;
  Ok (if min <? m then min else m).

Definition mask_byte (net : Z) : Z := nth (Z.to_nat (Z.land net 7)) [0; 128; 192; 224; 240; 248; 252; 254] 0.

(** The bytes of the address after [addr_mask]. *)
Fixpoint mask_loop (s : list Z) (i net : Z) : list Z :=
  match s with
  | [] => []
  | x :: s' =>
      (if i =? Z.quot net 8 then Z.land x (mask_byte net) else if Z.quot net 8 <? i then 0 else x)
        :: mask_loop s' (i + 1) net
  end.

Definition addr_mask (addr : sockaddr) (len net : Z) : sockaddr :=
  let max := if addr_is_ip6 addr len then 128 else 32 in
  if max <=? net then addr else
  mk_sockaddr addr.(s_family) addr.(s_port) (mask_loop addr.(s_addr) 0 net) addr.(s_raw).

(** ** Trees of netblocks *)

Record addr_tree_node := mk_addr_node {
  at_addr : sockaddr;
  at_addrlen : Z;
  at_net : Z;
}.

Definition addr_tree_compare (n1 n2 : addr_tree_node) : outcome Z :=
  r ← sockaddr_cmp_addr n1.(at_addr) n1.(at_addrlen) n2.(at_addr) n2.(at_addrlen);
  if negb (r =? 0) then Ok r else
  if n1.(at_net) <? n2.(at_net) then Ok (-1) else
  if n2.(at_net) <? n1.(at_net) then Ok 1 else Ok 0.

Definition addr_tree_addrport_compare (n1 n2 : addr_tree_node) : outcome Z :=
  sockaddr_cmp n1.(at_addr) n1.(at_addrlen) n2.(at_addr) n2.(at_addrlen).

(** The addresses callers pass: IPv4 or IPv6, with the length that goes with it. *)
Definition addr_ok (a : sockaddr) (len : Z) : Prop :=
  bytes_ok a.(s_addr) /\
  ((a.(s_family) = AF_INET /\ len = sizeof_sockaddr_in /\ zlen a.(s_addr) = 4) \/
   (a.(s_family) = AF_INET6 /\ len = sizeof_sockaddr_in6 /\ zlen a.(s_addr) = 16)).

Definition addr_bits (a : sockaddr) (len : Z) : Z := if addr_is_ip6 a len then 128 else 32.

(** A netblock as [netblockstrtoaddr] leaves it: the host bits are zero. *)
Definition addr_node_ok (n : addr_tree_node) : Prop :=
  addr_ok n.(at_addr) n.(at_addrlen) /\ 0 <= n.(at_net) <= addr_bits n.(at_addr) n.(at_addrlen) /\
  addr_mask n.(at_addr) n.(at_addrlen) n.(at_net) = n.(at_addr).

Definition addr_key : Type := { n : addr_tree_node | addr_node_ok n }.

Definition addr_cmp (x y : addr_key) : Z :=
  match addr_tree_compare (proj1_sig x) (proj1_sig y) with Ok r => r | _ => 0 end.

Definition addr_depth (x : addr_key) : Z := (proj1_sig x).(at_net).
Definition addr_same (x y : addr_key) : bool := (proj1_sig x).(at_addrlen) =? (proj1_sig y).(at_addrlen).
Definition addr_common (x y : addr_key) : outcome Z :=
  addr_in_common (proj1_sig x).(at_addr) (proj1_sig x).(at_net) (proj1_sig y).(at_addr) (proj1_sig y).(at_net)
    (proj1_sig x).(at_addrlen).

Definition addr_tree_init := tree_init (K := addr_key).
Definition addr_tree_insert := tree_insert addr_cmp.
Definition addr_tree_init_parents_node := init_parents_node addr_depth addr_same addr_common.
Definition addr_tree_init_parents := init_parents addr_depth addr_same addr_common.
Definition addr_tree_find := tree_find addr_cmp.

Lemma host_key_ok a len : addr_ok a len -> addr_node_ok (mk_addr_node a len (addr_bits a len)).
Proof.
  intros H. split; [done|]. unfold addr_bits, addr_mask. cbn [at_addr at_addrlen at_net].
  destruct (addr_is_ip6 a len); split; [lia|done|lia|done].
Qed.

(** The key of a lookup: the address with all its bits. *)
Definition host_key (a : sockaddr) (len : Z) (H : addr_ok a len) : addr_key :=
  exist _ (mk_addr_node a len (addr_bits a len)) (host_key_ok a len H).

Definition addr_tree_lookup (a : sockaddr) (len : Z) (H : addr_ok a len) : ST (dtree addr_key) ptr :=
  tree_lookup addr_cmp addr_depth addr_same addr_common (host_key a len H).

Definition respip_sockaddr_delete := delete_node addr_cmp addr_depth addr_same addr_common.
