(* ===== verification/DnsTreeSpec.v ===== *)
(** * The lookup in a closest-encloser tree finds the closest encloser

    Proved once for any keys that are paths ([PathKey]) and whose depth and common
    part are those of the paths ([Encloses]). *)

From S2P Require Import Prelude Rbtree RbtreeTree RbtreeInsert RbtreeAdd.
From S2P Require Import RbtreeFixup RbtreeDelete RbtreeRemove RbtreeApi PathOrder DnsTree.

Class Encloses {K : Type} (cmp : K -> K -> Z) `{PK : !PathKey K cmp} (depth : K -> Z) (same : K -> K -> bool)
    (in_common : K -> K -> outcome Z) : Type := {
  base : Z;
  depth_path k : depth k = base + Z.of_nat (length (path k));
  same_group x y : same x y = (group x =? group y);
  common_path x y : group x = group y ->
    in_common x y = Ok (base + Z.of_nat (commonp elem_cmp (path x) (path y)));
}.

Section Closest.
Context {K : Type} (cmp : K -> K -> Z) `{PK : !PathKey K cmp}.
Implicit Types (k y : K) (L : list (K * addr)).

Lemma rev_case_exists {A} (M : list A) : M = [] \/ exists x M', M = M' ++ [x].
Proof. induction M as [|x M _] using rev_ind; [by left|right; eauto]. Qed.

(** The last entry, in key order, that encloses [y]. *)
Definition closest y L : ptr := snd <$> last (filter (fun e : K * addr => encl cmp e.1 y = true) L).

Lemma filter_nil_iff {A} (P : A -> Prop) `{!forall z, Decision (P z)} (M : list A) :
  filter P M = [] <-> Forall (fun x => ~ P x) M.
Proof.
  induction M as [|x M IH]; [done|]. rewrite filter_cons, Forall_cons. destruct (decide (P x)); [|tauto].
  split; [done|tauto].
Qed.

Lemma filter_iff {A} (P Q : A -> Prop) (DP : forall z, Decision (P z)) (DQ : forall z, Decision (Q z)) (M : list A) :
  (forall x, x ∈ M -> P x <-> Q x) -> filter P M = filter Q M.
Proof.
  induction M as [|x M IH]; intros HPQ; [done|]. rewrite !filter_cons, IH by (intros z Hz; apply HPQ; by right).
  specialize (HPQ x ltac:(by left)). destruct (decide (P x)), (decide (Q x)); tauto.
Qed.

(** Entries after one that is above [y] do not enclose it. *)
Lemma closest_above y L1 L2 : Forall (fun e => 0 < cmp e.1 y) L2 -> closest y (L1 ++ L2) = closest y L1.
Proof.
  intros H. unfold closest. rewrite filter_app, (proj2 (filter_nil_iff _ L2)); [by rewrite app_nil_r|].
  eapply Forall_impl; [exact H|]. cbn. intros e He Hen. apply (encl_le cmp) in Hen. lia.
Qed.

Lemma last_split {A} (P : A -> Prop) (DP : forall z, Decision (P z)) (L : list A) x : last (filter P L) = Some x ->
  exists L1 L2 : list A, L = L1 ++ x :: L2 /\ P x /\ Forall (fun z => ~ P z) L2.
Proof.
  induction L as [|z L IH] using rev_ind; [done|]. rewrite filter_app, filter_cons, filter_nil.
  destruct (decide (P z)) as [Hz|Hz].
  - rewrite last_snoc. intros [= ->]. by exists L, [].
  - rewrite app_nil_r. intros H. destruct (IH H) as (L1 & L2 & -> & Hx & HF).
    exists L1, (L2 ++ [z]). rewrite <- app_assoc. split; [done|]. split; [done|]. apply Forall_app. by split; [|constructor].
Qed.

(** It is the deepest of the entries that enclose [y]. *)
Lemma closest_deepest y L : sorted cmp L ->
  match closest y L with
  | None => forall e, e ∈ L -> encl cmp e.1 y = false
  | Some a => exists k, (k, a) ∈ L /\ encl cmp k y = true /\
      forall e, e ∈ L -> encl cmp e.1 y = true -> (length (path e.1) <= length (path k))%nat
  end.
Proof.
  intros Hs. unfold closest. destruct (last (filter _ L)) as [[k a]|] eqn:El.
  - apply last_split in El as (L1 & L2 & -> & Hk & HF). cbn in Hk |- *. exists k.
    split; [set_solver|]. split; [done|]. intros e He Hen.
    destruct (decide (length (path e.1) <= length (path k))%nat) as [|Hgt]; [done|]. exfalso.
    assert (encl cmp k e.1 = true) as Hke by (apply (encl_linear cmp e.1 k y); [done|done|lia]).
    apply elem_of_app in He as [He|[->|He]%elem_of_cons].
    + apply sorted_app in Hs as (_ & _ & Hlt). specialize (Hlt e (k, a) He ltac:(by left)). cbn in Hlt.
      apply (encl_le cmp) in Hke. apply (cmp_sym (cmp := cmp)) in Hlt. lia.
    + cbn in Hgt. lia.
    + rewrite Forall_forall in HF. by apply (HF e He).
  - apply last_None in El. rewrite filter_nil_iff, Forall_forall in El. intros e He.
    specialize (El e He). cbn in El. by destruct (encl cmp e.1 y).
Qed.
End Closest.

Section Walks.
Context {K : Type} (cmp : K -> K -> Z) `{PK : !PathKey K cmp} (depth : K -> Z) (same : K -> K -> bool)
  (in_common : K -> K -> outcome Z) `{EN : !Encloses cmp depth same in_common}.
Implicit Types (k y : K) (L : list (K * addr)) (s : dtree K).

Lemma depth_eq k : depth k = @base _ _ _ _ _ _ EN + Z.of_nat (length (path k)).
Proof. exact (@depth_path _ _ _ _ _ _ EN k). Qed.

(** The second parent pointers of the first entries are right. *)
Definition parents_ok (par : gmap addr ptr) L : Prop :=
  forall L1 k a L2, L = L1 ++ (k, a) :: L2 -> par !! a = Some (closest cmp k L1).

Definition keys_ok s L : Prop := forall k a, (k, a) ∈ L -> key <$> s.(tree).(nodes) !! a = Some k.

Lemma node_key_ok {B} (F : K -> ST (dtree K) B) s k a : key <$> s.(tree).(nodes) !! a = Some k ->
  mbind F (node_key (Some a)) s = F k s.
Proof.
  intros H. apply st_bind_ok. unfold node_key, on_tree, get_key. destruct (s.(tree).(nodes) !! a); [|done].
  injection H as <-. by destruct s.
Qed.

Lemma sorted_le L1 k a L2 : sorted cmp (L1 ++ (k, a) :: L2) -> forall e, e ∈ L1 ++ [(k, a)] -> cmp e.1 k <= 0.
Proof.
  intros (_ & _ & H)%sorted_app e [He|He]%elem_of_app; [specialize (H e (k, a) He ltac:(by left)); cbn in H; lia|].
  apply list_elem_of_singleton in He as ->. cbn. pose proof (cmp_refl cmp k). lia.
Qed.

(** The walk up from an entry finds the last one that encloses it and is not
    deeper than [m]. *)
Lemma go_up_ok n : forall L1 k a L2 s fuel m, length L1 = n -> sorted cmp (L1 ++ (k, a) :: L2) ->
  keys_ok s (L1 ++ [(k, a)]) -> parents_ok s.(nparent) (L1 ++ [(k, a)]) -> (length L1 < fuel)%nat ->
  go_up depth fuel (Some a) m s
  = Ok (snd <$> last (filter (fun e : K * addr => encl cmp e.1 k = true /\ depth e.1 <= m) (L1 ++ [(k, a)])), s).
Proof.
  induction n as [n IH] using lt_wf_ind. intros L1 k a L2 s fuel m Hn Hs Hk Hp Hf.
  destruct fuel as [|fuel]; [lia|]. cbn [go_up].
  rewrite (node_key_ok _ s k a) by (apply Hk; set_solver).
  rewrite filter_app, filter_cons, filter_nil. cbn [fst]. destruct (Z.leb_spec (depth k) m) as [Hd|Hd].
  { rewrite decide_True by (split; [by apply encl_refl|done]). by rewrite last_snoc. }
  rewrite decide_False by lia. rewrite app_nil_r.
  pose proof (Hp L1 k a [] eq_refl) as Hpa.
  assert (get_nparent a s = Ok (closest cmp k L1, s)) as Eg by (unfold get_nparent; by rewrite Hpa).
  erewrite st_bind_ok by exact Eg. clear Eg Hpa. unfold closest.
  destruct (last (filter (fun e : K * addr => encl cmp e.1 k = true) L1)) as [[kb b]|] eqn:El.
  - apply last_split in El as (M1 & M2 & -> & Hb & HF). cbn [fmap option_fmap option_map snd fst] in *.
    rewrite <- app_assoc in Hs, Hk, Hp. cbn [app] in Hs, Hk, Hp.
    rewrite length_app in Hn, Hf. cbn [length] in Hn, Hf.
    rewrite (IH (length M1) ltac:(lia) M1 kb b (M2 ++ (k, a) :: L2)); [|done|done| | |lia].
    + do 2 f_equal. f_equal. rewrite filter_app. rewrite (filter_app _ M1 ((kb, b) :: M2)), !filter_cons, filter_nil. cbn [fst].
      rewrite (proj2 (filter_nil_iff _ M2)).
      2: { eapply Forall_impl; [exact HF|]. cbn. intros e He [Hen _]. by apply He. }
      assert (forall e, e ∈ M1 ++ [(kb, b)] -> encl cmp e.1 kb = true <-> encl cmp e.1 k = true) as Heq.
      { intros e He. split; [intros He'; by apply (encl_trans cmp _ kb)|]. intros He'.
        apply (encl_convex cmp e.1 kb k); [by eapply sorted_le|by apply (encl_le cmp)|done]. }
      assert (filter (fun e : K * addr => encl cmp e.1 kb = true /\ depth e.1 <= m) M1
        = filter (fun e : K * addr => encl cmp e.1 k = true /\ depth e.1 <= m) M1) as ->.
      { apply filter_iff. intros e He. rewrite Heq by set_solver. done. }
      specialize (Heq (kb, b) ltac:(set_solver)). cbn in Heq.
      repeat case_decide; try done; tauto.
    + intros k' a' Hin. apply Hk. set_solver.
    + intros N1 k' a' N2 E1. apply (Hp N1 k' a' (N2 ++ M2 ++ [(k, a)])).
      change (M1 ++ (kb, b) :: M2 ++ [(k, a)]) with (M1 ++ [(kb, b)] ++ M2 ++ [(k, a)]).
      rewrite (app_assoc M1), E1, <- app_assoc. done.
  - cbn [fmap option_fmap option_map]. apply last_None in El. rewrite filter_nil_iff in El.
    rewrite (proj2 (filter_nil_iff _ L1)); [by destruct fuel|].
    eapply Forall_impl; [exact El|]. cbn. tauto.
Qed.

(** From the entry before [y], with the depth the two share, the walk finds the
    closest encloser of [y]. *)
Lemma go_up_closest L1 k a L2 s fuel y : sorted cmp (L1 ++ (k, a) :: L2) ->
  keys_ok s (L1 ++ [(k, a)]) -> parents_ok s.(nparent) (L1 ++ [(k, a)]) -> (length L1 < fuel)%nat ->
  cmp k y <= 0 ->
  (if negb (same k y) then mret None
   else m ← pure (in_common k y); go_up depth fuel (Some a) m) s = Ok (closest cmp y (L1 ++ [(k, a)]), s).
Proof.
  intros Hs Hk Hp Hf Hle. rewrite same_group.
  assert (forall e, e ∈ L1 ++ [(k, a)] -> encl cmp e.1 y = true -> encl cmp e.1 k = true) as Hconv.
  { intros e He Hen. apply (encl_convex cmp e.1 k y); [by eapply sorted_le|done|done]. }
  destruct (Z.eqb_spec (group k) (group y)) as [Eg|Eg]; cbn [negb].
  - rewrite (common_path _ _ Eg). unfold pure at 1. erewrite st_bind_ok by reflexivity.
    rewrite (go_up_ok _ L1 k a L2 s fuel) by done. unfold closest. do 3 f_equal. f_equal.
    apply filter_iff. intros e He. rewrite depth_path. split.
    + intros [Hen Hd]. apply (encl_common cmp e.1 k y Hen Eg). lia.
    + intros Hen. pose proof (Hconv e He Hen) as Hen'. split; [done|].
      apply (encl_common cmp e.1 k y Hen' Eg) in Hen. lia.
  - unfold closest. rewrite (proj2 (filter_nil_iff _ _)); [done|]. apply Forall_forall. intros e He Hen.
    pose proof (Hconv e He Hen) as Hen'. apply encl_spec in Hen as [E1 _], Hen' as [E2 _]. congruence.
Qed.

(** ** Initialising the parents *)

Lemma on_tree_ok {A} (m : ST (rbtree K) A) s a t : m s.(tree) = Ok (a, t) -> on_tree m s = Ok (a, mk_dtree t s.(nparent)).
Proof. intros H. unfold on_tree. by rewrite H. Qed.

Lemma on_tree_read {A} (m : ST (rbtree K) A) s a : m s.(tree) = Ok (a, s.(tree)) -> on_tree m s = Ok (a, s).
Proof. intros H. rewrite (on_tree_ok _ _ _ _ H). by destruct s. Qed.

Record good s L : Prop := {
  g_tree : exists t, rep s.(tree) t /\ rb t /\ inorder t = L;
  g_sorted : sorted cmp L;
}.

Lemma good_keys s L : good s L -> keys_ok s L.
Proof. intros [(t & R & _ & <-) _] k a Hin. by eapply rep_elem. Qed.

Lemma good_size s L : good s L -> (length L <= size s.(tree).(nodes))%nat.
Proof.
  intros [(t & R & _ & <-) _]. pose proof (rep_size _ _ R) as H. by rewrite addrs_inorder, length_fmap in H.
Qed.

Lemma good_nodup s L : good s L -> NoDup L.*2.
Proof. intros [(t & R & _ & <-) _]. rewrite <- addrs_inorder. apply R. Qed.

Lemma good_same s s' L : s'.(tree) = s.(tree) -> good s L -> good s' L.
Proof. intros E1 [H1 H2]. split; [by rewrite E1|done]. Qed.

Definition with_parents s (par : gmap addr ptr) : dtree K := mk_dtree s.(tree) par.

Lemma parents_ok_snoc par L1 k a : parents_ok par L1 -> a ∉ L1.*2 ->
  parents_ok (<[a := closest cmp k L1]> par) (L1 ++ [(k, a)]).
Proof.
  intros Hp Ha M1 k' a' M2 E1. destruct (rev_case_exists M2) as [->|(z & M2' & ->)].
  - apply app_inj_tail in E1 as [<- [= <- <-]]. by rewrite lookup_insert_eq.
  - rewrite app_comm_cons, app_assoc in E1. apply app_inj_tail in E1 as [-> _].
    rewrite lookup_insert_ne; [by eapply Hp|]. intros ->. apply Ha. rewrite fmap_app, fmap_cons. set_solver.
Qed.

Lemma init_parent_ok s L1 k a L2 : good s (L1 ++ (k, a) :: L2) -> parents_ok s.(nparent) L1 ->
  init_parent depth same in_common a (snd <$> last L1) s
  = Ok (tt, with_parents s (<[a := closest cmp k L1]> s.(nparent))).
Proof.
  intros G Hp. unfold init_parent. set (s0 := with_parents s (<[a := None]> s.(nparent))).
  assert (set_nparent a None s = Ok (tt, s0)) as E0 by done. erewrite st_bind_ok by exact E0. clear E0.
  pose proof (good_nodup _ _ G) as Nd. rewrite fmap_app, fmap_cons in Nd. cbn [snd] in Nd.
  destruct (rev_case_exists L1) as [->|([kp p] & M & ->)]; [done|].
  rewrite last_snoc. cbn [fmap option_fmap option_map snd].
  assert (good s0 ((M ++ [(kp, p)]) ++ (k, a) :: L2)) as G0 by (by apply (good_same s)).
  assert (keys_ok s0 (M ++ [(kp, p)])) as Hk0.
  { intros k' a' Hin. apply (good_keys _ _ G0). set_solver. }
  rewrite (node_key_ok _ s0 kp p) by (apply Hk0; set_solver).
  rewrite (node_key_ok _ s0 k a) by (apply (good_keys _ _ G0); set_solver).
  assert (a ∉ (M ++ [(kp, p)]).*2) as Ha.
  { apply NoDup_app in Nd as (_ & Nd & _). intros Hin. apply (Nd a Hin). by left. }
  assert (parents_ok s0.(nparent) (M ++ [(kp, p)])) as Hp0.
  { intros M1 k' a' M2 E1. cbn. rewrite lookup_insert_ne; [by eapply Hp|].
    intros ->. apply Ha. rewrite E1, fmap_app, fmap_cons. set_solver. }
  pose proof (good_size _ _ G0) as Hsz. rewrite length_app in Hsz. cbn [length] in Hsz.
  pose proof (g_sorted _ _ G0) as Hs. rewrite <- app_assoc in Hs. cbn [app] in Hs.
  assert (cmp kp k <= 0) as Hle.
  { destruct (sorted_mid cmp _ _ _ _ Hs) as (_ & _ & Hgt & _).
    specialize (Hgt kp ltac:(rewrite (cmp_refl cmp); lia)). apply Forall_cons in Hgt as [Hgt _]. cbn in Hgt. lia. }
  pose proof (go_up_closest M kp p ((k, a) :: L2) s0 (S (size s0.(tree).(nodes))) k Hs Hk0 Hp0) as Hgo.
  rewrite length_app in Hsz. cbn [length] in Hsz. specialize (Hgo ltac:(lia) Hle).
  assert (with_parents s (<[a := closest cmp k (M ++ [(kp, p)])]> s.(nparent))
    = with_parents s0 (<[a := closest cmp k (M ++ [(kp, p)])]> s0.(nparent))) as ->.
  { unfold with_parents, s0. cbn. by rewrite insert_insert_eq. }
  assert (nparent s0 !! a = Some None) as Hnone by (cbn; apply lookup_insert_eq).
  destruct (negb (same kp k)).
  - injection Hgo as Hgo. rewrite <- Hgo. unfold with_parents. rewrite insert_id by done. by destruct s0.
  - revert Hgo. unfold pure. destruct (in_common kp k) as [m| |]; [|done|done]. rewrite !(st_bind_ok _ _ s0 m s0) by done.
    intros Hgo. erewrite st_bind_ok by (by apply on_tree_read). erewrite st_bind_ok by exact Hgo.
    destruct (closest cmp k (M ++ [(kp, p)])) eqn:Ec; [done|].
    unfold with_parents. rewrite insert_id by done. by destruct s0.
Qed.

Lemma init_parents_loop_ok L2 : forall L1 s fuel, good s (L1 ++ L2) -> parents_ok s.(nparent) L1 ->
  (length L2 <= fuel)%nat ->
  exists par, init_parents_loop depth same in_common fuel (snd <$> head L2) (snd <$> last L1) s
    = Ok (tt, with_parents s par) /\ parents_ok par (L1 ++ L2) /\
    (forall a, a ∉ L2.*2 -> par !! a = s.(nparent) !! a).
Proof.
  induction L2 as [|[k a] L2 IH]; intros L1 s fuel G Hp Hf.
  { exists s.(nparent). rewrite app_nil_r. split; [destruct fuel; by destruct s|done]. }
  destruct fuel as [|fuel]; [cbn in Hf; lia|]. cbn [head fmap option_fmap option_map snd init_parents_loop].
  erewrite st_bind_ok by (by apply (init_parent_ok s L1 k a L2)).
  set (s1 := with_parents s (<[a := closest cmp k L1]> s.(nparent))).
  assert (good s1 (L1 ++ (k, a) :: L2)) as G1 by (by apply (good_same s)).
  assert (rbtree_next (Some a) s1.(tree) = Ok (snd <$> head L2, s1.(tree))) as En.
  { destruct G1 as [(t & R & _ & Ei) _]. by apply (neighbours_ok _ t L1 k a L2). }
  erewrite st_bind_ok by (by apply on_tree_read).
  pose proof (good_nodup _ _ G) as Nd. rewrite fmap_app, fmap_cons in Nd. cbn [snd] in Nd.
  apply NoDup_app in Nd as (_ & X & [Na _]%NoDup_cons).
  assert (a ∉ L1.*2) as Ha by (intros Hin; apply (X a Hin); by left).
  destruct (IH (L1 ++ [(k, a)]) s1 fuel) as (par & E1 & Hpar & Hout).
  - by rewrite <- app_assoc.
  - by apply parents_ok_snoc.
  - cbn in Hf. lia.
  - rewrite last_snoc in E1. cbn [fmap option_fmap option_map snd] in E1.
    exists par. rewrite E1, <- app_assoc in *. split; [done|]. split; [done|].
    intros b Hb. rewrite fmap_cons in Hb. rewrite Hout by set_solver. cbn. rewrite lookup_insert_ne; [done|]. set_solver.
Qed.

Lemma init_parents_ok s L : good s L ->
  exists par, init_parents depth same in_common s = Ok (tt, with_parents s par) /\ parents_ok par L.
Proof.
  intros G. pose proof G as [(t & R & _ & Ei) _]. unfold init_parents, init_parents_node.
  erewrite st_bind_ok by (apply on_tree_read; by apply first_ok). rewrite Ei.
  erewrite st_bind_ok by (by apply on_tree_read).
  destruct (init_parents_loop_ok L [] s (S (size s.(tree).(nodes)))) as (par & E1 & Hp & _); [done| | |by exists par].
  - intros M1 k a M2 E1. by destruct M1.
  - pose proof (good_size _ _ G). lia.
Qed.

(** ** Lookup *)

Lemma cmp_zero_encl k y : cmp k y = 0 -> encl cmp k y = true.
Proof.
  intros H. apply (encl_convex cmp k y k); [lia|rewrite (cmp_eq_sym cmp _ _ H); lia|by apply encl_refl].
Qed.

Lemma tree_lookup_ok s L y : good s L -> parents_ok s.(nparent) L ->
  tree_lookup cmp depth same in_common y s = Ok (closest cmp y L, s).
Proof.
  intros G Hp. pose proof G as [(t & R & _ & Ei) Hs]. unfold tree_lookup.
  erewrite st_bind_ok.
  2: { apply on_tree_read. rewrite (find_less_equal_spec cmp s.(tree) t y R) by (by rewrite Ei). rewrite Ei. reflexivity. }
  destruct (sorted_split cmp y L Hs) as [Esp Hlen]. unfold spec_less_equal.
  assert (Forall (fun e : K * addr => 0 < cmp e.1 y) (above cmp y L)) as Hab.
  { apply Forall_forall. intros e [He _]%list_elem_of_filter. by apply (cmp_sym (cmp := cmp)). }
  destruct (at_key cmp y L) as [|[k a] A] eqn:Eat.
  - cbn [app] in Esp. destruct (rev_case_exists (below cmp y L)) as [Eb|([kr r] & M & Eb)].
    + rewrite Eb in *. cbn [last fmap option_fmap option_map]. rewrite Esp.
      change (above cmp y L) with ([] ++ above cmp y L). by rewrite closest_above.
    + rewrite Eb, last_snoc in *. cbn [fmap option_fmap option_map snd].
      assert (cmp kr y <= 0) as Hle.
      { assert ((kr, r) ∈ below cmp y L) as Hin by (rewrite Eb; set_solver).
        apply list_elem_of_filter in Hin as [Hin _]. cbn in Hin. apply (cmp_sym (cmp := cmp)) in Hin. lia. }
      assert (L = M ++ (kr, r) :: above cmp y L) as EL by (by rewrite <- app_assoc in Esp).
      rewrite (node_key_ok _ s kr r) by (apply (good_keys _ _ G); rewrite EL; set_solver).
      pose proof (good_size _ _ G) as Hsz. rewrite EL, length_app in Hsz. cbn [length] in Hsz.
      pose proof (go_up_closest M kr r (above cmp y L) s (S (size s.(tree).(nodes))) y) as Hgo.
      rewrite <- EL in Hgo. specialize (Hgo Hs).
      rewrite Esp, closest_above by done. rewrite <- Hgo; [|  | |lia|done].
      * destruct (negb (same kr y)); [done|]. unfold pure. destruct (in_common kr y); [|done|done].
        erewrite !(st_bind_ok _ _ s _ s) by reflexivity. by erewrite st_bind_ok by (by apply on_tree_read).
      * intros k' a' Hin. apply (good_keys _ _ G). rewrite EL. set_solver.
      * intros N1 k' a' N2 E1. apply (Hp N1 k' a' (N2 ++ above cmp y L)). rewrite Esp at 1. by rewrite E1, <- app_assoc.
  - assert (A = []) as -> by (destruct A; [done|cbn in Hlen; lia]). cbn [snd].
    rewrite Esp, app_assoc, closest_above by done. unfold closest. rewrite filter_app, filter_cons, filter_nil. cbn [fst].
    assert ((k, a) ∈ at_key cmp y L) as Hin by (rewrite Eat; by left).
    apply list_elem_of_filter in Hin as [Hin _]. cbn in Hin.
    rewrite decide_True by (apply cmp_zero_encl; by apply (cmp_eq_sym cmp)). by rewrite last_snoc.
Qed.

Lemma tree_find_ok s L y : good s L -> tree_find cmp y s = Ok (snd <$> head (at_key cmp y L), s).
Proof.
  intros [(t & R & _ & <-) Hs]. unfold tree_find. apply on_tree_read. by apply (search_spec cmp).
Qed.

(** ** Insertion *)

Definition spec_insert (a : addr) k L : bool * list (K * addr) :=
  match at_key cmp k L with
  | [] => (true, below cmp k L ++ (k, a) :: above cmp k L)
  | _ => (false, L)
  end.

Lemma set_key_ok (rt : rbtree K) a n k : rt.(nodes) !! a = Some n ->
  set_key a k rt = Ok (tt, with_nodes (<[a := mk_node n.(parent) n.(left_) n.(right_) k n.(color)]> rt.(nodes)) rt).
Proof. intros H. unfold set_key. by rewrite (run_put_insert _ _ _ _ H). Qed.

Lemma dom_keys (h h' : gmap addr (rbnode K)) : (forall x, key <$> h' !! x = key <$> h !! x) -> dom h' = dom h.
Proof.
  intros H. apply set_eq. intros x. rewrite !elem_of_dom. specialize (H x).
  destruct (h !! x), (h' !! x); cbn in H; try done; split; intros [? ?]; done.
Qed.

Lemma tree_insert_ok s L a k : good s L -> a ∈ dom s.(tree).(nodes) -> a ∉ L.*2 ->
  exists s', tree_insert cmp a k s = Ok ((spec_insert a k L).1, s') /\ good s' (spec_insert a k L).2 /\
    dom s'.(tree).(nodes) = dom s.(tree).(nodes).
Proof.
  intros [(t & R & Hrb & <-) Hs] [n Hn]%elem_of_dom Ha. unfold tree_insert.
  erewrite st_bind_ok by (apply on_tree_ok; by apply set_key_ok).
  set (n1 := mk_node _ _ _ k _). set (t1 := with_nodes _ _). erewrite st_bind_ok by reflexivity. cbn [tree nparent].
  rewrite <- addrs_inorder in Ha.
  assert (rep t1 t) as R1 by (by apply rep_outside).
  assert (t1.(nodes) !! a = Some n1) as Hn1 by (cbn; apply lookup_insert_eq).
  assert (dom t1.(nodes) = dom s.(tree).(nodes)) as Hd.
  { cbn. rewrite dom_insert_L. assert (a ∈ dom s.(tree).(nodes)) by (by eapply elem_of_dom_2). set_solver. }
  unfold spec_insert. destruct (at_key cmp k (inorder t)) as [|x A] eqn:Eat.
  - destruct (insert_new cmp t1 t a n1 R1 Hrb Hs Hn1 Eat Ha) as (s' & t' & E1 & R' & Hrb' & Ei & [_ _ Hk]).
    exists (mk_dtree s' (<[a := None]> s.(nparent))). split; [by erewrite st_bind_ok by (by apply on_tree_ok)|].
    split; [|cbn; rewrite (dom_keys _ _ Hk); done]. split; [by exists t'|]. by apply (sorted_add cmp).
  - exists (mk_dtree t1 (<[a := None]> s.(nparent))). split; [|split; [split; [by exists t|done]|done]].
    erewrite st_bind_ok by (apply on_tree_ok; eapply (insert_dup cmp t1 t a n1); [done|done|done|by cbn; rewrite Eat]). done.
Qed.

(** ** Building a tree and looking up in it *)

Fixpoint insert_all (ins : list (addr * K)) : ST (dtree K) (list bool) :=
  match ins with
  | [] => mret []
  | (a, k) :: ins' => r ← tree_insert cmp a k; rs ← insert_all ins'; mret (r :: rs)
  end.

Fixpoint spec_insert_all (ins : list (addr * K)) L : list bool * list (K * addr) :=
  match ins with
  | [] => ([], L)
  | (a, k) :: ins' => let (r, L1) := spec_insert a k L in let (rs, L2) := spec_insert_all ins' L1 in (r :: rs, L2)
  end.

Lemma spec_insert_elems a k L x : x ∈ (spec_insert a k L).2.*2 -> x = a \/ x ∈ L.*2.
Proof.
  unfold spec_insert. destruct (at_key cmp k L); cbn [snd]; [|by right].
  rewrite fmap_app, fmap_cons. cbn [snd]. intros [H|[->|H]%elem_of_cons]%elem_of_app; [|by left|];
    right; apply list_elem_of_fmap in H as (e & -> & [_ He]%list_elem_of_filter); by apply list_elem_of_fmap_2.
Qed.

Lemma insert_all_ok ins : forall s L, good s L -> NoDup ins.*1 ->
  (forall a, a ∈ ins.*1 -> a ∈ dom s.(tree).(nodes) /\ a ∉ L.*2) ->
  exists s', insert_all ins s = Ok ((spec_insert_all ins L).1, s') /\ good s' (spec_insert_all ins L).2.
Proof.
  induction ins as [|[a k] ins IH]; intros s L G Nd Hd; [by exists s|]. cbn [insert_all spec_insert_all].
  rewrite fmap_cons in Nd, Hd. cbn [fst] in Nd, Hd. apply NoDup_cons in Nd as [Na Nd].
  destruct (Hd a ltac:(by left)) as [Ha1 Ha2].
  destruct (tree_insert_ok s L a k G Ha1 Ha2) as (s1 & E1 & G1 & Hdom).
  pose proof (spec_insert_elems a k L) as Hel. destruct (spec_insert a k L) as [r L1]. cbn [fst snd] in *.
  destruct (IH s1 L1 G1 Nd) as (s2 & E2 & G2).
  { intros b Hb. rewrite Hdom. destruct (Hd b ltac:(by right)). split; [done|].
    intros [->|?]%Hel; [by apply Na|done]. }
  destruct (spec_insert_all ins L1) as [rs L2]. exists s2. split; [|done].
  erewrite st_bind_ok by exact E1. by erewrite st_bind_ok by exact E2.
Qed.

Lemma init_good (h : gmap addr (rbnode K)) : good (tree_init h) [].
Proof.
  split; [|constructor]. exists E. split; [by split; [|done|apply NoDup_nil_2]|]. split; [|done].
  split; [done|]. exists 0%nat. constructor.
Qed.

(** The whole use of the tree: insert, initialise, look up. *)
Lemma closest_tree_ok (h : gmap addr (rbnode K)) ins : NoDup ins.*1 -> (forall a, a ∈ ins.*1 -> a ∈ dom h) ->
  exists s, (rs ← insert_all ins; init_parents depth same in_common;; mret rs) (tree_init h)
      = Ok ((spec_insert_all ins []).1, s) /\
    sorted cmp (spec_insert_all ins []).2 /\
    forall k, tree_lookup cmp depth same in_common k s = Ok (closest cmp k (spec_insert_all ins []).2, s) /\
      tree_find cmp k s = Ok (snd <$> head (at_key cmp k (spec_insert_all ins []).2), s).
Proof.
  intros Nd Hd. destruct (insert_all_ok ins (tree_init h) [] (init_good h) Nd) as (s & E1 & G).
  { intros a Ha. split; [by apply Hd|apply not_elem_of_nil]. }
  destruct (init_parents_ok s _ G) as (par & E2 & Hp). exists (with_parents s par).
  erewrite st_bind_ok by exact E1. erewrite st_bind_ok by exact E2. split; [done|]. split; [apply G|].
  intros k. split; [|apply tree_find_ok; by apply (good_same s)].
  apply tree_lookup_ok; [|done]. by apply (good_same s).
Qed.

(** ** The entries and what was inserted *)

Lemma spec_insert_elem a k L : let L' := (spec_insert a k L).2 in
  (forall e, e ∈ L' -> e = (k, a) \/ e ∈ L) /\ (sorted cmp L -> forall e, e ∈ L -> e ∈ L') /\
  (exists e, e ∈ L' /\ cmp e.1 k = 0).
Proof.
  unfold spec_insert. destruct (at_key cmp k L) as [|e A] eqn:Eat; cbn [snd].
  - split; [|split].
    + intros e [H|[->|H]%elem_of_cons]%elem_of_app; [|by left|]; apply list_elem_of_filter in H as [_ H]; by right.
    + intros Hs e He. destruct (sorted_split cmp k L Hs) as [E1 _]. rewrite Eat in E1. rewrite E1 in He. set_solver.
    + exists (k, a). split; [set_solver|]. by apply cmp_refl, path_key_total.
  - split; [by right|]. split; [done|]. exists e. assert (e ∈ at_key cmp k L) as He by (rewrite Eat; by left).
    apply list_elem_of_filter in He as [E1 He]. split; [done|]. by apply (cmp_eq_sym cmp).
Qed.

Lemma spec_insert_sorted a k L : sorted cmp L -> sorted cmp (spec_insert a k L).2.
Proof. intros Hs. unfold spec_insert. destruct (at_key cmp k L); [|done]. by apply (sorted_add cmp). Qed.

Lemma spec_insert_all_elem ins : forall L, sorted cmp L -> let L' := (spec_insert_all ins L).2 in
  (forall k a, (k, a) ∈ L' -> (a, k) ∈ ins \/ (k, a) ∈ L) /\ (forall e, e ∈ L -> e ∈ L') /\
  (forall a k, (a, k) ∈ ins -> exists e, e ∈ L' /\ cmp e.1 k = 0).
Proof.
  induction ins as [|[a k] ins IH]; intros L Hs; cbn [spec_insert_all].
  { split; [by right|]. split; [done|]. by intros ? ? ?%elem_of_nil. }
  destruct (spec_insert_elem a k L) as (H1 & H2 & e & He & Hc). pose proof (spec_insert_sorted a k L Hs) as Hs1.
  destruct (spec_insert a k L) as [r L1]. cbn [snd] in *. destruct (IH L1 Hs1) as (I1 & I2 & I3).
  destruct (spec_insert_all ins L1) as [rs L2]. cbn [snd] in *. split; [|split].
  - intros k' a' Hin. destruct (I1 k' a' Hin) as [?|Hin']; [left; by right|].
    destruct (H1 _ Hin') as [[= -> ->]|?]; [left; by left|by right].
  - intros e' He'. apply I2. by apply H2.
  - intros a' k' [[= -> ->]|Hin]%elem_of_cons; [|by apply (I3 a')]. exists e. split; [by apply I2|done].
Qed.

Lemma cmp_zero_encl_iff k k' y : cmp k k' = 0 -> encl cmp k' y = true -> encl cmp k y = true /\ depth k = depth k'.
Proof.
  intros H Hen. pose proof (cmp_zero_encl _ _ H) as H1. pose proof (cmp_zero_encl _ _ (cmp_eq_sym cmp _ _ H)) as H2.
  split; [by apply (encl_trans cmp _ k')|]. rewrite !depth_eq.
  apply encl_spec in H1 as [_ H1%(prefixp_length elem_cmp)], H2 as [_ H2%(prefixp_length elem_cmp)]. lia.
Qed.

(** The answer of a lookup, in terms of what was inserted. *)
Definition closest_of (ins : list (addr * K)) y (r : ptr) : Prop :=
  match r with
  | Some a => exists n, (a, n) ∈ ins /\ encl cmp n y = true /\
      forall a' n', (a', n') ∈ ins -> encl cmp n' y = true -> depth n' <= depth n
  | None => forall a' n', (a', n') ∈ ins -> encl cmp n' y = false
  end.

Lemma closest_closest_of ins y : closest_of ins y (closest cmp y (spec_insert_all ins []).2).
Proof.
  destruct (spec_insert_all_elem ins [] ltac:(constructor)) as (H1 & _ & H3).
  assert (sorted cmp (spec_insert_all ins []).2) as Hs.
  { clear H1 H3. assert (forall L, sorted cmp L -> sorted cmp (spec_insert_all ins L).2) as H; [|apply H; constructor].
    induction ins as [|[a k] ins IH]; intros L HL; [done|]. cbn [spec_insert_all].
    pose proof (spec_insert_sorted a k L HL) as HL1. destruct (spec_insert a k L) as [r L1].
    specialize (IH L1 HL1). by destruct (spec_insert_all ins L1). }
  pose proof (closest_deepest cmp y _ Hs) as Hd. unfold closest_of.
  destruct (closest cmp y (spec_insert_all ins []).2) as [a|].
  - destruct Hd as (k & Hin & Hen & Hmax). exists k.
    destruct (H1 k a Hin) as [Hi|?%elem_of_nil]; [|done]. split; [done|]. split; [done|].
    intros a' n' Hin' Hen'. destruct (H3 a' n' Hin') as (e & He & Hc).
    destruct (cmp_zero_encl_iff e.1 n' y Hc Hen') as [He' <-]. rewrite !depth_eq. specialize (Hmax e He He'). lia.
  - intros a' n' Hin'. destruct (H3 a' n' Hin') as (e & He & Hc). specialize (Hd e He).
    destruct (encl cmp n' y) eqn:En; [|done]. destruct (cmp_zero_encl_iff e.1 n' y Hc En) as [He' _]. congruence.
Qed.

(** The answer of an exact lookup. *)
Definition found_of (ins : list (addr * K)) y (r : ptr) : Prop :=
  match r with
  | Some a => exists n, (a, n) ∈ ins /\ cmp n y = 0
  | None => forall a' n', (a', n') ∈ ins -> cmp n' y <> 0
  end.

Lemma find_found_of ins y : found_of ins y (snd <$> head (at_key cmp y (spec_insert_all ins []).2)).
Proof.
  destruct (spec_insert_all_elem ins [] ltac:(constructor)) as (H1 & _ & H3). unfold found_of.
  destruct (at_key cmp y (spec_insert_all ins []).2) as [|[k a] A] eqn:Eat; cbn [head fmap option_fmap option_map snd].
  - intros a' n' Hin Hz. destruct (H3 a' n' Hin) as (e & He & Hc).
    assert (e ∈ at_key cmp y (spec_insert_all ins []).2) as Hx; [|rewrite Eat in Hx; by apply elem_of_nil in Hx].
    apply list_elem_of_filter. split; [|done]. apply (cmp_eq_sym cmp).
    apply (f_eq_trans cmp e.1 n' y Hc Hz).
  - assert ((k, a) ∈ at_key cmp y (spec_insert_all ins []).2) as Hx by (rewrite Eat; by left).
    apply list_elem_of_filter in Hx as [Hz Hx]. cbn in Hz. exists k.
    destruct (H1 k a Hx) as [?|?%elem_of_nil]; [|done]. split; [done|]. by apply (cmp_eq_sym cmp).
Qed.
End Walks.
