(* ===== verification/NameTree.v ===== *)
(** * Trees of names: the closest encloser of a name

    The keys of util/storage/dnstree.c's name trees are paths of labels from the
    root, so the lookup finds the closest enclosing name that was inserted. *)

From S2P Require Import Prelude Rbtree RbtreeAdd Dname DnameCompare PathOrder DnsTree DnsTreeSpec.

#[export] Instance lex_total : TotalCmp lex.
Proof.
  split.
  - intros x y. rewrite (lex_sym x y). lia.
  - intros x y z H1 H2.
    destruct (lex_range x y) as [E1|[E1|E1]], (lex_range y z) as [E2|[E2|E2]]; try lia.
    + rewrite (lex_trans _ _ _ E1 E2). lia.
    + apply lex_eq in E2 as ->. lia.
    + apply lex_eq in E1 as ->. lia.
    + apply lex_eq in E1 as ->. lia.
Qed.

#[export] Instance length_order_total : TotalCmp length_order.
Proof.
  split.
  - intros x y. unfold length_order.
    destruct (Z.ltb_spec (zlen x) (zlen y)), (Z.ltb_spec (zlen y) (zlen x)); try lia. apply (cmp_sym (cmp := lex)).
  - intros x y z. unfold length_order.
    destruct (Z.ltb_spec (zlen x) (zlen y)), (Z.ltb_spec (zlen y) (zlen x)), (Z.ltb_spec (zlen y) (zlen z)),
      (Z.ltb_spec (zlen z) (zlen y)), (Z.ltb_spec (zlen x) (zlen z)), (Z.ltb_spec (zlen z) (zlen x));
      intros; try lia. by apply (cmp_trans (cmp := lex) _ (map tolower y)).
Qed.

(** The labels of a name in wire format. *)
Fixpoint labels_of (fuel : nat) (w : list Z) : name :=
  match fuel, w with
  | S fuel', l :: w' => if l =? 0 then [] else ztake l w' :: labels_of fuel' (zdrop l w')
  | _, _ => []
  end.

Lemma labels_of_wire ls : forall fuel, Forall label_ok ls -> (length ls < fuel)%nat -> labels_of fuel (wire ls) = ls.
Proof.
  induction ls as [|l ls IH]; intros [|fuel] H Hf; [lia|done|lia|]. inversion_clear H as [|? ? [Hl Hb] H'].
  rewrite wire_cons. cbn [labels_of app]. rewrite eqb_false by lia.
  rewrite ztake_app_zlen, zdrop_app_zlen. cbn [length] in Hf. by rewrite IH by (done || lia).
Qed.

Definition labels (k : name_key) : name := labels_of 256 (proj1_sig k).(nt_name).

Lemma key_labels (k : name_key) : name_ok (labels k) /\
  (proj1_sig k).(nt_name) = wire (labels k) /\ (proj1_sig k).(nt_labs) = 1 + zlen (labels k).
Proof.
  destruct k as [x (ls & Hok & Hn & Hl & Hlabs)]. unfold labels. cbn [proj1_sig].
  assert (labels_of 256 (nt_name x) = ls) as ->; [|done].
  destruct Hok as [H1 H2]. rewrite Hn. apply labels_of_wire; [done|]. pose proof (wire_labels_bound ls H1). lia.
Qed.

Lemma lexl_lexp (x y : name) : lexl length_order x y = lexp length_order x y.
Proof. reflexivity. Qed.

Lemma common_commonp (x y : name) : common length_order x y = commonp length_order x y.
Proof. reflexivity. Qed.

(** The comparison and the number of shared labels never fail. *)
Lemma name_cmp_ok (x y : name_key) :
  name_tree_compare (proj1_sig x) (proj1_sig y) = Ok (name_cmp x y) /\
  dname_lab_cmp (proj1_sig x).(nt_name) (proj1_sig x).(nt_labs) (proj1_sig y).(nt_name) (proj1_sig y).(nt_labs)
  = Ok (lexp length_order (rev (labels x)) (rev (labels y)),
        1 + Z.of_nat (commonp length_order (rev (labels x)) (rev (labels y)))).
Proof.
  destruct (key_labels x) as ([Hx _] & Ex & Lx), (key_labels y) as ([Hy _] & Ey & Ly).
  pose proof (dname_lab_cmp_wire (labels x) (labels y) [] [] Hx Hy) as H. rewrite !app_nil_r in H.
  rewrite <- Ex, <- Ey, <- Lx, <- Ly in H. split; [|exact H]. unfold name_cmp, name_tree_compare.
  destruct (negb _); [by destruct (_ <? _)|]. by rewrite H.
Qed.

Lemma name_cmp_spec (x y : name_key) : Z.sgn (name_cmp x y)
  = if (proj1_sig x).(nt_dclass) <? (proj1_sig y).(nt_dclass) then -1
    else if (proj1_sig y).(nt_dclass) <? (proj1_sig x).(nt_dclass) then 1
    else Z.sgn (lexp length_order (rev (labels x)) (rev (labels y))).
Proof.
  destruct (name_cmp_ok x y) as [_ H]. unfold name_cmp, name_tree_compare. rewrite H, bind_Ok.
  destruct (Z.eqb_spec (nt_dclass (proj1_sig x)) (nt_dclass (proj1_sig y))) as [E1|E1]; cbn [negb].
  - by rewrite E1, Z.ltb_irrefl.
  - destruct (Z.ltb_spec (nt_dclass (proj1_sig x)) (nt_dclass (proj1_sig y))); [done|].
    by rewrite ltb_true by lia.
Qed.

#[export] Instance name_path_key : PathKey name_key name_cmp := {
  elem := label;
  elem_cmp := length_order;
  elem_total := length_order_total;
  group k := (proj1_sig k).(nt_dclass);
  path k := rev (labels k);
  cmp_spec := name_cmp_spec;
}.

Lemma name_depth_path (k : name_key) : name_depth k = 1 + Z.of_nat (length (path k)).
Proof.
  unfold name_depth. destruct (key_labels k) as (_ & _ & ->). cbn [path name_path_key].
  rewrite length_rev. unfold zlen. lia.
Qed.

Lemma name_common_path (x y : name_key) : group x = group y ->
  name_common x y = Ok (1 + Z.of_nat (commonp elem_cmp (path x) (path y))).
Proof. intros _. unfold name_common. by rewrite (proj2 (name_cmp_ok x y)). Qed.

#[export] Instance name_encloses : Encloses name_cmp name_depth name_same name_common := {
  base := 1;
  depth_path := name_depth_path;
  same_group x y := eq_refl;
  common_path := name_common_path;
}.

(** [k] is at or below [n], in the same class. *)
Definition name_encl (n k : name_key) : Prop :=
  (proj1_sig n).(nt_dclass) = (proj1_sig k).(nt_dclass) /\
  exists pre, lower_name (labels k) = pre ++ lower_name (labels n).

Lemma prefixp_lower p : forall x, prefixp length_order p x = true <-> exists r, lower_name x = lower_name p ++ r.
Proof.
  induction p as [|u p IH]; intros [|v x]; cbn [prefixp].
  - split; [by exists []|done].
  - split; [by eexists|done].
  - split; [done|]. by intros (r & ?).
  - rewrite andb_true_iff, Z.eqb_eq, length_order_0, IH.
    change (lower_name (v :: x)) with (map tolower v :: lower_name x).
    change (lower_name (u :: p)) with (map tolower u :: lower_name p). split.
    + intros [-> (r & ->)]. by exists r.
    + intros (r & [= E1 E2]). split; [done|]. by exists r.
Qed.

Lemma encl_name n k : encl name_cmp n k = true <-> name_encl n k.
Proof.
  rewrite encl_spec. cbn [group path elem_cmp name_path_key]. rewrite prefixp_lower. unfold name_encl.
  apply and_iff_compat_l. unfold lower_name. rewrite !map_rev. split; intros (r & E1).
  - exists (rev r). apply (f_equal (@rev _)) in E1. by rewrite rev_involutive, rev_app_distr, rev_involutive in E1.
  - exists (rev r). by rewrite E1, rev_app_distr.
Qed.

(** The same name, up to case, in the same class. *)
Definition name_eq (n k : name_key) : Prop :=
  (proj1_sig n).(nt_dclass) = (proj1_sig k).(nt_dclass) /\ lower_name (labels n) = lower_name (labels k).

Lemma cmp_name n k : name_cmp n k = 0 <-> name_eq n k.
Proof.
  split.
  - intros H. pose proof (cmp_zero_encl name_cmp n k H) as [E1 (p1 & H1)]%encl_name.
    pose proof (cmp_zero_encl name_cmp k n (cmp_eq_sym name_cmp _ _ H)) as [_ (p2 & H2)]%encl_name.
    split; [done|]. rewrite H1 in H2. apply (f_equal length) in H2 as Hl. rewrite !length_app in Hl.
    destruct p1; [by rewrite H1|cbn in Hl; lia].
  - intros [E1 E2]. assert (encl name_cmp n k = true) as Hen.
    { apply encl_name. split; [done|]. by exists []. }
    apply (encl_same name_cmp _ _ Hen). cbn [path name_path_key]. rewrite !length_rev.
    apply (f_equal length) in E2. unfold lower_name in E2. by rewrite !length_map in E2.
Qed.

(** C26. A name tree that was filled with [name_tree_insert] and prepared with
    [name_tree_init_parents] answers every lookup with the closest encloser: of the
    names inserted in that class that the name is at or below, up to case, a node
    of the one with most labels, and NULL just when there is none; [name_tree_find]
    gives the node of exactly that name. *)
Theorem name_tree_lookup_closest (h : gmap addr (rbnode name_key)) (ins : list (addr * name_key)) :
  NoDup ins.*1 -> (forall a, a ∈ ins.*1 -> a ∈ dom h) ->
  exists rs s, (rs ← insert_all name_cmp ins; name_tree_init_parents;; mret rs) (name_tree_init h) = Ok (rs, s) /\
    forall k, exists r, name_tree_lookup k s = Ok (r, s) /\
      match r with
      | Some a => exists n, (a, n) ∈ ins /\ name_encl n k /\
          forall a' n', (a', n') ∈ ins -> name_encl n' k -> name_depth n' <= name_depth n
      | None => forall a' n', (a', n') ∈ ins -> ~ name_encl n' k
      end /\
      exists r', name_tree_find k s = Ok (r', s) /\
      match r' with
      | Some a => exists n, (a, n) ∈ ins /\ name_eq n k
      | None => forall a' n', (a', n') ∈ ins -> ~ name_eq n' k
      end.
Proof.
  intros Nd Hd. destruct (closest_tree_ok name_cmp name_depth name_same name_common h ins Nd Hd) as (s & E1 & _ & H).
  eexists _, s. split; [exact E1|]. intros k. eexists. split; [apply H|].
  split; [|eexists; split; [apply H|]; pose proof (find_found_of name_cmp ins k) as Hf; unfold found_of in Hf;
    destruct (snd <$> head _); [destruct Hf as (n & ? & ?%cmp_name); by exists n|
      intros a' n' Hin' ?%cmp_name; by apply (Hf a' n')]].
  pose proof (closest_closest_of name_cmp name_depth name_same name_common ins k) as Hc. unfold closest_of in Hc.
  destruct (closest name_cmp k (spec_insert_all name_cmp ins []).2) as [a|].
  - destruct Hc as (n & Hin & Hen & Hmax). exists n. split; [done|]. split; [by apply encl_name|].
    intros a' n' Hin' Hen'. apply (Hmax a'); [done|]. by apply encl_name.
  - intros a' n' Hin' Hen'. apply encl_name in Hen'. rewrite (Hc a' n' Hin') in Hen'. done.
Qed.

Definition key_of (ls : name) (c : Z) (H : name_ok ls) : name_key :=
  exist _ (mk_name_node (wire ls) (zlen (wire ls)) (1 + zlen ls) c)
    (ex_intro _ ls (conj H (conj eq_refl (conj eq_refl eq_refl)))).

Lemma name_ok_com : name_ok [[99; 111; 109]].
Proof. split; [|done]. repeat constructor; unfold in_u, zlen; simpl; lia. Qed.

Lemma name_ok_a_com : name_ok [[65]; [67; 111; 109]].
Proof. split; [|done]. repeat constructor; unfold in_u, zlen; simpl; lia. Qed.

(** With com. in the tree, A.Com. has a closest encloser. *)
Lemma name_tree_lookup_closest_witness : exists s a,
  name_tree_lookup (key_of _ 1 name_ok_a_com) s = Ok (Some a, s).
Proof.
  set (com := key_of _ 1 name_ok_com).
  destruct (name_tree_lookup_closest {[ 7%positive := mk_node None None None com RED ]} [(7%positive, com)])
    as (rs & s & _ & H).
  - apply NoDup_singleton.
  - intros a Ha. apply list_elem_of_singleton in Ha as ->. set_solver.
  - destruct (H (key_of _ 1 name_ok_a_com)) as ([a|] & E1 & Hr & _); [by exists s, a|].
    exfalso. apply (Hr 7%positive com); [by left|]. split; [done|]. exists [[97]]. vm_compute. reflexivity.
Defined.
