(* ===== verification/Bits.v ===== *)
(** * The bits of an address

    An address or netblock is a list of bytes; its prefixes are prefixes of the
    list of its bits, the highest bit of the first byte first. *)

From S2P Require Import Prelude.

Definition bits8 (x : Z) : list Z := map (fun i => Z.b2z (Z.testbit x i)) [7; 6; 5; 4; 3; 2; 1; 0].
Definition bits (s : list Z) : list Z := concat (map bits8 s).

Lemma length_bits8 x : length (bits8 x) = 8%nat.
Proof. done. Qed.

Lemma bits_cons x s : bits (x :: s) = bits8 x ++ bits s.
Proof. done. Qed.

Lemma length_bits s : length (bits s) = (8 * length s)%nat.
Proof. induction s as [|x s IH]; [done|]. rewrite bits_cons, length_app, length_bits8, IH. cbn [length]. lia. Qed.

(** Bit [i] of byte [k]. *)
Lemma bits_lookup s k i x : s !! k = Some x -> (i < 8)%nat ->
  bits s !! (8 * k + i)%nat = Some (Z.b2z (Z.testbit x (7 - Z.of_nat i))).
Proof.
  revert k. induction s as [|y s IH]; intros [|k] Hk Hi; try done; rewrite bits_cons.
  - injection Hk as ->. rewrite lookup_app_l by (rewrite length_bits8; lia).
    do 8 (destruct i as [|i]; [reflexivity|]). lia.
  - rewrite lookup_app_r by (rewrite length_bits8; lia). rewrite length_bits8.
    replace (8 * S k + i - 8)%nat with (8 * k + i)%nat by lia. by apply IH.
Qed.

Lemma bits_take s n : bits (take n s) = take (8 * n) (bits s).
Proof.
  revert n. induction s as [|x s IH]; intros n; [by rewrite take_nil; destruct (8 * n)%nat|].
  destruct n as [|n]; [done|]. cbn [take]. rewrite !bits_cons, IH, take_app_ge by (rewrite length_bits8; lia).
  f_equal. f_equal. rewrite length_bits8. lia.
Qed.
