(* ===== verification/AddrTree.v ===== *)
(** * Trees of netblocks: the longest matching prefix of an address

    The keys of util/storage/dnstree.c's address trees are paths of bits, so the
    lookup finds the longest netblock with the address in it. *)

From S2P Require Import Prelude Bits Rbtree RbtreeAdd RbtreeApi PathOrder DnsTree DnsTreeSpec NameTree.

(** ** Addresses as bits *)

(** The facts about pairs of bytes are decided on all of them. *)
Lemma byte_forall2 (P : Z -> Z -> bool) :
  forallb (fun x => forallb (P x) (seqZ 0 256)) (seqZ 0 256) = true ->
  forall x y, is_byte x -> is_byte y -> P x y = true.
Proof.
  intros H x y Hx Hy. apply (byte_forall (P x)); [|done].
  exact (byte_forall (fun x => forallb (P x) (seqZ 0 256)) H x Hx).
Qed.

Lemma lexp_bits8 x y : is_byte x -> is_byte y ->
  Z.sgn (lexp z_cmp (bits8 x) (bits8 y)) = if x <? y then -1 else if y <? x then 1 else 0.
Proof.
  intros Hx Hy. apply Z.eqb_eq. revert x y Hx Hy. apply byte_forall2. vm_compute. reflexivity.
Qed.

Lemma common_bits8 x y : is_byte x -> is_byte y -> x <> y ->
  leading_zeros 8 (Z.lxor x y) 0 = Ok (Z.of_nat (commonp z_cmp (bits8 x) (bits8 y))) /\ (Z.lxor x y <> 0).
Proof.
  intros Hx Hy Hne.
  assert ((x =? y) || (match leading_zeros 8 (Z.lxor x y) 0 with
    | Ok n => n =? Z.of_nat (commonp z_cmp (bits8 x) (bits8 y)) | _ => false end && negb (Z.lxor x y =? 0)) = true) as H.
  { revert x y Hx Hy Hne. intros x y Hx Hy _. revert x y Hx Hy. apply byte_forall2. vm_compute. reflexivity. }
  rewrite eqb_false in H by done. cbn [orb] in H. apply andb_true_iff in H as [H1 H2].
  destruct (leading_zeros 8 (Z.lxor x y) 0) as [n| |]; [|done|done]. apply Z.eqb_eq in H1 as ->.
  split; [done|]. intros E1. by rewrite E1 in H2.
Qed.

Lemma mask_bits8 x m : is_byte x -> 0 <= m < 8 ->
  bits8 (Z.land x (mask_byte m)) = take (Z.to_nat m) (bits8 x) ++ replicate (8 - Z.to_nat m) 0.
Proof.
  intros Hx Hm.
  assert (forallb (fun m => bool_decide (bits8 (Z.land x (mask_byte m))
    = take (Z.to_nat m) (bits8 x) ++ replicate (8 - Z.to_nat m) 0)) (seqZ 0 8) = true) as H.
  { revert x Hx. apply byte_forall. vm_compute. reflexivity. }
  rewrite forallb_forall in H. specialize (H m). apply (bool_decide_eq_true _), H. apply list_elem_of_In, elem_of_seqZ. lia.
Qed.

(** ** The order of addresses is the order of their bits *)

Lemma lexp_app (u v x y : list Z) : length u = length v ->
  lexp z_cmp (u ++ x) (v ++ y) = if lexp z_cmp u v =? 0 then lexp z_cmp x y else lexp z_cmp u v.
Proof.
  revert v. induction u as [|a u IH]; intros [|b v] Hl; try done. cbn [app lexp].
  destruct (Z.eqb_spec (z_cmp a b) 0) as [E1|E1]; [apply IH; by injection Hl|]. by rewrite eqb_false.
Qed.

Lemma lex_bits a : forall b, bytes_ok a -> bytes_ok b -> length a = length b ->
  Z.sgn (lexp z_cmp (bits a) (bits b)) = lex a b.
Proof.
  induction a as [|x a IH]; intros [|y b] Ha Hb Hl; try done. inversion_clear Ha. inversion_clear Hb.
  rewrite !bits_cons, lexp_app by done. pose proof (lexp_bits8 x y) as H8. cbn [lex].
  destruct (Z.ltb_spec x y), (Z.ltb_spec y x), (Z.eqb_spec (lexp z_cmp (bits8 x) (bits8 y)) 0);
    specialize (H8 ltac:(done) ltac:(done)); try lia. apply IH; [done|done|by injection Hl].
Qed.

Lemma lexp_zeros n y : Forall (fun b => 0 <= b) y -> n = length y -> lexp z_cmp (replicate n 0) y <= 0.
Proof.
  intros Hy ->. induction Hy as [|b y Hb Hy IH]; cbn; [done|]. unfold z_cmp.
  destruct (Z.eqb_spec (0 - b) 0); [done|]. lia.
Qed.

Lemma lexp_zeros_r n y : Forall (fun b => 0 <= b) y -> n = length y -> 0 <= lexp z_cmp y (replicate n 0).
Proof.
  intros Hy ->. induction Hy as [|b y Hb Hy IH]; cbn; [done|]. unfold z_cmp.
  destruct (Z.eqb_spec (b - 0) 0); [done|]. lia.
Qed.

(** Netblocks padded with zeros compare as their prefixes do, the shorter first. *)
Lemma lexp_padded p : forall q k1 k2, Forall (fun b => 0 <= b) p -> Forall (fun b => 0 <= b) q ->
  (length p + k1 = length q + k2)%nat ->
  let r := lexp z_cmp (p ++ replicate k1 0) (q ++ replicate k2 0) in
  Z.sgn (if r =? 0 then Z.of_nat (length p) - Z.of_nat (length q) else r) = Z.sgn (lexp z_cmp p q).
Proof.
  induction p as [|u p IH]; intros q k1 k2 Hp Hq Hl r.
  - destruct q as [|v q].
    + cbn in Hl. subst k2. unfold r. cbn [app]. rewrite (cmp_refl (lexp z_cmp)). done.
    + cbn [length lexp] in *. assert (r <= 0) as Hr.
      { apply lexp_zeros; [|rewrite length_app, length_replicate; cbn [length]; lia].
        apply Forall_app. split; [done|]. apply Forall_replicate. lia. }
      destruct (Z.eqb_spec r 0); lia.
  - destruct q as [|v q].
    + cbn [length lexp] in *. assert (0 <= r) as Hr.
      { apply lexp_zeros_r; [|rewrite length_app, length_replicate; cbn [length]; lia].
        apply Forall_app. split; [done|]. apply Forall_replicate. lia. }
      destruct (Z.eqb_spec r 0); lia.
    + inversion_clear Hp. inversion_clear Hq. unfold r. cbn [app lexp length].
      destruct (Z.eqb_spec (z_cmp u v) 0) as [E1|E1].
      * specialize (IH q k1 k2 ltac:(done) ltac:(done) ltac:(cbn in Hl; lia)). cbv zeta in IH. rewrite <- IH.
        destruct (lexp z_cmp (p ++ replicate k1 0) (q ++ replicate k2 0) =? 0); [f_equal; lia|done].
      * by rewrite eqb_false.
Qed.

(** ** The mask *)

Lemma mask_byte_mod net : 0 <= net -> mask_byte net = mask_byte (net mod 8).
Proof.
  intros H. unfold mask_byte. do 2 f_equal. change 7 with (Z.ones 3). rewrite !Z.land_ones by lia.
  change (2 ^ 3) with 8. by rewrite Z.mod_mod by lia.
Qed.

Lemma bits8_0 : bits8 0 = replicate 8 0.
Proof. done. Qed.

Lemma mask_loop_bits s : forall i net, bytes_ok s -> 0 <= i -> 0 <= net ->
  bits (mask_loop s i net)
  = take (Z.to_nat (net - 8 * i)) (bits s) ++ replicate (8 * length s - Z.to_nat (net - 8 * i)) 0.
Proof.
  induction s as [|x s IH]; intros i net Hs Hi Hn; [change (bits []) with (@nil Z); by rewrite take_nil|]. inversion_clear Hs as [|? ? Hx Hs'].
  cbn [mask_loop]. rewrite !bits_cons, IH by (done || lia). rewrite Z.quot_div_nonneg by lia.
  pose proof (Z.div_mod net 8 ltac:(lia)) as Hdm. pose proof (Z.mod_pos_bound net 8 ltac:(lia)) as Hm.
  cbn [length]. destruct (Z.eqb_spec i (net / 8)) as [Ei|Ei]; [|destruct (Z.ltb_spec (net / 8) i) as [Hlt|Hge]].
  - rewrite (mask_byte_mod net Hn), (mask_bits8 x (net mod 8) Hx Hm).
    replace (net - 8 * i) with (net mod 8) by lia.
    replace (Z.to_nat (net - 8 * (i + 1))) with 0%nat by lia. rewrite take_0, app_nil_l, Nat.sub_0_r.
    rewrite take_app_le by (rewrite length_bits8; lia). rewrite <- app_assoc. f_equal.
    rewrite <- replicate_add. f_equal. lia.
  - replace (Z.to_nat (net - 8 * i)) with 0%nat by lia. replace (Z.to_nat (net - 8 * (i + 1))) with 0%nat by lia.
    rewrite !take_0, !app_nil_l, bits8_0, <- replicate_add. f_equal. lia.
  - replace (Z.to_nat (net - 8 * i)) with (8 + Z.to_nat (net - 8 * (i + 1)))%nat by lia.
    rewrite (take_app_add' (bits8 x)) by done. rewrite <- app_assoc. do 2 f_equal. f_equal. lia.
Qed.

(** ** The keys *)

Definition nbits (k : addr_key) : list Z := bits (proj1_sig k).(at_addr).(s_addr).
Definition net (k : addr_key) : Z := (proj1_sig k).(at_net).
Definition alen (k : addr_key) : Z := (proj1_sig k).(at_addrlen).
Definition prefix (k : addr_key) : list Z := take (Z.to_nat (net k)) (nbits k).

(** An address of length [len]: its family and number of bytes. *)
Lemma addr_ok_facts a len : addr_ok a len -> bytes_ok a.(s_addr) /\
  ((len = 16 /\ a.(s_family) = AF_INET /\ length a.(s_addr) = 4%nat /\ addr_is_ip6 a len = false) \/
   (len = 28 /\ a.(s_family) = AF_INET6 /\ length a.(s_addr) = 16%nat /\ addr_is_ip6 a len = true)).
Proof.
  unfold addr_ok, zlen. intros [Hb [(Hf & -> & Hl)|(Hf & -> & Hl)]]; (split; [done|]); [left|right];
    (split; [done|]); (split; [done|]); (split; [lia|]); unfold addr_is_ip6; by rewrite Hf.
Qed.

Lemma key_bits (k : addr_key) : 0 <= net k <= Z.of_nat (length (nbits k)) /\
  nbits k = prefix k ++ replicate (length (nbits k) - Z.to_nat (net k)) 0.
Proof.
  destruct k as [[a len n] (Ha & Hn & Hm)]. unfold prefix, net, nbits. cbn [proj1_sig at_addr at_addrlen at_net] in *.
  destruct (addr_ok_facts a len Ha) as [Hb Hfam]. rewrite length_bits.
  unfold addr_bits in Hn. unfold addr_mask in Hm.
  assert (0 <= n <= Z.of_nat (8 * length (s_addr a))) as Hn'.
  { destruct Hfam as [(_ & _ & E1 & E2)|(_ & _ & E1 & E2)]; rewrite E2 in Hn; rewrite E1; lia. }
  split; [done|]. destruct (Z.leb_spec (if addr_is_ip6 a len then 128 else 32) n) as [Hfull|Hpart].
  - rewrite take_ge, (proj2 (Nat.sub_0_le _ _)); [by rewrite app_nil_r| |];
      destruct Hfam as [(_ & _ & E1 & E2)|(_ & _ & E1 & E2)]; rewrite E2 in Hfull; rewrite ?length_bits, E1; lia.
  - pose proof (mask_loop_bits (s_addr a) 0 n Hb ltac:(lia) ltac:(lia)) as H.
    apply (f_equal s_addr) in Hm. cbn [s_addr] in Hm. rewrite Hm in H. rewrite Z.mul_0_r, Z.sub_0_r in H. exact H.
Qed.

Lemma bits_nonneg s : Forall (fun b => 0 <= b) (bits s).
Proof.
  induction s as [|x s IH]; [constructor|]. rewrite bits_cons. apply Forall_app. split; [|done].
  unfold bits8. apply Forall_forall. intros b Hb. apply list_elem_of_In, in_map_iff in Hb as (i & <- & _).
  destruct (Z.testbit x i); cbn; lia.
Qed.

Lemma length_prefix (k : addr_key) : length (prefix k) = Z.to_nat (net k).
Proof. destruct (key_bits k) as [H _]. unfold prefix. rewrite length_take. lia. Qed.

(** Two keys with the same length of address. *)
Lemma same_length (x y : addr_key) : alen x = alen y ->
  length (nbits x) = length (nbits y) /\
  sockaddr_cmp_addr (proj1_sig x).(at_addr) (alen x) (proj1_sig y).(at_addr) (alen y)
  = Ok (Z.sgn (lexp z_cmp (nbits x) (nbits y))).
Proof.
  destruct x as [[a len n] (Ha & Hn & Hm)], y as [[a' len' n'] (Ha' & Hn' & Hm')].
  unfold alen, nbits. cbn [proj1_sig at_addr at_addrlen at_net] in *. intros <-.
  destruct (addr_ok_facts a len Ha) as [Hb Hfam], (addr_ok_facts a' len Ha') as [Hb' Hfam'].
  unfold sockaddr_cmp_addr. rewrite Z.ltb_irrefl. rewrite !length_bits.
  destruct Hfam as [(E0 & E1 & E2 & _)|(E0 & E1 & E2 & _)], Hfam' as [(E0' & E1' & E2' & _)|(E0' & E1' & E2' & _)]; try lia;
    rewrite E1, E1', E2, E2', Z.ltb_irrefl; (split; [done|]); cbn [Z.eqb AF_INET AF_INET6 Pos.eqb];
    unfold memcmp; rewrite !read_bytes_ok by (unfold zlen; lia); rewrite !bind_Ok;
    unfold ztake; rewrite !take_ge by lia; by rewrite lex_bits by (done || lia).
Qed.

Lemma addr_cmp_spec (x y : addr_key) : Z.sgn (addr_cmp x y)
  = if alen x <? alen y then -1 else if alen y <? alen x then 1 else Z.sgn (lexp z_cmp (prefix x) (prefix y)).
Proof.
  unfold addr_cmp, addr_tree_compare. fold (alen x) (alen y).
  destruct (Z.eq_dec (alen x) (alen y)) as [E1|E1].
  - destruct (same_length x y E1) as [Hl Hc]. rewrite Hc, bind_Ok, E1, Z.ltb_irrefl.
    fold (net x) (net y). destruct (key_bits x) as [Hx Ex], (key_bits y) as [Hy Ey].
    pose proof (lexp_padded (prefix x) (prefix y) (length (nbits x) - Z.to_nat (net x))
      (length (nbits y) - Z.to_nat (net y))) as Hp. rewrite <- Ex, <- Ey in Hp. cbv zeta in Hp.
    rewrite !length_prefix in Hp. rewrite <- Hp; [|apply Forall_take, bits_nonneg..|lia].
    destruct (Z.eqb_spec (lexp z_cmp (nbits x) (nbits y)) 0) as [E2|E2].
    + rewrite E2. cbn [Z.sgn Z.eqb negb]. destruct (Z.ltb_spec (net x) (net y)), (Z.ltb_spec (net y) (net x)); cbn; lia.
    + destruct (Z.eqb_spec (Z.sgn (lexp z_cmp (nbits x) (nbits y))) 0); cbn [negb]; lia.
  - unfold sockaddr_cmp_addr. destruct (Z.ltb_spec (alen x) (alen y)); [done|].
    rewrite !(ltb_true (alen y) (alen x)) by lia. done.
Qed.

#[export] Instance addr_path_key : PathKey addr_key addr_cmp := {
  elem := Z;
  elem_cmp := z_cmp;
  elem_total := z_cmp_total;
  group := alen;
  path := prefix;
  cmp_spec := addr_cmp_spec;
}.

(** ** The bits two addresses share *)

Lemma leading_zeros_add fuel : forall z m, leading_zeros fuel z m = (r ← leading_zeros fuel z 0; Ok (m + r)).
Proof.
  induction fuel as [|fuel IH]; intros z m; cbn [leading_zeros]; destruct (negb (Z.land z 128 =? 0)); cbn; try done;
    try (f_equal; lia).
  rewrite IH, (IH _ (0 + 1)). destruct (leading_zeros fuel (u8 (Z.shiftl z 1)) 0); cbn; [f_equal; lia|done|done].
Qed.

Lemma commonp_app (u v x y : list Z) : length u = length v ->
  commonp z_cmp (u ++ x) (v ++ y)
  = if (commonp z_cmp u v =? length u)%nat then (length u + commonp z_cmp x y)%nat else commonp z_cmp u v.
Proof.
  revert v. induction u as [|a u IH]; intros [|b v] Hl; try done. cbn [app commonp length].
  destruct (z_cmp a b =? 0); [|done]. rewrite IH by (by injection Hl). cbn [Nat.eqb].
  by destruct (commonp z_cmp u v =? length u)%nat.
Qed.

Lemma commonp_refl x : commonp z_cmp x x = length x.
Proof. induction x as [|a x IH]; [done|]. cbn [commonp]. unfold z_cmp at 1. rewrite Z.sub_diag. cbn. by rewrite IH. Qed.

Lemma commonp_lt (u v : list Z) : length u = length v -> u <> v -> (commonp z_cmp u v < length u)%nat.
Proof.
  revert v. induction u as [|a u IH]; intros [|b v] Hl Hne; try done. cbn [commonp length]. unfold z_cmp at 1.
  destruct (Z.eqb_spec (a - b) 0) as [E1|E1]; [|lia]. assert (a = b) as <- by lia.
  assert (u <> v) as Huv by congruence. injection Hl as Hl. specialize (IH v Hl Huv). lia.
Qed.

Lemma bits8_inj x y : is_byte x -> is_byte y -> bits8 x = bits8 y -> x = y.
Proof.
  intros Hx Hy E1. pose proof (lexp_bits8 x y Hx Hy) as H. rewrite E1, (cmp_refl (lexp z_cmp)) in H. cbn in H.
  destruct (Z.ltb_spec x y), (Z.ltb_spec y x); lia.
Qed.

Lemma bits_loop_ok s1 : forall s2 m, bytes_ok s1 -> bytes_ok s2 -> length s1 = length s2 ->
  bits_loop (length s1) s1 s2 m = Ok (m + Z.of_nat (commonp z_cmp (bits s1) (bits s2))).
Proof.
  induction s1 as [|x s1 IH]; intros [|y s2] m H1 H2 Hl; try done; [cbn; f_equal; lia|].
  inversion_clear H1 as [|? ? Hx H1']. inversion_clear H2 as [|? ? Hy H2']. cbn [length bits_loop next]. rewrite !bind_Ok.
  rewrite !bits_cons, commonp_app, length_bits8 by done. destruct (Z.eqb_spec x y) as [->|Hne].
  - rewrite commonp_refl, length_bits8, Nat.eqb_refl. rewrite IH by (done || by injection Hl). f_equal. lia.
  - destruct (common_bits8 x y Hx Hy Hne) as [Hz Hnz]. rewrite (eqb_false (Z.lxor x y) 0) by done. cbn [negb c_assert].
    rewrite bind_Ok, leading_zeros_add, Hz, bind_Ok.
    pose proof (commonp_lt (bits8 x) (bits8 y) eq_refl) as Hlt. rewrite length_bits8 in Hlt.
    rewrite (proj2 (Nat.eqb_neq _ _)); [done|].
    assert (bits8 x <> bits8 y) as Hb by (intros E1; apply Hne; by apply bits8_inj). specialize (Hlt Hb). lia.
Qed.

Lemma commonp_take (x y : list Z) : forall n1 n2,
  commonp z_cmp (take n1 x) (take n2 y) = Nat.min (Nat.min n1 n2) (commonp z_cmp x y).
Proof.
  revert y. induction x as [|a x IH]; intros [|b y] [|n1] [|n2]; cbn [take commonp]; try lia.
  destruct (z_cmp a b =? 0); [|lia]. rewrite IH. lia.
Qed.

Lemma addr_common_path (x y : addr_key) : group x = group y ->
  addr_common x y = Ok (0 + Z.of_nat (commonp elem_cmp (path x) (path y))).
Proof.
  cbn [group path elem_cmp addr_path_key]. intros E1. destruct (same_length x y E1) as [Hl _].
  destruct (key_bits x) as [Hx _], (key_bits y) as [Hy _].
  unfold prefix. rewrite commonp_take. unfold addr_common, addr_in_common. fold (net x) (net y).
  unfold nbits in *. rewrite !length_bits in Hl.
  destruct x as [[a len n] (Ha & Hn & Hm)], y as [[a' len' n'] (Ha' & Hn' & Hm')].
  cbn [proj1_sig at_addr at_addrlen] in *. unfold net in *. cbn [proj1_sig at_net] in *.
  destruct (addr_ok_facts a len Ha) as [Hb Hfam], (addr_ok_facts a' len' Ha') as [Hb' _].
  assert ((if addr_is_ip6 a len then 16%nat else 4%nat) = length (s_addr a)) as ->
    by (destruct Hfam as [(_ & _ & -> & ->)|(_ & _ & -> & ->)]; done).
  rewrite bits_loop_ok by (done || lia). rewrite bind_Ok. f_equal.
  set (c := commonp z_cmp _ _). destruct (Z.ltb_spec n n').
  - destruct (Z.ltb_spec n (0 + Z.of_nat c)); lia.
  - destruct (Z.ltb_spec n' (0 + Z.of_nat c)); lia.
Qed.

Lemma addr_depth_path (k : addr_key) : addr_depth k = 0 + Z.of_nat (length (path k)).
Proof.
  cbn [path addr_path_key]. rewrite length_prefix. destruct (key_bits k) as [H _]. unfold addr_depth. fold (net k). lia.
Qed.

#[export] Instance addr_encloses : Encloses addr_cmp addr_depth addr_same addr_common := {
  base := 0;
  depth_path := addr_depth_path;
  same_group x y := eq_refl;
  common_path := addr_common_path;
}.

(** ** The longest prefix match *)

(** The address is in the netblock. *)
Definition in_netblock (n : addr_key) (a : sockaddr) (len : Z) : Prop :=
  alen n = len /\ take (Z.to_nat (net n)) (nbits n) = take (Z.to_nat (net n)) (bits a.(s_addr)).

Lemma prefixp_z p : forall x, prefixp z_cmp p x = true <-> p = take (length p) x.
Proof.
  induction p as [|u p IH]; intros [|v x]; cbn [prefixp length take]; try done.
  rewrite andb_true_iff, IH. unfold z_cmp. rewrite Z.eqb_eq. split.
  - intros [E1 E2]. assert (u = v) as -> by lia. by rewrite <- E2.
  - intros [= -> E2]. split; [lia|done].
Qed.

Lemma encl_netblock n a len H : encl addr_cmp n (host_key a len H) = true <-> in_netblock n a len.
Proof.
  rewrite encl_spec. cbn [group path elem_cmp addr_path_key]. rewrite prefixp_z, length_prefix. unfold in_netblock.
  assert (prefix (host_key a len H) = bits (s_addr a)) as Eh.
  { unfold prefix, host_key, net, nbits. cbn [proj1_sig at_addr at_net]. apply take_ge. rewrite length_bits.
    destruct (addr_ok_facts a len H) as [_ [(_ & _ & -> & Hi)|(_ & _ & -> & Hi)]]; unfold addr_bits; rewrite Hi; lia. }
  rewrite Eh. done.
Qed.

(** C27. An address tree that was filled with [addr_tree_insert] and prepared with
    [addr_tree_init_parents] answers every lookup with the longest match: of the
    netblocks inserted that the address is in, a node of the one with the most
    bits, and NULL just when it is in none. *)
Theorem addr_tree_lookup_longest (h : gmap addr (rbnode addr_key)) (ins : list (addr * addr_key)) :
  NoDup ins.*1 -> (forall p, p ∈ ins.*1 -> p ∈ dom h) ->
  exists rs s, (rs ← insert_all addr_cmp ins; addr_tree_init_parents;; mret rs) (addr_tree_init h) = Ok (rs, s) /\
    forall a len H, exists r, addr_tree_lookup a len H s = Ok (r, s) /\
      match r with
      | Some p => exists n, (p, n) ∈ ins /\ in_netblock n a len /\
          forall p' n', (p', n') ∈ ins -> in_netblock n' a len -> net n' <= net n
      | None => forall p' n', (p', n') ∈ ins -> ~ in_netblock n' a len
      end.
Proof.
  intros Nd Hd. destruct (closest_tree_ok addr_cmp addr_depth addr_same addr_common h ins Nd Hd) as (s & E1 & _ & Hl).
  eexists _, s. split; [exact E1|]. intros a len H. eexists. split; [apply Hl|].
  pose proof (closest_closest_of addr_cmp addr_depth addr_same addr_common ins (host_key a len H)) as Hc.
  unfold closest_of in Hc. destruct (closest addr_cmp (host_key a len H) (spec_insert_all addr_cmp ins []).2) as [p|].
  - destruct Hc as (n & Hin & Hen & Hmax). exists n. split; [done|]. split; [by apply encl_netblock in Hen|].
    intros p' n' Hin' Hen'. apply (Hmax p'); [done|]. by apply encl_netblock.
  - intros p' n' Hin' Hen'. apply (encl_netblock _ _ _ H) in Hen'. rewrite (Hc p' n' Hin') in Hen'. done.
Qed.

(** ** Netblocks for the examples *)

Definition ip4 (x y z w : Z) : sockaddr := mk_sockaddr AF_INET 0 [x; y; z; w] [].

Lemma ip4_ok x y z w : is_byte x -> is_byte y -> is_byte z -> is_byte w -> addr_ok (ip4 x y z w) sizeof_sockaddr_in.
Proof.
  intros. split; [|by left]. cbn [s_addr ip4].
  do 4 (apply Forall_cons_2; [done|]). by apply Forall_nil_2.
Qed.

Ltac netblock := split; [apply ip4_ok; unfold is_byte, in_u; lia|split; [vm_compute; split; discriminate|reflexivity]].

Lemma net10_ok : addr_node_ok (mk_addr_node (ip4 10 0 0 0) sizeof_sockaddr_in 8).
Proof. netblock. Qed.
Lemma net10_1_ok : addr_node_ok (mk_addr_node (ip4 10 1 0 0) sizeof_sockaddr_in 16).
Proof. netblock. Qed.
Lemma net10_2_ok : addr_node_ok (mk_addr_node (ip4 10 2 0 0) sizeof_sockaddr_in 16).
Proof. netblock. Qed.
Lemma host_ok : addr_ok (ip4 10 3 0 1) sizeof_sockaddr_in.
Proof. apply ip4_ok; unfold is_byte, in_u; lia. Qed.

Definition net10 : addr_key := exist _ _ net10_ok.
Definition net10_1 : addr_key := exist _ _ net10_1_ok.
Definition net10_2 : addr_key := exist _ _ net10_2_ok.

Definition some_heap : gmap addr (rbnode addr_key) :=
  list_to_map [(1%positive, mk_node None None None net10 RED); (2%positive, mk_node None None None net10 RED);
    (3%positive, mk_node None None None net10 RED)].

Lemma addr_tree_lookup_longest_witness : exists s p,
  addr_tree_lookup (ip4 10 3 0 1) sizeof_sockaddr_in host_ok s = Ok (Some p, s).
Proof.
  destruct (addr_tree_lookup_longest some_heap [(1%positive, net10); (2%positive, net10_1)]) as (rs & s & _ & H).
  - apply (bool_decide_unpack _). vm_compute. exact I.
  - intros p Hp. apply elem_of_dom. assert (p = 1%positive \/ p = 2%positive) as [->| ->] by set_solver; vm_compute; eauto.
  - destruct (H (ip4 10 3 0 1) sizeof_sockaddr_in host_ok) as ([p|] & E1 & Hr); [by exists s, p|].
    exfalso. apply (Hr 1%positive net10); [by left|]. split; reflexivity.
Defined.

(** The answer of a lookup of 10.3.0.1. *)
Definition lookup_host : ST (dtree addr_key) ptr := addr_tree_lookup (ip4 10 3 0 1) sizeof_sockaddr_in host_ok.

(** Deleting from an address tree with [respip_sockaddr_delete] loses enclosers:
    it re-initialises the parents from the node before the deleted one, which as the
    first of the walk is left without a parent.  With 10.0.0.0/8, 10.1.0.0/16 and
    10.2.0.0/16 in the tree, 10.3.0.1 is found in 10.0.0.0/8; once 10.2.0.0/16 is
    deleted it is found in no netblock, though 10.0.0.0/8 is still there. *)
Lemma respip_delete_loses_encloser :
  match (insert_all addr_cmp [(1%positive, net10); (2%positive, net10_1); (3%positive, net10_2)];;
         addr_tree_init_parents;;
         before ← lookup_host;
         respip_sockaddr_delete 3%positive;;
         after ← lookup_host;
         left ← addr_tree_find net10;
         mret (before, after, left)) (addr_tree_init some_heap) with
  | Ok (r, _) => r = (Some 1%positive, None, Some 1%positive)
  | _ => False
  end /\ in_netblock net10 (ip4 10 3 0 1) sizeof_sockaddr_in.
Proof. split; [vm_compute; reflexivity|split; reflexivity]. Qed.
