(* ===== verification/Subnet.v ===== *)
(** * The radix tree of the EDNS subnet cache (edns-subnet/addrtree.c)

    The tree at the level of its pointers: nodes, the edges between them (each with
    its own copy of the address), and the list in order of use that runs through
    all nodes but the root.  Using a node or an edge that was freed is a [Fault].
    The callbacks: [sizefunc] is a function, [delfunc] an entry of [deleted].  The
    sizes of the structures are those of a 64-bit machine. *)

From S2P Require Import Prelude.

Abbreviation addr := positive.
Abbreviation ptr := (option positive).

Definition KEYWIDTH : Z := 8.
Definition sizeof_addrtree : Z := 72.
Definition sizeof_addrnode : Z := 64.
Definition sizeof_addredge : Z := 40.

Record addredge := mk_edge {
  str : list Z;
  len : Z;
  e_node : ptr;
  parent_node : addr;
  parent_index : Z;
}.

Record addrnode (E : Type) := mk_node {
  elem : option E;
  n_ttl : Z;
  scope : Z;
  only_match_scope_zero : bool;
  edge0 : ptr;
  edge1 : ptr;
  parent_edge : ptr;
  n_prev : ptr;
  n_next : ptr;
}.
Arguments mk_node {_} _ _ _ _ _ _ _ _ _.
Arguments elem {_} _.
Arguments n_ttl {_} _.
Arguments scope {_} _.
Arguments only_match_scope_zero {_} _.
Arguments edge0 {_} _.
Arguments edge1 {_} _.
Arguments parent_edge {_} _.
Arguments n_prev {_} _.
Arguments n_next {_} _.

Record addrtree := mk_addrtree {
  root : ptr;
  node_count : Z;
  max_node_count : Z;
  size_bytes : Z;
  max_depth : Z;
  lru_first : ptr;
  lru_last : ptr;
}.

Record world (E : Type) := mk_world {
  nodes : gmap addr (addrnode E);
  edges : gmap addr addredge;
  tree : addrtree;
  deleted : list E;
  memory : mem;
}.
Arguments mk_world {_} _ _ _ _ _.
Arguments nodes {_} _.
Arguments edges {_} _.
Arguments tree {_} _.
Arguments deleted {_} _.
Arguments memory {_} _.

Section Operations.
Context {E : Type} (sizefunc : E -> Z).
Implicit Types (n : addrnode E) (w : world E) (t : addrtree) (e : addredge).
Abbreviation W := (ST (world E)).

Definition with_elem (x : option E) (n : addrnode E) := mk_node x n.(n_ttl) n.(scope) n.(only_match_scope_zero) n.(edge0) n.(edge1) n.(parent_edge) n.(n_prev) n.(n_next).
Definition with_ttl x (n : addrnode E) := mk_node n.(elem) x n.(scope) n.(only_match_scope_zero) n.(edge0) n.(edge1) n.(parent_edge) n.(n_prev) n.(n_next).
Definition with_scope x (n : addrnode E) := mk_node n.(elem) n.(n_ttl) x n.(only_match_scope_zero) n.(edge0) n.(edge1) n.(parent_edge) n.(n_prev) n.(n_next).
Definition with_only x (n : addrnode E) := mk_node n.(elem) n.(n_ttl) n.(scope) x n.(edge0) n.(edge1) n.(parent_edge) n.(n_prev) n.(n_next).
Definition with_parent_edge x (n : addrnode E) := mk_node n.(elem) n.(n_ttl) n.(scope) n.(only_match_scope_zero) n.(edge0) n.(edge1) x n.(n_prev) n.(n_next).
Definition with_prev x (n : addrnode E) := mk_node n.(elem) n.(n_ttl) n.(scope) n.(only_match_scope_zero) n.(edge0) n.(edge1) n.(parent_edge) x n.(n_next).
Definition with_next x (n : addrnode E) := mk_node n.(elem) n.(n_ttl) n.(scope) n.(only_match_scope_zero) n.(edge0) n.(edge1) n.(parent_edge) n.(n_prev) x.
(** [node->edge[i]]; the index is 0 or 1. *)
Definition edge_at (i : Z) (n : addrnode E) : ptr := if i =? 0 then n.(edge0) else n.(edge1).
Definition with_edge (i : Z) (x : ptr) (n : addrnode E) :=
  mk_node n.(elem) n.(n_ttl) n.(scope) n.(only_match_scope_zero) (if i =? 0 then x else n.(edge0))
    (if i =? 0 then n.(edge1) else x) n.(parent_edge) n.(n_prev) n.(n_next).

Definition with_parent (p : addr) (i : Z) e := mk_edge e.(str) e.(len) e.(e_node) p i.

Definition with_count x t := mk_addrtree t.(root) x t.(max_node_count) t.(size_bytes) t.(max_depth) t.(lru_first) t.(lru_last).
Definition with_size x t := mk_addrtree t.(root) t.(node_count) t.(max_node_count) x t.(max_depth) t.(lru_first) t.(lru_last).
Definition with_lru x y t := mk_addrtree t.(root) t.(node_count) t.(max_node_count) t.(size_bytes) t.(max_depth) x y.

Definition upd_nodes f w := mk_world (f w.(nodes)) w.(edges) w.(tree) w.(deleted) w.(memory).
Definition upd_edges f w := mk_world w.(nodes) (f w.(edges)) w.(tree) w.(deleted) w.(memory).
Definition upd_tree f w := mk_world w.(nodes) w.(edges) (f w.(tree)) w.(deleted) w.(memory).

(** ** Memory *)

Definition fault {A} : W A := fun _ => Fault Undefined.
Definition out_of_fuel {A} : W A := fun _ => OutOfFuel.
Definition lift {A} (m : outcome A) : W A := fun w =>
  match m with Ok a => Ok (a, w) | Fault f => Fault f | OutOfFuel => OutOfFuel end.
Definition assert_ (b : bool) : W unit := if b then mret tt else fun _ => Fault Assertion.

Definition get_tree : W addrtree := fun w => Ok (w.(tree), w).
Definition set_tree (f : addrtree -> addrtree) : W unit := fun w => Ok (tt, upd_tree f w).
Definition load (a : addr) : W (addrnode E) := fun w =>
  match w.(nodes) !! a with Some n => Ok (n, w) | None => Fault Undefined end.
Definition modify (a : addr) (f : addrnode E -> addrnode E) : W unit := fun w =>
  match w.(nodes) !! a with Some n => Ok (tt, upd_nodes <[a := f n]> w) | None => Fault Undefined end.
Definition load_edge (a : addr) : W addredge := fun w =>
  match w.(edges) !! a with Some e => Ok (e, w) | None => Fault Undefined end.
Definition modify_edge (a : addr) (f : addredge -> addredge) : W unit := fun w =>
  match w.(edges) !! a with Some e => Ok (tt, upd_edges <[a := f e]> w) | None => Fault Undefined end.
Definition free_node (a : addr) : W unit := fun w =>
  match w.(nodes) !! a with Some _ => Ok (tt, upd_nodes (delete a) w) | None => Fault Undefined end.
Definition free_edge (a : addr) : W unit := fun w =>
  match w.(edges) !! a with Some _ => Ok (tt, upd_edges (delete a) w) | None => Fault Undefined end.
Definition alloc : W bool := fun w =>
  let '(ok, m) := malloc w.(memory) in Ok (ok, mk_world w.(nodes) w.(edges) w.(tree) w.(deleted) m).
Definition new_node (n : addrnode E) : W addr := fun w =>
  let a := fresh (dom w.(nodes)) in Ok (a, upd_nodes <[a := n]> w).
Definition new_edge (e : addredge) : W addr := fun w =>
  let a := fresh (dom w.(edges)) in Ok (a, upd_edges <[a := e]> w).

(** The fuel of a loop is taken from the size of the tree. *)
Definition with_fuel {A} (f : world E -> nat) (k : nat -> W A) : W A := fun w => k (f w) w.

(** ** Nodes and edges *)

Definition edge_create (node : ptr) (addr_ : list Z) (addrlen : Z) (parent : addr) (index : Z) : W (option addr) :=
  ok ← alloc;
  if negb ok then mret None else
  let n := addrlen / KEYWIDTH + (if negb (addrlen mod KEYWIDTH =? 0) then 1 else 0) in
  ok ← alloc;
  if negb ok then mret None else
  s ← lift (read_bytes n addr_);
  edge ← new_edge (mk_edge s addrlen node parent index);
  match node with None => fault | Some a => modify a (with_parent_edge (Some edge)) end;;
  p ← load parent;
  assert_ (bool_decide (edge_at index p = None));;
  modify parent (with_edge index (Some edge));;
  mret (Some edge).

Definition node_create (x : option E) (sc ttl : Z) : W (option addr) :=
  ok ← alloc;
  if negb ok then mret None else
  set_tree (fun t => with_count (u32 (t.(node_count) + 1)) t);;
  a ← new_node (mk_node x ttl sc false None None None None None);
  mret (Some a).

Definition elem_size (x : option E) : Z := match x with Some v => sizefunc v | None => 0 end.

Definition node_size (a : addr) : W Z :=
  n ← load a;
  match n.(parent_edge) with
  | None => fault
  | Some pe =>
      e ← load_edge pe;
      mret (u64 (sizeof_addrnode + sizeof_addredge + e.(len) + elem_size n.(elem)))
  end.

Definition add_size (z : Z) : W unit := set_tree (fun t => with_size (u64 (t.(size_bytes) + z)) t).
Definition sub_size (z : Z) : W unit := set_tree (fun t => with_size (u64 (t.(size_bytes) - z)) t).

(** The new tree, in a memory of its own. *)
Definition addrtree_create (depth max_nodes : Z) (m : mem) : outcome (option (world E) * mem) :=
  let '(ok, m) := malloc m in
  if negb ok then Ok (None, m) else
  '(r, w) ← node_create None 0 0 (mk_world ∅ ∅ (mk_addrtree None 0 0 0 0 None None) [] m);
  match r with
  | None => Ok (None, w.(memory))
  | Some r =>
      Ok (Some (upd_tree (fun _ => mk_addrtree (Some r) 0 max_nodes (sizeof_addrtree + sizeof_addrnode) depth None None) w), w.(memory))
  end.

(** [tree->delfunc(tree->env, node->elem)] *)
Definition delfunc (x : E) : W unit := fun w =>
  Ok (tt, mk_world w.(nodes) w.(edges) w.(tree) (w.(deleted) ++ [x]) w.(memory)).

Definition clean_node (node : addr) : W unit :=
  n ← load node;
  match n.(elem) with
  | None => mret tt
  | Some x =>
      sub_size (sizefunc x);;
      delfunc x;;
      modify node (fun n => with_elem None (with_only false n))
  end.

(** ** The list in order of use *)

Definition lru_pop (node : addr) : W unit :=
  t ← get_tree;
  n ← load node;
  if decide (Some node = t.(lru_first)) then
    match n.(n_next) with
    | None => set_tree (with_lru None None)
    | Some x => set_tree (fun t => with_lru (Some x) t.(lru_last) t);; modify x (with_prev None)
    end
  else if decide (Some node = t.(lru_last)) then
    match n.(n_prev) with
    | None => fault
    | Some p => set_tree (fun t => with_lru t.(lru_first) (Some p) t);; modify p (with_next None)
    end
  else
    match n.(n_prev), n.(n_next) with
    | Some p, Some x =>
        modify p (with_next (Some x));;
        n ← load node;
        modify x (with_prev n.(n_prev))
    | _, _ => fault
    end.

Definition lru_push (node : addr) : W unit :=
  t ← get_tree;
  match t.(lru_first) with
  | None =>
      set_tree (fun t => with_lru (Some node) t.(lru_last) t);;
      modify node (with_prev None)
  | Some _ =>
      match t.(lru_last) with
      | None => fault
      | Some l => modify l (with_next (Some node));; modify node (with_prev (Some l))
      end
  end;;
  set_tree (fun t => with_lru t.(lru_first) (Some node) t);;
  modify node (with_next None).

Definition lru_update (node : addr) : W unit :=
  t ← get_tree;
  if decide (t.(root) = Some node) then mret tt else
  lru_pop node;; lru_push node.

(** ** Removing nodes *)

(** [purge_node] from [tree->node_count--] on: the edges around the node are joined,
    and the node and its parent edge [pe] are freed. *)
Definition unlink_node (node pe : addr) : W unit :=
  n ← load node;
  set_tree (fun t => with_count (u32 (t.(node_count) - 1)) t);;
  e ← load_edge pe;
  let index := e.(parent_index) in
  let child_edge := match n.(edge0) with None => n.(edge1) | Some c => Some c end in
  match child_edge with
  | Some c => modify_edge c (with_parent e.(parent_node) index)
  | None => mret tt
  end;;
  modify e.(parent_node) (with_edge index child_edge);;
  sz ← node_size node;
  sub_size sz;;
  free_edge pe;;
  lru_pop node;;
  free_node node.

Definition purge_node (node : addr) : W unit :=
  n ← load node;
  let keep := bool_decide (n.(edge0) <> None) && bool_decide (n.(edge1) <> None) in
  clean_node node;;
  n ← load node;
  match n.(parent_edge) with
  | None => mret tt
  | Some pe => if keep then mret tt else unlink_node node pe
  end.

Definition children (n : addrnode E) : Z := (if decide (n.(edge0) = None) then 0 else 1) + (if decide (n.(edge1) = None) then 0 else 1).

(** [p = n->parent_edge->parent_node] *)
Definition parent_of (n : addrnode E) : W addr :=
  match n.(parent_edge) with None => fault | Some pe => e ← load_edge pe; mret e.(parent_node) end.

(** The first of the list goes, and its parent when it is of no use any more. *)
Definition purge_first (a : addr) (n : addrnode E) : W unit :=
  p ← parent_of n;
  purge_node a;;
  np ← load p;
  if bool_decide (np.(elem) = None) && (children np =? 1) && bool_decide (np.(parent_edge) <> None)
  then purge_node p else mret tt.

Fixpoint lru_cleanup_loop (fuel : nat) : W unit :=
  t ← get_tree;
  if t.(node_count) <=? t.(max_node_count) then mret tt else
  match t.(lru_first) with
  | None => mret tt
  | Some a =>
      match fuel with
      | O => out_of_fuel
      | S fuel' =>
          n ← load a;
          (if (children n =? 2) || bool_decide (n.(parent_edge) = None) then lru_update a else purge_first a n);;
          lru_cleanup_loop fuel'
      end
  end.

(** Every node that goes was found after passing each of the others at most once. *)
Definition cleanup_fuel w : nat := S (size w.(nodes) * S (size w.(nodes))).

Definition lru_cleanup : W unit :=
  t ← get_tree;
  if t.(max_node_count) =? 0 then mret tt else with_fuel cleanup_fuel lru_cleanup_loop.

Definition addrtree_size (t : option addrtree) : Z := match t with Some t => t.(size_bytes) | None => 0 end.

Fixpoint delete_loop (fuel : nat) : W unit :=
  t ← get_tree;
  match t.(lru_first) with
  | None => mret tt
  | Some a =>
      match fuel with
      | O => out_of_fuel
      | S fuel' =>
          n ← load a;
          set_tree (fun t => with_lru n.(n_next) t.(lru_last) t);;
          clean_node a;;
          sz ← node_size a;
          sub_size sz;;
          n ← load a;
          match n.(parent_edge) with None => fault | Some pe => free_edge pe end;;
          free_node a;;
          delete_loop fuel'
      end
  end.

Definition addrtree_delete : W unit := fun w =>
  (match w.(tree).(root) with
   | None => fault
   | Some r =>
       clean_node r;;
       free_node r;;
       sub_size sizeof_addrnode;;
       delete_loop (size w.(nodes));;
       t ← get_tree;
       assert_ (sizeof_addrtree =? addrtree_size (Some t))
   end) w.

(** ** Bits *)

Definition getbit (a : list Z) (addrlen n : Z) : outcome Z :=
  check! (n <? addrlen);
  x ← index a (n / KEYWIDTH);
  Ok (Z.land (Z.shiftr x ((KEYWIDTH - 1) - n mod KEYWIDTH)) 1).

Definition cmpbit (key1 key2 : list Z) (n : Z) : outcome Z :=
  x ← index key1 (n / KEYWIDTH);
  y ← index key2 (n / KEYWIDTH);
  Ok (Z.land (Z.shiftr (Z.lxor x y) ((KEYWIDTH - 1) - n mod KEYWIDTH)) 1).

(** [k] rounds are left. *)
Fixpoint bits_common_loop (k : nat) (i : Z) (s1 s2 : list Z) (len : Z) : outcome Z :=
  match k with
  | O => Ok len
  | S k' =>
      c ← cmpbit s1 s2 i;
      if negb (c =? 0) then Ok i else bits_common_loop k' (i + 1) s1 s2 len
  end.

Definition bits_common (s1 : list Z) (l1 : Z) (s2 : list Z) (l2 skip : Z) : outcome Z :=
  let len := if l2 <? l1 then l2 else l1 in
  check! (skip <? len);
  bits_common_loop (Z.to_nat (len - skip)) skip s1 s2 len.

Definition issub (s1 : list Z) (l1 : Z) (s2 : list Z) (l2 skip : Z) : outcome bool :=
  c ← bits_common s1 l1 s2 l2 skip; Ok (c =? l1).

(** ** Insertion *)

(** The edge of [node] to an unexpired node, and expired nodes purged. *)
Fixpoint purge_expired (fuel : nat) (node : addr) (index now : Z) : W ptr :=
  n ← load node;
  match edge_at index n with
  | None => mret None
  | Some edge =>
      match fuel with
      | O => out_of_fuel
      | S fuel' =>
          e ← load_edge edge;
          match e.(e_node) with
          | None => fault
          | Some c =>
              nc ← load c;
              if bool_decide (nc.(elem) = None) || (now <=? nc.(n_ttl)) then mret (Some edge) else
              purge_node c;;
              purge_expired fuel' node index now
          end
      end
  end.

(** Every round takes the element out of a node. *)
Definition purge_fuel w : nat := S (size w.(nodes)).

(** A new leaf below [node]. *)
Definition add_leaf (node : addr) (index : Z) (addr_ : list Z) (sourcemask : Z) (newnode : ptr) : W bool :=
  r ← edge_create newnode addr_ sourcemask node index;
  match newnode with
  | None => fault
  | Some a =>
      match r with
      | None =>
          clean_node a;;
          set_tree (fun t => with_count (u32 (t.(node_count) - 1)) t);;
          free_node a;;
          mret false
      | Some _ =>
          sz ← node_size a;
          add_size sz;;
          lru_push a;;
          mret true
      end
  end.

(** Case 4: the edge is split at [common]. *)
Definition split_edge (node : addr) (index : Z) (edge : addr) (common : Z) (addr_ : list Z) (sourcemask sc : Z)
    (x : E) (ttl : Z) (only : bool) : W unit :=
  newnode ← node_create None 0 0;
  match newnode with
  | None => mret tt
  | Some a =>
      modify node (with_edge index None);;
      r ← edge_create newnode addr_ common node index;
      match r with
      | None =>
          modify node (with_edge index (Some edge));;
          clean_node a;;
          set_tree (fun t => with_count (u32 (t.(node_count) - 1)) t);;
          free_node a
      | Some _ =>
          lru_push a;;
          e ← load_edge edge;
          index ← lift (getbit e.(str) e.(len) common);
          modify a (with_edge index (Some edge));;
          modify_edge edge (with_parent a index);;
          (if common =? sourcemask then
             modify a (fun n => with_only only (with_ttl ttl (with_scope sc (with_elem (Some x) n))))
           else mret tt);;
          sz ← node_size a;
          add_size sz;;
          if negb (common =? sourcemask) then
            newnode ← node_create (Some x) sc ttl;
            ok ← add_leaf a (Z.lxor index 1) addr_ sourcemask newnode;
            if (ok : bool) then lru_cleanup else mret tt
          else lru_cleanup
      end
  end.

Fixpoint insert_loop (fuel : nat) (node : addr) (depth : Z) (addr_ : list Z) (sourcemask sc : Z) (x : E)
    (ttl now : Z) (only : bool) : W unit :=
  match fuel with
  | O => out_of_fuel
  | S fuel' =>
      assert_ (depth <=? sourcemask);;
      if depth =? sourcemask then
        clean_node node;;
        modify node (fun n => with_scope sc (with_elem (Some x) (with_only only (with_ttl ttl n))));;
        add_size (sizefunc x)
      else
        index ← lift (getbit addr_ sourcemask depth);
        edge ← with_fuel purge_fuel (fun fuel => purge_expired fuel node index now);
        match edge with
        | None =>
            newnode ← node_create (Some x) sc ttl;
            match newnode with
            | None => mret tt
            | Some _ =>
                ok ← add_leaf node index addr_ sourcemask newnode;
                if (ok : bool) then lru_cleanup else mret tt
            end
        | Some edge =>
            e ← load_edge edge;
            common ← lift (bits_common e.(str) e.(len) addr_ sourcemask depth);
            if common =? e.(len) then
              modify node (with_scope sc);;
              match e.(e_node) with
              | None => fault
              | Some c => insert_loop fuel' c e.(len) addr_ sourcemask sc x ttl now only
              end
            else split_edge node index edge common addr_ sourcemask sc x ttl only
        end
  end.

(** The depth grows and is less than 256. *)
Definition addrtree_insert (addr_ : list Z) (sourcemask sc : Z) (x : E) (ttl now : Z) (only : bool) : W unit :=
  t ← get_tree;
  match t.(root) with
  | None => fun _ => Fault Assertion
  | Some node =>
      let sc := if t.(max_depth) <? sc then t.(max_depth) else sc in
      let sourcemask := if sc <? sourcemask then sc else sourcemask in
      insert_loop 257 node 0 addr_ sourcemask sc x ttl now only
  end.

(** ** Lookup *)

Fixpoint find_loop (fuel : nat) (node : addr) (depth : Z) (addr_ : list Z) (sourcemask now : Z) : W (option addr) :=
  match fuel with
  | O => out_of_fuel
  | S fuel' =>
      assert_ (depth <=? sourcemask);;
      n ← load node;
      let data := bool_decide (n.(elem) <> None) && (now <=? n.(n_ttl)) &&
                  negb (negb (sourcemask =? 0) && n.(only_match_scope_zero)) in
      (if data then assert_ (depth <=? n.(scope)) else mret tt);;
      if data && ((depth =? n.(scope)) || ((sourcemask <? n.(scope)) && (depth =? sourcemask))) then
        lru_update node;; mret (Some node)
      else if depth =? sourcemask then mret None else
      index ← lift (getbit addr_ sourcemask depth);
      match edge_at index n with
      | None => mret None
      | Some edge =>
          e ← load_edge edge;
          match e.(e_node) with
          | None => mret None
          | Some c =>
              if sourcemask <? e.(len) then mret None else
              sub ← lift (issub e.(str) e.(len) addr_ sourcemask depth);
              if negb sub then mret None else
              assert_ (depth <? e.(len));;
              find_loop fuel' c e.(len) addr_ sourcemask now
          end
      end
  end.

Definition addrtree_find (addr_ : list Z) (sourcemask now : Z) : W (option addr) :=
  t ← get_tree;
  match t.(root) with
  | None => fun _ => Fault Assertion
  | Some node => find_loop 257 node 0 addr_ sourcemask now
  end.
End Operations.
