(* ===== verification/SubnetTree.v ===== *)
(** * The radix tree of subnets: prefixes

    [shape] ties the pointers of the tree to the prefix that each node stands for.
    It is local, one condition for every edge and every link; that the node of a
    prefix is found by walking down the bits follows from it. *)

From S2P Require Import Prelude Bits Subnet.

(** The links of a node in the tree. *)
Record tlinks := mk_links { l_edge0 : ptr; l_edge1 : ptr; l_parent : ptr }.

Definition slot (i : Z) (l : tlinks) : ptr := if i =? 0 then l.(l_edge0) else l.(l_edge1).
Definition set_slot (i : Z) (x : ptr) (l : tlinks) : tlinks :=
  mk_links (if i =? 0 then x else l.(l_edge0)) (if i =? 0 then l.(l_edge1) else x) l.(l_parent).
Definition is_bit (i : Z) : Prop := i = 0 \/ i = 1.

Definition links {E} (n : addrnode E) : tlinks := mk_links n.(edge0) n.(edge1) n.(parent_edge).

Lemma slot_set i x l : slot i (set_slot i x l) = x.
Proof. unfold slot, set_slot. by destruct (i =? 0) eqn:E; cbn. Qed.

Lemma slot_other i j x l : is_bit i -> is_bit j -> i <> j -> slot j (set_slot i x l) = slot j l.
Proof. unfold slot, set_slot. by intros [-> | ->] [-> | ->] H. Qed.

Lemma parent_set i x l : l_parent (set_slot i x l) = l_parent l.
Proof. done. Qed.

Section Shape.
Implicit Types (N : gmap addr tlinks) (Ed : gmap addr addredge) (P : gmap addr (list Z)) (a b c e r : addr).

(** The edge from a node to the child whose prefix extends its own. *)
Record edge_ok N P e (ed : addredge) (a b : addr) (la lb : tlinks) (p q rest : list Z) : Prop := {
  k_node : ed.(e_node) = Some a;
  k_parent : ed.(parent_node) = b;
  k_bit : is_bit ed.(parent_index);
  k_a : N !! a = Some la;
  k_up : la.(l_parent) = Some e;
  k_b : N !! b = Some lb;
  k_slot : slot ed.(parent_index) lb = Some e;
  k_pa : P !! a = Some p;
  k_pb : P !! b = Some q;
  k_ext : p = q ++ ed.(parent_index) :: rest;
  k_len : ed.(len) = zlen p;
  k_str : ztake ed.(len) (bits ed.(str)) = p;
  k_max : zlen p <= 255;
}.

Record shape N Ed P r : Prop := {
  s_dom : forall a, is_Some (N !! a) <-> is_Some (P !! a);
  s_root : exists l, N !! r = Some l /\ l.(l_parent) = None /\ P !! r = Some [];
  s_edge : forall e ed, Ed !! e = Some ed -> exists a b la lb p q rest, edge_ok N P e ed a b la lb p q rest;
  s_slot : forall b l i e, N !! b = Some l -> is_bit i -> slot i l = Some e ->
    exists ed, Ed !! e = Some ed /\ ed.(parent_node) = b /\ ed.(parent_index) = i;
  s_up : forall a l, N !! a = Some l -> a <> r -> exists e ed, l.(l_parent) = Some e /\ Ed !! e = Some ed /\ ed.(e_node) = Some a;
}.

Section Facts.
Context N Ed P r (Hs : shape N Ed P r).

(** The parent of a node that is not the root. *)
Lemma up a p : P !! a = Some p -> a <> r -> exists e ed b la lb q rest, Ed !! e = Some ed /\ edge_ok N P e ed a b la lb p q rest.
Proof.
  intros Ha Hr. destruct (proj2 (s_dom _ _ _ _ Hs a) (mk_is_Some _ _ Ha)) as [l Hl].
  destruct (s_up _ _ _ _ Hs a l Hl Hr) as (e & ed & Hp & He & Hn).
  destruct (s_edge _ _ _ _ Hs e ed He) as (a' & b & la & lb & p' & q & rest & K).
  pose proof (k_node _ _ _ _ _ _ _ _ _ _ _ K) as Hn'. rewrite Hn in Hn'. injection Hn' as <-.
  pose proof (k_pa _ _ _ _ _ _ _ _ _ _ _ K) as Ha'. rewrite Ha in Ha'. injection Ha' as <-.
  by exists e, ed, b, la, lb, q, rest.
Qed.

(** The child below a bit. *)
Lemma down b l i e : N !! b = Some l -> is_bit i -> slot i l = Some e ->
  exists ed a la p q rest, Ed !! e = Some ed /\ ed.(parent_index) = i /\ edge_ok N P e ed a b la l p q rest.
Proof.
  intros Hb Hi He. destruct (s_slot _ _ _ _ Hs b l i e Hb Hi He) as (ed & Hed & Hp & Hx).
  destruct (s_edge _ _ _ _ Hs e ed Hed) as (a & b' & la & lb & p & q & rest & K).
  pose proof (k_parent _ _ _ _ _ _ _ _ _ _ _ K) as Hp'. rewrite Hp in Hp'. subst b'.
  pose proof (k_b _ _ _ _ _ _ _ _ _ _ _ K) as Hb'. rewrite Hb in Hb'. injection Hb' as <-.
  by exists ed, a, la, p, q, rest.
Qed.

Lemma root_prefix : P !! r = Some [].
Proof. by destruct (s_root _ _ _ _ Hs) as (l & _ & _ & ?). Qed.

Lemma app_cut {T} (q q' : list T) i rest s : q ++ i :: rest = q' ++ s -> (length q < length q')%nat ->
  exists rest', q' = q ++ i :: rest'.
Proof.
  intros E Hl. exists (drop (length q + 1) q').
  rewrite <- (take_drop (length q + 1) q') at 1. rewrite (cons_middle i q), app_assoc. f_equal.
  assert (take (length q + 1) (q' ++ s) = q ++ [i]) as E1.
  { rewrite <- E. rewrite (cons_middle i q rest), app_assoc, take_app_le by (rewrite length_app; cbn; lia).
    by rewrite firstn_all2 by (rewrite length_app; cbn; lia). }
  by rewrite take_app_le in E1 by lia.
Qed.

Definition covers c p : Prop := forall b lb q i rest, N !! b = Some lb -> P !! b = Some q -> p = q ++ i :: rest ->
  exists e ed a la pa rest', is_bit i /\ slot i lb = Some e /\ Ed !! e = Some ed /\ ed.(parent_index) = i /\
    edge_ok N P e ed a b la lb pa q rest' /\ pa `prefix_of` p.

(** What is below [d] on the way to [c] is longer than [c]'s prefix. *)
Lemma not_between e ed c d lc ld p q rest x px s : Ed !! e = Some ed -> edge_ok N P e ed c d lc ld p q rest ->
  covers x px -> px = q ++ ed.(parent_index) :: s -> p `prefix_of` px.
Proof.
  intros He [K1 _ _ _ _ K6 K7 K8 K9 _ _ _ _] Hx E.
  destruct (Hx d ld q _ s K6 K9 E) as (e1 & ed1 & a & la & pa & r1 & _ & H1 & H2 & _ & [K1' _ _ _ _ _ _ K8' _ _ _ _ _] & H5).
  rewrite K7 in H1. injection H1 as <-. rewrite He in H2. injection H2 as <-.
  rewrite K1 in K1'. injection K1' as <-. rewrite K8 in K8'. by injection K8' as <-.
Qed.

(** Below [b], the way to [c] is the bit of [c]'s prefix; two nodes are not the same prefix. *)
Lemma cover_unique n : forall c p, (length p <= n)%nat -> P !! c = Some p ->
  covers c p /\ (forall c', P !! c' = Some p -> c' = c).
Proof.
  induction n as [|n IH]; intros c p Hn Hc.
  { destruct p; [|cbn in Hn; lia]. split; [intros b lb q i rest _ _ E; by destruct q|].
    assert (forall c, P !! c = Some [] -> c = r) as Hroot.
    { intros x Hx. destruct (decide (x = r)) as [|Hr]; [done|].
      destruct (up x [] Hx Hr) as (e & ed & b & la & lb & q & rest & _ & K).
      pose proof (k_ext _ _ _ _ _ _ _ _ _ _ _ K) as E. by destruct q. }
    intros c' Hc'. by rewrite (Hroot c Hc), (Hroot c' Hc'). }
  assert (forall q i (s : list Z), p = q ++ i :: s -> (length q <= n)%nat) as Hsub.
  { intros q i s ->. rewrite length_app in Hn. cbn in Hn. lia. }
  assert (p <> [] -> c <> r) as Hnr by (intros Hp ->; rewrite root_prefix in Hc; by injection Hc as <-).
  split.
  - intros b lb q i rest Hb Hq E. destruct (up c p Hc) as (e & ed & d & lc & ld & q' & rest' & He & K); [apply Hnr; by destruct p, q|].
    pose proof K as [K1 K2 K3 K4 K5 K6 K7 K8 K9 K10 K11 K12 K13].
    assert (q ++ i :: rest = q' ++ parent_index ed :: rest') as E2 by congruence.
    destruct (lt_eq_lt_dec (length q) (length q')) as [[Hlt|Heq]|Hgt].
    + destruct (app_cut q q' i rest _ E2 Hlt) as (s & ->).
      destruct (proj1 (IH d _ (Hsub _ _ _ K10) K9) b lb q i s Hb Hq eq_refl) as (e1 & ed1 & a & la & pa & r1 & H0 & H1 & H2 & H3 & H4 & H5).
      exists e1, ed1, a, la, pa, r1. do 5 (split; [done|]). rewrite K10. by apply prefix_app_r.
    + apply app_inj_1 in E2 as [<- [= Ei _]]; [|done]. subst i.
      assert (b = d) as -> by (by apply (proj2 (IH d q (Hsub _ _ _ E) K9))).
      rewrite Hb in K6. injection K6 as <-. by exists e, ed, c, lc, p, rest'.
    + symmetry in E2. destruct (app_cut q' q _ _ _ E2 Hgt) as (s & Eq).
      pose proof (not_between e ed c d lc ld p q' rest' b q s He K (proj1 (IH b q (Hsub _ _ _ E) Hq)) Eq) as Hp%prefix_length.
      rewrite E, length_app in Hp. cbn in Hp. lia.
  - intros c' Hc'. destruct (decide (p = [])) as [->|Hp].
    { by apply (proj2 (IH c [] ltac:(cbn; lia) Hc)). }
    destruct (up c p Hc (Hnr Hp)) as (e & ed & d & lc & ld & q & rest & He & K).
    destruct (up c' p Hc') as (e2 & ed2 & d2 & lc2 & ld2 & q2 & rest2 & He2 & K').
    { intros ->. rewrite root_prefix in Hc'. by injection Hc' as <-. }
    pose proof (k_ext _ _ _ _ _ _ _ _ _ _ _ K) as E. pose proof (k_ext _ _ _ _ _ _ _ _ _ _ _ K') as E'.
    pose proof (k_pb _ _ _ _ _ _ _ _ _ _ _ K) as Hd. pose proof (k_pb _ _ _ _ _ _ _ _ _ _ _ K') as Hd2.
    destruct (lt_eq_lt_dec (length q) (length q2)) as [[Hlt|Heq]|Hgt].
    + destruct (app_cut q q2 _ _ _ (eq_trans (eq_sym E) E') Hlt) as (s & Eq).
      pose proof (not_between _ _ _ _ _ _ _ _ _ d2 q2 s He K (proj1 (IH d2 q2 (Hsub _ _ _ E') Hd2)) Eq) as Hpl%prefix_length.
      rewrite E', length_app in Hpl. cbn in Hpl. lia.
    + rewrite E in E'. apply app_inj_1 in E' as [<- [= Ei _]]; [|done].
      assert (d2 = d) as -> by (by apply (proj2 (IH d q (Hsub _ _ _ E) Hd))).
      destruct K as [K1 _ _ _ _ K6 K7 _ _ _ _ _ _], K' as [K1' _ _ _ _ K6' K7' _ _ _ _ _ _].
      rewrite K6 in K6'. injection K6' as <-. rewrite Ei, K7' in K7. injection K7 as ->. congruence.
    + destruct (app_cut q2 q _ _ _ (eq_trans (eq_sym E') E) Hgt) as (s & Eq).
      pose proof (not_between _ _ _ _ _ _ _ _ _ d q s He2 K' (proj1 (IH d q (Hsub _ _ _ E) Hd)) Eq) as Hpl%prefix_length.
      rewrite E, length_app in Hpl. cbn in Hpl. lia.
Qed.

Lemma unique a b p : P !! a = Some p -> P !! b = Some p -> a = b.
Proof. intros Ha Hb. symmetry. by apply (proj2 (cover_unique (length p) a p ltac:(lia) Ha)). Qed.

(** The way from a node to a node below it. *)
Lemma cover c p b lb q i rest : P !! c = Some p -> N !! b = Some lb -> P !! b = Some q -> p = q ++ i :: rest ->
  exists e ed a la pa rest', is_bit i /\ slot i lb = Some e /\ Ed !! e = Some ed /\ ed.(parent_index) = i /\
    edge_ok N P e ed a b la lb pa q rest' /\ pa `prefix_of` p.
Proof. intros Hc. apply (proj1 (cover_unique (length p) c p ltac:(lia) Hc)). Qed.
End Facts.

(** ** Changes of the tree *)

(** An edge whose ends are still there. *)
Lemma edge_ok_keep N P N' P' e ed a b la lb la' lb' p q rest : edge_ok N P e ed a b la lb p q rest ->
  N' !! a = Some la' -> l_parent la' = Some e -> N' !! b = Some lb' -> slot ed.(parent_index) lb' = Some e ->
  P' !! a = Some p -> P' !! b = Some q -> edge_ok N' P' e ed a b la' lb' p q rest.
Proof. intros []. by split. Qed.

(** A new leaf below [b]. *)
Lemma shape_add N Ed P r N' Ed' P' a b e s i lb p q rest : shape N Ed P r ->
  N !! a = None -> Ed !! e = None -> N !! b = Some lb -> is_bit i -> slot i lb = None ->
  P !! b = Some q -> p = q ++ i :: rest -> ztake (zlen p) (bits s) = p -> zlen p <= 255 ->
  N' !! a = Some (mk_links None None (Some e)) -> N' !! b = Some (set_slot i (Some e) lb) ->
  (forall c, c <> a -> c <> b -> N' !! c = N !! c) ->
  Ed' = <[e := mk_edge s (zlen p) (Some a) b i]> Ed -> P' = <[a := p]> P -> shape N' Ed' P' r.
Proof.
  intros Hs Ha He Hb Hi Hsl Hq Ep Hst Hmax Na Nb Nc -> ->.
  assert (a <> b) as Hab by congruence.
  assert (forall c l, N !! c = Some l -> exists l', N' !! c = Some l' /\ l_parent l' = l_parent l /\
    forall j x, is_bit j -> slot j l = Some x -> slot j l' = Some x) as Hold.
  { intros c l Hc. destruct (decide (c = b)) as [->|]; [|exists l; rewrite Nc by congruence; done].
    rewrite Hb in Hc. injection Hc as <-. eexists. split; [exact Nb|]. split; [done|]. intros j x Hj Hx.
    rewrite slot_other by (done || congruence). done. }
  split.
  - intros c. destruct (decide (c = a)) as [->|Hca]; [by rewrite Na, lookup_insert_eq|]. rewrite lookup_insert_ne by done.
    rewrite <- (s_dom _ _ _ _ Hs c). destruct (decide (c = b)) as [->|]; [by rewrite Nb, Hb|by rewrite Nc].
  - destruct (s_root _ _ _ _ Hs) as (l & Hr & Hl & Hp). destruct (Hold r l Hr) as (l' & Hl' & El & _).
    exists l'. split; [done|]. split; [congruence|]. rewrite lookup_insert_ne by congruence. done.
  - intros e' ed'. intros [[<- <-]|[Hne He']]%lookup_insert_Some.
    + exists a, b, (mk_links None None (Some e)), (set_slot i (Some e) lb), p, q, rest.
      split; cbn; try done; [by rewrite slot_set|by rewrite lookup_insert_eq|by rewrite lookup_insert_ne].
    + destruct (s_edge _ _ _ _ Hs e' ed' He') as (x & y & lx & ly & px & py & rx & K). pose proof K as [K1 K2 K3 K4 K5 K6 K7 K8 K9 _ _ _ _].
      destruct (Hold x lx K4) as (lx' & X1 & X2 & _), (Hold y ly K6) as (ly' & Y1 & _ & Y3).
      exists x, y, lx', ly', px, py, rx. eapply edge_ok_keep; [exact K|done|congruence|done|by apply Y3| |]; by rewrite lookup_insert_ne by congruence.
  - intros c l j e' Hc Hj Hl. destruct (decide (c = a)) as [->|Hca].
    { rewrite Na in Hc. injection Hc as <-. unfold slot in Hl. by destruct (j =? 0). }
    destruct (decide (e' = e)) as [->|Hne].
    + rewrite lookup_insert_eq. eexists. split; [done|]. cbn. destruct (decide (c = b)) as [->|Hcb].
      * split; [done|]. rewrite Nb in Hc. injection Hc as <-. destruct (decide (i = j)) as [|Hij]; [done|].
        rewrite slot_other in Hl by done. destruct (s_slot _ _ _ _ Hs b lb j e Hb Hj Hl) as (? & ? & _). congruence.
      * rewrite Nc in Hc by done. destruct (s_slot _ _ _ _ Hs c l j e Hc Hj Hl) as (? & ? & _). congruence.
    + rewrite lookup_insert_ne by done. destruct (decide (c = b)) as [->|Hcb].
      * rewrite Nb in Hc. injection Hc as <-. destruct (decide (i = j)) as [<-|Hij]; [rewrite slot_set in Hl; congruence|].
        rewrite slot_other in Hl by done. by apply (s_slot _ _ _ _ Hs b lb j).
      * rewrite Nc in Hc by done. by apply (s_slot _ _ _ _ Hs c l j).
  - intros c l Hc Hr. destruct (decide (c = a)) as [->|Hca].
    { rewrite Na in Hc. injection Hc as <-. eexists e, _. split; [done|]. by rewrite lookup_insert_eq. }
    assert (exists l0, N !! c = Some l0 /\ l_parent l = l_parent l0) as (l0 & Hl0 & ->).
    { destruct (decide (c = b)) as [->|Hcb]; [rewrite Nb in Hc; injection Hc as <-; by exists lb|]. exists l. by rewrite <- Nc. }
    destruct (s_up _ _ _ _ Hs c l0 Hl0 Hr) as (e' & ed' & ? & He' & ?). exists e', ed'. rewrite lookup_insert_ne by congruence. done.
Qed.

(** The edge to the only child, if there is one. *)
Definition only_child (l : tlinks) : ptr := match l.(l_edge0) with None => l.(l_edge1) | Some c => Some c end.

Lemma only_child_slot l c : only_child l = Some c -> exists j, is_bit j /\ slot j l = Some c.
Proof. unfold only_child. destruct (l_edge0 l) as [x|] eqn:E; intros H; [exists 0|exists 1]; (split; [unfold is_bit; lia|]); unfold slot; cbn; congruence. Qed.

Lemma slot_only_child l j c : l.(l_edge0) = None \/ l.(l_edge1) = None -> slot j l = Some c -> only_child l = Some c.
Proof. unfold only_child, slot. destruct (j =? 0); intros [E|E] H; rewrite ?E in *; try done; by rewrite H. Qed.

Definition splice (oc : ptr) (b : addr) (i : Z) (e : addr) (Ed : gmap addr addredge) : gmap addr addredge :=
  delete e (match oc with Some c => alter (with_parent b i) c Ed | None => Ed end).

Lemma splice_lookup oc b i e Ed x : splice oc b i e Ed !! x =
  if decide (x = e) then None else if decide (oc = Some x) then with_parent b i <$> Ed !! x else Ed !! x.
Proof.
  unfold splice. destruct (decide (x = e)) as [->|]; [by rewrite lookup_delete_eq|]. rewrite lookup_delete_ne by done.
  destruct oc as [c|]; [|done]. destruct (decide (c = x)) as [->|]; [by rewrite lookup_alter_eq, decide_True|].
  rewrite lookup_alter_ne by done. by rewrite decide_False by congruence.
Qed.

(** A node with at most one child is taken out. *)
Lemma shape_remove N Ed P r N' a b e ed la lb p q rest : shape N Ed P r ->
  Ed !! e = Some ed -> edge_ok N P e ed a b la lb p q rest -> la.(l_edge0) = None \/ la.(l_edge1) = None ->
  N' !! a = None -> N' !! b = Some (set_slot ed.(parent_index) (only_child la) lb) ->
  (forall c, c <> a -> c <> b -> N' !! c = N !! c) ->
  shape N' (splice (only_child la) b ed.(parent_index) e Ed) (delete a P) r.
Proof.
  intros Hs He K Hone Na Nb Nc. pose proof K as [K1 K2 K3 K4 K5 K6 K7 K8 K9 K10 K11 K12 K13].
  set (i := parent_index ed) in *. set (oc := only_child la) in *. assert (parent_index ed = i) as Ei by done.
  assert (a <> b) as Hab.
  { intros ->. rewrite K8 in K9. injection K9 as ->. apply (f_equal length) in K10. rewrite length_app in K10. cbn in K10. lia. }
  assert (a <> r) as Har by (destruct (s_root _ _ _ _ Hs) as (l & Hr & Hl & _); congruence).
  assert (forall c l, c <> a -> N !! c = Some l -> exists l', N' !! c = Some l' /\ l_parent l' = l_parent l /\
    forall j x, is_bit j -> slot j l = Some x -> x <> e -> slot j l' = Some x) as Hold.
  { intros c l Hca Hc. destruct (decide (c = b)) as [->|]; [|exists l; rewrite Nc by congruence; done].
    rewrite K6 in Hc. injection Hc as <-. eexists. split; [exact Nb|]. split; [done|]. intros j x Hj Hx Hne.
    rewrite slot_other by (done || congruence). done. }
  split.
  - intros c. destruct (decide (c = a)) as [->|Hca]; [rewrite Na, lookup_delete_eq; split; by intros []|]. rewrite lookup_delete_ne by done.
    rewrite <- (s_dom _ _ _ _ Hs c). destruct (decide (c = b)) as [->|]; [by rewrite Nb, K6|by rewrite Nc].
  - destruct (s_root _ _ _ _ Hs) as (l & Hr & Hl & Hp). destruct (Hold r l ltac:(done) Hr) as (l' & Hl' & El & _).
    exists l'. split; [done|]. split; [congruence|]. by rewrite lookup_delete_ne.
  - intros e' ed'. rewrite splice_lookup. destruct (decide (e' = e)) as [|Hee]; [done|]. destruct (decide (oc = Some e')) as [Hoc|Hoc].
    + intros (edc & He' & ->)%fmap_Some. destruct (only_child_slot la e' Hoc) as (j & Hj & Hsl).
      destruct (down N Ed P r Hs a la j e' K4 Hj Hsl) as (edc' & x & lx & px & q' & rx & He2 & Ej & C). rewrite He' in He2. injection He2 as <-.
      pose proof C as [C1 C2 C3 C4 C5 C6 C7 C8 C9 C10 C11 C12 C13]. rewrite K8 in C9. injection C9 as <-.
      assert (x <> a) as Hxa.
      { intros ->. rewrite K8 in C8. injection C8 as ->. apply (f_equal length) in C10. rewrite length_app in C10. cbn in C10. lia. }
      destruct (Hold x lx Hxa C4) as (lx' & X1 & X2 & _).
      exists x, b, lx', (set_slot i oc lb), px, q, (rest ++ parent_index edc :: rx).
      split; cbn; try done; [congruence|by rewrite slot_set|by rewrite lookup_delete_ne|by rewrite lookup_delete_ne|].
      rewrite C10, K10, <- app_assoc. done.
    + intros He'. destruct (s_edge _ _ _ _ Hs e' ed' He') as (x & y & lx & ly & px & py & rx & C).
      pose proof C as [C1 C2 C3 C4 C5 C6 C7 C8 C9 _ _ _ _].
      assert (x <> a) as Hxa by congruence.
      assert (y <> a) as Hya. { intros ->. rewrite K4 in C6. injection C6 as <-. apply Hoc. by apply (slot_only_child la (parent_index ed')). }
      destruct (Hold x lx Hxa C4) as (lx' & X1 & X2 & _), (Hold y ly Hya C6) as (ly' & Y1 & _ & Y3).
      exists x, y, lx', ly', px, py, rx. eapply edge_ok_keep; [exact C|done|congruence|done|by apply Y3| |]; by rewrite lookup_delete_ne by congruence.
  - intros c l j e' Hc Hj Hl. rewrite splice_lookup. assert (c <> a) as Hca by congruence.
    destruct (decide (c = b)) as [->|Hcb].
    + rewrite Nb in Hc. injection Hc as <-. destruct (decide (i = j)) as [<-|Hij].
      * rewrite slot_set in Hl. destruct (only_child_slot la e' Hl) as (j & Hj' & Hsl).
        destruct (s_slot _ _ _ _ Hs a la j e' K4 Hj' Hsl) as (edc & He' & Hpa & _).
        rewrite decide_False by congruence. rewrite decide_True by done. rewrite He'. eexists. by split.
      * rewrite slot_other in Hl by done. destruct (s_slot _ _ _ _ Hs b lb j e' K6 Hj Hl) as (edc & He' & Hpa & Hpi).
        rewrite decide_False by congruence. rewrite decide_False; [by eexists|]. intros Hoc.
        destruct (only_child_slot la e' Hoc) as (j' & Hj' & Hsl). destruct (s_slot _ _ _ _ Hs a la j' e' K4 Hj' Hsl) as (edc' & ? & ? & _). congruence.
    + rewrite Nc in Hc by done. destruct (s_slot _ _ _ _ Hs c l j e' Hc Hj Hl) as (edc & He' & Hpa & Hpi).
      rewrite decide_False by congruence. rewrite decide_False; [by eexists|]. intros Hoc.
      destruct (only_child_slot la e' Hoc) as (j' & Hj' & Hsl). destruct (s_slot _ _ _ _ Hs a la j' e' K4 Hj' Hsl) as (edc' & ? & ? & _). congruence.
  - intros c l Hc Hr. assert (c <> a) as Hca by congruence.
    assert (exists l0, N !! c = Some l0 /\ l_parent l = l_parent l0) as (l0 & Hl0 & ->).
    { destruct (decide (c = b)) as [->|Hcb]; [rewrite Nb in Hc; injection Hc as <-; by exists lb|]. exists l. by rewrite <- Nc. }
    destruct (s_up _ _ _ _ Hs c l0 Hl0 Hr) as (e' & ed' & ? & He' & ?). exists e'. rewrite splice_lookup, decide_False by congruence.
    destruct (decide (oc = Some e')); rewrite He'; eexists; (split; [done|]); by split; [reflexivity|].
Qed.

(** The edge to [c] is split: the new node [a] comes between. *)
Lemma shape_split N Ed P r N' Ed' P' a b e e' ed c s i j la lb p q m rest (r1 r2 : list Z) : shape N Ed P r ->
  Ed !! e = Some ed -> edge_ok N P e ed c b la lb p q rest -> ed.(parent_index) = i -> is_bit j ->
  N !! a = None -> Ed !! e' = None -> m = q ++ i :: r1 -> p = m ++ j :: r2 -> ztake (zlen m) (bits s) = m ->
  N' !! a = Some (set_slot j (Some e) (mk_links None None (Some e'))) -> N' !! b = Some (set_slot i (Some e') lb) ->
  (forall x, x <> a -> x <> b -> N' !! x = N !! x) ->
  Ed' = <[e := with_parent a j ed]> (<[e' := mk_edge s (zlen m) (Some a) b i]> Ed) -> P' = <[a := m]> P -> shape N' Ed' P' r.
Proof.
  intros Hs He K <- Hj Ha He' Em Ep Hst Na Nb Nc -> ->. pose proof K as [K1 K2 K3 K4 K5 K6 K7 K8 K9 K10 K11 K12 K13].
  set (i := parent_index ed) in *. assert (parent_index ed = i) as Ei by done. assert (a <> b) as Hab by congruence. assert (a <> c) as Hac by congruence. assert (e <> e') as Hee by congruence.
  assert (zlen m <= 255) as Hm by (rewrite Ep, zlen_app in K13; pose proof (zlen_nonneg (j :: r2)); lia).
  assert (forall c l, N !! c = Some l -> exists l', N' !! c = Some l' /\ l_parent l' = l_parent l /\
    forall j x, is_bit j -> slot j l = Some x -> x <> e -> slot j l' = Some x) as Hold.
  { intros x l Hc. destruct (decide (x = b)) as [->|]; [|exists l; rewrite Nc by congruence; done].
    rewrite K6 in Hc. injection Hc as <-. eexists. split; [exact Nb|]. split; [done|]. intros j' y Hj' Hy Hne.
    rewrite slot_other by (done || congruence). done. }
  split.
  - intros x. destruct (decide (x = a)) as [->|Hxa]; [by rewrite Na, lookup_insert_eq|]. rewrite lookup_insert_ne by done.
    rewrite <- (s_dom _ _ _ _ Hs x). destruct (decide (x = b)) as [->|]; [by rewrite Nb, K6|by rewrite Nc].
  - destruct (s_root _ _ _ _ Hs) as (l & Hr & Hl & Hp). destruct (Hold r l Hr) as (l' & Hl' & El & _).
    exists l'. split; [done|]. split; [congruence|]. rewrite lookup_insert_ne by congruence. done.
  - intros x edx. intros [[<- <-]|[Hne [[<- <-]|[Hne' Hx]]%lookup_insert_Some]]%lookup_insert_Some.
    + destruct (Hold c la K4) as (lc' & X1 & X2 & _).
      exists c, a, lc', (set_slot j (Some e) (mk_links None None (Some e'))), p, m, r2.
      split; cbn; try done; [congruence|by rewrite slot_set|by rewrite lookup_insert_ne|by rewrite lookup_insert_eq].
    + exists a, b, (set_slot j (Some e) (mk_links None None (Some e'))), (set_slot i (Some e') lb), m, q, r1.
      split; cbn; try done; [by rewrite slot_set|by rewrite lookup_insert_eq|by rewrite lookup_insert_ne].
    + destruct (s_edge _ _ _ _ Hs x edx Hx) as (y & z & ly & lz & py & pz & ry & C).
      pose proof C as [C1 C2 C3 C4 C5 C6 C7 C8 C9 _ _ _ _].
      destruct (Hold y ly C4) as (ly' & X1 & X2 & _), (Hold z lz C6) as (lz' & Y1 & _ & Y3).
      exists y, z, ly', lz', py, pz, ry. eapply edge_ok_keep; [exact C|done|congruence|done|by apply Y3| |]; by rewrite lookup_insert_ne by congruence.
  - intros x l k y Hx Hk Hl. destruct (decide (x = a)) as [->|Hxa].
    { rewrite Na in Hx. injection Hx as <-. destruct (decide (j = k)) as [<-|Hjk].
      - rewrite slot_set in Hl. injection Hl as <-. rewrite lookup_insert_eq. eexists. by split.
      - rewrite slot_other in Hl by done. unfold slot in Hl. by destruct (k =? 0). }
    destruct (decide (x = b)) as [->|Hxb].
    + rewrite Nb in Hx. injection Hx as <-. destruct (decide (i = k)) as [<-|Hik].
      * rewrite slot_set in Hl. injection Hl as <-. rewrite lookup_insert_ne, lookup_insert_eq by done. eexists. by split.
      * rewrite slot_other in Hl by done. destruct (s_slot _ _ _ _ Hs b lb k y K6 Hk Hl) as (edy & Hy & Hp & Hi).
        rewrite !lookup_insert_ne by congruence. by exists edy.
    + rewrite Nc in Hx by done. destruct (s_slot _ _ _ _ Hs x l k y Hx Hk Hl) as (edy & Hy & Hp & Hi).
      rewrite !lookup_insert_ne by congruence. by exists edy.
  - intros x l Hx Hr. destruct (decide (x = a)) as [->|Hxa].
    { rewrite Na in Hx. injection Hx as <-. eexists e', _. split; [done|]. by rewrite lookup_insert_ne, lookup_insert_eq by done. }
    assert (exists l0, N !! x = Some l0 /\ l_parent l = l_parent l0) as (l0 & Hl0 & ->).
    { destruct (decide (x = b)) as [->|Hxb]; [rewrite Nb in Hx; injection Hx as <-; by exists lb|]. exists l. by rewrite <- Nc. }
    destruct (s_up _ _ _ _ Hs x l0 Hl0 Hr) as (y & edy & ? & Hy & ?). exists y.
    destruct (decide (y = e)) as [->|Hye].
    + rewrite lookup_insert_eq. eexists. split; [done|]. split; [done|]. cbn. congruence.
    + rewrite !lookup_insert_ne by congruence. by exists edy.
Qed.

End Shape.
