(* ===== verification/SubnetLru.v ===== *)
(** * The radix tree of subnets: the list in order of use

    What the list operations do to the list, and that they change nothing else. *)

From S2P Require Import Prelude Bits Subnet SubnetTree.

Record ndata (E : Type) := mk_data { d_elem : option E; d_ttl : Z; d_scope : Z; d_only : bool }.
Arguments mk_data {_} _ _ _ _.
Arguments d_elem {_} _.
Arguments d_ttl {_} _.
Arguments d_scope {_} _.
Arguments d_only {_} _.

Definition data {E} (n : addrnode E) : ndata E := mk_data n.(elem) n.(n_ttl) n.(scope) n.(only_match_scope_zero).

Section Lru.
Context {E : Type}.
Implicit Types (w : world E) (M : gmap addr (addrnode E)) (n : addrnode E) (a b : addr) (L : list addr) (p q : ptr).

(** The nodes of [L] are linked, from [p] before to [q] after. *)
Fixpoint seg M p L q : Prop :=
  match L with
  | [] => True
  | a :: L' => exists n, M !! a = Some n /\ n.(n_prev) = p /\ n.(n_next) = hd_or L' q /\ seg M (Some a) L' q
  end.

Lemma seg_app M L1 L2 q : forall p, seg M p (L1 ++ L2) q <-> seg M p L1 (hd_or L2 q) /\ seg M (last_or L1 p) L2 q.
Proof.
  induction L1 as [|a L1 IH]; intros p; [by cbn; split; [intros|intros []]|]. cbn [seg app]. rewrite last_or_cons. split.
  - intros (n & H1 & H2 & H3 & H4%IH). split; [|apply H4]. exists n. rewrite hd_or_app in H3. do 3 (split; [done|]). apply H4.
  - intros [(n & H1 & H2 & H3 & H4) H5]. exists n. rewrite hd_or_app. do 3 (split; [done|]). by apply IH.
Qed.

Lemma seg_frame M M' L : forall p q, (forall a, a ∈ L -> M' !! a = M !! a) -> seg M p L q -> seg M' p L q.
Proof.
  induction L as [|a L IH]; intros p q H; [done|]. intros (n & H1 & H2 & H3 & H4). exists n.
  split; [rewrite H by left; done|]. do 2 (split; [done|]). apply IH; [|done]. intros x Hx. apply H. by right.
Qed.

Lemma seg_insert M L p q a n : a ∉ L -> seg M p L q -> seg (<[a := n]> M) p L q.
Proof. intros Ha. apply seg_frame. intros x Hx. rewrite lookup_insert_ne; [done|]. by intros ->. Qed.

Lemma seg_set_prev M p p' a L q n : a ∉ L -> M !! a = Some n -> seg M p (a :: L) q -> seg (<[a := with_prev p' n]> M) p' (a :: L) q.
Proof.
  intros Ha Hn (n' & H1 & H2 & H3 & H4). rewrite Hn in H1. injection H1 as <-. exists (with_prev p' n).
  rewrite lookup_insert_eq. do 3 (split; [done|]). by apply seg_insert.
Qed.

Lemma seg_set_next M p a L q q' n : a ∉ L -> M !! a = Some n -> seg M p (L ++ [a]) q -> seg (<[a := with_next q' n]> M) p (L ++ [a]) q'.
Proof.
  intros Ha Hn [H1 (n' & H2 & H3 & H4 & _)]%seg_app. rewrite Hn in H2. injection H2 as <-. apply seg_app. split.
  - by apply seg_insert.
  - exists (with_next q' n). rewrite lookup_insert_eq. done.
Qed.

Lemma seg_lookup M L1 a L2 p q : seg M p (L1 ++ a :: L2) q ->
  exists n, M !! a = Some n /\ n.(n_prev) = last_or L1 p /\ n.(n_next) = hd_or L2 q.
Proof. intros [_ (n & H1 & H2 & H3 & _)]%seg_app. by exists n. Qed.

(** The list of the tree. *)
Record lru_ok w L : Prop := {
  u_nodup : NoDup L;
  u_first : w.(tree).(lru_first) = head L;
  u_last : w.(tree).(lru_last) = list.last L;
  u_seg : seg w.(nodes) None L None;
}.

(** Only the list has changed. *)
Record only_lru w w' : Prop := {
  o_links : links <$> w'.(nodes) = links <$> w.(nodes);
  o_data : data <$> w'.(nodes) = data <$> w.(nodes);
  o_edges : w'.(edges) = w.(edges);
  o_deleted : w'.(deleted) = w.(deleted);
  o_memory : w'.(memory) = w.(memory);
  o_tree : exists x y, w'.(tree) = with_lru x y w.(tree);
}.

Lemma only_refl w : only_lru w w.
Proof. split; try done. exists w.(tree).(lru_first), w.(tree).(lru_last). by destruct w as [? ? [] ? ?]. Qed.

Lemma only_trans w1 w2 w3 : only_lru w1 w2 -> only_lru w2 w3 -> only_lru w1 w3.
Proof.
  intros [A1 A2 A3 A4 A5 (x & y & A6)] [B1 B2 B3 B4 B5 (x' & y' & B6)]. split; try congruence. exists x', y'. by rewrite B6, A6.
Qed.

Lemma only_tree w x y : only_lru w (upd_tree (with_lru x y) w).
Proof. split; try done. by exists x, y. Qed.

Lemma only_insert w a n n' : w.(nodes) !! a = Some n -> links n' = links n -> data n' = data n -> only_lru w (upd_nodes <[a := n']> w).
Proof.
  intros Ha El Ed. split; try done; cbn.
  - rewrite fmap_insert, El, insert_id; [done|]. by rewrite lookup_fmap, Ha.
  - rewrite fmap_insert, Ed, insert_id; [done|]. by rewrite lookup_fmap, Ha.
  - exists w.(tree).(lru_first), w.(tree).(lru_last). by destruct w as [? ? [] ? ?].
Qed.

Lemma modify_node_ok a f w n : w.(nodes) !! a = Some n -> modify a f w = Ok (tt, upd_nodes <[a := f n]> w).
Proof. intros H. unfold modify. by rewrite H. Qed.

Lemma load_ok a w n : w.(nodes) !! a = Some n -> load a w = Ok (n, w).
Proof. intros H. unfold load. by rewrite H. Qed.

Lemma lru_pop_ok w L1 a L2 : lru_ok w (L1 ++ a :: L2) -> exists w', lru_pop a w = Ok (tt, w') /\ only_lru w w' /\ lru_ok w' (L1 ++ L2).
Proof.
  intros [Hn Hf Hl Hseg]. destruct (seg_lookup _ _ _ _ _ _ Hseg) as (n & Ha & Hp & Hx).
  apply NoDup_app in Hn as Hn'. destruct Hn' as (Hn1 & Hd & [Ha2 Hn2]%NoDup_cons).
  assert (a ∉ L1) as Ha1 by (intros H; apply (Hd a H); left).
  assert (NoDup (L1 ++ L2)) as Hn12. { apply NoDup_app. split; [done|]. split; [|done]. intros x H1 H2. apply (Hd x H1). by right. }
  unfold lru_pop. erewrite st_bind_ok by reflexivity. erewrite st_bind_ok by (by apply load_ok).
  destruct (decide (L1 = [])) as [->|HL1].
  - rewrite decide_True by done. rewrite Hx. destruct L2 as [|x L2]; cbn [hd_or].
    + eexists. split; [reflexivity|]. split; [apply only_tree|]. by split.
    + destruct Hseg as (n' & _ & _ & _ & Hseg). apply NoDup_cons in Hn2 as [Hx2 Hn2].
      destruct Hseg as (nx & Hnx & Hs). erewrite st_bind_ok by reflexivity. erewrite modify_node_ok by exact Hnx.
      eexists. split; [reflexivity|]. split; [eapply only_trans; [apply only_tree|]; eapply only_insert; [exact Hnx|done..]|].
      split; [by apply NoDup_cons|done|cbn; by rewrite Hl|]. cbn [nodes upd_nodes upd_tree].
      eapply (seg_set_prev _ (Some a)); [done|done|]. exists nx. done.
  - destruct (exists_last HL1) as (L0 & y & ->). rewrite last_or_snoc in Hp.
    assert (Some a <> lru_first (tree w)) as Hne.
    { rewrite Hf. destruct L0 as [|z L0]; cbn; intros [= ->]; apply Ha1; [by left|by left]. }
    rewrite decide_False by done. rewrite <- app_assoc in Hseg. apply seg_app in Hseg as [Hs1 Hs2]. cbn [hd_or] in Hs1.
    destruct Hs2 as (ny & Hny & Hyp & Hyn & Hs2). cbn [app hd_or] in Hyn.
    apply NoDup_app in Hn1 as (Hn0 & Hd0 & _). assert (y ∉ L0) as Hy0 by (intros H; apply (Hd0 y H); by left).
    assert (y <> a) as Hya by (intros ->; apply Ha1; apply elem_of_app; right; by left).
    destruct L2 as [|x L2].
    + rewrite decide_True by (rewrite Hl; cbn; by rewrite (app_assoc _ [y]), last_snoc || rewrite last_snoc; done).
      rewrite Hp. erewrite st_bind_ok by reflexivity. erewrite modify_node_ok by exact Hny.
      eexists. split; [reflexivity|]. split; [eapply only_trans; [apply only_tree|]; eapply only_insert; [exact Hny|done..]|].
      rewrite app_nil_r in *. split; cbn; [done| |by rewrite last_snoc|].
      * rewrite Hf. by destruct L0.
      * eapply (seg_set_next _ _ _ _ (Some a)); [done|done|]. apply seg_app. split; [done|]. exists ny. done.
    + rewrite decide_False.
      2: { rewrite Hl. rewrite last_app_cons, last_cons. intros E1. destruct Hs2 as (na & _). apply Ha2.
           destruct (list.last (x :: L2)) as [z|] eqn:Ez; [|by apply last_None in Ez]. injection E1 as ->.
           apply last_Some in Ez as (l & ->). apply elem_of_app. right. by left. }
      rewrite Hp, Hx. cbn [hd_or]. destruct Hs2 as (na & Hna & _ & _ & Hs2). rewrite Ha in Hna. injection Hna as <-.
      destruct Hs2 as (nx & Hnx & Hxp & Hxn & Hs2).
      assert (x <> y) as Hxy. { intros ->. apply (Hd y); [apply elem_of_app; right; by left|right; by left]. }
      assert (x <> a) as Hxa by (intros ->; apply Ha2; by left).
      erewrite st_bind_ok by (apply modify_node_ok; exact Hny).
      erewrite st_bind_ok by (apply load_ok; cbn; rewrite lookup_insert_ne by done; exact Ha).
      erewrite modify_node_ok by (cbn; rewrite lookup_insert_ne by done; exact Hnx).
      eexists. split; [reflexivity|]. split.
      { apply (only_trans _ (upd_nodes <[y := with_next (Some x) ny]> w)); [by eapply only_insert; [exact Hny|..]|]. eapply only_insert; [cbn; rewrite lookup_insert_ne by done; exact Hnx|done..]. }
      apply NoDup_cons in Hn2 as [Hx2 Hn2].
      assert (x ∉ L0 ++ [y]) as Hx0. { intros H. apply (Hd x H). right. by left. }
      split; cbn; [done| | |].
      * rewrite Hf. by destruct L0.
      * rewrite Hl. by rewrite !last_app_cons.
      * apply seg_app. rewrite last_or_snoc. cbn [hd_or]. split.
        -- apply seg_insert; [done|]. eapply (seg_set_next _ _ _ _ (Some a)); [done|done|]. apply seg_app. split; [done|]. exists ny. done.
        -- rewrite Hp. eapply (seg_set_prev _ (Some a)); [done|by rewrite lookup_insert_ne|]. apply (seg_insert _ _ _ _ y).
           { intros H. apply (Hd y); [apply elem_of_app; right; by left|by right]. }
           exists nx. done.
Qed.

Lemma lru_push_ok w L a n : lru_ok w L -> w.(nodes) !! a = Some n -> a ∉ L ->
  exists w', lru_push a w = Ok (tt, w') /\ only_lru w w' /\ lru_ok w' (L ++ [a]).
Proof.
  intros [Hn Hf Hl Hseg] Ha HaL. assert (NoDup (L ++ [a])) as Hn'.
  { apply NoDup_app. split; [done|]. split; [|apply NoDup_singleton]. intros x Hx ->%list_elem_of_singleton. done. }
  unfold lru_push. erewrite st_bind_ok by reflexivity. destruct (decide (L = [])) as [->|HL].
  - rewrite Hf. cbn [head]. erewrite st_bind_ok by (erewrite st_bind_ok by reflexivity; by apply modify_node_ok).
    erewrite st_bind_ok by reflexivity. erewrite modify_node_ok by (cbn; apply lookup_insert_eq).
    eexists. split; [reflexivity|]. split.
    + eapply only_trans; [apply only_tree|]. eapply only_trans; [by eapply (only_insert _ a n (with_prev None n))|].
      eapply only_trans; [apply only_tree|]. eapply only_insert; [cbn; apply lookup_insert_eq|done..].
    + split; cbn; [done..|]. exists (with_next None (with_prev None n)). by rewrite lookup_insert_eq.
  - destruct (exists_last HL) as (L0 & y & ->). rewrite Hf. assert (exists z, head (L0 ++ [y]) = Some z) as (z & ->) by (destruct L0; by eexists).
    rewrite Hl, last_snoc. pose proof Hseg as Hseg'. apply seg_app in Hseg' as [Hs1 (ny & Hny & Hyp & Hyn & _)].
    apply not_elem_of_app in HaL as HaL'. destruct HaL' as [Ha0 Hay]. assert (a <> y) as Hya by (intros ->; apply Hay; by left).
    apply NoDup_app in Hn as (Hn0 & Hd0 & _). assert (y ∉ L0) as Hy0 by (intros H; apply (Hd0 y H); by left).
    erewrite st_bind_ok by (erewrite st_bind_ok by (by apply modify_node_ok); apply modify_node_ok; cbn; rewrite lookup_insert_ne by done; exact Ha).
    erewrite st_bind_ok by reflexivity. erewrite modify_node_ok by (cbn; apply lookup_insert_eq).
    eexists. split; [reflexivity|]. split.
    + eapply only_trans; [by eapply (only_insert _ y ny (with_next (Some a) ny))|].
      eapply only_trans; [eapply (only_insert _ a n (with_prev (Some y) n)); [cbn; by rewrite lookup_insert_ne|done..]|].
      eapply only_trans; [apply only_tree|]. eapply only_insert; [cbn; apply lookup_insert_eq|done..].
    + split; cbn; [done| |by rewrite last_snoc|].
      * rewrite Hf. by destruct L0.
      * apply seg_app. cbn [hd_or]. rewrite last_or_snoc. split.
        -- do 2 (apply seg_insert; [done|]). eapply (seg_set_next _ _ _ _ None); [done|done|exact Hseg].
        -- exists (with_next None (with_prev (Some y) n)). by rewrite lookup_insert_eq.
Qed.

Lemma only_lookup w w' a n : only_lru w w' -> w.(nodes) !! a = Some n ->
  exists n', w'.(nodes) !! a = Some n' /\ links n' = links n /\ data n' = data n.
Proof.
  intros [H1 H2 _ _ _ _] Ha. apply (f_equal (lookup a)) in H1. apply (f_equal (lookup a)) in H2.
  rewrite !lookup_fmap, Ha in H1. rewrite !lookup_fmap, Ha in H2.
  destruct (nodes w' !! a) as [n'|]; [|done]. exists n'. injection H1 as ?. injection H2 as ?.
  unfold links, data. split; [done|]. split; congruence.
Qed.

(** [a] is moved to the end, unless it is the root, which is not in the list. *)
Definition used w a L L' : Prop :=
  if decide (w.(tree).(root) = Some a) then L' = L else exists L1 L2, L = L1 ++ a :: L2 /\ L' = L1 ++ L2 ++ [a].

Lemma used_perm w a L L' : used w a L L' -> L' ≡ₚ L.
Proof.
  unfold used. case_decide; [by intros ->|]. intros (L1 & L2 & -> & ->). by rewrite <- Permutation_cons_append.
Qed.

Lemma lru_update_ok w L a : lru_ok w L -> a ∈ L \/ w.(tree).(root) = Some a ->
  exists w' L', lru_update a w = Ok (tt, w') /\ only_lru w w' /\ lru_ok w' L' /\ used w a L L'.
Proof.
  intros U Hin. unfold lru_update, used. erewrite st_bind_ok by reflexivity. case_decide as Hr.
  { exists w, L. split; [done|]. split; [apply only_refl|]. done. }
  destruct Hin as [Hin|]; [|done]. apply list_elem_of_split in Hin as (L1 & L2 & ->).
  destruct (lru_pop_ok w L1 a L2 U) as (w1 & E1 & O1 & U1). erewrite st_bind_ok by exact E1.
  pose proof (u_nodup _ _ U) as Hn. destruct (seg_lookup _ _ _ _ _ _ (u_seg _ _ U)) as (n & Ha & _).
  destruct (only_lookup _ _ _ _ O1 Ha) as (n1 & Ha1 & _).
  apply NoDup_app in Hn as (Hn1 & Hd & [Ha2 _]%NoDup_cons).
  destruct (lru_push_ok w1 (L1 ++ L2) a n1 U1 Ha1) as (w2 & E2 & O2 & U2).
  { apply not_elem_of_app. split; [|done]. intros H. apply (Hd a H). by left. }
  exists w2, ((L1 ++ L2) ++ [a]). split; [done|]. split; [by eapply only_trans|]. split; [done|].
  exists L1, L2. by rewrite app_assoc.
Qed.
End Lru.
