(* ===== verification/SubnetOps.v ===== *)
(** * The radix tree of subnets: the invariant, and nodes cleaned and purged *)

From S2P Require Import Prelude Bits Subnet SubnetTree SubnetLru.

(** ** What is stored in a map *)

Definition gather {A B} (f : A -> list B) (M : gmap addr A) : list B := concat (f <$> (map_to_list M).*2).
Definition zsum (l : list Z) : Z := foldr Z.add 0 l.

Lemma concat_perm {A} (l k : list (list A)) : l ≡ₚ k -> concat l ≡ₚ concat k.
Proof.
  induction 1 as [|x l k _ IH|x y l|l k m _ IH1 _ IH2]; cbn; [done|by rewrite IH| |by rewrite IH1].
  rewrite !app_assoc. f_equiv. apply Permutation_app_comm.
Qed.

Lemma gather_fresh {A B} (f : A -> list B) M a x : M !! a = None -> gather f (<[a := x]> M) ≡ₚ f x ++ gather f M.
Proof. intros H. unfold gather. rewrite (concat_perm _ (f x :: (f <$> (map_to_list M).*2))); [done|]. by rewrite map_to_list_insert. Qed.

Lemma gather_take {A B} (f : A -> list B) M a x : M !! a = Some x -> gather f M ≡ₚ f x ++ gather f (delete a M).
Proof. intros H. rewrite <- (insert_delete_id M a x) at 1 by done. apply gather_fresh. apply lookup_delete_eq. Qed.

Lemma gather_set {A B} (f : A -> list B) M a x y : M !! a = Some x -> f y ++ gather f M ≡ₚ f x ++ gather f (<[a := y]> M).
Proof.
  intros H. rewrite (gather_take f M a x H), (gather_take f (<[a := y]> M) a y) by apply lookup_insert_eq.
  rewrite delete_insert_eq. rewrite !app_assoc. f_equiv. apply Permutation_app_comm.
Qed.

Lemma zsum_app l k : zsum (l ++ k) = zsum l + zsum k.
Proof. induction l as [|x l IH]; [done|]. cbn. fold (zsum (l ++ k)). rewrite IH. unfold zsum. lia. Qed.

Lemma zsum_perm l k : l ≡ₚ k -> zsum l = zsum k.
Proof. induction 1; cbn in *; unfold zsum in *; cbn; lia. Qed.

Definition elems {E} (M : gmap addr (ndata E)) : list E := gather (fun d => option_list d.(d_elem)) M.
Definition edge_size (e : addredge) : Z := sizeof_addrnode + sizeof_addredge + e.(len).
Definition edge_sizes (Ed : gmap addr addredge) : Z := zsum (gather (fun e => [edge_size e]) Ed).

Section Ops.
Context {E : Type} (sizefunc : E -> Z).
Implicit Types (w : world E) (n : addrnode E) (a b r : addr) (L : list addr) (P : gmap addr (list Z)) (d : ndata E).

Abbreviation sizes l := (zsum (sizefunc <$> l)).

Lemma sizes_perm (l k : list E) : l ≡ₚ k -> sizes l = sizes k.
Proof. intros H. apply zsum_perm. by rewrite H. Qed.

Lemma sizes_app (l k : list E) : sizes (l ++ k) = sizes l + sizes k.
Proof. by rewrite fmap_app, zsum_app. Qed.

(** A node that holds an element holds it for the prefix it stands for. *)
Definition data_ok (p : list Z) (d : ndata E) : Prop := is_Some d.(d_elem) -> zlen p <= d.(d_scope) /\ (d.(d_only) = true -> p = []).

Record inv w P L r : Prop := {
  i_root : w.(tree).(root) = Some r;
  i_shape : shape (links <$> w.(nodes)) w.(edges) P r;
  i_lru : lru_ok w L;
  i_list : forall a, a ∈ L <-> is_Some (P !! a) /\ a <> r;
  i_data : forall a n p, w.(nodes) !! a = Some n -> P !! a = Some p -> data_ok p (data n);
  i_size : eqw 64 w.(tree).(size_bytes)
    (sizeof_addrtree + sizeof_addrnode + edge_sizes w.(edges) + sizes (elems (data <$> w.(nodes))));
  i_count : w.(tree).(node_count) = u32 (Z.of_nat (size w.(edges)));
}.

(** What no operation changes. *)
Record same_params w w' : Prop := {
  m_root : w'.(tree).(root) = w.(tree).(root);
  m_max : w'.(tree).(max_node_count) = w.(tree).(max_node_count);
  m_depth : w'.(tree).(max_depth) = w.(tree).(max_depth);
}.

Lemma params_trans w1 w2 w3 : same_params w1 w2 -> same_params w2 w3 -> same_params w1 w3.
Proof. intros [] []. split; congruence. Qed.

Lemma only_params w w' : only_lru w w' -> same_params w w'.
Proof. intros [_ _ _ _ _ (x & y & E1)]. split; by rewrite E1. Qed.

Lemma node_of w P L r a p : inv w P L r -> P !! a = Some p -> exists n, w.(nodes) !! a = Some n.
Proof.
  intros I Ha. destruct (proj2 (s_dom _ _ _ _ (i_shape _ _ _ _ I) a) (mk_is_Some _ _ Ha)) as [l Hl].
  rewrite lookup_fmap in Hl. destruct (nodes w !! a) as [n|]; [by exists n|done].
Qed.

Lemma prefix_at w P L r a n : inv w P L r -> w.(nodes) !! a = Some n -> exists p, P !! a = Some p.
Proof. intros I Ha. apply (s_dom _ _ _ _ (i_shape _ _ _ _ I) a). by rewrite lookup_fmap, Ha. Qed.

(** The list changes. *)
Lemma inv_only w w' P L L' r : inv w P L r -> only_lru w w' -> lru_ok w' L' -> L' ≡ₚ L -> inv w' P L' r.
Proof.
  intros [I1 I2 I3 I4 I5 I6 I7] O U Hp. pose proof O as [O1 O2 O3 O4 O5 (x & y & O6)]. split.
  - by rewrite O6.
  - by rewrite O1, O3.
  - done.
  - intros a. rewrite Hp. apply I4.
  - intros a n p Ha Hpa. assert ((data <$> nodes w') !! a = Some (data n)) as Hd by (by rewrite lookup_fmap, Ha).
    rewrite O2, lookup_fmap in Hd. destruct (nodes w !! a) as [n0|] eqn:E0; [|done]. apply (inj Some) in Hd. rewrite <- Hd. by eapply I5.
  - by rewrite O2, O3, O6.
  - by rewrite O3, O6.
Qed.

Lemma seg_same M M' L : forall p q, (forall a n, a ∈ L -> M !! a = Some n -> exists n', M' !! a = Some n' /\ n'.(n_prev) = n.(n_prev) /\ n'.(n_next) = n.(n_next)) ->
  seg M p L q -> seg M' p L q.
Proof.
  induction L as [|a L IH]; intros p q H; [done|]. intros (n & H1 & H2 & H3 & H4).
  destruct (H a n (list_elem_of_here _ _) H1) as (n' & H1' & E1 & E2). exists n'. split; [done|]. split; [congruence|]. split; [congruence|].
  apply IH; [|done]. intros b nb Hb. apply H. by right.
Qed.

(** A node changes, its links in the list do not. *)
Lemma lru_set w a n n' t del m ed L : lru_ok w L -> w.(nodes) !! a = Some n -> n'.(n_prev) = n.(n_prev) -> n'.(n_next) = n.(n_next) ->
  t.(lru_first) = w.(tree).(lru_first) -> t.(lru_last) = w.(tree).(lru_last) ->
  lru_ok (mk_world (<[a := n']> w.(nodes)) ed t del m) L.
Proof.
  intros [U1 U2 U3 U4] Ha E1 E2 E3 E4. split; cbn; [done|congruence|congruence|]. eapply seg_same; [|exact U4].
  intros b nb _ Hb. destruct (decide (a = b)) as [<-|Hne]; [|rewrite lookup_insert_ne by done; by exists nb].
  rewrite lookup_insert_eq. exists n'. rewrite Ha in Hb. by injection Hb as <-.
Qed.

Lemma fmap_set {A} (f : addrnode E -> A) (M : gmap addr (addrnode E)) a n n' : M !! a = Some n -> f n' = f n -> f <$> <[a := n']> M = f <$> M.
Proof. intros Ha Ef. rewrite fmap_insert, Ef, insert_id; [done|]. by rewrite lookup_fmap, Ha. Qed.

Definition elem_list n : list E := option_list n.(elem).

Lemma elems_set (M : gmap addr (addrnode E)) a n n' : M !! a = Some n ->
  elem_list n' ++ elems (data <$> M) ≡ₚ elem_list n ++ elems (data <$> <[a := n']> M).
Proof.
  intros Ha. rewrite fmap_insert. apply (gather_set (fun d => option_list d.(d_elem)) (data <$> M) a (data n) (data n')).
  by rewrite lookup_fmap, Ha.
Qed.

(** The data of a node changes. *)
Lemma inv_data w P L r a n n' p s del m : inv w P L r -> w.(nodes) !! a = Some n -> P !! a = Some p ->
  links n' = links n -> n'.(n_prev) = n.(n_prev) -> n'.(n_next) = n.(n_next) -> data_ok p (data n') ->
  eqw 64 s (w.(tree).(size_bytes) - elem_size sizefunc n.(elem) + elem_size sizefunc n'.(elem)) ->
  inv (mk_world (<[a := n']> w.(nodes)) w.(edges) (with_size s w.(tree)) del m) P L r.
Proof.
  intros [I1 I2 I3 I4 I5 I6 I7] Ha Hp El Ep En Hd Hs. split; cbn; try done.
  - by rewrite (fmap_set links _ a n).
  - by eapply lru_set.
  - intros b nb q. intros [[<- <-]|[Hne Hb]]%lookup_insert_Some Hq; [|by eapply I5]. rewrite Hp in Hq. by injection Hq as <-.
  - rewrite Hs, I6. assert (elem_size sizefunc n'.(elem) + sizes (elems (data <$> nodes w))
      = elem_size sizefunc n.(elem) + sizes (elems (data <$> <[a := n']> (nodes w)))) as Eq.
    { pose proof (sizes_perm _ _ (elems_set (nodes w) a n n' Ha)) as H. rewrite !sizes_app in H. unfold elem_list in H.
      destruct (elem n), (elem n'); cbn in *; lia. }
    constructor. f_equal. lia.
Qed.

Definition cleaned n : addrnode E := match n.(elem) with None => n | Some _ => with_elem None (with_only false n) end.

(** [clean_node]: the element is deleted. *)
Lemma clean_ok w P L r a n : inv w P L r -> w.(nodes) !! a = Some n ->
  exists w', clean_node sizefunc a w = Ok (tt, w') /\ inv w' P L r /\ same_params w w' /\ w'.(edges) = w.(edges) /\
    w'.(nodes) = <[a := cleaned n]> w.(nodes) /\ w'.(memory) = w.(memory) /\ w'.(deleted) = w.(deleted) ++ elem_list n.
Proof.
  intros I Ha. destruct (prefix_at _ _ _ _ _ _ I Ha) as [p Hp]. unfold clean_node, cleaned, elem_list. erewrite st_bind_ok by (by apply load_ok).
  destruct (elem n) as [x|] eqn:Ex.
  - erewrite st_bind_ok by reflexivity. erewrite st_bind_ok by reflexivity. erewrite modify_node_ok by exact Ha.
    eexists. split; [reflexivity|]. cbn. split; [|done].
    eapply (inv_data w P L r a n); [done|done|exact Hp|done|done|done|by intros [? ?]|].
    rewrite wrap_eqw. rewrite Ex. constructor. f_equal. cbn. lia.
  - exists w. rewrite app_nil_r, insert_id by done. done.
Qed.

(** ** A node is taken out of the tree *)

Lemma eqw64 x y : x = y -> eqw 64 x y.
Proof. by intros ->. Qed.

Lemma delete_sizes (Ed : gmap addr addredge) e ed : Ed !! e = Some ed -> edge_sizes Ed = edge_size ed + edge_sizes (delete e Ed).
Proof. intros H. unfold edge_sizes. rewrite (zsum_perm _ _ (gather_take _ _ e ed H)). done. Qed.

Lemma set_sizes (Ed : gmap addr addredge) e ed ed' : Ed !! e = Some ed -> ed'.(len) = ed.(len) -> edge_sizes (<[e := ed']> Ed) = edge_sizes Ed.
Proof.
  intros H El. assert (edge_size ed' + edge_sizes Ed = edge_size ed + edge_sizes (<[e := ed']> Ed)) as Hz
    by exact (zsum_perm _ _ (gather_set (fun e => [edge_size e]) Ed e ed ed' H)).
  unfold edge_size in Hz. rewrite El in Hz. lia.
Qed.

Lemma splice_sizes oc b i e ed (Ed : gmap addr addredge) : Ed !! e = Some ed -> (forall c, oc = Some c -> c <> e /\ is_Some (Ed !! c)) ->
  edge_sizes Ed = edge_size ed + edge_sizes (splice oc b i e Ed) /\ size Ed = S (size (splice oc b i e Ed)).
Proof.
  intros He Hc. unfold splice. destruct oc as [c|].
  - destruct (Hc c eq_refl) as (Hne & edc & Hedc). assert (alter (with_parent b i) c Ed = <[c := with_parent b i edc]> Ed) as ->.
    { apply map_eq. intros x. destruct (decide (c = x)) as [<-|]; by simplify_map_eq. }
    assert ((<[c := with_parent b i edc]> Ed) !! e = Some ed) as He' by (by rewrite lookup_insert_ne).
    split.
    + rewrite <- (delete_sizes _ e ed He'). by rewrite (set_sizes Ed c edc).
    + rewrite map_size_delete_Some by (by rewrite He'). rewrite map_size_insert_Some by (by rewrite Hedc).
      assert (size Ed <> 0%nat) by (rewrite map_size_ne_0_lookup; eauto). lia.
  - split; [by apply delete_sizes|]. rewrite map_size_delete_Some by (by rewrite He).
    assert (size Ed <> 0%nat) by (rewrite map_size_ne_0_lookup; eauto). lia.
Qed.

Lemma links_edge i x n : links (with_edge i x n) = set_slot i x (links n).
Proof. done. Qed.

Lemma edge_at_links i n : edge_at i n = slot i (links n).
Proof. done. Qed.

Lemma data_edge i x n : data (with_edge i x n) = data n.
Proof. done. Qed.

Record unlinked w P L r a w' L' : Prop := {
  ul_inv : inv w' (delete a P) L' r;
  ul_params : same_params w w';
  ul_memory : w'.(memory) = w.(memory);
  ul_deleted : w'.(deleted) = w.(deleted);
  ul_data : data <$> w'.(nodes) = delete a (data <$> w.(nodes));
  ul_list : exists L1 L2, L = L1 ++ a :: L2 /\ L' = L1 ++ L2;
  ul_edges : size w.(edges) = S (size w'.(edges));
}.

(** The end of [unlink_node]: what [lru_pop] leaves, without the node. *)
Lemma unlinked_intro w P L r a n p L1 L2 b nb lb e ed q rest w5 s : inv w P L r -> w.(nodes) !! a = Some n -> n.(elem) = None ->
  w.(edges) !! e = Some ed -> edge_ok (links <$> w.(nodes)) P e ed a b (links n) lb p q rest -> w.(nodes) !! b = Some nb ->
  n.(edge0) = None \/ n.(edge1) = None -> a <> r -> a <> b -> L = L1 ++ a :: L2 ->
  let oc := only_child (links n) in let i := ed.(parent_index) in let Ed' := splice oc b i e w.(edges) in
  only_lru (mk_world (<[b := with_edge i oc nb]> w.(nodes)) Ed' (with_size s (with_count (u32 (w.(tree).(node_count) - 1)) w.(tree))) w.(deleted) w.(memory)) w5 ->
  lru_ok w5 (L1 ++ L2) -> s = u64 (w.(tree).(size_bytes) - u64 (edge_size ed)) ->
  edge_sizes w.(edges) = edge_size ed + edge_sizes Ed' -> size w.(edges) = S (size Ed') ->
  unlinked w P L r a (upd_nodes (delete a) w5) (L1 ++ L2).
Proof.
  intros I Ha Hel He K Hb Hone Har Hab EL oc i Ed' [O1 O2 O3 O4 O5 (x & y & O6)] U Es Hsz Hcnt.
  pose proof I as [I1 I2 I3 I4 I5 I6 I7]. cbn in O1, O2, O3, O4, O5, O6.
  assert (data <$> nodes w5 = data <$> nodes w) as Ed by (by rewrite O2, (fmap_set data _ b nb)).
  assert (data <$> delete a (nodes w5) = delete a (data <$> nodes w)) as Ed2 by (by rewrite fmap_delete, Ed).
  pose proof (u_nodup _ _ I3) as Hnd. rewrite EL in Hnd. apply NoDup_app in Hnd as (_ & Hd1 & [Ha2 _]%NoDup_cons).
  assert (a ∉ L1 ++ L2) as HaL. { apply not_elem_of_app. split; [|done]. intros H. apply (Hd1 a H). by left. }
  split; cbn; try done.
  - split; cbn.
    + by rewrite O6.
    + rewrite fmap_delete, O1, O3. eapply (shape_remove _ _ _ _ _ a b e ed (links n) lb p q rest I2 He K); [done| | |].
      * by rewrite lookup_delete_eq.
      * rewrite lookup_delete_ne, fmap_insert, lookup_insert_eq by done. rewrite links_edge.
        pose proof (k_b _ _ _ _ _ _ _ _ _ _ _ K) as Hlb. rewrite lookup_fmap, Hb in Hlb. by injection Hlb as <-.
      * intros c Hca Hcb. rewrite lookup_delete_ne, fmap_insert, lookup_insert_ne by done. done.
    + destruct U as [U1 U2 U3 U4]. split; cbn; try done. eapply seg_frame; [|exact U4].
      intros z Hz. rewrite lookup_delete_ne; [done|]. by intros ->.
    + intros z. assert (z ∈ L1 ++ L2 <-> z ∈ L /\ z <> a) as ->.
      { rewrite EL, !elem_of_app, elem_of_cons. split; [intros Hz; split; [tauto|]|tauto]. intros ->. apply HaL. by apply elem_of_app. }
      rewrite I4. destruct (decide (z = a)) as [->|Hne]; [rewrite lookup_delete_eq|by rewrite lookup_delete_ne by done; tauto].
      split; [by intros [_ ?]|by intros [[? ?] _]].
    + intros z nz pz [Hne Hz]%lookup_delete_Some [_ Hpz]%lookup_delete_Some.
      assert ((data <$> nodes w5) !! z = Some (data nz)) as Hdz by (by rewrite lookup_fmap, Hz).
      rewrite Ed, lookup_fmap in Hdz. destruct (nodes w !! z) as [n0|] eqn:E0; [|done]. apply (inj Some) in Hdz. rewrite <- Hdz. by eapply I5.
    + rewrite O6, O3, Ed2. cbn. rewrite Es, !wrap_eqw, I6.
      assert (sizes (elems (data <$> nodes w)) = sizes (elems (delete a (data <$> nodes w)))) as Hse.
      { apply sizes_perm. unfold elems. rewrite (gather_take _ (data <$> nodes w) a (data n)) by (by rewrite lookup_fmap, Ha). cbn. by rewrite Hel. }
      apply eqw64. lia.
    + rewrite O6, O3. cbn. rewrite I7, Hcnt. apply eqw_wrap. rewrite wrap_eqw. constructor. f_equal. lia.
  - split; cbn; by rewrite O6.
  - by exists L1, L2.
  - rewrite O3. done.
Qed.

Lemma unlink_ok w P L r a n pe : inv w P L r -> w.(nodes) !! a = Some n -> n.(elem) = None -> n.(parent_edge) = Some pe ->
  n.(edge0) = None \/ n.(edge1) = None -> a <> r ->
  exists w' L', unlink_node sizefunc a pe w = Ok (tt, w') /\ unlinked w P L r a w' L'.
Proof.
  intros I Ha Hel Hpe Hone Har. pose proof I as [I1 I2 I3 I4 I5 I6 I7].
  destruct (prefix_at _ _ _ _ _ _ I Ha) as [p Hp]. destruct (up _ _ _ _ I2 a p Hp Har) as (e & ed & b & la & lb & q & rest & He & K).
  pose proof K as [K1 K2 K3 K4 K5 K6 K7 K8 K9 K10 K11 K12 K13].
  rewrite lookup_fmap, Ha in K4. injection K4 as <-. cbn in K5. rewrite Hpe in K5. injection K5 as <-.
  rewrite lookup_fmap in K6. destruct (nodes w !! b) as [nb|] eqn:Hb; [|done]. injection K6 as <-.
  assert (a <> b) as Hab.
  { intros <-. rewrite K8 in K9. injection K9 as ->. apply (f_equal length) in K10. rewrite length_app in K10. cbn in K10. lia. }
  set (i := parent_index ed) in *. set (oc := only_child (links n)).
  assert (forall c, oc = Some c -> c <> pe /\ is_Some (edges w !! c)) as Hoc.
  { intros c Hc. destruct (only_child_slot _ _ Hc) as (j & Hj & Hsl).
    destruct (s_slot _ _ _ _ I2 a (links n) j c) as (edc & Hedc & Hpa & _); [by rewrite lookup_fmap, Ha|done|done|].
    split; [|by exists edc]. intros ->. rewrite He in Hedc. injection Hedc as <-. congruence. }
  unfold unlink_node. erewrite st_bind_ok by (by apply load_ok). erewrite st_bind_ok by reflexivity.
  erewrite st_bind_ok by (unfold load_edge; cbn; rewrite He; reflexivity).
  change (match edge0 n with Some c => Some c | None => edge1 n end) with oc. rewrite K2. fold i.
  set (Ed1 := match oc with Some c => alter (with_parent b i) c (edges w) | None => edges w end).
  set (w1 := upd_tree (fun t => with_count (u32 (t.(node_count) - 1)) t) w).
  assert (match oc with Some c => modify_edge c (with_parent b i) | None => mret tt end w1 = Ok (tt, upd_edges (fun _ => Ed1) w1)) as E1.
  { unfold Ed1. destruct oc as [c|]; [|done]. destruct (Hoc c eq_refl) as (_ & edc & Hedc). unfold modify_edge. cbn. rewrite Hedc.
    unfold upd_edges. cbn. do 3 f_equal. apply map_eq. intros x. destruct (decide (c = x)) as [<-|]; by simplify_map_eq. }
  rewrite (st_bind_ok _ _ w1 tt (upd_edges (fun _ => Ed1) w1)) by exact E1.
  erewrite st_bind_ok by (apply modify_node_ok; exact Hb). set (w2 := upd_nodes _ _).
  assert (Ed1 !! pe = Some ed) as Hpe1.
  { unfold Ed1. destruct oc as [c|]; [|done]. destruct (Hoc c eq_refl) as (Hne & _). by rewrite lookup_alter_ne. }
  assert (w2.(nodes) !! a = Some n) as Ha2 by (cbn; by rewrite lookup_insert_ne).
  assert (node_size sizefunc a w2 = Ok (u64 (edge_size ed), w2)) as E2.
  { unfold node_size. erewrite st_bind_ok by (by apply load_ok). rewrite Hpe. unfold load_edge. erewrite st_bind_ok by (cbn; by rewrite Hpe1).
    rewrite Hel. unfold edge_size, elem_size. by rewrite Z.add_0_r. }
  erewrite st_bind_ok by exact E2. erewrite st_bind_ok by reflexivity. set (w3 := upd_tree _ w2).
  assert (free_edge pe w3 = Ok (tt, upd_edges (delete pe) w3)) as E3 by (unfold free_edge; cbn; by rewrite Hpe1).
  erewrite st_bind_ok by exact E3. set (w4 := upd_edges (delete pe) w3).
  assert (lru_ok w4 L) as U4 by (by eapply (lru_set w b nb (with_edge i oc nb))).
  assert (a ∈ L) as (L1 & L2 & EL)%list_elem_of_split by (apply I4; split; [by exists p|done]).
  rewrite EL in U4. destruct (lru_pop_ok w4 L1 a L2 U4) as (w5 & E5 & O5 & U5). erewrite st_bind_ok by exact E5.
  destruct (only_lookup _ _ _ _ O5 Ha2) as (n5 & Ha5 & _). unfold free_node. rewrite Ha5.
  exists (upd_nodes (delete a) w5), (L1 ++ L2). split; [done|].
  destruct (splice_sizes oc b i pe ed (edges w) He Hoc) as [Hsz Hcnt].
  eapply unlinked_intro; try done. exact O5.
Qed.

Record purged w P L r a n w' P' L' : Prop := {
  pg_inv : inv w' P' L' r;
  pg_params : same_params w w';
  pg_memory : w'.(memory) = w.(memory);
  pg_deleted : w'.(deleted) = w.(deleted) ++ elem_list n;
  pg_elems : elem_list n ++ elems (data <$> w'.(nodes)) ≡ₚ elems (data <$> w.(nodes));
  pg_others : forall b, b <> a -> (data <$> w'.(nodes)) !! b = (data <$> w.(nodes)) !! b;
  pg_prefix : forall b, b <> a -> P' !! b = P !! b;
  pg_gone :
    (w'.(nodes) !! a = None /\ P' !! a = None /\ (exists L1 L2, L = L1 ++ a :: L2 /\ L' = L1 ++ L2) /\
     size w.(edges) = S (size w'.(edges))) \/
    (n.(edge0) <> None /\ n.(edge1) <> None /\ P' = P /\ L' = L /\ w'.(edges) = w.(edges) /\
     w'.(nodes) = <[a := cleaned n]> w.(nodes));
}.

Lemma cleaned_elem n : (cleaned n).(elem) = None.
Proof. unfold cleaned. by destruct (elem n) eqn:Hel. Qed.

Lemma cleaned_links n : links (cleaned n) = links n.
Proof. unfold cleaned. by destruct (elem n). Qed.

Lemma elems_cleaned (M : gmap addr (addrnode E)) a n : M !! a = Some n ->
  elem_list n ++ elems (data <$> <[a := cleaned n]> M) ≡ₚ elems (data <$> M).
Proof. intros Ha. rewrite <- (elems_set M a n (cleaned n) Ha). unfold elem_list at 1. by rewrite cleaned_elem. Qed.

Lemma purge_ok w P L r a n : inv w P L r -> w.(nodes) !! a = Some n -> a <> r ->
  exists w' P' L', purge_node sizefunc a w = Ok (tt, w') /\ purged w P L r a n w' P' L'.
Proof.
  intros I Ha Har. destruct (prefix_at _ _ _ _ _ _ I Ha) as [p Hp].
  assert ((links <$> nodes w) !! a = Some (links n)) as Hl by (by rewrite lookup_fmap, Ha).
  destruct (s_up _ _ _ _ (i_shape _ _ _ _ I) a _ Hl Har) as (pe & ed & Hpe & _). cbn in Hpe.
  destruct (clean_ok w P L r a n I Ha) as (w1 & E1 & I1 & M1 & Ee & En & Em & Edel).
  assert (w1.(nodes) !! a = Some (cleaned n)) as Ha1 by (rewrite En; apply lookup_insert_eq).
  unfold purge_node. erewrite st_bind_ok by (by apply load_ok). cbv zeta. erewrite st_bind_ok by exact E1.
  erewrite st_bind_ok by (by apply load_ok). pose proof (cleaned_links n) as Hcl. injection Hcl as Hc0 Hc1 Hcp. rewrite Hcp, Hpe.
  assert (forall b, b <> a -> (data <$> nodes w1) !! b = (data <$> nodes w) !! b) as Hoth.
  { intros b Hne. by rewrite En, fmap_insert, lookup_insert_ne. }
  pose proof (elems_cleaned _ _ _ Ha) as Hel. rewrite <- En in Hel.
  case_bool_decide as H0; [case_bool_decide as H1|]; cbn [andb].
  { exists w1, P, L. split; [done|]. split; try done. right. done. }
  all: destruct (unlink_ok w1 P L r a (cleaned n) pe I1 Ha1 (cleaned_elem n)) as (w2 & L2 & E2 & [U1 U2 U3 U4 U5 U6 U7]);
    [congruence|rewrite ?Hc0, ?Hc1; destruct (edge0 n), (edge1 n); tauto|done|].
  all: exists w2, (delete a P), L2; split; [exact E2|]; split; [done|by eapply params_trans|congruence|congruence| | | |].
  1, 5: rewrite U5, <- Hel; f_equiv; unfold elems; rewrite (gather_take _ (data <$> nodes w1) a (data (cleaned n))) by (by rewrite lookup_fmap, Ha1);
    cbn; by rewrite cleaned_elem.
  1, 4: intros b Hne; rewrite U5, lookup_delete_ne by done; by apply Hoth.
  1, 3: intros b Hne; by rewrite lookup_delete_ne.
  all: left; rewrite lookup_delete_eq, <- Ee; split; [|done]; apply (f_equal (lookup a)) in U5; rewrite lookup_fmap, lookup_delete_eq in U5;
    by destruct (nodes w2 !! a).
Qed.
End Ops.
