(* ===== verification/SubnetClean.v ===== *)
(** * The radix tree of subnets: keeping to the maximum of nodes

    [lru_cleanup] ends, with no more nodes than allowed, and only removes. *)

From S2P Require Import Prelude Bits Subnet SubnetTree SubnetLru SubnetOps.

Section Clean.
Context {E : Type} (sizefunc : E -> Z).
Implicit Types (w : world E) (n : addrnode E) (a b r : addr) (L : list addr) (P : gmap addr (list Z)) (d : ndata E).
Abbreviation inv := (inv sizefunc).

(** Nodes and elements have gone, and perhaps the order of use is another. *)
Record shrunk w P L r w' P' L' : Prop := {
  sh_inv : inv w' P' L' r;
  sh_params : same_params w w';
  sh_memory : w'.(memory) = w.(memory);
  sh_elems : exists D, w'.(deleted) = w.(deleted) ++ D /\ D ++ elems (data <$> w'.(nodes)) ≡ₚ elems (data <$> w.(nodes));
  sh_keep : forall b d, (data <$> w'.(nodes)) !! b = Some d -> is_Some d.(d_elem) -> (data <$> w.(nodes)) !! b = Some d;
  sh_prefix : forall b p, P' !! b = Some p -> P !! b = Some p;
  sh_count : (size w'.(edges) <= size w.(edges))%nat;
}.

Lemma shrunk_refl w P L r : inv w P L r -> shrunk w P L r w P L.
Proof. intros I. split; try done. exists []. by rewrite app_nil_r. Qed.

Lemma shrunk_trans w1 P1 L1 w2 P2 L2 w3 P3 L3 r : shrunk w1 P1 L1 r w2 P2 L2 -> shrunk w2 P2 L2 r w3 P3 L3 -> shrunk w1 P1 L1 r w3 P3 L3.
Proof.
  intros [A1 A2 A3 (D & A4 & A5) A6 A7 A8] [B1 B2 B3 (D' & B4 & B5) B6 B7 B8].
  split; [done|by eapply params_trans|congruence| |by intros; apply A6; [apply B6|]|by intros; apply A7, B7|lia].
  exists (D ++ D'). split; [by rewrite B4, A4, app_assoc|]. by rewrite <- app_assoc, B5.
Qed.

Lemma purged_shrunk w P L r a n w' P' L' : inv w P L r -> w.(nodes) !! a = Some n -> purged sizefunc w P L r a n w' P' L' -> shrunk w P L r w' P' L'.
Proof.
  intros I Ha [G1 G2 G3 G4 G5 G6 G7 G8]. split; try done.
  - by exists (elem_list n).
  - intros b d Hb Hd. destruct (decide (b = a)) as [->|Hne]; [|by rewrite <- G6].
    rewrite lookup_fmap in Hb. destruct G8 as [(Hn & _)|(_ & _ & _ & _ & _ & Hn)]; rewrite Hn in Hb; [done|].
    rewrite lookup_insert_eq in Hb. injection Hb as <-. cbn in Hd. rewrite cleaned_elem in Hd. by destruct Hd.
  - intros b p. destruct (decide (b = a)) as [->|Hne]; [|by rewrite G7].
    destruct G8 as [(_ & Hn & _)|(_ & _ & Hn & _)]; by rewrite Hn.
  - destruct G8 as [(_ & _ & _ & ->)|(_ & _ & _ & _ & -> & _)]; lia.
Qed.

Lemma only_shrunk w P L L' r w' : inv w P L r -> only_lru w w' -> lru_ok w' L' -> L' ≡ₚ L -> shrunk w P L r w' P L'.
Proof.
  intros I O U Hp. pose proof O as [O1 O2 O3 O4 O5 _]. split; [by eapply inv_only|by apply only_params|done| | |done|by rewrite O3].
  - exists []. by rewrite app_nil_r, O2, O4.
  - by rewrite O2.
Qed.

(** ** A node that can go *)

Definition spare w b : Prop := exists n, w.(nodes) !! b = Some n /\ (n.(edge0) = None \/ n.(edge1) = None).

Lemma spare_only w w' b : only_lru w w' -> spare w b -> spare w' b.
Proof.
  intros O (n & Hb & Hn). destruct (only_lookup _ _ _ _ O Hb) as (n' & Hb' & El & _). injection El as E0 E1 _.
  exists n'. rewrite E0, E1. done.
Qed.

Lemma exists_spare w P L r a : inv w P L r -> a ∈ L -> exists b, b ∈ L /\ spare w b.
Proof.
  intros I Ha. pose proof (i_shape _ _ _ _ _ I) as Hs. apply (i_list _ _ _ _ _ I) in Ha as [[p Hp] Hr].
  assert (forall k a p, P !! a = Some p -> a <> r -> 255 - zlen p <= Z.of_nat k -> exists b, b ∈ L /\ spare w b) as Hlong.
  { clear a p Hp Hr. induction k as [|k IH]; intros a p Hp Hr Hk; destruct (node_of _ _ _ _ _ _ _ I Hp) as [n Hn];
      (destruct (edge0 n) as [e|] eqn:E0; [|exists a; split; [apply (i_list _ _ _ _ _ I); by split; [exists p|]|exists n; auto]]).
    all: assert ((links <$> nodes w) !! a = Some (links n)) as Hl by (by rewrite lookup_fmap, Hn).
    all: destruct (down _ _ _ _ Hs a (links n) 0 e Hl) as (ed & c & lc & pc & q & rest & He & Ei & K); [by left|done|].
    all: pose proof K as [_ _ _ K4 K5 _ _ K8 K9 K10 _ _ K13]; rewrite Hp in K9; injection K9 as <-.
    all: rewrite K10, zlen_app, zlen_cons in K13; pose proof (zlen_nonneg rest) as Hrest.
    - lia.
    - apply (IH c pc K8); [|rewrite K10, zlen_app, zlen_cons; lia].
      intros ->. destruct (s_root _ _ _ _ Hs) as (l & Hrl & Hrp & _). congruence. }
  apply (Hlong 255%nat a p Hp Hr). pose proof (zlen_nonneg p). lia.
Qed.

(** ** The loop *)

Lemma children_2 n : (children n =? 2) = true -> ~ (n.(edge0) = None \/ n.(edge1) = None).
Proof. unfold children. repeat case_decide; intros Hc; try done; tauto. Qed.

Lemma lru_rotate_ok w a L : lru_ok w (a :: L) -> w.(tree).(root) <> Some a ->
  exists w', lru_update a w = Ok (tt, w') /\ only_lru w w' /\ lru_ok w' (L ++ [a]).
Proof.
  intros U Hr. destruct (lru_update_ok w (a :: L) a U) as (w' & L' & E1 & O & U' & Hu); [left; by left|].
  exists w'. split; [done|]. split; [done|]. unfold used in Hu. rewrite decide_False in Hu by done. destruct Hu as (L1 & L2 & EL & ->).
  destruct L1 as [|x L1]; [by injection EL as <-|]. injection EL as <- ->. pose proof (u_nodup _ _ U) as [Hn _]%NoDup_cons.
  exfalso. apply Hn. apply elem_of_app. right. by left.
Qed.

Lemma purge_first_ok w P a L r n : inv w P (a :: L) r -> w.(nodes) !! a = Some n -> n.(edge0) = None \/ n.(edge1) = None ->
  exists w' P' L', purge_first sizefunc a n w = Ok (tt, w') /\ shrunk w P (a :: L) r w' P' L' /\ (length L' <= length L)%nat.
Proof.
  intros I Ha Hone. assert (a ∈ a :: L) as Hin by by left. apply (i_list _ _ _ _ _ I) in Hin as [[p Hp] Har].
  pose proof (i_shape _ _ _ _ _ I) as Hs. destruct (up _ _ _ _ Hs a p Hp Har) as (e & ed & b & la & lb & q & rest & He & K).
  pose proof K as [K1 K2 K3 K4 K5 K6 K7 K8 K9 K10 _ _ _].
  rewrite lookup_fmap, Ha in K4. injection K4 as <-. cbn in K5.
  assert (a <> b) as Hab. { intros <-. rewrite K8 in K9. injection K9 as ->. apply (f_equal length) in K10. rewrite length_app in K10. cbn in K10. lia. }
  unfold purge_first, parent_of. rewrite K5.
  erewrite st_bind_ok by (erewrite st_bind_ok by (unfold load_edge; rewrite He; reflexivity); reflexivity). rewrite K2.
  destruct (purge_ok sizefunc w P (a :: L) r a n I Ha Har) as (w1 & P1 & L1 & E1 & G). erewrite st_bind_ok by exact E1.
  pose proof (purged_shrunk _ _ _ _ _ _ _ _ _ I Ha G) as S1. pose proof G as [G1 G2 G3 G4 G5 G6 G7 G8].
  destruct G8 as [(_ & _ & (M1 & M2 & EL & ->) & _)|(? & ? & _)]; [|tauto].
  assert (length (M1 ++ M2) <= length L)%nat as HL1 by (apply (f_equal length) in EL; rewrite length_app in *; cbn in EL; lia).
  assert (P1 !! b = Some q) as Hb1 by (by rewrite G7).
  destruct (node_of _ _ _ _ _ _ _ G1 Hb1) as [nb Hb]. erewrite st_bind_ok by (by apply load_ok).
  destruct (bool_decide _ && _ && _) eqn:Ec; [|by exists w1, P1, (M1 ++ M2)].
  apply andb_prop in Ec as [_ Hpe%bool_decide_eq_true_1].
  assert (b <> r) as Hbr.
  { intros ->. destruct (s_root _ _ _ _ (i_shape _ _ _ _ _ G1)) as (l & Hl & Hlp & _). rewrite lookup_fmap, Hb in Hl. injection Hl as <-. done. }
  destruct (purge_ok sizefunc w1 P1 _ r b nb G1 Hb Hbr) as (w2 & P2 & L2 & E2 & G').
  pose proof (purged_shrunk _ _ _ _ _ _ _ _ _ G1 Hb G') as S2.
  exists w2, P2, L2. split; [done|]. split; [by eapply shrunk_trans|].
  destruct G' as [_ _ _ _ _ _ _ [(_ & _ & (N1 & N2 & EN & ->) & _)|(_ & _ & _ & -> & _)]]; [|done].
  apply (f_equal length) in EN. rewrite !length_app in EN. rewrite length_app in HL1 |- *. cbn in EN. lia.
Qed.

Lemma cleanup_empty w P r fuel : inv w P [] r -> lru_cleanup_loop sizefunc fuel w = Ok (tt, w) /\ w.(tree).(node_count) = 0.
Proof.
  intros I. assert (edges w = ∅) as He.
  { apply map_empty. intros e. destruct (edges w !! e) as [ed|] eqn:He; [|done].
    destruct (s_edge _ _ _ _ (i_shape _ _ _ _ _ I) e ed He) as (a & b & la & lb & p & q & rest & [_ _ _ K4 K5 _ _ K8 _ _ _ _ _]).
    destruct (decide (a = r)) as [->|Hne].
    - destruct (s_root _ _ _ _ (i_shape _ _ _ _ _ I)) as (l & Hl & Hlp & _). congruence.
    - assert (a ∈ []) as Hin by (apply (i_list _ _ _ _ _ I); by split; [exists p|]). by apply elem_of_nil in Hin. }
  pose proof (u_first _ _ (i_lru _ _ _ _ _ I)) as Hf. cbn in Hf. split; [|rewrite (i_count _ _ _ _ _ I), He; done].
  destruct fuel; cbn; (erewrite st_bind_ok by reflexivity); rewrite Hf; by destruct (_ <=? _).
Qed.

Lemma cleanup_loop_ok fuel : forall w P L r L1 b L2, inv w P L r -> L = L1 ++ b :: L2 -> spare w b ->
  0 <= w.(tree).(max_node_count) -> (length L * S (length L) + length L1 < fuel)%nat ->
  exists w' P' L', lru_cleanup_loop sizefunc fuel w = Ok (tt, w') /\ shrunk w P L r w' P' L' /\
    w'.(tree).(node_count) <= w.(tree).(max_node_count).
Proof.
  induction fuel as [|fuel IH]; intros w P L r L1 b L2 I EL Hb Hmax Hf; [lia|]. cbn [lru_cleanup_loop]. erewrite st_bind_ok by reflexivity.
  destruct (Z.leb_spec (node_count (tree w)) (max_node_count (tree w))) as [Hle|Hgt]; [by exists w, P, L; split; [|split; [apply shrunk_refl|]]|].
  destruct L as [|a L]; [by destruct L1|]. rewrite (u_first _ _ (i_lru _ _ _ _ _ I)). cbn [head].
  assert (a ∈ a :: L) as Hin by by left. apply (i_list _ _ _ _ _ I) in Hin as [[p Hp] Har].
  destruct (node_of _ _ _ _ _ _ _ I Hp) as [n Ha]. erewrite st_bind_ok by (by apply load_ok).
  assert (n.(parent_edge) <> None) as Hpe.
  { destruct (s_up _ _ _ _ (i_shape _ _ _ _ _ I) a (links n)) as (e & ed & Hl & _); [by rewrite lookup_fmap, Ha|done|]. by cbn in Hl; rewrite Hl. }
  rewrite (bool_decide_eq_false_2 (parent_edge n = None)), orb_false_r by done.
  destruct (children n =? 2) eqn:Hc.
  - pose proof (children_2 _ Hc) as Hno. destruct L1 as [|x L1].
    { injection EL as -> ->. destruct Hb as (n' & Hn' & Hone). rewrite Ha in Hn'. by injection Hn' as <-. }
    injection EL as <- EL. destruct (lru_rotate_ok w a L (i_lru _ _ _ _ _ I)) as (w1 & E1 & O1 & U1); [by rewrite (i_root _ _ _ _ _ I); congruence|].
    erewrite st_bind_ok by exact E1. assert (L ++ [a] ≡ₚ a :: L) as Hperm by (by rewrite <- Permutation_cons_append).
    pose proof (only_shrunk _ _ _ _ _ _ I O1 U1 Hperm) as S1. pose proof (m_max _ _ (sh_params _ _ _ _ _ _ _ S1)) as Em.
    destruct (IH w1 P (L ++ [a]) r L1 b (L2 ++ [a]) (sh_inv _ _ _ _ _ _ _ S1)) as (w2 & P2 & L2' & E2 & S2 & Hn2).
    + by rewrite EL, <- app_assoc.
    + by eapply spare_only.
    + by rewrite Em.
    + apply Permutation_length in Hperm. rewrite Hperm. cbn [length] in *. lia.
    + exists w2, P2, L2'. split; [done|]. split; [by eapply shrunk_trans|]. by rewrite Em in Hn2.
  - assert (n.(edge0) = None \/ n.(edge1) = None) as Hone.
    { unfold children in Hc. repeat case_decide; auto. done. }
    destruct (purge_first_ok w P a L r n I Ha Hone) as (w1 & P1 & L1' & E1 & S1 & Hl1).
    pose proof (m_max _ _ (sh_params _ _ _ _ _ _ _ S1)) as Em. erewrite st_bind_ok by exact E1.
    destruct L1' as [|x L1'].
    { destruct (cleanup_empty w1 P1 r fuel (sh_inv _ _ _ _ _ _ _ S1)) as [E2 Hn2]. exists w1, P1, []. split; [done|]. split; [done|lia]. }
    destruct (exists_spare w1 P1 (x :: L1') r x (sh_inv _ _ _ _ _ _ _ S1)) as (c & Hc1 & Hc2); [by left|].
    apply list_elem_of_split in Hc1 as (M1 & M2 & EM).
    destruct (IH w1 P1 _ r M1 c M2 (sh_inv _ _ _ _ _ _ _ S1) EM Hc2) as (w2 & P2 & L2' & E2 & S2 & Hn2); [by rewrite Em| |].
    + apply (f_equal length) in EM. rewrite length_app in EM. cbn [length] in *. nia.
    + exists w2, P2, L2'. split; [done|]. split; [by eapply shrunk_trans|]. by rewrite Em in Hn2.
Qed.

Lemma list_size w P L r : inv w P L r -> (length L < size w.(nodes))%nat.
Proof.
  intros I. assert (NoDup (r :: L)) as Hn.
  { apply NoDup_cons. split; [|apply (i_lru _ _ _ _ _ I)]. intros [_ Hr]%(i_list _ _ _ _ _ I). done. }
  change (length (r :: L) <= size (nodes w))%nat.
  rewrite <- (size_dom (D := gset addr)), <- (size_list_to_set (C := gset addr) (r :: L)) by done.
  apply subseteq_size. intros a Ha%elem_of_list_to_set.
  assert (exists p, P !! a = Some p) as [p Hp].
  { apply elem_of_cons in Ha as [->|[[p Hp] _]%(i_list _ _ _ _ _ I)]; [exists []; apply (root_prefix _ _ _ _ (i_shape _ _ _ _ _ I))|by exists p]. }
  destruct (node_of _ _ _ _ _ _ _ I Hp) as [n Hn']. by eapply elem_of_dom_2.
Qed.

(** [lru_cleanup]: no more nodes than the maximum, when there is one. *)
Lemma lru_cleanup_ok w P L r : inv w P L r -> 0 <= w.(tree).(max_node_count) ->
  exists w' P' L', lru_cleanup sizefunc w = Ok (tt, w') /\ shrunk w P L r w' P' L' /\
    (w.(tree).(max_node_count) = 0 -> w' = w /\ P' = P /\ L' = L) /\
    (w.(tree).(max_node_count) <> 0 -> w'.(tree).(node_count) <= w.(tree).(max_node_count)).
Proof.
  intros I Hmax. unfold lru_cleanup. erewrite st_bind_ok by reflexivity.
  destruct (Z.eqb_spec (max_node_count (tree w)) 0) as [E0|E0].
  { exists w, P, L. split; [done|]. split; [by apply shrunk_refl|]. done. }
  destruct L as [|x L].
  - destruct (cleanup_empty w P r (cleanup_fuel w) I) as [E1 Hn]. exists w, P, []. split; [done|]. split; [by apply shrunk_refl|]. split; [done|lia].
  - destruct (exists_spare w P (x :: L) r x I) as (b & Hb & Hs); [by left|]. apply list_elem_of_split in Hb as (M1 & M2 & EM).
    destruct (cleanup_loop_ok (cleanup_fuel w) w P _ r M1 b M2 I EM Hs Hmax) as (w' & P' & L' & E1 & S1 & Hn).
    + pose proof (list_size _ _ _ _ I) as Hl. unfold cleanup_fuel. apply (f_equal length) in EM. rewrite length_app in EM. cbn [length] in *. nia.
    + exists w', P', L'. split; [done|]. split; [done|]. split; [done|]. done.
Qed.
End Clean.
