(* ===== verification/SubnetFind.v ===== *)
(** * The radix tree of subnets: lookup

    The bit operations on addresses, and that [addrtree_find] answers with the
    shortest of the stored prefixes of the address that may answer the query. *)

From S2P Require Import Prelude Bits Subnet SubnetTree SubnetLru SubnetOps.

(** ** Bits of an address *)

Lemma land_1 x : Z.land x 1 = Z.b2z (Z.testbit x 0).
Proof. rewrite Z.bit0_mod. apply (Z.land_ones x 1). lia. Qed.

Lemma shiftr_bit x k : 0 <= k -> Z.land (Z.shiftr x k) 1 = Z.b2z (Z.testbit x k).
Proof. intros H. by rewrite land_1, Z.shiftr_spec, Z.add_0_l by lia. Qed.

(** Bit [n], and the byte it is in. *)
Lemma bit_at (a : list Z) n : 0 <= n < 8 * zlen a -> exists x, index a (n / 8) = Ok x /\
  bits a !! Z.to_nat n = Some (Z.b2z (Z.testbit x (7 - n mod 8))).
Proof.
  intros Hn. destruct (index_ok a (n / 8)) as (x & E & Hx); [divlia|]. exists x. split; [done|].
  replace (Z.to_nat n) with (8 * Z.to_nat (n / 8) + Z.to_nat (n mod 8))%nat by divlia.
  rewrite (bits_lookup a _ _ x Hx) by divlia. by rewrite Z2Nat.id by divlia.
Qed.

Lemma bits_are_bits a b : b ∈ bits a -> is_bit b.
Proof.
  induction a as [|x a IH]; [by intros []%elem_of_nil|]. rewrite bits_cons, elem_of_app. intros [Hb|]; [|by apply IH].
  unfold bits8 in Hb. apply list_elem_of_fmap in Hb as (i & -> & _). unfold is_bit. destruct (Z.testbit x i); cbn; lia.
Qed.

Lemma getbit_ok a len n : 0 <= n < len -> len <= 8 * zlen a -> exists b, getbit a len n = Ok b /\ is_bit b /\ bits a !! Z.to_nat n = Some b.
Proof.
  intros Hn Hl. destruct (bit_at a n) as (x & Ex & Hx); [lia|]. unfold getbit, KEYWIDTH. rewrite ltb_true by lia. cbn [c_assert]. rewrite bind_Ok, Ex, bind_Ok.
  rewrite shiftr_bit by divlia. eexists. split; [reflexivity|]. split; [|exact Hx]. unfold is_bit. destruct (Z.testbit _ _); cbn; lia.
Qed.

Lemma cmpbit_ok a b n : 0 <= n -> n < 8 * zlen a -> n < 8 * zlen b ->
  exists c, cmpbit a b n = Ok c /\ (c = 0 <-> bits a !! Z.to_nat n = bits b !! Z.to_nat n).
Proof.
  intros H0 Ha Hb. destruct (bit_at a n) as (x & Ex & Hx); [lia|]. destruct (bit_at b n) as (y & Ey & Hy); [lia|].
  unfold cmpbit, KEYWIDTH. rewrite Ex, bind_Ok, Ey, bind_Ok, shiftr_bit, Z.lxor_spec by divlia. eexists. split; [reflexivity|].
  rewrite Hx, Hy. destruct (Z.testbit x _), (Z.testbit y _); cbn; split; congruence || lia.
Qed.

Lemma common_loop_ok k : forall i s1 s2 len, 0 <= i -> Z.of_nat k = len - i -> len <= 8 * zlen s1 -> len <= 8 * zlen s2 ->
  exists c, bits_common_loop k i s1 s2 len = Ok c /\ i <= c <= len /\
    (forall j, i <= j < c -> bits s1 !! Z.to_nat j = bits s2 !! Z.to_nat j) /\
    (c < len -> bits s1 !! Z.to_nat c <> bits s2 !! Z.to_nat c).
Proof.
  induction k as [|k IH]; intros i s1 s2 len Hi Hk H1 H2; cbn [bits_common_loop].
  - exists len. split; [done|]. split; [lia|]. split; [intros; lia|lia].
  - destruct (cmpbit_ok s1 s2 i Hi) as (c & -> & Hc); [lia..|]. rewrite bind_Ok.
    destruct (Z.eqb_spec c 0) as [E0|E0]; cbn [negb].
    + destruct (IH (i + 1) s1 s2 len) as (c' & -> & Hr & Hs & Hd); [lia..|]. exists c'. split; [done|]. split; [lia|]. split; [|done].
      intros j Hj. destruct (decide (j = i)) as [->|]; [tauto|]. apply Hs. lia.
    + exists i. split; [done|]. split; [lia|]. split; [intros; lia|tauto].
Qed.

(** The longest common prefix of [p] and [x]. *)
Definition meet (p x m : list Z) : Prop :=
  m `prefix_of` p /\ m `prefix_of` x /\
  (m = p \/ m = x \/ exists i j r1 r2, i <> j /\ p = m ++ i :: r1 /\ x = m ++ j :: r2).

(** [p] is the prefix of [l] bits of the address [s]. *)
Definition prefix_bits (s : list Z) (l : Z) (p : list Z) : Prop := ztake l (bits s) = p /\ l = zlen p.

Lemma prefix_bits_len s l p : prefix_bits s l p -> l <= 8 * zlen s.
Proof.
  intros [E ->]. pose proof (length_bits s) as Hb. apply (f_equal length) in E. unfold ztake in E. rewrite length_take in E.
  unfold zlen in *. lia.
Qed.

Lemma prefix_bits_lookup s l p j : prefix_bits s l p -> 0 <= j < l -> p !! Z.to_nat j = bits s !! Z.to_nat j.
Proof. intros [<- E] Hj. unfold ztake. by rewrite lookup_take_lt by lia. Qed.

Lemma prefix_bits_elem s l p b : prefix_bits s l p -> b ∈ p -> is_bit b.
Proof. intros [<- _] H. apply (bits_are_bits s). unfold ztake in H. rewrite <- (take_drop (Z.to_nat l) (bits s)). apply elem_of_app. by left. Qed.

(** A prefix of a prefix. *)
Lemma prefix_bits_prefix s l p m : prefix_bits s l p -> m `prefix_of` p -> prefix_bits s (zlen m) m.
Proof.
  intros [E ->] [k ->]. split; [|done]. unfold ztake in *. rewrite zlen_app in E.
  apply (f_equal (take (Z.to_nat (zlen m)))) in E. pose proof (zlen_nonneg k). rewrite take_take, Nat.min_l in E by (unfold zlen in *; lia).
  rewrite E. rewrite to_nat_zlen. by rewrite take_app_length.
Qed.

Lemma prefix_bits_take s l : 0 <= l <= 8 * zlen s -> prefix_bits s l (ztake l (bits s)).
Proof. intros H. split; [done|]. rewrite zlen_ztake; [done|]. pose proof (length_bits s). unfold zlen in *. lia. Qed.

Lemma split_at (p : list Z) n i : p !! n = Some i -> p = take n p ++ i :: drop (S n) p.
Proof. intros H. by rewrite (take_drop_middle p n i H). Qed.

Lemma bits_common_ok s1 l1 s2 l2 p x q : prefix_bits s1 l1 p -> prefix_bits s2 l2 x ->
  q `prefix_of` p -> q `prefix_of` x -> zlen q < l1 -> zlen q < l2 ->
  exists m, bits_common s1 l1 s2 l2 (zlen q) = Ok (zlen m) /\ meet p x m /\ q `prefix_of` m.
Proof.
  intros H1 H2 Hq1 Hq2 Hl1 Hl2. pose proof (prefix_bits_len _ _ _ H1). pose proof (prefix_bits_len _ _ _ H2). pose proof (zlen_nonneg q).
  unfold bits_common. set (len := if l2 <? l1 then l2 else l1).
  assert (len <= l1 /\ len <= l2 /\ (len = l1 \/ len = l2) /\ zlen q < len) as (Hle1 & Hle2 & Hlen & Hql) by (unfold len; destruct (Z.ltb_spec l2 l1); lia).
  rewrite ltb_true by lia. cbn [c_assert]. rewrite bind_Ok.
  destruct (common_loop_ok (Z.to_nat (len - zlen q)) (zlen q) s1 s2 len) as (c & Ec & Hc & Hs & Hd); [lia..|].
  pose proof (proj2 H1) as E1. pose proof (proj2 H2) as E2.
  assert (ztake c p = ztake c x) as Et.
  { apply list_eq. intros j. unfold ztake. destruct (decide (j < Z.to_nat c)%nat) as [Hj|]; [|by rewrite !lookup_take_ge by lia].
    rewrite !lookup_take_lt by done. destruct (decide (j < length q)%nat) as [Hjq|].
    - destruct Hq1 as [? ->], Hq2 as [? ->]. by rewrite !lookup_app_l.
    - pose proof (prefix_bits_lookup _ _ _ (Z.of_nat j) H1) as L1. pose proof (prefix_bits_lookup _ _ _ (Z.of_nat j) H2) as L2.
      specialize (Hs (Z.of_nat j)). rewrite Nat2Z.id in *. unfold zlen in *. rewrite L1, L2, Hs by lia. done. }
  exists (ztake c p). assert (zlen (ztake c p) = c) as Em by (apply zlen_ztake; lia). rewrite Em. split; [exact Ec|]. split; [split; [|split]|].
  - exists (zdrop c p). symmetry. apply ztake_zdrop.
  - rewrite Et. exists (zdrop c x). symmetry. apply ztake_zdrop.
  - destruct (decide (c < len)) as [Hlt|Hge].
    + right. right. destruct (lookup_lt_is_Some_2 p (Z.to_nat c)) as [i Hi]; [unfold zlen in *; lia|].
      destruct (lookup_lt_is_Some_2 x (Z.to_nat c)) as [j Hj]; [unfold zlen in *; lia|].
      exists i, j, (drop (S (Z.to_nat c)) p), (drop (S (Z.to_nat c)) x). split; [|split; [by apply split_at|rewrite Et; by apply split_at]].
      intros ->. apply (Hd Hlt). rewrite <- (prefix_bits_lookup _ _ _ c H1), <- (prefix_bits_lookup _ _ _ c H2) by lia. congruence.
    + assert (c = len) as -> by lia. destruct Hlen as [->| ->].
      * left. rewrite E1. unfold ztake. rewrite to_nat_zlen. apply firstn_all.
      * right. left. rewrite Et, E2. unfold ztake. rewrite to_nat_zlen. apply firstn_all.
  - assert (ztake (zlen q) (ztake c p) = q) as Eq.
    { unfold ztake. rewrite take_take, Nat.min_l by lia. rewrite to_nat_zlen. destruct Hq1 as [? ->]. by rewrite take_app_length. }
    rewrite <- Eq. exists (zdrop (zlen q) (ztake c p)). symmetry. apply ztake_zdrop.
Qed.

Lemma meet_full p x m : meet p x m -> (zlen m =? zlen p) = bool_decide (p `prefix_of` x).
Proof.
  intros (H1 & H2 & H3). destruct (Z.eqb_spec (zlen m) (zlen p)) as [E|E]; symmetry.
  - apply bool_decide_eq_true_2. assert (m = p) as <-; [|done]. destruct H1 as [k ->]. rewrite zlen_app in E.
    destruct k; [by rewrite app_nil_r|]. rewrite zlen_cons in E. pose proof (zlen_nonneg k). lia.
  - apply bool_decide_eq_false_2. intros Hp. destruct H3 as [->|[->|(i & j & r1 & r2 & Hne & -> & ->)]]; [done| |].
    + apply E. by rewrite (prefix_length_eq p x Hp (prefix_length _ _ H1)).
    + apply prefix_app_inv in Hp. by apply prefix_cons_inv_1 in Hp.
Qed.

Lemma issub_ok s1 l1 s2 l2 p x q : prefix_bits s1 l1 p -> prefix_bits s2 l2 x ->
  q `prefix_of` p -> q `prefix_of` x -> zlen q < l1 -> zlen q < l2 ->
  issub s1 l1 s2 l2 (zlen q) = Ok (bool_decide (p `prefix_of` x)).
Proof.
  intros H1 H2 Hq1 Hq2 Hl1 Hl2. destruct (bits_common_ok s1 l1 s2 l2 p x q H1 H2 Hq1 Hq2 Hl1 Hl2) as (m & E & Hm & _).
  unfold issub. rewrite E, bind_Ok, (proj2 H1). by rewrite (meet_full p x m Hm).
Qed.

(** ** Walking down *)

Section Find.
Context {E : Type} (sizefunc : E -> Z).
Implicit Types (w : world E) (n : addrnode E) (a b c r : addr) (L : list addr) (P : gmap addr (list Z)) (d : ndata E) (p q x : list Z).
Abbreviation inv := (inv sizefunc).

Lemma prefixes_of_one p q x : p `prefix_of` x -> q `prefix_of` x -> zlen q < zlen p -> exists i rest, p = q ++ i :: rest /\ x !! length q = Some i.
Proof.
  intros Hp Hq Hl. destruct (prefix_weak_total p q x Hp Hq) as [Hpq|[k ->]].
  - apply prefix_length in Hpq. unfold zlen in Hl. lia.
  - destruct k as [|i k]; [rewrite app_nil_r in Hl; lia|]. exists i, k. split; [done|]. destruct Hp as [k' ->].
    rewrite <- app_assoc. by apply list_lookup_middle.
Qed.

(** What is stored below [a] on the way of [x] is below the child at the next bit of [x]. *)
Lemma below w P L r a n q x i c p : inv w P L r -> w.(nodes) !! a = Some n -> P !! a = Some q -> q `prefix_of` x ->
  x !! length q = Some i -> P !! c = Some p -> p `prefix_of` x -> zlen q < zlen p ->
  exists e ed b la pa rest, edge_at i n = Some e /\ w.(edges) !! e = Some ed /\
    edge_ok (links <$> w.(nodes)) P e ed b a la (links n) pa q rest /\ pa `prefix_of` p.
Proof.
  intros I Ha Hq Hqx Hi Hc Hpx Hl. destruct (prefixes_of_one p q x Hpx Hqx Hl) as (j & rest & -> & Hj).
  rewrite Hi in Hj. injection Hj as <-.
  assert ((links <$> nodes w) !! a = Some (links n)) as Hln by (by rewrite lookup_fmap, Ha).
  destruct (cover _ _ _ _ (i_shape _ _ _ _ _ I) c _ a (links n) q i rest Hc Hln Hq eq_refl)
    as (e & ed & b & la & pa & rest' & _ & H1 & H2 & _ & H4 & H5).
  by exists e, ed, b, la, pa, rest'.
Qed.

(** The child at a bit. *)
Lemma child_at w P L r a n q i e : inv w P L r -> w.(nodes) !! a = Some n -> P !! a = Some q -> is_bit i -> edge_at i n = Some e ->
  exists ed b nb p rest, w.(edges) !! e = Some ed /\ ed.(parent_index) = i /\ w.(nodes) !! b = Some nb /\
    edge_ok (links <$> w.(nodes)) P e ed b a (links nb) (links n) p q rest.
Proof.
  intros I Ha Hq Hi He. assert ((links <$> nodes w) !! a = Some (links n)) as Hln by (by rewrite lookup_fmap, Ha).
  destruct (down _ _ _ _ (i_shape _ _ _ _ _ I) a (links n) i e Hln Hi He) as (ed & b & la & p & q' & rest & H1 & H2 & K).
  pose proof (k_pb _ _ _ _ _ _ _ _ _ _ _ K) as Hq'. rewrite Hq in Hq'. injection Hq' as <-.
  pose proof (k_a _ _ _ _ _ _ _ _ _ _ _ K) as Hb. rewrite lookup_fmap in Hb. destruct (nodes w !! b) as [nb|] eqn:Hnb; [|done]. injection Hb as <-.
  by exists ed, b, nb, p, rest.
Qed.

(** The data may answer a query for [sm] bits. *)
Definition answers (now sm : Z) p d : Prop :=
  is_Some d.(d_elem) /\ now <= d.(d_ttl) /\ (sm = 0 \/ d.(d_only) = false) /\
  (zlen p = d.(d_scope) \/ (sm < d.(d_scope) /\ zlen p = sm)).

(** The data of the prefix [p] in the tree. *)
Definition has w P p d : Prop := exists a n, w.(nodes) !! a = Some n /\ P !! a = Some p /\ data n = d.

Definition answers_b (now sm depth : Z) n : bool :=
  bool_decide (n.(elem) <> None) && (now <=? n.(n_ttl)) && negb (negb (sm =? 0) && n.(only_match_scope_zero)) &&
  ((depth =? n.(scope)) || ((sm <? n.(scope)) && (depth =? sm))).

Lemma answers_iff now sm p n : answers_b now sm (zlen p) n = true <-> answers now sm p (data n).
Proof.
  unfold answers_b, answers, data. cbn. rewrite !andb_true_iff, orb_true_iff, andb_true_iff, negb_true_iff, andb_false_iff, negb_false_iff,
    bool_decide_eq_true, Z.leb_le, !Z.eqb_eq, Z.ltb_lt, <- not_eq_None_Some. tauto.
Qed.

Definition none_shorter w P now sm x k : Prop := forall p d, has w P p d -> p `prefix_of` x -> zlen p < k -> ~ answers now sm p d.

(** The answer of the lookup. *)
Definition found w P L now sm x (res : option addr) w' L' : Prop :=
  match res with
  | Some b => exists n p, w.(nodes) !! b = Some n /\ P !! b = Some p /\ p `prefix_of` x /\ answers now sm p (data n) /\
      none_shorter w P now sm x (zlen p) /\ used w b L L'
  | None => w' = w /\ L' = L /\ forall p d, has w P p d -> p `prefix_of` x -> ~ answers now sm p d
  end.

Lemma has_unique w P L r a n q d : inv w P L r -> w.(nodes) !! a = Some n -> P !! a = Some q -> has w P q d -> d = data n.
Proof.
  intros I Ha Hq (c & nc & Hc & Hpc & <-). rewrite (unique _ _ _ _ (i_shape _ _ _ _ _ I) c a q Hpc Hq) in Hc. congruence.
Qed.

Lemma none_deeper w P L r now sm a n q x p d : inv w P L r -> w.(nodes) !! a = Some n -> P !! a = Some q -> q `prefix_of` x ->
  none_shorter w P now sm x (zlen q) -> ~ answers now sm q (data n) -> has w P p d -> p `prefix_of` x -> zlen p <= zlen q -> ~ answers now sm p d.
Proof.
  intros I Ha Hq Hqx Hsh Hn Hh Hp Hl. destruct (decide (zlen p < zlen q)) as [|Hge]; [by apply Hsh|].
  assert (p = q) as ->.
  { destruct (prefix_weak_total p q x Hp Hqx) as [H1|H1]; [|symmetry]; apply prefix_length_eq; try done; unfold zlen in *; lia. }
  by rewrite (has_unique _ _ _ _ _ _ _ _ I Ha Hq Hh).
Qed.

Lemma find_loop_ok fuel : forall w P L r a n q addr_ sm now x, inv w P L r -> w.(nodes) !! a = Some n -> P !! a = Some q ->
  prefix_bits addr_ sm x -> q `prefix_of` x -> none_shorter w P now sm x (zlen q) -> (Z.to_nat (sm - zlen q) < fuel)%nat ->
  exists res w' L', find_loop fuel a (zlen q) addr_ sm now w = Ok (res, w') /\ only_lru w w' /\ lru_ok w' L' /\ found w P L now sm x res w' L'.
Proof.
  induction fuel as [|fuel IH]; intros w P L r a n q addr_ sm now x I Ha Hq Hx Hqx Hsh Hf; [lia|]. cbn [find_loop].
  pose proof (i_shape _ _ _ _ _ I) as Hs. pose proof (prefix_length _ _ Hqx) as Hql. pose proof (zlen_nonneg q) as Hq0.
  assert (sm = zlen x) as Esm by apply Hx. pose proof (prefix_bits_len _ _ _ Hx) as Hlen.
  rewrite leb_true by (unfold zlen in *; lia). erewrite st_bind_ok by reflexivity. erewrite st_bind_ok by (by apply load_ok). cbv zeta.
  set (dt := bool_decide _ && _ && _).
  assert ((if dt then assert_ (zlen q <=? scope n) else mret tt) w = Ok (tt, w)) as Ea.
  { destruct dt eqn:Edt; [|done]. apply andb_prop in Edt as [[Edt _]%andb_prop _].
    destruct (i_data _ _ _ _ _ I a n q Ha Hq) as [Hd _].
    { apply bool_decide_eq_true in Edt. by apply not_eq_None_Some. }
    by rewrite leb_true by exact Hd. }
  erewrite st_bind_ok by exact Ea. change (dt && _) with (answers_b now sm (zlen q) n).
  destruct (answers_b now sm (zlen q) n) eqn:Eans.
  { apply answers_iff in Eans. destruct (lru_update_ok w L a (i_lru _ _ _ _ _ I)) as (w' & L' & E1 & O & U & Hu).
    - destruct (decide (a = r)) as [->|Har]; [right; apply I|left]. apply (i_list _ _ _ _ _ I). by split; [exists q|].
    - erewrite st_bind_ok by exact E1. exists (Some a), w', L'. do 3 (split; [done|]). by exists n, q. }
  assert (~ answers now sm q (data n)) as Hna by (intros Hans%answers_iff; congruence). clear Ea Eans.
  assert (forall p d, has w P p d -> p `prefix_of` x -> zlen p <= zlen q -> ~ answers now sm p d) as Hup
    by (intros p d Hh Hp Hl; by eapply none_deeper).
  assert ((forall c p, P !! c = Some p -> p `prefix_of` x -> zlen p <= zlen q) ->
    exists w' L', Ok (None, w) = Ok (@None addr, w') /\ only_lru w w' /\ lru_ok w' L' /\ found w P L now sm x None w' L') as Hnone.
  { intros Hall. exists w, L. split; [done|]. split; [apply only_refl|]. split; [apply I|]. split; [done|]. split; [done|].
    intros p d Hh Hp. apply Hup; [done|done|]. destruct Hh as (c & _ & _ & Hc & _). by eapply Hall. }
  destruct (Z.eqb_spec (zlen q) sm) as [Eq|Eq].
  { exists None. apply Hnone. intros c p _ Hp%prefix_length. unfold zlen in *. lia. }
  destruct (getbit_ok addr_ sm (zlen q)) as (i & Ei & Hi & Hxi); [unfold zlen in *; lia|done|].
  unfold lift at 1. rewrite Ei. erewrite st_bind_ok by reflexivity.
  assert (x !! length q = Some i) as Hxq.
  { pose proof (prefix_bits_lookup _ _ _ (zlen q) Hx) as Hl. rewrite to_nat_zlen in *. rewrite Hl by (unfold zlen in *; lia). done. }
  destruct (edge_at i n) as [e|] eqn:He.
  2: { exists None. apply Hnone. intros c p Hc Hp. destruct (Z.le_gt_cases (zlen p) (zlen q)) as [|Hgt]; [done|].
       destruct (below w P L r a n q x i c p I Ha Hq Hqx Hxq Hc Hp) as (e & ? & ? & ? & ? & ? & ? & _); [lia|congruence]. }
  destruct (child_at w P L r a n q i e I Ha Hq Hi He) as (ed & b & nb & p & rest & Hed & Epi & Hnb & K).
  pose proof K as [K1 K2 _ _ _ _ _ K8 _ K10 K11 K12 K13].
  assert (forall c p', P !! c = Some p' -> p' `prefix_of` x -> zlen q < zlen p' -> p `prefix_of` p') as Hbelow.
  { intros c p' Hc Hp Hgt. destruct (below w P L r a n q x i c p' I Ha Hq Hqx Hxq Hc Hp Hgt) as (e' & ed' & b' & la' & pa' & rest' & He' & Hed' & K' & Hpa).
    rewrite He in He'. injection He' as <-. rewrite Hed in Hed'. injection Hed' as <-.
    destruct K' as [K1' _ _ _ _ _ _ K8' _ _ _ _ _]. rewrite K1 in K1'. injection K1' as <-. rewrite K8 in K8'. by injection K8' as <-. }
  assert (zlen q < zlen p) as Hqp by (rewrite K10, zlen_app, zlen_cons; pose proof (zlen_nonneg rest); lia).
  erewrite st_bind_ok by (unfold load_edge; rewrite Hed; reflexivity). rewrite K1, K11.
  assert (~ p `prefix_of` x -> forall c p', P !! c = Some p' -> p' `prefix_of` x -> zlen p' <= zlen q) as Hmiss.
  { intros Hno c p' Hc Hp'. destruct (Z.le_gt_cases (zlen p') (zlen q)) as [|Hgt]; [done|]. exfalso. apply Hno.
    transitivity p'; [|done]. apply (Hbelow c p' Hc Hp'). lia. }
  destruct (Z.ltb_spec sm (zlen p)) as [Hsp|Hsp].
  { exists None. apply Hnone, Hmiss. intros Hp%prefix_length. unfold zlen in *. lia. }
  assert (q `prefix_of` p) as Hqpp by (rewrite K10; by eexists).
  assert (prefix_bits (str ed) (zlen p) p) as Hpb by (rewrite <- K11 at 1; split; [by rewrite K12|done]).
  rewrite (issub_ok (str ed) (zlen p) addr_ sm p x q Hpb Hx Hqpp Hqx Hqp) by lia. erewrite st_bind_ok by reflexivity.
  case_bool_decide as Hpx; cbn [negb].
  2: { exists None. by apply Hnone, Hmiss. }
  rewrite ltb_true by done. erewrite st_bind_ok by reflexivity.
  apply (IH w P L r b nb p); try done; [|lia].
  intros p' d Hh Hp' Hlt. apply Hup; [done|done|]. destruct (Z.le_gt_cases (zlen p') (zlen q)) as [|Hgt]; [done|].
  destruct Hh as (c & _ & _ & Hc & _). pose proof (Hbelow c p' Hc Hp') as Hpp%prefix_length; [|lia]. unfold zlen in *. lia.
Qed.

(** [addrtree_find], with the prefix [x] of the query. *)
Lemma find_ok w P L r addr_ sm now x : inv w P L r -> prefix_bits addr_ sm x -> sm <= 255 ->
  exists res w' L', addrtree_find addr_ sm now w = Ok (res, w') /\ only_lru w w' /\ lru_ok w' L' /\ found w P L now sm x res w' L'.
Proof.
  intros I Hx Hsm. pose proof (root_prefix _ _ _ _ (i_shape _ _ _ _ _ I)) as Hr. destruct (node_of _ _ _ _ _ _ _ I Hr) as [n Hn].
  unfold addrtree_find. erewrite st_bind_ok by reflexivity. rewrite (i_root _ _ _ _ _ I).
  apply (find_loop_ok 257 w P L r r n [] addr_ sm now x I Hn Hr Hx); [by exists x|intros p d _ _ Hl; pose proof (zlen_nonneg p); unfold zlen in *; cbn in *; lia|].
  change (zlen []) with 0. lia.
Qed.
End Find.
