(* ===== verification/SubnetInsert.v ===== *)
(** * The radix tree of subnets: insertion

    The cases of [addrtree_insert], and what the tree stores afterwards. *)

From S2P Require Import Prelude Bits Subnet SubnetTree SubnetLru SubnetOps SubnetClean SubnetFind.

Section Insert.
Context {E : Type} (sizefunc : E -> Z).
Implicit Types (w : world E) (n : addrnode E) (a b c r : addr) (L : list addr) (P : gmap addr (list Z)) (d : ndata E) (p q x : list Z).
Abbreviation inv := (inv sizefunc).
Abbreviation sizes l := (zsum (sizefunc <$> l)).

(** The invariant without the list. *)
Record core w P r : Prop := {
  c_root : w.(tree).(root) = Some r;
  c_shape : shape (links <$> w.(nodes)) w.(edges) P r;
  c_data : forall a n p, w.(nodes) !! a = Some n -> P !! a = Some p -> data_ok p (data n);
  c_size : eqw 64 w.(tree).(size_bytes)
    (sizeof_addrtree + sizeof_addrnode + edge_sizes w.(edges) + sizes (elems (data <$> w.(nodes))));
  c_count : w.(tree).(node_count) = u32 (Z.of_nat (size w.(edges)));
}.

Lemma inv_core w P L r : inv w P L r -> core w P r.
Proof. by intros []. Qed.

Lemma core_inv w P L r : core w P r -> lru_ok w L -> (forall a, a ∈ L <-> is_Some (P !! a) /\ a <> r) -> inv w P L r.
Proof. by intros []. Qed.

Lemma core_only w w' P r : core w P r -> only_lru w w' -> core w' P r.
Proof.
  intros [C1 C2 C3 C4 C5] [O1 O2 O3 O4 O5 (x & y & O6)]. split.
  - by rewrite O6.
  - by rewrite O1, O3.
  - intros a n p Ha Hpa. assert ((data <$> nodes w') !! a = Some (data n)) as Hd by (by rewrite lookup_fmap, Ha).
    rewrite O2, lookup_fmap in Hd. destruct (nodes w !! a) as [n0|] eqn:E0; [|done]. apply (inj Some) in Hd. rewrite <- Hd. by eapply C3.
  - by rewrite O2, O3, O6.
  - by rewrite O3, O6.
Qed.

(** ** New nodes and edges *)

Definition blank (xo : option E) (ttl sc : Z) : addrnode E := mk_node xo ttl sc false None None None None None.

Lemma alloc_ok w : mallocs_ok w.(memory) -> exists m, mallocs_ok m /\
  alloc w = Ok (true, mk_world w.(nodes) w.(edges) w.(tree) w.(deleted) m).
Proof.
  intros H. unfold alloc. destruct (malloc (memory w)) as [ok m] eqn:Em. destruct (malloc_ok _ _ _ Em H) as [-> Hm]. by exists m.
Qed.

Lemma node_create_ok w xo sc ttl : mallocs_ok w.(memory) -> exists a m, w.(nodes) !! a = None /\ mallocs_ok m /\
  node_create xo sc ttl w = Ok (Some a, mk_world (<[a := blank xo ttl sc]> w.(nodes)) w.(edges)
    (with_count (u32 (w.(tree).(node_count) + 1)) w.(tree)) w.(deleted) m).
Proof.
  intros H. destruct (alloc_ok w H) as (m & Hm & E1). exists (fresh (dom w.(nodes))), m.
  split; [apply not_elem_of_dom, is_fresh|]. split; [done|]. unfold node_create. erewrite st_bind_ok by exact E1. done.
Qed.

Lemma ceil_bytes l : 0 <= l -> l / KEYWIDTH + (if negb (l mod KEYWIDTH =? 0) then 1 else 0) = (l + 7) / 8.
Proof. intros H. unfold KEYWIDTH. destruct (Z.eqb_spec (l mod 8) 0); cbn; divlia. Qed.

(** The copy of the address has the bits that matter. *)
Lemma copy_bits addr_ l : 0 <= l <= 8 * zlen addr_ ->
  exists s, read_bytes (l / KEYWIDTH + (if negb (l mod KEYWIDTH =? 0) then 1 else 0)) addr_ = Ok s /\
    ztake l (bits s) = ztake l (bits addr_).
Proof.
  intros H. rewrite ceil_bytes by lia. exists (ztake ((l + 7) / 8) addr_). split; [apply read_bytes_ok; divlia|].
  unfold ztake. rewrite bits_take, take_take. f_equal. divlia.
Qed.

Lemma edge_create_ok w a na b nb addr_ l i : mallocs_ok w.(memory) -> w.(nodes) !! a = Some na -> w.(nodes) !! b = Some nb -> a <> b ->
  edge_at i nb = None -> 0 <= l <= 8 * zlen addr_ ->
  exists e s m, w.(edges) !! e = None /\ mallocs_ok m /\ ztake l (bits s) = ztake l (bits addr_) /\
    edge_create (Some a) addr_ l b i w = Ok (Some e, mk_world
      (<[b := with_edge i (Some e) nb]> (<[a := with_parent_edge (Some e) na]> w.(nodes)))
      (<[e := mk_edge s l (Some a) b i]> w.(edges)) w.(tree) w.(deleted) m).
Proof.
  intros H Ha Hb Hab He Hl. destruct (alloc_ok w H) as (m1 & Hm1 & E1). set (w1 := mk_world _ _ _ _ m1) in E1.
  destruct (alloc_ok w1 Hm1) as (m2 & Hm2 & E2). destruct (copy_bits addr_ l Hl) as (s & Es & Hs).
  exists (fresh (dom w.(edges))), s, m2. split; [apply not_elem_of_dom, is_fresh|]. split; [done|]. split; [done|].
  unfold edge_create. erewrite st_bind_ok by exact E1. cbn [negb]. erewrite st_bind_ok by exact E2. cbn [negb].
  unfold lift. rewrite Es. erewrite st_bind_ok by reflexivity. erewrite st_bind_ok by reflexivity.
  erewrite st_bind_ok by (apply modify_node_ok; exact Ha). erewrite st_bind_ok by (apply load_ok; cbn; rewrite lookup_insert_ne by done; exact Hb).
  rewrite He, bool_decide_eq_true_2 by done. erewrite st_bind_ok by reflexivity.
  erewrite st_bind_ok by (apply modify_node_ok; cbn; rewrite lookup_insert_ne by done; exact Hb). done.
Qed.

(** ** A new leaf *)

Lemma fresh_prefix w P r a : core w P r -> w.(nodes) !! a = None -> P !! a = None.
Proof.
  intros C Ha. destruct (P !! a) as [p|] eqn:Hp; [|done]. destruct (proj2 (s_dom _ _ _ _ (c_shape _ _ _ C) a) (mk_is_Some _ _ Hp)) as [l Hl].
  by rewrite lookup_fmap, Ha in Hl.
Qed.

Lemma elems_fresh (M : gmap addr (addrnode E)) a n : M !! a = None -> elems (data <$> <[a := n]> M) ≡ₚ elem_list n ++ elems (data <$> M).
Proof. intros Ha. rewrite fmap_insert. apply (gather_fresh (fun d => option_list d.(d_elem))). by rewrite lookup_fmap, Ha. Qed.

Lemma edges_fresh (Ed : gmap addr addredge) e ed : Ed !! e = None -> edge_sizes (<[e := ed]> Ed) = edge_size ed + edge_sizes Ed.
Proof. intros H. unfold edge_sizes. by rewrite (zsum_perm _ _ (gather_fresh _ _ e ed H)). Qed.

Lemma seg_fresh w L t ed del m a n : lru_ok w L -> w.(nodes) !! a = None ->
  t.(lru_first) = w.(tree).(lru_first) -> t.(lru_last) = w.(tree).(lru_last) -> lru_ok (mk_world (<[a := n]> w.(nodes)) ed t del m) L.
Proof.
  intros [U1 U2 U3 U4] Ha E1 E2. split; cbn; [done|congruence|congruence|]. eapply seg_same; [|exact U4].
  intros b nb _ Hb. exists nb. rewrite lookup_insert_ne; [done|]. congruence.
Qed.

(** What is stored: the elements and their prefixes. *)
Definition stored w P p d : Prop := has w P p d /\ is_Some d.(d_elem).

(** The tree before the leaf is put in the list. *)
Lemma leaf_core w P L r a b nb i e s addr_ p q rest sm xo ttl sc z m : inv w P L r -> w.(nodes) !! a = None -> w.(nodes) !! b = Some nb ->
  w.(edges) !! e = None -> P !! b = Some q -> is_bit i -> edge_at i nb = None -> p = q ++ i :: rest -> prefix_bits addr_ sm p -> zlen p <= 255 ->
  ztake sm (bits s) = ztake sm (bits addr_) -> data_ok p (data (blank xo ttl sc)) ->
  z = u64 (w.(tree).(size_bytes) + u64 (sizeof_addrnode + sizeof_addredge + sm + elem_size sizefunc xo)) ->
  let w' := mk_world (<[b := with_edge i (Some e) nb]> (<[a := with_parent_edge (Some e) (blank xo ttl sc)]> w.(nodes)))
    (<[e := mk_edge s sm (Some a) b i]> w.(edges)) (with_size z (with_count (u32 (w.(tree).(node_count) + 1)) w.(tree))) w.(deleted) m in
  core w' (<[a := p]> P) r /\ lru_ok w' L /\ elems (data <$> w'.(nodes)) ≡ₚ option_list xo ++ elems (data <$> w.(nodes)) /\
    data <$> w'.(nodes) = <[a := data (blank xo ttl sc)]> (data <$> w.(nodes)).
Proof.
  intros I Ha Hb He Hq Hi Hsl Ep [Hx1 Hx2] Hmax Hs Hd Ez w'. pose proof I as [I1 I2 I3 I4 I5 I6 I7].
  assert (a <> b) as Hab by congruence. set (na := with_parent_edge (Some e) (blank xo ttl sc)) in *.
  assert ((<[a := na]> (nodes w)) !! b = Some nb) as Hb1 by (by rewrite lookup_insert_ne).
  assert (data <$> nodes w' = <[a := data (blank xo ttl sc)]> (data <$> nodes w)) as Edata.
  { cbn. rewrite (fmap_set data _ b nb) by done. by rewrite fmap_insert. }
  assert (elems (data <$> nodes w') ≡ₚ option_list xo ++ elems (data <$> nodes w)) as Eel.
  { cbn. rewrite (fmap_set data _ b nb) by done. by rewrite elems_fresh. }
  split; [|split; [|done]]. 1: split; cbn; try done.
  - eapply (shape_add _ _ _ _ _ _ _ a b e s i (links nb) p q rest I2); try done.
    + by rewrite lookup_fmap, Ha.
    + by rewrite lookup_fmap, Hb.
    + rewrite <- Hx2. congruence.
    + rewrite lookup_fmap, lookup_insert_ne, lookup_insert_eq by done. done.
    + rewrite lookup_fmap, lookup_insert_eq. done.
    + intros c Hca Hcb. rewrite !lookup_fmap, !lookup_insert_ne by done. done.
    + by rewrite <- Hx2.
  - intros c nc pc Hc Hpc. destruct (decide (c = a)) as [->|Hca].
    + rewrite lookup_insert_ne, lookup_insert_eq in Hc by done. injection Hc as <-. rewrite lookup_insert_eq in Hpc. by injection Hpc as <-.
    + rewrite lookup_insert_ne in Hpc by done. destruct (decide (c = b)) as [->|Hcb].
      * rewrite lookup_insert_eq in Hc. injection Hc as <-. rewrite data_edge. by eapply I5.
      * rewrite !lookup_insert_ne in Hc by done. by eapply I5.
  - rewrite Ez, !wrap_eqw, I6. pose proof (sizes_perm sizefunc _ _ Eel) as Hsz. rewrite sizes_app in Hsz. unfold w' in Hsz. cbn in Hsz.
    rewrite Hsz, edges_fresh by done. unfold edge_size. cbn [len]. apply eqw64. destruct xo; cbn; lia.
  - rewrite I7. rewrite map_size_insert_None by done. apply eqw_wrap. rewrite wrap_eqw. constructor. f_equal. lia.
  - pose proof (seg_fresh w L (tree w) (edges w) (deleted w) (memory w) a na I3 Ha eq_refl eq_refl) as U.
    exact (lru_set _ b nb (with_edge i (Some e) nb) (tree w') (deleted w) m (edges w') L U Hb1 eq_refl eq_refl eq_refl eq_refl).
Qed.

Lemma only_elems w w' : only_lru w w' -> elems (data <$> w'.(nodes)) = elems (data <$> w.(nodes)).
Proof. intros O. by rewrite (o_data _ _ O). Qed.

Lemma list_snoc w P L r a p : inv w P L r -> w.(nodes) !! a = None -> P !! a = None ->
  a <> r /\ (a ∉ L) /\ (forall c, c ∈ L ++ [a] <-> is_Some ((<[a := p]> P) !! c) /\ c <> r).
Proof.
  intros I Ha HP. assert (a <> r) as Har.
  { intros ->. pose proof (root_prefix _ _ _ _ (i_shape _ _ _ _ _ I)). congruence. }
  assert (a ∉ L) as HaL by (intros [[? ?] _]%(i_list _ _ _ _ _ I); congruence).
  split; [done|]. split; [done|]. intros c. rewrite elem_of_app, list_elem_of_singleton, (i_list _ _ _ _ _ I).
  destruct (decide (c = a)) as [->|Hc]; [rewrite lookup_insert_eq|rewrite lookup_insert_ne by done; tauto].
  split; [by split|by right].
Qed.

(** The nodes are as before, and there is a new one, [a], with the prefix [p] and the data [d]. *)
Record one_more w P L r a p d w' P' L' : Prop := {
  om_inv : inv w' P' L' r;
  om_params : same_params w w';
  om_mallocs : mallocs_ok w'.(memory);
  om_deleted : w'.(deleted) = w.(deleted);
  om_fresh : w.(nodes) !! a = None;
  om_data : data <$> w'.(nodes) = <[a := d]> (data <$> w.(nodes));
  om_prefix : P' = <[a := p]> P;
  om_list : L' = L ++ [a];
  om_count : size w'.(edges) = S (size w.(edges));
}.

Lemma leaf_ok w P L r b nb q i addr_ sm p rest (v : E) sc ttl : inv w P L r -> mallocs_ok w.(memory) -> w.(nodes) !! b = Some nb ->
  P !! b = Some q -> is_bit i -> edge_at i nb = None -> prefix_bits addr_ sm p -> p = q ++ i :: rest -> sm <= 255 -> sm <= sc ->
  exists a w1 w2, node_create (Some v) sc ttl w = Ok (Some a, w1) /\ add_leaf sizefunc b i addr_ sm (Some a) w1 = Ok (true, w2) /\
    one_more w P L r a p (mk_data (Some v) ttl sc false) w2 (<[a := p]> P) (L ++ [a]).
Proof.
  intros I Hm Hb Hq Hi Hsl Hx Ep Hmax Hsc. pose proof (prefix_bits_len _ _ _ Hx) as Hlen. pose proof (proj2 Hx) as Esm. pose proof (zlen_nonneg p).
  destruct (node_create_ok w (Some v) sc ttl Hm) as (a & m & Ha & Hm1 & E1). set (w1 := mk_world _ _ _ _ m) in E1.
  assert (a <> b) as Hab by congruence.
  destruct (edge_create_ok w1 a (blank (Some v) ttl sc) b nb addr_ sm i Hm1) as (e & s & m2 & He & Hm2 & Hs & E2);
    [apply lookup_insert_eq|cbn; by rewrite lookup_insert_ne|done|done|lia|]. set (w2 := mk_world _ _ _ _ m2) in E2.
  cbn [nodes edges tree deleted w1] in w2, He.
  set (na := with_parent_edge (Some e) (blank (Some v) ttl sc)).
  assert (w2.(nodes) !! a = Some na) as Ha2.
  { cbn. by rewrite lookup_insert_ne, insert_insert_eq, lookup_insert_eq by done. }
  set (sz := u64 (sizeof_addrnode + sizeof_addredge + sm + elem_size sizefunc (Some v))).
  assert (node_size sizefunc a w2 = Ok (sz, w2)) as E3.
  { unfold node_size. erewrite st_bind_ok by (by apply load_ok). cbn [parent_edge na with_parent_edge]. unfold load_edge.
    erewrite st_bind_ok by (cbn; by rewrite lookup_insert_eq). done. }
  set (w3 := upd_tree (fun t => with_size (u64 (t.(size_bytes) + sz)) t) w2).
  destruct (leaf_core w P L r a b nb i e s addr_ p q rest sm (Some v) ttl sc (u64 (w.(tree).(size_bytes) + sz)) m2 I Ha Hb He Hq Hi Hsl Ep Hx)
    as (C & U & Hel & Hd); [lia|done|intros _; cbn; split; [lia|done]|done|].
  fold na in C, U, Hel, Hd. set (w3' := mk_world _ _ _ _ _) in C, U, Hel, Hd.
  assert (w3 = w3') as Ew3 by (unfold w3, w3', w2; cbn; by rewrite insert_insert_eq).
  assert (P !! a = None) as HPa by (eapply fresh_prefix; [by eapply inv_core|done]).
  destruct (list_snoc w P L r a p I Ha HPa) as (Har & HaL & HL).
  destruct (lru_push_ok w3' L a na U) as (w4 & E4 & O4 & U4); [rewrite <- Ew3; exact Ha2|done|].
  exists a, w1, w4. split; [exact E1|]. split.
  - unfold add_leaf. erewrite st_bind_ok by exact E2. cbv beta iota. erewrite st_bind_ok by exact E3. erewrite st_bind_ok by reflexivity.
    fold w3. rewrite Ew3. erewrite st_bind_ok by exact E4. done.
  - split; try done.
    + apply core_inv; [by eapply core_only|done|done].
    + eapply params_trans; [|by apply only_params]. done.
    + by rewrite (o_memory _ _ O4).
    + by rewrite (o_deleted _ _ O4).
    + by rewrite (o_data _ _ O4).
    + rewrite (o_edges _ _ O4). cbn. by rewrite map_size_insert_None.
Qed.

(** ** An edge is split *)

(** The world after the edge [e] to [c] was split, given the one, [w2], with the new
    node [a] as a leaf at the end of the list in order of use. *)
Lemma split_core w P L r w2 a b c (nb na na' : addrnode E) (e e' : addr) (ed : addredge) (s : list Z) j lc p q m rest (r1 r2 : list Z) d z : inv w P L r -> w.(nodes) !! a = None ->
  w.(nodes) !! b = Some nb -> w.(edges) !! e = Some ed -> w.(edges) !! e' = None ->
  edge_ok (links <$> w.(nodes)) P e ed c b lc (links nb) p q rest ->
  m = q ++ ed.(parent_index) :: r1 -> p = m ++ j :: r2 -> is_bit j -> ztake (zlen m) (bits s) = m ->
  links <$> w2.(nodes) = <[b := set_slot ed.(parent_index) (Some e') (links nb)]> (<[a := mk_links None None (Some e')]> (links <$> w.(nodes))) ->
  data <$> w2.(nodes) = <[a := mk_data None 0 0 false]> (data <$> w.(nodes)) ->
  w2.(edges) = <[e' := mk_edge s (zlen m) (Some a) b ed.(parent_index)]> w.(edges) ->
  w2.(tree).(root) = w.(tree).(root) -> w2.(tree).(node_count) = u32 (w.(tree).(node_count) + 1) ->
  w2.(tree).(size_bytes) = w.(tree).(size_bytes) ->
  w2.(nodes) !! a = Some na -> links na' = set_slot j (Some e) (mk_links None None (Some e')) ->
  data na' = d -> data_ok m d ->
  z = u64 (w2.(tree).(size_bytes) + u64 (sizeof_addrnode + sizeof_addredge + zlen m + elem_size sizefunc d.(d_elem))) ->
  let w' := mk_world (<[a := na']> w2.(nodes)) (<[e := with_parent a j ed]> w2.(edges)) (with_size z w2.(tree)) w2.(deleted) w2.(memory) in
  core w' (<[a := m]> P) r /\ data <$> w'.(nodes) = <[a := d]> (data <$> w.(nodes)) /\ size w'.(edges) = S (size w.(edges)).
Proof.
  intros I Ha Hb He He' K Em Ep Hj Hst El Edt Eed Er Ec Es Ha2 Hla Hda Hd Ez w'. pose proof I as [I1 I2 I3 I4 I5 I6 I7].
  assert (e <> e') as Hee by congruence. assert (a <> b) as Hab by congruence.
  assert (data <$> nodes w' = <[a := d]> (data <$> nodes w)) as Edata by (cbn; by rewrite fmap_insert, Edt, Hda, insert_insert_eq).
  assert (w2.(edges) !! e = Some ed) as He2 by (by rewrite Eed, lookup_insert_ne).
  assert (size (edges w') = S (size (edges w))) as Hsz.
  { cbn. rewrite map_size_insert_Some by (by rewrite He2). by rewrite Eed, map_size_insert_None. }
  split; [|done]. split.
  - cbn. by rewrite Er.
  - cbn. eapply (shape_split _ _ _ _ _ _ _ a b e e' ed c s (parent_index ed) j lc (links nb) p q m rest r1 r2 I2 He K); try done.
    + by rewrite lookup_fmap, Ha.
    + by rewrite fmap_insert, lookup_insert_eq, Hla.
    + rewrite fmap_insert, lookup_insert_ne, El by done. apply lookup_insert_eq.
    + intros x Hxa Hxb. by rewrite fmap_insert, lookup_insert_ne, El, !lookup_insert_ne by done.
    + by rewrite Eed.
  - intros x nx px Hx Hpx. assert ((data <$> nodes w') !! x = Some (data nx)) as Hdx by (by rewrite lookup_fmap, Hx).
    rewrite Edata in Hdx. destruct (decide (x = a)) as [->|Hxa].
    + rewrite lookup_insert_eq in Hdx. rewrite lookup_insert_eq in Hpx. injection Hdx as <-. by injection Hpx as <-.
    + rewrite lookup_insert_ne in Hdx by done. rewrite lookup_insert_ne in Hpx by done. rewrite lookup_fmap in Hdx.
      destruct (nodes w !! x) as [n0|] eqn:E0; [|done]. apply (inj Some) in Hdx. rewrite <- Hdx. by eapply I5.
  - rewrite Edata. cbn [w' tree size_bytes with_size edges]. rewrite Ez, !wrap_eqw, Es, I6.
    assert (sizes (elems (<[a := d]> (data <$> nodes w))) = elem_size sizefunc (d_elem d) + sizes (elems (data <$> nodes w))) as ->.
    { assert (elems (<[a := d]> (data <$> nodes w)) ≡ₚ option_list (d_elem d) ++ elems (data <$> nodes w)) as Hg.
      { apply (gather_fresh (fun d => option_list d.(d_elem))). by rewrite lookup_fmap, Ha. }
      rewrite (sizes_perm sizefunc _ _ Hg), sizes_app. destruct (d_elem d); cbn; lia. }
    rewrite (set_sizes _ e ed) by done. rewrite Eed, edges_fresh by done. unfold edge_size. cbn [len]. apply eqw64. lia.
  - rewrite Hsz. cbn. rewrite Ec, I7. apply eqw_wrap. rewrite wrap_eqw. constructor. f_equal. lia.
Qed.

Lemma other_bit j : is_bit j -> is_bit (Z.lxor j 1) /\ Z.lxor j 1 <> j.
Proof. intros [-> | ->]; (split; [vm_compute; auto|done]). Qed.

Lemma two_bits i j : is_bit i -> is_bit j -> i <> j -> i = Z.lxor j 1.
Proof. by intros [-> | ->] [-> | ->] H. Qed.

(** What [split_edge] does after the split. *)
Definition split_rest (a : addr) (j common : Z) (addr_ : list Z) (sm sc : Z) (v : E) (ttl : Z) : ST (world E) unit :=
  if negb (common =? sm) then
    newnode ← node_create (Some v) sc ttl;
    ok ← add_leaf sizefunc a (Z.lxor j 1) addr_ sm newnode;
    if (ok : bool) then lru_cleanup sizefunc else mret tt
  else lru_cleanup sizefunc.

Lemma split_ok w P L r b nb e ed c lc p q m j rest (r1 r2 : list Z) addr_ sm sc (v : E) ttl only : inv w P L r -> mallocs_ok w.(memory) ->
  w.(nodes) !! b = Some nb -> w.(edges) !! e = Some ed ->
  edge_ok (links <$> w.(nodes)) P e ed c b lc (links nb) p q rest ->
  m = q ++ ed.(parent_index) :: r1 -> p = m ++ j :: r2 -> is_bit j -> prefix_bits addr_ (zlen m) m -> zlen m <= sm -> sm <= sc -> sm <= 255 ->
  only = false ->
  let d := if zlen m =? sm then mk_data (Some v) ttl sc only else mk_data None 0 0 false in
  exists a w', split_edge sizefunc b ed.(parent_index) e (zlen m) addr_ sm sc v ttl only w = split_rest a j (zlen m) addr_ sm sc v ttl w' /\
    one_more w P L r a m d w' (<[a := m]> P) (L ++ [a]) /\
    exists na, w'.(nodes) !! a = Some na /\ edge_at (Z.lxor j 1) na = None.
Proof.
  intros I Hm Hb He K Em Ep Hj Hx Hms Hsc Hmax Honly d. pose proof (prefix_bits_len _ _ _ Hx) as Hlen. pose proof (zlen_nonneg m) as Hm0.
  pose proof K as [K1 K2 K3 K4 K5 K6 K7 K8 K9 K10 K11 K12 K13]. set (i := parent_index ed) in *.
  destruct (node_create_ok w None 0 0 Hm) as (a & m1 & Ha & Hm1 & E1). set (w1 := mk_world _ _ _ _ m1) in E1.
  assert (a <> b) as Hab by congruence. assert (w1.(nodes) !! b = Some nb) as Hb1 by (cbn; by rewrite lookup_insert_ne).
  set (w2 := upd_nodes <[b := with_edge i None nb]> w1).
  destruct (edge_create_ok w2 a (blank None 0 0) b (with_edge i None nb) addr_ (zlen m) i Hm1) as (e' & s & m2 & He' & Hm2 & Hs & E2);
    [cbn; by rewrite lookup_insert_ne, lookup_insert_eq by done|apply lookup_insert_eq|done|by rewrite edge_at_links, links_edge, slot_set|lia|].
  cbn [edges w2 w1 upd_nodes] in He'. set (w3 := mk_world _ _ _ _ m2) in E2.
  set (na := with_parent_edge (Some e') (blank None 0 0)).
  assert (w3.(nodes) = <[b := with_edge i (Some e') nb]> (<[a := na]> w.(nodes))) as En3.
  { cbn. rewrite (insert_insert_ne _ a b), !insert_insert_eq by done.
    f_equal. unfold with_edge. cbn. by destruct (i =? 0). }
  assert (w3.(nodes) !! a = Some na) as Ha3 by (by rewrite En3, lookup_insert_ne, lookup_insert_eq by done).
  assert (lru_ok w3 L) as U3.
  { pose proof (seg_fresh w L w3.(tree) w3.(edges) w3.(deleted) w3.(memory) a na (i_lru _ _ _ _ _ I) Ha eq_refl eq_refl) as U.
    pose proof (lru_set _ b nb (with_edge i (Some e') nb) w3.(tree) w3.(deleted) w3.(memory) w3.(edges) L U
      ltac:(cbn; by rewrite lookup_insert_ne) eq_refl eq_refl eq_refl eq_refl) as U'.
    cbn [nodes] in U'. rewrite <- En3 in U'. exact U'. }
  assert (P !! a = None) as HPa by (eapply fresh_prefix; [by eapply inv_core|done]).
  destruct (list_snoc w P L r a m I Ha HPa) as (Har & HaL & HL).
  destruct (lru_push_ok w3 L a na U3 Ha3 HaL) as (w4 & E4 & O4 & U4).
  destruct (only_lookup _ _ _ _ O4 Ha3) as (na4 & Ha4 & El4 & Ed4).
  pose proof O4 as [P1 P2 P3 P4 P5 (lx & ly & P6)].
  assert (w4.(edges) !! e = Some ed) as He4 by (rewrite P3; cbn; rewrite lookup_insert_ne; [done|congruence]).
  assert (getbit ed.(str) ed.(len) (zlen m) = Ok j) as Egb.
  { assert (prefix_bits ed.(str) (zlen p) p) as Hpb by (split; [by rewrite <- K11|done]). rewrite K11.
    assert (zlen p = zlen m + 1 + zlen r2) as Hzp by (rewrite Ep, zlen_app, zlen_cons; lia). pose proof (zlen_nonneg r2).
    destruct (getbit_ok ed.(str) (zlen p) (zlen m)) as (j0 & Ej & _ & Hj0); [lia|by eapply prefix_bits_len|]. rewrite Ej.
    rewrite <- (prefix_bits_lookup _ _ _ _ Hpb), to_nat_zlen, Ep, list_lookup_middle in Hj0 by (done || lia). congruence. }
  set (na5 := with_edge j (Some e) na4).
  set (na6 := if zlen m =? sm then with_only only (with_ttl ttl (with_scope sc (with_elem (Some v) na5))) else na5).
  set (sz := u64 (sizeof_addrnode + sizeof_addredge + zlen m + elem_size sizefunc d.(d_elem))).
  set (w' := mk_world (<[a := na6]> w4.(nodes)) (<[e := with_parent a j ed]> w4.(edges)) (with_size (u64 (w4.(tree).(size_bytes) + sz)) w4.(tree)) w4.(deleted) w4.(memory)).
  assert (links na6 = set_slot j (Some e) (mk_links None None (Some e'))) as Hl6.
  { transitivity (set_slot j (Some e) (links na4)); [unfold na6; by destruct (_ =? _)|by rewrite El4]. }
  assert (data na6 = d) as Hd6 by (unfold na6, d; destruct (_ =? _); cbn; [done|unfold data; cbn; exact Ed4]).
  assert (parent_edge na6 = Some e') as Hp6 by (by injection Hl6).
  exists a, w'. split; [|split].
  - unfold split_edge. erewrite st_bind_ok by exact E1. cbv beta iota. erewrite st_bind_ok by (by apply modify_node_ok).
    fold w2. erewrite st_bind_ok by exact E2. cbv beta iota. erewrite st_bind_ok by exact E4.
    erewrite st_bind_ok by (unfold load_edge; rewrite He4; reflexivity). unfold lift at 1. rewrite Egb. erewrite st_bind_ok by reflexivity.
    erewrite st_bind_ok by (by apply modify_node_ok). fold na5.
    erewrite st_bind_ok by (unfold modify_edge; cbn; rewrite He4; reflexivity). set (w5 := upd_edges _ _).
    assert ((if zlen m =? sm then modify a (fun n => with_only only (with_ttl ttl (with_scope sc (with_elem (Some v) n)))) else mret tt) w5
      = Ok (tt, upd_nodes (fun _ => <[a := na6]> w4.(nodes)) w5)) as E6.
    { unfold na6. destruct (_ =? _); [|done]. erewrite modify_node_ok by apply lookup_insert_eq. unfold upd_nodes. cbn. by rewrite insert_insert_eq. }
    erewrite st_bind_ok by exact E6. set (w6 := upd_nodes _ w5).
    assert (node_size sizefunc a w6 = Ok (sz, w6)) as E7.
    { unfold node_size. erewrite st_bind_ok by (apply load_ok, lookup_insert_eq). rewrite Hp6. unfold load_edge.
      assert (e <> e') as Hee by congruence. assert (w6.(edges) !! e' = Some (mk_edge s (zlen m) (Some a) b i)) as He6.
      { change (edges w6) with (<[e := with_parent a j ed]> (edges w4)). rewrite lookup_insert_ne, P3 by done. apply lookup_insert_eq. }
      erewrite st_bind_ok by (by rewrite He6).
      cbn [len]. change (elem na6) with (d_elem (data na6)). by rewrite Hd6. }
    erewrite st_bind_ok by exact E7. erewrite st_bind_ok by reflexivity. done.
  - destruct (split_core w P L r w4 a b c nb na4 na6 e e' ed s j lc p q m rest r1 r2 d (u64 (size_bytes (tree w4) + sz)) I Ha Hb He He' K Em Ep Hj)
      as (C & Hdt & Hcnt); try done.
    + rewrite Hs. apply Hx.
    + by rewrite P1, En3, !fmap_insert.
    + by rewrite P2, En3, (fmap_set data _ b nb), fmap_insert by (done || by rewrite lookup_insert_ne).
    + by rewrite P6.
    + by rewrite P6.
    + by rewrite P6.
    + unfold d. destruct (_ =? _); [|by intros [? ?]]. intros _. cbn. split; [lia|]. by rewrite Honly.
    + split; try done.
      * apply core_inv; [exact C| |done]. exact (lru_set w4 a na4 na6 (tree w') _ _ _ _ U4 Ha4 ltac:(unfold na6; by destruct (_ =? _)) ltac:(unfold na6; by destruct (_ =? _)) eq_refl eq_refl).
      * split; cbn; by rewrite P6.
      * cbn. by rewrite P5.
  - exists na6. split; [apply lookup_insert_eq|]. destruct (other_bit j Hj) as [Hj1 Hj2].
    rewrite edge_at_links, Hl6, slot_other by (done || congruence). unfold slot. cbn. by destruct (_ =? 0).
Qed.
End Insert.
