(* ===== verification/SubnetStore.v ===== *)
(** * The radix tree of subnets: what an insertion stores

    The loop of [addrtree_insert], and the entries of the tree before and after. *)

From S2P Require Import Prelude Bits Subnet SubnetTree SubnetLru SubnetOps SubnetClean SubnetFind SubnetInsert.

Section Store.
Context {E : Type} (sizefunc : E -> Z).
Implicit Types (w : world E) (n : addrnode E) (a b c : addr) (L : list addr) (P : gmap addr (list Z)) (d : ndata E) (p q x : list Z).
Abbreviation inv := (inv sizefunc).

Lemma stored_unique w P L r p d d' : inv w P L r -> stored w P p d -> stored w P p d' -> d = d'.
Proof. intros I [(a & n & Ha & Hp & <-) _] [H _]. symmetry. by eapply has_unique. Qed.

Lemma stored_data w P p d : stored w P p d <-> exists a, (data <$> w.(nodes)) !! a = Some d /\ P !! a = Some p /\ is_Some d.(d_elem).
Proof.
  split.
  - intros [(a & n & Ha & Hp & <-) Hd]. exists a. by rewrite lookup_fmap, Ha.
  - intros (a & Ha & Hp & Hd). rewrite lookup_fmap in Ha. destruct (nodes w !! a) as [n|] eqn:Hn; [|done].
    apply (inj Some) in Ha. split; [|done]. by exists a, n.
Qed.

(** ** The entries of the nodes passed *)

(** The entry for [p], when [x] is inserted with the scope [sc]: the nodes above that of
    [x] get its scope. *)
Definition rescoped x (sc : Z) p d d' : Prop :=
  d' = d \/ (p `prefix_of` x /\ p <> x /\ d' = mk_data d.(d_elem) d.(d_ttl) sc d.(d_only)).

Record aged x sc now w P L r w' P' L' : Prop := {
  ag_inv : inv w' P' L' r;
  ag_params : same_params w w';
  ag_memory : w'.(memory) = w.(memory);
  ag_elems : exists D, w'.(deleted) = w.(deleted) ++ D /\ D ++ elems (data <$> w'.(nodes)) ≡ₚ elems (data <$> w.(nodes));
  ag_sound : forall p d', stored w' P' p d' -> exists d, stored w P p d /\ rescoped x sc p d d';
  ag_kept : forall p d, stored w P p d -> now <= d.(d_ttl) -> exists d', stored w' P' p d' /\ rescoped x sc p d d';
  ag_count : (size w'.(edges) <= size w.(edges))%nat;
}.

Lemma rescoped_trans x sc p d1 d2 d3 : rescoped x sc p d1 d2 -> rescoped x sc p d2 d3 -> rescoped x sc p d1 d3.
Proof. intros [->|(H1 & H2 & ->)] [->|(H3 & H4 & ->)]; [by left|by right..]. Qed.

Lemma rescoped_ttl x sc p d d' : rescoped x sc p d d' -> d'.(d_ttl) = d.(d_ttl).
Proof. by intros [->|(_ & _ & ->)]. Qed.

Lemma aged_refl x sc now w P L r : inv w P L r -> aged x sc now w P L r w P L.
Proof.
  intros I. split; try done; [by exists []; rewrite app_nil_r| |]; intros p d H; intros; by exists d; split; [|left].
Qed.

Lemma aged_trans x sc now w1 P1 L1 w2 P2 L2 w3 P3 L3 r : aged x sc now w1 P1 L1 r w2 P2 L2 -> aged x sc now w2 P2 L2 r w3 P3 L3 ->
  aged x sc now w1 P1 L1 r w3 P3 L3.
Proof.
  intros [A1 A2 A3 (D & A4 & A5) A6 A7 A8] [B1 B2 B3 (D' & B4 & B5) B6 B7 B8].
  split; [done|by eapply params_trans|congruence| | | |lia].
  - exists (D ++ D'). split; [by rewrite B4, A4, app_assoc|]. by rewrite <- app_assoc, B5.
  - intros p d3 (d2 & (d1 & H1 & R1)%A6 & R2)%B6. exists d1. split; [done|]. by eapply rescoped_trans.
  - intros p d1 H Ht. destruct (A7 p d1 H Ht) as (d2 & H2 & R2). destruct (B7 p d2 H2) as (d3 & H3 & R3).
    { by rewrite (rescoped_ttl _ _ _ _ _ R2). }
    exists d3. split; [done|]. by eapply rescoped_trans.
Qed.

(** An expired node is purged. *)
Lemma purged_aged x sc now w P L r a n w' P' L' : inv w P L r -> w.(nodes) !! a = Some n -> n.(n_ttl) < now ->
  purged sizefunc w P L r a n w' P' L' -> aged x sc now w P L r w' P' L'.
Proof.
  intros I Ha Ht G. destruct (purged_shrunk sizefunc w P L r a n w' P' L' I Ha G) as [S1 S2 S3 S4 S5 S6 S7]. split; try done.
  - intros p d' (b & Hb & Hp & Hd)%stored_data. exists d'. split; [|by left]. apply stored_data. exists b.
    split; [by apply S5|]. split; [by apply S6|done].
  - intros p d (b & Hb & Hp & Hd)%stored_data Hnow. exists d. split; [|by left]. apply stored_data. exists b.
    assert (b <> a) as Hne. { intros ->. rewrite lookup_fmap, Ha in Hb. injection Hb as <-. cbn in Hnow. lia. }
    by rewrite (pg_others _ _ _ _ _ _ _ _ _ _ G), (pg_prefix _ _ _ _ _ _ _ _ _ _ G) by done.
Qed.

Lemma elems_length (M : gmap addr (ndata E)) : (length (elems M) <= size M)%nat.
Proof.
  unfold elems, gather. rewrite <- length_map_to_list. induction (map_to_list M) as [|[a d] l IH]; [done|]. cbn.
  rewrite length_app. destruct (d_elem d); cbn; lia.
Qed.

Lemma purge_expired_ok x sc now fuel : forall w P L r b n q i, inv w P L r -> w.(nodes) !! b = Some n -> P !! b = Some q -> is_bit i ->
  (length (elems (data <$> w.(nodes))) < fuel)%nat ->
  exists w' P' L' n', purge_expired sizefunc fuel b i now w = Ok (edge_at i n', w') /\ aged x sc now w P L r w' P' L' /\
    w'.(nodes) !! b = Some n' /\ P' !! b = Some q.
Proof.
  induction fuel as [|fuel IH]; intros w P L r b n q i I Hb Hq Hi Hf; [lia|]. cbn [purge_expired].
  erewrite st_bind_ok by (by apply load_ok). destruct (edge_at i n) as [e|] eqn:He.
  2: { exists w, P, L, n. rewrite He. split; [done|]. split; [by apply aged_refl|done]. }
  destruct (child_at sizefunc w P L r b n q i e I Hb Hq Hi He) as (ed & c & nc & p & rest & Hed & Ei & Hc & K).
  pose proof K as [K1 K2 _ _ _ _ _ K8 _ K10 _ _ _].
  erewrite st_bind_ok by (unfold load_edge; rewrite Hed; reflexivity). rewrite K1. erewrite st_bind_ok by (by apply load_ok).
  destruct (bool_decide _ || _) eqn:Ex.
  { exists w, P, L, n. rewrite He. split; [done|]. split; [by apply aged_refl|done]. }
  apply orb_false_iff in Ex as [Hel%bool_decide_eq_false Hexp%Z.leb_gt].
  assert (q <> p) as Hqp by (rewrite K10; intros Hl%(f_equal length); rewrite length_app in Hl; cbn in Hl; lia).
  assert (b <> c) as Hbc by (intros ->; congruence).
  assert (c <> r) as Hcr.
  { intros ->. rewrite (root_prefix _ _ _ _ (i_shape _ _ _ _ _ I)) in K8. injection K8 as <-. by destruct q. }
  destruct (purge_ok sizefunc w P L r c nc I Hc Hcr) as (w1 & P1 & L1 & E1 & G). erewrite st_bind_ok by exact E1.
  pose proof (purged_aged x sc now w P L r c nc w1 P1 L1 I Hc Hexp G) as A1.
  assert (P1 !! b = Some q) as Hq1 by (by rewrite (pg_prefix _ _ _ _ _ _ _ _ _ _ G)).
  destruct (node_of _ _ _ _ _ _ _ (ag_inv _ _ _ _ _ _ _ _ _ _ A1) Hq1) as [n1 Hb1].
  destruct (IH w1 P1 L1 r b n1 q i (ag_inv _ _ _ _ _ _ _ _ _ _ A1) Hb1 Hq1 Hi) as (w2 & P2 & L2 & n2 & E2 & A2 & H2).
  - pose proof (Permutation_length (pg_elems _ _ _ _ _ _ _ _ _ _ G)) as Hl. rewrite length_app in Hl. unfold elem_list in Hl.
    destruct (elem nc); [|done]. cbn in Hl. lia.
  - exists w2, P2, L2, n2. split; [exact E2|]. split; [by eapply aged_trans|done].
Qed.

(** The scope of a node that is passed. *)
Lemma scope_aged x sc now w P L r b n q : inv w P L r -> w.(nodes) !! b = Some n -> P !! b = Some q -> q `prefix_of` x -> q <> x -> zlen q <= sc ->
  exists w', modify b (with_scope sc) w = Ok (tt, w') /\ aged x sc now w P L r w' P L /\ w'.(edges) = w.(edges) /\
    links <$> w'.(nodes) = links <$> w.(nodes).
Proof.
  intros I Hb Hq Hqx Hne Hsc. erewrite modify_node_ok by exact Hb. eexists. split; [reflexivity|].
  assert (data_ok q (data (with_scope sc n))) as Hd.
  { intros Hel. destruct (i_data _ _ _ _ _ I b n q Hb Hq Hel). split; done. }
  pose proof (inv_data sizefunc w P L r b n (with_scope sc n) q w.(tree).(size_bytes) w.(deleted) w.(memory) I Hb Hq
    eq_refl eq_refl eq_refl Hd ltac:(apply eqw64; cbn; lia)) as I'.
  assert (with_size w.(tree).(size_bytes) w.(tree) = w.(tree)) as Et by (by destruct w as [? ? [] ? ?]).
  rewrite Et in I'. fold (upd_nodes <[b := with_scope sc n]> w) in I'.
  split; [|split; [done|by apply (fmap_set links _ b n)]].
  assert (forall a d, (data <$> nodes w) !! a = Some d ->
    (data <$> <[b := with_scope sc n]> (nodes w)) !! a = Some (if decide (a = b) then mk_data d.(d_elem) d.(d_ttl) sc d.(d_only) else d)) as Hnew.
  { intros a d Ha. rewrite fmap_insert. destruct (decide (a = b)) as [->|]; [rewrite lookup_insert_eq|by rewrite lookup_insert_ne].
    rewrite lookup_fmap, Hb in Ha. by injection Ha as <-. }
  split; try done.
  - exists []. split; [by rewrite app_nil_r|]. cbn. pose proof (elems_set (nodes w) b n (with_scope sc n) Hb) as Hp.
    unfold elem_list in Hp. cbn in Hp. symmetry. by eapply app_inv_head_perm || by eapply Permutation_app_inv_l.
  - intros p d' (a & Ha & Hp & Hd')%stored_data. cbn in Ha. assert (exists d, (data <$> nodes w) !! a = Some d) as [d Hd0].
    { rewrite fmap_insert in Ha. destruct (decide (a = b)) as [->|]; [rewrite lookup_fmap, Hb; by eexists|rewrite lookup_insert_ne in Ha by done; by eexists]. }
    rewrite (Hnew a d Hd0) in Ha. injection Ha as <-. exists d. split.
    + apply stored_data. exists a. split; [done|]. split; [done|]. by destruct (decide (a = b)).
    + destruct (decide (a = b)) as [->|]; [right|by left]. rewrite Hq in Hp. by injection Hp as <-.
  - intros p d (a & Ha & Hp & Hel)%stored_data _. eexists. split.
    + apply stored_data. exists a. split; [by apply Hnew|]. split; [done|]. by destruct (decide (a = b)).
    + destruct (decide (a = b)) as [->|]; [right|by left]. rewrite Hq in Hp. by injection Hp as <-.
Qed.

(** ** The new entry *)

(** [x] has the entry [d0]; [kept] says whether entries that have not expired are all
    kept, which [lru_cleanup] does not promise. *)
Record entered x sc now d0 (kept : Prop) w P L r w' P' L' : Prop := {
  en_inv : inv w' P' L' r;
  en_params : same_params w w';
  en_mallocs : mallocs_ok w'.(memory);
  en_elems : exists D, w'.(deleted) = w.(deleted) ++ D /\
    D ++ elems (data <$> w'.(nodes)) ≡ₚ option_list d0.(d_elem) ++ elems (data <$> w.(nodes));
  en_sound : forall p d', stored w' P' p d' -> (p = x /\ d' = d0) \/ (p <> x /\ exists d, stored w P p d /\ rescoped x sc p d d');
  en_new : kept -> stored w' P' x d0;
  en_kept : kept -> forall p d, stored w P p d -> p <> x -> now <= d.(d_ttl) -> exists d', stored w' P' p d' /\ rescoped x sc p d d';
  en_count : (size w'.(edges) <= S (S (size w.(edges))))%nat;
}.

(** Only nodes and entries are removed afterwards. *)
Lemma entered_shrunk x sc now d0 w P L w1 P1 L1 w2 P2 L2 r (kept kept' : Prop) : entered x sc now d0 kept w P L r w1 P1 L1 -> shrunk sizefunc w1 P1 L1 r w2 P2 L2 ->
  (kept' -> kept /\ w2 = w1 /\ P2 = P1) -> entered x sc now d0 kept' w P L r w2 P2 L2.
Proof.
  intros [A1 A2 A3 (D & A4 & A5) A6 A7 A8 A9] [B1 B2 B3 (D' & B4 & B5) B6 B7 B8] Hk.
  split; [done|by eapply params_trans|congruence| | | | |lia].
  - exists (D ++ D'). split; [by rewrite B4, A4, app_assoc|]. by rewrite <- app_assoc, B5.
  - intros p d' (b & Hb & Hp & Hd)%stored_data. apply A6. apply stored_data. exists b. split; [by apply B6|]. split; [by apply B7|done].
  - intros (Hkk & -> & ->)%Hk. by apply A7.
  - intros (Hkk & -> & ->)%Hk. by apply A8.
Qed.

Lemma aged_entered x sc now d0 kept w P L w1 P1 L1 w2 P2 L2 r : aged x sc now w P L r w1 P1 L1 -> entered x sc now d0 kept w1 P1 L1 r w2 P2 L2 ->
  entered x sc now d0 kept w P L r w2 P2 L2.
Proof.
  intros [A1 A2 A3 (D & A4 & A5) A6 A7 A8] [B1 B2 B3 (D' & B4 & B5) B6 B7 B8 B9].
  split; [done|by eapply params_trans|done| | |done| |lia].
  - exists (D ++ D'). split; [by rewrite B4, A4, app_assoc|]. rewrite <- app_assoc, B5. rewrite !app_assoc.
    rewrite (Permutation_app_comm D), <- app_assoc. by rewrite A5.
  - intros p d' [?|(Hne & d & (d1 & H1 & R1)%A6 & R)]%B6; [by left|right]. split; [done|]. exists d1. split; [done|]. by eapply rescoped_trans.
  - intros Hk p d H Hne Ht. destruct (A7 p d H Ht) as (d1 & H1 & R1). destruct (B8 Hk p d1 H1 Hne) as (d2 & H2 & R2).
    { by rewrite (rescoped_ttl _ _ _ _ _ R1). }
    exists d2. split; [done|]. by eapply rescoped_trans.
Qed.

(** The entries after a new node. *)
Lemma more_stored w P L r a p0 d0 w' P' L' : one_more sizefunc w P L r a p0 d0 w' P' L' -> inv w P L r -> forall p d,
  stored w' P' p d <-> (p = p0 /\ d = d0 /\ is_Some d0.(d_elem)) \/ stored w P p d.
Proof.
  intros [O1 O2 O3 O4 O5 O6 O7 O8 O9] I p d. rewrite !stored_data, O6, O7. split.
  - intros (b & Hb & Hp & Hd). destruct (decide (b = a)) as [->|Hne].
    + rewrite lookup_insert_eq in Hb. rewrite lookup_insert_eq in Hp. injection Hb as <-. injection Hp as <-. by left.
    + rewrite lookup_insert_ne in Hb by done. rewrite lookup_insert_ne in Hp by done. right. by exists b.
  - intros [(-> & -> & Hd)|(b & Hb & Hp & Hd)]; [exists a; by rewrite !lookup_insert_eq|].
    exists b. assert (b <> a) by (intros ->; rewrite lookup_fmap, O5 in Hb; done). by rewrite !lookup_insert_ne by done.
Qed.

Lemma more_elems w P L r a p0 d0 w' P' L' : one_more sizefunc w P L r a p0 d0 w' P' L' ->
  elems (data <$> w'.(nodes)) ≡ₚ option_list d0.(d_elem) ++ elems (data <$> w.(nodes)).
Proof.
  intros O. rewrite (om_data _ _ _ _ _ _ _ _ _ _ _ O). apply (gather_fresh (fun d => option_list d.(d_elem))).
  by rewrite lookup_fmap, (om_fresh _ _ _ _ _ _ _ _ _ _ _ O).
Qed.

(** The new node has the new entry. *)
Lemma more_entered x sc now w P L r a d0 w' P' L' : one_more sizefunc w P L r a x d0 w' P' L' -> inv w P L r -> is_Some d0.(d_elem) ->
  entered x sc now d0 True w P L r w' P' L'.
Proof.
  intros O I Hd0. pose proof (more_stored _ _ _ _ _ _ _ _ _ _ O I) as Hs. pose proof (more_elems _ _ _ _ _ _ _ _ _ _ O) as He.
  assert (stored w' P' x d0) as Hx by (apply Hs; by left). assert (P !! a = None) as HPa.
  { eapply fresh_prefix; [by eapply inv_core|apply O]. }
  destruct O as [O1 O2 O3 O4 O5 O6 O7 O8 O9]. split; try done.
  - exists []. by rewrite app_nil_r.
  - intros p d' H. destruct (decide (p = x)) as [->|Hne].
    + left. split; [done|]. by apply (stored_unique w' P' L' r x).
    + right. split; [done|]. exists d'. split; [|by left]. apply Hs in H as [(? & _)|]; done.
  - intros _ p d H _ _. exists d. split; [|by left]. apply Hs. by right.
  - lia.
Qed.

(** A new node without an entry changes no entries. *)
Lemma two_more_entered x sc now w P L r a m d w' P' L' w2 P2 L2 d0 : one_more sizefunc w P L r a m d w' P' L' -> inv w P L r -> d.(d_elem) = None ->
  (forall b, one_more sizefunc w' P' L' r b x d0 w2 P2 L2 -> is_Some d0.(d_elem) -> entered x sc now d0 True w P L r w2 P2 L2).
Proof.
  intros O I Hd c O2 Hd0. pose proof (more_stored _ _ _ _ _ _ _ _ _ _ O I) as Hs. pose proof (more_elems _ _ _ _ _ _ _ _ _ _ O) as He.
  destruct (more_entered x sc now _ _ _ _ _ _ _ _ _ O2 (om_inv _ _ _ _ _ _ _ _ _ _ _ O) Hd0) as [B1 B2 B3 (D & B4 & B5) B6 B7 B8 B9].
  assert (forall p d1, stored w' P' p d1 <-> stored w P p d1) as Hs'.
  { intros p d1. rewrite Hs, Hd. split; [|by right]. intros [(_ & _ & [? ?])|]; done. }
  rewrite Hd in He. cbn in He. destruct O as [O1' O2' O3' O4' O5' O6' O7' O8' O9'], O2 as [_ _ _ _ _ _ _ _ Hc2].
  split; try done.
  - by eapply params_trans.
  - exists D. split; [by rewrite B4, O4'|]. by rewrite B5, He.
  - intros p d' [?|(Hne & d1 & ?%Hs' & R)]%B6; [by left|right]. split; [done|]. by exists d1.
  - intros Hk p d1 H%Hs' Hne Ht. by apply B8.
  - lia.
Qed.

(** Case 1: the node of [x] is there. *)
Lemma update_ok x sc now w P L r b n v ttl only : inv w P L r -> mallocs_ok w.(memory) -> w.(nodes) !! b = Some n -> P !! b = Some x ->
  zlen x <= sc -> (only = true -> x = []) ->
  exists w', (clean_node sizefunc b;; modify b (fun n => with_scope sc (with_elem (Some v) (with_only only (with_ttl ttl n))));;
      add_size (sizefunc v)) w = Ok (tt, w') /\
    entered x sc now (mk_data (Some v) ttl sc only) True w P L r w' P L /\ w'.(edges) = w.(edges).
Proof.
  intros I Hm Hb Hp Hsc Honly. destruct (clean_ok sizefunc w P L r b n I Hb) as (w1 & E1 & I1 & M1 & Ee & En & Em & Ed).
  assert (w1.(nodes) !! b = Some (cleaned n)) as Hb1 by (rewrite En; apply lookup_insert_eq).
  set (n' := with_scope sc (with_elem (Some v) (with_only only (with_ttl ttl (cleaned n))))).
  erewrite st_bind_ok by exact E1. erewrite st_bind_ok by (apply modify_node_ok; exact Hb1). fold n'.
  eexists. split; [reflexivity|]. split; [|done].
  set (s := u64 (w1.(tree).(size_bytes) + sizefunc v)).
  pose proof (inv_data sizefunc w1 P L r b (cleaned n) n' x s w1.(deleted) w1.(memory) I1 Hb1 Hp) as I'.
  assert (nodes (upd_nodes <[b := n']> w1) = <[b := n']> w.(nodes)) as En' by (cbn; by rewrite En, insert_insert_eq).
  set (w' := upd_tree _ _).
  assert (inv w' P L r) as I2.
  { apply I'; [done..|intros _; cbn; split; [lia|done]|].
    unfold s. rewrite wrap_eqw. apply eqw64. rewrite (cleaned_elem n). cbn. lia. }
  assert (forall c, (data <$> w'.(nodes)) !! c = if decide (c = b) then Some (mk_data (Some v) ttl sc only) else (data <$> w.(nodes)) !! c) as Hd.
  { intros c. cbn. rewrite En, insert_insert_eq, fmap_insert. destruct (decide (c = b)) as [->|]; [by rewrite lookup_insert_eq|by rewrite lookup_insert_ne]. }
  split; try done.
  - by destruct M1.
  - change (mallocs_ok w1.(memory)). by rewrite Em.
  - exists (elem_list n). cbn. split; [done|]. rewrite En, insert_insert_eq. symmetry. apply (elems_set (nodes w) b n n' Hb).
  - intros p d' (c & Hc & Hpc & Hel)%stored_data. rewrite Hd in Hc. destruct (decide (c = b)) as [->|Hne].
    + left. rewrite Hp in Hpc. injection Hpc as <-. by injection Hc as <-.
    + right. split; [intros ->; apply Hne; by apply (unique _ _ _ _ (i_shape _ _ _ _ _ I) c b x)|].
      exists d'. split; [|by left]. apply stored_data. by exists c.
  - intros _. apply stored_data. exists b. by rewrite Hd, decide_True.
  - intros _ p d (c & Hc & Hpc & Hel)%stored_data Hne Ht. exists d. split; [|by left]. apply stored_data. exists c.
    rewrite Hd, decide_False; [done|]. intros ->. congruence.
  - cbn. rewrite Ee. lia.
Qed.

(** Fewer nodes than the maximum, or no new ones. *)
Definition count_ok w w' : Prop := w.(tree).(max_node_count) <> 0 ->
  w'.(tree).(node_count) <= w.(tree).(max_node_count) \/ (size w'.(edges) <= size w.(edges))%nat.

(** [lru_cleanup] after the new entry. *)
Lemma entered_cleanup x sc now d0 w P L r w1 P1 L1 : entered x sc now d0 True w P L r w1 P1 L1 -> 0 <= w.(tree).(max_node_count) ->
  exists w' P' L', lru_cleanup sizefunc w1 = Ok (tt, w') /\ entered x sc now d0 (w.(tree).(max_node_count) = 0) w P L r w' P' L' /\ count_ok w w'.
Proof.
  intros En Hmax. pose proof (m_max _ _ (en_params _ _ _ _ _ _ _ _ _ _ _ _ En)) as Em.
  destruct (lru_cleanup_ok sizefunc w1 P1 L1 r (en_inv _ _ _ _ _ _ _ _ _ _ _ _ En)) as (w' & P' & L' & E1 & S1 & H0 & H1); [by rewrite Em|].
  exists w', P', L'. split; [done|]. split.
  - eapply entered_shrunk; [exact En|exact S1|]. intros Hz. split; [done|]. rewrite Em in H0. by destruct (H0 Hz) as (-> & -> & _).
  - intros Hz. left. rewrite Em in H1. by apply H1.
Qed.

Lemma aged_count_ok x sc now w P L r w1 P1 L1 w2 : aged x sc now w P L r w1 P1 L1 -> count_ok w1 w2 -> count_ok w w2.
Proof.
  intros A H Hm. pose proof (m_max _ _ (ag_params _ _ _ _ _ _ _ _ _ _ A)) as Em. rewrite <- Em in Hm. destruct (H Hm) as [H1|H1].
  - left. by rewrite <- Em.
  - right. pose proof (ag_count _ _ _ _ _ _ _ _ _ _ A). lia.
Qed.

(** Case 4: the edge to [c] is split. *)
Lemma split_entered x sc now w P L r b nb e ed c lc p q m rest addr_ sm v ttl only : inv w P L r -> mallocs_ok w.(memory) ->
  w.(nodes) !! b = Some nb -> w.(edges) !! e = Some ed -> edge_ok (links <$> w.(nodes)) P e ed c b lc (links nb) p q rest ->
  prefix_bits addr_ sm x -> meet p x m -> q `prefix_of` m -> m <> q -> m <> p -> sm <= sc -> sm <= 255 -> only = false ->
  0 <= w.(tree).(max_node_count) ->
  exists w' P' L', split_edge sizefunc b ed.(parent_index) e (zlen m) addr_ sm sc v ttl only w = Ok (tt, w') /\
    entered x sc now (mk_data (Some v) ttl sc only) (w.(tree).(max_node_count) = 0) w P L r w' P' L' /\ count_ok w w'.
Proof.
  intros I Hm Hb He K Hx Hmeet Hqm Hnq Hnp Hsc Hmax -> Hmx. pose proof K as [_ _ K3 _ _ _ _ K8 _ K10 K11 K12 K13].
  destruct Hmeet as (Hmp & Hmx' & Hcase). set (d0 := mk_data (Some v) ttl sc false).
  assert (exists r1, m = q ++ ed.(parent_index) :: r1) as [r1 Em].
  { destruct Hqm as [k ->]. destruct k as [|z k]; [by rewrite app_nil_r in Hnq|]. destruct Hmp as [k' Hp]. rewrite K10, <- app_assoc in Hp.
    apply app_inv_head in Hp. injection Hp as -> _. by exists k. }
  assert (prefix_bits (str ed) (zlen p) p) as Hpb by (split; [by rewrite <- K11|done]).
  assert (exists j r2, p = m ++ j :: r2 /\ (m = x \/ exists r3, x = m ++ Z.lxor j 1 :: r3)) as (j & r2 & Ep & Hx').
  { destruct Hcase as [|[->|(i & j & r2 & r3 & Hij & Ep & Ex)]]; [done| |].
    - destruct Hmp as [k ->]. destruct k as [|j k]; [by rewrite app_nil_r in Hnp|]. exists j, k. by split; [|left].
    - exists i, r2. split; [done|]. right. exists r3. rewrite Ex. do 2 f_equal. apply two_bits.
      + eapply (prefix_bits_elem _ _ _ _ Hx). rewrite Ex. apply elem_of_app. right. by left.
      + eapply (prefix_bits_elem _ _ _ _ Hpb). rewrite Ep. apply elem_of_app. right. by left.
      + done. }
  assert (is_bit j) as Hj by (eapply (prefix_bits_elem _ _ _ _ Hpb); rewrite Ep; apply elem_of_app; right; by left).
  pose proof (prefix_bits_prefix _ _ _ _ Hx Hmx') as Hxm.
  assert (zlen m <= sm) as Hms by (apply prefix_length in Hmx'; rewrite (proj2 Hx); unfold zlen; lia).
  destruct (split_ok sizefunc w P L r b nb e ed c lc p q m j rest r1 r2 addr_ sm sc v ttl false I Hm Hb He K Em Ep Hj Hxm Hms Hsc Hmax eq_refl)
    as (a & w1 & -> & O & na & Hna & Hsl).
  pose proof O as [I1 M1 Hm1 _ _ _ _ _ _]. unfold split_rest. destruct (Z.eqb_spec (zlen m) sm) as [Eq|Eq]; cbn [negb].
  - assert (m = x) as ->.
    { destruct Hx' as [|[r3 Ex]]; [done|]. rewrite (proj2 Hx), Ex, zlen_app, zlen_cons in Eq. pose proof (zlen_nonneg r3). lia. }
    eapply entered_cleanup; [|done]. eapply more_entered; [exact O|done|done].
  - destruct Hx' as [->|[r3 Ex]]; [by rewrite (proj2 Hx) in Eq|].
    destruct (leaf_ok sizefunc w1 _ _ r a na m (Z.lxor j 1) addr_ sm x r3 v sc ttl I1 Hm1 Hna) as (a2 & w2 & w3 & E2 & E3 & O3); try done.
    + apply lookup_insert_eq.
    + by apply other_bit.
    + erewrite st_bind_ok by exact E2. erewrite st_bind_ok by exact E3. cbv beta iota.
      eapply entered_cleanup; [|done]. eapply two_more_entered; [exact O|done|done|exact O3|done].
Qed.

(** ** The loop *)

(** The longest common prefix with a child in the way, when the loop does not go on to it. *)
Lemma meet_between p x q m i j rest s : p = q ++ i :: rest -> x = q ++ j :: s -> i = j -> meet p x m -> q `prefix_of` m -> m <> q.
Proof.
  intros -> -> <- (_ & _ & Hc) _ ->. destruct Hc as [H|[H|(i' & j' & r1 & r2 & Hne & H1 & H2)]].
  - apply (f_equal length) in H. rewrite length_app in H. cbn in H. lia.
  - apply (f_equal length) in H. rewrite length_app in H. cbn in H. lia.
  - apply app_inv_head in H1. apply app_inv_head in H2. congruence.
Qed.

Lemma insert_loop_ok x sc now v ttl only addr_ sm fuel : prefix_bits addr_ sm x -> sm <= sc -> sm <= 255 -> (only = true -> x = []) ->
  forall w P L r b n q, inv w P L r -> mallocs_ok w.(memory) -> 0 <= w.(tree).(max_node_count) ->
  w.(nodes) !! b = Some n -> P !! b = Some q -> q `prefix_of` x -> (Z.to_nat (sm - zlen q) < fuel)%nat ->
  exists w' P' L', insert_loop sizefunc fuel b (zlen q) addr_ sm sc v ttl now only w = Ok (tt, w') /\
    entered x sc now (mk_data (Some v) ttl sc only) (w.(tree).(max_node_count) = 0) w P L r w' P' L' /\ count_ok w w'.
Proof.
  intros Hx Hsc Hmax Honly. pose proof (prefix_bits_len _ _ _ Hx) as Hlen. pose proof (proj2 Hx) as Esm.
  induction fuel as [|fuel IH]; intros w P L r b n q I Hm Hmx Hb Hq Hqx Hf; [lia|]. cbn [insert_loop].
  pose proof (prefix_length _ _ Hqx) as Hql. pose proof (zlen_nonneg q) as Hq0.
  rewrite leb_true by (unfold zlen in *; lia). erewrite st_bind_ok by reflexivity.
  destruct (Z.eqb_spec (zlen q) sm) as [Eq|Eq].
  { assert (q = x) as -> by (apply prefix_length_eq; [done|]; unfold zlen in *; lia).
    destruct (update_ok x sc now w P L r b n v ttl only I Hm Hb Hq) as (w' & E1 & En & Ee); [lia|done|].
    exists w', P, L. split; [exact E1|]. split; [|intros _; right; by rewrite Ee].
    eapply entered_shrunk; [exact En|by apply shrunk_refl, (en_inv _ _ _ _ _ _ _ _ _ _ _ _ En)|done]. }
  destruct (getbit_ok addr_ sm (zlen q)) as (i & Ei & Hi & Hxi); [unfold zlen in *; lia|done|].
  unfold lift at 1. rewrite Ei. erewrite st_bind_ok by reflexivity.
  assert (x !! length q = Some i) as Hxq.
  { pose proof (prefix_bits_lookup _ _ _ (zlen q) Hx) as Hl. rewrite to_nat_zlen in *. rewrite Hl by (unfold zlen in *; lia). done. }
  assert (exists s, x = q ++ i :: s) as [s Ex].
  { destruct Hqx as [k ->]. rewrite lookup_app_r, Nat.sub_diag in Hxq by lia. destruct k as [|z k]; [done|]. injection Hxq as ->. by exists k. }
  assert (only = false) as Hof by (destruct only; [|done]; specialize (Honly eq_refl); subst x; by destruct q).
  destruct (purge_expired_ok x sc now (purge_fuel w) w P L r b n q i I Hb Hq Hi) as (w1 & P1 & L1 & n1 & E1 & A1 & Hb1 & Hq1).
  { unfold purge_fuel. pose proof (elems_length (data <$> nodes w)). rewrite map_size_fmap in H. lia. }
  erewrite st_bind_ok by (unfold with_fuel; exact E1). pose proof A1 as [I1 M1 Hm1 _ _ _ _]. rewrite <- Hm1 in Hm.
  pose proof (m_max _ _ M1) as Emx. destruct (edge_at i n1) as [e|] eqn:He.
  2: { destruct (leaf_ok sizefunc w1 P1 L1 r b n1 q i addr_ sm x s v sc ttl I1 Hm Hb1 Hq1 Hi He Hx Ex) as (a & w2 & w3 & E2 & E3 & O); [lia..|].
       erewrite st_bind_ok by exact E2. cbv beta iota. erewrite st_bind_ok by exact E3. cbv beta iota. rewrite Hof.
       destruct (entered_cleanup x sc now (mk_data (Some v) ttl sc false) w1 P1 L1 r w3 (<[a := x]> P1) (L1 ++ [a])) as (w4 & P4 & L4 & E4 & En & Hc);
         [eapply more_entered; [exact O|done|done]|by rewrite Emx|].
       exists w4, P4, L4. split; [exact E4|]. split; [|by eapply aged_count_ok]. rewrite Emx in En. by eapply aged_entered. }
  destruct (child_at sizefunc w1 P1 L1 r b n1 q i e I1 Hb1 Hq1 Hi He) as (ed & c & nc & p & rest & Hed & Epi & Hc & K).
  pose proof K as [K1 _ _ _ _ _ _ K8 _ K10 K11 K12 K13]. rewrite Epi in K10.
  erewrite st_bind_ok by (unfold load_edge; rewrite Hed; reflexivity).
  assert (prefix_bits (str ed) (zlen p) p) as Hpb by (split; [by rewrite <- K11|done]).
  assert (zlen q < zlen p) as Hqp by (rewrite K10, zlen_app, zlen_cons; pose proof (zlen_nonneg rest); lia).
  destruct (bits_common_ok (str ed) (zlen p) addr_ sm p x q Hpb Hx) as (m & Em & Hmeet & Hqm); [rewrite K10; by eexists|done|done|unfold zlen in *; lia|].
  rewrite K11, Em. erewrite st_bind_ok by reflexivity. rewrite (meet_full p x m Hmeet).
  case_bool_decide as Hpx.
  - destruct (scope_aged x sc now w1 P1 L1 r b n1 q I1 Hb1 Hq1 Hqx) as (w2 & E2 & A2 & Ee2 & El2); [intros ->; unfold zlen in *; lia|unfold zlen in *; lia|].
    erewrite st_bind_ok by exact E2. rewrite K1. pose proof A2 as [I2 M2 Hm2 _ _ _ _]. pose proof (m_max _ _ M2) as Emx2.
    destruct (node_of _ _ _ _ _ _ _ I2 K8) as [nc2 Hc2]. rewrite <- Hm2 in Hm.
    destruct (IH w2 P1 L1 r c nc2 p I2 Hm) as (w3 & P3 & L3 & E3 & En & Hcnt); [by rewrite Emx2, Emx|done|done|done|unfold zlen in *; lia|].
    exists w3, P3, L3. split; [exact E3|]. pose proof (aged_trans _ _ _ _ _ _ _ _ _ _ _ _ _ A1 A2) as A. split; [|by eapply aged_count_ok].
    rewrite Emx2, Emx in En. by eapply aged_entered.
  - rewrite <- Epi. destruct (split_entered x sc now w1 P1 L1 r b n1 e ed c (links nc) p q m rest addr_ sm v ttl only I1 Hm Hb1 Hed) as (w2 & P2 & L2 & E2 & En & Hcnt);
      [done..| | |done|done|done|by rewrite Emx|].
    + by eapply (meet_between p x q m i i rest s).
    + intros ->. apply Hpx, Hmeet.
    + exists w2, P2, L2. split; [exact E2|]. split; [|by eapply aged_count_ok]. rewrite Emx in En. by eapply aged_entered.
Qed.
End Store.
