(* ===== verification/SubnetDelete.v ===== *)
(** * The radix tree of subnets: creation and deletion *)

From S2P Require Import Prelude Bits Subnet SubnetTree SubnetLru SubnetOps SubnetClean SubnetFind SubnetInsert.

Section Delete.
Context {E : Type} (sizefunc : E -> Z).
Implicit Types (w : world E) (n : addrnode E) (a b c r : addr) (L : list addr) (P : gmap addr (list Z)).
Abbreviation inv := (inv sizefunc).
Abbreviation sizes l := (zsum (sizefunc <$> l)).

(** The new tree: a root without data. *)
Lemma create_ok depth mx m : mallocs_ok m -> exists r w, addrtree_create (E := E) depth mx m = Ok (Some w, w.(memory)) /\
  inv w {[ r := [] ]} [] r /\ mallocs_ok w.(memory) /\ w.(tree).(max_node_count) = mx /\ w.(tree).(max_depth) = depth /\
  w.(deleted) = [] /\ w.(edges) = ∅ /\ w.(nodes) = {[ r := blank None 0 0 ]}.
Proof.
  intros Hm. unfold addrtree_create. destruct (malloc m) as [ok m1] eqn:Em. destruct (malloc_ok _ _ _ Em Hm) as [-> Hm1]. cbn [negb].
  set (w0 := mk_world ∅ ∅ _ [] m1). destruct (node_create_ok w0 (None : option E) 0 0 Hm1) as (r & m2 & _ & Hm2 & E1).
  rewrite E1, bind_Ok. cbn [nodes edges deleted w0]. rewrite insert_empty.
  exists r, (mk_world {[ r := blank None 0 0 ]} ∅ (mk_addrtree (Some r) 0 mx (sizeof_addrtree + sizeof_addrnode) depth None None) [] m2).
  split; [done|]. split; [|done]. split; cbn; try done.
  - split.
    + intros a. rewrite lookup_fmap, !lookup_singleton. case_decide; cbn; rewrite ?is_Some_alt; by split.
    + exists (mk_links None None None). by rewrite lookup_fmap, !lookup_singleton_eq.
    + done.
    + intros b l i e Hb _ Hs. rewrite lookup_fmap, fmap_Some in Hb. destruct Hb as (n & [<- <-]%lookup_singleton_Some & ->).
      unfold slot in Hs. by destruct (i =? 0).
    + intros a l Ha. rewrite lookup_fmap, fmap_Some in Ha. by destruct Ha as (n & [<- _]%lookup_singleton_Some & _).
  - split; cbn; try done. by apply NoDup_nil.
  - intros a. rewrite lookup_singleton. split; [by intros ?%elem_of_nil|]. intros [Ha Hne]. rewrite decide_False in Ha by congruence. by destruct Ha.
  - intros a n p [<- <-]%lookup_singleton_Some _. by intros [? ?].
  - unfold edge_sizes, elems, gather. by rewrite map_to_list_empty, map_fmap_singleton, map_to_list_singleton.
Qed.

(** What is left when [addrtree_delete] has the nodes of [L] still to free. *)
Record doomed w L : Prop := {
  do_nodup : NoDup L;
  do_dom : forall a, a ∈ L <-> is_Some (w.(nodes) !! a);
  do_first : w.(tree).(lru_first) = head L;
  do_seg : exists p, seg w.(nodes) p L None;
  do_up : forall a n, w.(nodes) !! a = Some n -> exists e ed, n.(parent_edge) = Some e /\ w.(edges) !! e = Some ed /\ ed.(e_node) = Some a;
  do_edge : forall e ed, w.(edges) !! e = Some ed -> exists a n, w.(nodes) !! a = Some n /\ n.(parent_edge) = Some e;
  do_size : w.(tree).(size_bytes) = u64 (sizeof_addrtree + edge_sizes w.(edges) + sizes (elems (data <$> w.(nodes))));
}.

Lemma doomed_step w a L n e ed : doomed w (a :: L) -> w.(nodes) !! a = Some n -> n.(parent_edge) = Some e -> w.(edges) !! e = Some ed ->
  ed.(e_node) = Some a -> forall x y,
  doomed (mk_world (delete a w.(nodes)) (delete e w.(edges))
    (with_size (u64 (w.(tree).(size_bytes) - elem_size sizefunc n.(elem) - edge_size ed)) (with_lru n.(n_next) x w.(tree)))
    y w.(memory)) L.
Proof.
  intros [D1 D2 D3 (p0 & Hseg) D5 D6 D7] Ha He Hed Hnode x y. apply NoDup_cons in D1 as [HaL Hnd].
  destruct Hseg as (n' & Hn' & _ & Hnx & Hseg). rewrite Ha in Hn'. injection Hn' as <-.
  split; cbn; try done.
  - intros b. destruct (decide (b = a)) as [->|Hne]; [rewrite lookup_delete_eq; split; [done|by intros []]|].
    rewrite lookup_delete_ne by done. rewrite <- D2, elem_of_cons. tauto.
  - exists (Some a). eapply seg_frame; [|exact Hseg]. intros b Hb. rewrite lookup_delete_ne; [done|]. by intros ->.
  - intros b nb [Hne Hb]%lookup_delete_Some. destruct (D5 b nb Hb) as (e' & ed' & H1 & H2 & H3). exists e', ed'.
    rewrite lookup_delete_ne by congruence. done.
  - intros e' ed' [Hne He']%lookup_delete_Some. destruct (D6 e' ed' He') as (b & nb & Hb & Hp). exists b, nb.
    rewrite lookup_delete_ne by congruence. done.
  - rewrite D7. apply eqw_wrap. rewrite wrap_eqw, (delete_sizes _ e ed Hed).
    assert (elems (data <$> nodes w) ≡ₚ elem_list n ++ elems (data <$> delete a (nodes w))) as Hp.
    { rewrite fmap_delete. apply (gather_take (fun d => option_list d.(d_elem)) (data <$> nodes w) a (data n)). by rewrite lookup_fmap, Ha. }
    rewrite (sizes_perm sizefunc _ _ Hp), sizes_app. apply eqw64. unfold elem_list. destruct (elem n); cbn; lia.
Qed.

Lemma clean_doomed a w n : w.(nodes) !! a = Some n -> clean_node sizefunc a w = Ok (tt,
  mk_world (<[a := cleaned n]> w.(nodes)) w.(edges)
    (with_size (match n.(elem) with Some v => u64 (w.(tree).(size_bytes) - sizefunc v) | None => w.(tree).(size_bytes) end) w.(tree))
    (w.(deleted) ++ elem_list n) w.(memory)).
Proof.
  intros Ha. unfold clean_node, cleaned, elem_list. erewrite st_bind_ok by (by apply load_ok). destruct (elem n) as [v|].
  - erewrite st_bind_ok by reflexivity. erewrite st_bind_ok by reflexivity. by erewrite modify_node_ok by exact Ha.
  - rewrite insert_id, app_nil_r by done. by destruct w as [? ? [] ? ?].
Qed.

Lemma delete_loop_ok L : forall w fuel, doomed w L -> (length L <= fuel)%nat ->
  exists w', delete_loop sizefunc fuel w = Ok (tt, w') /\ w'.(nodes) = ∅ /\ w'.(edges) = ∅ /\
    w'.(deleted) ≡ₚ w.(deleted) ++ elems (data <$> w.(nodes)) /\ w'.(tree).(size_bytes) = sizeof_addrtree /\ w'.(memory) = w.(memory).
Proof.
  induction L as [|a L IH]; intros w fuel D Hf.
  - assert (nodes w = ∅) as En.
    { apply map_empty. intros a. destruct (nodes w !! a) eqn:Ha; [|done]. assert (a ∈ []) as Hin by (apply (do_dom _ _ D); by eexists). by apply elem_of_nil in Hin. }
    assert (edges w = ∅) as Ee.
    { apply map_empty. intros e. destruct (edges w !! e) as [ed|] eqn:He; [|done]. destruct (do_edge _ _ D e ed He) as (a & n & Ha & _). by rewrite En in Ha. }
    exists w. pose proof (do_size _ _ D) as Hs. rewrite En, Ee in Hs |- *. rewrite fmap_empty in Hs |- *.
    split; [|rewrite app_nil_r; done]. pose proof (do_first _ _ D) as Hfst. cbn in Hfst.
    destruct fuel; cbn; (erewrite st_bind_ok by reflexivity); by rewrite Hfst.
  - destruct fuel as [|fuel]; [cbn in Hf; lia|]. assert (is_Some (nodes w !! a)) as [n Ha] by (apply (do_dom _ _ D); by left).
    destruct (do_up _ _ D a n Ha) as (e & ed & He & Hed & Hnd). cbn [delete_loop].
    erewrite st_bind_ok by reflexivity. rewrite (do_first _ _ D). cbn [head]. erewrite st_bind_ok by (by apply load_ok).
    erewrite st_bind_ok by reflexivity. set (w1 := upd_tree _ w). erewrite st_bind_ok by (by apply (clean_doomed a w1 n)).
    set (w2 := mk_world _ _ _ _ _). assert (w2.(nodes) !! a = Some (cleaned n)) as Ha2 by apply lookup_insert_eq.
    assert (w2.(edges) !! e = Some ed) as He2 by exact Hed. pose proof (cleaned_links n) as Hl. injection Hl as _ _ Hpe. rewrite He in Hpe.
    assert (node_size sizefunc a w2 = Ok (u64 (edge_size ed), w2)) as E2.
    { unfold node_size. erewrite st_bind_ok by (by apply load_ok). rewrite Hpe. erewrite st_bind_ok by (unfold load_edge; rewrite He2; reflexivity).
      rewrite cleaned_elem. unfold edge_size, elem_size. by rewrite Z.add_0_r. }
    erewrite st_bind_ok by exact E2. erewrite st_bind_ok by reflexivity. erewrite st_bind_ok by (by apply load_ok). rewrite Hpe.
    erewrite st_bind_ok by (unfold free_edge; cbn [edges upd_tree]; rewrite He2; reflexivity).
    erewrite st_bind_ok by (unfold free_node; cbn [nodes upd_tree upd_edges]; rewrite Ha2; reflexivity).
    set (w3 := upd_nodes _ _). pose proof (doomed_step w a L n e ed D Ha He Hed Hnd w.(tree).(lru_last) (w.(deleted) ++ elem_list n)) as D3.
    assert (w3 = mk_world (delete a w.(nodes)) (delete e w.(edges))
      (with_size (u64 (w.(tree).(size_bytes) - elem_size sizefunc n.(elem) - edge_size ed)) (with_lru n.(n_next) w.(tree).(lru_last) w.(tree)))
      (w.(deleted) ++ elem_list n) w.(memory)) as E3.
    { unfold w3, upd_nodes, upd_edges, upd_tree. cbn. rewrite delete_insert_eq. f_equal. unfold with_size. cbn. f_equal. apply eqw_wrap.
      destruct (elem n); cbn; rewrite ?wrap_eqw; apply eqw64; lia. }
    rewrite <- E3 in D3. destruct (IH w3 fuel D3) as (w4 & E4 & H1 & H2 & H3 & H4 & H5); [cbn in Hf; lia|].
    exists w4. split; [exact E4|]. do 2 (split; [done|]). split; [|split; [done|by rewrite H5, E3]]. rewrite H3, E3. cbn.
    rewrite <- app_assoc. f_equiv. rewrite fmap_delete. symmetry. apply (gather_take (fun d => option_list d.(d_elem)) (data <$> nodes w) a (data n)).
    by rewrite lookup_fmap, Ha.
Qed.

(** [addrtree_delete]: everything is freed, every element deleted, and the size adds up. *)
Lemma delete_ok w P L r : inv w P L r -> exists w', addrtree_delete sizefunc w = Ok (tt, w') /\ w'.(nodes) = ∅ /\ w'.(edges) = ∅ /\
  w'.(deleted) ≡ₚ w.(deleted) ++ elems (data <$> w.(nodes)).
Proof.
  intros I. pose proof (i_shape _ _ _ _ _ I) as Hs. pose proof (root_prefix _ _ _ _ Hs) as Hr.
  destruct (node_of _ _ _ _ _ _ _ I Hr) as [n Hn]. destruct (clean_ok sizefunc w P L r r n I Hn) as (w1 & E1 & I1 & M1 & Ee & En & Em & Ed).
  pose proof (i_shape _ _ _ _ _ I1) as Hs1. assert (w1.(nodes) !! r = Some (cleaned n)) as Hr1 by (rewrite En; apply lookup_insert_eq).
  unfold addrtree_delete. rewrite (i_root _ _ _ _ _ I). erewrite st_bind_ok by exact E1.
  erewrite st_bind_ok by (unfold free_node; rewrite Hr1; reflexivity). erewrite st_bind_ok by reflexivity. set (w2 := upd_tree _ _).
  assert (doomed w2 L) as D.
  { destruct I1 as [A1 A2 [U1 U2 U3 U4] A4 A5 A6 A7]. split; cbn; try done.
    - intros a. rewrite A4. destruct (decide (a = r)) as [->|Hne]; [rewrite lookup_delete_eq; split; [by intros []|by intros []]|].
      rewrite lookup_delete_ne by done. rewrite <- (s_dom _ _ _ _ Hs1 a), lookup_fmap. rewrite fmap_is_Some. tauto.
    - exists None. eapply seg_frame; [|exact U4]. intros a Ha. rewrite lookup_delete_ne; [done|]. intros <-. by apply A4 in Ha as [_ ?].
    - intros a na [Hne Ha]%lookup_delete_Some. destruct (s_up _ _ _ _ Hs1 a (links na)) as (e & ed & H1 & H2 & H3); [by rewrite lookup_fmap, Ha|done|]. by exists e, ed.
    - intros e ed He. destruct (s_edge _ _ _ _ Hs1 e ed He) as (a & b & la & lb & p & q & rest & K).
      pose proof (k_a _ _ _ _ _ _ _ _ _ _ _ K) as Ha. rewrite lookup_fmap, fmap_Some in Ha. destruct Ha as (na & Ha & ->).
      exists a, na. rewrite lookup_delete_ne; [split; [done|apply K]|]. intros <-.
      pose proof (k_up _ _ _ _ _ _ _ _ _ _ _ K) as Hup. destruct (s_root _ _ _ _ Hs1) as (l & Hl & Hlp & _). rewrite lookup_fmap, Ha in Hl.
      injection Hl as <-. congruence.
    - apply eqw_wrap. rewrite A6. assert (elems (data <$> delete r (nodes w1)) ≡ₚ elems (data <$> nodes w1)) as Hp.
      { rewrite fmap_delete. unfold elems. rewrite (gather_take _ (data <$> nodes w1) r (data (cleaned n))) by (by rewrite lookup_fmap, Hr1).
        cbn. by rewrite cleaned_elem. }
      rewrite (sizes_perm sizefunc _ _ Hp). apply eqw64. lia. }
  destruct (delete_loop_ok L w2 (size w.(nodes)) D) as (w3 & E3 & H1 & H2 & H3 & H4 & _).
  { pose proof (list_size sizefunc w P L r I). lia. }
  erewrite st_bind_ok by exact E3. erewrite st_bind_ok by reflexivity. cbn [addrtree_size]. rewrite H4, Z.eqb_refl.
  exists w3. do 3 (split; [done|]). rewrite H3. cbn. rewrite Ed, <- app_assoc. f_equiv. rewrite fmap_delete. symmetry.
  rewrite En, fmap_insert, delete_insert_eq.
  apply (gather_take (fun d => option_list d.(d_elem)) (data <$> nodes w) r (data n)). by rewrite lookup_fmap, Hn.
Qed.
End Delete.
