(* ===== verification/SubnetApi.v ===== *)
(** * The radix tree of subnets: what its operations promise

    The entries of a tree, read off its nodes: what [addrtree_insert] changes of them,
    which one [addrtree_find] answers with, and runs from [addrtree_create] to
    [addrtree_delete].  At the end, runs in which the code does less than its
    comments say. *)

From S2P Require Import Prelude Bits Subnet SubnetTree SubnetLru SubnetOps SubnetClean SubnetFind SubnetInsert SubnetStore SubnetDelete.

(** ** Definitions *)

Section Spec.
Context {E : Type} (sizefunc : E -> Z).
Implicit Types (w : world E) (n : addrnode E) (p x : list Z) (d : ndata E).

(** The prefix of a node, from the edge above it. *)
Definition node_prefix w n : list Z :=
  match n.(parent_edge) with
  | None => []
  | Some e => match w.(edges) !! e with Some ed => ztake ed.(len) (bits ed.(str)) | None => [] end
  end.

(** The tree has the data [d], with an element, for the prefix [p]. *)
Definition entry w p d : Prop := exists a n, w.(nodes) !! a = Some n /\ node_prefix w n = p /\ data n = d /\ is_Some d.(d_elem).

Definition live w : list E := elems (data <$> w.(nodes)).

Definition valid w : Prop := exists P L r, inv sizefunc w P L r.

(** The caps of [addrtree_insert]. *)
Definition capped_scope w sc : Z := Z.min w.(tree).(max_depth) sc.
Definition capped_mask w sourcemask sc : Z := Z.min (capped_scope w sc) sourcemask.

Inductive op :=
  | Insert (addr_ : list Z) (sourcemask sc : Z) (v : E) (ttl now : Z) (only : bool)
  | Find (addr_ : list Z) (sourcemask now : Z).

(** What the callers see to: enough bytes of address, and [only_match_scope_zero] for queries of no bits only. *)
Definition op_ok (o : op) : Prop :=
  match o with
  | Insert addr_ sourcemask sc _ _ _ only => 0 <= sourcemask <= 255 /\ 0 <= sc /\ sourcemask <= 8 * zlen addr_ /\ (only = true -> sourcemask = 0)
  | Find addr_ sourcemask _ => 0 <= sourcemask <= 255 /\ sourcemask <= 8 * zlen addr_
  end.

Definition step (o : op) : ST (world E) unit :=
  match o with
  | Insert addr_ sourcemask sc v ttl now only => addrtree_insert sizefunc addr_ sourcemask sc v ttl now only
  | Find addr_ sourcemask now => _ ← addrtree_find addr_ sourcemask now; mret tt
  end.

Fixpoint run (ops : list op) : ST (world E) unit :=
  match ops with [] => mret tt | o :: ops' => step o;; run ops' end.

Fixpoint given (ops : list op) : list E :=
  match ops with
  | [] => []
  | Insert _ _ _ v _ _ _ :: ops' => v :: given ops'
  | Find _ _ _ :: ops' => given ops'
  end.

(** ** Lemmas *)

Lemma node_prefix_ok w P L r a n : inv sizefunc w P L r -> w.(nodes) !! a = Some n -> P !! a = Some (node_prefix w n).
Proof.
  intros I Ha. destruct (prefix_at _ _ _ _ _ _ _ I Ha) as [p Hp]. rewrite Hp. f_equal. pose proof (i_shape _ _ _ _ _ I) as Hs.
  unfold node_prefix. destruct (decide (a = r)) as [->|Hne].
  - destruct (s_root _ _ _ _ Hs) as (l & Hl & Hlp & Hpr). rewrite lookup_fmap, Ha in Hl. injection Hl as <-. cbn in Hlp. rewrite Hlp. congruence.
  - destruct (up _ _ _ _ Hs a p Hp Hne) as (e & ed & b & la & lb & q & rest & He & K).
    destruct K as [_ _ _ K4 K5 _ _ _ _ _ K11 K12 _]. rewrite lookup_fmap, Ha in K4. injection K4 as <-. cbn in K5. by rewrite K5, He.
Qed.

Lemma entry_stored w P L r p d : inv sizefunc w P L r -> entry w p d <-> stored w P p d.
Proof.
  intros I. split.
  - intros (a & n & Ha & <- & <- & Hd). split; [|done]. exists a, n. split; [done|]. split; [|done]. by eapply node_prefix_ok.
  - intros [(a & n & Ha & Hp & <-) Hd]. exists a, n. split; [done|]. split; [|done].
    pose proof (node_prefix_ok _ _ _ _ _ _ I Ha). congruence.
Qed.

Lemma entry_only w w' p d : only_lru w w' -> entry w' p d -> entry w p d.
Proof.
  intros [O1 O2 O3 _ _ _] (a & n & Ha & Hp & Hd & He).
  assert ((links <$> nodes w) !! a = Some (links n)) as Hl by (by rewrite <- O1, lookup_fmap, Ha).
  assert ((data <$> nodes w) !! a = Some (data n)) as Hdt by (by rewrite <- O2, lookup_fmap, Ha).
  rewrite lookup_fmap in Hl. rewrite lookup_fmap in Hdt. destruct (nodes w !! a) as [n0|] eqn:H0; [|done]. apply (inj Some) in Hl, Hdt.
  exists a, n0. split; [done|]. split; [|split; congruence]. rewrite <- Hp. unfold node_prefix. rewrite O3.
  injection Hl as _ _ ->. done.
Qed.

Lemma only_sym w w' : only_lru w w' -> only_lru w' w.
Proof.
  intros [O1 O2 O3 O4 O5 (x & y & O6)]. split; try done. exists w.(tree).(lru_first), w.(tree).(lru_last).
  rewrite O6. by destruct (tree w).
Qed.

Lemma found_perm w P L now sm x res w' L' : found w P L now sm x res w' L' -> L' ≡ₚ L.
Proof. destruct res as [b|]; cbn; [|by intros (_ & -> & _)]. intros (n & p & _ & _ & _ & _ & _ & Hu). by eapply used_perm. Qed.

Lemma insert_ok w P L r addr_ sourcemask sc v ttl now only : inv sizefunc w P L r -> mallocs_ok w.(memory) ->
  0 <= w.(tree).(max_node_count) -> 0 <= w.(tree).(max_depth) -> op_ok (Insert addr_ sourcemask sc v ttl now only) ->
  let sc' := capped_scope w sc in let x := ztake (capped_mask w sourcemask sc) (bits addr_) in
  exists w' P' L', addrtree_insert sizefunc addr_ sourcemask sc v ttl now only w = Ok (tt, w') /\
    entered sizefunc x sc' now (mk_data (Some v) ttl sc' only) (w.(tree).(max_node_count) = 0) w P L r w' P' L' /\ count_ok w w'.
Proof.
  intros I Hm Hmx Hdep (Hsm & Hsc & Hlen & Honly) sc' x. unfold addrtree_insert. erewrite st_bind_ok by reflexivity.
  rewrite (i_root _ _ _ _ _ I). pose proof (root_prefix _ _ _ _ (i_shape _ _ _ _ _ I)) as Hr. destruct (node_of _ _ _ _ _ _ _ I Hr) as [n Hn].
  replace (if max_depth (tree w) <? sc then max_depth (tree w) else sc) with sc' by (unfold sc', capped_scope; destruct (Z.ltb_spec (max_depth (tree w)) sc); lia).
  replace (if sc' <? sourcemask then sc' else sourcemask) with (capped_mask w sourcemask sc) by (unfold capped_mask; fold sc'; destruct (Z.ltb_spec sc' sourcemask); lia).
  assert (0 <= sc') as Hsc' by (unfold sc', capped_scope; lia).
  assert (0 <= capped_mask w sourcemask sc <= sourcemask /\ capped_mask w sourcemask sc <= sc') as [Hcm Hcs] by (unfold capped_mask; fold sc'; lia).
  apply (insert_loop_ok sizefunc x sc' now v ttl only addr_ _ 257 (prefix_bits_take addr_ (capped_mask w sourcemask sc) ltac:(lia)) Hcs ltac:(lia)) with (n := n) (q := []); try done.
  - intros Ho. specialize (Honly Ho). unfold x. replace (capped_mask w sourcemask sc) with 0 by lia. done.
  - by exists x.
  - change (zlen []) with 0. lia.
Qed.

(** The count of nodes, where there is a maximum. *)
Definition bounded w : Prop := w.(tree).(max_node_count) <> 0 -> Z.of_nat (size w.(edges)) <= w.(tree).(max_node_count).

Lemma entered_bounded x sc now d kept w P L r w' P' L' : entered sizefunc x sc now d kept w P L r w' P' L' -> count_ok w w' ->
  w.(tree).(max_node_count) <= 2 ^ 32 - 3 -> bounded w -> bounded w'.
Proof.
  intros En Hc Hmx Hb Hz. pose proof (m_max _ _ (en_params _ _ _ _ _ _ _ _ _ _ _ _ _ En)) as Em. rewrite Em in Hz |- *.
  specialize (Hb Hz). destruct (Hc Hz) as [H|H]; [|lia]. rewrite (i_count _ _ _ _ _ (en_inv _ _ _ _ _ _ _ _ _ _ _ _ _ En)) in H.
  pose proof (en_count _ _ _ _ _ _ _ _ _ _ _ _ _ En). rewrite wrap_small in H by (unfold in_u; lia). done.
Qed.

(** What every operation keeps. *)
Record steady (mx : Z) (done_ : list E) w : Prop := {
  st_valid : valid w;
  st_mallocs : mallocs_ok w.(memory);
  st_max : w.(tree).(max_node_count) = mx;
  st_range : 0 <= mx <= 2 ^ 32 - 3;
  st_depth : 0 <= w.(tree).(max_depth);
  st_bounded : bounded w;
  st_elems : w.(deleted) ++ live w ≡ₚ done_;
}.

Lemma step_steady mx o done_ w : steady mx done_ w -> op_ok o -> exists w', step o w = Ok (tt, w') /\ steady mx (done_ ++ given [o]) w'.
Proof.
  intros [(P & L & r & I) Hm Hmax Hmx Hdep Hb He] Ho. rewrite <- Hmax in Hmx. destruct o as [addr_ sm sc v ttl now only|addr_ sm now]; cbn [step].
  - destruct (insert_ok w P L r addr_ sm sc v ttl now only I Hm) as (w' & P' & L' & E1 & En & Hc); [lia|done|done|].
    exists w'. split; [exact E1|]. pose proof (entered_bounded _ _ _ _ _ _ _ _ _ _ _ _ En Hc ltac:(lia) Hb) as Hb'.
    destruct En as [I' M' Hm' (D & Ed & Ep) _ _ _ _]. split; try done.
    + by exists P', L', r.
    + by rewrite (m_max _ _ M').
    + by rewrite <- Hmax.
    + by rewrite (m_depth _ _ M').
    + cbn. unfold live. rewrite Ed, <- app_assoc, Ep. cbn. rewrite <- He. unfold live. solve_Permutation.
  - destruct Ho as [Hsm Hlen]. destruct (find_ok sizefunc w P L r addr_ sm now _ I (prefix_bits_take addr_ sm ltac:(lia))) as (res & w' & L' & E1 & H); [lia|].
    destruct H as (O & U & Hf). pose proof (inv_only _ _ _ _ _ _ _ I O U (found_perm _ _ _ _ _ _ _ _ _ Hf)) as I'.
    erewrite st_bind_ok by exact E1. exists w'. split; [done|]. destruct O as [O1 O2 O3 O4 O5 (lx & ly & O6)]. cbn [given]. rewrite app_nil_r.
    split; [by exists P, L', r|by rewrite O5|by rewrite O6|by rewrite <- Hmax|by rewrite O6| |].
    + unfold bounded. by rewrite O6, O3.
    + unfold live. by rewrite O2, O4.
Qed.

Lemma run_steady mx ops : forall done_ w, steady mx done_ w -> Forall op_ok ops -> exists w', run ops w = Ok (tt, w') /\ steady mx (done_ ++ given ops) w'.
Proof.
  induction ops as [|o ops IH]; intros done_ w S Ho; cbn [run given].
  - exists w. by rewrite app_nil_r.
  - apply Forall_cons in Ho as [Ho Hos]. destruct (step_steady mx o done_ w S Ho) as (w1 & E1 & S1). erewrite st_bind_ok by exact E1.
    destruct (IH _ w1 S1 Hos) as (w2 & E2 & S2). exists w2. split; [done|]. rewrite <- app_assoc in S2.
    by destruct o.
Qed.

Lemma created_steady depth mx m : mallocs_ok m -> 0 <= mx <= 2 ^ 32 - 3 -> 0 <= depth -> exists w, addrtree_create (E := E) depth mx m = Ok (Some w, w.(memory)) /\ steady mx [] w.
Proof.
  intros Hm Hmx Hd. destruct (create_ok sizefunc depth mx m Hm) as (r & w & E1 & I & Hm' & E2 & E3 & E4 & E5 & E6). exists w. split; [done|].
  split; [by eexists _, _, _|done|done|done|by rewrite E3| |].
  - unfold bounded. rewrite E2, E5. intros _. rewrite map_size_empty. lia.
  - unfold live. rewrite E4, E6, map_fmap_singleton. unfold elems, gather. by rewrite map_to_list_singleton.
Qed.

(** ** Theorems *)

(** C35. Insertions and lookups from [addrtree_create] on, as the callers make them: source masks
    of at most 255 bits and no longer than the address, [only_match_scope_zero] for queries of no
    bits only.  When no allocation fails and the maximum number of nodes is at most 2^32 - 3 (0 for none):
    no invalid access, no failed assertion; never more nodes than the maximum, the root not
    counted; and [addrtree_delete] at the end frees all nodes and edges, its
    assertion on the size of the tree holds, and every element that was given to the tree has
    been deleted exactly once.  Without memory this is not so, see [insert_out_of_memory]. *)
Theorem addrtree_run_frees depth mx m ops : mallocs_ok m -> 0 <= mx <= 2 ^ 32 - 3 -> 0 <= depth -> Forall op_ok ops ->
  exists w0 w1 w2, addrtree_create depth mx m = Ok (Some w0, w0.(memory)) /\ run ops w0 = Ok (tt, w1) /\
    (mx <> 0 -> Z.of_nat (size w1.(edges)) <= mx) /\ w1.(deleted) ++ live w1 ≡ₚ given ops /\
    addrtree_delete sizefunc w1 = Ok (tt, w2) /\ w2.(nodes) = ∅ /\ w2.(edges) = ∅ /\ w2.(deleted) ≡ₚ given ops.
Proof.
  intros Hm Hmx Hd Ho. destruct (create_ok sizefunc depth mx m Hm) as (r & w0 & E0 & _ & _ & Emx & _).
  destruct (created_steady depth mx m Hm Hmx Hd) as (w0' & E0' & S0). rewrite E0 in E0'. injection E0' as <- _.
  destruct (run_steady mx ops [] w0 S0 Ho) as (w1 & E1 & S1). destruct S1 as [(P & L & r1 & I) _ Hmax _ _ Hb He].
  destruct (delete_ok sizefunc w1 P L r1 I) as (w2 & E2 & H1 & H2 & H3). exists w0, w1, w2. do 2 (split; [done|]).
  unfold bounded in Hb. rewrite Hmax in Hb. do 5 (split; [done|]). by rewrite H3.
Qed.

(** C37. In a well-formed tree, for an address with as many bits as the source mask, [addrtree_find] answers with an entry for a prefix of the address that may answer the
    query, and no shorter prefix of the address has one that may; when there is no such entry it
    answers with nothing.  It never fails, and changes no entry.  An entry may answer when its time
    is not up, it is not kept for queries of no bits only or the query has no bits, and the length of its prefix
    is its scope, or is the length of the query and less than its scope.  This is less than addrtree.h says, where
    a node matches as soon as its scope is at most the source mask: an entry whose
    scope is longer than its prefix answers no query for more bits than the prefix has,
    see [header_match_missed]. *)
Theorem addrtree_find_spec w addr_ sourcemask now : valid w -> op_ok (Find addr_ sourcemask now) ->
  let x := ztake sourcemask (bits addr_) in
  exists res w', addrtree_find addr_ sourcemask now w = Ok (res, w') /\ valid w' /\ (forall p d, entry w' p d <-> entry w p d) /\
    match res with
    | Some a => exists n, w.(nodes) !! a = Some n /\ node_prefix w n `prefix_of` x /\ answers now sourcemask (node_prefix w n) (data n) /\
        (forall p d, entry w p d -> p `prefix_of` x -> zlen p < zlen (node_prefix w n) -> ~ answers now sourcemask p d)
    | None => forall p d, entry w p d -> p `prefix_of` x -> ~ answers now sourcemask p d
    end.
Proof.
  intros (P & L & r & I) [Hsm Hlen] x.
  destruct (find_ok sizefunc w P L r addr_ sourcemask now x I (prefix_bits_take addr_ sourcemask ltac:(lia))) as (res & w' & L' & E1 & O & U & Hf); [lia|].
  pose proof (inv_only _ _ _ _ _ _ _ I O U (found_perm _ _ _ _ _ _ _ _ _ Hf)) as I'.
  exists res, w'. split; [done|]. split; [by exists P, L', r|]. split.
  { intros p d. split; apply entry_only; [done|by apply only_sym]. }
  assert (forall p d, entry w p d -> has w P p d) as Hhas by (intros p d H; by apply (entry_stored _ _ _ _ _ _ I) in H as [H _]).
  destruct res as [a|]; cbn in Hf.
  - destruct Hf as (n & p & Ha & Hp & Hpx & Hans & Hsh & _). exists n. pose proof (node_prefix_ok _ _ _ _ _ _ I Ha) as Hp'.
    rewrite Hp in Hp'. injection Hp' as <-. do 3 (split; [done|]). intros p' d' He%Hhas. by apply Hsh.
  - destruct Hf as (_ & _ & Hf). intros p d He%Hhas. by apply Hf.
Qed.

(** C36. [addrtree_insert] never fails when memory does not.  The prefix that it stores the element
    for is the address up to the source mask, capped by the scope, which is capped by the depth of
    the tree.  Every other entry was there before; it may have the new scope, if it is for a shorter
    prefix.  Elements are neither lost nor doubled.  Without a maximum of nodes, the new entry
    is there, and the others whose time is not up. *)
Theorem addrtree_insert_spec w addr_ sourcemask sc v ttl now only : valid w -> mallocs_ok w.(memory) ->
  0 <= w.(tree).(max_node_count) -> 0 <= w.(tree).(max_depth) -> op_ok (Insert addr_ sourcemask sc v ttl now only) ->
  let sc' := capped_scope w sc in let x := ztake (capped_mask w sourcemask sc) (bits addr_) in let d0 := mk_data (Some v) ttl sc' only in
  exists w', addrtree_insert sizefunc addr_ sourcemask sc v ttl now only w = Ok (tt, w') /\ valid w' /\
    (exists D, w'.(deleted) = w.(deleted) ++ D /\ D ++ live w' ≡ₚ v :: live w) /\
    (forall p d', entry w' p d' -> (p = x /\ d' = d0) \/ (p <> x /\ exists d, entry w p d /\ rescoped x sc' p d d')) /\
    (w.(tree).(max_node_count) = 0 -> entry w' x d0 /\
      forall p d, entry w p d -> p <> x -> now <= d.(d_ttl) -> exists d', entry w' p d' /\ rescoped x sc' p d d').
Proof.
  intros (P & L & r & I) Hm Hmx Hdep Ho sc' x d0. destruct (insert_ok w P L r _ _ _ _ _ _ _ I Hm Hmx Hdep Ho) as (w' & P' & L' & E1 & En & _).
  fold sc' x d0 in En. destruct En as [I' M' Hm' HD Hs Hn Hk _]. exists w'. split; [done|]. split; [by exists P', L', r|]. split; [done|].
  assert (forall p d, entry w p d <-> stored w P p d) as Hw by (intros; by apply entry_stored with L r).
  assert (forall p d, entry w' p d <-> stored w' P' p d) as Hw' by (intros; by apply entry_stored with L' r).
  split.
  - intros p d' [?|(Hne & d & ?%Hw & R)]%Hw'%Hs; [by left|right]. split; [done|]. by exists d.
  - intros Hz. split; [by apply Hw', Hn|]. intros p d H%Hw Hne Ht. destruct (Hk Hz p d H Hne Ht) as (d' & ?%Hw' & R). by exists d'.
Qed.

(** [lru_cleanup] ends, with no more nodes than the maximum, when there is one; it only removes
    nodes and the entries they hold, and deletes the elements of those. *)
Lemma lru_cleanup_spec w : valid w -> 0 <= w.(tree).(max_node_count) ->
  exists w', lru_cleanup sizefunc w = Ok (tt, w') /\ valid w' /\ (forall p d, entry w' p d -> entry w p d) /\
    (exists D, w'.(deleted) = w.(deleted) ++ D /\ D ++ live w' ≡ₚ live w) /\
    (w.(tree).(max_node_count) <> 0 -> w'.(tree).(node_count) <= w.(tree).(max_node_count)).
Proof.
  intros (P & L & r & I) Hmx. destruct (lru_cleanup_ok sizefunc w P L r I Hmx) as (w' & P' & L' & E1 & S1 & _ & Hc).
  pose proof (sh_inv _ _ _ _ _ _ _ _ S1) as I'. exists w'. split; [done|]. split; [by exists P', L', r|]. split.
  { intros p d. rewrite (entry_stored _ _ _ _ _ _ I), (entry_stored _ _ _ _ _ _ I'), !stored_data. intros (b & Hb & Hp & Hd).
    exists b. split; [by eapply sh_keep|]. split; [by eapply sh_prefix|done]. }
  split; [apply (sh_elems _ _ _ _ _ _ _ _ S1)|done].
Qed.
End Spec.

(** ** Samples *)

Definition sample_size (_ : nat) : Z := 10.
Definition created (depth mx : Z) (m : mem) : world nat :=
  match addrtree_create depth mx m with
  | Ok (Some w, _) => w
  | _ => mk_world ∅ ∅ (mk_addrtree None 0 0 0 0 None None) [] m
  end.
Definition ran (ops : list op) (w : world nat) : world nat :=
  match run sample_size ops w with Ok (_, w') => w' | _ => w end.

Definition sample_ops : list op :=
  [Insert [10; 0; 0; 0] 8 8 1%nat 100 0 false; Find [10; 1; 5; 0] 24 0; Insert [11; 0; 0; 0] 8 8 2%nat 100 0 false;
   Insert [10; 1; 0; 0] 16 16 3%nat 5 0 false; Insert [] 0 0 4%nat 100 9 true; Insert [10; 1; 128; 0] 17 24 5%nat 100 9 false].
Definition sample (mx : Z) : world nat := ran sample_ops (created 24 mx []).

Lemma sample_ops_ok : Forall op_ok sample_ops.
Proof. repeat (apply Forall_cons; split); try apply Forall_nil; cbn; repeat split; lia || done. Qed.

Lemma sample_steady mx : 0 <= mx <= 2 ^ 32 - 3 -> steady sample_size mx (given sample_ops) (sample mx).
Proof.
  intros Hmx. destruct (created_steady sample_size 24 mx []) as (w & E1 & S); [by apply Forall_nil|done|lia|].
  destruct (run_steady sample_size mx sample_ops [] w S sample_ops_ok) as (w' & E2 & S'). unfold sample, created, ran.
  by rewrite E1, E2.
Qed.

Lemma sample_valid mx : 0 <= mx <= 2 ^ 32 - 3 -> valid sample_size (sample mx).
Proof. intros H. apply (sample_steady mx H). Qed.

Lemma sample_mallocs mx : 0 <= mx <= 2 ^ 32 - 3 -> mallocs_ok (sample mx).(memory).
Proof. intros H. apply (sample_steady mx H). Qed.

Lemma addrtree_run_frees_witness : exists w0 w1 w2, addrtree_create 24 2 [] = Ok (Some w0, w0.(memory)) /\ run sample_size sample_ops w0 = Ok (tt, w1) /\
  (2 <> 0 -> Z.of_nat (size w1.(edges)) <= 2) /\ w1.(deleted) ++ live w1 ≡ₚ given sample_ops /\
  addrtree_delete sample_size w1 = Ok (tt, w2) /\ w2.(nodes) = ∅ /\ w2.(edges) = ∅ /\ w2.(deleted) ≡ₚ given sample_ops.
Proof. apply (addrtree_run_frees sample_size 24 2 [] sample_ops); [by apply Forall_nil|lia|lia|apply sample_ops_ok]. Defined.

Lemma addrtree_find_spec_witness :
  exists res w', addrtree_find [10; 1; 128; 3] 20 50 (sample 0) = Ok (res, w') /\ valid sample_size w' /\
    forall p d, entry w' p d <-> entry (sample 0) p d.
Proof.
  destruct (addrtree_find_spec sample_size (sample 0) [10; 1; 128; 3] 20 50) as (res & w' & E1 & V & H & _);
    [apply sample_valid; lia|cbn; split; [lia|vm_compute; discriminate]|]. exists res, w'. exact (conj E1 (conj V H)).
Defined.

Lemma addrtree_insert_spec_witness : let w := sample 0 in
  exists w', addrtree_insert sample_size [10; 64; 0; 0] 16 10 6%nat 70 50 false w = Ok (tt, w') /\ valid sample_size w' /\
    entry w' [0; 0; 0; 0; 1; 0; 1; 0; 0; 1] (mk_data (Some 6%nat) 70 10 false).
Proof.
  intros w. destruct (addrtree_insert_spec sample_size w [10; 64; 0; 0] 16 10 6%nat 70 50 false) as (w' & E1 & V & _ & _ & H);
    [apply sample_valid; lia|apply sample_mallocs; lia|vm_compute; discriminate|vm_compute; discriminate|cbn; repeat split; lia || done|].
  exists w'. split; [exact E1|]. split; [exact V|]. apply H. reflexivity.
Defined.

(** A tree with another maximum. *)
Definition with_max (mx : Z) : world nat -> world nat :=
  upd_tree (fun t => mk_addrtree t.(root) t.(node_count) mx t.(size_bytes) t.(max_depth) t.(lru_first) t.(lru_last)).

Lemma valid_max mx (w : world nat) : valid sample_size w -> valid sample_size (with_max mx w).
Proof. intros (P & L & r & [I1 I2 [] I4 I5 I6 I7]). by exists P, L, r. Qed.

Lemma lru_cleanup_spec_witness : let w := with_max 2 (sample 0) in
  (2 <? w.(tree).(node_count)) = true /\ exists w', lru_cleanup sample_size w = Ok (tt, w') /\ w'.(tree).(node_count) <= 2.
Proof.
  intros w. split; [vm_compute; reflexivity|].
  destruct (lru_cleanup_spec sample_size w (valid_max 2 (sample 0) (sample_valid 0 ltac:(lia))) ltac:(vm_compute; discriminate)) as (w' & E1 & _ & _ & _ & H).
  exists w'. split; [exact E1|]. apply H. vm_compute. discriminate.
Defined.

(** ** Runs in which the code does less than it says *)

(** The answer of a lookup. *)
Definition answer (addr_ : list Z) (sourcemask now : Z) (w : world nat) : option nat :=
  match addrtree_find addr_ sourcemask now w with
  | Ok (Some a, w') => n ← w'.(nodes) !! a; n.(elem)
  | _ => None
  end.

(** The run with the mallocs that [m] says. *)
Definition run_in (m : mem) (ops : list op) : outcome (unit * world nat) := run sample_size ops (created 24 0 m).

Definition wide_then_narrow : list op := [Insert [10; 0; 0; 0] 8 8 1%nat 100 0 false; Insert [10; 1; 0; 0] 16 16 2%nat 100 0 false].

(** The scope of the node above a new leaf is not updated, only those of the nodes above that.  So
    after an answer for 10.0.0.0/8 with scope 8, one for 10.1.0.0/16 with scope 16 is stored, may
    answer the query for 10.1.5.0/24, but [addrtree_find] still answers with the first;
    a third answer on the way, below the second, makes the second visible. *)
Lemma more_specific_hidden : let w := ran wide_then_narrow (created 24 0 []) in let x := ztake 24 (bits [10; 1; 5; 0]) in
  (exists p d, entry w p d /\ p `prefix_of` x /\ zlen p = 16 /\ d.(d_elem) = Some 2%nat /\ answers 0 24 p d) /\
  answer [10; 1; 5; 0] 24 0 w = Some 1%nat /\
  answer [10; 1; 5; 0] 24 0 (ran [Insert [10; 1; 128; 0] 24 24 3%nat 100 0 false] w) = Some 2%nat.
Proof.
  intros w x. split; [|split; vm_compute; reflexivity].
  exists (ztake 16 (bits [10; 1; 0; 0])), (mk_data (Some 2%nat) 100 16 false). repeat split.
  - exists 3%positive. eexists. split; [vm_compute; reflexivity|]. by split; [vm_compute; reflexivity|].
  - exists (ztake 8 (bits [5])). vm_compute. reflexivity.
  - by eexists.
  - vm_compute. discriminate.
  - by right.
  - by left.
Qed.

(** A node matches, in the words of addrtree.h. *)
Definition header_match (sourcemask : Z) (p : list Z) (d : ndata nat) : Prop :=
  is_Some d.(d_elem) /\ (d.(d_scope) <= sourcemask \/ zlen p = sourcemask).

(** An answer to a question about 10.0.0.0/8 with scope 24 is kept for the prefix of 8 bits.  By
    addrtree.h it matches the query for 10.2.0.0/24; [addrtree_find] has no answer, for
    this query and for every other longer than 8 bits. *)
Lemma header_match_missed : let w := ran [Insert [10; 0; 0; 0] 8 24 1%nat 100 0 false] (created 24 0 []) in
  let x := ztake 24 (bits [10; 2; 0; 0]) in
  (exists p d, entry w p d /\ p `prefix_of` x /\ zlen p = 8 /\ header_match 24 p d /\ ~ answers 0 24 p d) /\
  answer [10; 2; 0; 0] 24 0 w = None /\ answer [10; 2; 0; 0] 8 0 w = Some 1%nat.
Proof.
  intros w x. split; [|split; vm_compute; reflexivity].
  exists (ztake 8 (bits [10; 0; 0; 0])), (mk_data (Some 1%nat) 100 24 false). split; [|split; [|split; [|split]]].
  - exists 2%positive. eexists. split; [vm_compute; reflexivity|]. split; [vm_compute; reflexivity|]. split; [reflexivity|by eexists].
  - exists (ztake 16 (bits [2; 0])). vm_compute. reflexivity.
  - reflexivity.
  - split; [by eexists|]. left. cbn. lia.
  - intros (_ & _ & _ & [H|[_ H]]); vm_compute in H; discriminate.
Qed.

(** When memory runs out during an insertion.  If there is none for the node, the element is given
    up: the tree does not have it, and it is not deleted.  If there is none for the edge
    of a new leaf, the element is deleted, and its size is taken from a sum that it was not part of:
    the size of the tree is wrong, and the assertion at the end of [addrtree_delete] fails.  If there is
    none for the leaf below the node of a split, the null pointer is used. *)
Lemma insert_out_of_memory v :
  (exists w, run_in [true; true; false] [Insert [10; 0; 0; 0] 8 8 v 100 0 false] = Ok (tt, w) /\ live w = [] /\ w.(deleted) = []) /\
  (exists w, run_in [true; true; true; false] [Insert [10; 0; 0; 0] 8 8 v 100 0 false] = Ok (tt, w) /\
    w.(deleted) = [v] /\ w.(edges) = ∅ /\ w.(tree).(size_bytes) = sizeof_addrtree + sizeof_addrnode - 10 /\
    addrtree_delete sample_size w = Fault Assertion) /\
  run_in [true; true; true; true; true; true; true; true; false]
    [Insert [10; 0; 0; 0] 8 8 v 100 0 false; Insert [11; 0; 0; 0] 8 8 v 100 0 false] = Fault Undefined.
Proof.
  split; [|split].
  - eexists. split; [vm_compute; reflexivity|]. split; vm_compute; reflexivity.
  - eexists. split; [vm_compute; reflexivity|]. split; [reflexivity|]. split; [reflexivity|]. split; vm_compute; reflexivity.
  - vm_compute. reflexivity.
Qed.
