(* ===== verification/Autotrust.v ===== *)
(** * RFC 5011 trust anchors: the keys of a trust point (validator/autotrust.c)

    The keys of one trust point, what a DNSKEY response does to them, and the
    trust anchor RRsets that are assembled from them.  The readers of key and DS
    rdata are from sldns/str2wire.c, sldns/keyraw.c and validator/val_sigcrypt.c.
    Signatures and digests are the interface [Sigcrypt]. *)

From S2P Require Import Prelude Sbuffer DnsTree.

Definition LDNS_RR_TYPE_DS : Z := 43.
Definition LDNS_RR_TYPE_RRSIG : Z := 46.
Definition LDNS_RR_TYPE_DNSKEY : Z := 48.
Definition LDNS_RR_CLASS_IN : Z := 1.
Definition LDNS_KEY_REVOKE_KEY : Z := 128.
Definition DNSKEY_BIT_SEP : Z := 1.
Definition LDNS_RSAMD5 : Z := 1.
Definition MIN_PENDINGCOUNT : Z := 2.

Inductive autr_state :=
  | AUTR_STATE_START
  | AUTR_STATE_ADDPEND
  | AUTR_STATE_VALID
  | AUTR_STATE_MISSING
  | AUTR_STATE_REVOKED
  | AUTR_STATE_REMOVED.

#[global] Instance autr_state_eq_dec : EqDecision autr_state.
Proof. solve_decision. Defined.

(** [struct autr_ta]; the linked list of keys is a list.  [rr] is the block of
    memory the pointer leads to, and [rr_len] the length the program has for it. *)
Record autr_ta := mk_ta {
  rr : list Z;
  rr_len : Z;
  dname_len : Z;
  last_change : Z;
  s : autr_state;
  pending_count : Z;
  fetched : bool;
  revoked : bool;
}.

Definition with_rr r ta := mk_ta r ta.(rr_len) ta.(dname_len) ta.(last_change) ta.(s) ta.(pending_count) ta.(fetched) ta.(revoked).
Definition with_last_change t ta := mk_ta ta.(rr) ta.(rr_len) ta.(dname_len) t ta.(s) ta.(pending_count) ta.(fetched) ta.(revoked).
Definition with_s x ta := mk_ta ta.(rr) ta.(rr_len) ta.(dname_len) ta.(last_change) x ta.(pending_count) ta.(fetched) ta.(revoked).
Definition with_pending n ta := mk_ta ta.(rr) ta.(rr_len) ta.(dname_len) ta.(last_change) ta.(s) n ta.(fetched) ta.(revoked).
Definition with_fetched b ta := mk_ta ta.(rr) ta.(rr_len) ta.(dname_len) ta.(last_change) ta.(s) ta.(pending_count) b ta.(revoked).
Definition with_revoked b ta := mk_ta ta.(rr) ta.(rr_len) ta.(dname_len) ta.(last_change) ta.(s) ta.(pending_count) ta.(fetched) b.

(** The configuration and the environment the code reads.  [unbound_debug]: the
    build has [log_assert]; [permit_small] is the global
    [autr_permit_small_holddown]; [probe_timer]: there is a timer (not in the
    library). *)
Record module_env := mk_env {
  now : Z;
  add_holddown : Z;
  del_holddown : Z;
  keep_missing : Z;
  permit_small : bool;
  probe_timer : bool;
  unbound_debug : bool;
}.

Definition log_assert (env : module_env) (b : bool) : outcome unit :=
  if env.(unbound_debug) then c_assert b else Ok tt.

(** ** Fields of a resource record in wire format (sldns/str2wire.c) *)

Definition sldns_wirerr_get_type (r : list Z) (len dnlen : Z) : outcome Z :=
  if len <? u64 (dnlen + 2) then Ok 0 else p ← advance dnlen r; sldns_read_uint16 p.

Definition sldns_wirerr_get_class (r : list Z) (len dnlen : Z) : outcome Z :=
  if len <? u64 (dnlen + 4) then Ok 0 else p ← advance (dnlen + 2) r; sldns_read_uint16 p.

Definition sldns_wirerr_get_ttl (r : list Z) (len dnlen : Z) : outcome Z :=
  if len <? u64 (dnlen + 8) then Ok 0 else p ← advance (dnlen + 4) r; sldns_read_uint32 p.

Definition sldns_wirerr_get_rdatalen (r : list Z) (len dnlen : Z) : outcome Z :=
  if len <? u64 (dnlen + 10) then Ok 0 else p ← advance (dnlen + 8) r; sldns_read_uint16 p.

(** [None] is the NULL pointer. *)
Definition sldns_wirerr_get_rdata (r : list Z) (len dnlen : Z) : outcome (option (list Z)) :=
  if len <? u64 (dnlen + 10) then Ok None else p ← advance (dnlen + 10) r; Ok (Some p).

Definition sldns_wirerr_get_rdatawl (r : list Z) (len dnlen : Z) : outcome (option (list Z)) :=
  if len <? u64 (dnlen + 10) then Ok None else p ← advance (dnlen + 8) r; Ok (Some p).

Definition ta_type (ta : autr_ta) : outcome Z := sldns_wirerr_get_type ta.(rr) ta.(rr_len) ta.(dname_len).
Definition ta_rdatalen (ta : autr_ta) : outcome Z := sldns_wirerr_get_rdatalen ta.(rr) ta.(rr_len) ta.(dname_len).
Definition ta_rdata (ta : autr_ta) : outcome (option (list Z)) :=
  sldns_wirerr_get_rdata ta.(rr) ta.(rr_len) ta.(dname_len).

(** The use of a pointer that may be NULL. *)
Definition nonnull {A} (p : option A) : outcome A := match p with Some x => Ok x | None => Fault Undefined end.

(** ** Flags of a key *)

Definition dnskey_flags (t : Z) (rdata : option (list Z)) (len : Z) : outcome Z :=
  if negb (t =? LDNS_RR_TYPE_DNSKEY) then Ok 0 else
  if len <? 2 then Ok 0 else
  d ← nonnull rdata;
  sldns_read_uint16 d.

Definition rr_is_dnskey_sep (t : Z) (rdata : option (list Z)) (len : Z) : outcome bool :=
  f ← dnskey_flags t rdata len; Ok (negb (Z.land f DNSKEY_BIT_SEP =? 0)).

Definition ta_is_dnskey_sep (ta : autr_ta) : outcome bool :=
  t ← ta_type ta;
  d ← ta_rdata ta;
  l ← ta_rdatalen ta;
  f ← dnskey_flags t d l;
  Ok (negb (Z.land f DNSKEY_BIT_SEP =? 0)).

Definition rr_is_dnskey_revoked (t : Z) (rdata : option (list Z)) (len : Z) : outcome bool :=
  f ← dnskey_flags t rdata len; Ok (negb (Z.land f LDNS_KEY_REVOKE_KEY =? 0)).

(** Store of the bytes [bs] at offset [i]. *)
Definition write_at (d : list Z) (i : Z) (bs : list Z) : outcome (list Z) :=
  if (0 <=? i) && (i + zlen bs <=? zlen d) then Ok (ztake i d ++ bs ++ zdrop (i + zlen bs) d) else Fault Undefined.

Definition revoke_dnskey (ta : autr_ta) (off : bool) : outcome autr_ta :=
  t ← ta_type ta;
  if negb (t =? LDNS_RR_TYPE_DNSKEY) then Ok ta else
  l ← ta_rdatalen ta;
  if l <? 2 then Ok ta else
  d ← ta_rdata ta;
  data ← nonnull d;
  flags ← sldns_read_uint16 data;
  let flags :=
    if off && negb (Z.land flags LDNS_KEY_REVOKE_KEY =? 0) then Z.lxor flags LDNS_KEY_REVOKE_KEY
    else Z.lor flags LDNS_KEY_REVOKE_KEY in
  r ← write_at ta.(rr) (ta.(dname_len) + 10) (sldns_write_uint16 flags);
  Ok (with_rr r ta).

(** ** Comparing and finding keys *)

Fixpoint skip_revbit_loop (n : nat) (i : Z) (a b : list Z) : outcome Z :=
  match n with
  | O => Ok 0
  | S n' =>
      '(rdf1, a) ← next a;
      '(rdf2, b) ← next b;
      let rdf1 := if i =? 1 then Z.lor rdf1 LDNS_KEY_REVOKE_KEY else rdf1 in
      let rdf2 := if i =? 1 then Z.lor rdf2 LDNS_KEY_REVOKE_KEY else rdf2 in
      if rdf1 <? rdf2 then Ok (-1) else
      if rdf2 <? rdf1 then Ok 1 else
      skip_revbit_loop n' (i + 1) a b
  end.

Definition dnskey_compare_skip_revbit (a : option (list Z)) (a_len : Z) (b : list Z) (b_len : Z) : outcome Z :=
  if negb (a_len =? b_len) then Ok (-1) else
  if a_len =? 0 then Ok 0 else
  a ← nonnull a;
  skip_revbit_loop (Z.to_nat a_len) 0 a b.

Definition ta_compare (a : autr_ta) (t : Z) (b : option (list Z)) (b_len : Z) : outcome Z :=
  match b with
  | None => Ok (-1)
  | Some b =>
      ty ← ta_type a;
      if negb (ty =? t) then Ok (ty - t) else
      if t =? LDNS_RR_TYPE_DNSKEY then
        d ← ta_rdata a; l ← ta_rdatalen a;
        dnskey_compare_skip_revbit d l b b_len
      else if t =? LDNS_RR_TYPE_DS then
        l ← ta_rdatalen a;
        if negb (l =? b_len) then Ok (-1) else
        d ← ta_rdata a; d ← nonnull d;
        memcmp d b b_len
      else Ok (-1)
  end.

Fixpoint find_key_loop (keys : list autr_ta) (i : nat) (t : Z) (rdata : option (list Z)) (rdata_len : Z)
    : outcome (option nat) :=
  match keys with
  | [] => Ok None
  | ta :: keys' =>
      c ← ta_compare ta t rdata rdata_len;
      if c =? 0 then Ok (Some i) else find_key_loop keys' (S i) t rdata rdata_len
  end.

(** The result and the key found, as its position in the list. *)
Definition find_key (keys : list autr_ta) (t : Z) (rdata : option (list Z)) (rdata_len : Z)
    : outcome (bool * option nat) :=
  match rdata with
  | None => Ok (false, None)
  | Some _ => r ← find_key_loop keys 0 t rdata rdata_len; Ok (true, r)
  end.

Definition autr_ta_create (m : mem) (r : list Z) (len dnlen : Z) : option autr_ta * mem :=
  let '(ok, m) := malloc m in
  if negb ok then (None, m) else (Some (mk_ta r len dnlen 0 AUTR_STATE_START 0 false false), m).

(** [add_key]: the new key and the keys with it in front. *)
Definition add_key (m : mem) (name : list Z) (namelen : Z) (keys : list autr_ta) (ttl : Z) (rdata : list Z)
    (rdata_len : Z) : outcome (bool * list autr_ta * mem) :=
  let dnlen := namelen in
  let len := u64 (dnlen + 10 + rdata_len) in
  let '(ok, m) := malloc m in
  if negb ok then Ok (false, keys, m) else
  n ← read_bytes namelen name;
  d ← read_bytes rdata_len rdata;
  let r := n ++ sldns_write_uint16 LDNS_RR_TYPE_DNSKEY ++ sldns_write_uint16 LDNS_RR_CLASS_IN
             ++ sldns_write_uint32 (u32 ttl) ++ sldns_write_uint16 (u16 rdata_len) ++ d in
  match autr_ta_create m r len dnlen with
  | (None, m) => Ok (false, keys, m)
  | (Some ta, m) => Ok (true, ta :: keys, m)
  end.

(** ** Events of one key *)

Definition seen_trustanchor (ta : autr_ta) (seen : bool) : autr_ta :=
  let ta := with_fetched seen ta in
  if ta.(pending_count) <? 250 then with_pending (u8 (ta.(pending_count) + 1)) ta else ta.

Definition seen_revoked_trustanchor (ta : autr_ta) (r : bool) : autr_ta := with_revoked r ta.

Section Events.
Context (env : module_env).

(** Every event takes the key and [*changed]. *)
Abbreviation event := (autr_ta -> bool -> outcome (autr_ta * bool)).

Definition check_holddown (ta : autr_ta) (holddown : Z) : outcome Z :=
  if env.(now) <? ta.(last_change) then Ok 0 else
  elapsed ← sint 64 (env.(now) - ta.(last_change));
  if holddown <? elapsed then Ok (elapsed - holddown) else Ok 0.

Definition reset_holddown : event := fun ta c => Ok (with_last_change env.(now) ta, true).

Definition set_trustanchor_state (x : autr_state) : event := fun ta c => reset_holddown (with_s x ta) c.

Definition do_newkey : event := fun ta c =>
  if decide (ta.(s) = AUTR_STATE_START) then set_trustanchor_state AUTR_STATE_ADDPEND ta c else Ok (ta, c).

Definition do_addtime : event := fun ta c =>
  exceeded ← check_holddown ta env.(add_holddown);
  if negb (exceeded =? 0) && bool_decide (ta.(s) = AUTR_STATE_ADDPEND) then
    if MIN_PENDINGCOUNT <=? ta.(pending_count) then
      '(ta, c) ← set_trustanchor_state AUTR_STATE_VALID ta c;
      Ok (with_pending 0 ta, c)
    else Ok (ta, c)
  else Ok (ta, c).

Definition do_remtime : event := fun ta c =>
  exceeded ← check_holddown ta env.(del_holddown);
  if negb (exceeded =? 0) && bool_decide (ta.(s) = AUTR_STATE_REVOKED) then
    set_trustanchor_state AUTR_STATE_REMOVED ta c
  else Ok (ta, c).

Definition do_keyrem : event := fun ta c =>
  if decide (ta.(s) = AUTR_STATE_ADDPEND) then
    '(ta, c) ← set_trustanchor_state AUTR_STATE_START ta c;
    Ok (with_pending 0 ta, c)
  else if decide (ta.(s) = AUTR_STATE_VALID) then set_trustanchor_state AUTR_STATE_MISSING ta c
  else Ok (ta, c).

Definition do_keypres : event := fun ta c =>
  if decide (ta.(s) = AUTR_STATE_MISSING) then set_trustanchor_state AUTR_STATE_VALID ta c else Ok (ta, c).

Definition do_revoked : event := fun ta c =>
  if decide (ta.(s) = AUTR_STATE_VALID \/ ta.(s) = AUTR_STATE_MISSING) then
    '(ta, c) ← set_trustanchor_state AUTR_STATE_REVOKED ta c;
    ta ← revoke_dnskey ta false;
    Ok (ta, c)
  else Ok (ta, c).

Definition anchor_state_update : event := fun ta c =>
  match ta.(s) with
  | AUTR_STATE_START => if ta.(fetched) then do_newkey ta c else Ok (ta, c)
  | AUTR_STATE_ADDPEND => if negb ta.(fetched) then do_keyrem ta c else do_addtime ta c
  | AUTR_STATE_VALID =>
      if ta.(revoked) then do_revoked ta c else
      if negb ta.(fetched) then do_keyrem ta c else
      if ta.(last_change) =? 0 then reset_holddown ta c else Ok (ta, c)
  | AUTR_STATE_MISSING =>
      if ta.(revoked) then do_revoked ta c else
      if ta.(fetched) then do_keypres ta c else Ok (ta, c)
  | AUTR_STATE_REVOKED => if ta.(fetched) then reset_holddown ta c else do_remtime ta c
  | AUTR_STATE_REMOVED => Ok (ta, c)
  end.

(** ** Loops over the keys of the trust point *)

(** [for(ta = tp->autr->keys; ta; ta = ta->next)] with [*changed]. *)
Fixpoint for_keys (f : event) (keys : list autr_ta) (c : bool) : outcome (list autr_ta * bool) :=
  match keys with
  | [] => Ok ([], c)
  | ta :: keys' =>
      '(ta, c) ← f ta c;
      '(keys', c) ← for_keys f keys' c;
      Ok (ta :: keys', c)
  end.

Fixpoint count_keys (f : autr_ta -> outcome bool) (keys : list autr_ta) (n : Z) : outcome Z :=
  match keys with
  | [] => Ok n
  | ta :: keys' => b ← f ta; count_keys f keys' (if (b : bool) then n + 1 else n)
  end.

Definition init_events (keys : list autr_ta) : list autr_ta := map (with_fetched false) keys.

Definition autr_holddown_exceed (keys : list autr_ta) (c : bool) : outcome (list autr_ta * bool) :=
  for_keys (fun ta c =>
    sep ← ta_is_dnskey_sep ta;
    if (sep : bool) && bool_decide (ta.(s) = AUTR_STATE_ADDPEND) then do_addtime ta c else Ok (ta, c)) keys c.

(** A configured ZSK: [last_change == 0] and VALID. *)
Definition is_valid_zsk (ta : autr_ta) : outcome bool :=
  t ← ta_type ta;
  if negb (t =? LDNS_RR_TYPE_DNSKEY) then Ok false else
  if negb (ta.(last_change) =? 0) then Ok false else
  sep ← ta_is_dnskey_sep ta;
  Ok (negb sep && bool_decide (ta.(s) = AUTR_STATE_VALID)).

Definition is_pending_ksk (ta : autr_ta) : outcome bool :=
  sep ← ta_is_dnskey_sep ta;
  Ok (sep && bool_decide (ta.(s) = AUTR_STATE_ADDPEND)).

(** The keys, [*changed] and the number of keys made VALID. *)
Definition init_zsk_to_ksk (keys : list autr_ta) (c : bool) : outcome (list autr_ta * bool * Z) :=
  validzsk ← count_keys is_valid_zsk keys 0;
  if validzsk =? 0 then Ok (keys, c, 0) else
  validksk ← count_keys is_pending_ksk keys 0;
  '(keys, c) ← for_keys (fun ta c =>
    b ← is_pending_ksk ta;
    if (b : bool) then set_trustanchor_state AUTR_STATE_VALID ta c else Ok (ta, c)) keys c;
  Ok (keys, c, validksk).

Definition is_valid_ksk (ta : autr_ta) : outcome bool :=
  sep ← ta_is_dnskey_sep ta;
  Ok (sep && bool_decide (ta.(s) = AUTR_STATE_VALID)).

Definition remove_missing_one (valid : Z) : event := fun ta c =>
  if decide (ta.(s) = AUTR_STATE_START) then Ok (ta, c) else
  sep ← ta_is_dnskey_sep ta;
  if negb sep then
    if 0 <? valid then set_trustanchor_state AUTR_STATE_REMOVED ta c else Ok (ta, c)
  else if decide (ta.(s) <> AUTR_STATE_MISSING) then Ok (ta, c) else
  if env.(keep_missing) =? 0 then Ok (ta, c) else
  exceeded ← check_holddown ta env.(keep_missing);
  if negb (exceeded =? 0) && (0 <? valid) then set_trustanchor_state AUTR_STATE_REMOVED ta c else Ok (ta, c).

Definition remove_missing_trustanchors (keys : list autr_ta) (c : bool) : outcome (list autr_ta * bool) :=
  valid ← count_keys is_valid_ksk keys 0;
  '(keys, c, valid) ←
    (if valid =? 0 then init_zsk_to_ksk keys c else Ok (keys, c, valid));
  if valid =? 0 then Ok (keys, c) else
  for_keys (remove_missing_one valid) keys c.

Definition do_statetable (keys : list autr_ta) (c : bool) : outcome (list autr_ta * bool) :=
  '(keys, c) ← for_keys (fun ta c =>
    sep ← ta_is_dnskey_sep ta;
    if negb sep then Ok (ta, c) else anchor_state_update ta c) keys c;
  remove_missing_trustanchors keys c.

(** Both loops of [autr_cleanup_keys]: unlinking a key leaves the rest. *)
Fixpoint autr_cleanup_keys (keys : list autr_ta) : outcome (list autr_ta) :=
  match keys with
  | [] => Ok []
  | p :: keys' =>
      drop ← (if decide (p.(s) = AUTR_STATE_START \/ p.(s) = AUTR_STATE_REMOVED) then Ok true else
              t ← ta_type p; Ok (negb (t =? LDNS_RR_TYPE_DNSKEY)));
      if (drop : bool) then autr_cleanup_keys keys' else
      let p := if decide (p.(s) <> AUTR_STATE_ADDPEND) then with_pending 0 p else p in
      keys' ← autr_cleanup_keys keys';
      Ok (p :: keys')
  end.
End Events.
