(* ===== verification/AutotrustKeys.v ===== *)
(** * RFC 5011: the life of one key

    Well-formed keys, the state table of RFC 5011 section 4 and the steps a key can
    take, with the operations of [Autotrust] shown to take only those steps. *)

From S2P Require Import Prelude Sbuffer DnsTree Autotrust.

(** ** Well-formed resource records *)

(** The RR of a key: owner name, type, class, TTL, and rdata with its length. *)
Definition rr_bytes (n : list Z) (t c tl : Z) (d : list Z) : list Z :=
  n ++ sldns_write_uint16 t ++ sldns_write_uint16 c ++ sldns_write_uint32 tl ++ sldns_write_uint16 (zlen d) ++ d.

Record rr_view (ta : autr_ta) (n : list Z) (t c tl : Z) (d : list Z) : Prop := {
  v_rr : ta.(rr) = rr_bytes n t c tl d;
  v_dname : ta.(dname_len) = zlen n;
  v_len : ta.(rr_len) = zlen ta.(rr);
  v_name : zlen n <= 255;
  v_type : in_u 16 t;
  v_class : in_u 16 c;
  v_ttl : in_u 32 tl;
  v_rdlen : in_u 16 (zlen d);
  v_rdata : bytes_ok d;
}.

Definition rr_ok (ta : autr_ta) : Prop := exists n t c tl d, rr_view ta n t c tl d.

Lemma zlen_w16 v : zlen (sldns_write_uint16 v) = 2.
Proof. done. Qed.
Lemma zlen_w32 v : zlen (sldns_write_uint32 v) = 4.
Proof. done. Qed.

Lemma zlen_rr_bytes n t c tl d : zlen (rr_bytes n t c tl d) = zlen n + 10 + zlen d.
Proof. unfold rr_bytes. rewrite !zlen_app, !zlen_w16, zlen_w32. lia. Qed.

Lemma zdrop_app_plus {A} (l k : list A) i : 0 <= i -> zdrop (zlen l + i) (l ++ k) = zdrop i k.
Proof.
  intros. rewrite <- (zdrop_zdrop i (zlen l)) by (done || apply zlen_nonneg). by rewrite zdrop_app_zlen.
Qed.

Section View.
Context (ta : autr_ta) (n : list Z) (t c tl : Z) (d : list Z) (V : rr_view ta n t c tl d).

Lemma view_bounds : 0 <= zlen n /\ 0 <= zlen d < 65536 /\ ta.(rr_len) = zlen n + 10 + zlen d.
Proof.
  destruct V. pose proof (zlen_nonneg n). pose proof (zlen_nonneg d). unfold in_u in *.
  rewrite v_len0, v_rr0, zlen_rr_bytes. change (2 ^ 16) with 65536 in *. lia.
Qed.

Lemma view_advance i : 0 <= i <= 10 ->
  advance (ta.(dname_len) + i) ta.(rr) = Ok (zdrop i (zdrop (zlen n) (rr_bytes n t c tl d))) /\
  (ta.(rr_len) <? u64 (ta.(dname_len) + i)) = false.
Proof.
  intros Hi. pose proof view_bounds as (Hn & Hd & Hl). destruct V. rewrite v_dname0. split.
  - rewrite v_rr0, zdrop_zdrop by lia. apply advance_ok. rewrite zlen_rr_bytes. lia.
  - rewrite wrap_small by (unfold in_u; lia). apply ltb_false. lia.
Qed.

Lemma view_type : ta_type ta = Ok t.
Proof.
  unfold ta_type, sldns_wirerr_get_type. rewrite (proj2 (view_advance 2 ltac:(lia))).
  pose proof (proj1 (view_advance 0 ltac:(lia))) as E. rewrite Z.add_0_r in E. rewrite E, bind_Ok.
  unfold rr_bytes. rewrite zdrop_app_zlen, zdrop_0. apply read_write_uint16, V.
Qed.

Lemma view_class : sldns_wirerr_get_class ta.(rr) ta.(rr_len) ta.(dname_len) = Ok c.
Proof.
  unfold sldns_wirerr_get_class. rewrite (proj2 (view_advance 4 ltac:(lia))), (proj1 (view_advance 2 ltac:(lia))), bind_Ok.
  unfold rr_bytes. rewrite zdrop_app_zlen. rewrite (zdrop_app_zlen (sldns_write_uint16 t) _). apply read_write_uint16, V.
Qed.

Lemma view_ttl : sldns_wirerr_get_ttl ta.(rr) ta.(rr_len) ta.(dname_len) = Ok tl.
Proof.
  unfold sldns_wirerr_get_ttl. rewrite (proj2 (view_advance 8 ltac:(lia))), (proj1 (view_advance 4 ltac:(lia))), bind_Ok.
  unfold rr_bytes. rewrite zdrop_app_zlen.
  change 4 with (zlen (sldns_write_uint16 t) + 2) at 1. rewrite zdrop_app_plus by lia.
  rewrite (zdrop_app_zlen (sldns_write_uint16 c) _). apply read_write_uint32, V.
Qed.

Lemma view_tail : zdrop 8 (zdrop (zlen n) (rr_bytes n t c tl d)) = sldns_write_uint16 (zlen d) ++ d.
Proof.
  unfold rr_bytes. rewrite zdrop_app_zlen. change 8 with (zlen (sldns_write_uint16 t) + 6). rewrite zdrop_app_plus by lia.
  change 6 with (zlen (sldns_write_uint16 c) + 4). rewrite zdrop_app_plus by lia.
  by rewrite (zdrop_app_zlen (sldns_write_uint32 tl) _).
Qed.

Lemma view_rdatalen : ta_rdatalen ta = Ok (zlen d).
Proof.
  unfold ta_rdatalen, sldns_wirerr_get_rdatalen.
  rewrite (proj2 (view_advance 10 ltac:(lia))), (proj1 (view_advance 8 ltac:(lia))), bind_Ok, view_tail.
  apply read_write_uint16, V.
Qed.

Lemma view_rdatawl : sldns_wirerr_get_rdatawl ta.(rr) ta.(rr_len) ta.(dname_len)
  = Ok (Some (sldns_write_uint16 (zlen d) ++ d)).
Proof.
  unfold sldns_wirerr_get_rdatawl.
  by rewrite (proj2 (view_advance 10 ltac:(lia))), (proj1 (view_advance 8 ltac:(lia))), bind_Ok, view_tail.
Qed.

Lemma view_rdata : ta_rdata ta = Ok (Some d).
Proof.
  unfold ta_rdata, sldns_wirerr_get_rdata.
  rewrite (proj2 (view_advance 10 ltac:(lia))), (proj1 (view_advance 10 ltac:(lia))), bind_Ok.
  change 10 with (8 + 2) at 1. rewrite <- (zdrop_zdrop 2 8), view_tail by lia.
  change 2 with (zlen (sldns_write_uint16 (zlen d))). by rewrite (zdrop_app_zlen (sldns_write_uint16 (zlen d)) d).
Qed.
End View.

Definition ktype (ta : autr_ta) : Z := match ta_type ta with Ok t => t | _ => 0 end.
Definition krdata (ta : autr_ta) : list Z := match ta_rdata ta with Ok (Some d) => d | _ => [] end.
Definition ksep (ta : autr_ta) : bool := match ta_is_dnskey_sep ta with Ok b => b | _ => false end.

Lemma view_k ta n t c tl d : rr_view ta n t c tl d -> ktype ta = t /\ krdata ta = d.
Proof. intros V. unfold ktype, krdata. by rewrite (view_type _ _ _ _ _ _ V), (view_rdata _ _ _ _ _ _ V). Qed.

Lemma type_ok ta : rr_ok ta -> ta_type ta = Ok (ktype ta).
Proof. intros (n & t & c & tl & d & V). by rewrite (view_type _ _ _ _ _ _ V), (proj1 (view_k _ _ _ _ _ _ V)). Qed.

Lemma dnskey_flags_total t d len : len <= zlen d -> exists f, dnskey_flags t (Some d) len = Ok f.
Proof.
  intros. unfold dnskey_flags. destruct (negb _); [eauto|]. destruct (Z.ltb_spec len 2); [eauto|].
  apply uint16_total. lia.
Qed.

Lemma sep_total t d len : len <= zlen d -> exists b, rr_is_dnskey_sep t (Some d) len = Ok b.
Proof. intros H. unfold rr_is_dnskey_sep. destruct (dnskey_flags_total t d len H) as [f ->]. rewrite bind_Ok. eauto. Qed.

Lemma revoked_total t d len : len <= zlen d -> exists b, rr_is_dnskey_revoked t (Some d) len = Ok b.
Proof. intros H. unfold rr_is_dnskey_revoked. destruct (dnskey_flags_total t d len H) as [f ->]. rewrite bind_Ok. eauto. Qed.

Lemma view_sep ta n t c tl d : rr_view ta n t c tl d -> ta_is_dnskey_sep ta = rr_is_dnskey_sep t (Some d) (zlen d).
Proof.
  intros V. unfold ta_is_dnskey_sep.
  by rewrite (view_type _ _ _ _ _ _ V), bind_Ok, (view_rdata _ _ _ _ _ _ V), bind_Ok, (view_rdatalen _ _ _ _ _ _ V), bind_Ok.
Qed.

Lemma is_sep_ok ta : rr_ok ta -> ta_is_dnskey_sep ta = Ok (ksep ta).
Proof.
  intros (n & t & c & tl & d & V). unfold ksep. rewrite (view_sep _ _ _ _ _ _ V).
  destruct (sep_total t d (zlen d)) as [b ->]; [lia|done].
Qed.

(** ** The REVOKE bit *)

Definition set_revbit (d : list Z) : list Z :=
  match d with
  | a :: b :: r => a :: Z.lor b LDNS_KEY_REVOKE_KEY :: r
  | _ => d
  end.

Lemma zlen_set_revbit d : zlen (set_revbit d) = zlen d.
Proof. by destruct d as [|a [|b r]]. Qed.

Lemma lor_128_byte b : is_byte b -> is_byte (Z.lor b 128).
Proof.
  intros H. pose proof (byte_forall (fun x => (0 <=? Z.lor x 128) && (Z.lor x 128 <? 256)) ltac:(vm_compute; done) b H) as E.
  unfold in_u. change (2 ^ 8) with 256. apply andb_prop in E as [E1%Z.leb_le E2%Z.ltb_lt]. lia.
Qed.

Lemma bytes_set_revbit d : bytes_ok d -> bytes_ok (set_revbit d).
Proof.
  destruct d as [|a [|b r]]; [done..|]. intros H. inversion_clear H as [|? ? Ha H']. inversion_clear H' as [|? ? Hb Hr].
  constructor; [done|]. constructor; [by apply lor_128_byte|done].
Qed.

Lemma write_lor_128 a b : is_byte a -> is_byte b ->
  sldns_write_uint16 (Z.lor (Z.lor (Z.shiftl a 8) b) LDNS_KEY_REVOKE_KEY) = [a; Z.lor b 128].
Proof.
  intros Ha Hb. pose proof (lor_128_byte b Hb) as Hc. unfold in_u in *. change (2 ^ 8) with 256 in *.
  unfold LDNS_KEY_REVOKE_KEY. rewrite <- Z.lor_assoc, lor_shiftl_add by (change (2 ^ 8) with 256; lia).
  unfold sldns_write_uint16. rewrite !land_255, Z.shiftr_div_pow2 by lia. change (2 ^ 8) with 256.
  f_equal; [divlia|f_equal; divlia].
Qed.

Lemma write_at_app a x b y : zlen x = zlen y -> write_at (a ++ x ++ b) (zlen a) y = Ok (a ++ y ++ b).
Proof.
  intros E. unfold write_at. pose proof (zlen_nonneg a). pose proof (zlen_nonneg b). pose proof (zlen_nonneg y).
  rewrite !zlen_app, leb_true, leb_true by lia. cbn [andb]. rewrite ztake_app_zlen, zdrop_app_plus by lia.
  by rewrite <- E, zdrop_app_zlen.
Qed.

(** The resource record of a key becomes that of [ta']: the same name, type, class,
    TTL and rdata, but for the REVOKE bit of a DNSKEY that is [revoked]. *)
Definition rr_becomes (revoked : bool) (ta ta' : autr_ta) : Prop :=
  exists n t c tl d, rr_view ta n t c tl d /\
    rr_view ta' n t c tl (if revoked && (t =? LDNS_RR_TYPE_DNSKEY) then set_revbit d else d).

Lemma rr_becomes_same ta ta' : rr_ok ta -> ta'.(rr) = ta.(rr) -> ta'.(rr_len) = ta.(rr_len) ->
  ta'.(dname_len) = ta.(dname_len) -> rr_becomes false ta ta'.
Proof. intros (n & t & c & tl & d & V) E1 E2 E3. exists n, t, c, tl, d. split; [done|]. destruct V. cbn [andb]. split; try done; congruence. Qed.

Lemma revoke_ok ta : rr_ok ta -> exists ta', revoke_dnskey ta false = Ok ta' /\ rr_ok ta' /\ rr_becomes true ta ta' /\
  ta' = with_rr ta'.(rr) ta /\ ktype ta' = ktype ta /\ 
  krdata ta' = if (ktype ta =? LDNS_RR_TYPE_DNSKEY) then set_revbit (krdata ta) else krdata ta.
Proof.
  intros (n & t & c & tl & d & V). pose proof (view_k _ _ _ _ _ _ V) as [-> ->].
  assert (rr_ok ta) as Hok by (by exists n, t, c, tl, d). unfold revoke_dnskey.
  rewrite (view_type _ _ _ _ _ _ V), bind_Ok, (view_rdatalen _ _ _ _ _ _ V), (view_rdata _ _ _ _ _ _ V).
  destruct (t =? LDNS_RR_TYPE_DNSKEY) eqn:Et; cbn [negb].
  2: { exists ta. pose proof (view_k _ _ _ _ _ _ V) as [-> ->]. split; [done|]. split; [done|].
       split; [exists n, t, c, tl, d; by rewrite Et|]. by destruct ta. }
  rewrite bind_Ok. destruct (Z.ltb_spec (zlen d) 2) as [Hd|Hd].
  { exists ta. pose proof (view_k _ _ _ _ _ _ V) as [-> ->]. split; [done|]. split; [done|].
    split; [exists n, t, c, tl, d; rewrite Et|]; destruct d as [|? [|? d]]; try done; try by destruct ta.
    all: exfalso; rewrite !zlen_cons in Hd; pose proof (zlen_nonneg d); lia. }
  destruct d as [|a [|b d']]; [done..|]. pose proof (v_rdata _ _ _ _ _ _ V) as Hb. inversion Hb as [|? ? Ha Hb']; subst.
  inversion Hb' as [|? ? Hb1 Hr]; subst. rewrite bind_Ok. cbn [nonnull]. rewrite bind_Ok.
  change (sldns_read_uint16 (a :: b :: d')) with (Ok (Z.lor (Z.shiftl a 8) b)). rewrite bind_Ok. cbn [andb].
  rewrite write_lor_128 by done.
  set (d2 := set_revbit (a :: b :: d')).
  set (pre := n ++ sldns_write_uint16 t ++ sldns_write_uint16 c ++ sldns_write_uint32 tl ++ sldns_write_uint16 (zlen (a :: b :: d'))).
  assert (ta.(rr) = pre ++ [a; b] ++ d') as Er.
  { rewrite (v_rr _ _ _ _ _ _ V). unfold rr_bytes, pre. by rewrite <- !app_assoc. }
  assert (ta.(dname_len) + 10 = zlen pre) as El.
  { rewrite (v_dname _ _ _ _ _ _ V). unfold pre. rewrite !zlen_app, !zlen_w16, zlen_w32. lia. }
  rewrite Er, El, write_at_app, bind_Ok by done. eexists. split; [reflexivity|].
  assert (rr_view (with_rr (pre ++ [a; Z.lor b 128] ++ d') ta) n t c tl d2) as V2.
  { destruct V. split; cbn [with_rr rr dname_len rr_len]; try done.
    - unfold rr_bytes, pre. rewrite <- !app_assoc. unfold d2. by rewrite zlen_set_revbit.
    - rewrite v_len0, Er, !zlen_app. done.
    - by apply bytes_set_revbit. }
  split; [by exists n, t, c, tl, d2|]. split; [exists n, t, c, tl, (a :: b :: d'); rewrite Et; by split|].
  pose proof (view_k _ _ _ _ _ _ V2) as [-> ->]. by destruct ta.
Qed.

(** ** Keys are the same up to the REVOKE bit *)

Definition same_key (d : list Z) (ta : autr_ta) : Prop :=
  ktype ta = LDNS_RR_TYPE_DNSKEY /\ set_revbit (krdata ta) = set_revbit d.

#[global] Instance same_key_dec d ta : Decision (same_key d ta).
Proof. unfold same_key. apply _. Defined.

Lemma skip_loop_rest n : forall i a b, 2 <= i -> length a = n -> length b = n ->
  skip_revbit_loop n i a b = Ok (lex a b).
Proof.
  induction n as [|n IH]; intros i a b Hi Ha Hb; destruct a as [|x a], b as [|y b]; try done.
  cbn -[lex]. rewrite eqb_false by lia. cbn [lex]. destruct (x <? y); [done|]. destruct (y <? x); [done|].
  apply IH; cbn in *; lia.
Qed.

Lemma skip_loop_ok a b : length a = length b ->
  skip_revbit_loop (length a) 0 a b = Ok (lex (set_revbit a) (set_revbit b)).
Proof.
  intros E. destruct a as [|x a], b as [|y b]; [done..|]. injection E as E. cbn -[lex Z.lor].
  destruct a as [|x1 a], b as [|y1 b]; [|done..|].
  - cbn. by destruct (x <? y), (y <? x).
  - injection E as E. cbn -[Z.lor lex]. cbn [lex]. destruct (x <? y); [done|]. destruct (y <? x); [done|].
    destruct (_ <? _); [done|]. destruct (_ <? _); [done|]. by apply skip_loop_rest.
Qed.

Lemma ta_compare_ok ta d : rr_ok ta -> exists c,
  ta_compare ta LDNS_RR_TYPE_DNSKEY (Some d) (zlen d) = Ok c /\ (c = 0 <-> same_key d ta).
Proof.
  intros (n & t & c & tl & d' & V). unfold same_key. pose proof (view_k _ _ _ _ _ _ V) as [-> ->]. cbn [ta_compare].
  rewrite (view_type _ _ _ _ _ _ V), bind_Ok. destruct (Z.eqb_spec t LDNS_RR_TYPE_DNSKEY) as [->|Ht]; cbn [negb].
  2: { eexists. split; [reflexivity|]. split; [lia|]. intros [? _]. lia. }
  rewrite (view_rdata _ _ _ _ _ _ V), bind_Ok, (view_rdatalen _ _ _ _ _ _ V), bind_Ok.
  change (LDNS_RR_TYPE_DNSKEY =? LDNS_RR_TYPE_DNSKEY) with true. cbn [dnskey_compare_skip_revbit nonnull].
  unfold dnskey_compare_skip_revbit. destruct (Z.eqb_spec (zlen d') (zlen d)) as [E|E]; cbn [negb].
  2: { eexists. split; [reflexivity|]. split; [lia|]. intros [_ E2]. apply (f_equal zlen) in E2.
       rewrite !zlen_set_revbit in E2. done. }
  exists (lex (set_revbit d') (set_revbit d)). split; [|rewrite lex_eq; tauto].
  destruct (Z.eqb_spec (zlen d') 0) as [E0|E0].
  { apply zlen_0_inv in E0 as ->. symmetry in E. by apply zlen_0_inv in E as ->. }
  cbn [nonnull]. rewrite bind_Ok, to_nat_zlen. apply skip_loop_ok. unfold zlen in E. lia.
Qed.

Lemma find_key_ok keys d : Forall rr_ok keys ->
  find_key keys LDNS_RR_TYPE_DNSKEY (Some d) (zlen d) = Ok (true, fst <$> list_find (same_key d) keys).
Proof.
  intros H. unfold find_key. cut (forall i, find_key_loop keys i LDNS_RR_TYPE_DNSKEY (Some d) (zlen d)
    = Ok ((fun r => (i + fst r)%nat) <$> list_find (same_key d) keys)).
  { intros E. rewrite E. by destruct (list_find _ _) as [[j ta]|]. }
  induction H as [|ta keys Hta H IH]; intros i; [done|]. cbn [find_key_loop list_find].
  destruct (ta_compare_ok ta d Hta) as (c & -> & Hc). rewrite bind_Ok. destruct (Z.eqb_spec c 0) as [E|E].
  - rewrite decide_True by (by apply Hc). cbn. by rewrite Nat.add_0_r.
  - rewrite decide_False by tauto. rewrite IH. destruct (list_find _ keys) as [[j ta']|]; [|done]. cbn. by rewrite Nat.add_succ_r.
Qed.

(** ** The state table of RFC 5011 *)

Inductive rfc_event := NewKey | KeyPres | KeyRem | AddTime | RemTime | RevBit.

#[global] Instance rfc_event_eq_dec : EqDecision rfc_event.
Proof. solve_decision. Defined.

Inductive rfc5011 : autr_state -> rfc_event -> autr_state -> Prop :=
  | rfc_newkey : rfc5011 AUTR_STATE_START NewKey AUTR_STATE_ADDPEND
  | rfc_pending_removed : rfc5011 AUTR_STATE_ADDPEND KeyRem AUTR_STATE_START
  | rfc_addtime : rfc5011 AUTR_STATE_ADDPEND AddTime AUTR_STATE_VALID
  | rfc_valid_removed : rfc5011 AUTR_STATE_VALID KeyRem AUTR_STATE_MISSING
  | rfc_valid_revoked : rfc5011 AUTR_STATE_VALID RevBit AUTR_STATE_REVOKED
  | rfc_keypres : rfc5011 AUTR_STATE_MISSING KeyPres AUTR_STATE_VALID
  | rfc_missing_revoked : rfc5011 AUTR_STATE_MISSING RevBit AUTR_STATE_REVOKED
  | rfc_remtime : rfc5011 AUTR_STATE_REVOKED RemTime AUTR_STATE_REMOVED.

(** The event happens to the key now. *)
Definition occurs (env : module_env) (ta : autr_ta) (e : rfc_event) : Prop :=
  let elapsed := env.(now) - ta.(last_change) in
  match e with
  | NewKey | KeyPres => ta.(fetched) = true
  | KeyRem => ta.(fetched) = false
  | AddTime => env.(add_holddown) < elapsed /\ MIN_PENDINGCOUNT <= ta.(pending_count)
  | RemTime => env.(del_holddown) < elapsed /\ ta.(fetched) = false
  | RevBit => ta.(revoked) = true
  end.

Record env_ok (env : module_env) : Prop := {
  e_now : 0 <= env.(now) < 2 ^ 62;
  e_add : in_u 32 env.(add_holddown);
  e_del : in_u 32 env.(del_holddown);
  e_keep : in_u 32 env.(keep_missing);
}.

Record key_ok (ta : autr_ta) : Prop := {
  k_rr : rr_ok ta;
  k_type : ktype ta = LDNS_RR_TYPE_DS \/ ktype ta = LDNS_RR_TYPE_DNSKEY;
  k_pending : in_u 8 ta.(pending_count);
  k_time : - 2 ^ 31 <= ta.(last_change) < 2 ^ 62;
}.

(** The same key: the type and the rdata up to the REVOKE bit. *)
Definition same_id (ta ta' : autr_ta) : Prop :=
  ktype ta' = ktype ta /\ set_revbit (krdata ta') = set_revbit (krdata ta).

(** What a DNSKEY response says: it is validated by the trust anchors, it contains
    a key, or a key that revokes itself, the DS anchors vouch for a key, and
    there is a configured ZSK. *)
Record response := mk_response {
  accepted : Prop;
  contains : list Z -> Prop;
  self_revoked : list Z -> Prop;
  by_ds : list Z -> Prop;
  by_zsk : Prop;
}.

Inductive key_step (env : module_env) (R : response) (ta : autr_ta) : autr_ta -> Prop :=
  | KS_unseen : key_step env R ta (with_fetched false ta)
  | KS_seen d : R.(accepted) -> R.(contains) d -> same_key d ta -> key_step env R ta (seen_trustanchor ta true)
  | KS_revbit d : R.(self_revoked) d -> same_key d ta -> key_step env R ta (with_revoked true ta)
  | KS_ds d : R.(accepted) -> R.(by_ds) d -> same_key d ta -> ksep ta = true -> ta.(s) = AUTR_STATE_START ->
      key_step env R ta (with_s AUTR_STATE_VALID ta)
  | KS_event e ta' : occurs env ta e -> rfc5011 ta.(s) e ta'.(s) -> ta'.(last_change) = env.(now) ->
      ta'.(fetched) = ta.(fetched) -> ta'.(revoked) = ta.(revoked) ->
      ta'.(pending_count) = (if decide (ta.(s) = AUTR_STATE_ADDPEND) then 0 else ta.(pending_count)) ->
      same_id ta ta' -> ksep ta = true -> ksep ta' = true -> key_step env R ta ta'
  | KS_touch : ksep ta = true -> ta.(s) = AUTR_STATE_VALID \/ ta.(s) = AUTR_STATE_REVOKED ->
      key_step env R ta (with_last_change env.(now) ta)
  | KS_zsk : R.(accepted) -> R.(by_zsk) -> ksep ta = true -> ta.(s) = AUTR_STATE_ADDPEND ->
      key_step env R ta (with_last_change env.(now) (with_s AUTR_STATE_VALID ta))
  | KS_remove : R.(accepted) -> ta.(s) <> AUTR_STATE_START ->
      ksep ta = false \/ (ta.(s) = AUTR_STATE_MISSING /\ env.(keep_missing) <> 0 /\
                          env.(keep_missing) < env.(now) - ta.(last_change)) ->
      key_step env R ta (with_last_change env.(now) (with_s AUTR_STATE_REMOVED ta))
  | KS_clear : ta.(s) <> AUTR_STATE_ADDPEND -> key_step env R ta (with_pending 0 ta).

Lemma key_step_id env R ta ta' : key_step env R ta ta' -> same_id ta ta'.
Proof. destruct 1; try done. unfold seen_trustanchor. by destruct (_ <? _). Qed.

Lemma key_steps_id env R ta ta' : rtc (key_step env R) ta ta' -> same_id ta ta'.
Proof.
  induction 1 as [|x y z H1 _ IH]; [done|]. apply key_step_id in H1. destruct H1, IH. split; congruence.
Qed.

Lemma same_id_key d ta ta' : same_id ta ta' -> same_key d ta' <-> same_key d ta.
Proof. intros [E1 E2]. unfold same_key. by rewrite E1, E2. Qed.

Lemma land_lor_128 x : Z.land (Z.lor x 128) 1 = Z.land x 1.
Proof.
  apply Z.bits_inj'. intros i Hi. rewrite !Z.land_spec, Z.lor_spec. destruct (Z.eq_dec i 0) as [->|].
  - by rewrite orb_false_r.
  - change 1 with (Z.ones 1) at 1 2. rewrite Z.ones_spec_high by lia. by rewrite !andb_false_r.
Qed.

(** The SEP bit does not depend on the REVOKE bit. *)
Lemma sep_revbit t d : rr_is_dnskey_sep t (Some (set_revbit d)) (zlen d) = rr_is_dnskey_sep t (Some d) (zlen d).
Proof.
  destruct d as [|a [|b r]]; [done..|]. unfold rr_is_dnskey_sep, dnskey_flags. destruct (negb _); [done|].
  destruct (_ <? 2); [done|]. cbn [nonnull set_revbit]. rewrite !bind_Ok.
  change (sldns_read_uint16 (a :: b :: r)) with (Ok (Z.lor (Z.shiftl a 8) b)).
  change (sldns_read_uint16 (a :: Z.lor b LDNS_KEY_REVOKE_KEY :: r)) with (Ok (Z.lor (Z.shiftl a 8) (Z.lor b 128))).
  by rewrite !bind_Ok, Z.lor_assoc, land_lor_128.
Qed.

Lemma ksep_view ta : rr_ok ta -> Ok (ksep ta) = rr_is_dnskey_sep (ktype ta) (Some (krdata ta)) (zlen (krdata ta)).
Proof.
  intros H. rewrite <- is_sep_ok by done. destruct H as (n & t & c & tl & d & V).
  by rewrite (view_sep _ _ _ _ _ _ V), (proj1 (view_k _ _ _ _ _ _ V)), (proj2 (view_k _ _ _ _ _ _ V)).
Qed.

Lemma same_id_sep ta ta' : rr_ok ta -> rr_ok ta' -> same_id ta ta' -> ksep ta' = ksep ta.
Proof.
  intros H H' [E1 E2]. apply Ok_inj. rewrite !ksep_view by done. rewrite E1, <- sep_revbit, <- (sep_revbit _ (krdata ta)).
  apply (f_equal zlen) in E2 as E3. rewrite !zlen_set_revbit in E3. by rewrite E2, E3.
Qed.

Lemma same_key_sep d ta : rr_ok ta -> same_key d ta ->
  rr_is_dnskey_sep LDNS_RR_TYPE_DNSKEY (Some d) (zlen d) = Ok (ksep ta).
Proof.
  intros H [E1 E2]. rewrite ksep_view by done. rewrite E1, <- sep_revbit, <- (sep_revbit _ (krdata ta)).
  apply (f_equal zlen) in E2 as E3. rewrite !zlen_set_revbit in E3. by rewrite E2, E3.
Qed.

(** ** The operations on one key take these steps *)

Section Steps.
Context (env : module_env) (He : env_ok env) (R : response).

Lemma check_holddown_ok ta h : key_ok ta -> in_u 32 h ->
  exists x, check_holddown env ta h = Ok x /\ negb (x =? 0) = bool_decide (h < env.(now) - ta.(last_change)).
Proof.
  intros Hk Hh. pose proof (e_now _ He). pose proof (k_time _ Hk). unfold check_holddown, in_u in *.
  destruct (Z.ltb_spec env.(now) ta.(last_change)) as [H1|H1].
  { exists 0. split; [done|]. rewrite bool_decide_eq_false_2 by lia. done. }
  rewrite sint_ok, bind_Ok by (unfold in_s; lia). destruct (Z.ltb_spec h (env.(now) - ta.(last_change))) as [H2|H2].
  - eexists. split; [reflexivity|]. rewrite bool_decide_eq_true_2 by done. rewrite eqb_false; [done|lia].
  - exists 0. split; [done|]. by rewrite bool_decide_eq_false_2 by lia.
Qed.

(** What an operation on a key leaves. *)
Definition stepped (ta : autr_ta) (r : outcome (autr_ta * bool)) : Prop :=
  exists ta' c', r = Ok (ta', c') /\ key_ok ta' /\ rtc (key_step env R) ta ta'.

Lemma key_ok_with ta ta' : key_ok ta -> ta'.(rr) = ta.(rr) -> ta'.(rr_len) = ta.(rr_len) ->
  ta'.(dname_len) = ta.(dname_len) -> in_u 8 ta'.(pending_count) ->
  (ta'.(last_change) = ta.(last_change) \/ ta'.(last_change) = env.(now)) -> key_ok ta'.
Proof.
  intros [(n & t & c & tl & d & []) Ky Kp Kt] E1 E2 E3 Hp Ht. split; [| |done|].
  - exists n, t, c, tl, d. split; congruence || done.
  - unfold ktype, ta_type. by rewrite E1, E2, E3.
  - pose proof (e_now _ He). destruct Ht as [->| ->]; lia.
Qed.

Ltac kok Hk := apply (key_ok_with _ _ Hk); cbn; auto using k_pending; try (unfold in_u; lia).

Lemma stepped_refl ta c : key_ok ta -> stepped ta (Ok (ta, c)).
Proof. intros. by exists ta, c. Qed.

Lemma stepped_one ta ta' c : key_ok ta' -> key_step env R ta ta' -> stepped ta (Ok (ta', c)).
Proof. intros. exists ta', c. split; [done|]. split; [done|]. by apply rtc_once. Qed.

(** The transition of an event. *)
Definition event_step (ta ta' : autr_ta) (e : rfc_event) : Prop :=
  occurs env ta e /\ rfc5011 ta.(s) e ta'.(s) /\ ta'.(last_change) = env.(now) /\
  ta'.(fetched) = ta.(fetched) /\ ta'.(revoked) = ta.(revoked) /\
  ta'.(pending_count) = (if decide (ta.(s) = AUTR_STATE_ADDPEND) then 0 else ta.(pending_count)) /\
  same_id ta ta' /\ rr_becomes (bool_decide (e = RevBit)) ta ta'.

Lemma event_stepped ta ta' e c : key_ok ta -> key_ok ta' -> ksep ta = true -> event_step ta ta' e ->
  stepped ta (Ok (ta', c)).
Proof.
  intros Hk Hk' Hs (? & ? & ? & ? & ? & ? & Hid & _). apply stepped_one; [done|]. apply KS_event with e; try done.
  rewrite (same_id_sep ta ta'); [done|apply Hk|apply Hk'|done].
Qed.

Lemma revoked_event ta c : key_ok ta -> ta.(s) = AUTR_STATE_VALID \/ ta.(s) = AUTR_STATE_MISSING ->
  ta.(revoked) = true -> exists ta', do_revoked env ta c = Ok (ta', true) /\ key_ok ta' /\ event_step ta ta' RevBit /\
    (ktype ta = LDNS_RR_TYPE_DNSKEY -> krdata ta' = set_revbit (krdata ta)).
Proof.
  intros Hk Hs Hr. unfold do_revoked. rewrite decide_True by done. unfold set_trustanchor_state, reset_holddown.
  rewrite bind_Ok. set (ta1 := with_last_change env.(now) (with_s AUTR_STATE_REVOKED ta)).
  assert (key_ok ta1) as Hk1 by kok Hk. destruct (revoke_ok ta1 (k_rr _ Hk1)) as (ta' & -> & Hrr & Hb & E & Et & Ed).
  rewrite bind_Ok. exists ta'. split; [done|]. change (ktype ta1) with (ktype ta) in Et, Ed.
  change (krdata ta1) with (krdata ta) in Ed. split; [|split].
  - rewrite E. split; [by rewrite <- E|rewrite <- E, Et; apply Hk|apply Hk1..].
  - unfold event_step. split; [done|]. split; [rewrite E; cbn; destruct Hs as [-> | ->]; constructor|].
    split; [by rewrite E|]. split; [by rewrite E|]. split; [by rewrite E|]. split; [rewrite E; by destruct Hs as [-> | ->]|].
    split; [split; [by unfold ktype in *|]|].
    + rewrite Ed. destruct (_ =? _); [|done]. destruct (krdata ta) as [|x [|y r]]; [done..|].
      cbn -[Z.lor]. by rewrite <- Z.lor_assoc.
    + destruct Hb as (n & t & cl & tl & d & V & V'). exists n, t, cl, tl, d. split; [|done]. by destruct V; split.
  - intros Et2. rewrite Ed, Et2. done.
Qed.

Lemma addtime_event ta c : key_ok ta -> ta.(s) = AUTR_STATE_ADDPEND ->
  if decide (env.(add_holddown) < env.(now) - ta.(last_change) /\ MIN_PENDINGCOUNT <= ta.(pending_count)) then
    exists ta', do_addtime env ta c = Ok (ta', true) /\ key_ok ta' /\ event_step ta ta' AddTime
  else do_addtime env ta c = Ok (ta, c).
Proof.
  intros Hk Hs. unfold do_addtime. destruct (check_holddown_ok ta _ Hk (e_add _ He)) as (x & -> & Hx).
  rewrite bind_Ok, Hx, Hs. rewrite (bool_decide_eq_true_2 (AUTR_STATE_ADDPEND = _)), andb_true_r by done.
  destruct (bool_decide_reflect (env.(add_holddown) < env.(now) - ta.(last_change))) as [H1|H1].
  2: { by rewrite decide_False by tauto. }
  destruct (Z.leb_spec MIN_PENDINGCOUNT ta.(pending_count)) as [H2|H2].
  2: { rewrite decide_False by lia. done. }
  rewrite decide_True by done. eexists. split; [reflexivity|]. split; [kok Hk|].
  unfold event_step. cbn. rewrite Hs, decide_True by done. repeat split; try done; [constructor|].
  apply rr_becomes_same; [apply Hk|done..].
Qed.

(** The time starts again of a VALID key that is seen for the first time and of a
    REVOKED key that is seen. *)
Definition restarts (ta : autr_ta) : bool :=
  ta.(fetched) && ((bool_decide (ta.(s) = AUTR_STATE_VALID) && (ta.(last_change) =? 0)) || bool_decide (ta.(s) = AUTR_STATE_REVOKED)).

(** No event happens: nothing of the key changes, unless its time starts again. *)
Definition quiet (ta : autr_ta) (c : bool) (ta' : autr_ta) (c' : bool) : Prop :=
  (forall e x, occurs env ta e -> ~ rfc5011 ta.(s) e x) /\
  (ta', c') = (if restarts ta then (with_last_change env.(now) ta, true) else (ta, c)).

Ltac no_event := intros e x Ho Hr; inversion Hr; subst; cbn in Ho; destruct_and?; try congruence; try lia.
Ltac event_done Hk := repeat split; cbn; try done; try (apply rr_becomes_same; [apply (k_rr _ Hk)|done..]); try constructor; congruence.

(** What [anchor_state_update] answers. *)
Definition updated (ta : autr_ta) (c : bool) (r : outcome (autr_ta * bool)) : Prop :=
  exists ta' c', r = Ok (ta', c') /\ key_ok ta' /\
    ((exists e, event_step ta ta' e /\ c' = true) \/ quiet ta c ta' c').

Lemma updated_event ta c ta' e : key_ok ta' -> event_step ta ta' e -> updated ta c (Ok (ta', true)).
Proof. intros. exists ta', true. split; [done|]. split; [done|]. left. by exists e. Qed.

Lemma updated_same ta c : key_ok ta -> restarts ta = false -> (forall e x, occurs env ta e -> ~ rfc5011 ta.(s) e x) ->
  updated ta c (Ok (ta, c)).
Proof. intros ? E ?. exists ta, c. split; [done|]. split; [done|]. right. split; [done|]. by rewrite E. Qed.

Lemma updated_touch ta c : key_ok ta -> restarts ta = true -> (forall e x, occurs env ta e -> ~ rfc5011 ta.(s) e x) ->
  updated ta c (reset_holddown env ta c).
Proof.
  intros Hk E Hq. exists (with_last_change env.(now) ta), true. split; [done|]. split; [kok Hk|]. right.
  split; [done|]. by rewrite E.
Qed.

Lemma restarts_state ta : restarts ta = true -> ta.(s) = AUTR_STATE_VALID \/ ta.(s) = AUTR_STATE_REVOKED.
Proof. unfold restarts. intros [_ [[H%bool_decide_eq_true _]%andb_true_iff|H%bool_decide_eq_true]%orb_true_iff]%andb_true_iff; auto. Qed.

Ltac no_restart Es := unfold restarts; rewrite Es; by destruct (fetched _).

Ltac by_event Hk Es e := apply (updated_event _ _ _ e); [kok Hk|unfold event_step; cbn; rewrite Es;
  (rewrite decide_True by done) || (rewrite decide_False by done); event_done Hk].

Lemma state_update_event ta c : key_ok ta -> updated ta c (anchor_state_update env ta c).
Proof.
  intros Hk. unfold anchor_state_update. destruct ta.(s) eqn:Es.
  - destruct ta.(fetched) eqn:Ef; [|apply updated_same; [done|no_restart Es|rewrite Es; no_event]].
    unfold do_newkey. rewrite Es, decide_True by done. by_event Hk Es NewKey.
  - destruct ta.(fetched) eqn:Ef; cbn [negb].
    + pose proof (addtime_event ta c Hk Es) as Ha. destruct (decide _) as [Hd|Hd].
      * destruct Ha as (ta' & -> & Hk' & Hev). by apply (updated_event _ _ _ AddTime).
      * rewrite Ha. apply updated_same; [done|no_restart Es|rewrite Es; no_event].
    + unfold do_keyrem. rewrite Es, decide_True by done. by_event Hk Es KeyRem.
  - destruct ta.(revoked) eqn:Er.
    + destruct (revoked_event ta c Hk (or_introl Es) Er) as (ta' & -> & Hk' & Hev & _). by apply (updated_event _ _ _ RevBit).
    + destruct ta.(fetched) eqn:Ef; cbn [negb].
      * assert (forall e x, occurs env ta e -> ~ rfc5011 ta.(s) e x) as Hq by (rewrite Es; no_event).
        destruct (ta.(last_change) =? 0) eqn:El; [apply updated_touch|apply updated_same]; try done; unfold restarts; by rewrite Es, Ef, El.
      * unfold do_keyrem. rewrite Es, decide_False, decide_True by done. by_event Hk Es KeyRem.
  - destruct ta.(revoked) eqn:Er.
    + destruct (revoked_event ta c Hk (or_intror Es) Er) as (ta' & -> & Hk' & Hev & _). by apply (updated_event _ _ _ RevBit).
    + destruct ta.(fetched) eqn:Ef; [|apply updated_same; [done|no_restart Es|rewrite Es; no_event]].
      unfold do_keypres. rewrite Es, decide_True by done. by_event Hk Es KeyPres.
  - destruct ta.(fetched) eqn:Ef; [apply updated_touch; [done|unfold restarts; by rewrite Es, Ef|rewrite Es; no_event]|].
    unfold do_remtime. destruct (check_holddown_ok ta _ Hk (e_del _ He)) as (y & -> & Hy).
    rewrite bind_Ok, Hy, Es. rewrite (bool_decide_eq_true_2 (AUTR_STATE_REVOKED = _)), andb_true_r by done.
    destruct (bool_decide_reflect (env.(del_holddown) < env.(now) - ta.(last_change))) as [H1|H1]; [by_event Hk Es RemTime|].
    apply updated_same; [done|no_restart Es|rewrite Es; no_event].
  - apply updated_same; [done|no_restart Es|rewrite Es; no_event].
Qed.

Lemma updated_stepped ta c r : key_ok ta -> ksep ta = true -> updated ta c r -> stepped ta r.
Proof.
  intros Hk0 Hsep (ta' & c' & -> & Hk & [(e & Hev & _)|[_ Eq]]); [by eapply event_stepped|].
  destruct (restarts ta) eqn:Er; injection Eq as -> ->; [|by apply stepped_refl].
  apply stepped_one; [done|]. apply KS_touch; [done|]. by apply restarts_state.
Qed.

Lemma addtime_stepped ta c : key_ok ta -> ksep ta = true -> ta.(s) = AUTR_STATE_ADDPEND -> stepped ta (do_addtime env ta c).
Proof.
  intros Hk Hsep Hs. pose proof (addtime_event ta c Hk Hs) as Ha. destruct (decide _).
  - destruct Ha as (ta' & -> & Hk' & Hev). by apply (event_stepped _ _ AddTime).
  - rewrite Ha. by apply stepped_refl.
Qed.

Lemma revoked_stepped ta c : key_ok ta -> ksep ta = true -> ta.(revoked) = true -> stepped ta (do_revoked env ta c).
Proof.
  intros Hk Hsep Hr. destruct (decide (ta.(s) = AUTR_STATE_VALID \/ ta.(s) = AUTR_STATE_MISSING)) as [Hs|Hs].
  - destruct (revoked_event ta c Hk Hs Hr) as (ta' & -> & Hk' & Hev & _). by apply (event_stepped _ _ RevBit).
  - unfold do_revoked. rewrite decide_False by done. by apply stepped_refl.
Qed.

Lemma seen_ok ta : key_ok ta -> key_ok (seen_trustanchor ta true).
Proof.
  intros Hk. unfold seen_trustanchor. cbn [pending_count with_fetched]. pose proof (k_pending _ Hk) as Hp. unfold in_u in *.
  destruct (Z.ltb_spec ta.(pending_count) 250); kok Hk. apply wrap_range. lia.
Qed.
End Steps.

(** ** Properties *)

(** C31. One update of the state of a well-formed key follows the table of RFC 5011.
    When an event of the table happens to the key in its state, one that happens is
    taken, to the state the table gives, at the time now and with [*changed] set; the
    counter of an ADDPEND key is cleared, and nothing else changes but that a revoked
    DNSKEY gets the REVOKE bit.  When none happens, no field of the key changes, nor does [*changed], with
    one exception: the time of a VALID key that is seen for the first time, and of a
    REVOKED key that is seen, is set to now and [*changed] is set.  The key stays
    well-formed. *)
Theorem anchor_state_update_rfc5011 (env : module_env) (ta : autr_ta) (c : bool) : env_ok env -> key_ok ta ->
  exists ta' c', anchor_state_update env ta c = Ok (ta', c') /\ key_ok ta' /\
    ((exists e, event_step env ta ta' e /\ c' = true) \/
     ((forall e x, occurs env ta e -> ~ rfc5011 ta.(s) e x) /\
      (ta', c') = (if restarts ta then (with_last_change env.(now) ta, true) else (ta, c)))).
Proof. intros He Hk. exact (state_update_event env He ta c Hk). Qed.

(** A KSK of the zone "a." that was seen twice, 31 days ago for the first time. *)
Definition sample_rr : list Z :=
  rr_bytes [1; 97; 0] LDNS_RR_TYPE_DNSKEY LDNS_RR_CLASS_IN 3600 [1; 1; 3; 8; 7; 7; 7].
Definition sample_pending : autr_ta := mk_ta sample_rr 20 3 1700000000 AUTR_STATE_ADDPEND 2 true false.
Definition sample_env : module_env := mk_env (1700000000 + 31 * 86400) 2592000 2592000 31622400 false true false.

Lemma sample_env_ok : env_ok sample_env.
Proof. by split. Qed.

Lemma sample_rr_ok ta : ta.(rr) = sample_rr -> ta.(rr_len) = 20 -> ta.(dname_len) = 3 -> rr_ok ta.
Proof.
  intros E1 E2 E3. exists [1; 97; 0], LDNS_RR_TYPE_DNSKEY, LDNS_RR_CLASS_IN, 3600, [1; 1; 3; 8; 7; 7; 7].
  split; try done; [by rewrite E1, E2|]. repeat constructor; by unfold in_u.
Qed.

Lemma sample_pending_ok : key_ok sample_pending.
Proof. split; [by apply sample_rr_ok|by right|done|done]. Qed.

Lemma anchor_state_update_rfc5011_witness : exists ta' c',
  anchor_state_update sample_env sample_pending false = Ok (ta', c') /\ ta'.(s) = AUTR_STATE_VALID.
Proof.
  destruct (anchor_state_update_rfc5011 sample_env sample_pending false sample_env_ok sample_pending_ok) as (ta' & c' & E & _).
  exists ta', c'. split; [exact E|]. vm_compute in E. injection E as <- <-. reflexivity.
Defined.
