(* ===== verification/AutotrustRrset.v ===== *)
(** * RFC 5011 trust anchors: the DNSKEY response and the assembled anchors

    What autotrust.c reads from a DNSKEY RRset and what it makes of the keys of
    the trust point: the packed DS and DNSKEY RRsets used to validate. *)

From S2P Require Import Prelude Sbuffer DnsTree Autotrust.

(** [struct packed_rrset_data]: the arrays of the RRset; [rr_data_] are the rdata
    with their length in front. *)
Record packed_rrset_data := mk_pd {
  ttl : Z;
  count : Z;
  rrsig_count : Z;
  rr_lens : list Z;
  rr_ttl : list Z;
  rr_data : list (list Z);
}.

(** [struct ub_packed_rrset_key] with the data of its entry; [rk_type] and
    [rk_class] in host order. *)
Record ub_packed_rrset_key := mk_rrset {
  rk_dname : list Z;
  rk_dname_len : Z;
  rk_type : Z;
  rk_class : Z;
  entry_data : packed_rrset_data;
}.

(** What autotrust needs of the signature and digest code, which ends in calls of
    the cryptographic library. *)
Class Sigcrypt := {
  dnskey_algo_id_is_supported : Z -> bool;
  ds_digest_size_supported : Z -> Z;
  ds_digest_match_dnskey : ub_packed_rrset_key -> Z -> ub_packed_rrset_key -> Z -> bool;
  (** [dnskey_verify_rrset] answers secure. *)
  dnskey_verify_rrset : ub_packed_rrset_key -> Z -> bool;
  (** [val_verify_DNSKEY_with_TA] answers secure. *)
  val_verify_DNSKEY_with_TA :
    ub_packed_rrset_key -> option ub_packed_rrset_key -> option ub_packed_rrset_key -> bool;
}.

(** [a[i]] *)
Definition at_ {A} (a : list A) (i : Z) : outcome A :=
  if 0 <=? i then match a !! Z.to_nat i with Some x => Ok x | None => Fault Undefined end else Fault Undefined.

(** ** Readers of rdata (validator/val_sigcrypt.c, sldns/keyraw.c) *)

Definition rrset_get_rdata (env : module_env) (k : ub_packed_rrset_key) (idx : Z) : outcome (list Z * Z) :=
  let d := k.(entry_data) in
  log_assert env (idx <? u64 (d.(count) + d.(rrsig_count)));;
  rdata ← at_ d.(rr_data) idx;
  len ← at_ d.(rr_lens) idx;
  Ok (rdata, len).

Section Readers.
Context (env : module_env).

Definition dnskey_get_algo (k : ub_packed_rrset_key) (idx : Z) : outcome Z :=
  '(rdata, len) ← rrset_get_rdata env k idx;
  if len <? 2 + 4 then Ok 0 else index rdata (2 + 3).

Definition ds_get_key_algo (k : ub_packed_rrset_key) (idx : Z) : outcome Z :=
  '(rdata, len) ← rrset_get_rdata env k idx;
  if len <? 2 + 3 then Ok 0 else index rdata (2 + 2).

Definition ds_get_digest_algo (k : ub_packed_rrset_key) (idx : Z) : outcome Z :=
  '(rdata, len) ← rrset_get_rdata env k idx;
  if len <? 2 + 4 then Ok 0 else index rdata (2 + 3).

Definition ds_get_keytag (k : ub_packed_rrset_key) (idx : Z) : outcome Z :=
  '(rdata, len) ← rrset_get_rdata env k idx;
  if len <? 2 + 2 then Ok 0 else p ← advance 2 rdata; sldns_read_uint16 p.

Fixpoint keytag_loop (n : nat) (i : Z) (key : list Z) (ac32 : Z) : outcome Z :=
  match n with
  | O => Ok ac32
  | S n' =>
      '(b, key) ← next key;
      keytag_loop n' (i + 1) key (u32 (ac32 + (if Z.odd i then b else Z.shiftl b 8)))
  end.

Definition sldns_calc_keytag_raw (key : option (list Z)) (keysize : Z) : outcome Z :=
  if keysize <? 4 then Ok 0 else
  key ← nonnull key;
  alg ← index key 3;
  if alg =? LDNS_RSAMD5 then
    if 4 <? keysize then p ← advance (keysize - 3) key; sldns_read_uint16 p else Ok 0
  else
    ac32 ← keytag_loop (Z.to_nat keysize) 0 key 0;
    let ac32 := u32 (ac32 + Z.land (Z.shiftr ac32 16) 65535) in
    Ok (Z.land ac32 65535).

(** The rdata of an RR without its length, [rr_data[i]+2] and [rr_len[i]-2]. *)
Definition rdata_of (d : packed_rrset_data) (i : Z) : outcome (list Z * Z) :=
  data ← at_ d.(rr_data) i;
  p ← advance 2 data;
  len ← at_ d.(rr_lens) i;
  Ok (p, u64 (len - 2)).

Definition dnskey_calc_keytag (k : ub_packed_rrset_key) (idx : Z) : outcome Z :=
  '(data, len) ← rrset_get_rdata env k idx;
  p ← advance 2 data;
  sldns_calc_keytag_raw (Some p) (u64 (len - 2)).

Context `{!Sigcrypt}.

Definition dnskey_algo_is_supported (k : ub_packed_rrset_key) (idx : Z) : outcome bool :=
  a ← dnskey_get_algo k idx; Ok (dnskey_algo_id_is_supported a).

(** The build without [DEPRECATE_RSA_1024]. *)
Definition dnskey_size_is_supported (k : ub_packed_rrset_key) (idx : Z) : outcome bool := Ok true.

Definition ds_digest_size_algo (k : ub_packed_rrset_key) (idx : Z) : outcome Z :=
  a ← ds_get_digest_algo k idx; Ok (ds_digest_size_supported a).

Definition ds_digest_algo_is_supported (k : ub_packed_rrset_key) (idx : Z) : outcome bool :=
  n ← ds_digest_size_algo k idx; Ok (negb (n =? 0)).

Definition ds_key_algo_is_supported (k : ub_packed_rrset_key) (idx : Z) : outcome bool :=
  a ← ds_get_key_algo k idx; Ok (dnskey_algo_id_is_supported a).

Definition rrset_get_count (k : ub_packed_rrset_key) : Z := k.(entry_data).(count).

Fixpoint favorite_loop (n : nat) (i : Z) (ds : ub_packed_rrset_key) (digest_algo : Z) : outcome Z :=
  match n with
  | O => Ok digest_algo
  | S n' =>
      b ← ds_digest_algo_is_supported ds i;
      ok ← (if (b : bool) then ds_key_algo_is_supported ds i else Ok false);
      if negb ok then favorite_loop n' (i + 1) ds digest_algo else
      d ← ds_get_digest_algo ds i;
      favorite_loop n' (i + 1) ds (if digest_algo <? d then d else digest_algo)
  end.

Definition val_favorite_ds_algo (ds : ub_packed_rrset_key) : outcome Z :=
  favorite_loop (Z.to_nat (rrset_get_count ds)) 0 ds 0.

Fixpoint matches_loop (n : nat) (ds_idx : Z) (dnskey : ub_packed_rrset_key) (key_idx : Z)
    (ds : ub_packed_rrset_key) (d : Z) : outcome bool :=
  match n with
  | O => Ok false
  | S n' =>
      let continue := matches_loop n' (ds_idx + 1) dnskey key_idx ds d in
      b ← ds_digest_algo_is_supported ds ds_idx; if negb b then continue else
      b ← ds_key_algo_is_supported ds ds_idx; if negb b then continue else
      b ← dnskey_size_is_supported dnskey key_idx; if negb b then continue else
      a ← ds_get_digest_algo ds ds_idx; if negb (a =? d) then continue else
      a ← ds_get_key_algo ds ds_idx;
      a' ← dnskey_get_algo dnskey key_idx; if negb (a =? a') then continue else
      t ← dnskey_calc_keytag dnskey key_idx;
      t' ← ds_get_keytag ds ds_idx; if negb (t =? t') then continue else
      if negb (ds_digest_match_dnskey dnskey key_idx ds ds_idx) then continue else Ok true
  end.

Definition key_matches_a_ds (dnskey : ub_packed_rrset_key) (key_idx : Z) (ds : ub_packed_rrset_key)
    : outcome bool :=
  d ← val_favorite_ds_algo ds;
  matches_loop (Z.to_nat ds.(entry_data).(count)) 0 dnskey key_idx ds d.

Definition rr_is_selfsigned_revoked (dnskey : ub_packed_rrset_key) (i : Z) : bool :=
  dnskey_verify_rrset dnskey i.

(** ** Keys that the response revokes *)

(** One RR of the response. *)
Definition check_revoked_one (dnskey : ub_packed_rrset_key) (i : Z) (keys : list autr_ta) (changed : bool)
    : outcome (list autr_ta * bool) :=
  let t := dnskey.(rk_type) in
  '(rdata, len) ← rdata_of dnskey.(entry_data) i;
  sep ← rr_is_dnskey_sep t (Some rdata) len;
  if negb sep then Ok (keys, changed) else
  rev ← rr_is_dnskey_revoked t (Some rdata) len;
  if negb rev then Ok (keys, changed) else
  '(ok, r) ← find_key keys t (Some rdata) len;
  if negb ok then Ok (keys, changed) else
  match r with
  | None => Ok (keys, changed)
  | Some n =>
      if negb (rr_is_selfsigned_revoked dnskey i) then Ok (keys, changed) else
      ta ← at_ keys (Z.of_nat n);
      (if env.(unbound_debug) then
         tag ← dnskey_calc_keytag dnskey i;
         d ← ta_rdata ta; l ← ta_rdatalen ta;
         tag' ← sldns_calc_keytag_raw d l;
         c_assert ((tag - 128 =? tag') || (tag =? tag'))
       else Ok tt);;
      let changed := if negb ta.(revoked) then true else changed in
      '(ta, changed) ← do_revoked env (seen_revoked_trustanchor ta true) changed;
      Ok (<[n := ta]> keys, changed)
  end.

Fixpoint check_revoked_loop (n : nat) (i : Z) (dnskey : ub_packed_rrset_key) (keys : list autr_ta)
    (changed : bool) : outcome (list autr_ta * bool) :=
  match n with
  | O => Ok (keys, changed)
  | S n' =>
      '(keys, changed) ← check_revoked_one dnskey i keys changed;
      check_revoked_loop n' (i + 1) dnskey keys changed
  end.

Definition check_contains_revoked (dnskey : ub_packed_rrset_key) (keys : list autr_ta) (changed : bool)
    : outcome (list autr_ta * bool) :=
  log_assert env (dnskey.(rk_type) =? LDNS_RR_TYPE_DNSKEY);;
  check_revoked_loop (Z.to_nat dnskey.(entry_data).(count)) 0 dnskey keys changed.

(** ** Keys that the response contains *)

(** One RR; [false] is the early return for lack of memory. *)
Definition update_one (name : list Z) (namelen : Z) (ds : option ub_packed_rrset_key)
    (dnskey : ub_packed_rrset_key) (i : Z) (keys : list autr_ta) (changed : bool) (m : mem)
    : outcome (bool * list autr_ta * bool * mem) :=
  let t := dnskey.(rk_type) in
  let skip := Ok (true, keys, changed, m) in
  '(rdata, len) ← rdata_of dnskey.(entry_data) i;
  sep ← rr_is_dnskey_sep t (Some rdata) len;
  if negb sep then skip else
  rev ← rr_is_dnskey_revoked t (Some rdata) len;
  if (rev : bool) then skip else
  b ← dnskey_algo_is_supported dnskey i; if negb b then skip else
  b ← dnskey_size_is_supported dnskey i; if negb b then skip else
  '(ok, r) ← find_key keys t (Some rdata) len;
  if negb ok then Ok (false, keys, changed, m) else
  match r with
  | Some n =>
      ta ← at_ keys (Z.of_nat n);
      Ok (true, <[n := seen_trustanchor ta true]> keys, changed, m)
  | None =>
      rttl ← at_ dnskey.(entry_data).(rr_ttl) i;
      '(ok, keys, m) ← add_key m name namelen keys (u32 rttl) rdata len;
      if negb ok then Ok (false, keys, true, m) else
      by_ds ← match ds with Some ds => key_matches_a_ds dnskey i ds | None => Ok false end;
      ta ← at_ keys 0;
      let ta := if (by_ds : bool) then with_s AUTR_STATE_VALID ta else ta in
      Ok (true, <[0%nat := seen_trustanchor ta true]> keys, true, m)
  end.

Fixpoint update_loop (n : nat) (i : Z) (name : list Z) (namelen : Z) (ds : option ub_packed_rrset_key)
    (dnskey : ub_packed_rrset_key) (keys : list autr_ta) (changed : bool) (m : mem)
    : outcome (bool * list autr_ta * bool * mem) :=
  match n with
  | O => Ok (true, keys, changed, m)
  | S n' =>
      '(ok, keys, changed, m) ← update_one name namelen ds dnskey i keys changed m;
      if negb ok then Ok (false, keys, changed, m) else
      update_loop n' (i + 1) name namelen ds dnskey keys changed m
  end.

(** ** Times of the trust point *)

Definition rrsig_get_expiry (d : list Z) (len : Z) : outcome Z :=
  if len <? 2 + 8 + 4 then Ok 0 else p ← advance (2 + 8) d; v ← sldns_read_uint32 p; Ok (i32 v).

Fixpoint min_expiry_loop (n : nat) (i : Z) (dd : packed_rrset_data) (r : Z) : outcome Z :=
  match n with
  | O => Ok r
  | S n' =>
      d ← at_ dd.(rr_data) i;
      l ← at_ dd.(rr_lens) i;
      t ← rrsig_get_expiry d l;
      diff ← sint 32 (t - i32 env.(now));
      min_expiry_loop n' (i + 1) dd (if 0 <? diff then (if diff <? r then diff else r) else r)
  end.

Definition min_expiry (dd : packed_rrset_data) : outcome Z :=
  min_expiry_loop (Z.to_nat dd.(rrsig_count)) dd.(count) dd (15 * 24 * 3600).

Definition key_ttl (k : ub_packed_rrset_key) : Z := k.(entry_data).(ttl).

(** The interval from [max], the TTL and the expiry divided by [div]. *)
Definition tp_time (max div rrsig_exp_interval origttl : Z) : Z :=
  let x := max in
  let x := if Z.quot origttl div <? x then Z.quot origttl div else x in
  let x := if Z.quot rrsig_exp_interval div <? x then Z.quot rrsig_exp_interval div else x in
  if negb env.(permit_small) then if x <? 3600 then 3600 else x else x.

(** The new [query_interval] and [retry_time], and [*changed]. *)
Definition set_tp_times (qi rt rrsig_exp_interval origttl : Z) (changed : bool) : Z * Z * bool :=
  let query_interval := tp_time (15 * 24 * 3600) 2 rrsig_exp_interval origttl in
  let retry_time := tp_time (24 * 3600) 10 rrsig_exp_interval origttl in
  (query_interval, retry_time,
   if negb (qi =? query_interval) || negb (rt =? retry_time) then true else changed).

(** The answer, the keys, the times and [*changed]. *)
Definition update_events (name : list Z) (namelen : Z) (ds : option ub_packed_rrset_key)
    (dnskey : ub_packed_rrset_key) (keys : list autr_ta) (qi rt : Z) (changed : bool) (m : mem)
    : outcome (bool * list autr_ta * (Z * Z) * bool * mem) :=
  log_assert env (dnskey.(rk_type) =? LDNS_RR_TYPE_DNSKEY);;
  '(ok, keys, changed, m) ←
    update_loop (Z.to_nat dnskey.(entry_data).(count)) 0 name namelen ds dnskey (init_events keys) changed m;
  if negb ok then Ok (false, keys, (qi, rt), changed, m) else
  e ← min_expiry dnskey.(entry_data);
  let '(qi, rt, changed) := set_tp_times qi rt e (key_ttl dnskey) changed in
  Ok (true, keys, (qi, rt), changed, m).
End Readers.

(** ** Assembling the trust anchors *)

(** An iterator answers with an element and the rest of the list. *)
Definition iterator : Type := list autr_ta -> outcome (option (autr_ta * list autr_ta)).

Fixpoint assemble_iterate_ds (l : list autr_ta) : outcome (option (autr_ta * list autr_ta)) :=
  match l with
  | [] => Ok None
  | ta :: l' =>
      t ← ta_type ta;
      if t =? LDNS_RR_TYPE_DS then Ok (Some (ta, l')) else assemble_iterate_ds l'
  end.

Fixpoint assemble_iterate_dnskey (l : list autr_ta) : outcome (option (autr_ta * list autr_ta)) :=
  match l with
  | [] => Ok None
  | ta :: l' =>
      t ← ta_type ta;
      if negb (t =? LDNS_RR_TYPE_DS) &&
         bool_decide (ta.(s) = AUTR_STATE_VALID \/ ta.(s) = AUTR_STATE_MISSING)
      then Ok (Some (ta, l')) else assemble_iterate_dnskey l'
  end.

Definition assemble_iterate_hasfirst (iter : iterator) (l : list autr_ta) : outcome bool :=
  r ← iter l; Ok (match r with Some _ => true | None => false end).

(** [while(iter(&list, ...)) body]; a call of the iterator shortens the list. *)
Fixpoint while_iter {A} (fuel : nat) (iter : iterator) (body : A -> autr_ta -> outcome A) (acc : A)
    (l : list autr_ta) : outcome A :=
  match fuel with
  | O => OutOfFuel
  | S fuel' =>
      r ← iter l;
      match r with
      | None => Ok acc
      | Some (ta, l') => acc ← body acc ta; while_iter fuel' iter body acc l'
      end
  end.

Definition iter_fuel (l : list autr_ta) : nat := S (length l).

Definition assemble_iterate_count (iter : iterator) (l : list autr_ta) : outcome Z :=
  while_iter (iter_fuel l) iter (fun i _ => Ok (u64 (i + 1))) 0 l.

Definition ub_packed_rrset_heap_key (m : mem) (iter : iterator) (l : list autr_ta)
    : outcome (option (list Z * Z * Z * Z) * mem) :=
  r ← iter l;
  match r with
  | None => Ok (None, m)
  | Some (ta, _) =>
      let '(ok, m) := malloc m in
      if negb ok then Ok (None, m) else
      t ← ta_type ta;
      c ← sldns_wirerr_get_class ta.(rr) ta.(rr_len) ta.(dname_len);
      let '(ok, m) := malloc m in
      if negb ok then Ok (None, m) else
      n ← read_bytes ta.(dname_len) ta.(rr);
      Ok (Some (n, ta.(dname_len), t, c), m)
  end.

(** The first loop: counts, the length of the rdata and the last TTL. *)
Definition heap_count (acc : Z * Z * Z * Z) (ta : autr_ta) : outcome (Z * Z * Z * Z) :=
  let '(cnt, rrsigs, len, _) := acc in
  t ← ta_type ta;
  let '(cnt, rrsigs) := if t =? LDNS_RR_TYPE_RRSIG then (cnt, u64 (rrsigs + 1)) else (u64 (cnt + 1), rrsigs) in
  l ← ta_rdatalen ta;
  tl ← sldns_wirerr_get_ttl ta.(rr) ta.(rr_len) ta.(dname_len);
  Ok (cnt, rrsigs, u64 (len + 2 + l), tl).

(** The second loop: TTLs and lengths, stored in the arrays of [total] elements. *)
Definition heap_fill (acc : Z * list Z * list Z * Z) (ta : autr_ta) : outcome (Z * list Z * list Z * Z) :=
  let '(i, ttls, lens, minttl) := acc in
  tl ← sldns_wirerr_get_ttl ta.(rr) ta.(rr_len) ta.(dname_len);
  ttls ← store ttls i tl;
  let minttl := if tl <? minttl then tl else minttl in
  l ← ta_rdatalen ta;
  lens ← store lens i (2 + l);
  Ok (i + 1, ttls, lens, minttl).

(** The pointers of the rdata, as offsets in the block. *)
Fixpoint heap_offsets (lens : list Z) (next : Z) : list Z :=
  match lens with
  | [] => []
  | l :: lens' => next :: heap_offsets lens' (next + l)
  end.

(** The last loop: the rdata, copied into the block. *)
Definition heap_copy (offs lens : list Z) (acc : Z * list Z) (ta : autr_ta) : outcome (Z * list Z) :=
  let '(i, block) := acc in
  off ← index offs i;
  len ← index lens i;
  p ← sldns_wirerr_get_rdatawl ta.(rr) ta.(rr_len) ta.(dname_len);
  p ← nonnull p;
  d ← read_bytes len p;
  block ← write_at block off d;
  Ok (i + 1, block).

(** The code allocates one block for the structure, the three arrays and the rdata, and
    here each array and the rdata is a list of its own: an index beyond an array is a
    fault also where the code would go on in the next part of the block. *)
Definition packed_rrset_heap_data (m : mem) (iter : iterator) (l : list autr_ta)
    : outcome (option packed_rrset_data * mem) :=
  '(cnt, rrsigs, len, tl) ← while_iter (iter_fuel l) iter heap_count (0, 0, 0, 0) l;
  if (cnt =? 0) && (rrsigs =? 0) then Ok (None, m) else
  let total := u64 (cnt + rrsigs) in
  let '(ok, m) := malloc m in
  if negb ok then Ok (None, m) else
  let zeros := replicate (Z.to_nat total) 0 in
  '(_, ttls, lens, tl) ← while_iter (iter_fuel l) iter heap_fill (0, zeros, zeros, tl) l;
  let offs := heap_offsets lens 0 in
  '(_, block) ← while_iter (iter_fuel l) iter (heap_copy offs lens) (0, replicate (Z.to_nat len) 0) l;
  let '(cnt, rrsigs) := if negb (rrsigs =? 0) && (cnt =? 0) then (rrsigs, 0) else (cnt, rrsigs) in
  Ok (Some (mk_pd tl cnt rrsigs lens ttls
              (zip_with (fun off len => ztake len (zdrop off block)) offs lens)), m).

(** A packed RRset of the elements, if there are any; [false] for lack of memory. *)
Definition assemble_rrset (m : mem) (iter : iterator) (l : list autr_ta)
    : outcome (bool * option ub_packed_rrset_key * mem) :=
  b ← assemble_iterate_hasfirst iter l;
  if negb b then Ok (true, None, m) else
  '(k, m) ← ub_packed_rrset_heap_key m iter l;
  match k with
  | None => Ok (false, None, m)
  | Some (n, nlen, t, c) =>
      '(d, m) ← packed_rrset_heap_data m iter l;
      match d with
      | None => Ok (false, None, m)
      | Some d => Ok (true, Some (mk_rrset n nlen t c d), m)
      end
  end.

(** What [autr_assemble] writes to the trust point. *)
Record anchors_of := mk_anchors {
  ds_rrset : option ub_packed_rrset_key;
  dnskey_rrset : option ub_packed_rrset_key;
  numDS : Z;
  numDNSKEY : Z;
}.

Definition autr_assemble (m : mem) (keys : list autr_ta) (old : anchors_of) : outcome (bool * anchors_of * mem) :=
  '(ok, ubds, m) ← assemble_rrset m assemble_iterate_ds keys;
  if negb ok then Ok (false, old, m) else
  '(ok, ubdnskey, m) ← assemble_rrset m assemble_iterate_dnskey keys;
  if negb ok then Ok (false, old, m) else
  nds ← assemble_iterate_count assemble_iterate_ds keys;
  ndnskey ← assemble_iterate_count assemble_iterate_dnskey keys;
  Ok (true, mk_anchors ubds ubdnskey nds ndnskey, m).
