(* ===== verification/AutotrustTable.v ===== *)
(** * RFC 5011: the keys of a trust point through one response

    The loops of autotrust.c over the keys of a trust point and over the RRs of a
    response: they return, keep the keys well-formed, and every key takes only
    the steps of [AutotrustKeys]. *)

From S2P Require Import Prelude Sbuffer DnsTree Autotrust AutotrustKeys AutotrustRrset.

(** ** Code that may stop *)

(** The code answers with [P], or stops with a fault of [F]. *)
Definition ends {A} (F : fault_kind -> Prop) (P : A -> Prop) (o : outcome A) : Prop :=
  match o with Ok x => P x | Fault f => F f | OutOfFuel => False end.

Lemma ends_bind {A B} F (P : A -> Prop) (Q : B -> Prop) (o : outcome A) (f : A -> outcome B) :
  ends F P o -> (forall x, P x -> ends F Q (f x)) -> ends F Q (mbind f o).
Proof. destruct o; cbn; auto. Qed.

Lemma ends_st_bind {S A B} F (P : A * S -> Prop) (Q : B * S -> Prop) (m : ST S A) (f : A -> ST S B) st :
  ends F P (m st) -> (forall x st', P (x, st') -> ends F Q (f x st')) -> ends F Q (mbind f m st).
Proof. intros H1 H2. unfold mbind, ST_bind. cbn. destruct (m st) as [[x st']| |]; [by apply H2|done|done]. Qed.

Lemma ends_mono {A} (F F' : fault_kind -> Prop) (P P' : A -> Prop) o :
  ends F P o -> (forall f, F f -> F' f) -> (forall x, P x -> P' x) -> ends F' P' o.
Proof. destruct o; cbn; auto. Qed.

Lemma ends_Ok {A} F (P : A -> Prop) o : (exists x, o = Ok x /\ P x) -> ends F P o.
Proof. by intros (x & -> & Hx). Qed.

(** ** Packed RRsets *)

Record rrset_wf (k : ub_packed_rrset_key) : Prop := {
  w_count : 0 <= k.(entry_data).(count) /\ 0 <= k.(entry_data).(rrsig_count);
  w_data : zlen k.(entry_data).(rr_data) = k.(entry_data).(count) + k.(entry_data).(rrsig_count);
  w_max : zlen k.(entry_data).(rr_data) < 2 ^ 32;
  w_lens : k.(entry_data).(rr_lens) = zlen <$> k.(entry_data).(rr_data);
  w_ttl : zlen k.(entry_data).(rr_ttl) = zlen k.(entry_data).(rr_data);
  w_rdata : Forall (fun d => bytes_ok d /\ 2 <= zlen d <= 65537) k.(entry_data).(rr_data);
}.

(** The rdata of an RR, without its length. *)
Definition rdata_at (k : ub_packed_rrset_key) (i : Z) : list Z :=
  match k.(entry_data).(rr_data) !! Z.to_nat i with Some d => zdrop 2 d | None => [] end.

Lemma index_at_ok {A} (l : list A) i : 0 <= i < zlen l -> exists x, at_ l i = Ok x /\ l !! Z.to_nat i = Some x.
Proof.
  intros H. unfold at_. rewrite leb_true by lia.
  destruct (lookup_lt_is_Some_2 l (Z.to_nat i)) as [x E]; [unfold zlen in H; lia|]. exists x. by rewrite E.
Qed.

Section Rrset.
Context (env : module_env) (k : ub_packed_rrset_key) (W : rrset_wf k).

Lemma rrset_get_rdata_ok i : 0 <= i < k.(entry_data).(count) + k.(entry_data).(rrsig_count) ->
  exists d, rrset_get_rdata env k i = Ok (d, zlen d) /\ bytes_ok d /\ 2 <= zlen d <= 65537 /\ rdata_at k i = zdrop 2 d.
Proof.
  intros Hi. destruct W. unfold rrset_get_rdata, log_assert, rdata_at. rewrite wrap_small by (unfold in_u; lia).
  destruct (index_at_ok k.(entry_data).(rr_data) i) as (d & E1 & E2); [lia|]. exists d. rewrite E2.
  assert (at_ k.(entry_data).(rr_lens) i = Ok (zlen d)) as E3.
  { unfold at_. rewrite w_lens0, list_lookup_fmap, E2. cbn. by rewrite leb_true by lia. }
  pose proof (proj1 (Forall_lookup _ _) w_rdata0 _ _ E2) as [Hb Hd]. split; [|done].
  rewrite E1, E3, ltb_true by lia. by destruct (unbound_debug env).
Qed.

Lemma rdata_of_ok i : 0 <= i < k.(entry_data).(count) + k.(entry_data).(rrsig_count) ->
  rdata_of k.(entry_data) i = Ok (rdata_at k i, zlen (rdata_at k i)) /\ zlen (rdata_at k i) <= 65535 /\ bytes_ok (rdata_at k i).
Proof.
  intros Hi. destruct W. unfold rdata_of, rdata_at. destruct (index_at_ok k.(entry_data).(rr_data) i) as (d & -> & E2); [lia|].
  rewrite E2, bind_Ok. pose proof (proj1 (Forall_lookup _ _) w_rdata0 _ _ E2) as [Hb Hd]. rewrite advance_ok, bind_Ok by lia.
  assert (at_ k.(entry_data).(rr_lens) i = Ok (zlen d)) as ->.
  { unfold at_. rewrite w_lens0, list_lookup_fmap, E2. cbn. by rewrite leb_true by lia. }
  rewrite bind_Ok, zlen_zdrop by lia. rewrite wrap_small by (unfold in_u; lia). split; [done|]. split; [lia|].
  by apply bytes_ok_zdrop.
Qed.

Lemma index_total d i : 0 <= i < zlen d -> exists v, index d i = Ok v.
Proof. intros H. destruct (index_ok d i H) as (b & -> & _). eauto. Qed.

Lemma keytag_loop_total n : forall i key ac, (n <= length key)%nat -> exists v, keytag_loop n i key ac = Ok v.
Proof.
  induction n as [|n IH]; intros i key ac Hn; [by eexists|]. destruct key as [|b key]; [cbn in Hn; lia|].
  cbn [keytag_loop next]. rewrite bind_Ok. apply IH. cbn in Hn. lia.
Qed.

Lemma keytag_raw_total d : exists v, sldns_calc_keytag_raw (Some d) (zlen d) = Ok v.
Proof.
  unfold sldns_calc_keytag_raw. destruct (Z.ltb_spec (zlen d) 4); [by eexists|]. cbn [nonnull]. rewrite bind_Ok.
  destruct (index_total d 3) as [a ->]; [lia|]. rewrite bind_Ok. destruct (a =? LDNS_RSAMD5).
  - destruct (Z.ltb_spec 4 (zlen d)); [|by eexists]. rewrite advance_ok, bind_Ok by lia. apply uint16_total.
    rewrite zlen_zdrop; lia.
  - destruct (keytag_loop_total (Z.to_nat (zlen d)) 0 d 0) as [v ->]; [by rewrite to_nat_zlen|]. rewrite bind_Ok. by eexists.
Qed.

Context (i : Z) (Hi : 0 <= i < k.(entry_data).(count) + k.(entry_data).(rrsig_count)).

Ltac field := unfold dnskey_get_algo, ds_get_key_algo, ds_get_digest_algo, ds_get_keytag;
  destruct (rrset_get_rdata_ok i Hi) as (d & -> & _ & Hd & _); rewrite bind_Ok; cbn beta;
  match goal with |- context [if ?x <? ?y then _ else _] => destruct (Z.ltb_spec x y); [by eexists|] end;
  try (apply index_total; lia).

Lemma dnskey_get_algo_total : exists v, dnskey_get_algo env k i = Ok v.
Proof. field. Qed.
Lemma ds_get_key_algo_total : exists v, ds_get_key_algo env k i = Ok v.
Proof. field. Qed.
Lemma ds_get_digest_algo_total : exists v, ds_get_digest_algo env k i = Ok v.
Proof. field. Qed.
Lemma ds_get_keytag_total : exists v, ds_get_keytag env k i = Ok v.
Proof. field. rewrite advance_ok, bind_Ok by lia. apply uint16_total. rewrite zlen_zdrop; lia. Qed.

Lemma dnskey_calc_keytag_total : exists v, dnskey_calc_keytag env k i = Ok v.
Proof.
  unfold dnskey_calc_keytag. destruct (rrset_get_rdata_ok i Hi) as (d & -> & _ & Hd & _). rewrite bind_Ok, advance_ok, bind_Ok by lia.
  rewrite wrap_small by (unfold in_u; lia). rewrite <- (zlen_zdrop 2 d) by lia. apply keytag_raw_total.
Qed.
End Rrset.

Section Ds.
Context `{!Sigcrypt} (env : module_env).

Lemma ds_supported_total ds i : rrset_wf ds -> 0 <= i < ds.(entry_data).(count) + ds.(entry_data).(rrsig_count) ->
  (exists b, ds_digest_algo_is_supported env ds i = Ok b) /\ (exists b, ds_key_algo_is_supported env ds i = Ok b).
Proof.
  intros W Hi. unfold ds_digest_algo_is_supported, ds_digest_size_algo, ds_key_algo_is_supported.
  destruct (ds_get_digest_algo_total env ds W i Hi) as [v ->], (ds_get_key_algo_total env ds W i Hi) as [v' ->].
  rewrite !bind_Ok. eauto.
Qed.

Lemma favorite_total n : forall i ds a, rrset_wf ds -> 0 <= i -> i + Z.of_nat n <= ds.(entry_data).(count) ->
  exists v, favorite_loop env n i ds a = Ok v.
Proof.
  induction n as [|n IH]; intros i ds a W H0 Hn; [by eexists|]. cbn [favorite_loop]. pose proof (w_count _ W).
  destruct (ds_supported_total ds i W) as [[b ->] [b' ->]]; [lia|]. rewrite bind_Ok.
  assert (exists ok, (if b then Ok b' else Ok false) = Ok ok) as [ok ->] by (destruct b; eauto). rewrite bind_Ok.
  destruct ok; cbn [negb]; [|apply IH; [done|lia..]].
  destruct (ds_get_digest_algo_total env ds W i) as [v ->]; [lia|]. rewrite bind_Ok. apply IH; [done|lia..].
Qed.

Lemma matches_total n : forall i k ki ds d, rrset_wf ds -> rrset_wf k ->
  0 <= ki < k.(entry_data).(count) -> 0 <= i -> i + Z.of_nat n <= ds.(entry_data).(count) ->
  exists b, matches_loop env n i k ki ds d = Ok b.
Proof.
  induction n as [|n IH]; intros i k ki ds d W Wk Hki H0 Hn; [by eexists|]. cbn [matches_loop].
  pose proof (w_count _ W). pose proof (w_count _ Wk).
  destruct (IH (i + 1) k ki ds d W Wk) as [c ->]; [lia..|].
  destruct (ds_supported_total ds i W) as [[b ->] [b' ->]]; [lia|].
  destruct (ds_get_digest_algo_total env ds W i) as [v1 ->]; [lia|]. destruct (ds_get_key_algo_total env ds W i) as [v2 ->]; [lia|].
  destruct (dnskey_get_algo_total env k Wk ki) as [v3 ->]; [lia|]. destruct (dnskey_calc_keytag_total env k Wk ki) as [v4 ->]; [lia|].
  destruct (ds_get_keytag_total env ds W i) as [v5 ->]; [lia|]. unfold dnskey_size_is_supported. rewrite !bind_Ok.
  repeat (cbn [negb]; match goal with |- context [if ?x then _ else _] => destruct x end); rewrite ?bind_Ok; eauto.
Qed.

Lemma key_matches_total k i ds : rrset_wf ds -> rrset_wf k -> 0 <= i < k.(entry_data).(count) ->
  exists b, key_matches_a_ds env k i ds = Ok b.
Proof.
  intros W Wk Hi. pose proof (w_count _ W). unfold key_matches_a_ds, val_favorite_ds_algo, rrset_get_count.
  destruct (favorite_total (Z.to_nat ds.(entry_data).(count)) 0 ds 0 W) as [v ->]; [lia..|]. rewrite bind_Ok.
  apply matches_total; done || lia.
Qed.
End Ds.

(** ** What a response says *)

(** A configured ZSK: it never changed state. *)
Definition configured_zsk (ta : autr_ta) : Prop :=
  ktype ta = LDNS_RR_TYPE_DNSKEY /\ ta.(last_change) = 0 /\ ksep ta = false /\ ta.(s) = AUTR_STATE_VALID.

(** The RR [i] of the response has rdata [d], with these flags. *)
Definition key_at (k : ub_packed_rrset_key) (i : Z) (d : list Z) (rev : bool) : Prop :=
  0 <= i < k.(entry_data).(count) /\ rdata_at k i = d /\
  rr_is_dnskey_sep LDNS_RR_TYPE_DNSKEY (Some d) (zlen d) = Ok true /\
  rr_is_dnskey_revoked LDNS_RR_TYPE_DNSKEY (Some d) (zlen d) = Ok rev.

(** The response [k] for a trust point with anchors [A] and keys [K]. *)
Definition response_of `{!Sigcrypt} (env : module_env) (A : anchors_of) (K : list autr_ta) (k : ub_packed_rrset_key)
    : response :=
  mk_response
    (val_verify_DNSKEY_with_TA k A.(ds_rrset) A.(dnskey_rrset) = true)
    (fun d => exists i, key_at k i d false)
    (fun d => exists i, key_at k i d true /\ dnskey_verify_rrset k i = true)
    (fun d => exists i ds, key_at k i d false /\ A.(ds_rrset) = Some ds /\ key_matches_a_ds env k i ds = Ok true)
    (Exists configured_zsk K).

(** No response says nothing. *)
Definition silence : response := mk_response False (fun _ => False) (fun _ => False) (fun _ => False) False.

(** What a response says without being validated: keys in it revoke themselves. *)
Definition unvalidated `{!Sigcrypt} (k : ub_packed_rrset_key) : response :=
  mk_response False (fun _ => False) (fun d => exists i, key_at k i d true /\ dnskey_verify_rrset k i = true)
    (fun _ => False) False.

(** The response [R'] says all that [R] says. *)
Record says_all (R R' : response) : Prop := {
  a_accepted : R.(accepted) -> R'.(accepted);
  a_contains d : R.(contains) d -> R'.(contains) d;
  a_revoked d : R.(self_revoked) d -> R'.(self_revoked) d;
  a_ds d : R.(by_ds) d -> R'.(by_ds) d;
  a_zsk : R.(by_zsk) -> R'.(by_zsk);
}.

Lemma silence_least R : says_all silence R.
Proof. by split. Qed.

Lemma unvalidated_least `{!Sigcrypt} env A K k : says_all (unvalidated k) (response_of env A K k).
Proof. by split. Qed.

Lemma key_step_mono env R R' ta ta' : says_all R R' -> key_step env R ta ta' -> key_step env R' ta ta'.
Proof.
  intros [H1 H2 H3 H4 H5] [].
  - apply KS_unseen.
  - eapply KS_seen; eauto.
  - eapply KS_revbit; eauto.
  - eapply KS_ds; eauto.
  - eapply KS_event; eauto.
  - by apply KS_touch.
  - apply KS_zsk; auto.
  - apply KS_remove; auto.
  - by apply KS_clear.
Qed.

Lemma steps_mono env R R' K K' : says_all R R' -> Forall2 (rtc (key_step env R)) K K' -> Forall2 (rtc (key_step env R')) K K'.
Proof.
  intros H HK. eapply Forall2_impl; [exact HK|]. intros ta ta'. apply (rtc_congruence (fun x => x)). intros x y. by apply key_step_mono.
Qed.

(** A key that was added for an RR of the response. *)
Definition fresh (R : response) (ta : autr_ta) : Prop :=
  ta.(s) = AUTR_STATE_START /\ ta.(last_change) = 0 /\ ta.(pending_count) = 0 /\ ta.(revoked) = false /\
  ksep ta = true /\ R.(accepted) /\ exists d, R.(contains) d /\ ktype ta = LDNS_RR_TYPE_DNSKEY /\ krdata ta = d.

(** The keys [K'] are those of [K], and new ones in front, after some steps each. *)
Definition evolves (env : module_env) (R : response) (K K' : list autr_ta) : Prop :=
  exists new, Forall (fresh R) new /\ Forall2 (rtc (key_step env R)) (new ++ K) K'.

Section Evolves.
Context (env : module_env) (He : env_ok env) (R : response).
Implicit Types K : list autr_ta.

Abbreviation steps := (Forall2 (rtc (key_step env R))).

#[global] Instance steps_preorder : PreOrder steps.
Proof.
  split; [intros K; by apply Forall_Forall2_diag, Forall_true|].
  intros K1 K2 K3 H12. revert K3. induction H12 as [|x y K1 K2 Hxy H IH]; intros K3 H23; inversion_clear H23; constructor.
  - by etrans.
  - by apply IH.
Qed.

Lemma evolves_steps K K1 K2 : evolves env R K K1 -> steps K1 K2 -> evolves env R K K2.
Proof. intros (new & Hn & H1) H2. exists new. split; [done|]. by transitivity K1. Qed.

Lemma evolves_refl K : evolves env R K K.
Proof. exists []. by split. Qed.

Lemma evolves_cons K K1 ta ta' : evolves env R K K1 -> fresh R ta -> rtc (key_step env R) ta ta' -> evolves env R K (ta' :: K1).
Proof. intros (new & Hn & H1) Hf Hs. exists (ta :: new). split; [by constructor|]. cbn. by constructor. Qed.

Lemma steps_insert K n ta ta' : K !! n = Some ta -> rtc (key_step env R) ta ta' -> steps K (<[n := ta']> K).
Proof.
  intros Hn Hs. revert n Hn. induction K as [|x K IH]; intros [|n] Hn; [done..| |]; cbn in Hn.
  - injection Hn as ->. cbn. by constructor.
  - cbn. constructor; [done|]. by apply IH.
Qed.

(** ** Loops over the keys *)

Lemma for_keys_ok f K : (forall ta c, ta ∈ K -> key_ok ta -> stepped env R ta (f ta c)) -> forall c, Forall key_ok K ->
  exists K' c', for_keys f K c = Ok (K', c') /\ Forall key_ok K' /\ steps K K'.
Proof.
  induction K as [|ta K IH]; intros Hf c Hk; [by eexists _, _|]. apply Forall_cons in Hk as [Hk1 Hk]. cbn [for_keys].
  destruct (Hf ta c ltac:(by left) Hk1) as (ta' & c1 & -> & Hk' & Hs). rewrite bind_Ok.
  destruct (IH ltac:(intros; apply Hf; [by right|done]) c1 Hk) as (K' & c' & -> & HK' & HS). rewrite bind_Ok.
  eexists _, _. split; [reflexivity|]. split; by constructor.
Qed.

Lemma count_keys_ok f (P : autr_ta -> bool) K : (forall ta, key_ok ta -> f ta = Ok (P ta)) -> forall n, Forall key_ok K ->
  count_keys f K n = Ok (n + zlen (List.filter P K)).
Proof.
  intros Hf. induction K as [|ta K IH]; intros n Hk; [cbn; f_equal; unfold zlen; cbn; lia|].
  apply Forall_cons in Hk as [Hk1 Hk]. cbn [count_keys List.filter]. rewrite Hf, bind_Ok, IH by done.
  destruct (P ta); [rewrite zlen_cons|]; f_equal; lia.
Qed.

Lemma filter_some (P : autr_ta -> bool) K : zlen (List.filter P K) <> 0 -> exists ta, ta ∈ K /\ P ta = true.
Proof.
  destruct (List.filter P K) as [|ta L] eqn:E; [done|]. intros _. exists ta.
  assert (List.In ta (List.filter P K)) as H by (rewrite E; by left). apply filter_In in H as [H1 H2].
  split; [by apply list_elem_of_In|done].
Qed.

Lemma holddown_exceed_ok K c : Forall key_ok K ->
  exists K' c', autr_holddown_exceed env K c = Ok (K', c') /\ Forall key_ok K' /\ steps K K'.
Proof.
  apply for_keys_ok. intros ta c' _ Hk. cbn beta. rewrite is_sep_ok, bind_Ok by apply Hk.
  destruct (ksep ta) eqn:Es; cbn [andb]; [|by apply stepped_refl].
  destruct (bool_decide_reflect (ta.(s) = AUTR_STATE_ADDPEND)); [by apply addtime_stepped|by apply stepped_refl].
Qed.

Lemma is_valid_zsk_ok ta : key_ok ta -> is_valid_zsk ta = Ok (bool_decide (configured_zsk ta)).
Proof.
  intros Hk. unfold is_valid_zsk, configured_zsk. rewrite type_ok, bind_Ok by apply Hk.
  destruct (Z.eqb_spec (ktype ta) LDNS_RR_TYPE_DNSKEY) as [E1|E1]; cbn [negb]; [|by rewrite bool_decide_eq_false_2 by tauto].
  destruct (Z.eqb_spec ta.(last_change) 0) as [E2|E2]; cbn [negb]; [|by rewrite bool_decide_eq_false_2 by tauto].
  rewrite is_sep_ok, bind_Ok by apply Hk. f_equal. destruct (ksep ta); cbn [negb andb].
  - symmetry. apply bool_decide_eq_false_2. by intros (_ & _ & ? & _).
  - apply bool_decide_ext. split; [by repeat split|by intros (_ & _ & _ & ?)].
Qed.

Lemma is_pending_ksk_ok ta : key_ok ta -> is_pending_ksk ta = Ok (ksep ta && bool_decide (ta.(s) = AUTR_STATE_ADDPEND)).
Proof. intros Hk. unfold is_pending_ksk. by rewrite is_sep_ok, bind_Ok by apply Hk. Qed.

Lemma is_valid_ksk_ok ta : key_ok ta -> is_valid_ksk ta = Ok (ksep ta && bool_decide (ta.(s) = AUTR_STATE_VALID)).
Proof. intros Hk. unfold is_valid_ksk. by rewrite is_sep_ok, bind_Ok by apply Hk. Qed.

Lemma set_state_ok ta x c : key_ok ta -> key_step env R ta (with_last_change env.(now) (with_s x ta)) ->
  stepped env R ta (set_trustanchor_state env x ta c).
Proof. intros Hk Hs. apply stepped_one; [|done]. apply (key_ok_with env He ta); cbn; auto. apply Hk. Qed.

Lemma zsk_to_ksk_ok K c : R.(accepted) -> (Exists configured_zsk K -> R.(by_zsk)) -> Forall key_ok K ->
  exists K' c' v, init_zsk_to_ksk env K c = Ok (K', c', v) /\ Forall key_ok K' /\ steps K K'.
Proof.
  intros Ha Hz Hk. unfold init_zsk_to_ksk. rewrite (count_keys_ok _ _ _ is_valid_zsk_ok), bind_Ok by done.
  destruct (Z.eqb_spec (0 + zlen (List.filter (fun ta => bool_decide (configured_zsk ta)) K)) 0) as [E|E]; [by eexists _, _, _|].
  destruct (filter_some _ _ E) as (zsk & Hin & Hzsk%bool_decide_eq_true_1).
  rewrite (count_keys_ok _ _ _ is_pending_ksk_ok), bind_Ok by done.
  edestruct (for_keys_ok (fun ta c => b ← is_pending_ksk ta;
    if (b : bool) then set_trustanchor_state env AUTR_STATE_VALID ta c else Ok (ta, c)) K) with (c := c) as (K' & c' & E' & HK' & HS);
    [|exact Hk|].
  - intros ta c1 _ Hk1. cbn beta. rewrite is_pending_ksk_ok, bind_Ok by done.
    destruct (ksep ta) eqn:Es; cbn [andb]; [|by apply stepped_refl].
    destruct (bool_decide_reflect (ta.(s) = AUTR_STATE_ADDPEND)); [|by apply stepped_refl].
    apply set_state_ok; [done|]. apply KS_zsk; [done| |done|done]. apply Hz, Exists_exists. eauto.
  - cbn beta. rewrite E', bind_Ok. by eexists _, _, _.
Qed.

Lemma remove_one_ok ta c v : R.(accepted) -> key_ok ta -> stepped env R ta (remove_missing_one env v ta c).
Proof.
  intros Ha Hk. unfold remove_missing_one. destruct (decide (ta.(s) = AUTR_STATE_START)) as [E|E]; [by apply stepped_refl|].
  rewrite is_sep_ok, bind_Ok by apply Hk. destruct (ksep ta) eqn:Es; cbn [negb].
  - destruct (decide _) as [E1|E1]; [by apply stepped_refl|]. apply dec_stable in E1.
    destruct (Z.eqb_spec env.(keep_missing) 0); [by apply stepped_refl|].
    destruct (check_holddown_ok env He ta _ Hk (e_keep _ He)) as (x & -> & Hx). rewrite bind_Ok, Hx.
    destruct (bool_decide_reflect (env.(keep_missing) < env.(now) - ta.(last_change))); [|by apply stepped_refl].
    destruct (0 <? v); [|by apply stepped_refl]. apply set_state_ok; [done|]. apply KS_remove; [done..|]. by right.
  - destruct (0 <? v); [|by apply stepped_refl]. apply set_state_ok; [done|]. apply KS_remove; [done..|]. by left.
Qed.

Lemma remove_missing_ok K c : R.(accepted) -> (Exists configured_zsk K -> R.(by_zsk)) -> Forall key_ok K ->
  exists K' c', remove_missing_trustanchors env K c = Ok (K', c') /\ Forall key_ok K' /\ steps K K'.
Proof.
  intros Ha Hz Hk. unfold remove_missing_trustanchors. rewrite (count_keys_ok _ _ _ is_valid_ksk_ok), bind_Ok by done.
  set (v := 0 + _). assert (exists K1 c1 v1, (if v =? 0 then init_zsk_to_ksk env K c else Ok (K, c, v)) = Ok (K1, c1, v1) /\
    Forall key_ok K1 /\ steps K K1) as (K1 & c1 & v1 & -> & Hk1 & H1).
  { destruct (v =? 0); [by apply zsk_to_ksk_ok|]. by eexists _, _, _. }
  rewrite bind_Ok. destruct (v1 =? 0); [by eexists _, _|].
  destruct (for_keys_ok (remove_missing_one env v1) K1 ltac:(intros; by apply remove_one_ok) c1 Hk1) as (K2 & c2 & -> & Hk2 & H2).
  eexists _, _. split; [reflexivity|]. split; [done|]. by transitivity K1.
Qed.

(** A configured ZSK was one before the response. *)
Lemma zsk_step ta ta' : key_step env R ta ta' -> configured_zsk ta' -> configured_zsk ta.
Proof.
  intros H (E1 & E2 & E3 & E4). destruct H as [| | | | | | | |]; unfold configured_zsk; try done; try congruence.
  - unfold seen_trustanchor in *. by destruct (_ <? _).
  - by change (ksep ta = false) in E3; congruence.
  - by change (ksep ta = false) in E3; congruence.
  - by change (ksep ta = false) in E3; congruence.
Qed.

Lemma zsk_origin K K' : evolves env R K K' -> Exists configured_zsk K' -> Exists configured_zsk K.
Proof.
  intros (new & Hn & H) (ta' & Hin & Hz)%Exists_exists. apply list_elem_of_lookup in Hin as [i Hi].
  destruct (Forall2_lookup_r _ _ _ _ _ H Hi) as (ta & Hta & Hs).
  assert (configured_zsk ta) as Hz'.
  { clear -Hs Hz. induction Hs as [|x y z Hxy _ IH]; [done|]. eapply zsk_step; [exact Hxy|]. by apply IH. }
  apply list_elem_of_lookup_2, elem_of_app in Hta as [Hta|Hta]; [|apply Exists_exists; eauto].
  exfalso. rewrite Forall_forall in Hn. destruct (Hn _ Hta) as (_ & _ & _ & _ & Hsep & _), Hz' as (_ & _ & Hf & _). congruence.
Qed.

Lemma statetable_ok K K1 c : R.(accepted) -> (Exists configured_zsk K -> R.(by_zsk)) -> evolves env R K K1 ->
  Forall key_ok K1 -> exists K2 c', do_statetable env K1 c = Ok (K2, c') /\ Forall key_ok K2 /\ steps K1 K2.
Proof.
  intros Ha Hz Hev Hk. unfold do_statetable.
  edestruct (for_keys_ok (fun ta c => sep ← ta_is_dnskey_sep ta; if negb sep then Ok (ta, c) else anchor_state_update env ta c) K1)
    with (c := c) as (K2 & c2 & E & HK2 & HS); [|exact Hk|].
  - intros ta c1 _ Hk1. cbn beta. rewrite is_sep_ok, bind_Ok by apply Hk1. destruct (ksep ta) eqn:Es; [|by apply stepped_refl].
    eapply updated_stepped; [done|done|]. by apply (state_update_event env He).
  - cbn beta. rewrite E, bind_Ok. destruct (remove_missing_ok K2 c2) as (K3 & c3 & -> & HK3 & HS3); [done| |done|].
    + intros H. apply Hz. eapply zsk_origin; [|exact H]. by eapply evolves_steps.
    + eexists _, _. split; [reflexivity|]. split; [done|]. by transitivity K2.
Qed.

(** ** Cleaning up *)

(** The keys that stay. *)
Definition kept (ta : autr_ta) : Prop :=
  ta.(s) <> AUTR_STATE_START /\ ta.(s) <> AUTR_STATE_REMOVED /\ ktype ta = LDNS_RR_TYPE_DNSKEY.

#[global] Instance kept_dec ta : Decision (kept ta).
Proof. unfold kept. apply _. Defined.

Definition clear_pending (ta : autr_ta) : autr_ta := if decide (ta.(s) <> AUTR_STATE_ADDPEND) then with_pending 0 ta else ta.

Lemma cleanup_ok K : Forall key_ok K -> autr_cleanup_keys K = Ok (filter kept (clear_pending <$> K)).
Proof.
  induction 1 as [|ta K Hk _ IH]; [done|]. cbn [autr_cleanup_keys fmap list_fmap]. rewrite filter_cons, type_ok, IH by apply Hk.
  assert (kept (clear_pending ta) <-> kept ta) as Hc by (unfold clear_pending; by destruct (decide _)).
  destruct (decide (ta.(s) = AUTR_STATE_START \/ ta.(s) = AUTR_STATE_REMOVED)) as [E|E].
  { rewrite bind_Ok, decide_False; [done|]. rewrite Hc. unfold kept. tauto. }
  rewrite !bind_Ok. destruct (Z.eqb_spec (ktype ta) LDNS_RR_TYPE_DNSKEY) as [Et|Et]; cbn [negb].
  - by destruct (decide (kept (clear_pending ta))) as [Hn|Hn]; [|exfalso; apply Hn; rewrite Hc; unfold kept; tauto].
  - by destruct (decide (kept (clear_pending ta))) as [Hn|Hn]; [exfalso; rewrite Hc in Hn; by destruct Hn as (_ & _ & ?)|].
Qed.

Lemma clear_steps K : Forall key_ok K -> Forall key_ok (clear_pending <$> K) /\ steps K (clear_pending <$> K).
Proof.
  intros H. split.
  - apply Forall_fmap. eapply Forall_impl; [exact H|]. intros ta Hk. cbn. unfold clear_pending.
    destruct (decide _); [|done]. apply (key_ok_with env He ta); cbn; auto. by unfold in_u.
  - clear H. induction K as [|ta K IH]; constructor; [|done]. unfold clear_pending. destruct (decide _); [|done].
    by apply rtc_once, KS_clear.
Qed.
End Evolves.

(** ** The RRs of the response *)

Section Response.
Context `{!Sigcrypt} (env : module_env) (He : env_ok env).
Context (k : ub_packed_rrset_key) (W : rrset_wf k) (Ht : k.(rk_type) = LDNS_RR_TYPE_DNSKEY).

Lemma keys_rr K : Forall key_ok K -> Forall rr_ok K.
Proof. intros HK. eapply Forall_impl; [exact HK|]. by intros ta []. Qed.

Lemma find_some K d n : fst <$> list_find (same_key d) K = Some n -> exists ta, K !! n = Some ta /\ same_key d ta.
Proof.
  destruct (list_find _ K) as [[j ta]|] eqn:E; [|done]. intros [= ->]. apply list_find_Some in E as (? & ? & _). eauto.
Qed.

Lemma at_nat {A} (l : list A) n x : l !! n = Some x -> at_ l (Z.of_nat n) = Ok x.
Proof. intros E. unfold at_. by rewrite leb_true, Nat2Z.id, E by lia. Qed.

(** The assertions of a debug build; one of them can fail, see [keytag_assertion_fails]. *)
Definition debug_build (f : fault_kind) : Prop := f = Assertion /\ env.(unbound_debug) = true.

Lemma ends_assert b : ends debug_build (fun _ => True) (log_assert env b).
Proof. unfold log_assert, c_assert. destruct env.(unbound_debug) eqn:E; [|done]. by destruct b. Qed.

(** What the keys become without validation. *)
Definition revokes (K : list autr_ta) (r : list autr_ta * bool) : Prop :=
  Forall key_ok r.1 /\ Forall2 (rtc (key_step env (unvalidated k))) K r.1.

Lemma keytag_check_ends i ta : 0 <= i < k.(entry_data).(count) -> rr_ok ta ->
  ends debug_build (fun _ => True) (if env.(unbound_debug) then
         tag ← dnskey_calc_keytag env k i;
         d ← ta_rdata ta; l ← ta_rdatalen ta;
         tag' ← sldns_calc_keytag_raw d l;
         c_assert ((tag - 128 =? tag') || (tag =? tag'))
       else Ok tt).
Proof.
  intros Hi (n & t & c & tl & d & V). pose proof (w_count _ W). destruct env.(unbound_debug) eqn:E; [|done].
  destruct (dnskey_calc_keytag_total env k W i) as [v ->]; [lia|]. rewrite bind_Ok.
  rewrite (view_rdata _ _ _ _ _ _ V), bind_Ok, (view_rdatalen _ _ _ _ _ _ V), bind_Ok.
  destruct (keytag_raw_total d) as [v' ->]. rewrite bind_Ok. unfold c_assert. by destruct (_ || _).
Qed.

Lemma check_one_ok i K c : 0 <= i < k.(entry_data).(count) -> Forall key_ok K ->
  ends debug_build (revokes K) (check_revoked_one env k i K c).
Proof.
  intros Hi Hk. pose proof (w_count _ W). unfold check_revoked_one. rewrite Ht.
  assert (ends debug_build (revokes K) (Ok (K, c))) as Hsame by done.
  destruct (rdata_of_ok k W i) as (-> & Hl & Hb); [lia|]. rewrite bind_Ok. set (d := rdata_at k i).
  destruct (sep_total LDNS_RR_TYPE_DNSKEY d (zlen d)) as [sep Es]; [lia|]. rewrite Es, bind_Ok.
  destruct sep; cbn [negb]; [|done].
  destruct (revoked_total LDNS_RR_TYPE_DNSKEY d (zlen d)) as [rev Er]; [lia|]. rewrite Er, bind_Ok.
  destruct rev; cbn [negb]; [|done].
  rewrite find_key_ok, bind_Ok by (by apply keys_rr). cbn [negb].
  destruct (fst <$> list_find (same_key d) K) as [n|] eqn:Ef; [|done]. apply find_some in Ef as (ta & Hn & Hid).
  destruct (rr_is_selfsigned_revoked k i) eqn:Ev; cbn [negb]; [|done].
  pose proof (proj1 (Forall_lookup _ _) Hk _ _ Hn) as Hkt. rewrite (at_nat _ _ _ Hn), bind_Ok.
  eapply ends_bind; [apply keytag_check_ends; [done|apply Hkt]|]. intros _ _.
  assert (key_ok (with_revoked true ta)) as Hk1 by (apply (key_ok_with env He ta); cbn; auto; apply Hkt).
  assert (ksep ta = true) as Hsep.
  { apply Ok_inj. rewrite <- (same_key_sep d ta) by (apply Hkt || done). done. }
  destruct (revoked_stepped env He (unvalidated k) (with_revoked true ta) (if negb ta.(revoked) then true else c) Hk1 Hsep eq_refl)
    as (ta' & c' & Ed & Hk' & Hs).
  unfold seen_revoked_trustanchor. rewrite Ed, bind_Ok. split; [by apply Forall_insert|].
  eapply steps_insert; [exact Hn|]. eapply rtc_l; [|exact Hs]. apply KS_revbit with d; [|done]. exists i.
  split; [by split|done].
Qed.

Lemma check_loop_ok n : forall i K c, 0 <= i -> i + Z.of_nat n <= k.(entry_data).(count) -> Forall key_ok K ->
  ends debug_build (revokes K) (check_revoked_loop env n i k K c).
Proof.
  induction n as [|n IH]; intros i K c H0 Hn Hk; [done|]. cbn [check_revoked_loop].
  eapply ends_bind; [apply check_one_ok; [lia|done]|]. intros [K1 c1] [Hk1 H1].
  eapply ends_mono; [apply IH; [lia..|done]|done|]. intros [K2 c2] [Hk2 H2]. split; [done|]. by transitivity K1.
Qed.

Lemma check_contains_ok K c : Forall key_ok K -> ends debug_build (revokes K) (check_contains_revoked env k K c).
Proof.
  intros Hk. pose proof (w_count _ W). unfold check_contains_revoked. eapply ends_bind; [apply ends_assert|]. intros _ _.
  apply check_loop_ok; done || lia.
Qed.

Context (A : anchors_of) (K0 : list autr_ta).
Abbreviation R := (response_of env A K0 k).

Lemma add_key_ok m name K rttl d : zlen name <= 255 -> zlen d <= 65535 -> bytes_ok d ->
  exists m', add_key m name (zlen name) K rttl d (zlen d) = Ok (false, K, m') \/
    exists ta, add_key m name (zlen name) K rttl d (zlen d) = Ok (true, ta :: K, m') /\ key_ok ta /\
      rr_view ta name LDNS_RR_TYPE_DNSKEY LDNS_RR_CLASS_IN (u32 rttl) d /\
      ta.(s) = AUTR_STATE_START /\ ta.(last_change) = 0 /\ ta.(pending_count) = 0 /\ ta.(revoked) = false.
Proof.
  intros Hn Hd Hb. pose proof (zlen_nonneg name). pose proof (zlen_nonneg d). unfold add_key, autr_ta_create.
  destruct (malloc m) as [[|] m1]; cbn [negb]; [|by exists m1; left].
  rewrite !read_bytes_ok, !bind_Ok by lia. destruct (malloc m1) as [[|] m2]; cbn [negb]; [|by exists m2; left].
  exists m2. right. eexists. split; [reflexivity|].
  match goal with |- key_ok ?t /\ _ => set (ta := t) end.
  assert (rr_view ta name LDNS_RR_TYPE_DNSKEY LDNS_RR_CLASS_IN (u32 rttl) d) as V.
  { assert (ztake (zlen name) name = name /\ ztake (zlen d) d = d) as [En Ed].
    { unfold ztake. by rewrite !to_nat_zlen, !firstn_all. }
    assert (ta.(rr) = rr_bytes name LDNS_RR_TYPE_DNSKEY LDNS_RR_CLASS_IN (u32 rttl) d) as Er.
    { unfold ta, rr_bytes. cbn [rr]. rewrite En, Ed, (wrap_small 16 (zlen d)) by (unfold in_u; lia). done. }
    split; cbn [dname_len rr_len ta]; try done; [| |unfold in_u; lia].
    - rewrite Er, zlen_rr_bytes. unfold ta. cbn. apply wrap_small. unfold in_u. lia.
    - apply wrap_range. lia. }
  split; [|done]. split; [by exists name, LDNS_RR_TYPE_DNSKEY, LDNS_RR_CLASS_IN, (u32 rttl), d| |done|done].
  right. by apply (view_k _ _ _ _ _ _ V).
Qed.

Context (name : list Z) (Hname : zlen name <= 255) (Hds : forall ds, A.(ds_rrset) = Some ds -> rrset_wf ds).
Context (Hacc : R.(accepted)).

Lemma update_one_ok i K c m K1 : 0 <= i < k.(entry_data).(count) -> Forall key_ok K -> evolves env R K1 K ->
  exists ok K' c' m', update_one env name (zlen name) A.(ds_rrset) k i K c m = Ok (ok, K', c', m') /\
    Forall key_ok K' /\ evolves env R K1 K' /\ zlen K' <= zlen K + 1.
Proof.
  intros Hi Hk Hev. pose proof (w_count _ W). unfold update_one. rewrite Ht.
  assert (exists ok K' c' m', Ok (true, K, c, m) = Ok (ok, K', c', m') /\ Forall key_ok K' /\ evolves env R K1 K' /\
      zlen K' <= zlen K + 1) as Hsame by (eexists _, _, _, _; repeat split; done || lia).
  destruct (rdata_of_ok k W i) as (-> & Hl & Hb); [lia|]. rewrite bind_Ok. set (d := rdata_at k i) in *.
  destruct (sep_total LDNS_RR_TYPE_DNSKEY d (zlen d)) as [sep Es]; [lia|]. rewrite Es, bind_Ok.
  destruct sep; cbn [negb]; [|done].
  destruct (revoked_total LDNS_RR_TYPE_DNSKEY d (zlen d)) as [rev Er]; [lia|]. rewrite Er, bind_Ok. destruct rev; [done|].
  assert (key_at k i d false) as Hat by (by split).
  unfold dnskey_algo_is_supported, dnskey_size_is_supported.
  destruct (dnskey_get_algo_total env k W i) as [alg ->]; [lia|]. rewrite !bind_Ok.
  destruct (dnskey_algo_id_is_supported alg); cbn [negb]; [|done].
  rewrite find_key_ok, bind_Ok by (by apply keys_rr). cbn [negb].
  destruct (fst <$> list_find (same_key d) K) as [n|] eqn:Ef.
  - apply find_some in Ef as (ta & Hn & Hid). rewrite (at_nat _ _ _ Hn), bind_Ok. eexists _, _, _, _. split; [reflexivity|].
    pose proof (proj1 (Forall_lookup _ _) Hk _ _ Hn) as Hkt. split; [by apply Forall_insert; [|apply (seen_ok env)]|].
    split; [|unfold zlen; rewrite length_insert; lia]. eapply evolves_steps; [exact Hev|]. eapply steps_insert; [exact Hn|]. apply rtc_once, KS_seen with d; [done| |done]. by exists i.
  - destruct (index_at_ok k.(entry_data).(rr_ttl) i) as (rttl & -> & _); [rewrite (w_ttl _ W), (w_data _ W); lia|]. rewrite bind_Ok.
    destruct (add_key_ok m name K (u32 rttl) d Hname Hl Hb) as (m' & [->|(ta & -> & Hkt & V & Hs & Hlc & Hp & Hrv)]); rewrite bind_Ok;
      cbn [negb]; [eexists _, _, _, _; repeat split; done || lia|].
    assert (exists b, match A.(ds_rrset) with Some ds => key_matches_a_ds env k i ds | None => Ok false end = Ok b /\
      (b = true -> R.(by_ds) d)) as (b & -> & Hb').
    { destruct A.(ds_rrset) as [ds|] eqn:Eds; [|by exists false]. destruct (key_matches_total env k i ds) as [b Eb]; [by apply Hds|done|done|].
      exists b. split; [done|]. intros ->. by exists i, ds. }
    rewrite bind_Ok. change (at_ (ta :: K) 0) with (Ok ta). rewrite bind_Ok. eexists _, _, _, _. split; [reflexivity|].
    pose proof (view_k _ _ _ _ _ _ V) as [Et Ed].
    assert (same_key d ta) as Hid by (split; congruence).
    assert (ksep ta = true) as Hsep by (apply Ok_inj; rewrite <- (same_key_sep d ta) by (apply Hkt || done); done).
    assert (fresh R ta) as Hf by (repeat split; try done; exists d; split; [by exists i|done]).
    assert (key_ok (with_s AUTR_STATE_VALID ta)) as Hkv by (apply (key_ok_with env He ta); cbn; auto; apply Hkt).
    cbn [insert list_insert]. split; [|split; [|rewrite !zlen_cons; lia]].
    + constructor; [|done]. apply (seen_ok env); [done|]. by destruct b.
    + eapply evolves_cons; [exact Hev|exact Hf|]. destruct b.
      * eapply rtc_l; [apply (KS_ds _ _ _ d); auto|]. apply rtc_once, KS_seen with d; [done|by exists i|done].
      * apply rtc_once, KS_seen with d; [done|by exists i|done].
Qed.

Lemma update_loop_ok n : forall i K c m K1, 0 <= i -> i + Z.of_nat n <= k.(entry_data).(count) -> Forall key_ok K ->
  evolves env R K1 K -> exists ok K' c' m', update_loop env n i name (zlen name) A.(ds_rrset) k K c m = Ok (ok, K', c', m') /\
    Forall key_ok K' /\ evolves env R K1 K' /\ zlen K' <= zlen K + Z.of_nat n.
Proof.
  induction n as [|n IH]; intros i K c m K1 H0 Hn Hk Hev; [eexists _, _, _, _; repeat split; done || lia|]. cbn [update_loop].
  destruct (update_one_ok i K c m K1) as (ok & K2 & c2 & m2 & -> & Hk2 & H2 & Hl2); [lia|done|done|]. rewrite bind_Ok.
  destruct ok; cbn [negb]; [|eexists _, _, _, _; repeat split; done || lia].
  destruct (IH (i + 1) K2 c2 m2 K1) as (ok & K3 & c3 & m3 & -> & Hk3 & H3 & Hl3); [lia..|done|done|].
  eexists _, _, _, _. repeat split; done || lia.
Qed.

(** ** Times *)

(** When the signature [i] expires, as the code reads it. *)
Definition expiry_at (i : Z) : Z :=
  match k.(entry_data).(rr_data) !! Z.to_nat i with
  | Some d => match rrsig_get_expiry d (zlen d) with Ok v => v | _ => 0 end
  | None => 0
  end.

(** A signature that comes with the response has an expiry, read as a signed number,
    whose difference with the time now does not fit in 32 bits: it expires in 2038 or
    later. *)
Definition late_expiry : Prop := exists i,
  k.(entry_data).(count) <= i < k.(entry_data).(count) + k.(entry_data).(rrsig_count) /\
  ~ in_s 32 (expiry_at i - i32 env.(now)).

Definition expiry_overflow (f : fault_kind) : Prop := f = Overflow /\ late_expiry.

Lemma rrsig_expiry_total d : exists v, rrsig_get_expiry d (zlen d) = Ok v.
Proof.
  unfold rrsig_get_expiry. destruct (Z.ltb_spec (zlen d) (2 + 8 + 4)); [by eexists|]. rewrite advance_ok, bind_Ok by lia.
  destruct (uint32_total (zdrop (2 + 8) d)) as [v ->]; [rewrite zlen_zdrop; lia|]. rewrite bind_Ok. by eexists.
Qed.

Lemma min_expiry_loop_ok n : forall i r, k.(entry_data).(count) <= i ->
  i + Z.of_nat n <= k.(entry_data).(count) + k.(entry_data).(rrsig_count) -> 0 < r ->
  ends expiry_overflow (fun v => 0 < v <= r) (min_expiry_loop env n i k.(entry_data) r).
Proof.
  pose proof (w_count _ W). pose proof (w_data _ W).
  induction n as [|n IH]; intros i r Hi Hn Hr; [cbn; lia|]. cbn [min_expiry_loop].
  destruct (index_at_ok k.(entry_data).(rr_data) i) as (d & -> & E2); [lia|]. rewrite bind_Ok.
  assert (at_ k.(entry_data).(rr_lens) i = Ok (zlen d)) as ->.
  { unfold at_. rewrite (w_lens _ W), list_lookup_fmap, E2. cbn. by rewrite leb_true by lia. }
  rewrite bind_Ok. destruct (rrsig_expiry_total d) as [v Ev]. rewrite Ev, bind_Ok.
  destruct (decide (in_s 32 (v - i32 env.(now)))) as [Hs|Hs].
  2: { unfold sint. destruct (_ && _) eqn:E; [destruct Hs; unfold in_s; lia|]. split; [done|]. exists i. split; [lia|]. unfold expiry_at. by rewrite E2, Ev. }
  rewrite sint_ok, bind_Ok by done.
  destruct (Z.ltb_spec 0 (v - i32 env.(now))); [destruct (Z.ltb_spec (v - i32 env.(now)) r)|]; [|apply IH; lia..].
  eapply ends_mono; [apply IH; lia|done|]. cbn. lia.
Qed.

Lemma min_expiry_ok : ends expiry_overflow (fun v => 0 < v <= 15 * 24 * 3600) (min_expiry env k.(entry_data)).
Proof. pose proof (w_count _ W). unfold min_expiry. apply min_expiry_loop_ok; lia. Qed.

(** What a validated response leaves of the keys [K] and the times of the probes. *)
Record events_done (K : list autr_ta) (qi rt : Z) (K' : list autr_ta) (q' r' : Z) : Prop := {
  ed_keys : Forall key_ok K';
  ed_evolves : evolves env R K0 K';
  ed_size : zlen K' <= zlen K + k.(entry_data).(count);
  ed_times : (q', r') = (qi, rt) \/ exists e, 0 < e <= 15 * 24 * 3600 /\
    q' = tp_time env (15 * 24 * 3600) 2 e (key_ttl k) /\ r' = tp_time env (24 * 3600) 10 e (key_ttl k);
}.

Lemma update_events_ok K qi rt c m : Forall key_ok K -> evolves env R K0 K ->
  ends expiry_overflow (fun '(ok, K', (q', r'), c', m') => events_done K qi rt K' q' r')
    (update_events env name (zlen name) A.(ds_rrset) k K qi rt c m).
Proof.
  intros Hk Hev. pose proof (w_count _ W). unfold update_events, log_assert. rewrite Ht, Z.eqb_refl.
  assert ((if unbound_debug env then c_assert true else Ok tt) = Ok tt) as -> by (by destruct (unbound_debug env)). rewrite bind_Ok.
  assert (Forall key_ok (init_events K) /\ Forall2 (rtc (key_step env R)) K (init_events K)) as [Hk1 Hs1].
  { unfold init_events. split.
    - apply Forall_fmap. eapply Forall_impl; [exact Hk|]. intros ta Hta. apply (key_ok_with env He ta); cbn; auto. apply Hta.
    - clear. induction K as [|ta K IH]; constructor; [apply rtc_once, KS_unseen|exact IH]. }
  destruct (update_loop_ok (Z.to_nat k.(entry_data).(count)) 0 (init_events K) c m K0) as (ok & K2 & c2 & m2 & -> & Hk2 & H2 & Hl2);
    [lia..|done|by eapply evolves_steps|]. unfold init_events in Hl2. rewrite zlen_map in Hl2.
  rewrite bind_Ok. destruct ok; cbn [negb].
  - eapply ends_bind; [apply min_expiry_ok|]. intros e Hr. unfold set_tp_times. split; [done|done|lia|]. right. by exists e.
  - split; [done|done|lia|]. by left.
Qed.
End Response.

(** The interval is the least of the three, and at least an hour unless small
    hold-downs are permitted. *)
Lemma tp_time_spec env max div e t : tp_time env max div e t =
  let x := Z.min (Z.min max (Z.quot t div)) (Z.quot e div) in if env.(permit_small) then x else Z.max 3600 x.
Proof.
  assert (forall x y, (if x <? y then x else y) = Z.min y x) as Hmin by (intros; zcase; lia).
  unfold tp_time. rewrite !Hmin. destruct env.(permit_small); cbn [negb]; [done|]. zcase; lia.
Qed.

Lemma tp_time_bounds env max div e t : 0 < div -> 3600 <= max -> 0 <= e -> 0 <= t ->
  0 <= tp_time env max div e t <= max /\ (env.(permit_small) = false -> 3600 <= tp_time env max div e t).
Proof.
  intros Hd Hm He Ht. rewrite tp_time_spec. pose proof (Z.quot_pos e div He Hd). pose proof (Z.quot_pos t div Ht Hd).
  cbn zeta. destruct env.(permit_small); lia.
Qed.
