(* ===== verification/AutotrustAssemble.v ===== *)
(** * RFC 5011: the assembled trust anchors

    [autr_assemble] packs the DS records, and the keys that are VALID or MISSING,
    into the RRsets the validator uses. *)

From S2P Require Import Prelude Sbuffer DnsTree Autotrust AutotrustKeys AutotrustRrset AutotrustTable.

(** ** Iterators *)

Fixpoint foldM {A B} (f : A -> B -> outcome A) (a : A) (l : list B) : outcome A :=
  match l with
  | [] => Ok a
  | b :: l' => a' ← f a b; foldM f a' l'
  end.

(** The iterator goes through the elements with [P]. *)
Definition iterates (iter : iterator) (P : autr_ta -> Prop) `{!forall ta, Decision (P ta)} (l : list autr_ta) : Prop :=
  forall l', l' `suffix_of` l -> iter l' = Ok (match list_find P l' with Some (i, ta) => Some (ta, drop (S i) l') | None => None end).

Section Iterate.
Context (iter : iterator) (P : autr_ta -> Prop) `{!forall ta, Decision (P ta)}.

Lemma list_find_filter (l : list autr_ta) :
  match list_find P l with
  | Some (i, ta) => filter P l = ta :: filter P (drop (S i) l) /\ (i < length l)%nat
  | None => filter P l = []
  end.
Proof.
  induction l as [|x l IH]; [done|]. cbn [list_find]. rewrite filter_cons. destruct (decide (P x)); [cbn; split; [done|lia]|].
  destruct (list_find P l) as [[i ta]|]; cbn; [|done]. destruct IH. split; [done|lia].
Qed.

Lemma while_iter_ok {A} (body : A -> autr_ta -> outcome A) (l : list autr_ta) : iterates iter P l ->
  forall acc, while_iter (iter_fuel l) iter body acc l = foldM body acc (filter P l).
Proof.
  intros Hit. unfold iter_fuel. cut (forall fuel l' acc, l' `suffix_of` l -> (length l' < fuel)%nat ->
    while_iter fuel iter body acc l' = foldM body acc (filter P l')); [intros Hc acc; apply Hc; [done|lia]|].
  induction fuel as [|fuel IH]; intros l' acc Hs Hf; [lia|]. cbn [while_iter]. rewrite Hit, bind_Ok by done.
  pose proof (list_find_filter l') as Hff. destruct (list_find P l') as [[i ta]|]; [|by rewrite Hff].
  destruct Hff as [-> Hi]. cbn [foldM]. destruct (body acc ta) as [a| |]; [|done|done]. rewrite !bind_Ok.
  apply IH; [|rewrite length_drop; lia]. etrans; [apply suffix_drop|done].
Qed.
End Iterate.

Definition is_ds (ta : autr_ta) : Prop := ktype ta = LDNS_RR_TYPE_DS.
(** The keys that are trusted. *)
Definition trusted (ta : autr_ta) : Prop :=
  ktype ta <> LDNS_RR_TYPE_DS /\ (ta.(s) = AUTR_STATE_VALID \/ ta.(s) = AUTR_STATE_MISSING).

#[global] Instance is_ds_dec ta : Decision (is_ds ta).
Proof. unfold is_ds. apply _. Defined.
#[global] Instance trusted_dec ta : Decision (trusted ta).
Proof. unfold trusted. apply _. Defined.

Lemma rr_suffix K l' : Forall rr_ok K -> l' `suffix_of` K -> Forall rr_ok l'.
Proof. intros H [l ->]. by apply Forall_app in H as [_ H]. Qed.

Lemma iterates_ds K : Forall rr_ok K -> iterates assemble_iterate_ds is_ds K.
Proof.
  intros HK l' Hs. apply (rr_suffix K l' HK) in Hs. clear HK K.
  induction Hs as [|ta l Hta Hl IH]; [done|]. cbn [assemble_iterate_ds list_find]. rewrite type_ok, bind_Ok by done.
  unfold is_ds at 1. destruct (Z.eqb_spec (ktype ta) LDNS_RR_TYPE_DS) as [E|E]; [by rewrite decide_True|].
  rewrite decide_False by done. rewrite IH. by destruct (list_find is_ds l) as [[i x]|].
Qed.

Lemma iterates_dnskey K : Forall rr_ok K -> iterates assemble_iterate_dnskey trusted K.
Proof.
  intros HK l' Hs. apply (rr_suffix K l' HK) in Hs. clear HK K.
  induction Hs as [|ta l Hta Hl IH]; [done|]. cbn [assemble_iterate_dnskey list_find]. rewrite type_ok, bind_Ok by done.
  destruct (decide (trusted ta)) as [[H1 H2]|H].
  - by rewrite eqb_false, bool_decide_eq_true_2 by done.
  - replace (negb _ && _) with false; [|symmetry; apply andb_false_iff].
    + rewrite IH. by destruct (list_find trusted l) as [[i x]|].
    + destruct (Z.eqb_spec (ktype ta) LDNS_RR_TYPE_DS); [by left|right]. apply bool_decide_eq_false_2. intros Hs. by apply H.
Qed.

(** ** The packed data *)

Definition kttl (ta : autr_ta) : Z :=
  match sldns_wirerr_get_ttl ta.(rr) ta.(rr_len) ta.(dname_len) with Ok t => t | _ => 0 end.
(** The rdata with its length in front. *)
Definition kdata (ta : autr_ta) : list Z := sldns_write_uint16 (zlen (krdata ta)) ++ krdata ta.

Lemma zlen_kdata ta : zlen (kdata ta) = 2 + zlen (krdata ta).
Proof. unfold kdata. by rewrite zlen_app, zlen_w16. Qed.

Lemma key_reads ta : key_ok ta ->
  ta_rdatalen ta = Ok (zlen (krdata ta)) /\ sldns_wirerr_get_ttl ta.(rr) ta.(rr_len) ta.(dname_len) = Ok (kttl ta) /\
  sldns_wirerr_get_rdatawl ta.(rr) ta.(rr_len) ta.(dname_len) = Ok (Some (kdata ta)) /\
  ta_type ta = Ok (ktype ta) /\ ktype ta <> LDNS_RR_TYPE_RRSIG /\ 0 <= zlen (krdata ta) < 65536 /\ bytes_ok (kdata ta) /\
  in_u 32 (kttl ta).
Proof.
  intros [(n & t & c & tl & d & V) Hty _ _]. pose proof (view_bounds _ _ _ _ _ _ V) as (_ & Hd & _).
  unfold kttl, kdata. rewrite (view_rdatalen _ _ _ _ _ _ V), (view_ttl _ _ _ _ _ _ V), (view_rdatawl _ _ _ _ _ _ V), (view_type _ _ _ _ _ _ V).
  pose proof (view_k _ _ _ _ _ _ V) as [Et ->]. rewrite Et in *. split; [done|]. split; [done|]. split; [done|]. split; [done|].
  split; [by destruct Hty as [-> | ->]|]. split; [done|]. split; [|apply V]. apply Forall_app. split; [auto with cwd|apply V].
Qed.

Implicit Types L : list autr_ta.

Lemma concat_len L : Forall key_ok L -> 0 <= zlen (concat (kdata <$> L)) <= 65538 * zlen L.
Proof.
  induction 1 as [|ta L Hta _ IH]; [done|]. cbn [fmap list_fmap concat]. rewrite zlen_app, zlen_kdata, zlen_cons.
  destruct (key_reads ta Hta) as (_ & _ & _ & _ & _ & ? & _). lia.
Qed.

Lemma heap_count_ok L : forall n len tl, Forall key_ok L -> 0 <= n -> 0 <= len -> n + zlen L < 2 ^ 32 ->
  len + 65538 * zlen L < 2 ^ 63 ->
  foldM heap_count (n, 0, len, tl) L
  = Ok (n + zlen L, 0, len + zlen (concat (kdata <$> L)), default tl (last (kttl <$> L))).
Proof.
  induction L as [|ta L IH]; intros n len tl H Hn Hl H1 H2.
  - cbn. do 2 f_equal. repeat f_equal; unfold zlen; cbn; lia.
  - apply Forall_cons in H as [Hta HL]. cbn [foldM]. pose proof (zlen_nonneg L). rewrite zlen_cons in H1, H2.
    destruct (key_reads ta Hta) as (E1 & E2 & _ & E4 & E5 & Hd & _).
    assert (heap_count (n, 0, len, tl) ta = Ok (n + 1, 0, len + 2 + zlen (krdata ta), kttl ta)) as ->.
    { unfold heap_count. rewrite E4, bind_Ok, eqb_false, E1, bind_Ok, E2, bind_Ok by done.
      by rewrite !wrap_small by (unfold in_u; lia). }
    rewrite bind_Ok. rewrite IH by (done || lia). cbn [fmap list_fmap concat].
    rewrite zlen_cons, zlen_app, zlen_kdata, last_cons.
    assert (n + 1 + zlen L = n + (1 + zlen L)) as -> by lia.
    set (x := zlen (concat _)). assert (len + 2 + zlen (krdata ta) + x = len + (2 + zlen (krdata ta) + x)) as -> by lia.
    by destruct (last _).
Qed.

(** The stores of the second loop, one after another. *)
Lemma packed_app a x b v : store (a ++ x :: b) (zlen a) v = Ok (a ++ v :: b).
Proof.
  unfold store. pose proof (zlen_nonneg a). pose proof (zlen_nonneg b). rewrite zlen_app, zlen_cons, leb_true, ltb_true by lia.
  cbn [andb]. rewrite to_nat_zlen. by rewrite insert_app_r_alt, Nat.sub_diag by lia.
Qed.

Lemma heap_fill_ok L : forall t1 l1 tl, Forall key_ok L -> zlen t1 = zlen l1 ->
  foldM heap_fill (zlen t1, t1 ++ replicate (length L) 0, l1 ++ replicate (length L) 0, tl) L
  = Ok (zlen t1 + zlen L, t1 ++ (kttl <$> L), l1 ++ (zlen <$> (kdata <$> L)), foldl Z.min tl (kttl <$> L)).
Proof.
  induction L as [|ta L IH]; intros t1 l1 tl H E.
  - cbn. rewrite !app_nil_r, Z.add_0_r. done.
  - apply Forall_cons in H as [Hta HL]. cbn [foldM length replicate]. destruct (key_reads ta Hta) as (E1 & E2 & _).
    set (r1 := replicate (length L) 0).
    assert (heap_fill (zlen t1, t1 ++ 0 :: r1, l1 ++ 0 :: r1, tl) ta
      = Ok (zlen l1 + 1, t1 ++ kttl ta :: r1, l1 ++ (2 + zlen (krdata ta)) :: r1, if kttl ta <? tl then kttl ta else tl)) as ->.
    { unfold heap_fill. rewrite E2, bind_Ok, packed_app, bind_Ok, E1, bind_Ok, E, packed_app, bind_Ok. done. }
    rewrite bind_Ok. rewrite !(cons_middle _ _ r1), !app_assoc. unfold r1.
    replace (zlen l1 + 1) with (zlen (t1 ++ [kttl ta])) by (rewrite zlen_app, E; done).
    rewrite IH by (done || (rewrite !zlen_app, E; done)). rewrite <- !app_assoc. cbn [fmap list_fmap foldl app].
    rewrite zlen_app, zlen_cons, zlen_kdata, E.
    assert ((if kttl ta <? tl then kttl ta else tl) = Z.min tl (kttl ta)) as -> by (zcase; lia).
    change (zlen [kttl ta]) with 1. rewrite <- Z.add_assoc. by rewrite (zlen_cons ta L).
Qed.

Lemma zlen_replicate {A} n (x : A) : zlen (replicate n x) = Z.of_nat n.
Proof. unfold zlen. by rewrite length_replicate. Qed.

Lemma offsets_app l1 : forall l2 o, heap_offsets (l1 ++ l2) o = heap_offsets l1 o ++ heap_offsets l2 (o + foldr Z.add 0 l1).
Proof.
  induction l1 as [|x l1 IH]; intros l2 o; cbn; [by rewrite Z.add_0_r|]. rewrite IH. do 3 f_equal. lia.
Qed.

Lemma zlen_offsets l : forall o, zlen (heap_offsets l o) = zlen l.
Proof. induction l as [|x l IH]; intros o; cbn [heap_offsets]; [done|]. by rewrite !zlen_cons, IH. Qed.

Lemma sum_lens (D : list (list Z)) : foldr Z.add 0 (zlen <$> D) = zlen (concat D).
Proof. induction D as [|d D IH]; [done|]. cbn. rewrite zlen_app. by rewrite <- IH. Qed.

Lemma index_mid a x b : index (a ++ x :: b) (zlen a) = Ok x.
Proof. rewrite index_app_r, Z.sub_diag by lia. done. Qed.

Lemma heap_copy_ok L : forall L1, Forall key_ok L -> let lens := zlen <$> (kdata <$> (L1 ++ L)) in
  foldM (heap_copy (heap_offsets lens 0) lens)
    (zlen L1, concat (kdata <$> L1) ++ replicate (length (concat (kdata <$> L))) 0) L
  = Ok (zlen L1 + zlen L, concat (kdata <$> (L1 ++ L))).
Proof.
  induction L as [|ta L IH]; intros L1 H lens.
  - cbn. by rewrite !app_nil_r, Z.add_0_r.
  - apply Forall_cons in H as [Hta HL]. cbn [foldM]. destruct (key_reads ta Hta) as (_ & _ & E3 & _).
    assert (heap_copy (heap_offsets lens 0) lens
        (zlen L1, concat (kdata <$> L1) ++ replicate (length (concat (kdata <$> (ta :: L)))) 0) ta
      = Ok (zlen L1 + 1, concat (kdata <$> L1) ++ kdata ta ++ replicate (length (concat (kdata <$> L))) 0)) as ->.
    { unfold heap_copy, lens. rewrite !fmap_app, !fmap_cons, offsets_app. cbn [heap_offsets].
      replace (zlen L1) with (zlen (heap_offsets (zlen <$> (kdata <$> L1)) 0)) at 1
        by (rewrite zlen_offsets; unfold zlen; by rewrite !length_fmap).
      rewrite index_mid, bind_Ok. replace (zlen L1) with (zlen (zlen <$> (kdata <$> L1))) at 1 by (unfold zlen; by rewrite !length_fmap).
      rewrite index_mid, bind_Ok, E3, bind_Ok. cbn [nonnull]. rewrite bind_Ok, read_bytes_ok, bind_Ok by (pose proof (zlen_nonneg (kdata ta)); lia).
      replace (ztake (zlen (kdata ta)) (kdata ta)) with (kdata ta) by (unfold ztake; by rewrite to_nat_zlen, firstn_all).
      rewrite sum_lens, Z.add_0_l. cbn [concat]. rewrite length_app, replicate_add, write_at_app, bind_Ok
        by (rewrite zlen_replicate; done). done. }
    rewrite bind_Ok. replace (zlen L1 + 1) with (zlen (L1 ++ [ta])) by (by rewrite zlen_app).
    specialize (IH (L1 ++ [ta]) HL). cbn zeta in IH. unfold lens. rewrite <- (app_assoc L1 [ta] L) in IH. cbn [app] in IH.
    rewrite (fmap_app _ L1 [ta]), concat_app in IH. cbn [fmap list_fmap concat] in IH. rewrite app_nil_r, <- app_assoc in IH.
    rewrite IH, zlen_app, (zlen_cons ta L). change (zlen [ta]) with 1. by rewrite <- Z.add_assoc.
Qed.

Lemma slices_ok (D : list (list Z)) : forall P, zip_with (fun off len => ztake len (zdrop off (P ++ concat D)))
  (heap_offsets (zlen <$> D) (zlen P)) (zlen <$> D) = D.
Proof.
  induction D as [|d D IH]; intros P; [done|]. cbn [fmap list_fmap heap_offsets zip_with concat].
  rewrite zdrop_app_zlen, ztake_app_zlen. f_equal. specialize (IH (P ++ d)). rewrite <- app_assoc, zlen_app in IH. exact IH.
Qed.

(** An RRset with the data of these keys. *)
Record packs (L : list autr_ta) (k : ub_packed_rrset_key) : Prop := {
  p_data : k.(entry_data).(rr_data) = kdata <$> L;
  p_lens : k.(entry_data).(rr_lens) = zlen <$> (kdata <$> L);
  p_ttls : k.(entry_data).(rr_ttl) = kttl <$> L;
  p_count : k.(entry_data).(count) = zlen L /\ k.(entry_data).(rrsig_count) = 0;
  p_ttl : k.(entry_data).(ttl) ∈ kttl <$> L /\ Forall (fun x => k.(entry_data).(ttl) <= x) (kttl <$> L);
  p_type : Some k.(rk_type) = ktype <$> head L;
}.

Definition packed (L : list autr_ta) (o : option ub_packed_rrset_key) : Prop :=
  match o with Some k => packs L k | None => L = [] end.

Lemma min_ttl (l : list Z) t : last l = Some t -> foldl Z.min t l ∈ l /\ Forall (fun x => foldl Z.min t l <= x) l.
Proof.
  intros Hl. assert (forall l t, (foldl Z.min t l = t \/ foldl Z.min t l ∈ l) /\ foldl Z.min t l <= t /\
    Forall (fun x => foldl Z.min t l <= x) l) as H.
  { clear. intros l. induction l as [|x l IH]; intros t; cbn; [split; [by left|split; [lia|constructor]]|].
    destruct (IH (Z.min t x)) as (H1 & H2 & H3). split; [|split; [lia|constructor; [lia|done]]].
    destruct H1 as [H1|H1]; [|right; by right]. rewrite H1.
    destruct (Z.min_spec t x) as [[_ ->]|[_ ->]]; [by left|right; by left]. }
  destruct (H l t) as (H1 & _ & H3). split; [|done]. destruct H1 as [->|]; [|done].
  apply last_Some in Hl as [l' ->]. set_solver.
Qed.

Section Assemble.
Context (iter : iterator) (P : autr_ta -> Prop) `{!forall ta, Decision (P ta)} (K : list autr_ta).
Context (HK : Forall key_ok K) (Hlen : zlen K < 2 ^ 32) (Hit : iterates iter P K).

Lemma sel_ok : Forall key_ok (filter P K).
Proof. apply Forall_forall. intros ta [_ Hin]%list_elem_of_filter. rewrite Forall_forall in HK. by apply HK. Qed.

Lemma sel_len : zlen (filter P K) < 2 ^ 32.
Proof. unfold zlen in *. pose proof (length_filter P K). lia. Qed.

Lemma heap_data_ok m : filter P K <> [] ->
  exists o m', packed_rrset_heap_data m iter K = Ok (o, m') /\ (mallocs_ok m -> o <> None /\ mallocs_ok m') /\
    match o with
    | Some d => packs (filter P K) (mk_rrset [] 0 (default 0 (ktype <$> head (filter P K))) 0 d)
    | None => True
    end.
Proof.
  intros Hne. pose proof sel_ok as Hs. pose proof sel_len as Hl. unfold packed_rrset_heap_data.
  rewrite !(while_iter_ok iter P) by done. set (L := filter P K) in *.
  assert (0 < zlen L) as Hpos by (destruct L; [done|]; rewrite zlen_cons; pose proof (zlen_nonneg L); lia).
  rewrite heap_count_ok, bind_Ok by (done || lia). rewrite eqb_false by lia. cbn [andb].
  destruct (malloc m) as [b m1] eqn:Em. destruct b; cbn [negb].
  2: { eexists _, _. split; [reflexivity|]. split; [|done]. intros Hm. by destruct (malloc_ok _ _ _ Em Hm). }
  rewrite wrap_small, !Z.add_0_l, Z.add_0_r, to_nat_zlen by (unfold in_u; lia).
  pose proof (heap_fill_ok L [] [] (default 0 (last (kttl <$> L))) Hs eq_refl) as Hf. cbn [app] in Hf. change (zlen []) with 0 in Hf.
  rewrite (while_iter_ok iter P) by done. fold L. rewrite (to_nat_zlen L), Hf, bind_Ok.
  rewrite (while_iter_ok iter P) by done. fold L. pose proof (heap_copy_ok L [] Hs) as Hc. cbn [app fmap list_fmap concat] in Hc.
  change (zlen []) with 0 in Hc. rewrite Hc, bind_Ok. cbn [negb andb]. eexists _, _. split; [reflexivity|].
  split; [intros Hm; split; [done|]; by apply (malloc_ok _ _ _ Em)|].
  split; cbn [entry_data rr_data rr_lens rr_ttl count rrsig_count ttl rk_type]; try done.
  - exact (slices_ok (kdata <$> L) []).
  - destruct L as [|ta L'] eqn:EL; [done|]. rewrite <- EL. destruct (last (kttl <$> L)) as [t|] eqn:Et; [by apply min_ttl|].
    rewrite fmap_last in Et. by rewrite EL, last_cons in Et; destruct (last L').
  - by destruct L.
Qed.

Lemma first_sel : iter K = Ok (match list_find P K with Some (i, ta) => Some (ta, drop (S i) K) | None => None end) /\
  match list_find P K with Some (i, ta) => head (filter P K) = Some ta | None => filter P K = [] end.
Proof.
  split; [by apply Hit|]. pose proof (list_find_filter P K) as Hff. destruct (list_find P K) as [[i ta]|]; [|done].
  by destruct Hff as [-> _].
Qed.

Lemma assemble_rrset_ok m : exists ok o m', assemble_rrset m iter K = Ok (ok, o, m') /\
  (mallocs_ok m -> ok = true /\ mallocs_ok m') /\ (ok = true -> packed (filter P K) o).
Proof.
  unfold assemble_rrset, assemble_iterate_hasfirst, ub_packed_rrset_heap_key. destruct first_sel as [-> Hf].
  destruct (list_find P K) as [[i ta]|]; rewrite !bind_Ok; cbn [negb]; [|by eexists _, _, _].
  assert (filter P K <> []) as Hne by (intros E; by rewrite E in Hf).
  destruct (malloc m) as [b1 m1] eqn:E1. destruct b1; cbn [negb]; rewrite ?bind_Ok.
  2: { eexists _, _, _. split; [reflexivity|]. split; [|done]. intros Hm. by destruct (malloc_ok _ _ _ E1 Hm). }
  assert (key_ok ta) as Hta.
  { pose proof sel_ok as Hs. destruct (filter P K) as [|x L]; [done|]. injection Hf as ->. by apply Forall_cons in Hs as [? _]. }
  destruct (k_rr _ Hta) as (n & t & c & tl & d & V). pose proof (view_bounds _ _ _ _ _ _ V).
  rewrite (view_type _ _ _ _ _ _ V), bind_Ok, (view_class _ _ _ _ _ _ V), bind_Ok.
  destruct (malloc m1) as [b2 m2] eqn:E2. destruct b2; cbn [negb].
  2: { rewrite bind_Ok. eexists _, _, _. split; [reflexivity|]. split; [|done]. intros Hm.
       destruct (malloc_ok _ _ _ E1 Hm) as [_ Hm1]. by destruct (malloc_ok _ _ _ E2 Hm1). }
  rewrite read_bytes_ok, !bind_Ok.
  2: { rewrite (v_dname _ _ _ _ _ _ V), (v_rr _ _ _ _ _ _ V), zlen_rr_bytes. lia. }
  destruct (heap_data_ok m2 Hne) as (o & m3 & -> & Hm3 & Hp). rewrite bind_Ok.
  destruct o as [pd|].
  - eexists _, _, _. split; [reflexivity|]. split.
    + intros Hm. split; [done|]. apply Hm3, (malloc_ok _ _ _ E2), (malloc_ok _ _ _ E1), Hm.
    + intros _. destruct Hp. split; try done. cbn [rk_type] in *. rewrite Hf. cbn. by rewrite (proj1 (view_k _ _ _ _ _ _ V)).
  - eexists _, _, _. split; [reflexivity|]. split; [|done]. intros Hm.
    destruct Hm3 as [? _]; [|done]. apply (malloc_ok _ _ _ E2), (malloc_ok _ _ _ E1), Hm.
Qed.

Lemma iterate_count_ok : assemble_iterate_count iter K = Ok (zlen (filter P K)).
Proof.
  unfold assemble_iterate_count. rewrite (while_iter_ok iter P) by done. pose proof sel_len as Hl.
  cut (forall (L : list autr_ta) i, 0 <= i -> i + zlen L < 2 ^ 32 -> foldM (fun (i : Z) (_ : autr_ta) => Ok (u64 (i + 1))) i L = Ok (i + zlen L)).
  { intros Hc. rewrite Hc by lia. by rewrite Z.add_0_l. }
  clear. induction L as [|ta L IH]; intros i Hi Hlt; cbn [foldM]; [by rewrite zlen_nil, Z.add_0_r|].
  rewrite zlen_cons in *. pose proof (zlen_nonneg L). rewrite bind_Ok, wrap_small, IH by (unfold in_u; lia). f_equal. lia.
Qed.
End Assemble.

Lemma packed_wf L o k : packed L o -> o = Some k -> Forall key_ok L -> zlen L < 2 ^ 32 -> rrset_wf k.
Proof.
  intros Hp -> HL Hl. destruct Hp as [E1 E2 E3 [E4 E5] _ _]. pose proof (zlen_nonneg L).
  split; rewrite ?E1, ?E2, ?E3, ?E4, ?E5; try done; rewrite ?zlen_map; unfold fmap; rewrite ?zlen_map; try lia.
  apply Forall_fmap. eapply Forall_impl; [exact HL|]. intros ta Hta. unfold compose.
  destruct (key_reads ta Hta) as (_ & _ & _ & _ & _ & Hd & Hb & _). rewrite zlen_kdata. split; [done|lia].
Qed.

(** The anchors that belong to the keys. *)
Definition assembled (K : list autr_ta) (A : anchors_of) : Prop :=
  packed (filter is_ds K) A.(ds_rrset) /\ packed (filter trusted K) A.(dnskey_rrset) /\
  A.(numDS) = zlen (filter is_ds K) /\ A.(numDNSKEY) = zlen (filter trusted K).

Lemma assemble_ok m K old : Forall key_ok K -> zlen K < 2 ^ 32 ->
  exists ok A m', autr_assemble m K old = Ok (ok, A, m') /\ (mallocs_ok m -> ok = true /\ mallocs_ok m') /\
    if (ok : bool) then assembled K A else A = old.
Proof.
  intros HK Hl. pose proof (keys_rr K HK) as Hr. pose proof (iterates_ds K Hr) as I1. pose proof (iterates_dnskey K Hr) as I2.
  unfold autr_assemble. destruct (assemble_rrset_ok _ _ K HK Hl I1 m) as (ok1 & o1 & m1 & -> & Hm1 & Hp1). rewrite bind_Ok.
  destruct ok1; cbn [negb]; [|eexists _, _, _; split; [reflexivity|]; split; [|done]; by intros [? _]%Hm1].
  destruct (assemble_rrset_ok _ _ K HK Hl I2 m1) as (ok2 & o2 & m2 & -> & Hm2 & Hp2). rewrite bind_Ok.
  destruct ok2; cbn [negb]; [|eexists _, _, _; split; [reflexivity|]; split; [|done]; by intros [_ [? _]%Hm2]%Hm1].
  rewrite (iterate_count_ok _ _ K Hl I1), (iterate_count_ok _ _ K Hl I2), !bind_Ok. eexists _, _, _.
  split; [reflexivity|]. split; [intros [_ [_ Hm]%Hm2]%Hm1; done|]. split; [by apply Hp1|]. split; [by apply Hp2|done].
Qed.

(** ** Property *)

(** C32. The assembled trust anchors are exactly those of the keys: the DS RRset has
    the data of the DS records and the DNSKEY RRset that of the keys that are VALID
    or MISSING, in order, with their lengths, counts and least TTL, and there is no
    RRset when there are none.  When memory runs out the anchors are unchanged;
    this is the only failure.  Nothing is written outside the allocated block. *)
Theorem autr_assemble_spec (m : mem) (K : list autr_ta) (old : anchors_of) : Forall key_ok K -> zlen K < 2 ^ 32 ->
  exists ok A m', autr_assemble m K old = Ok (ok, A, m') /\ (mallocs_ok m -> ok = true) /\
    if (ok : bool) then assembled K A else A = old.
Proof.
  intros HK Hl. destruct (assemble_ok m K old HK Hl) as (ok & A & m' & E & Hm & HA). exists ok, A, m'.
  split; [done|]. split; [|done]. intros Hok. by apply Hm.
Qed.

Definition no_anchors_yet : anchors_of := mk_anchors None None 0 0.

(** A VALID key and one that is pending: the first is in the anchors. *)
Lemma autr_assemble_spec_witness : exists A m',
  autr_assemble [] [with_s AUTR_STATE_VALID sample_pending; sample_pending] no_anchors_yet = Ok (true, A, m') /\
  A.(numDNSKEY) = 1.
Proof.
  destruct (autr_assemble_spec [] [with_s AUTR_STATE_VALID sample_pending; sample_pending] no_anchors_yet) as (ok & A & m' & E & Hok & HA).
  - apply Forall_cons_2; [|apply Forall_cons_2; [|apply Forall_nil_2]];
      apply (key_ok_with sample_env sample_env_ok sample_pending _ sample_pending_ok); cbn; auto; by unfold in_u.
  - done.
  - rewrite (Hok (Forall_nil_2 _)) in E, HA. exists A, m'. split; [exact E|]. destruct HA as (_ & _ & _ & ->). vm_compute. reflexivity.
Defined.
