(* ===== verification/AutotrustProbe.v ===== *)
(** * RFC 5011 trust points: processing a response and scheduling probes

    [autr_process_prime] and the probe timer of validator/autotrust.c, on the two
    trees that hold the trust points: the tree of trust anchors by name and the
    tree of autotrust points by the time of their next probe.  A trust point is
    identified by its address; its lock is held by this thread when it is in
    [locked].  Writing the state file is an entry of [disk], a probe is an entry of
    [probed]. *)

From S2P Require Import Prelude Rbtree DnsTree Autotrust AutotrustRrset.

(** [struct trust_anchor] with its [autr_point_data]. *)
Record trust_anchor := mk_tp {
  ident : name_key;
  keys : list autr_ta;
  anchors : anchors_of;
  last_queried : Z;
  last_success : Z;
  next_probe_time : Z;
  query_interval : Z;
  retry_time : Z;
  query_failed : Z;
  tp_revoked : bool;
}.

Definition with_keys x tp := mk_tp tp.(ident) x tp.(anchors) tp.(last_queried) tp.(last_success) tp.(next_probe_time) tp.(query_interval) tp.(retry_time) tp.(query_failed) tp.(tp_revoked).
Definition with_anchors x tp := mk_tp tp.(ident) tp.(keys) x tp.(last_queried) tp.(last_success) tp.(next_probe_time) tp.(query_interval) tp.(retry_time) tp.(query_failed) tp.(tp_revoked).
Definition with_queried x tp := mk_tp tp.(ident) tp.(keys) tp.(anchors) x tp.(last_success) tp.(next_probe_time) tp.(query_interval) tp.(retry_time) tp.(query_failed) tp.(tp_revoked).
Definition with_success x tp := mk_tp tp.(ident) tp.(keys) tp.(anchors) tp.(last_queried) x tp.(next_probe_time) tp.(query_interval) tp.(retry_time) tp.(query_failed) tp.(tp_revoked).
Definition with_next_probe x tp := mk_tp tp.(ident) tp.(keys) tp.(anchors) tp.(last_queried) tp.(last_success) x tp.(query_interval) tp.(retry_time) tp.(query_failed) tp.(tp_revoked).
Definition with_times qi rt tp := mk_tp tp.(ident) tp.(keys) tp.(anchors) tp.(last_queried) tp.(last_success) tp.(next_probe_time) qi rt tp.(query_failed) tp.(tp_revoked).
Definition with_failed x tp := mk_tp tp.(ident) tp.(keys) tp.(anchors) tp.(last_queried) tp.(last_success) tp.(next_probe_time) tp.(query_interval) tp.(retry_time) x tp.(tp_revoked).
Definition with_tp_revoked x tp := mk_tp tp.(ident) tp.(keys) tp.(anchors) tp.(last_queried) tp.(last_success) tp.(next_probe_time) tp.(query_interval) tp.(retry_time) tp.(query_failed) x.

(** The keys of the probe tree: the time and, when equal, the trust point. *)
Definition probe_key : Type := Z * name_key.

Definition probetree_cmp (x y : probe_key) : Z :=
  if x.1 <? y.1 then -1 else if y.1 <? x.1 then 1 else name_cmp x.2 y.2.

Definition probe_key_of (tp : trust_anchor) : probe_key := (tp.(next_probe_time), tp.(ident)).

Record world := mk_world {
  tps : gmap addr trust_anchor;
  atree : dtree name_key;
  probe : rbtree probe_key;
  locked : gset addr;
  timer : option Z;
  disk : list trust_anchor;
  probed : list addr;
  memory : mem;
  random : list Z;
}.

Definition upd_tps f w := mk_world (f w.(tps)) w.(atree) w.(probe) w.(locked) w.(timer) w.(disk) w.(probed) w.(memory) w.(random).
Definition upd_atree f w := mk_world w.(tps) (f w.(atree)) w.(probe) w.(locked) w.(timer) w.(disk) w.(probed) w.(memory) w.(random).
Definition upd_probe f w := mk_world w.(tps) w.(atree) (f w.(probe)) w.(locked) w.(timer) w.(disk) w.(probed) w.(memory) w.(random).
Definition upd_locked f w := mk_world w.(tps) w.(atree) w.(probe) (f w.(locked)) w.(timer) w.(disk) w.(probed) w.(memory) w.(random).
Definition upd_timer x w := mk_world w.(tps) w.(atree) w.(probe) w.(locked) x w.(disk) w.(probed) w.(memory) w.(random).
Definition upd_disk x w := mk_world w.(tps) w.(atree) w.(probe) w.(locked) w.(timer) (w.(disk) ++ [x]) w.(probed) w.(memory) w.(random).
Definition upd_probed x w := mk_world w.(tps) w.(atree) w.(probe) w.(locked) w.(timer) w.(disk) (w.(probed) ++ [x]) w.(memory) w.(random).
Definition upd_memory x w := mk_world w.(tps) w.(atree) w.(probe) w.(locked) w.(timer) w.(disk) w.(probed) x w.(random).
Definition upd_random x w := mk_world w.(tps) w.(atree) w.(probe) w.(locked) w.(timer) w.(disk) w.(probed) w.(memory) x.

Abbreviation W := (ST world).

Definition lift {A} (m : outcome A) : W A := fun w =>
  match m with Ok a => Ok (a, w) | Fault f => Fault f | OutOfFuel => OutOfFuel end.

Definition modify (f : world -> world) : W unit := fun w => Ok (tt, f w).

Definition on_probe {A} (m : ST (rbtree probe_key) A) : W A := fun w =>
  match m w.(probe) with Ok (a, t) => Ok (a, upd_probe (fun _ => t) w) | Fault f => Fault f | OutOfFuel => OutOfFuel end.

Definition on_anchors {A} (m : ST (dtree name_key) A) : W A := fun w =>
  match m w.(atree) with Ok (a, t) => Ok (a, upd_atree (fun _ => t) w) | Fault f => Fault f | OutOfFuel => OutOfFuel end.

(** A trust point that was freed is not in [tps]. *)
Definition get_tp (a : addr) : W trust_anchor := fun w =>
  match w.(tps) !! a with Some tp => Ok (tp, w) | None => Fault Undefined end.

Definition set_tp (a : addr) (f : trust_anchor -> trust_anchor) : W unit := fun w =>
  match w.(tps) !! a with Some tp => Ok (tt, upd_tps <[a := f tp]> w) | None => Fault Undefined end.

(** [lock_basic_lock(&tp->lock)]; taking a lock one holds is a deadlock. *)
Definition lock (a : addr) : W unit := fun w =>
  if decide (a ∈ w.(locked)) then Fault Deadlock else Ok (tt, upd_locked (fun x => {[a]} ∪ x) w).

Definition unlock (a : addr) : W unit := fun w =>
  if decide (a ∈ w.(locked)) then Ok (tt, upd_locked (fun x => x ∖ {[a]}) w) else Fault Undefined.

(** ** Random numbers (util/random.c, compat/arc4random_uniform.c) *)

(** The next answers of [arc4random]; after those, the largest. *)
Fixpoint arc4random_loop (min : Z) (rs : list Z) : Z * list Z :=
  match rs with
  | [] => (4294967295, [])
  | r :: rs' => if min <=? r then (r, rs') else arc4random_loop min rs'
  end.

Definition arc4random_uniform (upper_bound : Z) (rs : list Z) : Z * list Z :=
  if upper_bound <? 2 then (0, rs) else
  let min := u32 (- upper_bound) mod upper_bound in
  let '(r, rs) := arc4random_loop min rs in
  (r mod upper_bound, rs).

Definition ub_random_max (x : Z) : W Z := fun w =>
  let '(r, rs) := arc4random_uniform (u32 x) w.(random) in Ok (r, upd_random rs w).

Section Probe.
Context (env : module_env).

Definition calc_next_probe (wait : Z) : W Z :=
  let wait := if negb env.(permit_small) then (if wait <? 3600 then 3600 else wait)
              else (if wait =? 0 then 1 else wait) in
  let rnd := Z.quot wait 10 in
  let rest := wait - rnd in
  rnd ← ub_random_max rnd;
  t ← lift (sint 64 (env.(now) + rest));
  lift (sint 64 (t + rnd)).

Definition wait_probe_time : W Z :=
  t ← on_probe rbtree_first;
  match t with
  | Some a => tp ← get_tp a; mret tp.(next_probe_time)
  | None => mret 0
  end.

Definition reset_worker_timer : W unit :=
  next ← wait_probe_time;
  if negb env.(probe_timer) then mret tt else
  modify (upd_timer (Some (if env.(now) <? next then next - env.(now) else 0))).

(** Take the trust point out of the probe tree, set its time, and put it back. *)
Definition reschedule (a : addr) (wait : Z) : W unit :=
  tp ← get_tp a;
  on_probe (rbtree_delete probetree_cmp (probe_key_of tp));;
  t ← calc_next_probe wait;
  set_tp a (with_next_probe t);;
  tp ← get_tp a;
  on_probe (set_key a (probe_key_of tp));;
  on_probe (rbtree_insert probetree_cmp (Some a));;
  mret tt.

(** [key]: the structure filled in with the owner name of the response. *)
Definition set_next_probe (a : addr) (key : name_key) : W bool :=
  unlock a;;
  tp2 ← on_anchors (tree_find name_cmp key);
  match tp2 with
  | None => mret false
  | Some a2 =>
      lift (log_assert env (bool_decide (a = a2)));;
      lock a;;
      mold ← wait_probe_time;
      tp ← get_tp a;
      reschedule a tp.(query_interval);;
      mnew ← wait_probe_time;
      (if negb (mold =? mnew) then reset_worker_timer else mret tt);;
      mret true
  end.

Definition autr_write_file (a : addr) : W unit := tp ← get_tp a; modify (upd_disk tp).

Definition autr_point_delete (a : addr) : W unit := get_tp a;; modify (upd_tps (delete a)).

Definition anchors_init_parents_locked : W unit := on_anchors name_tree_init_parents.

Definition autr_tp_remove (a : addr) (key : name_key) : W unit :=
  set_tp a (with_tp_revoked true);;
  tp ← get_tp a;
  let pkey : probe_key := (tp.(next_probe_time), key) in
  unlock a;;
  del_tp ← on_anchors (on_tree (rbtree_delete name_cmp key));
  mold ← wait_probe_time;
  on_probe (rbtree_delete probetree_cmp pkey);;
  mnew ← wait_probe_time;
  anchors_init_parents_locked;;
  match del_tp with
  | Some d =>
      set_tp d (with_next_probe 0);;
      autr_write_file d;;
      autr_point_delete d
  | None => mret tt
  end;;
  if negb (mold =? mnew) then reset_worker_timer else mret tt.

(** ** A response *)

Context `{!Sigcrypt}.

(** [autr_assemble(tp)] *)
Definition assemble_tp (a : addr) : W bool := fun w =>
  match w.(tps) !! a with
  | None => Fault Undefined
  | Some tp =>
      '(ok, A, m) ← autr_assemble w.(memory) tp.(keys) tp.(anchors);
      Ok (ok, upd_memory m (upd_tps <[a := with_anchors A tp]> w))
  end.

(** An operation on the keys of the trust point, with [*changed]. *)
Definition on_keys (a : addr) (f : list autr_ta -> bool -> outcome (list autr_ta * bool)) (changed : bool) : W bool :=
  tp ← get_tp a;
  '(K, changed) ← lift (f tp.(keys) changed);
  set_tp a (with_keys K);;
  mret changed.

Definition update_events_tp (a : addr) (dnskey : ub_packed_rrset_key) (changed : bool) : W (bool * bool) := fun w =>
  match w.(tps) !! a with
  | None => Fault Undefined
  | Some tp =>
      let id := proj1_sig tp.(ident) in
      '(ok, K, (qi, rt), changed, m) ←
        update_events env id.(nt_name) id.(nt_len) tp.(anchors).(ds_rrset) dnskey tp.(keys)
          tp.(query_interval) tp.(retry_time) changed w.(memory);
      Ok ((ok, changed), upd_memory m (upd_tps <[a := with_times qi rt (with_keys K tp)]> w))
  end.

Definition verify_dnskey (a : addr) (dnskey : ub_packed_rrset_key) : W bool :=
  tp ← get_tp a;
  mret (val_verify_DNSKEY_with_TA dnskey tp.(anchors).(ds_rrset) tp.(anchors).(dnskey_rrset)).

Definition no_anchors (a : addr) : W bool :=
  tp ← get_tp a;
  mret (match tp.(anchors).(ds_rrset), tp.(anchors).(dnskey_rrset) with None, None => true | _, _ => false end).

(** From the validated response on. *)
Definition process_valid (a : addr) (key : name_key) (dnskey : ub_packed_rrset_key) (changed : bool) : W bool :=
  set_tp a (fun tp => with_failed 0 (with_success env.(now) tp));;
  '(ok, changed) ← update_events_tp a dnskey changed;
  if negb ok then mret true else
  changed ← on_keys a (do_statetable env) changed;
  tp ← get_tp a;
  K ← lift (autr_cleanup_keys tp.(keys));
  set_tp a (with_keys K);;
  ok ← set_next_probe a key;
  if negb ok then mret false else
  autr_write_file a;;
  if negb changed then mret true else
  ok ← assemble_tp a;
  if negb ok then mret true else
  none ← no_anchors a;
  if (none : bool) then autr_tp_remove a key;; mret false else mret true.

(** The response does not verify; this counts unless it is the first. *)
Definition not_verified (a : addr) : W bool :=
  tp ← get_tp a;
  (if negb (tp.(last_success) =? 0) then
     set_tp a (with_failed (u8 (tp.(query_failed) + 1)));; autr_write_file a
   else mret tt);;
  mret true.

(** With the DNSKEY RRset: first the keys that revoke themselves. *)
Definition process_dnskey (a : addr) (key : name_key) (dnskey : ub_packed_rrset_key) (changed : bool) : W bool :=
  changed ← on_keys a (check_contains_revoked env dnskey) changed;
  ok ← (if (changed : bool) then assemble_tp a else mret true);
  if negb ok then mret true else
  none ← (if changed then no_anchors a else mret false);
  if (none : bool) then set_tp a (with_success env.(now));; autr_tp_remove a key;; mret false else
  ok ← verify_dnskey a dnskey;
  if negb ok then not_verified a else process_valid a key dnskey changed.

(** The answer: the trust point still exists.  [dnskey] and the structure with its
    owner name, when there is a response. *)
Definition autr_process_prime (a : addr) (dnskey : option (ub_packed_rrset_key * name_key)) : W bool :=
  tp ← get_tp a;
  if tp.(tp_revoked) then unlock a;; mret false else
  set_tp a (with_queried env.(now));;
  changed ← on_keys a (autr_holddown_exceed env) false;
  ok ← (if (changed : bool) then assemble_tp a else mret true);
  if negb ok then mret true else
  match dnskey with
  | None => mret true
  | Some (dnskey, key) => process_dnskey a key dnskey changed
  end.

(** ** The probe timer *)

(** The work of the mesh on the new query. *)
Context (mesh_new_callback : addr -> W unit).

Definition probe_anchor (a : addr) : W unit := fun w =>
  let '(ok, m) := malloc w.(memory) in
  if negb ok then Ok (tt, upd_memory m w) else
  (unlock a;; modify (upd_probed a);; mesh_new_callback a) (upd_memory m w).

(** The trust point to probe, locked, and [*next]. *)
Definition todo_probe (next : Z) : W (option addr * Z) :=
  el ← on_probe rbtree_first;
  match el with
  | None => mret (None, 0)
  | Some a =>
      lock a;;
      tp ← get_tp a;
      if env.(now) <? tp.(next_probe_time) then
        unlock a;; mret (None, tp.(next_probe_time) - env.(now))
      else
        reschedule a tp.(retry_time);;
        mret (Some a, next)
  end.

Fixpoint probe_loop (fuel : nat) (next : Z) : W Z :=
  match fuel with
  | O => fun _ => OutOfFuel
  | S fuel' =>
      '(tp, next) ← todo_probe next;
      match tp with
      | None => mret next
      | Some a => probe_anchor a;; probe_loop fuel' next
      end
  end.

Definition autr_probe_timer : W Z := fun w =>
  probe_loop (S (size w.(probe).(nodes))) (if env.(permit_small) then 1 else 3600) w.
End Probe.
