(* ===== verification/AutotrustPrime.v ===== *)
(** * RFC 5011: processing a response keeps the trust points in order

    The invariant of the trust points and of the two trees that hold them, kept by
    the operations of [AutotrustProbe]; and a trust point to apply them to. *)

From S2P Require Import Prelude Sbuffer Dname DnameCompare Rbtree RbtreeTree RbtreeInsert RbtreeAdd RbtreeFixup RbtreeDelete RbtreeRemove RbtreeApi PathOrder DnsTree DnsTreeSpec NameTree Autotrust AutotrustKeys AutotrustRrset AutotrustTable AutotrustAssemble AutotrustProbe.

(** ** What a red-black tree promises its user: a sorted list of nodes *)

Section Ordered.
Context {K : Type} (cmp : K -> K -> Z) `{!TotalCmp cmp}.
Implicit Types (t : rbtree K) (L : list (K * addr)).

Record ordered t L : Prop := {
  o_tree : exists tr, rep t tr /\ rb tr /\ inorder tr = L;
  o_sorted : sorted cmp L;
}.

Lemma ordered_first t L : ordered t L -> rbtree_first t = Ok (snd <$> head L, t).
Proof. intros [(tr & R & _ & <-) _]. by apply first_ok. Qed.

Lemma ordered_nodup t L : ordered t L -> NoDup L.*2.
Proof. intros [(tr & R & _ & <-) _]. rewrite <- addrs_inorder. apply R. Qed.

Lemma ordered_dom t L k a : ordered t L -> (k, a) ∈ L -> a ∈ dom t.(nodes).
Proof.
  intros [(tr & R & _ & <-) _] Hin. pose proof (rep_elem _ _ _ _ R Hin) as E.
  apply elem_of_dom. destruct (nodes t !! a); [by eexists|done].
Qed.

Lemma ordered_size t L : ordered t L -> (length L <= size t.(nodes))%nat.
Proof. intros [(tr & R & _ & <-) _]. pose proof (rep_size _ _ R) as H. by rewrite addrs_inorder, length_fmap in H. Qed.

Definition without_key k L := below cmp k L ++ above cmp k L.

Lemma elem_without k L e : e ∈ without_key k L <-> e ∈ L /\ cmp k e.1 <> 0.
Proof.
  unfold without_key, below, above. rewrite elem_of_app, !list_elem_of_filter. split; [intros [[? ?]|[? ?]]; split; done || lia|].
  intros [H1 H2]. destruct (Z.lt_total (cmp k e.1) 0) as [|[|]]; [by right|lia|by left].
Qed.

Lemma ordered_delete t L k : ordered t L -> exists t', rbtree_delete cmp k t = Ok (snd <$> head (at_key cmp k L), t') /\
  ordered t' (without_key k L) /\ dom t'.(nodes) = dom t.(nodes).
Proof.
  intros [(tr & R & Hrb & <-) Hs]. destruct (at_key cmp k (inorder tr)) as [|x L'] eqn:E.
  - exists t. split; [by apply (delete_none cmp t tr)|]. split; [|done]. unfold without_key.
    destruct (sorted_split cmp k _ Hs) as [E1 _]. rewrite E in E1. cbn in E1. rewrite <- E1. split; [by exists tr|done].
  - destruct (delete_some cmp t tr k x L' R Hrb Hs E) as (t' & tr' & E1 & R' & Hrb' & Ei & [_ _ Hk]).
    exists t'. split; [done|]. split; [|by apply dom_keys]. split; [by exists tr'|]. by apply sorted_remove.
Qed.

Lemma ordered_insert t L a k : ordered t L -> a ∈ dom t.(nodes) -> a ∉ L.*2 -> at_key cmp k L = [] ->
  exists t1 t2, set_key a k t = Ok (tt, t1) /\ rbtree_insert cmp (Some a) t1 = Ok (Some a, t2) /\
    ordered t2 (below cmp k L ++ (k, a) :: above cmp k L) /\ dom t2.(nodes) = dom t.(nodes).
Proof.
  intros [(tr & R & Hrb & <-) Hs] [n Hn]%elem_of_dom Ha Eat. rewrite <- addrs_inorder in Ha.
  eexists. set (n1 := mk_node n.(parent) n.(left_) n.(right_) k n.(color)).
  set (t1 := with_nodes (<[a := n1]> t.(nodes)) t).
  assert (t1.(nodes) !! a = Some n1) as Hn1 by (cbn; apply lookup_insert_eq).
  destruct (insert_new cmp t1 tr a n1) as (t2 & tr2 & E1 & R2 & Hrb2 & Ei & [_ _ Hk]); [by apply rep_outside|done..|].
  exists t2. split; [by apply set_key_ok|]. split; [exact E1|]. split; [split; [by exists tr2|by apply sorted_add]|].
  rewrite (dom_keys _ _ Hk). cbn. rewrite dom_insert_L. assert (a ∈ dom t.(nodes)) by (by eapply elem_of_dom_2). set_solver.
Qed.

Lemma elem_with k a L e : sorted cmp L -> at_key cmp k L = [] ->
  e ∈ below cmp k L ++ (k, a) :: above cmp k L <-> e = (k, a) \/ e ∈ L.
Proof.
  intros Hs E. destruct (sorted_split cmp k L Hs) as [E1 _]. rewrite E in E1. cbn in E1.
  rewrite E1 at 3. rewrite !elem_of_app, elem_of_cons. tauto.
Qed.

Lemma at_key_none k L : (forall e, e ∈ L -> cmp k e.1 <> 0) -> at_key cmp k L = [].
Proof. intros H. apply filter_nil_iff, Forall_forall. intros e He. by apply H. Qed.

Lemma cmp_zero_trans x y z : cmp x y = 0 -> cmp y z = 0 -> cmp x z = 0.
Proof.
  intros H1 H2. apply (cmp_eq_sym cmp) in H1 as H1', H2 as H2'.
  pose proof (cmp_trans (cmp := cmp) x y z). pose proof (cmp_trans (cmp := cmp) z y x). pose proof (cmp_sym (cmp := cmp) x z).
  pose proof (cmp_sym (cmp := cmp) z x). lia.
Qed.

Lemma at_key_one k L e : sorted cmp L -> e ∈ L -> cmp k e.1 = 0 -> at_key cmp k L = [e].
Proof.
  intros Hs He Hk. destruct (sorted_split cmp k L Hs) as [_ Hl]. assert (e ∈ at_key cmp k L) as Hin by (by apply list_elem_of_filter).
  destruct (at_key cmp k L) as [|x [|y l]]; [by apply elem_of_nil in Hin| |cbn in Hl; lia].
  by apply list_elem_of_singleton in Hin as ->.
Qed.
End Ordered.

#[export] Instance probetree_total : TotalCmp probetree_cmp.
Proof.
  split.
  - intros [t1 k1] [t2 k2]. unfold probetree_cmp. cbn. pose proof (cmp_sym (cmp := name_cmp) k1 k2).
    destruct (Z.ltb_spec t1 t2), (Z.ltb_spec t2 t1); lia.
  - intros [t1 k1] [t2 k2] [t3 k3]. unfold probetree_cmp. cbn. pose proof (cmp_trans (cmp := name_cmp) k1 k2 k3).
    destruct (Z.ltb_spec t1 t2), (Z.ltb_spec t2 t1), (Z.ltb_spec t2 t3), (Z.ltb_spec t3 t2), (Z.ltb_spec t1 t3), (Z.ltb_spec t3 t1); lia.
Qed.

Lemma probe_cmp_0 x y : probetree_cmp x y = 0 <-> x.1 = y.1 /\ name_cmp x.2 y.2 = 0.
Proof. unfold probetree_cmp. destruct (Z.ltb_spec x.1 y.1), (Z.ltb_spec y.1 x.1); lia. Qed.

(** ** The invariant *)

Record tp_ok (tp : trust_anchor) : Prop := {
  t_keys : Forall key_ok tp.(keys);
  t_ds : forall ds, tp.(anchors).(ds_rrset) = Some ds -> rrset_wf ds;
  t_times : 0 <= tp.(query_interval) < 2 ^ 33 /\ 0 <= tp.(retry_time) < 2 ^ 33;
}.

(** The probe tree holds the trust points, except those that were revoked and are
    about to be freed, at the time of their next probe. *)
Definition scheduled (w : world) (Lp : list (probe_key * addr)) : Prop :=
  forall k a, (k, a) ∈ Lp <-> exists tp, w.(tps) !! a = Some tp /\ tp.(tp_revoked) = false /\ k = probe_key_of tp.

Record winv (w : world) : Prop := {
  i_tps : forall a tp, w.(tps) !! a = Some tp -> tp_ok tp;
  i_atree : exists La, ordered name_cmp w.(atree).(tree) La /\
    forall a tp, w.(tps) !! a = Some tp -> tp.(tp_revoked) = false -> (tp.(ident), a) ∈ La;
  i_probe : exists Lp, ordered probetree_cmp w.(probe) Lp /\ scheduled w Lp;
}.

Section World.
Implicit Types (w : world) (a : addr) (tp : trust_anchor).

(** No two trust points have the same name. *)
Lemma names_distinct w a b tp tp' : winv w -> w.(tps) !! a = Some tp -> w.(tps) !! b = Some tp' ->
  tp.(tp_revoked) = false -> tp'.(tp_revoked) = false -> name_cmp tp.(ident) tp'.(ident) = 0 -> a = b.
Proof.
  intros I Ha Hb Hr Hr' E. destruct (i_atree _ I) as (La & [_ Hs] & HLa).
  pose proof (at_key_one name_cmp tp.(ident) La _ Hs (HLa a tp Ha Hr) (cmp_refl name_cmp _)) as E1.
  rewrite (at_key_one name_cmp tp.(ident) La _ Hs (HLa b tp' Hb Hr') E) in E1. by injection E1.
Qed.

(** ** Reading the schedule *)

(** Enough of the invariant to read the first time. *)
Definition readable w (Lp : list (probe_key * addr)) : Prop :=
  ordered probetree_cmp w.(probe) Lp /\ forall k a, (k, a) ∈ Lp -> exists tp, w.(tps) !! a = Some tp /\ tp.(next_probe_time) = k.1.

Lemma winv_readable w : winv w -> exists Lp, readable w Lp /\ scheduled w Lp.
Proof.
  intros I. destruct (i_probe _ I) as (Lp & O & Hs). exists Lp. split; [|done]. split; [done|].
  intros k a (tp & E1 & _ & ->)%Hs. by exists tp.
Qed.

Definition first_time (Lp : list (probe_key * addr)) : Z := match Lp with [] => 0 | e :: _ => e.1.1 end.

Lemma on_probe_read {A} (m : ST (rbtree probe_key) A) w x : m w.(probe) = Ok (x, w.(probe)) -> on_probe m w = Ok (x, w).
Proof. intros E. unfold on_probe. rewrite E. by destruct w. Qed.

Lemma wait_probe_time_ok w Lp : readable w Lp -> wait_probe_time w = Ok (first_time Lp, w).
Proof.
  intros [O Hr]. unfold wait_probe_time. erewrite st_bind_ok by (apply on_probe_read; by apply (ordered_first probetree_cmp)).
  destruct Lp as [|[k a] Lp]; [done|]. cbn. destruct (Hr k a) as (tp & E1 & E2); [by left|].
  unfold get_tp. erewrite st_bind_ok by (rewrite E1; reflexivity). cbn. by rewrite E2.
Qed.

Lemma reset_timer_ok env w Lp : readable w Lp -> exists x, reset_worker_timer env w = Ok (tt, upd_timer x w).
Proof.
  intros Hr. unfold reset_worker_timer. erewrite st_bind_ok by (by apply wait_probe_time_ok).
  destruct (probe_timer env); cbn [negb]; [by eexists|]. exists (timer w). by destruct w.
Qed.

(** The timer is set again when the first time changes. *)
Lemma maybe_reset_ok env w Lp (b : bool) : readable w Lp ->
  exists x, (if b then reset_worker_timer env else mret tt) w = Ok (tt, upd_timer x w).
Proof. intros Hr. destruct b; [by eapply reset_timer_ok|]. exists (timer w). by destruct w. Qed.

(** ** The next time *)

Lemma arc4random_range ub rs : 0 <= ub -> 0 <= (arc4random_uniform ub rs).1 /\ ((arc4random_uniform ub rs).1 < ub \/ (arc4random_uniform ub rs).1 = 0).
Proof.
  intros H. unfold arc4random_uniform. destruct (Z.ltb_spec ub 2); [cbn; lia|].
  destruct (arc4random_loop _ rs) as [r rs']. cbn. pose proof (Z.mod_pos_bound r ub). lia.
Qed.

(** The time to wait, at least an hour or a second. *)
Definition wait_of (env : module_env) (wait : Z) : Z :=
  if negb env.(permit_small) then (if wait <? 3600 then 3600 else wait) else (if wait =? 0 then 1 else wait).

Lemma calc_next_probe_ok env wait w : env_ok env -> 0 <= wait < 2 ^ 33 ->
  exists t rs, calc_next_probe env wait w = Ok (t, upd_random rs w) /\
    env.(now) + (wait_of env wait - wait_of env wait ÷ 10) <= t <= env.(now) + wait_of env wait /\ env.(now) < t.
Proof.
  intros He Hw. unfold calc_next_probe. fold (wait_of env wait). set (x := wait_of env wait).
  assert (1 <= x < 2 ^ 33) as Hx. { unfold x, wait_of. destruct (negb _); zcase; lia. }
  pose proof (e_now _ He). rewrite Z.quot_div_nonneg by lia.
  assert (0 <= x / 10 < x /\ x / 10 < 2 ^ 32) as Hq by (split; [split; [apply Z.div_pos; lia|apply Z.div_lt; lia]|divlia]).
  pose proof (arc4random_range (x / 10) (random w)) as Hr.
  assert (ub_random_max (x / 10) w = let '(r, rs) := arc4random_uniform (x / 10) (random w) in Ok (r, upd_random rs w)) as Eu.
  { unfold ub_random_max. by rewrite wrap_small by (unfold in_u; lia). }
  destruct (arc4random_uniform (x / 10) (random w)) as [r rs]. cbn in Hr. erewrite st_bind_ok by exact Eu.
  unfold lift. erewrite st_bind_ok by (rewrite sint_ok by (unfold in_s; lia); reflexivity).
  rewrite sint_ok by (unfold in_s; lia). eexists _, rs. split; [reflexivity|]. lia.
Qed.

Definition with_probe_of w a t pr rs : world :=
  mk_world (alter (with_next_probe t) a w.(tps)) w.(atree) pr w.(locked) w.(timer) w.(disk) w.(probed) w.(memory) rs.

Lemma on_probe_ok {A} (m : ST (rbtree probe_key) A) w x pr : m w.(probe) = Ok (x, pr) -> on_probe m w = Ok (x, upd_probe (fun _ => pr) w).
Proof. intros E. unfold on_probe. by rewrite E. Qed.

Lemma get_tp_ok w a tp : w.(tps) !! a = Some tp -> get_tp a w = Ok (tp, w).
Proof. intros E. unfold get_tp. by rewrite E. Qed.

Lemma set_tp_ok w a tp f : w.(tps) !! a = Some tp -> set_tp a f w = Ok (tt, upd_tps <[a := f tp]> w).
Proof. intros E. unfold set_tp. by rewrite E. Qed.

Lemma reschedule_ok env w a tp wait : env_ok env -> winv w -> w.(tps) !! a = Some tp -> tp.(tp_revoked) = false ->
  0 <= wait < 2 ^ 33 -> exists t pr rs, reschedule env a wait w = Ok (tt, with_probe_of w a t pr rs) /\
    env.(now) < t /\ env.(now) + (wait_of env wait - wait_of env wait ÷ 10) <= t <= env.(now) + wait_of env wait /\
    dom pr.(nodes) = dom w.(probe).(nodes) /\
    exists Lp, ordered probetree_cmp pr Lp /\ scheduled (with_probe_of w a t pr rs) Lp.
Proof.
  intros He I Ha Hr Hw. destruct (i_probe _ I) as (Lp & O & Hs). unfold reschedule.
  erewrite st_bind_ok by (by apply get_tp_ok).
  destruct (ordered_delete probetree_cmp _ _ (probe_key_of tp) O) as (pr1 & E1 & O1 & D1).
  erewrite st_bind_ok by (by apply on_probe_ok).
  destruct (calc_next_probe_ok env wait (upd_probe (fun _ => pr1) w) He Hw) as (t & rs & E2 & Ht & Hlt).
  erewrite st_bind_ok by exact E2. erewrite st_bind_ok by (by apply set_tp_ok). set (tp1 := with_next_probe t tp).
  erewrite st_bind_ok by (apply get_tp_ok; cbn; apply lookup_insert_eq).
  assert (forall k b, (k, b) ∈ without_key probetree_cmp (probe_key_of tp) Lp -> b <> a /\
    exists tp', w.(tps) !! b = Some tp' /\ tp'.(tp_revoked) = false /\ k = probe_key_of tp') as Hout.
  { intros k b [(tp' & Hb & Hr' & ->)%Hs Hne]%elem_without. split; [|by exists tp'].
    intros ->. rewrite Ha in Hb. injection Hb as <-. apply Hne. exact (cmp_refl probetree_cmp _). }
  assert (at_key probetree_cmp (probe_key_of tp1) (without_key probetree_cmp (probe_key_of tp) Lp) = []) as Hnone.
  { apply at_key_none. intros [k b] Hin E. destruct (Hout k b Hin) as (Hne & tp' & Hb & Hr' & ->).
    apply probe_cmp_0 in E as [_ E]. apply Hne. symmetry. by eapply (names_distinct w a b tp tp'). }
  destruct (ordered_insert probetree_cmp pr1 _ a (probe_key_of tp1) O1) as (pr2 & pr3 & E3 & E4 & O3 & D3).
  { rewrite D1. eapply (ordered_dom probetree_cmp); [exact O|]. apply Hs. by exists tp. }
  { intros Hin. apply list_elem_of_fmap in Hin as ([k b] & -> & Hin). by destruct (Hout k b Hin). }
  { done. }
  erewrite st_bind_ok by (apply on_probe_ok; exact E3). erewrite st_bind_ok by (apply on_probe_ok; exact E4).
  exists t, pr3, rs. assert (<[a := tp1]> w.(tps) = alter (with_next_probe t) a w.(tps)) as Et.
  { apply map_eq. intros b. destruct (decide (a = b)) as [<-|]; simplify_map_eq; done. }
  split; [unfold with_probe_of; rewrite <- Et; by destruct w|]. split; [done|]. split; [done|]. split; [congruence|].
  eexists. split; [exact O3|]. intros k b. rewrite (elem_with probetree_cmp) by (done || apply O1).
  cbn. rewrite <- Et. split.
  - intros [[= -> ->]|Hin]; [exists tp1; by simplify_map_eq|].
    destruct (Hout k b Hin) as (Hne & tp' & ? & ? & ?). exists tp'. by simplify_map_eq.
  - intros (tp' & Hb & Hr' & ->). destruct (decide (a = b)) as [<-|Hne]; simplify_map_eq; [by left|right].
    apply elem_without. split; [apply Hs; by exists tp'|]. intros [_ E]%probe_cmp_0. apply Hne.
    by eapply (names_distinct w a b tp tp').
Qed.

(** ** Steps that keep the trees *)

(** The trust point [a] has become [tp']; its place in the trees and its lock are
    as before. *)
Record touched w a tp' w' : Prop := {
  x_tps : w'.(tps) = <[a := tp']> w.(tps);
  x_atree : w'.(atree) = w.(atree);
  x_probe : w'.(probe) = w.(probe);
  x_locked : w'.(locked) = w.(locked);
  x_probed : w'.(probed) = w.(probed);
}.

Definition same_place tp tp' : Prop :=
  tp'.(ident) = tp.(ident) /\ tp'.(next_probe_time) = tp.(next_probe_time) /\ tp'.(tp_revoked) = tp.(tp_revoked).

Lemma touched_inv w a tp tp' w' : winv w -> w.(tps) !! a = Some tp -> tp_ok tp' -> same_place tp tp' ->
  touched w a tp' w' -> winv w'.
Proof.
  intros I Ha Hok (E1 & E2 & E3) [Xt Xa Xp _ _]. destruct (i_atree _ I) as (La & OA & HLa), (i_probe _ I) as (Lp & OP & Hs). split.
  - intros b tpb. rewrite Xt. intros [[<- <-]|[Hne Hb]]%lookup_insert_Some; [done|by eapply i_tps].
  - exists La. rewrite Xa. split; [done|]. intros b tpb. rewrite Xt. intros [[<- <-]|[Hne Hb]]%lookup_insert_Some Hr; [|by apply HLa].
    rewrite E1. apply HLa; [done|congruence].
  - exists Lp. rewrite Xp. split; [done|]. intros k b. rewrite (Hs k b), Xt. unfold probe_key_of.
    destruct (decide (a = b)) as [<-|Hne].
    + rewrite lookup_insert_eq, Ha. split; intros (tpb & [= <-] & Hr & ->); eexists; (split; [reflexivity|]); by rewrite ?E1, ?E2, ?E3 in *.
    + by rewrite lookup_insert_ne.
Qed.

Lemma touched_trans w a tp1 w1 tp2 w2 : touched w a tp1 w1 -> touched w1 a tp2 w2 -> touched w a tp2 w2.
Proof.
  intros [A1 A2 A3 A4 A5] [B1 B2 B3 B4 B5]. split; [|congruence..]. rewrite B1, A1. by rewrite insert_insert_eq.
Qed.

Lemma touched_self w a tp : w.(tps) !! a = Some tp -> touched w a tp w.
Proof. intros Ha. split; try done. by rewrite insert_id. Qed.

Lemma touched_at w a tp' w' : touched w a tp' w' -> w'.(tps) !! a = Some tp'.
Proof. intros [-> _ _ _ _]. apply lookup_insert_eq. Qed.

Lemma set_tp_touched w a tp f : w.(tps) !! a = Some tp -> exists w', set_tp a f w = Ok (tt, w') /\ touched w a (f tp) w'.
Proof. intros Ha. eexists. split; [by apply set_tp_ok|]. done. Qed.

Lemma write_file_touched w a tp : w.(tps) !! a = Some tp -> exists w', autr_write_file a w = Ok (tt, w') /\ touched w a tp w'.
Proof.
  intros Ha. unfold autr_write_file. erewrite st_bind_ok by (by apply get_tp_ok). eexists. split; [reflexivity|].
  split; try done. cbn. by rewrite insert_id.
Qed.

(** An operation on the keys. *)
Lemma on_keys_touched w a tp f c K c' : w.(tps) !! a = Some tp -> f tp.(keys) c = Ok (K, c') ->
  exists w', on_keys a f c w = Ok (c', w') /\ touched w a (with_keys K tp) w'.
Proof.
  intros Ha E. unfold on_keys. erewrite st_bind_ok by (by apply get_tp_ok). unfold lift. rewrite E. erewrite st_bind_ok by reflexivity.
  destruct (set_tp_touched w a tp (with_keys K) Ha) as (w' & E1 & X). erewrite st_bind_ok by exact E1. by exists w'.
Qed.

Lemma on_keys_ends w a tp f c F (P : list autr_ta * bool -> Prop) : w.(tps) !! a = Some tp -> ends F P (f tp.(keys) c) ->
  ends F (fun '(c', w') => exists K, P (K, c') /\ touched w a (with_keys K tp) w') (on_keys a f c w).
Proof.
  intros Ha H. destruct (f tp.(keys) c) as [[K c']| |] eqn:E; cbn in H; [| |done].
  - destruct (on_keys_touched w a tp f c K c' Ha E) as (w' & -> & X). by exists K.
  - unfold on_keys. erewrite st_bind_ok by (by apply get_tp_ok). unfold lift, mbind, ST_bind. by rewrite E.
Qed.

Lemma assemble_touched w a tp : w.(tps) !! a = Some tp -> Forall key_ok tp.(keys) -> zlen tp.(keys) < 2 ^ 32 ->
  exists ok A w', assemble_tp a w = Ok (ok, w') /\ touched w a (with_anchors A tp) w' /\
    (if (ok : bool) then assembled tp.(keys) A else A = tp.(anchors)) /\ (mallocs_ok w.(memory) -> ok = true).
Proof.
  intros Ha Hk Hl. unfold assemble_tp. destruct (assemble_ok w.(memory) tp.(keys) tp.(anchors) Hk Hl) as (ok & A & m & E & Hm & HA).
  rewrite Ha, E, bind_Ok. eexists _, A, _. split; [reflexivity|]. split; [done|]. split; [done|]. intros H. by apply Hm.
Qed.

(** ** The next probe *)

Record rescheduled w a t w' : Prop := {
  r_tps : w'.(tps) = alter (with_next_probe t) a w.(tps);
  r_atree : w'.(atree) = w.(atree);
  r_locked : w'.(locked) = w.(locked);
  r_probed : w'.(probed) = w.(probed);
  r_inv : winv w';
}.

Lemma reschedule_inv w a tp t pr rs Lp : winv w -> w.(tps) !! a = Some tp ->
  ordered probetree_cmp pr Lp -> scheduled (with_probe_of w a t pr rs) Lp -> winv (with_probe_of w a t pr rs).
Proof.
  intros I Ha O Hs. destruct (i_atree _ I) as (La & OA & HLa). split.
  - cbn. intros b tpb Hb. destruct (decide (a = b)) as [<-|Hne]; simplify_map_eq; [|by eapply i_tps].
    destruct (i_tps _ I _ _ Ha). by split.
  - exists La. split; [done|]. cbn. intros b tpb Hb Hr. destruct (decide (a = b)) as [<-|Hne]; simplify_map_eq; by apply HLa.
  - by exists Lp.
Qed.

Lemma set_next_probe_ok env w a tp key : env_ok env -> winv w -> w.(tps) !! a = Some tp -> tp.(tp_revoked) = false ->
  a ∈ w.(locked) -> name_cmp key tp.(ident) = 0 ->
  exists t w', set_next_probe env a key w = Ok (true, w') /\ rescheduled w a t w' /\
    env.(now) + (wait_of env tp.(query_interval) - wait_of env tp.(query_interval) ÷ 10) <= t <= env.(now) + wait_of env tp.(query_interval).
Proof.
  intros He I Ha Hr Hl Hkey. unfold set_next_probe.
  set (w1 := upd_locked (fun x => x ∖ {[a]}) w). assert (unlock a w = Ok (tt, w1)) as E1 by (unfold unlock; by rewrite decide_True).
  erewrite st_bind_ok by exact E1. destruct (i_atree _ I) as (La & OA & HLa).
  assert (on_anchors (tree_find name_cmp key) w1 = Ok (Some a, w1)) as E2.
  { unfold on_anchors, tree_find, on_tree. cbn. destruct OA as [(tr & R & _ & <-) Hs].
    rewrite (search_spec name_cmp _ tr) by done. unfold spec_search.
    rewrite (at_key_one name_cmp key _ _ Hs (HLa a tp Ha Hr)) by done. cbn. unfold w1. destruct w as [? [? ?] ? ? ? ? ? ? ?]. done. }
  erewrite st_bind_ok by exact E2. cbv beta iota. rewrite bool_decide_eq_true_2 by done.
  assert (lift (log_assert env true) w1 = Ok (tt, w1)) as E3 by (unfold lift, log_assert; by destruct (unbound_debug env)).
  erewrite st_bind_ok by exact E3.
  assert (lock a w1 = Ok (tt, w)) as E4.
  { unfold lock. cbn. rewrite decide_False by set_solver. unfold w1, upd_locked. cbn.
    replace ({[a]} ∪ w.(locked) ∖ {[a]}) with w.(locked) by (apply set_eq; intros x; destruct (decide (x = a)); set_solver).
    by destruct w. }
  erewrite st_bind_ok by exact E4. destruct (winv_readable w I) as (Lp & Hrd & _).
  erewrite st_bind_ok by (by apply wait_probe_time_ok). erewrite st_bind_ok by (by apply get_tp_ok).
  destruct (reschedule_ok env w a tp tp.(query_interval) He I Ha Hr) as (t & pr & rs & E5 & Hlt & Ht & _ & Lp' & O' & Hs');
    [apply (t_times _ (i_tps _ I _ _ Ha))|].
  erewrite st_bind_ok by exact E5. pose proof (reschedule_inv w a tp t pr rs Lp' I Ha O' Hs') as I'.
  destruct (winv_readable _ I') as (Lq & Hrd' & _). erewrite st_bind_ok by (by apply wait_probe_time_ok).
  destruct (maybe_reset_ok env _ Lq (negb (first_time Lp =? first_time Lq)) Hrd') as (x & E6).
  erewrite st_bind_ok by exact E6. eexists t, _. split; [reflexivity|]. split; [|done]. split; try done.
  destruct I' as [J1 J2 J3]. by split.
Qed.

(** ** Removing a trust point *)

Lemma init_parents_anchors w La : ordered name_cmp w.(atree).(tree) La ->
  exists par, anchors_init_parents_locked w = Ok (tt, upd_atree (fun t => mk_dtree t.(tree) par) w).
Proof.
  intros O. unfold anchors_init_parents_locked, on_anchors, name_tree_init_parents.
  destruct (init_parents_ok name_cmp name_depth name_same name_common w.(atree) La) as (par & -> & _); [split; apply O|].
  exists par. done.
Qed.

Record removed_tp w a tp w' : Prop := {
  d_tps : w'.(tps) = delete a w.(tps);
  d_locked : w'.(locked) = w.(locked) ∖ {[a]};
  d_probed : w'.(probed) = w.(probed);
  d_disk : w'.(disk) = w.(disk) ++ [with_next_probe 0 (with_tp_revoked true tp)];
  d_inv : winv w';
}.

Lemma removed_inv w a tp La Lp w' : winv w -> w.(tps) !! a = Some tp -> w'.(tps) = delete a w.(tps) ->
  ordered name_cmp w'.(atree).(tree) La -> (forall b tpb, w.(tps) !! b = Some tpb -> tpb.(tp_revoked) = false -> b <> a -> (tpb.(ident), b) ∈ La) ->
  ordered probetree_cmp w'.(probe) Lp ->
  (forall k b, (k, b) ∈ Lp <-> b <> a /\ exists tpb, w.(tps) !! b = Some tpb /\ tpb.(tp_revoked) = false /\ k = probe_key_of tpb) ->
  winv w'.
Proof.
  intros I Ha Et OA HA OP HP. split.
  - intros b tpb. rewrite Et. intros [_ Hb]%lookup_delete_Some. by eapply i_tps.
  - exists La. split; [done|]. intros b tpb. rewrite Et. intros [Hne Hb]%lookup_delete_Some Hr. by apply HA.
  - exists Lp. split; [done|]. intros k b. rewrite HP, Et. split.
    + intros (Hne & tpb & ? & ? & ?). exists tpb. by rewrite lookup_delete_ne.
    + intros (tpb & [Hne Hb]%lookup_delete_Some & ? & ?). split; [done|]. by exists tpb.
Qed.

Lemma probe_without w a tp key Lp : winv w -> w.(tps) !! a = Some tp -> tp.(tp_revoked) = false ->
  name_cmp key tp.(ident) = 0 -> scheduled w Lp ->
  forall k b, (k, b) ∈ without_key probetree_cmp (tp.(next_probe_time), key) Lp <->
    b <> a /\ exists tpb, w.(tps) !! b = Some tpb /\ tpb.(tp_revoked) = false /\ k = probe_key_of tpb.
Proof.
  intros I Ha Hr Hkey Hs k b. rewrite elem_without, (Hs k b), probe_cmp_0. cbn. split.
  - intros [(tpb & Hb & Hrb & ->) Hne]. split; [|by exists tpb]. intros ->. rewrite Ha in Hb. injection Hb as <-. by apply Hne.
  - intros (Hne & tpb & Hb & Hrb & ->). split; [by exists tpb|]. intros [_ E]. apply Hne. symmetry.
    eapply (names_distinct w a b tp tpb); [done..|]. apply (cmp_zero_trans name_cmp _ key); [by apply (cmp_eq_sym name_cmp)|done].
Qed.

Lemma atree_without w a tp key La : ordered name_cmp w.(atree).(tree) La ->
  (forall b tpb, w.(tps) !! b = Some tpb -> tpb.(tp_revoked) = false -> (tpb.(ident), b) ∈ La) ->
  w.(tps) !! a = Some tp -> tp.(tp_revoked) = false -> name_cmp key tp.(ident) = 0 ->
  forall b tpb, w.(tps) !! b = Some tpb -> tpb.(tp_revoked) = false -> b <> a -> (tpb.(ident), b) ∈ without_key name_cmp key La.
Proof.
  intros OA HLa Ha Hr Hkey b tpb Hb Hrb Hne. apply elem_without. split; [by apply HLa|]. cbn. intros E. apply Hne.
  pose proof (at_key_one name_cmp key La _ (o_sorted _ _ _ OA) (HLa a tp Ha Hr) Hkey) as E1.
  rewrite (at_key_one name_cmp key La _ (o_sorted _ _ _ OA) (HLa b tpb Hb Hrb) E) in E1. by injection E1.
Qed.

Lemma tp_remove_ok env w a tp key : winv w -> w.(tps) !! a = Some tp -> tp.(tp_revoked) = false ->
  a ∈ w.(locked) -> name_cmp key tp.(ident) = 0 ->
  exists w', autr_tp_remove env a key w = Ok (tt, w') /\ removed_tp w a tp w'.
Proof.
  intros I Ha Hr Hl Hkey. unfold autr_tp_remove. destruct (i_atree _ I) as (La & OA & HLa), (i_probe _ I) as (Lp & OP & Hs).
  set (tp1 := with_tp_revoked true tp). erewrite st_bind_ok by (by apply set_tp_ok). set (w1 := upd_tps <[a := _]> w).
  assert (w1.(tps) !! a = Some tp1) as Ha1 by (cbn; apply lookup_insert_eq). erewrite st_bind_ok by (by apply get_tp_ok).
  set (w2 := upd_locked (fun x => x ∖ {[a]}) w1). assert (unlock a w1 = Ok (tt, w2)) as E1 by (unfold unlock; by rewrite decide_True).
  erewrite st_bind_ok by exact E1.
  destruct (ordered_delete name_cmp _ La key OA) as (at1 & E2 & OA1 & _).
  rewrite (at_key_one name_cmp key La _ (o_sorted _ _ _ OA) (HLa a tp Ha Hr)) in E2 by done. cbn in E2.
  set (w3 := upd_atree (fun t => mk_dtree at1 t.(nparent)) w2).
  assert (on_anchors (on_tree (rbtree_delete name_cmp key)) w2 = Ok (Some a, w3)) as E3.
  { unfold on_anchors, on_tree. cbn. by rewrite E2. }
  erewrite st_bind_ok by exact E3.
  assert (forall k b, (k, b) ∈ Lp -> exists tpb, w1.(tps) !! b = Some tpb /\ tpb.(next_probe_time) = k.1) as Hrd.
  { intros k b (tpb & Hb & _ & ->)%Hs. cbn. destruct (decide (a = b)) as [<-|]; [|rewrite lookup_insert_ne by done; by exists tpb].
    rewrite lookup_insert_eq. exists tp1. rewrite Ha in Hb. injection Hb as <-. done. }
  erewrite st_bind_ok by (by apply wait_probe_time_ok).
  destruct (ordered_delete probetree_cmp _ Lp (tp1.(next_probe_time), key) OP) as (pr & E4 & OP1 & _).
  erewrite st_bind_ok by (by apply on_probe_ok).
  set (Lq := without_key probetree_cmp (tp1.(next_probe_time), key) Lp) in *.
  assert (forall k b, (k, b) ∈ Lq <-> b <> a /\ exists tpb, w.(tps) !! b = Some tpb /\ tpb.(tp_revoked) = false /\ k = probe_key_of tpb) as HLq.
  { by apply (probe_without w a tp). }
  set (w4 := upd_probe (fun _ => pr) w3).
  assert (readable w4 Lq) as R4. { split; [done|]. intros k b Hb. apply Hrd. by apply elem_without in Hb as [? _]. }
  erewrite st_bind_ok by (by apply wait_probe_time_ok).
  destruct (init_parents_anchors w4 _ OA1) as (par & E5). erewrite st_bind_ok by exact E5. set (w5 := upd_atree _ w4).
  assert (autr_write_file a (upd_tps <[a := with_next_probe 0 tp1]> w5) = Ok (tt, upd_disk (with_next_probe 0 tp1) (upd_tps <[a := with_next_probe 0 tp1]> w5))) as E6.
  { unfold autr_write_file. erewrite st_bind_ok by (apply get_tp_ok; cbn; apply lookup_insert_eq). done. }
  set (w6 := upd_tps (delete a) (upd_disk (with_next_probe 0 tp1) (upd_tps <[a := with_next_probe 0 tp1]> w5))).
  rewrite (st_bind_ok _ _ w5 tt w6).
  2: { cbv beta iota. erewrite st_bind_ok by (apply set_tp_ok; cbn; apply lookup_insert_eq). erewrite st_bind_ok by exact E6.
       unfold autr_point_delete. by erewrite st_bind_ok by (apply get_tp_ok; cbn; apply lookup_insert_eq). }
  assert (w6.(tps) = delete a w.(tps)) as Et6 by (cbn; by rewrite insert_insert_eq, delete_insert_eq).
  assert (readable w6 Lq) as R6.
  { split; [done|]. intros k b (Hne & tpb & Hb & _ & ->)%HLq. exists tpb. rewrite Et6. by rewrite lookup_delete_ne. }
  destruct (maybe_reset_ok env w6 Lq (negb (first_time Lp =? first_time Lq)) R6) as (x & E7). rewrite E7.
  eexists. split; [reflexivity|]. split; [exact Et6|done..|].
  exact (removed_inv w a tp _ Lq (upd_timer x w6) I Ha Et6 OA1 (atree_without w a tp key La OA HLa Ha Hr Hkey) OP1 HLq).
Qed.
End World.

(** ** RFC 5011: a trust point and responses for it

    A small store of trust points that satisfies the invariant, on which the
    theorems about responses and probes are applied. *)

Lemma name_ok_a : name_ok [[97]].
Proof. split; [|done]. repeat constructor; unfold in_u, zlen; simpl; lia. Qed.

Definition sample_ident : name_key := key_of [[97]] 1 name_ok_a.

(** Every algorithm is supported and every signature is good. *)
Definition sample_crypto : Sigcrypt :=
  Build_Sigcrypt (fun _ => true) (fun _ => 32) (fun _ _ _ _ => true) (fun _ _ => true) (fun _ _ _ => true).
#[export] Existing Instance sample_crypto.

Definition sample_valid : autr_ta := mk_ta sample_rr 20 3 1600000000 AUTR_STATE_VALID 0 false false.

Definition sample_tp : trust_anchor :=
  mk_tp sample_ident [sample_valid] no_anchors_yet 0 0 1700000000 3600 3600 0 false.

Definition sample_world : world :=
  mk_world {[ 1%positive := sample_tp ]}
    (mk_dtree (mk_rbtree {[ 1%positive := mk_node None None None sample_ident BLACK ]} (Some 1%positive) 1) ∅)
    (mk_rbtree {[ 1%positive := mk_node None None None (probe_key_of sample_tp) BLACK ]} (Some 1%positive) 1)
    {[ 1%positive ]} None [] [] [] [].

(** A response with the key of the trust point and a new one. *)
Definition sample_rrset (d : list (list Z)) : ub_packed_rrset_key :=
  mk_rrset [1; 97; 0] 3 LDNS_RR_TYPE_DNSKEY LDNS_RR_CLASS_IN
    (mk_pd 3600 (zlen d) 0 (zlen <$> d) (replicate (length d) 3600) d).

Definition sample_response : ub_packed_rrset_key :=
  sample_rrset [[0; 7; 1; 1; 3; 8; 7; 7; 7]; [0; 7; 1; 1; 3; 8; 9; 9; 9]].

Lemma sample_valid_ok : key_ok sample_valid.
Proof. split; [by apply sample_rr_ok|by right|done|done]. Qed.

Lemma single_ordered {K} (cmp : K -> K -> Z) (k : K) (n : Z) :
  ordered cmp (mk_rbtree {[ 1%positive := mk_node None None None k BLACK ]} (Some 1%positive) n) [(k, 1%positive)].
Proof.
  split; [|repeat constructor]. exists (N BLACK E 1%positive k E). split; [|split; [|done]].
  - split; [|done|apply NoDup_singleton]. cbn. split; [apply lookup_singleton_eq|done].
  - split; [done|]. exists 1%nat. by repeat constructor.
Qed.

Lemma sample_at a tp : sample_world.(tps) !! a = Some tp -> a = 1%positive /\ tp = sample_tp.
Proof. cbn. intros H. by apply lookup_singleton_Some in H as [<- <-]. Qed.

Lemma sample_inv : winv sample_world.
Proof.
  split.
  - intros a tp [-> ->]%sample_at. split; [|done|done].
    apply Forall_cons_2; [apply sample_valid_ok|apply Forall_nil_2].
  - exists [(sample_ident, 1%positive)]. split; [apply single_ordered|].
    intros a tp [-> ->]%sample_at _. by left.
  - exists [(probe_key_of sample_tp, 1%positive)]. split; [apply single_ordered|]. intros k a. split.
    + intros [= -> ->]%list_elem_of_singleton. exists sample_tp. by cbn; rewrite lookup_singleton_eq.
    + intros (tp & [-> ->]%sample_at & _ & ->). by left.
Qed.

Lemma sample_rrset_wf d : zlen d < 100 -> Forall (fun x => bytes_ok x /\ 2 <= zlen x <= 65537) d -> rrset_wf (sample_rrset d).
Proof.
  intros Hl Hd. pose proof (zlen_nonneg d). split; cbn; try done; try lia.
  - unfold zlen. by rewrite length_replicate.
Qed.

Lemma sample_response_wf : rrset_wf sample_response.
Proof.
  apply sample_rrset_wf; [done|]. apply Forall_cons_2; [|apply Forall_cons_2; [|apply Forall_nil_2]];
    (split; [repeat constructor; unfold in_u; lia|done]).
Qed.
