(* ===== verification/AutotrustSafe.v ===== *)
(** * RFC 5011: what a response can do to the trust points

    [autr_process_prime] returns, or stops in one of two known ways; when it returns
    it has kept the invariant of the trust points, and changed the keys only by the
    steps of the state table. *)

From S2P Require Import Prelude Rbtree RbtreeTree RbtreeAdd RbtreeApi Dname DnameCompare PathOrder.
From S2P Require Import DnsTree DnsTreeSpec NameTree Sbuffer Autotrust AutotrustKeys AutotrustRrset.
From S2P Require Import AutotrustTable AutotrustAssemble AutotrustProbe AutotrustPrime.

Lemma ident_len (x : name_key) : (proj1_sig x).(nt_len) = zlen (proj1_sig x).(nt_name) /\ zlen (proj1_sig x).(nt_name) <= 255.
Proof. destruct (proj2_sig x) as (ls & [_ Hok] & -> & -> & _). split; [done|]. exact Hok. Qed.

Abbreviation reply := (option (ub_packed_rrset_key * name_key)).

Section Process.
Context `{!Sigcrypt} (env : module_env) (He : env_ok env).
Implicit Types (w : world) (a : addr) (tp : trust_anchor).

(** A well-formed DNSKEY response for the trust point, with the structure that has
    its owner name. *)
Record response_ok tp (k : ub_packed_rrset_key) (key : name_key) : Prop := {
  q_wf : rrset_wf k;
  q_type : k.(rk_type) = LDNS_RR_TYPE_DNSKEY;
  q_ttl : 0 <= key_ttl k < 2 ^ 32;
  q_name : name_cmp key tp.(ident) = 0;
  q_size : zlen tp.(keys) + k.(entry_data).(count) < 2 ^ 32;
}.

(** The keys have taken steps, and perhaps those to forget have been dropped. *)
Definition progressed (R : response) (K K' : list autr_ta) : Prop :=
  exists K1, evolves env R K K1 /\ (K' = K1 \/ K' = filter kept K1).

(** What is left: the trust point, locked, with keys that have taken steps, or
    nothing of it. *)
Record outcome_ok w a (R : response) (K : list autr_ta) (r : bool) w' : Prop := {
  oc_inv : winv w';
  oc_others : forall b, b <> a -> w'.(tps) !! b = w.(tps) !! b;
  oc_locked : w'.(locked) = if r then w.(locked) else w.(locked) ∖ {[a]};
  oc_point : if r then exists tp', w'.(tps) !! a = Some tp' /\ tp'.(tp_revoked) = false /\ progressed R K tp'.(keys)
             else w'.(tps) !! a = None;
}.

Lemma touched_outcome w a tp R K tp' w' : winv w -> w.(tps) !! a = Some tp -> tp.(tp_revoked) = false -> tp_ok tp' ->
  same_place tp tp' -> touched w a tp' w' -> progressed R K tp'.(keys) -> outcome_ok w a R K true w'.
Proof.
  intros I Ha Hr Hok Hp X HK. pose proof (touched_inv _ _ _ _ _ I Ha Hok Hp X) as I'. split; [done| |by apply X|].
  - intros b Hne. rewrite (x_tps _ _ _ _ X). by rewrite lookup_insert_ne.
  - exists tp'. split; [by eapply touched_at|]. destruct Hp as (_ & _ & Er). by rewrite Er.
Qed.

Lemma removed_outcome w a tp R K tp' w' w'' : touched w a tp' w' -> removed_tp w' a tp w'' -> outcome_ok w a R K false w''.
Proof.
  intros X D. split; [by apply D| | |].
  - intros b Hne. rewrite (d_tps _ _ _ _ D), (x_tps _ _ _ _ X). by rewrite lookup_delete_ne, lookup_insert_ne.
  - by rewrite (d_locked _ _ _ _ D), (x_locked _ _ _ _ X).
  - rewrite (d_tps _ _ _ _ D). by rewrite lookup_delete_eq.
Qed.

Lemma no_anchors_ok w a tp : w.(tps) !! a = Some tp -> exists b, no_anchors a w = Ok (b, w).
Proof. intros Ha. unfold no_anchors. erewrite st_bind_ok by (by apply get_tp_ok). by eexists. Qed.

(** The anchors of a trust point after assembling, whether it succeeds or not. *)
Lemma assembled_ds tp A (ok : bool) : tp_ok tp -> zlen tp.(keys) < 2 ^ 32 ->
  (if ok then assembled tp.(keys) A else A = tp.(anchors)) -> tp_ok (with_anchors A tp).
Proof.
  intros [Hk Hds Ht] Hl HA. split; [done| |done]. cbn. intros ds E. destruct ok; [|subst; by apply Hds].
  destruct HA as (Hp & _). eapply packed_wf; [exact Hp|exact E| |].
  - apply Forall_forall. intros ta [_ Hin]%list_elem_of_filter. rewrite Forall_forall in Hk. by apply Hk.
  - unfold zlen in *. pose proof (length_filter is_ds tp.(keys)). lia.
Qed.

(** ** The end of the processing: reassemble, and remove the point without anchors *)

Definition finish a key (changed : bool) : W bool :=
  if negb changed then mret true else
  ok ← assemble_tp a;
  if negb ok then mret true else
  none ← no_anchors a;
  if (none : bool) then autr_tp_remove env a key;; mret false else mret true.

Lemma finish_ok w a tp key c R K : winv w -> w.(tps) !! a = Some tp -> tp.(tp_revoked) = false -> a ∈ w.(locked) ->
  name_cmp key tp.(ident) = 0 -> zlen tp.(keys) < 2 ^ 32 -> progressed R K tp.(keys) ->
  exists r w', finish a key c w = Ok (r, w') /\ outcome_ok w a R K r w'.
Proof.
  intros I Ha Hr Hl Hkey Hsz HK. pose proof (i_tps _ I _ _ Ha) as Hok. unfold finish.
  destruct c; cbn [negb].
  2: { exists true, w. split; [done|]. by eapply (touched_outcome w a tp); [..|by apply touched_self|]. }
  destruct (assemble_touched w a tp Ha (t_keys _ Hok) Hsz) as (ok & A & w1 & E1 & X1 & HA & _). erewrite st_bind_ok by exact E1.
  pose proof (assembled_ds tp A ok Hok Hsz HA) as Hok1. pose proof (touched_inv _ _ _ _ _ I Ha Hok1 ltac:(done) X1) as I1.
  assert (outcome_ok w a R K true w1) as Hout by (by eapply (touched_outcome w a tp)).
  destruct ok; cbn [negb]; [|by exists true, w1].
  destruct (no_anchors_ok w1 a _ (touched_at _ _ _ _ X1)) as (b & E2). erewrite st_bind_ok by exact E2.
  destruct b; [|by exists true, w1].
  destruct (tp_remove_ok env w1 a (with_anchors A tp) key I1 (touched_at _ _ _ _ X1)) as (w2 & E3 & D);
    [done|by rewrite (x_locked _ _ _ _ X1)|done|].
  erewrite st_bind_ok by exact E3. exists false, w2. split; [done|]. by eapply removed_outcome.
Qed.

Lemma outcome_touched w a tp tp' w1 R K r w' : touched w a tp' w1 -> w.(tps) !! a = Some tp -> outcome_ok w1 a R K r w' -> outcome_ok w a R K r w'.
Proof.
  intros X Ha [J1 J2 J3 J4]. split; [done| | |done].
  - intros b Hne. rewrite J2 by done. rewrite (x_tps _ _ _ _ X). by rewrite lookup_insert_ne.
  - rewrite J3. by rewrite (x_locked _ _ _ _ X).
Qed.

Lemma outcome_rescheduled w a t w1 R K r w' : rescheduled w a t w1 -> outcome_ok w1 a R K r w' -> outcome_ok w a R K r w'.
Proof.
  intros X [J1 J2 J3 J4]. split; [done| | |done].
  - intros b Hne. rewrite J2 by done. rewrite (r_tps _ _ _ _ X). by rewrite lookup_alter_ne.
  - rewrite J3. by rewrite (r_locked _ _ _ _ X).
Qed.

(** ** A validated response *)

Section Valid.
Context (k : ub_packed_rrset_key) (key : name_key).

Lemma update_events_touched w a tp K c : w.(tps) !! a = Some tp -> tp_ok tp -> response_ok tp k key ->
  let R := response_of env tp.(anchors) K k in R.(accepted) -> evolves env R K tp.(keys) ->
  ends (expiry_overflow env k) (fun '((ok, c2), w2) => exists K2 qi rt,
      touched w a (with_times qi rt (with_keys K2 tp)) w2 /\ Forall key_ok K2 /\ evolves env R K K2 /\
      zlen K2 <= zlen tp.(keys) + k.(entry_data).(count) /\ 0 <= qi < 2 ^ 33 /\ 0 <= rt < 2 ^ 33)
    (update_events_tp env a k c w).
Proof.
  intros Ha Hok [Wf Ht Httl Hkey Hsz] R Hacc Hev. destruct (ident_len tp.(ident)) as [En Hn].
  unfold update_events_tp. rewrite Ha. cbn zeta. rewrite En.
  eapply ends_bind; [by apply (update_events_ok env He k Wf Ht tp.(anchors) K (proj1_sig tp.(ident)).(nt_name) Hn (t_ds _ Hok) Hacc
    tp.(keys) tp.(query_interval) tp.(retry_time) c w.(memory) (t_keys _ Hok) Hev)|].
  intros [[[[ok K2] [qi rt]] c2] m2] [Hk2 Hev2 Hl2 Htm]. exists K2, qi, rt.
  split; [done|]. split; [done|]. split; [done|]. split; [done|].
  destruct Htm as [[= -> ->]|(e & Hr1 & -> & ->)]; [apply (t_times _ Hok)|].
  pose proof (tp_time_bounds env (15 * 24 * 3600) 2 e (key_ttl k)). pose proof (tp_time_bounds env (24 * 3600) 10 e (key_ttl k)). lia.
Qed.

Lemma forall_kept P K : Forall P K -> Forall P (filter kept K).
Proof. intros HK. apply Forall_forall. intros ta [_ Hin]%list_elem_of_filter. rewrite Forall_forall in HK. by apply HK. Qed.

Lemma process_valid_ok w a tp K c : winv w -> w.(tps) !! a = Some tp -> tp.(tp_revoked) = false -> a ∈ w.(locked) ->
  response_ok tp k key -> let R := response_of env tp.(anchors) K k in
  R.(accepted) -> Forall2 (rtc (key_step env R)) K tp.(keys) ->
  ends (expiry_overflow env k) (fun '(r, w') => outcome_ok w a R K r w') (process_valid env a key k c w).
Proof.
  intros I Ha Hr Hl Hq R Hacc HK. pose proof (i_tps _ I _ _ Ha) as Hok. unfold process_valid.
  destruct (set_tp_touched w a tp (fun tp => with_failed 0 (with_success env.(now) tp)) Ha) as (w1 & E1 & X1).
  erewrite st_bind_ok by exact E1. set (tp1 := with_failed 0 _) in X1. pose proof (touched_at _ _ _ _ X1) as Ha1.
  assert (evolves env R K tp1.(keys)) as Hev by (eapply evolves_steps; [apply evolves_refl|done]).
  eapply ends_st_bind; [apply (update_events_touched w1 a tp1 K c Ha1);
    [destruct Hok; by split|destruct Hq; by split|done|done]|].
  intros [ok c2] w2 (K2 & qi & rt & X2 & Hk2 & Hev2 & Hl2 & Htm2). set (tp2 := with_times qi rt (with_keys K2 tp1)) in X2.
  apply (touched_trans _ _ _ _ _ _ X1) in X2. clear E1 X1 Ha1 Hev.
  assert (forall K', Forall key_ok K' -> tp_ok (with_keys K' tp2)) as Hok2 by (intros; split; [done|apply Hok|done]).
  destruct ok; cbn [negb].
  2: { cbn. apply (touched_outcome w a tp R K tp2); [done..|by apply (Hok2 K2)|done|done|]. exists K2. auto. }
  destruct (statetable_ok env He R K K2 c2 Hacc (fun x => x) Hev2 Hk2) as (K3 & c3 & Es & Hk3 & HS3).
  pose proof (evolves_steps _ _ _ _ _ Hev2 HS3) as Hev3.
  destruct (on_keys_touched w2 a tp2 (do_statetable env) c2 K3 c3 (touched_at _ _ _ _ X2) Es) as (w3 & E3 & X3).
  erewrite st_bind_ok by exact E3. erewrite st_bind_ok by (apply get_tp_ok; by eapply touched_at).
  unfold lift. cbn [keys with_keys]. rewrite (cleanup_ok K3 Hk3). erewrite st_bind_ok by reflexivity.
  destruct (clear_steps env He R K3 Hk3) as [Hk4 Hs4]. set (K4 := filter kept (clear_pending <$> K3)).
  destruct (set_tp_touched w3 a _ (with_keys K4) (touched_at _ _ _ _ X3)) as (w4 & E4 & X4). erewrite st_bind_ok by exact E4.
  assert (touched w a (with_keys K4 tp2) w4) as X by (eapply touched_trans; [exact X2|]; eapply touched_trans; [exact X3|]; exact X4).
  assert (Forall key_ok K4) as Hk5 by (by apply forall_kept).
  pose proof (touched_inv _ _ _ _ _ I Ha (Hok2 K4 Hk5) ltac:(done) X) as I4. pose proof (touched_at _ _ _ _ X) as Ha4.
  destruct (set_next_probe_ok env w4 a _ key He I4 Ha4) as (t & w5 & E5 & X5 & _);
    [done|by rewrite (x_locked _ _ _ _ X)|apply Hq|].
  erewrite st_bind_ok by exact E5. cbn [negb]. set (tp5 := with_next_probe t (with_keys K4 tp2)).
  assert (w5.(tps) !! a = Some tp5) as Ha5 by (rewrite (r_tps _ _ _ _ X5), lookup_alter_eq, Ha4; done).
  destruct (write_file_touched w5 a tp5 Ha5) as (w6 & E6 & X6). erewrite st_bind_ok by exact E6. fold (finish a key c3).
  apply ends_Ok. destruct (finish_ok w6 a tp5 key c3 R K) as (r & w' & E7 & Hout).
  - apply (touched_inv w5 a tp5 tp5 w6); [apply X5|exact Ha5|destruct (Hok2 K4 Hk5); by split|done|exact X6].
  - by eapply touched_at.
  - done.
  - by rewrite (x_locked _ _ _ _ X6), (r_locked _ _ _ _ X5), (x_locked _ _ _ _ X).
  - apply Hq.
  - cbn. unfold K4, zlen. pose proof (length_filter kept (clear_pending <$> K3)) as Hfl. rewrite length_fmap in Hfl.
    apply Forall2_length in HS3.
    pose proof (q_size _ _ _ Hq). unfold zlen in *. cbn in Hl2. lia.
  - exists (clear_pending <$> K3). split; [by eapply evolves_steps|by right].
  - exists (r, w'). split; [exact E7|]. eapply outcome_touched; [exact X|done|]. eapply outcome_rescheduled; [exact X5|].
    eapply outcome_touched; [exact X6|done|done].
Qed.

(** The anchors the response is verified with: those of the trust point, or those
    assembled from its keys after steps that need no validation: those of keys whose
    add hold-down is over, and of keys that revoke themselves. *)
Definition own_anchors tp (K : list autr_ta) (A : anchors_of) : Prop :=
  A = tp.(anchors) \/ exists K', Forall2 (rtc (key_step env (unvalidated k))) K K' /\ assembled K' A.

Lemma steps_progressed R K K' : Forall2 (rtc (key_step env R)) K K' -> progressed R K K'.
Proof. intros HS. exists K'. split; [|by left]. eapply evolves_steps; [apply evolves_refl|done]. Qed.

(** Reassemble when something changed. *)
Lemma reassemble_ok w a tp (c : bool) : winv w -> w.(tps) !! a = Some tp -> zlen tp.(keys) < 2 ^ 32 ->
  exists ok A w', (if c then assemble_tp a else mret true) w = Ok (ok, w') /\ touched w a (with_anchors A tp) w' /\
    tp_ok (with_anchors A tp) /\ (A = tp.(anchors) \/ assembled tp.(keys) A).
Proof.
  intros I Ha Hsz. pose proof (i_tps _ I _ _ Ha) as Hok. destruct c.
  - destruct (assemble_touched w a tp Ha (t_keys _ Hok) Hsz) as (ok & A & w1 & E1 & X1 & HA & _).
    exists ok, A, w1. split; [done|]. split; [done|]. split; [by eapply assembled_ds|]. destruct ok; auto.
  - exists true, tp.(anchors), w. assert (with_anchors tp.(anchors) tp = tp) as E by by destruct tp. rewrite E.
    split; [done|]. split; [by apply touched_self|]. split; [done|by left].
Qed.

Lemma not_verified_ok w a tp R K : winv w -> w.(tps) !! a = Some tp -> tp.(tp_revoked) = false -> progressed R K tp.(keys) ->
  exists w', not_verified a w = Ok (true, w') /\ outcome_ok w a R K true w'.
Proof.
  intros I Ha Hr HK. pose proof (i_tps _ I _ _ Ha) as Hok. unfold not_verified. erewrite st_bind_ok by (by apply get_tp_ok).
  destruct (negb _).
  - destruct (set_tp_touched w a tp (with_failed (u8 (tp.(query_failed) + 1))) Ha) as (w3 & E3 & X3).
    destruct (write_file_touched w3 a _ (touched_at _ _ _ _ X3)) as (w4 & E4 & X4). exists w4.
    split; [by erewrite st_bind_ok by (erewrite st_bind_ok by exact E3; exact E4)|].
    eapply (touched_outcome w a tp); [done|done|done| | |eapply touched_trans; [exact X3|exact X4]|done]; [|done].
    destruct Hok; by split.
  - exists w. split; [done|]. by eapply (touched_outcome w a tp); [..|by apply touched_self|].
Qed.

(** A debug build stops at its assertion, or the response is validated and a signature
    expires in 2038 or later. *)
Definition may_stop tp (K : list autr_ta) (f : fault_kind) : Prop :=
  debug_build env f \/
  (expiry_overflow env k f /\ exists A, own_anchors tp K A /\ (response_of env A K k).(accepted)).

Lemma process_dnskey_ok w a tp K c : winv w -> w.(tps) !! a = Some tp -> tp.(tp_revoked) = false -> a ∈ w.(locked) ->
  response_ok tp k key -> Forall2 (rtc (key_step env silence)) K tp.(keys) ->
  ends (may_stop tp K) (fun '(r, w') => exists A, own_anchors tp K A /\ outcome_ok w a (response_of env A K k) K r w')
    (process_dnskey env a key k c w).
Proof.
  intros I Ha Hr Hl Hresp HK. pose proof Hresp as [Wf Ht Httl Hkey Hsz]. pose proof (w_count _ Wf).
  pose proof (i_tps _ I _ _ Ha) as Hok. unfold process_dnskey.
  eapply ends_st_bind; [eapply ends_mono; [apply (on_keys_ends w a tp _ c _ (revokes env k tp.(keys)) Ha);
    apply (check_contains_ok env He k Wf Ht); apply Hok|by left|intros x Hx; exact Hx]|].
  intros c2 w1 (K2 & [Hk2 Hs2] & X1). cbn [fst] in Hk2, Hs2.
  assert (Forall2 (rtc (key_step env (unvalidated k))) K K2) as HK2.
  { transitivity tp.(keys); [|exact Hs2]. eapply steps_mono; [apply silence_least|exact HK]. }
  assert (length K2 = length tp.(keys)) as El by (by apply Forall2_length in Hs2).
  set (tp1 := with_keys K2 tp) in *. pose proof (touched_at _ _ _ _ X1) as Ha1.
  assert (tp_ok tp1) as Hok1 by (split; [done|apply Hok|apply Hok]).
  pose proof (touched_inv _ _ _ _ _ I Ha Hok1 ltac:(done) X1) as I1.
  assert (zlen K2 < 2 ^ 32) as Hsz2 by (unfold zlen in *; lia).
  destruct (reassemble_ok w1 a tp1 c2 I1 Ha1 Hsz2) as (ok & A & w2 & E2 & X2 & Hok2 & HA). erewrite st_bind_ok by exact E2.
  set (tp2 := with_anchors A tp1) in *. assert (touched w a tp2 w2) as X by (by eapply touched_trans).
  assert (own_anchors tp K A) as Hown by (destruct HA as [->|HA]; [by left|right; by exists K2]).
  pose proof (touched_inv _ _ _ _ _ I Ha Hok2 ltac:(done) X) as I2. pose proof (touched_at _ _ _ _ X) as Ha2.
  assert (Forall2 (rtc (key_step env (response_of env A K k))) K K2) as HKA by (eapply steps_mono; [apply unvalidated_least|exact HK2]).
  pose proof (steps_progressed _ _ _ HKA) as Hpr.
  assert (a ∈ w2.(locked)) as Hl2 by (by rewrite (x_locked _ _ _ _ X)).
  destruct ok; cbn [negb].
  2: { exists A. split; [done|]. by eapply (touched_outcome w a tp). }
  destruct (no_anchors_ok w2 a tp2 Ha2) as (b & Eb).
  assert (exists none, (if c2 then no_anchors a else mret false) w2 = Ok (none, w2)) as (none & En) by (destruct c2; eauto).
  erewrite st_bind_ok by exact En. clear Eb b En. destruct none.
  { destruct (set_tp_touched w2 a tp2 (with_success env.(now)) Ha2) as (w3 & E3 & X3). erewrite st_bind_ok by exact E3.
    destruct (tp_remove_ok env w3 a _ key (touched_inv w2 a tp2 (with_success env.(now) tp2) w3 I2 Ha2 ltac:(destruct Hok2; by split) ltac:(done) X3) (touched_at _ _ _ _ X3))
      as (w4 & E4 & D); [done|by rewrite (x_locked _ _ _ _ X3)|done|].
    erewrite st_bind_ok by exact E4. exists A. split; [done|].
    eapply removed_outcome; [|exact D]. by eapply touched_trans. }
  unfold verify_dnskey. erewrite (st_bind_ok _ _ w2) by (erewrite st_bind_ok by (by apply get_tp_ok); reflexivity).
  destruct (val_verify_DNSKEY_with_TA k _ _) eqn:Ev; cbn [negb].
  - eapply ends_mono; [apply (process_valid_ok w2 a tp2 K c2 I2 Ha2); [done|done| |done|exact HKA]| |].
    { split; try done. cbn. unfold zlen in *. lia. }
    { intros f Hf. right. split; [done|]. by exists A. }
    intros [r w3] Hout. exists A. split; [done|]. by eapply outcome_touched.
  - destruct (not_verified_ok w2 a tp2 (response_of env A K k) K I2 Ha2 Hr Hpr) as (w3 & E3 & Hout).
    apply ends_Ok. exists (true, w3). split; [done|]. exists A. split; [done|]. by eapply outcome_touched.
Qed.
End Valid.

(** ** The whole *)

Definition said (A : anchors_of) (K : list autr_ta) (resp : reply) : response :=
  match resp with Some (k, _) => response_of env A K k | None => silence end.

Definition reply_ok tp (resp : reply) : Prop :=
  match resp with Some (k, key) => response_ok tp k key | None => zlen tp.(keys) < 2 ^ 32 end.

(** As [unvalidated] and [own_anchors], for a reply: nothing in the choice of the
    anchors depends on a validation. *)
Definition beforehand (resp : reply) : response :=
  match resp with Some (k, _) => unvalidated k | None => silence end.

Definition verifying tp (resp : reply) (A : anchors_of) : Prop :=
  A = tp.(anchors) \/ exists K', Forall2 (rtc (key_step env (beforehand resp))) tp.(keys) K' /\ assembled K' A.

(** How the code may stop: at the key tag assertion of a debug build, and at the
    signed subtraction of [min_expiry], for a validated response with a signature
    that expires in 2038 or later. *)
Definition stops tp (resp : reply) (f : fault_kind) : Prop :=
  debug_build env f \/
  (f = Overflow /\ exists k key A, resp = Some (k, key) /\ late_expiry env k /\ verifying tp resp A /\
     (said A tp.(keys) resp).(accepted)).

Lemma process_prime_ok w a tp (resp : reply) : winv w -> w.(tps) !! a = Some tp -> tp.(tp_revoked) = false ->
  a ∈ w.(locked) -> reply_ok tp resp ->
  ends (stops tp resp) (fun '(r, w') => exists A, verifying tp resp A /\
      outcome_ok w a (said A tp.(keys) resp) tp.(keys) r w')
    (autr_process_prime env a resp w).
Proof.
  intros I Ha Hr Hl Hq. pose proof (i_tps _ I _ _ Ha) as Hok. unfold autr_process_prime.
  assert (zlen tp.(keys) < 2 ^ 32) as Hsz.
  { destruct resp as [[k key]|]; [|done]. destruct Hq as [Wf _ _ _ Hsz]. pose proof (w_count _ Wf). lia. }
  erewrite st_bind_ok by (by apply get_tp_ok). rewrite Hr.
  destruct (set_tp_touched w a tp (with_queried env.(now)) Ha) as (w1 & E1 & X1). erewrite st_bind_ok by exact E1.
  destruct (holddown_exceed_ok env He silence tp.(keys) false (t_keys _ Hok)) as (K2 & c2 & Ec & Hk2 & HK).
  assert (forall R, Forall2 (rtc (key_step env R)) tp.(keys) K2) as HKR by (intros R; eapply steps_mono; [apply silence_least|exact HK]).
  destruct (on_keys_touched w1 a _ _ false K2 c2 (touched_at _ _ _ _ X1) Ec) as (w2 & E2 & X2). erewrite st_bind_ok by exact E2.
  set (tp2 := with_keys K2 (with_queried env.(now) tp)) in *. assert (touched w a tp2 w2) as X by (by eapply touched_trans).
  assert (tp_ok tp2) as Hok2 by (split; [done|apply Hok|apply Hok]).
  pose proof (touched_inv _ _ _ _ _ I Ha Hok2 ltac:(done) X) as I2. pose proof (touched_at _ _ _ _ X) as Ha2.
  pose proof (Forall2_length _ _ _ HK) as El.
  assert (zlen tp2.(keys) < 2 ^ 32) as Hsz2 by (cbn; unfold zlen in *; lia).
  destruct (reassemble_ok w2 a tp2 c2 I2 Ha2 Hsz2) as (ok & A & w3 & E3 & X3 & Hok3 & HA). erewrite st_bind_ok by exact E3.
  set (tp3 := with_anchors A tp2) in *. assert (touched w a tp3 w3) as X' by (by eapply touched_trans).
  pose proof (touched_inv _ _ _ _ _ I Ha Hok3 ltac:(done) X') as I3. pose proof (touched_at _ _ _ _ X') as Ha3.
  assert (verifying tp resp A) as Hown by (destruct HA as [->|HA]; [by left|right; by exists K2]).
  assert (outcome_ok w a (said A tp.(keys) resp) tp.(keys) true w3) as Hout
    by (eapply (touched_outcome w a tp); [done..|exact X'|by apply steps_progressed]).
  destruct ok; cbn [negb]; [|by exists A]. destruct resp as [[k key]|]; [|by exists A].
  assert (forall A4, own_anchors k tp3 tp.(keys) A4 -> verifying tp (Some (k, key)) A4) as Hv.
  { intros A4 [->|HA4]; [exact Hown|by right]. }
  eapply ends_mono; [apply (process_dnskey_ok k key w3 a tp3 tp.(keys) c2 I3 Ha3);
    [done|by rewrite (x_locked _ _ _ _ X')| |exact HK]| |].
  { destruct Hq. split; try done. cbn. unfold zlen in *. lia. }
  - intros f [Hf|[[-> Hf] (A4 & Hown4 & Hacc)]]; [by left|right]. split; [done|]. exists k, key, A4. split; [done|].
    split; [done|]. split; [by apply Hv|exact Hacc].
  - intros [r w4] (A4 & Hown4 & Hout4). exists A4. split; [by apply Hv|by eapply outcome_touched].
Qed.
End Process.

(** ** Property *)

(** C28. Processing a DNSKEY response, or none, for a locked trust point, whatever
    allocations fail.  The response is a well-formed packed DNSKEY RRset for the
    owner name of the point, with fewer than 2^32 keys together with the point's.  The
    code returns, or stops in one of two ways: at an assertion, in a debug build
    ([keytag_assertion_fails]); or at the signed overflow of [min_expiry], when
    the response was validated and a signature expires in 2038 or later
    ([min_expiry_overflows]).  When it returns, all trust points are well-formed and
    in place in both trees, and the others unchanged.  If the answer is that the
    point exists, it is still locked and its keys, and new ones in front, have only
    taken steps the response allows, after which START, REMOVED and non-DNSKEY keys
    may have been dropped; the response was verified with the point's anchors, or
    those assembled from its keys after steps that need no validation.  Else the
    lock is released, and the point was being revoked or is gone. *)
Theorem autr_process_prime_safe `{!Sigcrypt} (env : module_env) (w : world) (a : addr) (tp : trust_anchor) (resp : reply) :
  env_ok env -> winv w -> w.(tps) !! a = Some tp -> a ∈ w.(locked) -> reply_ok tp resp ->
  match autr_process_prime env a resp w with
  | Ok (r, w') => winv w' /\
      (forall b, b <> a -> w'.(tps) !! b = w.(tps) !! b) /\
      w'.(locked) = (if r then w.(locked) else w.(locked) ∖ {[a]}) /\
      if r then exists tp' A, w'.(tps) !! a = Some tp' /\ verifying env tp resp A /\
             progressed env (said env A tp.(keys) resp) tp.(keys) tp'.(keys)
      else tp.(tp_revoked) = true \/ w'.(tps) !! a = None
  | Fault f => (f = Assertion /\ env.(unbound_debug) = true) \/
      (f = Overflow /\ exists k key A, resp = Some (k, key) /\ late_expiry env k /\ verifying env tp resp A /\
         (said env A tp.(keys) resp).(accepted))
  | OutOfFuel => False
  end.
Proof.
  intros He I Ha Hl Hq. destruct (tp.(tp_revoked)) eqn:Hr.
  - unfold autr_process_prime. erewrite st_bind_ok by (by apply get_tp_ok). rewrite Hr.
    erewrite st_bind_ok by (unfold unlock; rewrite decide_True by done; reflexivity).
    destruct I as [J1 J2 J3]. split; [by split|]. split; [done|]. split; [done|by left].
  - pose proof (process_prime_ok env He w a tp resp I Ha Hr Hl Hq) as Hend.
    destruct (autr_process_prime env a resp w) as [[r w']|f|]; [|exact Hend|done].
    destruct Hend as (A & Hown & [O1 O2 O3 O4]). split; [done|]. split; [done|]. split; [done|]. destruct r; [|by right].
    destruct O4 as (tp' & Ha' & _ & Hp). by exists tp', A.
Qed.

Lemma sample_reply_ok : reply_ok sample_tp (Some (sample_response, sample_ident)).
Proof. split; [apply sample_response_wf|done|done|apply (cmp_refl name_cmp)|done]. Qed.

Lemma autr_process_prime_safe_witness :
  match autr_process_prime sample_env 1%positive (Some (sample_response, sample_ident)) sample_world with
  | Ok (r, w') => winv w' | _ => False end.
Proof.
  pose proof (autr_process_prime_safe sample_env sample_world 1%positive sample_tp (Some (sample_response, sample_ident))
    sample_env_ok sample_inv (lookup_singleton_eq _ _) (elem_of_singleton_2 _ _ eq_refl) sample_reply_ok) as H.
  assert (exists r w', autr_process_prime sample_env 1%positive (Some (sample_response, sample_ident)) sample_world = Ok (r, w')) as (r & w' & E)
    by (eexists _, _; vm_compute; reflexivity).
  rewrite E in *. exact (proj1 H).
Defined.

(** ** Where the debug checks and the arithmetic of the code do not hold

    The two ways to stop of the theorem above, on concrete inputs. *)

(** A key whose key tag is 65489; the tag of the revoked key wraps to 82. *)
Definition wrap_rr (flag : Z) : list Z := [0; 7; 1; flag; 3; 8; 251; 200; 0].

Definition wrap_key : autr_ta :=
  mk_ta ([1; 97; 0; 0; 48; 0; 1; 0; 0; 14; 16] ++ wrap_rr 1) 20 3 1600000000 AUTR_STATE_VALID 0 false false.

Definition debug_env : module_env :=
  mk_env sample_env.(now) sample_env.(add_holddown) sample_env.(del_holddown) sample_env.(keep_missing)
    sample_env.(permit_small) sample_env.(probe_timer) true.

(** The debug build fails its own assertion on a key that is revoked properly. *)
Lemma keytag_assertion_fails : exists K,
  check_contains_revoked sample_env (sample_rrset [wrap_rr 129]) [wrap_key] false = Ok (K, true) /\
  s <$> K = [AUTR_STATE_REVOKED] /\
  check_contains_revoked debug_env (sample_rrset [wrap_rr 129]) [wrap_key] false = Fault Assertion.
Proof. eexists. split; [vm_compute; reflexivity|]. split; vm_compute; reflexivity. Qed.

(** A signature that expires in 2038 or later overflows the signed subtraction. *)
Lemma min_expiry_overflows :
  min_expiry sample_env (mk_pd 3600 0 1 [16] [3600] [[0; 14; 0; 48; 8; 1; 0; 0; 14; 16; 128; 0; 0; 10; 0; 0]]) = Fault Overflow.
Proof. vm_compute. reflexivity. Qed.
