(* ===== verification/AutotrustTrust.v ===== *)
(** * RFC 5011: why a key is trusted

    From the steps of [AutotrustKeys]: what it takes for a key to become trusted,
    over one response and over many. *)

From S2P Require Import Prelude Rbtree RbtreeAdd DnsTree DnsTreeSpec NameTree Sbuffer Autotrust AutotrustKeys AutotrustRrset.
From S2P Require Import AutotrustTable AutotrustAssemble AutotrustProbe AutotrustPrime AutotrustSafe.

Section Trust.
Context (env : module_env) (He : env_ok env) (R : response).

Definition in_trust (ta : autr_ta) : Prop := ta.(s) = AUTR_STATE_VALID \/ ta.(s) = AUTR_STATE_MISSING.

(** The add hold-down time is over, and the key was seen often enough or is seen in
    this validated response. *)
Definition held_down (ta : autr_ta) : Prop :=
  ta.(s) = AUTR_STATE_ADDPEND /\ env.(add_holddown) < env.(now) - ta.(last_change) /\
  (MIN_PENDINGCOUNT <= ta.(pending_count) \/ (R.(accepted) /\ exists d, R.(contains) d /\ same_key d ta)).

(** The validated response comes with a DS for the key, or the trust point was
    configured with a ZSK. *)
Definition vouched (ta : autr_ta) : Prop :=
  R.(accepted) /\ ((exists d, R.(by_ds) d /\ same_key d ta) \/ R.(by_zsk)).

Definition grounds (ta : autr_ta) : Prop := in_trust ta \/ held_down ta \/ vouched ta.

(** What is known of [x] when [ta] has become [x]. *)
Record history (ta x : autr_ta) : Prop := {
  h_id : same_id ta x;
  h_trust : in_trust x -> grounds ta;
  h_pending : x.(s) = AUTR_STATE_ADDPEND -> x.(last_change) = env.(now) \/
    (ta.(s) = AUTR_STATE_ADDPEND /\ x.(last_change) = ta.(last_change) /\
     (x.(pending_count) <= ta.(pending_count) \/ (R.(accepted) /\ exists d, R.(contains) d /\ same_key d ta)));
  h_revoked : ta.(s) = AUTR_STATE_REVOKED \/ ta.(s) = AUTR_STATE_REMOVED ->
    x.(s) = AUTR_STATE_REVOKED \/ x.(s) = AUTR_STATE_REMOVED;
}.

Lemma history_refl ta : history ta ta.
Proof. split; [done|by left| |done]. intros H. right. split; [done|]. split; [done|]. left. lia. Qed.

Lemma seen_fields ta : (seen_trustanchor ta true).(s) = ta.(s) /\ (seen_trustanchor ta true).(last_change) = ta.(last_change).
Proof. unfold seen_trustanchor. by destruct (_ <? _). Qed.

(** Only the end of the hold-down time makes a key trusted. *)
Lemma rfc_into_trust x e y : rfc5011 x e y -> y = AUTR_STATE_VALID \/ y = AUTR_STATE_MISSING ->
  (x = AUTR_STATE_VALID \/ x = AUTR_STATE_MISSING) \/ (x = AUTR_STATE_ADDPEND /\ e = AddTime).
Proof. intros [] [|]; try done; auto. Qed.

Lemma history_step ta x y : history ta x -> key_step env R x y -> history ta y.
Proof.
  intros [Hid Ht Hp Hr] Hs. assert (same_id ta y) as Hid'.
  { apply key_step_id in Hs. destruct Hid, Hs. split; congruence. }
  assert (forall d, same_key d x -> same_key d ta) as Hback by (intros d; by rewrite (same_id_key d ta x Hid)).
  pose proof (e_add _ He) as Hadd. unfold in_u in Hadd.
  split; [done| | |]; destruct Hs as [|d Ha Hc Hk|d|d Ha Hb Hk Hsep Hst|e y Ho Hrf Hl Hf Hrv Hpc Hsi Hs1 Hs2|Hsep Hst|Ha Hz Hsep Hst|Ha Hst Hw|Hst].
  - exact Ht.
  - intros Hy. apply Ht. unfold in_trust in *. by rewrite (proj1 (seen_fields x)) in Hy.
  - exact Ht.
  - intros _. right. right. split; [done|]. left. exists d. split; [done|by apply Hback].
  - intros Hy. destruct (rfc_into_trust _ _ _ Hrf Hy) as [Hx|[Hx ->]]; [by apply Ht|].
    right. left. destruct Ho as [Ho1 Ho2]. destruct (Hp Hx) as [Hn|(H1 & H2 & H3)]; [lia|].
    split; [done|]. split; [lia|]. destruct H3 as [H3|H3]; [left; lia|by right].
  - exact Ht.
  - intros _. right. right. split; [done|]. by right.
  - unfold in_trust. cbn. by intros [?|?].
  - exact Ht.
  - exact Hp.
  - destruct (seen_fields x) as [E1 E2]. rewrite E1, E2. intros H. destruct (Hp H) as [|(H1 & H2 & _)]; [by left|right].
    split; [done|]. split; [done|]. right. split; [done|]. exists d. split; [done|by apply Hback].
  - exact Hp.
  - done.
  - intros _. by left.
  - intros _. by left.
  - done.
  - done.
  - cbn. intros H. by destruct Hst.
  - exact Hr.
  - by rewrite (proj1 (seen_fields x)).
  - exact Hr.
  - intros H. cbn. destruct (Hr H); congruence.
  - intros H. destruct (Hr H) as [E|E]; rewrite E in Hrf; inversion Hrf. by right.
  - exact Hr.
  - intros H. destruct (Hr H); congruence.
  - by right.
  - exact Hr.
Qed.

Lemma history_steps ta x : rtc (key_step env R) ta x -> history ta x.
Proof.
  revert x. apply rtc_ind_r; [apply history_refl|]. intros y z _ Hyz Hy. by eapply history_step.
Qed.

(** A key of the trust point afterwards was one before or is new. *)
Lemma progressed_history K K' x : progressed env R K K' -> x ∈ K' ->
  exists ta, (ta ∈ K \/ fresh R ta) /\ history ta x.
Proof.
  intros (K1 & (new & Hn & H) & HK') Hx. assert (x ∈ K1) as Hin.
  { destruct HK' as [->| ->]; [done|]. by apply list_elem_of_filter in Hx as [_ ?]. }
  apply list_elem_of_lookup in Hin as [i Hi]. destruct (Forall2_lookup_r _ _ _ _ _ H Hi) as (ta & Hta & Hs).
  exists ta. split; [|by apply history_steps]. apply list_elem_of_lookup_2, elem_of_app in Hta as [Hta|Hta]; [|by left].
  right. rewrite Forall_forall in Hn. by apply Hn.
Qed.
End Trust.

(** ** Over many responses *)

(** The time of a key in the add hold-down does not begin before [T0]. *)
Definition held_back (T0 : Z) (ta : autr_ta) : Prop :=
  ~ in_trust ta /\ (ta.(s) = AUTR_STATE_ADDPEND -> T0 <= ta.(last_change)).

Definition unvouched (d : list Z) (R : response) : Prop := forall d', R.(by_ds) d' -> set_revbit d' <> set_revbit d.

(** What holds of the keys of the trust point as long as [d] is held back. *)
Definition holding (d : list Z) (T0 : Z) (K : list autr_ta) : Prop :=
  ~ Exists configured_zsk K /\ forall ta, ta ∈ K -> same_key d ta -> held_back T0 ta.

Lemma history_held env R d T0 ta x : T0 <= env.(now) <= T0 + env.(add_holddown) -> unvouched d R -> ~ R.(by_zsk) ->
  same_key d ta -> history env R ta x -> held_back T0 ta -> held_back T0 x.
Proof.
  intros Hn Hds Hz Hk [_ Ht Hp _] [Hnt Hpd]. split.
  - intros Hx. destruct (Ht Hx) as [Hta|[(Hs & Hh & _)|[_ [(d' & Hd' & Hk')|Hv]]]]; [done| |  |done].
    + pose proof (Hpd Hs). lia.
    + apply (Hds d' Hd'). destruct Hk as [_ <-], Hk' as [_ <-]. done.
  - intros Hx. destruct (Hp Hx) as [->|(Hs & -> & _)]; [lia|by apply Hpd].
Qed.

Lemma progressed_zsk env R K K' : progressed env R K K' -> Exists configured_zsk K' -> Exists configured_zsk K.
Proof.
  intros (K1 & Hev & HK') Hz. apply (zsk_origin _ _ _ _ Hev). destruct HK' as [->| ->]; [done|].
  apply Exists_exists in Hz as (ta & [_ Hin]%list_elem_of_filter & Hz). apply Exists_exists. eauto.
Qed.

Lemma holding_step env R d T0 K K' : env_ok env -> T0 <= env.(now) <= T0 + env.(add_holddown) -> unvouched d R ->
  (R.(by_zsk) -> Exists configured_zsk K) -> progressed env R K K' -> holding d T0 K -> holding d T0 K'.
Proof.
  intros He Hn Hds Hz Hpr [Hnz Hh]. split; [by intros ?%(progressed_zsk _ _ _ _ Hpr)|].
  intros x Hx Hk. destruct (progressed_history env He R K K' x Hpr Hx) as (ta & Hta & Hhist).
  assert (same_key d ta) as Hkt by (by apply (same_id_key d ta x); [apply Hhist|]).
  eapply history_held; [done|done| |exact Hkt|exact Hhist|]; [tauto|].
  destruct Hta as [Hta|Hta]; [by apply Hh|]. destruct Hta as (Hs & _). unfold held_back, in_trust. rewrite Hs. by split; [intros [|]|].
Qed.

Section Lifetime.
Context `{!Sigcrypt} (a : addr) (d : list Z) (T0 h : Z).

(** Responses are processed for the trust point [a] between the times [T0] and
    [T0 + h], the add hold-down time, with any other work in between that does not
    touch its keys.  Each response is as [reply_ok] says and its processing returns
    and leaves the trust point.  No DS anchor vouches for the key [d]. *)
Inductive lifetime : world -> world -> Prop :=
  | life_start w : lifetime w w
  | life_response w w1 w2 env tp resp : lifetime w w1 -> env_ok env ->
      env.(add_holddown) = h -> T0 <= env.(now) <= T0 + h ->
      winv w1 -> w1.(tps) !! a = Some tp -> a ∈ w1.(locked) -> reply_ok tp resp ->
      (forall A, verifying env tp resp A -> unvouched d (said env A tp.(keys) resp)) ->
      autr_process_prime env a resp w1 = Ok (true, w2) -> lifetime w w2
  | life_other w w1 w2 : lifetime w w1 -> keys <$> w2.(tps) !! a = keys <$> w1.(tps) !! a -> lifetime w w2.

Lemma process_prime_said env w tp resp w' : env_ok env -> winv w -> w.(tps) !! a = Some tp ->
  a ∈ w.(locked) -> reply_ok tp resp -> autr_process_prime env a resp w = Ok (true, w') ->
  exists tp' A, w'.(tps) !! a = Some tp' /\ verifying env tp resp A /\
    progressed env (said env A tp.(keys) resp) tp.(keys) tp'.(keys).
Proof.
  intros He I Ha Hl Hq E. destruct (tp.(tp_revoked)) eqn:Hr.
  - unfold autr_process_prime in E. erewrite st_bind_ok in E by (by apply get_tp_ok). rewrite Hr in E.
    erewrite st_bind_ok in E by (unfold unlock; rewrite decide_True by done; reflexivity). done.
  - pose proof (process_prime_ok env He w a tp resp I Ha Hr Hl Hq) as Hend. rewrite E in Hend.
    destruct Hend as (A & Hv & [_ _ _ O]). destruct O as (tp' & Ha' & _ & Hp). by exists tp', A.
Qed.

Lemma said_zsk env A K resp : (said env A K resp).(by_zsk) -> Exists configured_zsk K.
Proof. by destruct resp as [[k key]|]. Qed.

Lemma lifetime_holding w w' : lifetime w w' -> (forall tp, w.(tps) !! a = Some tp -> holding d T0 tp.(keys)) ->
  forall tp', w'.(tps) !! a = Some tp' -> holding d T0 tp'.(keys).
Proof.
  intros Hrun H0. induction Hrun as [w|w w1 w2 env tp resp Hlife IH He Hh Hn I Ha Hl Hq Hun E|w w1 w2 Hlife IH E]; intros tp' Ha'.
  - by apply H0.
  - destruct (process_prime_said env w1 tp resp w2 He I Ha Hl Hq E) as (tp2 & A & Ha2 & Hv & Hp).
    rewrite Ha2 in Ha'. injection Ha' as <-. eapply holding_step; [exact He|lia|by apply (Hun A)|apply said_zsk|exact Hp|].
    by apply IH.
  - rewrite Ha' in E. cbn in E. destruct (tps w1 !! a) as [tp|]; [|done]. injection E as ->. by apply IH.
Qed.
End Lifetime.

(** ** Properties *)

(** C29. No key becomes trusted without grounds.  A response (none, or any well-formed
    packed DNSKEY RRset for the owner name, with fewer than 2^32 keys together with the point's) is
    processed for a locked trust point, and the answer is that the point exists.
    There are anchors [A], fixed before any validation (those the point had, or
    those assembled from its keys after the end of add hold-downs and
    self-revocations only), such that every key of the point afterwards was, up to the
    REVOKE bit, a key of it before or a new START key of a response that [A]
    validates; and if it is trusted now (VALID or MISSING), it was trusted before, or
    its add hold-down is over and it was seen twice or is seen now in the response
    that [A] validates, or [A] validates the response and a DS of [A] vouches for the
    key, or [A] validates the response and one of the keys is a configured ZSK.  A
    revoked key stays revoked or is removed. *)
Theorem autr_trust_grounds `{!Sigcrypt} (env : module_env) (w w' : world) (a : addr) (tp : trust_anchor) (resp : reply) :
  env_ok env -> winv w -> w.(tps) !! a = Some tp -> a ∈ w.(locked) -> reply_ok tp resp ->
  autr_process_prime env a resp w = Ok (true, w') ->
  exists tp' A, w'.(tps) !! a = Some tp' /\ verifying env tp resp A /\ let R := said env A tp.(keys) resp in
    forall x, x ∈ tp'.(keys) -> exists ta, (ta ∈ tp.(keys) \/ fresh R ta) /\ same_id ta x /\
      (in_trust x -> grounds env R ta) /\
      (ta.(s) = AUTR_STATE_REVOKED \/ ta.(s) = AUTR_STATE_REMOVED -> x.(s) = AUTR_STATE_REVOKED \/ x.(s) = AUTR_STATE_REMOVED).
Proof.
  intros He I Ha Hl Hq E. destruct (process_prime_said a env w tp resp w' He I Ha Hl Hq E) as (tp' & A & Ha' & Hv & Hp).
  exists tp', A. split; [done|]. split; [done|]. intros R x Hx.
  destruct (progressed_history env He R _ _ x Hp Hx) as (ta & Hta & [H1 H2 _ H4]). by exists ta.
Qed.

Lemma sample_locked : 1%positive ∈ sample_world.(locked).
Proof. by vm_compute. Qed.

Definition sample_processed : world :=
  match autr_process_prime sample_env 1%positive (Some (sample_response, sample_ident)) sample_world with
  | Ok (_, w) => w | _ => sample_world end.

Lemma sample_processed_eq :
  autr_process_prime sample_env 1%positive (Some (sample_response, sample_ident)) sample_world = Ok (true, sample_processed).
Proof. vm_compute. reflexivity. Qed.

Lemma autr_trust_grounds_witness : exists tp', sample_processed.(tps) !! 1%positive = Some tp'.
Proof.
  destruct (autr_trust_grounds sample_env sample_world sample_processed 1%positive sample_tp (Some (sample_response, sample_ident))
    sample_env_ok sample_inv (lookup_singleton_eq _ _) sample_locked sample_reply_ok sample_processed_eq)
    as (tp' & A & E & _).
  exists tp'. exact E.
Defined.

(** C30. The add hold-down time is respected against an attacker with the zone's keys.
    The trust point has at [T0] no configured ZSK (with one, [init_zsk_to_ksk] trusts
    the pending keys of a validated response at once) and does not have the key
    [d].  Then, whatever responses are processed for the point within the add
    hold-down time after [T0], validated or not, and whatever happens between them to the rest of the
    state, [d] is not trusted.  Each response is none or a well-formed packed DNSKEY RRset for the
    owner name of the point, with fewer than 2^32 keys together with those of the
    point; the processing returned, under the lock of the point, with valid times in
    the environment, and left the point in place; and no DS anchor the response could
    be verified with vouches for [d]. *)
Theorem add_holddown_respected `{!Sigcrypt} (a : addr) (d : list Z) (T0 h : Z) (w w' : world) (tp tp' : trust_anchor) :
  lifetime a d T0 h w w' -> w.(tps) !! a = Some tp -> ~ Exists configured_zsk tp.(keys) ->
  (forall ta, ta ∈ tp.(keys) -> ~ same_key d ta) ->
  w'.(tps) !! a = Some tp' -> forall ta, ta ∈ tp'.(keys) -> same_key d ta -> ta.(s) <> AUTR_STATE_VALID /\ ta.(s) <> AUTR_STATE_MISSING.
Proof.
  intros Hrun Ha Hz Hnew Ha' ta Hin Hk.
  destruct (lifetime_holding a d T0 h w w' Hrun) with (tp' := tp') as [_ Hh]; [|done|].
  - intros tp0 E. rewrite Ha in E. injection E as <-. split; [done|]. intros x Hx Hkx. by destruct (Hnew x Hx).
  - destruct (Hh ta Hin Hk) as [Hnt _]. unfold in_trust in Hnt. tauto.
Qed.

(** Without DS anchors, nothing is vouched for by a DS. *)
Lemma verifying_no_ds `{!Sigcrypt} env tp resp A d : verifying env tp resp A -> tp.(anchors).(ds_rrset) = None ->
  Forall (fun ta => ~ is_ds ta) tp.(keys) -> unvouched d (said env A tp.(keys) resp).
Proof.
  intros HA Hds HK. assert (A.(ds_rrset) = None) as E.
  { destruct HA as [->|(K' & Hs & Hp & _)]; [done|]. assert (filter is_ds K' = []) as E.
    { apply filter_nil_iff, Forall_forall. intros x [i Hi]%list_elem_of_lookup.
      destruct (Forall2_lookup_r _ _ _ _ _ Hs Hi) as (ta & Hta & [Ht _]%key_steps_id).
      apply list_elem_of_lookup_2 in Hta. rewrite Forall_forall in HK. intros Hx. apply (HK _ Hta). unfold is_ds in *. by rewrite <- Ht. }
    rewrite E in Hp. destruct (ds_rrset A) as [k|]; [|done]. by pose proof (p_type _ _ Hp). }
  destruct resp as [[k key]|]; [|by intros d']. intros d' (i & ds & _ & Hd & _). congruence.
Qed.

Definition new_key : list Z := [1; 1; 3; 8; 9; 9; 9].

Lemma sample_lifetime : lifetime 1%positive new_key sample_env.(now) sample_env.(add_holddown) sample_world sample_processed.
Proof.
  apply (life_response _ _ _ _ sample_world sample_world sample_processed sample_env sample_tp (Some (sample_response, sample_ident)));
    [apply life_start|apply sample_env_ok|done|cbn; lia|apply sample_inv|done|exact sample_locked|apply sample_reply_ok| |apply sample_processed_eq].
  intros A HA. apply verifying_no_ds; [done|done|]. by repeat constructor.
Qed.

Lemma sample_no_zsk : ~ Exists configured_zsk sample_tp.(keys).
Proof. by intros [(_ & E & _)|E%Exists_nil]%Exists_cons. Qed.

Lemma sample_no_new_key ta : ta ∈ sample_tp.(keys) -> ~ same_key new_key ta.
Proof. intros ->%list_elem_of_singleton [_ E]. vm_compute in E. done. Qed.

Definition sample_processed_tp : trust_anchor :=
  match sample_processed.(tps) !! 1%positive with Some tp => tp | None => sample_tp end.

Lemma sample_processed_at : sample_processed.(tps) !! 1%positive = Some sample_processed_tp.
Proof. vm_compute. reflexivity. Qed.

Lemma sample_had : sample_world.(tps) !! 1%positive = Some sample_tp.
Proof. vm_compute. reflexivity. Qed.

Lemma add_holddown_respected_witness :
  Forall (fun ta => same_key new_key ta -> ta.(s) <> AUTR_STATE_VALID) sample_processed_tp.(keys).
Proof.
  apply Forall_forall. intros ta Hin Hk.
  exact (proj1 (add_holddown_respected 1%positive new_key sample_env.(now) sample_env.(add_holddown) sample_world sample_processed
    sample_tp sample_processed_tp sample_lifetime sample_had sample_no_zsk sample_no_new_key sample_processed_at ta Hin Hk)).
Defined.
