(* ===== verification/AutotrustTimer.v ===== *)
(** * RFC 5011: the probe timer

    [autr_probe_timer] probes every trust point whose time has come, once each and
    the earliest first, and says when to come back; and what happens when there is
    no memory for a probe. *)

From Stdlib Require Import Sorting.Sorted.
From S2P Require Import Prelude Rbtree RbtreeTree RbtreeAdd RbtreeRemove RbtreeApi Dname DnameCompare.
From S2P Require Import PathOrder DnsTree DnsTreeSpec NameTree Sbuffer Autotrust AutotrustKeys AutotrustRrset.
From S2P Require Import AutotrustTable AutotrustAssemble AutotrustProbe AutotrustPrime.

Section Timer.
Context (env : module_env) (He : env_ok env).
Implicit Types (w : world) (a : addr) (tp : trust_anchor).

Definition due w a : Prop :=
  exists tp, w.(tps) !! a = Some tp /\ tp.(tp_revoked) = false /\ tp.(next_probe_time) <= env.(now).

(** Neither locks nor schedule of what is due change; nothing becomes due; the
    allocations go on. *)
Record calm w w' : Prop := {
  c_inv : winv w';
  c_due : forall b, due w' b <-> due w b;
  c_time : forall b, due w b -> next_probe_time <$> w'.(tps) !! b = next_probe_time <$> w.(tps) !! b;
  c_locked : w'.(locked) = w.(locked);
  c_probed : w'.(probed) = w.(probed);
  c_memory : mallocs_ok w.(memory) -> mallocs_ok w'.(memory);
}.

Definition time_of w a : Z := match w.(tps) !! a with Some tp => tp.(next_probe_time) | None => 0 end.

Lemma first_due w Lp k a : scheduled w ((k, a) :: Lp) -> exists tp, w.(tps) !! a = Some tp /\ tp.(tp_revoked) = false /\ k = probe_key_of tp.
Proof. intros Hs. apply Hs. by left. Qed.

(** The first of the schedule is the earliest. *)
Lemma first_least w Lp k a b tp : ordered probetree_cmp w.(probe) ((k, a) :: Lp) -> scheduled w ((k, a) :: Lp) ->
  w.(tps) !! b = Some tp -> tp.(tp_revoked) = false -> k.1 <= tp.(next_probe_time).
Proof.
  intros [_ Hs] Hsch Hb Hr. assert ((probe_key_of tp, b) ∈ (k, a) :: Lp) as Hin by (apply Hsch; by exists tp).
  apply elem_of_cons in Hin as [[= <- <-]|Hin]; [cbn; lia|].
  inversion Hs as [|? ? _ Hf]; subst. rewrite Forall_forall in Hf. specialize (Hf _ Hin). cbn in Hf.
  unfold probetree_cmp in Hf. cbn in Hf. destruct (Z.ltb_spec k.1 (next_probe_time tp)); [lia|].
  destruct (Z.ltb_spec (next_probe_time tp) k.1); lia.
Qed.

Lemma sorted_impl {A} (Q Q' : A -> A -> Prop) (l : list A) : (forall x y, x ∈ l -> y ∈ l -> Q x y -> Q' x y) ->
  StronglySorted Q l -> StronglySorted Q' l.
Proof.
  intros H. induction 1 as [|x l Hs IH Hf]; constructor.
  - apply IH. intros y z Hy Hz. apply H; by right.
  - rewrite Forall_forall in *. intros y Hy. apply H; [by left|by right|by apply Hf].
Qed.

(** What [todo_probe] answers. *)
Lemma todo_probe_none w next : winv w -> w.(locked) = ∅ -> (forall b, ~ due w b) ->
  exists t, todo_probe env next w = Ok ((None, t), w) /\
    ((t = 0 /\ forall b tp, w.(tps) !! b = Some tp -> tp.(tp_revoked) = true) \/
     (0 < t /\ (exists b tp, w.(tps) !! b = Some tp /\ tp.(tp_revoked) = false /\ tp.(next_probe_time) = env.(now) + t) /\
      forall b tp, w.(tps) !! b = Some tp -> tp.(tp_revoked) = false -> env.(now) + t <= tp.(next_probe_time))).
Proof.
  intros I Hl Hnd. destruct (i_probe _ I) as (Lp & O & Hs). unfold todo_probe.
  erewrite st_bind_ok by (apply on_probe_read; by apply (ordered_first probetree_cmp)).
  destruct Lp as [|[k a] Lp]; cbn [head fmap option_fmap option_map snd].
  - exists 0. split; [done|]. left. split; [done|]. intros b tp Hb. destruct (tp_revoked tp) eqn:Hr; [done|].
    assert ((probe_key_of tp, b) ∈ []) as Hin by (apply Hs; by exists tp). by apply elem_of_nil in Hin.
  - destruct (first_due _ _ _ _ Hs) as (tp & Ha & Hr & Ek).
    assert (env.(now) < tp.(next_probe_time)) as Hlt by (apply Z.nle_gt; intros ?; apply (Hnd a); by exists tp).
    erewrite st_bind_ok by (unfold lock; rewrite decide_False by (rewrite Hl; set_solver); reflexivity).
    erewrite st_bind_ok by (by apply get_tp_ok). rewrite ltb_true by done.
    erewrite st_bind_ok by (unfold unlock; rewrite decide_True by (cbn; set_solver); reflexivity).
    exists (next_probe_time tp - env.(now)). split.
    { match goal with |- mret _ ?x = _ => replace x with w; [done|] end. unfold upd_locked. cbn. rewrite Hl.
      replace (({[a]} ∪ ∅) ∖ {[a]}) with (∅ : gset addr) by (apply set_eq; set_solver). destruct w; cbn in *; by subst. }
    right. split; [lia|]. split; [exists a, tp; split; [done|]; split; [done|lia]|].
    intros b tpb Hb Hrb. pose proof (first_least _ _ _ _ _ _ O Hs Hb Hrb) as Hle. rewrite Ek in Hle. cbn in Hle. lia.
Qed.

(** The trust point [a] is the next in turn. *)
Definition next_in_turn w a : Prop :=
  exists tp, w.(tps) !! a = Some tp /\ tp.(tp_revoked) = false /\
    forall b tpb, w.(tps) !! b = Some tpb -> tpb.(tp_revoked) = false -> b <> a -> tp.(next_probe_time) < tpb.(next_probe_time).

Lemma todo_probe_locked w next a : winv w -> next_in_turn w a -> a ∈ w.(locked) -> todo_probe env next w = Fault Deadlock.
Proof.
  intros I (tp & Ha & Hr & Hturn) Hl. destruct (i_probe _ I) as (Lp & O & Hs). unfold todo_probe.
  erewrite st_bind_ok by (apply on_probe_read; by apply (ordered_first probetree_cmp)).
  assert ((probe_key_of tp, a) ∈ Lp) as Hin by (apply Hs; by exists tp).
  destruct Lp as [|[k b] Lp]; [by apply elem_of_nil in Hin|]. clear Hin. cbn [head fmap option_fmap option_map snd].
  assert (b = a) as ->.
  { destruct (decide (b = a)) as [|Hne]; [done|]. destruct (first_due _ _ _ _ Hs) as (tpb & Hb & Hrb & ->).
    pose proof (first_least _ _ _ _ _ _ O Hs Ha Hr) as Hle. pose proof (Hturn b tpb Hb Hrb Hne). cbn in Hle. lia. }
  unfold lock, mbind, ST_bind. by rewrite decide_True.
Qed.

Lemma due_after w a t pr rs : env.(now) < t -> forall b, due (with_probe_of w a t pr rs) b <-> due w b /\ b <> a.
Proof.
  intros Ht b. unfold due. cbn. destruct (decide (a = b)) as [<-|Hne].
  - rewrite lookup_alter_eq. split; [|by intros [_ ?]]. intros (tp & E & _ & Hle). destruct (w.(tps) !! a); [|done].
    injection E as <-. cbn in Hle. lia.
  - rewrite lookup_alter_ne by done. split; [by intros|by intros [? _]].
Qed.

(** [*next] only passes through. *)
Lemma todo_probe_next w next next' a w' : todo_probe env next w = Ok ((Some a, next), w') ->
  todo_probe env next' w = Ok ((Some a, next'), w').
Proof.
  unfold todo_probe, mbind, ST_bind. destruct (on_probe rbtree_first w) as [[[b|] w1]| |]; [|done..].
  destruct (lock b w1) as [[[] w2]| |]; [|done..]. destruct (get_tp b w2) as [[tp w3]| |]; [|done..].
  destruct (_ <? _); [by destruct (unlock b w3) as [[[] w4]| |]|].
  destruct (reschedule env b tp.(retry_time) w3) as [[u w4]| |]; [|done..]. by intros [= <- <-].
Qed.

Lemma todo_probe_some w next : winv w -> w.(locked) = ∅ -> (exists b, due w b) ->
  exists a w', todo_probe env next w = Ok ((Some a, next), w') /\ due w a /\ (forall b, due w b -> time_of w a <= time_of w b) /\
    winv w' /\ w'.(locked) = {[a]} /\ w'.(memory) = w.(memory) /\ w'.(probed) = w.(probed) /\
    (forall b, due w' b <-> due w b /\ b <> a) /\ (forall b, b <> a -> w'.(tps) !! b = w.(tps) !! b) /\
    exists tp t, w.(tps) !! a = Some tp /\ w'.(tps) !! a = Some (with_next_probe t tp) /\
      env.(now) + (wait_of env tp.(retry_time) - wait_of env tp.(retry_time) ÷ 10) <= t <= env.(now) + wait_of env tp.(retry_time).
Proof.
  intros I Hl (b0 & tp0 & Hb0 & Hr0 & Hd0). destruct (i_probe _ I) as (Lp & O & Hs). unfold todo_probe.
  erewrite st_bind_ok by (apply on_probe_read; by apply (ordered_first probetree_cmp)).
  assert ((probe_key_of tp0, b0) ∈ Lp) as Hin by (apply Hs; by exists tp0).
  destruct Lp as [|[k a] Lp]; [by apply elem_of_nil in Hin|]. clear Hin. cbn [head fmap option_fmap option_map snd].
  destruct (first_due _ _ _ _ Hs) as (tp & Ha & Hr & ->). pose proof (first_least _ _ _ _ _ _ O Hs Hb0 Hr0) as Hle. cbn in Hle.
  set (w1 := upd_locked (fun x => {[a]} ∪ x) w).
  assert (lock a w = Ok (tt, w1)) as E1 by (unfold lock; rewrite decide_False by (rewrite Hl; set_solver); done).
  erewrite st_bind_ok by exact E1. erewrite st_bind_ok by (by apply get_tp_ok). rewrite ltb_false by lia.
  assert (winv w1) as I1 by (destruct I as [J1 J2 J3]; by split).
  destruct (reschedule_ok env w1 a tp tp.(retry_time) He I1 Ha Hr) as (t & pr & rs & E2 & Hlt & Ht & _ & Lp' & O' & Hs');
    [apply (t_times _ (i_tps _ I _ _ Ha))|].
  erewrite st_bind_ok by exact E2. eexists a, _. split; [reflexivity|]. split; [exists tp; split; [done|]; split; [done|lia]|].
  split. { intros b (tpb & Hb & Hrb & _). unfold time_of. rewrite Ha, Hb. by pose proof (first_least _ _ _ _ _ _ O Hs Hb Hrb). }
  split; [by apply (reschedule_inv w1 a tp t pr rs Lp')|]. split; [cbn; rewrite Hl; apply set_eq; set_solver|].
  split; [done|]. split; [done|]. split; [intros b; by apply (due_after w1)|]. split; [intros b Hne; cbn; by rewrite lookup_alter_ne|].
  exists tp, t. split; [done|]. split; [cbn; by rewrite lookup_alter_eq, Ha|done].
Qed.
End Timer.

Section Loop.
Context (env : module_env) (He : env_ok env) (cb : addr -> ST world unit).
Implicit Types (w : world) (a : addr) (tp : trust_anchor).

(** The work on a new query leaves the schedule of what is due alone. *)
Hypothesis cb_calm : forall a w, winv w -> w.(locked) = ∅ -> exists w', cb a w = Ok (tt, w') /\ calm env w w'.

Lemma probe_anchor_ok w a : winv w -> w.(locked) = {[a]} -> mallocs_ok w.(memory) ->
  exists w', probe_anchor cb a w = Ok (tt, w') /\ winv w' /\ w'.(locked) = ∅ /\ mallocs_ok w'.(memory) /\
    w'.(probed) = w.(probed) ++ [a] /\ (forall b, due env w' b <-> due env w b) /\
    (forall b, due env w b -> next_probe_time <$> w'.(tps) !! b = next_probe_time <$> w.(tps) !! b).
Proof.
  intros I Hl Hm. unfold probe_anchor. destruct (malloc (memory w)) as [ok m] eqn:Em. destruct (malloc_ok _ _ _ Em Hm) as [-> Hm']. cbn [negb].
  set (w1 := upd_memory m w). set (w2 := upd_locked (fun x => x ∖ {[a]}) w1).
  assert (unlock a w1 = Ok (tt, w2)) as E1 by (unfold unlock; rewrite decide_True by (cbn; rewrite Hl; set_solver); done).
  erewrite st_bind_ok by exact E1. erewrite st_bind_ok by reflexivity.
  destruct (cb_calm a (upd_probed a w2)) as (w' & E2 & [C1 C2 C3 C4 C5 C6]).
  { destruct I as [J1 J2 J3]. by split. }
  { cbn. rewrite Hl. apply set_eq. set_solver. }
  exists w'. split; [exact E2|]. split; [done|]. split; [rewrite C4; cbn; rewrite Hl; apply set_eq; set_solver|].
  split; [by apply C6|]. split; [by rewrite C5|]. split; [exact C2|exact C3].
Qed.

(** Where the probes end. *)
Definition next_time w (t : Z) : Prop :=
  (t = 0 /\ forall b tp, w.(tps) !! b = Some tp -> tp.(tp_revoked) = true) \/
  (0 < t /\ (exists b tp, w.(tps) !! b = Some tp /\ tp.(tp_revoked) = false /\ tp.(next_probe_time) = env.(now) + t) /\
   forall b tp, w.(tps) !! b = Some tp -> tp.(tp_revoked) = false -> env.(now) + t <= tp.(next_probe_time)).

(** The addresses due, the earliest first. *)
Definition in_turn w (P : list addr) : Prop :=
  NoDup P /\ (forall b, b ∈ P <-> due env w b) /\ StronglySorted (fun b c => time_of w b <= time_of w c) P.

Lemma in_turn_cons w w' a P : due env w a -> (forall b, due env w b -> time_of w a <= time_of w b) ->
  (forall b, due env w' b <-> due env w b /\ b <> a) -> (forall b, due env w' b -> time_of w' b = time_of w b) ->
  in_turn w' P -> in_turn w (a :: P).
Proof.
  intros Ha Hleast Hd Ht (Hn & HP & Hs). split; [|split].
  - apply NoDup_cons. split; [|done]. rewrite HP, Hd. tauto.
  - intros b. rewrite elem_of_cons, HP, Hd. destruct (decide (b = a)) as [->|]; tauto.
  - constructor.
    + eapply sorted_impl; [|exact Hs]. intros b c Hb Hc. cbn beta. by rewrite (Ht b), (Ht c) by (by apply HP).
    + apply Forall_forall. intros b Hb. apply Hleast. apply HP, Hd in Hb. by destruct Hb.
Qed.

Lemma due_size w : winv w -> exists D : list addr, NoDup D /\ (forall b, b ∈ D <-> due env w b) /\ (length D <= size w.(probe).(nodes))%nat.
Proof.
  intros I. destruct (i_probe _ I) as (Lp & O & Hs).
  set (late := fun e : probe_key * addr => e.1.1 <= env.(now)). exists (filter late Lp).*2. split; [|split].
  - pose proof (ordered_nodup _ _ _ O) as Hn. clear -Hn. induction Lp as [|e L IH]; [constructor|]. cbn in Hn.
    apply NoDup_cons in Hn as [H1 H2]. rewrite filter_cons. case_decide; [|by apply IH]. cbn. apply NoDup_cons. split; [|by apply IH].
    intros Hin. apply H1. apply list_elem_of_fmap in Hin as (x & -> & [_ Hx]%list_elem_of_filter). apply list_elem_of_fmap. by exists x.
  - intros b. rewrite list_elem_of_fmap. split.
    + intros ([k c] & -> & [Hk (tp & Hb & Hr & ->)%Hs]%list_elem_of_filter). by exists tp.
    + intros (tp & Hb & Hr & Hle). exists (probe_key_of tp, b). split; [done|]. apply list_elem_of_filter. split; [done|].
      apply Hs. by exists tp.
  - rewrite length_fmap. pose proof (length_filter late Lp). pose proof (ordered_size _ _ _ O). lia.
Qed.

Record probed_all w P w' t : Prop := {
  pa_inv : winv w';
  pa_locked : w'.(locked) = ∅;
  pa_probed : w'.(probed) = w.(probed) ++ P;
  pa_turn : in_turn w P;
  pa_done : forall b, ~ due env w' b;
  pa_next : next_time w' t;
}.

Lemma probe_loop_done n w next : winv w -> w.(locked) = ∅ -> (forall b, ~ due env w b) ->
  exists t, probe_loop env cb (S n) next w = Ok (t, w) /\ probed_all w [] w t.
Proof.
  intros I Hl Hnd. cbn [probe_loop]. destruct (todo_probe_none env He w next I Hl Hnd) as (t & E & Ht).
  erewrite st_bind_ok by exact E. exists t. split; [done|]. split; try done; [by rewrite app_nil_r|].
  split; [constructor|]. split; [|constructor]. intros b. split; [by intros ?%elem_of_nil|by intros ?%Hnd].
Qed.

Lemma probe_loop_ok n : forall w next D, winv w -> w.(locked) = ∅ -> mallocs_ok w.(memory) ->
  NoDup D -> (forall b, b ∈ D <-> due env w b) -> (length D <= n)%nat ->
  exists t w' P, probe_loop env cb (S n) next w = Ok (t, w') /\ probed_all w P w' t.
Proof.
  induction n as [|n IH]; intros w next D I Hl Hm Hn HD Hlen; (destruct D as [|a0 D0] eqn:ED;
    [edestruct (probe_loop_done) as (t & E & HP); [done|done|by intros b Hb%HD; apply elem_of_nil in Hb|]; by exists t, w, []|]).
  - by cbn in Hlen; lia.
  - rewrite <- ED in *. change (probe_loop env cb (S (S n)) next) with ('(tp, next) ← todo_probe env next;
      match tp with None => mret next | Some a => probe_anchor cb a;; probe_loop env cb (S n) next end).
    destruct (todo_probe_some env He w next I Hl) as (a & w1 & E1 & Ha & Hleast & I1 & Hl1 & Em & Ep & Hd1 & Ht1 & _).
    { exists a0. apply HD. rewrite ED. by left. }
    erewrite st_bind_ok by exact E1. cbv beta iota.
    destruct (probe_anchor_ok w1 a I1 Hl1) as (w2 & E2 & I2 & Hl2 & Hm2 & Ep2 & Hd2 & Ht2); [by rewrite Em|].
    erewrite st_bind_ok by exact E2.
    assert (forall b, due env w2 b <-> due env w b /\ b <> a) as Hd by (intros b; by rewrite Hd2, Hd1).
    destruct (IH w2 next (filter (fun b => b <> a) D) I2 Hl2 Hm2) as (t & w' & P & E3 & [P1 P2 P3 P4 P5 P6]).
    { by apply NoDup_filter. }
    { intros b. rewrite list_elem_of_filter, HD, Hd. tauto. }
    { assert (a ∈ D) as (D1 & D2 & ->)%list_elem_of_split by (by apply HD).
      rewrite filter_app, filter_cons_False by tauto. pose proof (length_filter (fun b => b <> a) D1).
      pose proof (length_filter (fun b => b <> a) D2). rewrite !length_app in *. cbn in Hlen. lia. }
    exists t, w', (a :: P). split; [exact E3|]. split; try done.
    + by rewrite P3, Ep2, Ep, <- app_assoc.
    + eapply in_turn_cons; [done..| |done]. intros b Hb. unfold time_of.
      assert (due env w1 b) as Hb1 by (by apply Hd2). specialize (Ht2 b Hb1).
      rewrite <- (Ht1 b) by (by apply Hd in Hb as [_ ?]). destruct (w2.(tps) !! b), (w1.(tps) !! b); by simplify_eq/=.
Qed.
End Loop.

(** ** Properties *)

(** C33. When no allocation fails, no lock is held at the start, and the callback
    that runs the new query returns with the trust points well-formed, no lock held
    and the schedule of what is due as it was ([calm]), the probe timer ends, and
    probes every trust point whose time has come exactly once, the earliest first,
    whatever their number.  Afterwards no trust point is due, no lock is held, and
    the answer is the time until the first of the next probes, 0 when no trust points
    are left.  For the timer without memory see [probe_out_of_memory_deadlocks]. *)
Theorem autr_probe_timer_probes (env : module_env) (cb : addr -> ST world unit) (w : world) :
  env_ok env -> (forall a w, winv w -> w.(locked) = ∅ -> exists w', cb a w = Ok (tt, w') /\ calm env w w') ->
  winv w -> w.(locked) = ∅ -> mallocs_ok w.(memory) ->
  exists t w' P, autr_probe_timer env cb w = Ok (t, w') /\ winv w' /\ w'.(locked) = ∅ /\
    w'.(probed) = w.(probed) ++ P /\ in_turn env w P /\ (forall b, ~ due env w' b) /\ next_time env w' t.
Proof.
  intros He Hcb I Hl Hm. destruct (due_size env w I) as (D & Hn & HD & Hlen). unfold autr_probe_timer.
  destruct (probe_loop_ok env He cb Hcb _ w (if permit_small env then 1 else 3600) D I Hl Hm Hn HD Hlen) as (t & w' & P & E & []).
  exists t, w', P. auto 10.
Qed.

Definition sample_unlocked : world := upd_locked (fun _ => ∅) sample_world.

Lemma sample_unlocked_inv : winv sample_unlocked.
Proof. destruct sample_inv as [J1 J2 J3]. by split. Qed.

Lemma calm_refl env w : winv w -> calm env w w.
Proof. by split. Qed.

Lemma autr_probe_timer_probes_witness : exists t w' P,
  autr_probe_timer sample_env (fun _ => mret tt) sample_unlocked = Ok (t, w') /\ w'.(probed) = P /\ in_turn sample_env sample_unlocked P.
Proof.
  destruct (autr_probe_timer_probes sample_env (fun _ => mret tt) sample_unlocked sample_env_ok
    (fun a w I _ => ex_intro _ w (conj eq_refl (calm_refl sample_env w I))) sample_unlocked_inv eq_refl (Forall_nil_2 _))
    as (t & w' & P & E & _ & _ & Ep & Ht & _).
  exists t, w', P. split; [exact E|]. split; [exact Ep|exact Ht].
Defined.

(** C34. Without memory for the query of a probe, [probe_anchor] forgets the lock: in
    every state with well-formed trust points, none locked and some due, when the next
    allocation fails, the timer takes and locks the earliest of the points that are
    due, and [probe_anchor] returns as if all was well, with nothing probed and that
    point still locked.  If it is then the next in turn, as it is when it is the
    only trust point, the timer waits for the lock it holds itself. *)
Theorem probe_out_of_memory_deadlocks (env : module_env) (cb : addr -> ST world unit) (w : world) (m : mem) (next : Z) :
  env_ok env -> winv w -> w.(locked) = ∅ -> (exists b, due env w b) -> malloc w.(memory) = (false, m) ->
  exists a w1 w2, due env w a /\ (forall b, due env w b -> time_of w a <= time_of w b) /\
    todo_probe env next w = Ok ((Some a, next), w1) /\ probe_anchor cb a w1 = Ok (tt, w2) /\
    w2.(locked) = {[a]} /\ w2.(probed) = w.(probed) /\
    (next_in_turn w2 a -> autr_probe_timer env cb w = Fault Deadlock) /\
    ((forall b tp, w.(tps) !! b = Some tp -> tp.(tp_revoked) = false -> b = a) -> next_in_turn w2 a).
Proof.
  intros He I Hl Hd Hm. destruct (due_size env w I) as (D & Hn & HD & Hlen).
  destruct (todo_probe_some env He w next I Hl Hd) as (a & w1 & E1 & Ha & Hle & I1 & Hl1 & Em & Ep & _ & Ho & tp & t & Ht & Ht1 & _).
  exists a, w1, (upd_memory m w1). split; [done|]. split; [done|]. split; [done|].
  split; [unfold probe_anchor; by rewrite Em, Hm|]. split; [done|]. split; [done|]. split.
  - intros Hturn. unfold autr_probe_timer. set (n := if permit_small env then 1 else 3600).
    assert (exists k, size w.(probe).(nodes) = S k) as [k ->].
    { destruct (size w.(probe).(nodes)) eqn:E; [|eauto]. destruct D; [|cbn in Hlen; lia]. destruct Hd as [b Hb%HD]. by apply elem_of_nil in Hb. }
    change (probe_loop env cb (S (S k)) n w) with (mbind (fun '(tp, next) => match tp with None => mret next
      | Some a => probe_anchor cb a;; probe_loop env cb (S k) next end) (todo_probe env n) w).
    assert (todo_probe env n w = Ok ((Some a, n), w1)) as E2 by (by apply (todo_probe_next env _ next)).
    erewrite st_bind_ok by exact E2. cbv beta iota.
    erewrite st_bind_ok by (unfold probe_anchor; by rewrite Em, Hm).
    change (probe_loop env cb (S k) n) with ('(tp, next) ← todo_probe env n; match tp with None => mret next
      | Some a => probe_anchor cb a;; probe_loop env cb k next end).
    assert (todo_probe env n (upd_memory m w1) = Fault Deadlock) as E3.
    { apply (todo_probe_locked env _ _ a); [destruct I1 as [J1 J2 J3]; by split|done|cbn; rewrite Hl1; set_solver]. }
    unfold mbind, ST_bind. by rewrite E3.
  - intros Honly. exists (with_next_probe t tp). split; [done|]. split; [destruct Ha as (tp' & E & Hr & _); rewrite Ht in E; by injection E as <-|].
    intros b tpb Hb Hrb Hne. destruct Hne. cbn in Hb. destruct (decide (b = a)) as [|Hne]; [done|]. rewrite Ho in Hb by done. by eapply Honly.
Qed.

Lemma sample_due : due sample_env sample_unlocked 1%positive.
Proof. exists sample_tp. split; [by vm_compute|]. split; [done|]. cbn. lia. Qed.

Lemma sample_starved_inv : winv (upd_memory [false] sample_unlocked).
Proof. destruct sample_unlocked_inv as [J1 J2 J3]. by split. Qed.

Lemma sample_only a tp : (upd_memory [false] sample_unlocked).(tps) !! a = Some tp -> a = 1%positive.
Proof. intros H. exact (proj1 (sample_at a tp H)). Qed.

(** The only trust point, when there is no memory: the timer never ends. *)
Lemma probe_out_of_memory_deadlocks_witness :
  autr_probe_timer sample_env (fun _ => mret tt) (upd_memory [false] sample_unlocked) = Fault Deadlock.
Proof.
  destruct (probe_out_of_memory_deadlocks sample_env (fun _ => mret tt) (upd_memory [false] sample_unlocked) [] 3600
    sample_env_ok sample_starved_inv eq_refl (ex_intro _ 1%positive sample_due) eq_refl)
    as (a & w1 & w2 & (tp & Ha & _) & _ & _ & _ & _ & _ & Hdead & Hturn).
  apply Hdead, Hturn. intros b tpb Hb _. by rewrite (sample_only a tp Ha), (sample_only b tpb Hb).
Defined.
