(* ===== verification/RrDef.v ===== *)
(** * The RR types (sldns/rrdef.c)

    The table of descriptors: for every type the fields of its rdata, and how many
    of them are domain names.  The names of the types are left out.  The table is the
    one without DRAFT_RRTYPES, the default of the build. *)

From S2P Require Import Prelude.

Inductive sldns_rdf_type :=
  | LDNS_RDF_TYPE_NONE
  | LDNS_RDF_TYPE_DNAME
  | LDNS_RDF_TYPE_INT8
  | LDNS_RDF_TYPE_INT16
  | LDNS_RDF_TYPE_INT32
  | LDNS_RDF_TYPE_A
  | LDNS_RDF_TYPE_AAAA
  | LDNS_RDF_TYPE_STR
  | LDNS_RDF_TYPE_APL
  | LDNS_RDF_TYPE_B32_EXT
  | LDNS_RDF_TYPE_B64
  | LDNS_RDF_TYPE_HEX
  | LDNS_RDF_TYPE_NSEC
  | LDNS_RDF_TYPE_TYPE
  | LDNS_RDF_TYPE_CLASS
  | LDNS_RDF_TYPE_CERT_ALG
  | LDNS_RDF_TYPE_ALG
  | LDNS_RDF_TYPE_UNKNOWN
  | LDNS_RDF_TYPE_TIME
  | LDNS_RDF_TYPE_PERIOD
  | LDNS_RDF_TYPE_TSIGTIME
  | LDNS_RDF_TYPE_HIP
  | LDNS_RDF_TYPE_INT16_DATA
  | LDNS_RDF_TYPE_SERVICE
  | LDNS_RDF_TYPE_LOC
  | LDNS_RDF_TYPE_WKS
  | LDNS_RDF_TYPE_NSAP
  | LDNS_RDF_TYPE_ATMA
  | LDNS_RDF_TYPE_IPSECKEY
  | LDNS_RDF_TYPE_NSEC3_SALT
  | LDNS_RDF_TYPE_NSEC3_NEXT_OWNER
  | LDNS_RDF_TYPE_ILNP64
  | LDNS_RDF_TYPE_EUI48
  | LDNS_RDF_TYPE_EUI64
  | LDNS_RDF_TYPE_TAG
  | LDNS_RDF_TYPE_LONG_STR
  | LDNS_RDF_TYPE_TSIGERROR
  | LDNS_RDF_TYPE_SVCPARAM.

#[global] Instance sldns_rdf_type_eq_dec : EqDecision sldns_rdf_type.
Proof. solve_decision. Defined.

Inductive sldns_rr_compress := LDNS_RR_COMPRESS | LDNS_RR_NO_COMPRESS.

Record sldns_rr_descriptor := mk_desc {
  _type : Z;
  _minimum : Z;
  _maximum : Z;
  _wireformat : list sldns_rdf_type;
  _variable : sldns_rdf_type;
  _compress : sldns_rr_compress;
  _dname_count : Z;
}.

(** ** Type codes *)

Definition LDNS_RR_TYPE_A : Z := 1.
Definition LDNS_RR_TYPE_NS : Z := 2.
Definition LDNS_RR_TYPE_MD : Z := 3.
Definition LDNS_RR_TYPE_MF : Z := 4.
Definition LDNS_RR_TYPE_CNAME : Z := 5.
Definition LDNS_RR_TYPE_SOA : Z := 6.
Definition LDNS_RR_TYPE_MB : Z := 7.
Definition LDNS_RR_TYPE_MG : Z := 8.
Definition LDNS_RR_TYPE_MR : Z := 9.
Definition LDNS_RR_TYPE_NULL : Z := 10.
Definition LDNS_RR_TYPE_WKS : Z := 11.
Definition LDNS_RR_TYPE_PTR : Z := 12.
Definition LDNS_RR_TYPE_HINFO : Z := 13.
Definition LDNS_RR_TYPE_MINFO : Z := 14.
Definition LDNS_RR_TYPE_MX : Z := 15.
Definition LDNS_RR_TYPE_TXT : Z := 16.
Definition LDNS_RR_TYPE_RP : Z := 17.
Definition LDNS_RR_TYPE_AFSDB : Z := 18.
Definition LDNS_RR_TYPE_X25 : Z := 19.
Definition LDNS_RR_TYPE_ISDN : Z := 20.
Definition LDNS_RR_TYPE_RT : Z := 21.
Definition LDNS_RR_TYPE_NSAP : Z := 22.
Definition LDNS_RR_TYPE_NSAP_PTR : Z := 23.
Definition LDNS_RR_TYPE_SIG : Z := 24.
Definition LDNS_RR_TYPE_KEY : Z := 25.
Definition LDNS_RR_TYPE_PX : Z := 26.
Definition LDNS_RR_TYPE_GPOS : Z := 27.
Definition LDNS_RR_TYPE_AAAA : Z := 28.
Definition LDNS_RR_TYPE_LOC : Z := 29.
Definition LDNS_RR_TYPE_NXT : Z := 30.
Definition LDNS_RR_TYPE_EID : Z := 31.
Definition LDNS_RR_TYPE_NIMLOC : Z := 32.
Definition LDNS_RR_TYPE_SRV : Z := 33.
Definition LDNS_RR_TYPE_ATMA : Z := 34.
Definition LDNS_RR_TYPE_NAPTR : Z := 35.
Definition LDNS_RR_TYPE_KX : Z := 36.
Definition LDNS_RR_TYPE_CERT : Z := 37.
Definition LDNS_RR_TYPE_A6 : Z := 38.
Definition LDNS_RR_TYPE_DNAME : Z := 39.
Definition LDNS_RR_TYPE_SINK : Z := 40.
Definition LDNS_RR_TYPE_OPT : Z := 41.
Definition LDNS_RR_TYPE_APL : Z := 42.
Definition LDNS_RR_TYPE_DS : Z := 43.
Definition LDNS_RR_TYPE_SSHFP : Z := 44.
Definition LDNS_RR_TYPE_IPSECKEY : Z := 45.
Definition LDNS_RR_TYPE_RRSIG : Z := 46.
Definition LDNS_RR_TYPE_NSEC : Z := 47.
Definition LDNS_RR_TYPE_DNSKEY : Z := 48.
Definition LDNS_RR_TYPE_DHCID : Z := 49.
Definition LDNS_RR_TYPE_NSEC3 : Z := 50.
Definition LDNS_RR_TYPE_NSEC3PARAM : Z := 51.
Definition LDNS_RR_TYPE_TLSA : Z := 52.
Definition LDNS_RR_TYPE_SMIMEA : Z := 53.
Definition LDNS_RR_TYPE_HIP : Z := 55.
Definition LDNS_RR_TYPE_TALINK : Z := 58.
Definition LDNS_RR_TYPE_CDS : Z := 59.
Definition LDNS_RR_TYPE_CDNSKEY : Z := 60.
Definition LDNS_RR_TYPE_OPENPGPKEY : Z := 61.
Definition LDNS_RR_TYPE_CSYNC : Z := 62.
Definition LDNS_RR_TYPE_ZONEMD : Z := 63.
Definition LDNS_RR_TYPE_SVCB : Z := 64.
Definition LDNS_RR_TYPE_HTTPS : Z := 65.
Definition LDNS_RR_TYPE_SPF : Z := 99.
Definition LDNS_RR_TYPE_NID : Z := 104.
Definition LDNS_RR_TYPE_L32 : Z := 105.
Definition LDNS_RR_TYPE_L64 : Z := 106.
Definition LDNS_RR_TYPE_LP : Z := 107.
Definition LDNS_RR_TYPE_EUI48 : Z := 108.
Definition LDNS_RR_TYPE_EUI64 : Z := 109.
Definition LDNS_RR_TYPE_TKEY : Z := 249.
Definition LDNS_RR_TYPE_TSIG : Z := 250.
Definition LDNS_RR_TYPE_IXFR : Z := 251.
Definition LDNS_RR_TYPE_AXFR : Z := 252.
Definition LDNS_RR_TYPE_MAILB : Z := 253.
Definition LDNS_RR_TYPE_MAILA : Z := 254.
Definition LDNS_RR_TYPE_ANY : Z := 255.
Definition LDNS_RR_TYPE_URI : Z := 256.
Definition LDNS_RR_TYPE_CAA : Z := 257.
Definition LDNS_RR_TYPE_DLV : Z := 32769.

(** ** The fields of the rdata *)

Definition type_0_wireformat : list sldns_rdf_type := [LDNS_RDF_TYPE_UNKNOWN].
Definition type_a_wireformat : list sldns_rdf_type := [LDNS_RDF_TYPE_A].
Definition type_ns_wireformat : list sldns_rdf_type := [LDNS_RDF_TYPE_DNAME].
Definition type_md_wireformat : list sldns_rdf_type := [LDNS_RDF_TYPE_DNAME].
Definition type_mf_wireformat : list sldns_rdf_type := [LDNS_RDF_TYPE_DNAME].
Definition type_cname_wireformat : list sldns_rdf_type := [LDNS_RDF_TYPE_DNAME].
Definition type_soa_wireformat : list sldns_rdf_type := [LDNS_RDF_TYPE_DNAME; LDNS_RDF_TYPE_DNAME; LDNS_RDF_TYPE_INT32; LDNS_RDF_TYPE_PERIOD; LDNS_RDF_TYPE_PERIOD; LDNS_RDF_TYPE_PERIOD; LDNS_RDF_TYPE_PERIOD].
Definition type_mb_wireformat : list sldns_rdf_type := [LDNS_RDF_TYPE_DNAME].
Definition type_mg_wireformat : list sldns_rdf_type := [LDNS_RDF_TYPE_DNAME].
Definition type_mr_wireformat : list sldns_rdf_type := [LDNS_RDF_TYPE_DNAME].
Definition type_wks_wireformat : list sldns_rdf_type := [LDNS_RDF_TYPE_A; LDNS_RDF_TYPE_WKS].
Definition type_ptr_wireformat : list sldns_rdf_type := [LDNS_RDF_TYPE_DNAME].
Definition type_hinfo_wireformat : list sldns_rdf_type := [LDNS_RDF_TYPE_STR; LDNS_RDF_TYPE_STR].
Definition type_minfo_wireformat : list sldns_rdf_type := [LDNS_RDF_TYPE_DNAME; LDNS_RDF_TYPE_DNAME].
Definition type_mx_wireformat : list sldns_rdf_type := [LDNS_RDF_TYPE_INT16; LDNS_RDF_TYPE_DNAME].
Definition type_rp_wireformat : list sldns_rdf_type := [LDNS_RDF_TYPE_DNAME; LDNS_RDF_TYPE_DNAME].
Definition type_afsdb_wireformat : list sldns_rdf_type := [LDNS_RDF_TYPE_INT16; LDNS_RDF_TYPE_DNAME].
Definition type_x25_wireformat : list sldns_rdf_type := [LDNS_RDF_TYPE_STR].
Definition type_isdn_wireformat : list sldns_rdf_type := [LDNS_RDF_TYPE_STR; LDNS_RDF_TYPE_STR].
Definition type_rt_wireformat : list sldns_rdf_type := [LDNS_RDF_TYPE_INT16; LDNS_RDF_TYPE_DNAME].
Definition type_nsap_wireformat : list sldns_rdf_type := [LDNS_RDF_TYPE_NSAP].
Definition type_nsap_ptr_wireformat : list sldns_rdf_type := [LDNS_RDF_TYPE_STR].
Definition type_sig_wireformat : list sldns_rdf_type := [LDNS_RDF_TYPE_TYPE; LDNS_RDF_TYPE_ALG; LDNS_RDF_TYPE_INT8; LDNS_RDF_TYPE_INT32; LDNS_RDF_TYPE_TIME; LDNS_RDF_TYPE_TIME; LDNS_RDF_TYPE_INT16; LDNS_RDF_TYPE_DNAME; LDNS_RDF_TYPE_B64].
Definition type_key_wireformat : list sldns_rdf_type := [LDNS_RDF_TYPE_INT16; LDNS_RDF_TYPE_INT8; LDNS_RDF_TYPE_INT8; LDNS_RDF_TYPE_B64].
Definition type_px_wireformat : list sldns_rdf_type := [LDNS_RDF_TYPE_INT16; LDNS_RDF_TYPE_DNAME; LDNS_RDF_TYPE_DNAME].
Definition type_gpos_wireformat : list sldns_rdf_type := [LDNS_RDF_TYPE_STR; LDNS_RDF_TYPE_STR; LDNS_RDF_TYPE_STR].
Definition type_aaaa_wireformat : list sldns_rdf_type := [LDNS_RDF_TYPE_AAAA].
Definition type_loc_wireformat : list sldns_rdf_type := [LDNS_RDF_TYPE_LOC].
Definition type_nxt_wireformat : list sldns_rdf_type := [LDNS_RDF_TYPE_DNAME; LDNS_RDF_TYPE_UNKNOWN].
Definition type_eid_wireformat : list sldns_rdf_type := [LDNS_RDF_TYPE_HEX].
Definition type_nimloc_wireformat : list sldns_rdf_type := [LDNS_RDF_TYPE_HEX].
Definition type_srv_wireformat : list sldns_rdf_type := [LDNS_RDF_TYPE_INT16; LDNS_RDF_TYPE_INT16; LDNS_RDF_TYPE_INT16; LDNS_RDF_TYPE_DNAME].
Definition type_atma_wireformat : list sldns_rdf_type := [LDNS_RDF_TYPE_ATMA].
Definition type_naptr_wireformat : list sldns_rdf_type := [LDNS_RDF_TYPE_INT16; LDNS_RDF_TYPE_INT16; LDNS_RDF_TYPE_STR; LDNS_RDF_TYPE_STR; LDNS_RDF_TYPE_STR; LDNS_RDF_TYPE_DNAME].
Definition type_kx_wireformat : list sldns_rdf_type := [LDNS_RDF_TYPE_INT16; LDNS_RDF_TYPE_DNAME].
Definition type_cert_wireformat : list sldns_rdf_type := [LDNS_RDF_TYPE_CERT_ALG; LDNS_RDF_TYPE_INT16; LDNS_RDF_TYPE_ALG; LDNS_RDF_TYPE_B64].
Definition type_a6_wireformat : list sldns_rdf_type := [LDNS_RDF_TYPE_UNKNOWN].
Definition type_dname_wireformat : list sldns_rdf_type := [LDNS_RDF_TYPE_DNAME].
Definition type_sink_wireformat : list sldns_rdf_type := [LDNS_RDF_TYPE_INT8; LDNS_RDF_TYPE_INT8; LDNS_RDF_TYPE_INT8; LDNS_RDF_TYPE_B64].
Definition type_apl_wireformat : list sldns_rdf_type := [LDNS_RDF_TYPE_APL].
Definition type_ds_wireformat : list sldns_rdf_type := [LDNS_RDF_TYPE_INT16; LDNS_RDF_TYPE_ALG; LDNS_RDF_TYPE_INT8; LDNS_RDF_TYPE_HEX].
Definition type_sshfp_wireformat : list sldns_rdf_type := [LDNS_RDF_TYPE_INT8; LDNS_RDF_TYPE_INT8; LDNS_RDF_TYPE_HEX].
Definition type_ipseckey_wireformat : list sldns_rdf_type := [LDNS_RDF_TYPE_IPSECKEY].
Definition type_rrsig_wireformat : list sldns_rdf_type := [LDNS_RDF_TYPE_TYPE; LDNS_RDF_TYPE_ALG; LDNS_RDF_TYPE_INT8; LDNS_RDF_TYPE_INT32; LDNS_RDF_TYPE_TIME; LDNS_RDF_TYPE_TIME; LDNS_RDF_TYPE_INT16; LDNS_RDF_TYPE_DNAME; LDNS_RDF_TYPE_B64].
Definition type_nsec_wireformat : list sldns_rdf_type := [LDNS_RDF_TYPE_DNAME; LDNS_RDF_TYPE_NSEC].
Definition type_dhcid_wireformat : list sldns_rdf_type := [LDNS_RDF_TYPE_B64].
Definition type_talink_wireformat : list sldns_rdf_type := [LDNS_RDF_TYPE_DNAME; LDNS_RDF_TYPE_DNAME].
Definition type_openpgpkey_wireformat : list sldns_rdf_type := [LDNS_RDF_TYPE_B64].
Definition type_csync_wireformat : list sldns_rdf_type := [LDNS_RDF_TYPE_INT32; LDNS_RDF_TYPE_INT16; LDNS_RDF_TYPE_NSEC].
Definition type_zonemd_wireformat : list sldns_rdf_type := [LDNS_RDF_TYPE_INT32; LDNS_RDF_TYPE_INT8; LDNS_RDF_TYPE_INT8; LDNS_RDF_TYPE_HEX].
Definition type_svcb_wireformat : list sldns_rdf_type := [LDNS_RDF_TYPE_INT16; LDNS_RDF_TYPE_DNAME].
Definition type_nsec3_wireformat : list sldns_rdf_type := [LDNS_RDF_TYPE_INT8; LDNS_RDF_TYPE_INT8; LDNS_RDF_TYPE_INT16; LDNS_RDF_TYPE_NSEC3_SALT; LDNS_RDF_TYPE_NSEC3_NEXT_OWNER; LDNS_RDF_TYPE_NSEC].
Definition type_nsec3param_wireformat : list sldns_rdf_type := [LDNS_RDF_TYPE_INT8; LDNS_RDF_TYPE_INT8; LDNS_RDF_TYPE_INT16; LDNS_RDF_TYPE_NSEC3_SALT].
Definition type_dnskey_wireformat : list sldns_rdf_type := [LDNS_RDF_TYPE_INT16; LDNS_RDF_TYPE_INT8; LDNS_RDF_TYPE_ALG; LDNS_RDF_TYPE_B64].
Definition type_tkey_wireformat : list sldns_rdf_type := [LDNS_RDF_TYPE_DNAME; LDNS_RDF_TYPE_TIME; LDNS_RDF_TYPE_TIME; LDNS_RDF_TYPE_INT16; LDNS_RDF_TYPE_TSIGERROR; LDNS_RDF_TYPE_INT16_DATA; LDNS_RDF_TYPE_INT16_DATA].
Definition type_tsig_wireformat : list sldns_rdf_type := [LDNS_RDF_TYPE_DNAME; LDNS_RDF_TYPE_TSIGTIME; LDNS_RDF_TYPE_INT16; LDNS_RDF_TYPE_INT16_DATA; LDNS_RDF_TYPE_INT16; LDNS_RDF_TYPE_TSIGERROR; LDNS_RDF_TYPE_INT16_DATA].
Definition type_tlsa_wireformat : list sldns_rdf_type := [LDNS_RDF_TYPE_INT8; LDNS_RDF_TYPE_INT8; LDNS_RDF_TYPE_INT8; LDNS_RDF_TYPE_HEX].
Definition type_hip_wireformat : list sldns_rdf_type := [LDNS_RDF_TYPE_HIP].
Definition type_nid_wireformat : list sldns_rdf_type := [LDNS_RDF_TYPE_INT16; LDNS_RDF_TYPE_ILNP64].
Definition type_l32_wireformat : list sldns_rdf_type := [LDNS_RDF_TYPE_INT16; LDNS_RDF_TYPE_A].
Definition type_l64_wireformat : list sldns_rdf_type := [LDNS_RDF_TYPE_INT16; LDNS_RDF_TYPE_ILNP64].
Definition type_lp_wireformat : list sldns_rdf_type := [LDNS_RDF_TYPE_INT16; LDNS_RDF_TYPE_DNAME].
Definition type_eui48_wireformat : list sldns_rdf_type := [LDNS_RDF_TYPE_EUI48].
Definition type_eui64_wireformat : list sldns_rdf_type := [LDNS_RDF_TYPE_EUI64].
Definition type_uri_wireformat : list sldns_rdf_type := [LDNS_RDF_TYPE_INT16; LDNS_RDF_TYPE_INT16; LDNS_RDF_TYPE_LONG_STR].
Definition type_caa_wireformat : list sldns_rdf_type := [LDNS_RDF_TYPE_INT8; LDNS_RDF_TYPE_TAG; LDNS_RDF_TYPE_LONG_STR].

(** ** The table *)

(** A type that is not assigned. *)
Definition unassigned : sldns_rr_descriptor := mk_desc 0 1 1 type_0_wireformat LDNS_RDF_TYPE_NONE LDNS_RR_NO_COMPRESS 0.

Definition rdata_field_descriptors : list sldns_rr_descriptor :=
  [ mk_desc 0 0 1 type_0_wireformat LDNS_RDF_TYPE_NONE LDNS_RR_NO_COMPRESS 0;
     mk_desc LDNS_RR_TYPE_A 1 1 type_a_wireformat LDNS_RDF_TYPE_NONE LDNS_RR_NO_COMPRESS 0;
     mk_desc LDNS_RR_TYPE_NS 1 1 type_ns_wireformat LDNS_RDF_TYPE_NONE LDNS_RR_COMPRESS 1;
     mk_desc LDNS_RR_TYPE_MD 1 1 type_md_wireformat LDNS_RDF_TYPE_NONE LDNS_RR_COMPRESS 1;
     mk_desc LDNS_RR_TYPE_MF 1 1 type_mf_wireformat LDNS_RDF_TYPE_NONE LDNS_RR_COMPRESS 1;
     mk_desc LDNS_RR_TYPE_CNAME 1 1 type_cname_wireformat LDNS_RDF_TYPE_NONE LDNS_RR_COMPRESS 1;
     mk_desc LDNS_RR_TYPE_SOA 7 7 type_soa_wireformat LDNS_RDF_TYPE_NONE LDNS_RR_COMPRESS 2;
     mk_desc LDNS_RR_TYPE_MB 1 1 type_mb_wireformat LDNS_RDF_TYPE_NONE LDNS_RR_COMPRESS 1;
     mk_desc LDNS_RR_TYPE_MG 1 1 type_mg_wireformat LDNS_RDF_TYPE_NONE LDNS_RR_COMPRESS 1;
     mk_desc LDNS_RR_TYPE_MR 1 1 type_mr_wireformat LDNS_RDF_TYPE_NONE LDNS_RR_COMPRESS 1;
     mk_desc LDNS_RR_TYPE_NULL 1 1 type_0_wireformat LDNS_RDF_TYPE_NONE LDNS_RR_NO_COMPRESS 0;
     mk_desc LDNS_RR_TYPE_WKS 2 2 type_wks_wireformat LDNS_RDF_TYPE_NONE LDNS_RR_NO_COMPRESS 0;
     mk_desc LDNS_RR_TYPE_PTR 1 1 type_ptr_wireformat LDNS_RDF_TYPE_NONE LDNS_RR_COMPRESS 1;
     mk_desc LDNS_RR_TYPE_HINFO 2 2 type_hinfo_wireformat LDNS_RDF_TYPE_NONE LDNS_RR_NO_COMPRESS 0;
     mk_desc LDNS_RR_TYPE_MINFO 2 2 type_minfo_wireformat LDNS_RDF_TYPE_NONE LDNS_RR_COMPRESS 2;
     mk_desc LDNS_RR_TYPE_MX 2 2 type_mx_wireformat LDNS_RDF_TYPE_NONE LDNS_RR_COMPRESS 1;
     mk_desc LDNS_RR_TYPE_TXT 1 0 [] LDNS_RDF_TYPE_STR LDNS_RR_NO_COMPRESS 0;
     mk_desc LDNS_RR_TYPE_RP 2 2 type_rp_wireformat LDNS_RDF_TYPE_NONE LDNS_RR_NO_COMPRESS 2;
     mk_desc LDNS_RR_TYPE_AFSDB 2 2 type_afsdb_wireformat LDNS_RDF_TYPE_NONE LDNS_RR_NO_COMPRESS 1;
     mk_desc LDNS_RR_TYPE_X25 1 1 type_x25_wireformat LDNS_RDF_TYPE_NONE LDNS_RR_NO_COMPRESS 0;
     mk_desc LDNS_RR_TYPE_ISDN 1 2 type_isdn_wireformat LDNS_RDF_TYPE_NONE LDNS_RR_NO_COMPRESS 0;
     mk_desc LDNS_RR_TYPE_RT 2 2 type_rt_wireformat LDNS_RDF_TYPE_NONE LDNS_RR_NO_COMPRESS 1;
     mk_desc LDNS_RR_TYPE_NSAP 1 1 type_nsap_wireformat LDNS_RDF_TYPE_NONE LDNS_RR_NO_COMPRESS 0;
     mk_desc LDNS_RR_TYPE_NSAP_PTR 1 1 type_nsap_ptr_wireformat LDNS_RDF_TYPE_NONE LDNS_RR_NO_COMPRESS 0;
     mk_desc LDNS_RR_TYPE_SIG 9 9 type_sig_wireformat LDNS_RDF_TYPE_NONE LDNS_RR_NO_COMPRESS 1;
     mk_desc LDNS_RR_TYPE_KEY 4 4 type_key_wireformat LDNS_RDF_TYPE_NONE LDNS_RR_NO_COMPRESS 0;
     mk_desc LDNS_RR_TYPE_PX 3 3 type_px_wireformat LDNS_RDF_TYPE_NONE LDNS_RR_NO_COMPRESS 2;
     mk_desc LDNS_RR_TYPE_GPOS 3 3 type_gpos_wireformat LDNS_RDF_TYPE_NONE LDNS_RR_NO_COMPRESS 0;
     mk_desc LDNS_RR_TYPE_AAAA 1 1 type_aaaa_wireformat LDNS_RDF_TYPE_NONE LDNS_RR_NO_COMPRESS 0;
     mk_desc LDNS_RR_TYPE_LOC 1 1 type_loc_wireformat LDNS_RDF_TYPE_NONE LDNS_RR_NO_COMPRESS 0;
     mk_desc LDNS_RR_TYPE_NXT 2 2 type_nxt_wireformat LDNS_RDF_TYPE_NONE LDNS_RR_NO_COMPRESS 1;
     mk_desc LDNS_RR_TYPE_EID 1 1 type_eid_wireformat LDNS_RDF_TYPE_NONE LDNS_RR_NO_COMPRESS 0;
     mk_desc LDNS_RR_TYPE_NIMLOC 1 1 type_nimloc_wireformat LDNS_RDF_TYPE_NONE LDNS_RR_NO_COMPRESS 0;
     mk_desc LDNS_RR_TYPE_SRV 4 4 type_srv_wireformat LDNS_RDF_TYPE_NONE LDNS_RR_NO_COMPRESS 1;
     mk_desc LDNS_RR_TYPE_ATMA 1 1 type_atma_wireformat LDNS_RDF_TYPE_NONE LDNS_RR_NO_COMPRESS 0;
     mk_desc LDNS_RR_TYPE_NAPTR 6 6 type_naptr_wireformat LDNS_RDF_TYPE_NONE LDNS_RR_NO_COMPRESS 1;
     mk_desc LDNS_RR_TYPE_KX 2 2 type_kx_wireformat LDNS_RDF_TYPE_NONE LDNS_RR_NO_COMPRESS 1;
     mk_desc LDNS_RR_TYPE_CERT 4 4 type_cert_wireformat LDNS_RDF_TYPE_NONE LDNS_RR_NO_COMPRESS 0;
     mk_desc LDNS_RR_TYPE_A6 1 1 type_a6_wireformat LDNS_RDF_TYPE_NONE LDNS_RR_NO_COMPRESS 0;
     mk_desc LDNS_RR_TYPE_DNAME 1 1 type_dname_wireformat LDNS_RDF_TYPE_NONE LDNS_RR_NO_COMPRESS 1;
     mk_desc LDNS_RR_TYPE_SINK 1 1 type_sink_wireformat LDNS_RDF_TYPE_NONE LDNS_RR_NO_COMPRESS 0;
     mk_desc LDNS_RR_TYPE_OPT 1 1 type_0_wireformat LDNS_RDF_TYPE_NONE LDNS_RR_NO_COMPRESS 0;
     mk_desc LDNS_RR_TYPE_APL 0 0 type_apl_wireformat LDNS_RDF_TYPE_APL LDNS_RR_NO_COMPRESS 0;
     mk_desc LDNS_RR_TYPE_DS 4 4 type_ds_wireformat LDNS_RDF_TYPE_NONE LDNS_RR_NO_COMPRESS 0;
     mk_desc LDNS_RR_TYPE_SSHFP 3 3 type_sshfp_wireformat LDNS_RDF_TYPE_NONE LDNS_RR_NO_COMPRESS 0;
     mk_desc LDNS_RR_TYPE_IPSECKEY 1 1 type_ipseckey_wireformat LDNS_RDF_TYPE_NONE LDNS_RR_NO_COMPRESS 0;
     mk_desc LDNS_RR_TYPE_RRSIG 9 9 type_rrsig_wireformat LDNS_RDF_TYPE_NONE LDNS_RR_NO_COMPRESS 1;
     mk_desc LDNS_RR_TYPE_NSEC 1 2 type_nsec_wireformat LDNS_RDF_TYPE_NONE LDNS_RR_NO_COMPRESS 1;
     mk_desc LDNS_RR_TYPE_DNSKEY 4 4 type_dnskey_wireformat LDNS_RDF_TYPE_NONE LDNS_RR_NO_COMPRESS 0;
     mk_desc LDNS_RR_TYPE_DHCID 1 1 type_dhcid_wireformat LDNS_RDF_TYPE_NONE LDNS_RR_NO_COMPRESS 0;
     mk_desc LDNS_RR_TYPE_NSEC3 5 6 type_nsec3_wireformat LDNS_RDF_TYPE_NONE LDNS_RR_NO_COMPRESS 0;
     mk_desc LDNS_RR_TYPE_NSEC3PARAM 4 4 type_nsec3param_wireformat LDNS_RDF_TYPE_NONE LDNS_RR_NO_COMPRESS 0;
     mk_desc LDNS_RR_TYPE_TLSA 4 4 type_tlsa_wireformat LDNS_RDF_TYPE_NONE LDNS_RR_NO_COMPRESS 0;
     mk_desc LDNS_RR_TYPE_SMIMEA 4 4 type_tlsa_wireformat LDNS_RDF_TYPE_NONE LDNS_RR_NO_COMPRESS 0 ] ++
  replicate 1 unassigned ++
  [ mk_desc LDNS_RR_TYPE_HIP 1 1 type_hip_wireformat LDNS_RDF_TYPE_DNAME LDNS_RR_NO_COMPRESS 0 ] ++
  replicate 2 unassigned ++
  [ mk_desc LDNS_RR_TYPE_TALINK 2 2 type_talink_wireformat LDNS_RDF_TYPE_NONE LDNS_RR_NO_COMPRESS 2;
     mk_desc LDNS_RR_TYPE_CDS 4 4 type_ds_wireformat LDNS_RDF_TYPE_NONE LDNS_RR_NO_COMPRESS 0;
     mk_desc LDNS_RR_TYPE_CDNSKEY 4 4 type_dnskey_wireformat LDNS_RDF_TYPE_NONE LDNS_RR_NO_COMPRESS 0;
     mk_desc LDNS_RR_TYPE_OPENPGPKEY 1 1 type_openpgpkey_wireformat LDNS_RDF_TYPE_NONE LDNS_RR_NO_COMPRESS 0;
     mk_desc LDNS_RR_TYPE_CSYNC 3 3 type_csync_wireformat LDNS_RDF_TYPE_NONE LDNS_RR_NO_COMPRESS 0;
     mk_desc LDNS_RR_TYPE_ZONEMD 4 4 type_zonemd_wireformat LDNS_RDF_TYPE_NONE LDNS_RR_NO_COMPRESS 0;
     mk_desc LDNS_RR_TYPE_SVCB 2 2 type_svcb_wireformat LDNS_RDF_TYPE_SVCPARAM LDNS_RR_NO_COMPRESS 1;
     mk_desc LDNS_RR_TYPE_HTTPS 2 2 type_svcb_wireformat LDNS_RDF_TYPE_SVCPARAM LDNS_RR_NO_COMPRESS 1 ] ++
  replicate 33 unassigned ++
  [ mk_desc LDNS_RR_TYPE_SPF 1 0 [] LDNS_RDF_TYPE_STR LDNS_RR_NO_COMPRESS 0 ] ++
  replicate 4 unassigned ++
  [ mk_desc LDNS_RR_TYPE_NID 2 2 type_nid_wireformat LDNS_RDF_TYPE_NONE LDNS_RR_NO_COMPRESS 0;
     mk_desc LDNS_RR_TYPE_L32 2 2 type_l32_wireformat LDNS_RDF_TYPE_NONE LDNS_RR_NO_COMPRESS 0;
     mk_desc LDNS_RR_TYPE_L64 2 2 type_l64_wireformat LDNS_RDF_TYPE_NONE LDNS_RR_NO_COMPRESS 0;
     mk_desc LDNS_RR_TYPE_LP 2 2 type_lp_wireformat LDNS_RDF_TYPE_NONE LDNS_RR_NO_COMPRESS 1;
     mk_desc LDNS_RR_TYPE_EUI48 1 1 type_eui48_wireformat LDNS_RDF_TYPE_NONE LDNS_RR_NO_COMPRESS 0;
     mk_desc LDNS_RR_TYPE_EUI64 1 1 type_eui64_wireformat LDNS_RDF_TYPE_NONE LDNS_RR_NO_COMPRESS 0 ] ++
  replicate 139 unassigned ++
  [ mk_desc LDNS_RR_TYPE_TKEY 7 7 type_tkey_wireformat LDNS_RDF_TYPE_NONE LDNS_RR_NO_COMPRESS 1;
     mk_desc LDNS_RR_TYPE_TSIG 7 7 type_tsig_wireformat LDNS_RDF_TYPE_NONE LDNS_RR_NO_COMPRESS 1;
     mk_desc LDNS_RR_TYPE_IXFR 1 1 type_0_wireformat LDNS_RDF_TYPE_NONE LDNS_RR_NO_COMPRESS 0;
     mk_desc LDNS_RR_TYPE_AXFR 1 1 type_0_wireformat LDNS_RDF_TYPE_NONE LDNS_RR_NO_COMPRESS 0;
     mk_desc LDNS_RR_TYPE_MAILB 1 1 type_0_wireformat LDNS_RDF_TYPE_NONE LDNS_RR_NO_COMPRESS 0;
     mk_desc LDNS_RR_TYPE_MAILA 1 1 type_0_wireformat LDNS_RDF_TYPE_NONE LDNS_RR_NO_COMPRESS 0;
     mk_desc LDNS_RR_TYPE_ANY 1 1 type_0_wireformat LDNS_RDF_TYPE_NONE LDNS_RR_NO_COMPRESS 0;
     mk_desc LDNS_RR_TYPE_URI 3 3 type_uri_wireformat LDNS_RDF_TYPE_NONE LDNS_RR_NO_COMPRESS 0;
     mk_desc LDNS_RR_TYPE_CAA 3 3 type_caa_wireformat LDNS_RDF_TYPE_NONE LDNS_RR_NO_COMPRESS 0 ] ++
  replicate 2 unassigned ++
  [ mk_desc LDNS_RR_TYPE_DLV 4 4 type_ds_wireformat LDNS_RDF_TYPE_NONE LDNS_RR_NO_COMPRESS 0 ].

Definition LDNS_RDATA_FIELD_DESCRIPTORS_COMMON : Z := 259.
Definition LDNS_RDATA_FIELD_DESCRIPTORS_COUNT : Z := zlen rdata_field_descriptors.

(** The search in the rest of the table. *)
Fixpoint descript_loop (l : list sldns_rr_descriptor) (type : Z) : option sldns_rr_descriptor :=
  match l with
  | [] => None
  | d :: l' => if d.(_type) =? type then Some d else descript_loop l' type
  end.

Definition sldns_rr_descript (type : Z) : option sldns_rr_descriptor :=
  if type <? LDNS_RDATA_FIELD_DESCRIPTORS_COMMON then rdata_field_descriptors !! Z.to_nat type
  else
    match descript_loop (zdrop LDNS_RDATA_FIELD_DESCRIPTORS_COMMON rdata_field_descriptors) type with
    | Some d => Some d
    | None => rdata_field_descriptors !! 0%nat
    end.

Definition sldns_rr_descriptor_minimum (descriptor : option sldns_rr_descriptor) : Z :=
  match descriptor with Some d => d.(_minimum) | None => 0 end.

Definition sldns_rr_descriptor_maximum (descriptor : option sldns_rr_descriptor) : Z :=
  match descriptor with
  | Some d => if decide (d.(_variable) <> LDNS_RDF_TYPE_NONE) then 65535 else d.(_maximum)
  | None => 0
  end.

Definition sldns_rr_descriptor_field_type (descriptor : option sldns_rr_descriptor) (index : Z) : outcome sldns_rdf_type :=
  match descriptor with
  | None => Fault Assertion
  | Some d =>
      check! ((index <? d.(_maximum)) || bool_decide (d.(_variable) <> LDNS_RDF_TYPE_NONE));
      if index <? d.(_maximum) then
        match d.(_wireformat) !! Z.to_nat index with Some t => Ok t | None => Fault Undefined end
      else Ok d.(_variable)
  end.
