(* ===== verification/Msgparse.v ===== *)
(** * Parsing packets (util/data/msgparse.c)

    [parse_packet] turns a packet into RRsets with their RRs and signatures: structures
    in a region, linked by pointers, that point into the packet.  A pointer into the
    packet is the offset from the start of its block.  A class and an id are the two
    bytes that were read; a type is in host order.  [le] says whether the machine is
    little-endian, [raninit] and [addr] are as in [Lookup3]. *)

From S2P Require Import Prelude Sbuffer Lookup3 Dname DnamePkt RrDef.

Abbreviation addr := positive.
Abbreviation ptr := (option positive).

Inductive sldns_pkt_section :=
  | LDNS_SECTION_QUESTION | LDNS_SECTION_ANSWER | LDNS_SECTION_AUTHORITY
  | LDNS_SECTION_ADDITIONAL | LDNS_SECTION_ANY | LDNS_SECTION_ANY_NOQUESTION.

#[global] Instance sldns_pkt_section_eq_dec : EqDecision sldns_pkt_section.
Proof. solve_decision. Defined.

Definition PARSE_TABLE_SIZE : Z := 32.
Definition LDNS_HEADER_SIZE : Z := 12.
Definition LDNS_RCODE_NOERROR : Z := 0.
Definition LDNS_RCODE_FORMERR : Z := 1.
Definition LDNS_RCODE_SERVFAIL : Z := 2.
Definition PACKED_RRSET_NSEC_AT_APEX : Z := 1.
Definition PACKED_RRSET_SOA_NEG : Z := 4.

Record rr_parse := mk_rr {
  r_ttl_data : Z;
  r_outside_packet : bool;
  r_size : Z;
  r_next : ptr;
}.

Record rrset_parse := mk_rrset {
  s_bucket_next : ptr;
  s_all_next : ptr;
  s_hash : Z;
  s_section : sldns_pkt_section;
  s_dname : Z;
  s_dname_len : Z;
  s_type : Z;
  s_class : list Z;
  s_flags : Z;
  s_rr_count : Z;
  s_size : Z;
  s_rr_first : ptr;
  s_rr_last : ptr;
  s_rrsig_count : Z;
  s_rrsig_first : ptr;
  s_rrsig_last : ptr;
}.

Record msg_parse := mk_msg {
  m_id : list Z;
  m_flags : Z;
  m_qdcount : Z;
  m_ancount : Z;
  m_nscount : Z;
  m_arcount : Z;
  m_an_rrsets : Z;
  m_ns_rrsets : Z;
  m_ar_rrsets : Z;
  m_rrset_count : Z;
  m_qname : option Z;
  m_qname_len : Z;
  m_qtype : Z;
  m_qclass : Z;
  m_hashtable : list ptr;
  m_rrset_first : ptr;
  m_rrset_last : ptr;
}.

(** The structure after [memset(msg, 0, sizeof( *msg))]. *)
Definition msg_zero : msg_parse :=
  mk_msg [0; 0] 0 0 0 0 0 0 0 0 0 None 0 0 0 (replicate (Z.to_nat PARSE_TABLE_SIZE) None) None None.

Record world := mk_world {
  pkt : sldns_buffer;
  msg : msg_parse;
  rrsets : gmap addr rrset_parse;
  rrs : gmap addr rr_parse;
  memory : mem;
}.

(** ** Fields *)

Definition with_next x (r : rr_parse) := mk_rr r.(r_ttl_data) r.(r_outside_packet) r.(r_size) x.
Definition with_rr_size x (r : rr_parse) := mk_rr r.(r_ttl_data) r.(r_outside_packet) x r.(r_next).

Definition with_bucket_next x (s : rrset_parse) := mk_rrset x s.(s_all_next) s.(s_hash) s.(s_section) s.(s_dname) s.(s_dname_len) s.(s_type) s.(s_class) s.(s_flags) s.(s_rr_count) s.(s_size) s.(s_rr_first) s.(s_rr_last) s.(s_rrsig_count) s.(s_rrsig_first) s.(s_rrsig_last).
Definition with_all_next x (s : rrset_parse) := mk_rrset s.(s_bucket_next) x s.(s_hash) s.(s_section) s.(s_dname) s.(s_dname_len) s.(s_type) s.(s_class) s.(s_flags) s.(s_rr_count) s.(s_size) s.(s_rr_first) s.(s_rr_last) s.(s_rrsig_count) s.(s_rrsig_first) s.(s_rrsig_last).
Definition with_hash x (s : rrset_parse) := mk_rrset s.(s_bucket_next) s.(s_all_next) x s.(s_section) s.(s_dname) s.(s_dname_len) s.(s_type) s.(s_class) s.(s_flags) s.(s_rr_count) s.(s_size) s.(s_rr_first) s.(s_rr_last) s.(s_rrsig_count) s.(s_rrsig_first) s.(s_rrsig_last).
Definition with_section x (s : rrset_parse) := mk_rrset s.(s_bucket_next) s.(s_all_next) s.(s_hash) x s.(s_dname) s.(s_dname_len) s.(s_type) s.(s_class) s.(s_flags) s.(s_rr_count) s.(s_size) s.(s_rr_first) s.(s_rr_last) s.(s_rrsig_count) s.(s_rrsig_first) s.(s_rrsig_last).
Definition with_type x (s : rrset_parse) := mk_rrset s.(s_bucket_next) s.(s_all_next) s.(s_hash) s.(s_section) s.(s_dname) s.(s_dname_len) x s.(s_class) s.(s_flags) s.(s_rr_count) s.(s_size) s.(s_rr_first) s.(s_rr_last) s.(s_rrsig_count) s.(s_rrsig_first) s.(s_rrsig_last).
Definition with_flags x (s : rrset_parse) := mk_rrset s.(s_bucket_next) s.(s_all_next) s.(s_hash) s.(s_section) s.(s_dname) s.(s_dname_len) s.(s_type) s.(s_class) x s.(s_rr_count) s.(s_size) s.(s_rr_first) s.(s_rr_last) s.(s_rrsig_count) s.(s_rrsig_first) s.(s_rrsig_last).
Definition with_size x (s : rrset_parse) := mk_rrset s.(s_bucket_next) s.(s_all_next) s.(s_hash) s.(s_section) s.(s_dname) s.(s_dname_len) s.(s_type) s.(s_class) s.(s_flags) s.(s_rr_count) x s.(s_rr_first) s.(s_rr_last) s.(s_rrsig_count) s.(s_rrsig_first) s.(s_rrsig_last).
(** The list of the RRs: its number, first and last. *)
Definition with_rrs n f l (s : rrset_parse) := mk_rrset s.(s_bucket_next) s.(s_all_next) s.(s_hash) s.(s_section) s.(s_dname) s.(s_dname_len) s.(s_type) s.(s_class) s.(s_flags) n s.(s_size) f l s.(s_rrsig_count) s.(s_rrsig_first) s.(s_rrsig_last).
(** The list of the signatures: its number, first and last. *)
Definition with_sigs n f l (s : rrset_parse) := mk_rrset s.(s_bucket_next) s.(s_all_next) s.(s_hash) s.(s_section) s.(s_dname) s.(s_dname_len) s.(s_type) s.(s_class) s.(s_flags) s.(s_rr_count) s.(s_size) s.(s_rr_first) s.(s_rr_last) n f l.

Definition with_header i f qd an ns ar (m : msg_parse) := mk_msg i f qd an ns ar m.(m_an_rrsets) m.(m_ns_rrsets) m.(m_ar_rrsets) m.(m_rrset_count) m.(m_qname) m.(m_qname_len) m.(m_qtype) m.(m_qclass) m.(m_hashtable) m.(m_rrset_first) m.(m_rrset_last).
Definition with_counts an ns ar n (m : msg_parse) := mk_msg m.(m_id) m.(m_flags) m.(m_qdcount) m.(m_ancount) m.(m_nscount) m.(m_arcount) an ns ar n m.(m_qname) m.(m_qname_len) m.(m_qtype) m.(m_qclass) m.(m_hashtable) m.(m_rrset_first) m.(m_rrset_last).
Definition with_query q l t c (m : msg_parse) := mk_msg m.(m_id) m.(m_flags) m.(m_qdcount) m.(m_ancount) m.(m_nscount) m.(m_arcount) m.(m_an_rrsets) m.(m_ns_rrsets) m.(m_ar_rrsets) m.(m_rrset_count) q l t c m.(m_hashtable) m.(m_rrset_first) m.(m_rrset_last).
Definition with_table x (m : msg_parse) := mk_msg m.(m_id) m.(m_flags) m.(m_qdcount) m.(m_ancount) m.(m_nscount) m.(m_arcount) m.(m_an_rrsets) m.(m_ns_rrsets) m.(m_ar_rrsets) m.(m_rrset_count) m.(m_qname) m.(m_qname_len) m.(m_qtype) m.(m_qclass) x m.(m_rrset_first) m.(m_rrset_last).
Definition with_list f l (m : msg_parse) := mk_msg m.(m_id) m.(m_flags) m.(m_qdcount) m.(m_ancount) m.(m_nscount) m.(m_arcount) m.(m_an_rrsets) m.(m_ns_rrsets) m.(m_ar_rrsets) m.(m_rrset_count) m.(m_qname) m.(m_qname_len) m.(m_qtype) m.(m_qclass) m.(m_hashtable) f l.

(** ** The packet: reads move its position *)

Abbreviation P := (ST sldns_buffer).

Definition ask {A} (f : sldns_buffer -> outcome A) : P A := fun b =>
  match f b with Ok a => Ok (a, b) | Fault f => Fault f | OutOfFuel => OutOfFuel end.
Definition p_position : P Z := ask (fun b => Ok (sldns_buffer_position b)).
Definition p_remaining : P Z := ask sldns_buffer_remaining.
Definition p_set_position (mark : Z) : P unit := fun b => b' ← sldns_buffer_set_position b mark; Ok (tt, b').
Definition p_skip (count : Z) : P unit := fun b => b' ← sldns_buffer_skip b count; Ok (tt, b').
Definition p_read_u8 : P Z := sldns_buffer_read_u8.
Definition p_read_u16 : P Z := sldns_buffer_read_u16.
Definition p_read (count : Z) : P (list Z) := fun b => sldns_buffer_read b count.
Definition p_dname_len : P Z := pkt_dname_len.
(** The pointer to the position. *)
Definition p_current : P Z := ask (fun b => _ ← sldns_buffer_current b; Ok (sldns_buffer_position b)).

(** The pointer to the byte at offset [o] of the block. *)
Definition ptr_at (pkt : sldns_buffer) (o : Z) : outcome (list Z) := d ← the_data pkt; advance o d.

(** [dprfirst] and [dprlast] may be NULL. *)
Definition smart_compare (pkt : sldns_buffer) (dnow : Z) (dprfirst dprlast : option Z) : outcome Z :=
  match dprlast with
  | None => Fault Undefined
  | Some dprlast =>
      pn ← ptr_at pkt dnow;
      pl ← ptr_at pkt dprlast;
      x ← deref pn;
      if LABEL_IS_PTR x then
        y ← index pn 1;
        if sldns_buffer_limit pkt <=? PTR_OFFSET x y then Ok (-1) else
        _ ← sldns_buffer_at pkt (PTR_OFFSET x y);
        let p := PTR_OFFSET x y in
        if bool_decide (dprfirst = Some p) || (p =? dprlast) then Ok 0 else
        z ← deref pl;
        same ← (if LABEL_IS_PTR z && (z =? x) then y' ← index pl 1; Ok (y' =? y) else Ok false);
        if same : bool then Ok 0 else dname_pkt_compare pkt pn pl
      else dname_pkt_compare pkt pn pl
  end.

Definition nsec_at_apex : P bool :=
  pos ← p_position;
  rem ← p_remaining;
  if rem <? 7 then mret false else
  p_skip 4;;
  rdatalen ← p_read_u16;
  rem ← p_remaining;
  if rem <? rdatalen then p_set_position pos;; mret false else
  n ← p_dname_len;
  if n =? 0 then p_set_position pos;; mret false else
  here ← p_position;
  if here <? pos + 4 + rdatalen then
    if pos + 4 + rdatalen <? here + 3 then p_set_position pos;; mret false else
    win ← p_read_u8;
    blen ← p_read_u8;
    bits ← p_read_u8;
    p_set_position pos;;
    mret ((win =? 0) && (1 <=? blen) && negb (Z.land bits 2 =? 0))
  else
  p_set_position pos;; mret false.

Definition pkt_rrset_flags (type : Z) (sec : sldns_pkt_section) : P Z :=
  apex ← (if type =? LDNS_RR_TYPE_NSEC then nsec_at_apex else mret false : P bool);
  mret (if apex : bool then PACKED_RRSET_NSEC_AT_APEX
        else if (type =? LDNS_RR_TYPE_SOA) && bool_decide (sec = LDNS_SECTION_AUTHORITY)
        then PACKED_RRSET_SOA_NEG else 0).

(** The type covered by the RRSIG whose TTL is at [here]; [None]: it returns 0. *)
Definition pkt_rrsig_covered (here : Z) : P (option Z) :=
  pos ← p_position;
  ask sldns_buffer_begin;;
  p_set_position here;;
  rem ← p_remaining;
  if rem <? 4 + 2 + 19 then mret None else
  p_skip 4;;
  rdlen ← p_read_u16;
  if rdlen <? 19 then p_set_position pos;; mret None else
  type ← p_read_u16;
  p_set_position pos;;
  mret (Some type).

Definition pkt_rrsig_covered_equals (here type : Z) : P bool :=
  t ← pkt_rrsig_covered here;
  mret (match t with Some t => t =? type | None => false end).

(** *** Hashing *)

Section Hash.
Context (le : bool) (raninit addr : Z).

(** An integer as it lies in memory. *)
Definition host_bytes (n : nat) (x : Z) : list Z :=
  let l := map (fun i => Z.land (Z.shiftr x (8 * Z.of_nat i)) 255) (seq 0 n) in
  if le then l else rev l.

Definition pkt_hash_rrset_first (pkt : sldns_buffer) (dname : Z) : outcome Z :=
  p ← ptr_at pkt dname; dname_pkt_hash le raninit addr pkt p 171.

Definition pkt_hash_rrset_rest (dname_h type : Z) (dclass : list Z) (rrset_flags : Z) : outcome Z :=
  h ← hashlittle le raninit addr (host_bytes 2 type) 2 dname_h;
  h ← hashlittle le raninit addr dclass 2 h;
  hashlittle le raninit addr (host_bytes 4 rrset_flags) 4 h.

Definition pkt_hash_rrset (pkt : sldns_buffer) (dname type : Z) (dclass : list Z) (rrset_flags : Z) : outcome Z :=
  p ← ptr_at pkt dname;
  h ← dname_pkt_hash le raninit addr pkt p 171;
  h ← hashlittle le raninit addr (host_bytes 2 type) 2 h;
  h ← hashlittle le raninit addr dclass 2 h;
  hashlittle le raninit addr (host_bytes 4 rrset_flags) 4 h.
End Hash.

(** *** Sizes *)

Definition get_rdf_size (rdf : sldns_rdf_type) : outcome Z :=
  match rdf with
  | LDNS_RDF_TYPE_CLASS | LDNS_RDF_TYPE_ALG | LDNS_RDF_TYPE_INT8 => Ok 1
  | LDNS_RDF_TYPE_INT16 | LDNS_RDF_TYPE_TYPE | LDNS_RDF_TYPE_CERT_ALG => Ok 2
  | LDNS_RDF_TYPE_INT32 | LDNS_RDF_TYPE_TIME | LDNS_RDF_TYPE_A | LDNS_RDF_TYPE_PERIOD => Ok 4
  | LDNS_RDF_TYPE_TSIGTIME => Ok 6
  | LDNS_RDF_TYPE_AAAA => Ok 16
  | _ => Fault Assertion
  end.

(** The loop over the fields up to the last domain name; [rdfs] are the descriptor's
    fields from [rdf] on.  The result: [None] for a return of 0, or what is left of
    [pkt_len]; and [rr->size]. *)
Fixpoint calc_size_loop (rdfs : list sldns_rdf_type) (pkt_len count size : Z) : P (option Z * Z) :=
  if negb ((0 <? pkt_len) && negb (count =? 0)) then mret (Some pkt_len, size) else
  match rdfs with
  | [] => fun _ => Fault Undefined
  | rdf :: rdfs' =>
      match rdf with
      | LDNS_RDF_TYPE_DNAME =>
          oldpos ← p_position;
          len ← p_dname_len;
          if len =? 0 then mret (None, size) else
          pos ← p_position;
          if pkt_len <? u64 (pos - oldpos) then mret (None, size) else
          calc_size_loop rdfs' (u16 (pkt_len - (pos - oldpos))) (count - 1) (u64 (size + len))
      | _ =>
          len ← ask (fun b => if decide (rdf = LDNS_RDF_TYPE_STR)
                              then p ← sldns_buffer_current b; x ← deref p; Ok (x + 1)
                              else get_rdf_size rdf);
          if len =? 0 then calc_size_loop rdfs' pkt_len count size else
          if pkt_len <? len then mret (None, size) else
          p_skip len;;
          calc_size_loop rdfs' (u16 (pkt_len - len)) count (u64 (size + len))
      end
  end.

(** The returned value, and [rr->size]. *)
Definition calc_size (type : Z) : P (bool * Z) :=
  let size := 2 in
  p_skip 4;;
  pkt_len ← p_read_u16;
  rem ← p_remaining;
  if rem <? pkt_len then mret (false, size) else
  '(rest, size) ← (match sldns_rr_descript type with
                   | Some desc =>
                       if (0 <? pkt_len) && (0 <? desc.(_dname_count))
                       then calc_size_loop desc.(_wireformat) pkt_len desc.(_dname_count) size
                       else mret (Some pkt_len, size)
                   | None => mret (Some pkt_len, size)
                   end : P (option Z * Z));
  match rest with
  | None => mret (false, size)
  | Some pkt_len => p_skip pkt_len;; mret (true, u64 (size + pkt_len))
  end.

Definition skip_ttl_rdata : P bool :=
  rem ← p_remaining;
  if rem <? 6 then mret false else
  p_skip 4;;
  rdatalen ← p_read_u16;
  rem ← p_remaining;
  if rem <? rdatalen then mret false else
  p_skip rdatalen;; mret true.

Definition skip_pkt_rr : P bool :=
  rem ← p_remaining;
  if rem <? 1 then mret false else
  n ← p_dname_len;
  if n =? 0 then mret false else
  rem ← p_remaining;
  if rem <? 4 then mret false else
  p_skip 4;;
  skip_ttl_rdata.

Fixpoint skip_pkt_rrs (num : nat) : P bool :=
  match num with
  | O => mret true
  | S num' => ok ← skip_pkt_rr; if ok : bool then skip_pkt_rrs num' else mret false
  end.

(** ** The structures *)

Abbreviation W := (ST world).

Definition upd_pkt x w := mk_world x w.(msg) w.(rrsets) w.(rrs) w.(memory).
Definition upd_msg f w := mk_world w.(pkt) (f w.(msg)) w.(rrsets) w.(rrs) w.(memory).
Definition upd_rrsets f w := mk_world w.(pkt) w.(msg) (f w.(rrsets)) w.(rrs) w.(memory).
Definition upd_rrs f w := mk_world w.(pkt) w.(msg) w.(rrsets) (f w.(rrs)) w.(memory).
Definition upd_memory x w := mk_world w.(pkt) w.(msg) w.(rrsets) w.(rrs) x.

Definition fault {A} : W A := fun _ => Fault Undefined.
Definition assert_fails {A} : W A := fun _ => Fault Assertion.
Definition out_of_fuel {A} : W A := fun _ => OutOfFuel.
Definition assert_ (b : bool) : W unit := if b then mret tt else assert_fails.
Definition on_pkt {A} (f : P A) : W A := fun w =>
  match f w.(pkt) with Ok (a, b) => Ok (a, upd_pkt b w) | Fault f => Fault f | OutOfFuel => OutOfFuel end.
Definition get_msg : W msg_parse := fun w => Ok (w.(msg), w).
Definition set_msg (f : msg_parse -> msg_parse) : W unit := fun w => Ok (tt, upd_msg f w).
Definition load (a : addr) : W rrset_parse := fun w =>
  match w.(rrsets) !! a with Some s => Ok (s, w) | None => Fault Undefined end.
Definition modify (a : addr) (f : rrset_parse -> rrset_parse) : W unit := fun w =>
  match w.(rrsets) !! a with Some s => Ok (tt, upd_rrsets <[a := f s]> w) | None => Fault Undefined end.
Definition load_rr (a : addr) : W rr_parse := fun w =>
  match w.(rrs) !! a with Some r => Ok (r, w) | None => Fault Undefined end.
Definition modify_rr (a : addr) (f : rr_parse -> rr_parse) : W unit := fun w =>
  match w.(rrs) !! a with Some r => Ok (tt, upd_rrs <[a := f r]> w) | None => Fault Undefined end.
(** The next answer of [regional_alloc]. *)
Definition alloc : W bool := fun w => let '(ok, m) := malloc w.(memory) in Ok (ok, upd_memory m w).
Definition new_rrset_at (s : rrset_parse) : W addr := fun w =>
  let a := fresh (dom w.(rrsets)) in Ok (a, upd_rrsets <[a := s]> w).
Definition new_rr (r : rr_parse) : W addr := fun w =>
  let a := fresh (dom w.(rrs)) in Ok (a, upd_rrs <[a := r]> w).

(** [msg->hashtable[hash & (PARSE_TABLE_SIZE-1)]] *)
Definition bucket_of (hash : Z) : Z := Z.land hash (PARSE_TABLE_SIZE - 1).
Definition get_bucket (hash : Z) : W ptr := fun w =>
  match w.(msg).(m_hashtable) !! Z.to_nat (bucket_of hash) with Some p => Ok (p, w) | None => Fault Undefined end.
Definition set_bucket (hash : Z) (p : ptr) : W unit :=
  set_msg (fun m => with_table (<[Z.to_nat (bucket_of hash) := p]> m.(m_hashtable)) m).

(** The fuel of a loop: the number of RRsets, or of RRs. *)
Definition with_fuel {A} (f : world -> nat) (k : nat -> W A) : W A := fun w => k (f w) w.
Definition sets_fuel (w : world) : nat := S (size w.(rrsets)).
Definition rrs_fuel (w : world) : nat := S (size w.(rrs)).

(** The last of the list of all RRsets gets [x] as next, or [x] becomes the first. *)
Definition append_rrset (x : addr) : W unit :=
  m ← get_msg;
  match m.(m_rrset_last) with
  | Some l => modify l (with_all_next (Some x));; set_msg (fun m => with_list m.(m_rrset_first) (Some x) m)
  | None => set_msg (with_list (Some x) (Some x))
  end.

Definition new_rrset (dname dnamelen type : Z) (dclass : list Z) (hash rrset_flags : Z)
    (section : sldns_pkt_section) : W (option addr) :=
  ok ← alloc;
  if negb ok then mret None else
  next ← get_bucket hash;
  p ← new_rrset_at (mk_rrset next None hash section dname dnamelen type dclass rrset_flags 0 0 None None 0 None None);
  set_bucket hash (Some p);;
  append_rrset p;;
  mret (Some p).

(** [k] is added to the number of RRsets of a section. *)
Definition add_rrsets (section : sldns_pkt_section) (k : Z) (m : msg_parse) : msg_parse :=
  match section with
  | LDNS_SECTION_ANSWER => with_counts (u64 (m.(m_an_rrsets) + k)) m.(m_ns_rrsets) m.(m_ar_rrsets) m.(m_rrset_count) m
  | LDNS_SECTION_AUTHORITY => with_counts m.(m_an_rrsets) (u64 (m.(m_ns_rrsets) + k)) m.(m_ar_rrsets) m.(m_rrset_count) m
  | LDNS_SECTION_ADDITIONAL => with_counts m.(m_an_rrsets) m.(m_ns_rrsets) (u64 (m.(m_ar_rrsets) + k)) m.(m_rrset_count) m
  | _ => m
  end.

Definition incr_rrsets (section : sldns_pkt_section) (k : Z) : W unit :=
  match section with
  | LDNS_SECTION_ANSWER | LDNS_SECTION_AUTHORITY | LDNS_SECTION_ADDITIONAL => set_msg (add_rrsets section k)
  | _ => assert_fails
  end.

Definition rrset_parse_equals (p : addr) (h rrset_flags dname dnamelen type : Z) (dclass : list Z) : W bool :=
  s ← load p;
  if (s.(s_hash) =? h) && (s.(s_dname_len) =? dnamelen) && (s.(s_type) =? type) &&
     bool_decide (s.(s_class) = dclass) && (s.(s_flags) =? rrset_flags) then
    c ← on_pkt (ask (fun b => p1 ← ptr_at b dname; p2 ← ptr_at b s.(s_dname); dname_pkt_compare b p1 p2));
    mret (c =? 0)
  else mret false.

Fixpoint lookup_loop (fuel : nat) (p : ptr) (h rrset_flags dname dnamelen type : Z) (dclass : list Z) : W ptr :=
  match p with
  | None => mret None
  | Some a =>
      match fuel with
      | O => out_of_fuel
      | S fuel' =>
          eq ← rrset_parse_equals a h rrset_flags dname dnamelen type dclass;
          if eq : bool then mret (Some a) else
          s ← load a;
          lookup_loop fuel' s.(s_bucket_next) h rrset_flags dname dnamelen type dclass
      end
  end.

Definition msgparse_hashtable_lookup (h rrset_flags dname dnamelen type : Z) (dclass : list Z) : W ptr :=
  p ← get_bucket h;
  with_fuel sets_fuel (fun k => lookup_loop k p h rrset_flags dname dnamelen type dclass).

(** [prev] is the RRset whose [rrset_bucket_next] leads to [p]; [None]: the table does. *)
Fixpoint bucket_remove_loop (fuel : nat) (prev p : ptr) (rrset : addr) : W unit :=
  match p with
  | None => mret tt
  | Some a =>
      match fuel with
      | O => out_of_fuel
      | S fuel' =>
          s ← load a;
          if decide (a = rrset) then
            match prev with
            | None => r ← load rrset; set_bucket r.(s_hash) s.(s_bucket_next)
            | Some b => modify b (with_bucket_next s.(s_bucket_next))
            end
          else bucket_remove_loop fuel' (Some a) s.(s_bucket_next) rrset
      end
  end.

Definition msgparse_bucket_remove (rrset : addr) : W unit :=
  s ← load rrset;
  p ← get_bucket s.(s_hash);
  with_fuel sets_fuel (fun k => bucket_remove_loop k None p rrset).

Fixpoint unlink_loop (fuel : nat) (prev p : ptr) (rrset : addr) : W unit :=
  match p with
  | None => mret tt
  | Some a =>
      match fuel with
      | O => out_of_fuel
      | S fuel' =>
          s ← load a;
          if decide (a = rrset) then
            match prev with
            | Some b => modify b (with_all_next s.(s_all_next))
            | None => set_msg (fun m => with_list s.(s_all_next) m.(m_rrset_last) m)
            end;;
            m ← get_msg;
            if decide (m.(m_rrset_last) = Some rrset)
            then set_msg (fun m => with_list m.(m_rrset_first) prev m) else mret tt
          else unlink_loop fuel' (Some a) s.(s_all_next) rrset
      end
  end.

Definition change_section (rrset : addr) (section : sldns_pkt_section) : W unit :=
  s ← load rrset;
  if decide (section = s.(s_section)) then mret tt else
  m ← get_msg;
  with_fuel sets_fuel (fun k => unlink_loop k None m.(m_rrset_first) rrset);;
  incr_rrsets s.(s_section) (-1);;
  modify rrset (with_all_next None);;
  append_rrset rrset;;
  match section with
  | LDNS_SECTION_AUTHORITY | LDNS_SECTION_ADDITIONAL => incr_rrsets section 1
  | _ => assert_fails
  end;;
  modify rrset (with_section section).

(** ** Signatures *)

Fixpoint has_sigover_loop (fuel : nat) (rr : ptr) (type : Z) (res hasother : bool) : W (bool * bool) :=
  match rr with
  | None => mret (res, hasother)
  | Some a =>
      match fuel with
      | O => out_of_fuel
      | S fuel' =>
          r ← load_rr a;
          c ← on_pkt (pkt_rrsig_covered_equals r.(r_ttl_data) type);
          has_sigover_loop fuel' r.(r_next) type (res || c) (hasother || negb c)
      end
  end.

(** The returned value, and [*hasother]. *)
Definition rrset_has_sigover (rrset : addr) (type : Z) (hasother : bool) : W (bool * bool) :=
  s ← load rrset;
  assert_ (s.(s_type) =? LDNS_RR_TYPE_RRSIG);;
  with_fuel rrs_fuel (fun k => has_sigover_loop k s.(s_rr_first) type false hasother).

(** [sig] is taken out of the list of [sigset], where [prev] is before it: statements
    that [moveover_rrsigs] and [msgparse_rrset_remove_rr] share. *)
Definition unlink_rr (sigset : addr) (prev : ptr) (sig : addr) : W unit :=
  r ← load_rr sig;
  match prev with
  | Some b => modify_rr b (with_next r.(r_next))
  | None => modify sigset (fun s => with_rrs s.(s_rr_count) r.(r_next) s.(s_rr_last) s)
  end;;
  s ← load sigset;
  (if decide (s.(s_rr_last) = Some sig)
   then modify sigset (fun s => with_rrs s.(s_rr_count) s.(s_rr_first) prev s) else mret tt);;
  modify sigset (fun s => with_rrs (u64 (s.(s_rr_count) - 1)) s.(s_rr_first) s.(s_rr_last) s);;
  modify sigset (fun s => with_size (u64 (s.(s_size) - r.(r_size))) s).

(** [x] becomes the last signature. *)
Definition append_sig (dataset x : addr) : W unit :=
  s ← load dataset;
  match s.(s_rrsig_last) with
  | Some l => modify_rr l (with_next (Some x));; modify dataset (fun s => with_sigs s.(s_rrsig_count) s.(s_rrsig_first) (Some x) s)
  | None => modify dataset (fun s => with_sigs s.(s_rrsig_count) (Some x) (Some x) s)
  end.

(** [insert] becomes the last signature of [dataset]: the second half of the round. *)
Definition insert_sig (dataset insert : addr) : W unit :=
  modify dataset (fun s => with_sigs (u64 (s.(s_rrsig_count) + 1)) s.(s_rrsig_first) s.(s_rrsig_last) s);;
  modify_rr insert (with_next None);;
  append_sig dataset insert;;
  r ← load_rr insert;
  modify dataset (fun s => with_size (u64 (s.(s_size) + r.(r_size))) s).

Fixpoint moveover_loop (fuel : nat) (prev sig : ptr) (sigset dataset : addr) (duplicate : bool) : W bool :=
  match sig with
  | None => mret true
  | Some a =>
      match fuel with
      | O => out_of_fuel
      | S fuel' =>
          r ← load_rr a;
          let nextsig := r.(r_next) in
          ds ← load dataset;
          c ← on_pkt (pkt_rrsig_covered_equals r.(r_ttl_data) ds.(s_type));
          if c : bool then
            insert ← (if duplicate then
                        ok ← alloc;
                        if negb ok then mret None else
                        i ← new_rr (mk_rr r.(r_ttl_data) false r.(r_size) None); mret (Some i)
                      else unlink_rr sigset prev a;; mret (Some a) : W ptr);
            match insert with
            | None => mret false
            | Some i =>
                insert_sig dataset i;;
                moveover_loop fuel' prev nextsig sigset dataset duplicate
            end
          else moveover_loop fuel' (Some a) nextsig sigset dataset duplicate
      end
  end.

Definition moveover_rrsigs (sigset dataset : addr) (duplicate : bool) : W bool :=
  s ← load sigset;
  with_fuel rrs_fuel (fun k => moveover_loop k None s.(s_rr_first) sigset dataset duplicate).

(** The changeover of an RRset of signatures: to the bucket of its new hash, *)
Definition rebucket (dataset : addr) (hash : Z) : W unit :=
  msgparse_bucket_remove dataset;;
  next ← get_bucket hash;
  modify dataset (with_bucket_next next);;
  set_bucket hash (Some dataset);;
  modify dataset (with_hash hash).

(** and to its new type, with its RRs as signatures. *)
Definition retype (dataset : addr) (datatype rrset_flags : Z) : W unit :=
  modify dataset (with_type datatype);;
  modify dataset (with_flags rrset_flags);;
  modify dataset (fun s => with_sigs (u64 (s.(s_rrsig_count) + s.(s_rr_count))) s.(s_rrsig_first) s.(s_rrsig_last) s);;
  modify dataset (fun s => with_rrs 0 s.(s_rr_first) s.(s_rr_last) s);;
  s ← load dataset;
  match s.(s_rrsig_last) with
  | Some l => modify_rr l (with_next s.(s_rr_first))
  | None => modify dataset (fun s => with_sigs s.(s_rrsig_count) s.(s_rr_first) s.(s_rrsig_last) s)
  end;;
  modify dataset (fun s => with_sigs s.(s_rrsig_count) s.(s_rrsig_first) s.(s_rr_last) s);;
  modify dataset (fun s => with_rrs s.(s_rr_count) None None s).

Section Parser.
Context (le : bool) (raninit addr_ : Z).

Definition change_rrsig_rrset (sigset : addr) (datatype rrset_flags : Z) (hasother : bool)
    (section : sldns_pkt_section) : W (option addr) :=
  s ← load sigset;
  hash ← on_pkt (ask (fun b => pkt_hash_rrset le raninit addr_ b s.(s_dname) datatype s.(s_class) rrset_flags));
  assert_ (s.(s_type) =? LDNS_RR_TYPE_RRSIG);;
  assert_ (negb (datatype =? LDNS_RR_TYPE_RRSIG));;
  if hasother then
    p ← new_rrset s.(s_dname) s.(s_dname_len) datatype s.(s_class) hash rrset_flags section;
    match p with
    | None => mret None
    | Some dataset =>
        incr_rrsets section 1;;
        m ← get_msg;
        ok ← moveover_rrsigs sigset dataset
               ((m.(m_qtype) =? LDNS_RR_TYPE_RRSIG) ||
                ((m.(m_qtype) =? LDNS_RR_TYPE_ANY) && bool_decide (section <> LDNS_SECTION_ANSWER)));
        mret (if ok : bool then Some dataset else None)
    end
  else
    let dataset := sigset in
    rebucket dataset hash;;
    change_section dataset section;;
    retype dataset datatype rrset_flags;;
    mret (Some dataset).

(** The variables of [parse_section] that [find_rrset] reads and writes. *)
Record prev_rr := mk_prev {
  v_hash : Z;
  v_flags : Z;
  v_dname_first : option Z;
  v_dname_last : option Z;
  v_dnamelen : Z;
  v_type : Z;
  v_dclass : list Z;
  v_rrset : option addr;
}.

(** Look for the RRset covered by a signature; with the [bit] of its flags
    twiddled when it has the type [t] and was not found. *)
Definition twiddle (dname_h dname dnamelen t : Z) (dclass : list Z) (covtype bit : Z) (found : ptr) (hash flags : Z) : W (ptr * Z * Z) :=
  if bool_decide (found = None) && (covtype =? t) then
    let flags := Z.lxor flags bit in
    hash ← on_pkt (ask (fun _ => pkt_hash_rrset_rest le raninit addr_ dname_h covtype dclass flags));
    p ← msgparse_hashtable_lookup hash flags dname dnamelen covtype dclass;
    mret (p, hash, if bool_decide (p = None) then Z.lxor flags bit else flags)
  else mret (found, hash, flags).

(** For a signature: the RRset of the type it covers.  The hash, the flags, and the
    variables if it is there. *)
Definition find_covered (dname_h dname dnamelen : Z) (dclass : list Z) (flags hash : Z) : W (Z * Z * option prev_rr) :=
  '(t : option Z) ← on_pkt (b ← p_current; pkt_rrsig_covered b);
  match t with
  | None => mret (hash, flags, None)
  | Some covtype =>
      hash ← on_pkt (ask (fun _ => pkt_hash_rrset_rest le raninit addr_ dname_h covtype dclass flags));
      p ← msgparse_hashtable_lookup hash flags dname dnamelen covtype dclass;
      '(p, hash, flags) ← twiddle dname_h dname dnamelen LDNS_RR_TYPE_NSEC dclass covtype PACKED_RRSET_NSEC_AT_APEX p hash flags;
      '(p, hash, flags) ← twiddle dname_h dname dnamelen LDNS_RR_TYPE_SOA dclass covtype PACKED_RRSET_SOA_NEG p hash flags;
      match p with
      | Some a =>
          s ← load a;
          mret (hash, flags, Some (mk_prev hash flags (Some s.(s_dname)) (Some dname) dnamelen covtype dclass (Some a)))
      | None => mret (hash, flags, None)
      end
  end.

(** For data: the RRset of signatures in which there are some over its type.  [None]: there is none. *)
Definition find_signed (dname_h dname dnamelen type : Z) (dclass : list Z) (flags : Z)
    (section : sldns_pkt_section) : W (option (Z * prev_rr)) :=
  hash ← on_pkt (ask (fun _ => pkt_hash_rrset_rest le raninit addr_ dname_h LDNS_RR_TYPE_RRSIG dclass 0));
  p ← msgparse_hashtable_lookup hash 0 dname dnamelen LDNS_RR_TYPE_RRSIG dclass;
  match p with
  | Some a =>
      '(res, hasother) ← rrset_has_sigover a type false;
      if res : bool then
        s ← load a;
        q ← change_rrsig_rrset a type flags hasother section;
        mret (Some (match q with Some _ => 1 | None => 0 end,
                    mk_prev hash flags (Some s.(s_dname)) (Some dname) dnamelen type dclass q))
      else mret None
  | None => mret None
  end.

(** The RRset of the type itself. *)
Definition find_same (dname_h dname dnamelen type : Z) (dclass : list Z) (flags : Z) : W prev_rr :=
  hash ← on_pkt (ask (fun _ => pkt_hash_rrset_rest le raninit addr_ dname_h type dclass flags));
  p ← msgparse_hashtable_lookup hash flags dname dnamelen type dclass;
  first ← (match p with Some a => s ← load a; mret s.(s_dname) | None => mret dname end : W Z);
  mret (mk_prev hash flags (Some first) (Some dname) dnamelen type dclass p).

(** The search by hash, when the RR does not belong to the previous one's RRset. *)
Definition find_by_hash (dname_h dname dnamelen type : Z) (dclass : list Z) (flags : Z)
    (section : sldns_pkt_section) (hash : Z) : W (Z * prev_rr) :=
  if type =? LDNS_RR_TYPE_RRSIG then
    '(hash, flags, found) ← find_covered dname_h dname dnamelen dclass flags hash;
    match found with
    | Some v => mret (1, v)
    | None => v ← find_same dname_h dname dnamelen type dclass flags; mret (1, v)
    end
  else
    found ← find_signed dname_h dname dnamelen type dclass flags section;
    match found with
    | Some r => mret r
    | None => v ← find_same dname_h dname dnamelen type dclass flags; mret (1, v)
    end.

(** The RR belongs to the RRset of the previous one, or is a signature over it. *)
Definition same_as_previous (dname dnamelen type : Z) (dclass : list Z) (v : prev_rr) : W bool :=
  let smart : W Z := on_pkt (ask (fun b => smart_compare b dname v.(v_dname_first) v.(v_dname_last))) in
  eq ← (if (type =? v.(v_type)) && bool_decide (dclass = v.(v_dclass)) && (dnamelen =? v.(v_dnamelen))
        then c ← smart; mret ((c =? 0) && negb (type =? LDNS_RR_TYPE_RRSIG))
        else mret false : W bool);
  if eq : bool then mret true else
  if (type =? LDNS_RR_TYPE_RRSIG) && bool_decide (dclass = v.(v_dclass)) then
    cov ← on_pkt (b ← p_current; pkt_rrsig_covered_equals b v.(v_type));
    if cov : bool then c ← smart; mret (c =? 0) else mret false
  else mret false.

(** The returned value (0: no memory), and the variables. *)
Definition find_rrset (dname dnamelen type : Z) (dclass : list Z) (v : prev_rr)
    (section : sldns_pkt_section) : W (Z * prev_rr) :=
  dname_h ← on_pkt (ask (fun b => pkt_hash_rrset_first le raninit addr_ b dname));
  equal ← (match v.(v_rrset) with
           | None => mret false
           | Some _ => same_as_previous dname dnamelen type dclass v
           end : W bool);
  if equal : bool
  then mret (1, mk_prev v.(v_hash) v.(v_flags) v.(v_dname_first) (Some dname) v.(v_dnamelen) v.(v_type) v.(v_dclass) v.(v_rrset))
  else
  flags ← on_pkt (pkt_rrset_flags type section);
  find_by_hash dname_h dname dnamelen type dclass flags section v.(v_hash).

(** ** Sections *)

Definition parse_query_section : W Z :=
  m ← get_msg;
  if m.(m_qdcount) =? 0 then mret 0 else
  if 1 <? m.(m_qdcount) then mret LDNS_RCODE_FORMERR else
  assert_ (m.(m_qdcount) =? 1);;
  rem ← on_pkt p_remaining;
  if rem <=? 0 then mret LDNS_RCODE_FORMERR else
  qname ← on_pkt p_current;
  set_msg (fun m => with_query (Some qname) m.(m_qname_len) m.(m_qtype) m.(m_qclass) m);;
  len ← on_pkt p_dname_len;
  set_msg (fun m => with_query m.(m_qname) len m.(m_qtype) m.(m_qclass) m);;
  if len =? 0 then mret LDNS_RCODE_FORMERR else
  rem ← on_pkt p_remaining;
  if rem <? 4 then mret LDNS_RCODE_FORMERR else
  qtype ← on_pkt p_read_u16;
  set_msg (fun m => with_query m.(m_qname) m.(m_qname_len) qtype m.(m_qclass) m);;
  qclass ← on_pkt p_read_u16;
  set_msg (fun m => with_query m.(m_qname) m.(m_qname_len) m.(m_qtype) qclass m);;
  mret 0.

(** [memcmp] of the data of two RRs, [n] bytes from the offsets. *)
Definition same_bytes (b : sldns_buffer) (o1 o2 n : Z) : outcome bool :=
  p1 ← ptr_at b o1; p2 ← ptr_at b o2;
  x ← read_bytes n p1; y ← read_bytes n p2;
  Ok (bool_decide (x = y)).

Fixpoint double_loop (fuel : nat) (sig : ptr) (rlen ttldata : Z) : W bool :=
  match sig with
  | None => mret false
  | Some a =>
      match fuel with
      | O => out_of_fuel
      | S fuel' =>
          r ← load_rr a;
          siglen ← on_pkt (ask (fun b => p ← ptr_at b (r.(r_ttl_data) + 4); sldns_read_uint16 p));
          same ← (if (siglen =? rlen) && (0 <? siglen)
                  then on_pkt (ask (fun b => same_bytes b (r.(r_ttl_data) + 6) (ttldata + 6) siglen))
                  else mret false : W bool);
          if same : bool then mret true else double_loop fuel' r.(r_next) rlen ttldata
      end
  end.

Definition sig_is_double (rrset : addr) (ttldata : Z) : W bool :=
  pos ← on_pkt p_position;
  rem ← on_pkt p_remaining;
  if rem <? 6 then mret false else
  on_pkt (p_skip 4);;
  rlen ← on_pkt p_read_u16;
  rem ← on_pkt p_remaining;
  on_pkt (p_set_position pos);;
  if rem <? rlen then mret false else
  s ← load rrset;
  with_fuel rrs_fuel (fun k => double_loop k s.(s_rrsig_first) rlen ttldata).

Definition append_rr (rrset x : addr) : W unit :=
  s ← load rrset;
  match s.(s_rr_last) with
  | Some l => modify_rr l (with_next (Some x));; modify rrset (fun s => with_rrs s.(s_rr_count) s.(s_rr_first) (Some x) s)
  | None => modify rrset (fun s => with_rrs s.(s_rr_count) (Some x) (Some x) s)
  end.

(** [rr] is put last in the list of signatures, or of RRs. *)
Definition link_rr (rrset rr : addr) (sig : bool) : W unit :=
  if sig then
    append_sig rrset rr;;
    modify rrset (fun s => with_sigs (u64 (s.(s_rrsig_count) + 1)) s.(s_rrsig_first) s.(s_rrsig_last) s)
  else
    append_rr rrset rr;;
    modify rrset (fun s => with_rrs (u64 (s.(s_rr_count) + 1)) s.(s_rr_first) s.(s_rr_last) s).

Definition skip_or_formerr : W Z :=
  ok ← on_pkt skip_ttl_rdata; mret (if ok : bool then 0 else LDNS_RCODE_FORMERR).

Definition add_rr_to_rrset (rrset : addr) (section : sldns_pkt_section) (type : Z) : W Z :=
  s ← load rrset;
  if bool_decide (s.(s_section) <> section) && negb (type =? LDNS_RR_TYPE_RRSIG) &&
     negb (s.(s_type) =? LDNS_RR_TYPE_RRSIG) then skip_or_formerr else
  m ← get_msg;
  double ← (if (m.(m_qtype) =? LDNS_RR_TYPE_RRSIG) || (m.(m_qtype) =? LDNS_RR_TYPE_ANY)
            then ttl ← on_pkt p_current; sig_is_double rrset ttl else mret false : W bool);
  if double : bool then skip_or_formerr else
  ok ← alloc;
  if negb ok then mret LDNS_RCODE_SERVFAIL else
  ttl ← on_pkt p_current;
  rr ← new_rr (mk_rr ttl false 0 None);
  link_rr rrset rr ((type =? LDNS_RR_TYPE_RRSIG) && negb (s.(s_type) =? LDNS_RR_TYPE_RRSIG));;
  '(ok, rrsize) ← on_pkt (calc_size type);
  modify_rr rr (with_rr_size rrsize);;
  if negb ok then mret LDNS_RCODE_FORMERR else
  modify rrset (fun s => with_size (u64 (s.(s_size) + rrsize)) s);;
  mret 0.

(** One round of the loop of [parse_section]; [None]: the loop goes on. *)
Definition parse_rr (section : sldns_pkt_section) (v : prev_rr) : W (option Z * prev_rr) :=
  dname ← on_pkt p_current;
  dnamelen ← on_pkt p_dname_len;
  if dnamelen =? 0 then mret (Some LDNS_RCODE_FORMERR, v) else
  rem ← on_pkt p_remaining;
  if rem <? 10 then mret (Some LDNS_RCODE_FORMERR, v) else
  type ← on_pkt p_read_u16;
  dclass ← on_pkt (p_read 2);
  '(r, v) ← find_rrset dname dnamelen type dclass v section;
  if r =? 0 then mret (Some LDNS_RCODE_SERVFAIL, v) else
  rrset ← (match v.(v_rrset) with
           | Some a => mret (Some a)
           | None =>
               incr_rrsets section 1;;
               new_rrset dname dnamelen type dclass v.(v_hash) v.(v_flags) section
           end : W (option addr));
  match rrset with
  | None => mret (Some LDNS_RCODE_SERVFAIL, v)
  | Some a =>
      let v := mk_prev v.(v_hash) v.(v_flags) v.(v_dname_first) v.(v_dname_last) v.(v_dnamelen) v.(v_type) v.(v_dclass) (Some a) in
      r ← add_rr_to_rrset a section type;
      mret (if r =? 0 then None else Some r, v)
  end.

Fixpoint parse_section_loop (n : nat) (section : sldns_pkt_section) (v : prev_rr) : W Z :=
  match n with
  | O => mret 0
  | S n' =>
      '(r, v) ← parse_rr section v;
      match r with Some rc => mret rc | None => parse_section_loop n' section v end
  end.

Definition parse_section (section : sldns_pkt_section) (num_rrs : Z) : W Z :=
  if num_rrs =? 0 then mret 0 else
  rem ← on_pkt p_remaining;
  if rem <=? 0 then mret LDNS_RCODE_FORMERR else
  parse_section_loop (Z.to_nat num_rrs) section (mk_prev 0 0 None None 0 0 [0; 0] None).

Definition parse_packet : W Z :=
  rem ← on_pkt p_remaining;
  if rem <? LDNS_HEADER_SIZE then mret LDNS_RCODE_FORMERR else
  id ← on_pkt (p_read 2);
  flags ← on_pkt p_read_u16;
  qdcount ← on_pkt p_read_u16;
  ancount ← on_pkt p_read_u16;
  nscount ← on_pkt p_read_u16;
  arcount ← on_pkt p_read_u16;
  set_msg (with_header id flags qdcount ancount nscount arcount);;
  if 1 <? qdcount then mret LDNS_RCODE_FORMERR else
  ret ← parse_query_section;
  if negb (ret =? 0) then mret ret else
  ret ← parse_section LDNS_SECTION_ANSWER ancount;
  if negb (ret =? 0) then mret ret else
  ret ← parse_section LDNS_SECTION_AUTHORITY nscount;
  if negb (ret =? 0) then mret ret else
  rem ← on_pkt p_remaining;
  ret ← (if (rem =? 0) && (arcount =? 1) then mret 0 else parse_section LDNS_SECTION_ADDITIONAL arcount : W Z);
  if negb (ret =? 0) then mret ret else
  set_msg (fun m => with_counts m.(m_an_rrsets) m.(m_ns_rrsets) m.(m_ar_rrsets)
                      (u64 (m.(m_an_rrsets) + m.(m_ns_rrsets) + m.(m_ar_rrsets))) m);;
  mret 0.
End Parser.

(** ** EDNS *)

Record edns_option := mk_option { opt_code : Z; opt_len : Z; opt_data : option (list Z) }.

(** The lists of options are those reached through [next]. *)
Record edns_data := mk_edns {
  ext_rcode : Z;
  edns_version : Z;
  bits : Z;
  udp_size : Z;
  opt_list_in : list edns_option;
  opt_list_out : list edns_option;
  opt_list_inplace_cb_out : list edns_option;
  padding_block_size : Z;
  edns_present : bool;
  cookie_present : bool;
  cookie_valid : bool;
  cookie_client : bool;
}.

(** The returned value, and the list. *)
Definition edns_opt_list_append (list_ : list edns_option) (code len : Z) (data : list Z) : W (bool * list edns_option) :=
  ok ← alloc;
  if negb ok then mret (false, list_) else
  if 0 <? len then
    ok ← alloc;
    if negb ok then mret (false, list_) else
    bytes ← on_pkt (ask (fun _ => read_bytes len data));
    mret (true, list_ ++ [mk_option code len (Some bytes)])
  else mret (true, list_ ++ [mk_option code len None]).

Fixpoint options_loop (fuel : nat) (rdata : list Z) (rdata_len : Z) (list_ : list edns_option) : W (list edns_option) :=
  if negb (4 <=? rdata_len) then mret list_ else
  match fuel with
  | O => out_of_fuel
  | S fuel' =>
      code ← on_pkt (ask (fun _ => sldns_read_uint16 rdata));
      len ← on_pkt (ask (fun _ => p ← advance 2 rdata; sldns_read_uint16 p));
      rdata ← on_pkt (ask (fun _ => advance 4 rdata));
      let rdata_len := rdata_len - 4 in
      if rdata_len <? len then mret list_ else
      '(ok, list_) ← edns_opt_list_append list_ code len rdata;
      if negb ok then mret list_ else
      rdata ← on_pkt (ask (fun _ => advance len rdata));
      options_loop fuel' rdata (rdata_len - len) list_
  end.

(** The search for the OPT RRset: [found] is it and the one before it.
    [None]: there are two. *)
Fixpoint opt_loop (fuel : nat) (prev rrset : ptr) (found : option (addr * ptr)) : W (option (option (addr * ptr))) :=
  match rrset with
  | None => mret (Some found)
  | Some a =>
      match fuel with
      | O => out_of_fuel
      | S fuel' =>
          s ← load a;
          if s.(s_type) =? LDNS_RR_TYPE_OPT then
            match found with
            | Some _ => mret None
            | None => opt_loop fuel' (Some a) s.(s_all_next) (Some (a, prev))
            end
          else opt_loop fuel' (Some a) s.(s_all_next) found
      end
  end.

(** The OPT RRset is taken out of the list and the counts. *)
Definition unlist_opt (found : addr) (found_prev : ptr) : W unit :=
  s ← load found;
  match found_prev with
  | Some b => modify b (with_all_next s.(s_all_next))
  | None => set_msg (fun m => with_list s.(s_all_next) m.(m_rrset_last) m)
  end;;
  m ← get_msg;
  (if decide (Some found = m.(m_rrset_last)) then set_msg (fun m => with_list m.(m_rrset_first) found_prev m) else mret tt);;
  set_msg (fun m => with_header m.(m_id) m.(m_flags) m.(m_qdcount) m.(m_ancount) m.(m_nscount) (u16 (m.(m_arcount) - 1)) m);;
  set_msg (fun m => with_counts m.(m_an_rrsets) m.(m_ns_rrsets) (u64 (m.(m_ar_rrsets) - 1)) (u64 (m.(m_rrset_count) - 1)) m).

(** The returned value, and what is in [*edns] then, which was [edns] before. *)
Definition parse_extract_edns_from_response_msg (edns : edns_data) : W (Z * edns_data) :=
  m ← get_msg;
  r ← with_fuel sets_fuel (fun k => opt_loop k None m.(m_rrset_first) None);
  match r with
  | None => mret (LDNS_RCODE_FORMERR, edns)
  | Some None => mret (0, mk_edns 0 0 0 512 [] [] [] 0 false false false false)
  | Some (Some (found, found_prev)) =>
      s ← load found;
      if bool_decide (s.(s_section) <> LDNS_SECTION_ADDITIONAL) then mret (LDNS_RCODE_FORMERR, edns) else
      if s.(s_rr_count) =? 0 then mret (LDNS_RCODE_FORMERR, edns) else
      match s.(s_rr_first), s.(s_rr_last) with
      | Some first, Some last =>
          unlist_opt found found_prev;;
          rl ← load_rr last;
          '(rcode, version, bts) ← on_pkt (ask (fun b =>
             p ← ptr_at b rl.(r_ttl_data);
             x ← index p 0; y ← index p 1; q ← advance 2 p; z ← sldns_read_uint16 q; Ok (x, y, z)));
          class ← on_pkt (ask (fun _ => sldns_read_uint16 s.(s_class)));
          rf ← load_rr first;
          let rdata_len := u64 (rf.(r_size) - 2) in
          rdata ← on_pkt (ask (fun b => ptr_at b (rf.(r_ttl_data) + 6)));
          opts ← options_loop (Z.to_nat rdata_len) rdata rdata_len [];
          mret (LDNS_RCODE_NOERROR,
                mk_edns rcode version bts class opts [] [] 0 true false false edns.(cookie_client))
      | _, _ => fault
      end
  end.

(** Without the logging. *)
Definition msgparse_rrset_remove_rr (rrset : addr) (prev : ptr) (rr : addr) : W bool :=
  unlink_rr rrset prev rr;;
  s ← load rrset;
  mret (s.(s_rr_count) =? 0).
