(* ===== verification/MsgMemory.v ===== *)
(** * Parsing packets: memory

    The parser reports a failure of the server only when an allocation fails. *)

From S2P Require Import Prelude Sbuffer Lookup3 Dname DnamePkt RrDef Msgparse.

(** When allocations succeed, the result is in [Q] and they succeed afterwards. *)
Definition ensures {A} (Q : A -> Prop) (f : W A) : Prop :=
  forall w x w', mallocs_ok w.(memory) -> f w = Ok (x, w') -> mallocs_ok w'.(memory) /\ Q x.
Abbreviation calm := (ensures (fun _ => True)).

Lemma ens_bind {A C} Q Q' (f : W A) (g : A -> W C) : ensures Q f -> (forall x, Q x -> ensures Q' (g x)) -> ensures Q' (f ≫= g).
Proof.
  intros Hf Hg w y w' Hm. unfold mbind, ST_bind. destruct (f w) as [[x w1]| |] eqn:E; try done. intros E'.
  destruct (Hf _ _ _ Hm E) as [Hm1 Hx]. by apply (Hg x Hx w1).
Qed.

Lemma ens_ret {A} (Q : A -> Prop) x : Q x -> ensures Q (mret x).
Proof. intros Hx w y w' Hm [= <- <-]. done. Qed.

Lemma ens_weaken {A} (Q Q' : A -> Prop) f : ensures Q f -> (forall x, Q x -> Q' x) -> ensures Q' f.
Proof. intros Hf H w x w' Hm E. destruct (Hf _ _ _ Hm E). auto. Qed.

(** ** The primitives *)

Lemma calm_fault {A} Q : ensures Q (fault : W A).
Proof. done. Qed.
Lemma calm_fails {A} Q : ensures Q (assert_fails : W A).
Proof. done. Qed.
Lemma calm_fuel {A} Q : ensures Q (out_of_fuel : W A).
Proof. done. Qed.
Lemma calm_assert c : ensures (fun _ => c = true) (assert_ c).
Proof. destruct c; [by apply ens_ret|done]. Qed.
Lemma calm_on_pkt {A} (f : P A) : calm (on_pkt f).
Proof. intros w x w' Hm. unfold on_pkt. destruct (f w.(pkt)) as [[]| |]; [|done..]. by intros [= <- <-]. Qed.
Lemma calm_get_msg : calm get_msg.
Proof. by intros w x w' Hm [= <- <-]. Qed.
Lemma calm_set_msg f : calm (set_msg f).
Proof. by intros w x w' Hm [= <- <-]. Qed.
Lemma calm_load a : calm (load a).
Proof. intros w x w' Hm. unfold load. destruct (_ !! _); [|done]. by intros [= <- <-]. Qed.
Lemma calm_modify a f : calm (modify a f).
Proof. intros w x w' Hm. unfold modify. destruct (_ !! _); [|done]. by intros [= <- <-]. Qed.
Lemma calm_load_rr a : calm (load_rr a).
Proof. intros w x w' Hm. unfold load_rr. destruct (_ !! _); [|done]. by intros [= <- <-]. Qed.
Lemma calm_modify_rr a f : calm (modify_rr a f).
Proof. intros w x w' Hm. unfold modify_rr. destruct (_ !! _); [|done]. by intros [= <- <-]. Qed.
Lemma calm_new_rrset_at s : calm (new_rrset_at s).
Proof. by intros w x w' Hm [= <- <-]. Qed.
Lemma calm_new_rr r : calm (new_rr r).
Proof. by intros w x w' Hm [= <- <-]. Qed.
Lemma calm_get_bucket h : calm (get_bucket h).
Proof. intros w x w' Hm. unfold get_bucket. destruct (_ !! _); [|done]. by intros [= <- <-]. Qed.
Lemma calm_alloc : ensures (eq true) alloc.
Proof.
  intros w x w' Hm. unfold alloc. destruct (malloc w.(memory)) as [ok m] eqn:E. intros [= <- <-]. destruct (malloc_ok _ _ _ E Hm) as [-> ?]. done.
Qed.
Lemma ens_with_fuel {A} Q n (k : nat -> W A) : (forall i, ensures Q (k i)) -> ensures Q (with_fuel n k).
Proof. intros H w x w' Hm. unfold with_fuel. by apply H. Qed.

Create HintDb calm.
#[export] Hint Resolve calm_fault calm_fails calm_fuel calm_assert calm_on_pkt calm_get_msg calm_set_msg calm_load calm_modify calm_load_rr calm_modify_rr
  calm_new_rrset_at calm_new_rr calm_get_bucket calm_alloc : calm.

(** Through the statements of a function, with the known facts of those it calls. *)
Ltac calm_step := first
  [ assumption
  | apply calm_fault | apply calm_fails | apply calm_fuel
  | apply ens_ret; try exact I
  | apply ens_with_fuel; intros ?
  | solve [eauto 1 with calm]
  | eapply ens_bind; [solve [eauto 1 with calm]|cbv beta; intros ? ?; subst; cbn [negb]]
  | apply (ens_bind (fun _ => True)); [|cbv beta; intros ? _]
  | match goal with
    | |- ensures _ (match ?x with _ => _ end) => destruct x
    end ].
Ltac calm := repeat calm_step.

(** ** The parser *)

Lemma calm_append x : calm (append_rrset x).
Proof. unfold append_rrset. calm. Qed.
Lemma calm_set_bucket h p : calm (set_bucket h p).
Proof. unfold set_bucket. calm. Qed.
Lemma calm_incr s k : calm (incr_rrsets s k).
Proof. unfold incr_rrsets. calm. Qed.
#[export] Hint Resolve calm_append calm_set_bucket calm_incr : calm.

Lemma calm_new_rrset n l t c h f s : ensures is_Some (new_rrset n l t c h f s).
Proof. unfold new_rrset. calm. Qed.

Lemma calm_equals p h f n l t c : calm (rrset_parse_equals p h f n l t c).
Proof. unfold rrset_parse_equals. calm. Qed.
#[export] Hint Resolve calm_new_rrset calm_equals : calm.

Lemma calm_lookup_loop h f n l t c fuel : forall p, calm (lookup_loop fuel p h f n l t c).
Proof. induction fuel; intros [a|]; cbn [lookup_loop]; calm; auto. Qed.
Lemma calm_lookup h f n l t c : calm (msgparse_hashtable_lookup h f n l t c).
Proof. unfold msgparse_hashtable_lookup. calm; apply calm_lookup_loop. Qed.

Lemma calm_bucket_loop rrset fuel : forall prev p, calm (bucket_remove_loop fuel prev p rrset).
Proof. induction fuel; intros prev [a|]; cbn [bucket_remove_loop]; calm; auto. Qed.
Lemma calm_bucket_remove rrset : calm (msgparse_bucket_remove rrset).
Proof. unfold msgparse_bucket_remove. calm; apply calm_bucket_loop. Qed.
#[export] Hint Resolve calm_lookup calm_bucket_remove : calm.

Lemma calm_unlink_loop rrset fuel : forall prev p, calm (unlink_loop fuel prev p rrset).
Proof. induction fuel; intros prev [a|]; cbn [unlink_loop]; calm; auto. Qed.
Lemma calm_change_section rrset s : calm (change_section rrset s).
Proof. unfold change_section. calm; apply calm_unlink_loop. Qed.
#[export] Hint Resolve calm_change_section : calm.

Lemma calm_sigover_loop t fuel : forall rr r o, calm (has_sigover_loop fuel rr t r o).
Proof. induction fuel; intros [a|] r o; cbn [has_sigover_loop]; calm; auto. Qed.
Lemma calm_has_sigover rrset t o : calm (rrset_has_sigover rrset t o).
Proof. unfold rrset_has_sigover. calm; apply calm_sigover_loop. Qed.

Lemma calm_unlink_rr s p x : calm (unlink_rr s p x).
Proof. unfold unlink_rr. calm. Qed.
Lemma calm_append_sig s x : calm (append_sig s x).
Proof. unfold append_sig. calm. Qed.
#[export] Hint Resolve calm_has_sigover calm_unlink_rr calm_append_sig : calm.
Lemma calm_insert_sig s x : calm (insert_sig s x).
Proof. unfold insert_sig. calm. Qed.
#[export] Hint Resolve calm_insert_sig : calm.

Lemma moveover_loop_memory s ds dup fuel : forall prev sig, ensures (eq true) (moveover_loop fuel prev sig s ds dup).
Proof.
  induction fuel as [|fuel IH]; intros prev [a|]; cbn [moveover_loop]; [by calm..| |by calm].
  do 3 calm_step. destruct x1; [|auto]. apply (ens_bind is_Some); [by calm|]. intros ? [i ->]. calm.
Qed.

Lemma moveover_memory s ds dup : ensures (eq true) (moveover_rrsigs s ds dup).
Proof. unfold moveover_rrsigs. calm; apply moveover_loop_memory. Qed.

Lemma calm_rebucket ds h : calm (rebucket ds h).
Proof. unfold rebucket. calm. Qed.
Lemma calm_retype ds t f : calm (retype ds t f).
Proof. unfold retype. calm. Qed.
#[export] Hint Resolve moveover_memory calm_rebucket calm_retype : calm.

Section Parser.
Context (le : bool) (raninit addr_ : Z).

Lemma change_memory s t f o sec : ensures is_Some (change_rrsig_rrset le raninit addr_ s t f o sec).
Proof.
  unfold change_rrsig_rrset. do 4 calm_step. destruct o; [|by calm]. eapply ens_bind; [apply calm_new_rrset|]. intros ? [i ->]. calm.
Qed.

Lemma calm_twiddle h n l t c cov bit f hash fl : calm (twiddle le raninit addr_ h n l t c cov bit f hash fl).
Proof. unfold twiddle. calm. Qed.
Hint Resolve change_memory calm_twiddle : calm.

Lemma calm_covered h n l c f hash : calm (find_covered le raninit addr_ h n l c f hash).
Proof. unfold find_covered. calm. Qed.

Lemma signed_memory h n l t c f s : ensures (fun r => match r with Some (rc, _) => rc = 1 | None => True end) (find_signed le raninit addr_ h n l t c f s).
Proof.
  unfold find_signed. do 2 calm_step. destruct x0 as [a|]; [|by calm]. calm_step. destruct x0 as [[] o]; [|by calm]. calm_step.
  eapply ens_bind; [apply change_memory|]. intros ? [i ->]. calm.
Qed.

Lemma calm_same h n l t c f : calm (find_same le raninit addr_ h n l t c f).
Proof. unfold find_same. calm. Qed.
Hint Resolve calm_covered calm_same : calm.

Lemma by_hash_memory h n l t c f s hash : ensures (fun r => r.1 = 1) (find_by_hash le raninit addr_ h n l t c f s hash).
Proof.
  unfold find_by_hash. destruct (_ =? _); [by calm|]. eapply ens_bind; [apply signed_memory|]. intros [[rc v]|] Hr; [by apply ens_ret|]. by calm.
Qed.

Lemma calm_previous n l t c v : calm (same_as_previous n l t c v).
Proof. unfold same_as_previous. calm. Qed.
Hint Resolve by_hash_memory calm_previous : calm.

Lemma find_memory n l t c v s : ensures (fun r => r.1 = 1) (find_rrset le raninit addr_ n l t c v s).
Proof. unfold find_rrset. by calm. Qed.

Lemma query_memory : ensures (fun rc => rc <> LDNS_RCODE_SERVFAIL) parse_query_section.
Proof. unfold parse_query_section. by calm. Qed.

Lemma calm_double_loop rlen ttl fuel : forall sig, calm (double_loop fuel sig rlen ttl).
Proof. induction fuel; intros [a|]; cbn [double_loop]; calm; auto. Qed.
Lemma calm_is_double s ttl : calm (sig_is_double s ttl).
Proof. unfold sig_is_double. calm; apply calm_double_loop. Qed.

Lemma calm_append_rr s x : calm (append_rr s x).
Proof. unfold append_rr. calm. Qed.
Hint Resolve calm_append_rr : calm.
Lemma calm_link s x sig : calm (link_rr s x sig).
Proof. unfold link_rr. calm. Qed.
Lemma skip_memory : ensures (fun rc => rc <> LDNS_RCODE_SERVFAIL) skip_or_formerr.
Proof. unfold skip_or_formerr. calm. by destruct x. Qed.
Hint Resolve calm_is_double calm_link skip_memory query_memory : calm.

Lemma add_memory s sec t : ensures (fun rc => rc <> LDNS_RCODE_SERVFAIL) (add_rr_to_rrset s sec t).
Proof. unfold add_rr_to_rrset. by calm. Qed.

Lemma rr_memory s v : ensures (fun r => r.1 <> Some LDNS_RCODE_SERVFAIL) (parse_rr le raninit addr_ s v).
Proof.
  unfold parse_rr. do 2 calm_step. destruct (x0 =? 0); [by calm|]. calm_step. destruct (x1 <? 10); [by calm|]. do 2 calm_step.
  eapply ens_bind; [apply find_memory|]. intros [rc v'] Hr. cbn in Hr. subst rc. cbn [Z.eqb].
  apply (ens_bind is_Some); [by calm|]. intros ? [a ->]. eapply ens_bind; [apply add_memory|]. intros rc Hrc.
  apply ens_ret. destruct (rc =? 0); cbn; congruence.
Qed.

Lemma section_loop_memory s n : forall v, ensures (fun rc => rc <> LDNS_RCODE_SERVFAIL) (parse_section_loop le raninit addr_ n s v).
Proof.
  induction n as [|n IH]; intros v; cbn [parse_section_loop]; [by apply ens_ret|]. eapply ens_bind; [apply rr_memory|].
  intros [[rc|] v'] Hr; [apply ens_ret; cbn in Hr; congruence|apply IH].
Qed.

Lemma section_memory s n : ensures (fun rc => rc <> LDNS_RCODE_SERVFAIL) (parse_section le raninit addr_ s n).
Proof. unfold parse_section. calm; try done. apply section_loop_memory. Qed.
Hint Resolve section_memory : calm.

(** SERVFAIL only if there is no memory; all allocations of the parse are counted. *)
Lemma packet_memory : ensures (fun rc => rc <> LDNS_RCODE_SERVFAIL) (parse_packet le raninit addr_).
Proof.
  unfold parse_packet. repeat first
    [ eapply (ens_bind (fun rc => rc <> LDNS_RCODE_SERVFAIL)); [destruct (_ && _); [by apply ens_ret|apply section_memory]|intros ? ?] | calm_step ]; done.
Qed.
End Parser.
