(* ===== verification/MsgPkt.v ===== *)
(** * Parsing packets: what the functions on the packet alone compute

    The block of the packet is [d]; only the position moves. *)

From S2P Require Import Prelude Sbuffer Lookup3 Dname DnameCompare DnamePkt RrDef Msgparse.

(** The 16 bits at an offset. *)
Definition u16_at (d : list Z) (o : Z) : Z := match sldns_read_uint16 (zdrop o d) with Ok v => v | _ => 0 end.

Section Pkt.
Context (b : sldns_buffer) (d : list Z) (B : buf_ok b d).
Abbreviation lim := (b.(_limit)).
Abbreviation at_ p := (set_pos b p).

Lemma at_self : set_pos b b.(_position) = b.
Proof. by destruct b. Qed.

Lemma lim_zlen : lim <= zlen d.
Proof. destruct B. lia. Qed.

Lemma at_buf p : 0 <= p <= lim -> buf_ok (at_ p) d.
Proof. intros. by apply set_pos_ok. Qed.

Lemma p_position_at p : p_position (at_ p) = Ok (p, at_ p).
Proof. done. Qed.

Lemma p_remaining_at p : 0 <= p <= lim -> p_remaining (at_ p) = Ok (lim - p, at_ p).
Proof.
  intros H. pose proof (at_buf p H) as B'. unfold p_remaining, ask.
  rewrite (remaining_reads (at_ p) d _ (conj B' eq_refl)). by rewrite zlen_window.
Qed.

Lemma p_skip_at n p : 0 <= n -> 0 <= p -> p + n <= lim -> p_skip n (at_ p) = Ok (tt, at_ (p + n)).
Proof.
  intros. assert (0 <= p <= lim) as Hp by lia. pose proof (at_buf p Hp) as B'. unfold p_skip.
  destruct (skip_reads (at_ p) d _ n (conj B' eq_refl)) as [-> _]; [|done]. rewrite zlen_window by done. cbn. lia.
Qed.

Lemma p_set_at q p : 0 <= q <= lim -> p_set_position q (at_ p) = Ok (tt, at_ q).
Proof. intros H. unfold p_set_position, sldns_buffer_set_position. cbn. by rewrite leb_true by lia. Qed.

Lemma u16_at_read o : 0 <= o -> o + 2 <= zlen d -> sldns_read_uint16 (zdrop o d) = Ok (u16_at d o).
Proof.
  intros. destruct (uint16_total (zdrop o d)) as [v E]; [rewrite zlen_zdrop; lia|]. unfold u16_at. by rewrite E.
Qed.

Lemma u16_range l v : bytes_ok l -> sldns_read_uint16 l = Ok v -> in_u 16 v.
Proof.
  intros H. unfold sldns_read_uint16. intros (x & Hx & (y & Hy & E)%bind_inv)%bind_inv. apply Ok_inj in E as <-.
  apply index_byte in Hx; [|done]. apply index_byte in Hy; [|done]. unfold in_u in *.
  rewrite lor_shiftl_add by lia. lia.
Qed.

Lemma u16_at_range o : in_u 16 (u16_at d o).
Proof.
  unfold u16_at. destruct (sldns_read_uint16 (zdrop o d)) as [v| |] eqn:E; [|unfold in_u; lia..].
  apply u16_range in E; [done|]. apply bytes_ok_zdrop. by destruct B.
Qed.

Lemma bump_at p n : 0 <= p -> 0 <= n -> p + n <= lim -> bump (at_ p) n = at_ (p + n).
Proof. intros. assert (0 <= p <= lim) as Hp by lia. by destruct (bump_ok _ d n (at_buf p Hp)) as [-> _]. Qed.

Lemma p_read_u16_at p : 0 <= p -> p + 2 <= lim -> p_read_u16 (at_ p) = Ok (u16_at d p, at_ (p + 2)).
Proof.
  intros. assert (0 <= p <= lim) as Hp by lia. unfold p_read_u16, sldns_buffer_read_u16.
  rewrite (read_u16_at_spec _ d) by (done || by apply at_buf). cbn [_position set_pos _limit].
  rewrite leb_true by lia. pose proof lim_zlen. rewrite u16_at_read by lia. cbn. by rewrite bump_at by lia.
Qed.

Lemma p_read_u8_at p : 0 <= p -> p + 1 <= lim -> exists x, p_read_u8 (at_ p) = Ok (x, at_ (p + 1)) /\ is_byte x.
Proof.
  intros. assert (0 <= p <= lim) as Hp by lia. unfold p_read_u8, sldns_buffer_read_u8.
  rewrite (read_u8_at_spec _ d) by (done || by apply at_buf). cbn [_position set_pos _limit].
  rewrite leb_true by lia. pose proof lim_zlen. destruct (index_ok d p) as (x & E & _); [lia|]. exists x. rewrite E. cbn.
  rewrite bump_at by lia. split; [done|]. by apply index_byte in E; [|apply B].
Qed.

Lemma p_read_at n p : 0 <= n -> 0 <= p -> p + n <= lim -> p_read n (at_ p) = Ok (ztake n (zdrop p d), at_ (p + n)).
Proof.
  intros. assert (0 <= p <= lim) as Hp by lia. unfold p_read, sldns_buffer_read.
  rewrite (read_at_spec _ d) by (done || by apply at_buf). cbn [_position set_pos _limit].
  rewrite leb_true by lia. cbn. by rewrite bump_at by lia.
Qed.

Lemma p_current_at p : 0 <= p <= lim -> p_current (at_ p) = Ok (p, at_ p).
Proof.
  intros H. unfold p_current, ask, sldns_buffer_current. rewrite (at_ok _ d) by (done || by apply at_buf). done.
Qed.

Lemma begin_at p : 0 <= p <= lim -> ask sldns_buffer_begin (at_ p) = Ok (d, at_ p).
Proof.
  intros H. unfold ask, sldns_buffer_begin. rewrite (at_ok _ d); [done|by apply at_buf|cbn; lia].
Qed.

Lemma ptr_at_at o p : 0 <= o <= zlen d -> ptr_at (at_ p) o = Ok (zdrop o d).
Proof. intros. unfold ptr_at, the_data. cbn. rewrite (bo_data _ _ B). cbn. by apply advance_ok. Qed.

(** The names of the packet. *)
Definition name_at (o : Z) (ls : name) (e : Z) : Prop := pkt_name b d o ls e.

Lemma name_at_range o ls e : name_at o ls e -> 0 <= o /\ 1 <= e /\ o + e <= lim /\ name_ok ls.
Proof.
  intros N. destruct (pkt_name_ptr b d o ls e B N) as (Hok & _). destruct N as (Ho & Hl & k & Hk & D).
  apply decomp_end in D. pose proof lim_zlen. destruct (Z.le_gt_cases o lim).
  - rewrite zlen_zdrop, zlen_ztake in D; rewrite ?zlen_ztake; destruct B; try lia. split; [done|lia || (split; [lia|split; [lia|done]])].
  - exfalso. unfold zdrop, zlen in D. rewrite length_drop in D. unfold ztake in D. rewrite length_take in D. destruct B. lia.
Qed.

Lemma p_dname_len_at p : 0 <= p <= lim ->
  (exists ls e, name_at p ls e /\ p_dname_len (at_ p) = Ok (zlen (wire ls), at_ (p + e))) \/
  (exists q, p_dname_len (at_ p) = Ok (0, at_ q) /\ 0 <= q <= lim /\ forall ls e, ~ name_at p ls e).
Proof.
  intros H. destruct (pkt_dname_len_parse _ d (at_buf p H)) as (n & b' & E & B' & Eb & [(ls & e & N & -> & ->)|[-> Hno]]).
  - left. by exists ls, e.
  - right. exists b'.(_position). unfold p_dname_len. rewrite E, Eb. split; [done|]. split; [|done].
    pose proof (bo_pos _ _ B') as Hq. rewrite Eb in Hq. exact Hq.
Qed.
End Pkt.

(** One step of a function on the packet, at a known position. *)
Ltac pstep := first
  [ erewrite st_bind_ok by (apply p_position_at)
  | erewrite st_bind_ok by (eapply p_remaining_at; [eassumption|lia])
  | erewrite st_bind_ok by (eapply p_skip_at; [eassumption|lia..])
  | erewrite st_bind_ok by (apply p_set_at; lia)
  | erewrite st_bind_ok by (eapply p_read_u16_at; [eassumption|lia..])
  | erewrite st_bind_ok by (eapply p_current_at; [eassumption|lia])
  | erewrite st_bind_ok by (eapply begin_at; [eassumption|lia]) ]; cbv beta.

Section Functions.
Context (b : sldns_buffer) (d : list Z) (B : buf_ok b d).
Abbreviation lim := (b.(_limit)).
Abbreviation at_ p := (set_pos b p).

Lemma nsec_at_apex_at p : 0 <= p <= lim -> exists r, nsec_at_apex (at_ p) = Ok (r, at_ p).
Proof.
  intros H. unfold nsec_at_apex. pstep. pstep. zcase; [by exists false|].
  pstep. pstep. pstep. pose proof (u16_at_range b d B (p + 4)) as Hu. unfold in_u in Hu.
  zcase; [pstep; by exists false|].
  destruct (p_dname_len_at b d B (p + 4 + 2)) as [(ls & e & N & E)|(q & E & Hq & _)]; [lia| |].
  - erewrite st_bind_ok by exact E. destruct (name_at_range b d B _ _ _ N) as (_ & He & Hl & _).
    pose proof (zlen_wire_pos ls). rewrite eqb_false by lia.
    pstep. zcase; [|pstep; by exists false]. zcase; [pstep; by exists false|].
    destruct (p_read_u8_at b d B (p + 4 + 2 + e)) as (x & Ex & _); [lia..|]. erewrite st_bind_ok by exact Ex.
    destruct (p_read_u8_at b d B (p + 4 + 2 + e + 1)) as (y & Ey & _); [lia..|]. erewrite st_bind_ok by exact Ey.
    destruct (p_read_u8_at b d B (p + 4 + 2 + e + 1 + 1)) as (z & Ez & _); [lia..|]. erewrite st_bind_ok by exact Ez.
    pstep. by eexists.
  - erewrite st_bind_ok by exact E. cbn [Z.eqb]. pstep. by exists false.
Qed.

(** The flags that RRsets of a type can have. *)
Definition flags_of (type flags : Z) : Prop :=
  in_u 16 type /\ (flags = 0 \/ (type = LDNS_RR_TYPE_NSEC /\ flags = PACKED_RRSET_NSEC_AT_APEX) \/
  (type = LDNS_RR_TYPE_SOA /\ flags = PACKED_RRSET_SOA_NEG)).

Lemma pkt_rrset_flags_at type sec p : in_u 16 type -> 0 <= p <= lim ->
  exists f, pkt_rrset_flags type sec (at_ p) = Ok (f, at_ p) /\ flags_of type f.
Proof.
  intros Ht H. unfold pkt_rrset_flags, flags_of. destruct (Z.eqb_spec type LDNS_RR_TYPE_NSEC) as [->|].
  - destruct (nsec_at_apex_at p H) as (r & E). erewrite st_bind_ok by exact E. eexists. split; [reflexivity|]. split; [done|].
    destruct r; [right; by left|by left].
  - eexists. split; [reflexivity|]. split; [done|]. destruct (Z.eqb_spec type LDNS_RR_TYPE_SOA); [|by left].
    cbn. destruct (bool_decide _); [right; by right|by left].
Qed.

(** *** Covered types *)

Definition covered (here : Z) : option Z :=
  if lim - here <? 25 then None else if u16_at d (here + 4) <? 19 then None else Some (u16_at d (here + 6)).
(** The position after a look at the signature at [here]. *)
Definition after_covered (here p : Z) : Z := if lim - here <? 25 then here else p.

Lemma after_covered_range here p : 0 <= here <= lim -> 0 <= p <= lim -> 0 <= after_covered here p <= lim.
Proof. unfold after_covered. intros. by zcase. Qed.

Lemma after_covered_self p : after_covered p p = p.
Proof. unfold after_covered. by zcase. Qed.

Lemma pkt_rrsig_covered_at here p : 0 <= here <= lim -> 0 <= p <= lim ->
  pkt_rrsig_covered here (at_ p) = Ok (covered here, at_ (after_covered here p)).
Proof.
  intros H Hp. unfold pkt_rrsig_covered, covered, after_covered. change (4 + 2 + 19) with 25. pstep. pstep. pstep. pstep. zcase; [done|].
  pstep. pstep. zcase; [by pstep|]. pstep. pstep. by rewrite <- Z.add_assoc.
Qed.

Definition covers (here type : Z) : bool := match covered here with Some t => t =? type | None => false end.

Lemma covers_spec here type : covers here type = true <-> covered here = Some type.
Proof. unfold covers. destruct (covered here); [rewrite Z.eqb_eq|]; naive_solver. Qed.

Lemma covered_equals_at here type p : 0 <= here <= lim -> 0 <= p <= lim ->
  pkt_rrsig_covered_equals here type (at_ p) = Ok (covers here type, at_ (after_covered here p)).
Proof. intros. unfold pkt_rrsig_covered_equals. erewrite st_bind_ok by (apply pkt_rrsig_covered_at; lia). unfold covers. by destruct (covered here). Qed.

(** *** Names: hash and comparison *)

(** A class is two bytes. *)
Definition class_ok (dclass : list Z) : Prop := zlen dclass = 2 /\ bytes_ok dclass.

Section Hash.
Context (le : bool) (raninit addr_ : Z).

(** The hash of an RRset with the owner [ls]. *)
Definition rest_hash (h type : Z) (dclass : list Z) (flags : Z) : Z :=
  hashlittle_val raninit (host_bytes le 4 flags)
    (hashlittle_val raninit dclass (hashlittle_val raninit (host_bytes le 2 type) h)).
Definition rrset_hash (ls : name) (type : Z) (dclass : list Z) (flags : Z) : Z :=
  rest_hash (name_hash raninit ls 171) type dclass flags.

Lemma rrset_hash_lower ls ls' type dclass flags : lower_name ls = lower_name ls' ->
  rrset_hash ls type dclass flags = rrset_hash ls' type dclass flags.
Proof. intros E. unfold rrset_hash. by rewrite (name_hash_lower _ _ _ _ E). Qed.

Lemma hash_exact key n h : zlen key = n -> hashlittle le raninit addr_ key n h = Ok (hashlittle_val raninit key h).
Proof. intros <-. pose proof (hashlittle_val_spec le raninit addr_ key [] h) as E. by rewrite app_nil_r in E. Qed.

Lemma zlen_host n x : zlen (host_bytes le n x) = Z.of_nat n.
Proof. unfold host_bytes. destruct le; rewrite ?zlen_rev, zlen_map; unfold zlen; by rewrite length_seq. Qed.

Lemma hash_rest_ok h type dclass flags : class_ok dclass ->
  pkt_hash_rrset_rest le raninit addr_ h type dclass flags = Ok (rest_hash h type dclass flags).
Proof.
  intros [Hc _]. unfold pkt_hash_rrset_rest. rewrite hash_exact by apply zlen_host. cbn [mbind outcome_bind].
  rewrite hash_exact by done. cbn [mbind outcome_bind]. by rewrite hash_exact by apply zlen_host.
Qed.

Lemma name_hash_at o ls e p : name_at b d o ls e -> 0 <= p <= lim ->
  exists q, ptr_at (at_ p) o = Ok q /\ dname_pkt_hash le raninit addr_ (at_ p) q 171 = Ok (name_hash raninit ls 171).
Proof.
  intros N Hp. destruct (name_at_range b d B _ _ _ N) as (Ho & ? & Hl & _). pose proof (lim_zlen b d B).
  exists (zdrop o d). split; [apply (ptr_at_at b d B); lia|].
  destruct (pkt_name_ptr (at_ p) d o ls e (at_buf b d B p Hp) N) as (_ & _ & k & Hk & D & Hf).
  destruct (decomp_next _ _ _ _ _ _ D) as (x & q & Ep & En). unfold dname_pkt_hash. rewrite En, bind_Ok.
  eapply dname_pkt_hash_loop_spec; try done; [by apply at_buf|lia].
Qed.

Lemma hash_first_ok o ls e p : name_at b d o ls e -> 0 <= p <= lim ->
  pkt_hash_rrset_first le raninit addr_ (at_ p) o = Ok (name_hash raninit ls 171).
Proof. intros N Hp. destruct (name_hash_at o ls e p N Hp) as (q & E1 & E2). unfold pkt_hash_rrset_first. rewrite E1. exact E2. Qed.

Lemma hash_rrset_ok o ls e type dclass flags p : name_at b d o ls e -> 0 <= p <= lim -> class_ok dclass ->
  pkt_hash_rrset le raninit addr_ (at_ p) o type dclass flags = Ok (rrset_hash ls type dclass flags).
Proof.
  intros N Hp Hc. destruct (name_hash_at o ls e p N Hp) as (q & E1 & E2). unfold pkt_hash_rrset. rewrite E1. cbn [mbind outcome_bind].
  rewrite E2. cbn [mbind outcome_bind]. exact (hash_rest_ok _ type dclass flags Hc).
Qed.
End Hash.

Lemma compare_at o1 ls1 e1 o2 ls2 e2 p : name_at b d o1 ls1 e1 -> name_at b d o2 ls2 e2 -> 0 <= p <= lim ->
  exists p1 p2 c, ptr_at (at_ p) o1 = Ok p1 /\ ptr_at (at_ p) o2 = Ok p2 /\
    dname_pkt_compare (at_ p) p1 p2 = Ok c /\ (c = 0 <-> lower_name ls1 = lower_name ls2).
Proof.
  intros N1 N2 Hp. destruct (name_at_range b d B _ _ _ N1) as (? & ? & ? & [L1 _]).
  destruct (name_at_range b d B _ _ _ N2) as (? & ? & ? & [L2 _]). pose proof (lim_zlen b d B).
  exists (zdrop o1 d), (zdrop o2 d). eexists. split; [apply (ptr_at_at b d B); lia|]. split; [apply (ptr_at_at b d B); lia|].
  pose proof (at_buf b d B p Hp) as B'.
  destruct (pkt_name_ptr (at_ p) d o1 ls1 e1 B' N1) as (_ & _ & k1 & Hk1 & D1 & Hf1).
  destruct (pkt_name_ptr (at_ p) d o2 ls2 e2 B' N2) as (_ & _ & k2 & Hk2 & D2 & Hf2).
  split; [eapply dname_pkt_compare_decomp; try done; lia|]. by apply lex_lower_eq.
Qed.
End Functions.

Section Compare.
Context (b : sldns_buffer) (d : list Z) (B : buf_ok b d).
Abbreviation lim := (b.(_limit)).
Abbreviation at_ p := (set_pos b p).

(** A name that starts with a pointer is the name the pointer leads to. *)
Lemma name_at_ptr o ls e : name_at b d o ls e ->
  exists x r, zdrop o d = x :: r /\
    (LABEL_IS_PTR x = true -> exists y r', r = y :: r' /\ 0 <= PTR_OFFSET x y < lim /\ exists e', name_at b d (PTR_OFFSET x y) ls e').
Proof.
  intros N. destruct (name_at_range b d B _ _ _ N) as (Ho & He & Hl & _). destruct N as (_ & H255 & k & Hk & D).
  assert (zdrop o d = zdrop o (ztake lim d) ++ zdrop lim d) as Ed.
  { rewrite <- (ztake_zdrop lim d) at 1. unfold zdrop at 1. rewrite drop_app_le; [done|].
    pose proof (lim_zlen b d B). pose proof (zlen_ztake lim d ltac:(lia)) as E. unfold zlen in E. lia. }
  remember (zdrop o (ztake lim d)) as w eqn:Ew. destruct D as [r|k' l r ls e' Hl' D'|k' x y r ls e' Hx Hy HP HL D']; rewrite Ed.
  - exists 0, (r ++ zdrop lim d). split; [done|]. rewrite label_is_ptr_0. done.
  - exists (zlen l), ((l ++ r) ++ zdrop lim d). split; [done|]. rewrite lablen_not_ptr by done. done.
  - exists x, ((y :: r) ++ zdrop lim d). split; [done|]. intros _. exists y, (r ++ zdrop lim d). split; [done|].
    pose proof (ptr_offset_range x y Hx Hy). split; [lia|]. eexists. split; [lia|]. split; [done|]. exists k'. split; [lia|exact D'].
Qed.

Lemma smart_compare_at o ls e o1 ls1 e1 o2 ls2 e2 p :
  name_at b d o ls e -> name_at b d o1 ls1 e1 -> name_at b d o2 ls2 e2 -> lower_name ls1 = lower_name ls2 -> 0 <= p <= lim ->
  exists c, smart_compare (at_ p) o (Some o1) (Some o2) = Ok c /\ (c = 0 <-> lower_name ls = lower_name ls2).
Proof.
  intros N N1 N2 E12 Hp. destruct (compare_at b d B _ _ _ _ _ _ p N N2 Hp) as (pn & pl & c & En & El & Ec & Hc).
  destruct (name_at_ptr _ _ _ N) as (x & r & Ex & Hx). destruct (name_at_ptr _ _ _ N2) as (z & r2 & Ez & Hz).
  destruct (name_at_range b d B _ _ _ N) as (? & ? & ? & _). destruct (name_at_range b d B _ _ _ N2) as (? & ? & ? & _).
  pose proof (lim_zlen b d B). rewrite (ptr_at_at b d B) in En, El by lia. apply Ok_inj in En, El. subst pn pl.
  unfold smart_compare. rewrite !(ptr_at_at b d B) by lia. cbn [mbind outcome_bind].
  assert (deref (zdrop o d) = Ok x) as -> by (by rewrite Ex). cbn [mbind outcome_bind]. destruct (LABEL_IS_PTR x) eqn:HP; [|by exists c].
  destruct (Hx eq_refl) as (y & r' & -> & Hy & e' & N'). assert (index (zdrop o d) 1 = Ok y) as -> by (by rewrite Ex). cbn [mbind outcome_bind].
  unfold sldns_buffer_limit. cbn [_limit set_pos]. rewrite leb_false by lia.
  rewrite (at_ok _ d) by (by apply at_buf || (cbn; lia)). cbn [mbind outcome_bind].
  destruct (bool_decide (Some o1 = Some (PTR_OFFSET x y))) eqn:E1; cbn [orb].
  { apply bool_decide_eq_true in E1. injection E1 as ->. destruct (pkt_name_fun _ _ _ _ _ _ _ N' N1) as [-> _]. by exists 0. }
  destruct (Z.eqb_spec (PTR_OFFSET x y) o2) as [<-|].
  { destruct (pkt_name_fun _ _ _ _ _ _ _ N' N2) as [-> _]. by exists 0. }
  assert (deref (zdrop o2 d) = Ok z) as -> by (by rewrite Ez). cbn [mbind outcome_bind].
  destruct (LABEL_IS_PTR z) eqn:HPz; cbn [andb]; [|by exists c].
  destruct (Z.eqb_spec z x) as [->|]; [|by exists c].
  destruct (Hz eq_refl) as (y2 & r2' & -> & Hy2 & e2' & N2'). assert (index (zdrop o2 d) 1 = Ok y2) as -> by (by rewrite Ez). cbn [mbind outcome_bind].
  destruct (Z.eqb_spec y2 y) as [->|]; [|by exists c].
  destruct (pkt_name_fun _ _ _ _ _ _ _ N' N2') as [-> _]. by exists 0.
Qed.
End Compare.
