(* ===== verification/MsgRdata.v ===== *)
(** * Parsing packets: rdata, and its size without compression

    [rdata] says what the rdata of an RR is when its domain names are written out;
    [calc_size] computes its length, and accepts exactly what can be written out. *)

From S2P Require Import Prelude Sbuffer Lookup3 Dname DnameCompare DnamePkt RrDef Msgparse MsgPkt.

(** ** The table of RR types *)

(** The fields before the last domain name have a size the parser knows. *)
Fixpoint usable (fs : list sldns_rdf_type) (count : Z) : bool :=
  (count =? 0) ||
  match fs with
  | [] => false
  | LDNS_RDF_TYPE_DNAME :: fs' => usable fs' (count - 1)
  | LDNS_RDF_TYPE_STR :: fs' => usable fs' count
  | f :: fs' => match get_rdf_size f with Ok _ => usable fs' count | _ => false end
  end.

Lemma descript_loop_in l type desc : descript_loop l type = Some desc -> desc ∈ l.
Proof.
  induction l as [|x l IH]; cbn; [done|]. destruct (_ =? _); [intros [= ->]; left|]. intros H. right. by apply IH.
Qed.

Lemma descript_in type desc : sldns_rr_descript type = Some desc -> desc ∈ rdata_field_descriptors.
Proof.
  unfold sldns_rr_descript. destruct (_ <? _); [apply list_elem_of_lookup_2|].
  destruct (descript_loop _ _) eqn:E; [|apply list_elem_of_lookup_2].
  intros [= <-]. apply descript_loop_in in E. unfold zdrop in E. eapply elem_of_submseteq; [exact E|].
  apply sublist_submseteq, sublist_drop.
Qed.

Lemma table_usable : forallb (fun x => usable x.(_wireformat) x.(_dname_count) && (0 <=? x.(_dname_count)) && (x.(_dname_count) <=? 2)) rdata_field_descriptors = true.
Proof. vm_compute. reflexivity. Qed.

Definition fields (type : Z) : list sldns_rdf_type :=
  match sldns_rr_descript type with Some desc => desc.(_wireformat) | None => [] end.
Definition dnames (type : Z) : Z :=
  match sldns_rr_descript type with Some desc => desc.(_dname_count) | None => 0 end.

Lemma type_usable type : usable (fields type) (dnames type) = true /\ 0 <= dnames type <= 2.
Proof.
  unfold fields, dnames. destruct (sldns_rr_descript type) as [desc|] eqn:E; [|done].
  apply descript_in in E. pose proof table_usable as H. rewrite forallb_forall in H.
  apply list_elem_of_In in E. apply H in E. rewrite !andb_true_iff, !Z.leb_le in E. tauto.
Qed.

Section Rdata.
Context (b : sldns_buffer) (d : list Z) (B : buf_ok b d).
Abbreviation lim := (b.(_limit)).
Abbreviation at_ p := (set_pos b p).

(** The length of a field that is not a domain name. *)
Definition field_size (f : sldns_rdf_type) (pos : Z) : outcome Z :=
  if decide (f = LDNS_RDF_TYPE_STR) then x ← index d pos; Ok (x + 1) else get_rdf_size f.

(** The rdata of [len] bytes at [pos], with [count] domain names to write out. *)
Inductive rdata : list sldns_rdf_type -> Z -> Z -> Z -> list Z -> Prop :=
  | rdata_rest fs count pos len :
      len = 0 \/ count = 0 -> rdata fs count pos len (ztake len (zdrop pos d))
  | rdata_dname fs count pos len ls e out :
      0 < len -> count <> 0 -> name_at b d pos ls e -> e <= len ->
      rdata fs (count - 1) (pos + e) (len - e) out ->
      rdata (LDNS_RDF_TYPE_DNAME :: fs) count pos len (wire ls ++ out)
  | rdata_field f fs count pos len n out :
      0 < len -> count <> 0 -> f <> LDNS_RDF_TYPE_DNAME -> field_size f pos = Ok n -> n <= len ->
      rdata fs count (pos + n) (len - n) out ->
      rdata (f :: fs) count pos len (ztake n (zdrop pos d) ++ out).

Lemma rdata_fun fs count pos len out : rdata fs count pos len out ->
  forall out', rdata fs count pos len out' -> out = out'.
Proof.
  induction 1 as [fs count pos len H|fs count pos len ls e out H1 H2 N He H IH|f fs count pos len n out H1 H2 Hf Hn Hl H IH];
    intros out' H'; inversion H'; subst; try done; try lia.
  - match goal with N' : name_at _ _ _ ?l _ |- _ => destruct (pkt_name_fun _ _ _ _ _ _ _ N N') as [<- <-] end. f_equal. by apply IH.
  - match goal with N' : field_size _ _ = _ |- _ => rewrite Hn in N'; apply Ok_inj in N' as <- end. f_equal. by apply IH.
Qed.

(** The RR whose TTL is at [ttl]: its rdata written out. *)
Definition rdata_of (type ttl : Z) (out : list Z) : Prop :=
  0 <= ttl /\ ttl + 6 + u16_at d (ttl + 4) <= lim /\
  rdata (fields type) (dnames type) (ttl + 6) (u16_at d (ttl + 4)) out.

Lemma rdata_of_fun type ttl out out' : rdata_of type ttl out -> rdata_of type ttl out' -> out = out'.
Proof. intros (_ & _ & H) (_ & _ & H'). by eapply rdata_fun. Qed.

Lemma get_rdf_size_range f n : get_rdf_size f = Ok n -> 1 <= n <= 16.
Proof. destruct f; cbn; intros [= <-]; lia. Qed.

Lemma field_size_range f pos n : field_size f pos = Ok n -> 1 <= n <= 256.
Proof.
  unfold field_size. destruct (decide _).
  - intros (x & Hx & E)%bind_inv. apply Ok_inj in E as <-. apply index_byte in Hx; [|apply B]. unfold in_u in Hx. lia.
  - intros H%get_rdf_size_range. lia.
Qed.

Lemma usable_field f fs count pos : usable (f :: fs) count = true -> count <> 0 -> f <> LDNS_RDF_TYPE_DNAME -> 0 <= pos < lim ->
  usable fs count = true /\ exists n, field_size f pos = Ok n.
Proof.
  intros U Hc Hf Hp. unfold field_size. pose proof (lim_zlen b d B). cbn [usable] in U. rewrite eqb_false in U by done. cbn [orb] in U.
  destruct (decide (f = LDNS_RDF_TYPE_STR)) as [->|Hs].
  - split; [done|]. destruct (index_ok d pos) as (x & E & _); [lia|]. rewrite E. by exists (x + 1).
  - destruct f; try done; try (split; [done|by eexists]).
Qed.

(** The length of a field, read at the position. *)
Lemma field_ask f pos n : 0 <= pos < lim -> field_size f pos = Ok n ->
  ask (fun b => if decide (f = LDNS_RDF_TYPE_STR) then p ← sldns_buffer_current b; x ← deref p; Ok (x + 1) else get_rdf_size f) (at_ pos)
  = Ok (n, at_ pos).
Proof.
  intros Hp. unfold field_size, ask. destruct (decide _); [|by intros ->]. pose proof (lim_zlen b d B).
  unfold sldns_buffer_current. rewrite (at_ok _ d); [|apply at_buf; [done|lia]|cbn; lia]. cbn [mbind outcome_bind _position set_pos].
  assert (deref (zdrop pos d) = index d pos) as ->; [|intros E; by rewrite E].
  destruct (index_ok d pos) as (x & E & Hx); [lia|]. rewrite E. unfold zdrop. by rewrite (drop_S _ _ _ Hx).
Qed.

Lemma zlen_take_at n pos : 0 <= n -> 0 <= pos -> pos + n <= lim -> zlen (ztake n (zdrop pos d)) = n.
Proof. intros. pose proof (lim_zlen b d B). apply zlen_ztake. rewrite zlen_zdrop; lia. Qed.

Lemma calc_size_loop_at fs : forall len count size pos, usable fs count = true -> 0 <= count -> 0 <= len < 2 ^ 16 ->
  0 <= pos -> pos + len <= lim -> 0 <= size -> size + len + 255 * count < 2 ^ 32 ->
  exists r size' q, calc_size_loop fs len count size (at_ pos) = Ok ((r, size'), at_ q) /\ 0 <= q <= lim /\
    match r with
    | Some rest => exists out, rdata fs count pos len out /\ 0 <= rest < 2 ^ 16 /\ q + rest = pos + len /\ 0 <= size' /\
                     size' + rest = size + zlen out /\ size' + rest <= size + len + 255 * count
    | None => forall out, ~ rdata fs count pos len out
    end.
Proof.
  induction fs as [|f fs IH]; intros len count size pos U Hc Hlen Hp Hpl Hs Hb; cbn [calc_size_loop].
  - destruct ((0 <? len) && negb (count =? 0)) eqn:E; cbn [negb].
    { cbn in U. rewrite orb_false_r in U. apply andb_prop in E as [_ E]. by rewrite U in E. }
    eexists _, _, _. split; [reflexivity|]. split; [lia|]. exists (ztake len (zdrop pos d)). split; [constructor; lia|].
    rewrite zlen_take_at by lia. lia.
  - destruct ((0 <? len) && negb (count =? 0)) eqn:E; cbn [negb].
    2:{ eexists _, _, _. split; [reflexivity|]. split; [lia|]. exists (ztake len (zdrop pos d)). split; [constructor; lia|].
        rewrite zlen_take_at by lia. lia. }
    assert (0 < len) as Hl0 by lia. assert (count <> 0) as Hc0 by lia. clear E.
    destruct (decide (f = LDNS_RDF_TYPE_DNAME)) as [->|Hf].
    + cbn [usable] in U. rewrite eqb_false in U by done. cbn [orb] in U.
      pstep. destruct (p_dname_len_at b d B pos) as [(ls & e & N & E)|(q & E & Hq & Hno)]; [lia| |].
      * erewrite st_bind_ok by exact E. destruct (name_at_range b d B _ _ _ N) as (_ & He & Hl & [_ H255]).
        pose proof (zlen_wire_pos ls). rewrite eqb_false by lia. pstep. pose proof (bo_cap _ _ B). pose proof (bo_lim _ _ B).
        replace (pos + e - pos) with e by lia. rewrite (wrap_small 64 e) by (unfold in_u; lia). zcase.
        -- eexists _, _, _. split; [reflexivity|]. split; [lia|]. intros out HR. inversion HR; subst; [lia| |done].
           match goal with N' : name_at _ _ _ _ _ |- _ => destruct (pkt_name_fun _ _ _ _ _ _ _ N N') as [<- <-] end. lia.
        -- rewrite (wrap_small 16), (wrap_small 64) by (unfold in_u; lia).
           destruct (IH (len - e) (count - 1) (size + zlen (wire ls)) (pos + e)) as (r & size' & q & E2 & Hq & Hr); try lia; [done|].
           exists r, size', q. split; [exact E2|]. split; [done|]. destruct r as [rest|].
           ++ destruct Hr as (out & HR & ? & ? & ? & ? & ?). exists (wire ls ++ out).
              split; [by eapply rdata_dname|]. rewrite zlen_app. lia.
           ++ intros out HR. inversion HR; subst; [lia| |done].
              match goal with N' : name_at _ _ _ _ _ |- _ => destruct (pkt_name_fun _ _ _ _ _ _ _ N N') as [<- <-] end. by eapply Hr.
      * erewrite st_bind_ok by exact E. cbn [Z.eqb]. eexists _, _, _. split; [reflexivity|]. split; [done|].
        intros out HR. inversion HR; subst; [lia| |done]. by eapply Hno.
    + destruct (usable_field f fs count pos U Hc0 Hf) as [U' (n & Hn)]; [lia|].
      pose proof (field_size_range _ _ _ Hn) as Hn'.
      pose proof (field_ask f pos n ltac:(lia) Hn) as Ea.
      match goal with |- exists r size' q, ?X _ = _ /\ _ => 
        assert (X = (len0 ← ask (fun b => if decide (f = LDNS_RDF_TYPE_STR) then p ← sldns_buffer_current b; x ← deref p; Ok (x + 1) else get_rdf_size f);
          if len0 =? 0 then calc_size_loop fs len count size else
          if len <? len0 then mret (None, size) else
          p_skip len0;; calc_size_loop fs (u16 (len - len0)) count (u64 (size + len0)))) as -> by (by destruct f) end.
      erewrite st_bind_ok by exact Ea. rewrite eqb_false by lia. zcase.
      * eexists _, _, _. split; [reflexivity|]. split; [lia|]. intros out HR. inversion HR; subst; [lia|done|].
        match goal with N' : field_size _ _ = _ |- _ => rewrite Hn in N'; apply Ok_inj in N' as <- end. lia.
      * pstep. rewrite (wrap_small 16), (wrap_small 64) by (unfold in_u; lia).
        destruct (IH (len - n) count (size + n) (pos + n)) as (r & size' & q & E2 & Hq & Hr); try lia; [done|].
        exists r, size', q. split; [exact E2|]. split; [done|]. destruct r as [rest|].
        -- destruct Hr as (out & HR & ? & ? & ? & ? & ?). exists (ztake n (zdrop pos d) ++ out).
           split; [by eapply rdata_field|]. rewrite zlen_app, zlen_take_at by lia. lia.
        -- intros out HR. inversion HR; subst; [lia|done|].
           match goal with N' : field_size _ _ = _ |- _ => rewrite Hn in N'; apply Ok_inj in N' as <- end. by eapply Hr.
Qed.

Lemma rdata_bound fs count pos len out : rdata fs count pos len out -> 0 <= pos -> 0 <= len -> pos + len <= lim -> 0 <= count -> zlen out <= len + 255 * count.
Proof.
  induction 1 as [fs count pos len H|fs count pos len ls e out H1 H2 N He H IH|f fs count pos len n out H1 H2 Hf Hn Hl H IH]; intros.
  - rewrite zlen_take_at by lia. lia.
  - destruct (name_at_range b d B _ _ _ N) as (_ & ? & _ & [_ ?]). rewrite zlen_app. lia.
  - pose proof (field_size_range _ _ _ Hn). rewrite zlen_app, zlen_take_at by lia. lia.
Qed.

(** [calc_size] accepts exactly the rdata that can be written out, and [rr->size] is
    the length of that and the two bytes before it. *)
Lemma calc_size_at type p : 0 <= p -> p + 6 <= lim ->
  exists ok size q, calc_size type (at_ p) = Ok ((ok, size), at_ q) /\ 0 <= q <= lim /\
    if ok : bool then q = p + 6 + u16_at d (p + 4) /\ exists out, rdata_of type p out /\ size = 2 + zlen out /\ size < 2 ^ 17
    else forall out, ~ rdata_of type p out.
Proof.
  intros Hp Hl. unfold calc_size. pstep. pstep. pstep. pose proof (u16_at_range b d B (p + 4)) as Hu. unfold in_u in Hu.
  replace (p + 4 + 2) with (p + 6) by lia. zcase.
  { eexists _, _, _. split; [reflexivity|]. split; [lia|]. intros out (_ & H1 & _). lia. }
  set (len := u16_at d (p + 4)) in *. destruct (type_usable type) as [U Hc].
  assert (exists r size' q,
    (match sldns_rr_descript type with
     | Some desc => if (0 <? len) && (0 <? desc.(_dname_count)) then calc_size_loop desc.(_wireformat) len desc.(_dname_count) 2 else mret (Some len, 2)
     | None => mret (Some len, 2) end : P (option Z * Z)) (at_ (p + 6)) = Ok ((r, size'), at_ q) /\ 0 <= q <= lim /\
    match r with
    | Some rest => exists out, rdata (fields type) (dnames type) (p + 6) len out /\ 0 <= rest < 2 ^ 16 /\ q + rest = p + 6 + len /\ 0 <= size' /\
                     size' + rest = 2 + zlen out /\ size' + rest <= 2 + len + 255 * dnames type
    | None => forall out, ~ rdata (fields type) (dnames type) (p + 6) len out
    end) as (r & size' & q & E & Hq & Hr).
  { unfold fields, dnames in *. destruct (sldns_rr_descript type) as [desc|].
    - destruct ((0 <? len) && (0 <? desc.(_dname_count))) eqn:E.
      + apply calc_size_loop_at; lia || done.
      + eexists _, _, _. split; [reflexivity|]. split; [lia|]. exists (ztake len (zdrop (p + 6) d)).
        split; [constructor; lia|]. rewrite zlen_take_at by lia. lia.
    - eexists _, _, _. split; [reflexivity|]. split; [lia|]. exists (ztake len (zdrop (p + 6) d)).
      split; [constructor; lia|]. rewrite zlen_take_at by lia. lia. }
  erewrite st_bind_ok by exact E. destruct r as [rest|].
  - destruct Hr as (out & HR & ? & ? & ? & ? & ?). rewrite (st_bind_ok _ _ _ _ _ (p_skip_at b d B rest q ltac:(lia) ltac:(lia) ltac:(lia))).
    eexists _, _, _. split; [reflexivity|]. split; [lia|]. split; [lia|]. exists out. split; [split; [lia|]; split; [lia|done]|].
    rewrite wrap_small by (unfold in_u; lia). lia.
  - eexists _, _, _. split; [reflexivity|]. split; [done|]. intros out (_ & _ & HR). by eapply Hr.
Qed.

Lemma skip_ttl_rdata_at p : 0 <= p <= lim ->
  exists ok q, skip_ttl_rdata (at_ p) = Ok (ok, at_ q) /\ 0 <= q <= lim /\
    (ok = true <-> p + 6 <= lim /\ p + 6 + u16_at d (p + 4) <= lim) /\ (ok = true -> q = p + 6 + u16_at d (p + 4)).
Proof.
  intros Hp. unfold skip_ttl_rdata. pstep. zcase.
  { eexists _, _. split; [reflexivity|]. split; [lia|]. split; [split; [done|lia]|done]. }
  pstep. pstep. pstep. pose proof (u16_at_range b d B (p + 4)) as Hu. unfold in_u in Hu. replace (p + 4 + 2) with (p + 6) by lia. zcase.
  - eexists _, _. split; [reflexivity|]. split; [lia|]. split; [split; [done|lia]|done].
  - pstep. eexists _, _. split; [reflexivity|]. split; [lia|]. split; [split; [lia|done]|done].
Qed.

(** [skip_pkt_rrs] ends, inside the packet. *)
Lemma skip_pkt_rrs_at n : forall p, 0 <= p <= lim -> exists ok q, skip_pkt_rrs n (at_ p) = Ok (ok, at_ q) /\ 0 <= q <= lim.
Proof.
  induction n as [|n IH]; intros p Hp; cbn [skip_pkt_rrs]; [by eexists _, _|].
  assert (exists ok q, skip_pkt_rr (at_ p) = Ok (ok, at_ q) /\ 0 <= q <= lim) as (ok & q & E & Hq).
  { unfold skip_pkt_rr. pstep. zcase; [by eexists _, _|].
    destruct (p_dname_len_at b d B p Hp) as [(ls & e & N & E)|(q & E & Hq & _)]; erewrite st_bind_ok by exact E; [|by eexists _, _].
    destruct (name_at_range b d B _ _ _ N) as (_ & ? & ? & _). pose proof (zlen_wire_pos ls). rewrite eqb_false by lia.
    pstep. zcase; [eexists _, _; split; [reflexivity|lia]|]. pstep.
    destruct (skip_ttl_rdata_at (p + e + 4)) as (ok & q & E' & Hq & _); [lia|]. by exists ok, q. }
  erewrite st_bind_ok by exact E. destruct ok; [by apply IH|by eexists _, _].
Qed.
End Rdata.

(** C6. [calc_size] accepts exactly the rdata that can be written out, with its domain
    names decompressed; [rr->size] is the length of that and two bytes more, and the
    position is then after the record.  It does not leave the packet in any case. *)
Theorem calc_size_spec b d type p : buf_ok b d -> 0 <= p -> p + 6 <= b.(_limit) ->
  exists ok size q, calc_size type (set_pos b p) = Ok ((ok, size), set_pos b q) /\ 0 <= q <= b.(_limit) /\
    (ok = true <-> exists out, rdata_of b d type p out) /\
    forall out, rdata_of b d type p out -> size = 2 + zlen out /\ size < 2 ^ 17 /\ q = p + 6 + u16_at d (p + 4).
Proof.
  intros B Hp Hl. destruct (calc_size_at b d B type p Hp Hl) as (ok & size & q & E & Hq & H). exists ok, size, q. do 2 (split; [done|]). destruct ok.
  - destruct H as (-> & out & Ho & Hs & Hb). split; [split; [by exists out|done]|]. intros out' Ho'. by rewrite (rdata_of_fun b d type p out' out).
  - split; [split; [done|intros (out & Ho); by destruct (H out)]|]. intros out Ho. by destruct (H out).
Qed.

(** An MX record, the name of which is a pointer. *)
Definition mx_data : list Z := [1; 97; 0; 0; 0; 0; 60; 0; 4; 0; 5; 192; 0].
Definition mx_packet : sldns_buffer := mk_buffer 0 13 13 (Some mx_data) false false.

Lemma calc_size_spec_witness :
  exists ok size q, calc_size 15 (set_pos mx_packet 3) = Ok ((ok, size), set_pos mx_packet q) /\ 0 <= q <= mx_packet.(_limit) /\
    (ok = true <-> exists out, rdata_of mx_packet mx_data 15 3 out) /\
    forall out, rdata_of mx_packet mx_data 15 3 out -> size = 2 + zlen out /\ size < 2 ^ 17 /\ q = 3 + 6 + u16_at mx_data (3 + 4).
Proof.
  apply (calc_size_spec mx_packet mx_data 15 3); [|lia|cbn; lia]. split; cbn; try done. repeat constructor; unfold is_byte, in_u; lia.
Defined.
