(* ===== verification/MsgLists.v ===== *)
(** * Parsing packets: linked lists

    Lists of structures in a finite map, linked by a field [f]; the list of all RRsets
    and the hash buckets are such lists over the RRsets, the RRs of a set over the RRs. *)

From stdpp Require Import functions.
From S2P Require Import Prelude Msgparse.

Section Seg.
Context {V : Type} (f : V -> ptr).
Implicit Types (M : gmap addr V) (p q : ptr) (l : list addr) (a b x : addr) (s : V).

(** From [p] the elements of [l] follow, and then [q]. *)
Fixpoint seg M p l q : Prop :=
  match l with
  | [] => p = q
  | a :: l' => p = Some a /\ exists s, M !! a = Some s /\ seg M (f s) l' q
  end.

Lemma lseg_app M l1 l2 q : forall p, seg M p (l1 ++ l2) q <-> exists m, seg M p l1 m /\ seg M m l2 q.
Proof.
  induction l1 as [|a l1 IH]; intros p; cbn [seg app].
  - split; [by exists p|by intros (m & -> & H)].
  - split.
    + intros (-> & s & Hs & (m & H1 & H2)%IH). exists m. split; [|done]. split; [done|]. by exists s.
    + intros (m & (-> & s & Hs & H1) & H2). split; [done|]. exists s. split; [done|]. apply IH. by exists m.
Qed.

Lemma seg_head M p l q : seg M p l q -> p = hd_or l q.
Proof. destruct l; [done|]. by intros [-> _]. Qed.

Lemma lseg_frame M M' l q : forall p, (forall a, a ∈ l -> f <$> M' !! a = f <$> M !! a) -> seg M p l q -> seg M' p l q.
Proof.
  induction l as [|a l IH]; intros p H; [done|]. intros (-> & s & Hs & H'). split; [done|].
  pose proof (H a ltac:(left)) as E. rewrite Hs in E. destruct (M' !! a) as [s'|] eqn:Hs'; [|done]. injection E as E.
  exists s'. split; [done|]. rewrite E. apply IH; [|done]. intros y Hy. apply H. by right.
Qed.

Lemma seg_insert_ne M a s l p q : a ∉ l -> seg M p l q -> seg (<[a := s]> M) p l q.
Proof. intros Ha. apply lseg_frame. intros y Hy. rewrite lookup_insert_ne; [done|]. by intros ->. Qed.

Lemma seg_insert_same M a s s' l p q : M !! a = Some s -> f s' = f s -> seg M p l q -> seg (<[a := s']> M) p l q.
Proof.
  intros Ha E. apply lseg_frame. intros y _. destruct (decide (y = a)) as [->|].
  - rewrite lookup_insert_eq, Ha. cbn. by rewrite E.
  - by rewrite lookup_insert_ne.
Qed.

Lemma lseg_lookup M p l q a : seg M p l q -> a ∈ l -> is_Some (M !! a).
Proof.
  revert p. induction l as [|x l IH]; intros p; [by intros _ H%not_elem_of_nil|].
  intros (_ & s & Hs & H) [->|Ha]%elem_of_cons; [by rewrite Hs|by eapply IH].
Qed.

Lemma seg_last M l a p q s : seg M p (l ++ [a]) q -> M !! a = Some s -> f s = q.
Proof. intros (m & _ & -> & s' & Hs' & H)%lseg_app Hs. rewrite Hs in Hs'. by injection Hs' as <-. Qed.

(** The last element gets another one after it. *)
Lemma seg_set_last M l a p q q' s : a ∉ l -> seg M p (l ++ [a]) q -> f s = q' -> seg (<[a := s]> M) p (l ++ [a]) q'.
Proof.
  intros Ha (m & H1 & -> & s' & Hs' & _)%lseg_app E. apply lseg_app. exists (Some a). split; [by apply seg_insert_ne|].
  split; [done|]. exists s. by rewrite lookup_insert_eq.
Qed.

Lemma seg_snoc M l a p x s sx : a ∉ l -> x ∉ l ++ [a] -> seg M p (l ++ [a]) None -> M !! x = Some sx -> f sx = None -> f s = Some x ->
  seg (<[a := s]> M) p ((l ++ [a]) ++ [x]) None.
Proof.
  intros Ha Hx H Hsx Ex Es. apply lseg_app. exists (Some x). split; [by eapply seg_set_last|]. split; [done|].
  exists sx. rewrite lookup_insert_ne; [done|]. intros ->. apply Hx. apply elem_of_app. right. by left.
Qed.

(** An element is taken out: the one before gets its next. *)
Lemma seg_remove M l1 b a l2 p q s sb : NoDup (l1 ++ b :: a :: l2) -> seg M p (l1 ++ b :: a :: l2) q -> M !! a = Some s -> f sb = f s ->
  seg (<[b := sb]> M) p (l1 ++ b :: l2) q.
Proof.
  intros Hn (m & H1 & -> & s1 & Hs1 & _ & s2 & Hs2 & H2)%lseg_app Hs E. rewrite Hs in Hs2. injection Hs2 as <-.
  apply NoDup_app in Hn as (_ & Hd & [Hb Hn]%NoDup_cons). apply lseg_app. exists (Some b). split.
  - apply seg_insert_ne; [|done]. intros Hb'. apply (Hd b Hb'). left.
  - split; [done|]. exists sb. rewrite lookup_insert_eq. split; [done|]. rewrite E. apply seg_insert_ne; [|done].
    intros H. apply Hb. by right.
Qed.

Lemma seg_tail M a l p q s : seg M p (a :: l) q -> M !! a = Some s -> p = Some a /\ seg M (f s) l q.
Proof. intros (-> & s' & Hs' & H) Hs. rewrite Hs in Hs'. by injection Hs' as <-. Qed.

Lemma seg_length M l p q : NoDup l -> seg M p l q -> (length l <= size M)%nat.
Proof.
  intros Hn H. rewrite <- size_dom, <- (size_list_to_set (C := gset addr) l) by done.
  apply subseteq_size. intros a Ha. apply elem_of_list_to_set in Ha. apply elem_of_dom. by eapply lseg_lookup.
Qed.
End Seg.

Lemma fmap_insert_same {K} {V W : Type} `{Countable K} (g : V -> W) (M : gmap K V) a s s' :
  M !! a = Some s -> g s' = g s -> g <$> <[a := s']> M = g <$> M.
Proof. intros Ha E. rewrite fmap_insert, E. apply insert_id. by rewrite lookup_fmap, Ha. Qed.

Lemma last_snoc_inv {A} (l : list A) a : list.last l = Some a -> exists l0, l = l0 ++ [a].
Proof. intros H. by apply last_Some in H. Qed.


(** ** What the parts of the data structure depend on *)

Record key := mk_key { k_dname : Z; k_dname_len : Z; k_type : Z; k_class : list Z; k_flags : Z }.
Record part := mk_part { pt_count : Z; pt_first : ptr; pt_last : ptr }.

Definition v_next (s : rrset_parse) : ptr := s.(s_all_next).
Definition v_bucket (s : rrset_parse) : ptr * Z := (s.(s_bucket_next), s.(s_hash)).
Definition v_section (s : rrset_parse) : sldns_pkt_section := s.(s_section).
Definition v_key (s : rrset_parse) : key := mk_key s.(s_dname) s.(s_dname_len) s.(s_type) s.(s_class) s.(s_flags).
Definition v_rrs (s : rrset_parse) : part := mk_part s.(s_rr_count) s.(s_rr_first) s.(s_rr_last).
Definition v_sigs (s : rrset_parse) : part := mk_part s.(s_rrsig_count) s.(s_rrsig_first) s.(s_rrsig_last).
Definition v_lists (s : rrset_parse) : part * part * Z := (v_rrs s, v_sigs s, s.(s_size)).
Definition v_data (r : rr_parse) : Z * bool * Z := (r.(r_ttl_data), r.(r_outside_packet), r.(r_size)).

(** *** The list of all RRsets *)

Record all_ok (A : gmap addr ptr) (first last : ptr) (L : list addr) : Prop := {
  a_seg : seg id A first L None;
  a_last : last = list.last L;
  a_nodup : NoDup L;
}.

Lemma all_append_last A first l L x : all_ok A first (Some l) L -> x ∉ L -> A !! x = Some None ->
  l ∈ L /\ all_ok (<[l := Some x]> A) first (Some x) (L ++ [x]).
Proof.
  intros [H1 H2 H3] Hx Ha. symmetry in H2. destruct (last_snoc_inv _ _ H2) as (L0 & ->).
  split; [apply elem_of_app; right; by left|]. apply NoDup_app in H3 as H3'. destruct H3' as (_ & Hd & _). split.
  - apply (seg_snoc id A L0 l first x (Some x) None); try done. intros Hl. apply (Hd l Hl). by left.
  - by rewrite last_snoc.
  - apply NoDup_app. split; [done|]. split; [|apply NoDup_singleton]. by intros y Hy ->%list_elem_of_singleton.
Qed.

Lemma all_append_first A first L x : all_ok A first None L -> A !! x = Some None ->
  all_ok A (Some x) (Some x) (L ++ [x]).
Proof.
  intros [H1 H2 H3] Ha. symmetry in H2. apply last_None in H2 as ->. split; [|done|apply NoDup_singleton].
  split; [done|]. by exists None.
Qed.

(** *** The buckets *)

Definition in_bucket (i : nat) (v : ptr * Z) : Prop := Z.to_nat (bucket_of v.2) = i.

Definition buckets_ok (Bk : gmap addr (ptr * Z)) (ht : list ptr) : Prop :=
  length ht = 32%nat /\
  forall i p, ht !! i = Some p -> exists l, seg fst Bk p l None /\ NoDup l /\
    forall a, a ∈ l <-> exists v, Bk !! a = Some v /\ in_bucket i v.

Lemma bucket_range h : (Z.to_nat (bucket_of h) < 32)%nat.
Proof.
  unfold bucket_of, PARSE_TABLE_SIZE. change (32 - 1) with (Z.ones 5). rewrite Z.land_ones by lia.
  pose proof (Z.mod_pos_bound h (2 ^ 5) ltac:(lia)). lia.
Qed.

Lemma bucket_lookup Bk ht h : buckets_ok Bk ht -> exists p, ht !! Z.to_nat (bucket_of h) = Some p.
Proof. intros [Hl _]. apply lookup_lt_is_Some_2. rewrite Hl. apply bucket_range. Qed.

Lemma buckets_insert Bk ht a p h : buckets_ok Bk ht -> Bk !! a = None -> ht !! Z.to_nat (bucket_of h) = Some p ->
  buckets_ok (<[a := (p, h)]> Bk) (<[Z.to_nat (bucket_of h) := Some a]> ht).
Proof.
  intros [Hl H] Ha Hp. split; [by rewrite length_insert|]. intros i q Hq.
  assert (forall l : list addr, (forall x, x ∈ l -> is_Some (Bk !! x)) -> a ∉ l) as Hnot by (intros l Hx Hin; destruct (Hx a Hin); congruence).
  destruct (decide (i = Z.to_nat (bucket_of h))) as [->|Hi].
  - rewrite list_lookup_insert_eq in Hq by (rewrite Hl; apply bucket_range). injection Hq as <-.
    destruct (H _ _ Hp) as (l & Hs & Hn & Hm). assert (a ∉ l) as Hal by (apply Hnot; intros x (v & Hv & _)%Hm; by exists v).
    exists (a :: l). split; [split; [done|]; exists (p, h); rewrite lookup_insert_eq; split; [done|by apply seg_insert_ne]|].
    split; [by apply NoDup_cons|]. intros x. rewrite elem_of_cons. destruct (decide (x = a)) as [->|Hx].
    + rewrite lookup_insert_eq. split; [intros _; by exists (p, h)|by left].
    + rewrite lookup_insert_ne by done. rewrite Hm. naive_solver.
  - rewrite list_lookup_insert_ne in Hq by done. destruct (H _ _ Hq) as (l & Hs & Hn & Hm).
    assert (a ∉ l) as Hal by (apply Hnot; intros x (v & Hv & _)%Hm; by exists v).
    exists l. split; [by apply seg_insert_ne|]. split; [done|]. intros x. rewrite Hm. destruct (decide (x = a)) as [->|Hx].
    + rewrite lookup_insert_eq. split; [intros (v & Hv & _); congruence|]. intros (v & [= <-] & Hv). by unfold in_bucket in Hv.
    + by rewrite lookup_insert_ne.
Qed.

(** The RRset [a] is taken out of its bucket, which it starts, or where [b] is before it. *)
Lemma buckets_remove_first Bk ht a n h : buckets_ok Bk ht -> Bk !! a = Some (n, h) ->
  ht !! Z.to_nat (bucket_of h) = Some (Some a) ->
  buckets_ok (delete a Bk) (<[Z.to_nat (bucket_of h) := n]> ht).
Proof.
  intros [Hl H] Ha Hp. split; [by rewrite length_insert|]. intros i q Hq.
  destruct (decide (i = Z.to_nat (bucket_of h))) as [->|Hi].
  - rewrite list_lookup_insert_eq in Hq by (rewrite Hl; apply bucket_range). injection Hq as <-.
    destruct (H _ _ Hp) as (l' & Hs & Hn & Hm). destruct l' as [|a' l']; [done|].
    pose proof (seg_head _ _ _ _ _ Hs) as Ea. injection Ea as <-. destruct (seg_tail _ _ _ _ _ _ _ Hs Ha) as [_ Hs']. apply NoDup_cons in Hn as [Hal Hn].
    exists l'. split; [|split; [done|]].
    + eapply lseg_frame; [|exact Hs']. intros x Hx. rewrite lookup_delete_ne; [done|]. by intros ->.
    + intros x. destruct (decide (x = a)) as [->|Hx].
      * rewrite lookup_delete_eq. split; [done|by intros (v & Hv & _)].
      * rewrite lookup_delete_ne by done. rewrite <- Hm, elem_of_cons. naive_solver.
  - rewrite list_lookup_insert_ne in Hq by done. destruct (H _ _ Hq) as (l' & Hs & Hn & Hm).
    assert (a ∉ l') as Hal. { intros (v & Hv & Hi')%Hm. rewrite Ha in Hv. injection Hv as <-. by apply Hi. }
    exists l'. split; [|split; [done|]].
    + eapply lseg_frame; [|exact Hs]. intros x Hx. rewrite lookup_delete_ne; [done|]. by intros ->.
    + intros x. rewrite Hm. destruct (decide (x = a)) as [->|Hx].
      * rewrite lookup_delete_eq. split; [|by intros (v & Hv & _)]. intros (v & Hv & Hi'). rewrite Ha in Hv. injection Hv as <-. by destruct Hi.
      * by rewrite lookup_delete_ne.
Qed.

Lemma buckets_remove_next Bk ht a b n h hb l1 l2 nb p : buckets_ok Bk ht -> Bk !! a = Some (n, h) -> Bk !! b = Some (nb, hb) ->
  ht !! Z.to_nat (bucket_of h) = Some p -> seg fst Bk p (l1 ++ b :: a :: l2) None -> NoDup (l1 ++ b :: a :: l2) ->
  (forall x, x ∈ l1 ++ b :: a :: l2 <-> exists v, Bk !! x = Some v /\ in_bucket (Z.to_nat (bucket_of h)) v) ->
  buckets_ok (delete a (<[b := (n, hb)]> Bk)) ht.
Proof.
  intros [Hl H] Ha Hb Hp Hs Hn Hm. split; [done|]. intros i q Hq.
  apply NoDup_app in Hn as Hn'. destruct Hn' as (Hn1 & Hd & [Hb2 [Ha2 Hn2]%NoDup_cons]%NoDup_cons).
  assert (a <> b) as Hab by (intros ->; apply Hb2; by left).
  assert (in_bucket (Z.to_nat (bucket_of h)) (nb, hb)) as Hbi.
  { destruct (proj1 (Hm b)) as (v & Hv & Hi); [apply elem_of_app; right; by left|]. congruence. }
  destruct (decide (i = Z.to_nat (bucket_of h))) as [->|Hi].
  - rewrite Hp in Hq. injection Hq as <-. exists (l1 ++ b :: l2).
    pose proof (seg_remove fst Bk l1 b a l2 p None (n, h) (n, hb) Hn Hs Ha eq_refl) as Hs'.
    assert (a ∉ l1 ++ b :: l2) as Hal.
    { intros [H1|[H1|H1]%elem_of_cons]%elem_of_app; [|by apply Hab|by apply Ha2]. apply (Hd a H1). right. by left. }
    split; [eapply lseg_frame; [|exact Hs']; intros x Hx; rewrite lookup_delete_ne; [done|by intros ->]|]. split.
    + apply NoDup_app. split; [done|]. split; [|apply NoDup_cons; split; [by intros Hx; apply Hb2; right|done]].
      intros x Hx Hx'. apply (Hd x Hx). apply elem_of_cons in Hx' as [->|?]; [by left|right; by right].
    + intros x. destruct (decide (x = a)) as [->|Hx]; [rewrite lookup_delete_eq; split; [done|by intros (v & Hv & _)]|].
      rewrite lookup_delete_ne by done. specialize (Hm x). rewrite !elem_of_app, !elem_of_cons in Hm |- *.
      destruct (decide (x = b)) as [->|Hxb].
      * rewrite lookup_insert_eq. split; [intros _; by exists (n, hb)|intros _; right; by left].
      * rewrite lookup_insert_ne by done. rewrite <- Hm. rewrite (elem_of_cons l2). clear - Hx. tauto.
  - destruct (H _ _ Hq) as (l & Hs' & Hn' & Hm'). assert (a ∉ l) as Hal.
    { intros (v & Hv & Hi')%Hm'. rewrite Ha in Hv. injection Hv as <-. by apply Hi. }
    assert (b ∉ l) as Hbl.
    { intros (v & Hv & Hi')%Hm'. rewrite Hb in Hv. injection Hv as <-. apply Hi. by rewrite <- Hi', Hbi. }
    exists l. split; [|split; [done|]].
    + eapply lseg_frame; [|apply seg_insert_ne; [exact Hbl|exact Hs']]. intros x Hx. rewrite lookup_delete_ne; [done|]. by intros ->.
    + intros x. rewrite Hm'. destruct (decide (x = a)) as [->|Hx].
      * rewrite lookup_delete_eq. split; [|by intros (v & Hv & _)]. intros (v & Hv & Hi'). rewrite Ha in Hv. injection Hv as <-. by destruct Hi.
      * rewrite lookup_delete_ne by done. destruct (decide (x = b)) as [->|Hxb]; [|by rewrite lookup_insert_ne].
        rewrite lookup_insert_eq, Hb. split.
        -- intros (v & [= <-] & Hi'). destruct Hi. by rewrite <- Hi', Hbi.
        -- intros (v & [= <-] & Hi'). destruct Hi. by rewrite <- Hi', <- Hbi.
Qed.

(** *** The RRs and the signatures of the RRsets: [R a] and [S a] for the RRset [a] *)

Definition rr_sizes (N : gmap addr rr_parse) (l : list addr) : Z :=
  foldr (fun x n => match N !! x with Some r => r.(r_size) | None => 0 end + n) 0 l.

Record part_ok (N : gmap addr rr_parse) (pt : part) (l : list addr) : Prop := {
  p_seg : seg r_next N pt.(pt_first) l None;
  p_last : pt.(pt_last) = list.last l;
  p_count : pt.(pt_count) = u64 (zlen l);
}.

Definition own (R S : addr -> list addr) (a : addr) : list addr := R a ++ S a.

Lemma zlen_filter {A} (P : A -> Prop) `{forall x, Decision (P x)} (l : list A) : zlen (filter P l) <= zlen l.
Proof. unfold zlen. pose proof (length_filter P l). lia. Qed.

(** No list is longer than [n]. *)
Definition short (n : Z) (R S : addr -> list addr) : Prop := forall a, zlen (R a) <= n /\ zlen (S a) <= n.

Lemma short_mono n m R S : short n R S -> n <= m -> short m R S.
Proof. intros H Hm a. destruct (H a). lia. Qed.

Record lists_ok (H : gmap addr (part * part * Z)) (N : gmap addr rr_parse) (R S : addr -> list addr) : Prop := {
  l_none : forall a, H !! a = None -> own R S a = [];
  l_rrs : forall a r g z, H !! a = Some (r, g, z) -> part_ok N r (R a);
  l_sigs : forall a r g z, H !! a = Some (r, g, z) -> part_ok N g (S a);
  l_size : forall a r g z, H !! a = Some (r, g, z) -> z = u64 (rr_sizes N (own R S a));
  l_nodup : forall a, NoDup (own R S a);
  l_disj : forall a a' x, x ∈ own R S a -> x ∈ own R S a' -> a = a';
}.

Lemma rr_sizes_cons N x l : rr_sizes N (x :: l) = match N !! x with Some r => r.(r_size) | None => 0 end + rr_sizes N l.
Proof. done. Qed.

Lemma rr_sizes_app N l1 l2 : rr_sizes N (l1 ++ l2) = rr_sizes N l1 + rr_sizes N l2.
Proof. induction l1 as [|x l1 IH]; [done|]. cbn [app]. rewrite !rr_sizes_cons, IH. lia. Qed.

Lemma rr_sizes_frame N N' l : (forall x, x ∈ l -> r_size <$> N' !! x = r_size <$> N !! x) -> rr_sizes N' l = rr_sizes N l.
Proof.
  induction l as [|x l IH]; intros H; [done|]. rewrite !rr_sizes_cons, IH by (intros y Hy; apply H; by right).
  pose proof (H x ltac:(left)) as E. destruct (N' !! x), (N !! x); cbn in E; congruence.
Qed.

Lemma part_frame N N' pt l : (forall x, x ∈ l -> r_next <$> N' !! x = r_next <$> N !! x) -> part_ok N pt l -> part_ok N' pt l.
Proof. intros H [H1 H2 H3]. split; [|done|done]. by eapply lseg_frame. Qed.

Lemma u64_add x y : u64 (u64 x + y) = u64 (x + y).
Proof. apply eqw_wrap. by rewrite wrap_eqw. Qed.

Lemma u64_sub x y : u64 (u64 x - y) = u64 (x - y).
Proof. apply eqw_wrap. by rewrite wrap_eqw. Qed.

(** [x] becomes the last of a part. *)
Definition link_last (N : gmap addr rr_parse) (last : ptr) (x : addr) : gmap addr rr_parse :=
  match last with Some l => alter (with_next (Some x)) l N | None => N end.

Definition part_add (pt : part) (x : addr) : part :=
  mk_part (u64 (pt.(pt_count) + 1)) (match pt.(pt_last) with Some _ => pt.(pt_first) | None => Some x end) (Some x).

Lemma alter_lookup {V} (f : V -> V) (M : gmap addr V) a s : M !! a = Some s -> alter f a M = <[a := f s]> M.
Proof.
  intros Hs. apply map_eq. intros x. destruct (decide (x = a)) as [->|].
  - by rewrite lookup_alter_eq, lookup_insert_eq, Hs.
  - by rewrite lookup_alter_ne, lookup_insert_ne.
Qed.

Lemma part_append N pt l x r : part_ok N pt l -> NoDup l -> x ∉ l -> N !! x = Some r -> r.(r_next) = None ->
  part_ok (link_last N pt.(pt_last) x) (part_add pt x) (l ++ [x]).
Proof.
  intros [H1 H2 H3] Hn Hx Hr E. split; cbn.
  - rewrite H2. destruct (list.last l) as [y|] eqn:El; cbn [link_last].
    + destruct (last_snoc_inv _ _ El) as (l0 & ->). apply NoDup_app in Hn as (_ & Hd & _).
      assert (y ∉ l0) as Hy by (intros Hy; apply (Hd y Hy); by left).
      destruct (lseg_lookup r_next N _ _ _ y H1) as (ry & Hry); [apply elem_of_app; right; by left|].
      rewrite (alter_lookup _ _ _ _ Hry).
      by apply (seg_snoc r_next N l0 y _ x (with_next (Some x) ry) r).
    + apply last_None in El as ->. split; [done|]. exists r. by rewrite Hr, E.
  - by rewrite last_snoc.
  - rewrite H3, u64_add, zlen_app. done.
Qed.

Lemma link_last_other N last x y : last <> Some y -> link_last N last x !! y = N !! y.
Proof. intros H. destruct last as [l|]; cbn; [|done]. rewrite lookup_alter_ne; [done|]. congruence. Qed.

Lemma link_last_data N last x : v_data <$> link_last N last x = v_data <$> N.
Proof.
  destruct last as [l|]; cbn; [|done]. apply map_eq. intros y. rewrite !lookup_fmap.
  destruct (decide (y = l)) as [->|]; [|by rewrite lookup_alter_ne]. rewrite lookup_alter_eq. by destruct (N !! l).
Qed.

Lemma data_size (N N' : gmap addr rr_parse) x : v_data <$> N' = v_data <$> N -> r_size <$> N' !! x = r_size <$> N !! x.
Proof.
  intros E. apply (f_equal (fun M => M !! x)) in E. rewrite !lookup_fmap in E.
  destruct (N' !! x), (N !! x); cbn in *; try done. by injection E as _ _ ->.
Qed.

(** All parts but one keep their links when something is put after the last of that one. *)
Lemma part_link_last N pt l last x : (forall y, last = Some y -> y ∉ l) -> part_ok N pt l -> part_ok (link_last N last x) pt l.
Proof. intros H. apply part_frame. intros y Hy. rewrite link_last_other; [done|]. intros E. by apply (H y E). Qed.

Lemma part_last_in N pt l y : part_ok N pt l -> pt.(pt_last) = Some y -> y ∈ l.
Proof. intros [_ H _] E. rewrite E in H. symmetry in H. by apply last_Some_elem_of in H. Qed.

Lemma lists_ext H N R S R' S' : (forall a, R' a = R a) -> (forall a, S' a = S a) -> lists_ok H N R S -> lists_ok H N R' S'.
Proof.
  intros ER ES [H1 H2 H3 H4 H5 H6]. assert (forall a, own R' S' a = own R S a) as E by (intros a; unfold own; by rewrite ER, ES).
  split; intros; rewrite ?ER, ?ES, ?E in *; eauto.
Qed.

Section Update.
Context (H : gmap addr (part * part * Z)) (N : gmap addr rr_parse) (R S : addr -> list addr).
Context (LO : lists_ok H N R S).

Lemma own_rrs a x : x ∈ R a -> x ∈ own R S a.
Proof. intros. apply elem_of_app. by left. Qed.
Lemma own_sigs a x : x ∈ S a -> x ∈ own R S a.
Proof. intros. apply elem_of_app. by right. Qed.

Lemma rrs_disj a a' x : x ∈ R a -> x ∈ R a' -> a = a'.
Proof. intros H1 H2. apply (l_disj _ _ _ _ LO a a' x); by apply own_rrs. Qed.
Lemma sigs_disj a a' x : x ∈ S a -> x ∈ S a' -> a = a'.
Proof. intros H1 H2. apply (l_disj _ _ _ _ LO a a' x); by apply own_sigs. Qed.
Lemma rrs_sigs_disj a a' x : x ∈ R a -> x ∉ S a'.
Proof.
  intros H1 H2. assert (a = a') as -> by (apply (l_disj _ _ _ _ LO a a' x); [by apply own_rrs|by apply own_sigs]).
  pose proof (l_nodup _ _ _ _ LO a') as Hn. apply NoDup_app in Hn as (_ & Hd & _). by apply (Hd x).
Qed.
Lemma rrs_nodup a : NoDup (R a).
Proof. pose proof (l_nodup _ _ _ _ LO a) as Hn. by apply NoDup_app in Hn as (? & _). Qed.
Lemma sigs_nodup a : NoDup (S a).
Proof. pose proof (l_nodup _ _ _ _ LO a) as Hn. by apply NoDup_app in Hn as (_ & _ & ?). Qed.

(** An RR that no RRset has may change. *)
Definition unowned (x : addr) : Prop := forall a, x ∉ own R S a.

Lemma own_lookup a x : x ∈ own R S a -> is_Some (N !! x).
Proof.
  intros Hx. destruct (H !! a) as [[[r g] z]|] eqn:Ha.
  - apply elem_of_app in Hx as [Hx|Hx].
    + destruct (l_rrs _ _ _ _ LO a r g z Ha) as [Hs _ _]. by eapply lseg_lookup.
    + destruct (l_sigs _ _ _ _ LO a r g z Ha) as [Hs _ _]. by eapply lseg_lookup.
  - rewrite (l_none _ _ _ _ LO a Ha) in Hx. by apply not_elem_of_nil in Hx.
Qed.

Lemma fresh_unowned x : N !! x = None -> unowned x.
Proof. intros Hx a Ha. destruct (own_lookup a x Ha) as [r Hr]. congruence. Qed.

Lemma lists_unowned x r : unowned x -> lists_ok H (<[x := r]> N) R S.
Proof.
  intros Hx. assert (forall a y, y ∈ own R S a -> (<[x := r]> N) !! y = N !! y) as Hy.
  { intros a y Hy. rewrite lookup_insert_ne; [done|]. intros <-. by apply (Hx a). }
  split; try apply LO.
  - intros a r0 g z Ha. eapply part_frame; [|by eapply l_rrs]. intros y Hin. by rewrite (Hy a) by by apply own_rrs.
  - intros a r0 g z Ha. eapply part_frame; [|by eapply l_sigs]. intros y Hin. by rewrite (Hy a) by by apply own_sigs.
  - intros a r0 g z Ha. rewrite (l_size _ _ _ _ LO a r0 g z Ha). f_equal. symmetry. apply rr_sizes_frame. intros y Hin. by rewrite (Hy a).
Qed.

Lemma lists_add_rr a r g z x rx : H !! a = Some (r, g, z) -> unowned x -> N !! x = Some rx -> rx.(r_next) = None ->
  lists_ok (<[a := (part_add r x, g, u64 (z + rx.(r_size)))]> H) (link_last N r.(pt_last) x) (<[a := R a ++ [x]]> R) S.
Proof.
  intros Ha Hx Hr Hn. pose proof (l_rrs _ _ _ _ LO a r g z Ha) as PR.
  assert (forall b y, y ∈ own (<[a := R a ++ [x]]> R) S b -> y ∈ own R S b \/ (b = a /\ y = x)) as Hown.
  { intros b y. unfold own. destruct (decide (b = a)) as [->|Hb].
    - rewrite fn_lookup_insert, !elem_of_app, list_elem_of_singleton. tauto.
    - rewrite fn_lookup_insert_ne by done. tauto. }
  split.
  - intros b [Hb ?]%lookup_insert_None. unfold own. rewrite fn_lookup_insert_ne by done. by apply (l_none _ _ _ _ LO).
  - intros b r' g' z'. destruct (decide (b = a)) as [->|Hb].
    + rewrite lookup_insert_eq, fn_lookup_insert. intros [= <- <- <-]. eapply part_append; try done; [by eapply rrs_nodup|].
      intros Hin. apply (Hx a). by apply own_rrs.
    + rewrite lookup_insert_ne, fn_lookup_insert_ne by done. intros Hb'. apply part_link_last; [|by eapply l_rrs].
      intros y E Hin. apply Hb. apply (rrs_disj b a y Hin). by eapply part_last_in.
  - intros b r' g' z' Hb. assert (part_ok N g' (S b)) as PS.
    { destruct (decide (b = a)) as [->|Hne]; [|rewrite lookup_insert_ne in Hb by done; by eapply l_sigs].
      rewrite lookup_insert_eq in Hb. injection Hb as <- <- <-. by eapply l_sigs. }
    apply part_link_last; [|done]. intros y E Hin. apply (rrs_sigs_disj a b y); [by eapply part_last_in|done].
  - assert (forall l, rr_sizes (link_last N r.(pt_last) x) l = rr_sizes N l) as Hsz.
    { intros l. apply rr_sizes_frame. intros y _. apply data_size, link_last_data. }
    intros b r' g' z'. rewrite Hsz. destruct (decide (b = a)) as [->|Hb].
    + rewrite lookup_insert_eq. intros [= <- <- <-]. rewrite (l_size _ _ _ _ LO a r g z Ha), u64_add. f_equal.
      unfold own. rewrite fn_lookup_insert, !rr_sizes_app, rr_sizes_cons, Hr. cbn. lia.
    + rewrite lookup_insert_ne by done. unfold own. rewrite fn_lookup_insert_ne by done. apply (l_size _ _ _ _ LO).
  - intros b. unfold own. destruct (decide (b = a)) as [->|Hb].
    + rewrite fn_lookup_insert, <- app_assoc. cbn [app]. rewrite <- Permutation_middle. apply NoDup_cons. split; [apply Hx|]. apply (l_nodup _ _ _ _ LO).
    + rewrite fn_lookup_insert_ne by done. apply (l_nodup _ _ _ _ LO).
  - intros b b' y Hy Hy'. apply Hown in Hy as [Hy|[-> ->]]; apply Hown in Hy' as [Hy'|[-> Ey]]; subst.
    + by eapply (l_disj _ _ _ _ LO). + by apply Hx in Hy. + by apply Hx in Hy'. + done.
Qed.

Lemma lists_add_sig a r g z x rx : H !! a = Some (r, g, z) -> unowned x -> N !! x = Some rx -> rx.(r_next) = None ->
  lists_ok (<[a := (r, part_add g x, u64 (z + rx.(r_size)))]> H) (link_last N g.(pt_last) x) R (<[a := S a ++ [x]]> S).
Proof.
  intros Ha Hx Hr Hn. pose proof (l_sigs _ _ _ _ LO a r g z Ha) as PR.
  assert (forall b y, y ∈ own R (<[a := S a ++ [x]]> S) b -> y ∈ own R S b \/ (b = a /\ y = x)) as Hown.
  { intros b y. unfold own. destruct (decide (b = a)) as [->|Hb].
    - rewrite fn_lookup_insert, !elem_of_app, list_elem_of_singleton. tauto.
    - rewrite fn_lookup_insert_ne by done. tauto. }
  split.
  - intros b [Hb ?]%lookup_insert_None. unfold own. rewrite fn_lookup_insert_ne by done. by apply (l_none _ _ _ _ LO).
  - intros b r' g' z' Hb. assert (part_ok N r' (R b)) as PS.
    { destruct (decide (b = a)) as [->|Hne]; [|rewrite lookup_insert_ne in Hb by done; by eapply l_rrs].
      rewrite lookup_insert_eq in Hb. injection Hb as <- <- <-. by eapply l_rrs. }
    apply part_link_last; [|done]. intros y E Hin. apply (rrs_sigs_disj b a y); [done|by eapply part_last_in].
  - intros b r' g' z'. destruct (decide (b = a)) as [->|Hb].
    + rewrite lookup_insert_eq, fn_lookup_insert. intros [= <- <- <-]. eapply part_append; try done; [by eapply sigs_nodup|].
      intros Hin. apply (Hx a). by apply own_sigs.
    + rewrite lookup_insert_ne, fn_lookup_insert_ne by done. intros Hb'. apply part_link_last; [|by eapply l_sigs].
      intros y E Hin. apply Hb. apply (sigs_disj b a y Hin). by eapply part_last_in.
  - assert (forall l, rr_sizes (link_last N g.(pt_last) x) l = rr_sizes N l) as Hsz.
    { intros l. apply rr_sizes_frame. intros y _. apply data_size, link_last_data. }
    intros b r' g' z'. rewrite Hsz. destruct (decide (b = a)) as [->|Hb].
    + rewrite lookup_insert_eq. intros [= <- <- <-]. rewrite (l_size _ _ _ _ LO a r g z Ha), u64_add. f_equal.
      unfold own. rewrite fn_lookup_insert, !rr_sizes_app, rr_sizes_cons, Hr. cbn. lia.
    + rewrite lookup_insert_ne by done. unfold own. rewrite fn_lookup_insert_ne by done. apply (l_size _ _ _ _ LO).
  - intros b. unfold own. destruct (decide (b = a)) as [->|Hb].
    + rewrite fn_lookup_insert, app_assoc. rewrite (Permutation_app_comm _ [x]). apply NoDup_cons. split; [apply Hx|]. apply (l_nodup _ _ _ _ LO).
    + rewrite fn_lookup_insert_ne by done. apply (l_nodup _ _ _ _ LO).
  - intros b b' y Hy Hy'. apply Hown in Hy as [Hy|[-> ->]]; apply Hown in Hy' as [Hy'|[-> Ey]]; subst.
    + by eapply (l_disj _ _ _ _ LO). + by apply Hx in Hy. + by apply Hx in Hy'. + done.
Qed.

Lemma lists_new a : H !! a = None -> lists_ok (<[a := (mk_part 0 None None, mk_part 0 None None, 0)]> H) N R S.
Proof.
  intros Ha. pose proof (l_none _ _ _ _ LO a Ha) as E. apply app_eq_nil in E as [ER ES]. split; try apply LO.
  - intros b [Hb ?]%lookup_insert_None. by apply (l_none _ _ _ _ LO).
  - intros b r g z. destruct (decide (b = a)) as [->|Hb]; [|rewrite lookup_insert_ne by done; apply (l_rrs _ _ _ _ LO)].
    rewrite lookup_insert_eq, ER. by intros [= <- <- <-].
  - intros b r g z. destruct (decide (b = a)) as [->|Hb]; [|rewrite lookup_insert_ne by done; apply (l_sigs _ _ _ _ LO)].
    rewrite lookup_insert_eq, ES. by intros [= <- <- <-].
  - intros b r g z. destruct (decide (b = a)) as [->|Hb]; [|rewrite lookup_insert_ne by done; apply (l_size _ _ _ _ LO)].
    rewrite lookup_insert_eq. unfold own. rewrite ER, ES. by intros [= <- <- <-].
Qed.

(** *** Taking out *)

Definition link_over (N : gmap addr rr_parse) (prev next : ptr) : gmap addr rr_parse :=
  match prev with Some b => alter (with_next next) b N | None => N end.

Definition part_remove (pt : part) (prev : ptr) (x : addr) (next : ptr) : part :=
  mk_part (u64 (pt.(pt_count) - 1)) (match prev with Some _ => pt.(pt_first) | None => next end)
    (if decide (pt.(pt_last) = Some x) then prev else pt.(pt_last)).

Lemma link_over_other N0 prev next y : prev <> Some y -> link_over N0 prev next !! y = N0 !! y.
Proof. intros E. destruct prev as [l|]; cbn; [|done]. rewrite lookup_alter_ne; [done|]. congruence. Qed.

Lemma link_over_data N0 prev next : v_data <$> link_over N0 prev next = v_data <$> N0.
Proof.
  destruct prev as [l|]; cbn; [|done]. apply map_eq. intros y. rewrite !lookup_fmap.
  destruct (decide (y = l)) as [->|]; [|by rewrite lookup_alter_ne]. rewrite lookup_alter_eq. by destruct (N0 !! l).
Qed.

Lemma part_removed N0 pt l1 x l2 rx : part_ok N0 pt (l1 ++ x :: l2) -> NoDup (l1 ++ x :: l2) -> N0 !! x = Some rx ->
  part_ok (link_over N0 (list.last l1) rx.(r_next)) (part_remove pt (list.last l1) x rx.(r_next)) (l1 ++ l2).
Proof.
  intros [H1 H2 H3] Hn Hr. split; cbn.
  - destruct (list.last l1) as [b|] eqn:El; cbn [link_over].
    + destruct (last_snoc_inv _ _ El) as (l0 & ->). rewrite <- app_assoc in H1, Hn. cbn [app] in H1, Hn.
      destruct (lseg_lookup r_next N0 _ _ _ b H1) as (rb & Hb); [apply elem_of_app; right; by left|].
      rewrite (alter_lookup _ _ _ _ Hb), <- app_assoc. by eapply seg_remove.
    + apply last_None in El as ->. by destruct (seg_tail _ _ _ _ _ _ _ H1 Hr).
  - rewrite H2. rewrite list.last_app_cons. apply NoDup_app in Hn as (_ & Hd & [Hx Hn]%NoDup_cons). destruct l2 as [|y l2].
    + cbn. rewrite decide_True by done. by rewrite app_nil_r.
    + rewrite decide_False; [by rewrite list.last_app_cons, last_cons_cons|]. rewrite last_cons_cons. intros E. apply Hx. by apply last_Some_elem_of.
  - rewrite H3, u64_sub. f_equal. rewrite !zlen_app, zlen_cons. lia.
Qed.

Lemma lists_remove_rr a r g z l1 x l2 rx : H !! a = Some (r, g, z) -> R a = l1 ++ x :: l2 -> N !! x = Some rx ->
  lists_ok (<[a := (part_remove r (list.last l1) x rx.(r_next), g, u64 (z - rx.(r_size)))]> H)
    (link_over N (list.last l1) rx.(r_next)) (<[a := l1 ++ l2]> R) S.
Proof.
  intros Ha HR Hr. pose proof (l_rrs _ _ _ _ LO a r g z Ha) as PR. rewrite HR in PR.
  assert (forall b, own (<[a := l1 ++ l2]> R) S b ⊆+ own R S b) as Hown.
  { intros b. unfold own. destruct (decide (b = a)) as [->|Hb]; [|by rewrite fn_lookup_insert_ne].
    rewrite fn_lookup_insert, HR. apply submseteq_app; [|done]. apply submseteq_app; [done|]. by apply submseteq_cons. }
  assert (forall b, list.last l1 = Some b -> b ∈ R a) as Hlast.
  { intros b Hb%last_Some_elem_of. rewrite HR. apply elem_of_app. by left. }
  split.
  - intros b [Hb ?]%lookup_insert_None. unfold own. rewrite fn_lookup_insert_ne by done. by apply (l_none _ _ _ _ LO).
  - intros b r' g' z'. destruct (decide (b = a)) as [->|Hb].
    + rewrite lookup_insert_eq, fn_lookup_insert. intros [= <- <- <-]. apply part_removed; try done. rewrite <- HR. apply rrs_nodup.
    + rewrite lookup_insert_ne, fn_lookup_insert_ne by done. intros Hb'. eapply part_frame; [|by eapply l_rrs].
      intros y Hy. rewrite link_over_other; [done|]. intros E%Hlast. apply Hb. by apply (rrs_disj b a y).
  - intros b r' g' z' Hb. assert (part_ok N g' (S b)) as PS.
    { destruct (decide (b = a)) as [->|Hne]; [|rewrite lookup_insert_ne in Hb by done; by eapply l_sigs].
      rewrite lookup_insert_eq in Hb. injection Hb as <- <- <-. by eapply l_sigs. }
    eapply part_frame; [|exact PS]. intros y Hy. rewrite link_over_other; [done|]. intros E%Hlast. by apply (rrs_sigs_disj a b y).
  - assert (forall l, rr_sizes (link_over N (list.last l1) rx.(r_next)) l = rr_sizes N l) as Hsz.
    { intros l. apply rr_sizes_frame. intros y _. apply data_size, link_over_data. }
    intros b r' g' z'. rewrite Hsz. destruct (decide (b = a)) as [->|Hb].
    + rewrite lookup_insert_eq. intros [= <- <- <-]. rewrite (l_size _ _ _ _ LO a r g z Ha), u64_sub. f_equal.
      unfold own. rewrite fn_lookup_insert, HR, !rr_sizes_app, rr_sizes_cons, Hr. lia.
    + rewrite lookup_insert_ne by done. unfold own. rewrite fn_lookup_insert_ne by done. apply (l_size _ _ _ _ LO).
  - intros b. destruct (submseteq_Permutation _ _ (Hown b)) as (k & Hk). pose proof (l_nodup _ _ _ _ LO b) as Hn.
    rewrite Hk in Hn. by apply NoDup_app in Hn as (? & _).
  - intros b b' y Hy Hy'. apply (l_disj _ _ _ _ LO b b' y); [apply (elem_of_submseteq _ _ _ Hy (Hown b))|apply (elem_of_submseteq _ _ _ Hy' (Hown b'))].
Qed.

(** *** The RRs of a set become signatures *)

Definition part_join (g r : part) : part :=
  mk_part (u64 (g.(pt_count) + r.(pt_count))) (match g.(pt_last) with Some _ => g.(pt_first) | None => r.(pt_first) end) r.(pt_last).

Lemma part_joined N0 g r lg lr : part_ok N0 g lg -> part_ok N0 r lr -> NoDup (lg ++ lr) -> lr <> [] ->
  part_ok (link_over N0 g.(pt_last) r.(pt_first)) (part_join g r) (lg ++ lr).
Proof.
  intros [G1 G2 G3] [R1 R2 R3] Hn Hne. split; cbn.
  - rewrite G2. destruct (list.last lg) as [b|] eqn:El; cbn [link_over].
    + destruct (last_snoc_inv _ _ El) as (l0 & ->). apply NoDup_app in Hn as (Hn & Hd & _).
      destruct (lseg_lookup r_next N0 _ _ _ b G1) as (rb & Hb); [apply elem_of_app; right; by left|].
      rewrite (alter_lookup _ _ _ _ Hb). apply lseg_app. exists r.(pt_first). split.
      * eapply seg_set_last; [|exact G1|done]. apply NoDup_app in Hn as (_ & Hd' & _). intros Hin. apply (Hd' b Hin). by left.
      * apply seg_insert_ne; [|done]. apply Hd. apply elem_of_app. right. by left.
    + apply last_None in El as ->. done.
  - rewrite R2. destruct (exists_last Hne) as (l0 & y & ->). by rewrite app_assoc, !last_snoc.
  - rewrite G3, R3, u64_add, Z.add_comm, u64_add, zlen_app. f_equal. lia.
Qed.

Lemma lists_join a r g z : H !! a = Some (r, g, z) -> R a <> [] ->
  lists_ok (<[a := (mk_part 0 None None, part_join g r, z)]> H) (link_over N g.(pt_last) r.(pt_first)) (<[a := []]> R) (<[a := S a ++ R a]> S).
Proof.
  intros Ha Hne. pose proof (l_rrs _ _ _ _ LO a r g z Ha) as PR. pose proof (l_sigs _ _ _ _ LO a r g z Ha) as PS.
  assert (forall b, own (<[a := []]> R) (<[a := S a ++ R a]> S) b ≡ₚ own R S b) as Hown.
  { intros b. unfold own. destruct (decide (b = a)) as [->|Hb]; [|by rewrite !fn_lookup_insert_ne].
    rewrite !fn_lookup_insert. cbn [app]. by rewrite Permutation_app_comm. }
  split.
  - intros b [Hb ?]%lookup_insert_None. unfold own. rewrite !fn_lookup_insert_ne by done. by apply (l_none _ _ _ _ LO).
  - intros b r' g' z'. destruct (decide (b = a)) as [->|Hb].
    + rewrite lookup_insert_eq, fn_lookup_insert. by intros [= <- <- <-].
    + rewrite lookup_insert_ne, fn_lookup_insert_ne by done. intros Hb'. eapply part_frame; [|by eapply l_rrs].
      intros y Hy. rewrite link_over_other; [done|]. intros E. apply (rrs_sigs_disj b a y); [done|]. by eapply part_last_in.
  - intros b r' g' z'. destruct (decide (b = a)) as [->|Hb].
    + rewrite lookup_insert_eq, fn_lookup_insert. intros [= <- <- <-]. apply part_joined; try done.
      pose proof (l_nodup _ _ _ _ LO a) as Hn. unfold own in Hn. by rewrite Permutation_app_comm in Hn.
    + rewrite lookup_insert_ne, fn_lookup_insert_ne by done. intros Hb'. eapply part_frame; [|by eapply l_sigs].
      intros y Hy. rewrite link_over_other; [done|]. intros E. apply Hb. apply (sigs_disj b a y); [done|]. by eapply part_last_in.
  - assert (forall l, rr_sizes (link_over N g.(pt_last) r.(pt_first)) l = rr_sizes N l) as Hsz.
    { intros l. apply rr_sizes_frame. intros y _. apply data_size, link_over_data. }
    intros b r' g' z'. rewrite Hsz. destruct (decide (b = a)) as [->|Hb].
    + rewrite lookup_insert_eq. intros [= <- <- <-]. rewrite (l_size _ _ _ _ LO a r g z Ha). f_equal.
      unfold own. rewrite !fn_lookup_insert. cbn [app]. rewrite !rr_sizes_app. lia.
    + rewrite lookup_insert_ne by done. unfold own. rewrite !fn_lookup_insert_ne by done. apply (l_size _ _ _ _ LO).
  - intros b. rewrite Hown. apply (l_nodup _ _ _ _ LO).
  - intros b b' y. rewrite !Hown. apply (l_disj _ _ _ _ LO).
Qed.
End Update.
