(* ===== verification/MsgOps.v ===== *)
(** * Parsing packets: the operations on the linked structures

    What each operation does to the part of the structure it changes; [g] stands for
    everything of the RRsets that it leaves alone.  The invariant that they keep between
    two RRs is the second part. *)

From stdpp Require Import functions.
From S2P Require Import Prelude Sbuffer Lookup3 Dname DnameCompare DnamePkt RrDef Msgparse MsgPkt MsgRdata MsgLists.

(** ** Steps *)

Lemma modify_rrset_ok a f w s : w.(rrsets) !! a = Some s -> modify a f w = Ok (tt, upd_rrsets <[a := f s]> w).
Proof. intros H. unfold modify. by rewrite H. Qed.

Lemma load_rrset_ok a w s : w.(rrsets) !! a = Some s -> load a w = Ok (s, w).
Proof. intros H. unfold load. by rewrite H. Qed.

Lemma modify_rr_ok a f w r : w.(rrs) !! a = Some r -> modify_rr a f w = Ok (tt, upd_rrs <[a := f r]> w).
Proof. intros H. unfold modify_rr. by rewrite H. Qed.

Lemma load_rr_ok a w r : w.(rrs) !! a = Some r -> load_rr a w = Ok (r, w).
Proof. intros H. unfold load_rr. by rewrite H. Qed.

Lemma get_bucket_ok h w p : w.(msg).(m_hashtable) !! Z.to_nat (bucket_of h) = Some p -> get_bucket h w = Ok (p, w).
Proof. intros H. unfold get_bucket. by rewrite H. Qed.

(** One step of an operation, when the structure it needs is in the context. *)
Ltac wstep := first
  [ erewrite st_bind_ok by (apply modify_rrset_ok; cbn [rrsets upd_rrsets upd_rrs upd_msg upd_pkt upd_memory]; first [eassumption | apply lookup_insert_eq])
  | erewrite st_bind_ok by (apply load_rrset_ok; cbn [rrsets upd_rrsets upd_rrs upd_msg upd_pkt upd_memory]; first [eassumption | apply lookup_insert_eq])
  | erewrite st_bind_ok by (apply modify_rr_ok; cbn [rrs upd_rrsets upd_rrs upd_msg upd_pkt upd_memory]; first [eassumption | apply lookup_insert_eq])
  | erewrite st_bind_ok by (apply load_rr_ok; cbn [rrs upd_rrsets upd_rrs upd_msg upd_pkt upd_memory]; first [eassumption | apply lookup_insert_eq])
  | erewrite st_bind_ok by reflexivity ]; cbv beta.

Ltac wlast := erewrite modify_rrset_ok by (cbn [rrsets upd_rrsets upd_rrs upd_msg upd_pkt upd_memory]; first [eassumption | apply lookup_insert_eq]);
  unfold upd_rrsets, upd_rrs; cbn.

(** The part of [msg] that the lists and the table leave alone. *)
Definition m_rest (m : msg_parse) : msg_parse := with_table [] (with_list None None m).

Section Views.
Implicit Types M : gmap addr rrset_parse.
Context {V : Type} (g : rrset_parse -> V).
Definition blind (f : rrset_parse -> rrset_parse) : Prop := forall s, g (f s) = g s.

Lemma blind_modify f M a s : blind f -> M !! a = Some s -> g <$> <[a := f s]> M = g <$> M.
Proof. intros H Ha. by eapply fmap_insert_same. Qed.
End Views.

(** [M'] differs from [M] only in the fields set by [upd]. *)
Definition only {X} (upd : X -> rrset_parse -> rrset_parse) (M M' : gmap addr rrset_parse) : Prop :=
  forall V (g : rrset_parse -> V), (forall x, blind g (upd x)) -> g <$> M' = g <$> M.

Lemma only_upd_refl {X} (upd : X -> _) M : only upd M M.
Proof. done. Qed.

Lemma only_upd_trans {X} (upd : X -> _) M1 M2 M3 : only upd M1 M2 -> only upd M2 M3 -> only upd M1 M3.
Proof. intros H1 H2 V g Hg. by rewrite (H2 V g Hg), (H1 V g Hg). Qed.

Lemma only_modify {X} (upd : X -> _) (M : gmap addr rrset_parse) a s x : M !! a = Some s -> only upd M (<[a := upd x s]> M).
Proof. intros Ha V g Hg. by apply blind_modify. Qed.

Lemma view_some {V} (g : rrset_parse -> V) (M : gmap addr rrset_parse) a v : (g <$> M) !! a = Some v -> exists s, M !! a = Some s /\ g s = v.
Proof. intros H. rewrite lookup_fmap in H. destruct (M !! a) as [s|]; [|done]. injection H as <-. by exists s. Qed.

Lemma view_lookup {V} (g : rrset_parse -> V) (M : gmap addr rrset_parse) a s : M !! a = Some s -> (g <$> M) !! a = Some (g s).
Proof. intros H. by rewrite lookup_fmap, H. Qed.

Lemma only_upd_lookup {X} (upd : X -> _) (M M' : gmap addr rrset_parse) a : only upd M M' -> is_Some (M' !! a) <-> is_Some (M !! a).
Proof.
  intros H. pose proof (H unit (fun _ => tt) ltac:(done)) as E. apply (f_equal (fun m => m !! a)) in E. rewrite !lookup_fmap in E.
  destruct (M' !! a), (M !! a); cbn in E; try done; split; intros [? ?]; try done; by eexists.
Qed.

(** ** The list of all RRsets *)

Lemma append_rrset_ok w x sx L :
  all_ok (v_next <$> w.(rrsets)) w.(msg).(m_rrset_first) w.(msg).(m_rrset_last) L -> x ∉ L ->
  w.(rrsets) !! x = Some sx -> sx.(s_all_next) = None ->
  exists M' f', append_rrset x w = Ok (tt, upd_rrsets (fun _ => M') (upd_msg (with_list f' (Some x)) w)) /\
    all_ok (v_next <$> M') f' (Some x) (L ++ [x]) /\ only with_all_next w.(rrsets) M'.
Proof.
  intros A Hx Hs En. assert ((v_next <$> w.(rrsets)) !! x = Some None) as Hv by (erewrite view_lookup by done; by rewrite <- En).
  unfold append_rrset. wstep. destruct (m_rrset_last w.(msg)) as [l|] eqn:El.
  - destruct (all_append_last _ _ _ _ _ A Hx Hv) as [Hl A'].
    destruct (lseg_lookup id _ _ _ _ l (a_seg _ _ _ _ A) Hl) as (nl & Hnl). apply view_some in Hnl as (sl & Hsl & _).
    wstep. exists (<[l := with_all_next (Some x) sl]> w.(rrsets)), w.(msg).(m_rrset_first). split; [reflexivity|]. split.
    + rewrite fmap_insert. exact A'.
    + by apply only_modify.
  - exists w.(rrsets), (Some x). split; [by destruct w|]. split; [by apply (all_append_first _ (m_rrset_first w.(msg)))|done].
Qed.

Lemma all_remove A first last L1 a L2 n : all_ok A first last (L1 ++ a :: L2) -> A !! a = Some n ->
  all_ok (match list.last L1 with Some b => <[b := n]> A | None => A end)
    (match list.last L1 with Some _ => first | None => n end)
    (if decide (last = Some a) then list.last L1 else last) (L1 ++ L2).
Proof.
  intros [H1 H2 H3] Ha. apply NoDup_app in H3 as H3'. destruct H3' as (Hn1 & Hd & [Ha2 Hn2]%NoDup_cons). split.
  - destruct (list.last L1) as [b|] eqn:El.
    + destruct (last_snoc_inv _ _ El) as (l0 & ->). rewrite <- app_assoc in H1, H3 |- *. cbn [app] in *.
      eapply (seg_remove id); [exact H3|exact H1|exact Ha|done].
    + apply last_None in El as ->. by destruct (seg_tail _ _ _ _ _ _ _ H1 Ha).
  - rewrite H2, list.last_app_cons. destruct L2 as [|y L2].
    + cbn. rewrite decide_True by done. by rewrite app_nil_r.
    + rewrite decide_False; [by rewrite list.last_app_cons, last_cons_cons|]. rewrite last_cons_cons. intros E. apply Ha2. by apply last_Some_elem_of.
  - apply NoDup_app. split; [done|]. split; [|done]. intros y Hy Hy2. apply (Hd y Hy). by right.
Qed.

Lemma unlink_loop_ok rrset L2 s : forall L1 L0 w fuel p,
  all_ok (v_next <$> w.(rrsets)) w.(msg).(m_rrset_first) w.(msg).(m_rrset_last) (L0 ++ L1 ++ rrset :: L2) ->
  seg id (v_next <$> w.(rrsets)) p (L1 ++ rrset :: L2) None -> w.(rrsets) !! rrset = Some s -> (length L1 < fuel)%nat ->
  exists M' f' l', unlink_loop fuel (list.last L0) p rrset w = Ok (tt, upd_rrsets (fun _ => M') (upd_msg (with_list f' l') w)) /\
    all_ok (v_next <$> M') f' l' (L0 ++ L1 ++ L2) /\ only with_all_next w.(rrsets) M'.
Proof.
  induction L1 as [|y L1 IH]; intros L0 w [|fuel] p A Hseg Hs Hf; cbn in Hf; try lia; cbn [app] in *.
  - destruct (seg_tail _ _ _ _ _ _ _ Hseg (view_lookup v_next _ _ _ Hs)) as [-> _]. cbn [unlink_loop]. wstep. rewrite decide_True by done.
    pose proof (all_remove _ _ _ _ _ _ _ A (view_lookup v_next _ _ _ Hs)) as A'.
    destruct (list.last L0) as [b|] eqn:El.
    + assert (b ∈ L0 ++ rrset :: L2) as Hb by (apply elem_of_app; left; by apply last_Some_elem_of).
      destruct (lseg_lookup id _ _ _ _ b (a_seg _ _ _ _ A) Hb) as (nb & Hnb). apply view_some in Hnb as (sb & Hsb & _).
      wstep. wstep. cbn [msg upd_rrsets]. exists (<[b := with_all_next (s_all_next s) sb]> w.(rrsets)), w.(msg).(m_rrset_first).
      eexists. split; [|split; [rewrite fmap_insert; exact A'|by apply only_modify]].
      destruct (decide _); [done|]. by destruct w as [? [] ? ? ?].
    + wstep. wstep. exists w.(rrsets). eexists _, _. split; [|split; [exact A'|done]].
      cbn [msg upd_msg m_rrset_last with_list]. destruct (decide _); by destruct w as [? [] ? ? ?].
  - destruct Hseg as (-> & ny & Hny & Hseg). apply view_some in Hny as (sy & Hsy & <-). cbn [unlink_loop]. wstep.
    rewrite decide_False.
    2:{ intros ->. pose proof (a_nodup _ _ _ _ A) as Hn. apply NoDup_app in Hn as (_ & _ & [Hn _]%NoDup_cons). apply Hn, elem_of_app. right. by left. }
    destruct (IH (L0 ++ [y]) w fuel (id (v_next sy))) as (M' & f' & l' & E & A' & Ho); try done; [by rewrite <- app_assoc|lia|].
    rewrite last_snoc in E. exists M', f', l'. rewrite <- app_assoc in A'. done.
Qed.

(** ** Sections *)

(** The sections RRsets are in; the parser goes through them in order. *)
Definition rank (section : sldns_pkt_section) : Z :=
  match section with
  | LDNS_SECTION_ANSWER => 1 | LDNS_SECTION_AUTHORITY => 2 | LDNS_SECTION_ADDITIONAL => 3 | _ => 0
  end.

Lemma incr_ok section k w : 1 <= rank section -> incr_rrsets section k w = Ok (tt, upd_msg (add_rrsets section k) w).
Proof. destruct section; cbn; try lia; done. Qed.

Lemma add_rrsets_table section k m : m_hashtable (add_rrsets section k m) = m_hashtable m.
Proof. by destruct section. Qed.
Lemma add_rrsets_first section k m : m_rrset_first (add_rrsets section k m) = m_rrset_first m.
Proof. by destruct section. Qed.
Lemma add_rrsets_last section k m : m_rrset_last (add_rrsets section k m) = m_rrset_last m.
Proof. by destruct section. Qed.

Lemma sets_fuel_ok w L p : NoDup L -> seg id (v_next <$> w.(rrsets)) p L None -> (length L < sets_fuel w)%nat.
Proof. intros Hn Hs. apply (seg_length id) in Hs; [|done]. rewrite map_size_fmap in Hs. unfold sets_fuel. lia. Qed.

(** Moving an RRset to a later section. *)
Lemma change_section_ok w a s section L1 L2 :
  all_ok (v_next <$> w.(rrsets)) w.(msg).(m_rrset_first) w.(msg).(m_rrset_last) (L1 ++ a :: L2) ->
  w.(rrsets) !! a = Some s -> 1 <= rank s.(s_section) < rank section ->
  exists M1 s1 f', change_section a section w
      = Ok (tt, upd_rrsets (fun _ => <[a := with_section section s1]> M1)
             (upd_msg (fun m => with_list f' (Some a) (add_rrsets section 1 (add_rrsets s.(s_section) (-1) m))) w)) /\
    M1 !! a = Some s1 /\ only with_all_next w.(rrsets) M1 /\
    all_ok (v_next <$> M1) f' (Some a) ((L1 ++ L2) ++ [a]).
Proof.
  intros A Hs Hr. unfold change_section. wstep. rewrite decide_False by (intros ->; lia). wstep.
  destruct (unlink_loop_ok a L2 s L1 [] w (sets_fuel w) _ A (a_seg _ _ _ _ A) Hs) as (M0 & f0 & l0 & E0 & A0 & H0).
  { pose proof (sets_fuel_ok w _ _ (a_nodup _ _ _ _ A) (a_seg _ _ _ _ A)) as H. rewrite length_app in H. cbn in H. lia. }
  erewrite st_bind_ok by (unfold with_fuel; exact E0). cbv beta. rewrite (st_bind_ok _ _ _ _ _ (incr_ok (s_section s) (-1) _ (proj1 Hr))).
  destruct (proj2 (only_upd_lookup _ _ _ a H0)) as [s0 Hs0]; [by exists s|]. wstep.
  assert (a ∉ L1 ++ L2) as Ha.
  { pose proof (a_nodup _ _ _ _ A) as Hn. rewrite <- Permutation_middle in Hn. by apply NoDup_cons in Hn as [? _]. }
  assert (all_ok (v_next <$> <[a := with_all_next None s0]> M0) f0 l0 (L1 ++ L2)) as A1.
  { destruct A0 as [X1 X2 X3]. split; [|done|done]. rewrite fmap_insert. by apply seg_insert_ne. }
  set (w1 := upd_rrsets <[a := with_all_next None s0]> _).
  destruct (append_rrset_ok w1 a (with_all_next None s0) (L1 ++ L2)) as (M2 & f2 & E2 & A2 & H2); try done.
  { unfold w1. cbn [rrsets msg upd_rrsets upd_msg]. rewrite add_rrsets_first, add_rrsets_last. exact A1. }
  { unfold w1. cbn. apply lookup_insert_eq. }
  rewrite (st_bind_ok _ _ _ _ _ E2). cbv beta.
  assert (only with_all_next w.(rrsets) M2) as HM2.
  { eapply only_upd_trans; [exact H0|]. eapply only_upd_trans; [|exact H2]. by apply only_modify. }
  destruct (proj2 (only_upd_lookup _ _ _ a HM2)) as [s2 Hs2]; [by exists s|].
  assert (forall sec k m, with_list f2 (Some a) (add_rrsets sec k m) = add_rrsets sec k (with_list f2 (Some a) m)) as Hc by (by intros [] k m).
  rewrite (st_bind_ok _ _ _ tt (upd_msg (add_rrsets section 1) (upd_rrsets (fun _ => M2) (upd_msg (with_list f2 (Some a)) w1)))).
  2:{ destruct section; cbn [rank] in Hr; try lia; try reflexivity. }
  rewrite (modify_rrset_ok _ _ _ s2) by done. exists M2, s2, f2. split; [|done]. unfold w1. f_equal. f_equal.
  unfold upd_rrsets, upd_msg; cbn. f_equal. by rewrite !Hc.
Qed.

(** ** Buckets *)

Lemma bucket_remove_loop_ok a n h i : forall l2 l1 w fuel p p0,
  buckets_ok (v_bucket <$> w.(rrsets)) w.(msg).(m_hashtable) -> i = Z.to_nat (bucket_of h) ->
  (v_bucket <$> w.(rrsets)) !! a = Some (n, h) -> w.(msg).(m_hashtable) !! i = Some p0 ->
  seg fst (v_bucket <$> w.(rrsets)) p0 (l1 ++ l2) None -> NoDup (l1 ++ l2) ->
  (forall x, x ∈ l1 ++ l2 <-> exists v, (v_bucket <$> w.(rrsets)) !! x = Some v /\ in_bucket i v) ->
  seg fst (v_bucket <$> w.(rrsets)) p l2 None -> a ∈ l2 -> (length l2 < fuel)%nat ->
  exists M' ht', bucket_remove_loop fuel (list.last l1) p a w = Ok (tt, upd_rrsets (fun _ => M') (upd_msg (with_table ht') w)) /\
    buckets_ok (delete a (v_bucket <$> M')) ht' /\ only with_bucket_next w.(rrsets) M'.
Proof.
  induction l2 as [|y l2 IH]; intros l1 w [|fuel] p p0 BO Hi Ha Hp0 Hs Hn Hm Hseg Hin Hf; cbn in Hf; try lia;
    [by apply not_elem_of_nil in Hin..|]. subst i.
  destruct Hseg as (-> & [ny hy] & Hy & Hseg). destruct (view_some _ _ _ _ Hy) as (sy & Hsy & Ey). injection Ey as En Eh.
  cbn [bucket_remove_loop]. wstep. destruct (decide (y = a)) as [->|Hya].
  - rewrite Hy in Ha. injection Ha as -> ->. destruct (list.last l1) as [b|] eqn:El.
    + destruct (last_snoc_inv _ _ El) as (l0 & ->). rewrite <- app_assoc in Hs, Hn, Hm. cbn [app] in Hs, Hn, Hm.
      destruct (lseg_lookup fst _ _ _ _ b Hs) as ([nb hb] & Hb); [apply elem_of_app; right; by left|].
      destruct (view_some _ _ _ _ Hb) as (sb & Hsb & Eb). injection Eb as Enb Ehb.
      exists (<[b := with_bucket_next (s_bucket_next sy) sb]> w.(rrsets)), w.(msg).(m_hashtable). split.
      * rewrite (modify_rrset_ok _ _ _ sb) by done. by destruct w as [? [] ? ? ?].
      * split; [|by apply only_modify]. rewrite fmap_insert. rewrite En.
        replace (v_bucket (with_bucket_next n sb)) with (n, hb) by (unfold v_bucket; cbn; by rewrite Ehb).
        by eapply buckets_remove_next.
    + apply last_None in El as ->. cbn [app] in *. wstep. exists w.(rrsets), (<[Z.to_nat (bucket_of h) := n]> w.(msg).(m_hashtable)). split.
      * unfold set_bucket, set_msg. rewrite Eh, En. by destruct w as [? [] ? ? ?].
      * split; [|done]. eapply buckets_remove_first; [done|exact Hy|]. by rewrite Hp0, (seg_head _ _ _ _ _ Hs).
  - apply elem_of_cons in Hin as [->|Hin]; [done|].
    destruct (IH (l1 ++ [y]) w fuel (s_bucket_next sy) p0) as (M' & ht' & E & H1 & H2); try done.
    + by rewrite <- app_assoc. + by rewrite <- app_assoc. + intros x. rewrite <- app_assoc. apply Hm. + rewrite En. exact Hseg. + lia.
    + rewrite last_snoc in E. by exists M', ht'.
Qed.

Lemma msgparse_bucket_remove_ok w a s : buckets_ok (v_bucket <$> w.(rrsets)) w.(msg).(m_hashtable) -> w.(rrsets) !! a = Some s ->
  exists M' ht', msgparse_bucket_remove a w = Ok (tt, upd_rrsets (fun _ => M') (upd_msg (with_table ht') w)) /\
    buckets_ok (delete a (v_bucket <$> M')) ht' /\ only with_bucket_next w.(rrsets) M'.
Proof.
  intros BO Hs. destruct (bucket_lookup _ _ (s_hash s) BO) as (p & Hp). destruct (proj2 BO _ _ Hp) as (l & Hseg & Hn & Hm).
  unfold msgparse_bucket_remove. wstep. rewrite (st_bind_ok _ _ _ _ _ (get_bucket_ok _ _ _ Hp)). unfold with_fuel.
  pose proof (view_lookup v_bucket _ _ _ Hs) as Ha.
  apply (bucket_remove_loop_ok a (s_bucket_next s) (s_hash s) (Z.to_nat (bucket_of (s_hash s))) l [] w (sets_fuel w) p p); try done.
  - apply Hm. by eexists.
  - apply (seg_length fst) in Hseg; [|done]. rewrite map_size_fmap in Hseg. unfold sets_fuel. lia.
Qed.

(** ** The lists of RRs *)

(** An RRset without its lists. *)
Definition s_rest (s : rrset_parse) : rrset_parse := with_rrs 0 None None (with_sigs 0 None None (with_size 0 s)).

(** Only the lists of [a] and the links of RRs have changed. *)
Definition set_lists (a : addr) (s' : rrset_parse) (N' : gmap addr rr_parse) (w : world) : world :=
  upd_rrs (fun _ => N') (upd_rrsets <[a := s']> w).

Lemma part_last_lookup N pt l y : part_ok N pt l -> pt.(pt_last) = Some y -> is_Some (N !! y).
Proof. intros P E. destruct (P) as [Hs _ _]. eapply (lseg_lookup r_next); [exact Hs|]. by eapply part_last_in. Qed.

Lemma unlink_rr_ok w R S a s l1 x l2 rx :
  lists_ok (v_lists <$> w.(rrsets)) w.(rrs) R S -> w.(rrsets) !! a = Some s -> R a = l1 ++ x :: l2 -> w.(rrs) !! x = Some rx ->
  exists s', unlink_rr a (list.last l1) x w = Ok (tt, set_lists a s' (link_over w.(rrs) (list.last l1) rx.(r_next)) w) /\ s_rest s' = s_rest s /\
    lists_ok (v_lists <$> <[a := s']> w.(rrsets)) (link_over w.(rrs) (list.last l1) rx.(r_next)) (<[a := l1 ++ l2]> R) S /\
    v_lists s' = (part_remove (v_rrs s) (list.last l1) x rx.(r_next), v_sigs s, u64 (s.(s_size) - rx.(r_size))).
Proof.
  intros LO Hs HR Hx. pose proof (view_lookup v_lists _ _ _ Hs) as Ha.
  assert (forall s', v_lists s' = (part_remove (v_rrs s) (list.last l1) x rx.(r_next), v_sigs s, u64 (s.(s_size) - rx.(r_size))) ->
    lists_ok (v_lists <$> <[a := s']> w.(rrsets)) (link_over w.(rrs) (list.last l1) rx.(r_next)) (<[a := l1 ++ l2]> R) S) as Hlists.
  { intros s' E. rewrite fmap_insert, E. by eapply lists_remove_rr. }
  set (m1 := match list.last l1 with Some _ => s_rr_first s | None => r_next rx end).
  set (m2 := if decide (s_rr_last s = Some x) then list.last l1 else s_rr_last s).
  exists (with_size (u64 (s_size s - r_size rx)) (with_rrs (u64 (s_rr_count s - 1)) m1 m2 s)).
  split; [|split; [done|split; [apply Hlists|]; done]].
  unfold unlink_rr. wstep. unfold m1, set_lists. destruct (list.last l1) as [b|] eqn:El.
  - assert (is_Some (w.(rrs) !! b)) as [rb Hb].
    { apply (own_lookup _ _ _ _ LO a). apply own_rrs. rewrite HR. apply elem_of_app. left. by apply last_Some_elem_of. }
    wstep. wstep. cbn [link_over]. rewrite (alter_lookup _ _ _ _ Hb). unfold m2. destruct (decide (s_rr_last s = Some x)).
    + wstep. wstep. wlast. by rewrite !insert_insert_eq.
    + wstep. wstep. wlast. by rewrite !insert_insert_eq.
  - wstep. wstep. cbn [link_over s_rr_last with_rrs]. unfold m2. destruct (decide (s_rr_last s = Some x)).
    + wstep. wstep. wlast. by rewrite !insert_insert_eq.
    + wstep. wstep. wlast. by rewrite !insert_insert_eq.
Qed.

Lemma insert_sig_ok w R S a s x rx :
  lists_ok (v_lists <$> w.(rrsets)) w.(rrs) R S -> w.(rrsets) !! a = Some s -> unowned R S x -> w.(rrs) !! x = Some rx ->
  exists s' N', insert_sig a x w = Ok (tt, set_lists a s' N' w) /\ s_rest s' = s_rest s /\ v_rrs s' = v_rrs s /\
    lists_ok (v_lists <$> <[a := s']> w.(rrsets)) N' R (<[a := S a ++ [x]]> S) /\ v_data <$> N' = v_data <$> w.(rrs) /\
    (forall y, y ∉ S a -> y <> x -> N' !! y = w.(rrs) !! y).
Proof.
  intros LO Hs Hu Hx. set (N1 := <[x := with_next None rx]> w.(rrs)). pose proof (view_lookup v_lists _ _ _ Hs) as Ha.
  assert (lists_ok (v_lists <$> w.(rrsets)) N1 R S) as LO1 by by apply lists_unowned.
  exists (with_size (u64 (s_size s + r_size rx)) (with_sigs (u64 (s_rrsig_count s + 1)) (match s_rrsig_last s with Some _ => s_rrsig_first s | None => Some x end) (Some x) s)).
  exists (link_last N1 (s_rrsig_last s) x). split; [|split; [done|split; [done|split; [|split]]]].
  - unfold insert_sig. wstep. wstep. unfold append_sig. rewrite st_bind_assoc. wstep. cbn [s_rrsig_last with_sigs].
    destruct (s_rrsig_last s) as [l|] eqn:El; cbn [link_last].
    + destruct (part_last_lookup N1 (v_sigs s) (S a) l) as [rl Hl]; [by eapply (l_sigs _ _ _ _ LO1)|done|].
      assert (l <> x) as Hlx. { intros ->. apply (Hu a), own_sigs. eapply part_last_in; [by eapply (l_sigs _ _ _ _ LO1)|done]. }
      rewrite (alter_lookup _ _ _ _ Hl). rewrite st_bind_assoc. wstep. wstep.
      erewrite st_bind_ok by (apply load_rr_ok; cbn; rewrite lookup_insert_ne by done; apply lookup_insert_eq). cbv beta.
      wlast. unfold set_lists, upd_rrsets, upd_rrs; cbn. by rewrite !insert_insert_eq.
    + wstep. wstep. wlast. unfold set_lists, upd_rrsets, upd_rrs; cbn. by rewrite !insert_insert_eq.
  - rewrite fmap_insert. apply (lists_add_sig _ N1 R S LO1 a (v_rrs s) (v_sigs s) s.(s_size) x (with_next None rx)); try done. apply lookup_insert_eq.
  - rewrite link_last_data. unfold N1. by apply fmap_insert_same with rx.
  - intros y Hy Hyx. rewrite link_last_other; [unfold N1; by rewrite lookup_insert_ne|]. intros E. apply Hy.
    eapply part_last_in; [by eapply (l_sigs _ _ _ _ LO1)|done].
Qed.

Lemma link_rr_ok w R S a s x rx sig :
  lists_ok (v_lists <$> w.(rrsets)) w.(rrs) R S -> w.(rrsets) !! a = Some s -> w.(rrs) !! x = Some rx ->
  exists s', link_rr a x sig w = Ok (tt, set_lists a s' (link_last w.(rrs) (pt_last (if sig then v_sigs s else v_rrs s)) x) w) /\
    s_rest s' = s_rest s /\
    v_lists s' = ((if sig then v_rrs s else part_add (v_rrs s) x, if sig then part_add (v_sigs s) x else v_sigs s), s.(s_size)).
Proof.
  intros LO Hs Hx. pose proof (view_lookup v_lists _ _ _ Hs) as Ha.
  exists (if sig then with_sigs (u64 (s_rrsig_count s + 1)) (match s_rrsig_last s with Some _ => s_rrsig_first s | None => Some x end) (Some x) s
          else with_rrs (u64 (s_rr_count s + 1)) (match s_rr_last s with Some _ => s_rr_first s | None => Some x end) (Some x) s).
  split; [|by destruct sig]. unfold link_rr. destruct sig; cbn [pt_last v_sigs v_rrs].
  - unfold append_sig. rewrite st_bind_assoc. wstep. destruct (s_rrsig_last s) as [l|] eqn:El; cbn [link_last].
    + destruct (part_last_lookup w.(rrs) (v_sigs s) (S a) l) as [rl Hl]; [by eapply (l_sigs _ _ _ _ LO)|done|].
      rewrite (alter_lookup _ _ _ _ Hl), st_bind_assoc. wstep. wstep. wlast. unfold set_lists, upd_rrsets, upd_rrs; cbn. by rewrite !insert_insert_eq.
    + wstep. wlast. unfold set_lists, upd_rrsets, upd_rrs; cbn. by rewrite !insert_insert_eq.
  - unfold append_rr. rewrite st_bind_assoc. wstep. destruct (s_rr_last s) as [l|] eqn:El; cbn [link_last].
    + destruct (part_last_lookup w.(rrs) (v_rrs s) (R a) l) as [rl Hl]; [by eapply (l_rrs _ _ _ _ LO)|done|].
      rewrite (alter_lookup _ _ _ _ Hl), st_bind_assoc. wstep. wstep. wlast. unfold set_lists, upd_rrsets, upd_rrs; cbn. by rewrite !insert_insert_eq.
    + wstep. wlast. unfold set_lists, upd_rrsets, upd_rrs; cbn. by rewrite !insert_insert_eq.
Qed.

(** Linked, and the sizes set: [k] is that of the RR. *)
Lemma link_rr_lists M N R S a s s' x rx k (sig : bool) :
  lists_ok (v_lists <$> M) N R S -> M !! a = Some s -> unowned R S x -> N !! x = Some rx -> rx.(r_next) = None ->
  v_lists s' = ((if sig then v_rrs s else part_add (v_rrs s) x, if sig then part_add (v_sigs s) x else v_sigs s), u64 (s.(s_size) + k)) ->
  lists_ok (v_lists <$> <[a := s']> M) (<[x := with_rr_size k rx]> (link_last N (pt_last (if sig then v_sigs s else v_rrs s)) x))
    (if sig then R else <[a := R a ++ [x]]> R) (if sig then <[a := S a ++ [x]]> S else S).
Proof.
  intros LO Hs Hu Hx En Es. pose proof (view_lookup v_lists _ _ _ Hs) as Ha. set (N1 := <[x := with_rr_size k rx]> N).
  assert (lists_ok (v_lists <$> M) N1 R S) as LO1 by by apply lists_unowned.
  set (pt := if sig then v_sigs s else v_rrs s).
  assert (pt_last pt <> Some x) as Hne.
  { intros E. apply (Hu a). unfold pt in E. destruct sig.
    - apply own_sigs. eapply part_last_in; [by eapply (l_sigs _ _ _ _ LO1)|done].
    - apply own_rrs. eapply part_last_in; [by eapply (l_rrs _ _ _ _ LO1)|done]. }
  assert (<[x := with_rr_size k rx]> (link_last N (pt_last pt) x) = link_last N1 (pt_last pt) x) as ->.
  { unfold N1. destruct (pt_last pt) as [l|]; cbn; [|done]. apply map_eq. intros y. destruct (decide (y = x)) as [->|Hy].
    - rewrite lookup_insert_eq, lookup_alter_ne, lookup_insert_eq; [done|]. congruence.
    - rewrite lookup_insert_ne by done. destruct (decide (y = l)) as [->|Hyl].
      + by rewrite !lookup_alter_eq, lookup_insert_ne.
      + by rewrite !lookup_alter_ne, lookup_insert_ne. }
  rewrite fmap_insert, Es. unfold pt. destruct sig.
  - apply (lists_add_sig _ N1 R S LO1 a (v_rrs s) (v_sigs s) s.(s_size) x (with_rr_size k rx)); try done. apply lookup_insert_eq.
  - apply (lists_add_rr _ N1 R S LO1 a (v_rrs s) (v_sigs s) s.(s_size) x (with_rr_size k rx)); try done. apply lookup_insert_eq.
Qed.

(** ** Parsing packets: the invariant

    What holds of the structures between the RRs of a packet: the lists are lists, the
    hash table finds every RRset, the keys name what is in the packet, and every RR is
    well-formed rdata of which the size is right. *)

Section Inv.
Context (b : sldns_buffer) (d : list Z) (B : buf_ok b d) (le : bool) (raninit addr_ : Z).
Abbreviation lim := (b.(_limit)).
Abbreviation at_ p := (set_pos b p).

(** ** Definitions *)

Definition key_ok (k : key) (hash : Z) : Prop :=
  exists ls e, name_at b d k.(k_dname) ls e /\ k.(k_dname_len) = zlen (wire ls) /\ class_ok k.(k_class) /\
    flags_of k.(k_type) k.(k_flags) /\ hash = rrset_hash le raninit ls k.(k_type) k.(k_class) k.(k_flags).

(** The data of the RRs: TTL position, whether it is outside, size. *)
Abbreviation rrdata := (gmap addr (Z * bool * Z)).

Definition rr_is (D : rrdata) (t : Z) (x : addr) : Prop :=
  exists ttl n out, D !! x = Some (ttl, false, n) /\ rdata_of b d t ttl out /\ n = 2 + zlen out.

(** The signature [x] covers the type [t]. *)
Definition sig_covers (D : rrdata) (t : Z) (x : addr) : bool :=
  match D !! x with Some (ttl, _, _) => covers b d ttl t | None => false end.

Record contents_ok (K : gmap addr key) (D : rrdata) (R S : addr -> list addr) : Prop := {
  c_rrs : forall a k x, K !! a = Some k -> x ∈ R a -> rr_is D k.(k_type) x;
  c_sigs : forall a k x, K !! a = Some k -> x ∈ S a -> k.(k_type) <> LDNS_RR_TYPE_RRSIG /\ rr_is D LDNS_RR_TYPE_RRSIG x /\ sig_covers D k.(k_type) x = true;
}.

(** The record whose TTL is at [ttl] has this owner, type and class. *)
Definition record_at (ttl : Z) (ls : name) (t : Z) (dclass : list Z) : Prop :=
  exists o e, name_at b d o ls e /\ ttl = o + e + 4 /\ u16_at d (o + e) = t /\ dclass = ztake 2 (zdrop (o + e + 2) d).

(** [rec] says what records there are, by the position of the TTL, the owner, type and class:
    [x] is one of type [t], with the owner and the class of the key. *)
Definition rr_at (rec : Z -> name -> Z -> list Z -> Prop) (D : rrdata) (k : key) (t : Z) (x : addr) : Prop :=
  exists ttl f n ls e ls', D !! x = Some (ttl, f, n) /\ name_at b d k.(k_dname) ls e /\ lower_name ls' = lower_name ls /\ rec ttl ls' t k.(k_class).

(** Every RRset has RRs of its owner, class and type, and signatures of its owner and class. *)
Record located (rec : Z -> name -> Z -> list Z -> Prop) (K : gmap addr key) (D : rrdata) (R S : addr -> list addr) : Prop := {
  o_rrs : forall a k x, K !! a = Some k -> x ∈ R a -> rr_at rec D k k.(k_type) x;
  o_sigs : forall a k x, K !! a = Some k -> x ∈ S a -> rr_at rec D k LDNS_RR_TYPE_RRSIG x;
}.

(** No record in the last bytes of the packet can be an RRSIG that is too short. *)
Definition long_sigs : Prop :=
  forall ttl, 4 <= ttl -> ttl + 6 <= lim -> lim < ttl + 25 -> u16_at d (ttl - 4) <> LDNS_RR_TYPE_RRSIG.

Record base (w : world) (p : Z) (L : list addr) (R S : addr -> list addr) : Prop := {
  b_pkt : w.(pkt) = at_ p;
  b_pos : 0 <= p <= lim;
  b_all : all_ok (v_next <$> w.(rrsets)) w.(msg).(m_rrset_first) w.(msg).(m_rrset_last) L;
  b_dom : forall a, a ∈ L <-> is_Some (w.(rrsets) !! a);
  b_buckets : buckets_ok (v_bucket <$> w.(rrsets)) w.(msg).(m_hashtable);
  b_lists : lists_ok (v_lists <$> w.(rrsets)) w.(rrs) R S;
  b_keys : forall a s, w.(rrsets) !! a = Some s -> key_ok (v_key s) s.(s_hash);
  b_contents : contents_ok (v_key <$> w.(rrsets)) (v_data <$> w.(rrs)) R S;
}.

(** The RRsets per section. *)
Definition count_sec (Sec : gmap addr sldns_pkt_section) (section : sldns_pkt_section) : Z :=
  Z.of_nat (size (filter (fun p => p.2 = section) Sec)).

Record counts_ok (Sec : gmap addr sldns_pkt_section) (m : msg_parse) : Prop := {
  n_an : m.(m_an_rrsets) = u64 (count_sec Sec LDNS_SECTION_ANSWER);
  n_ns : m.(m_ns_rrsets) = u64 (count_sec Sec LDNS_SECTION_AUTHORITY);
  n_ar : m.(m_ar_rrsets) = u64 (count_sec Sec LDNS_SECTION_ADDITIONAL);
}.

(** All RRsets are in sections up to the present one. *)
Definition upto (Sec : gmap addr sldns_pkt_section) (section : sldns_pkt_section) : Prop :=
  forall a s, Sec !! a = Some s -> 1 <= rank s <= rank section.

(** ** The position *)

Lemma upd_pkt_self w p : w.(pkt) = at_ p -> upd_pkt (at_ p) w = w.
Proof. intros E. rewrite <- E. by destruct w. Qed.

Lemma on_pkt_ok {A} (f : P A) w p x q : w.(pkt) = at_ p -> f (at_ p) = Ok (x, at_ q) -> on_pkt f w = Ok (x, upd_pkt (at_ q) w).
Proof. intros E H. unfold on_pkt. by rewrite E, H. Qed.

Lemma on_pkt_same {A} (f : P A) w p x : w.(pkt) = at_ p -> f (at_ p) = Ok (x, at_ p) -> on_pkt f w = Ok (x, w).
Proof. intros E H. rewrite (on_pkt_ok f w p x p E H). by rewrite upd_pkt_self. Qed.

Lemma on_ask {A} (f : sldns_buffer -> outcome A) w p x : w.(pkt) = at_ p -> f (at_ p) = Ok x -> on_pkt (ask f) w = Ok (x, w).
Proof. intros E H. apply on_pkt_same with p; [done|]. unfold ask. by rewrite H. Qed.

Lemma base_move w p q L R S : base w p L R S -> 0 <= q <= lim -> base (upd_pkt (at_ q) w) q L R S.
Proof. intros [] Hq. by split. Qed.

Lemma base_memory w p L R S m : base w p L R S -> base (upd_memory m w) p L R S.
Proof. intros []. by split. Qed.

Lemma base_msg w p L R S f : base w p L R S -> (forall m, m_hashtable (f m) = m_hashtable m) ->
  (forall m, m_rrset_first (f m) = m_rrset_first m) -> (forall m, m_rrset_last (f m) = m_rrset_last m) -> base (upd_msg f w) p L R S.
Proof. intros [] H1 H2 H3. split; cbn; rewrite ?H1, ?H2, ?H3; done. Qed.

Lemma alloc_answer w : exists ok m, alloc w = Ok (ok, upd_memory m w).
Proof. unfold alloc. destruct (malloc w.(memory)) as [ok m]. by exists ok, m. Qed.

Lemma base_unused w p L R S a : base w p L R S -> w.(rrsets) !! a = None -> R a = [] /\ S a = [].
Proof.
  intros H Ha. apply app_eq_nil. apply (l_none _ _ _ _ (b_lists _ _ _ _ _ H)). by rewrite lookup_fmap, Ha.
Qed.

(** ** Looking for an RRset *)

(** [k] is the key of an RRset with this owner, type, class and flags. *)
Definition has_key (k : key) (ls : name) (type : Z) (dclass : list Z) (flags : Z) : Prop :=
  k.(k_type) = type /\ k.(k_class) = dclass /\ k.(k_flags) = flags /\
  exists ls' e', name_at b d k.(k_dname) ls' e' /\ lower_name ls' = lower_name ls.

Lemma equals_ok w p L R S a s o ls e type dclass flags : base w p L R S -> w.(rrsets) !! a = Some s -> name_at b d o ls e ->
  exists r, rrset_parse_equals a (rrset_hash le raninit ls type dclass flags) flags o (zlen (wire ls)) type dclass w = Ok (r, w) /\
    (r = true <-> has_key (v_key s) ls type dclass flags).
Proof.
  intros H Hs N. destruct (b_keys _ _ _ _ _ H a s Hs) as (ls' & e' & N' & El & Ec & Ef & Eh). cbn in N', El, Ec, Ef, Eh.
  unfold rrset_parse_equals. wstep.
  assert (forall ls2 e2, name_at b d (s_dname s) ls2 e2 -> ls2 = ls') as Hfun by (intros ls2 e2 N2; by destruct (pkt_name_fun _ _ _ _ _ _ _ N2 N')).
  destruct ((s_hash s =? _) && _ && _ && _ && _) eqn:E.
  - rewrite !andb_true_iff, !Z.eqb_eq, bool_decide_eq_true in E. destruct E as ((((E1 & E2) & E3) & E4) & E5).
    destruct (compare_at b d B _ _ _ _ _ _ p N N' (b_pos _ _ _ _ _ H)) as (p1 & p2 & c & X1 & X2 & X3 & Hc).
    erewrite st_bind_ok.
    2:{ apply (on_ask _ w p c); [apply H|]. cbv beta. rewrite X1. cbn [mbind outcome_bind]. rewrite X2. exact X3. }
    exists (c =? 0). split; [done|]. rewrite Z.eqb_eq, Hc. split.
    + intros Elow. do 3 (split; [done|]). by exists ls', e'.
    + intros (_ & _ & _ & ls2 & e2 & N2 & E2'). by rewrite <- (Hfun _ _ N2).
  - exists false. split; [done|]. split; [done|]. intros (K1 & K2 & K3 & ls2 & e2 & N2 & Elow). exfalso.
    cbn in K1, K2, K3. pose proof (Hfun _ _ N2) as ->. rewrite <- not_true_iff_false in E. apply E.
    rewrite !andb_true_iff, !Z.eqb_eq, bool_decide_eq_true. rewrite El, <- (zlen_wire_lower ls'), <- (zlen_wire_lower ls), Elow.
    rewrite Eh, (rrset_hash_lower le raninit ls' ls) by done. by rewrite K1, K2, K3.
Qed.

Lemma lookup_loop_ok w p L R S o ls e type dclass flags : base w p L R S -> name_at b d o ls e ->
  forall l fuel q, seg fst (v_bucket <$> w.(rrsets)) q l None -> (length l < fuel)%nat ->
  exists r, lookup_loop fuel q (rrset_hash le raninit ls type dclass flags) flags o (zlen (wire ls)) type dclass w = Ok (r, w) /\
    match r with
    | Some a => exists s, w.(rrsets) !! a = Some s /\ has_key (v_key s) ls type dclass flags
    | None => forall a s, a ∈ l -> w.(rrsets) !! a = Some s -> ~ has_key (v_key s) ls type dclass flags
    end.
Proof.
  intros H N. induction l as [|a l IH]; intros [|fuel] q Hseg Hf; cbn in Hf; try lia.
  - cbn in Hseg. subst q. exists None. split; [done|]. by intros a s Hin%not_elem_of_nil.
  - destruct Hseg as (-> & v & Hv & Hseg). destruct (view_some _ _ _ _ Hv) as (s & Hs & <-). cbn [lookup_loop].
    destruct (equals_ok w p L R S a s o ls e type dclass flags H Hs N) as (r & E & Hr). erewrite st_bind_ok by exact E.
    destruct r; [exists (Some a); split; [done|]; exists s; split; [done|]; by apply Hr|]. wstep.
    destruct (IH fuel (s_bucket_next s)) as (r' & E' & Hr'); [done|lia|]. exists r'. split; [done|]. destruct r'; [done|].
    intros a' s' [->|Hin]%elem_of_cons Hs'; [|by apply (Hr' a' s')]. rewrite Hs in Hs'. injection Hs' as <-. intros Hk. by apply Hr in Hk.
Qed.

(** The lookup finds the RRset with the key, when there is one. *)
Lemma lookup_ok w p L R S o ls e type dclass flags : base w p L R S -> name_at b d o ls e ->
  exists r, msgparse_hashtable_lookup (rrset_hash le raninit ls type dclass flags) flags o (zlen (wire ls)) type dclass w = Ok (r, w) /\
    match r with
    | Some a => exists s, w.(rrsets) !! a = Some s /\ has_key (v_key s) ls type dclass flags
    | None => forall a s, w.(rrsets) !! a = Some s -> ~ has_key (v_key s) ls type dclass flags
    end.
Proof.
  intros H N. pose proof (b_buckets _ _ _ _ _ H) as BO. set (h := rrset_hash le raninit ls type dclass flags).
  destruct (bucket_lookup _ _ h BO) as (q & Hq). destruct (proj2 BO _ _ Hq) as (l & Hseg & Hn & Hm).
  unfold msgparse_hashtable_lookup. rewrite (st_bind_ok _ _ _ _ _ (get_bucket_ok _ _ _ Hq)). unfold with_fuel.
  destruct (lookup_loop_ok w p L R S o ls e type dclass flags H N l (sets_fuel w) q Hseg) as (r & E & Hr).
  { apply (seg_length fst) in Hseg; [|done]. rewrite map_size_fmap in Hseg. unfold sets_fuel. lia. }
  exists r. split; [exact E|]. destruct r as [a|]; [done|]. intros a s Hs Hk.
  apply (Hr a s); [|done|done]. apply Hm. exists (v_bucket s). split; [by apply view_lookup|].
  destruct Hk as (K1 & K2 & K3 & ls2 & e2 & N2 & Elow). destruct (b_keys _ _ _ _ _ H a s Hs) as (ls' & e' & N' & _ & _ & _ & Eh).
  destruct (pkt_name_fun _ _ _ _ _ _ _ N2 N') as [-> _]. unfold in_bucket, v_bucket. cbn [snd]. rewrite Eh, K1, K2, K3.
  unfold h. by rewrite (rrset_hash_lower le raninit ls' ls).
Qed.
End Inv.
