(* ===== verification/MsgSigs.v ===== *)
(** * Parsing packets: signatures that move to the RRset they cover *)

From stdpp Require Import functions.
From S2P Require Import Prelude Sbuffer Lookup3 Dname DnameCompare DnamePkt RrDef Msgparse MsgPkt MsgRdata MsgLists MsgOps.

Section Sigs.
Context (b : sldns_buffer) (d : list Z) (B : buf_ok b d) (le : bool) (raninit addr_ : Z).
Abbreviation lim := (b.(_limit)).
Abbreviation at_ p := (set_pos b p).
Abbreviation base := (base b d le raninit).
Abbreviation rr_is := (rr_is b d).
Abbreviation sig_covers := (sig_covers b d).
Abbreviation contents_ok := (contents_ok b d).
Abbreviation key_ok := (key_ok b d le raninit).

(** A position with a TTL and a length after it: what is left is read there. *)
Definition ready (p : Z) : Prop := 0 <= p /\ p + 6 <= lim.

Lemma rr_is_ready N t x : rr_is (v_data <$> N) t x -> exists r, N !! x = Some r /\ ready r.(r_ttl_data) /\ r.(r_outside_packet) = false.
Proof.
  intros (ttl & n & out & Hx & (H0 & H1 & _) & _). rewrite lookup_fmap in Hx. destruct (N !! x) as [r|]; [|done].
  injection Hx as E1 E2 _. exists r. split; [done|]. rewrite E1. pose proof (u16_at_range b d B (ttl + 4)) as Hu. unfold in_u in Hu.
  split; [split; lia|done].
Qed.

Lemma ready_covered here p : ready here -> ready p -> ready (after_covered b here p).
Proof. unfold after_covered. intros. by zcase. Qed.

(** The RR is not at the very end of the packet. *)
Definition far (D : gmap addr (Z * bool * Z)) (x : addr) : Prop := forall ttl o n, D !! x = Some (ttl, o, n) -> ttl + 25 <= lim.

(** The position after a look at some RRs. *)
Definition looked (D : gmap addr (Z * bool * Z)) (l : list addr) (p q : Z) : Prop := ready q /\ ((forall x, x ∈ l -> far D x) -> q = p).

Lemma looked_nil D p : ready p -> looked D [] p p.
Proof. by split. Qed.

Lemma looked_self D l p : ready p -> looked D l p p.
Proof. by split. Qed.

Lemma looked_first D x l p q : looked D [x] p q -> looked D (x :: l) p q.
Proof. intros [H1 H2]. split; [done|]. intros H. apply H2. intros y ->%list_elem_of_singleton. apply H. left. Qed.

Lemma looked_cons D x l p q q' : looked D [x] p q -> looked D l q q' -> looked D (x :: l) p q'.
Proof.
  intros H [H1 H2]. apply (looked_first _ _ l) in H as [_ H3]. split; [done|]. intros H. rewrite H2; [by apply H3|]. intros y Hy. apply H. by right.
Qed.

Lemma located_far D k t x : long_sigs b d -> rr_at b d (record_at b d) D k LDNS_RR_TYPE_RRSIG x -> rr_is D t x -> far D x.
Proof.
  intros Hl (ttl & f & n & ls & e & ls' & HD & _ & _ & o & e' & N & -> & Ht & _) (ttl2 & n2 & out & HD2 & (_ & Hr & _) & _).
  rewrite HD in HD2. injection HD2 as <- _ _. pose proof (u16_at_range b d B (o + e' + 4 + 4)) as Hu. unfold in_u in Hu.
  destruct (name_at_range b d B _ _ _ N) as (? & ? & _). intros ttl3 f3 n3 HD3. rewrite HD in HD3. injection HD3 as <- _ _.
  destruct (Z.le_gt_cases (o + e' + 4 + 25) lim) as [|Hlt]; [done|]. exfalso. apply (Hl (o + e' + 4)); [lia..|]. by replace (o + e' + 4 - 4) with (o + e') by lia.
Qed.

(** The look at one signature. *)
Lemma look_ok w p x r t D : w.(pkt) = at_ p -> ready p -> w.(rrs) !! x = Some r -> ready r.(r_ttl_data) -> D !! x = Some (v_data r) ->
  exists q, on_pkt (pkt_rrsig_covered_equals r.(r_ttl_data) t) w = Ok (sig_covers (v_data <$> w.(rrs)) t x, upd_pkt (at_ q) w) /\ looked D [x] p q.
Proof.
  intros Hp [P1 P2] Hx [R1 R2] HD. exists (after_covered b r.(r_ttl_data) p). split.
  2:{ split; [by apply ready_covered|]. intros Hfar. specialize (Hfar x ltac:(left) _ _ _ HD). unfold after_covered. zcase; [lia|done]. }
  rewrite (on_pkt_ok b _ w p _ _ Hp (covered_equals_at b d B r.(r_ttl_data) t p ltac:(lia) ltac:(lia))).
  unfold MsgOps.sig_covers. by rewrite lookup_fmap, Hx.
Qed.

Lemma has_sigover_loop_ok t : forall l fuel rr res other w p,
  w.(pkt) = at_ p -> ready p -> seg r_next w.(rrs) rr l None -> (forall x, x ∈ l -> exists t', rr_is (v_data <$> w.(rrs)) t' x) -> (length l < fuel)%nat ->
  exists q, has_sigover_loop fuel rr t res other w
    = Ok ((res || existsb (sig_covers (v_data <$> w.(rrs)) t) l, other || existsb (fun x => negb (sig_covers (v_data <$> w.(rrs)) t x)) l), upd_pkt (at_ q) w) /\ looked (v_data <$> w.(rrs)) l p q.
Proof.
  induction l as [|x l IH]; intros [|fuel] rr res other w p Hp Hr Hs Hl Hf; cbn in Hf; try lia.
  - cbn in Hs. subst rr. exists p. rewrite upd_pkt_self by done. cbn. rewrite !orb_false_r. split; [done|by apply looked_nil].
  - destruct Hs as (-> & r & Hx & Hs). cbn [has_sigover_loop existsb]. wstep.
    destruct (Hl x) as (t' & H); [left|]. destruct (rr_is_ready _ _ _ H) as (r' & Hx' & Hready & _). rewrite Hx in Hx'. injection Hx' as <-.
    destruct (look_ok w p x r t (v_data <$> w.(rrs)) Hp Hr Hx Hready) as (q & E & Hq); [by rewrite lookup_fmap, Hx|]. rewrite (st_bind_ok _ _ _ _ _ E).
    destruct (IH fuel (r_next r) (res || sig_covers (v_data <$> w.(rrs)) t x) (other || negb (sig_covers (v_data <$> w.(rrs)) t x))
                (upd_pkt (at_ q) w) q) as (q' & E' & Hq'); try done; [by destruct Hq|by intros y Hy; apply Hl; right|lia|].
    exists q'. split; [|by eapply looked_cons]. rewrite E'. cbn [rrs upd_pkt]. by rewrite !orb_assoc.
Qed.

Lemma rrs_fuel_ok w l p : NoDup l -> seg r_next w.(rrs) p l None -> (length l < rrs_fuel w)%nat.
Proof. intros Hn Hs. apply (seg_length r_next) in Hs; [|done]. unfold rrs_fuel. lia. Qed.

Lemma rrset_has_sigover_ok w p L R S a s t : base w p L R S -> ready p -> w.(rrsets) !! a = Some s -> s.(s_type) = LDNS_RR_TYPE_RRSIG ->
  exists q, rrset_has_sigover a t false w
    = Ok ((existsb (sig_covers (v_data <$> w.(rrs)) t) (R a), existsb (fun x => negb (sig_covers (v_data <$> w.(rrs)) t x)) (R a)), upd_pkt (at_ q) w) /\ looked (v_data <$> w.(rrs)) (R a) p q.
Proof.
  intros H Hr Hs Ht. pose proof (b_lists _ _ _ _ _ _ _ _ _ H) as LO.
  pose proof (l_rrs _ _ _ _ LO a _ _ _ (view_lookup v_lists _ _ _ Hs)) as [Hseg _ _].
  unfold rrset_has_sigover. wstep. rewrite Ht, Z.eqb_refl. wstep. unfold with_fuel.
  apply (has_sigover_loop_ok t (R a) (rrs_fuel w) (s_rr_first s) false false w p); try done; [by destruct H| |eapply rrs_fuel_ok; [by eapply rrs_nodup|done]].
  intros x Hx. exists s.(s_type). apply (c_rrs _ _ _ _ _ _ (b_contents _ _ _ _ _ _ _ _ _ H) a (v_key s)); [by apply view_lookup|done].
Qed.

(** ** The move *)

Definition keep (D : gmap addr (Z * bool * Z)) (t : Z) (l : list addr) : list addr := filter (fun x => sig_covers D t x = false) l.
Definition moved (D : gmap addr (Z * bool * Z)) (t : Z) (l : list addr) : list addr := filter (fun x => sig_covers D t x = true) l.

(** The links have changed, of the RRs and in the RRsets. *)
Record relinked (w w' : world) : Prop := {
  e_msg : w'.(msg) = w.(msg);
  e_rest : s_rest <$> w'.(rrsets) = s_rest <$> w.(rrsets);
}.

Lemma relinked_view {V} (g : rrset_parse -> V) w w' : relinked w w' -> (forall s, g (s_rest s) = g s) -> g <$> w'.(rrsets) = g <$> w.(rrsets).
Proof.
  intros [_ E] H. assert (forall M : gmap addr rrset_parse, g <$> M = g <$> (s_rest <$> M)) as X.
  { intros M. rewrite <- map_fmap_compose. apply map_fmap_ext. intros i s _. symmetry. apply H. }
  by rewrite (X (rrsets w')), E, <- X.
Qed.

Lemma unowned_removed H N R S a l1 x l2 : lists_ok H N R S -> R a = l1 ++ x :: l2 -> unowned (<[a := l1 ++ l2]> R) S x.
Proof.
  intros LO E c Hc. pose proof (l_nodup _ _ _ _ LO a) as Hn. unfold own in Hn. rewrite E, <- app_assoc in Hn. cbn [app] in Hn.
  rewrite <- Permutation_middle in Hn. apply NoDup_cons in Hn as [Hx _]. unfold own in Hc. destruct (decide (c = a)) as [->|Hne].
  - rewrite fn_lookup_insert in Hc. rewrite <- app_assoc in Hc. done.
  - rewrite fn_lookup_insert_ne in Hc by done. apply Hne. apply (l_disj _ _ _ _ LO c a x); [done|].
    unfold own. rewrite E. rewrite !elem_of_app. left. right. by left.
Qed.

Lemma moveover_loop_ok a c sc t : a <> c -> s_type sc = t -> forall rest kept w p sig fuel S R D,
  lists_ok (v_lists <$> w.(rrsets)) w.(rrs) R S -> R a = kept ++ rest -> is_Some (w.(rrsets) !! a) ->
  (s_rest <$> w.(rrsets)) !! c = Some (s_rest sc) -> D = v_data <$> w.(rrs) ->
  seg r_next w.(rrs) sig rest None -> (forall x, x ∈ rest -> exists t', rr_is D t' x) ->
  w.(pkt) = at_ p -> ready p -> (length rest < fuel)%nat ->
  exists w' q, moveover_loop fuel (list.last kept) sig a c false w = Ok (true, w') /\ relinked w w' /\ w'.(pkt) = at_ q /\ looked D rest p q /\
    v_data <$> w'.(rrs) = D /\
    lists_ok (v_lists <$> w'.(rrsets)) w'.(rrs) (<[a := kept ++ keep D t rest]> R) (<[c := S c ++ moved D t rest]> S).
Proof.
  intros Hac Ht. induction rest as [|x rest IH]; intros kept w p sig [|fuel] S R D LO HR Ha Hc HD Hseg Hd Hp Hr Hf; cbn in Hf; try lia.
  - cbn in Hseg. subst sig. exists w, p. do 3 (split; [done|]). split; [by apply looked_nil|]. split; [done|]. unfold keep, moved. cbn. rewrite !app_nil_r in *.
    eapply lists_ext; [..|exact LO]; intros y; (destruct (decide (y = a)) as [->|]; [|destruct (decide (y = c)) as [->|]]);
      rewrite ?fn_lookup_insert, ?fn_lookup_insert_ne by done; try done; by destruct (decide (c = a)) as [->|]; rewrite ?fn_lookup_insert, ?fn_lookup_insert_ne.
  - destruct Hseg as (-> & rx & Hx & Hseg). cbn [moveover_loop]. wstep.
    destruct (view_some _ _ _ _ Hc) as (sc' & Hsc & Esc). wstep.
    destruct (Hd x) as (t' & Hxd); [left|]. rewrite HD in Hxd. destruct (rr_is_ready _ _ _ Hxd) as (r' & Hx' & Hready & _). rewrite Hx in Hx'. injection Hx' as <-.
    assert (s_type sc' = t) as Et by (rewrite <- Ht; by apply (f_equal s_type) in Esc).
    destruct (look_ok w p x rx (s_type sc') D Hp Hr Hx Hready) as (q & E & Hq); [by rewrite HD, lookup_fmap, Hx|]. rewrite (st_bind_ok _ _ _ _ _ E). rewrite Et, <- HD.
    unfold keep, moved. rewrite !filter_cons. destruct (sig_covers D t x) eqn:Ecov.
    + rewrite decide_False, decide_True by done. fold (keep D t rest) (moved D t rest).
      destruct Ha as [s Hs]. set (w1 := upd_pkt (at_ q) w).
      destruct (unlink_rr_ok w1 R S a s kept x rest rx LO Hs HR Hx) as (s' & E1 & Rs & LO1 & _).
      set (w2 := set_lists a s' _ w1) in E1. rewrite st_bind_assoc, (st_bind_ok _ _ _ _ _ E1). wstep.
      set (R1 := <[a := kept ++ rest]> R) in LO1.
      assert (v_data <$> w2.(rrs) = D) as HD2. { unfold w2, set_lists; cbn. by rewrite link_over_data. }
      assert (is_Some (w2.(rrs) !! x)) as [rx2 Hx2].
      { assert (is_Some (D !! x)) as [v Hv] by (rewrite HD, lookup_fmap, Hx; by eexists).
        rewrite <- HD2, lookup_fmap in Hv. destruct (rrs w2 !! x); [by eexists|done]. }
      assert (w2.(rrsets) !! c = Some sc') as Hc2 by (unfold w2, set_lists; cbn; by rewrite lookup_insert_ne).
      destruct (insert_sig_ok w2 R1 S c sc' x rx2 LO1 Hc2) as (sc2 & N2 & E2 & Rc & _ & LO2 & HD3 & Hsame); [by eapply unowned_removed|done|].
      rewrite (st_bind_ok _ _ _ _ _ E2). set (w3 := set_lists c sc2 N2 w2).
      assert (kept ++ rest = R1 a) as HR1 by (unfold R1; by rewrite fn_lookup_insert).
      assert (seg r_next w3.(rrs) (r_next rx) rest None) as Hseg3.
      { eapply lseg_frame; [|exact Hseg]. intros y Hy. cbn. pose proof (l_nodup _ _ _ _ LO a) as Hn. unfold own in Hn. rewrite HR in Hn.
        assert (y <> x) as Hyx. { intros ->. rewrite <- app_assoc in Hn. apply NoDup_app in Hn as (_ & _ & [Hn _]%NoDup_cons). apply Hn, elem_of_app. by left. }
        rewrite Hsame; [|eapply (rrs_sigs_disj _ _ _ _ LO a); rewrite HR; apply elem_of_app; right; by right|done].
        unfold w2, set_lists; cbn. rewrite link_over_other; [done|]. intros El%last_Some_elem_of.
        rewrite <- app_assoc in Hn. apply NoDup_app in Hn as (_ & Hdj & _). apply (Hdj y El). right. apply elem_of_app. by left. }
      destruct (IH kept w3 q (r_next rx) fuel (<[c := S c ++ [x]]> S) R1 D) as (w' & q' & E3 & Hrel & Hp' & Hq' & HD' & LO'); try done; try by destruct Hq.
      * unfold w3, w2, set_lists; cbn. rewrite lookup_insert_ne, lookup_insert_eq by done. by eexists.
      * unfold w3, set_lists; cbn. by rewrite lookup_fmap, lookup_insert_eq; cbn; rewrite Rc, Esc.
      * unfold w3, set_lists; cbn. by rewrite HD3, HD2.
      * intros y Hy. apply Hd. by right.
      * lia.
      * exists w', q'. split; [exact E3|]. split; [|split; [done|split; [by eapply looked_cons|split; [done|]]]].
        -- destruct Hrel as [Em Er]. split; [done|]. rewrite Er. unfold w3, w2, set_lists; cbn.
           rewrite (fmap_insert_same s_rest _ c sc' sc2); [|by rewrite lookup_insert_ne|done]. by apply fmap_insert_same with s.
        -- eapply lists_ext; [..|exact LO']; intros y; unfold R1.
           ++ destruct (decide (y = a)) as [->|]; [by rewrite !fn_lookup_insert|by rewrite !fn_lookup_insert_ne].
           ++ destruct (decide (y = c)) as [->|]; [by rewrite !fn_lookup_insert, <- app_assoc|by rewrite !fn_lookup_insert_ne].
    + rewrite decide_True, decide_False by done. fold (keep D t rest) (moved D t rest).
      destruct (IH (kept ++ [x]) (upd_pkt (at_ q) w) q (r_next rx) fuel S R D) as (w' & q' & E3 & Hrel & Hp' & Hq' & HD' & LO'); try done; try by destruct Hq.
      * by rewrite <- app_assoc.
      * intros y Hy. apply Hd. by right.
      * lia.
      * rewrite last_snoc in E3. exists w', q'. split; [exact E3|]. split; [by destruct Hrel|]. split; [done|]. split; [by eapply looked_cons|]. split; [done|]. by rewrite <- app_assoc in LO'.
Qed.

(** With copies: [sigset] stays as it is. *)
Lemma moveover_dup_ok a c sc t : s_type sc = t -> forall rest prev w p sig fuel S R D,
  lists_ok (v_lists <$> w.(rrsets)) w.(rrs) R S -> (forall x, x ∈ rest -> x ∈ R a) ->
  (s_rest <$> w.(rrsets)) !! c = Some (s_rest sc) -> D ⊆ v_data <$> w.(rrs) ->
  seg r_next w.(rrs) sig rest None -> (forall x, x ∈ rest -> exists t', rr_is D t' x) ->
  w.(pkt) = at_ p -> ready p -> (length rest < fuel)%nat ->
  exists ok w' q, moveover_loop fuel prev sig a c true w = Ok (ok, w') /\ w'.(pkt) = at_ q /\ looked D rest p q /\
    (ok = true -> relinked w w' /\ v_data <$> w.(rrs) ⊆ v_data <$> w'.(rrs) /\
      exists new, lists_ok (v_lists <$> w'.(rrsets)) w'.(rrs) R (<[c := S c ++ new]> S) /\ zlen new <= zlen rest /\
        forall y, y ∈ new -> exists x, x ∈ moved D t rest /\ (v_data <$> w'.(rrs)) !! y = D !! x).
Proof.
  intros Ht. induction rest as [|x rest IH]; intros prev w p sig [|fuel] S R D LO HR Hc HD Hseg Hd Hp Hr Hf; cbn in Hf; try lia.
  - cbn in Hseg. subst sig. exists true, w, p. do 2 (split; [done|]). split; [by apply looked_nil|]. intros _. split; [done|]. split; [done|]. exists []. split; [|split; [done|by intros y Hy%not_elem_of_nil]].
    eapply lists_ext; [..|exact LO]; [done|]. intros y. destruct (decide (y = c)) as [->|]; rewrite ?fn_lookup_insert, ?fn_lookup_insert_ne by done; [apply app_nil_r|done].
  - destruct Hseg as (-> & rx & Hx & Hseg). cbn [moveover_loop]. wstep.
    destruct (view_some _ _ _ _ Hc) as (sc' & Hsc & Esc). wstep.
    destruct (Hd x) as (t' & Hxd); [left|].
    assert (rr_is (v_data <$> w.(rrs)) t' x) as Hxd'.
    { destruct Hxd as (ttl & n & out & E & ?). exists ttl, n, out. split; [|done]. by eapply lookup_weaken. }
    destruct (rr_is_ready _ _ _ Hxd') as (r' & Hx' & Hready & Hout). rewrite Hx in Hx'. injection Hx' as <-.
    assert (D !! x = Some (v_data rx)) as HDx.
    { destruct Hxd as (ttl & n & out & E & ?). rewrite E. eapply lookup_weaken in E; [|exact HD]. rewrite lookup_fmap, Hx in E. by injection E as <- <- <-. }
    assert (s_type sc' = t) as Et by (rewrite <- Ht; by apply (f_equal s_type) in Esc).
    destruct (look_ok w p x rx (s_type sc') D Hp Hr Hx Hready HDx) as (q & E & Hq). rewrite (st_bind_ok _ _ _ _ _ E). rewrite Et.
    assert (sig_covers (v_data <$> w.(rrs)) t x = sig_covers D t x) as ->.
    { unfold MsgOps.sig_covers. by rewrite HDx, lookup_fmap, Hx. }
    unfold moved. rewrite filter_cons. destruct (sig_covers D t x) eqn:Ecov.
    + rewrite decide_True by done. fold (moved D t rest). set (w1 := upd_pkt (at_ q) w).
      destruct (alloc_answer w1) as (ok & m & Em). rewrite st_bind_assoc, (st_bind_ok _ _ _ _ _ Em).
      destruct ok; cbn [negb]; [|rewrite st_ret; exists false; eexists _, q; split; [reflexivity|]; split; [done|]; split; [by apply looked_first|done]].
      set (w2 := upd_memory m w1). set (i := fresh (dom w2.(rrs))).
      set (ri := mk_rr (r_ttl_data rx) false (r_size rx) None).
      assert (w2.(rrs) !! i = None) as Hi by (apply not_elem_of_dom, is_fresh).
      set (w3 := upd_rrs <[i := ri]> w2). rewrite st_bind_assoc, (st_bind_ok _ _ _ i w3) by done. rewrite st_ret.
      assert (unowned R S i) as Hu by (by apply (fresh_unowned _ _ _ _ LO)).
      assert (lists_ok (v_lists <$> w3.(rrsets)) w3.(rrs) R S) as LO3 by (by apply lists_unowned).
      destruct (insert_sig_ok w3 R S c sc' i ri LO3 Hsc Hu) as (sc2 & N2 & E2 & Rc & _ & LO2 & HD3 & Hsame); [apply lookup_insert_eq|].
      rewrite (st_bind_ok _ _ _ _ _ E2). set (w4 := set_lists c sc2 N2 w3).
      assert (v_data <$> w.(rrs) ⊆ v_data <$> w4.(rrs)) as HD4.
      { unfold w4, set_lists; cbn. rewrite HD3. unfold w3; cbn. rewrite fmap_insert. apply insert_subseteq.
        rewrite lookup_fmap. cbn in Hi. by rewrite Hi. }
      assert (seg r_next w4.(rrs) (r_next rx) rest None) as Hseg4.
      { eapply lseg_frame; [|exact Hseg]. intros y Hy. unfold w4, set_lists; cbn.
        assert (y <> i) as Hyi. { intros ->. apply (Hu a), own_rrs, HR. by right. }
        rewrite Hsame; [|eapply (rrs_sigs_disj _ _ _ _ LO a); apply HR; by right|done].
        unfold w3; cbn. by rewrite lookup_insert_ne. }
      destruct (IH prev w4 q (r_next rx) fuel (<[c := S c ++ [i]]> S) R D) as (ok & w' & q' & E3 & Hp' & Hq' & Hok); try done; try by destruct Hq.
      * intros y Hy. apply HR. by right.
      * unfold w4, set_lists; cbn. rewrite lookup_fmap, lookup_insert_eq; cbn; by rewrite Rc, Esc.
      * by etrans.
      * intros y Hy. apply Hd. by right.
      * lia.
      * exists ok, w', q'. split; [exact E3|]. split; [done|]. split; [by eapply looked_cons|]. intros Hok'. destruct (Hok Hok') as (Hrel & HD' & new & LO' & Hlen & Hnew).
        split; [|split; [by etrans|]].
        -- destruct Hrel as [Em' Er]. split; [done|]. rewrite Er. unfold w4, set_lists; cbn. by apply fmap_insert_same with sc'.
        -- exists (i :: new). split; [|split; [rewrite !zlen_cons; lia|]].
           ++ eapply lists_ext; [..|exact LO']; [done|]. intros y. destruct (decide (y = c)) as [->|]; [by rewrite !fn_lookup_insert, <- app_assoc|by rewrite !fn_lookup_insert_ne].
           ++ intros y [->|Hy]%elem_of_cons.
              ** exists x. split; [left|]. rewrite HDx. eapply lookup_weaken; [|exact HD'].
                 unfold w4, set_lists; cbn. rewrite HD3. unfold w3; cbn. rewrite fmap_insert, lookup_insert_eq.
                 unfold v_data, ri; cbn. by rewrite Hout.
              ** destruct (Hnew y Hy) as (x' & Hx' & Ex'). exists x'. split; [by right|done].
    + rewrite decide_False by done. fold (moved D t rest).
      destruct (IH (Some x) (upd_pkt (at_ q) w) q (r_next rx) fuel S R D) as (ok & w' & q' & E3 & Hp' & Hq' & Hok); try done; try by destruct Hq.
      * intros y Hy. apply HR. by right.
      * intros y Hy. apply Hd. by right.
      * lia.
      * exists ok, w', q'. split; [exact E3|]. split; [done|]. split; [by eapply looked_cons|]. intros Hok'. destruct (Hok Hok') as (Hrel & HD' & new & LO' & Hlen & Hnew). split; [by destruct Hrel|]. split; [done|]. exists new. split; [done|]. rewrite zlen_cons. split; [lia|done].
Qed.

Lemma moveover_rrsigs_ok w p R S a c s sc t : a <> c -> s_type sc = t ->
  lists_ok (v_lists <$> w.(rrsets)) w.(rrs) R S -> w.(rrsets) !! a = Some s -> w.(rrsets) !! c = Some sc ->
  (forall x, x ∈ R a -> exists t', rr_is (v_data <$> w.(rrs)) t' x) -> w.(pkt) = at_ p -> ready p -> forall dup,
  exists ok w' q, moveover_rrsigs a c dup w = Ok (ok, w') /\ w'.(pkt) = at_ q /\ looked (v_data <$> w.(rrs)) (R a) p q /\
    (ok = true -> relinked w w' /\ v_data <$> w.(rrs) ⊆ v_data <$> w'.(rrs) /\
      exists new, lists_ok (v_lists <$> w'.(rrsets)) w'.(rrs) (<[a := if dup : bool then R a else keep (v_data <$> w.(rrs)) t (R a)]> R) (<[c := S c ++ new]> S) /\ zlen new <= zlen (R a) /\
        (dup = false -> new = moved (v_data <$> w.(rrs)) t (R a)) /\ forall y, y ∈ new -> exists x, x ∈ moved (v_data <$> w.(rrs)) t (R a) /\ (v_data <$> w'.(rrs)) !! y = (v_data <$> w.(rrs)) !! x).
Proof.
  intros Hac Ht LO Ha Hc Hd Hp Hr dup. unfold moveover_rrsigs. wstep. unfold with_fuel.
  pose proof (l_rrs _ _ _ _ LO a _ _ _ (view_lookup v_lists _ _ _ Ha)) as [Hseg _ _].
  pose proof (rrs_fuel_ok w _ _ (rrs_nodup _ _ _ _ LO a) Hseg) as Hf. destruct dup.
  - destruct (moveover_dup_ok a c sc t Ht (R a) None w p (s_rr_first s) (rrs_fuel w) S R (v_data <$> w.(rrs)))
      as (ok & w' & q & E & Hp' & Hq & Hok); try done; [by apply (view_lookup s_rest)|].
    exists ok, w', q. split; [exact E|]. do 2 (split; [done|]). intros Hok'. destruct (Hok Hok') as (H1 & H2 & new & H3 & H4 & H5).
    do 2 (split; [done|]). exists new. split; [|split; [done|split; [done|exact H5]]]. eapply lists_ext; [..|exact H3]; [|done].
    intros y. destruct (decide (y = a)) as [->|]; [by rewrite fn_lookup_insert|by rewrite fn_lookup_insert_ne].
  - destruct (moveover_loop_ok a c sc t Hac Ht (R a) [] w p (s_rr_first s) (rrs_fuel w) S R (v_data <$> w.(rrs)))
      as (w' & q & E & Hrel & Hp' & Hq & HD & LO'); try done; [by apply (view_lookup s_rest)|].
    exists true, w', q. split; [exact E|]. do 2 (split; [done|]). intros _. split; [done|]. split; [by rewrite HD|].
    exists (moved (v_data <$> w.(rrs)) t (R a)). split; [exact LO'|]. split; [apply zlen_filter|]. split; [done|]. intros y Hy. exists y. by rewrite HD.
Qed.

(** ** A new RRset *)

Definition v_kh (s : rrset_parse) : key * Z := (v_key s, s.(s_hash)).

Lemma kh_key s k h : v_kh s = (k, h) -> key_ok k h -> key_ok (v_key s) s.(s_hash).
Proof. intros E. pose proof (f_equal fst E) as E1. pose proof (f_equal snd E) as E2. cbn [fst snd v_kh] in E1, E2. by rewrite E1, E2. Qed.

Lemma keys_view w w' : v_kh <$> w'.(rrsets) = v_kh <$> w.(rrsets) -> (forall a s, w.(rrsets) !! a = Some s -> key_ok (v_key s) s.(s_hash)) ->
  forall a s, w'.(rrsets) !! a = Some s -> key_ok (v_key s) s.(s_hash).
Proof.
  intros E H a s Hs. apply (view_lookup v_kh) in Hs. rewrite E in Hs. destruct (view_some _ _ _ _ Hs) as (s0 & Hs0 & E0).
  symmetry in E0. apply (kh_key _ _ _ E0). by apply H with a.
Qed.

Lemma new_rrset_ok w p L R S dname len type dclass hash flags section :
  base w p L R S -> key_ok (mk_key dname len type dclass flags) hash ->
  exists r w', new_rrset dname len type dclass hash flags section w = Ok (r, w') /\ w'.(pkt) = at_ p /\
    match r with
    | None => True
    | Some a =>
        base w' p (L ++ [a]) R S /\ w.(rrsets) !! a = None /\ w'.(rrs) = w.(rrs) /\ m_rest w'.(msg) = m_rest w.(msg) /\
        v_key <$> w'.(rrsets) = <[a := mk_key dname len type dclass flags]> (v_key <$> w.(rrsets)) /\
        v_section <$> w'.(rrsets) = <[a := section]> (v_section <$> w.(rrsets))
    end.
Proof.
  intros H K. unfold new_rrset. destruct (alloc_answer w) as (ok & m & Em). rewrite (st_bind_ok _ _ _ _ _ Em).
  destruct ok; cbn [negb]; [|exists None; eexists; split; [reflexivity|]; split; [apply H|done]].
  apply (base_memory _ _ _ _ _ _ _ _ _ m) in H. set (w1 := upd_memory m w) in *.
  destruct (bucket_lookup _ _ hash (b_buckets _ _ _ _ _ _ _ _ _ H)) as (nx & Hnx). rewrite (st_bind_ok _ _ _ _ _ (get_bucket_ok _ _ _ Hnx)).
  set (s0 := mk_rrset _ _ _ _ _ _ _ _ _ _ _ _ _ _ _ _). set (a := fresh (dom w1.(rrsets))).
  assert (w1.(rrsets) !! a = None) as Ha by (apply not_elem_of_dom, is_fresh).
  assert (forall V (g : rrset_parse -> V), (g <$> w1.(rrsets)) !! a = None) as Hva by (intros V g; by rewrite lookup_fmap, Ha).
  set (w2 := upd_rrsets <[a := s0]> w1). rewrite (st_bind_ok _ _ _ a w2) by done. wstep.
  set (w3 := upd_msg _ w2).
  assert (a ∉ L) as HaL. { intros Hin%(b_dom _ _ _ _ _ _ _ _ _ H). rewrite Ha in Hin. by destruct Hin. }
  destruct (append_rrset_ok w3 a s0 L) as (M' & f' & E' & A' & Ho); try done.
  { pose proof (b_all _ _ _ _ _ _ _ _ _ H) as [X1 X2 X3]. split; [|done|done]. cbn. rewrite fmap_insert. by apply seg_insert_ne. }
  { cbn. apply lookup_insert_eq. }
  rewrite (st_bind_ok _ _ _ _ _ E'). exists (Some a). eexists. split; [reflexivity|]. split; [apply H|].
  cbn [rrsets rrs msg upd_rrsets upd_msg].
  assert (forall V (g : rrset_parse -> V), (forall x, blind g (with_all_next x)) -> g <$> M' = <[a := g s0]> (g <$> w1.(rrsets))) as Hv.
  { intros V g Hg. rewrite (Ho V g Hg). cbn. by rewrite fmap_insert. }
  pose proof (base_unused _ _ _ _ _ _ _ _ _ a H Ha) as [HRa HSa].
  split; [|split; [done|split; [done|split; [by destruct w as [? [] ? ? ?]|split; [apply (Hv _ v_key); done|apply (Hv _ v_section); done]]]]].
  split; cbn.
  - apply H.
  - apply H.
  - exact A'.
  - intros x. rewrite (only_upd_lookup _ _ _ x Ho). cbn. rewrite elem_of_app, list_elem_of_singleton, (b_dom _ _ _ _ _ _ _ _ _ H).
    destruct (decide (x = a)) as [->|Hx]; [rewrite lookup_insert_eq|rewrite lookup_insert_ne by done].
    + split; [by eexists|by right]. + split; [by intros [?|?]|by left].
  - rewrite (Hv _ v_bucket) by done. unfold v_bucket at 1. cbn.
    destruct w as [? [] ? ? ?]. apply buckets_insert; [apply H|apply Hva|exact Hnx].
  - rewrite (Hv _ v_lists) by done. apply lists_new; [apply H|apply Hva].
  - intros x s Hs. apply (view_lookup v_kh) in Hs. rewrite (Hv _ v_kh) in Hs by done. destruct (decide (x = a)) as [->|Hx].
    + rewrite lookup_insert_eq in Hs. apply (f_equal (from_option id (v_kh s))) in Hs. cbn [from_option id] in Hs. symmetry in Hs. by apply (kh_key _ _ _ Hs).
    + rewrite lookup_insert_ne in Hs by done. destruct (view_some _ _ _ _ Hs) as (s1 & Hs1 & E1). symmetry in E1.
      apply (kh_key _ _ _ E1). by apply (b_keys _ _ _ _ _ _ _ _ _ H x).
  - rewrite (Hv _ v_key) by done. pose proof (b_contents _ _ _ _ _ _ _ _ _ H) as [C1 C2]. split.
    + intros y k x Hy Hx. destruct (decide (y = a)) as [->|Hya]; [rewrite HRa in Hx; by apply not_elem_of_nil in Hx|].
      rewrite lookup_insert_ne in Hy by done. by eapply C1.
    + intros y k x Hy Hx. destruct (decide (y = a)) as [->|Hya]; [rewrite HSa in Hx; by apply not_elem_of_nil in Hx|].
      rewrite lookup_insert_ne in Hy by done. by eapply C2.
Qed.
End Sigs.
