(* ===== verification/MsgChange.v ===== *)
(** * Parsing packets: from signatures to the RRset they cover

    [change_rrsig_rrset] keeps the invariant, and the effect it has on the keys. *)

From stdpp Require Import functions.
From S2P Require Import Prelude Sbuffer Lookup3 Dname DnameCompare DnamePkt RrDef Msgparse MsgPkt MsgRdata MsgLists MsgOps MsgSigs.

(** ** Counting RRsets *)

Lemma count_new Sec a s x : Sec !! a = None -> count_sec (<[a := s]> Sec) x = count_sec Sec x + if decide (s = x) then 1 else 0.
Proof.
  intros Ha. unfold count_sec. destruct (decide (s = x)) as [->|Hne].
  - rewrite map_filter_insert_True by done. rewrite map_size_insert_None; [lia|]. rewrite map_lookup_filter, Ha. done.
  - rewrite map_filter_insert_False by done. rewrite delete_id by done. lia.
Qed.

Lemma count_change Sec a s0 s x : Sec !! a = Some s0 ->
  count_sec (<[a := s]> Sec) x = count_sec Sec x - (if decide (s0 = x) then 1 else 0) + if decide (s = x) then 1 else 0.
Proof.
  intros Ha. rewrite <- (insert_id _ _ _ Ha) at 2. rewrite <- (insert_delete_eq Sec a s), <- (insert_delete_eq Sec a s0).
  rewrite !count_new by apply lookup_delete_eq. lia.
Qed.

Lemma rank_cases s : 1 <= rank s -> s = LDNS_SECTION_ANSWER \/ s = LDNS_SECTION_AUTHORITY \/ s = LDNS_SECTION_ADDITIONAL.
Proof. destruct s; cbn; intros; auto; lia. Qed.

Lemma counts_new Sec m a s : counts_ok Sec m -> Sec !! a = None -> 1 <= rank s -> counts_ok (<[a := s]> Sec) (add_rrsets s 1 m).
Proof.
  intros [H1 H2 H3] Ha Hr. destruct (rank_cases s Hr) as [-> | [-> | -> ]]; split; rewrite (count_new _ _ _ _ Ha); cbn;
    rewrite ?H1, ?H2, ?H3, ?u64_add; try done; by rewrite Z.add_0_r.
Qed.

Lemma counts_change Sec m a s0 s : counts_ok Sec m -> Sec !! a = Some s0 -> 1 <= rank s0 < rank s ->
  counts_ok (<[a := s]> Sec) (add_rrsets s 1 (add_rrsets s0 (-1) m)).
Proof.
  intros [H1 H2 H3] Ha Hr. destruct (rank_cases s0 ltac:(lia)) as [-> | [-> | -> ]]; destruct (rank_cases s ltac:(lia)) as [-> | [-> | -> ]];
    cbn [rank] in Hr; try lia; split; rewrite (count_change _ _ _ _ _ Ha); repeat case_decide; try discriminate; try done; cbn; rewrite ?H1, ?H2, ?H3, ?u64_add; f_equal; lia.
Qed.

Lemma counts_rest Sec m m' : m_rest m' = m_rest m -> counts_ok Sec m -> counts_ok Sec m'.
Proof.
  intros E [H1 H2 H3]. pose proof (f_equal m_an_rrsets E) as E1. pose proof (f_equal m_ns_rrsets E) as E2. pose proof (f_equal m_ar_rrsets E) as E3.
  cbn in E1, E2, E3. split; congruence.
Qed.

(** What parsing an RR leaves alone in [msg]. *)
Definition m_head (m : msg_parse) : msg_parse := with_counts 0 0 0 0 (m_rest m).

Lemma head_rest m m' : m_rest m' = m_rest m -> m_head m' = m_head m.
Proof. intros E. unfold m_head. by rewrite E. Qed.

Lemma head_add s k m : m_head (add_rrsets s k m) = m_head m.
Proof. by destruct s. Qed.

Lemma rest_add s k m m' : m_rest m' = m_rest m -> m_rest (add_rrsets s k m') = m_rest (add_rrsets s k m).
Proof.
  intros E. assert (forall m, m_rest (add_rrsets s k m) = add_rrsets s k (m_rest m)) as X by (by destruct s). by rewrite !X, E.
Qed.

Lemma upto_insert Sec a s section : upto Sec section -> 1 <= rank s <= rank section -> upto (<[a := s]> Sec) section.
Proof.
  intros H Hr x y. destruct (decide (x = a)) as [->|Hx]; [rewrite lookup_insert_eq; by intros [= <-]|rewrite lookup_insert_ne by done; apply H].
Qed.

(** ** The steps of the changeover *)

Lemma rebucket_ok w a s hash : buckets_ok (v_bucket <$> w.(rrsets)) w.(msg).(m_hashtable) -> w.(rrsets) !! a = Some s ->
  exists M1 s1 p ht, rebucket a hash w = Ok (tt, upd_rrsets (fun _ => <[a := with_hash hash (with_bucket_next p s1)]> M1) (upd_msg (with_table ht) w)) /\
    M1 !! a = Some s1 /\ only with_bucket_next w.(rrsets) M1 /\
    buckets_ok (<[a := (p, hash)]> (v_bucket <$> M1)) ht.
Proof.
  intros BO Hs. unfold rebucket. destruct (msgparse_bucket_remove_ok w a s BO Hs) as (M1 & ht1 & E1 & BO1 & H1).
  rewrite (st_bind_ok _ _ _ _ _ E1). cbv beta. destruct (bucket_lookup _ _ hash BO1) as (p & Hp).
  rewrite (st_bind_ok _ _ _ p (upd_rrsets (fun _ => M1) (upd_msg (with_table ht1) w))) by (by apply get_bucket_ok).
  destruct (proj2 (only_upd_lookup _ _ _ a H1)) as [s1 Hs1]; [by exists s|]. wstep. wstep. wlast.
  exists M1, s1, p, (<[Z.to_nat (bucket_of hash) := Some a]> ht1). split; [|split; [done|split; [done|]]].
  - rewrite insert_insert_eq. by destruct w as [? [] ? ? ?].
  - rewrite <- insert_delete_eq. apply buckets_insert; [done|apply lookup_delete_eq|done].
Qed.

Lemma retype_ok w R S a s t f : lists_ok (v_lists <$> w.(rrsets)) w.(rrs) R S -> w.(rrsets) !! a = Some s -> R a <> [] ->
  exists s' N', retype a t f w = Ok (tt, set_lists a s' N' w) /\
    v_next s' = v_next s /\ v_bucket s' = v_bucket s /\ v_section s' = v_section s /\
    v_key s' = mk_key s.(s_dname) s.(s_dname_len) t s.(s_class) f /\ v_data <$> N' = v_data <$> w.(rrs) /\
    lists_ok (v_lists <$> <[a := s']> w.(rrsets)) N' (<[a := []]> R) (<[a := S a ++ R a]> S).
Proof.
  intros LO Hs Hne. pose proof (view_lookup v_lists _ _ _ Hs) as Ha.
  exists (with_rrs 0 None None (with_sigs (u64 (s_rrsig_count s + s_rr_count s)) (match s_rrsig_last s with Some _ => s_rrsig_first s | None => s_rr_first s end)
            (s_rr_last s) (with_flags f (with_type t s)))).
  exists (link_over w.(rrs) (s_rrsig_last s) (s_rr_first s)).
  split; [|do 4 (split; [done|]); split; [apply link_over_data|]].
  - unfold retype. do 5 wstep. cbn [s_rrsig_last s_rrsig_first s_rrsig_count s_rr_first s_rr_last s_rr_count with_rrs with_sigs with_flags with_type]. destruct (s_rrsig_last s) as [l|] eqn:El; cbn [link_over].
    + destruct (part_last_lookup w.(rrs) (v_sigs s) (S a) l) as [rl Hl]; [by eapply (l_sigs _ _ _ _ LO)|done|].
      rewrite (alter_lookup _ _ _ _ Hl). wstep. wstep. wlast. unfold set_lists, upd_rrsets, upd_rrs; cbn. by rewrite !insert_insert_eq.
    + wstep. wstep. wlast. unfold set_lists, upd_rrsets, upd_rrs; cbn. by rewrite !insert_insert_eq.
  - rewrite fmap_insert. by apply (lists_join _ _ R S LO a (v_rrs s) (v_sigs s) s.(s_size)).
Qed.

Section Change.
Context (b : sldns_buffer) (d : list Z) (B : buf_ok b d) (le : bool) (raninit addr_ : Z).
Abbreviation lim := (b.(_limit)).
Abbreviation at_ p := (set_pos b p).
Abbreviation base := (base b d le raninit).
Abbreviation rr_is := (rr_is b d).
Abbreviation sig_covers := (sig_covers b d).
Abbreviation contents_ok := (contents_ok b d).
Abbreviation key_ok := (key_ok b d le raninit).
Abbreviation ready := (ready b).

(** Signatures are kept twice. *)
Definition keeps_twice (m : msg_parse) : bool := (m.(m_qtype) =? LDNS_RR_TYPE_RRSIG) || (m.(m_qtype) =? LDNS_RR_TYPE_ANY).

(** The state after [change_rrsig_rrset] made [c] the RRset of type [t] of the signatures in [a]. *)
Record changed (w w' : world) (q : Z) (L : list addr) (R S : addr -> list addr) (a c : addr) (s : rrset_parse) (t f : Z)
    (section : sldns_pkt_section) (L' : list addr) (R' S' : addr -> list addr) : Prop := {
  h_base : base w' q L' R' S';
  h_counts : counts_ok (v_section <$> w'.(rrsets)) w'.(msg);
  h_upto : upto (v_section <$> w'.(rrsets)) section;
  h_len : zlen L' <= zlen L + 1;
  h_head : m_head w'.(msg) = m_head w.(msg);
  h_data : v_data <$> w.(rrs) ⊆ v_data <$> w'.(rrs);
  h_key : v_key <$> w'.(rrsets) = <[c := mk_key s.(s_dname) s.(s_dname_len) t s.(s_class) f]> (v_key <$> w.(rrsets));
  h_addr : c = a \/ w.(rrsets) !! c = None;
  h_rrs : forall y x, x ∈ R' y -> x ∈ R y;
  h_none : R' c = [];
  h_sigs : forall y x, x ∈ S' y -> x ∈ S y \/ y = c /\ exists x0, x0 ∈ R a /\ (v_data <$> w'.(rrs)) !! x = (v_data <$> w.(rrs)) !! x0;
  h_short : forall n, short n R S -> short n R' S';
  h_keep : forall y x, x ∈ R y -> x ∈ R' y \/ x ∈ S' c;
  h_keep_sigs : forall y x, x ∈ S y -> x ∈ S' y;
  h_other : forall y, y <> c -> (v_section <$> w'.(rrsets)) !! y = (v_section <$> w.(rrsets)) !! y;
  h_moved : keeps_twice w.(msg) = false -> forall x, x ∈ R' a -> sig_covers (v_data <$> w.(rrs)) t x = false;
}.

Lemma rr_is_mono (D D' : gmap addr (Z * bool * Z)) t x : D ⊆ D' -> rr_is D t x -> rr_is D' t x.
Proof. intros H (ttl & n & out & E & X). exists ttl, n, out. split; [|done]. by eapply lookup_weaken. Qed.

Lemma sig_covers_mono (D D' : gmap addr (Z * bool * Z)) t x : D ⊆ D' -> is_Some (D !! x) -> sig_covers D' t x = sig_covers D t x.
Proof. intros H [v E]. unfold MsgOps.sig_covers. by rewrite (lookup_weaken _ _ _ _ E H), E. Qed.

Lemma rr_is_some D t x : rr_is D t x -> is_Some (D !! x).
Proof. intros (ttl & n & out & E & _). by eexists. Qed.

Lemma contents_mono K D D' R S R' S' : contents_ok K D R S -> D ⊆ D' -> (forall y x, x ∈ R' y -> x ∈ R y) ->
  (forall y k x, K !! y = Some k -> x ∈ S' y -> x ∈ S y \/ (k.(k_type) <> LDNS_RR_TYPE_RRSIG /\ rr_is D' LDNS_RR_TYPE_RRSIG x /\ sig_covers D' k.(k_type) x = true)) ->
  contents_ok K D' R' S'.
Proof.
  intros [C1 C2] HD HR HS. split.
  - intros y k x Hy Hx. eapply rr_is_mono; [done|]. by eapply C1, HR.
  - intros y k x Hy Hx. destruct (HS y k x Hy Hx) as [Hin|Hn]; [|done]. destruct (C2 y k x Hy Hin) as (X0 & X1 & X2).
    split; [done|]. split; [by eapply rr_is_mono|]. rewrite (sig_covers_mono D D') by (done || by eapply rr_is_some). done.
Qed.

(** The new RRset is a copy of the key with the other type; the signatures are moved, or copied. *)
Lemma change_other_ok w p L R S a s t f section : base w p L R S -> counts_ok (v_section <$> w.(rrsets)) w.(msg) ->
  upto (v_section <$> w.(rrsets)) section -> ready p -> w.(rrsets) !! a = Some s -> s.(s_type) = LDNS_RR_TYPE_RRSIG -> t <> LDNS_RR_TYPE_RRSIG ->
  flags_of t f -> 1 <= rank section ->
  exists r w' q, change_rrsig_rrset le raninit addr_ a t f true section w = Ok (r, w') /\ w'.(pkt) = at_ q /\ looked b (v_data <$> w.(rrs)) (R a) p q /\
    match r with None => True | Some c => exists L' R' S', changed w w' q L R S a c s t f section L' R' S' end.
Proof.
  intros H Hc Hu Hr Hs Ht Htne Hf Hsec. destruct (b_keys _ _ _ _ _ _ _ _ _ H a s Hs) as (ls & e & N & El & Ecl & _). cbn in N, El, Ecl.
  unfold change_rrsig_rrset. wstep.
  rewrite (st_bind_ok _ _ _ _ _ (on_ask b _ w p _ (b_pkt _ _ _ _ _ _ _ _ _ H) (hash_rrset_ok b d B le raninit addr_ _ ls e t (s_class s) f p N (b_pos _ _ _ _ _ _ _ _ _ H) Ecl))).
  rewrite Ht, (eqb_false t) by done. cbn [Z.eqb negb]. do 2 wstep.
  destruct (new_rrset_ok b d le raninit w p L R S (s_dname s) (s_dname_len s) t (s_class s) (rrset_hash le raninit ls t (s_class s) f) f section H)
    as (r1 & w1 & E1 & Hp1 & H1); [by exists ls, e|]. rewrite (st_bind_ok _ _ _ _ _ E1). cbv beta.
  destruct r1 as [c|]; [|by exists None, w1, p; split; [|split; [|split; [apply looked_self|]]]]. destruct H1 as (B1 & Hcn & Err & Em & Ek & Esec).
  rewrite (st_bind_ok _ _ _ _ _ (incr_ok _ _ _ Hsec)). cbv beta. set (w2 := upd_msg (add_rrsets section 1) w1). wstep.
  assert (base w2 p (L ++ [c]) R S) as B2.
  { apply base_msg; [done|..]; intros m; [apply add_rrsets_table|apply add_rrsets_first|apply add_rrsets_last]. }
  assert (a <> c) as Hac by congruence.
  assert ((v_key <$> w1.(rrsets)) !! c = Some (mk_key (s_dname s) (s_dname_len s) t (s_class s) f)) as Hkc by (by rewrite Ek, lookup_insert_eq).
  destruct (view_some _ _ _ _ Hkc) as (sc & Hsc & Eksc).
  assert ((v_key <$> w1.(rrsets)) !! a = Some (v_key s)) as Hka by (rewrite Ek, lookup_insert_ne by done; by apply view_lookup).
  destruct (view_some _ _ _ _ Hka) as (sa & Hsa & Eksa).
  set (dup := (_ =? _) || _).
  assert (forall x, x ∈ R a -> rr_is (v_data <$> w2.(rrs)) LDNS_RR_TYPE_RRSIG x) as HRa.
  { intros x Hx. rewrite <- Ht. change (s_type s) with (k_type (v_key s)). by apply (c_rrs _ _ _ _ _ _ (b_contents _ _ _ _ _ _ _ _ _ B2) a). }
  assert (s_type sc = t) as Htc by (by apply (f_equal k_type) in Eksc).
  destruct (moveover_rrsigs_ok b d B w2 p R S a c sa sc t Hac Htc (b_lists _ _ _ _ _ _ _ _ _ B2) Hsa Hsc
              (fun x Hx => ex_intro (fun t' => rr_is _ t' x) _ (HRa x Hx)) (b_pkt _ _ _ _ _ _ _ _ _ B2) Hr dup) as (ok & w' & q & E3 & Hp3 & Hq & Hok).
  rewrite (st_bind_ok _ _ _ _ _ E3). destruct ok; [|exists None, w', q; change (rrs w2) with (rrs w1) in Hq; by rewrite Err in Hq].
  change (rrs w2) with (rrs w1) in Hq. rewrite Err in Hq. exists (Some c), w', q. do 3 (split; [done|]). destruct (Hok eq_refl) as (Hrel & HD & new & LO & Hlen & Hall & Hnew). clear Hok E3.
  set (R' := <[a := _]> R) in LO. exists (L ++ [c]), R', (<[c := S c ++ new]> S).
  assert (forall V (g : rrset_parse -> V), (forall s, g (s_rest s) = g s) -> g <$> w'.(rrsets) = g <$> w1.(rrsets)) as Hview.
  { intros V g Hg. by apply (relinked_view g w2 w'). }
  assert (v_data <$> w.(rrs) ⊆ v_data <$> w'.(rrs)) as HD0 by (by rewrite <- Err).
  assert (forall y x, x ∈ R' y -> x ∈ R y) as HR'.
  { intros y x. unfold R'. destruct (decide (y = a)) as [->|Hy]; [|by rewrite fn_lookup_insert_ne].
    rewrite fn_lookup_insert. destruct dup; [done|]. unfold keep. by intros [_ ?]%list_elem_of_filter. }
  destruct Hrel as [Emsg Erest]. split.
  - split.
    + done. + destruct Hq as [[? ?] _]; lia.
    + rewrite (Hview _ v_next) by done. rewrite Emsg. apply B2.
    + intros y. rewrite (b_dom _ _ _ _ _ _ _ _ _ B2). cbn. pose proof (Hview _ (fun _ => tt) ltac:(done)) as E.
      apply (f_equal (fun m => m !! y)) in E. rewrite !lookup_fmap in E. destruct (rrsets w' !! y), (rrsets w1 !! y); try done; split; intros [? ?]; try done; by eexists.
    + rewrite (Hview _ v_bucket) by done. rewrite Emsg. apply B2.
    + done.
    + apply (keys_view b d le raninit w1 w'); [by apply (Hview _ v_kh)|]. apply B1.
    + rewrite (Hview _ v_key) by done. eapply contents_mono; [apply (b_contents _ _ _ _ _ _ _ _ _ B2)|done|done|].
      intros y k x Hy. destruct (decide (y = c)) as [->|Hyc]; [|rewrite fn_lookup_insert_ne by done; by left].
      rewrite fn_lookup_insert. rewrite Hkc in Hy. injection Hy as <-. intros [Hx|Hx]%elem_of_app; [by left|right]. cbn [k_type].
      split; [done|]. destruct (Hnew x Hx) as (x0 & [Hcov Hx0]%list_elem_of_filter & Ex). split.
      * destruct (HRa x0 Hx0) as (ttl & n & out & E0 & X). exists ttl, n, out. by rewrite Ex.
      * unfold MsgOps.sig_covers in *. by rewrite Ex.
  - rewrite (Hview _ v_section) by done. rewrite Emsg, Esec. cbn. apply (counts_new _ w1.(msg)); [|by rewrite lookup_fmap, Hcn|done].
    by eapply counts_rest.
  - rewrite (Hview _ v_section) by done. rewrite Esec. apply upto_insert; [done|]. lia.
  - rewrite zlen_app. unfold zlen. cbn. lia.
  - rewrite Emsg. cbn. rewrite head_add. by apply head_rest.
  - done.
  - by rewrite (Hview _ v_key).
  - by right.
  - done.
  - unfold R'. rewrite fn_lookup_insert_ne by done. by destruct (base_unused _ _ _ _ _ _ _ _ _ c H Hcn).
  - intros y x. destruct (decide (y = c)) as [->|Hyc]; [|rewrite fn_lookup_insert_ne by done; by left].
    rewrite fn_lookup_insert. intros [Hx|Hx]%elem_of_app; [by left|right]. split; [done|]. destruct (Hnew x Hx) as (x0 & [_ Hx0]%list_elem_of_filter & Ex).
    exists x0. split; [done|]. by rewrite <- Err.
  - intros n Hn y. destruct (base_unused _ _ _ _ _ _ _ _ _ c H Hcn) as [_ HSc]. destruct (Hn a) as [Hna _]. split.
    + unfold R'. destruct (decide (y = a)) as [->|Hya]; [|rewrite fn_lookup_insert_ne by done; apply Hn]. rewrite fn_lookup_insert.
      destruct dup; [done|]. etrans; [apply zlen_filter|done].
    + destruct (decide (y = c)) as [->|Hyc]; [|rewrite fn_lookup_insert_ne by done; apply Hn]. rewrite fn_lookup_insert, HSc. cbn [app]. lia.
  - intros y x Hx. unfold R'. destruct (decide (y = a)) as [->|Hya]; [|left; by rewrite fn_lookup_insert_ne].
    rewrite !fn_lookup_insert. destruct dup; [by left|]. destruct (sig_covers (v_data <$> w2.(rrs)) t x) eqn:Ecov.
    + right. apply elem_of_app. right. rewrite Hall by done. by apply list_elem_of_filter.
    + left. by apply list_elem_of_filter.
  - intros y x Hx. destruct (decide (y = c)) as [->|Hyc]; [rewrite fn_lookup_insert; apply elem_of_app; by left|by rewrite fn_lookup_insert_ne].
  - intros y Hy. rewrite (Hview _ v_section), Esec by done. by rewrite lookup_insert_ne.
  - intros Hk x. unfold R'. rewrite fn_lookup_insert. assert (dup = false) as ->.
    { unfold keeps_twice in Hk. apply (f_equal m_qtype) in Em. cbn in Em. unfold dup. cbn.
      assert (m_qtype (add_rrsets section 1 w1.(msg)) = m_qtype w.(msg)) as -> by (by destruct section).
      apply orb_false_iff in Hk as [-> ->]. done. }
    intros [Hx _]%list_elem_of_filter. rewrite <- Hx. cbn. by rewrite Err.
Qed.

Lemma rank_inj s s' : 1 <= rank s -> rank s = rank s' -> s = s'.
Proof. intros H E. destruct (rank_cases s H) as [-> | [-> | -> ]], (rank_cases s' ltac:(lia)) as [-> | [-> | -> ]]; done. Qed.

(** The RRset [a] is in [section] afterwards, whether it was before or not. *)
Lemma change_section_all w a s section L :
  all_ok (v_next <$> w.(rrsets)) w.(msg).(m_rrset_first) w.(msg).(m_rrset_last) L -> a ∈ L -> w.(rrsets) !! a = Some s ->
  counts_ok (v_section <$> w.(rrsets)) w.(msg) -> upto (v_section <$> w.(rrsets)) section ->
  exists w' L', change_section a section w = Ok (tt, w') /\ w'.(pkt) = w.(pkt) /\ w'.(rrs) = w.(rrs) /\
    all_ok (v_next <$> w'.(rrsets)) w'.(msg).(m_rrset_first) w'.(msg).(m_rrset_last) L' /\ L' ≡ₚ L /\
    counts_ok (v_section <$> w'.(rrsets)) w'.(msg) /\ upto (v_section <$> w'.(rrsets)) section /\
    m_head w'.(msg) = m_head w.(msg) /\ m_hashtable w'.(msg) = m_hashtable w.(msg) /\
    (forall V (g : rrset_parse -> V), (forall x, blind g (with_all_next x)) -> (forall x, blind g (with_section x)) -> g <$> w'.(rrsets) = g <$> w.(rrsets)) /\
    is_Some (w'.(rrsets) !! a) /\ forall y, y <> a -> (v_section <$> w'.(rrsets)) !! y = (v_section <$> w.(rrsets)) !! y.
Proof.
  intros A Ha Hs Hc Hu. pose proof (Hu a s.(s_section) (view_lookup v_section _ _ _ Hs)) as Hr.
  destruct (decide (section = s.(s_section))) as [E|Hne].
  { exists w, L. unfold change_section. wstep. rewrite decide_True by done. do 10 (split; [done|]). split; [by exists s|done]. }
  assert (1 <= rank s.(s_section) < rank section) as Hr'.
  { destruct (decide (rank s.(s_section) = rank section)) as [E|]; [|lia]. apply rank_inj in E; [|lia]. congruence. }
  apply list_elem_of_split in Ha as (L1 & L2 & ->).
  destruct (change_section_ok w a s section L1 L2 A Hs Hr') as (M1 & s1 & f' & E1 & Hs1 & Ho & A').
  eexists _, _. split; [exact E1|]. cbn.
  assert (forall V (g : rrset_parse -> V), (forall x, blind g (with_section x)) -> g <$> <[a := with_section section s1]> M1 = g <$> M1) as Hv.
  { intros V g Hg. apply blind_modify; [apply Hg|done]. }
  split; [done|]. split; [done|]. split; [|split; [|split; [|split; [|split; [|split; [|split; [|split]]]]]]].
  - rewrite (Hv _ v_next) by done. exact A'.
  - rewrite <- app_assoc. apply Permutation_app; [done|]. apply Permutation_app_comm.
  - rewrite fmap_insert. rewrite (Ho _ v_section) by done. cbn [v_section s_section with_section].
    eapply counts_rest; [reflexivity|]. cbn. eapply (counts_change _ _ a (s_section s) section) in Hc; [|by apply (view_lookup v_section)|done]. eapply counts_rest; [|exact Hc]. done.
  - rewrite fmap_insert. rewrite (Ho _ v_section) by done. apply upto_insert; [done|]. cbn. lia.
  - by destruct section, (s_section s).
  - by destruct section, (s_section s).
  - intros V g H1 H2. rewrite (Hv _ g H2). by apply Ho.
  - rewrite lookup_insert_eq. by eexists.
  - intros y Hy. rewrite fmap_insert, lookup_insert_ne by done. by rewrite (Ho _ v_section).
Qed.

(** All signatures cover the type: the RRset itself changes over. *)
Lemma change_same_ok w p L R S a s t f section : base w p L R S -> counts_ok (v_section <$> w.(rrsets)) w.(msg) ->
  upto (v_section <$> w.(rrsets)) section -> ready p -> w.(rrsets) !! a = Some s -> s.(s_type) = LDNS_RR_TYPE_RRSIG -> t <> LDNS_RR_TYPE_RRSIG ->
  flags_of t f -> R a <> [] -> (forall x, x ∈ R a -> sig_covers (v_data <$> w.(rrs)) t x = true) ->
  exists w', change_rrsig_rrset le raninit addr_ a t f false section w = Ok (Some a, w') /\ w'.(pkt) = at_ p /\
    exists L' R' S', changed w w' p L R S a a s t f section L' R' S'.
Proof.
  intros H Hc Hu Hr Hs Ht Htne Hf Hne Hall.
  assert (S a = []) as HSa.
  { destruct (S a) as [|x l] eqn:E; [done|]. destruct (c_sigs _ _ _ _ _ _ (b_contents _ _ _ _ _ _ _ _ _ H) a (v_key s) x) as [Hn _]; [by apply view_lookup|rewrite E; left|].
    by destruct Hn. }
  destruct (b_keys _ _ _ _ _ _ _ _ _ H a s Hs) as (ls & e & N & El & Ecl & _). cbn in N, El, Ecl.
  unfold change_rrsig_rrset. wstep. set (hash := rrset_hash le raninit ls t (s_class s) f).
  rewrite (st_bind_ok _ _ _ _ _ (on_ask b _ w p _ (b_pkt _ _ _ _ _ _ _ _ _ H) (hash_rrset_ok b d B le raninit addr_ _ ls e t (s_class s) f p N (b_pos _ _ _ _ _ _ _ _ _ H) Ecl))).
  rewrite Ht, (eqb_false t) by done. cbn [Z.eqb negb]. do 2 wstep. fold hash.
  destruct (rebucket_ok w a s hash (b_buckets _ _ _ _ _ _ _ _ _ H) Hs) as (M1 & s1 & pb & ht & E1 & Hs1 & Ho1 & BO1).
  rewrite (st_bind_ok _ _ _ _ _ E1). cbv beta. set (sx := with_hash hash (with_bucket_next pb s1)) in *. set (w1 := upd_rrsets _ _).
  assert (forall V (g : rrset_parse -> V), (forall x, blind g (with_bucket_next x)) -> (forall x, blind g (with_hash x)) -> g <$> w1.(rrsets) = g <$> w.(rrsets)) as Hv1.
  { intros V g H1 H2. cbn. rewrite <- (Ho1 V g H1). apply fmap_insert_same with s1; [done|]. unfold sx. by rewrite H2, H1. }
  assert (w1.(rrsets) !! a = Some sx) as Hsx by (cbn; apply lookup_insert_eq).
  destruct (change_section_all w1 a sx section L) as (w2 & L2 & E2 & Hp2 & Hrr2 & A2 & HL2 & Hc2 & Hu2 & Hh2 & Ht2 & Hv2 & [s2 Hs2] & Ho2).
  { rewrite (Hv1 _ v_next) by done. apply H. } { apply (b_dom _ _ _ _ _ _ _ _ _ H). by exists s. } { done. }
  { rewrite (Hv1 _ v_section) by done. by destruct Hc. } { by rewrite (Hv1 _ v_section). }
  rewrite (st_bind_ok _ _ _ _ _ E2). cbv beta.
  assert (v_lists <$> w2.(rrsets) = v_lists <$> w.(rrsets)) as EL by (by rewrite (Hv2 _ v_lists), (Hv1 _ v_lists)).
  assert (v_key <$> w2.(rrsets) = v_key <$> w.(rrsets)) as EK by (by rewrite (Hv2 _ v_key), (Hv1 _ v_key)).
  destruct (retype_ok w2 R S a s2 t f) as (s' & N' & E3 & X1 & X2 & X3 & X4 & X5 & LO3); [by rewrite EL, Hrr2; apply H|done|done|].
  rewrite (st_bind_ok _ _ _ _ _ E3). eexists. split; [reflexivity|]. cbn. rewrite Hp2. split; [apply H|].
  exists L2, (<[a := []]> R), (<[a := S a ++ R a]> S).
  assert (v_key s2 = v_key s) as Ek2.
  { pose proof (view_lookup v_key _ _ _ Hs2) as E. rewrite EK, (view_lookup v_key _ _ _ Hs) in E. by apply (f_equal (from_option id (v_key s))) in E. }
  assert (v_key s' = mk_key (s_dname s) (s_dname_len s) t (s_class s) f) as Ek'.
  { rewrite X4. pose proof (f_equal k_dname Ek2) as Y1. pose proof (f_equal k_dname_len Ek2) as Y2. pose proof (f_equal k_class Ek2) as Y3.
    cbn in Y1, Y2, Y3. by rewrite Y1, Y2, Y3. }
  assert (v_data <$> N' = v_data <$> w.(rrs)) as HD by (by rewrite X5, Hrr2).
  assert (forall y x, x ∈ (<[a := []]> R : addr -> list addr) y -> x ∈ R y) as HR'.
  { intros y x. destruct (decide (y = a)) as [->|Hy]; [rewrite fn_lookup_insert; by intros ?%not_elem_of_nil|by rewrite fn_lookup_insert_ne]. }
  split; cbn [rrsets rrs msg upd_rrs upd_rrsets set_lists].
  - split; cbn [rrsets rrs msg pkt upd_rrs upd_rrsets set_lists].
    + rewrite Hp2. apply H. + apply H.
    + rewrite (fmap_insert_same v_next _ a s2 s') by done. exact A2.
    + intros y. rewrite HL2, (b_dom _ _ _ _ _ _ _ _ _ H). apply (f_equal (fun m => m !! y)) in EK. rewrite !lookup_fmap in EK.
      destruct (decide (y = a)) as [->|Hy]; [rewrite lookup_insert_eq, Hs; split; by eexists|rewrite lookup_insert_ne by done].
      destruct (rrsets w2 !! y), (rrsets w !! y); try done; split; intros [? ?]; try done; by eexists.
    + rewrite (fmap_insert_same v_bucket _ a s2 s') by done. rewrite (Hv2 _ v_bucket), Ht2 by done. cbn. by rewrite fmap_insert.
    + exact LO3.
    + intros y sy Hy. destruct (decide (y = a)) as [->|Hya].
      * rewrite lookup_insert_eq in Hy. injection Hy as <-. rewrite Ek'.
        assert (s_hash s' = hash) as ->.
        { apply (f_equal snd) in X2. cbn in X2. rewrite X2. pose proof (view_lookup v_bucket _ _ _ Hs2) as E. rewrite (Hv2 _ v_bucket) in E by done.
          rewrite (view_lookup v_bucket _ _ _ Hsx) in E. apply (f_equal (from_option snd 0)) in E. cbn in E. done. }
        by exists ls, e.
      * rewrite lookup_insert_ne in Hy by done. apply (view_lookup v_kh) in Hy. rewrite (Hv2 _ v_kh) in Hy by done. cbn in Hy.
        rewrite fmap_insert, lookup_insert_ne in Hy by done. rewrite (Ho1 _ v_kh) in Hy by done. destruct (view_some _ _ _ _ Hy) as (s0 & Hs0 & E0).
        symmetry in E0. apply (kh_key _ _ _ _ _ _ _ E0). by apply (b_keys _ _ _ _ _ _ _ _ _ H y).
    + rewrite HD, fmap_insert, Ek', EK. pose proof (b_contents _ _ _ _ _ _ _ _ _ H) as [C1 C2]. split.
      * intros y k x Hy Hx. destruct (decide (y = a)) as [->|Hya]; [rewrite fn_lookup_insert in Hx; by apply not_elem_of_nil in Hx|].
        rewrite lookup_insert_ne in Hy by done. rewrite fn_lookup_insert_ne in Hx by done. by eapply C1.
      * intros y k x Hy Hx. destruct (decide (y = a)) as [->|Hya].
        -- rewrite lookup_insert_eq in Hy. injection Hy as <-. rewrite fn_lookup_insert, HSa in Hx. cbn [app] in Hx. cbn [k_type].
           split; [done|]. split; [|by apply Hall]. rewrite <- Ht. change (s_type s) with (k_type (v_key s)). apply (C1 a); [by apply view_lookup|done].
        -- rewrite lookup_insert_ne in Hy by done. rewrite fn_lookup_insert_ne in Hx by done. by eapply C2.
  - rewrite (fmap_insert_same v_section _ a s2 s') by done. done.
  - by rewrite (fmap_insert_same v_section _ a s2 s').
  - apply Permutation_length in HL2. unfold zlen. lia.
  - rewrite Hh2. done.
  - by rewrite HD.
  - by rewrite fmap_insert, Ek', EK.
  - by left.
  - done.
  - by rewrite fn_lookup_insert.
  - intros y x. destruct (decide (y = a)) as [->|Hya]; [|rewrite fn_lookup_insert_ne by done; by left].
    rewrite fn_lookup_insert, HSa. cbn [app]. intros Hx. right. split; [done|]. exists x. by rewrite HD.
  - intros n Hn y. destruct (decide (y = a)) as [->|Hya]; [|rewrite !fn_lookup_insert_ne by done; apply Hn].
    rewrite !fn_lookup_insert, HSa. cbn [app]. destruct (Hn a). split; [|done]. pose proof (zlen_nonneg (R a)). unfold zlen at 1. cbn. lia.
  - intros y x Hx. destruct (decide (y = a)) as [->|Hya]; [|left; by rewrite fn_lookup_insert_ne]. right. rewrite fn_lookup_insert. apply elem_of_app. by right.
  - intros y x Hx. destruct (decide (y = a)) as [->|Hya]; [rewrite fn_lookup_insert; apply elem_of_app; by left|by rewrite fn_lookup_insert_ne].
  - intros y Hy. rewrite fmap_insert, lookup_insert_ne by done. rewrite Ho2 by done. cbn. rewrite fmap_insert, lookup_insert_ne by done. by rewrite (Ho1 _ v_section).
  - intros _ x. rewrite fn_lookup_insert. by intros ?%not_elem_of_nil.
Qed.
End Change.
