(* ===== verification/MsgFind.v ===== *)
(** * Parsing packets: the RRset of an RR

    [find_rrset] keeps the invariant and finds the RRset an RR belongs to: one with its
    name, class and type, or for a signature the type it covers. *)

From stdpp Require Import functions.
From S2P Require Import Prelude Sbuffer Lookup3 Dname DnameCompare DnamePkt RrDef Msgparse MsgPkt MsgRdata MsgLists MsgOps MsgSigs MsgChange.

Section Find.
Context (b : sldns_buffer) (d : list Z) (B : buf_ok b d) (le : bool) (raninit addr_ : Z).
Abbreviation lim := (b.(_limit)).
Abbreviation at_ p := (set_pos b p).
Abbreviation base := (base b d le raninit).
Abbreviation rr_is := (rr_is b d).
Abbreviation sig_covers := (sig_covers b d).
Abbreviation has_key := (has_key b d).
Abbreviation ready := (ready b).
Implicit Types (w : world) (R S : addr -> list addr) (L : list addr) (k : key) (v : prev_rr).

(** ** Keys *)

(** The owner of the RRset is the name [ls]. *)
Definition owned_by k (ls : name) : Prop := exists ls' e', name_at b d k.(k_dname) ls' e' /\ lower_name ls' = lower_name ls.
Definition same_name k k' : Prop := exists ls, owned_by k ls /\ owned_by k' ls.

(** No two RRsets have the same name, type, class and flags; and signatures wait in an
    RRset of signatures only as long as there is no RRset for them. *)
Record unique (K : gmap addr key) (D : gmap addr (Z * bool * Z)) (R : addr -> list addr) : Prop := {
  q_keys : forall a a' k k', K !! a = Some k -> K !! a' = Some k' -> same_name k k' -> k.(k_type) = k'.(k_type) ->
    k.(k_class) = k'.(k_class) -> k.(k_flags) = k'.(k_flags) -> a = a';
  q_sigs : forall a a' k k' x, K !! a = Some k -> K !! a' = Some k' -> same_name k k' -> k.(k_class) = k'.(k_class) ->
    k.(k_type) = LDNS_RR_TYPE_RRSIG -> k'.(k_type) <> LDNS_RR_TYPE_RRSIG -> x ∈ R a -> sig_covers D k'.(k_type) x = false;
}.

Record good w (p : Z) L R S (section : sldns_pkt_section) : Prop := {
  g_base : base w p L R S;
  g_counts : counts_ok (v_section <$> w.(rrsets)) w.(msg);
  g_upto : upto (v_section <$> w.(rrsets)) section;
  g_unique : keeps_twice w.(msg) = false -> unique (v_key <$> w.(rrsets)) (v_data <$> w.(rrs)) R;
  g_located : long_sigs b d -> located b d (record_at b d) (v_key <$> w.(rrsets)) (v_data <$> w.(rrs)) R S;
}.

Lemma good_move w p q L R S section : good w p L R S section -> 0 <= q <= lim -> good (upd_pkt (at_ q) w) q L R S section.
Proof. intros [] Hq. split; try done. by eapply base_move. Qed.

Lemma key_of w p L R S a s : base w p L R S -> w.(rrsets) !! a = Some s ->
  exists ls e, name_at b d s.(s_dname) ls e /\ owned_by (v_key s) ls /\ class_ok s.(s_class) /\ flags_of s.(s_type) s.(s_flags).
Proof.
  intros H Hs. destruct (b_keys _ _ _ _ _ _ _ _ _ H a s Hs) as (ls & e & N & _ & Hc & Hf & _). exists ls, e.
  split; [done|]. split; [by exists ls, e|done].
Qed.

Lemma owned_lower k ls ls' : owned_by k ls -> owned_by k ls' -> lower_name ls = lower_name ls'.
Proof. intros (l1 & e1 & N1 & E1) (l2 & e2 & N2 & E2). destruct (pkt_name_fun _ _ _ _ _ _ _ N1 N2) as [-> _]. congruence. Qed.

Lemma owned_trans k ls ls' : owned_by k ls -> lower_name ls = lower_name ls' -> owned_by k ls'.
Proof. intros (l1 & e1 & N1 & E1) E. exists l1, e1. by rewrite E1. Qed.

Lemma same_owner k k' ls : same_name k k' -> owned_by k ls -> owned_by k' ls.
Proof. intros (l & H1 & H2) H. eapply owned_trans; [exact H2|]. by apply (owned_lower k). Qed.

Lemma has_key_eq k ls t c f : has_key k ls t c f <-> k.(k_type) = t /\ k.(k_class) = c /\ k.(k_flags) = f /\ owned_by k ls.
Proof. done. Qed.

(** ** What is found *)

(** The RRset is one of the owner and class of the RR. *)
Definition owner_ok w a (ls : name) (dclass : list Z) : Prop :=
  exists s, w.(rrsets) !! a = Some s /\ owned_by (v_key s) ls /\ s.(s_class) = dclass.

(** There is no RRset of type [t] for the name and class. *)
Definition none_of w (ls : name) (dclass : list Z) (t : Z) : Prop :=
  forall a s, w.(rrsets) !! a = Some s -> owned_by (v_key s) ls -> s.(s_class) = dclass -> s.(s_type) <> t.

(** The RR at [q] may be added to an RRset of type [t]. *)
Definition fits w (ls : name) (dclass : list Z) (q type t : Z) : Prop :=
  if type =? LDNS_RR_TYPE_RRSIG then
    if t =? LDNS_RR_TYPE_RRSIG then forall t', covered b d q = Some t' -> t' <> LDNS_RR_TYPE_RRSIG -> none_of w ls dclass t'
    else covered b d q = Some t
  else t = type.

(** The variables describe the RRset they point to. *)
Definition vars_ok w v : Prop :=
  match v.(v_rrset) with
  | None => True
  | Some a =>
      exists s o1 o2 ls1 e1 ls2 e2, w.(rrsets) !! a = Some s /\ v.(v_type) = s.(s_type) /\ v.(v_dclass) = s.(s_class) /\
        v.(v_dname_first) = Some o1 /\ v.(v_dname_last) = Some o2 /\ name_at b d o1 ls1 e1 /\ name_at b d o2 ls2 e2 /\
        lower_name ls1 = lower_name ls2 /\ owned_by (v_key s) ls2
  end.

(** What [find_rrset] leaves for an RR at [q]: the RRset, or the key of a new one. *)
Definition result_ok w R (q : Z) (o : Z) (ls : name) (type : Z) (dclass : list Z) v : Prop :=
  match v.(v_rrset) with
  | Some a => owner_ok w a ls dclass /\ forall s, w.(rrsets) !! a = Some s -> fits w ls dclass q type s.(s_type)
  | None =>
      key_ok b d le raninit (mk_key o (zlen (wire ls)) type dclass v.(v_flags)) v.(v_hash) /\
      v.(v_type) = type /\ v.(v_dclass) = dclass /\ v.(v_dname_first) = Some o /\ v.(v_dname_last) = Some o /\
      (forall a s, w.(rrsets) !! a = Some s -> ~ has_key (v_key s) ls type dclass v.(v_flags)) /\
      (type = LDNS_RR_TYPE_RRSIG -> fits w ls dclass q type type) /\
      (type <> LDNS_RR_TYPE_RRSIG -> keeps_twice w.(msg) = false -> forall a s x, w.(rrsets) !! a = Some s -> owned_by (v_key s) ls ->
         s.(s_class) = dclass -> s.(s_type) = LDNS_RR_TYPE_RRSIG -> x ∈ R a -> sig_covers (v_data <$> w.(rrs)) type x = false)
  end.

Lemma flags_sig f : flags_of LDNS_RR_TYPE_RRSIG f -> f = 0.
Proof. by intros [_ [->|[[? _]|[? _]]]]. Qed.

Lemma key_flags w p L R S a k : base w p L R S -> (v_key <$> w.(rrsets)) !! a = Some k -> flags_of k.(k_type) k.(k_flags).
Proof. intros H (s & Hs & <-)%view_some. by destruct (key_of _ _ _ _ _ _ _ H Hs) as (ls & e & _ & _ & _ & ?). Qed.

Lemma same_sym k k' : same_name k k' -> same_name k' k.
Proof. intros (ls & H1 & H2). by exists ls. Qed.

Lemma same_trans k1 k2 k3 : same_name k1 k2 -> same_name k2 k3 -> same_name k1 k3.
Proof. intros (ls & H1 & H2) H3. exists ls. split; [done|]. by eapply same_owner. Qed.

(** *** The changeover *)

Lemma changed_unique w w' p q L R S a c s t f section L' R' S' x0 :
  base w p L R S -> unique (v_key <$> w.(rrsets)) (v_data <$> w.(rrs)) R -> changed b d le raninit w w' q L R S a c s t f section L' R' S' ->
  w.(rrsets) !! a = Some s -> s.(s_type) = LDNS_RR_TYPE_RRSIG -> t <> LDNS_RR_TYPE_RRSIG -> x0 ∈ R a -> sig_covers (v_data <$> w.(rrs)) t x0 = true ->
  keeps_twice w.(msg) = false -> unique (v_key <$> w'.(rrsets)) (v_data <$> w'.(rrs)) R'.
Proof.
  intros H [Q1 Q2] X Hs Ht Htne Hx0 Hcov Hk. rewrite (h_key _ _ _ _ _ _ _ _ _ _ _ _ _ _ _ _ _ _ _ X). set (k0 := mk_key _ _ _ _ _).
  set (K := v_key <$> w.(rrsets)) in *. set (D := v_data <$> w.(rrs)) in *. set (D' := v_data <$> w'.(rrs)).
  assert (K !! a = Some (v_key s)) as HKa by by apply view_lookup.
  assert (same_name (v_key s) k0) as Hsn. { destruct (key_of _ _ _ _ _ _ _ H Hs) as (ls & e & N & O & _). exists ls. split; [done|]. by exists ls, e. }
  assert (forall y k, K !! y = Some k -> same_name k k0 -> k.(k_class) = s.(s_class) -> k.(k_type) <> t) as Hnone.
  { intros y k Hy Hn Hc Et. rewrite <- Et in Hcov. rewrite (Q2 a y (v_key s) k x0) in Hcov; try done.
    - eapply same_trans; [exact Hsn|]. by apply same_sym.
    - congruence. }
  assert (forall y x t', x ∈ R' y -> sig_covers D' t' x = sig_covers D t' x) as Hcv.
  { intros y x t' Hx. apply sig_covers_mono; [apply X|]. apply (h_rrs _ _ _ _ _ _ _ _ _ _ _ _ _ _ _ _ _ _ _ X) in Hx.
    destruct (own_lookup _ _ _ _ (b_lists _ _ _ _ _ _ _ _ _ H) y x (own_rrs _ _ _ _ Hx)) as [r Hr]. unfold D. rewrite lookup_fmap, Hr. by eexists. }
  split.
  - intros y y' k k' Hy Hy' Hn Ety Ec Ef. destruct (decide (y = c)) as [->|Hyc], (decide (y' = c)) as [->|Hyc']; [done|..].
    + rewrite lookup_insert_eq in Hy. injection Hy as <-. rewrite lookup_insert_ne in Hy' by done.
      exfalso. apply (Hnone y' k' Hy'); [by apply same_sym|done|done].
    + rewrite lookup_insert_eq in Hy'. injection Hy' as <-. rewrite lookup_insert_ne in Hy by done. exfalso. by apply (Hnone y k Hy).
    + rewrite lookup_insert_ne in Hy, Hy' by done. by eapply Q1.
  - intros y y' k k' x Hy Hy' Hn Ec Et Et' Hx. rewrite (Hcv y) by done. destruct (decide (y = c)) as [->|Hyc].
    { rewrite lookup_insert_eq in Hy. by injection Hy as <-. }
    rewrite lookup_insert_ne in Hy by done. pose proof (h_rrs _ _ _ _ _ _ _ _ _ _ _ _ _ _ _ _ _ _ _ X y x Hx) as HxR.
    destruct (decide (y' = c)) as [->|Hyc']; [|rewrite lookup_insert_ne in Hy' by done; by apply (Q2 y y' k k' x)].
    rewrite lookup_insert_eq in Hy'. injection Hy' as <-. cbn [k_type k0]. assert (y = a) as ->.
    { pose proof (key_flags _ _ _ _ _ _ _ H Hy) as F1. rewrite Et in F1. pose proof (key_flags _ _ _ _ _ _ _ H HKa) as F2.
      cbn in F2. rewrite Ht in F2. apply flags_sig in F1, F2. apply (Q1 y a k (v_key s) Hy HKa).
      - eapply same_trans; [exact Hn|]. by apply same_sym.
      - by rewrite Et.
      - done.
      - by rewrite F1. }
    by apply (h_moved _ _ _ _ _ _ _ _ _ _ _ _ _ _ _ _ _ _ _ X).
Qed.

(** *** Records stay where they are *)

Lemma rr_at_mono rec (D D' : gmap addr (Z * bool * Z)) k t x : D ⊆ D' -> rr_at b d rec D k t x -> rr_at b d rec D' k t x.
Proof. intros H (ttl & f & n & ls & e & ls' & HD & X). exists ttl, f, n, ls, e, ls'. split; [|done]. by eapply lookup_weaken. Qed.

Lemma rr_at_key rec (D : gmap addr (Z * bool * Z)) k k' t x : k'.(k_dname) = k.(k_dname) -> k'.(k_class) = k.(k_class) -> rr_at b d rec D k t x -> rr_at b d rec D k' t x.
Proof. intros E1 E2 (ttl & f & n & ls & e & ls' & X). exists ttl, f, n, ls, e, ls'. by rewrite E1, E2. Qed.

Lemma rr_at_same rec (D D' : gmap addr (Z * bool * Z)) k t x x' : D' !! x' = D !! x -> rr_at b d rec D k t x -> rr_at b d rec D' k t x'.
Proof. intros E (ttl & f & n & ls & e & ls' & HD & X). exists ttl, f, n, ls, e, ls'. by rewrite E. Qed.

Lemma changed_located rec w w' p q L R S a c s t f section L' R' S' :
  base w p L R S -> located b d rec (v_key <$> w.(rrsets)) (v_data <$> w.(rrs)) R S -> changed b d le raninit w w' q L R S a c s t f section L' R' S' ->
  w.(rrsets) !! a = Some s -> s.(s_type) = LDNS_RR_TYPE_RRSIG -> located b d rec (v_key <$> w'.(rrsets)) (v_data <$> w'.(rrs)) R' S'.
Proof.
  intros H [O1 O2] X Hs Ht. pose proof (view_lookup v_key _ _ _ Hs) as Hk. rewrite (h_key _ _ _ _ _ _ _ _ _ _ _ _ _ _ _ _ _ _ _ X).
  pose proof (h_data _ _ _ _ _ _ _ _ _ _ _ _ _ _ _ _ _ _ _ X) as HD. split; intros y k x Hy Hx.
  - destruct (decide (y = c)) as [->|Hyc]; [rewrite (h_none _ _ _ _ _ _ _ _ _ _ _ _ _ _ _ _ _ _ _ X) in Hx; by apply not_elem_of_nil in Hx|].
    rewrite lookup_insert_ne in Hy by done. eapply rr_at_mono; [exact HD|]. eapply O1; [done|]. by eapply (h_rrs _ _ _ _ _ _ _ _ _ _ _ _ _ _ _ _ _ _ _ X).
  - assert (forall z, z ∈ S c -> False) as HSc.
    { intros z Hz. destruct (h_addr _ _ _ _ _ _ _ _ _ _ _ _ _ _ _ _ _ _ _ X) as [->|Hn].
      - by destruct (c_sigs _ _ _ _ _ _ (b_contents _ _ _ _ _ _ _ _ _ H) a (v_key s) z Hk Hz) as [? _].
      - destruct (base_unused _ _ _ _ _ _ _ _ _ c H Hn) as [_ E]. rewrite E in Hz. by apply not_elem_of_nil in Hz. }
    destruct (h_sigs _ _ _ _ _ _ _ _ _ _ _ _ _ _ _ _ _ _ _ X y x Hx) as [HxS|(-> & x0 & Hx0 & E)].
    + destruct (decide (y = c)) as [->|Hyc]; [by apply HSc in HxS|]. rewrite lookup_insert_ne in Hy by done. eapply rr_at_mono; [exact HD|]. by eapply O2.
    + rewrite lookup_insert_eq in Hy. injection Hy as <-. eapply rr_at_same; [exact E|]. apply (rr_at_key _ _ (v_key s)); [done|done|].
      rewrite <- Ht. by apply (O1 a (v_key s)).
Qed.

(** *** Nothing is lost *)

(** RRs and signatures stay, an RR may become a signature; RRsets of data stay as they are. *)
Record stays w w' R S R' S' : Prop := {
  y_rrs : forall a x, x ∈ R a -> x ∈ R' a \/ exists c, x ∈ S' c;
  y_sigs : forall a x, x ∈ S a -> x ∈ S' a;
  y_keys : forall a k, (v_key <$> w.(rrsets)) !! a = Some k -> k.(k_type) <> LDNS_RR_TYPE_RRSIG -> (v_key <$> w'.(rrsets)) !! a = Some k;
  y_sections : forall a k, (v_key <$> w.(rrsets)) !! a = Some k -> k.(k_type) <> LDNS_RR_TYPE_RRSIG ->
    (v_section <$> w'.(rrsets)) !! a = (v_section <$> w.(rrsets)) !! a;
  y_data : v_data <$> w.(rrs) ⊆ v_data <$> w'.(rrs);
}.

Lemma stays_self w w' R S : w'.(rrsets) = w.(rrsets) -> w'.(rrs) = w.(rrs) -> stays w w' R S R S.
Proof. intros E1 E2. split; rewrite ?E1, ?E2; try done. by left. Qed.

Lemma stays_trans w1 w2 w3 R1 S1 R2 S2 R3 S3 : stays w1 w2 R1 S1 R2 S2 -> stays w2 w3 R2 S2 R3 S3 -> stays w1 w3 R1 S1 R3 S3.
Proof.
  intros [A1 A2 A3 A4 A5] [B1 B2 B3 B4 B5]. split.
  - intros a x Hx. destruct (A1 a x Hx) as [Hx'|(c & Hc)]; [by apply B1|right; exists c; by apply B2].
  - intros a x Hx. by apply B2, A2.
  - intros a k Hk Ht. by apply B3; [apply A3|].
  - intros a k Hk Ht. rewrite (B4 a k) by eauto. by apply (A4 a k).
  - by etrans.
Qed.

Lemma changed_stays w w' p q L R S a c s t f section L' R' S' : base w p L R S -> changed b d le raninit w w' q L R S a c s t f section L' R' S' ->
  w.(rrsets) !! a = Some s -> s.(s_type) = LDNS_RR_TYPE_RRSIG -> stays w w' R S R' S'.
Proof.
  intros H X Hs Ht. assert (forall y k, (v_key <$> w.(rrsets)) !! y = Some k -> k.(k_type) <> LDNS_RR_TYPE_RRSIG -> y <> c) as Hne.
  { intros y k Hy Hk ->. destruct (h_addr _ _ _ _ _ _ _ _ _ _ _ _ _ _ _ _ _ _ _ X) as [->|Hn].
    - rewrite (view_lookup v_key _ _ _ Hs) in Hy. injection Hy as <-. by apply Hk.
    - by rewrite lookup_fmap, Hn in Hy. }
  split; [| |intros y k Hy Hk; rewrite (h_key _ _ _ _ _ _ _ _ _ _ _ _ _ _ _ _ _ _ _ X), lookup_insert_ne; [done|by apply not_eq_sym, (Hne y k)]| |apply X].
  - intros y x Hx. destruct (h_keep _ _ _ _ _ _ _ _ _ _ _ _ _ _ _ _ _ _ _ X y x Hx); [by left|right; by exists c].
  - apply X.
  - intros y k Hy Hk. apply (h_other _ _ _ _ _ _ _ _ _ _ _ _ _ _ _ _ _ _ _ X). by apply (Hne y k).
Qed.

(** ** The records of the packet *)

(** A record of the packet: its section, the owner, type and class, and the position of its TTL. *)
Record rr_record := mk_record { c_section : sldns_pkt_section; c_owner : name; c_type : Z; c_class : list Z; c_ttl : Z }.

(** [n] records of a section from position [p] on, to [q]. *)
Inductive records (section : sldns_pkt_section) : Z -> nat -> list rr_record -> Z -> Prop :=
  | records_nil p : records section p 0 [] p
  | records_cons p ls e n l q : name_at b d p ls e -> p + e + 4 + 6 + u16_at d (p + e + 4 + 4) <= lim ->
      records section (p + e + 4 + 6 + u16_at d (p + e + 4 + 4)) n l q ->
      records section p (Datatypes.S n) (mk_record section ls (u16_at d (p + e)) (ztake 2 (zdrop (p + e + 2) d)) (p + e + 4) :: l) q.

Lemma records_app section p n1 l1 q1 n2 l2 q2 : records section p n1 l1 q1 -> records section q1 n2 l2 q2 -> records section p (n1 + n2) (l1 ++ l2) q2.
Proof. induction 1; intros H2; [done|]. cbn. econstructor; eauto. Qed.

Definition rec_in (T : list rr_record) (ttl : Z) (ls : name) (t : Z) (dclass : list Z) : Prop := exists s, mk_record s ls t dclass ttl ∈ T.

(** The record is an RR or a signature of an RRset. *)
Definition present w R S (r : rr_record) : Prop :=
  exists a x n, (x ∈ R a \/ x ∈ S a) /\ (v_data <$> w.(rrs)) !! x = Some (r.(c_ttl), false, n).

(** The rdata of two records are the same bytes. *)
Definition same_rdata (ttl1 ttl2 : Z) : Prop :=
  let n := u16_at d (ttl1 + 4) in 0 < n /\ u16_at d (ttl2 + 4) = n /\ ztake n (zdrop (ttl1 + 6) d) = ztake n (zdrop (ttl2 + 6) d).

(** The record is left out: because its RRset is in a section before; or because the question is for
    RRSIG or ANY, and it is a signature that its RRset has already. *)
Definition left_out w S (r : rr_record) : Prop :=
  (r.(c_type) <> LDNS_RR_TYPE_RRSIG /\ exists a k s, (v_key <$> w.(rrsets)) !! a = Some k /\ (v_section <$> w.(rrsets)) !! a = Some s /\
     owned_by k r.(c_owner) /\ k.(k_type) = r.(c_type) /\ k.(k_class) = r.(c_class) /\ rank s < rank r.(c_section)) \/
  (keeps_twice w.(msg) = true /\ exists a k x ttl n, (v_key <$> w.(rrsets)) !! a = Some k /\ owned_by k r.(c_owner) /\ k.(k_class) = r.(c_class) /\
     k.(k_type) <> LDNS_RR_TYPE_RRSIG /\ x ∈ S a /\ (v_data <$> w.(rrs)) !! x = Some (ttl, false, n) /\ same_rdata ttl r.(c_ttl)).

(** The RRs and signatures are records in [T], and the records in [T] are RRs and signatures. *)
Record placed (T : list rr_record) w R S : Prop := {
  w_located : located b d (rec_in T) (v_key <$> w.(rrsets)) (v_data <$> w.(rrs)) R S;
  w_complete : forall r, r ∈ T -> present w R S r \/ left_out w S r;
}.

Lemma keeps_head w w' : m_head w'.(msg) = m_head w.(msg) -> keeps_twice w'.(msg) = keeps_twice w.(msg).
Proof. intros E. pose proof (f_equal keeps_twice E) as E'. exact E'. Qed.

Lemma present_stays w w' R S R' S' r : stays w w' R S R' S' -> present w R S r -> present w' R' S' r.
Proof.
  intros Y (a & x & n & Hx & HD). assert ((v_data <$> w'.(rrs)) !! x = Some (c_ttl r, false, n)) as HD' by (eapply lookup_weaken; [exact HD|apply Y]).
  destruct Hx as [Hx|Hx]; [destruct (y_rrs _ _ _ _ _ _ Y a x Hx) as [?|(c & ?)]|apply (y_sigs _ _ _ _ _ _ Y) in Hx].
  - exists a, x, n. auto.
  - exists c, x, n. auto.
  - exists a, x, n. auto.
Qed.

Lemma left_out_stays w w' R S R' S' r : stays w w' R S R' S' -> m_head w'.(msg) = m_head w.(msg) -> left_out w S r -> left_out w' S' r.
Proof.
  intros Y Eh [(Ht & a & k & s & Hk & Hs & Ho & Et & X)|(Hk2 & a & k & x & ttl & n & Hk & Ho & Ec & Ht & Hx & HD & X)].
  - left. split; [done|]. exists a, k, s. assert (k.(k_type) <> LDNS_RR_TYPE_RRSIG) by congruence.
    split; [by apply (y_keys _ _ _ _ _ _ Y)|]. split; [by rewrite (y_sections _ _ _ _ _ _ Y a k)|done].
  - right. split; [by rewrite (keeps_head w w')|]. exists a, k, x, ttl, n. split; [by apply (y_keys _ _ _ _ _ _ Y)|]. do 3 (split; [done|]).
    split; [by apply (y_sigs _ _ _ _ _ _ Y)|]. split; [eapply lookup_weaken; [exact HD|apply Y]|done].
Qed.

Lemma placed_stays T w w' R S R' S' : stays w w' R S R' S' -> m_head w'.(msg) = m_head w.(msg) ->
  (forall rec, located b d rec (v_key <$> w.(rrsets)) (v_data <$> w.(rrs)) R S -> located b d rec (v_key <$> w'.(rrsets)) (v_data <$> w'.(rrs)) R' S') ->
  placed T w R S -> placed T w' R' S'.
Proof.
  intros Y Eh Hl [P1 P2]. split; [by apply Hl|]. intros r Hr. destruct (P2 r Hr); [left; by eapply present_stays|right; by eapply left_out_stays].
Qed.

Lemma located_more (rec rec' : Z -> name -> Z -> list Z -> Prop) K D R S : (forall ttl ls t c, rec ttl ls t c -> rec' ttl ls t c) -> located b d rec K D R S -> located b d rec' K D R S.
Proof.
  intros H [O1 O2]. assert (forall k t x, rr_at b d rec D k t x -> rr_at b d rec' D k t x) as H'
    by (intros k t x (ttl & f & n & ls & e & ls' & X1 & X2 & X3 & X4); exists ttl, f, n, ls, e, ls'; auto).
  split; intros; apply H'; eauto.
Qed.

(** ** The same RRset as before *)

Lemma same_as_previous_ok w p L R S a v o ls e type dclass : base w p L R S -> vars_ok w v -> v.(v_rrset) = Some a -> name_at b d o ls e ->
  exists r, same_as_previous o (zlen (wire ls)) type dclass v w = Ok (r, w) /\
    (r = true -> owner_ok w a ls dclass /\ forall s, w.(rrsets) !! a = Some s -> fits w ls dclass p type s.(s_type)).
Proof.
  intros H Hv Ea N. unfold vars_ok in Hv. rewrite Ea in Hv. destruct Hv as (s & o1 & o2 & ls1 & e1 & ls2 & e2 & Hs & Et & Ec & E1 & E2 & N1 & N2 & Hl & Ho).
  pose proof (b_pos _ _ _ _ _ _ _ _ _ H) as Hp. pose proof (b_pkt _ _ _ _ _ _ _ _ _ H) as Hpk.
  destruct (smart_compare_at b d B o ls e o1 ls1 e1 o2 ls2 e2 p N N1 N2 Hl Hp) as (c & Ecmp & Hc).
  pose proof (on_ask b (fun b => smart_compare b o (v_dname_first v) (v_dname_last v)) w p c Hpk) as Hsm. rewrite E1, E2 in Hsm. specialize (Hsm Ecmp).
  assert (c = 0 -> dclass = s.(s_class) -> owner_ok w a ls dclass) as How.
  { intros Hc0 Hd. exists s. split; [done|]. split; [|done]. eapply owned_trans; [exact Ho|]. symmetry. by apply Hc. }
  unfold same_as_previous. rewrite E1, E2, Et, Ec.
  set (f1 := if (type =? s_type s) && _ && _ then _ else _). assert (exists r1, f1 w = Ok (r1, w) /\ (r1 = true -> type <> LDNS_RR_TYPE_RRSIG /\ type = s.(s_type) /\ dclass = s.(s_class) /\ c = 0)) as (r1 & Ef1 & Hr1).
  { unfold f1. destruct ((type =? _) && _ && _) eqn:Eq; [|by exists false].
    rewrite (st_bind_ok _ _ _ _ _ Hsm). eexists. split; [reflexivity|]. apply andb_prop in Eq as [[H1%Z.eqb_eq H2%bool_decide_eq_true]%andb_prop _].
    intros [H3%Z.eqb_eq H4%negb_true_iff%Z.eqb_neq]%andb_prop. done. }
  rewrite (st_bind_ok _ _ _ _ _ Ef1). destruct r1.
  { exists true. split; [done|]. intros _. destruct Hr1 as (T1 & T2 & T3 & T4); [done|]. split; [by apply How|].
    intros s' Hs'. rewrite Hs in Hs'. injection Hs' as <-. unfold fits. by rewrite eqb_false. }
  cbv beta iota. destruct ((type =? LDNS_RR_TYPE_RRSIG) && bool_decide (dclass = s_class s)) eqn:Eq; [|by exists false]. apply andb_prop in Eq as [->%Z.eqb_eq Hd%bool_decide_eq_true].
  assert (on_pkt (b0 ← p_current; pkt_rrsig_covered_equals b0 (s_type s)) w = Ok (covers b d p (s_type s), w)) as Ecov.
  { apply (on_pkt_same b _ w p); [done|]. erewrite st_bind_ok by (apply (p_current_at b d B); lia).
    rewrite (covered_equals_at b d B p (s_type s) p Hp Hp). by rewrite after_covered_self. }
  rewrite (st_bind_ok _ _ _ _ _ Ecov). destruct (covers b d p (s_type s)) eqn:Hcv; [|by exists false].
  rewrite (st_bind_ok _ _ _ _ _ Hsm). eexists. split; [reflexivity|]. intros Hc0%Z.eqb_eq. split; [by apply How|].
  intros s' Hs'. rewrite Hs in Hs'. injection Hs' as <-. apply covers_spec in Hcv. unfold fits. rewrite Z.eqb_refl. zcase; [|done].
  intros t' Et' Hn. congruence.
Qed.

(** ** Searching by hash *)

Abbreviation lookup ls type dclass flags o := (msgparse_hashtable_lookup (rrset_hash le raninit ls type dclass flags) flags o (zlen (wire ls)) type dclass).

Lemma has_key_owner w a s ls type dclass flags : w.(rrsets) !! a = Some s -> has_key (v_key s) ls type dclass flags ->
  owner_ok w a ls dclass /\ s.(s_type) = type.
Proof. intros Hs (K1 & K2 & _ & K4). split; [|done]. exists s. done. Qed.

(** When no flags are left, there is no RRset of the type. *)
Lemma none_by_flags w p L R S ls t dclass : base w p L R S ->
  (forall f, flags_of t f -> forall a s, w.(rrsets) !! a = Some s -> ~ has_key (v_key s) ls t dclass f) -> none_of w ls dclass t.
Proof.
  intros H Hno a s Hs Ho Hc Ht. destruct (key_of _ _ _ _ _ _ _ H Hs) as (ls' & e & _ & _ & _ & Hf). rewrite Ht in Hf.
  apply (Hno _ Hf a s Hs). split; [done|]. split; [done|]. split; [done|]. exact Ho.
Qed.

(** The variables for an RRset that was looked up. *)
Lemma vars_found w p L R S a s o ls e h f n : base w p L R S -> name_at b d o ls e -> w.(rrsets) !! a = Some s -> owned_by (v_key s) ls ->
  vars_ok w (mk_prev h f (Some s.(s_dname)) (Some o) n s.(s_type) s.(s_class) (Some a)).
Proof.
  intros H N Hs Ho. destruct (key_of _ _ _ _ _ _ _ H Hs) as (ls' & e' & N' & Ho' & _). exists s, (s_dname s), o, ls', e', ls, e.
  do 7 (split; [done|]). split; [by apply (owned_lower (v_key s))|done].
Qed.

Lemma find_same_ok w p L R S o ls e type dclass flags : base w p L R S -> name_at b d o ls e -> class_ok dclass ->
  exists v, find_same le raninit addr_ (name_hash raninit ls 171) o (zlen (wire ls)) type dclass flags w = Ok (v, w) /\ vars_ok w v /\
    match v.(v_rrset) with
    | Some a => owner_ok w a ls dclass /\ forall s, w.(rrsets) !! a = Some s -> s.(s_type) = type
    | None => v = mk_prev (rrset_hash le raninit ls type dclass flags) flags (Some o) (Some o) (zlen (wire ls)) type dclass None /\
        forall a s, w.(rrsets) !! a = Some s -> ~ has_key (v_key s) ls type dclass flags
    end.
Proof.
  intros H N Hc. unfold find_same.
  rewrite (st_bind_ok _ _ _ _ _ (on_ask b _ w p _ (b_pkt _ _ _ _ _ _ _ _ _ H) (hash_rest_ok le raninit addr_ (name_hash raninit ls 171) type dclass flags Hc))). cbv beta.
  change (rest_hash _ _ _ _ _ _) with (rrset_hash le raninit ls type dclass flags).
  destruct (lookup_ok b d B le raninit w p L R S o ls e type dclass flags H N) as (r & E & Hr). rewrite (st_bind_ok _ _ _ _ _ E). cbv beta.
  destruct r as [a|].
  - destruct Hr as (s & Hs & Hk). rewrite st_bind_assoc. wstep. wstep. eexists. split; [reflexivity|].
    destruct (has_key_owner _ _ _ _ _ _ _ Hs Hk) as [How Ht]. destruct Hk as (K1 & K2 & _ & K4). cbn in K1, K2. cbn [v_rrset]. split.
    + rewrite <- K1, <- K2. by eapply vars_found.
    + split; [done|]. intros s' Hs'. rewrite Hs in Hs'. by injection Hs' as <-.
  - wstep. eexists. split; [reflexivity|]. done.
Qed.

(** *** The type covered *)

(** The RRset found, or that there is none with flags [F]. *)
Definition tried w (F : Z -> Prop) (ls : name) (t : Z) (dclass : list Z) (found : ptr) (flags : Z) : Prop :=
  match found with
  | Some a => exists s, w.(rrsets) !! a = Some s /\ has_key (v_key s) ls t dclass flags
  | None => flags = 0 /\ forall f, F f -> forall a s, w.(rrsets) !! a = Some s -> ~ has_key (v_key s) ls t dclass f
  end.

Lemma twiddle_ok w p L R S o ls e t dclass covtype bit found hash flags F : base w p L R S -> name_at b d o ls e -> class_ok dclass ->
  tried w F ls covtype dclass found flags ->
  exists found' hash' flags', twiddle le raninit addr_ (name_hash raninit ls 171) o (zlen (wire ls)) t dclass covtype bit found hash flags w
      = Ok ((found', hash', flags'), w) /\
    tried w (fun f => F f \/ (covtype = t /\ f = bit)) ls covtype dclass found' flags'.
Proof.
  intros H N Hc Ht. unfold twiddle. destruct found as [a|]; [by exists (Some a), hash, flags|]. destruct Ht as [-> Hno].
  rewrite bool_decide_true by done. cbn [andb]. zcase.
  2:{ exists None, hash, 0. split; [done|]. split; [done|]. intros f [Hf|[? _]]; [by apply Hno|done]. }
  rewrite Z.lxor_0_l.
  rewrite (st_bind_ok _ _ _ _ _ (on_ask b _ w p _ (b_pkt _ _ _ _ _ _ _ _ _ H) (hash_rest_ok le raninit addr_ (name_hash raninit ls 171) covtype dclass bit Hc))). cbv beta.
  change (rest_hash _ _ _ _ _ _) with (rrset_hash le raninit ls covtype dclass bit).
  destruct (lookup_ok b d B le raninit w p L R S o ls e covtype dclass bit H N) as (r & E & Hr). rewrite (st_bind_ok _ _ _ _ _ E). cbv beta.
  destruct r as [a|].
  - rewrite bool_decide_false by done. by eexists _, _, _.
  - rewrite bool_decide_true by done. eexists _, _, _. split; [reflexivity|]. split; [apply Z.lxor_nilpotent|].
    intros f [Hf|[_ ->]]; [by apply Hno|done].
Qed.

Lemma find_covered_ok w p L R S o ls e dclass hash : base w p L R S -> name_at b d o ls e -> class_ok dclass ->
  (exists hash', find_covered le raninit addr_ (name_hash raninit ls 171) o (zlen (wire ls)) dclass 0 hash w = Ok ((hash', 0, None), w) /\
      forall t, covered b d p = Some t -> none_of w ls dclass t) \/
  exists hash' flags' v a, find_covered le raninit addr_ (name_hash raninit ls 171) o (zlen (wire ls)) dclass 0 hash w = Ok ((hash', flags', Some v), w) /\
      v.(v_rrset) = Some a /\ vars_ok w v /\ owner_ok w a ls dclass /\ forall s, w.(rrsets) !! a = Some s -> covered b d p = Some s.(s_type).
Proof.
  intros H N Hc. pose proof (b_pos _ _ _ _ _ _ _ _ _ H) as Hp. pose proof (b_pkt _ _ _ _ _ _ _ _ _ H) as Hpk. unfold find_covered.
  assert (on_pkt (b ← p_current; pkt_rrsig_covered b) w = Ok (covered b d p, w)) as Ecov.
  { apply (on_pkt_same b _ w p); [done|]. erewrite st_bind_ok by (apply (p_current_at b d B); lia).
    rewrite (pkt_rrsig_covered_at b d B p p Hp Hp). by rewrite after_covered_self. }
  rewrite (st_bind_ok _ _ _ _ _ Ecov). cbv beta. destruct (covered b d p) as [t|] eqn:Et; [|left; by exists hash].
  rewrite (st_bind_ok _ _ _ _ _ (on_ask b _ w p _ Hpk (hash_rest_ok le raninit addr_ (name_hash raninit ls 171) t dclass 0 Hc))). cbv beta.
  change (rest_hash _ _ _ _ _ _) with (rrset_hash le raninit ls t dclass 0).
  destruct (lookup_ok b d B le raninit w p L R S o ls e t dclass 0 H N) as (r & E & Hr). rewrite (st_bind_ok _ _ _ _ _ E). cbv beta.
  assert (tried w (fun f => f = 0) ls t dclass r 0) as T0.
  { destruct r as [a|]; [done|]. split; [done|]. by intros f ->. }
  destruct (twiddle_ok w p L R S o ls e LDNS_RR_TYPE_NSEC dclass t PACKED_RRSET_NSEC_AT_APEX r (rrset_hash le raninit ls t dclass 0) 0 _ H N Hc T0)
    as (r1 & h1 & f1 & E1 & T1). rewrite (st_bind_ok _ _ _ _ _ E1). cbv beta iota.
  destruct (twiddle_ok w p L R S o ls e LDNS_RR_TYPE_SOA dclass t PACKED_RRSET_SOA_NEG r1 h1 f1 _ H N Hc T1)
    as (r2 & h2 & f2 & E2 & T2). rewrite (st_bind_ok _ _ _ _ _ E2). cbv beta iota.
  destruct r2 as [a|].
  - right. destruct T2 as (s & Hs & Hk). wstep. destruct (has_key_owner _ _ _ _ _ _ _ Hs Hk) as [How Ht]. destruct Hk as (K1 & K2 & _ & K4).
    cbn in K1, K2. eexists _, _, _, a. split; [reflexivity|]. split; [done|]. split; [|split; [done|]].
    + rewrite <- K1, <- K2. by eapply vars_found.
    + intros s' Hs'. rewrite Hs in Hs'. injection Hs' as <-. by rewrite Ht.
  - left. destruct T2 as [-> Hno]. exists h2. split; [done|]. intros t' [= <-].
    eapply none_by_flags; [done|]. intros f Hf. apply Hno. destruct Hf as [_ [->|[[-> ->]|[-> ->]]]]; auto.
Qed.

(** *** Signatures over the type *)

(** The variables describe the RRset the signatures became. *)
Lemma changed_vars w w' p q L R S a c s t f section L' R' S' o ls e h fl n : base w p L R S -> name_at b d o ls e -> w.(rrsets) !! a = Some s ->
  owned_by (v_key s) ls -> changed b d le raninit w w' q L R S a c s t f section L' R' S' ->
  owner_ok w' c ls s.(s_class) /\ (forall s', w'.(rrsets) !! c = Some s' -> s'.(s_type) = t) /\
  vars_ok w' (mk_prev h fl (Some s.(s_dname)) (Some o) n t s.(s_class) (Some c)).
Proof.
  intros H N Hs Ho X. assert ((v_key <$> w'.(rrsets)) !! c = Some (mk_key s.(s_dname) s.(s_dname_len) t s.(s_class) f)) as Hk
    by (by rewrite (h_key _ _ _ _ _ _ _ _ _ _ _ _ _ _ _ _ _ _ _ X), lookup_insert_eq).
  destruct (view_some _ _ _ _ Hk) as (s' & Hs' & Ek). pose proof (f_equal k_type Ek) as Et. pose proof (f_equal k_class Ek) as Ec.
  pose proof (f_equal k_dname Ek) as Ed. cbn in Et, Ec, Ed.
  assert (owned_by (v_key s') ls) as Ho' by (by rewrite Ek). split; [|split].
  - exists s'. done.
  - intros s2 Hs2. rewrite Hs' in Hs2. by injection Hs2 as <-.
  - rewrite <- Et, <- Ec, <- Ed. by eapply vars_found; [apply X|..].
Qed.

(** *** What a search keeps *)

Record kept w w' (q : Z) L R S L' R' S' (section : sldns_pkt_section) : Prop := {
  t_good : good w' q L' R' S' section;
  t_head : m_head w'.(msg) = m_head w.(msg);
  t_data : v_data <$> w.(rrs) ⊆ v_data <$> w'.(rrs);
  t_len : zlen L' <= zlen L + 1;
  t_short : forall n, short n R S -> short n R' S';
  t_stays : stays w w' R S R' S';
  t_located : forall rec, located b d rec (v_key <$> w.(rrsets)) (v_data <$> w.(rrs)) R S -> located b d rec (v_key <$> w'.(rrsets)) (v_data <$> w'.(rrs)) R' S';
}.

Lemma kept_move w p q L R S section : good w p L R S section -> 0 <= q <= lim -> kept w (upd_pkt (at_ q) w) q L R S L R S section.
Proof. intros G Hq. split; [by eapply good_move|done|done|lia|done|by apply stays_self|done]. Qed.

Lemma kept_self w p L R S section : good w p L R S section -> kept w w p L R S L R S section.
Proof. intros G. split; [done|done|done|lia|done|by apply stays_self|done]. Qed.

Lemma changed_kept w w' p q L R S a c s t f section L' R' S' : good w p L R S section -> changed b d le raninit w w' q L R S a c s t f section L' R' S' ->
  w.(rrsets) !! a = Some s -> s.(s_type) = LDNS_RR_TYPE_RRSIG -> t <> LDNS_RR_TYPE_RRSIG ->
  existsb (sig_covers (v_data <$> w.(rrs)) t) (R a) = true -> kept w w' q L R S L' R' S' section.
Proof.
  intros G X Hs Ht Htne (x0 & Hx0%list_elem_of_In & Hcov)%existsb_exists. pose proof (g_unique _ _ _ _ _ _ G) as Hun. split.
  - split; [apply X|apply X|apply X| |intros Hlong; eapply changed_located; [apply G|by apply G|done..]]. intros Hk.
    assert (keeps_twice w.(msg) = false) as Hk0.
    { pose proof (f_equal keeps_twice (h_head _ _ _ _ _ _ _ _ _ _ _ _ _ _ _ _ _ _ _ X)) as E. unfold keeps_twice in *. cbn in E. by rewrite <- E. }
    eapply changed_unique; [apply G|by apply Hun|done..].
  - apply X.
  - apply X.
  - apply X.
  - apply X.
  - eapply changed_stays; [apply G|done..].
  - intros rec Hl. eapply changed_located; [apply G|done..].
Qed.

(** There is one RRset of signatures for a name and class. *)
Lemma one_sigset w p L R S section ls dclass a s : good w p L R S section -> keeps_twice w.(msg) = false -> w.(rrsets) !! a = Some s ->
  has_key (v_key s) ls LDNS_RR_TYPE_RRSIG dclass 0 ->
  forall a' s', w.(rrsets) !! a' = Some s' -> owned_by (v_key s') ls -> s'.(s_class) = dclass -> s'.(s_type) = LDNS_RR_TYPE_RRSIG -> a' = a.
Proof.
  intros G Hk Hs (K1 & K2 & K3 & K4) a' s' Hs' Ho Hc Ht.
  apply (q_keys _ _ _ (g_unique _ _ _ _ _ _ G Hk) a' a (v_key s') (v_key s)); try by apply view_lookup.
  - by exists ls.
  - by rewrite K1.
  - by rewrite K2.
  - rewrite K3. apply flags_sig. destruct (key_of _ _ _ _ _ _ _ (g_base _ _ _ _ _ _ G) Hs') as (? & ? & _ & _ & _ & Hf). by rewrite Ht in Hf.
Qed.

Lemma find_signed_ok w p L R S section o ls e type dclass flags : good w p L R S section -> ready p -> name_at b d o ls e -> class_ok dclass ->
  type <> LDNS_RR_TYPE_RRSIG -> flags_of type flags -> 1 <= rank section ->
  exists r w' q, find_signed le raninit addr_ (name_hash raninit ls 171) o (zlen (wire ls)) type dclass flags section w = Ok (r, w') /\
    w'.(pkt) = at_ q /\ ready q /\ (long_sigs b d -> q = p) /\
    match r with
    | None => w' = upd_pkt (at_ q) w /\
        (keeps_twice w.(msg) = false -> forall a s x, w.(rrsets) !! a = Some s -> owned_by (v_key s) ls ->
           s.(s_class) = dclass -> s.(s_type) = LDNS_RR_TYPE_RRSIG -> x ∈ R a -> sig_covers (v_data <$> w.(rrs)) type x = false)
    | Some (rc, v) => rc = 0 \/ rc = 1 /\ exists L' R' S' a, kept w w' q L R S L' R' S' section /\ v.(v_rrset) = Some a /\ vars_ok w' v /\
        owner_ok w' a ls dclass /\ forall s, w'.(rrsets) !! a = Some s -> s.(s_type) = type
    end.
Proof.
  intros G Hr N Hc Htne Hf Hsec. pose proof (g_base _ _ _ _ _ _ G) as H. pose proof (b_pkt _ _ _ _ _ _ _ _ _ H) as Hpk. unfold find_signed.
  rewrite (st_bind_ok _ _ _ _ _ (on_ask b _ w p _ Hpk (hash_rest_ok le raninit addr_ (name_hash raninit ls 171) LDNS_RR_TYPE_RRSIG dclass 0 Hc))). cbv beta.
  change (rest_hash _ _ _ _ _ _) with (rrset_hash le raninit ls LDNS_RR_TYPE_RRSIG dclass 0).
  destruct (lookup_ok b d B le raninit w p L R S o ls e LDNS_RR_TYPE_RRSIG dclass 0 H N) as (r & E & Hl). rewrite (st_bind_ok _ _ _ _ _ E). cbv beta.
  destruct r as [a|].
  2:{ exists None, w, p. split; [done|]. split; [done|]. split; [done|]. split; [done|]. rewrite upd_pkt_self by done. split; [done|].
      intros _ a s x Hs Ho Hcl Ht _. destruct (Hl a s Hs). split; [done|]. split; [done|]. split; [|done].
      apply flags_sig. destruct (key_of _ _ _ _ _ _ _ H Hs) as (? & ? & _ & _ & _ & Hf'). by rewrite Ht in Hf'. }
  destruct Hl as (s & Hs & Hk). pose proof Hk as (K1 & K2 & K3 & K4). cbn in K1, K2.
  destruct (rrset_has_sigover_ok b d B le raninit w p L R S a s type H Hr Hs K1) as (q & E1 & Hq & Hqp). rewrite (st_bind_ok _ _ _ _ _ E1). cbv beta iota.
  assert (long_sigs b d -> forall x, x ∈ R a -> far b (v_data <$> w.(rrs)) x) as Hfar.
  { intros Hl x Hx. pose proof (view_lookup v_key _ _ _ Hs) as Hka. eapply (located_far b d B _ (v_key s) s.(s_type)); [done|rewrite <- K1; by eapply (o_rrs _ _ _ _ _ _ _ (g_located _ _ _ _ _ _ G Hl))|].
    by eapply (c_rrs _ _ _ _ _ _ (b_contents _ _ _ _ _ _ _ _ _ H) a (v_key s)). }
  destruct (existsb (sig_covers _ type) (R a)) eqn:Eany.
  2:{ eexists _, _, _. split; [reflexivity|]. split; [done|]. split; [done|]. split; [intros Hl; by apply Hqp, Hfar|]. split; [done|].
      intros Hkt a' s' x Hs' Ho Hcl Ht Hx. rewrite (one_sigset _ _ _ _ _ _ _ _ _ _ G Hkt Hs Hk a' s') in Hx by done.
      rewrite <- not_true_iff_false in *. intros Hcv. apply Eany. apply existsb_exists. exists x. split; [by apply list_elem_of_In|done]. }
  assert (good (upd_pkt (at_ q) w) q L R S section) as G1 by (eapply good_move; [done|]; destruct Hq; lia). wstep.
  assert (forall rc w' q' c L' R' S', changed b d le raninit (upd_pkt (at_ q) w) w' q' L R S a c s type flags section L' R' S' ->
    exists L' R' S' a', kept w w' q' L R S L' R' S' section /\ Some c = Some a' /\
      vars_ok w' (mk_prev rc flags (Some s.(s_dname)) (Some o) (zlen (wire ls)) type dclass (Some c)) /\
      owner_ok w' a' ls dclass /\ forall s, w'.(rrsets) !! a' = Some s -> s.(s_type) = type) as Hdone.
  { intros rc w' q' c L' R' S' X. exists L', R', S', c. destruct (changed_vars _ _ _ _ _ _ _ _ _ _ _ _ _ _ _ _ o ls e rc flags (zlen (wire ls)) (g_base _ _ _ _ _ _ G1) N Hs K4 X) as (X1 & X2 & X3).
    rewrite K2 in X1, X3. split; [|done]. destruct (changed_kept _ _ _ _ _ _ _ _ _ _ _ _ _ _ _ _ G1 X Hs K1 Htne Eany) as [? ? ? ? ? [] ?]. by split. }
  destruct (existsb (fun x => negb _) (R a)) eqn:Eoth.
  - destruct (change_other_ok b d B le raninit addr_ _ q L R S a s type flags section (g_base _ _ _ _ _ _ G1) (g_counts _ _ _ _ _ _ G1) (g_upto _ _ _ _ _ _ G1)
      Hq Hs K1 Htne Hf Hsec) as (r & w' & q' & E2 & Hp' & [Hq' Hqp'] & Hr2). rewrite (st_bind_ok _ _ _ _ _ E2).
    eexists _, w', q'. split; [reflexivity|]. split; [done|]. split; [done|]. split; [intros Hl; rewrite Hqp' by (by apply Hfar); by apply Hqp, Hfar|]. destruct r as [c|]; [right|by left]. split; [done|].
    destruct Hr2 as (L' & R' & S' & X). by eapply Hdone.
  - destruct (change_same_ok b d B le raninit addr_ _ q L R S a s type flags section (g_base _ _ _ _ _ _ G1) (g_counts _ _ _ _ _ _ G1) (g_upto _ _ _ _ _ _ G1)
      Hq Hs K1 Htne Hf) as (w' & E2 & Hp' & L' & R' & S' & X).
    { intros En. by rewrite En in Eany. }
    { intros x Hx. rewrite <- not_true_iff_false in Eoth. apply not_false_iff_true. intros Hcv. apply Eoth. apply existsb_exists.
      exists x. split; [by apply list_elem_of_In|]. cbn in Hcv. by rewrite Hcv. }
    rewrite (st_bind_ok _ _ _ _ _ E2). eexists _, w', q. split; [reflexivity|]. split; [done|]. split; [done|]. split; [intros Hl; by apply Hqp, Hfar|]. right. split; [done|]. by eapply Hdone.
Qed.

(** ** The RRset of an RR *)

Lemma none_of_fits w ls dclass q t : (forall t', covered b d q = Some t' -> none_of w ls dclass t') -> t = LDNS_RR_TYPE_RRSIG ->
  fits w ls dclass q LDNS_RR_TYPE_RRSIG t.
Proof. intros H ->. unfold fits. rewrite !Z.eqb_refl. intros t' Et _. by apply H. Qed.

Lemma new_key o ls e type dclass flags : name_at b d o ls e -> class_ok dclass -> flags_of type flags ->
  key_ok b d le raninit (mk_key o (zlen (wire ls)) type dclass flags) (rrset_hash le raninit ls type dclass flags).
Proof. intros N Hc Hf. by exists ls, e. Qed.

Lemma find_by_hash_ok w p L R S section o ls e type dclass flags hash : good w p L R S section -> ready p -> name_at b d o ls e -> class_ok dclass ->
  flags_of type flags -> 1 <= rank section ->
  exists rc v w' q, find_by_hash le raninit addr_ (name_hash raninit ls 171) o (zlen (wire ls)) type dclass flags section hash w = Ok ((rc, v), w') /\
    w'.(pkt) = at_ q /\ ready q /\ (long_sigs b d -> q = p) /\
    (rc = 0 \/ rc = 1 /\ exists L' R' S', kept w w' q L R S L' R' S' section /\ vars_ok w' v /\ result_ok w' R' q o ls type dclass v).
Proof.
  intros G Hr N Hc Hf Hsec. pose proof (g_base _ _ _ _ _ _ G) as H. pose proof (b_pkt _ _ _ _ _ _ _ _ _ H) as Hpk. unfold find_by_hash. zcase.
  - subst type. apply flags_sig in Hf as ->.
    destruct (find_covered_ok w p L R S o ls e dclass hash H N Hc) as [(h & E & Hno)|(h & f & v & a & E & Ea & Hv & How & Hcov)].
    + rewrite (st_bind_ok _ _ _ _ _ E). cbv beta iota.
      destruct (find_same_ok w p L R S o ls e LDNS_RR_TYPE_RRSIG dclass 0 H N Hc) as (v & E' & Hv & Hres). rewrite (st_bind_ok _ _ _ _ _ E').
      exists 1, v, w, p. split; [done|]. split; [done|]. split; [done|]. split; [done|]. right. split; [done|]. exists L, R, S. split; [by apply kept_self|]. split; [done|].
      unfold result_ok. destruct (v_rrset v) as [a|]; [destruct Hres as [How Ht]; split; [done|]; intros s Hs; apply none_of_fits; [done|by apply Ht]|].
      destruct Hres as [-> Hno']. split; [by apply (new_key o ls e); [..|split; [|left]]|]. do 4 (split; [done|]). split; [done|]. split; [|done]. intros _. by apply none_of_fits.
    + rewrite (st_bind_ok _ _ _ _ _ E). cbv beta iota. exists 1, v, w, p. split; [done|]. split; [done|]. split; [done|]. split; [done|]. right. split; [done|].
      exists L, R, S. split; [by apply kept_self|]. split; [done|]. unfold result_ok. rewrite Ea. split; [done|]. intros s Hs. unfold fits. rewrite Z.eqb_refl.
      specialize (Hcov s Hs). zcase; [|done]. intros t' Et' Hn. congruence.
  - destruct (find_signed_ok w p L R S section o ls e type dclass flags G Hr N Hc) as (r & w' & q & E & Hp' & Hq & Hqp & Hres); [done..|].
    rewrite (st_bind_ok _ _ _ _ _ E). cbv beta. destruct r as [[rc v]|].
    + exists rc, v, w', q. split; [done|]. split; [done|]. split; [done|]. split; [done|]. destruct Hres as [?|(? & L' & R' & S' & a & K & Ea & Hv & How & Ht)]; [by left|right].
      split; [done|]. exists L', R', S'. split; [done|]. split; [done|]. unfold result_ok. rewrite Ea. split; [done|]. intros s Hs. unfold fits.
      rewrite eqb_false by done. by apply Ht.
    + destruct Hres as [-> Hsig]. destruct Hq as [Hq1 Hq2].
      assert (good (upd_pkt (at_ q) w) q L R S section) as G1 by (eapply good_move; [done|lia]).
      destruct (find_same_ok _ q L R S o ls e type dclass flags (g_base _ _ _ _ _ _ G1) N Hc) as (v & E' & Hv & Hres). rewrite (st_bind_ok _ _ _ _ _ E').
      exists 1, v, (upd_pkt (at_ q) w), q. split; [done|]. split; [done|]. split; [done|]. split; [done|]. right. split; [done|].
      exists L, R, S. split; [apply (kept_move w p); [done|lia]|]. split; [done|].
      unfold result_ok. destruct (v_rrset v) as [a|].
      * destruct Hres as [How Ht]. split; [done|]. intros s Hs. unfold fits. rewrite eqb_false by done. by apply Ht.
      * destruct Hres as [-> Hno']. split; [by apply (new_key o ls e)|]. do 4 (split; [done|]). split; [done|]. split; [done|]. intros _ Hk. by apply Hsig.
Qed.

(** The search keeps the structure, and finds the RRset of the RR, or the key of a new one. *)
Lemma find_rrset_ok w p L R S section o ls e type dclass v : good w p L R S section -> ready p -> name_at b d o ls e -> class_ok dclass ->
  in_u 16 type -> vars_ok w v -> 1 <= rank section ->
  exists rc v' w' q, find_rrset le raninit addr_ o (zlen (wire ls)) type dclass v section w = Ok ((rc, v'), w') /\
    w'.(pkt) = at_ q /\ ready q /\ (long_sigs b d -> q = p) /\
    (rc = 0 \/ rc = 1 /\ exists L' R' S', kept w w' q L R S L' R' S' section /\ vars_ok w' v' /\ result_ok w' R' q o ls type dclass v').
Proof.
  intros G Hr N Hc Hty Hv Hsec. pose proof (g_base _ _ _ _ _ _ G) as H. pose proof (b_pkt _ _ _ _ _ _ _ _ _ H) as Hpk. pose proof (b_pos _ _ _ _ _ _ _ _ _ H) as Hp.
  unfold find_rrset. rewrite (st_bind_ok _ _ _ _ _ (on_ask b _ w p _ Hpk (hash_first_ok b d B le raninit addr_ o ls e p N Hp))). cbv beta.
  assert (exists r, (match v.(v_rrset) with None => mret false | Some _ => same_as_previous o (zlen (wire ls)) type dclass v end : W bool) w = Ok (r, w) /\
    (r = true -> exists a, v.(v_rrset) = Some a /\ owner_ok w a ls dclass /\ forall s, w.(rrsets) !! a = Some s -> fits w ls dclass p type s.(s_type))) as (r & E & Hres).
  { destruct (v_rrset v) as [a|] eqn:Ea; [|by exists false].
    destruct (same_as_previous_ok w p L R S a v o ls e type dclass H Hv Ea N) as (r & E & Hres). exists r. split; [done|]. intros Er. exists a. by split; [|apply Hres]. }
  rewrite (st_bind_ok _ _ _ _ _ E). cbv beta. destruct r.
  - destruct (Hres eq_refl) as (a & Ea & (s & Hs & Ho & Hcl) & Hfit). eexists 1, _, w, p. split; [reflexivity|]. split; [done|]. split; [done|]. split; [done|]. right. split; [done|].
    exists L, R, S. split; [by apply kept_self|]. unfold vars_ok, result_ok in *. rewrite Ea in *. cbn [v_rrset v_dname_first v_dname_last v_type v_dclass]. split.
    + destruct Hv as (s' & o1 & o2 & ls1 & e1 & ls2 & e2 & Hs' & T & C & E1 & E2 & N1 & N2 & El & Ho2). rewrite Hs in Hs'. injection Hs' as <-.
      exists s, o1, o, ls1, e1, ls, e. do 7 (split; [done|]). split; [|done]. rewrite El. by apply (owned_lower (v_key s)).
    + split; [by exists s|done].
  - destruct (pkt_rrset_flags_at b d B type section p Hty Hp) as (flags & Ef & Hf).
    rewrite (st_bind_ok _ _ _ _ _ (on_pkt_same b _ w p _ Hpk Ef)). cbv beta. by apply (find_by_hash_ok w p L R S section o ls e).
Qed.
End Find.
