(* ===== verification/MsgRr.v ===== *)
(** * Parsing packets: one RR

    [parse_rr] keeps the invariant, and the RR is put with the RRset it belongs to. *)

From stdpp Require Import functions.
From S2P Require Import Prelude Sbuffer Lookup3 Dname DnameCompare DnamePkt RrDef Msgparse MsgPkt MsgRdata MsgLists MsgOps MsgSigs MsgChange MsgFind.

(** One step on the packet, from a known position. *)
Ltac kstep tac := erewrite st_bind_ok by (eapply on_pkt_ok; [first [eassumption | reflexivity]|tac]); cbv beta.

Section Rr.
Context (b : sldns_buffer) (d : list Z) (B : buf_ok b d) (le : bool) (raninit addr_ : Z).
Abbreviation lim := (b.(_limit)).
Abbreviation at_ p := (set_pos b p).
Abbreviation base := (base b d le raninit).
Abbreviation good := (good b d le raninit).
Abbreviation rr_is := (rr_is b d).
Abbreviation sig_covers := (sig_covers b d).
Abbreviation ready := (ready b).
Abbreviation vars_ok := (vars_ok b d).
Abbreviation owned_by := (owned_by b d).
Implicit Types (w : world) (R S : addr -> list addr) (L : list addr) (k : key) (v : prev_rr).

(** ** Duplicate signatures *)

Lemma double_loop_ok rlen p : ready p -> p + 6 + rlen <= lim -> forall l fuel sig w q,
  w.(pkt) = at_ q -> 0 <= q <= lim -> seg r_next w.(rrs) sig l None -> (forall x, x ∈ l -> exists t, rr_is (v_data <$> w.(rrs)) t x) -> (length l < fuel)%nat ->
  exists r, double_loop fuel sig rlen p w = Ok (r, w) /\
    (r = true -> u16_at d (p + 4) = rlen -> exists x ttl n, x ∈ l /\ (v_data <$> w.(rrs)) !! x = Some (ttl, false, n) /\ same_rdata d ttl p).
Proof.
  intros [P1 P2] Hlen. pose proof (lim_zlen b d B) as Hlz. induction l as [|x l IH]; intros [|fuel] sig w q Hp Hq Hs Hl Hf; cbn in Hf; try lia.
  - cbn in Hs. subst sig. exists false. done.
  - destruct Hs as (-> & r & Hx & Hs). cbn [double_loop]. wstep.
    destruct (Hl x) as (t & ttl & n & out & HD & (T1 & T2 & _) & _); [left|]. pose proof HD as HDx. rewrite lookup_fmap, Hx in HD. injection HD as E _ _. rewrite E.
    pose proof (u16_at_range b d B (ttl + 4)) as Hu. unfold in_u in Hu.
    erewrite st_bind_ok by (apply (on_ask b _ w q _ Hp); rewrite (ptr_at_at b d B) by lia; apply (u16_at_read d); lia). cbv beta.
    assert (exists s, (if (u16_at d (ttl + 4) =? rlen) && (0 <? u16_at d (ttl + 4))
              then on_pkt (ask (fun b => same_bytes b (ttl + 6) (p + 6) (u16_at d (ttl + 4)))) else mret false : W bool) w = Ok (s, w) /\
       (s = true -> u16_at d (p + 4) = rlen -> same_rdata d ttl p)) as (s & Es & Hsame).
    { destruct (_ && _) eqn:Eq; [|by exists false]. apply andb_prop in Eq as [Eq%Z.eqb_eq Hpos%Z.ltb_lt]. eexists. split.
      - apply (on_ask b _ w q _ Hp). unfold same_bytes.
        rewrite !(ptr_at_at b d B) by lia. cbn [mbind outcome_bind]. rewrite !read_bytes_ok by (rewrite ?zlen_zdrop; lia). reflexivity.
      - intros Hb%bool_decide_eq_true Er. split; [done|]. split; [lia|done]. }
    rewrite (st_bind_ok _ _ _ _ _ Es). destruct s.
    { exists true. split; [done|]. intros _ Er. exists x, ttl, n. split; [left|]. split; [done|]. by apply Hsame. }
    destruct (IH fuel (r_next r) w q) as (res & E' & Hres); try done; [by intros y Hy; apply Hl; right|lia|]. exists res. split; [done|].
    intros Et Er. destruct (Hres Et Er) as (y & ttl' & n' & Hy & X). exists y, ttl', n'. split; [by right|done].
Qed.

Lemma sig_is_double_ok w p L R S a s : base w p L R S -> ready p -> w.(rrsets) !! a = Some s ->
  exists r, sig_is_double a p w = Ok (r, w) /\
    (r = true -> p + 6 + u16_at d (p + 4) <= lim /\ exists x ttl n, x ∈ S a /\ (v_data <$> w.(rrs)) !! x = Some (ttl, false, n) /\ same_rdata d ttl p).
Proof.
  intros H Hr Hs. pose proof Hr as [P1 P2]. pose proof (b_pkt _ _ _ _ _ _ _ _ _ H) as Hpk. unfold sig_is_double.
  kstep ltac:(apply p_position_at). rewrite upd_pkt_self by done.
  kstep ltac:(apply (p_remaining_at b d B); lia). rewrite upd_pkt_self by done. zcase; [lia|].
  kstep ltac:(apply (p_skip_at b d B 4); lia). kstep ltac:(apply (p_read_u16_at b d B); lia).
  kstep ltac:(apply (p_remaining_at b d B); lia). kstep ltac:(apply (p_set_at b p); lia).
  match goal with |- context [upd_pkt (at_ p) ?w1] => change (upd_pkt (at_ p) w1) with (upd_pkt (at_ p) w) end. rewrite upd_pkt_self by done. zcase; [by exists false|].
  wstep. unfold with_fuel. pose proof (b_lists _ _ _ _ _ _ _ _ _ H) as LO.
  pose proof (l_sigs _ _ _ _ LO a _ _ _ (view_lookup v_lists _ _ _ Hs)) as [Hseg _ _].
  destruct (double_loop_ok (u16_at d (p + 4)) p Hr ltac:(lia) (S a) (rrs_fuel w) (s_rrsig_first s) w p Hpk ltac:(lia) Hseg) as (res & E & Hres);
    [|eapply rrs_fuel_ok; [by eapply sigs_nodup|exact Hseg]|exists res; split; [exact E|intros Er; split; [lia|by apply Hres]]].
  intros x Hx. exists LDNS_RR_TYPE_RRSIG. apply (c_sigs _ _ _ _ _ _ (b_contents _ _ _ _ _ _ _ _ _ H) a (v_key s)); [by apply view_lookup|done].
Qed.

(** ** The RR in its list *)

(** What is linked: an RR of the type of the RRset, or a signature that covers it. *)
Definition joins (p type t : Z) (sig : bool) : Prop :=
  if sig then type = LDNS_RR_TYPE_RRSIG /\ t <> LDNS_RR_TYPE_RRSIG /\ covers b d p t = true else type = t.

Lemma v_rest {V} (g : rrset_parse -> V) s s' : (forall s, g (s_rest s) = g s) -> s_rest s' = s_rest s -> g s' = g s.
Proof. intros H E. by rewrite <- H, E, H. Qed.

Lemma link_data (N : gmap addr rr_parse) x p n last :
  v_data <$> <[x := with_rr_size n (mk_rr p false 0 None)]> (link_last (<[x := mk_rr p false 0 None]> N) last x) = <[x := (p, false, n)]> (v_data <$> N).
Proof. rewrite fmap_insert, link_last_data, fmap_insert. apply insert_insert_eq. Qed.

Lemma link_base w p q L R S a s s' x type sig n out : base w p L R S -> w.(rrsets) !! a = Some s -> w.(rrs) !! x = None ->
  rdata_of b d type p out -> n = 2 + zlen out -> joins p type s.(s_type) sig -> 0 <= q <= lim -> s_rest s' = s_rest s ->
  v_lists s' = ((if sig then v_rrs s else part_add (v_rrs s) x, if sig then part_add (v_sigs s) x else v_sigs s), u64 (s.(s_size) + n)) ->
  base (upd_pkt (at_ q) (set_lists a s' (<[x := with_rr_size n (mk_rr p false 0 None)]>
      (link_last (<[x := mk_rr p false 0 None]> w.(rrs)) (pt_last (if sig then v_sigs s else v_rrs s)) x)) w)) q L
    (if sig then R else <[a := R a ++ [x]]> R) (if sig then <[a := S a ++ [x]]> S else S).
Proof.
  intros H Hs Hx Hrd Hn Hj Hq Er El. pose proof (b_lists _ _ _ _ _ _ _ _ _ H) as LO.
  assert (unowned R S x) as Hu by (by eapply fresh_unowned).
  split; cbn [pkt msg rrsets rrs upd_pkt set_lists upd_rrs upd_rrsets]; [done|done|..].
  - rewrite (fmap_insert_same v_next _ a s s') by (done || by apply (v_rest v_next)). apply H.
  - intros y. rewrite (b_dom _ _ _ _ _ _ _ _ _ H). destruct (decide (y = a)) as [->|Hy]; [rewrite lookup_insert_eq, Hs; split; by eexists|by rewrite lookup_insert_ne].
  - rewrite (fmap_insert_same v_bucket _ a s s') by (done || by apply (v_rest v_bucket)). apply H.
  - apply (link_rr_lists _ (<[x := mk_rr p false 0 None]> w.(rrs))); try done; [by apply lists_unowned|apply lookup_insert_eq].
  - intros y sy Hy. eapply (keys_view b d le raninit w (upd_rrsets <[a := s']> w)); [|apply H|exact Hy]. cbn. apply fmap_insert_same with s; [done|]. by apply (v_rest v_kh).
  - rewrite (fmap_insert_same v_key _ a s s') by (done || by apply (v_rest v_key)). rewrite link_data.
    pose proof (view_lookup v_key _ _ _ Hs) as Hk. set (D := v_data <$> w.(rrs)).
    assert (D !! x = None) as HDx by (unfold D; by rewrite lookup_fmap, Hx).
    pose proof (b_contents _ _ _ _ _ _ _ _ _ H) as C.
    assert (forall y k z, (v_key <$> w.(rrsets)) !! y = Some k -> z ∈ R y -> rr_is (<[x := (p, false, n)]> D) k.(k_type) z) as C1.
    { intros y k z Hy Hz. eapply (rr_is_mono b d D); [by apply insert_subseteq|]. by eapply (c_rrs _ _ _ _ _ _ C). }
    assert (forall y k z, (v_key <$> w.(rrsets)) !! y = Some k -> z ∈ S y -> k.(k_type) <> LDNS_RR_TYPE_RRSIG /\
        rr_is (<[x := (p, false, n)]> D) LDNS_RR_TYPE_RRSIG z /\ sig_covers (<[x := (p, false, n)]> D) k.(k_type) z = true) as C2.
    { intros y k z Hy Hz. destruct (c_sigs _ _ _ _ _ _ C y k z Hy Hz) as (X0 & X1 & X2). split; [done|]. split; [eapply (rr_is_mono b d D); [by apply insert_subseteq|done]|].
      rewrite (sig_covers_mono b d D); [done|by apply insert_subseteq|by eapply rr_is_some]. }
    destruct sig; split; try done; intros y k z Hy Hz; (destruct (decide (y = a)) as [->|Hya]; [|rewrite fn_lookup_insert_ne in Hz by done; by eauto]);
      rewrite fn_lookup_insert in Hz; apply elem_of_app in Hz as [Hz| ->%list_elem_of_singleton]; [by eauto| |by eauto|];
      rewrite Hk in Hy; injection Hy as <-; cbn [k_type v_key].
    + destruct Hj as (-> & Ht & Hc). split; [done|]. split; [exists p, n, out; by rewrite lookup_insert_eq|]. unfold MsgOps.sig_covers. by rewrite lookup_insert_eq.
    + cbn [joins] in Hj. subst type. exists p, n, out. by rewrite lookup_insert_eq.
Qed.

(** The keys stay different, with one more RR. *)
Lemma link_unique w p ls dclass a s x type sig n R : unique b d (v_key <$> w.(rrsets)) (v_data <$> w.(rrs)) R ->
  (forall y z, z ∈ R y -> is_Some ((v_data <$> w.(rrs)) !! z)) -> w.(rrs) !! x = None ->
  w.(rrsets) !! a = Some s -> owned_by (v_key s) ls -> s.(s_class) = dclass -> fits b d w ls dclass p type s.(s_type) -> joins p type s.(s_type) sig ->
  unique b d (v_key <$> w.(rrsets)) (<[x := (p, false, n)]> (v_data <$> w.(rrs))) (if sig then R else <[a := R a ++ [x]]> R).
Proof.
  intros [Q1 Q2] Hd Hx Hs Ho Hc Hfit Hj. split; [done|]. set (D := v_data <$> w.(rrs)) in *.
  assert (forall y z t, z ∈ R y -> sig_covers (<[x := (p, false, n)]> D) t z = sig_covers D t z) as Hcv.
  { intros y z t Hz. apply sig_covers_mono; [apply insert_subseteq; unfold D; by rewrite lookup_fmap, Hx|by eapply Hd]. }
  intros y y' k k' z Hy Hy' Hn Ec Et Et' Hz. destruct sig; [rewrite (Hcv y) by done; by eapply (Q2 y y' k k' z)|].
  destruct (decide (y = a)) as [->|Hya]; [|rewrite fn_lookup_insert_ne in Hz by done; rewrite (Hcv y) by done; by eapply (Q2 y y' k k' z)].
  rewrite fn_lookup_insert in Hz. apply elem_of_app in Hz as [Hz| ->%list_elem_of_singleton]; [rewrite (Hcv a) by done; by eapply (Q2 a y' k k' z)|].
  rewrite (view_lookup v_key _ _ _ Hs) in Hy. injection Hy as <-. cbn in Ec, Et. unfold joins in Hj. rewrite Et in Hj, Hfit. subst type.
  unfold fits in Hfit. rewrite !Z.eqb_refl in Hfit.
  unfold MsgOps.sig_covers. rewrite lookup_insert_eq. apply not_true_iff_false. intros Hcov%covers_spec.
  destruct (view_some _ _ _ _ Hy') as (s' & Hs' & <-). apply (Hfit _ Hcov Et' y' s' Hs'); [by eapply same_owner|by rewrite <- Hc|done].
Qed.

(** The records stay where they are, with one more. *)
Lemma link_located rec w p ls dclass a s x type sig n R S : located b d rec (v_key <$> w.(rrsets)) (v_data <$> w.(rrs)) R S ->
  w.(rrs) !! x = None -> w.(rrsets) !! a = Some s -> owned_by (v_key s) ls -> s.(s_class) = dclass -> rec p ls type dclass -> joins p type s.(s_type) sig ->
  located b d rec (v_key <$> w.(rrsets)) (<[x := (p, false, n)]> (v_data <$> w.(rrs))) (if sig then R else <[a := R a ++ [x]]> R) (if sig then <[a := S a ++ [x]]> S else S).
Proof.
  intros [O1 O2] Hx Hs (l2 & e2 & N2 & E2) Hc Hat Hj. pose proof (view_lookup v_key _ _ _ Hs) as Hk.
  assert (v_data <$> w.(rrs) ⊆ <[x := (p, false, n)]> (v_data <$> w.(rrs))) as HD by (apply insert_subseteq; by rewrite lookup_fmap, Hx).
  assert (rr_at b d rec (<[x := (p, false, n)]> (v_data <$> w.(rrs))) (v_key s) type x) as Hnew.
  { exists p, false, n, l2, e2, ls. rewrite lookup_insert_eq. split; [done|]. split; [done|]. split; [done|]. cbn [k_class v_key]. by rewrite Hc. }
  assert (forall y k z, (v_key <$> w.(rrsets)) !! y = Some k -> z ∈ R y -> rr_at b d rec (<[x := (p, false, n)]> (v_data <$> w.(rrs))) k k.(k_type) z) as C1
    by (intros y k z Hy Hz; eapply (rr_at_mono b d); [exact HD|by eapply O1]).
  assert (forall y k z, (v_key <$> w.(rrsets)) !! y = Some k -> z ∈ S y -> rr_at b d rec (<[x := (p, false, n)]> (v_data <$> w.(rrs))) k LDNS_RR_TYPE_RRSIG z) as C2
    by (intros y k z Hy Hz; eapply (rr_at_mono b d); [exact HD|by eapply O2]).
  destruct sig; split; try done; intros y k z Hy Hz; (destruct (decide (y = a)) as [->|Hya]; [|rewrite fn_lookup_insert_ne in Hz by done; by eauto]);
    rewrite fn_lookup_insert in Hz; apply elem_of_app in Hz as [Hz| ->%list_elem_of_singleton]; [by eauto| |by eauto|];
    rewrite Hk in Hy; injection Hy as <-.
  - destruct Hj as (-> & _). exact Hnew.
  - cbn [joins] in Hj. subst type. exact Hnew.
Qed.

(** ** The RR is added *)

Lemma fits_joins w ls dclass p type t : fits b d w ls dclass p type t ->
  joins p type t ((type =? LDNS_RR_TYPE_RRSIG) && negb (t =? LDNS_RR_TYPE_RRSIG)).
Proof.
  unfold fits, joins. destruct (Z.eqb_spec type LDNS_RR_TYPE_RRSIG) as [->|]; cbn [andb]; [|by intros ->].
  destruct (Z.eqb_spec t LDNS_RR_TYPE_RRSIG) as [->|]; cbn [negb]; [done|]. intros H. split; [done|]. split; [done|]. by apply covers_spec.
Qed.

(** The state with the RR skipped, or added. *)
Record added w w' (p q : Z) ls (type : Z) (dclass : list Z) L R S R' S' (section : sldns_pkt_section) : Prop := {
  d_good : good w' q L R' S' section;
  d_msg : w'.(msg) = w.(msg);
  d_key : v_key <$> w'.(rrsets) = v_key <$> w.(rrsets);
  d_data : v_data <$> w.(rrs) ⊆ v_data <$> w'.(rrs);
  d_short : forall n, short n R S -> short (n + 1) R' S';
  d_stays : stays w w' R S R' S';
  d_located : forall (rec : Z -> name -> Z -> list Z -> Prop), rec p ls type dclass -> located b d rec (v_key <$> w.(rrsets)) (v_data <$> w.(rrs)) R S ->
    located b d rec (v_key <$> w'.(rrsets)) (v_data <$> w'.(rrs)) R' S';
  d_new : present w' R' S' (mk_record section ls type dclass p) \/ left_out b d w' S' (mk_record section ls type dclass p);
  d_next : q = p + 6 + u16_at d (p + 4);
}.

Lemma skip_ok w p L R S section ls type dclass : good w p L R S section -> left_out b d w S (mk_record section ls type dclass p) ->
  exists rc w' q, skip_or_formerr w = Ok (rc, w') /\ w'.(pkt) = at_ q /\ 0 <= q <= lim /\ 0 <= rc <= 1 /\ (rc = 0 -> added w w' p q ls type dclass L R S R S section).
Proof.
  intros G Ho. pose proof (g_base _ _ _ _ _ _ _ _ _ _ G) as H. destruct (skip_ttl_rdata_at b d B p (b_pos _ _ _ _ _ _ _ _ _ H)) as (ok & q & E & Hq & _ & Hn).
  unfold skip_or_formerr. rewrite (st_bind_ok _ _ _ _ _ (on_pkt_ok b _ w p _ _ (b_pkt _ _ _ _ _ _ _ _ _ H) E)).
  eexists _, _, q. split; [reflexivity|]. split; [done|]. split; [done|]. split; [destruct ok; unfold LDNS_RCODE_FORMERR; lia|].
  destruct ok; [|done]. intros _.
  split; [by eapply good_move|done|done|done| |by apply stays_self|done|by right|by apply Hn]. intros n Hm. eapply short_mono; [exact Hm|lia].
Qed.

Lemma owned_data w p L R S y z : base w p L R S -> z ∈ R y -> is_Some ((v_data <$> w.(rrs)) !! z).
Proof.
  intros H Hz. destruct (own_lookup _ _ _ _ (b_lists _ _ _ _ _ _ _ _ _ H) y z (own_rrs _ _ _ _ Hz)) as [r Hr]. rewrite lookup_fmap, Hr. by eexists.
Qed.

Lemma add_rr_ok w p L R S section ls dclass a type : good w p L R S section -> ready p -> owner_ok b d w a ls dclass ->
  (forall s, w.(rrsets) !! a = Some s -> fits b d w ls dclass p type s.(s_type)) -> (long_sigs b d -> record_at b d p ls type dclass) ->
  exists rc w' q, add_rr_to_rrset a section type w = Ok (rc, w') /\ w'.(pkt) = at_ q /\ 0 <= q <= lim /\ 0 <= rc <= 2 /\
    (rc = 0 -> exists R' S', added w w' p q ls type dclass L R S R' S' section).
Proof.
  intros G Hr (s & Hs & Ho & Hc) Hfit Hat. specialize (Hfit s Hs). pose proof Hr as [P1 P2].
  pose proof (g_base _ _ _ _ _ _ _ _ _ _ G) as H. pose proof (b_pkt _ _ _ _ _ _ _ _ _ H) as Hpk. unfold add_rr_to_rrset. wstep.
  pose proof (view_lookup v_key _ _ _ Hs) as Hka. pose proof (view_lookup v_section _ _ _ Hs) as Hsa.
  assert (left_out b d w S (mk_record section ls type dclass p) -> exists rc w' q, skip_or_formerr w = Ok (rc, w') /\ w'.(pkt) = at_ q /\ 0 <= q <= lim /\ 0 <= rc <= 2 /\
    (rc = 0 -> exists R' S', added w w' p q ls type dclass L R S R' S' section)) as Hskip.
  { intros Hlo. destruct (skip_ok w p L R S section ls type dclass G Hlo) as (rc & w' & q & E & Hp' & Hq & Hrc & HA). exists rc, w', q.
    split; [done|]. split; [done|]. split; [done|]. split; [lia|]. intros Hz. exists R, S. by apply HA. }
  destruct (_ && _ && _) eqn:Esec.
  { apply Hskip. left. apply andb_prop in Esec as [[Hne%bool_decide_eq_true Ht%negb_true_iff%Z.eqb_neq]%andb_prop _]. split; [done|].
    exists a, (v_key s), s.(s_section). do 3 (split; [done|]). unfold fits in Hfit. rewrite eqb_false in Hfit by done. split; [done|]. split; [done|].
    destruct (g_upto _ _ _ _ _ _ _ _ _ _ G a _ Hsa) as [Hr1 Hr2]. change (v_section s) with (s_section s) in Hr1, Hr2. cbn [c_section]. destruct (decide (rank s.(s_section) = rank section)) as [Er|]; [|lia].
    destruct Hne. by apply rank_inj. }
  wstep.
  assert (p_current (at_ p) = Ok (p, at_ p)) as Ecur by (apply (p_current_at b d B); lia).
  assert (exists r, (if (m_qtype (msg w) =? LDNS_RR_TYPE_RRSIG) || (m_qtype (msg w) =? LDNS_RR_TYPE_ANY)
    then ttl ← on_pkt p_current; sig_is_double a ttl else mret false : W bool) w = Ok (r, w) /\ (r = true -> left_out b d w S (mk_record section ls type dclass p))) as (r & Er & Hdbl).
  { destruct (_ || _) eqn:Ek; [|by exists false]. rewrite (st_bind_ok _ _ _ _ _ (on_pkt_same b _ w p _ Hpk Ecur)).
    destruct (sig_is_double_ok w p L R S a s H Hr Hs) as (r & E & Hd). exists r. split; [exact E|]. intros Et. destruct (Hd Et) as (_ & x & ttl & n & Hx & HD & X).
    right. split; [exact Ek|]. exists a, (v_key s), x, ttl, n. do 3 (split; [done|]). split; [|done].
    by destruct (c_sigs _ _ _ _ _ _ (b_contents _ _ _ _ _ _ _ _ _ H) a (v_key s) x Hka Hx). }
  rewrite (st_bind_ok _ _ _ _ _ Er). destruct r; [by apply Hskip, Hdbl|]. cbv beta iota. destruct (alloc_answer w) as (ok & m & Em). rewrite (st_bind_ok _ _ _ _ _ Em).
  destruct ok; cbn [negb]; [|eexists _, _, p; split; [reflexivity|]; split; [done|]; split; [lia|]; split; [unfold LDNS_RCODE_SERVFAIL; lia|done]].
  apply (base_memory _ _ _ _ _ _ _ _ _ m) in H. set (w1 := upd_memory m w) in *.
  rewrite (st_bind_ok _ _ _ _ _ (on_pkt_same b _ w1 p _ Hpk Ecur)). cbv beta. set (x := fresh (dom w1.(rrs))).
  assert (w1.(rrs) !! x = None) as Hx by (apply not_elem_of_dom, is_fresh). set (rx := mk_rr p false 0 None). set (w2 := upd_rrs <[x := rx]> w1).
  rewrite (st_bind_ok _ _ _ x w2) by done. set (sig := (type =? _) && negb _).
  destruct (link_rr_ok w2 R S a s x rx sig) as (s1 & E1 & Er1 & El1); [apply lists_unowned; [apply H|by eapply fresh_unowned; [apply H|]]|done|apply lookup_insert_eq|].
  rewrite (st_bind_ok _ _ _ _ _ E1). cbv beta. set (w3 := set_lists _ _ _ _). assert (w3.(pkt) = at_ p) as Hp3 by done.
  destruct (calc_size_at b d B type p P1 P2) as (ok & n & q & E2 & Hq & Hok). rewrite (st_bind_ok _ _ _ _ _ (on_pkt_ok b _ w3 p _ _ Hp3 E2)). cbv beta iota.
  assert (w3.(rrs) !! x = Some rx) as Hr3.
  { cbn. rewrite link_last_other; [apply lookup_insert_eq|]. intros E. apply (fresh_unowned _ _ _ _ (b_lists _ _ _ _ _ _ _ _ _ H) x Hx a).
    pose proof (view_lookup v_lists _ _ _ Hs) as Ha. destruct sig; [apply own_sigs|apply own_rrs]; eapply part_last_in; try exact E;
      [by eapply (l_sigs _ _ _ _ (b_lists _ _ _ _ _ _ _ _ _ H))|by eapply (l_rrs _ _ _ _ (b_lists _ _ _ _ _ _ _ _ _ H))]. }
  wstep. destruct ok; cbn [negb].
  2:{ eexists _, _, q. split; [reflexivity|]. split; [done|]. split; [done|]. split; [unfold LDNS_RCODE_FORMERR; lia|done]. }
  destruct Hok as (Hnext & out & Hrd & Hn & _).
  erewrite st_bind_ok by (apply modify_rrset_ok; cbn; apply lookup_insert_eq).
  eexists 0, _, _. split; [reflexivity|]. split; [done|]. split; [done|]. split; [lia|]. intros _.
  exists (if sig then R else <[a := R a ++ [x]]> R), (if sig then <[a := S a ++ [x]]> S else S).
  set (s' := with_size (u64 (s_size s1 + n)) s1).
  match goal with |- added _ ?w' _ ?q _ _ _ _ _ _ _ _ _ => replace w' with (upd_pkt (at_ q) (set_lists a s' (<[x := with_rr_size n rx]>
      (link_last (<[x := rx]> w1.(rrs)) (pt_last (if sig then v_sigs s else v_rrs s)) x)) w1)) end.
  2:{ unfold upd_pkt, set_lists, upd_rrs, upd_rrsets; cbn. by rewrite insert_insert_eq. }
  assert (s_rest s' = s_rest s) as Er' by exact Er1.
  assert (v_lists s' = ((if sig then v_rrs s else part_add (v_rrs s) x, if sig then part_add (v_sigs s) x else v_sigs s), u64 (s.(s_size) + n))) as El'.
  { unfold v_lists in *. injection El1 as X1 X2 X3. cbn. rewrite <- X1, <- X2, X3. done. }
  pose proof (fits_joins _ _ _ _ _ _ Hfit) as Hj. fold sig in Hj.
  assert (v_key <$> <[a := s']> w1.(rrsets) = v_key <$> w.(rrsets)) as Ek by (apply fmap_insert_same with s; [done|by apply (v_rest v_key)]).
  assert (v_section <$> <[a := s']> w1.(rrsets) = v_section <$> w.(rrsets)) as Es by (apply fmap_insert_same with s; [done|by apply (v_rest v_section)]).
  split; [split| | | | | | | |]; cbn [msg rrsets rrs upd_pkt set_lists upd_rrs upd_rrsets].
  - eapply link_base; done.
  - rewrite Es. apply G.
  - rewrite Es. apply G.
  - intros Hk. rewrite Ek. unfold rx. rewrite link_data. eapply (link_unique w); try done; [by apply G|]. intros y z Hz. eapply owned_data; [apply G|done].
  - intros Hl. rewrite Ek. unfold rx. rewrite link_data. eapply (link_located _ w); try done; [by apply G|by apply Hat].
  - done.
  - exact Ek.
  - unfold rx. rewrite link_data. apply insert_subseteq. by rewrite lookup_fmap, Hx.
  - intros m' Hm y. destruct (Hm y), (Hm a). pose proof (zlen_app (R a) [x]). pose proof (zlen_app (S a) [x]). change (zlen [x]) with 1 in *.
    destruct (decide (y = a)) as [->|Hya]; destruct sig; rewrite ?fn_lookup_insert, ?fn_lookup_insert_ne by done; lia.
  - split; cbn [msg rrsets rrs upd_pkt set_lists upd_rrs upd_rrsets]; rewrite ?Ek, ?Es; try done.
    + intros y z Hz. left. destruct sig; [done|]. destruct (decide (y = a)) as [->|Hya]; [rewrite fn_lookup_insert; apply elem_of_app; by left|by rewrite fn_lookup_insert_ne].
    + intros y z Hz. destruct sig; [|done]. destruct (decide (y = a)) as [->|Hya]; [rewrite fn_lookup_insert; apply elem_of_app; by left|by rewrite fn_lookup_insert_ne].
    + unfold rx. rewrite link_data. apply insert_subseteq. by rewrite lookup_fmap, Hx.
  - intros rec Hrec HL. rewrite Ek. unfold rx. rewrite link_data. by eapply (link_located rec w).
  - left. exists a, x, n. split; [|unfold rx; cbn [rrs upd_pkt set_lists upd_rrs upd_rrsets]; rewrite link_data; by rewrite lookup_insert_eq].
    destruct sig; [right|left]; rewrite fn_lookup_insert; apply elem_of_app; right; by left.
  - done.
Qed.
End Rr.
