(* ===== verification/MsgSections.v ===== *)
(** * Parsing packets: the sections

    Every RR of a section keeps the invariant; so do the sections, in their order. *)

From stdpp Require Import functions.
From S2P Require Import Prelude Sbuffer Lookup3 Dname DnameCompare DnamePkt RrDef Msgparse MsgPkt MsgRdata MsgLists MsgOps MsgSigs MsgChange MsgFind MsgRr.

Section Sections.
Context (b : sldns_buffer) (d : list Z) (B : buf_ok b d) (le : bool) (raninit addr_ : Z).
Abbreviation lim := (b.(_limit)).
Abbreviation at_ p := (set_pos b p).
Abbreviation base := (base b d le raninit).
Abbreviation good := (good b d le raninit).
Abbreviation ready := (ready b).
Abbreviation vars_ok := (vars_ok b d).
Abbreviation owned_by := (owned_by b d).
Implicit Types (w : world) (R S : addr -> list addr) (L : list addr) (k : key) (v : prev_rr).

Lemma vars_view w w' v : v_key <$> w'.(rrsets) = v_key <$> w.(rrsets) -> vars_ok w v -> vars_ok w' v.
Proof.
  intros E. unfold MsgFind.vars_ok. destruct (v_rrset v) as [a|]; [|done]. intros (s & o1 & o2 & ls1 & e1 & ls2 & e2 & Hs & Ht & Hc & X).
  apply (view_lookup v_key) in Hs. rewrite <- E in Hs. destruct (view_some _ _ _ _ Hs) as (s' & Hs' & Ek).
  exists s', o1, o2, ls1, e1, ls2, e2. pose proof (f_equal k_type Ek) as E1. pose proof (f_equal k_class Ek) as E2. cbn in E1, E2.
  rewrite E1, E2, Ek. done.
Qed.

(** ** A new RRset *)

Lemma new_unique (K : gmap addr key) D R a k ls : unique b d K D R -> R a = [] -> K !! a = None -> owned_by k ls ->
  (forall y k', K !! y = Some k' -> ~ has_key b d k' ls k.(k_type) k.(k_class) k.(k_flags)) ->
  (k.(k_type) <> LDNS_RR_TYPE_RRSIG -> forall y k' x, K !! y = Some k' -> owned_by k' ls -> k'.(k_class) = k.(k_class) ->
     k'.(k_type) = LDNS_RR_TYPE_RRSIG -> x ∈ R y -> sig_covers b d D k.(k_type) x = false) -> unique b d (<[a := k]> K) D R.
Proof.
  intros [Q1 Q2] HR Ha Ho Hno Hsig.
  assert (forall y k', K !! y = Some k' -> same_name b d k' k -> k'.(k_type) = k.(k_type) -> k'.(k_class) = k.(k_class) -> k'.(k_flags) = k.(k_flags) -> False) as Hne.
  { intros y k' Hy Hn Et Ec Ef. apply (Hno y k' Hy). split; [done|]. split; [done|]. split; [done|]. eapply (same_owner b d k k'); [by apply same_sym|done]. }
  split.
  - intros y y' k1 k2 Hy Hy' Hn Et Ec Ef. destruct (decide (y = a)) as [->|H1], (decide (y' = a)) as [->|H2]; [done|..].
    + rewrite lookup_insert_eq in Hy. injection Hy as <-. rewrite lookup_insert_ne in Hy' by done. exfalso. by apply (Hne y' k2 Hy'); [apply same_sym|..].
    + rewrite lookup_insert_eq in Hy'. injection Hy' as <-. rewrite lookup_insert_ne in Hy by done. exfalso. by apply (Hne y k1 Hy).
    + rewrite lookup_insert_ne in Hy, Hy' by done. by eapply Q1.
  - intros y y' k1 k2 x Hy Hy' Hn Ec Et Et' Hx. destruct (decide (y = a)) as [->|H1]; [rewrite HR in Hx; by apply not_elem_of_nil in Hx|].
    rewrite lookup_insert_ne in Hy by done. destruct (decide (y' = a)) as [->|H2]; [|rewrite lookup_insert_ne in Hy' by done; by eapply (Q2 y y' k1 k2)].
    rewrite lookup_insert_eq in Hy'. injection Hy' as <-. eapply (Hsig Et' y k1); try done. eapply (same_owner b d k k1); [by apply same_sym|done].
Qed.

(** The RRset for the RR of [q], which was not there. *)
Lemma new_ok w p L R S section o ls e type v : good w p L R S section -> 1 <= rank section -> name_at b d o ls e ->
  v.(v_rrset) = None -> result_ok b d le raninit w R p o ls type v.(v_dclass) v ->
  exists r w', (incr_rrsets section 1;; new_rrset o (zlen (wire ls)) type v.(v_dclass) v.(v_hash) v.(v_flags) section) w = Ok (r, w') /\ w'.(pkt) = at_ p /\
    match r with
    | None => True
    | Some a => good w' p (L ++ [a]) R S section /\ m_head w'.(msg) = m_head w.(msg) /\ owner_ok b d w' a ls v.(v_dclass) /\
        (forall s, w'.(rrsets) !! a = Some s -> fits b d w' ls v.(v_dclass) p type s.(s_type)) /\
        vars_ok w' (mk_prev v.(v_hash) v.(v_flags) v.(v_dname_first) v.(v_dname_last) v.(v_dnamelen) v.(v_type) v.(v_dclass) (Some a)) /\
        stays w w' R S R S /\ forall rec, located b d rec (v_key <$> w.(rrsets)) (v_data <$> w.(rrs)) R S -> located b d rec (v_key <$> w'.(rrsets)) (v_data <$> w'.(rrs)) R S
    end.
Proof.
  intros G Hsec N Ev Hres. unfold result_ok in Hres. rewrite Ev in Hres. destruct Hres as (Hk & Et & _ & E1 & E2 & Hno & Hfit & Hsig).
  rewrite (st_bind_ok _ _ _ _ _ (incr_ok _ _ _ Hsec)). cbv beta. set (w1 := upd_msg _ w). pose proof (g_base _ _ _ _ _ _ _ _ _ _ G) as H.
  assert (base w1 p L R S) as H1 by (apply base_msg; [done|..]; intros m; [apply add_rrsets_table|apply add_rrsets_first|apply add_rrsets_last]).
  destruct (new_rrset_ok b d le raninit w1 p L R S o (zlen (wire ls)) type v.(v_dclass) v.(v_hash) v.(v_flags) section H1 Hk)
    as (r & w' & E & Hp & Hr). exists r, w'. split; [exact E|]. split; [done|]. destruct r as [a|]; [|done].
  destruct Hr as (H2 & Ha & Err & Em & Ek & Es). cbn in Ha, Err, Ek, Es. set (k := mk_key _ _ _ _ _) in Ek.
  assert (owned_by k ls) as Ho by (by exists ls, e).
  assert ((v_key <$> w'.(rrsets)) !! a = Some k) as Hka by (by rewrite Ek, lookup_insert_eq).
  destruct (view_some _ _ _ _ Hka) as (s & Hs & Eks). pose proof (f_equal k_type Eks) as Ets. pose proof (f_equal k_class Eks) as Ecs.
  pose proof (f_equal k_dname Eks) as Eds. cbn in Ets, Ecs, Eds. assert (owned_by (v_key s) ls) as Hos by (by rewrite Eks).
  assert (forall rec, located b d rec (v_key <$> w.(rrsets)) (v_data <$> w.(rrs)) R S -> located b d rec (v_key <$> w'.(rrsets)) (v_data <$> w'.(rrs)) R S) as Hloc.
  { intros rec [O1 O2]. rewrite Ek, Err. destruct (base_unused _ _ _ _ _ _ _ _ _ a H Ha) as [HRa HSa].
    split; intros y k' x Hy Hx; (destruct (decide (y = a)) as [->|Hya]; [rewrite ?HRa, ?HSa in Hx; by apply not_elem_of_nil in Hx|]);
      rewrite lookup_insert_ne in Hy by done; by eauto. }
  assert (forall y k', (v_key <$> w.(rrsets)) !! y = Some k' -> y <> a) as Hold by (intros y k' Hy ->; by rewrite lookup_fmap, Ha in Hy).
  split; [split|split; [|split; [|split; [|split; [|split; [|exact Hloc]]]]]].
  - exact H2.
  - rewrite Es. eapply counts_rest; [exact Em|]. cbn. apply counts_new; [apply G|by rewrite lookup_fmap, Ha|done].
  - rewrite Es. apply upto_insert; [apply G|]. lia.
  - intros Hkt. assert (keeps_twice w.(msg) = false) as Hkt0.
    { pose proof (f_equal keeps_twice (eq_trans (head_rest _ _ Em) (head_add section 1 _))) as E0. unfold keeps_twice in *. cbn in E0. by rewrite <- E0. }
    rewrite Ek, Err. destruct (base_unused _ _ _ _ _ _ _ _ _ a H Ha) as [HRa _]. apply (new_unique _ _ _ a k ls); try done.
    + by apply G. + by rewrite lookup_fmap, Ha.
    + intros y k' Hy Hkey. destruct (view_some _ _ _ _ Hy) as (s' & Hs' & <-). by apply (Hno y s').
    + intros Hty y k' x Hy Hown Hc Ht Hx. destruct (view_some _ _ _ _ Hy) as (s' & Hs' & <-). by eapply (Hsig Hty Hkt0 y s').
  - intros Hl. by apply Hloc, G.
  - rewrite (head_rest _ _ Em). apply head_add.
  - by exists s.
  - intros s' Hs'. rewrite Hs in Hs'. injection Hs' as <-. rewrite Ets. destruct (decide (type = LDNS_RR_TYPE_RRSIG)) as [->|Hty].
    + specialize (Hfit eq_refl). unfold fits in *. rewrite !Z.eqb_refl in *. intros t Hcov Hne y s' Hs' Hown Hc Ht.
      apply (view_lookup v_key) in Hs'. rewrite Ek in Hs'. destruct (decide (y = a)) as [->|Hya].
      * rewrite lookup_insert_eq in Hs'. apply (f_equal (from_option k_type 0)) in Hs'. cbn in Hs'. congruence.
      * rewrite lookup_insert_ne in Hs' by done. destruct (view_some _ _ _ _ Hs') as (s0 & Hs0 & E0).
        pose proof (f_equal k_type E0) as X1. pose proof (f_equal k_class E0) as X2. cbn in X1, X2.
        apply (Hfit t Hcov Hne y s0 Hs0); [by rewrite E0|congruence|congruence].
    + unfold fits. by rewrite eqb_false.
  - rewrite E1, E2, Et, <- Ets, <- Ecs. rewrite <- Eds at 1. by eapply vars_found.
  - split; rewrite ?Ek, ?Es, ?Err; try done; [by left|intros y k' Hy _..]; (rewrite lookup_insert_ne; [done|by eapply not_eq_sym, Hold]).
Qed.

(** ** One RR *)

(** The state after [k] RRs from position [p] on, at most [n] RRsets more. *)
Record parsed w w' (p : Z) (k : nat) (q : Z) L R S L' R' S' (section : sldns_pkt_section) (n : Z) : Prop := {
  p_good : good w' q L' R' S' section;
  p_head : m_head w'.(msg) = m_head w.(msg);
  p_len : zlen L' <= zlen L + n;
  p_short : forall m, short m R S -> short (m + n) R' S';
  p_placed : long_sigs b d -> exists l, records b d section p k l q /\ forall T, placed b d T w R S -> placed b d (T ++ l) w' R' S';
}.

(** With one more record. *)
Lemma placed_one T w w' p q ls type dclass L R S R' S' section : added b d le raninit w w' p q ls type dclass L R S R' S' section ->
  placed b d T w R S -> placed b d (T ++ [mk_record section ls type dclass p]) w' R' S'.
Proof.
  intros A [P1 P2]. split.
  - apply (d_located _ _ _ _ _ _ _ _ _ _ _ _ _ _ _ _ _ A); [exists section; apply elem_of_app; right; by left|].
    eapply located_more; [|exact P1]. intros ttl l t c (s & Hs). exists s. apply elem_of_app. by left.
  - intros r [Hr| ->%list_elem_of_singleton]%elem_of_app; [|by apply A].
    destruct (P2 r Hr); [left; by eapply present_stays; [apply A|]|right; eapply left_out_stays; [apply A| |done]].
    by rewrite (d_msg _ _ _ _ _ _ _ _ _ _ _ _ _ _ _ _ _ A).
Qed.

Lemma add_ok w w1 p q L R0 S0 L1 R S section a o ls e dclass type v n : good w1 q L1 R S section -> ready q -> (long_sigs b d -> record_at b d q ls type dclass) -> owner_ok b d w1 a ls dclass ->
  (forall s, w1.(rrsets) !! a = Some s -> fits b d w1 ls dclass q type s.(s_type)) -> vars_ok w1 v -> m_head w1.(msg) = m_head w.(msg) -> zlen L1 <= zlen L + n ->
  (forall m, short m R0 S0 -> short (m + n - 1) R S) -> (forall T, placed b d T w R0 S0 -> placed b d T w1 R S) ->
  (long_sigs b d -> p = o /\ name_at b d o ls e /\ q = o + e + 4 /\ type = u16_at d (o + e) /\ dclass = ztake 2 (zdrop (o + e + 2) d)) ->
  exists r w' q', (r ← add_rr_to_rrset a section type; mret (if r =? 0 then None else Some r, v) : W (option Z * prev_rr)) w1 = Ok ((r, v), w') /\ w'.(pkt) = at_ q' /\ 0 <= q' <= lim /\
    match r with
    | Some rc => 1 <= rc <= 2
    | None => exists R' S', vars_ok w' v /\ parsed w w' p 1 q' L R0 S0 L1 R' S' section n
    end.
Proof.
  intros G Hr Hat How Hfit Hv Hh Hn Hsh HT Hrec. destruct (add_rr_ok b d B le raninit w1 q L1 R S section ls dclass a type G Hr How Hfit Hat) as (rc & w' & q' & E & Hp & Hq & Hrc & Hdone).
  rewrite (st_bind_ok _ _ _ _ _ E). eexists _, w', q'. split; [reflexivity|]. split; [done|]. split; [done|]. zcase; [|lia]. destruct Hdone as (R' & S' & A); [done|].
  exists R', S'. split; [eapply vars_view; [apply A|done]|]. split; [apply A|by rewrite (d_msg _ _ _ _ _ _ _ _ _ _ _ _ _ _ _ _ _ A)|done| |].
  - intros m Hm. replace (m + n) with (m + n - 1 + 1) by lia. apply (d_short _ _ _ _ _ _ _ _ _ _ _ _ _ _ _ _ _ A). by apply Hsh.
  - intros Hl. destruct (Hrec Hl) as (-> & N & -> & -> & ->). pose proof (d_next _ _ _ _ _ _ _ _ _ _ _ _ _ _ _ _ _ A) as Hnext.
    eexists. split; [|intros T HT'; by eapply placed_one; [exact A|apply HT]]. rewrite Hnext. econstructor; [exact N|lia|constructor].
Qed.

Lemma parse_rr_ok w p L R S section v : good w p L R S section -> vars_ok w v -> 1 <= rank section ->
  exists r v' w' q, parse_rr le raninit addr_ section v w = Ok ((r, v'), w') /\ w'.(pkt) = at_ q /\ 0 <= q <= lim /\
    match r with
    | Some rc => 1 <= rc <= 2
    | None => exists L' R' S', vars_ok w' v' /\ parsed w w' p 1 q L R S L' R' S' section 2
    end.
Proof.
  intros G Hv Hsec. pose proof (g_base _ _ _ _ _ _ _ _ _ _ G) as H. pose proof (b_pkt _ _ _ _ _ _ _ _ _ H) as Hpk. pose proof (b_pos _ _ _ _ _ _ _ _ _ H) as Hp.
  unfold parse_rr. kstep ltac:(by apply (p_current_at b d B)). rewrite upd_pkt_self by done.
  destruct (p_dname_len_at b d B p Hp) as [(ls & e & N & E)|(q & E & Hq & _)].
  2:{ kstep ltac:(exact E). eexists _, _, _, _. split; [reflexivity|]. split; [done|]. split; [lia|]. unfold LDNS_RCODE_FORMERR. lia. }
  kstep ltac:(exact E). destruct (name_at_range b d B _ _ _ N) as (_ & He & Hpe & _). pose proof (zlen_wire_pos ls). rewrite eqb_false by lia.
  kstep ltac:(apply (p_remaining_at b d B); lia). zcase; [eexists _, _, _, _; split; [reflexivity|]; split; [done|]; split; [lia|]; unfold LDNS_RCODE_FORMERR; lia|].
  kstep ltac:(apply (p_read_u16_at b d B); lia). kstep ltac:(apply (p_read_at b d B 2); lia).
  set (type := u16_at d (p + e)). set (dclass := ztake 2 _). set (q := p + e + 2 + 2).
  match goal with |- context [upd_pkt (at_ q) ?w1] => change (upd_pkt (at_ q) w1) with (upd_pkt (at_ q) w) end.
  assert (class_ok dclass) as Hc. { pose proof (lim_zlen b d B). split; [apply zlen_ztake; rewrite zlen_zdrop; lia|apply bytes_ok_ztake, bytes_ok_zdrop, B]. }
  assert (ready q) as Hq by (split; lia).
  assert (good (upd_pkt (at_ q) w) q L R S section) as G1 by (eapply good_move; [done|lia]).
  destruct (find_rrset_ok b d B le raninit addr_ _ q L R S section p ls e type dclass v G1 Hq N Hc (u16_at_range b d B _) Hv Hsec) as (rc & v1 & w1 & q1 & E1 & Hp1 & Hq1 & Hqq & Hres).
  assert (long_sigs b d -> record_at b d q1 ls type dclass) as Hat.
  { intros Hl. rewrite Hqq by done. exists p, e. split; [done|]. split; [unfold q; lia|]. done. }
  assert (long_sigs b d -> p = p /\ name_at b d p ls e /\ q1 = p + e + 4 /\ type = u16_at d (p + e) /\ dclass = ztake 2 (zdrop (p + e + 2) d)) as Hrec.
  { intros Hl. rewrite Hqq by done. split; [done|]. split; [done|]. split; [unfold q; lia|done]. }
  rewrite (st_bind_ok _ _ _ _ _ E1). cbv beta iota.
  destruct Hres as [->|(-> & L1 & R1 & S1 & K & Hv1 & Hres)]; [eexists _, _, _, _; split; [reflexivity|]; split; [done|]; split; [destruct Hq1; lia|]; unfold LDNS_RCODE_SERVFAIL; lia|].
  assert (forall T, placed b d T w R S -> placed b d T w1 R1 S1) as HT1.
  { intros T [P1 P2]. eapply (placed_stays b d T (upd_pkt (at_ q) w)); [apply K|by apply (t_head _ _ _ _ _ _ _ _ _ _ _ _ _ _ K)|apply K|by split]. }
  change (1 =? 0) with false. cbv iota. destruct (v_rrset v1) as [a|] eqn:Ea.
  - wstep. assert (vars_ok w1 (mk_prev (v_hash v1) (v_flags v1) (v_dname_first v1) (v_dname_last v1) (v_dnamelen v1) (v_type v1) (v_dclass v1) (Some a))) as Hv1'.
    { rewrite <- Ea. by destruct v1. }
    unfold result_ok in Hres. rewrite Ea in Hres. destruct Hres as [How Hfit].
    destruct (add_ok w w1 p q1 L R S L1 R1 S1 section a p ls e dclass type _ 2 (t_good _ _ _ _ _ _ _ _ _ _ _ _ _ _ K) Hq1 Hat How Hfit Hv1') as (r & w2 & q2 & E2 & Hp2 & Hr2 & Hdone);
      [by rewrite (t_head _ _ _ _ _ _ _ _ _ _ _ _ _ _ K)|pose proof (t_len _ _ _ _ _ _ _ _ _ _ _ _ _ _ K); lia|intros z Hz; apply (short_mono z); [by apply (t_short _ _ _ _ _ _ _ _ _ _ _ _ _ _ K)|lia]|exact HT1|exact Hrec|].
    rewrite E2. eexists _, _, w2, q2. split; [reflexivity|]. split; [done|]. split; [done|]. destruct r; [done|]. destruct Hdone as (R' & S' & ? & ?). by exists L1, R', S'.
  - assert (v_dclass v1 = dclass) as Ed. { unfold result_ok in Hres. rewrite Ea in Hres. apply Hres. }
    rewrite <- Ed in Hres, Hat, Hrec |- *.
    destruct (new_ok w1 q1 L1 R1 S1 section p ls e type v1 (t_good _ _ _ _ _ _ _ _ _ _ _ _ _ _ K) Hsec N Ea Hres) as (r & w2 & E2 & Hp2 & Hnew).
    rewrite (st_bind_ok _ _ _ _ _ E2). cbv beta. destruct r as [a|].
    2:{ eexists _, _, _, _. split; [reflexivity|]. split; [done|]. split; [destruct Hq1; lia|]. unfold LDNS_RCODE_SERVFAIL. lia. }
    destruct Hnew as (G2 & Hh & How & Hfit & Hv2 & Y2 & Hloc2).
    destruct (add_ok w w2 p q1 L R S (L1 ++ [a]) R1 S1 section a p ls e (v_dclass v1) type _ 2 G2 Hq1 Hat How Hfit Hv2) as (r & w3 & q3 & E3 & Hp3 & Hr3 & Hdone).
    { rewrite Hh. by rewrite (t_head _ _ _ _ _ _ _ _ _ _ _ _ _ _ K). }
    { rewrite zlen_app. pose proof (t_len _ _ _ _ _ _ _ _ _ _ _ _ _ _ K). change (zlen [a]) with 1. lia. }
    { intros z Hz; apply (short_mono z); [by apply (t_short _ _ _ _ _ _ _ _ _ _ _ _ _ _ K)|lia]. }
    { intros T HT. eapply placed_stays; [exact Y2|exact Hh|exact Hloc2|by apply HT1]. }
    { exact Hrec. }
    rewrite E3. eexists _, _, w3, q3. split; [reflexivity|]. split; [done|]. split; [done|]. destruct r; [done|]. destruct Hdone as (R' & S' & ? & ?). by exists (L1 ++ [a]), R', S'.
Qed.

(** ** A section *)

Lemma section_loop_ok n : forall w0 w p0 (k : nat) p L0 R0 S0 L R S section v m, good w p L R S section -> vars_ok w v -> 1 <= rank section ->
  m_head w.(msg) = m_head w0.(msg) -> zlen L <= zlen L0 + m -> (forall z, short z R0 S0 -> short (z + m) R S) ->
  (long_sigs b d -> exists l, records b d section p0 k l p /\ forall T, placed b d T w0 R0 S0 -> placed b d (T ++ l) w R S) ->
  exists rc w' q, parse_section_loop le raninit addr_ n section v w = Ok (rc, w') /\ w'.(pkt) = at_ q /\ 0 <= q <= lim /\ 0 <= rc <= 2 /\
    (rc = 0 -> exists L' R' S', parsed w0 w' p0 (k + n) q L0 R0 S0 L' R' S' section (m + 2 * Z.of_nat n)).
Proof.
  induction n as [|n IH]; intros w0 w p0 k p L0 R0 S0 L R S section v m G Hv Hsec Hh Hl Hsh HT; cbn [parse_section_loop].
  - exists 0, w, p. split; [done|]. split; [apply G|]. split; [apply G|]. split; [lia|]. intros _. exists L, R, S. rewrite Nat.add_0_r. split; [done|done|lia| |exact HT]. intros z Hk. apply (short_mono (z + m)); [by apply Hsh|lia].
  - destruct (parse_rr_ok w p L R S section v G Hv Hsec) as (r & v' & w1 & q1 & E & Hp & Hq & Hres). rewrite (st_bind_ok _ _ _ _ _ E). cbv beta iota.
    destruct r as [rc|]; [exists rc, w1, q1; split; [done|]; split; [done|]; split; [done|]; split; [lia|lia]|].
    destruct Hres as (L1 & R1 & S1 & Hv1 & [G1 Hh1 Hl1 Hsh1 HT1]).
    destruct (IH w0 w1 p0 (k + 1)%nat q1 L0 R0 S0 L1 R1 S1 section v' (m + 2) G1 Hv1 Hsec ltac:(congruence) ltac:(lia)) as (rc & w' & q & E' & Hp' & Hq' & Hrc & Hdone).
    { intros z Hk. replace (z + (m + 2)) with (z + m + 2) by lia. by apply Hsh1, Hsh. }
    { intros Hlong. destruct (HT Hlong) as (l & H1 & H2), (HT1 Hlong) as (l1 & H3 & H4). exists (l ++ l1). split; [by eapply records_app|].
      intros T HT'. rewrite app_assoc. by apply H4, H2. }
    exists rc, w', q. do 4 (split; [done|]). intros Hz. destruct (Hdone Hz) as (L' & R' & S' & [G' Hh' Hl' Hsh' HT']). exists L', R', S'. split; [done|done|lia| |by replace (k + Datatypes.S n)%nat with (k + 1 + n)%nat by lia].
    intros z Hk. replace (z + (m + 2 * Z.of_nat (Datatypes.S n))) with (z + (m + 2 + 2 * Z.of_nat n)) by lia. by apply Hsh'.
Qed.

Lemma good_later w p L R S s s' : good w p L R S s -> rank s <= rank s' -> good w p L R S s'.
Proof. intros [G1 G2 G3 G4 G5] Hr. split; try done. intros a t Ha. specialize (G3 a t Ha). lia. Qed.

Lemma parse_section_ok w p L R S s0 section n : good w p L R S s0 -> rank s0 <= rank section -> 1 <= rank section -> 0 <= n ->
  exists rc w' q, parse_section le raninit addr_ section n w = Ok (rc, w') /\ w'.(pkt) = at_ q /\ 0 <= q <= lim /\ 0 <= rc <= 2 /\
    (rc = 0 -> exists L' R' S', parsed w w' p (Z.to_nat n) q L R S L' R' S' section (2 * n)).
Proof.
  intros G Hs Hsec Hn. apply (good_later _ _ _ _ _ s0 section) in G; [|done]. pose proof (g_base _ _ _ _ _ _ _ _ _ _ G) as H.
  pose proof (b_pkt _ _ _ _ _ _ _ _ _ H) as Hpk. pose proof (b_pos _ _ _ _ _ _ _ _ _ H) as Hp. unfold parse_section. zcase.
  { exists 0, w, p. do 3 (split; [done|]). split; [lia|]. intros _. exists L, R, S. split; [done|done|lia| |].
    - intros z Hk. by apply (short_mono z); [|lia].
    - intros _. exists []. split; [subst n; constructor|]. intros T HT. by rewrite app_nil_r. }
  kstep ltac:(by apply (p_remaining_at b d B)). rewrite upd_pkt_self by done.
  zcase; [exists LDNS_RCODE_FORMERR, w, p; do 3 (split; [done|]); unfold LDNS_RCODE_FORMERR; split; [lia|done]|].
  destruct (section_loop_ok (Z.to_nat n) w w p 0 p L R S L R S section (mk_prev 0 0 None None 0 0 [0; 0] None) 0 G) as (rc & w' & q & E & Hp' & Hq & Hrc & Hdone);
    [done|done|done|lia|intros k Hk; by rewrite Z.add_0_r|intros _; exists []; split; [constructor|intros T HT; by rewrite app_nil_r]|].
  exists rc, w', q. do 4 (split; [done|]). intros Hz. destruct (Hdone Hz) as (L' & R' & S' & [X1 X2 X3 X4 X5]). exists L', R', S'. split; [done|done|lia| |exact X5].
  intros z Hk. replace (z + 2 * n) with (z + (0 + 2 * Z.of_nat (Z.to_nat n))) by lia. by apply X4.
Qed.
End Sections.
