(* ===== verification/MsgPacket.v ===== *)
(** * Parsing packets: the whole packet

    [parse_packet] ends for every packet, and what it leaves in [msg]. *)

From stdpp Require Import functions.
From S2P Require Import Prelude Sbuffer Lookup3 Dname DnameCompare DnamePkt RrDef Msgparse MsgMemory MsgPkt MsgRdata MsgLists MsgOps MsgSigs MsgChange MsgFind MsgRr MsgSections.

(** ** Totals *)

Definition total (Sec : gmap addr sldns_pkt_section) : Z :=
  count_sec Sec LDNS_SECTION_ANSWER + count_sec Sec LDNS_SECTION_AUTHORITY + count_sec Sec LDNS_SECTION_ADDITIONAL.

Lemma count_total Sec : (forall a s, Sec !! a = Some s -> 1 <= rank s) -> total Sec = Z.of_nat (size Sec).
Proof.
  induction Sec as [|a s Sec Ha IH] using map_ind; intros H; [done|]. unfold total in *. rewrite !count_new, map_size_insert_None by done.
  assert (1 <= rank s) as Hr by (apply (H a); apply lookup_insert_eq).
  specialize (IH (fun x t Hx => H x t ltac:(rewrite lookup_insert_ne by congruence; exact Hx))).
  destruct (rank_cases s Hr) as [-> | [-> | -> ]]; repeat case_decide; try done; lia.
Qed.

Lemma count_nonneg Sec s : 0 <= count_sec Sec s.
Proof. unfold count_sec. lia. Qed.

Lemma rrset_list_size {V} (M : gmap addr V) L : NoDup L -> (forall a, a ∈ L <-> is_Some (M !! a)) -> zlen L = Z.of_nat (size M).
Proof.
  intros Hn Hd. unfold zlen. f_equal. rewrite <- size_dom, <- (size_list_to_set (C := gset addr)) by done. f_equiv.
  apply set_eq. intros x. rewrite elem_of_list_to_set, elem_of_dom. apply Hd.
Qed.

Section Packet.
Context (b : sldns_buffer) (d : list Z) (B : buf_ok b d) (le : bool) (raninit addr_ : Z).
Abbreviation lim := (b.(_limit)).
Abbreviation at_ p := (set_pos b p).
Abbreviation base := (base b d le raninit).
Abbreviation good := (good b d le raninit).
Implicit Types (w : world) (R S : addr -> list addr) (L : list addr) (k : key) (v : prev_rr).

(** ** The question *)

(** The header at [p]. *)
Definition header_ok (p : Z) (m : msg_parse) : Prop :=
  m.(m_id) = ztake 2 (zdrop p d) /\ m.(m_flags) = u16_at d (p + 2) /\ m.(m_qdcount) = u16_at d (p + 4) /\
  m.(m_ancount) = u16_at d (p + 6) /\ m.(m_nscount) = u16_at d (p + 8) /\ m.(m_arcount) = u16_at d (p + 10).

(** The question after the header at [p]. *)
Definition question_ok (p : Z) (m : msg_parse) : Prop :=
  m.(m_qdcount) = 0 /\ m.(m_qname) = None /\ m.(m_qname_len) = 0 /\ m.(m_qtype) = 0 /\ m.(m_qclass) = 0 \/
  m.(m_qdcount) = 1 /\ exists ls e, name_at b d (p + 12) ls e /\ m.(m_qname) = Some (p + 12) /\ m.(m_qname_len) = zlen (wire ls) /\
    m.(m_qtype) = u16_at d (p + 12 + e) /\ m.(m_qclass) = u16_at d (p + 12 + e + 2).

(** Where the records begin, for a header at [p]. *)
Definition question_end (p : Z) (m : msg_parse) (q : Z) : Prop :=
  m.(m_qdcount) = 0 /\ q = p + 12 \/ m.(m_qdcount) = 1 /\ exists ls e, name_at b d (p + 12) ls e /\ q = p + 12 + e + 4.

(** The records of the packet with the header at [p]: as many in each section as the header says,
    one after another.  Only the last one that is announced may be missing, if it is the only
    additional one. *)
Definition packet_records (p : Z) (m : msg_parse) (T : list rr_record) : Prop :=
  exists q0 q1 q2 q3 l1 l2 l3, question_end p m q0 /\
    records b d LDNS_SECTION_ANSWER q0 (Z.to_nat m.(m_ancount)) l1 q1 /\
    records b d LDNS_SECTION_AUTHORITY q1 (Z.to_nat m.(m_nscount)) l2 q2 /\
    (records b d LDNS_SECTION_ADDITIONAL q2 (Z.to_nat m.(m_arcount)) l3 q3 \/ m.(m_arcount) = 1 /\ q2 = lim /\ q3 = lim /\ l3 = []) /\
    T = l1 ++ l2 ++ l3.

Lemma header_head p m m' : m_head m' = m_head m -> header_ok p m -> header_ok p m'.
Proof.
  intros E. unfold header_ok. pose proof (f_equal m_id E) as E1. pose proof (f_equal m_flags E) as E2. pose proof (f_equal m_qdcount E) as E3.
  pose proof (f_equal m_ancount E) as E4. pose proof (f_equal m_nscount E) as E5. pose proof (f_equal m_arcount E) as E6.
  cbn in E1, E2, E3, E4, E5, E6. by rewrite E1, E2, E3, E4, E5, E6.
Qed.

Lemma question_head p m m' : m_head m' = m_head m -> question_ok p m -> question_ok p m'.
Proof.
  intros E. unfold question_ok. pose proof (f_equal m_qdcount E) as E1. pose proof (f_equal m_qname E) as E2. pose proof (f_equal m_qname_len E) as E3.
  pose proof (f_equal m_qtype E) as E4. pose proof (f_equal m_qclass E) as E5.
  cbn in E1, E2, E3, E4, E5. by rewrite E1, E2, E3, E4, E5.
Qed.

(** No RRsets yet. *)
Record start (w : world) (p : Z) : Prop := {
  z_pkt : w.(pkt) = at_ p;
  z_pos : 0 <= p <= lim;
  z_rrsets : w.(rrsets) = ∅;
  z_rrs : w.(rrs) = ∅;
  z_table : w.(msg).(m_hashtable) = replicate (Z.to_nat PARSE_TABLE_SIZE) None;
  z_list : w.(msg).(m_rrset_first) = None /\ w.(msg).(m_rrset_last) = None;
  z_counts : w.(msg).(m_an_rrsets) = 0 /\ w.(msg).(m_ns_rrsets) = 0 /\ w.(msg).(m_ar_rrsets) = 0;
}.

Lemma start_good w p section : start w p -> good w p [] (fun _ => []) (fun _ => []) section.
Proof.
  intros [Z1 Z2 Z3 Z4 Z5 [Z6 Z7] (Z8 & Z9 & Z10)]. split; [split|split|..]; rewrite ?Z3, ?Z4, ?Z5, ?Z6, ?Z7, ?Z8, ?Z9, ?Z10, ?fmap_empty; try done.
  - by split; [..|constructor].
  - intros a. rewrite lookup_empty. split; [by intros ?%not_elem_of_nil|by intros []].
  - split; [by rewrite length_replicate|]. intros i q Hq. apply lookup_replicate in Hq as [-> _]. exists []. split; [done|]. split; [constructor|].
    intros x. split; [by intros ?%not_elem_of_nil|]. intros (v & Hv & _). by rewrite lookup_empty in Hv.
  - split; try done; intros *; rewrite ?lookup_empty; try done; [constructor|by intros ?%not_elem_of_nil].
Qed.

Lemma query_self w p (rc : Z) : w.(pkt) = at_ p -> (mret rc : W Z) w
  = Ok (rc, upd_pkt (at_ p) (upd_msg (with_query w.(msg).(m_qname) w.(msg).(m_qname_len) w.(msg).(m_qtype) w.(msg).(m_qclass)) w)).
Proof. intros <-. by destruct w as [? [] ? ? ?]. Qed.

Lemma parse_query_ok w p : w.(pkt) = at_ (p + 12) -> 0 <= p + 12 <= lim -> 0 <= w.(msg).(m_qdcount) ->
  w.(msg).(m_qname) = None -> w.(msg).(m_qname_len) = 0 -> w.(msg).(m_qtype) = 0 -> w.(msg).(m_qclass) = 0 ->
  exists rc q n l t c, parse_query_section w = Ok (rc, upd_pkt (at_ q) (upd_msg (with_query n l t c) w)) /\ 0 <= q <= lim /\ 0 <= rc <= 1 /\
    (rc = 0 -> question_ok p (with_query n l t c w.(msg)) /\ question_end p (with_query n l t c w.(msg)) q).
Proof.
  intros Hpk Hp Hqd E1 E2 E3 E4. unfold parse_query_section. wstep. destruct (Z.eqb_spec (m_qdcount (msg w)) 0).
  { eexists 0, (p + 12), _, _, _, _. split; [by apply query_self|]. split; [lia|]. split; [lia|]. intros _. split; left; [by rewrite E1, E2, E3, E4|done]. }
  zcase. { eexists LDNS_RCODE_FORMERR, (p + 12), _, _, _, _. split; [by apply query_self|]. split; [lia|]. split; unfold LDNS_RCODE_FORMERR; lia. }
  assert (w.(msg).(m_qdcount) = 1) as Eqd by lia. rewrite Eqd, Z.eqb_refl. wstep.
  kstep ltac:(by apply (p_remaining_at b d B)). rewrite upd_pkt_self by done.
  zcase. { eexists LDNS_RCODE_FORMERR, (p + 12), _, _, _, _. split; [by apply query_self|]. split; [lia|]. split; unfold LDNS_RCODE_FORMERR; lia. }
  kstep ltac:(by apply (p_current_at b d B)). rewrite upd_pkt_self by done. wstep.
  destruct (p_dname_len_at b d B (p + 12) Hp) as [(ls & e & N & E)|(q & E & Hq & _)].
  2:{ kstep ltac:(exact E). wstep. eexists LDNS_RCODE_FORMERR, q, _, _, _, _. split; [reflexivity|]. split; [done|]. split; unfold LDNS_RCODE_FORMERR; lia. }
  kstep ltac:(exact E). wstep. destruct (name_at_range b d B _ _ _ N) as (_ & He & Hpe & _). pose proof (zlen_wire_pos ls). rewrite eqb_false by lia.
  kstep ltac:(apply (p_remaining_at b d B); lia).
  zcase. { eexists LDNS_RCODE_FORMERR, (p + 12 + e), _, _, _, _. split; [reflexivity|]. split; [lia|]. split; unfold LDNS_RCODE_FORMERR; lia. }
  kstep ltac:(apply (p_read_u16_at b d B); lia). wstep. kstep ltac:(apply (p_read_u16_at b d B); lia). wstep.
  eexists 0, (p + 12 + e + 2 + 2), _, _, _, _. split; [reflexivity|]. split; [lia|]. split; [lia|]. intros _. split; right; (split; [done|]).
  - exists ls, e. done.
  - exists ls, e. split; [done|lia].
Qed.

(** ** The packet *)

(** The length of the longest list there can be: twice the sum of the counts. *)
Definition MAX_RRS : Z := 6 * 65535.
Definition bounded L R S : Prop := zlen L <= MAX_RRS /\ short MAX_RRS R S.

(** The counts are the numbers of RRsets. *)
Definition totals_ok (m : msg_parse) (Sec : gmap addr sldns_pkt_section) : Prop :=
  m.(m_an_rrsets) = count_sec Sec LDNS_SECTION_ANSWER /\ m.(m_ns_rrsets) = count_sec Sec LDNS_SECTION_AUTHORITY /\
  m.(m_ar_rrsets) = count_sec Sec LDNS_SECTION_ADDITIONAL /\ m.(m_rrset_count) = Z.of_nat (size Sec).

Definition set_total (m : msg_parse) : msg_parse :=
  with_counts m.(m_an_rrsets) m.(m_ns_rrsets) m.(m_ar_rrsets) (u64 (m.(m_an_rrsets) + m.(m_ns_rrsets) + m.(m_ar_rrsets))) m.

Lemma good_total w q L R S section : good w q L R S section -> zlen L < 2 ^ 32 ->
  good (upd_msg set_total w) q L R S section /\ totals_ok (set_total w.(msg)) (v_section <$> w.(rrsets)) /\ m_head (set_total w.(msg)) = m_head w.(msg).
Proof.
  intros G Hl. pose proof (g_base _ _ _ _ _ _ _ _ _ _ G) as H. pose proof (g_counts _ _ _ _ _ _ _ _ _ _ G) as [N1 N2 N3].
  split; [split; [by apply base_msg|by split|apply G|apply G|apply G]|split; [|done]].
  rewrite (rrset_list_size _ _ (a_nodup _ _ _ _ (b_all _ _ _ _ _ _ _ _ _ H)) (b_dom _ _ _ _ _ _ _ _ _ H)) in Hl.
  assert (total (v_section <$> w.(rrsets)) = Z.of_nat (size w.(rrsets))) as Ht.
  { rewrite count_total, map_size_fmap; [done|]. intros a s Ha. by apply (g_upto _ _ _ _ _ _ _ _ _ _ G a s). }
  unfold total in Ht. pose proof (count_nonneg (v_section <$> w.(rrsets)) LDNS_SECTION_ANSWER). pose proof (count_nonneg (v_section <$> w.(rrsets)) LDNS_SECTION_AUTHORITY).
  pose proof (count_nonneg (v_section <$> w.(rrsets)) LDNS_SECTION_ADDITIONAL).
  rewrite wrap_small in N1, N2, N3 by (unfold in_u; lia).
  unfold totals_ok, set_total. cbn. rewrite N1, N2, N3, map_size_fmap, wrap_small by (unfold in_u; lia). lia.
Qed.

Lemma parse_packet_ok w p m : w = mk_world (at_ p) msg_zero ∅ ∅ m -> 0 <= p <= lim ->
  exists rc w' q, parse_packet le raninit addr_ w = Ok (rc, w') /\ w'.(pkt) = at_ q /\ 0 <= q <= lim /\ 0 <= rc <= 2 /\
    (rc = 0 -> exists L R S, good w' q L R S LDNS_SECTION_ADDITIONAL /\ header_ok p w'.(msg) /\ question_ok p w'.(msg) /\
       totals_ok w'.(msg) (v_section <$> w'.(rrsets)) /\ bounded L R S /\
       (long_sigs b d -> exists T, packet_records p w'.(msg) T /\ placed b d T w' R S)).
Proof.
  intros Ew Hp. assert (w.(pkt) = at_ p) as Hpk by (by subst w). unfold parse_packet.
  kstep ltac:(by apply (p_remaining_at b d B)). rewrite upd_pkt_self by done. unfold LDNS_HEADER_SIZE.
  zcase. { exists LDNS_RCODE_FORMERR, w, p. do 3 (split; [done|]). split; [unfold LDNS_RCODE_FORMERR; lia|done]. }
  kstep ltac:(apply (p_read_at b d B 2); lia). do 5 (kstep ltac:(apply (p_read_u16_at b d B); lia)). wstep.
  replace (p + 2 + 2) with (p + 4) by lia. replace (p + 4 + 2) with (p + 6) by lia. replace (p + 6 + 2) with (p + 8) by lia.
  replace (p + 8 + 2) with (p + 10) by lia. replace (p + 10 + 2) with (p + 12) by lia.
  set (qd := u16_at d (p + 4)). set (an := u16_at d (p + 6)). set (ns := u16_at d (p + 8)). set (ar := u16_at d (p + 10)).
  set (hd := with_header _ _ _ _ _ _). match goal with |- context [upd_msg hd ?w1] => change (upd_msg hd w1) with (upd_pkt (at_ (p + 12)) (upd_msg hd w)) end.
  pose proof (u16_at_range b d B) as Hu. unfold in_u in Hu. pose proof (Hu (p + 4)). pose proof (Hu (p + 6)). pose proof (Hu (p + 8)). pose proof (Hu (p + 10)).
  set (w1 := upd_pkt _ _).
  zcase. { exists LDNS_RCODE_FORMERR, w1, (p + 12). split; [done|]. split; [done|]. split; [lia|]. split; [unfold LDNS_RCODE_FORMERR; lia|done]. }
  destruct (parse_query_ok w1 p) as (rc & q & n & l & t & c & E & Hq & Hrc & Hquest); [done|lia|subst w; cbn; lia|by subst w..|].
  rewrite (st_bind_ok _ _ _ _ _ E). cbv beta. set (w2 := upd_pkt _ (upd_msg _ w1)) in *.
  destruct (Z.eqb_spec rc 0) as [->|]; cbn [negb]; [|exists rc, w2, q; split; [done|]; split; [done|]; split; [done|]; split; [lia|done]].
  destruct (Hquest eq_refl) as [Hqok Hend]. clear Hquest.
  assert (header_ok p w2.(msg)) as Hh by (by subst w).
  assert (good w2 q [] (fun _ => []) (fun _ => []) LDNS_SECTION_QUESTION) as G2 by (apply start_good; by subst w).
  destruct (parse_section_ok b d B le raninit addr_ w2 q _ _ _ _ LDNS_SECTION_ANSWER an G2) as (rc & w3 & q3 & E3 & Hp3 & Hq3 & Hrc3 & Hd3); [cbn; lia|cbn; lia|lia|].
  rewrite (st_bind_ok _ _ _ _ _ E3). cbv beta.
  destruct (Z.eqb_spec rc 0) as [->|]; cbn [negb]; [|exists rc, w3, q3; do 4 (split; [done|]); done].
  destruct (Hd3 eq_refl) as (L3 & R3 & S3 & [G3 X3 N3 Y3 T3]).
  destruct (parse_section_ok b d B le raninit addr_ w3 q3 _ _ _ _ LDNS_SECTION_AUTHORITY ns G3) as (rc & w4 & q4 & E4 & Hp4 & Hq4 & Hrc4 & Hd4); [cbn; lia|cbn; lia|lia|].
  rewrite (st_bind_ok _ _ _ _ _ E4). cbv beta.
  destruct (Z.eqb_spec rc 0) as [->|]; cbn [negb]; [|exists rc, w4, q4; do 4 (split; [done|]); done].
  destruct (Hd4 eq_refl) as (L4 & R4 & S4 & [G4 X4 N4 Y4 T4]).
  kstep ltac:(by apply (p_remaining_at b d B)). rewrite upd_pkt_self by done.
  assert (exists rc w5 q5, (if (lim - q4 =? 0) && (ar =? 1) then mret 0 else parse_section le raninit addr_ LDNS_SECTION_ADDITIONAL ar : W Z) w4 = Ok (rc, w5) /\
    w5.(pkt) = at_ q5 /\ 0 <= q5 <= lim /\ 0 <= rc <= 2 /\
    (rc = 0 -> exists L' R' S' n, parsed b d le raninit w4 w5 q4 n q5 L4 R4 S4 L' R' S' LDNS_SECTION_ADDITIONAL (2 * ar) /\
       (n = Z.to_nat ar \/ n = 0%nat /\ ar = 1 /\ q4 = lim /\ q5 = lim))) as (rc & w5 & q5 & E5 & Hp5 & Hq5 & Hrc5 & Hd5).
  { destruct (_ && _) eqn:Elast.
    - apply andb_prop in Elast as [Elim%Z.eqb_eq Ear%Z.eqb_eq].
      exists 0, w4, q4. do 3 (split; [done|]). split; [lia|]. intros _. exists L4, R4, S4, 0%nat. split; [|right; lia]. split; [by eapply good_later; [exact G4|cbn; lia]|done|lia| |].
      + intros z Hz. by apply (short_mono z); [|lia].
      + intros _. exists []. split; [constructor|]. intros T HT. by rewrite app_nil_r.
    - destruct (parse_section_ok b d B le raninit addr_ w4 q4 _ _ _ _ LDNS_SECTION_ADDITIONAL ar G4) as (rc & w5 & q5 & E5 & Hp5 & Hq5 & Hrc5 & Hd5); [cbn; lia|cbn; lia|lia|].
      exists rc, w5, q5. do 4 (split; [done|]). intros Hz. destruct (Hd5 Hz) as (L' & R' & S' & X). exists L', R', S', (Z.to_nat ar). auto. }
  rewrite (st_bind_ok _ _ _ _ _ E5). cbv beta.
  destruct (Z.eqb_spec rc 0) as [->|]; cbn [negb]; [|exists rc, w5, q5; do 4 (split; [done|]); done].
  destruct (Hd5 eq_refl) as (L5 & R5 & S5 & n5 & [G5 X5 N5 Y5 T5] & Hn5). wstep.
  exists 0, (upd_msg set_total w5), q5. split; [done|]. split; [done|]. split; [done|]. split; [lia|]. intros _.
  destruct (good_total w5 q5 L5 R5 S5 _ G5) as (G6 & T6 & X6); [unfold zlen in *; cbn in N3; lia|].
  exists L5, R5, S5. split; [done|]. assert (m_head (set_total w5.(msg)) = m_head w2.(msg)) as Hhd by congruence.
  split; [by eapply header_head|]. split; [by eapply question_head|]. split; [done|].
  split; [split; [unfold MAX_RRS, zlen in *; cbn in N3; lia|]; eapply short_mono; [apply Y5, Y4, (Y3 0); intros y; split; reflexivity|]; unfold MAX_RRS; lia|].
  intros Hlong. destruct (T3 Hlong) as (l3 & C3 & P3), (T4 Hlong) as (l4 & C4 & P4), (T5 Hlong) as (l5 & C5 & P5). exists ([] ++ l3 ++ l4 ++ l5). split.
  - unfold packet_records, question_end. pose proof (f_equal m_qdcount Hhd) as Z0. pose proof (f_equal m_ancount Hhd) as Z1.
    pose proof (f_equal m_nscount Hhd) as Z2. pose proof (f_equal m_arcount Hhd) as Z3. cbn in Z0, Z1, Z2, Z3. cbn [msg upd_msg set_total with_counts m_qdcount m_ancount m_nscount m_arcount]. rewrite Z1, Z2, Z3.
    exists q, q3, q4, q5, l3, l4, l5. split; [destruct Hend as [[? ->]|(? & H')]; [left|right]; split; (done || by rewrite Z0)|]. split; [exact C3|]. split; [exact C4|]. split; [|done].
    destruct Hn5 as [->|(-> & ? & ? & ?)]; [by left|right]. inversion C5. done.
  - eapply (placed_stays b d _ w5); [by apply stays_self|exact X6|done|].
    rewrite !app_assoc. apply P5, P4, P3. split; [split; intros *; rewrite ?lookup_empty; intros ? ?%not_elem_of_nil; done|by intros r ?%not_elem_of_nil].
Qed.
End Packet.

(** ** What the caller relies on *)

(** [msg] is cleared, and the region is empty. *)
Definition fresh_world (b : sldns_buffer) (m : mem) : world := mk_world b msg_zero ∅ ∅ m.

(** The structures of a packet that was parsed from position [p]: [L] are the RRsets in
    their list, [R] and [S] their RRs and signatures. *)
Record well_formed (b : sldns_buffer) (d : list Z) (le : bool) (raninit p : Z) (w : world) (L : list addr) (R S : addr -> list addr) : Prop := {
  f_base : exists q, base b d le raninit w q L R S;
  f_header : header_ok d p w.(msg);
  f_question : question_ok b d p w.(msg);
  f_sections : forall a s, w.(rrsets) !! a = Some s -> 1 <= rank s.(s_section);
  f_totals : totals_ok w.(msg) (v_section <$> w.(rrsets));
  f_short : bounded L R S;
}.

(** No two RRsets have the same name, type, class and flags. *)
Definition no_double (b : sldns_buffer) (d : list Z) (w : world) : Prop :=
  forall a a' s s' ls ls' e e', w.(rrsets) !! a = Some s -> w.(rrsets) !! a' = Some s' ->
    name_at b d s.(s_dname) ls e -> name_at b d s'.(s_dname) ls' e' -> lower_name ls = lower_name ls' ->
    s.(s_type) = s'.(s_type) -> s.(s_class) = s'.(s_class) -> s.(s_flags) = s'.(s_flags) -> a = a'.

(** No signature is left over that covers the type of an RRset with its name and class. *)
Definition no_stray (b : sldns_buffer) (d : list Z) (w : world) (R : addr -> list addr) : Prop :=
  forall a a' s s' ls ls' e e' x, w.(rrsets) !! a = Some s -> w.(rrsets) !! a' = Some s' ->
    name_at b d s.(s_dname) ls e -> name_at b d s'.(s_dname) ls' e' -> lower_name ls = lower_name ls' -> s.(s_class) = s'.(s_class) ->
    s.(s_type) = LDNS_RR_TYPE_RRSIG -> s'.(s_type) <> LDNS_RR_TYPE_RRSIG -> x ∈ R a -> sig_covers b d (v_data <$> w.(rrs)) s'.(s_type) x = false.

Lemma self_at b d : buf_ok b d -> set_pos b b.(_position) = b /\ 0 <= b.(_position) <= b.(_limit).
Proof. intros [? ? ? ? ?]. split; [by destruct b|]. lia. Qed.

Lemma parse_packet_run b d le raninit addr_ m : buf_ok b d ->
  exists rc w' q, parse_packet le raninit addr_ (fresh_world b m) = Ok (rc, w') /\ w'.(pkt) = set_pos b q /\ 0 <= q <= b.(_limit) /\ 0 <= rc <= 2 /\
    (rc = 0 -> exists L R S, good b d le raninit w' q L R S LDNS_SECTION_ADDITIONAL /\ header_ok d b.(_position) w'.(msg) /\
       question_ok b d b.(_position) w'.(msg) /\ totals_ok w'.(msg) (v_section <$> w'.(rrsets)) /\ bounded L R S /\
       (long_sigs b d -> exists T, packet_records b d b.(_position) w'.(msg) T /\ placed b d T w' R S)).
Proof.
  intros B. destruct (self_at b d B) as [E Hp]. apply (parse_packet_ok b d B le raninit addr_ _ _ m); [by rewrite E|done].
Qed.

Lemma parse_packet_zero b d le raninit addr_ m w' : buf_ok b d -> parse_packet le raninit addr_ (fresh_world b m) = Ok (0, w') ->
  exists q L R S, good b d le raninit w' q L R S LDNS_SECTION_ADDITIONAL /\ header_ok d b.(_position) w'.(msg) /\
    question_ok b d b.(_position) w'.(msg) /\ totals_ok w'.(msg) (v_section <$> w'.(rrsets)) /\ bounded L R S /\
    (long_sigs b d -> exists T, packet_records b d b.(_position) w'.(msg) T /\ placed b d T w' R S).
Proof.
  intros B E. destruct (parse_packet_run b d le raninit addr_ m B) as (rc & w2 & q & E2 & _ & _ & _ & H). rewrite E in E2. injection E2 as <- <-.
  exists q. by apply H.
Qed.

Lemma good_well_formed b d le raninit w q L R S : good b d le raninit w q L R S LDNS_SECTION_ADDITIONAL -> header_ok d b.(_position) w.(msg) ->
  question_ok b d b.(_position) w.(msg) -> totals_ok w.(msg) (v_section <$> w.(rrsets)) -> bounded L R S -> well_formed b d le raninit b.(_position) w L R S.
Proof.
  intros G H1 H2 H3 H4. split; try done; [exists q; apply G|]. intros a s Hs. apply (g_upto _ _ _ _ _ _ _ _ _ _ G a). by rewrite lookup_fmap, Hs.
Qed.

(** C2. Parsing ends for every packet and all answers of the allocator, without a fault:
    it returns 0, FORMERR or SERVFAIL, the last only when an allocation fails, and the
    position stays within the packet, of which nothing is changed. *)
Theorem parse_packet_total b d le raninit addr_ m : buf_ok b d ->
  exists rc w' q, parse_packet le raninit addr_ (fresh_world b m) = Ok (rc, w') /\
    (rc = 0 \/ rc = LDNS_RCODE_FORMERR \/ rc = LDNS_RCODE_SERVFAIL /\ ~ mallocs_ok m) /\ w'.(pkt) = set_pos b q /\ 0 <= q <= b.(_limit).
Proof.
  intros B. destruct (parse_packet_run b d le raninit addr_ m B) as (rc & w' & q & E & Hp & Hq & Hrc & _). exists rc, w', q.
  split; [done|]. split; [|done]. assert (mallocs_ok m -> rc <> LDNS_RCODE_SERVFAIL) as Hm by (intros Hm; by destruct (packet_memory le raninit addr_ (fresh_world b m) _ _ Hm E)).
  destruct (Z.eq_dec rc LDNS_RCODE_SERVFAIL) as [->|]; [right; right; split; [done|intros Hm'; by apply Hm]|]. unfold LDNS_RCODE_FORMERR, LDNS_RCODE_SERVFAIL in *. lia.
Qed.

(** C3. After a return of 0 the structures are well-formed: the list of all RRsets, the
    buckets of the hash table, and the lists of RRs and signatures are lists without
    sharing and hold what they count; every RRset is in the bucket of its hash, which is
    that of its name, type, class and flags; the name is in the packet; every RR is
    rdata of its type that can be written out, and its size, and the size of the RRset,
    are those of the rdata written out; signatures of an RRset cover its type; the
    header and the question are those of the packet, the counts of RRsets exact, and no
    list is longer than [MAX_RRS], so that no other count wraps. *)
Theorem parse_packet_well_formed b d le raninit addr_ m w' : buf_ok b d -> parse_packet le raninit addr_ (fresh_world b m) = Ok (0, w') ->
  exists L R S, well_formed b d le raninit b.(_position) w' L R S.
Proof.
  intros B E. destruct (parse_packet_zero _ _ _ _ _ _ _ B E) as (q & L & R & S & G & H1 & H2 & H3 & H4 & _). exists L, R, S.
  by apply (good_well_formed _ _ _ _ _ q).
Qed.

(** C4. Every record of the packet is put where it belongs, and nothing else is, when no
    record at the very end of the packet can be taken for an RRSIG that is too short.
    The records of the packet are those that follow the question one after another, in
    every section as many as the header says.  The RRs of an RRset are records of the packet
    with its name, type and class, and its signatures RRSIG records with its name
    and class.  And every record of the packet is an RR or a signature of an RRset, with
    two exceptions: when an RRset of its name, type and class is in a section before; and
    when the question is for RRSIG or ANY, and its rdata are the same bytes as those
    of a signature of an RRset of its name and class. *)
Theorem parse_packet_located b d le raninit addr_ m w' : buf_ok b d -> long_sigs b d -> parse_packet le raninit addr_ (fresh_world b m) = Ok (0, w') ->
  exists L R S T, well_formed b d le raninit b.(_position) w' L R S /\ packet_records b d b.(_position) w'.(msg) T /\ placed b d T w' R S.
Proof.
  intros B Hl E. destruct (parse_packet_zero _ _ _ _ _ _ _ B E) as (q & L & R & S & G & H1 & H2 & H3 & H4 & H5). destruct (H5 Hl) as (T & HT & HP). exists L, R, S, T.
  split; [by apply (good_well_formed _ _ _ _ _ q)|done].
Qed.

(** C5. Unless the question is for RRSIG or ANY, there are no two RRsets with the same
    name, type, class and flags, and no signature is left in an RRset of signatures when
    there is an RRset that it covers. *)
Theorem parse_packet_unique b d le raninit addr_ m w' : buf_ok b d -> parse_packet le raninit addr_ (fresh_world b m) = Ok (0, w') ->
  keeps_twice w'.(msg) = false -> no_double b d w' /\ exists R S, lists_ok (v_lists <$> w'.(rrsets)) w'.(rrs) R S /\ no_stray b d w' R.
Proof.
  intros B E Hk. destruct (parse_packet_zero _ _ _ _ _ _ _ B E) as (q & L & R & S & G & _). destruct (g_unique _ _ _ _ _ _ _ _ _ _ G Hk) as [Q1 Q2].
  assert (forall s s' ls ls' e e', name_at b d s.(s_dname) ls e -> name_at b d s'.(s_dname) ls' e' -> lower_name ls = lower_name ls' ->
    same_name b d (v_key s) (v_key s')) as Hsame.
  { intros s s' ls ls' e e' N N' El. exists ls. split; [by exists ls, e|]. by exists ls', e'. }
  split; [|exists R, S; split; [apply G|]].
  - intros a a' s s' ls ls' e e' Hs Hs' N N' El Et Ec Ef. eapply (Q1 a a' (v_key s) (v_key s')); try done; try by apply view_lookup. by eapply Hsame.
  - intros a a' s s' ls ls' e e' x Hs Hs' N N' El Ec Et Et' Hx. apply (Q2 a a' (v_key s) (v_key s')); try done; try by apply view_lookup. by eapply Hsame.
Qed.

(** ** Packets *)

Definition packet (l : list Z) : sldns_buffer := mk_buffer 0 (zlen l) (zlen l) (Some l) false false.
(** The state after a packet is parsed. *)
Definition parsed_packet (l : list Z) : world :=
  match parse_packet true 1 0 (fresh_world (packet l) []) with Ok (_, w) => w | _ => fresh_world (packet l) [] end.

Lemma packet_ok l : zlen l < 2 ^ 63 -> forallb (fun x => (0 <=? x) && (x <? 256)) l = true -> buf_ok (packet l) l.
Proof.
  intros Hl Hb. pose proof (zlen_nonneg l). split; cbn; try done; try lia. apply Forall_forall. intros x Hx%list_elem_of_In.
  rewrite forallb_forall in Hb. specialize (Hb x Hx). unfold is_byte, in_u. apply andb_prop in Hb as [?%Z.leb_le ?%Z.ltb_lt]. lia.
Qed.

Lemma long_sigs_check l : forallb (fun i => negb (u16_at l (zlen l - 28 + Z.of_nat i) =? LDNS_RR_TYPE_RRSIG)) (seq 0 19) = true -> long_sigs (packet l) l.
Proof.
  intros H ttl H0 H1 H2 E. cbn in H1, H2. rewrite forallb_forall in H. specialize (H (Z.to_nat (ttl - 4 - (zlen l - 28)))).
  rewrite in_seq in H. specialize (H ltac:(lia)). rewrite Z2Nat.id in H by lia.
  replace (zlen l - 28 + (ttl - 4 - (zlen l - 28))) with (ttl - 4) in H by lia. by rewrite E in H.
Qed.

Definition header (qd an ns ar : Z) : list Z := [18; 52; 129; 128; 0; qd; 0; an; 0; ns; 0; ar].
Definition question (name : list Z) (type : Z) : list Z := name ++ [0; type; 0; 1].
Definition record (name : list Z) (type : Z) (rdata : list Z) : list Z :=
  name ++ [0; type; 0; 1; 0; 0; 0; 60] ++ [zlen rdata / 256; zlen rdata mod 256] ++ rdata.
(** The rdata of a signature over a type: by the root, one byte long. *)
Definition signature (type : Z) : list Z := [0; type; 8; 1; 0; 0; 0; 9; 0; 0; 0; 9; 0; 0; 0; 9; 0; 9; 0; 1].

(** A signature comes before the two addresses it signs. *)
Definition signed_packet : list Z :=
  header 1 3 0 0 ++ question [1; 97; 0] 1 ++ record [192; 12] 46 (signature 1) ++ record [192; 12] 1 [1; 2; 3; 4] ++ record [192; 12] 1 [1; 2; 3; 5].

Lemma signed_ok : buf_ok (packet signed_packet) signed_packet.
Proof. apply packet_ok; by vm_compute. Qed.

Lemma parse_packet_total_witness :
  exists rc w' q, parse_packet true 1 0 (fresh_world (packet signed_packet) [true; false]) = Ok (rc, w') /\
    (rc = 0 \/ rc = LDNS_RCODE_FORMERR \/ rc = LDNS_RCODE_SERVFAIL /\ ~ mallocs_ok [true; false]) /\ w'.(pkt) = set_pos (packet signed_packet) q /\ 0 <= q <= (packet signed_packet).(_limit).
Proof. exact (parse_packet_total (packet signed_packet) signed_packet true 1 0 [true; false] signed_ok). Defined.

Lemma signed_parsed : parse_packet true 1 0 (fresh_world (packet signed_packet) []) = Ok (0, parsed_packet signed_packet).
Proof. by vm_compute. Qed.

Lemma parse_packet_well_formed_witness : exists L R S, well_formed (packet signed_packet) signed_packet true 1 0 (parsed_packet signed_packet) L R S.
Proof. exact (parse_packet_well_formed (packet signed_packet) signed_packet true 1 0 [] _ signed_ok signed_parsed). Defined.

Lemma signed_long : long_sigs (packet signed_packet) signed_packet.
Proof. apply long_sigs_check. by vm_compute. Qed.

Lemma parse_packet_located_witness :
  exists L R S T, well_formed (packet signed_packet) signed_packet true 1 0 (parsed_packet signed_packet) L R S /\
    packet_records (packet signed_packet) signed_packet 0 (parsed_packet signed_packet).(msg) T /\ placed (packet signed_packet) signed_packet T (parsed_packet signed_packet) R S.
Proof. exact (parse_packet_located (packet signed_packet) signed_packet true 1 0 [] _ signed_ok signed_long signed_parsed). Defined.

Lemma signed_question : keeps_twice (parsed_packet signed_packet).(msg) = false.
Proof. by vm_compute. Qed.

Lemma parse_packet_unique_witness :
  no_double (packet signed_packet) signed_packet (parsed_packet signed_packet) /\
  exists R S, lists_ok (v_lists <$> (parsed_packet signed_packet).(rrsets)) (parsed_packet signed_packet).(rrs) R S /\
    no_stray (packet signed_packet) signed_packet (parsed_packet signed_packet) R.
Proof. exact (parse_packet_unique (packet signed_packet) signed_packet true 1 0 [] _ signed_ok signed_parsed signed_question). Defined.

(** *** Where it goes wrong *)

(** An RRSIG without rdata, and the last record an address of the same name. *)
Definition short_sig_packet : list Z := header 1 2 0 0 ++ question [1; 97; 0] 1 ++ record [192; 12] 46 [] ++ record [192; 12] 1 [1; 2; 3; 4].

(** A signature with less than 25 bytes of the packet left at its TTL makes the parser
    go back: the look at it leaves the position there.  The address after it is accepted,
    but its RR is the RRSIG record, without rdata, and the address is never read. *)
Lemma short_sig_rewinds :
  exists w' a s x r, parse_packet true 1 0 (fresh_world (packet short_sig_packet) []) = Ok (0, w') /\
    w'.(rrsets) !! a = Some s /\ s.(s_type) = 1 /\ s.(s_rr_count) = 1 /\ s.(s_rr_first) = Some x /\ w'.(rrs) !! x = Some r /\
    u16_at short_sig_packet (r.(r_ttl_data) - 4) = LDNS_RR_TYPE_RRSIG /\ r.(r_size) = 2 /\ sldns_buffer_position w'.(pkt) < zlen short_sig_packet.
Proof.
  exists (parsed_packet short_sig_packet). set (w := parsed_packet short_sig_packet).
  vm_compute in w. eexists 2%positive, _, _, _. unfold w. repeat split; by vm_compute.
Qed.

(** The question is for RRSIG: two signatures, over A and over NS, then the address, the
    address of another name, and one more address. *)
Definition any_sig_packet : list Z :=
  header 1 5 0 0 ++ question [1; 97; 0] 46 ++ record [192; 12] 46 (signature 1) ++ record [192; 12] 46 (signature 2) ++
  record [192; 12] 1 [1; 2; 3; 4] ++ record [1; 98; 0] 1 [1; 1; 1; 1] ++ record [192; 12] 1 [9; 2; 3; 4].

(** When the question is for RRSIG the signatures stay in their RRset, and the next RR
    that they cover makes a new RRset again: there are two with the same name, type,
    class, flags and section. *)
Lemma any_sig_doubles :
  exists w' a a' s s', parse_packet true 1 0 (fresh_world (packet any_sig_packet) []) = Ok (0, w') /\ a <> a' /\
    w'.(rrsets) !! a = Some s /\ w'.(rrsets) !! a' = Some s' /\ s.(s_dname) = s'.(s_dname) /\ s.(s_type) = 1 /\ s'.(s_type) = 1 /\
    s.(s_class) = s'.(s_class) /\ s.(s_flags) = s'.(s_flags) /\ s.(s_section) = s'.(s_section).
Proof.
  exists (parsed_packet any_sig_packet). set (w := parsed_packet any_sig_packet). vm_compute in w.
  exists 2%positive, 4%positive. eexists _, _. unfold w. repeat split; by vm_compute.
Qed.
