(* ===== verification/MsgEdns.v ===== *)
(** * Parsing packets: the EDNS record of a response

    [parse_extract_edns_from_response_msg] takes the OPT record out of the message. *)

From stdpp Require Import functions.
From S2P Require Import Prelude Sbuffer Lookup3 Dname DnameCompare DnamePkt RrDef Msgparse MsgPkt MsgRdata MsgLists MsgOps MsgSigs MsgChange MsgFind MsgRr MsgSections MsgPacket.

Section Edns.
Context (b : sldns_buffer) (d : list Z) (B : buf_ok b d) (le : bool) (raninit : Z).
Abbreviation lim := (b.(_limit)).
Abbreviation at_ p := (set_pos b p).
Abbreviation base := (base b d le raninit).
Implicit Types (w : world) (R S : addr -> list addr) (L : list addr).

(** ** Options *)

(** The options in [len] bytes at [pos]; what is left at the end is no whole option. *)
Inductive options : Z -> Z -> list edns_option -> Prop :=
  | options_end pos len : len < 4 \/ len - 4 < u16_at d (pos + 2) -> options pos len []
  | options_more pos len os : 4 <= len -> u16_at d (pos + 2) <= len - 4 ->
      options (pos + 4 + u16_at d (pos + 2)) (len - 4 - u16_at d (pos + 2)) os ->
      options pos len (mk_option (u16_at d pos) (u16_at d (pos + 2))
        (if 0 <? u16_at d (pos + 2) then Some (ztake (u16_at d (pos + 2)) (zdrop (pos + 4) d)) else None) :: os).

Lemma options_fun pos len os : options pos len os -> forall os', options pos len os' -> os = os'.
Proof.
  induction 1 as [pos len H|pos len os H1 H2 H IH]; intros os' H'; inversion H'; subst; try done; try lia. f_equal. by apply IH.
Qed.

Lemma append_ok list_ code len p w : 0 <= len <= zlen p ->
  exists m, edns_opt_list_append list_ code len p w = Ok ((true, list_ ++ [mk_option code len (if 0 <? len then Some (ztake len p) else None)]), upd_memory m w)
      /\ (mallocs_ok w.(memory) -> mallocs_ok m) \/
    edns_opt_list_append list_ code len p w = Ok ((false, list_), upd_memory m w) /\ ~ mallocs_ok w.(memory).
Proof.
  intros Hl. unfold edns_opt_list_append, alloc. destruct (malloc w.(memory)) as [ok m] eqn:E1.
  rewrite (st_bind_ok _ _ w ok (upd_memory m w)) by (by rewrite E1). destruct ok; cbn [negb].
  2:{ exists m. right. split; [done|]. intros Hm. by destruct (malloc_ok _ _ _ E1 Hm). }
  zcase; [|exists m; left; split; [done|]; intros Hm; by destruct (malloc_ok _ _ _ E1 Hm)].
  destruct (malloc m) as [ok m2] eqn:E2. rewrite (st_bind_ok _ _ (upd_memory m w) ok (upd_memory m2 w)) by (cbn; by rewrite E2). destruct ok; cbn [negb].
  - exists m2. left. erewrite st_bind_ok by (unfold on_pkt, ask; rewrite read_bytes_ok by lia; reflexivity). split; [by destruct w|].
    intros Hm. destruct (malloc_ok _ _ _ E1 Hm) as [_ Hm2]. by destruct (malloc_ok _ _ _ E2 Hm2).
  - exists m2. right. split; [done|]. intros Hm. destruct (malloc_ok _ _ _ E1 Hm) as [_ Hm2]. by destruct (malloc_ok _ _ _ E2 Hm2).
Qed.

Lemma ask_ok {A} (f : sldns_buffer -> outcome A) w x : f w.(pkt) = Ok x -> on_pkt (ask f) w = Ok (x, w).
Proof. intros E. unfold on_pkt, ask. rewrite E. by destruct w. Qed.

Lemma options_loop_ok fuel : forall pos len list_ w, 0 <= pos -> 0 <= len -> pos + len <= zlen d -> len <= Z.of_nat fuel ->
  exists os got m, options pos len os /\ options_loop fuel (zdrop pos d) len list_ w = Ok (list_ ++ got, upd_memory m w) /\
    got `prefix_of` os /\ (mallocs_ok w.(memory) -> got = os).
Proof.
  induction fuel as [|fuel IH]; intros pos len list_ w Hp Hl Hd Hf; cbn [options_loop]; destruct (Z.leb_spec 4 len); cbn [negb]; try lia.
  1,3: exists [], [], w.(memory); split; [constructor; lia|]; split; [rewrite app_nil_r; by destruct w|done].
  pose proof (u16_at_range b d B (pos + 2)) as Hu. unfold in_u in Hu.
  erewrite st_bind_ok by (apply ask_ok; apply (u16_at_read d); lia). cbv beta.
  erewrite st_bind_ok by (apply ask_ok; rewrite advance_ok by (rewrite zlen_zdrop; lia); cbn [mbind outcome_bind]; rewrite zdrop_zdrop by lia;
    apply (u16_at_read d); lia). cbv beta.
  erewrite st_bind_ok by (apply ask_ok; apply advance_ok; rewrite zlen_zdrop; lia). cbv beta. rewrite zdrop_zdrop by lia.
  destruct (Z.ltb_spec (len - 4) (u16_at d (pos + 2))).
  { exists [], [], w.(memory). split; [constructor; lia|]. split; [rewrite app_nil_r; by destruct w|done]. }
  set (n := u16_at d (pos + 2)) in *.
  destruct (append_ok list_ (u16_at d pos) n (zdrop (pos + 4) d) w) as (m & [[E Hm]|[E Hm]]); [rewrite zlen_zdrop; lia|..]; rewrite (st_bind_ok _ _ _ _ _ E); cbv beta iota; cbn [negb].
  - erewrite st_bind_ok by (apply ask_ok; apply advance_ok; rewrite zlen_zdrop; lia). cbv beta. rewrite zdrop_zdrop by lia.
    destruct (IH (pos + 4 + n) (len - 4 - n) (list_ ++ [mk_option (u16_at d pos) n (if 0 <? n then Some (ztake n (zdrop (pos + 4) d)) else None)]) (upd_memory m w)) as (os & got & m' & Ho & E' & Hpre & Hall); [lia..|].
    eexists _, (_ :: got), m'. split; [by constructor|]. split; [rewrite E', <- app_assoc; done|]. split; [by apply prefix_cons|].
    intros Hok. rewrite Hall; [done|]. by apply Hm.
  - destruct (IH (pos + 4 + n) (len - 4 - n) [] w) as (os & got & m' & Ho & _); [lia..|].
    eexists _, [], m. split; [by constructor|]. split; [by rewrite app_nil_r|]. split; [apply prefix_nil|done].
Qed.

(** ** The OPT record *)

Definition is_opt w (a : addr) : Prop := exists s, w.(rrsets) !! a = Some s /\ s.(s_type) = LDNS_RR_TYPE_OPT.
Definition no_opt w (l : list addr) : Prop := forall a, a ∈ l -> ~ is_opt w a.

Lemma no_opt_cons w a l s : w.(rrsets) !! a = Some s -> s.(s_type) <> LDNS_RR_TYPE_OPT -> no_opt w l -> no_opt w (a :: l).
Proof. intros Hs Ht H x [->|Hx]%elem_of_cons; [|by apply H]. intros (s' & Hs' & Ht'). congruence. Qed.

Lemma opt_loop_ok w : forall L2 L1 fuel p found, seg id (v_next <$> w.(rrsets)) p L2 None -> (length L2 < fuel)%nat ->
  exists r, opt_loop fuel (list.last L1) p found w = Ok (r, w) /\
    match r with
    | None => exists M1 a M2, L2 = M1 ++ a :: M2 /\ is_opt w a /\ (found <> None \/ exists M3 a' M4, M2 = M3 ++ a' :: M4 /\ is_opt w a')
    | Some f => no_opt w L2 /\ f = found \/
        found = None /\ exists M1 a M2, L2 = M1 ++ a :: M2 /\ is_opt w a /\ no_opt w M1 /\ no_opt w M2 /\ f = Some (a, list.last (L1 ++ M1))
    end.
Proof.
  induction L2 as [|a L2 IH]; intros L1 [|fuel] p found Hseg Hf; cbn in Hf; try lia.
  - cbn in Hseg. subst p. exists (Some found). split; [done|]. left. split; [by intros x ?%not_elem_of_nil|done].
  - destruct Hseg as (-> & n & Hn & Hseg). destruct (view_some _ _ _ _ Hn) as (s & Hs & <-). cbn [opt_loop]. wstep. cbv [id v_next] in Hseg.
    assert (list.last (L1 ++ [a]) = Some a) as Elast by apply last_snoc. destruct (Z.eqb_spec (s_type s) LDNS_RR_TYPE_OPT) as [Ht|Ht].
    + assert (is_opt w a) as Ha by (by exists s). destruct found as [x|].
      { exists None. split; [done|]. exists [], a, L2. split; [done|]. split; [done|]. by left. }
      rewrite <- Elast. destruct (IH (L1 ++ [a]) fuel (s_all_next s) (Some (a, list.last L1)) Hseg) as (r & E & Hr); [lia|]. exists r. split; [done|].
      destruct r as [f|].
      * destruct Hr as [[Hno ->]|[? _]]; [|done]. right. split; [done|]. exists [], a, L2. rewrite app_nil_r. split; [done|]. split; [done|].
        split; [by intros x ?%not_elem_of_nil|done].
      * destruct Hr as (M1 & a' & M2 & -> & Ha' & _). exists [], a, (M1 ++ a' :: M2). split; [done|]. split; [done|]. right. by exists M1, a', M2.
    + rewrite <- Elast. destruct (IH (L1 ++ [a]) fuel (s_all_next s) found Hseg) as (r & E & Hr); [lia|]. exists r. split; [done|]. destruct r as [f|].
      * destruct Hr as [[Hno ->]|(-> & M1 & a' & M2 & -> & Ha' & N1 & N2 & ->)]; [left; split; [by eapply no_opt_cons|done]|]. right. split; [done|].
        exists (a :: M1), a', M2. rewrite <- app_assoc. split; [done|]. split; [done|]. split; [by eapply no_opt_cons|done].
      * destruct Hr as (M1 & a' & M2 & -> & Ha' & Hr). exists (a :: M1), a', M2. done.
Qed.

(** *** Without it *)

(** The list of all RRsets without [a], and the counts. *)
Definition unlisted w w' (L1 L2 : list addr) : Prop :=
  all_ok (v_next <$> w'.(rrsets)) w'.(msg).(m_rrset_first) w'.(msg).(m_rrset_last) (L1 ++ L2) /\
  only with_all_next w.(rrsets) w'.(rrsets) /\ w'.(pkt) = w.(pkt) /\ w'.(rrs) = w.(rrs) /\
  w'.(msg).(m_an_rrsets) = w.(msg).(m_an_rrsets) /\ w'.(msg).(m_ns_rrsets) = w.(msg).(m_ns_rrsets) /\
  w'.(msg).(m_ar_rrsets) = u64 (w.(msg).(m_ar_rrsets) - 1) /\ w'.(msg).(m_rrset_count) = u64 (w.(msg).(m_rrset_count) - 1) /\
  w'.(msg).(m_arcount) = u16 (w.(msg).(m_arcount) - 1).

(** What is read from the OPT record. *)
Definition byte_at (l : list Z) (o : Z) : Z := match index l o with Ok x => x | _ => 0 end.
Definition edns_of w (last : addr) (class : list Z) (before : edns_data) (got : list edns_option) : edns_data :=
  let ttl := match w.(rrs) !! last with Some r => zdrop r.(r_ttl_data) d | None => [] end in
  mk_edns (byte_at ttl 0) (byte_at ttl 1) (u16_at ttl 2) (u16_at class 0) got [] [] 0 true false false before.(cookie_client).

Lemma byte_at_index l o : 0 <= o < zlen l -> index l o = Ok (byte_at l o).
Proof. intros H. destruct (index_ok l o H) as (x & E & _). unfold byte_at. by rewrite E. Qed.

(** The rdata of an OPT record is not changed. *)
Lemma opt_size ttl out : rdata_of b d LDNS_RR_TYPE_OPT ttl out -> zlen out = u16_at d (ttl + 4).
Proof.
  intros (H1 & H2 & H). pose proof (u16_at_range b d B (ttl + 4)) as Hu. unfold in_u in Hu. inversion H; subst; try done.
  apply zlen_ztake. pose proof (lim_zlen b d B). rewrite zlen_zdrop; lia.
Qed.

(** The steps that unlist the RRset. *)
Lemma unlist_ok w L L1 a L2 s : all_ok (v_next <$> w.(rrsets)) w.(msg).(m_rrset_first) w.(msg).(m_rrset_last) L -> L = L1 ++ a :: L2 ->
  w.(rrsets) !! a = Some s ->
  exists w', unlist_opt a (list.last L1) w = Ok (tt, w') /\ unlisted w w' L1 L2 /\ w'.(memory) = w.(memory).
Proof.
  intros A -> Hs. pose proof (all_remove _ _ _ _ _ _ _ A (view_lookup v_next _ _ _ Hs)) as A'. unfold unlisted.
  unfold unlist_opt. wstep. destruct (list.last L1) as [b1|] eqn:El.
  - assert (b1 ∈ L1 ++ a :: L2) as Hb by (apply elem_of_app; left; by apply last_Some_elem_of).
    destruct (lseg_lookup id _ _ _ _ b1 (a_seg _ _ _ _ A) Hb) as (nb & Hnb). apply view_some in Hnb as (sb & Hsb & _).
    wstep. wstep. cbn [msg upd_rrsets].
    destruct (decide (Some a = _)) as [E|E]; [rewrite decide_True in A' by done|rewrite decide_False in A' by congruence];
      (eexists; split; [reflexivity|]; cbn; split; [split; [rewrite fmap_insert; exact A'|split; [by apply only_modify|done]]|done]).
  - wstep. wstep. cbn [msg upd_msg m_rrset_last with_list].
    destruct (decide (Some a = _)) as [E|E]; [rewrite decide_True in A' by done|rewrite decide_False in A' by congruence];
      (eexists; split; [reflexivity|]; cbn; done).
Qed.

(** ** The extraction *)

(** Two OPT RRsets, one that is not in the additional section, or one without RRs. *)
Definition refused w L : Prop :=
  (exists M1 a M2 a' M3, L = M1 ++ a :: M2 ++ a' :: M3 /\ is_opt w a /\ is_opt w a') \/
  exists a s, a ∈ L /\ w.(rrsets) !! a = Some s /\ s.(s_type) = LDNS_RR_TYPE_OPT /\ (s.(s_section) <> LDNS_SECTION_ADDITIONAL \/ s.(s_rr_count) = 0).

(** What is in [*edns] when there is no OPT record. *)
Definition no_edns : edns_data := mk_edns 0 0 0 512 [] [] [] 0 false false false false.

(** The first and the last OPT record give the options and the rest. *)
Record extracted w w' L R (before after : edns_data) (L1 : list addr) (a : addr) (L2 : list addr) (s : rrset_parse) (first last : addr) (ttl : Z)
    (os got : list edns_option) : Prop := {
  e_list : L = L1 ++ a :: L2;
  e_only : no_opt w L1 /\ no_opt w L2;
  e_set : w.(rrsets) !! a = Some s /\ s.(s_type) = LDNS_RR_TYPE_OPT /\ s.(s_section) = LDNS_SECTION_ADDITIONAL;
  e_rrs : hd_or (R a) None = Some first /\ list.last (R a) = Some last;
  e_unlisted : unlisted w w' L1 L2;
  e_ttl : r_ttl_data <$> w.(rrs) !! first = Some ttl;
  e_options : options (ttl + 6) (u16_at d (ttl + 4)) os;
  e_got : got `prefix_of` os /\ (mallocs_ok w.(memory) -> got = os);
  e_after : after = edns_of w last s.(s_class) before got;
}.

Lemma opt_rr w p L R S a s x : base w p L R S -> w.(rrsets) !! a = Some s -> s.(s_type) = LDNS_RR_TYPE_OPT -> x ∈ R a ->
  exists r, w.(rrs) !! x = Some r /\ 0 <= r.(r_ttl_data) /\ r.(r_ttl_data) + 6 + u16_at d (r.(r_ttl_data) + 4) <= lim /\
    r.(r_size) = 2 + u16_at d (r.(r_ttl_data) + 4).
Proof.
  intros H Hs Ht Hx. destruct (c_rrs _ _ _ _ _ _ (b_contents _ _ _ _ _ _ _ _ _ H) a (v_key s) x) as (ttl & n & out & HD & Hr & Hn); [by apply view_lookup|done|].
  cbn in Hr. rewrite Ht in Hr. rewrite lookup_fmap in HD. destruct (rrs w !! x) as [r|]; [|done]. injection HD as E1 _ E2. exists r. split; [done|].
  rewrite E1, E2, Hn, (opt_size ttl out) by done. destruct Hr as (? & ? & _). done.
Qed.

Lemma edns_extract_ok w p L R S e : base w p L R S ->
  exists rc e' w', parse_extract_edns_from_response_msg e w = Ok ((rc, e'), w') /\
    (rc = LDNS_RCODE_NOERROR /\ no_opt w L /\ w' = w /\ e' = no_edns \/
     rc = LDNS_RCODE_FORMERR /\ refused w L /\ w' = w /\ e' = e \/
     rc = LDNS_RCODE_NOERROR /\ exists L1 a L2 s first last ttl os got, extracted w w' L R e e' L1 a L2 s first last ttl os got).
Proof.
  intros H. unfold parse_extract_edns_from_response_msg. wstep. pose proof (b_all _ _ _ _ _ _ _ _ _ H) as A.
  destruct (opt_loop_ok w L [] (sets_fuel w) (m_rrset_first (msg w)) None (a_seg _ _ _ _ A)) as (r & E & Hr).
  { eapply sets_fuel_ok; [apply (a_nodup _ _ _ _ A)|apply A]. }
  erewrite st_bind_ok by exact E. destruct r as [f|].
  2:{ eexists _, _, _. split; [reflexivity|]. right. left. split; [done|]. split; [|done]. destruct Hr as (M1 & a & M2 & -> & Ha & [?|(M3 & a' & M4 & -> & Ha')]); [done|].
      left. by exists M1, a, M3, a', M4. }
  destruct Hr as [[Hno ->]|(_ & L1 & a & L2 & EL & (s & Hs & Ht) & N1 & N2 & ->)].
  { eexists _, _, _. split; [reflexivity|]. by left. }
  wstep. assert (a ∈ L) as HaL by (rewrite EL; apply elem_of_app; right; by left).
  case_bool_decide as Hsec. { eexists _, _, _. split; [reflexivity|]. right. left. split; [done|]. split; [|done]. right. exists a, s. naive_solver. }
  destruct (Z.eqb_spec (s_rr_count s) 0) as [Hz|Hz]. { eexists _, _, _. split; [reflexivity|]. right. left. split; [done|]. split; [|done]. right. exists a, s. naive_solver. }
  pose proof (l_rrs _ _ _ _ (b_lists _ _ _ _ _ _ _ _ _ H) a _ _ _ (view_lookup v_lists _ _ _ Hs)) as [Q1 Q2 Q3]. cbn in Q1, Q2, Q3.
  destruct (R a) as [|x l] eqn:ER. { cbn in Q3. by rewrite Q3 in Hz. }
  pose proof (seg_head _ _ _ _ _ Q1) as Efirst. cbn in Efirst. rewrite Efirst, Q2.
  assert (exists y, list.last (x :: l) = Some y) as [y Ey] by (destruct (list.last (x :: l)) eqn:El; [by eexists|by apply last_None in El]). rewrite Ey.
  destruct (opt_rr w p L R S a s x H Hs Ht) as (rx & Hx & X1 & X2 & X3); [rewrite ER; by left|].
  destruct (opt_rr w p L R S a s y H Hs Ht) as (ry & Hy & Y1 & Y2 & _); [rewrite ER; by apply last_Some_elem_of|].
  destruct (unlist_ok w L L1 a L2 s A EL Hs) as (w1 & E1 & HU & Em). cbn [app]. rewrite (st_bind_ok _ _ _ _ _ E1). cbv beta.
  pose proof HU as (_ & _ & Epk & Err & _). rewrite <- Err in Hx, Hy. pose proof (u16_at_range b d B) as Hu. unfold in_u in Hu.
  pose proof (Hu (r_ttl_data rx + 4)). pose proof (Hu (r_ttl_data ry + 4)). pose proof (lim_zlen b d B) as Hlz.
  rewrite (b_pkt _ _ _ _ _ _ _ _ _ H) in Epk.
  rewrite (st_bind_ok _ _ _ _ _ (load_rr_ok _ _ _ Hy)). cbv beta.
  erewrite st_bind_ok by (apply ask_ok; rewrite Epk, (ptr_at_at b d B) by lia; cbn [mbind outcome_bind];
    rewrite !byte_at_index by (rewrite zlen_zdrop; lia); cbn [mbind outcome_bind]; rewrite advance_ok by (rewrite zlen_zdrop; lia); cbn [mbind outcome_bind];
    rewrite (u16_at_read (zdrop (r_ttl_data ry) d) 2) by (rewrite ?zlen_zdrop; lia); reflexivity). cbv beta iota.
  destruct (b_keys _ _ _ _ _ _ _ _ _ H a s Hs) as (_ & _ & _ & _ & [Hc _] & _). cbn in Hc.
  erewrite st_bind_ok by (apply ask_ok; change (s_class s) with (zdrop 0 (s_class s)); apply (u16_at_read (s_class s) 0); lia). cbv beta.
  rewrite (st_bind_ok _ _ _ _ _ (load_rr_ok _ _ _ Hx)). cbv beta.
  erewrite st_bind_ok by (apply ask_ok; rewrite Epk; apply (ptr_at_at b d B); lia). cbv beta.
  rewrite X3, wrap_small by (unfold in_u; lia). replace (2 + u16_at d (r_ttl_data rx + 4) - 2) with (u16_at d (r_ttl_data rx + 4)) by lia.
  destruct (options_loop_ok (Z.to_nat (u16_at d (r_ttl_data rx + 4))) (r_ttl_data rx + 6) (u16_at d (r_ttl_data rx + 4)) [] w1)
    as (os & got & m & Hos & Eo & Hpre & Hall); [lia..|]. rewrite (st_bind_ok _ _ _ _ _ Eo). cbv beta. cbn [app].
  eexists _, _, _. split; [reflexivity|]. right. right. split; [done|]. exists L1, a, L2, s, x, y, (r_ttl_data rx), os, got. rewrite Err in Hx, Hy.
  split; try done.
  - by rewrite ER.
  - by rewrite Hx.
  - rewrite <- Em. done.
  - unfold edns_of. by rewrite Hy.
Qed.
End Edns.

(** C7. The EDNS record of a parsed message.  Without an OPT RRset nothing is changed, and
    [edns] is cleared.  Two OPT RRsets, one outside the additional section, or one without
    RRs give FORMERR and leave all as it was.  Otherwise the OPT RRset is taken out of the
    list of all RRsets, which stays a list, and the counts are one less; the extended
    rcode, the version, the bits and the size are those of the last OPT record, the
    options those of the first, in their order and up to the first that is not whole, or
    up to where memory ran out. *)
Theorem edns_extracted b d le raninit addr_ m w e : buf_ok b d -> parse_packet le raninit addr_ (fresh_world b m) = Ok (0, w) ->
  exists L R S, well_formed b d le raninit b.(_position) w L R S /\
    exists rc e' w', parse_extract_edns_from_response_msg e w = Ok ((rc, e'), w') /\
      (rc = LDNS_RCODE_NOERROR /\ no_opt w L /\ w' = w /\ e' = no_edns \/
       rc = LDNS_RCODE_FORMERR /\ refused w L /\ w' = w /\ e' = e \/
       rc = LDNS_RCODE_NOERROR /\ exists L1 a L2 s first last ttl os got, extracted d w w' L R e e' L1 a L2 s first last ttl os got).
Proof.
  intros B E. destruct (parse_packet_zero _ _ _ _ _ _ _ B E) as (q & L & R & S & G & H1 & H2 & H3 & H4 & _). exists L, R, S. split.
  - by apply (good_well_formed _ _ _ _ _ q).
  - apply (edns_extract_ok b d B le raninit w q L R S e). apply G.
Qed.

(** Two options, the second cut short. *)
Definition edns_packet : list Z := header 0 0 0 1 ++ record [0] 41 [0; 10; 0; 2; 7; 8; 0; 11; 0; 9; 1].

Lemma edns_packet_ok : buf_ok (packet edns_packet) edns_packet.
Proof. apply packet_ok; by vm_compute. Qed.

Lemma edns_parsed : parse_packet true 1 0 (fresh_world (packet edns_packet) []) = Ok (0, parsed_packet edns_packet).
Proof. by vm_compute. Qed.

Lemma edns_extracted_witness :
  exists L R S, well_formed (packet edns_packet) edns_packet true 1 0 (parsed_packet edns_packet) L R S /\
    exists rc e' w', parse_extract_edns_from_response_msg no_edns (parsed_packet edns_packet) = Ok ((rc, e'), w') /\
      (rc = LDNS_RCODE_NOERROR /\ no_opt (parsed_packet edns_packet) L /\ w' = parsed_packet edns_packet /\ e' = no_edns \/
       rc = LDNS_RCODE_FORMERR /\ refused (parsed_packet edns_packet) L /\ w' = parsed_packet edns_packet /\ e' = no_edns \/
       rc = LDNS_RCODE_NOERROR /\ exists L1 a L2 s first last ttl os got,
         extracted edns_packet (parsed_packet edns_packet) w' L R no_edns e' L1 a L2 s first last ttl os got).
Proof. exact (edns_extracted (packet edns_packet) edns_packet true 1 0 [] _ no_edns edns_packet_ok edns_parsed). Defined.

(** What is read from that packet. *)
Example edns_example : match parse_extract_edns_from_response_msg no_edns (parsed_packet edns_packet) with
  | Ok ((rc, e), w) => (rc, e.(udp_size), e.(edns_present), e.(opt_list_in), w.(msg).(m_rrset_first), w.(msg).(m_ar_rrsets))
  | _ => (9, 0, false, [], None, 0)
  end = (0, 1, true, [mk_option 10 2 (Some [7; 8])], None, 0).
Proof. by vm_compute. Qed.
