(* ===== verification/PackedRrset.v ===== *)
(** * RRsets as they are stored (util/data/packed_rrset.c)

    A [packed_rrset_data] is one block: the structure, three arrays, and the rdata of
    all RRs one after the other, each with its length in front.  A pointer to rdata is
    the offset from the start of the block.  The sizes are those of a 64-bit machine.
    A type and a class are the two bytes as they go over the wire. *)

From S2P Require Import Prelude Sbuffer Lookup3 Dname DnameCompare DnamePkt RrDef Msgparse.

Inductive rrset_trust :=
  | rrset_trust_none
  | rrset_trust_add_noAA
  | rrset_trust_auth_noAA
  | rrset_trust_add_AA
  | rrset_trust_nonauth_ans_AA
  | rrset_trust_ans_noAA
  | rrset_trust_glue
  | rrset_trust_auth_AA
  | rrset_trust_ans_AA
  | rrset_trust_sec_noglue
  | rrset_trust_prim_noglue
  | rrset_trust_validated
  | rrset_trust_ultimate.

Inductive sec_status :=
  | sec_status_unchecked
  | sec_status_bogus
  | sec_status_indeterminate
  | sec_status_insecure
  | sec_status_secure_sentinel_fail
  | sec_status_secure.

#[global] Instance rrset_trust_eq_dec : EqDecision rrset_trust.
Proof. solve_decision. Defined.
#[global] Instance sec_status_eq_dec : EqDecision sec_status.
Proof. solve_decision. Defined.

Record packed_rrset_data := mk_data {
  d_ttl_add : Z;
  d_ttl : Z;
  d_count : Z;
  d_rrsig_count : Z;
  d_trust : rrset_trust;
  d_security : sec_status;
  d_rr_len : list Z;
  d_rr_data : list Z;
  d_rr_ttl : list Z;
  d_rdata : list Z;
}.

(** [struct packed_rrset_key], and [struct ub_packed_rrset_key] around it. *)
Record packed_rrset_key := mk_rk {
  rk_dname : list Z;
  rk_dname_len : Z;
  rk_flags : Z;
  rk_type : list Z;
  rk_class : list Z;
}.

Record ub_packed_rrset_key := mk_key {
  entry_hash : Z;
  entry_data : option packed_rrset_data;
  id : Z;
  rk : packed_rrset_key;
}.

(** ** Fields *)

Definition with_ttl x (d : packed_rrset_data) := mk_data d.(d_ttl_add) x d.(d_count) d.(d_rrsig_count) d.(d_trust) d.(d_security) d.(d_rr_len) d.(d_rr_data) d.(d_rr_ttl) d.(d_rdata).
Definition with_ttl_add x (d : packed_rrset_data) := mk_data x d.(d_ttl) d.(d_count) d.(d_rrsig_count) d.(d_trust) d.(d_security) d.(d_rr_len) d.(d_rr_data) d.(d_rr_ttl) d.(d_rdata).
Definition with_trust x (d : packed_rrset_data) := mk_data d.(d_ttl_add) d.(d_ttl) d.(d_count) d.(d_rrsig_count) x d.(d_security) d.(d_rr_len) d.(d_rr_data) d.(d_rr_ttl) d.(d_rdata).
Definition with_rr_len x (d : packed_rrset_data) := mk_data d.(d_ttl_add) d.(d_ttl) d.(d_count) d.(d_rrsig_count) d.(d_trust) d.(d_security) x d.(d_rr_data) d.(d_rr_ttl) d.(d_rdata).
Definition with_rr_data x (d : packed_rrset_data) := mk_data d.(d_ttl_add) d.(d_ttl) d.(d_count) d.(d_rrsig_count) d.(d_trust) d.(d_security) d.(d_rr_len) x d.(d_rr_ttl) d.(d_rdata).
Definition with_rr_ttl x (d : packed_rrset_data) := mk_data d.(d_ttl_add) d.(d_ttl) d.(d_count) d.(d_rrsig_count) d.(d_trust) d.(d_security) d.(d_rr_len) d.(d_rr_data) x d.(d_rdata).
Definition with_rdata x (d : packed_rrset_data) := mk_data d.(d_ttl_add) d.(d_ttl) d.(d_count) d.(d_rrsig_count) d.(d_trust) d.(d_security) d.(d_rr_len) d.(d_rr_data) d.(d_rr_ttl) x.
Definition set_entry_data x (k : ub_packed_rrset_key) := mk_key k.(entry_hash) x k.(id) k.(rk).
Definition set_rk_dname x (k : packed_rrset_key) := mk_rk x k.(rk_dname_len) k.(rk_flags) k.(rk_type) k.(rk_class).

(** ** The block *)

(** The structure, and the three arrays of [total] elements. *)
Definition sizeof_packed_rrset_data : Z := 64.
Definition rdata_start (total : Z) : Z := sizeof_packed_rrset_data + total * (8 + 8 + 8).

Definition d_total (d : packed_rrset_data) : Z := u64 (d.(d_count) + d.(d_rrsig_count)).

(** The bytes from an offset of the block, which is in the rdata. *)
Definition block_at (d : packed_rrset_data) (o : Z) : outcome (list Z) :=
  advance (o - rdata_start (d_total d)) d.(d_rdata).

(** [d->rr_data[i]] *)
Definition rr_ptr (d : packed_rrset_data) (i : Z) : outcome (list Z) :=
  o ← index d.(d_rr_data) i; block_at d o.

Definition packed_rrset_sizeof (d : packed_rrset_data) : outcome Z :=
  if 0 <? d.(d_rrsig_count) then
    let last := u64 (d_total d - 1) in
    o ← index d.(d_rr_data) last; l ← index d.(d_rr_len) last; Ok (u64 (o + l))
  else
    check! (0 <? d.(d_count));
    let last := u64 (d.(d_count) - 1) in
    o ← index d.(d_rr_data) last; l ← index d.(d_rr_len) last; Ok (u64 (o + l)).

Fixpoint fixup_loop (n : nat) (i nextrdata : Z) (d : packed_rrset_data) : outcome packed_rrset_data :=
  match n with
  | O => Ok d
  | S n' =>
      rr_data ← store d.(d_rr_data) i nextrdata;
      let d := with_rr_data rr_data d in
      l ← index d.(d_rr_len) i;
      fixup_loop n' (i + 1) (nextrdata + l) d
  end.

Definition packed_rrset_ptr_fixup (data : packed_rrset_data) : outcome packed_rrset_data :=
  let total := d_total data in
  fixup_loop (Z.to_nat total) 0 (rdata_start total) data.

(** [memdup] of [n] bytes of the block, and the fixup of the pointers. *)
Definition copy_block (d : packed_rrset_data) (n : Z) : outcome packed_rrset_data :=
  rdata ← read_bytes (n - rdata_start (d_total d)) d.(d_rdata);
  packed_rrset_ptr_fixup (with_rdata rdata d).

(** ** Comparison and hash *)

Fixpoint equal_loop (n : nat) (i : Z) (d1 d2 : packed_rrset_data) : outcome bool :=
  match n with
  | O => Ok true
  | S n' =>
      l1 ← index d1.(d_rr_len) i;
      l2 ← index d2.(d_rr_len) i;
      if negb (l1 =? l2) then Ok false else
      p1 ← rr_ptr d1 i; p2 ← rr_ptr d2 i;
      x ← read_bytes l1 p1; y ← read_bytes l1 p2;
      if bool_decide (x <> y) then Ok false else equal_loop n' (i + 1) d1 d2
  end.

Definition rrsetdata_equal (d1 d2 : packed_rrset_data) : outcome bool :=
  if negb (d1.(d_count) =? d2.(d_count)) || negb (d1.(d_rrsig_count) =? d2.(d_rrsig_count)) then Ok false else
  equal_loop (Z.to_nat (d_total d1)) 0 d1 d2.

Fixpoint find_rr_loop (n : nat) (i : Z) (d : packed_rrset_data) (rdata : list Z) (len : Z) : outcome (option Z) :=
  match n with
  | O => Ok None
  | S n' =>
      l ← index d.(d_rr_len) i;
      if negb (l =? len) then find_rr_loop n' (i + 1) d rdata len else
      p ← rr_ptr d i;
      x ← read_bytes len p; y ← read_bytes len rdata;
      if bool_decide (x = y) then Ok (Some i) else find_rr_loop n' (i + 1) d rdata len
  end.

(** The index of the RR; [None]: it returns 0. *)
Definition packed_rrset_find_rr (d : packed_rrset_data) (rdata : list Z) (len : Z) : outcome (option Z) :=
  find_rr_loop (Z.to_nat d.(d_count)) 0 d rdata len.

Definition ntohs (l : list Z) : outcome Z := sldns_read_uint16 l.

Section Keys.
Context (le : bool) (raninit addr_ : Z).

(** Two bytes as an integer of the machine. *)
Definition host_u16 (l : list Z) : outcome Z :=
  x ← index l 0; y ← index l 1; Ok (if le then Z.lor (Z.shiftl y 8) x else Z.lor (Z.shiftl x 8) y).

(** [same]: the two pointers are equal. *)
Definition ub_rrset_compare (same : bool) (k1 k2 : ub_packed_rrset_key) : outcome Z :=
  if same then Ok 0 else
  let r1 := k1.(rk) in let r2 := k2.(rk) in
  t1 ← host_u16 r1.(rk_type); t2 ← host_u16 r2.(rk_type);
  if negb (t1 =? t2) then Ok (if t1 <? t2 then -1 else 1) else
  if negb (r1.(rk_dname_len) =? r2.(rk_dname_len)) then Ok (if r1.(rk_dname_len) <? r2.(rk_dname_len) then -1 else 1) else
  c ← query_dname_compare r1.(rk_dname) r2.(rk_dname);
  if negb (c =? 0) then Ok c else
  c1 ← host_u16 r1.(rk_class); c2 ← host_u16 r2.(rk_class);
  if negb (c1 =? c2) then Ok (if c1 <? c2 then -1 else 1) else
  if negb (r1.(rk_flags) =? r2.(rk_flags)) then Ok (if r1.(rk_flags) <? r2.(rk_flags) then -1 else 1) else
  Ok 0.

Definition rrset_key_hash (key : packed_rrset_key) : outcome Z :=
  t ← ntohs key.(rk_type);
  h ← dname_query_hash le raninit addr_ key.(rk_dname) 171;
  h ← hashlittle le raninit addr_ (host_bytes le 2 t) 2 h;
  h ← hashlittle le raninit addr_ key.(rk_class) 2 h;
  hashlittle le raninit addr_ (host_bytes le 4 key.(rk_flags)) 4 h.
End Keys.

(** ** CNAMEs *)

Definition nonnull {A} (o : option A) : outcome A := match o with Some a => Ok a | None => Fault Undefined end.

(** The new [*dname] and [*dname_len]; [None]: they are left alone. *)
Definition get_cname_target (rrset : ub_packed_rrset_key) : outcome (option (list Z * Z)) :=
  t ← ntohs rrset.(rk).(rk_type);
  if negb (t =? LDNS_RR_TYPE_CNAME) && negb (t =? LDNS_RR_TYPE_DNAME) then Ok None else
  d ← nonnull rrset.(entry_data);
  if d.(d_count) <? 1 then Ok None else
  l0 ← index d.(d_rr_len) 0;
  if l0 <? 3 then Ok None else
  p ← rr_ptr d 0;
  len ← sldns_read_uint16 p;
  if negb (len =? u64 (l0 - 2)) then Ok None else
  q ← advance 2 p;
  n ← dname_valid q len;
  if negb (n =? len) then Ok None else Ok (Some (q, len)).

(** ** TTLs, in [time_t] *)

Fixpoint ttl_add_loop (n : nat) (i add : Z) (rr_ttl : list Z) : outcome (list Z) :=
  match n with
  | O => Ok rr_ttl
  | S n' =>
      t ← index rr_ttl i;
      t ← sint 64 (t + add);
      rr_ttl ← store rr_ttl i t;
      ttl_add_loop n' (i + 1) add rr_ttl
  end.

Definition packed_rrset_ttl_add (data : packed_rrset_data) (add : Z) : outcome packed_rrset_data :=
  t ← sint 64 (data.(d_ttl) + add);
  rr_ttl ← ttl_add_loop (Z.to_nat (d_total data)) 0 add data.(d_rr_ttl);
  Ok (with_rr_ttl rr_ttl (with_ttl t (with_ttl_add add data))).

Definition ub_packed_rrset_ttl (key : ub_packed_rrset_key) : outcome Z :=
  d ← nonnull key.(entry_data); Ok d.(d_ttl).

(** The settings of the configuration (util/data/msgreply.c). *)
Record ttl_settings := mk_settings {
  MAX_TTL : Z;
  MIN_TTL : Z;
  MAX_NEG_TTL : Z;
  MIN_NEG_TTL : Z;
  SERVE_EXPIRED : bool;
  SERVE_EXPIRED_TTL : Z;
  SERVE_EXPIRED_REPLY_TTL : Z;
  SERVE_ORIGINAL_TTL : bool;
}.

(** What the program starts with. *)
Definition default_settings : ttl_settings := mk_settings (3600 * 24 * 10) 0 3600 0 false 0 30 false.

Section Copy.
Context (cfg : ttl_settings).

Definition relative_ttl (adjust t : Z) : outcome Z :=
  if t <? adjust then Ok (if cfg.(SERVE_EXPIRED) then cfg.(SERVE_EXPIRED_REPLY_TTL) else 0) else sint 64 (t - adjust).

Fixpoint relative_loop (n : nat) (i adjust : Z) (rr_ttl : list Z) : outcome (list Z) :=
  match n with
  | O => Ok rr_ttl
  | S n' =>
      t ← index rr_ttl i;
      t ← relative_ttl adjust t;
      rr_ttl ← store rr_ttl i t;
      relative_loop n' (i + 1) adjust rr_ttl
  end.

(** The TTLs of a copy, made relative to [now]. *)
Definition make_relative (data d : packed_rrset_data) (now : Z) : outcome packed_rrset_data :=
  let adjust := if cfg.(SERVE_ORIGINAL_TTL) then data.(d_ttl_add) else now in
  rr_ttl ← relative_loop (Z.to_nat (d_total d)) 0 adjust d.(d_rr_ttl);
  t ← relative_ttl adjust d.(d_ttl);
  Ok (with_ttl_add 0 (with_ttl t (with_rr_ttl rr_ttl d))).

(** The answers of the region: for the key, its name and the data. *)
Definition packed_rrset_copy_region (key : ub_packed_rrset_key) (m : mem) (now : Z) : outcome (option ub_packed_rrset_key * mem) :=
  data ← nonnull key.(entry_data);
  let '(ok, m) := malloc m in
  if negb ok then Ok (None, m) else
  let '(ok, m) := malloc m in
  if negb ok then Ok (None, m) else
  dname ← read_bytes key.(rk).(rk_dname_len) key.(rk).(rk_dname);
  dsize ← packed_rrset_sizeof data;
  let '(ok, m) := malloc m in
  if negb ok then Ok (None, m) else
  d ← copy_block data dsize;
  d ← make_relative data d now;
  Ok (Some (mk_key key.(entry_hash) (Some d) key.(id) (set_rk_dname dname key.(rk))), m).
End Copy.
