(* ===== verification/PackedBlock.v ===== *)
(** * RRsets as they are stored: the block and the key

    A block that is packed holds its RRs without gaps, in their order.  Such a block can
    be measured, copied, compared and searched.  Keys are ordered, and equal ones have one
    hash. *)

From S2P Require Import Prelude Sbuffer Lookup3 Dname DnameCompare DnamePkt RrDef Msgparse MsgPkt PackedRrset.

(** The pointers, when the first RR is at [o]. *)
Fixpoint starts (o : Z) (l : list (list Z)) : list Z :=
  match l with [] => [] | r :: l' => o :: starts (o + zlen r) l' end.

(** The RRs of the block [x] are [l]: all of their bytes, the length in front included. *)
Record packed_ok (x : packed_rrset_data) (l : list (list Z)) : Prop := {
  pk_total : x.(d_count) + x.(d_rrsig_count) = zlen l;
  pk_counts : 0 <= x.(d_count) /\ 0 <= x.(d_rrsig_count);
  pk_len : x.(d_rr_len) = map zlen l;
  pk_data : x.(d_rr_data) = starts (rdata_start (zlen l)) l;
  pk_ttl : zlen x.(d_rr_ttl) = zlen l;
  pk_rdata : x.(d_rdata) = concat l;
  pk_size : rdata_start (zlen l) + zlen (concat l) < 2 ^ 64;
}.

Lemma starts_app l1 : forall o l2, starts o (l1 ++ l2) = starts o l1 ++ starts (o + zlen (concat l1)) l2.
Proof.
  induction l1 as [|r l1 IH]; intros o l2; cbn [starts app concat].
  - by rewrite Z.add_0_r.
  - rewrite IH, zlen_app, Z.add_assoc. done.
Qed.

Lemma zlen_starts l : forall o, zlen (starts o l) = zlen l.
Proof. induction l as [|r l IH]; intros o; [done|]. cbn [starts]. by rewrite !zlen_cons, IH. Qed.

Lemma index_app (l1 : list Z) x l2 i : i = zlen l1 -> index (l1 ++ x :: l2) i = Ok x.
Proof.
  intros ->. unfold index. pose proof (zlen_nonneg l1). rewrite leb_true by lia. rewrite to_nat_zlen, lookup_app_r, Nat.sub_diag by lia. done.
Qed.

Lemma ztake_zlen (l : list Z) n : n = zlen l -> ztake n l = l.
Proof. intros ->. unfold ztake. by rewrite to_nat_zlen, firstn_all. Qed.

Section Block.
Context (x : packed_rrset_data) (l : list (list Z)) (X : packed_ok x l).

Lemma packed_total : d_total x = zlen l.
Proof.
  destruct X. unfold d_total. rewrite pk_total0. apply wrap_small. pose proof (zlen_nonneg l). pose proof (zlen_nonneg (concat l)).
  unfold in_u, rdata_start, sizeof_packed_rrset_data in *. lia.
Qed.

Lemma packed_len l1 r l2 : l = l1 ++ r :: l2 -> index x.(d_rr_len) (zlen l1) = Ok (zlen r).
Proof. intros ->. rewrite (pk_len _ _ X), map_app. cbn [map]. apply index_app. by rewrite zlen_map. Qed.

Lemma packed_start l1 r l2 : l = l1 ++ r :: l2 -> index x.(d_rr_data) (zlen l1) = Ok (rdata_start (zlen l) + zlen (concat l1)).
Proof. intros E. rewrite (pk_data _ _ X). generalize (rdata_start (zlen l)). intros o. rewrite E, starts_app. cbn [starts]. apply index_app. by rewrite zlen_starts. Qed.

(** [d->rr_data[i]] points to the bytes of the RR. *)
Lemma packed_ptr l1 r l2 : l = l1 ++ r :: l2 -> rr_ptr x (zlen l1) = Ok (r ++ concat l2).
Proof.
  intros E. unfold rr_ptr. rewrite (packed_start l1 r l2 E). cbn [mbind outcome_bind]. unfold block_at. rewrite packed_total, (pk_rdata _ _ X).
  pose proof (zlen_nonneg (concat l1)). pose proof (zlen_nonneg (concat (r :: l2))).
  replace (_ - _) with (zlen (concat l1)) by lia. rewrite E, concat_app.
  rewrite advance_ok by (rewrite zlen_app; lia). by rewrite zdrop_app_zlen.
Qed.

Lemma packed_read l1 r l2 : l = l1 ++ r :: l2 -> (p ← rr_ptr x (zlen l1); read_bytes (zlen r) p) = Ok r.
Proof.
  intros E. rewrite (packed_ptr l1 r l2 E). cbn [mbind outcome_bind]. pose proof (zlen_nonneg r). pose proof (zlen_nonneg (concat l2)).
  rewrite read_bytes_ok by (rewrite zlen_app; lia). by rewrite ztake_app_zlen.
Qed.

(** *** The size *)

Definition block_size : Z := rdata_start (zlen l) + zlen (concat l).

Lemma packed_sizeof : l <> [] -> packed_rrset_sizeof x = Ok block_size.
Proof.
  intros Hne. destruct (exists_last Hne) as (l0 & r & E). pose proof (pk_size _ _ X) as Hs. destruct (pk_counts _ _ X) as [H1 H2]. pose proof (pk_total _ _ X) as Ht.
  pose proof (zlen_nonneg l0). assert (zlen l = zlen l0 + 1) as Hl by (by rewrite E, zlen_app).
  pose proof (zlen_nonneg (concat l0)). pose proof (zlen_nonneg r). pose proof (zlen_nonneg (concat l)).
  assert (zlen (concat l) = zlen (concat l0) + zlen r) as Hc by (rewrite E, concat_app, zlen_app; cbn [concat]; by rewrite app_nil_r).
  assert (forall i, i = zlen l0 -> (o ← index x.(d_rr_data) i; n ← index x.(d_rr_len) i; Ok (u64 (o + n))) = Ok block_size) as Hlast.
  { intros i ->. rewrite (packed_start l0 r [] E), (packed_len l0 r [] E). cbn [mbind outcome_bind]. f_equal. unfold block_size.
    rewrite wrap_small by (unfold in_u, rdata_start, sizeof_packed_rrset_data in *; lia). lia. }
  assert (zlen l < 2 ^ 64) by (unfold rdata_start, sizeof_packed_rrset_data in Hs; lia).
  unfold packed_rrset_sizeof. zcase.
  - apply Hlast. rewrite packed_total, wrap_small by (unfold in_u; lia). lia.
  - rewrite ltb_true by lia. apply Hlast. rewrite wrap_small by (unfold in_u; lia). lia.
Qed.

(** *** The pointers *)

(** The fixup sets every pointer, whatever was there. *)
Lemma fixup_loop_ok l2 : forall l1 y data, l = l1 ++ l2 -> y.(d_rr_len) = x.(d_rr_len) -> y.(d_rr_data) = starts (rdata_start (zlen l)) l1 ++ data -> zlen data = zlen l2 ->
  fixup_loop (length l2) (zlen l1) (rdata_start (zlen l) + zlen (concat l1)) y = Ok (with_rr_data x.(d_rr_data) y).
Proof.
  induction l2 as [|r l2 IH]; intros l1 y data E Hy Hd Hl; cbn [length fixup_loop].
  - destruct data; [|unfold zlen in Hl; cbn in Hl; lia]. rewrite app_nil_r in E, Hd. subst l1. rewrite (pk_data _ _ X), <- Hd. by destruct y.
  - destruct data as [|z data]; [unfold zlen in Hl; cbn in Hl; lia|]. rewrite !zlen_cons in Hl.
    assert (store y.(d_rr_data) (zlen l1) (rdata_start (zlen l) + zlen (concat l1)) = Ok (starts (rdata_start (zlen l)) l1 ++ (rdata_start (zlen l) + zlen (concat l1)) :: data)) as ->.
    { rewrite Hd. unfold store. pose proof (zlen_nonneg l1). pose proof (zlen_nonneg data). rewrite zlen_app, zlen_cons, zlen_starts, leb_true, ltb_true by lia. cbn [andb]. f_equal.
      rewrite insert_app_r_alt by (pose proof (zlen_starts l1 (rdata_start (zlen l))); unfold zlen in *; lia).
      replace (Z.to_nat (zlen l1) - length (starts (rdata_start (zlen l)) l1))%nat with 0%nat by (pose proof (zlen_starts l1 (rdata_start (zlen l))); unfold zlen in *; lia). done. }
    cbn [mbind outcome_bind d_rr_len with_rr_data]. rewrite Hy, (packed_len l1 r l2 E). cbn [mbind outcome_bind].
    assert (zlen (l1 ++ [r]) = zlen l1 + 1) as Ez by (by rewrite zlen_app). rewrite <- Ez.
    assert (zlen (concat (l1 ++ [r])) = zlen (concat l1) + zlen r) as Ec by (rewrite concat_app, zlen_app; cbn [concat]; by rewrite app_nil_r).
    rewrite <- Z.add_assoc, <- Ec. rewrite (IH (l1 ++ [r]) _ data); [done|by rewrite E, <- app_assoc|done| |lia].
    cbn [d_rr_data with_rr_data]. rewrite starts_app, <- app_assoc. done.
Qed.

Lemma packed_fixup data : zlen data = zlen l -> packed_rrset_ptr_fixup (with_rr_data data x) = Ok x.
Proof.
  intros Hl. unfold packed_rrset_ptr_fixup. change (d_total (with_rr_data data x)) with (d_total x). rewrite packed_total, to_nat_zlen.
  pose proof (fixup_loop_ok l [] (with_rr_data data x) data eq_refl eq_refl eq_refl Hl) as E. change (zlen (concat [])) with 0 in E. rewrite Z.add_0_r in E.
  change (zlen []) with 0 in E. rewrite E. by destruct x.
Qed.

(** A copy of the block is the block. *)
Lemma packed_copy : l <> [] -> (n ← packed_rrset_sizeof x; copy_block x n) = Ok x.
Proof.
  intros Hne. rewrite (packed_sizeof Hne). cbn [mbind outcome_bind]. unfold copy_block, block_size. rewrite packed_total, (pk_rdata _ _ X). pose proof (zlen_nonneg (concat l)).
  rewrite read_bytes_ok by lia. cbn [mbind outcome_bind]. replace (_ - _) with (zlen (concat l)) by lia. rewrite ztake_zlen by lia.
  assert (with_rdata (concat l) x = with_rr_data x.(d_rr_data) x) as -> by (rewrite <- (pk_rdata _ _ X); by destruct x).
  apply packed_fixup. rewrite (pk_data _ _ X). apply zlen_starts.
Qed.

(** *** The search *)

Lemma find_rr_loop_ok rdata n l2 : n = zlen rdata -> forall l1 l3, l = l1 ++ l2 ++ l3 ->
  exists r, find_rr_loop (length l2) (zlen l1) x rdata n = Ok r /\
    match r with
    | Some i => exists k1 k2, l2 = k1 ++ rdata :: k2 /\ rdata ∉ k1 /\ i = zlen (l1 ++ k1)
    | None => rdata ∉ l2
    end.
Proof.
  intros ->. induction l2 as [|r l2 IH]; intros l1 l3 E; cbn [length find_rr_loop].
  - exists None. split; [done|]. apply not_elem_of_nil.
  - cbn [app] in E. rewrite (packed_len l1 r (l2 ++ l3) E). cbn [mbind outcome_bind].
    assert (exists r', find_rr_loop (length l2) (zlen l1 + 1) x rdata (zlen rdata) = Ok r' /\
      match r' with
      | Some i => exists k1 k2, l2 = k1 ++ rdata :: k2 /\ rdata ∉ k1 /\ i = zlen ((l1 ++ [r]) ++ k1)
      | None => rdata ∉ l2
      end) as (r' & E' & Hr').
    { destruct (IH (l1 ++ [r]) l3) as (r' & E' & Hr'); [by rewrite E, <- app_assoc|]. rewrite zlen_app in E'. by exists r'. }
    assert (r <> rdata -> exists r0, find_rr_loop (length l2) (zlen l1 + 1) x rdata (zlen rdata) = Ok r0 /\
      match r0 with
      | Some i => exists k1 k2, r :: l2 = k1 ++ rdata :: k2 /\ rdata ∉ k1 /\ i = zlen (l1 ++ k1)
      | None => rdata ∉ r :: l2
      end) as Hnext.
    { intros Hr. exists r'. split; [done|]. destruct r' as [i|].
      - destruct Hr' as (k1 & k2 & -> & Hk & ->). exists (r :: k1), k2. split; [done|]. split; [by rewrite not_elem_of_cons|]. by rewrite <- app_assoc.
      - by rewrite not_elem_of_cons. }
    destruct (Z.eqb_spec (zlen r) (zlen rdata)) as [Ez|Ez]; cbn [negb]; [|apply Hnext; intros ->; done].
    rewrite (packed_ptr l1 r (l2 ++ l3) E). cbn [mbind outcome_bind]. pose proof (zlen_nonneg (concat (l2 ++ l3))). pose proof (zlen_nonneg rdata).
    rewrite (read_bytes_ok _ (r ++ _)) by (rewrite zlen_app; lia). cbn [mbind outcome_bind]. rewrite (read_bytes_ok _ rdata) by lia. cbn [mbind outcome_bind].
    rewrite (ztake_zlen rdata), <- Ez, ztake_app_zlen by done. case_bool_decide as Hd.
    + subst r. exists (Some (zlen l1)). split; [done|]. exists [], l2. split; [done|]. split; [apply not_elem_of_nil|by rewrite app_nil_r].
    + rewrite Ez. by apply Hnext.
Qed.
End Block.

(** *** Comparison *)

Lemma equal_loop_ok x y l k : packed_ok x l -> packed_ok y k -> forall l2 l1 k1 k2, l = l1 ++ l2 -> k = k1 ++ k2 -> zlen l1 = zlen k1 -> length l2 = length k2 ->
  equal_loop (length l2) (zlen l1) x y = Ok (bool_decide (l2 = k2)).
Proof.
  intros X Y. induction l2 as [|r l2 IH]; intros l1 k1 [|s k2] El Ek Ez Hl; try done.
  cbn [length equal_loop]. injection Hl as Hl. rewrite (packed_len x l X l1 r l2 El), Ez, (packed_len y k Y k1 s k2 Ek). cbn [mbind outcome_bind].
  destruct (Z.eqb_spec (zlen r) (zlen s)) as [En|En]; cbn [negb].
  2:{ rewrite bool_decide_false; [done|]. by intros [= -> ->]. }
  rewrite <- Ez at 1. rewrite (packed_ptr x l X l1 r l2 El), (packed_ptr y k Y k1 s k2 Ek). cbn [mbind outcome_bind].
  pose proof (zlen_nonneg (concat l2)). pose proof (zlen_nonneg (concat k2)). pose proof (zlen_nonneg s).
  rewrite (read_bytes_ok _ (r ++ _)), (read_bytes_ok _ (s ++ _)) by (rewrite zlen_app; lia). cbn [mbind outcome_bind].
  assert (ztake (zlen r) (s ++ concat k2) = s) as -> by (rewrite En; apply ztake_app_zlen). rewrite ztake_app_zlen. case_bool_decide as Hrs.
  - rewrite bool_decide_false; [done|]. by intros [= -> ->].
  - subst r. assert (zlen (l1 ++ [s]) = zlen k1 + 1) as E1 by (rewrite zlen_app, Ez; done). rewrite <- E1.
    rewrite (IH (l1 ++ [s]) (k1 ++ [s]) k2); [|by rewrite El, <- app_assoc|by rewrite Ek, <- app_assoc|by rewrite !zlen_app, Ez|done].
    f_equal. apply bool_decide_ext. split; [by intros ->|by intros [= ->]].
Qed.

(** Two packed blocks compare as equal exactly when they have the same RRs and
    signatures in the same order; TTLs, trust and the place of the rdata do not count. *)
Lemma rrsetdata_equal_spec x y l k : packed_ok x l -> packed_ok y k ->
  rrsetdata_equal x y = Ok (bool_decide (x.(d_count) = y.(d_count) /\ l = k)).
Proof.
  intros X Y. pose proof (pk_total _ _ X) as Tx. pose proof (pk_total _ _ Y) as Ty. unfold rrsetdata_equal.
  destruct (Z.eqb_spec x.(d_count) y.(d_count)) as [E1|E1]; cbn [negb orb]; [|by rewrite bool_decide_false by tauto].
  destruct (Z.eqb_spec x.(d_rrsig_count) y.(d_rrsig_count)) as [E2|E2]; cbn [negb].
  2:{ rewrite bool_decide_false; [done|]. intros [_ ->]. lia. }
  rewrite (packed_total x l X), to_nat_zlen.
  pose proof (equal_loop_ok x y l k X Y l [] [] k eq_refl eq_refl eq_refl ltac:(unfold zlen in *; lia)) as E. change (zlen []) with 0 in E. rewrite E.
  f_equal. apply bool_decide_ext. tauto.
Qed.

(** The search in a packed block finds the first RR with the bytes looked for, the
    length of the rdata included, and does not look at the signatures. *)
Lemma packed_rrset_find_rr_spec x l rdata : packed_ok x l ->
  exists r, packed_rrset_find_rr x rdata (zlen rdata) = Ok r /\
    match r with
    | Some i => 0 <= i < x.(d_count) /\ l !! Z.to_nat i = Some rdata /\ rdata ∉ take (Z.to_nat i) l
    | None => rdata ∉ take (Z.to_nat x.(d_count)) l
    end.
Proof.
  intros X. destruct (pk_counts _ _ X) as [H1 H2]. pose proof (pk_total _ _ X) as Ht.
  set (n := Z.to_nat x.(d_count)). assert (length (take n l) = n) as En by (rewrite length_take; unfold zlen in Ht; lia).
  destruct (find_rr_loop_ok x l X rdata (zlen rdata) (take n l) eq_refl [] (drop n l)) as (r & E & Hr); [cbn [app]; by rewrite take_drop|].
  rewrite En in E. exists r. split; [exact E|]. destruct r as [i|]; [|done].
  destruct Hr as (k1 & k2 & Ek & Hk & ->). cbn [app]. rewrite to_nat_zlen.
  assert (l = k1 ++ rdata :: k2 ++ drop n l) as El by (rewrite <- (take_drop n l) at 1; rewrite Ek, <- app_assoc; done).
  split; [|split].
  - apply (f_equal length) in Ek. rewrite En, length_app in Ek. cbn in Ek. unfold zlen. lia.
  - rewrite El, lookup_app_r, Nat.sub_diag by lia. done.
  - rewrite El. by rewrite take_app_length.
Qed.

(** ** Copies *)

Lemma relative_loop_ok cfg adjust l2 : forall l1, Forall (fun t => t < adjust \/ in_s 64 (t - adjust)) l2 ->
  relative_loop cfg (length l2) (zlen l1) adjust (l1 ++ l2)
  = Ok (l1 ++ map (fun t => if t <? adjust then if cfg.(SERVE_EXPIRED) then cfg.(SERVE_EXPIRED_REPLY_TTL) else 0 else t - adjust) l2).
Proof.
  induction l2 as [|t l2 IH]; intros l1 H; [done|]. apply Forall_cons in H as [Ht H]. cbn [length relative_loop map].
  rewrite index_app by done. cbn [mbind outcome_bind]. set (t' := if t <? adjust then _ else t - adjust).
  assert (relative_ttl cfg adjust t = Ok t') as -> by (unfold relative_ttl, t'; destruct (Z.ltb_spec t adjust); [done|apply sint_ok; destruct Ht; [lia|done]]). cbn [mbind outcome_bind].
  assert (store (l1 ++ t :: l2) (zlen l1) t' = Ok ((l1 ++ [t']) ++ l2)) as ->.
  { unfold store. pose proof (zlen_nonneg l1). pose proof (zlen_nonneg l2). rewrite zlen_app, zlen_cons, leb_true, ltb_true by lia. cbn [andb]. f_equal.
    rewrite to_nat_zlen, insert_app_r_alt, Nat.sub_diag, <- app_assoc by lia. done. }
  cbn [mbind outcome_bind]. assert (zlen (l1 ++ [t']) = zlen l1 + 1) as <- by (by rewrite zlen_app). rewrite IH by done. by rewrite <- app_assoc.
Qed.

Lemma store_mid l1 (t : Z) l2 y : store (l1 ++ t :: l2) (zlen l1) y = Ok ((l1 ++ [y]) ++ l2).
Proof.
  unfold store. pose proof (zlen_nonneg l1). pose proof (zlen_nonneg l2). rewrite zlen_app, zlen_cons, leb_true, ltb_true by lia. cbn [andb]. f_equal.
  rewrite to_nat_zlen, insert_app_r_alt, Nat.sub_diag, <- app_assoc by lia. done.
Qed.

Lemma ttl_add_loop_ok add l2 : forall l1, Forall (fun t => in_s 64 (t + add)) l2 ->
  ttl_add_loop (length l2) (zlen l1) add (l1 ++ l2) = Ok (l1 ++ map (fun t => t + add) l2).
Proof.
  induction l2 as [|t l2 IH]; intros l1 H; [done|]. apply Forall_cons in H as [Ht H]. cbn [length ttl_add_loop map].
  rewrite index_app by done. cbn [mbind outcome_bind]. rewrite sint_ok by done. cbn [mbind outcome_bind]. rewrite store_mid. cbn [mbind outcome_bind].
  assert (zlen (l1 ++ [t + add]) = zlen l1 + 1) as <- by (by rewrite zlen_app). rewrite IH by done. by rewrite <- app_assoc.
Qed.

(** A TTL after [e] seconds. *)
Definition age (cfg : ttl_settings) (e t : Z) : Z :=
  if t <? e then if cfg.(SERVE_EXPIRED) then cfg.(SERVE_EXPIRED_REPLY_TTL) else 0 else t - e.

Definition aged (cfg : ttl_settings) (e : Z) (x : packed_rrset_data) : packed_rrset_data :=
  with_ttl_add 0 (with_ttl (age cfg e x.(d_ttl)) (with_rr_ttl (map (age cfg e) x.(d_rr_ttl)) x)).

(** The block with its TTLs made absolute. *)
Definition absolute (now : Z) (x : packed_rrset_data) : packed_rrset_data :=
  with_rr_ttl (map (fun t => t + now) x.(d_rr_ttl)) (with_ttl (x.(d_ttl) + now) (with_ttl_add now x)).

Lemma absolute_ok now x l : packed_ok x l -> packed_ok (absolute now x) l.
Proof. intros []. split; try done. cbn. by rewrite zlen_map. Qed.

Definition sane_ttl (t : Z) : Prop := 0 <= t < 2 ^ 62.

Lemma ttl_add_ok x l now : packed_ok x l -> sane_ttl now -> Forall sane_ttl (x.(d_ttl) :: x.(d_rr_ttl)) -> packed_rrset_ttl_add x now = Ok (absolute now x).
Proof.
  intros X Hn [Ht Hl]%Forall_cons. unfold sane_ttl in *. unfold packed_rrset_ttl_add. rewrite sint_ok by (unfold in_s; lia). cbn [mbind outcome_bind].
  rewrite (packed_total x l X), <- (pk_ttl _ _ X), to_nat_zlen. pose proof (ttl_add_loop_ok now x.(d_rr_ttl) []) as E. cbn [app] in E. change (zlen []) with 0 in E. rewrite E; [done|].
  eapply Forall_impl; [exact Hl|]. unfold in_s. cbn. lia.
Qed.

Lemma relative_age cfg now e t : sane_ttl t -> (if t + now <? now + e then if cfg.(SERVE_EXPIRED) then cfg.(SERVE_EXPIRED_REPLY_TTL) else 0 else t + now - (now + e)) = age cfg e t.
Proof. intros _. unfold age. destruct (Z.ltb_spec (t + now) (now + e)), (Z.ltb_spec t e); try done; lia. Qed.

Lemma make_relative_ok cfg x l now e : packed_ok x l -> sane_ttl now -> 0 <= e -> now + e < 2 ^ 62 -> Forall sane_ttl (x.(d_ttl) :: x.(d_rr_ttl)) ->
  (rr_ttl ← relative_loop cfg (Z.to_nat (d_total (absolute now x))) 0 (now + e) (absolute now x).(d_rr_ttl);
   t ← relative_ttl cfg (now + e) (absolute now x).(d_ttl);
   Ok (with_ttl_add 0 (with_ttl t (with_rr_ttl rr_ttl (absolute now x))))) = Ok (aged cfg e x).
Proof.
  intros X Hn He Hne [Ht Hl]%Forall_cons. unfold sane_ttl in *. rewrite (packed_total _ l (absolute_ok now x l X)), <- (pk_ttl _ _ (absolute_ok now x l X)), to_nat_zlen.
  pose proof (relative_loop_ok cfg (now + e) (absolute now x).(d_rr_ttl) []) as E. cbn [app] in E. change (zlen []) with 0 in E. rewrite E.
  2:{ cbn. apply Forall_map. eapply Forall_impl; [exact Hl|]. unfold in_s. cbn. lia. }
  cbn [mbind outcome_bind]. assert (relative_ttl cfg (now + e) (d_ttl (absolute now x)) = Ok (age cfg e (d_ttl x))) as ->.
  { cbn. rewrite <- (relative_age cfg now) by done. unfold relative_ttl. destruct (_ <? _) eqn:?; [done|]. apply sint_ok. unfold in_s. lia. }
  cbn [mbind outcome_bind]. f_equal. unfold aged, absolute. cbn. rewrite map_map. erewrite map_ext_in; [reflexivity|]. intros t Hin.
  apply relative_age. rewrite Forall_forall in Hl. by apply Hl, list_elem_of_In.
Qed.

(** C12. An RRset that is stored at one time, with its TTLs made absolute, and copied to a
    region at a later time is the same RRset, its block byte for byte, with every TTL less
    the time that passed; a TTL that is over is 0, or the one for expired data if those are
    served; with the setting for original TTLs they are as they were.  The copy fails only
    when an allocation does. *)
Theorem stored_rrset_ages cfg x l key m now later : packed_ok x l -> l <> [] -> key.(rk).(rk_dname_len) = zlen key.(rk).(rk_dname) ->
  0 <= now <= later -> later < 2 ^ 62 -> Forall sane_ttl (x.(d_ttl) :: x.(d_rr_ttl)) ->
  exists y r m', packed_rrset_ttl_add x now = Ok y /\ packed_rrset_copy_region cfg (set_entry_data (Some y) key) m later = Ok (r, m') /\
    (r = None -> ~ mallocs_ok m) /\
    forall k, r = Some k -> k = set_entry_data (Some (aged cfg (if cfg.(SERVE_ORIGINAL_TTL) then 0 else later - now) x)) key.
Proof.
  intros X Hne Hd Hn Hlt Ht. rewrite (ttl_add_ok x l now X) by (done || unfold sane_ttl; lia). exists (absolute now x).
  pose proof (absolute_ok now x l X) as Y. unfold packed_rrset_copy_region. cbn [entry_data set_entry_data nonnull mbind outcome_bind rk].
  destruct (malloc m) as [[] m1] eqn:E1; cbn [negb]; [|eexists None, m1; do 2 (split; [done|]); split; [intros _ H; by destruct (malloc_ok _ _ _ E1 H)|done]].
  destruct (malloc m1) as [[] m2] eqn:E2; cbn [negb].
  2:{ eexists None, m2. do 2 (split; [done|]). split; [|done]. intros _ H. destruct (malloc_ok _ _ _ E1 H) as [_ H1]. by destruct (malloc_ok _ _ _ E2 H1). }
  rewrite Hd, read_bytes_ok, ztake_zlen by (done || pose proof (zlen_nonneg (rk_dname (rk key))); lia). cbn [mbind outcome_bind].
  pose proof (packed_copy _ l Y Hne) as Hc. destruct (packed_rrset_sizeof (absolute now x)) as [n| |]; [|done..]. cbn [mbind outcome_bind] in *.
  destruct (malloc m2) as [[] m3] eqn:E3; cbn [negb].
  2:{ eexists None, m3. do 2 (split; [done|]). split; [|done]. intros _ H. destruct (malloc_ok _ _ _ E1 H) as [_ H1]. destruct (malloc_ok _ _ _ E2 H1) as [_ H2]. by destruct (malloc_ok _ _ _ E3 H2). }
  rewrite Hc. cbn [mbind outcome_bind]. set (e := if cfg.(SERVE_ORIGINAL_TTL) then 0 else later - now).
  assert (make_relative cfg (absolute now x) (absolute now x) later = Ok (aged cfg e x)) as ->.
  { rewrite <- (make_relative_ok cfg x l now e X) by (done || unfold sane_ttl, e; destruct (SERVE_ORIGINAL_TTL cfg); lia). unfold make_relative.
    assert ((if cfg.(SERVE_ORIGINAL_TTL) then (absolute now x).(d_ttl_add) else later) = now + e) as -> by (unfold e; cbn; destruct (SERVE_ORIGINAL_TTL cfg); lia). done. }
  cbn [mbind outcome_bind]. eexists _, m3. split; [done|]. split; [done|]. split; [done|]. intros k [= <-]. by destruct key as [? ? ? []].
Qed.

(** An RR and a signature. *)
Definition sample_rrs : list (list Z) := [[0; 4; 1; 2; 3; 4]; [0; 2; 7; 7]].
Definition sample_data : packed_rrset_data :=
  mk_data 0 300 1 1 rrset_trust_ans_AA sec_status_unchecked [6; 4] [112; 118] [300; 3600] [0; 4; 1; 2; 3; 4; 0; 2; 7; 7].
Definition sample_key : ub_packed_rrset_key := mk_key 5 None 9 (mk_rk [1; 97; 0] 3 0 [0; 1] [0; 1]).

Lemma sample_packed : packed_ok sample_data sample_rrs.
Proof. split; by vm_compute. Qed.

Lemma sample_sane : Forall sane_ttl (sample_data.(d_ttl) :: sample_data.(d_rr_ttl)).
Proof. repeat constructor; cbn; lia. Qed.

Lemma stored_rrset_ages_witness :
  exists y r m', packed_rrset_ttl_add sample_data 1000 = Ok y /\
    packed_rrset_copy_region default_settings (set_entry_data (Some y) sample_key) [] 1400 = Ok (r, m') /\ (r = None -> ~ mallocs_ok []) /\
    forall k, r = Some k -> k = set_entry_data (Some (aged default_settings (if default_settings.(SERVE_ORIGINAL_TTL) then 0 else 1400 - 1000) sample_data)) sample_key.
Proof.
  apply (stored_rrset_ages default_settings sample_data sample_rrs sample_key [] 1000 1400);
    [exact sample_packed|done|reflexivity|lia|lia|exact sample_sane].
Defined.

(** The address is over, the signature has 3200 seconds left. *)
Example sample_aged : (aged default_settings 400 sample_data).(d_rr_ttl) = [0; 3200].
Proof. reflexivity. Qed.

(** ** RRsets as they are stored: the key

    The comparison and the hash of the keys, as the RRset cache uses them. *)

(** A key names an RRset: [ls] is the owner. *)
Record key_names (k : ub_packed_rrset_key) (ls : name) : Prop := {
  kn_name : name_ok ls;
  kn_dname : k.(rk).(rk_dname) = wire ls;
  kn_len : k.(rk).(rk_dname_len) = zlen (wire ls);
  kn_type : zlen k.(rk).(rk_type) = 2 /\ bytes_ok k.(rk).(rk_type);
  kn_class : zlen k.(rk).(rk_class) = 2 /\ bytes_ok k.(rk).(rk_class);
}.

Definition host_val (le : bool) (l : list Z) : Z := match host_u16 le l with Ok v => v | _ => 0 end.

Lemma two_bytes (l : list Z) : zlen l = 2 -> bytes_ok l -> exists x y, l = [x; y] /\ is_byte x /\ is_byte y.
Proof.
  intros Hl Hb. destruct l as [|x [|y [|]]]; try (unfold zlen in Hl; cbn in Hl; lia). apply Forall_cons in Hb as [Hx [Hy _]%Forall_cons].
  by exists x, y.
Qed.

Lemma host_val_ok le l : zlen l = 2 -> bytes_ok l -> host_u16 le l = Ok (host_val le l).
Proof. intros Hl Hb. destruct (two_bytes l Hl Hb) as (x & y & -> & _). done. Qed.

Lemma host_val_two le x y : is_byte x -> is_byte y -> host_val le [x; y] = if le then y * 2 ^ 8 + x else x * 2 ^ 8 + y.
Proof.
  unfold is_byte, in_u. intros Hx Hy. change (host_val le [x; y]) with (if le then Z.lor (Z.shiftl y 8) x else Z.lor (Z.shiftl x 8) y).
  by rewrite !lor_shiftl_add by lia.
Qed.

Lemma host_inj le l l' : zlen l = 2 -> bytes_ok l -> zlen l' = 2 -> bytes_ok l' -> host_val le l = host_val le l' -> l = l'.
Proof.
  intros Hl Hb Hl' Hb'. destruct (two_bytes l Hl Hb) as (x & y & -> & Hx & Hy). destruct (two_bytes l' Hl' Hb') as (x' & y' & -> & Hx' & Hy').
  rewrite !host_val_two by done. unfold is_byte, in_u in *. intros E. assert (x = x' /\ y = y') as [-> ->]; [|done]. destruct le; lia.
Qed.

(** The numbers the comparison goes through. *)
Definition code (le : bool) (k : ub_packed_rrset_key) (ls : name) : list Z :=
  [host_val le k.(rk).(rk_type); k.(rk).(rk_dname_len)] ++ wire (lower_name ls) ++ [host_val le k.(rk).(rk_class); k.(rk).(rk_flags)].

Lemma lex_cons x y l k : lex (x :: l) (y :: k) = if negb (x =? y) then (if x <? y then -1 else 1) else lex l k.
Proof. cbn. destruct (Z.eqb_spec x y) as [->|H]; cbn [negb]; [by rewrite Z.ltb_irrefl|]. destruct (Z.ltb_spec x y); [done|]. by rewrite ltb_true by lia. Qed.

Section Compare.
Context (le : bool) (k1 k2 : ub_packed_rrset_key) (ls1 ls2 : name) (K1 : key_names k1 ls1) (K2 : key_names k2 ls2).

Lemma compare_code : ub_rrset_compare le false k1 k2 = Ok (lex (code le k1 ls1) (code le k2 ls2)).
Proof.
  destruct K1 as [[N1 _] D1 L1 [T1 T1'] [C1 C1']], K2 as [[N2 _] D2 L2 [T2 T2'] [C2 C2']]. unfold ub_rrset_compare, code. cbn [app].
  rewrite !host_val_ok by done. cbn [mbind outcome_bind]. rewrite lex_cons. destruct (negb (host_val le (rk_type (rk k1)) =? _)); [done|].
  rewrite lex_cons. destruct (Z.eqb_spec (rk_dname_len (rk k1)) (rk_dname_len (rk k2))) as [El|]; cbn [negb]; [|done].
  assert (zlen (wire (lower_name ls1)) = zlen (wire (lower_name ls2))) as Ez by (rewrite !zlen_wire_lower; congruence).
  pose proof (query_dname_compare_wire ls1 ls2 [] [] N1 N2) as E. rewrite !app_nil_r in E. rewrite D1, D2, E. cbn [mbind outcome_bind].
  destruct (Z.eqb_spec (lex (wire (lower_name ls1)) (wire (lower_name ls2))) 0) as [E0|E0]; cbn [negb].
  - apply lex_eq in E0. rewrite E0, lex_app_l, !lex_cons. cbn [mbind outcome_bind lex].
    destruct (negb (host_val le (rk_class (rk k1)) =? _)); [done|]. by destruct (negb (rk_flags (rk k1) =? _)).
  - rewrite lex_app_diff; [done|unfold zlen in Ez; lia|done].
Qed.

(** The keys are of the same RRset. *)
Definition same_rrset : Prop :=
  lower_name ls1 = lower_name ls2 /\ k1.(rk).(rk_type) = k2.(rk).(rk_type) /\ k1.(rk).(rk_class) = k2.(rk).(rk_class) /\ k1.(rk).(rk_flags) = k2.(rk).(rk_flags).

Lemma code_same : code le k1 ls1 = code le k2 ls2 <-> same_rrset.
Proof.
  destruct K1 as [[N1 _] D1 L1 [T1 T1'] [C1 C1']], K2 as [[N2 _] D2 L2 [T2 T2'] [C2 C2']]. unfold code, same_rrset. split.
  - cbn [app]. intros E. injection E as Et El E.
    assert (length (wire (lower_name ls1)) = length (wire (lower_name ls2))) as Ez by (pose proof (zlen_wire_lower ls1); pose proof (zlen_wire_lower ls2); unfold zlen in *; lia).
    apply app_inj_1 in E as [Ew E]; [|done]. injection E as Ec Ef. split; [by apply lex_lower_eq; [..|apply lex_eq]|].
    split; [by apply (host_inj le)|]. split; [by apply (host_inj le)|done].
  - intros (E1 & E2 & E3 & E4). rewrite E1, E2, E3, E4, L1, L2, <- (zlen_wire_lower ls1), <- (zlen_wire_lower ls2), E1. done.
Qed.
End Compare.

(** C13. Keys of RRsets are ordered by [ub_rrset_compare]: it returns for all of them, 0
    exactly for keys with the same type, class, flags and name up to the case of its
    letters, it is antisymmetric and transitive, on machines of both byte orders; and keys
    that compare equal have the same hash, as the hash table of the RRset cache needs. *)
Theorem ub_rrset_compare_order le raninit addr addr' k1 k2 k3 ls1 ls2 ls3 : key_names k1 ls1 -> key_names k2 ls2 -> key_names k3 ls3 ->
  exists c, ub_rrset_compare le false k1 k2 = Ok c /\ (c = 0 <-> same_rrset k1 k2 ls1 ls2) /\ ub_rrset_compare le false k2 k1 = Ok (- c) /\
    (c = -1 -> ub_rrset_compare le false k2 k3 = Ok (-1) -> ub_rrset_compare le false k1 k3 = Ok (-1)) /\
    (c = 0 -> exists h, rrset_key_hash le raninit addr k1.(rk) = Ok h /\ rrset_key_hash le raninit addr' k2.(rk) = Ok h).
Proof.
  intros K1 K2 K3. rewrite (compare_code le k1 k2 ls1 ls2 K1 K2), (compare_code le k2 k1 ls2 ls1 K2 K1), (compare_code le k2 k3 ls2 ls3 K2 K3), (compare_code le k1 k3 ls1 ls3 K1 K3).
  eexists. split; [done|]. rewrite lex_eq, (code_same le k1 k2 ls1 ls2 K1 K2), (lex_sym (code le k1 ls1)). split; [done|]. split; [done|]. split.
  - intros E1 [= E2]. f_equal. by eapply lex_trans.
  - intros (E1 & E2 & E3 & E4). destruct K1 as [[N1 _] D1 _ [T1 T1'] [C1 _]], K2 as [[N2 _] D2 _ _ _].
    unfold rrset_key_hash, ntohs. rewrite <- E2, <- E3, <- E4, D1, D2. destruct (two_bytes _ T1 T1') as (x & y & -> & _).
    pose proof (dname_query_hash_wire le raninit addr ls1 [] 171 N1) as H1. pose proof (dname_query_hash_wire le raninit addr' ls2 [] 171 N2) as H2.
    rewrite app_nil_r in H1, H2. rewrite H1, H2, (name_hash_lower raninit ls2 ls1) by done. change (sldns_read_uint16 [x; y]) with (Ok (Z.lor (Z.shiftl x 8) y)). cbn [mbind outcome_bind].
    eexists. split; do 3 (rewrite hash_exact by (apply zlen_host || done); cbn [mbind outcome_bind]); reflexivity.
Qed.

Definition key_for (dname class : list Z) : ub_packed_rrset_key := mk_key 0 None 0 (mk_rk dname (zlen dname) 0 [0; 1] class).

Lemma key_for_names l class : label_ok l -> zlen l <= 60 -> zlen class = 2 -> bytes_ok class -> key_names (key_for (wire [l]) class) [l].
Proof.
  intros Hl Hz Hc Hb. split; try done.
  - split; [by apply Forall_singleton|]. rewrite zlen_wire_cons. change (zlen (wire [])) with 1. lia.
  - split; [done|]. repeat constructor; unfold is_byte, in_u; lia.
Qed.

Definition key_a : ub_packed_rrset_key := key_for (wire [[97]]) [0; 1].
Definition key_A : ub_packed_rrset_key := key_for (wire [[65]]) [0; 1].
Definition key_b : ub_packed_rrset_key := key_for (wire [[98]]) [0; 3].

Lemma ub_rrset_compare_order_witness :
  exists c, ub_rrset_compare true false key_a key_A = Ok c /\ (c = 0 <-> same_rrset key_a key_A [[97]] [[65]]) /\ ub_rrset_compare true false key_A key_a = Ok (- c) /\
    (c = -1 -> ub_rrset_compare true false key_A key_b = Ok (-1) -> ub_rrset_compare true false key_a key_b = Ok (-1)) /\
    (c = 0 -> exists h, rrset_key_hash true 7 0 key_a.(rk) = Ok h /\ rrset_key_hash true 7 1 key_A.(rk) = Ok h).
Proof.
  apply (ub_rrset_compare_order true 7 0 1 key_a key_A key_b [[97]] [[65]] [[98]]);
    apply key_for_names; try (by vm_compute); try (split; [by vm_compute|]); repeat constructor; unfold is_byte, in_u; lia.
Defined.
