(* ===== verification/Msgreply.v ===== *)
(** * Replies (util/data/msgreply.c)

    The reply that is made of a parsed packet, and what is asked of replies.  All
    allocations are from a region (the argument [region] is not NULL), so that nothing is
    freed: every structure is a value of its own, built where the code builds it.  The
    RRs that are outside of the packet have their TTL at an address of [heap].  [cfg] are
    the settings. *)

From S2P Require Import Prelude Sbuffer Lookup3 Dname DnameCompare DnamePkt RrDef Msgparse PackedRrset.

Definition RR_COUNT_MAX : Z := 16777215.
Definition BIT_AA : Z := 1024.
Definition NORR_TTL : Z := 5.
Definition LDNS_EDE_NONE : Z := -1.

(** [local_alias] is the RRset of the first element of the list. *)
Record query_info := mk_qi {
  qname : option (list Z);
  qname_len : Z;
  qtype : Z;
  qclass : Z;
  local_alias : option ub_packed_rrset_key;
}.

(** The references for the lock order, which a reply in a region does not use, are left out. *)
Record reply_info := mk_rep {
  flags : Z;
  authoritative : Z;
  qdcount : Z;
  ttl : Z;
  prefetch_ttl : Z;
  serve_expired_ttl : Z;
  security : sec_status;
  reason_bogus : Z;
  reason_bogus_str : option (list Z);
  an_numrrsets : Z;
  ns_numrrsets : Z;
  ar_numrrsets : Z;
  rrset_count : Z;
  rep_rrsets : list (option ub_packed_rrset_key);
}.

Definition with_ttls t p e (r : reply_info) := mk_rep r.(flags) r.(authoritative) r.(qdcount) t p e r.(security) r.(reason_bogus) r.(reason_bogus_str) r.(an_numrrsets) r.(ns_numrrsets) r.(ar_numrrsets) r.(rrset_count) r.(rep_rrsets).
Definition with_rrsets x (r : reply_info) := mk_rep r.(flags) r.(authoritative) r.(qdcount) r.(ttl) r.(prefetch_ttl) r.(serve_expired_ttl) r.(security) r.(reason_bogus) r.(reason_bogus_str) r.(an_numrrsets) r.(ns_numrrsets) r.(ar_numrrsets) r.(rrset_count) x.
Definition with_security x (r : reply_info) := mk_rep r.(flags) r.(authoritative) r.(qdcount) r.(ttl) r.(prefetch_ttl) r.(serve_expired_ttl) x r.(reason_bogus) r.(reason_bogus_str) r.(an_numrrsets) r.(ns_numrrsets) r.(ar_numrrsets) r.(rrset_count) r.(rep_rrsets).

(** C's [/] *)
Definition PREFETCH_TTL_CALC (ttl : Z) : Z := ttl - Z.quot ttl 10.

(** ** The structures *)

(** A name of the packet in a block of [len] bytes. *)
Definition copy_name (len o : Z) : W (list Z) :=
  on_pkt (ask (fun b => p ← ptr_at b o; bytes ← dname_pkt_copy b p; splice (replicate (Z.to_nat len) 0) 0 bytes)).

(** [None]: it returns 0. *)
Definition parse_create_qinfo : W (option query_info) :=
  m ← get_msg;
  match m.(m_qname) with
  | Some o =>
      ok ← alloc;
      if negb ok then mret None else
      name ← copy_name m.(m_qname_len) o;
      mret (Some (mk_qi (Some name) m.(m_qname_len) m.(m_qtype) m.(m_qclass) None))
  | None => mret (Some (mk_qi None m.(m_qname_len) m.(m_qtype) m.(m_qclass) None))
  end.

Definition construct_reply_info_base (flags qd ttl prettl expttl an ns ar total : Z) (sec : sec_status) (reason : Z) : W (option reply_info) :=
  if RR_COUNT_MAX <=? total then mret None else
  ok ← alloc;
  if negb ok then mret None else
  mret (Some (mk_rep flags 0 (u8 qd) ttl prettl expttl sec reason None an ns ar total (replicate (Z.to_nat total) None))).

Definition parse_create_repinfo : W (option reply_info) :=
  m ← get_msg;
  construct_reply_info_base m.(m_flags) m.(m_qdcount) 0 0 0 m.(m_an_rrsets) m.(m_ns_rrsets) m.(m_ar_rrsets) m.(m_rrset_count)
    sec_status_unchecked LDNS_EDE_NONE.

(** A key after [memset]. *)
Definition key_zero : ub_packed_rrset_key := mk_key 0 None 0 (mk_rk [] 0 0 [0; 0] [0; 0]).

Fixpoint alloc_keys_loop (n : nat) (i : Z) (keys : list (option ub_packed_rrset_key)) : W (bool * list (option ub_packed_rrset_key)) :=
  match n with
  | O => mret (true, keys)
  | S n' =>
      ok ← alloc;
      if negb ok then mret (false, keys) else
      assert_ (i <? zlen keys);;
      alloc_keys_loop n' (i + 1) (<[Z.to_nat i := Some key_zero]> keys)
  end.

Definition reply_info_alloc_rrset_keys (rep : reply_info) : W (bool * reply_info) :=
  '(ok, keys) ← alloc_keys_loop (Z.to_nat rep.(rrset_count)) 0 rep.(rep_rrsets);
  mret (ok, with_rrsets keys rep).

(** ** TTLs *)

Section Reply.
Context (cfg : ttl_settings) (heap : Z -> list Z).

(** [rr->ttl_data] *)
Definition ttl_ptr (rr : rr_parse) : P (list Z) :=
  ask (fun b => if rr.(r_outside_packet) then Ok (heap rr.(r_ttl_data)) else ptr_at b rr.(r_ttl_data)).

Definition soa_find_minttl (rr : rr_parse) : P Z :=
  p ← ttl_ptr rr;
  ask (fun _ =>
    q ← advance 4 p; rlen ← sldns_read_uint16 q;
    if rlen <? 20 then Ok 0 else
    q ← advance (6 + rlen - 4) p; sldns_read_uint32 q).

Definition at_most (x y : Z) : Z := if x <? y then x else y.
Definition at_least (x y : Z) : Z := if y <? x then x else y.

(** The limits for the SOA record of a negative answer, *)
Definition limit_neg_ttl (t minttl : Z) : Z :=
  let t := at_most minttl t in
  let t := if cfg.(SERVE_ORIGINAL_TTL) then t else
           at_most cfg.(MAX_TTL) (if (cfg.(MIN_NEG_TTL) <=? 0) && (t <? cfg.(MIN_TTL)) then cfg.(MIN_TTL) else t) in
  let t := at_most cfg.(MAX_NEG_TTL) t in
  if (0 <? cfg.(MIN_NEG_TTL)) && (t <? cfg.(MIN_NEG_TTL)) then cfg.(MIN_NEG_TTL) else t.

(** and for the others. *)
Definition limit_ttl (t : Z) : Z :=
  if cfg.(SERVE_ORIGINAL_TTL) then t else at_most cfg.(MAX_TTL) (at_least cfg.(MIN_TTL) t).

(** The TTL of an RR: the first part of [rdata_copy]. *)
Definition rdata_ttl (rr : rr_parse) (type : Z) (section : sldns_pkt_section) : P Z :=
  p ← ttl_ptr rr;
  t ← ask (fun _ => sldns_read_uint32 p);
  let t := if negb (Z.land t 2147483648 =? 0) then 0 else t in
  if (type =? LDNS_RR_TYPE_SOA) && bool_decide (section = LDNS_SECTION_AUTHORITY) then
    m ← soa_find_minttl rr; mret (limit_neg_ttl t m)
  else mret (limit_ttl t).

(** ** Rdata *)

(** Bytes written at the offset [to] of the block. *)
Definition write_block (to : Z) (bytes : list Z) (d : packed_rrset_data) : outcome packed_rrset_data :=
  r ← splice d.(d_rdata) (to - rdata_start (d_total d)) bytes; Ok (with_rdata r d).

(** [memmove(to, sldns_buffer_current(pkt), len)] *)
Definition copy_current (to len : Z) (d : packed_rrset_data) : P packed_rrset_data :=
  ask (fun b => p ← sldns_buffer_current b; bytes ← read_bytes len p; write_block to bytes d).

(** The loop over the fields up to the last domain name: [pkt_len], [to] and the data then. *)
Fixpoint copy_fields (rdfs : list sldns_rdf_type) (pkt_len count to : Z) (d : packed_rrset_data) : P (Z * Z * packed_rrset_data) :=
  if negb ((0 <? pkt_len) && negb (count =? 0)) then mret (pkt_len, to, d) else
  match rdfs with
  | [] => fun _ => Fault Undefined
  | rdf :: rdfs' =>
      match rdf with
      | LDNS_RDF_TYPE_DNAME =>
          oldpos ← p_position;
          d ← ask (fun b => p ← sldns_buffer_current b; bytes ← dname_pkt_copy b p; write_block to bytes d);
          n ← p_dname_len;
          pos ← p_position;
          copy_fields rdfs' (u16 (pkt_len - u64 (pos - oldpos))) (count - 1) (to + n) d
      | _ =>
          len ← ask (fun b => if decide (rdf = LDNS_RDF_TYPE_STR)
                              then p ← sldns_buffer_current b; x ← deref p; Ok (x + 1)
                              else get_rdf_size rdf);
          if len =? 0 then copy_fields rdfs' pkt_len count to d else
          if pkt_len <? len then fun _ => Fault Assertion else
          d ← copy_current to len d;
          p_skip len;;
          copy_fields rdfs' (u16 (pkt_len - len)) count (to + len) d
      end
  end.

(** The rdata in the packet: the second part of [rdata_copy]. *)
Definition decompress_rdata (rr : rr_parse) (type to : Z) (d : packed_rrset_data) : P (bool * packed_rrset_data) :=
  p_set_position (rr.(r_ttl_data) + 4);;
  d ← ask (fun _ => write_block to (sldns_write_uint16 (u16 (rr.(r_size) - 2))) d);
  let to := to + 2 in
  pkt_len ← p_read_u16;
  rem ← p_remaining;
  if rem <? pkt_len then mret (false, d) else
  '(pkt_len, to, d) ← (match sldns_rr_descript type with
                       | Some desc =>
                           if (0 <? pkt_len) && (0 <? desc.(_dname_count))
                           then copy_fields desc.(_wireformat) pkt_len desc.(_dname_count) to d
                           else mret (pkt_len, to, d)
                       | None => mret (pkt_len, to, d)
                       end : P (Z * Z * packed_rrset_data));
  d ← (if 0 <? pkt_len then copy_current to pkt_len d else mret d : P packed_rrset_data);
  mret (true, d).

(** The TTL goes to [rr_ttl[i]], the rdata to the offset [to]. *)
Definition rdata_copy (d : packed_rrset_data) (to : Z) (rr : rr_parse) (i type : Z) (section : sldns_pkt_section) : P (bool * packed_rrset_data) :=
  t ← rdata_ttl rr type section;
  rr_ttl ← ask (fun _ => store d.(d_rr_ttl) i t);
  let d := with_rr_ttl rr_ttl d in
  let d := if t <? d.(d_ttl) then with_ttl t d else d in
  if rr.(r_outside_packet) then
    d ← ask (fun _ => p ← advance 4 (heap rr.(r_ttl_data)); bytes ← read_bytes rr.(r_size) p; write_block to bytes d);
    mret (true, d)
  else decompress_rdata rr type to d.

(** ** RRsets *)

(** One of the two loops of [parse_rr_copy]; the result is the returned value, [nextrdata] and the data. *)
Fixpoint rr_copy_loop (n : nat) (i : Z) (rr : ptr) (nextrdata type : Z) (section : sldns_pkt_section) (d : packed_rrset_data) : W (bool * Z * packed_rrset_data) :=
  match n with
  | O => mret (true, nextrdata, d)
  | S n' =>
      match rr with
      | None => fault
      | Some a =>
          r ← load_rr a;
          d ← on_pkt (ask (fun _ => l ← store d.(d_rr_len) i r.(r_size); o ← store d.(d_rr_data) i nextrdata; Ok (with_rr_data o (with_rr_len l d))));
          '(ok, d) ← on_pkt (rdata_copy d nextrdata r i type section);
          if negb ok then mret (false, nextrdata + r.(r_size), d) else
          rr_copy_loop n' (i + 1) r.(r_next) (nextrdata + r.(r_size)) type section d
      end
  end.

(** [data] is a block of [s] bytes, all of them zero. *)
Definition parse_rr_copy (pset : addr) (s : Z) : W (bool * packed_rrset_data) :=
  p ← load pset;
  let total := u64 (p.(s_rr_count) + p.(s_rrsig_count)) in
  let zeros n := replicate (Z.to_nat n) 0 in
  let data := mk_data 0 cfg.(MAX_TTL) p.(s_rr_count) p.(s_rrsig_count) rrset_trust_none sec_status_unchecked
                (zeros total) (zeros total) (zeros total) (zeros (s - rdata_start total)) in
  '(ok, nextrdata, data) ← rr_copy_loop (Z.to_nat p.(s_rr_count)) 0 p.(s_rr_first) (rdata_start total) p.(s_type) p.(s_section) data;
  if negb ok then mret (false, data) else
  '(ok, _, data) ← rr_copy_loop (Z.to_nat (total - p.(s_rr_count))) p.(s_rr_count) p.(s_rrsig_first) nextrdata LDNS_RR_TYPE_RRSIG p.(s_section) data;
  mret (ok, data).

Definition parse_create_rrset (pset : addr) : W (option packed_rrset_data) :=
  p ← load pset;
  if (RR_COUNT_MAX <? p.(s_rr_count)) || (RR_COUNT_MAX <? p.(s_rrsig_count)) || (RR_COUNT_MAX <? p.(s_size)) then mret None else
  let s := u64 (rdata_start (p.(s_rr_count) + p.(s_rrsig_count)) + p.(s_size)) in
  ok ← alloc;
  if negb ok then mret None else
  '(ok, data) ← parse_rr_copy pset s;
  mret (if ok : bool then Some data else None).

(** Is it the first RRset of the message, in the answer section and of type [t]? *)
Definition first_answer (m : msg_parse) (t : Z) : W bool :=
  match m.(m_rrset_first) with
  | Some f => s ← load f; mret (bool_decide (s.(s_section) = LDNS_SECTION_ANSWER) && (s.(s_type) =? t))
  | None => mret false
  end.

Definition get_rrset_trust (rrset : addr) : W rrset_trust :=
  m ← get_msg;
  let AA := negb (Z.land m.(m_flags) BIT_AA =? 0) in
  s ← load rrset;
  match s.(s_section) with
  | LDNS_SECTION_ANSWER =>
      if AA then
        c ← first_answer m LDNS_RR_TYPE_CNAME;
        if c : bool then mret (if decide (Some rrset = m.(m_rrset_first)) then rrset_trust_ans_AA else rrset_trust_ans_noAA) else
        dn ← first_answer m LDNS_RR_TYPE_DNAME;
        if dn : bool then
          if decide (Some rrset = m.(m_rrset_first)) then mret rrset_trust_ans_AA else
          match m.(m_rrset_first) with
          | Some f => sf ← load f; mret (if decide (Some rrset = sf.(s_all_next)) then rrset_trust_ans_AA else rrset_trust_ans_noAA)
          | None => fault
          end
        else mret rrset_trust_ans_AA
      else mret rrset_trust_ans_noAA
  | LDNS_SECTION_AUTHORITY => mret (if AA then rrset_trust_auth_AA else rrset_trust_auth_noAA)
  | _ => mret (if AA then rrset_trust_add_AA else rrset_trust_add_noAA)
  end.

(** The key, filled in; [None]: it returns 0. *)
Definition parse_copy_decompress_rrset (pset : addr) (pk : ub_packed_rrset_key) : W (option ub_packed_rrset_key) :=
  p ← load pset;
  ok ← alloc;
  if negb ok then mret None else
  dname ← copy_name p.(s_dname_len) p.(s_dname);
  data ← parse_create_rrset pset;
  match data with
  | None => mret None
  | Some data =>
      trust ← get_rrset_trust pset;
      mret (Some (mk_key p.(s_hash) (Some (with_trust trust data)) pk.(id)
                    (mk_rk dname p.(s_dname_len) p.(s_flags) (sldns_write_uint16 p.(s_type)) p.(s_class))))
  end.

(** ** The message *)

(** The loop of [parse_copy_decompress], where [t] is [rep->ttl]; [None]: it returns 0. *)
Fixpoint copy_rrsets_loop (n : nat) (i : Z) (pset : ptr) (t : Z) (keys : list (option ub_packed_rrset_key)) : W (option (Z * list (option ub_packed_rrset_key))) :=
  match n with
  | O => mret (Some (t, keys))
  | S n' =>
      match pset, keys !! Z.to_nat i with
      | Some a, Some (Some pk) =>
          k ← parse_copy_decompress_rrset a pk;
          match k with
          | None => mret None
          | Some k =>
              data ← on_pkt (ask (fun _ => nonnull k.(entry_data)));
              s ← load a;
              copy_rrsets_loop n' (i + 1) s.(s_all_next) (at_most data.(d_ttl) t) (<[Z.to_nat i := Some k]> keys)
          end
      | _, _ => fault
      end
  end.

Definition parse_copy_decompress (rep : reply_info) : W (option reply_info) :=
  m ← get_msg;
  let t := if rep.(rrset_count) =? 0 then NORR_TTL else cfg.(MAX_TTL) in
  r ← copy_rrsets_loop (Z.to_nat rep.(rrset_count)) 0 m.(m_rrset_first) t rep.(rep_rrsets);
  match r with
  | None => mret None
  | Some (t, keys) =>
      e ← on_pkt (ask (fun _ => sint 64 (t + cfg.(SERVE_EXPIRED_TTL))));
      mret (Some (with_ttls t (PREFETCH_TTL_CALC t) e (with_security sec_status_unchecked (with_rrsets keys rep))))
  end.

(** What is in [*qinf] and [*rep] after a return of 1; [None]: it returns 0. *)
Definition parse_create_msg : W (option (query_info * reply_info)) :=
  q ← parse_create_qinfo;
  match q with
  | None => mret None
  | Some qinf =>
      r ← parse_create_repinfo;
      match r with
      | None => mret None
      | Some rep =>
          '(ok, rep) ← reply_info_alloc_rrset_keys rep;
          if negb ok then mret None else
          r ← parse_copy_decompress rep;
          mret (match r with Some rep => Some (qinf, rep) | None => None end)
      end
  end.

Definition parse_reply_in_temp_region (le : bool) (raninit addr_ : Z) : W (option (query_info * reply_info)) :=
  ok ← alloc;
  if negb ok then mret None else
  set_msg (fun _ => msg_zero);;
  on_pkt (p_set_position 0);;
  rc ← parse_packet le raninit addr_;
  if negb (rc =? 0) then mret None else
  parse_create_msg.
End Reply.
