(* ===== verification/ReplyRrset.v ===== *)
(** * Replies: an RR and an RRset

    [rdata_copy] writes the rdata that [rdata_of] describes, with its length in front, into
    the room that [calc_size] measured, and nothing else; with it the block of an RRset is
    filled. *)

From S2P Require Import Prelude Sbuffer Lookup3 Dname DnameCompare DnamePkt RrDef Msgparse MsgPkt MsgRdata MsgLists MsgOps MsgSigs MsgChange MsgFind MsgRr MsgSections MsgPacket PackedRrset Msgreply.

(** Bytes in the middle are replaced. *)
Lemma splice_app pre mid post bytes : zlen mid = zlen bytes -> splice (pre ++ mid ++ post) (zlen pre) bytes = Ok (pre ++ bytes ++ post).
Proof.
  intros E. pose proof (zlen_nonneg pre). pose proof (zlen_nonneg post). unfold splice. rewrite !zlen_app, !leb_true by lia. cbn [andb]. f_equal.
  rewrite ztake_app_zlen. f_equal. f_equal. rewrite <- E, <- zlen_app, app_assoc. apply zdrop_app_zlen.
Qed.

Lemma store_at_end pre x post i y : i = zlen pre -> store (pre ++ x :: post) i y = Ok (pre ++ y :: post).
Proof.
  intros ->. pose proof (zlen_nonneg pre). pose proof (zlen_nonneg post). unfold store. rewrite zlen_app, zlen_cons, leb_true, ltb_true by lia. cbn [andb].
  f_equal. rewrite to_nat_zlen. by rewrite insert_app_r_alt, Nat.sub_diag by lia.
Qed.

(** The block has room [mid] at the offset [to]. *)
Definition room (x : packed_rrset_data) (to : Z) (pre mid post : list Z) : Prop :=
  x.(d_rdata) = pre ++ mid ++ post /\ to = rdata_start (d_total x) + zlen pre.

Lemma write_block_ok x to pre mid post bytes : room x to pre mid post -> zlen mid = zlen bytes ->
  write_block to bytes x = Ok (with_rdata (pre ++ bytes ++ post) x).
Proof.
  intros [E ->] Hl. unfold write_block. rewrite E. replace (rdata_start (d_total x) + zlen pre - rdata_start (d_total x)) with (zlen pre) by lia.
  by rewrite splice_app.
Qed.

(** A part of the room is written, the rest is left. *)
Lemma room_split x to pre mid post bytes n : room x to pre mid post -> n = zlen bytes -> n <= zlen mid ->
  write_block to bytes x = Ok (with_rdata (pre ++ bytes ++ zdrop n mid ++ post) x) /\
  room (with_rdata (pre ++ bytes ++ zdrop n mid ++ post) x) (to + n) (pre ++ bytes) (zdrop n mid) post.
Proof.
  intros [E ->] -> Hl. pose proof (zlen_nonneg bytes). split.
  - apply (write_block_ok _ _ _ (ztake (zlen bytes) mid) (zdrop (zlen bytes) mid ++ post)); [|apply zlen_ztake; lia].
    split; [|done]. by rewrite E, (app_assoc (ztake _ _)), ztake_zdrop.
  - split; [by rewrite <- app_assoc|]. rewrite zlen_app. unfold with_rdata, d_total. cbn. lia.
Qed.

Section Copy.
Context (b : sldns_buffer) (d : list Z) (B : buf_ok b d).
Abbreviation lim := (b.(_limit)).
Abbreviation at_ p := (set_pos b p).

Lemma name_copy_at o ls e p : name_at b d o ls e -> 0 <= p <= lim -> dname_pkt_copy (at_ p) (zdrop o d) = Ok (wire ls).
Proof.
  intros N Hp. pose proof (at_buf b d B p Hp) as B'. destruct (pkt_name_ptr (at_ p) d o ls e B' N) as ([Hls H255] & _ & k & Hk & D & Hf).
  pose proof (wire_labels_bound _ Hls) as Hw. destruct (decomp_next _ _ _ _ _ _ D) as (x & q & Ep & En).
  unfold dname_pkt_copy. rewrite En, bind_Ok. eapply dname_pkt_copy_loop_spec; try done; unfold zlen in *; lia.
Qed.

Lemma current_at p : 0 <= p <= lim -> sldns_buffer_current (at_ p) = Ok (zdrop p d).
Proof. intros Hp. unfold sldns_buffer_current. rewrite (at_ok _ d); [done|by apply at_buf|cbn; lia]. Qed.

Lemma copy_current_ok p n x to pre mid post : 0 <= p -> 0 <= n -> p + n <= lim -> room x to pre mid post -> n <= zlen mid ->
  copy_current to n x (at_ p) = Ok (with_rdata (pre ++ ztake n (zdrop p d) ++ zdrop n mid ++ post) x, at_ p) /\
  room (with_rdata (pre ++ ztake n (zdrop p d) ++ zdrop n mid ++ post) x) (to + n) (pre ++ ztake n (zdrop p d)) (zdrop n mid) post.
Proof.
  intros Hp Hn Hl Hr Hm. pose proof (lim_zlen b d B). pose proof (zlen_take_at b d B n p Hn Hp Hl) as El.
  destruct (room_split x to pre mid post _ n Hr (eq_sym El) Hm) as [E R]. split; [|exact R].
  unfold copy_current, ask. rewrite current_at by lia. cbn [mbind outcome_bind].
  rewrite read_bytes_ok by (rewrite zlen_zdrop; lia). cbn [mbind outcome_bind]. by rewrite E.
Qed.

Lemma copy_fields_ok fs count pos len out : rdata b d fs count pos len out -> 0 <= pos -> 0 <= len < 2 ^ 16 -> pos + len <= lim ->
  forall x to pre mid post, room x to pre mid post -> zlen out <= zlen mid ->
  exists rest to' q x' out1 out2 mid', copy_fields fs len count to x (at_ pos) = Ok ((rest, to', x'), at_ q) /\ out = out1 ++ out2 /\
    x' = with_rdata (pre ++ out1 ++ mid' ++ post) x /\ room x' to' (pre ++ out1) mid' post /\ zlen mid = zlen out1 + zlen mid' /\
    out2 = ztake rest (zdrop q d) /\ 0 <= rest < 2 ^ 16 /\ 0 <= q /\ q + rest <= lim.
Proof.
  induction 1 as [fs count pos len H|fs count pos len ls e out H1 H2 N He H IH|f fs count pos len n out H1 H2 Hf Hn Hle H IH];
    intros Hp Hl Hpl x to pre mid post Hr Hm.
  - exists len, to, pos, x, [], (ztake len (zdrop pos d)), mid. split.
    { destruct fs; cbn [copy_fields]; by destruct H as [->| ->]; [|rewrite andb_false_r]. }
    destruct Hr as [E E']. split; [done|]. split; [destruct x; cbn in E; by subst|]. rewrite app_nil_r. do 2 (split; [done|]). split; [done|]. lia.
  - destruct (name_at_range b d B _ _ _ N) as (_ & He0 & Hel & [_ H255]). rewrite zlen_app in Hm. pose proof (zlen_nonneg out). pose proof (zlen_wire_pos ls).
    destruct (room_split x to pre mid post (wire ls) (zlen (wire ls)) Hr eq_refl ltac:(lia)) as [E R]. set (x1 := with_rdata _ x) in *.
    cbn [copy_fields]. rewrite ltb_true, eqb_false by lia. cbn [andb negb]. pstep.
    erewrite st_bind_ok by (unfold ask; rewrite current_at by lia; cbn [mbind outcome_bind]; erewrite name_copy_at by (done || lia); cbn [mbind outcome_bind]; rewrite E; reflexivity).
    destruct (p_dname_len_at b d B pos) as [(ls' & e' & N' & E')|(q & _ & _ & Hno)]; [lia| |by destruct (Hno ls e)].
    destruct (pkt_name_fun _ _ _ _ _ _ _ N N') as [<- <-]. rewrite (st_bind_ok _ _ _ _ _ E'). pstep.
    pose proof (bo_cap _ _ B). pose proof (bo_lim _ _ B). replace (pos + e - pos) with e by lia. rewrite (wrap_small 64 e), (wrap_small 16) by (unfold in_u; lia).
    destruct (IH ltac:(lia) ltac:(lia) ltac:(lia) x1 _ _ _ _ R) as (rest & to' & q & x' & out1 & out2 & mid' & E2 & -> & Ex & R' & Hz & X).
    { rewrite zlen_zdrop by lia. lia. }
    exists rest, to', q, x', (wire ls ++ out1), out2, mid'. split; [exact E2|]. split; [by rewrite app_assoc|].
    rewrite zlen_zdrop in Hz by lia. rewrite zlen_app. rewrite <- !app_assoc in *. split; [exact Ex|]. split; [exact R'|]. split; [lia|exact X].
  - pose proof (field_size_range b d B _ _ _ Hn). rewrite zlen_app, (zlen_take_at b d B) in Hm by lia. pose proof (zlen_nonneg out).
    destruct (copy_current_ok pos n x to pre mid post) as [E R]; [lia..|done|lia|]. set (x1 := with_rdata _ x) in *.
    assert (copy_fields (f :: fs) len count to x (at_ pos) = (p_skip n;; copy_fields fs (u16 (len - n)) count (to + n) x1) (at_ pos)) as ->.
    { pose proof (field_ask b d B f pos n ltac:(lia) Hn) as Ea. cbn [copy_fields]. rewrite ltb_true, eqb_false by lia. cbn [andb negb].
      destruct f; try done; erewrite st_bind_ok by exact Ea; rewrite eqb_false, ltb_false by lia; by erewrite st_bind_ok by exact E. }
    pstep. rewrite (wrap_small 16) by (unfold in_u; lia).
    destruct (IH ltac:(lia) ltac:(lia) ltac:(lia) x1 _ _ _ _ R) as (rest & to' & q & x' & out1 & out2 & mid' & E2 & -> & Ex & R' & Hz & X).
    { rewrite zlen_zdrop by lia. lia. }
    exists rest, to', q, x', (ztake n (zdrop pos d) ++ out1), out2, mid'. split; [exact E2|]. split; [by rewrite app_assoc|].
    rewrite zlen_zdrop in Hz by lia. rewrite zlen_app, (zlen_take_at b d B) by lia. rewrite <- !app_assoc in *. split; [exact Ex|]. split; [exact R'|]. split; [lia|exact X].
Qed.

(** ** The TTL *)

Definition u32_at (o : Z) : Z := match sldns_read_uint32 (zdrop o d) with Ok v => v | _ => 0 end.

Lemma u32_at_read o : 0 <= o -> o + 4 <= zlen d -> sldns_read_uint32 (zdrop o d) = Ok (u32_at o).
Proof.
  intros. unfold u32_at, sldns_read_uint32. rewrite !index_zdrop by lia.
  destruct (index_ok d (o + 0)) as (x0 & -> & _); [lia|]. destruct (index_ok d (o + 1)) as (x1 & -> & _); [lia|].
  destruct (index_ok d (o + 2)) as (x2 & -> & _); [lia|]. destruct (index_ok d (o + 3)) as (x3 & -> & _); [lia|]. done.
Qed.

(** A TTL with its highest bit is 0, by RFC 2181. *)
Definition raw_ttl (ttl : Z) : Z := if Z.land (u32_at ttl) 2147483648 =? 0 then u32_at ttl else 0.
Definition soa_minttl (ttl : Z) : Z := let n := u16_at d (ttl + 4) in if n <? 20 then 0 else u32_at (ttl + 6 + n - 4).

(** The TTL of the RR whose TTL is at [ttl]. *)
Definition ttl_of (cfg : ttl_settings) (type : Z) (section : sldns_pkt_section) (ttl : Z) : Z :=
  if (type =? LDNS_RR_TYPE_SOA) && bool_decide (section = LDNS_SECTION_AUTHORITY)
  then limit_neg_ttl cfg (raw_ttl ttl) (soa_minttl ttl) else limit_ttl cfg (raw_ttl ttl).

Context (cfg : ttl_settings) (heap : Z -> list Z).

Lemma ttl_ptr_at r p : r.(r_outside_packet) = false -> 0 <= r.(r_ttl_data) <= lim -> ttl_ptr heap r (at_ p) = Ok (zdrop r.(r_ttl_data) d, at_ p).
Proof. intros E H. pose proof (lim_zlen b d B). unfold ttl_ptr, ask. rewrite E, (ptr_at_at b d B) by lia. done. Qed.

Lemma rdata_ttl_ok r type section p : r.(r_outside_packet) = false -> 0 <= r.(r_ttl_data) ->
  r.(r_ttl_data) + 6 + u16_at d (r.(r_ttl_data) + 4) <= lim ->
  rdata_ttl cfg heap r type section (at_ p) = Ok (ttl_of cfg type section r.(r_ttl_data), at_ p).
Proof.
  intros E H0 H1. pose proof (lim_zlen b d B). set (o := r.(r_ttl_data)) in *. pose proof (u16_at_range b d B (o + 4)) as Hu. unfold in_u in Hu.
  assert (ttl_ptr heap r (at_ p) = Ok (zdrop o d, at_ p)) as Ep by (apply ttl_ptr_at; [done|lia]).
  unfold rdata_ttl. erewrite st_bind_ok by exact Ep. erewrite st_bind_ok by (unfold ask; rewrite u32_at_read by lia; reflexivity).
  unfold ttl_of. destruct (_ && _); [|unfold raw_ttl; by destruct (Z.land _ _ =? 0)].
  assert (soa_find_minttl heap r (at_ p) = Ok (soa_minttl o, at_ p)) as Em.
  { unfold soa_find_minttl. erewrite st_bind_ok by exact Ep. unfold ask, soa_minttl. rewrite advance_ok by (rewrite zlen_zdrop; lia). cbn [mbind outcome_bind].
    rewrite zdrop_zdrop, u16_at_read by (done || lia). cbn [mbind outcome_bind]. cbv zeta. zcase; [done|].
    rewrite advance_ok by (rewrite zlen_zdrop; lia). cbn [mbind outcome_bind]. rewrite zdrop_zdrop by lia.
    replace (o + (6 + u16_at d (o + 4) - 4)) with (o + 6 + u16_at d (o + 4) - 4) by lia. by rewrite u32_at_read by lia. }
  erewrite st_bind_ok by exact Em. unfold raw_ttl. by destruct (Z.land _ _ =? 0).
Qed.

(** ** The rdata *)

(** An RR in the block: the length and the rdata. *)
Definition rr_bytes (out : list Z) : list Z := sldns_write_uint16 (u16 (zlen out)) ++ out.

Lemma zlen_rr_block out : zlen (rr_bytes out) = 2 + zlen out.
Proof. unfold rr_bytes. by rewrite zlen_app. Qed.

Lemma decompress_ok r type out x to pre mid post p : rdata_of b d type r.(r_ttl_data) out -> r.(r_size) = 2 + zlen out ->
  room x to pre mid post -> zlen mid = 2 + zlen out -> 0 <= p <= lim ->
  exists q, decompress_rdata r type to x (at_ p) = Ok ((true, with_rdata (pre ++ rr_bytes out ++ post) x), at_ q) /\ 0 <= q <= lim.
Proof.
  intros (H0 & H1 & HR) Hs Hr Hm Hp. set (o := r.(r_ttl_data)) in *. pose proof (u16_at_range b d B (o + 4)) as Hu. unfold in_u in Hu. set (len := u16_at d (o + 4)) in *.
  pose proof (zlen_nonneg out). unfold decompress_rdata. fold o. pstep. rewrite Hs. replace (2 + zlen out - 2) with (zlen out) by lia.
  set (hd := sldns_write_uint16 (u16 (zlen out))). destruct (room_split x to pre mid post hd 2 Hr eq_refl) as [E R]; [lia|].
  erewrite st_bind_ok by (unfold ask; rewrite E; reflexivity). set (x1 := with_rdata _ x) in *. pstep. fold len. pstep. rewrite ltb_false by lia.
  replace (o + 4 + 2) with (o + 6) by lia.
  assert (zlen out <= zlen (zdrop 2 mid)) as Hz by (rewrite zlen_zdrop; lia).
  assert (exists rest to' q x' out1 out2 mid',
    (match sldns_rr_descript type with
     | Some desc => if (0 <? len) && (0 <? desc.(_dname_count)) then copy_fields desc.(_wireformat) len desc.(_dname_count) (to + 2) x1 else mret (len, to + 2, x1)
     | None => mret (len, to + 2, x1) end : P (Z * Z * packed_rrset_data)) (at_ (o + 6)) = Ok ((rest, to', x'), at_ q) /\ out = out1 ++ out2 /\
    x' = with_rdata ((pre ++ hd) ++ out1 ++ mid' ++ post) x1 /\ room x' to' ((pre ++ hd) ++ out1) mid' post /\ zlen (zdrop 2 mid) = zlen out1 + zlen mid' /\
    out2 = ztake rest (zdrop q d) /\ 0 <= rest < 2 ^ 16 /\ 0 <= q /\ q + rest <= lim) as (rest & to' & q & x' & out1 & out2 & mid' & E1 & Eo & Ex & R' & Hz' & E2 & ? & ? & ?).
  { assert (exists rest to' q x' out1 out2 mid', (mret (len, to + 2, x1) : P (Z * Z * packed_rrset_data)) (at_ (o + 6)) = Ok ((rest, to', x'), at_ q) /\ ztake len (zdrop (o + 6) d) = out1 ++ out2 /\
      x' = with_rdata ((pre ++ hd) ++ out1 ++ mid' ++ post) x1 /\ room x' to' ((pre ++ hd) ++ out1) mid' post /\ zlen (zdrop 2 mid) = zlen out1 + zlen mid' /\
      out2 = ztake rest (zdrop q d) /\ 0 <= rest < 2 ^ 16 /\ 0 <= q /\ q + rest <= lim) as Hplain.
    { exists len, (to + 2), (o + 6), x1, [], (ztake len (zdrop (o + 6) d)), (zdrop 2 mid). split; [done|]. split; [done|]. rewrite app_nil_r.
      split; [unfold x1; by rewrite <- (app_assoc pre hd)|]. split; [done|]. split; [done|]. split; [done|lia]. }
    pose proof (proj2 (type_usable type)) as Hd. unfold fields, dnames in HR, Hd. destruct (sldns_rr_descript type) as [desc|].
    - destruct ((0 <? len) && (0 <? desc.(_dname_count))) eqn:Ed; [by eapply copy_fields_ok; try lia|].
      assert (out = ztake len (zdrop (o + 6) d)) as ->; [|exact Hplain]. apply (rdata_fun b d _ _ _ _ _ HR). constructor. lia.
    - assert (out = ztake len (zdrop (o + 6) d)) as ->; [|exact Hplain]. apply (rdata_fun b d _ _ _ _ _ HR). constructor. lia. }
  erewrite st_bind_ok by exact E1. cbv beta iota. exists q. split; [|lia]. subst out2. rewrite Eo, zlen_app, (zlen_take_at b d B) in Hm by lia. pose proof (zlen_nonneg out1). rewrite zlen_zdrop in Hz' by lia.
  assert ((if 0 <? rest then copy_current to' rest x' else mret x' : P packed_rrset_data) (at_ q) = Ok (with_rdata (pre ++ rr_bytes out ++ post) x, at_ q)) as Elast.
  { unfold rr_bytes. fold hd. rewrite Eo. destruct (Z.ltb_spec 0 rest).
    - destruct (copy_current_ok q rest x' to' ((pre ++ hd) ++ out1) mid' post) as [Ec _]; [lia..|exact R'|lia|]. rewrite Ec, (zlen_0_inv (zdrop rest mid')) by (rewrite zlen_zdrop; lia).
      rewrite Ex. cbn [app]. by rewrite <- !app_assoc.
    - assert (rest = 0) as -> by lia. rewrite Ex, (zlen_0_inv mid') by lia. cbn [app]. unfold ztake at 1. cbn [Z.to_nat take]. rewrite app_nil_r, <- !app_assoc. done. }
  erewrite st_bind_ok by exact Elast. done.
Qed.

(** The data with the RR at [i]. *)
Definition put_rr (i t : Z) (pre post out : list Z) (x : packed_rrset_data) : packed_rrset_data :=
  with_ttl (at_most t x.(d_ttl)) (with_rdata (pre ++ rr_bytes out ++ post) (with_rr_ttl (<[Z.to_nat i := t]> x.(d_rr_ttl)) x)).

Lemma rdata_copy_ok r type section out x i to pre mid post p : rdata_of b d type r.(r_ttl_data) out -> r.(r_size) = 2 + zlen out ->
  r.(r_outside_packet) = false -> 0 <= i < zlen x.(d_rr_ttl) -> room x to pre mid post -> zlen mid = 2 + zlen out -> 0 <= p <= lim ->
  exists q, rdata_copy cfg heap x to r i type section (at_ p)
    = Ok ((true, put_rr i (ttl_of cfg type section r.(r_ttl_data)) pre post out x), at_ q) /\ 0 <= q <= lim.
Proof.
  intros HR Hs Ho Hi Hr Hm Hp. destruct HR as (H0 & H1 & HR). unfold rdata_copy.
  erewrite st_bind_ok by (apply rdata_ttl_ok; done). set (t := ttl_of _ _ _ _).
  erewrite st_bind_ok by (unfold ask, store; rewrite leb_true, ltb_true by lia; reflexivity). cbv zeta. rewrite Ho.
  set (x1 := if t <? _ then _ else _).
  assert (room x1 to pre mid post) as Hr1 by (unfold x1; by destruct (t <? _)).
  destruct (decompress_ok r type out x1 to pre mid post p) as (q & E & Hq); [done..|]. exists q. split; [|done]. rewrite E.
  unfold put_rr, x1, at_most. cbn [d_ttl with_rr_ttl]. by destruct (t <? d_ttl x), x.
Qed.
End Copy.

(** ** Replies: one RRset

    [parse_create_rrset] fills the block of an RRset with its RRs and then its signatures,
    in the order of their lists. *)

(** ** What is in the block *)

(** An RR of the reply: its TTL and its rdata. *)
Abbreviation rr := (Z * list Z)%type.

Definition block (l : list rr) : list Z := concat (map (fun r => rr_bytes r.2) l).
Definition lens (l : list rr) : list Z := map (fun r => 2 + zlen r.2) l.

(** The pointers, when the first RR is at [o]. *)
Fixpoint offsets (o : Z) (l : list rr) : list Z :=
  match l with [] => [] | r :: l' => o :: offsets (o + (2 + zlen r.2)) l' end.

Definition min_ttl (m : Z) (l : list Z) : Z := foldl (fun m t => at_most t m) m l.

Lemma block_app l1 l2 : block (l1 ++ l2) = block l1 ++ block l2.
Proof. unfold block. by rewrite map_app, concat_app. Qed.

Lemma block_one r : block [r] = rr_bytes r.2.
Proof. unfold block. cbn [map concat]. apply app_nil_r. Qed.

Lemma zlen_block_cons r l : zlen (block (r :: l)) = 2 + zlen r.2 + zlen (block l).
Proof. change (r :: l) with ([r] ++ l). by rewrite block_app, zlen_app, block_one, zlen_rr_block. Qed.

Lemma rr_offsets_app l1 : forall o l2, offsets o (l1 ++ l2) = offsets o l1 ++ offsets (o + zlen (block l1)) l2.
Proof.
  induction l1 as [|r l1 IH]; intros o l2; cbn [offsets app].
  - by rewrite Z.add_0_r.
  - rewrite IH, zlen_block_cons. do 2 f_equal. f_equal. lia.
Qed.

Lemma zlen_rr_offsets l : forall o, zlen (offsets o l) = zlen l.
Proof. induction l as [|r l IH]; intros o; [done|]. cbn [offsets]. by rewrite !zlen_cons, IH. Qed.

Lemma min_ttl_app m l1 l2 : min_ttl m (l1 ++ l2) = min_ttl (min_ttl m l1) l2.
Proof. apply foldl_app. Qed.

Lemma at_most_min x y : at_most x y = Z.min x y.
Proof. unfold at_most. zcase; lia. Qed.
Lemma at_least_max x y : at_least x y = Z.max x y.
Proof. unfold at_least. zcase; lia. Qed.

(** The data with the RRs [l], and room for [k] more, of [m] bytes. *)
Definition filled (max count sigs : Z) (l : list rr) (k m : nat) : packed_rrset_data :=
  mk_data 0 (min_ttl max (map fst l)) count sigs rrset_trust_none sec_status_unchecked
    (lens l ++ replicate k 0) (offsets (rdata_start (u64 (count + sigs))) l ++ replicate k 0) (map fst l ++ replicate k 0) (block l ++ replicate m 0).

Lemma insert_app_zlen (l : list Z) x y k i : i = zlen l -> <[Z.to_nat i := y]> (l ++ x :: k) = l ++ y :: k.
Proof. intros ->. rewrite to_nat_zlen. by rewrite insert_app_r_alt, Nat.sub_diag by lia. Qed.

Section Rrset.
Context (b : sldns_buffer) (d : list Z) (B : buf_ok b d) (cfg : ttl_settings) (heap : Z -> list Z).
Abbreviation lim := (b.(_limit)).
Abbreviation at_ p := (set_pos b p).

(** The RR [x] of the packet has this TTL and rdata. *)
Definition rr_copied (N : gmap addr rr_parse) (type : Z) (section : sldns_pkt_section) (x : addr) (r : rr) : Prop :=
  exists rp, N !! x = Some rp /\ rp.(r_outside_packet) = false /\ rdata_of b d type rp.(r_ttl_data) r.2 /\
    rp.(r_size) = 2 + zlen r.2 /\ r.1 = ttl_of d cfg type section rp.(r_ttl_data).

Lemma step_ok N type section x r rp p count sigs l k m : rr_copied N type section x r -> N !! x = Some rp -> 0 <= p <= lim ->
  exists d1 q,
    ask (fun _ => a ← store (filled cfg.(MAX_TTL) count sigs l (S k) (Z.to_nat (2 + zlen r.2) + m)).(d_rr_len) (zlen l) rp.(r_size);
                  o ← store (filled cfg.(MAX_TTL) count sigs l (S k) (Z.to_nat (2 + zlen r.2) + m)).(d_rr_data) (zlen l) (rdata_start (u64 (count + sigs)) + zlen (block l));
                  Ok (with_rr_data o (with_rr_len a (filled cfg.(MAX_TTL) count sigs l (S k) (Z.to_nat (2 + zlen r.2) + m))))) (at_ p) = Ok (d1, at_ p) /\
    rdata_copy cfg heap d1 (rdata_start (u64 (count + sigs)) + zlen (block l)) rp (zlen l) type section (at_ p)
      = Ok ((true, filled cfg.(MAX_TTL) count sigs (l ++ [r]) k m), at_ q) /\ 0 <= q <= lim.
Proof.
  intros (rp' & Hx & Ho & HR & Hs & Ht) Hx' Hp. rewrite Hx in Hx'. injection Hx' as ->. destruct r as [t out]. cbn [fst snd] in *.
  set (f := filled _ _ _ _ _ _). pose proof (zlen_nonneg out).
  set (d1 := with_rr_data (offsets (rdata_start (u64 (count + sigs))) l ++ (rdata_start (u64 (count + sigs)) + zlen (block l)) :: replicate k 0)
               (with_rr_len (lens l ++ rp.(r_size) :: replicate k 0) f)).
  exists d1. destruct (rdata_copy_ok b d B cfg heap rp type section out d1 (zlen l) (rdata_start (u64 (count + sigs)) + zlen (block l)) (block l) (replicate (Z.to_nat (2 + zlen out)) 0) (replicate m 0) p)
    as (q & E & Hq); [done..| | | |done|].
  { unfold d1, f. cbn. pose proof (zlen_nonneg l). rewrite zlen_app, zlen_cons. unfold zlen in *. rewrite length_map. lia. }
  { split; [|done]. unfold d1, f. cbn [d_rdata with_rr_data with_rr_len filled]. by rewrite replicate_add. }
  { unfold zlen at 1. rewrite length_replicate. lia. }
  exists q. split; [|split; [|done]].
  - unfold ask, f. cbn [d_rr_len d_rr_data filled replicate].
    rewrite (store_at_end (lens l)) by (unfold lens; by rewrite zlen_map). cbn [mbind outcome_bind].
    rewrite (store_at_end (offsets _ l)) by (by rewrite zlen_rr_offsets). done.
  - rewrite E. rewrite <- Ht. unfold put_rr, d1, f, filled, with_ttl, with_rdata, with_rr_ttl, with_rr_data, with_rr_len; cbn.
    rewrite !map_app, min_ttl_app, block_app, block_one, rr_offsets_app. unfold lens. rewrite map_app. cbn [map fst snd offsets min_ttl foldl].
    rewrite insert_app_zlen by (by rewrite zlen_map). rewrite Hs, <- !app_assoc. done.
Qed.

Lemma rr_copy_loop_ok N type section xs rs : Forall2 (rr_copied N type section) xs rs ->
  forall hd w p l k m count sigs, w.(rrs) = N -> w.(pkt) = at_ p -> 0 <= p <= lim -> seg r_next N hd xs None ->
  exists q, rr_copy_loop cfg heap (length rs) (zlen l) hd (rdata_start (u64 (count + sigs)) + zlen (block l)) type section
      (filled cfg.(MAX_TTL) count sigs l (length rs + k) (Z.to_nat (zlen (block rs)) + m)) w
    = Ok ((true, rdata_start (u64 (count + sigs)) + zlen (block (l ++ rs)), filled cfg.(MAX_TTL) count sigs (l ++ rs) k m), upd_pkt (at_ q) w) /\ 0 <= q <= lim.
Proof.
  induction 1 as [|x r xs rs Hr _ IH]; intros hd w p l k m count sigs HN Hpk Hp Hseg.
  - exists p. rewrite app_nil_r, upd_pkt_self by done. split; [done|done].
  - destruct Hseg as (-> & rp & Hx & Hseg). pose proof (zlen_nonneg r.2). pose proof (zlen_nonneg (block rs)).
    cbn [length rr_copy_loop]. rewrite zlen_block_cons, Z2Nat.inj_add, <- Nat.add_assoc by lia.
    erewrite st_bind_ok by (apply load_rr_ok; by rewrite HN).
    destruct (step_ok N type section x r rp p count sigs l (length rs + k) (Z.to_nat (zlen (block rs)) + m) Hr Hx Hp) as (d1 & q & E1 & E2 & Hq).
    rewrite (st_bind_ok _ _ _ _ _ (on_pkt_same b _ w p _ Hpk E1)). cbv beta.
    rewrite (st_bind_ok _ _ _ _ _ (on_pkt_ok b _ w p _ _ Hpk E2)). cbv beta iota.
    assert (rdata_start (u64 (count + sigs)) + zlen (block l) + rp.(r_size) = rdata_start (u64 (count + sigs)) + zlen (block (l ++ [r]))) as ->.
    { destruct Hr as (rp' & Hx' & _ & _ & Hs & _). rewrite Hx in Hx'. injection Hx' as <-. rewrite block_app, zlen_app, block_one, zlen_rr_block. lia. }
    replace (zlen l + 1) with (zlen (l ++ [r])) by (by rewrite zlen_app).
    destruct (IH (r_next rp) (upd_pkt (at_ q) w) q (l ++ [r]) k m count sigs) as (q' & E' & Hq'); try done. exists q'. cbn [negb]. rewrite E', <- app_assoc. done.
Qed.

Lemma rr_is_copied N type section x : rr_is b d (v_data <$> N) type x -> exists r, rr_copied N type section x r.
Proof.
  intros (ttl & n & out & Hx & HR & ->). rewrite lookup_fmap in Hx. destruct (N !! x) as [rp|] eqn:E; [|done]. injection Hx as <- Ho Hs.
  exists (ttl_of d cfg type section rp.(r_ttl_data), out), rp. done.
Qed.

Lemma rrs_copied N type section xs : (forall x, x ∈ xs -> rr_is b d (v_data <$> N) type x) -> exists rs, Forall2 (rr_copied N type section) xs rs.
Proof.
  induction xs as [|x xs IH]; intros H; [by exists []|]. destruct (rr_is_copied N type section x) as (r & Hr); [apply H; left|].
  destruct IH as (rs & Hrs); [intros y Hy; apply H; by right|]. exists (r :: rs). by constructor.
Qed.

Lemma rr_bound type ttl out : rdata_of b d type ttl out -> zlen out <= 65535 + 2 * 255.
Proof.
  intros (H0 & H1 & HR). pose proof (proj2 (type_usable type)). pose proof (u16_at_range b d B (ttl + 4)) as Hu. unfold in_u in Hu.
  pose proof (rdata_bound b d B _ _ _ _ _ HR). lia.
Qed.

Lemma rr_copied_bound N type section x r : rr_copied N type section x r -> zlen r.2 <= 65535 + 2 * 255.
Proof. intros (rp & _ & _ & HR & _). by eapply rr_bound. Qed.

(** The sizes are those of the bytes. *)
Lemma block_sizes N type section xs rs : Forall2 (rr_copied N type section) xs rs ->
  rr_sizes N xs = zlen (block rs) /\ zlen (block rs) <= 2 ^ 17 * zlen xs.
Proof.
  induction 1 as [|x r xs rs Hr _ [IH1 IH2]]; [done|]. pose proof (rr_copied_bound _ _ _ _ _ Hr). destruct Hr as (rp & Hx & _ & _ & Hs & _).
  rewrite rr_sizes_cons, zlen_block_cons, Hx, zlen_cons. lia.
Qed.

(** ** The block of an RRset *)

(** The data with the RRs [l1] and the signatures [l2]. *)
Definition data_with (l1 l2 : list rr) : packed_rrset_data := filled cfg.(MAX_TTL) (zlen l1) (zlen l2) (l1 ++ l2) 0 0.

Lemma zlen_forall2 {A C} (Q : A -> C -> Prop) l k : Forall2 Q l k -> zlen l = zlen k.
Proof. intros H. unfold zlen. by rewrite (Forall2_length _ _ _ H). Qed.

Lemma filled_zero max count sigs (n m : Z) k j : n = Z.of_nat k -> m = Z.of_nat j ->
  mk_data 0 max count sigs rrset_trust_none sec_status_unchecked (replicate (Z.to_nat n) 0) (replicate (Z.to_nat n) 0) (replicate (Z.to_nat n) 0) (replicate (Z.to_nat m) 0)
  = filled max count sigs [] k j.
Proof. intros -> ->. by rewrite !Nat2Z.id. Qed.

(** The lists of the RRset [s] and what they are copied to. *)
Record lists_copied (N : gmap addr rr_parse) (s : rrset_parse) (xs1 xs2 : list addr) (l1 l2 : list rr) : Prop := {
  lc_rrs : part_ok N (v_rrs s) xs1;
  lc_sigs : part_ok N (v_sigs s) xs2;
  lc_short : zlen xs1 <= MAX_RRS /\ zlen xs2 <= MAX_RRS;
  lc_copied1 : Forall2 (rr_copied N s.(s_type) s.(s_section)) xs1 l1;
  lc_copied2 : Forall2 (rr_copied N LDNS_RR_TYPE_RRSIG s.(s_section)) xs2 l2;
}.

Lemma lists_counts N s xs1 xs2 l1 l2 : lists_copied N s xs1 xs2 l1 l2 ->
  s.(s_rr_count) = zlen l1 /\ s.(s_rrsig_count) = zlen l2 /\ u64 (zlen l1 + zlen l2) = zlen l1 + zlen l2 /\ zlen l1 <= MAX_RRS /\ zlen l2 <= MAX_RRS.
Proof.
  intros [[_ _ H1] [_ _ H2] [H3 H4] H5 H6]. cbn in H1, H2. rewrite H1, H2. rewrite (zlen_forall2 _ _ _ H5) in *. rewrite (zlen_forall2 _ _ _ H6) in *.
  pose proof (zlen_nonneg l1). pose proof (zlen_nonneg l2). unfold MAX_RRS in *. rewrite !wrap_small by (unfold in_u; lia). lia.
Qed.

Lemma parse_rr_copy_ok w p a s xs1 xs2 l1 l2 : w.(pkt) = at_ p -> 0 <= p <= lim -> w.(rrsets) !! a = Some s -> lists_copied w.(rrs) s xs1 xs2 l1 l2 ->
  exists q, parse_rr_copy cfg heap a (rdata_start (zlen l1 + zlen l2) + zlen (block (l1 ++ l2))) w = Ok ((true, data_with l1 l2), upd_pkt (at_ q) w) /\ 0 <= q <= lim.
Proof.
  intros Hpk Hp Hs LC. destruct (lists_counts _ _ _ _ _ _ LC) as (E1 & E2 & E3 & _). destruct LC as [[P1 _ _] [P2 _ _] _ C1 C2]. cbn in P1, P2.
  pose proof (zlen_nonneg (block l1)). pose proof (zlen_nonneg (block l2)).
  unfold parse_rr_copy. wstep. rewrite E1, E2, E3. cbv zeta.
  rewrite (filled_zero _ _ _ _ _ (length l1 + (length l2 + 0)) (Z.to_nat (zlen (block l1)) + (Z.to_nat (zlen (block l2)) + 0))) by (rewrite ?block_app, ?zlen_app; unfold zlen in *; lia).
  destruct (rr_copy_loop_ok _ _ _ _ _ C1 _ w p [] (length l2 + 0) (Z.to_nat (zlen (block l2)) + 0) (zlen l1) (zlen l2) eq_refl Hpk Hp P1) as (q & E & Hq).
  rewrite E3 in E. rewrite to_nat_zlen. change (zlen (block [])) with 0 in E. rewrite Z.add_0_r in E. rewrite (st_bind_ok _ _ _ _ _ E). cbv beta iota. cbn [negb app].
  destruct (rr_copy_loop_ok _ _ _ _ _ C2 _ (upd_pkt (at_ q) w) q l1 0 0 (zlen l1) (zlen l2) eq_refl eq_refl Hq P2) as (q' & E' & Hq').
  rewrite E3 in E'. replace (Z.to_nat (zlen l1 + zlen l2 - zlen l1)) with (length l2) by (unfold zlen; lia). rewrite (st_bind_ok _ _ _ _ _ E'). cbv beta iota.
  exists q'. done.
Qed.
End Rrset.
