(* ===== verification/ReplyMessage.v ===== *)
(** * Replies: the message

    What [parse_reply_in_temp_region] makes of a parsed packet: a reply with one RRset
    for every RRset of the packet, in the order of their list. *)

From S2P Require Import Prelude Sbuffer Lookup3 Dname DnameCompare DnamePkt RrDef Msgparse MsgPkt MsgRdata MsgLists MsgOps MsgSigs MsgChange MsgFind MsgRr MsgSections MsgPacket PackedRrset PackedBlock Msgreply ReplyRrset.

Section Message.
Context (b : sldns_buffer) (d : list Z) (B : buf_ok b d) (cfg : ttl_settings) (heap : Z -> list Z).
Abbreviation lim := (b.(_limit)).
Abbreviation at_ p := (set_pos b p).
Implicit Types (w : world) (R S : addr -> list addr) (L : list addr).

(** ** Steps that leave the structures alone *)

Definition settled w : Prop := exists p, w.(pkt) = at_ p /\ 0 <= p <= lim.

(** Only the position, and the answers of the allocator, are used up. *)
Record moved w w' : Prop := {
  mv_msg : w'.(msg) = w.(msg);
  mv_rrsets : w'.(rrsets) = w.(rrsets);
  mv_rrs : w'.(rrs) = w.(rrs);
  mv_pkt : settled w';
  mv_memory : mallocs_ok w.(memory) -> mallocs_ok w'.(memory);
}.

Lemma moved_refl w : settled w -> moved w w.
Proof. by split. Qed.

Lemma moved_trans w1 w2 w3 : moved w1 w2 -> moved w2 w3 -> moved w1 w3.
Proof. intros [] []. split; [congruence..|done|auto]. Qed.

Lemma moved_pkt w q : 0 <= q <= lim -> moved w (upd_pkt (at_ q) w).
Proof. intros Hq. split; try done. by exists q. Qed.

Lemma alloc_moved w : settled w -> exists ok w', alloc w = Ok (ok, w') /\ moved w w' /\ (mallocs_ok w.(memory) -> ok = true).
Proof.
  intros Hw. unfold alloc. destruct (malloc w.(memory)) as [ok m] eqn:E. exists ok, (upd_memory m w). split; [done|].
  split; [split; try done|]; intros H; by destruct (malloc_ok _ _ _ E H).
Qed.

(** The next allocation: [r] when it fails. *)
Ltac astep w' M H := match goal with
  | Hw : settled ?w |- context [(alloc ≫= _) ?w] =>
      let E := fresh in let ok := fresh "ok" in
      destruct (alloc_moved w Hw) as (ok & w' & E & M & H); rewrite (st_bind_ok _ _ _ _ _ E); clear E; cbv beta; pose proof (mv_pkt _ _ M); destruct ok; cbn [negb]
  end.

Lemma copy_name_ok w o ls e : settled w -> name_at b d o ls e -> copy_name (zlen (wire ls)) o w = Ok (wire ls, w).
Proof.
  intros (p & Hpk & Hp) N. destruct (name_at_range b d B _ _ _ N) as (? & ? & ? & _). pose proof (lim_zlen b d B).
  unfold copy_name. apply (on_ask b _ w p); [done|]. rewrite (ptr_at_at b d B) by lia. cbn [mbind outcome_bind].
  rewrite (name_copy_at b d B o ls e) by done. cbn [mbind outcome_bind].
  pose proof (splice_app [] (replicate (Z.to_nat (zlen (wire ls))) 0) [] (wire ls)) as E. rewrite !app_nil_r in E. cbn [app] in E. apply E.
  rewrite to_nat_zlen. unfold zlen. by rewrite length_replicate.
Qed.

Lemma create_rrset_ok w a s xs1 xs2 l1 l2 : settled w -> w.(rrsets) !! a = Some s -> lists_copied b d cfg w.(rrs) s xs1 xs2 l1 l2 ->
  s.(s_size) = zlen (block (l1 ++ l2)) ->
  exists r w', parse_create_rrset cfg heap a w = Ok (r, w') /\ moved w w' /\
    match r with Some x => x = data_with cfg l1 l2 | None => ~ mallocs_ok w.(memory) \/ RR_COUNT_MAX < s.(s_size) end.
Proof.
  intros Hw Hs LC Hz. destruct (lists_counts _ _ _ _ _ _ _ _ _ LC) as (E1 & E2 & E3 & H1 & H2). unfold parse_create_rrset. wstep.
  rewrite E1, E2, !(ltb_false RR_COUNT_MAX) by (unfold MAX_RRS, RR_COUNT_MAX in *; lia). cbn [orb].
  zcase; [eexists _, w; split; [done|]; split; [by apply moved_refl|by right]|].
  astep w1 M1 A1; [|eexists _, w1; split; [done|]; split; [done|]; left; intros Hm; by specialize (A1 Hm)].
  pose proof (zlen_nonneg l1). pose proof (zlen_nonneg l2). pose proof (zlen_nonneg (block (l1 ++ l2))). rewrite Hz in *.
  rewrite wrap_small by (unfold in_u, rdata_start, sizeof_packed_rrset_data, RR_COUNT_MAX, MAX_RRS in *; lia).
  destruct (mv_pkt _ _ M1) as (p & Hpk & Hp).
  destruct (parse_rr_copy_ok b d B cfg heap w1 p a s xs1 xs2 l1 l2 Hpk Hp) as (q & E & Hq); [by rewrite (mv_rrsets _ _ M1)|by rewrite (mv_rrs _ _ M1)|].
  rewrite (st_bind_ok _ _ _ _ _ E). eexists _, _. split; [reflexivity|]. split; [|done].
  eapply moved_trans; [done|by apply moved_pkt].
Qed.

(** ** Trust *)

(** How many of the first RRsets answer: after a CNAME or DNAME the others do not. *)
Definition answers (M : gmap addr rrset_parse) (L : list addr) : nat :=
  match L with
  | f :: _ =>
      match M !! f with
      | Some s => if bool_decide (s.(s_section) = LDNS_SECTION_ANSWER)
                  then if (s.(s_type) =? LDNS_RR_TYPE_CNAME)%Z then 1 else if (s.(s_type) =? LDNS_RR_TYPE_DNAME)%Z then 2 else length L
                  else length L
      | None => 0
      end
  | [] => 0
  end%nat.

Definition trust_of (AA : bool) (M : gmap addr rrset_parse) (L : list addr) (a : addr) (section : sldns_pkt_section) : rrset_trust :=
  match section with
  | LDNS_SECTION_ANSWER => if AA && bool_decide (a ∈ take (answers M L) L) then rrset_trust_ans_AA else rrset_trust_ans_noAA
  | LDNS_SECTION_AUTHORITY => if AA then rrset_trust_auth_AA else rrset_trust_auth_noAA
  | _ => if AA then rrset_trust_add_AA else rrset_trust_add_noAA
  end.

Definition is_AA (m : msg_parse) : bool := negb (Z.land m.(m_flags) BIT_AA =? 0).

Lemma first_answer_ok w f s t : w.(rrsets) !! f = Some s -> w.(msg).(m_rrset_first) = Some f ->
  first_answer w.(msg) t w = Ok (bool_decide (s.(s_section) = LDNS_SECTION_ANSWER) && (s.(s_type) =? t), w).
Proof. intros Hs Hf. unfold first_answer. rewrite Hf. by wstep. Qed.

Lemma trust_ok w a s L : all_ok (v_next <$> w.(rrsets)) w.(msg).(m_rrset_first) w.(msg).(m_rrset_last) L -> a ∈ L -> w.(rrsets) !! a = Some s ->
  get_rrset_trust a w = Ok (trust_of (is_AA w.(msg)) w.(rrsets) L a s.(s_section), w).
Proof.
  intros [A _ _] Ha Hs. destruct L as [|f L]; [by apply not_elem_of_nil in Ha|]. destruct A as (Hf & n & Hn & A). apply view_some in Hn as (sf & Hsf & <-).
  unfold get_rrset_trust. wstep. wstep. unfold trust_of, is_AA. destruct (s_section s); try (by destruct (negb _)).
  destruct (negb (Z.land _ _ =? 0)); cbn [andb]; [|done].
  rewrite (st_bind_ok _ _ _ _ _ (first_answer_ok _ _ _ _ Hsf Hf)). cbv beta. unfold answers. rewrite Hsf. destruct (bool_decide (s_section sf = _)) eqn:Eb; cbn [andb].
  - zcase.
    { destruct (decide _) as [E|E]; [rewrite Hf in E; injection E as ->; by rewrite bool_decide_true by (by left)|].
      rewrite bool_decide_false; [done|]. cbn. intros [->|?%not_elem_of_nil]%elem_of_cons; [|done]. by rewrite Hf in E. }
    rewrite (st_bind_ok _ _ _ _ _ (first_answer_ok _ _ _ _ Hsf Hf)), Eb. cbv beta. cbn [andb]. zcase; [|rewrite firstn_all; by rewrite bool_decide_true].
    rewrite Hf. destruct (decide _) as [[= ->]|E]; [by rewrite bool_decide_true by (by left)|]. wstep.
    assert (Some a = s_all_next sf <-> a ∈ take 2 (f :: L)) as Hiff.
    { cbn. rewrite elem_of_cons. destruct L as [|g L]; cbn.
      - change (s_all_next sf = None) in A. rewrite A, elem_of_nil. naive_solver.
      - destruct A as [A _]. change (s_all_next sf = Some g) in A. rewrite A, list_elem_of_singleton. naive_solver. }
    destruct (decide (Some a = _)) as [E'|E']; [rewrite bool_decide_true by tauto|rewrite bool_decide_false by tauto]; done.
  - rewrite (st_bind_ok _ _ _ _ _ (first_answer_ok _ _ _ _ Hsf Hf)), Eb. cbv beta. cbn [andb]. rewrite bool_decide_true; [done|]. by rewrite firstn_all.
Qed.

(** ** RRsets *)

(** The parsed packet. *)
Context (le : bool) (raninit addr_ : Z) (w0 : world) (p0 : Z) (L : list addr) (R S : addr -> list addr).
Context (H0 : base b d le raninit w0 p0 L R S) (HB : bounded L R S).

(** [k] is the RRset [a] of the packet with its name, RRs and signatures written out. *)
Definition key_copied (a : addr) (k : ub_packed_rrset_key) : Prop :=
  exists s ls e l1 l2, w0.(rrsets) !! a = Some s /\ name_at b d s.(s_dname) ls e /\ lists_copied b d cfg w0.(rrs) s (R a) (S a) l1 l2 /\
    s.(s_size) = zlen (block (l1 ++ l2)) /\
    k = mk_key s.(s_hash) (Some (with_trust (trust_of (is_AA w0.(msg)) w0.(rrsets) L a s.(s_section)) (data_with cfg l1 l2))) 0
          (mk_rk (wire ls) (zlen (wire ls)) s.(s_flags) (sldns_write_uint16 s.(s_type)) s.(s_class)).

(** An RRset the code refuses to copy. *)
Definition oversized : Prop := exists a s, w0.(rrsets) !! a = Some s /\ RR_COUNT_MAX < s.(s_size).

Lemma rrset_lists a s : w0.(rrsets) !! a = Some s ->
  exists ls e l1 l2, name_at b d s.(s_dname) ls e /\ s.(s_dname_len) = zlen (wire ls) /\ lists_copied b d cfg w0.(rrs) s (R a) (S a) l1 l2 /\
    s.(s_size) = zlen (block (l1 ++ l2)).
Proof.
  intros Hs. destruct (b_keys _ _ _ _ _ _ _ _ _ H0 a s Hs) as (ls & e & N & El & _). cbn in N, El.
  pose proof (b_contents _ _ _ _ _ _ _ _ _ H0) as [C1 C2]. pose proof (b_lists _ _ _ _ _ _ _ _ _ H0) as LO.
  destruct (rrs_copied b d cfg w0.(rrs) s.(s_type) s.(s_section) (R a)) as (l1 & F1); [intros x Hx; by apply (C1 a (v_key s)); [apply view_lookup|]|].
  destruct (rrs_copied b d cfg w0.(rrs) LDNS_RR_TYPE_RRSIG s.(s_section) (S a)) as (l2 & F2); [intros x Hx; by apply (C2 a (v_key s)); [apply view_lookup|]|].
  exists ls, e, l1, l2. split; [done|]. split; [done|]. pose proof (view_lookup v_lists _ _ _ Hs) as Hl. destruct HB as [_ HS]. destruct (HS a) as [HR1 HS1]. split.
  - split; [by eapply l_rrs|by eapply l_sigs|by split|done|done].
  - rewrite (l_size _ _ _ _ LO _ _ _ _ Hl). unfold own. rewrite rr_sizes_app.
    destruct (block_sizes b d B cfg _ _ _ _ _ F1) as [-> ?]. destruct (block_sizes b d B cfg _ _ _ _ _ F2) as [-> ?].
    pose proof (zlen_nonneg (block l1)). pose proof (zlen_nonneg (block l2)). rewrite block_app, zlen_app. apply wrap_small. unfold in_u, MAX_RRS in *. lia.
Qed.

Lemma base_settled : settled w0.
Proof. exists p0. split; apply H0. Qed.

Lemma copy_rrset_ok w a pk : moved w0 w -> a ∈ L -> id pk = 0 ->
  exists r w', parse_copy_decompress_rrset cfg heap a pk w = Ok (r, w') /\ moved w0 w' /\
    match r with Some k => key_copied a k | None => ~ mallocs_ok w0.(memory) \/ oversized end.
Proof.
  intros M Ha Hid. destruct (proj1 (b_dom _ _ _ _ _ _ _ _ _ H0 a) Ha) as (s & Hs). destruct (rrset_lists a s Hs) as (ls & e & l1 & l2 & N & El & LC & Hz).
  assert (w.(rrsets) !! a = Some s) as Hsw by (by rewrite (mv_rrsets _ _ M)). pose proof (mv_pkt _ _ M) as Hw.
  unfold parse_copy_decompress_rrset. wstep.
  astep w1 M1 A1; [|eexists None, w1; split; [done|]; split; [by eapply moved_trans|]; left; intros Hm; by specialize (A1 (mv_memory _ _ M Hm))].
  pose proof (moved_trans _ _ _ M M1) as M01. rewrite El. erewrite st_bind_ok by (by eapply copy_name_ok). cbv beta.
  assert (w1.(rrsets) !! a = Some s) as Hs1 by (by rewrite (mv_rrsets _ _ M01)).
  destruct (create_rrset_ok w1 a s (R a) (S a) l1 l2) as (r & w2 & E & M2 & Hr); [done|done|by rewrite (mv_rrs _ _ M01)|done|].
  pose proof (moved_trans _ _ _ M01 M2) as M02. rewrite (st_bind_ok _ _ _ _ _ E). cbv beta. destruct r as [x|].
  - subst x. erewrite st_bind_ok.
    2:{ apply (trust_ok w2 a s L); [rewrite (mv_msg _ _ M02), (mv_rrsets _ _ M02); apply H0|done|by rewrite (mv_rrsets _ _ M02)]. }
    eexists _, w2. split; [reflexivity|]. split; [done|]. exists s, ls, e, l1, l2. do 4 (split; [done|]). by rewrite Hid, (mv_msg _ _ M02), (mv_rrsets _ _ M02).
  - eexists None, w2. split; [done|]. split; [done|]. destruct Hr as [Hr|Hr]; [left; intros Hm; apply Hr; by apply (mv_memory _ _ M01)|right; by exists a, s].
Qed.

(** The hash of the key is the one the RRset has in the parse table. *)
Lemma key_hash_ok a k : key_copied a k -> rrset_key_hash le raninit addr_ k.(rk) = Ok k.(entry_hash).
Proof.
  intros (s & ls & e & l1 & l2 & Hs & N & _ & _ & ->). cbn [rk entry_hash].
  destruct (b_keys _ _ _ _ _ _ _ _ _ H0 a s Hs) as (ls' & e' & N' & _ & Ec & [Ht _] & ->). cbn in N', Ec, Ht.
  destruct (pkt_name_fun _ _ _ _ _ _ _ N N') as [<- _]. destruct (name_at_range b d B _ _ _ N) as (_ & _ & _ & [Hls _]).
  unfold rrset_key_hash, ntohs. cbn [rk_type rk_dname rk_class rk_flags].
  assert (sldns_read_uint16 (sldns_write_uint16 s.(s_type)) = Ok s.(s_type)) as ->.
  { pose proof (read_write_uint16 s.(s_type) [] Ht) as E. by rewrite app_nil_r in E. }
  cbn [mbind outcome_bind]. pose proof (dname_query_hash_wire le raninit addr_ ls [] 171 Hls) as E. rewrite app_nil_r in E. rewrite E. cbn [mbind outcome_bind].
  exact (hash_rest_ok le raninit addr_ _ _ _ _ Ec).
Qed.

(** *** Its block is packed, and its key names it *)

Definition bytes_of (l : list rr) : list (list Z) := map (fun r => rr_bytes r.2) l.

Lemma offsets_starts l : forall o, offsets o l = starts o (bytes_of l).
Proof. induction l as [|r l IH]; intros o; [done|]. cbn [offsets bytes_of map starts]. by rewrite IH, zlen_rr_block. Qed.

Lemma lens_bytes l : lens l = map zlen (bytes_of l).
Proof. unfold lens, bytes_of. rewrite map_map. apply map_ext. intros r. by rewrite zlen_rr_block. Qed.

Lemma data_packed N s xs1 xs2 l1 l2 t : lists_copied b d cfg N s xs1 xs2 l1 l2 -> packed_ok (with_trust t (data_with cfg l1 l2)) (bytes_of (l1 ++ l2)).
Proof.
  intros LC. destruct (lists_counts _ _ _ _ _ _ _ _ _ LC) as (_ & _ & E3 & Hb1 & Hb2). destruct LC as [_ _ _ F1 F2].
  destruct (block_sizes b d B cfg _ _ _ _ _ F1) as [_ Z1]. destruct (block_sizes b d B cfg _ _ _ _ _ F2) as [_ Z2].
  rewrite (zlen_forall2 _ _ _ F1) in Z1. rewrite (zlen_forall2 _ _ _ F2) in Z2. pose proof (zlen_nonneg l1). pose proof (zlen_nonneg l2).
  assert (zlen (bytes_of (l1 ++ l2)) = zlen l1 + zlen l2) as Ez by (unfold bytes_of; by rewrite zlen_map, zlen_app).
  split; cbn; rewrite ?app_nil_r, ?Ez; try done.
  - apply lens_bytes.
  - by rewrite E3, offsets_starts.
  - by rewrite zlen_map, zlen_app.
  - change (concat (bytes_of (l1 ++ l2))) with (block (l1 ++ l2)). rewrite block_app, zlen_app. unfold rdata_start, sizeof_packed_rrset_data, MAX_RRS in *. lia.
Qed.

Lemma key_packed a k : key_copied a k -> exists x l, k.(entry_data) = Some x /\ packed_ok x l.
Proof. intros (s & ls & e & l1 & l2 & _ & _ & LC & _ & ->). eexists _, _. split; [reflexivity|]. by eapply data_packed. Qed.

Lemma key_named a k : key_copied a k -> exists ls, key_names k ls.
Proof.
  intros (s & ls & e & l1 & l2 & Hs & N & _ & _ & ->). destruct (b_keys _ _ _ _ _ _ _ _ _ H0 a s Hs) as (_ & _ & _ & _ & Ec & _). cbn in Ec.
  destruct (name_at_range b d B _ _ _ N) as (_ & _ & _ & Hn). exists ls. split; try done. split; [done|apply write_uint16_bytes].
Qed.

(** ** The message *)

Definition rrset_ttl (k : ub_packed_rrset_key) : Z := match k.(entry_data) with Some x => x.(d_ttl) | None => 0 end.
Definition zeros (n : nat) : list (option ub_packed_rrset_key) := replicate n (Some key_zero).

Lemma key_copied_data a k : key_copied a k -> exists x, k.(entry_data) = Some x /\ rrset_ttl k = x.(d_ttl).
Proof. intros (s & ls & e & l1 & l2 & _ & _ & _ & _ & ->). by eexists. Qed.

Lemma lookup_app_zlen {A} (l : list A) x k : (l ++ x :: k) !! Z.to_nat (zlen l) = Some x.
Proof. rewrite to_nat_zlen. by rewrite lookup_app_r, Nat.sub_diag by lia. Qed.

Lemma insert_app_keys (l : list (option ub_packed_rrset_key)) x y k i : i = zlen l -> <[Z.to_nat i := y]> (l ++ x :: k) = l ++ y :: k.
Proof. intros ->. rewrite to_nat_zlen. by rewrite insert_app_r_alt, Nat.sub_diag by lia. Qed.

Lemma copy_loop_ok L2 : forall L1 ks1 w pset t, L = L1 ++ L2 -> moved w0 w -> seg Datatypes.id (v_next <$> w0.(rrsets)) pset L2 None -> Forall2 key_copied L1 ks1 ->
  exists r w', copy_rrsets_loop cfg heap (length L2) (zlen L1) pset t (map Some ks1 ++ zeros (length L2)) w = Ok (r, w') /\ moved w0 w' /\
    match r with
    | Some (t', keys) => exists ks2, keys = map Some (ks1 ++ ks2) /\ Forall2 key_copied L2 ks2 /\ t' = min_ttl t (map rrset_ttl ks2)
    | None => ~ mallocs_ok w0.(memory) \/ oversized
    end.
Proof.
  induction L2 as [|a L2 IH]; intros L1 ks1 w pset t EL M Hseg F1.
  - eexists _, w. split; [reflexivity|]. split; [done|]. exists []. unfold zeros. by rewrite !app_nil_r.
  - destruct Hseg as (-> & n & Hn & Hseg). apply view_some in Hn as (s & Hs & <-). cbn [length copy_rrsets_loop zeros replicate].
    assert (zlen L1 = zlen (map (@Some ub_packed_rrset_key) ks1)) as Ez by (rewrite zlen_map; by apply (zlen_forall2 _ _ _ F1)).
    assert ((map Some ks1 ++ Some key_zero :: replicate (length L2) (Some key_zero)) !! Z.to_nat (zlen L1) = Some (Some key_zero)) as -> by (rewrite Ez; apply lookup_app_zlen).
    destruct (copy_rrset_ok w a key_zero M) as (r & w1 & E & M1 & Hr); [rewrite EL; apply elem_of_app; right; by left|done|].
    rewrite (st_bind_ok _ _ _ _ _ E). cbv beta. destruct r as [k|]; [|by exists None, w1].
    destruct (key_copied_data _ _ Hr) as (x & Ex & Et). destruct (mv_pkt _ _ M1) as (p & Hpk & Hp).
    rewrite (st_bind_ok _ _ _ _ _ (on_ask b (fun _ => nonnull (entry_data k)) w1 p x Hpk ltac:(by rewrite Ex))). cbv beta.
    assert (w1.(rrsets) !! a = Some s) as Hs1 by (by rewrite (mv_rrsets _ _ M1)). wstep.
    rewrite insert_app_keys by exact Ez.
    destruct (IH (L1 ++ [a]) (ks1 ++ [k]) w1 (s_all_next s) (at_most (d_ttl x) t)) as (r & w' & E' & M' & Hr'); [by rewrite <- app_assoc|done|exact Hseg|by apply Forall2_app; [|constructor]|].
    exists r, w'. rewrite zlen_app, map_app, <- app_assoc in E'. split; [exact E'|]. split; [done|]. destruct r as [[t' keys]|]; [|done].
    destruct Hr' as (ks2 & -> & F2 & ->). exists (k :: ks2). rewrite <- app_assoc. split; [done|]. split; [by constructor|]. cbn. by rewrite Et.
Qed.

Lemma alloc_loop_ok n : forall (k : list (option ub_packed_rrset_key)) w, settled w -> exists ok keys w', alloc_keys_loop n (zlen k) (k ++ replicate n None) w = Ok ((ok, keys), w') /\ moved w w' /\
  (mallocs_ok w.(memory) -> ok = true) /\ (ok = true -> keys = k ++ zeros n).
Proof.
  induction n as [|n IH]; intros k w Hw; cbn [alloc_keys_loop replicate].
  - eexists true, _, w. split; [reflexivity|]. split; [by apply moved_refl|done].
  - astep w1 M1 A1; [|eexists false, _, w1; split; [reflexivity|]; done].
    pose proof (zlen_nonneg k). pose proof (zlen_nonneg (replicate n (@None ub_packed_rrset_key))). rewrite zlen_app, zlen_cons, ltb_true by lia. unfold assert_. wstep.
    rewrite insert_app_keys by done. destruct (IH (k ++ [Some key_zero]) w1) as (ok & keys & w' & E & M & Ho & Hk); [done|].
    rewrite zlen_app, <- app_assoc in E. exists ok, keys, w'. split; [exact E|]. split; [by eapply moved_trans|]. split; [intros Hm; by apply Ho, (mv_memory _ _ M1)|].
    intros Hok. rewrite (Hk Hok), <- app_assoc. done.
Qed.

(** *** The time to live *)

(** The settings are numbers of 32 bits, as they are read from the configuration. *)
Definition small_settings : Prop := Forall (in_s 32) [cfg.(MAX_TTL); cfg.(MIN_TTL); cfg.(MAX_NEG_TTL); cfg.(MIN_NEG_TTL); cfg.(SERVE_EXPIRED_TTL)].
Definition small_ttl (t : Z) : Prop := - 2 ^ 31 <= t < 2 ^ 32.

Lemma u32_range l v : bytes_ok l -> sldns_read_uint32 l = Ok v -> in_u 32 v.
Proof.
  intros Hb. unfold sldns_read_uint32. intros (x & Hx & (y & Hy & (z & Hz & (u & Hu & E)%bind_inv)%bind_inv)%bind_inv)%bind_inv. apply Ok_inj in E as <-.
  apply index_byte in Hx; [|done]. apply index_byte in Hy; [|done]. apply index_byte in Hz; [|done]. apply index_byte in Hu; [|done]. unfold in_u in *.
  rewrite <- !Z.lor_assoc, (lor_shiftl_add z u 8), (lor_shiftl_add y _ 16), (lor_shiftl_add x _ 24) by lia. lia.
Qed.

Lemma u32_at_range o : in_u 32 (u32_at d o).
Proof.
  unfold u32_at. destruct (sldns_read_uint32 (zdrop o d)) as [v| |] eqn:E; [|unfold in_u; lia..].
  apply u32_range in E; [done|]. apply bytes_ok_zdrop, B.
Qed.

Lemma ttl_of_small type section ttl : small_settings -> small_ttl (ttl_of d cfg type section ttl).
Proof.
  unfold small_settings, in_s. rewrite !Forall_cons. intros (H1 & H2 & H3 & H4 & _).
  assert (in_u 32 (raw_ttl d ttl)) as Hr by (unfold raw_ttl; pose proof (u32_at_range ttl); destruct (_ =? _); [done|unfold in_u; lia]).
  assert (in_u 32 (soa_minttl d ttl)) as Hm by (unfold soa_minttl; cbv zeta; destruct (_ <? _); [unfold in_u; lia|apply u32_at_range]).
  unfold in_u in Hr, Hm. unfold ttl_of, limit_neg_ttl, limit_ttl, small_ttl. cbv zeta. rewrite !at_most_min, at_least_max.
  repeat match goal with |- context [if ?x then _ else _] => destruct x end; lia.
Qed.

Lemma min_ttl_small l : forall m, small_ttl m -> Forall small_ttl l -> small_ttl (min_ttl m l).
Proof.
  induction l as [|t l IH]; intros m Hm Hl; [done|]. apply Forall_cons in Hl as [Ht Hl]. cbn. apply IH; [|done].
  rewrite at_most_min. unfold small_ttl in *. lia.
Qed.

Lemma key_ttl_small a k : small_settings -> key_copied a k -> small_ttl (rrset_ttl k).
Proof.
  intros Hs (s & ls & e & l1 & l2 & _ & _ & LC & _ & ->). cbn. apply min_ttl_small.
  - pose proof (Forall_inv Hs) as H. unfold in_s in H. unfold small_ttl. lia.
  - destruct LC as [_ _ _ F1 F2]. rewrite map_app, Forall_app. split.
    + clear - B Hs F1. induction F1 as [|x r xs l1 Hr _ IH]; [constructor|]. constructor; [|done]. destruct Hr as (rp & _ & _ & _ & _ & ->). by apply ttl_of_small.
    + clear - B Hs F2. induction F2 as [|x r xs l2 Hr _ IH]; [constructor|]. constructor; [|done]. destruct Hr as (rp & _ & _ & _ & _ & ->). by apply ttl_of_small.
Qed.

(** *** The reply *)

Definition reply_ttl (ks : list ub_packed_rrset_key) : Z :=
  min_ttl (match ks with [] => NORR_TTL | _ => cfg.(MAX_TTL) end) (map rrset_ttl ks).

(** [rep] is the reply for the packet, with the RRsets [ks]. *)
Definition reply_with (m : msg_parse) (ks : list ub_packed_rrset_key) : reply_info :=
  let t := reply_ttl ks in
  mk_rep m.(m_flags) 0 m.(m_qdcount) t (PREFETCH_TTL_CALC t) (t + cfg.(SERVE_EXPIRED_TTL)) sec_status_unchecked LDNS_EDE_NONE None
    m.(m_an_rrsets) m.(m_ns_rrsets) m.(m_ar_rrsets) (zlen ks) (map Some ks).

Definition query_of (m : msg_parse) (q : query_info) : Prop :=
  match m.(m_qname) with
  | Some o => exists ls e, name_at b d o ls e /\ q = mk_qi (Some (wire ls)) (zlen (wire ls)) m.(m_qtype) m.(m_qclass) None
  | None => q = mk_qi None 0 m.(m_qtype) m.(m_qclass) None
  end.

Lemma qinfo_ok w p : moved w0 w -> question_ok b d p w0.(msg) ->
  exists r w', parse_create_qinfo w = Ok (r, w') /\ moved w0 w' /\ match r with Some q => query_of w0.(msg) q | None => ~ mallocs_ok w0.(memory) end.
Proof.
  intros M Q. pose proof (mv_pkt _ _ M) as Hw. unfold parse_create_qinfo, query_of. wstep. rewrite (mv_msg _ _ M).
  destruct Q as [(_ & -> & -> & _)|(_ & ls & e & N & -> & -> & _)].
  - eexists _, w. split; [reflexivity|]. done.
  - astep w1 M1 A1; [|eexists None, w1; split; [done|]; split; [by eapply moved_trans|]; intros Hm; by specialize (A1 (mv_memory _ _ M Hm))].
    erewrite st_bind_ok by (by eapply copy_name_ok). eexists _, w1. split; [reflexivity|]. split; [by eapply moved_trans|]. by exists ls, e.
Qed.

Lemma parse_create_msg_ok p : small_settings -> question_ok b d p w0.(msg) -> totals_ok w0.(msg) (v_section <$> w0.(rrsets)) ->
  exists r w', parse_create_msg cfg heap w0 = Ok (r, w') /\ moved w0 w' /\
    match r with
    | Some (q, rep) => query_of w0.(msg) q /\ exists ks, rep = reply_with w0.(msg) ks /\ Forall2 key_copied L ks
    | None => ~ mallocs_ok w0.(memory) \/ oversized
    end.
Proof.
  intros Hset Q (_ & _ & _ & Hc). rewrite map_size_fmap in Hc. rewrite <- (rrset_list_size _ L) in Hc by apply H0.
  destruct HB as [HL _]. pose proof (zlen_nonneg L). pose proof base_settled as Hw0.
  destruct (qinfo_ok w0 p (moved_refl _ Hw0) Q) as (r & w1 & E1 & M1 & Hr). unfold parse_create_msg. rewrite (st_bind_ok _ _ _ _ _ E1). cbv beta.
  destruct r as [q|]; [|exists None, w1; split; [done|]; split; [done|by left]].
  pose proof (mv_pkt _ _ M1) as Hw1. unfold parse_create_repinfo. rewrite st_bind_assoc. wstep. rewrite (mv_msg _ _ M1), Hc. unfold construct_reply_info_base.
  rewrite leb_false by (unfold RR_COUNT_MAX, MAX_RRS in *; lia). rewrite st_bind_assoc.
  astep w2 M2 A2.
  2:{ eexists None, w2. split; [done|]. split; [by eapply moved_trans|]. left. intros Hm. by specialize (A2 (mv_memory _ _ M1 Hm)). }
  pose proof (moved_trans _ _ _ M1 M2) as M02. wstep. unfold reply_info_alloc_rrset_keys. rewrite st_bind_assoc. cbn [rrset_count rep_rrsets].
  destruct (alloc_loop_ok (Z.to_nat (zlen L)) [] w2) as (ok & keys & w3 & E3 & M3 & Ho & Hk); [done|]. rewrite (st_bind_ok _ _ _ _ _ E3). cbv beta iota. wstep.
  pose proof (moved_trans _ _ _ M02 M3) as M03.
  destruct ok; cbn [negb]; [|eexists None, w3; split; [done|]; split; [done|]; left; intros Hm; by specialize (Ho (mv_memory _ _ M02 Hm))].
  rewrite (Hk eq_refl), to_nat_zlen. unfold parse_copy_decompress. rewrite st_bind_assoc. wstep. rewrite st_bind_assoc, (mv_msg _ _ M03). cbn [rrset_count rep_rrsets with_rrsets]. rewrite to_nat_zlen.
  destruct (copy_loop_ok L [] [] w3 (m_rrset_first w0.(msg)) (if zlen L =? 0 then NORR_TTL else cfg.(MAX_TTL)) eq_refl M03) as (r & w4 & E4 & M4 & Hr4); [apply H0|constructor|].
  rewrite (st_bind_ok _ _ _ _ _ E4). cbv beta. destruct r as [[t keys']|]; [|wstep; by exists None, w4].
  destruct Hr4 as (ks & -> & F & ->). cbn [app].
  assert (min_ttl (if zlen L =? 0 then NORR_TTL else cfg.(MAX_TTL)) (map rrset_ttl ks) = reply_ttl ks) as ->.
  { unfold reply_ttl. destruct F; [done|]. rewrite zlen_cons. pose proof (zlen_nonneg l). by rewrite eqb_false by lia. }
  assert (small_ttl (reply_ttl ks)) as Hsm.
  { apply min_ttl_small.
    - pose proof (Forall_inv Hset) as Hx. unfold in_s in Hx. unfold small_ttl, NORR_TTL. destruct ks; lia.
    - apply Forall_map, Forall_forall. intros k (i & Hi)%list_elem_of_lookup. destruct (Forall2_lookup_r _ _ _ _ _ F Hi) as (a & _ & Ha). by eapply key_ttl_small. }
  assert (in_s 32 cfg.(SERVE_EXPIRED_TTL)) as Hse by (unfold small_settings in Hset; rewrite !Forall_cons in Hset; tauto).
  destruct (mv_pkt _ _ M4) as (p4 & Hp4 & Hq4). rewrite st_bind_assoc.
  rewrite (st_bind_ok _ _ _ _ _ (on_ask b _ w4 p4 _ Hp4 (sint_ok 64 (reply_ttl ks + cfg.(SERVE_EXPIRED_TTL)) ltac:(unfold in_s, small_ttl in *; lia)))). cbv beta. wstep.
  eexists _, w4. split; [reflexivity|]. split; [done|]. split; [done|]. exists ks. split; [|done].
  unfold reply_with. rewrite <- (zlen_forall2 _ _ _ F). cbn.
  assert (u8 (m_qdcount (msg w0)) = m_qdcount (msg w0)) as -> by (apply wrap_small; unfold in_u; destruct Q as [[-> _]|[-> _]]; lia). done.
Qed.
End Message.
