(* ===== verification/ReplyParse.v ===== *)
(** * Replies: from the packet to the reply

    [parse_reply_in_temp_region] parses the packet from its start and builds the reply;
    [get_cname_target] then tells where its aliases lead. *)

From S2P Require Import Prelude Sbuffer Lookup3 Dname DnameCompare DnamePkt RrDef Msgparse MsgMemory MsgPkt MsgRdata MsgLists MsgOps MsgSigs MsgChange MsgFind MsgRr MsgSections MsgPacket PackedRrset PackedBlock Msgreply ReplyRrset ReplyMessage.

(** The packet from its start. *)
Definition rewound (b : sldns_buffer) : sldns_buffer := set_pos b 0.

Lemma rewound_ok b d : buf_ok b d -> buf_ok (rewound b) d.
Proof. intros B. apply at_buf; [done|]. destruct B. lia. Qed.

(** What the packet parses to, in the memory that is left. *)
Definition parses_to (b : sldns_buffer) (le : bool) (raninit addr_ : Z) (m : mem) (w0 : world) : Prop :=
  parse_packet le raninit addr_ (fresh_world (rewound b) (malloc m).2) = Ok (0, w0).

(** [q] and [rep], with the RRsets [ks], are the parsed packet [w0] written out. *)
Record written_out (b : sldns_buffer) (d : list Z) (cfg : ttl_settings) (le : bool) (raninit : Z) (w0 : world) (q : query_info) (rep : reply_info) (ks : list ub_packed_rrset_key) : Prop := {
  wo_query : query_of (rewound b) d w0.(msg) q;
  wo_reply : rep = reply_with cfg w0.(msg) ks;
  wo_rrsets : exists L R S, well_formed (rewound b) d le raninit 0 w0 L R S /\ Forall2 (key_copied (rewound b) d cfg w0 L R S) L ks;
  wo_hash : forall addr_ k, k ∈ ks -> rrset_key_hash le raninit addr_ k.(rk) = Ok k.(entry_hash);
  wo_packed : forall k, k ∈ ks -> exists x l, k.(entry_data) = Some x /\ packed_ok x l;
  wo_named : forall k, k ∈ ks -> exists ls, key_names k ls;
}.

(** The memory that is left after the first allocation. *)
Lemma first_alloc b m : alloc (fresh_world b m) = Ok ((malloc m).1, fresh_world b (malloc m).2).
Proof. unfold alloc. cbn. by destruct (malloc m). Qed.

Lemma parse_reply_run b d cfg heap le raninit addr_ m : buf_ok b d -> small_settings cfg ->
  exists r w' p, parse_reply_in_temp_region cfg heap le raninit addr_ (fresh_world b m) = Ok (r, w') /\ w'.(pkt) = set_pos b p /\ 0 <= p <= b.(_limit) /\
    match r with
    | Some (q, rep) => exists w0 ks, parses_to b le raninit addr_ m w0 /\ written_out b d cfg le raninit w0 q rep ks
    | None => mallocs_ok m -> forall w0, parses_to b le raninit addr_ m w0 -> oversized w0
    end.
Proof.
  intros B Hset. pose proof (bo_pos _ _ B). unfold parse_reply_in_temp_region, parses_to. rewrite (st_bind_ok _ _ _ _ _ (first_alloc b m)). cbv beta.
  destruct (malloc m) as [ok m'] eqn:Em. cbn [fst snd]. destruct ok; cbn [negb].
  2:{ exists None, (fresh_world b m'), b.(_position). split; [done|]. split; [by destruct b|]. split; [lia|]. intros Hm. by destruct (malloc_ok _ _ _ Em Hm). }
  rewrite (st_bind_ok _ _ _ tt (fresh_world b m')) by done. cbv beta.
  assert (on_pkt (p_set_position 0) (fresh_world b m') = Ok (tt, fresh_world (rewound b) m')) as E0.
  { unfold on_pkt, p_set_position, sldns_buffer_set_position. cbn. by rewrite leb_true by lia. }
  rewrite (st_bind_ok _ _ _ _ _ E0). cbv beta. pose proof (rewound_ok b d B) as B0.
  destruct (parse_packet_run (rewound b) d le raninit addr_ m' B0) as (rc & w0 & p & E & Hp & Hq & _ & Hd). rewrite (st_bind_ok _ _ _ _ _ E). cbv beta.
  destruct (Z.eqb_spec rc 0) as [->|]; cbn [negb].
  2:{ exists None, w0, p. split; [done|]. split; [done|]. split; [done|]. intros _ w1 E1. rewrite E in E1. by injection E1 as ->. }
  destruct (Hd eq_refl) as (L & R & S & G & H1 & H2 & H3 & H4 & _). pose proof (g_base _ _ _ _ _ _ _ _ _ _ G) as Hb.
  destruct (parse_create_msg_ok (rewound b) d B0 cfg heap le raninit w0 p L R S Hb H4 _ Hset H2 H3) as (r & w' & E2 & M & Hr).
  destruct (mv_pkt _ _ _ M) as (p' & Hp' & Hq'). exists r, w', p'. split; [exact E2|]. split; [done|]. split; [done|]. destruct r as [[q rep]|].
  - destruct Hr as (Hqr & ks & Hks & HF). exists w0, ks. split; [exact E|].
    assert (forall k, k ∈ ks -> exists a, key_copied (rewound b) d cfg w0 L R S a k) as HK.
    { intros k (i & Hi)%list_elem_of_lookup. destruct (Forall2_lookup_r _ _ _ _ _ HF Hi) as (a & _ & Ha). by exists a. }
    split; [done|done| | | |].
    + exists L, R, S. split; [|done]. exact (good_well_formed (rewound b) d le raninit w0 p L R S G H1 H2 H3 H4).
    + intros addr' k (a & Ha)%HK. by eapply (key_hash_ok (rewound b) d B0 cfg le raninit addr').
    + intros k (a & Ha)%HK. by eapply (key_packed (rewound b) d B0).
    + intros k (a & Ha)%HK. by eapply (key_named (rewound b) d B0).
  - intros Hm w1 E1. rewrite E in E1. injection E1 as <-. destruct Hr as [Hr|Hr]; [|done]. destruct Hr.
    destruct (malloc_ok _ _ _ Em Hm) as [_ Hm']. by destruct (packet_memory le raninit addr_ (fresh_world (rewound b) m') _ _ Hm' E).
Qed.

(** C9. Making a reply of a packet ends without a fault, for every packet, all answers of
    the allocator and all settings of 32 bits: nothing is read or written outside of the
    packet and of the blocks that were allocated, no TTL overflows, and the packet is not
    changed.  The reply is refused only when an allocation fails, when the packet does not
    parse, or when it has an RRset whose rdata is larger than [RR_COUNT_MAX]. *)
Theorem parse_reply_total b d cfg heap le raninit addr_ m : buf_ok b d -> small_settings cfg ->
  exists r w' p, parse_reply_in_temp_region cfg heap le raninit addr_ (fresh_world b m) = Ok (r, w') /\ w'.(pkt) = set_pos b p /\ 0 <= p <= b.(_limit) /\
    (r = None -> mallocs_ok m -> forall w0, parses_to b le raninit addr_ m w0 -> oversized w0).
Proof.
  intros B Hset. destruct (parse_reply_run b d cfg heap le raninit addr_ m B Hset) as (r & w' & p & E & Hp & Hq & H). exists r, w', p.
  do 3 (split; [done|]). by intros ->.
Qed.

(** C8. The reply is the packet written out: the header's flags and counts, the question,
    and for every RRset of the parsed packet, in the order of their list, one RRset with
    its name decompressed, its type, class and flags, its RRs and signatures in their order,
    with their TTLs as the settings limit them and their rdata decompressed, the lowest TTL,
    the trust its section gives it; the TTL of the reply is the lowest of the RRsets'.  The
    hash that is stored, which was taken from the packet, is the hash of the new key; the
    blocks are packed, and the keys name RRsets, so that what is shown of those holds. *)
Theorem parse_reply_written_out b d cfg heap le raninit addr_ m q rep w' : buf_ok b d -> small_settings cfg ->
  parse_reply_in_temp_region cfg heap le raninit addr_ (fresh_world b m) = Ok (Some (q, rep), w') ->
  exists w0 ks, parses_to b le raninit addr_ m w0 /\ written_out b d cfg le raninit w0 q rep ks.
Proof.
  intros B Hset E. destruct (parse_reply_run b d cfg heap le raninit addr_ m B Hset) as (r & w2 & p & E2 & _ & _ & H). rewrite E in E2. by injection E2 as <- <-.
Qed.

(** ** Limits *)

(** The settings are in order. *)
Record ordered_settings (cfg : ttl_settings) : Prop := {
  os_small : small_settings cfg;
  os_min : 0 <= cfg.(MIN_TTL) <= cfg.(MAX_TTL);
  os_neg : 0 <= cfg.(MAX_NEG_TTL) /\ cfg.(MIN_NEG_TTL) <= cfg.(MAX_TTL);
  os_expired : 0 <= cfg.(SERVE_EXPIRED_TTL);
  os_limits : cfg.(SERVE_ORIGINAL_TTL) = false;
}.

Lemma ttl_of_range b d cfg type section ttl : buf_ok b d -> ordered_settings cfg ->
  0 <= ttl_of d cfg type section ttl <= cfg.(MAX_TTL) /\ (type <> LDNS_RR_TYPE_SOA -> cfg.(MIN_TTL) <= ttl_of d cfg type section ttl).
Proof.
  intros B [_ H1 H2 _ H3].
  assert (in_u 32 (raw_ttl d ttl)) as Hr by (unfold raw_ttl; pose proof (u32_at_range b d B ttl); destruct (_ =? _); [done|unfold in_u; lia]).
  assert (in_u 32 (soa_minttl d ttl)) as Hm by (unfold soa_minttl; cbv zeta; destruct (_ <? _); [unfold in_u; lia|apply (u32_at_range b d B)]).
  unfold in_u in Hr, Hm. unfold ttl_of, limit_neg_ttl, limit_ttl. rewrite H3. cbv zeta. rewrite !at_most_min, at_least_max.
  destruct (Z.eqb_spec type LDNS_RR_TYPE_SOA) as [->|Ht]; cbn [andb]; [split; [|done]|lia]. destruct (bool_decide _); [|lia].
  repeat match goal with |- context [if ?x then _ else _] => destruct x eqn:? end; lia.
Qed.

Lemma min_ttl_bounds l : forall m, min_ttl m l <= m /\ Forall (fun t => min_ttl m l <= t) l.
Proof.
  induction l as [|t l IH]; intros m; [split; [done|constructor]|]. destruct (IH (at_most t m)) as [H1 H2].
  pose proof (at_most_min t m). change (min_ttl m (t :: l)) with (min_ttl (at_most t m) l). split; [lia|]. constructor; [lia|done].
Qed.

Lemma min_ttl_below l n : forall m, n <= m -> Forall (Z.le n) l -> n <= min_ttl m l.
Proof.
  induction l as [|t l IH]; intros m Hm Hl; [done|]. apply Forall_cons in Hl as [Ht Hl]. cbn. apply IH; [rewrite at_most_min; lia|done].
Qed.

Lemma copied_ttls b d cfg N type section xs rs : buf_ok b d -> ordered_settings cfg -> Forall2 (rr_copied b d cfg N type section) xs rs ->
  Forall (fun t => 0 <= t <= cfg.(MAX_TTL) /\ (type <> LDNS_RR_TYPE_SOA -> cfg.(MIN_TTL) <= t)) (map fst rs).
Proof.
  intros B O. induction 1 as [|x r xs rs Hr _ IH]; [constructor|]. constructor; [|done]. destruct Hr as (rp & _ & _ & _ & _ & ->). by apply (ttl_of_range b).
Qed.

(** What the TTLs of an RRset keep to. *)
Definition ttls_ok (cfg : ttl_settings) (k : ub_packed_rrset_key) (x : packed_rrset_data) : Prop :=
  0 <= x.(d_ttl) <= cfg.(MAX_TTL) /\ Forall (fun t => x.(d_ttl) <= t <= cfg.(MAX_TTL)) x.(d_rr_ttl) /\
  (k.(rk).(rk_type) <> sldns_write_uint16 LDNS_RR_TYPE_SOA -> Forall (fun t => cfg.(MIN_TTL) <= t) (x.(d_ttl) :: x.(d_rr_ttl))).

Lemma key_ttls b d cfg w0 L R S a k : buf_ok b d -> ordered_settings cfg -> key_copied b d cfg w0 L R S a k ->
  exists x, k.(entry_data) = Some x /\ ttls_ok cfg k x.
Proof.
  intros B O (s & ls & e & l1 & l2 & _ & _ & [_ _ _ F1 F2] & _ & ->). eexists. split; [reflexivity|].
  pose proof (copied_ttls _ _ _ _ _ _ _ _ B O F1) as T1. pose proof (copied_ttls _ _ _ _ _ _ _ _ B O F2) as T2. pose proof (os_min _ O).
  unfold ttls_ok. cbn. rewrite app_nil_r. destruct (min_ttl_bounds (map fst (l1 ++ l2)) cfg.(MAX_TTL)) as [M1 M2]. rewrite map_app in *. split; [|split].
  - split; [|exact M1]. apply min_ttl_below; [lia|]. apply Forall_app. split; [eapply Forall_impl; [exact T1|]|eapply Forall_impl; [exact T2|]]; cbn; lia.
  - rewrite Forall_forall in M2. apply Forall_forall. intros t Ht. split; [by apply M2|].
    apply elem_of_app in Ht as [Ht|Ht]; [rewrite Forall_forall in T1; by apply T1|rewrite Forall_forall in T2; by apply T2].
  - intros Hk. assert (s.(s_type) <> LDNS_RR_TYPE_SOA) as Hs by (intros E; by rewrite E in Hk).
    assert (Forall (fun t => cfg.(MIN_TTL) <= t) (map fst l1 ++ map fst l2)) as HF.
    { apply Forall_app. split; [eapply Forall_impl; [exact T1|]; intros t [_ Ht]; by apply Ht|eapply Forall_impl; [exact T2|]; intros t [_ Ht]; by apply Ht]. }
    constructor; [|done]. apply min_ttl_below; [lia|done].
Qed.

(** C10. With settings that are in order (the limits, and the time to serve expired answers,
    not negative, the minimum not above the maximum) and not set to keep the original TTLs: no
    TTL of an RR or an RRset is negative or above the maximum, and none but of a SOA is
    below the minimum; the TTL of an RRset is at most that of its RRs, and the TTL of
    the reply at most that of its RRsets.  The TTL of a reply is not negative and, if there
    are RRsets, not above the maximum; if there are none it is [NORR_TTL].  The time to
    prefetch is not after it, and the time until which it is served expired is it and
    the setting, so not before it. *)
Theorem parse_reply_ttls b d cfg heap le raninit addr_ m q rep w' : buf_ok b d -> ordered_settings cfg ->
  parse_reply_in_temp_region cfg heap le raninit addr_ (fresh_world b m) = Ok (Some (q, rep), w') ->
  Forall (fun o => exists k x, o = Some k /\ k.(entry_data) = Some x /\ ttls_ok cfg k x /\ rep.(ttl) <= x.(d_ttl)) rep.(rep_rrsets) /\
  (rep.(rep_rrsets) = [] -> rep.(ttl) = NORR_TTL) /\ (rep.(rep_rrsets) <> [] -> rep.(ttl) <= cfg.(MAX_TTL)) /\
  0 <= rep.(prefetch_ttl) <= rep.(ttl) /\ rep.(serve_expired_ttl) = rep.(ttl) + cfg.(SERVE_EXPIRED_TTL) /\ rep.(ttl) <= rep.(serve_expired_ttl).
Proof.
  intros B O E. destruct (parse_reply_run b d cfg heap le raninit addr_ m B (os_small _ O)) as (r & w2 & p & E2 & _ & _ & H). rewrite E in E2. injection E2 as <- <-.
  destruct H as (w0 & ks & _ & [_ -> (L & R & S & _ & HF) _ _ _]). cbn [rep_rrsets ttl prefetch_ttl serve_expired_ttl reply_with].
  assert (Forall (fun k => exists x, k.(entry_data) = Some x /\ ttls_ok cfg k x) ks) as HK.
  { apply Forall_forall. intros k (i & Hi)%list_elem_of_lookup. destruct (Forall2_lookup_r _ _ _ _ _ HF Hi) as (a & _ & Ha). eapply key_ttls; [by apply rewound_ok|done..]. }
  set (m0 := match ks with [] => NORR_TTL | _ => cfg.(MAX_TTL) end). destruct (min_ttl_bounds (map rrset_ttl ks) m0) as [M1 M2].
  pose proof (os_min _ O). assert (0 <= m0 <= Z.max cfg.(MAX_TTL) NORR_TTL) as Hm0 by (unfold m0, NORR_TTL; destruct ks; lia).
  assert (0 <= reply_ttl cfg ks) as Hpos.
  { apply min_ttl_below; [fold m0; lia|]. apply Forall_map. eapply Forall_impl; [exact HK|]. intros k (x & Ex & [Hx _] & _). unfold rrset_ttl. by rewrite Ex. }
  change (min_ttl m0 (map rrset_ttl ks)) with (reply_ttl cfg ks) in *. pose proof (os_expired _ O). split; [|split; [|split; [|split; [|split; [done|lia]]]]].
  - apply Forall_map. rewrite Forall_forall in HK. rewrite Forall_map, Forall_forall in M2. apply Forall_forall. intros k Hk. destruct (HK k Hk) as (x & Ex & Hx).
    exists k, x. do 3 (split; [done|]). specialize (M2 k Hk). cbn in M2. unfold rrset_ttl in M2. by rewrite Ex in M2.
  - intros Hn%map_eq_nil. by subst ks.
  - intros Hn. destruct ks; [done|exact M1].
  - unfold PREFETCH_TTL_CALC. rewrite Z.quot_div_nonneg by lia. pose proof (Z.div_pos (reply_ttl cfg ks) 10 ltac:(lia) ltac:(lia)).
    pose proof (Z.div_le_upper_bound (reply_ttl cfg ks) 10 (reply_ttl cfg ks) ltac:(lia) ltac:(lia)). lia.
Qed.

(** ** A packet and its reply *)

Definition no_heap : Z -> list Z := fun _ => [].
Definition made_reply (l : list Z) : outcome (option (query_info * reply_info) * world) :=
  parse_reply_in_temp_region default_settings no_heap true 1 0 (fresh_world (packet l) []).
Definition reply_parts (l : list Z) : query_info * reply_info * world :=
  match made_reply l with
  | Ok (Some (q, rep), w) => (q, rep, w)
  | _ => (mk_qi None 0 0 0 None, reply_with default_settings msg_zero [], fresh_world (packet l) [])
  end.

(** An authoritative answer: a is an alias of b.a, whose address is signed. *)
Definition alias_packet : list Z :=
  [18; 52; 133; 128; 0; 1; 0; 3; 0; 1; 0; 0] ++ question [1; 97; 0] 1 ++ record [192; 12] 5 [1; 98; 192; 12] ++ record [192; 31] 1 [1; 2; 3; 4] ++ record [192; 31] 46 (signature 1) ++
  record [192; 12] 15 [0; 5; 192; 31].

Lemma alias_ok : buf_ok (packet alias_packet) alias_packet.
Proof. apply packet_ok; by vm_compute. Qed.

Lemma default_small : small_settings default_settings.
Proof. repeat constructor; unfold in_s; cbn; lia. Qed.

Lemma default_ordered : ordered_settings default_settings.
Proof. split; [exact default_small|cbn; lia..|done]. Qed.

Lemma alias_replied :
  parse_reply_in_temp_region default_settings no_heap true 1 0 (fresh_world (packet alias_packet) [])
  = Ok (Some ((reply_parts alias_packet).1.1, (reply_parts alias_packet).1.2), (reply_parts alias_packet).2).
Proof. by vm_compute. Qed.

(** The reply that is meant: three RRsets, the name in the rdata written out. *)
Example alias_reply :
  map (fun o => match o with
                | Some k => match k.(entry_data) with
                            | Some x => (k.(rk).(rk_dname), k.(rk).(rk_type), x.(d_count), x.(d_rrsig_count), x.(d_trust), x.(d_rdata))
                            | None => ([], [], 0, 0, rrset_trust_none, []) end
                | None => ([], [], 0, 0, rrset_trust_none, []) end) (reply_parts alias_packet).1.2.(rep_rrsets) =
  [([1; 97; 0], [0; 5], 1, 0, rrset_trust_ans_AA, [0; 5; 1; 98; 1; 97; 0]);
   ([1; 98; 1; 97; 0], [0; 1], 1, 1, rrset_trust_ans_noAA, [0; 4; 1; 2; 3; 4; 0; 20] ++ signature 1);
   ([1; 97; 0], [0; 15], 1, 0, rrset_trust_auth_AA, [0; 7; 0; 5; 1; 98; 1; 97; 0])].
Proof. by vm_compute. Qed.

Lemma parse_reply_total_witness :
  exists r w' p, parse_reply_in_temp_region default_settings no_heap true 1 0 (fresh_world (packet alias_packet) [true; true; false]) = Ok (r, w') /\
    w'.(pkt) = set_pos (packet alias_packet) p /\ 0 <= p <= (packet alias_packet).(_limit) /\
    (r = None -> mallocs_ok [true; true; false] -> forall w0, parses_to (packet alias_packet) true 1 0 [true; true; false] w0 -> oversized w0).
Proof. exact (parse_reply_total (packet alias_packet) alias_packet default_settings no_heap true 1 0 [true; true; false] alias_ok default_small). Defined.

Lemma parse_reply_written_out_witness :
  exists w0 ks, parses_to (packet alias_packet) true 1 0 [] w0 /\
    written_out (packet alias_packet) alias_packet default_settings true 1 w0 (reply_parts alias_packet).1.1 (reply_parts alias_packet).1.2 ks.
Proof.
  exact (parse_reply_written_out (packet alias_packet) alias_packet default_settings no_heap true 1 0 [] (reply_parts alias_packet).1.1 (reply_parts alias_packet).1.2
    (reply_parts alias_packet).2 alias_ok default_small alias_replied).
Defined.

Lemma parse_reply_ttls_witness :
  Forall (fun o => exists k x, o = Some k /\ k.(entry_data) = Some x /\ ttls_ok default_settings k x /\ (reply_parts alias_packet).1.2.(ttl) <= x.(d_ttl)) (reply_parts alias_packet).1.2.(rep_rrsets) /\
  ((reply_parts alias_packet).1.2.(rep_rrsets) = [] -> (reply_parts alias_packet).1.2.(ttl) = NORR_TTL) /\
  ((reply_parts alias_packet).1.2.(rep_rrsets) <> [] -> (reply_parts alias_packet).1.2.(ttl) <= default_settings.(MAX_TTL)) /\
  0 <= (reply_parts alias_packet).1.2.(prefetch_ttl) <= (reply_parts alias_packet).1.2.(ttl) /\
  (reply_parts alias_packet).1.2.(serve_expired_ttl) = (reply_parts alias_packet).1.2.(ttl) + default_settings.(SERVE_EXPIRED_TTL) /\
  (reply_parts alias_packet).1.2.(ttl) <= (reply_parts alias_packet).1.2.(serve_expired_ttl).
Proof.
  exact (parse_reply_ttls (packet alias_packet) alias_packet default_settings no_heap true 1 0 [] (reply_parts alias_packet).1.1 (reply_parts alias_packet).1.2
    (reply_parts alias_packet).2 alias_ok default_ordered alias_replied).
Defined.

(** *** A length that does not fit *)

Definition long_label (n : nat) : list Z := Z.of_nat n :: replicate n 97.
Definition long_name : list Z := long_label 63 ++ long_label 63 ++ long_label 63 ++ long_label 61 ++ [0].
(** The question is for a name of 255 bytes; the SOA record has it twice, and fills the packet. *)
Definition long_packet : list Z := header 1 1 0 0 ++ question long_name 6 ++ record [192; 12] 6 ([192; 12; 192; 12] ++ replicate (Z.to_nat 65248) 0).

Definition only_data (l : list Z) : option packed_rrset_data :=
  match (reply_parts l).1.2.(rep_rrsets) with [Some k] => k.(entry_data) | _ => None end.

(** Written out, the rdata has 65758 bytes; the length in front of it says 222. *)
Lemma rdata_length_wraps : zlen long_packet = 65535 /\ (fun x => (x.(d_rr_len), ztake 2 x.(d_rdata))) <$> only_data long_packet = Some ([65760], [0; 222]).
Proof. by vm_compute. Qed.

(** ** Replies: where aliases lead

    [get_cname_target] on the RRsets of a reply. *)

Lemma dname_valid_wire ls rest maxlen : name_ok ls -> zlen (wire ls) <= maxlen -> dname_valid (wire ls ++ rest) maxlen = Ok (zlen (wire ls)).
Proof.
  intros [Hls H255] Hm. pose proof (zlen_wire_pos ls). pose proof (wire_labels_bound ls Hls) as Hw. unfold dname_valid. rewrite eqb_false by lia.
  destruct (wire ls ++ rest) as [|ll dd] eqn:E. { apply app_eq_nil in E as [E _]. rewrite E in H. by change (zlen []) with 0 in H. }
  cbn [next mbind outcome_bind]. rewrite (dname_valid_loop_complete ls 256 dd ll 0 maxlen rest) by (done || lia). done.
Qed.

Definition alias_type (t : Z) : Prop := t = LDNS_RR_TYPE_CNAME \/ t = LDNS_RR_TYPE_DNAME.

(** The rdata of an alias: nothing, or a name, after which there can be more. *)
Lemma alias_rdata b d t ttl out : buf_ok b d -> alias_type t -> rdata_of b d t ttl out -> out = [] \/ exists ls rest, name_ok ls /\ out = wire ls ++ rest.
Proof.
  intros B Ht (H0 & H1 & HR). assert (fields t = [LDNS_RDF_TYPE_DNAME] /\ dnames t = 1) as [Ef Ed] by (by destruct Ht as [-> | ->]). rewrite Ef, Ed in HR.
  inversion HR as [fs count pos len [Hl|Hl]|fs count pos len ls e rest Hl _ N|]; subst; try done.
  - left. by rewrite Hl.
  - right. eexists ls, _. split; [|reflexivity]. by destruct (name_at_range b d B _ _ _ N) as (_ & _ & _ & ?).
Qed.

Lemma rr_bytes_inj out ls : rr_bytes out = rr_bytes (wire ls) -> out = wire ls.
Proof. unfold rr_bytes. by intros [_ ?]%app_inj_1. Qed.

Lemma read_rr_length out rest : sldns_read_uint16 (rr_bytes out ++ rest) = Ok (u16 (zlen out)).
Proof. unfold rr_bytes. rewrite <- app_assoc, read_write_uint16; [done|]. apply wrap_range. lia. Qed.

(** What [get_cname_target] gives for an RRset with the RRs [l], from a key of type [t]. *)
Definition cname_target (t : Z) (x : packed_rrset_data) (l : list (list Z)) (r : option (list Z * Z)) : Prop :=
  match r with
  | Some (p, n) => alias_type t /\ 0 < x.(d_count) /\ exists ls, name_ok ls /\ l !! 0%nat = Some (rr_bytes (wire ls)) /\ p = wire ls ++ concat (drop 1 l) /\ n = zlen (wire ls)
  | None => forall ls, alias_type t -> 0 < x.(d_count) -> name_ok ls -> l !! 0%nat <> Some (rr_bytes (wire ls))
  end.

Lemma cname_target_ok b d cfg w0 L R S a k : buf_ok b d -> key_copied b d cfg w0 L R S a k ->
  (exists s, w0.(rrsets) !! a = Some s /\ in_u 16 s.(s_type)) ->
  exists t x l r, ntohs k.(rk).(rk_type) = Ok t /\ k.(entry_data) = Some x /\ packed_ok x l /\ get_cname_target k = Ok r /\ cname_target t x l r.
Proof.
  intros B (s & ls & e & l1 & l2 & Hs & N & LC & _ & ->) (s' & Hs' & Ht). rewrite Hs in Hs'. injection Hs' as <-.
  pose proof (data_packed b d B cfg _ _ _ _ _ _ (trust_of (is_AA w0.(msg)) w0.(rrsets) L a s.(s_section)) LC) as X. set (x := with_trust _ _) in *.
  assert (ntohs (sldns_write_uint16 s.(s_type)) = Ok s.(s_type)) as Et.
  { pose proof (read_write_uint16 s.(s_type) [] Ht) as E. by rewrite app_nil_r in E. }
  exists s.(s_type), x, (bytes_of (l1 ++ l2)). unfold get_cname_target. cbn [rk rk_type entry_data nonnull]. rewrite Et. cbn [mbind outcome_bind].
  destruct (negb (s.(s_type) =? LDNS_RR_TYPE_CNAME) && negb (s.(s_type) =? LDNS_RR_TYPE_DNAME)) eqn:Ea.
  { exists None. do 4 (split; [done|]). intros ls' [E'|E'] _; rewrite E' in Ea; by rewrite Z.eqb_refl, ?andb_false_r in Ea. }
  assert (alias_type s.(s_type)) as Hal by (unfold alias_type; apply andb_false_iff in Ea as [Ea|Ea]; apply negb_false_iff, Z.eqb_eq in Ea; auto). clear Ea.
  destruct LC as [_ _ _ F1 _]. destruct F1 as [|y r xs l1 (rp & _ & _ & HR & _) _].
  { change x.(d_count) with 0. exists None. do 4 (split; [done|]). intros ls' _ Hc. by change x.(d_count) with 0 in Hc. }
  assert (x.(d_count) = zlen (r :: l1)) as Ec by done. pose proof (zlen_nonneg l1). rewrite zlen_cons in Ec. rewrite ltb_false by lia.
  pose proof (packed_len x _ X [] (rr_bytes r.2) (bytes_of (l1 ++ l2)) eq_refl) as En. change (zlen []) with 0 in En. rewrite En, zlen_rr_block. cbn [mbind outcome_bind].
  assert (forall r0, (forall ls', name_ok ls' -> r.2 <> wire ls') -> Ok None = r0 -> exists r1, Ok s.(s_type) = Ok s.(s_type) /\ Some x = Some x /\
    packed_ok x (bytes_of ((r :: l1) ++ l2)) /\ r0 = Ok r1 /\ cname_target s.(s_type) x (bytes_of ((r :: l1) ++ l2)) r1) as Hnone.
  { intros r0 Hno <-. exists None. do 4 (split; [done|]). intros ls' _ _ Hls' E'.
    change (Some (rr_bytes r.2) = Some (rr_bytes (wire ls'))) in E'. apply (inj Some) in E'. by apply (Hno ls' Hls'), rr_bytes_inj. }
  destruct (alias_rdata b d _ _ _ B Hal HR) as [E0|(ls' & rest & Hls' & Eo)].
  { rewrite E0. apply Hnone; [|done]. intros ls' _ E'. pose proof (zlen_wire_pos ls') as Hp. rewrite <- E', E0 in Hp. by change (zlen []) with 0 in Hp. }
  pose proof (zlen_wire_pos ls'). pose proof (zlen_nonneg rest). assert (zlen r.2 = zlen (wire ls') + zlen rest) as Ez by (by rewrite Eo, zlen_app).
  rewrite ltb_false by lia. pose proof (packed_ptr x _ X [] (rr_bytes r.2) (bytes_of (l1 ++ l2)) eq_refl) as Ep. change (zlen []) with 0 in Ep. rewrite Ep. cbn [mbind outcome_bind].
  rewrite read_rr_length. cbn [mbind outcome_bind]. pose proof (rr_bound b d B _ _ _ HR) as Hb. rewrite (wrap_small 64) by (unfold in_u; lia).
  replace (2 + zlen r.2 - 2) with (zlen r.2) by lia.
  destruct (Z.eqb_spec (u16 (zlen r.2)) (zlen r.2)) as [E16|E16]; cbn [negb].
  2:{ apply Hnone; [|done]. intros ls2 [_ H255] E2. apply E16. rewrite E2. pose proof (zlen_wire_pos ls2). apply wrap_small. unfold in_u. lia. }
  rewrite E16. unfold rr_bytes. rewrite <- app_assoc. pose proof (advance_app (sldns_write_uint16 (u16 (zlen r.2))) (r.2 ++ concat (bytes_of (l1 ++ l2)))) as Ead.
  change (zlen (sldns_write_uint16 _)) with 2 in Ead. rewrite Ead. cbn [mbind outcome_bind]. 
  assert (dname_valid (r.2 ++ concat (bytes_of (l1 ++ l2))) (zlen r.2) = Ok (zlen (wire ls'))) as ->.
  { rewrite Ez, Eo, <- app_assoc. apply dname_valid_wire; [done|lia]. }
  cbn [mbind outcome_bind].
  destruct (Z.eqb_spec (zlen (wire ls')) (zlen r.2)) as [E1|E1]; cbn [negb].
  - assert (rest = []) as -> by (apply zlen_0_inv; lia). rewrite app_nil_r in Eo. exists (Some (r.2 ++ concat (bytes_of (l1 ++ l2)), zlen r.2)). do 4 (split; [done|]).
    split; [done|]. split; [lia|]. exists ls'. rewrite <- Eo. done.
  - apply Hnone; [|done]. intros ls2 [Hls2 _] E2. rewrite Eo in E2. destruct Hls' as [Hls' _]. rewrite <- (app_nil_r (wire ls2)) in E2.
    apply wire_app_inj in E2 as [_ ->]; [|done..]. apply E1. rewrite Eo, app_nil_r. done.
Qed.

(** C11. In every reply, [get_cname_target] ends without a fault on every RRset, and gives a
    target exactly for a CNAME or DNAME whose first RR is a name and nothing more; the
    target is then that name, written out in the block of the RRset, and its length. *)
Theorem reply_cname_targets b d cfg heap le raninit addr_ m q rep w' : buf_ok b d -> small_settings cfg ->
  parse_reply_in_temp_region cfg heap le raninit addr_ (fresh_world b m) = Ok (Some (q, rep), w') ->
  Forall (fun o => exists k t x l r, o = Some k /\ ntohs k.(rk).(rk_type) = Ok t /\ k.(entry_data) = Some x /\ packed_ok x l /\
    get_cname_target k = Ok r /\ cname_target t x l r) rep.(rep_rrsets).
Proof.
  intros B Hset E. destruct (parse_reply_run b d cfg heap le raninit addr_ m B Hset) as (r & w2 & p & E2 & _ & _ & H). rewrite E in E2. injection E2 as <- <-.
  destruct H as (w0 & ks & _ & [_ -> (L & R & S & [[q0 Hb] _ _ _ _ _] & HF) _ _ _]). cbn [rep_rrsets reply_with]. apply Forall_map, Forall_forall.
  intros k (i & Hi)%list_elem_of_lookup. destruct (Forall2_lookup_r _ _ _ _ _ HF Hi) as (a & _ & Ha).
  destruct (cname_target_ok (rewound b) d cfg w0 L R S a k) as (t & x & l & r & H); [by apply rewound_ok|done| |by exists k, t, x, l, r].
  destruct Ha as (s & ls & e & l1 & l2 & Hs & _). exists s. split; [done|]. destruct (b_keys _ _ _ _ _ _ _ _ _ Hb a s Hs) as (_ & _ & _ & _ & _ & [Ht _] & _). exact Ht.
Qed.

Lemma reply_cname_targets_witness :
  Forall (fun o => exists k t x l r, o = Some k /\ ntohs k.(rk).(rk_type) = Ok t /\ k.(entry_data) = Some x /\ packed_ok x l /\
    get_cname_target k = Ok r /\ cname_target t x l r) (reply_parts alias_packet).1.2.(rep_rrsets).
Proof.
  exact (reply_cname_targets (packet alias_packet) alias_packet default_settings no_heap true 1 0 [] (reply_parts alias_packet).1.1 (reply_parts alias_packet).1.2
    (reply_parts alias_packet).2 alias_ok default_small alias_replied).
Defined.

(** The alias of the packet leads to b.a. *)
Example alias_target :
  match (reply_parts alias_packet).1.2.(rep_rrsets) with Some k :: _ => get_cname_target k | _ => Fault Undefined end = Ok (Some ([1; 98; 1; 97; 0], 5)).
Proof. by vm_compute. Qed.
