(* ===== verification/Msgencode.v ===== *)
(** * Encoding replies (util/data/msgencode.c)

    [reply_info_encode] writes a reply to a packet, with the domain names compressed; a
    tree of the names that are in the packet, whose nodes are in a region, finds what a
    name can point to.  [cfg] are the settings of [PackedRrset]; [le] and the like are
    not needed: types and the id are kept as the two bytes that they are in memory. *)

From S2P Require Import Prelude Sbuffer Dname DnameCompare DnamePkt RrDef Msgparse PackedRrset Msgreply.

Definition RETVAL_OUTMEM : Z := -2.
Definition RETVAL_TRUNC : Z := -4.
Definition RETVAL_OK : Z := 0.

Definition PTR_MAX_OFFSET : Z := 16383.
Definition PTR_CREATE (offset : Z) : Z := u16 (Z.lor 49152 offset).

(** The pointer [dname] is the bytes from it on. *)
Record compress_tree_node := mk_node {
  left : ptr;
  right : ptr;
  parent : ptr;
  dname : list Z;
  labs : Z;
  offset : Z;
}.

Definition with_right x (n : compress_tree_node) := mk_node n.(left) x n.(parent) n.(dname) n.(labs) n.(offset).
Definition with_left x (n : compress_tree_node) := mk_node x n.(right) n.(parent) n.(dname) n.(labs) n.(offset).
Definition with_parent x (n : compress_tree_node) := mk_node n.(left) n.(right) x n.(dname) n.(labs) n.(offset).

(** What [insertpt] points to: the root, or a field of a node. *)
Inductive place := AtRoot | AtLeft (a : addr) | AtRight (a : addr).

(** ** The state: the packet, the tree and the answers of the region *)

Record encoder := mk_encoder {
  e_pkt : sldns_buffer;
  e_tree : ptr;
  e_nodes : gmap addr compress_tree_node;
  e_memory : mem;
}.

Abbreviation E := (ST encoder).

Definition e_fault {A} : E A := fun _ => Fault Undefined.
Definition e_out_of_fuel {A} : E A := fun _ => OutOfFuel.
Definition e_assert (b : bool) : E unit := if b then mret tt else fun _ => Fault Assertion.
Definition lift {A} (o : outcome A) : E A := fun w =>
  match o with Ok a => Ok (a, w) | Fault f => Fault f | OutOfFuel => OutOfFuel end.
Definition to_pkt {A} (f : P A) : E A := fun w =>
  match f w.(e_pkt) with Ok (a, b) => Ok (a, mk_encoder b w.(e_tree) w.(e_nodes) w.(e_memory)) | Fault f => Fault f | OutOfFuel => OutOfFuel end.
Definition get_tree : E ptr := fun w => Ok (w.(e_tree), w).
Definition set_tree (p : ptr) : E unit := fun w => Ok (tt, mk_encoder w.(e_pkt) p w.(e_nodes) w.(e_memory)).
Definition load_node (a : addr) : E compress_tree_node := fun w =>
  match w.(e_nodes) !! a with Some n => Ok (n, w) | None => Fault Undefined end.
Definition modify_node (a : addr) (f : compress_tree_node -> compress_tree_node) : E unit := fun w =>
  match w.(e_nodes) !! a with Some n => Ok (tt, mk_encoder w.(e_pkt) w.(e_tree) (<[a := f n]> w.(e_nodes)) w.(e_memory)) | None => Fault Undefined end.
(** The next answer of [regional_alloc]. *)
Definition e_alloc : E bool := fun w => let '(ok, m) := malloc w.(e_memory) in Ok (ok, mk_encoder w.(e_pkt) w.(e_tree) w.(e_nodes) m).
Definition add_node (n : compress_tree_node) : E addr := fun w =>
  let a := fresh (dom w.(e_nodes)) in Ok (a, mk_encoder w.(e_pkt) w.(e_tree) (<[a := n]> w.(e_nodes)) w.(e_memory)).
(** Enough fuel for a walk through the nodes. *)
Definition with_nodes_fuel {A} (f : nat -> E A) : E A := fun w => f (S (size w.(e_nodes))) w.

(** Writes to the packet at its position, which move it, and at an offset. *)
Definition p_write (data : list Z) (count : Z) : P unit := fun b => b' ← sldns_buffer_write b data count; Ok (tt, b').
Definition p_write_u8 (x : Z) : P unit := fun b => b' ← sldns_buffer_write_u8 b x; Ok (tt, b').
Definition p_write_u16 (x : Z) : P unit := fun b => b' ← sldns_buffer_write_u16 b x; Ok (tt, b').
Definition p_write_u32 (x : Z) : P unit := fun b => b' ← sldns_buffer_write_u32 b x; Ok (tt, b').
Definition p_write_u16_at (at_ x : Z) : P unit := fun b => b' ← sldns_buffer_write_u16_at b at_ x; Ok (tt, b').
Definition p_dname_write (dname : list Z) : P Z := fun b => dname_buffer_write b dname.

Abbreviation e_position := (to_pkt p_position).
Abbreviation e_remaining := (to_pkt p_remaining).
Abbreviation e_write x n := (to_pkt (p_write x n)).
Abbreviation e_write_u8 x := (to_pkt (p_write_u8 x)).
Abbreviation e_write_u16 x := (to_pkt (p_write_u16 x)).
Abbreviation e_write_u32 x := (to_pkt (p_write_u32 x)).
Abbreviation e_write_u16_at o x := (to_pkt (p_write_u16_at o x)).

(** ** The tree *)

(** The loop; the result is the returned value, the match, the labels that match and the
    place to insert, which is not set when the match is exact. *)
Fixpoint search_loop (fuel : nat) (dname_ : list Z) (labs_ : Z) (p : ptr) (prev : place) (closen : Z) (close : ptr) : E (bool * ptr * Z * option place) :=
  match p with
  | None => mret (false, close, closen, Some prev)
  | Some a =>
      match fuel with
      | O => e_out_of_fuel
      | S fuel' =>
          node ← load_node a;
          '(c, n) ← lift (dname_lab_cmp dname_ labs_ node.(dname) node.(labs));
          if c =? 0 then mret (true, Some a, n, None) else
          if c <? 0 then search_loop fuel' dname_ labs_ node.(left) (AtLeft a) closen close
          else search_loop fuel' dname_ labs_ node.(right) (AtRight a) n (Some a)
      end
  end.

Definition compress_tree_search (dname_ : list Z) (labs_ : Z) : E (bool * ptr * Z * option place) :=
  tree ← get_tree;
  with_nodes_fuel (fun fuel => search_loop fuel dname_ labs_ tree AtRoot 0 None).

(** [while(p && p->labs > m) p = p->parent] *)
Fixpoint ancestor_loop (fuel : nat) (p : ptr) (m : Z) : E ptr :=
  match p with
  | None => mret None
  | Some a =>
      match fuel with
      | O => e_out_of_fuel
      | S fuel' => node ← load_node a; if m <? node.(labs) then ancestor_loop fuel' node.(parent) m else mret p
      end
  end.

(** The node, and what is in [*insertpt], NULL before. *)
Definition compress_tree_lookup (dname_ : list Z) (labs_ : Z) : E (ptr * option place) :=
  if labs_ <=? 1 then mret (None, None) else
  '(found, p, m, insertpt) ← compress_tree_search dname_ labs_;
  if found : bool then mret (p, insertpt) else
  if 1 <? m then q ← with_nodes_fuel (fun fuel => ancestor_loop fuel p m); mret (q, insertpt) else
  mret (None, insertpt).

Definition compress_tree_newnode (dname_ : list Z) (labs_ offset_ : Z) : E ptr :=
  ok ← e_alloc;
  if negb ok then mret None else
  a ← add_node (mk_node None None None dname_ labs_ offset_); mret (Some a).

(** The loop that builds the vine: the value it returns, if it does, or [prevnode]. *)
Fixpoint store_loop (uplabs : nat) (dname_ : list Z) (labs_ offset_ : Z) (prevnode : ptr) : E (Z + ptr) :=
  match uplabs with
  | O => mret (inr prevnode)
  | S uplabs' =>
      if PTR_MAX_OFFSET <? offset_ then mret (inl 1) else
      newnode ← compress_tree_newnode dname_ labs_ offset_;
      match newnode with
      | None => mret (inl 0)
      | Some a =>
          (match prevnode with
           | Some q => modify_node a (with_right (Some q));; modify_node q (with_parent (Some a))
           | None => mret tt
           end);;
          '(lablen, dname_) ← lift (next dname_);
          dname_ ← lift (advance lablen dname_);
          store_loop uplabs' dname_ (labs_ - 1) (u64 (offset_ + (lablen + 1))) (Some a)
      end
  end.

(** [*insertpt = p] *)
Definition put (insertpt : option place) (p : ptr) : E unit :=
  match insertpt with
  | None => e_fault
  | Some AtRoot => set_tree p
  | Some (AtLeft a) => modify_node a (with_left p)
  | Some (AtRight a) => modify_node a (with_right p)
  end.

Definition compress_tree_store (dname_ : list Z) (labs_ offset_ : Z) (closest : ptr) (insertpt : option place) : E Z :=
  uplabs ← (match closest with Some a => n ← load_node a; mret (labs_ - n.(labs)) | None => mret (labs_ - 1) end : E Z);
  e_assert (0 <=? uplabs);;
  r ← store_loop (Z.to_nat uplabs) dname_ labs_ offset_ None;
  match r with
  | inl v => mret v
  | inr None => mret 1
  | inr (Some a) => put insertpt (Some a);; modify_node a (with_parent closest);; mret 1
  end.

(** ** Names *)

Fixpoint copy_labels (labcopy : nat) (dname_ : list Z) : E bool :=
  match labcopy with
  | O => mret true
  | S labcopy' =>
      '(lablen, dname_) ← lift (next dname_);
      rem ← e_remaining;
      if rem <? lablen + 1 then mret false else
      e_write_u8 lablen;;
      e_write dname_ lablen;;
      dname_ ← lift (advance lablen dname_);
      copy_labels labcopy' dname_
  end.

(** The returned value. A negative [labcopy] would never become 0. *)
Definition write_compressed_dname (dname_ : list Z) (labs_ : Z) (p : addr) : E bool :=
  node ← load_node p;
  let labcopy := labs_ - node.(labs) in
  if labs_ =? 1 then
    rem ← e_remaining;
    if rem <? 1 then mret false else e_write_u8 0;; mret true
  else
  e_assert (0 <=? labcopy);;
  ok ← copy_labels (Z.to_nat labcopy) dname_;
  if negb ok then mret false else
  rem ← e_remaining;
  if rem <? 2 then mret false else
  e_write_u16 (PTR_CREATE node.(offset));; mret true.

(** [owner_ptr] is the value before [htons]. The result: the returned value, and [*owner_ptr]. *)
Definition compress_owner (key : ub_packed_rrset_key) (owner_pos owner_ptr owner_labs : Z) : E (Z * Z) :=
  let name := key.(rk).(rk_dname) in
  if owner_ptr =? 0 then
    '(p, insertpt) ← compress_tree_lookup name owner_labs;
    match p with
    | Some a =>
        node ← load_node a;
        let owner_ptr := if node.(labs) =? owner_labs then PTR_CREATE node.(offset) else owner_ptr in
        ok ← write_compressed_dname name owner_labs a;
        if negb ok then mret (RETVAL_TRUNC, owner_ptr) else
        rem ← e_remaining;
        if rem <? 4 + 4 + 2 then mret (RETVAL_TRUNC, owner_ptr) else
        stored ← compress_tree_store name owner_labs owner_pos p insertpt;
        mret (if stored =? 0 then RETVAL_OUTMEM else RETVAL_OK, owner_ptr)
    | None =>
        rem ← e_remaining;
        if rem <? u64 (key.(rk).(rk_dname_len) + 4 + 4 + 2) then mret (RETVAL_TRUNC, owner_ptr) else
        e_write name key.(rk).(rk_dname_len);;
        let owner_ptr := if owner_pos <=? PTR_MAX_OFFSET then PTR_CREATE owner_pos else owner_ptr in
        stored ← compress_tree_store name owner_labs owner_pos p insertpt;
        mret (if stored =? 0 then RETVAL_OUTMEM else RETVAL_OK, owner_ptr)
    end
  else if owner_labs =? 1 then
    rem ← e_remaining;
    if rem <? 1 + 4 + 4 + 2 then mret (RETVAL_TRUNC, owner_ptr) else
    e_write_u8 0;; mret (RETVAL_OK, owner_ptr)
  else
    rem ← e_remaining;
    if rem <? 2 + 4 + 4 + 2 then mret (RETVAL_TRUNC, owner_ptr) else
    e_write (sldns_write_uint16 owner_ptr) 2;; mret (RETVAL_OK, owner_ptr).

Definition compress_any_dname (dname_ : list Z) (labs_ : Z) : E Z :=
  pos ← e_position;
  '(p, insertpt) ← compress_tree_lookup dname_ labs_;
  ok ← (match p with
        | Some a => write_compressed_dname dname_ labs_ a
        | None => r ← to_pkt (p_dname_write dname_); mret (negb (r =? 0))
        end : E bool);
  if negb ok then mret RETVAL_TRUNC else
  stored ← compress_tree_store dname_ labs_ pos p insertpt;
  mret (if stored =? 0 then RETVAL_OUTMEM else RETVAL_OK).

(** ** Rdata *)

Definition type_rdata_compressable (key : ub_packed_rrset_key) : outcome (option sldns_rr_descriptor) :=
  t ← ntohs key.(rk).(rk_type);
  Ok (match sldns_rr_descript t with
      | Some desc => match desc.(_compress) with LDNS_RR_COMPRESS => Some desc | _ => None end
      | None => None
      end).

(** The loop over the fields up to the last domain name: the returned value, if it returns,
    or [rdata] and [todolen] then. *)
Fixpoint compress_fields (rdfs : list sldns_rdf_type) (rdata : list Z) (todolen count : Z) : E (Z + list Z * Z) :=
  if negb ((0 <? todolen) && negb (count =? 0)) then mret (inr (rdata, todolen)) else
  match rdfs with
  | [] => e_fault
  | rdf :: rdfs' =>
      match rdf with
      | LDNS_RDF_TYPE_DNAME =>
          '(labs_, dname_len) ← lift (dname_count_size_labels rdata);
          r ← compress_any_dname rdata labs_;
          if negb (r =? RETVAL_OK) then mret (inl r) else
          rdata ← lift (advance dname_len rdata);
          compress_fields rdfs' rdata (u64 (todolen - dname_len)) (count - 1)
      | _ =>
          len ← lift (if decide (rdf = LDNS_RDF_TYPE_STR) then x ← deref rdata; Ok (x + 1) else get_rdf_size rdf);
          if len =? 0 then compress_fields rdfs' rdata todolen count else
          rem ← e_remaining;
          if rem <? len then mret (inl RETVAL_TRUNC) else
          e_write rdata len;;
          rdata ← lift (advance len rdata);
          compress_fields rdfs' rdata (u64 (todolen - len)) count
      end
  end.

Definition compress_rdata (rdata : list Z) (todolen : Z) (desc : sldns_rr_descriptor) : E Z :=
  pos ← e_position;
  to_pkt (p_skip 2);;
  rdata ← lift (advance 2 rdata);
  r ← compress_fields desc.(_wireformat) rdata (u64 (todolen - 2)) desc.(_dname_count);
  match r with
  | inl r => mret r
  | inr (rdata, todolen) =>
      ok ← (if 0 <? todolen then
              rem ← e_remaining;
              if rem <? todolen then mret false else e_write rdata todolen;; mret true
            else mret true : E bool);
      if negb ok then mret RETVAL_TRUNC else
      here ← e_position;
      e_write_u16_at pos (u16 (here - pos - 2));;
      mret RETVAL_OK
  end.

(** ** RRsets *)

Definition PACKED_RRSET_FIXEDTTL : Z := 2147483648.
Definition LDNS_RR_TYPE_NSEC3PARAMS : Z := 51.

Definition rrset_belongs_in_reply (s : sldns_pkt_section) (rrtype qtype : Z) (dnssec : bool) : bool :=
  if dnssec then true else
  if bool_decide (s = LDNS_SECTION_ANSWER) && ((qtype =? LDNS_RR_TYPE_ANY) || (qtype =? rrtype)) then true else
  negb (existsb (Z.eqb rrtype) [LDNS_RR_TYPE_SIG; LDNS_RR_TYPE_KEY; LDNS_RR_TYPE_NXT; LDNS_RR_TYPE_DS; LDNS_RR_TYPE_RRSIG;
                                LDNS_RR_TYPE_NSEC; LDNS_RR_TYPE_DNSKEY; LDNS_RR_TYPE_NSEC3; LDNS_RR_TYPE_NSEC3PARAMS]).

Section Encode.
Context (cfg : ttl_settings).

(** The TTL as it is written, in 32 bits. *)
Definition written_ttl (ttl_ adjust : Z) : outcome Z :=
  if ttl_ <? adjust then Ok (u32 (if cfg.(SERVE_EXPIRED) then cfg.(SERVE_EXPIRED_REPLY_TTL) else 0))
  else t ← sint 64 (ttl_ - adjust); Ok (u32 t).

(** One of the RRs; the result: the returned value, and [owner_ptr]. *)
Definition encode_rr (key : ub_packed_rrset_key) (data : packed_rrset_data) (c : option sldns_rr_descriptor) (owner_pos owner_labs adjust j owner_ptr : Z) : E (Z * Z) :=
  '(r, owner_ptr) ← compress_owner key owner_pos owner_ptr owner_labs;
  if negb (r =? RETVAL_OK) then mret (r, owner_ptr) else
  e_write key.(rk).(rk_type) 2;;
  e_write key.(rk).(rk_class) 2;;
  ttl_ ← lift (index data.(d_rr_ttl) j);
  t ← lift (written_ttl ttl_ adjust);
  e_write_u32 t;;
  rdata ← lift (rr_ptr data j);
  len ← lift (index data.(d_rr_len) j);
  match c with
  | Some desc => r ← compress_rdata rdata len desc; mret (r, owner_ptr)
  | None =>
      rem ← e_remaining;
      if rem <? len then mret (RETVAL_TRUNC, owner_ptr) else
      e_write rdata len;; mret (RETVAL_OK, owner_ptr)
  end.

Fixpoint rr_loop (n : nat) (key : ub_packed_rrset_key) (data : packed_rrset_data) (c : option sldns_rr_descriptor) (owner_pos owner_labs adjust rr_offset i owner_ptr : Z) : E (Z * Z) :=
  match n with
  | O => mret (RETVAL_OK, owner_ptr)
  | S n' =>
      let j := u64 (i + rr_offset) mod data.(d_count) in
      '(r, owner_ptr) ← encode_rr key data c owner_pos owner_labs adjust j owner_ptr;
      if negb (r =? RETVAL_OK) then mret (r, owner_ptr) else
      rr_loop n' key data c owner_pos owner_labs adjust rr_offset (i + 1) owner_ptr
  end.

Definition encode_sig (key : ub_packed_rrset_key) (data : packed_rrset_data) (owner_labs adjust i owner_ptr : Z) : E Z :=
  len ← lift (index data.(d_rr_len) i);
  r ← (if negb (owner_ptr =? 0) && negb (owner_labs =? 1) then
         rem ← e_remaining;
         if rem <? u64 (2 + 4 + 4 + len) then mret RETVAL_TRUNC else
         e_write (sldns_write_uint16 owner_ptr) 2;; mret RETVAL_OK
       else
         r ← compress_any_dname key.(rk).(rk_dname) owner_labs;
         if negb (r =? RETVAL_OK) then mret r else
         rem ← e_remaining;
         mret (if rem <? u64 (4 + 4 + len) then RETVAL_TRUNC else RETVAL_OK) : E Z);
  if negb (r =? RETVAL_OK) then mret r else
  e_write_u16 LDNS_RR_TYPE_RRSIG;;
  e_write key.(rk).(rk_class) 2;;
  ttl_ ← lift (index data.(d_rr_ttl) i);
  t ← lift (written_ttl ttl_ adjust);
  e_write_u32 t;;
  rdata ← lift (rr_ptr data i);
  e_write rdata len;;
  mret RETVAL_OK.

Fixpoint sig_loop (n : nat) (key : ub_packed_rrset_key) (data : packed_rrset_data) (owner_labs adjust i owner_ptr : Z) : E Z :=
  match n with
  | O => mret RETVAL_OK
  | S n' =>
      r ← encode_sig key data owner_labs adjust i owner_ptr;
      if negb (r =? RETVAL_OK) then mret r else sig_loop n' key data owner_labs adjust (i + 1) owner_ptr
  end.

(** The returned value, and [*num_rrs]. *)
Definition packed_rrset_encode (key : ub_packed_rrset_key) (num_rrs timenow : Z) (do_data do_sig : bool) (s : sldns_pkt_section) (qtype_ : Z) (dnssec : bool) (rr_offset : Z) : E (Z * Z) :=
  t ← lift (ntohs key.(rk).(rk_type));
  if negb (rrset_belongs_in_reply s t qtype_ dnssec) then mret (RETVAL_OK, num_rrs) else
  data ← lift (nonnull key.(entry_data));
  owner_labs ← lift (dname_count_labels key.(rk).(rk_dname));
  owner_pos ← e_position;
  let adjust := if negb (Z.land key.(rk).(rk_flags) PACKED_RRSET_FIXEDTTL =? 0) then 0
                else if cfg.(SERVE_ORIGINAL_TTL) then data.(d_ttl_add) else timenow in
  '(r, owner_ptr) ← (if do_data then
                       c ← lift (type_rdata_compressable key);
                       rr_loop (Z.to_nat data.(d_count)) key data c owner_pos owner_labs adjust rr_offset 0 0
                     else mret (RETVAL_OK, 0) : E (Z * Z));
  if negb (r =? RETVAL_OK) then mret (r, num_rrs) else
  r ← (if do_sig && dnssec then sig_loop (Z.to_nat (d_total data - data.(d_count))) key data owner_labs adjust data.(d_count) owner_ptr
       else mret RETVAL_OK : E Z);
  if negb (r =? RETVAL_OK) then mret (r, num_rrs) else
  let num_rrs := if do_data then u16 (num_rrs + data.(d_count)) else num_rrs in
  let num_rrs := if do_sig && dnssec then u16 (num_rrs + data.(d_rrsig_count)) else num_rrs in
  mret (RETVAL_OK, num_rrs).

(** ** Sections *)

(** One of the three loops, over [n] RRsets from [i] on. *)
Fixpoint section_loop (n : nat) (rrsets_ : list (option ub_packed_rrset_key)) (i num_rrs timenow : Z) (do_data do_sig : bool) (s : sldns_pkt_section) (qtype_ : Z) (dnssec : bool) (rr_offset : Z) : E (Z * Z) :=
  match n with
  | O => mret (RETVAL_OK, num_rrs)
  | S n' =>
      setstart ← e_position;
      key ← lift (nonnull (mjoin (rrsets_ !! Z.to_nat i)));
      '(r, num_rrs) ← packed_rrset_encode key num_rrs timenow do_data do_sig s qtype_ dnssec rr_offset;
      if negb (r =? RETVAL_OK) then to_pkt (p_set_position setstart);; mret (r, num_rrs) else
      section_loop n' rrsets_ (i + 1) num_rrs timenow do_data do_sig s qtype_ dnssec rr_offset
  end.

Definition insert_section (rrsets_ : list (option ub_packed_rrset_key)) (num_rrsets num_rrs rrsets_before timenow : Z) (s : sldns_pkt_section) (qtype_ : Z) (dnssec : bool) (rr_offset : Z) : E (Z * Z) :=
  if negb (bool_decide (s = LDNS_SECTION_ADDITIONAL)) then
    let dnssec := dnssec || (bool_decide (s = LDNS_SECTION_ANSWER) && (qtype_ =? LDNS_RR_TYPE_ANY)) in
    section_loop (Z.to_nat num_rrsets) rrsets_ rrsets_before num_rrs timenow true true s qtype_ dnssec rr_offset
  else
    '(r, num_rrs) ← section_loop (Z.to_nat num_rrsets) rrsets_ rrsets_before num_rrs timenow true false s qtype_ dnssec rr_offset;
    if negb (r =? RETVAL_OK) then mret (r, num_rrs) else
    if dnssec then section_loop (Z.to_nat num_rrsets) rrsets_ rrsets_before num_rrs timenow false true s qtype_ dnssec rr_offset
    else mret (RETVAL_OK, num_rrs).

(** ** The message *)

Definition FLAGS_GET_RCODE (f : Z) : Z := Z.land f 15.
Definition LDNS_RCODE_NXDOMAIN : Z := 3.
Definition LDNS_TC_MASK : Z := 2.

(** [*(wirebuf+2) |= LDNS_TC_MASK] *)
Definition LDNS_TC_SET : P unit := fun b =>
  _ ← sldns_buffer_begin b; d ← the_data b; x ← index d 2; d' ← store d 2 (Z.lor x LDNS_TC_MASK); Ok (tt, set_data b d').

Definition p_clear : P unit := fun b => b' ← sldns_buffer_clear b; Ok (tt, b').
Definition p_flip : P unit := fun b => b' ← sldns_buffer_flip b; Ok (tt, b').
Definition p_set_limit (limit : Z) : P unit := fun b => b' ← sldns_buffer_set_limit b limit; Ok (tt, b').

(** The name and its length that are written for the question. *)
Definition question_name (qinfo : query_info) : outcome (list Z * Z) :=
  match qinfo.(local_alias) with
  | Some rrset => Ok (rrset.(rk).(rk_dname), rrset.(rk).(rk_dname_len))
  | None => qname_ ← nonnull qinfo.(qname); Ok (qname_, qinfo.(qname_len))
  end.

(** [inplace]: the name that is written is at the position of the packet already. *)
Definition insert_query (qinfo : query_info) (inplace : bool) : E Z :=
  '(qname_, qname_len_) ← lift (question_name qinfo);
  rem ← e_remaining;
  if rem <? u64 (qinfo.(qname_len) + 2 * 2) then mret RETVAL_TRUNC else
  labs_ ← lift (dname_count_labels qname_);
  pos ← e_position;
  stored ← compress_tree_store qname_ labs_ pos None (Some AtRoot);
  if stored =? 0 then mret RETVAL_OUTMEM else
  (if inplace : bool then to_pkt (p_skip qname_len_) else e_write qname_ qname_len_);;
  e_write_u16 qinfo.(qtype);;
  e_write_u16 qinfo.(qclass);;
  mret RETVAL_OK.

(** Is there an RRset of one of the types among the [n] from [i] on? *)
Fixpoint has_type (n : nat) (rrsets_ : list (option ub_packed_rrset_key)) (i : Z) (types : list Z) : outcome bool :=
  match n with
  | O => Ok false
  | S n' =>
      key ← nonnull (mjoin (rrsets_ !! Z.to_nat i));
      t ← ntohs key.(rk).(rk_type);
      if existsb (Z.eqb t) types then Ok true else has_type n' rrsets_ (i + 1) types
  end.

Definition positive_answer (rep : reply_info) (qtype_ : Z) : outcome bool :=
  if negb (FLAGS_GET_RCODE rep.(flags) =? LDNS_RCODE_NOERROR) then Ok false else
  found ← has_type (Z.to_nat rep.(an_numrrsets)) rep.(rep_rrsets) 0 [qtype_];
  if negb found then Ok false else
  if qtype_ =? LDNS_RR_TYPE_NS then Ok false else
  wild ← has_type (Z.to_nat rep.(ns_numrrsets)) rep.(rep_rrsets) rep.(an_numrrsets) [LDNS_RR_TYPE_NSEC; LDNS_RR_TYPE_NSEC3];
  Ok (negb wild).

(** The loop of [negative_answer]: the value it returns, if it does, or [ns_seen]. *)
Fixpoint negative_loop (n : nat) (rrsets_ : list (option ub_packed_rrset_key)) (i : Z) (ns_seen : bool) : outcome bool :=
  match n with
  | O => Ok (negb ns_seen)
  | S n' =>
      key ← nonnull (mjoin (rrsets_ !! Z.to_nat i));
      t ← ntohs key.(rk).(rk_type);
      if t =? LDNS_RR_TYPE_SOA then Ok true else negative_loop n' rrsets_ (i + 1) (ns_seen || (t =? LDNS_RR_TYPE_NS))
  end.

Definition negative_answer (rep : reply_info) : outcome bool :=
  let rcode := FLAGS_GET_RCODE rep.(flags) in
  if rcode =? LDNS_RCODE_NXDOMAIN then Ok true else
  if (rcode =? LDNS_RCODE_NOERROR) && negb (rep.(an_numrrsets) =? 0) then Ok false else
  if negb (rcode =? LDNS_RCODE_NOERROR) && negb (rcode =? LDNS_RCODE_NXDOMAIN) then Ok false else
  negative_loop (Z.to_nat rep.(ns_numrrsets)) rep.(rep_rrsets) rep.(an_numrrsets) false.

Context (RRSET_ROUNDROBIN MINIMAL_RESPONSES : bool) (time_now : Z).

(** The end of the message: the count at [at_], the TC bit, and [sldns_buffer_flip]. *)
Definition finish (at_ count : Z) (tc : bool) : E bool :=
  e_write_u16_at at_ count;;
  (if tc then to_pkt LDNS_TC_SET else mret tt);;
  to_pkt p_flip;; mret true.

(** The additional section. *)
Definition insert_additional (qinfo : query_info) (rep : reply_info) (timenow : Z) (dnssec minimise : bool) (rr_offset : Z) : E bool :=
  skip ← lift (if minimise then negative_answer rep else Ok false);
  if skip : bool then to_pkt p_flip;; mret true else
  '(r, arcount) ← insert_section rep.(rep_rrsets) rep.(ar_numrrsets) 0 (u64 (rep.(an_numrrsets) + rep.(ns_numrrsets))) timenow LDNS_SECTION_ADDITIONAL qinfo.(qtype) dnssec rr_offset;
  if r =? RETVAL_TRUNC then finish 10 arcount false else
  if negb (r =? RETVAL_OK) then mret false else
  e_write_u16_at 10 arcount;;
  to_pkt p_flip;; mret true.

(** The authority section, and the additional section after it. *)
Definition insert_auth_add (qinfo : query_info) (rep : reply_info) (timenow : Z) (dnssec minimise : bool) (rr_offset : Z) : E bool :=
  skip ← lift (if minimise then positive_answer rep qinfo.(qtype) else Ok false);
  if skip : bool then to_pkt p_flip;; mret true else
  '(r, nscount) ← insert_section rep.(rep_rrsets) rep.(ns_numrrsets) 0 rep.(an_numrrsets) timenow LDNS_SECTION_AUTHORITY qinfo.(qtype) dnssec rr_offset;
  if r =? RETVAL_TRUNC then finish 8 nscount true else
  if negb (r =? RETVAL_OK) then mret false else
  e_write_u16_at 8 nscount;;
  insert_additional qinfo rep timenow dnssec minimise rr_offset.

(** The answer section, with the local alias in front, and the sections after it. *)
Definition insert_answers (qinfo : query_info) (rep : reply_info) (flags_ timenow : Z) (dnssec minimise : bool) (rr_offset : Z) : E bool :=
  '(r, ancount) ← (match qinfo.(local_alias) with
                   | Some rrset =>
                       if negb (Z.land flags_ BIT_AA =? 0)
                       then insert_section [Some rrset] 1 0 0 0 LDNS_SECTION_ANSWER qinfo.(qtype) dnssec rr_offset
                       else mret (RETVAL_OK, 0)
                   | None => mret (RETVAL_OK, 0)
                   end : E (Z * Z));
  if r =? RETVAL_TRUNC then finish 6 ancount true else
  if negb (r =? RETVAL_OK) then mret false else
  '(r, ancount) ← insert_section rep.(rep_rrsets) rep.(an_numrrsets) ancount 0 timenow LDNS_SECTION_ANSWER qinfo.(qtype) dnssec rr_offset;
  if r =? RETVAL_TRUNC then finish 6 ancount true else
  if negb (r =? RETVAL_OK) then mret false else
  e_write_u16_at 6 ancount;;
  insert_auth_add qinfo rep timenow dnssec minimise rr_offset.

(** [id] as it is in memory. *)
Definition reply_info_encode (qinfo : query_info) (inplace : bool) (rep : reply_info) (id_ : list Z) (flags_ timenow udpsize : Z) (dnssec minimise : bool) : E bool :=
  set_tree None;;
  to_pkt p_clear;;
  limit ← to_pkt (ask (fun b => Ok (sldns_buffer_limit b)));
  (if udpsize <? limit then to_pkt (p_set_limit udpsize) else mret tt);;
  rem ← e_remaining;
  if rem <? LDNS_HEADER_SIZE then mret false else
  e_write id_ 2;;
  e_write_u16 flags_;;
  e_write_u16 rep.(qdcount);;
  e_write [0; 0; 0; 0; 0; 0] 6;;
  r ← (if negb (rep.(qdcount) =? 0) then insert_query qinfo inplace else mret RETVAL_OK : E Z);
  if r =? RETVAL_TRUNC then finish 4 0 true else
  if negb (r =? RETVAL_OK) then mret false else
  i ← lift (ntohs id_);
  rr_offset ← lift (if RRSET_ROUNDROBIN then sint 64 (i + (if timenow =? 0 then time_now else timenow)) else Ok 0);
  insert_answers qinfo rep flags_ timenow dnssec minimise (u64 rr_offset).

(** ** EDNS *)

Definition LDNS_EDNS_PADDING : Z := 12.
Definition LDNS_EDNS_EDE : Z := 15.
Definition LDNS_EDE_OTHER : Z := 0.

Definition options_len (l : list edns_option) (rdatalen : Z) : Z :=
  fold_left (fun n opt => u64 (n + (4 + opt.(opt_len)))) l rdatalen.

Definition calc_edns_field_size (edns : option edns_data) : Z :=
  match edns with
  | Some edns =>
      if negb edns.(edns_present) then 0 else
      u16 (1 + 2 + 2 + 4 + 2 + options_len edns.(opt_list_out) (options_len edns.(opt_list_inplace_cb_out) 0))
  | None => 0
  end.

(** The options of one code. *)
Definition code_len (code : Z) (l : list edns_option) (rdatalen : Z) : Z :=
  fold_left (fun n opt => if opt.(opt_code) =? code then u64 (n + (4 + opt.(opt_len))) else n) l rdatalen.

Definition calc_edns_option_size (edns : option edns_data) (code : Z) : Z :=
  match edns with
  | Some edns =>
      if negb edns.(edns_present) then 0 else u16 (code_len code edns.(opt_list_out) (code_len code edns.(opt_list_inplace_cb_out) 0))
  | None => 0
  end.

(** The info code of an EDE option is 'other'. *)
Definition ede_other (opt : edns_option) : outcome bool :=
  if 2 <=? opt.(opt_len) then d ← nonnull opt.(opt_data); c ← sldns_read_uint16 d; Ok (c =? LDNS_EDE_OTHER) else Ok false.

(** One of the two loops. *)
Fixpoint ede_loop (l : list edns_option) (rdatalen txt_size : Z) : outcome (Z * Z) :=
  match l with
  | [] => Ok (rdatalen, txt_size)
  | opt :: l' =>
      if opt.(opt_code) =? LDNS_EDNS_EDE then
        let txt_size := if 2 <? opt.(opt_len) then u16 (txt_size + (opt.(opt_len) - 2)) else txt_size in
        other ← ede_other opt;
        ede_loop l' (u64 (rdatalen + (4 + opt.(opt_len)))) (if other : bool then u16 (txt_size + (4 + 2)) else txt_size)
      else ede_loop l' rdatalen txt_size
  end.

(** The returned value, and [*txt_size]. *)
Definition calc_ede_option_size (edns : option edns_data) : outcome (Z * Z) :=
  match edns with
  | Some edns =>
      if negb edns.(edns_present) then Ok (0, 0) else
      '(rdatalen, txt_size) ← ede_loop edns.(opt_list_inplace_cb_out) 0 0;
      '(rdatalen, txt_size) ← ede_loop edns.(opt_list_out) rdatalen txt_size;
      Ok (u16 rdatalen, txt_size)
  | None => Ok (0, 0)
  end.

(** The options of the list that are not EDE 'other' at its start, *)
Fixpoint trim_first (list_ : list edns_option) : outcome (list edns_option) :=
  match list_ with
  | [] => Ok []
  | opt :: l' =>
      other ← (if opt.(opt_code) =? LDNS_EDNS_EDE then ede_other opt else Ok false);
      if other : bool then trim_first l' else Ok list_
  end.

(** and the loop over them. *)
Fixpoint trim_loop (list_ : list edns_option) : outcome (list edns_option) :=
  match list_ with
  | [] => Ok []
  | curr :: l' =>
      if curr.(opt_code) =? LDNS_EDNS_EDE then
        other ← ede_other curr;
        l ← trim_loop l';
        if other : bool then Ok l else
        if 2 <? curr.(opt_len) then Ok (mk_option curr.(opt_code) 2 curr.(opt_data) :: l) else Ok (curr :: l)
      else l ← trim_loop l'; Ok (curr :: l)
  end.

Definition ede_trim_text (list_ : list edns_option) : outcome (list edns_option) := l ← trim_first list_; trim_loop l.

(** The loop of [edns_opt_list_remove] over the options after the first. *)
Fixpoint remove_loop (l : list edns_option) (code : Z) : list edns_option :=
  match l with [] => [] | curr :: l' => if curr.(opt_code) =? code then remove_loop l' code else curr :: remove_loop l' code end.

Fixpoint remove_first (l : list edns_option) (code : Z) : list edns_option :=
  match l with [] => [] | curr :: l' => if curr.(opt_code) =? code then remove_first l' code else l end.

(** The returned value, and the list. *)
Definition edns_opt_list_remove (list_ : list edns_option) (code : Z) : Z * list edns_option :=
  match list_ with
  | [] => (0, [])
  | _ => match remove_first list_ code with [] => (1, []) | prev :: l => (1, prev :: remove_loop l code) end
  end.

(** One of the loops over the options; the result is [padding_option]. *)
Fixpoint write_options (l : list edns_option) (padding_option : option edns_option) : P (option edns_option) :=
  match l with
  | [] => mret padding_option
  | opt :: l' =>
      if opt.(opt_code) =? LDNS_EDNS_PADDING then write_options l' (Some opt) else
      p_write_u16 opt.(opt_code);;
      p_write_u16 opt.(opt_len);;
      (if negb (opt.(opt_len) =? 0) then d ← ask (fun _ => nonnull opt.(opt_data)); p_write d opt.(opt_len) else mret tt);;
      write_options l' padding_option
  end.

(** [memset(sldns_buffer_current(pkt), 0, n)] *)
Definition p_zero (n : Z) : P unit := fun b =>
  _ ← sldns_buffer_current b; d ← the_data b; d' ← splice d b.(_position) (replicate (Z.to_nat n) 0); Ok (tt, set_data b d').

Definition write_padding (block max_msg_sz : Z) : P unit :=
  pad_pos ← p_position;
  let msg_sz := ((pad_pos + 3) / block + 1) * block in
  let msg_sz := if max_msg_sz <? msg_sz then max_msg_sz else msg_sz in
  ask (fun _ => c_assert (pad_pos + 4 <=? msg_sz));;
  let pad_sz := msg_sz - pad_pos - 4 in
  p_write_u16 LDNS_EDNS_PADDING;;
  p_write_u16 (u16 pad_sz);;
  if negb (pad_sz =? 0) then p_zero pad_sz;; p_skip pad_sz else mret tt.

Definition attach_edns_record_max_msg_sz (edns : edns_data) (max_msg_sz : Z) : P unit :=
  n ← ask (fun b => sldns_buffer_read_u16_at b 10);
  p_write_u16_at 10 (u16 (n + 1));;
  len ← ask (fun b => Ok (sldns_buffer_limit b));
  p_clear;;
  p_set_position len;;
  p_write_u8 0;;
  p_write_u16 LDNS_RR_TYPE_OPT;;
  p_write_u16 edns.(udp_size);;
  p_write_u8 edns.(ext_rcode);;
  p_write_u8 edns.(edns_version);;
  p_write_u16 edns.(bits);;
  rdatapos ← p_position;
  p_write_u16 0;;
  padding_option ← write_options edns.(opt_list_inplace_cb_out) None;
  padding_option ← write_options edns.(opt_list_out) padding_option;
  (match padding_option with
   | Some _ => if negb (edns.(padding_block_size) =? 0) then write_padding edns.(padding_block_size) max_msg_sz else mret tt
   | None => mret tt
   end);;
  here ← p_position;
  p_write_u16_at rdatapos (u16 (here - rdatapos - 2));;
  p_flip.

Definition attach_edns_record (edns : option edns_data) : P unit :=
  match edns with
  | Some edns => if edns.(edns_present) then attach_edns_record_max_msg_sz edns edns.(udp_size) else mret tt
  | None => mret tt
  end.

(** ** The answer *)

Definition BIT_CD : Z := 16.
Definition BIT_AD : Z := 32.
Definition BIT_RA : Z := 128.
Definition BIT_RD : Z := 256.
Definition BIT_QR : Z := 32768.

Definition with_options out cb (e : edns_data) := mk_edns e.(ext_rcode) e.(edns_version) e.(bits) e.(udp_size) e.(opt_list_in) out cb e.(padding_block_size) e.(edns_present) e.(cookie_present) e.(cookie_valid) e.(cookie_client).

Definition answer_flags (qinf : query_info) (rep : reply_info) (qflags : Z) (cached dnssec secure : bool) : Z :=
  let f := if negb cached || negb (rep.(authoritative) =? 0)
           then Z.lor rep.(flags) (Z.land qflags (Z.lor BIT_RD BIT_CD))
           else Z.lor (Z.land rep.(flags) (Z.lnot BIT_AA)) (Z.land qflags (Z.lor BIT_RD BIT_CD)) in
  let f := if secure && (dnssec || negb (Z.land qflags BIT_AD =? 0)) then Z.lor f BIT_AD else f in
  let rcode := FLAGS_GET_RCODE rep.(flags) in
  match qinf.(local_alias) with
  | Some _ => if (rcode =? LDNS_RCODE_NOERROR) || (rcode =? LDNS_RCODE_NXDOMAIN) then Z.land (Z.lor f BIT_AA) (Z.lnot BIT_AD) else f
  | None => f
  end.

(** The EDNS record after the message, with as many of its options as there is room for. *)
Definition attach_what_fits (edns : edns_data) (udpsize edns_field_size ede_size ede_txt_size : Z) : P unit :=
  limit ← ask (fun b => Ok (sldns_buffer_limit b));
  if u64 (limit + edns_field_size) <=? udpsize then attach_edns_record_max_msg_sz edns udpsize else
  if u64 (limit + edns_field_size - ede_txt_size) <=? udpsize then
    cb ← ask (fun _ => ede_trim_text edns.(opt_list_inplace_cb_out));
    out ← ask (fun _ => ede_trim_text edns.(opt_list_out));
    attach_edns_record_max_msg_sz (with_options out cb edns) udpsize
  else if u64 (limit + edns_field_size - ede_size) <=? udpsize then
    attach_edns_record_max_msg_sz (with_options (edns_opt_list_remove edns.(opt_list_out) LDNS_EDNS_EDE).2
                                     (edns_opt_list_remove edns.(opt_list_inplace_cb_out) LDNS_EDNS_EDE).2 edns) udpsize
  else mret tt.

Definition reply_info_answer_encode (qinf : query_info) (inplace : bool) (rep : reply_info) (id_ : list Z) (qflags timenow : Z) (cached : bool) (udpsize : Z) (edns : option edns_data) (dnssec secure : bool) : E bool :=
  let flags_ := answer_flags qinf rep qflags cached dnssec secure in
  e_assert (negb (Z.land flags_ BIT_QR =? 0));;
  if udpsize <? LDNS_HEADER_SIZE then mret false else
  let edns_field_size := calc_edns_field_size edns in
  '(ede_size, ede_txt_size) ← lift (calc_ede_option_size edns);
  capacity ← to_pkt (ask (fun b => Ok (sldns_buffer_capacity b)));
  let udpsize := if capacity <? udpsize then u16 capacity else udpsize in
  let attach_edns := match edns with
                     | Some e => if negb e.(edns_present) then 0 else
                                 if udpsize <? LDNS_HEADER_SIZE + edns_field_size - ede_size then 0
                                 else u32 (edns_field_size - ede_size)
                     | None => 0
                     end in
  ok ← reply_info_encode qinf inplace rep id_ flags_ timenow (u16 (udpsize - attach_edns)) dnssec MINIMAL_RESPONSES;
  if negb ok then mret false else
  (match edns with
   | Some e => if negb (attach_edns =? 0) then to_pkt (attach_what_fits e udpsize edns_field_size ede_size ede_txt_size) else mret tt
   | None => mret tt
   end);;
  mret true.
End Encode.

(** ** Queries *)

(** The id is left for later. *)
Definition qinfo_query_encode (qinfo : query_info) : P unit :=
  '(qname_, qname_len_) ← ask (fun _ => question_name qinfo);
  p_clear;;
  rem ← p_remaining;
  ask (fun _ => c_assert (12 + 255 + 4 <=? rem));;
  p_skip 2;;
  p_write_u16 0;;
  p_write_u16 1;;
  p_write [0; 0; 0; 0; 0; 0] 6;;
  p_write qname_ qname_len_;;
  p_write_u16 qinfo.(qtype);;
  p_write_u16 qinfo.(qclass);;
  p_flip.

(** ** Errors *)

Definition EDNS_ADVERTISED_VERSION : Z := 0.
Definition EDNS_DO : Z := 32768.

Section Errors.
Context (EDNS_ADVERTISED_SIZE : Z).

(** The EDNS record of an error, if there is room for it. *)
Definition attach_error_edns (rcode : Z) (edns : edns_data) : P unit :=
  let es out cb := mk_edns (u8 (Z.shiftr rcode 4)) EDNS_ADVERTISED_VERSION (Z.land edns.(bits) EDNS_DO) EDNS_ADVERTISED_SIZE edns.(opt_list_in) out cb
                     edns.(padding_block_size) edns.(edns_present) edns.(cookie_present) edns.(cookie_valid) edns.(cookie_client) in
  let all := es edns.(opt_list_out) edns.(opt_list_inplace_cb_out) in
  limit ← ask (fun b => Ok (sldns_buffer_limit b));
  if edns.(udp_size) <? u64 (limit + calc_edns_field_size (Some all)) then
    let less := es (edns_opt_list_remove edns.(opt_list_out) LDNS_EDNS_EDE).2 (edns_opt_list_remove edns.(opt_list_inplace_cb_out) LDNS_EDNS_EDE).2 in
    if edns.(udp_size) <? u64 (limit + calc_edns_field_size (Some less)) then mret tt else attach_edns_record (Some less)
  else attach_edns_record (Some all).

(** [qid] as it is in memory. *)
Definition extended_error_encode (rcode : Z) (qinfo : option query_info) (inplace : bool) (qid : list Z) (qflags xflags : Z) (edns : option edns_data) : P unit :=
  p_clear;;
  p_write qid 2;;
  let f := u16 (Z.lor (Z.lor BIT_QR BIT_RA) (Z.land rcode 15)) in
  let f := Z.lor (Z.lor f xflags) (Z.land qflags (Z.lor BIT_RD BIT_CD)) in
  p_write_u16 f;;
  p_write_u16 (match qinfo with Some _ => 1 | None => 0 end);;
  p_write [0; 0] 2;;
  p_write [0; 0] 2;;
  p_write [0; 0] 2;;
  (match qinfo with
   | Some qinfo =>
       '(qname_, qname_len_) ← ask (fun _ => question_name qinfo);
       (if inplace : bool then p_skip qname_len_ else p_write qname_ qname_len_);;
       p_write_u16 qinfo.(qtype);;
       p_write_u16 qinfo.(qclass)
   | None => mret tt
   end);;
  p_flip;;
  match edns with Some edns => attach_error_edns rcode edns | None => mret tt end.

Definition error_encode (r : Z) (qinfo : option query_info) (inplace : bool) (qid : list Z) (qflags : Z) (edns : option edns_data) : P unit :=
  extended_error_encode (Z.land r 15) qinfo inplace qid qflags (Z.land r 65520) edns.
End Errors.
