(* ===== verification/EncodeTree.v ===== *)
(** * Encoding replies: the bytes that are in the packet

    What stands in the packet is said with the bytes that it is made of: a name only uses
    bytes of the message after the header, and none of the two of a length that is not yet
    known.  So it stays when other bytes are written.  The tree of names follows: the
    order that it has, and the lookup in it. *)

From stdpp Require Import sorting.
From S2P Require Import Prelude Sbuffer Dname DnameCompare DnamePkt DnameOut RbtreeAdd PathOrder NameTree Msgparse MsgPkt PackedRrset Msgreply Msgencode.

(** ** Bytes at an offset *)

Definition has (d : list Z) (o : Z) (x : list Z) : Prop := forall j y, x !! j = Some y -> d !! (Z.to_nat o + j)%nat = Some y.

(** The bytes of a set of offsets are the same. *)
Definition agree (S : Z -> Prop) (d d' : list Z) : Prop := forall i, S i -> d' !! Z.to_nat i = d !! Z.to_nat i.

Definition covers (S : Z -> Prop) (o n : Z) : Prop := forall i, o <= i < o + n -> S i.

Lemma has_drop d o x : has d o x -> exists r, zdrop o d = x ++ r.
Proof.
  intros H. exists (zdrop (zlen x) (zdrop o d)). rewrite <- (ztake_zdrop (zlen x) (zdrop o d)) at 1. f_equal. apply list_eq. intros j.
  unfold ztake. rewrite to_nat_zlen. destruct (x !! j) as [y|] eqn:E.
  - pose proof (lookup_lt_Some _ _ _ E). rewrite lookup_take_lt by done. unfold zdrop. rewrite lookup_drop. by apply H.
  - apply lookup_ge_None in E. by rewrite lookup_take_ge.
Qed.

Lemma has_take d o x n : has d o x -> 0 <= o -> o + zlen x <= n -> has (ztake n d) o x.
Proof.
  intros H Ho Hn j y E. pose proof (lookup_lt_Some _ _ _ E). unfold ztake, zlen in *. rewrite lookup_take_lt by lia. by apply H.
Qed.

Lemma has_app d o x y : 0 <= o -> has d o (x ++ y) <-> has d o x /\ has d (o + zlen x) y.
Proof.
  intros Ho. pose proof (zlen_nonneg x). split.
  - intros H0. split; intros j z E; [apply H0; by apply lookup_app_l_Some|]. specialize (H0 (length x + j)%nat z). rewrite lookup_app_r in H0 by lia.
    replace (length x + j - length x)%nat with j in H0 by lia. specialize (H0 E). rewrite <- H0. f_equal. unfold zlen. lia.
  - intros [H1 H2] j z E. apply lookup_app_Some in E as [E|[Hj E]]; [by apply H1|]. apply H2 in E. rewrite <- E. f_equal. unfold zlen. lia.
Qed.

Lemma has_agree S d d' o x : agree S d d' -> covers S o (zlen x) -> 0 <= o -> has d o x -> has d' o x.
Proof.
  intros HA HC Ho H j y E. pose proof (lookup_lt_Some _ _ _ E). specialize (HA (o + Z.of_nat j)). rewrite Z2Nat.inj_add, Nat2Z.id in HA by lia.
  rewrite HA; [by apply H|]. apply HC. unfold zlen. lia.
Qed.

Lemma agree_trans S d1 d2 d3 : agree S d1 d2 -> agree S d2 d3 -> agree S d1 d3.
Proof. intros H1 H2 i Hi. by rewrite H2, H1. Qed.

Lemma agree_sub (S S' : Z -> Prop) d d' : agree S' d d' -> (forall i, S i -> S' i) -> agree S d d'.
Proof. intros H HS i Hi. by apply H, HS. Qed.

Lemma covers_sub (S S' : Z -> Prop) o n : covers S o n -> (forall i, S i -> S' i) -> covers S' o n.
Proof. intros H HS i Hi. by apply HS, H. Qed.

Lemma has_splice d p x : 0 <= p -> p + zlen x <= zlen d -> has (spliced d p x) p x.
Proof.
  intros Hp Hl j y E. unfold spliced. pose proof (zlen_ztake p d) as Z0. pose proof (zlen_nonneg x). specialize (Z0 ltac:(lia)). unfold zlen in Z0.
  rewrite lookup_app_r by lia. replace (Z.to_nat p + j - length (ztake p d))%nat with j by lia. by apply lookup_app_l_Some.
Qed.

(** Bytes that are there already. *)
Lemma spliced_same d p x : 0 <= p -> has d p x -> spliced d p x = d.
Proof.
  intros Hp (r & E)%has_drop. unfold spliced. rewrite <- zdrop_zdrop, E, zdrop_app_zlen, <- E by (done || apply zlen_nonneg). apply ztake_zdrop.
Qed.

Lemma spliced_agree d p x : 0 <= p -> p + zlen x <= zlen d -> agree (fun i => 0 <= i < p \/ p + zlen x <= i) d (spliced d p x).
Proof.
  intros Hp Hl i Hi. unfold spliced. pose proof (zlen_nonneg x). pose proof (zlen_ztake p d ltac:(lia)) as Z0. unfold zlen in Z0, Hi, Hl, H. destruct Hi as [Hi|Hi].
  - rewrite lookup_app_l by lia. unfold ztake. by rewrite lookup_take_lt by lia.
  - rewrite lookup_app_r, lookup_app_r by lia. unfold zdrop. rewrite lookup_drop. f_equal. unfold zlen. lia.
Qed.

(** ** Names *)

(** The labels without the root at the end. *)
Definition flat (ls : name) : list Z := concat (map (fun l => zlen l :: l) ls).

Lemma wire_flat ls : wire ls = flat ls ++ [0].
Proof. done. Qed.
Lemma flat_cons l ls : flat (l :: ls) = zlen l :: l ++ flat ls.
Proof. done. Qed.
Lemma zlen_wire_flat ls : zlen (wire ls) = zlen (flat ls) + 1.
Proof. by rewrite wire_flat, zlen_app. Qed.
Lemma flat_app p s : flat (p ++ s) = flat p ++ flat s.
Proof. unfold flat. by rewrite map_app, concat_app. Qed.
Lemma wire_app p s : wire (p ++ s) = flat p ++ wire s.
Proof. by rewrite !wire_flat, flat_app, app_assoc. Qed.
Lemma bytes_ok_flat ls : Forall label_ok ls -> bytes_ok (flat ls).
Proof. intros H%bytes_ok_wire. rewrite wire_flat in H. by apply Forall_app in H as [? _]. Qed.

(** A pointer, as it is written. *)
Definition pointer (o : Z) : list Z := sldns_write_uint16 (PTR_CREATE o).

Lemma pointer_ok o : 0 <= o <= PTR_MAX_OFFSET ->
  exists x y, pointer o = [x; y] /\ is_byte x /\ is_byte y /\ LABEL_IS_PTR x = true /\ PTR_OFFSET x y = o /\ in_u 16 (PTR_CREATE o) /\ PTR_CREATE o <> 0.
Proof.
  unfold PTR_MAX_OFFSET. intros Ho.
  assert (PTR_CREATE o = 49152 + o) as E.
  { unfold PTR_CREATE. change 49152 with (Z.shiftl 3 14). rewrite lor_shiftl_add by (change (2 ^ 14) with 16384; lia). change (Z.shiftl 3 14) with 49152. rewrite wrap_small by (unfold in_u; lia).
    change (3 * 2 ^ 14) with 49152. lia. }
  unfold pointer, sldns_write_uint16. rewrite E, !land_255, Z.shiftr_div_pow2 by lia. eexists _, _. split; [reflexivity|].
  assert (((49152 + o) / 2 ^ 8) mod 256 = 192 + o / 256) as Ex by divlia. assert ((49152 + o) mod 256 = o mod 256) as Ey by divlia. rewrite Ex, Ey.
  assert (0 <= o / 256 < 64) by divlia. pose proof (Z.mod_pos_bound o 256 ltac:(lia)). assert (is_byte (192 + o / 256)) as Hx by (unfold in_u; lia).
  split; [done|]. split; [unfold in_u; lia|]. split; [rewrite label_is_ptr_range by done; rewrite leb_true by lia; done|]. split; [|unfold in_u; lia].
  unfold PTR_OFFSET. change 63 with (Z.ones 6). rewrite Z.land_ones by lia. rewrite lor_shiftl_add by (change (2 ^ 8) with 256; lia). change (2 ^ 6) with 64. change (2 ^ 8) with 256.
  replace ((192 + o / 256) mod 64) with (o / 256) by divlia. divlia.
Qed.

(** The name [ls] at [o], by way of [k] pointers, where it has [e] bytes; of [S] only. *)
Inductive chain (d : list Z) (S : Z -> Prop) : Z -> Z -> name -> Z -> Prop :=
  | chain_root o : 0 <= o -> has d o [0] -> covers S o 1 -> chain d S 0 o [] 1
  | chain_label k o l ls e : 0 <= o -> label_ok l -> has d o (zlen l :: l) -> covers S o (1 + zlen l) -> chain d S k (o + (1 + zlen l)) ls e ->
      chain d S k o (l :: ls) (1 + zlen l + e)
  | chain_ptr k o q ls e : 0 <= o -> 0 <= q <= PTR_MAX_OFFSET -> has d o (pointer q) -> covers S o 2 -> chain d S k q ls e -> chain d S (k + 1) o ls 2.

Lemma chain_count d S k o ls e : chain d S k o ls e -> 0 <= k.
Proof. induction 1; lia. Qed.

Lemma chain_labels d S k o ls e : chain d S k o ls e -> Forall label_ok ls.
Proof. induction 1; by try constructor. Qed.

Lemma chain_start d S k o ls e : chain d S k o ls e -> 0 <= o /\ S o /\ 1 <= e.
Proof. induction 1 as [o Ho _ HC|k o l ls e Ho [Hl _] _ HC|k o q ls e Ho Hq _ HC]; (split; [done|]; split; [apply HC; lia|lia]). Qed.

Lemma chain_agree d d' (S S' : Z -> Prop) k o ls e : chain d S k o ls e -> agree S d d' -> (forall i, S i -> S' i) -> chain d' S' k o ls e.
Proof.
  intros H HA HS. induction H as [o Ho H1 HC|k o l ls e Ho Hl H1 HC _ IH|k o q ls e Ho Hq H1 HC _ IH].
  - constructor; [done|by eapply has_agree|by eapply covers_sub].
  - constructor; [done|done|eapply has_agree; [exact HA| |done|done]; by rewrite zlen_cons|by eapply covers_sub|done].
  - econstructor; [done|exact Hq| |by eapply covers_sub|exact IH]. destruct (pointer_ok q Hq) as (x & y & E & _). apply (has_agree S d d'); [exact HA|by rewrite E|done..].
Qed.

Lemma chain_decomp d S k o ls e n : chain d S k o ls e -> (forall i, S i -> i < n) -> decomp (ztake n d) n k (zdrop o (ztake n d)) ls e.
Proof.
  intros H HS.
  assert (forall o x, 0 <= o -> has d o x -> covers S o (zlen x) -> 1 <= zlen x -> exists r, zdrop o (ztake n d) = x ++ r) as Hd.
  { intros o' x Ho Hx HC Hz. apply has_drop, has_take; [done..|]. pose proof (HS (o' + zlen x - 1) ltac:(apply HC; lia)). lia. }
  induction H as [o Ho H1 HC|k o l ls e Ho Hl H1 HC _ IH|k o q ls e Ho Hq H1 HC H2 IH].
  - destruct (Hd o [0] Ho H1 HC) as (r & ->); [done|]. constructor.
  - destruct (Hd o (zlen l :: l) Ho H1) as (r & E); [by rewrite zlen_cons|rewrite zlen_cons; pose proof (zlen_nonneg l); lia|]. rewrite E. cbn [app]. constructor; [done|].
    assert (zdrop (o + (1 + zlen l)) (ztake n d) = r) as Er.
    { pose proof (zlen_nonneg l). rewrite <- zdrop_zdrop by lia. rewrite E. pose proof (zdrop_app_zlen (zlen l :: l) r) as Z0. by rewrite zlen_cons in Z0. }
    by rewrite Er in IH.
  - destruct (pointer_ok q Hq) as (x & y & E & Hx & Hy & Hp & Eq & _). destruct (Hd o (pointer q) Ho H1) as (r & ->); [by rewrite E|by rewrite E|]. rewrite E. cbn [app].
    apply (decomp_ptr _ _ k x y r ls e); rewrite ?Eq; try done. apply HS. by destruct (chain_start _ _ _ _ _ _ H2) as (_ & ? & _).
Qed.

(** Labels in front of a name. *)
Lemma chain_flat d S k ls s e : forall o, 0 <= o -> Forall label_ok ls -> has d o (flat ls) -> covers S o (zlen (flat ls)) -> chain d S k (o + zlen (flat ls)) s e ->
  chain d S k o (ls ++ s) (zlen (flat ls) + e).
Proof.
  induction ls as [|l ls IH]; intros o Ho Hls Hh HC Hch.
  - change (zlen (flat [])) with 0 in *. by rewrite Z.add_0_r in Hch.
  - apply Forall_cons in Hls as [Hl Hls]. rewrite flat_cons in Hh. change (zlen l :: l ++ flat ls) with ((zlen l :: l) ++ flat ls) in Hh. apply has_app in Hh as [H1 H2]; [|done].
    pose proof (zlen_nonneg l). pose proof (zlen_nonneg (flat ls)). assert (zlen (flat (l :: ls)) = 1 + zlen l + zlen (flat ls)) as Ez by (rewrite flat_cons, zlen_cons, zlen_app; lia).
    rewrite Ez in *. rewrite zlen_cons in H2. cbn [app]. rewrite <- Z.add_assoc. constructor; try done.
    + intros i Hi. apply HC. lia.
    + apply IH; [lia|done|done|intros i Hi; apply HC; lia|by rewrite <- Z.add_assoc].
Qed.

Lemma chain_wire d S o ls : 0 <= o -> Forall label_ok ls -> has d o (wire ls) -> covers S o (zlen (wire ls)) -> chain d S 0 o ls (zlen (wire ls)).
Proof.
  intros Ho Hls Hh HC. rewrite wire_flat in Hh. apply has_app in Hh as [H1 H2]; [|done]. rewrite zlen_wire_flat in *. pose proof (zlen_nonneg (flat ls)).
  pose proof (chain_flat d S 0 ls [] 1 o Ho Hls H1) as Hc. rewrite app_nil_r in Hc. apply Hc; [intros i Hi; apply HC; lia|]. constructor; [lia|done|intros i Hi; apply HC; lia].
Qed.

(** ** Encoding replies: the tree of names

    The tree of the compression is a search tree in the order of labels from the root,
    and holds with a name all the names above it; so the match closest to a name from
    below leads to the longest of its ancestors that is in the tree. *)

(** ** Names by their labels from the root *)

Definition ord (x y : name) : Z := lexp length_order (rev x) (rev y).
#[global] Arguments ord : simpl never.

#[export] Instance ord_total : TotalCmp ord.
Proof.
  split.
  - intros x y. apply (cmp_sym (cmp := lexp length_order)).
  - intros x y z. apply (cmp_trans (cmp := lexp length_order)).
Qed.

Lemma lower_zlen x y : lower_name x = lower_name y -> zlen x = zlen y.
Proof. intros E%(f_equal length). unfold lower_name in E. rewrite !length_map in E. unfold zlen. by rewrite E. Qed.

(** [s] is the end of [x], up to case. *)
Definition above (s x : name) : Prop := lower_name s `suffix_of` lower_name x.

Lemma lexp_lower x : forall y, lexp length_order x y = 0 <-> lower_name x = lower_name y.
Proof.
  induction x as [|u x IH]; intros [|v y]; cbn [lexp lower_name map]; [done..|].
  pose proof (length_order_0 u v) as H0. destruct (Z.eqb_spec (length_order u v) 0) as [E|E].
  - rewrite IH. apply H0 in E. rewrite E. split; [intros H1; f_equal; exact H1|by intros [= H1]].
  - split; [done|]. intros [= E1 _]. by apply H0 in E1.
Qed.

Lemma ord_lower x y : ord x y = 0 <-> lower_name x = lower_name y.
Proof. unfold ord. by rewrite lexp_lower, rev_lower_inj. Qed.

Lemma e_prefixp_lower p : forall x, prefixp length_order p x = true <-> lower_name p `prefix_of` lower_name x.
Proof.
  induction p as [|u p IH]; intros [|v x]; cbn [prefixp lower_name map].
  - split; [intros _; by exists []|done].
  - split; [intros _; apply prefix_nil|done].
  - split; [done|]. by intros [k [=]].
  - rewrite andb_true_iff, Z.eqb_eq, length_order_0, IH. split.
    + intros [-> H]. by apply prefix_cons.
    + intros H. split; [by apply prefix_cons_inv_1 in H|by apply prefix_cons_inv_2 in H].
Qed.

Lemma suffix_prefix_rev {A} (l k : list A) : l `suffix_of` k <-> rev l `prefix_of` rev k.
Proof.
  split; intros [m E].
  - exists (rev m). by rewrite E, rev_app_distr.
  - exists (rev m). by rewrite <- (rev_involutive k), E, rev_app_distr, rev_involutive.
Qed.

Lemma above_prefixp s x : above s x <-> prefixp length_order (rev s) (rev x) = true.
Proof. rewrite e_prefixp_lower, !lower_name_rev. unfold above. apply suffix_prefix_rev. Qed.

Lemma above_end p s : above s (p ++ s).
Proof. unfold above, lower_name. rewrite map_app. by apply suffix_app_r. Qed.

Lemma above_length s x : above s x -> zlen s <= zlen x.
Proof. intros H%suffix_length. unfold lower_name in H. rewrite !length_map in H. unfold zlen. lia. Qed.

Lemma above_split s x : above s x -> exists p s', x = p ++ s' /\ lower_name s' = lower_name s.
Proof.
  intros [k E]. unfold lower_name in E. destruct (map_eq_app _ _ _ _ E) as (p & s' & -> & _ & E'). by exists p, s'.
Qed.

Lemma above_trans a x y : above a x -> above x y -> above a y.
Proof. unfold above. by intros ->. Qed.

Lemma above_lower a x y : lower_name a = lower_name x -> above x y -> above a y.
Proof. unfold above. by intros ->. Qed.

Lemma above_ord s x : above s x -> ord s x <= 0.
Proof. rewrite above_prefixp. apply prefixp_le. Qed.

Lemma above_strict s x : above s x -> zlen s < zlen x -> ord s x < 0.
Proof.
  intros H Hl. pose proof (above_ord s x H). destruct (Z.eq_dec (ord s x) 0) as [E|]; [|lia].
  apply ord_lower, lower_zlen in E. lia.
Qed.

Lemma above_convex s x y : ord s x <= 0 -> ord x y <= 0 -> above s y -> above s x.
Proof. rewrite !above_prefixp. apply (prefixp_convex length_order). Qed.

(** The labels that two names share from the root. *)
Definition shared (x y : name) : Z := Z.of_nat (commonp length_order (rev x) (rev y)).

Lemma above_shared s x y : above s x -> above s y <-> zlen s <= shared x y.
Proof.
  intros H. pose proof H as H'. rewrite above_prefixp in H'. rewrite (above_prefixp s y), (prefixp_common length_order _ _ _ H'), length_rev. unfold shared, zlen. lia.
Qed.

Lemma shared_le x y : shared x y <= zlen x /\ shared x y <= zlen y.
Proof. unfold shared, zlen. destruct (common_le length_order (rev x) (rev y)) as [H1 H2]. rewrite !length_rev in *. rewrite common_commonp in *. lia. Qed.

(** The part that is shared ends both. *)
Lemma shared_end x y p s : y = p ++ s -> zlen s = shared x y -> above s x.
Proof.
  intros -> Hl. assert (prefixp length_order (rev s) (rev (p ++ s)) = true) as H by (apply above_prefixp, above_end).
  pose proof (prefixp_common length_order (rev s) (rev (p ++ s)) (rev x) H) as Hc. apply above_prefixp, Hc. rewrite length_rev.
  assert (commonp length_order (rev (p ++ s)) (rev x) = commonp length_order (rev x) (rev (p ++ s))) as ->; [|unfold shared, zlen in Hl; lia].
  rewrite <- !common_commonp. generalize (rev (p ++ s)) (rev x). clear. intros a b.
  revert b. induction a as [|u a IH]; intros [|v b]; cbn; [done..|]. rewrite IH.
  assert (length_order u v = 0 <-> length_order v u = 0) as Hs by (rewrite !length_order_0; split; congruence).
  destruct (Z.eqb_spec (length_order u v) 0) as [E|E], (Z.eqb_spec (length_order v u) 0) as [E'|E']; tauto.
Qed.

Lemma shared_above ls x y : above y x -> zlen y = shared ls x -> above y ls.
Proof.
  intros Hab Hz. destruct (above_split _ _ Hab) as (p & s' & Ex & Es). eapply above_lower; [symmetry; exact Es|]. apply (shared_end ls x p s' Ex).
  rewrite <- Hz. by apply lower_zlen.
Qed.

(** ** The shape of the tree *)

Inductive tree := Leaf | Bin (l : tree) (a : addr) (x : name) (r : tree).

#[export] Instance tree_eq_dec : EqDecision tree.
Proof. solve_decision. Defined.

Fixpoint inorder (t : tree) : list (addr * name) :=
  match t with Leaf => [] | Bin l a x r => inorder l ++ (a, x) :: inorder r end.
Abbreviation addrs t := (map fst (inorder t)).

Record node_is (n : compress_tree_node) (x : name) : Prop := {
  ni_dname : exists r, n.(dname) = wire x ++ r;
  ni_labs : n.(labs) = 1 + zlen x;
  ni_labels : Forall label_ok x;
}.

Abbreviation heap := (gmap addr compress_tree_node).

Fixpoint shape (h : heap) (p : ptr) (t : tree) : Prop :=
  match t with
  | Leaf => p = None
  | Bin l a x r => p = Some a /\ exists n, h !! a = Some n /\ node_is n x /\ shape h n.(left) l /\ shape h n.(right) r
  end.

(** The fields that make the shape. *)
Definition core (n : compress_tree_node) := (n.(left), n.(right), n.(dname), n.(labs)).

Lemma node_is_same n n' x : n.(dname) = n'.(dname) -> n.(labs) = n'.(labs) -> node_is n x -> node_is n' x.
Proof. intros E1 E2 [H1 H2 H3]. split; [by rewrite <- E1|by rewrite <- E2|done]. Qed.

Lemma shape_agree h h' t : forall p, shape h p t -> (forall a, a ∈ addrs t -> core <$> h' !! a = core <$> h !! a) -> shape h' p t.
Proof.
  induction t as [|l IHl a x r IHr]; intros p; cbn [shape inorder]; [done|]. intros (-> & n & Ha & Hn & Hl & Hr) H. split; [done|].
  rewrite map_app in H. cbn [map fst] in H. pose proof (H a ltac:(set_solver)) as E. rewrite Ha in E. destruct (h' !! a) as [n'|] eqn:Ha'; [|done].
  cbn in E. injection E as E1 E2 E3 E4. exists n'. split; [done|]. split; [by apply (node_is_same n)|].
  rewrite E1, E2. split; [apply IHl|apply IHr]; try done; intros b Hb; apply H; set_solver.
Qed.

Lemma shape_size h p t : shape h p t -> NoDup (addrs t) -> (length (inorder t) <= size h)%nat.
Proof.
  intros Hs Hn. assert (forall a, a ∈ addrs t -> a ∈ dom h) as Hd.
  { clear Hn. revert p Hs. induction t as [|l IHl a x r IHr]; intros p; cbn [shape inorder]; [intros _ b Hb; set_solver|].
    intros (_ & n & Ha & _ & Hl & Hr) b. rewrite map_app, elem_of_app. cbn [map fst]. rewrite elem_of_cons. intros [Hb|[->|Hb]].
    - by eapply IHl. - by apply elem_of_dom_2 in Ha. - by eapply IHr. }
  rewrite <- (length_map fst), <- size_dom. rewrite <- (size_list_to_set (C := gset addr)) by done. apply subseteq_size. intros a. rewrite elem_of_list_to_set. apply Hd.
Qed.

(** ** The search *)

Definition place_in (pl : place) (t : tree) : Prop := exists a, (pl = AtLeft a \/ pl = AtRight a) /\ a ∈ addrs t.

Definition put_at (pl : place) (q : ptr) (h : heap) : heap :=
  match pl with
  | AtRoot => h
  | AtLeft a => alter (with_left q) a h
  | AtRight a => alter (with_right q) a h
  end.

(** A tree that is put at [pl] in the tree [t] at [p] comes between [l1] and [l2]. *)
Definition fills (h : heap) (p : ptr) (t : tree) (pl : place) (l1 l2 : list (addr * name)) : Prop :=
  place_in pl t /\ forall h' q v, (forall a, a ∈ addrs t -> core <$> h' !! a = core <$> h !! a) -> shape h' q v -> (forall a, a ∈ addrs v -> a ∉ addrs t) ->
    exists t', shape (put_at pl q h') p t' /\ inorder t' = l1 ++ inorder v ++ l2.

(** Where a search ended that came to the tree [t] from [prev], after it passed [close]. *)
Definition search_end (h : heap) (p : ptr) (t : tree) (prev : place) (closen : Z) (close : ptr) (ls : name) (r : bool * ptr * Z * option place) : Prop :=
  match r with
  | (true, q, _, _) => exists a x, q = Some a /\ (a, x) ∈ inorder t /\ ord ls x = 0
  | (false, q, m, pl) =>
      exists l1 l2 pl', pl = Some pl' /\ inorder t = l1 ++ l2 /\ Forall (fun e => ord e.2 ls < 0) l1 /\ Forall (fun e => ord ls e.2 < 0) l2 /\
        (match list.last l1 with Some (a, x) => q = Some a /\ m = 1 + shared ls x | None => q = close /\ m = closen end) /\
        (match t with Leaf => pl' = prev | _ => fills h p t pl' l1 l2 end)
  end.

Lemma put_at_outside pl q h t a : place_in pl t -> a ∉ addrs t -> put_at pl q h !! a = h !! a.
Proof. intros (b & [-> | ->] & Hb) Ha; cbn; apply lookup_alter_ne; by intros ->. Qed.

Lemma addrs_bin b l a x r : b ∈ addrs (Bin l a x r) <-> b ∈ (addrs l) \/ b = a \/ b ∈ (addrs r).
Proof. cbn [inorder]. rewrite map_app, elem_of_app. cbn [map fst]. by rewrite elem_of_cons. Qed.

Lemma nodup_bin l a x r : NoDup (addrs (Bin l a x r)) ->
  NoDup (addrs l) /\ NoDup (addrs r) /\ a ∉ (addrs l) /\ a ∉ (addrs r) /\ forall b, b ∈ addrs l -> b ∉ addrs r.
Proof.
  cbn [inorder]. rewrite map_app. cbn [map fst]. intros (N1 & N2 & [N3 N4]%NoDup_cons)%NoDup_app. do 2 (split; [done|]). split; [|split; [done|]].
  - intros H. apply (N2 a H). by left.
  - intros b H1 H2. apply (N2 b H1). by right.
Qed.

(** The node [a] of a heap that is as [h] outside of one of its subtrees. *)
Lemma core_node (h h' : heap) a n x : core <$> h' !! a = core <$> h !! a -> h !! a = Some n -> node_is n x ->
  exists n', h' !! a = Some n' /\ node_is n' x /\ n'.(left) = n.(left) /\ n'.(right) = n.(right).
Proof.
  intros E Ha Hn. rewrite Ha in E. destruct (h' !! a) as [n'|]; [|done]. cbn in E. injection E as E1 E2 E3 E4. exists n'. split; [done|].
  split; [by apply (node_is_same n)|done].
Qed.

(** Something that fills a subtree fills the tree. *)
Lemma fills_left h p l a x r pl l1 l2 : shape h p (Bin l a x r) -> NoDup (addrs (Bin l a x r)) ->
  match l with Leaf => pl = AtLeft a /\ l1 = [] /\ l2 = [] | _ => exists pl0, fills h pl0 l pl l1 l2 /\ exists n, h !! a = Some n /\ n.(left) = pl0 end ->
  fills h p (Bin l a x r) pl l1 (l2 ++ (a, x) :: inorder r).
Proof.
  intros (-> & n & Ha & Hn & Hl & Hr) (_ & _ & Hal & Har & Hlr)%nodup_bin HF. destruct (decide (l = Leaf)) as [->|Hne].
  - destruct HF as (-> & -> & ->). split; [exists a; split; [by left|]; apply addrs_bin; tauto|]. intros h' q v Hag Hv Hd.
    exists (Bin v a x r). split; [|done]. split; [done|]. destruct (core_node h h' a n x) as (n' & Ha' & Hn' & _ & E2); [apply Hag, addrs_bin; tauto|done..|].
    cbn [put_at]. rewrite lookup_alter_eq, Ha'. eexists. split; [reflexivity|]. split; [by apply (node_is_same n')|]. cbn [left right with_left]. split.
    + eapply shape_agree; [exact Hv|]. intros c Hc. rewrite lookup_alter_ne; [done|]. intros ->. apply (Hd c Hc), addrs_bin. tauto.
    + rewrite E2. eapply shape_agree; [exact Hr|]. intros c Hc. rewrite lookup_alter_ne by (by intros ->). apply Hag, addrs_bin. tauto.
  - assert (exists pl0, fills h pl0 l pl l1 l2 /\ exists n, h !! a = Some n /\ n.(left) = pl0) as (pl0 & [Hin HF'] & n0 & Ha0 & <-) by (by destruct l).
    rewrite Ha in Ha0. injection Ha0 as <-. split; [destruct Hin as (c & Hc & Hin); exists c; split; [done|]; apply addrs_bin; tauto|]. intros h' q v Hag Hv Hd.
    destruct (HF' h' q v) as (l' & Hs & El); [intros c Hc; apply Hag, addrs_bin; tauto|done|intros c Hc H; apply (Hd c Hc), addrs_bin; tauto|].
    exists (Bin l' a x r). cbn [shape inorder]. rewrite El, <- !app_assoc. split; [|done]. split; [done|].
    destruct (core_node h h' a n x) as (n' & Ha' & Hn' & E1 & E2); [apply Hag, addrs_bin; tauto|done..|].
    exists n'. rewrite (put_at_outside _ _ _ _ _ Hin Hal). split; [done|]. split; [done|]. rewrite E1, E2. split; [done|].
    eapply shape_agree; [exact Hr|]. intros c Hc. rewrite (put_at_outside _ _ _ _ _ Hin) by (intros H; by apply (Hlr c H)). apply Hag, addrs_bin. tauto.
Qed.

Lemma fills_right h p l a x r pl l1 l2 : shape h p (Bin l a x r) -> NoDup (addrs (Bin l a x r)) ->
  match r with Leaf => pl = AtRight a /\ l1 = [] /\ l2 = [] | _ => exists pl0, fills h pl0 r pl l1 l2 /\ exists n, h !! a = Some n /\ n.(right) = pl0 end ->
  fills h p (Bin l a x r) pl (inorder l ++ (a, x) :: l1) l2.
Proof.
  intros (-> & n & Ha & Hn & Hl & Hr) (_ & _ & Hal & Har & Hlr)%nodup_bin HF. destruct (decide (r = Leaf)) as [->|Hne].
  - destruct HF as (-> & -> & ->). split; [exists a; split; [by right|]; apply addrs_bin; tauto|]. intros h' q v Hag Hv Hd.
    exists (Bin l a x v). cbn [inorder]. rewrite <- app_assoc, app_nil_r. split; [|done]. split; [done|].
    destruct (core_node h h' a n x) as (n' & Ha' & Hn' & E1 & _); [apply Hag, addrs_bin; tauto|done..|].
    cbn [put_at]. rewrite lookup_alter_eq, Ha'. eexists. split; [reflexivity|]. split; [by apply (node_is_same n')|]. cbn [left right with_right]. split.
    + rewrite E1. eapply shape_agree; [exact Hl|]. intros c Hc. rewrite lookup_alter_ne by (by intros ->). apply Hag, addrs_bin. tauto.
    + eapply shape_agree; [exact Hv|]. intros c Hc. rewrite lookup_alter_ne; [done|]. intros ->. apply (Hd c Hc), addrs_bin. tauto.
  - assert (exists pl0, fills h pl0 r pl l1 l2 /\ exists n, h !! a = Some n /\ n.(right) = pl0) as (pl0 & [Hin HF'] & n0 & Ha0 & <-) by (by destruct r).
    rewrite Ha in Ha0. injection Ha0 as <-. split; [destruct Hin as (c & Hc & Hin); exists c; split; [done|]; apply addrs_bin; tauto|]. intros h' q v Hag Hv Hd.
    destruct (HF' h' q v) as (r' & Hs & Er); [intros c Hc; apply Hag, addrs_bin; tauto|done|intros c Hc H; apply (Hd c Hc), addrs_bin; tauto|].
    exists (Bin l a x r'). cbn [shape inorder]. rewrite Er, <- !app_assoc. split; [|done]. split; [done|].
    destruct (core_node h h' a n x) as (n' & Ha' & Hn' & E1 & E2); [apply Hag, addrs_bin; tauto|done..|].
    exists n'. rewrite (put_at_outside _ _ _ _ _ Hin Har). split; [done|]. split; [done|]. rewrite E1, E2. split; [|done].
    eapply shape_agree; [exact Hl|]. intros c Hc. rewrite (put_at_outside _ _ _ _ _ Hin) by (by apply Hlr). apply Hag, addrs_bin. tauto.
Qed.

Lemma node_compare n x ls r : node_is n x -> Forall label_ok ls ->
  dname_lab_cmp (wire ls ++ r) (1 + zlen ls) n.(dname) n.(labs) = Ok (ord ls x, 1 + shared ls x).
Proof. intros [[r' ->] -> Hx] Hl. by rewrite dname_lab_cmp_wire. Qed.

Lemma last_or_app {A} (l1 l2 : list A) x : list.last (l1 ++ x :: l2) = match list.last l2 with Some y => Some y | None => Some x end.
Proof. destruct l2 as [|y l2 _] using rev_ind; [by rewrite last_snoc|]. by rewrite last_snoc, app_comm_cons, app_assoc, last_snoc. Qed.

Section Search.
Context (ls : name) (r : list Z) (w : encoder) (Hls : Forall label_ok ls).

Lemma search_loop_ok t : forall fuel p prev closen close, shape w.(e_nodes) p t -> NoDup (addrs t) ->
  StronglySorted (fun x y => ord x y < 0) (map snd (inorder t)) -> (length (inorder t) < fuel)%nat ->
  exists res, search_loop fuel (wire ls ++ r) (1 + zlen ls) p prev closen close w = Ok (res, w) /\ search_end w.(e_nodes) p t prev closen close ls res.
Proof.
  induction t as [|l IHl a x rt IHr]; intros fuel p prev closen close Hs Hnd Hst Hf.
  - cbn in Hs. subst p. exists (false, close, closen, Some prev). split; [by destruct fuel|]. by exists [], [], prev.
  - pose proof Hs as Hs0. destruct Hs as (-> & n & Ha & Hn & Hl & Hr). destruct (nodup_bin _ _ _ _ Hnd) as (N1 & N2 & _).
    cbn [inorder] in Hst, Hf. rewrite map_app in Hst. cbn [map snd] in Hst. rewrite length_app in Hf. cbn [length] in Hf.
    apply StronglySorted_app in Hst as (S0 & S1 & [S2 S3]%StronglySorted_inv). destruct fuel as [|fuel]; [lia|]. cbn [search_loop].
    assert (load_node a w = Ok (n, w)) as E by (unfold load_node; by rewrite Ha). rewrite (st_bind_ok _ _ _ _ _ E). clear E. cbv beta.
    assert (lift (dname_lab_cmp (wire ls ++ r) (1 + zlen ls) n.(dname) n.(labs)) w = Ok ((ord ls x, 1 + shared ls x), w)) as E
      by (unfold lift; by rewrite (node_compare n x ls r Hn Hls)). rewrite (st_bind_ok _ _ _ _ _ E). clear E. cbv beta iota.
    assert (Forall (fun e => ord e.2 x < 0) (inorder l)) as Bl.
    { apply Forall_forall. intros e He. apply S0; [by apply list_elem_of_fmap_2|by left]. }
    assert (Forall (fun e => ord x e.2 < 0) (inorder rt)) as Br by (by apply Forall_map in S3).
    destruct (Z.eqb_spec (ord ls x) 0) as [E0|E0]; [|zcase].
    + exists (true, Some a, 1 + shared ls x, None). split; [done|]. exists a, x. split; [done|]. split; [|done]. cbn [inorder]. apply elem_of_app. right. by left.
    + destruct (IHl fuel n.(left) (AtLeft a) closen close Hl N1 S1) as ([[[[] q] m] pl] & E & He); [lia|..].
      { eexists. split; [exact E|]. destruct He as (a' & x' & -> & Hin & H0). exists a', x'. split; [done|]. split; [|done]. cbn [inorder]. apply elem_of_app. by left. }
      eexists. split; [exact E|]. destruct He as (l1 & l2 & pl' & -> & El & F1 & F2 & Hlast & Hpl). exists l1, (l2 ++ (a, x) :: inorder rt), pl'. split; [done|].
      cbn [inorder]. rewrite El, <- app_assoc. split; [done|]. split; [done|]. split; [|split; [done|]].
      * apply Forall_app. split; [done|]. constructor; [done|]. eapply Forall_impl; [exact Br|]. intros e He. cbn in He. apply (cmp_lt_le ord ls x e.2); lia.
      * apply fills_left; [done..|]. destruct l; [|by eexists; split; [exact Hpl|]; exists n]. cbn in El. by destruct l1, l2.
    + assert (ord x ls < 0) as Hx by (apply (cmp_sym (cmp := ord)); lia).
      destruct (IHr fuel n.(right) (AtRight a) (1 + shared ls x) (Some a) Hr N2 S2) as ([[[[] q] m] pl] & E & He); [lia|..].
      { eexists. split; [exact E|]. destruct He as (a' & x' & -> & Hin & H0'). exists a', x'. split; [done|]. split; [|done]. cbn [inorder]. apply elem_of_app. right. by right. }
      eexists. split; [exact E|]. destruct He as (l1 & l2 & pl' & -> & El & F1 & F2 & Hlast & Hpl). exists (inorder l ++ (a, x) :: l1), l2, pl'. split; [done|].
      cbn [inorder]. rewrite El, <- app_assoc. split; [done|]. split; [|split; [done|split]].
      * apply Forall_app. split; [|by constructor]. eapply Forall_impl; [exact Bl|]. intros e He. cbn in He. apply (cmp_lt_le ord e.2 x ls); lia.
      * rewrite last_or_app. destruct (list.last l1) as [[b y]|]; [done|]. by destruct Hlast as [-> ->].
      * apply fills_right; [done..|]. destruct rt; [|by eexists; split; [exact Hpl|]; exists n]. cbn in El. by destruct l1, l2.
Qed.
End Search.

(** ** The invariant *)

(** [p] is the node for [y], NULL for the root. *)
Definition linked (L : list (addr * name)) (p : ptr) (y : name) : Prop :=
  match y with [] => p = None | _ => exists a y', p = Some a /\ (a, y') ∈ L /\ lower_name y' = lower_name y end.

Section Tree.
(** What holds of the offset that is stored for a name. *)
Context (ok : Z -> name -> Prop).

Definition entry (h : heap) (L : list (addr * name)) (e : addr * name) : Prop :=
  exists n l y, h !! e.1 = Some n /\ node_is n e.2 /\ e.2 = l :: y /\ linked L n.(parent) y /\ n.(offset) <= PTR_MAX_OFFSET /\ ok n.(offset) e.2.

Abbreviation lt := (fun x y : name => ord x y < 0).

Record tree_ok (w : encoder) (L : list (addr * name)) : Prop := {
  to_shape : exists t, shape w.(e_nodes) w.(e_tree) t /\ inorder t = L;
  to_sorted : StronglySorted lt (map snd L);
  to_nodup : NoDup (map fst L);
  to_entries : Forall (entry w.(e_nodes) L) L;
}.

Lemma entry_in w L a x : tree_ok w L -> (a, x) ∈ L -> entry w.(e_nodes) L (a, x).
Proof. intros H Hin. pose proof (to_entries _ _ H) as F. rewrite Forall_forall in F. by apply F. Qed.

(** *** The ancestors of a node *)

Lemma linked_above L p l y : linked L p y -> y <> [] -> exists a y', p = Some a /\ (a, y') ∈ L /\ zlen y' = zlen y /\ above y' (l :: y).
Proof.
  intros H Hy. destruct y as [|l' y]; [done|]. destruct H as (a & y' & -> & Hin & E). exists a, y'. split; [done|]. split; [done|]. split.
  - by apply lower_zlen.
  - eapply above_lower; [exact E|]. apply (above_end [l]).
Qed.

(** There is one of every length: no more than there are nodes. *)
Lemma ancestor_lengths w L : tree_ok w L -> forall k a x, (a, x) ∈ L -> (k <= length x)%nat -> (0 < k)%nat -> exists e, e ∈ L /\ length e.2 = k.
Proof.
  intros H k a x Hin Hk H0. remember (length x) as j eqn:Ej. revert a x Hin Hk Ej. induction j as [|j IH]; intros a x Hin Hk Ej; [lia|].
  destruct (decide (k = S j)) as [->|Hne]; [by exists (a, x)|].
  destruct (entry_in w L a x H Hin) as (n & l & y & _ & _ & Ex & Hl & _). cbn in Ex. subst x. injection Ej as Ej.
  destruct (linked_above L _ l y Hl) as (b & y' & _ & Hin' & Hz & _); [by intros ->; cbn in Ej; lia|]. apply (IH b y' Hin'); unfold zlen in Hz; lia.
Qed.

Lemma name_size w L a x : tree_ok w L -> (a, x) ∈ L -> (length x <= size w.(e_nodes))%nat.
Proof.
  intros H Hin. destruct (to_shape _ _ H) as (t & Ht & Et). transitivity (length L).
  - assert (seq 1 (length x) ⊆+ map (fun e => length e.2) L) as Hs.
    { apply NoDup_submseteq; [apply NoDup_seq|]. intros k [H1 H2]%elem_of_seq. destruct (ancestor_lengths w L H k a x Hin) as (e & He & <-); [lia..|].
      by apply (list_elem_of_fmap_2 (fun e : addr * name => length e.2)). }
    apply submseteq_length in Hs. by rewrite length_seq, length_map in Hs.
  - rewrite <- Et. eapply shape_size; [exact Ht|]. rewrite Et. apply H.
Qed.

Lemma ancestor_loop_ok w L m : tree_ok w L -> 1 <= m -> forall fuel a x, (a, x) ∈ L -> m <= zlen x -> (length x < fuel)%nat ->
  exists b y, ancestor_loop fuel (Some a) (1 + m) w = Ok (Some b, w) /\ (b, y) ∈ L /\ zlen y = m /\ above y x.
Proof.
  intros H Hm. induction fuel as [|fuel IH]; intros a x Hin Hl Hf; [lia|]. cbn [ancestor_loop].
  destruct (entry_in w L a x H Hin) as (n & l & y & Ha & Hn & Ex & Hp & _). cbn in Ha, Hn, Ex. subst x.
  assert (load_node a w = Ok (n, w)) as E by (unfold load_node; by rewrite Ha). rewrite (st_bind_ok _ _ _ _ _ E). cbv beta. rewrite (ni_labs _ _ Hn). zcase.
  - destruct (linked_above L _ l y Hp) as (b & y' & -> & Hin' & Hz & Hab); [intros ->; change (zlen [l]) with 1 in *; lia|]. rewrite zlen_cons in *.
    destruct (IH b y' Hin') as (c & z & E' & Hc & Hz' & Hab'); [lia|cbn in Hf; unfold zlen in Hz; lia|].
    exists c, z. split; [exact E'|]. split; [done|]. split; [done|]. by eapply above_trans.
  - exists a, (l :: y). split; [done|]. split; [done|]. split; [lia|]. apply (above_end []).
Qed.

(** *** The lookup *)

(** [q] is the node for the longest name above [ls] in the tree, if there is one. *)
Definition best (L : list (addr * name)) (ls : name) (q : ptr) : Prop :=
  match q with
  | Some a => exists x, (a, x) ∈ L /\ above x ls /\ forall e, e ∈ L -> above e.2 ls -> zlen e.2 <= zlen x
  | None => forall e, e ∈ L -> ~ above e.2 ls
  end.

(** [pl] is where the names up to [ls] go that are not in the tree. *)
Definition opens (w : encoder) (L : list (addr * name)) (ls : name) (pl : option place) : Prop :=
  exists l1 l2 pl' t, pl = Some pl' /\ L = l1 ++ l2 /\ Forall (fun e => ord e.2 ls < 0) l1 /\ Forall (fun e => ord ls e.2 < 0) l2 /\
    shape w.(e_nodes) w.(e_tree) t /\ inorder t = L /\ match t with Leaf => pl' = AtRoot | _ => fills w.(e_nodes) w.(e_tree) t pl' l1 l2 end.

Definition complete (L : list (addr * name)) (ls : name) (q : ptr) : Prop :=
  ls = [] \/ exists a x, q = Some a /\ (a, x) ∈ L /\ zlen x = zlen ls.

(** What is above [ls] is above the last name before it. *)
Lemma above_close (l1 l2 : list (addr * name)) a x ls e : StronglySorted lt (map snd (l1 ++ l2)) -> Forall (fun e => ord e.2 ls < 0) l1 -> Forall (fun e => ord ls e.2 < 0) l2 ->
  list.last l1 = Some (a, x) -> e ∈ l1 ++ l2 -> above e.2 ls -> zlen e.2 <= shared ls x.
Proof.
  intros Hs F1 F2 Hlast [He|He]%elem_of_app Ha.
  - apply last_Some in Hlast as (l1' & ->). assert (ord e.2 x <= 0) as Hx.
    { rewrite map_app in Hs. apply StronglySorted_app_1_l in Hs. rewrite map_app in Hs. apply elem_of_app in He as [He|He%list_elem_of_singleton].
      - apply Z.lt_le_incl. apply (StronglySorted_app_1_elem_of lt _ _ e.2 x Hs); [by apply list_elem_of_fmap_2|by left].
      - subst e. cbn [snd]. by rewrite (cmp_refl ord x). }
    apply Forall_app in F1 as [_ F1]. apply Forall_inv in F1. cbn in F1. apply (above_shared e.2 ls x Ha). apply (above_convex e.2 x ls); [done|lia|done].
  - rewrite Forall_forall in F2. specialize (F2 e He). cbn in F2. apply above_ord in Ha. apply (cmp_sym (cmp := ord)) in F2. lia.
Qed.

Lemma entry_nonempty w L e : tree_ok w L -> e ∈ L -> 1 <= zlen e.2.
Proof. intros H He. destruct e as [a x]. destruct (entry_in w L a x H He) as (n & l & y & _ & _ & Ex & _). cbn in *. rewrite Ex, zlen_cons. pose proof (zlen_nonneg y). lia. Qed.

Lemma e_lookup_ok w L ls r : tree_ok w L -> Forall label_ok ls ->
  exists q pl, compress_tree_lookup (wire ls ++ r) (1 + zlen ls) w = Ok ((q, pl), w) /\ best L ls q /\ (complete L ls q \/ opens w L ls pl).
Proof.
  intros H Hls. unfold compress_tree_lookup. pose proof (zlen_nonneg ls). zcase.
  { exists None, None. split; [done|]. split; [|left; left; apply zlen_0_inv; lia]. intros e He Ha%above_length. pose proof (entry_nonempty w L e H He). lia. }
  unfold compress_tree_search. destruct (to_shape _ _ H) as (t & Ht & Et). rewrite st_bind_assoc, (st_bind_ok _ _ _ (e_tree w) w) by done. cbv beta.
  destruct (search_loop_ok ls r w Hls t (S (size w.(e_nodes))) w.(e_tree) AtRoot 0 None Ht) as ([[[found q] m] pl] & E & Hend);
    [rewrite Et; apply H|rewrite Et; apply H|pose proof (shape_size _ _ _ Ht ltac:(rewrite Et; apply H)); lia|].
  rewrite (st_bind_ok (with_nodes_fuel _) _ w _ w E). cbv beta iota. destruct found.
  - destruct Hend as (a & x & -> & Hin & Hx). rewrite Et in Hin. exists (Some a), pl. split; [done|]. apply ord_lower in Hx.
    assert (zlen x = zlen ls) as Hz by (symmetry; by apply lower_zlen).
    split; [|left; right; by exists a, x]. exists x. split; [done|]. split; [eapply above_lower; [symmetry; exact Hx|]; apply (above_end [])|].
    intros e _ Ha%above_length. lia.
  - destruct Hend as (l1 & l2 & pl' & -> & El & F1 & F2 & Hlast & Hfill). rewrite Et in El.
    assert (opens w L ls (Some pl')) as Ho by (exists l1, l2, pl', t; done).
    assert (forall e, e ∈ L -> above e.2 ls -> exists a x, list.last l1 = Some (a, x) /\ zlen e.2 <= shared ls x) as Hclose.
    { intros e He Ha. destruct (list.last l1) as [[a x]|] eqn:E1.
      - exists a, x. split; [done|]. apply (above_close l1 l2 a x ls e); try done; rewrite <- El; [apply H|done].
      - apply last_None in E1 as ->. cbn in El. subst L. rewrite El in He. rewrite Forall_forall in F2. specialize (F2 e He). cbn in F2. apply above_ord in Ha. apply (cmp_sym (cmp := ord)) in F2. lia. }
    zcase.
    + destruct (list.last l1) as [[a x]|] eqn:E1; [|lia]. destruct Hlast as [-> ->].
      assert ((a, x) ∈ L) as Hin by (rewrite El; apply elem_of_app; left; by apply last_Some_elem_of).
      destruct (shared_le ls x) as [Hle Hle'].
      destruct (ancestor_loop_ok w L (shared ls x) H ltac:(lia) (S (size w.(e_nodes))) a x Hin) as (b & y & E' & Hb & Hz & Hab); [lia|pose proof (name_size w L a x H Hin); lia|].
      rewrite (st_bind_ok (with_nodes_fuel _) _ w _ w E'). exists (Some b), (Some pl'). split; [done|]. split; [|by right]. exists y. split; [done|]. split.
      * by apply (shared_above ls x).
      * intros e He Ha. destruct (Hclose e He Ha) as (a' & x' & E2 & Hl). injection E2 as <- <-. lia.
    + exists None, (Some pl'). split; [done|]. split; [|by right]. intros e He Ha. destruct (Hclose e He Ha) as (a & x & E1 & Hl). rewrite E1 in Hlast. destruct Hlast as [-> ->].
      pose proof (entry_nonempty w L e H He). lia.
Qed.
End Tree.
