(* ===== verification/EncodeStore.v ===== *)
(** * Encoding replies: names that are added to the tree

    A name that is written is stored with those names above it that were not in the tree:
    as a vine, which is hung where the search for the name ended. *)

From stdpp Require Import sorting.
From S2P Require Import Prelude Sbuffer Dname DnameCompare RbtreeAdd PathOrder NameTree Msgparse PackedRrset Msgreply Msgencode EncodeTree.

(** A vine at [q], below [par]: each name has one label more than the one before. *)
Fixpoint vine (h : heap) (q par : ptr) (V : list (addr * name)) : Prop :=
  match V with
  | [] => q = None
  | (a, x) :: V' =>
      q = Some a /\ exists n, h !! a = Some n /\ node_is n x /\ n.(left) = None /\ n.(parent) = par /\
        (match V' with (_, y) :: _ => exists l, y = l :: x | [] => True end) /\ vine h n.(right) (Some a) V'
  end.

Lemma vine_agree h h' V : forall q par, vine h q par V -> (forall a, a ∈ map fst V -> h' !! a = h !! a) -> vine h' q par V.
Proof.
  induction V as [|[a x] V IH]; intros q par; [done|]. cbn [vine map fst]. intros (-> & n & Ha & Hn & Hl & Hp & Hx & Hv) H. split; [done|].
  exists n. rewrite H by (by left). split; [done|]. do 4 (split; [done|]). apply IH; [done|]. intros b Hb. apply H. by right.
Qed.

Lemma vine_shape h V : forall q par, vine h q par V -> exists t, shape h q t /\ inorder t = V.
Proof.
  induction V as [|[a x] V IH]; intros q par; cbn [vine]; [intros ->; by exists Leaf|]. intros (-> & n & Ha & Hn & Hl & Hp & Hx & Hv).
  destruct (IH _ _ Hv) as (t & Ht & Et). exists (Bin Leaf a x t). cbn [shape inorder app]. rewrite Et. split; [|done]. split; [done|]. exists n. rewrite Hl. done.
Qed.

(** The vine under another name. *)
Lemma vine_reparent h a x V par p : vine h (Some a) par ((a, x) :: V) -> a ∉ map fst V -> vine (alter (with_parent p) a h) (Some a) p ((a, x) :: V).
Proof.
  cbn [vine]. intros (_ & n & Ha & Hn & Hl & Hp & Hx & Hv) Hna. split; [done|]. rewrite lookup_alter_eq, Ha. exists (with_parent p n). split; [done|].
  split; [by apply (node_is_same n)|]. split; [done|]. split; [done|]. split; [done|]. eapply vine_agree; [exact Hv|]. intros b Hb. apply lookup_alter_ne. by intros ->.
Qed.

(** All of the names end in the first. *)
Lemma vine_names h V : forall q par a x, vine h q par ((a, x) :: V) -> Forall (fun e => exists p, e.2 = p ++ x) ((a, x) :: V).
Proof.
  induction V as [|[b y] V IH]; intros q par a x (_ & n & _ & _ & _ & _ & Hx & Hv); constructor; try by exists []; try done.
  { constructor. }
  destruct Hx as [l ->]. specialize (IH _ _ _ _ Hv). eapply Forall_impl; [exact IH|]. intros e (p & ->). exists (p ++ [l]). by rewrite <- app_assoc.
Qed.

Abbreviation lt := (fun x y : name => ord x y < 0).

Lemma vine_sorted h V : forall q par, vine h q par V -> StronglySorted lt (map snd V).
Proof.
  induction V as [|[a x] V IH]; intros q par; [constructor|]. intros H. pose proof H as (_ & n & _ & _ & _ & _ & Hx & Hv). cbn [map snd]. constructor; [by eapply IH|].
  destruct V as [|[b y] V]; [constructor|]. destruct Hx as [l ->]. apply Forall_map. eapply Forall_impl; [exact (vine_names _ _ _ _ _ _ Hv)|].
  intros e (p & ->). cbn [snd]. apply above_strict; [change (l :: x) with ([l] ++ x); rewrite app_assoc; apply above_end|]. rewrite zlen_app, zlen_cons. pose proof (zlen_nonneg p). lia.
Qed.

Section Store.
Context (ok : Z -> name -> Prop).
Abbreviation tree_ok := (tree_ok ok).
Abbreviation entry := (entry ok).

(** The offset of every name that is stored can be pointed to, and is right. *)
Definition placed (h : heap) (V : list (addr * name)) : Prop :=
  Forall (fun e => exists n, h !! e.1 = Some n /\ n.(offset) <= PTR_MAX_OFFSET /\ ok n.(offset) e.2) V.

Lemma vine_entries h L V : forall q par, vine h q par V -> placed h V -> (forall e, e ∈ V -> e ∈ L) ->
  match V with (_, x) :: _ => exists l y, x = l :: y /\ linked L par y | [] => True end -> Forall (entry h L) V.
Proof.
  induction V as [|[a x] V IH]; intros q par; [constructor|]. intros (_ & n & Ha & Hn & Hl & Hp & Hx & Hv) [Hpl Hpl']%Forall_cons Hsub (l & y & -> & Hlk). constructor.
  - destruct Hpl as (n' & Ha' & Ho & Hok). cbn in Ha', Hok. rewrite Ha in Ha'. injection Ha' as <-. exists n, l, y. cbn [fst snd]. rewrite Hp. done.
  - apply (IH _ _ Hv Hpl'); [intros e He; apply Hsub; by right|]. destruct V as [|[b z] V]; [done|]. destruct Hx as [l' ->]. exists l', (l :: y). split; [done|].
    exists a, (l :: y). split; [done|]. split; [apply Hsub; by left|done].
Qed.

(** ** The loop *)

(** The offset of the end [s] of [ls], when [ls] is at [off]. *)
Definition offset_of (ls : name) (off : Z) (s : name) : Z := off + (zlen (wire ls) - zlen (wire s)).

Lemma placed_agree h h' V : placed h V -> (forall a, a ∈ map fst V -> offset <$> h' !! a = offset <$> h !! a) -> placed h' V.
Proof.
  intros HV H. apply Forall_forall. intros e He. unfold placed in HV. rewrite Forall_forall in HV. destruct (HV e He) as (n & Hn & H1 & H2).
  pose proof (H e.1 ltac:(by apply list_elem_of_fmap_2)) as E. rewrite Hn in E. destruct (h' !! e.1) as [n'|]; [|done]. injection E as E. exists n'. by rewrite E.
Qed.

Lemma placed_app h V1 V2 : placed h (V1 ++ V2) <-> placed h V1 /\ placed h V2.
Proof. apply Forall_app. Qed.

(** The heap with a new node on top of the vine. *)
Lemma vine_push h prev V x r off a : vine h prev None V -> NoDup (map fst V) -> a ∉ dom h -> Forall label_ok x ->
  match V with (_, y) :: _ => exists l, y = l :: x | [] => True end ->
  exists h', (forall pk t m, (match prev with
     | Some q => modify_node a (with_right (Some q));; modify_node q (with_parent (Some a))
     | None => mret tt end : E unit) (mk_encoder pk t (<[a := mk_node None None None (wire x ++ r) (1 + zlen x) off]> h) m) = Ok (tt, mk_encoder pk t h' m)) /\
    vine h' (Some a) None ((a, x) :: V) /\ (exists n, h' !! a = Some n /\ n.(offset) = off) /\ dom h' = {[a]} ∪ dom h /\
    (forall b, b <> a -> b ∉ map fst V -> h' !! b = h !! b) /\ forall b, b <> a -> offset <$> h' !! b = offset <$> h !! b.
Proof.
  intros HV Hnd Ha Hx Hhd. set (n := mk_node None None None (wire x ++ r) (1 + zlen x) off).
  assert (node_is n x) as Hn by (split; [by exists r|done..]).
  destruct V as [|[q y] V].
  - cbn in HV. subst prev. exists (<[a := n]> h). split; [done|]. split; [|split; [|split; [|split]]].
    + cbn [vine]. split; [done|]. exists n. by rewrite lookup_insert_eq.
    + exists n. by rewrite lookup_insert_eq.
    + by rewrite dom_insert_L.
    + intros b Hb _. by rewrite lookup_insert_ne.
    + intros b Hb. by rewrite lookup_insert_ne.
  - pose proof HV as (-> & nq & Hq & _). assert (q <> a) as Hqa by (intros ->; by apply Ha, elem_of_dom_2 in Hq || (apply Ha; by apply elem_of_dom_2 in Hq)).
    cbn [map fst] in Hnd. apply NoDup_cons in Hnd as [Hq' Hnd].
    set (h1 := <[a := with_right (Some q) n]> h). assert (h1 !! q = Some nq) as Hq1 by (unfold h1; by rewrite lookup_insert_ne).
    exists (alter (with_parent (Some a)) q h1). split; [|split; [|split; [|split; [|split]]]].
    + intros pk t m. unfold modify_node, mbind, ST_bind. cbn [e_nodes]. rewrite lookup_insert_eq, insert_insert_eq. fold h1. cbn [e_nodes]. rewrite Hq1.
      cbn [e_pkt e_tree e_memory]. do 3 f_equal. apply map_eq. intros b. destruct (decide (b = q)) as [->|]; [rewrite lookup_insert_eq, lookup_alter_eq; by rewrite Hq1|].
      by rewrite lookup_insert_ne, lookup_alter_ne by done.
    + assert (vine h1 (Some q) None ((q, y) :: V)) as HV1.
      { eapply vine_agree; [exact HV|]. intros b Hb. unfold h1. apply lookup_insert_ne. intros <-. apply Ha. clear - HV Hb.
        revert HV Hb. generalize (Some q) (@None addr) ((q, y) :: V). clear. intros p par W. revert p par. induction W as [|[c z] W IH]; intros p par; [set_solver|].
        cbn [vine map fst]. intros (_ & n0 & Hc & _ & _ & _ & _ & HW) [->|Hb]%elem_of_cons; [by apply elem_of_dom_2 in Hc|by eapply IH]. }
      pose proof (vine_reparent h1 q y V None (Some a) HV1 Hq') as HV2. cbn [vine]. split; [done|]. exists (with_right (Some q) n).
      rewrite lookup_alter_ne by done. unfold h1 at 1. rewrite lookup_insert_eq. split; [done|]. split; [by apply (node_is_same n)|]. do 2 (split; [done|]). split; [exact Hhd|]. exact HV2.
    + exists (with_right (Some q) n). rewrite lookup_alter_ne by done. unfold h1. by rewrite lookup_insert_eq.
    + rewrite dom_alter_L. unfold h1. by rewrite dom_insert_L.
    + intros b Hb Hbv. cbn [map fst] in Hbv. rewrite lookup_alter_ne by (intros ->; apply Hbv; by left). unfold h1. by rewrite lookup_insert_ne.
    + intros b Hb. destruct (decide (b = q)) as [->|]; [rewrite lookup_alter_eq; unfold h1; rewrite lookup_insert_ne by done; by destruct (h !! q)|].
      rewrite lookup_alter_ne by done. unfold h1. by rewrite lookup_insert_ne.
Qed.

Lemma e_alloc_ok pk t h m : exists b m', malloc m = (b, m') /\ e_alloc (mk_encoder pk t h m) = Ok (b, mk_encoder pk t h m') /\ (mallocs_ok m -> b = true /\ mallocs_ok m').
Proof. destruct (malloc m) as [b m'] eqn:E. exists b, m'. split; [done|]. unfold e_alloc. cbn. rewrite E. split; [done|]. by eapply malloc_ok. Qed.

Lemma newnode_ok pk t h m x l off : exists q m', compress_tree_newnode x l off (mk_encoder pk t h m) = Ok (q, mk_encoder pk t (match q with Some a => <[a := mk_node None None None x l off]> h | None => h end) m') /\
  (mallocs_ok m -> q <> None /\ mallocs_ok m') /\ (forall a, q = Some a -> a ∉ dom h).
Proof.
  unfold compress_tree_newnode. destruct (e_alloc_ok pk t h m) as (b & m' & _ & E & Hm). rewrite (st_bind_ok _ _ _ _ _ E). cbv beta. destruct b; cbn [negb].
  - eexists (Some _), m'. split; [reflexivity|]. split; [by intros [_ H]%Hm|]. intros a [= <-]. apply is_fresh.
  - eexists None, m'. split; [reflexivity|]. split; [by intros [H _]%Hm|done].
Qed.

Lemma store_loop_ok pk t n : forall s r off h m prev V, (n <= length s)%nat -> Forall label_ok s -> 0 <= off -> off + zlen (wire s) < 2 ^ 64 ->
  vine h prev None V -> NoDup (map fst V) -> (forall a, a ∈ map fst V -> a ∈ dom h) -> placed h V ->
  match V with (_, y) :: _ => exists l, y = l :: s | [] => True end ->
  (forall p x, s = p ++ x -> zlen s - Z.of_nat n < zlen x -> ok (offset_of s off x) x) ->
  exists res h' m', store_loop n (wire s ++ r) (1 + zlen s) off prev (mk_encoder pk t h m) = Ok (res, mk_encoder pk t h' m') /\
    (mallocs_ok m -> mallocs_ok m') /\ (forall a, a ∈ dom h -> a ∉ map fst V -> h' !! a = h !! a) /\
    match res with
    | inl v => (v = 0 /\ ~ mallocs_ok m) \/ v = 1
    | inr q => exists V', vine h' q None (V' ++ V) /\ NoDup (map fst (V' ++ V)) /\ Forall (fun e => e.1 ∉ dom h) V' /\ placed h' (V' ++ V) /\
        Forall (fun e => exists p, s = p ++ e.2) V' /\ match V' with (_, x) :: _ => zlen x = zlen s - Z.of_nat n + 1 | [] => n = 0%nat end
    end.
Proof.
  induction n as [|n IH]; intros s r off h m prev V Hn Hs Ho Ho' HV Hnd Hdom Hpl Hhd Hok; cbn [store_loop].
  { exists (inr prev), h, m. do 3 (split; [done|]). exists []. do 4 (split; [done|]). by split; [constructor|]. }
  zcase; [exists (inl 1), h, m; do 3 (split; [done|]); by right|].
  destruct (newnode_ok pk t h m (wire s ++ r) (1 + zlen s) off) as (q & m' & E & Hm & Hfr). rewrite (st_bind_ok _ _ _ _ _ E). cbv beta.
  destruct q as [a|]; [|exists (inl 0), h, m'; split; [done|]; split; [by intros [Hx _]%Hm|]; split; [done|]; left; split; [done|]; by intros [Hx _]%Hm].
  specialize (Hfr a eq_refl). assert (a ∉ map fst V) as HaV by (intros Hx%Hdom; done).
  destruct (vine_push h prev V s r off a HV Hnd Hfr Hs Hhd) as (h1 & E1 & HV1 & (n1 & Hn1 & Hoff) & Hd1 & Hag & Hoa).
  rewrite (st_bind_ok _ _ _ _ _ (E1 pk t m')). cbv beta. destruct s as [|l s]; [cbn in Hn; lia|]. pose proof Hs as [Hl Hs']%Forall_cons.
  rewrite wire_cons. cbn [app]. rewrite (st_bind_ok (lift _) _ _ (zlen l, l ++ wire s ++ r) (mk_encoder pk t h1 m')) by (cbn; by rewrite app_assoc). cbv beta iota.
  assert (lift (advance (zlen l) (l ++ wire s ++ r)) (mk_encoder pk t h1 m') = Ok (wire s ++ r, mk_encoder pk t h1 m')) as E2 by (unfold lift; by rewrite advance_app).
  rewrite (st_bind_ok _ _ _ _ _ E2). cbv beta. rewrite zlen_wire_cons in Ho'. pose proof (zlen_wire_pos s). pose proof (zlen_nonneg l).
  rewrite wrap_small by (unfold in_u; lia). replace (1 + zlen (l :: s) - 1) with (1 + zlen s) by (rewrite zlen_cons; lia).
  assert (forall p x, s = p ++ x -> offset_of s (off + (zlen l + 1)) x = offset_of (l :: s) off x) as Hof by (intros p x _; unfold offset_of; rewrite zlen_wire_cons; lia).
  destruct (IH s r (off + (zlen l + 1)) h1 m' (Some a) ((a, l :: s) :: V)) as (res & h' & m'' & E3 & Hm3 & Hh & Hres); try done.
  - cbn in Hn. lia.
  - lia.
  - lia.
  - cbn [map fst]. by apply NoDup_cons.
  - cbn [map fst]. intros b [->|Hb]%elem_of_cons; rewrite Hd1; [set_solver|]. apply Hdom in Hb. set_solver.
  - constructor; [|apply (placed_agree h); [done|]; intros b Hb; apply Hoa; by intros ->].
    exists n1. cbn [fst snd]. split; [done|]. rewrite Hoff. split; [lia|]. specialize (Hok [] (l :: s) eq_refl ltac:(lia)). unfold offset_of in Hok. by rewrite Z.sub_diag, Z.add_0_r in Hok.
  - by exists l.
  - intros p x -> Hx. rewrite (Hof p x eq_refl). apply (Hok (l :: p)); [done|]. rewrite zlen_cons. lia.
  - exists res, h', m''. split; [exact E3|]. split; [intros Hx; by apply Hm3, Hm|]. split.
    + intros b Hb HbV. assert (b <> a) by (by intros ->). rewrite Hh; [by apply Hag|rewrite Hd1; set_solver|]. cbn [map fst]. rewrite elem_of_cons. tauto.
    + destruct res as [v|q]; [destruct Hres as [[-> Hv]|]; [left; split; [done|]; intros Hx; by apply Hv, Hm|by right]|].
      destruct Hres as (V' & Q1 & Q2 & Q3 & Q4 & Q6 & Q5). exists (V' ++ [(a, l :: s)]). rewrite <- app_assoc. cbn [app]. do 2 (split; [done|]). split; [|split; [done|split]].
      * apply Forall_app. split; [eapply Forall_impl; [exact Q3|]; intros e He; rewrite Hd1 in He; set_solver|]. by repeat constructor.
      * apply Forall_app. split; [eapply Forall_impl; [exact Q6|]; intros e (p & ->); by exists (l :: p)|]. constructor; [by exists []|done].
      * destruct V' as [|[b x] V']; cbn [app]; [subst n; lia|]. rewrite zlen_cons. lia.
Qed.

(** ** The names are hung into the tree *)

(** The fields that entries depend on. *)
Definition attrs (n : compress_tree_node) := (n.(dname), n.(labs), n.(parent), n.(offset)).

Lemma linked_sub L L' p y : (forall e, e ∈ L -> e ∈ L') -> linked L p y -> linked L' p y.
Proof. intros H. destruct y as [|l y]; [done|]. intros (a & y' & -> & Hin & E). exists a, y'. split; [done|]. split; [by apply H|done]. Qed.

Lemma entry_agree (h h' : heap) L L' e : entry h L e -> attrs <$> h' !! e.1 = attrs <$> h !! e.1 -> (forall e, e ∈ L -> e ∈ L') -> entry h' L' e.
Proof.
  intros (n & l & y & Hn & Hi & Ex & Hl & Ho & Hok) E Hsub. rewrite Hn in E. destruct (h' !! e.1) as [n'|] eqn:Hn'; [|done]. cbn in E. injection E as E1 E2 E3 E4.
  exists n', l, y. split; [done|]. split; [by apply (node_is_same n)|]. split; [done|]. rewrite E3, E4. split; [by eapply linked_sub|done].
Qed.

Lemma in_dom w L e : tree_ok w L -> e ∈ L -> e.1 ∈ dom w.(e_nodes).
Proof. intros H He. destruct e as [a x]. destruct (entry_in ok w L a x H He) as (n & _ & _ & Ha & _). by apply elem_of_dom_2 in Ha. Qed.

(** More nodes do not matter. *)
Lemma tree_ok_more pk pk' t h h' m m' L : tree_ok (mk_encoder pk t h m) L -> (forall a, a ∈ dom h -> h' !! a = h !! a) -> tree_ok (mk_encoder pk' t h' m') L.
Proof.
  intros H Hag. pose proof (fun e => in_dom _ L e H) as Hd. pose proof (to_entries _ _ _ H) as HE. destruct (to_shape _ _ _ H) as (t0 & Ht & Et). split; try apply H.
  - exists t0. split; [|done]. eapply shape_agree; [exact Ht|]. intros a Ha. rewrite Et in Ha. apply list_elem_of_fmap_1 in Ha as (e & -> & He). cbn. rewrite Hag; [done|]. by apply (Hd e).
  - apply Forall_forall. intros e He. rewrite Forall_forall in HE. eapply entry_agree; [by apply HE| |done]. cbn. rewrite Hag; [done|]. by apply (Hd e).
Qed.

Lemma e_modify_ok pk t h m a f : a ∈ dom h -> modify_node a f (mk_encoder pk t h m) = Ok (tt, mk_encoder pk t (alter f a h) m).
Proof.
  intros [n Ha]%elem_of_dom. unfold modify_node. cbn. rewrite Ha. do 3 f_equal. apply map_eq. intros b.
  destruct (decide (b = a)) as [->|]; [rewrite lookup_insert_eq, lookup_alter_eq; by rewrite Ha|by rewrite lookup_insert_ne, lookup_alter_ne by done].
Qed.

Lemma put_ok pk t h m pl p : match pl with AtRoot => True | AtLeft a | AtRight a => a ∈ dom h end ->
  put (Some pl) p (mk_encoder pk t h m) = Ok (tt, mk_encoder pk (match pl with AtRoot => p | _ => t end) (put_at pl p h) m).
Proof. destruct pl; intros H; [done|by apply e_modify_ok..]. Qed.

(** The names of the vine go between those before and after [ls]. *)
Lemma between l1 l2 V ls c h q par : StronglySorted lt (map snd (l1 ++ l2)) -> Forall (fun e : addr * name => ord e.2 ls < 0) l1 -> Forall (fun e : addr * name => ord ls e.2 < 0) l2 ->
  (forall e, e ∈ l1 ++ l2 -> above e.2 ls -> zlen e.2 <= c) -> vine h q par V -> Forall (fun e => c < zlen e.2 /\ above e.2 ls) V ->
  (forall a x, list.last l1 = Some (a, x) -> shared ls x <= c) ->
  StronglySorted lt (map snd (l1 ++ V ++ l2)).
Proof.
  intros Hs F1 F2 Hc HV FV Hlast. rewrite map_app in Hs. apply StronglySorted_app in Hs as (S0 & S1 & S2). pose proof (vine_sorted _ _ _ _ HV) as SV.
  rewrite Forall_forall in F1, F2, FV.
  assert (forall x v, x ∈ l1 -> v ∈ V -> ord x.2 v.2 < 0) as HlV.
  { intros x v Hx Hv. destruct (FV v Hv) as [Hv1 Hv2]. destruct (Z.lt_ge_cases (ord x.2 v.2) 0) as [|Hge]; [done|exfalso].
    assert (ord v.2 x.2 <= 0) as Hvx by (destruct (Z.lt_trichotomy (ord v.2 x.2) 0) as [|[|H]]; [lia..|apply (cmp_sym (cmp := ord)) in H; lia]).
    destruct (list.last l1) as [[a y]|] eqn:E1; [|apply last_None in E1 as ->; set_solver].
    apply last_Some in E1 as (l1' & ->). specialize (Hlast a y eq_refl). assert (ord x.2 y <= 0) as Hxy.
    { apply elem_of_app in Hx as [Hx|Hx%list_elem_of_singleton]; [|subst x; cbn; by rewrite (cmp_refl ord y)]. rewrite map_app in S1.
      apply Z.lt_le_incl, (StronglySorted_app_1_elem_of lt _ _ x.2 y S1); [by apply list_elem_of_fmap_2|by left]. }
    assert (ord y ls < 0) as Hy by (apply (F1 (a, y)); apply elem_of_app; right; by left).
    assert (ord v.2 y <= 0) as Hvy by (by apply (cmp_trans (cmp := ord) _ x.2)). pose proof (above_convex v.2 y ls Hvy ltac:(lia) Hv2) as Hab.
    apply (above_shared v.2 ls y Hv2) in Hab. lia. }
  rewrite !map_app. apply StronglySorted_app. split; [|split; [done|]].
  - intros x z Hx [Hz|Hz]%elem_of_app; [|by apply S0]. apply list_elem_of_fmap_1 in Hx as (e & -> & He). apply list_elem_of_fmap_1 in Hz as (v & -> & Hv). by apply HlV.
  - apply StronglySorted_app. split; [|done]. intros v z Hv Hz. apply list_elem_of_fmap_1 in Hv as (e & -> & He). apply list_elem_of_fmap_1 in Hz as (e2 & -> & He2).
    destruct (FV e He) as [_ Hab]. apply above_ord in Hab. specialize (F2 e2 He2). apply (cmp_le_lt ord e.2 ls e2.2); [exact Hab|exact F2].
Qed.

(** The labels of the name that [q] is the node of. *)
Definition depth (L : list (addr * name)) (q : ptr) (c : Z) : Prop :=
  match q with Some a => exists x, (a, x) ∈ L /\ c = zlen x | None => c = 0 end.

Lemma best_depth w L ls q : tree_ok w L -> best L ls q -> exists c, depth L q c /\ 0 <= c <= zlen ls /\ (forall e, e ∈ L -> above e.2 ls -> zlen e.2 <= c) /\
  forall p l y, ls = p ++ l :: y -> zlen y = c -> linked L q y.
Proof.
  intros H. destruct q as [a|]; cbn [best].
  - intros (x & Hin & Ha & Hmax). exists (zlen x). split; [by exists x|]. split; [pose proof (above_length _ _ Ha); pose proof (zlen_nonneg x); lia|]. split; [done|].
    intros p l y Ey Hz. pose proof (entry_nonempty ok w L (a, x) H Hin) as Hx. cbn in Hx. destruct y as [|l' y]; [change (zlen []) with 0 in Hz; lia|].
    exists a, x. split; [done|]. split; [done|]. destruct (above_split _ _ Ha) as (p' & s' & Es & El). pose proof (lower_zlen _ _ El) as Hzs.
    rewrite Ey in Es. change (p ++ l :: l' :: y) with (p ++ [l] ++ l' :: y) in Es. rewrite app_assoc in Es.
    apply app_inj_2 in Es as [_ <-]; [done|]. unfold zlen in *. lia.
  - intros Hno. exists 0. split; [done|]. pose proof (zlen_nonneg ls). split; [lia|]. split; [intros e He Ha; by destruct (Hno e He)|].
    intros p l y _ Hz. by apply zlen_0_inv in Hz as ->.
Qed.

Lemma depth_fun w L q c c' : tree_ok w L -> depth L q c -> depth L q c' -> c = c'.
Proof.
  intros H. destruct q as [a|]; cbn; [|congruence]. intros (x & Hx & ->) (y & Hy & ->). pose proof (to_nodup _ _ _ H) as Hn.
  destruct (entry_in ok w L a x H Hx) as (n & _ & _ & Ha & Hi & _). destruct (entry_in ok w L a y H Hy) as (n' & _ & _ & Ha' & Hi' & _). cbn in *.
  rewrite Ha in Ha'. injection Ha' as <-. destruct Hi as [_ H1 _], Hi' as [_ H2 _]. lia.
Qed.

(** The vine [V] at [q'] is hung into the tree. *)
Lemma hang_ok pk t h h' m m' L ls q pl c a x V : tree_ok (mk_encoder pk t h m) L -> opens (mk_encoder pk t h m) L ls pl ->
  depth L q c -> (forall e, e ∈ L -> above e.2 ls -> zlen e.2 <= c) -> (forall p l y, ls = p ++ l :: y -> zlen y = c -> linked L q y) ->
  (forall a, a ∈ dom h -> h' !! a = h !! a) -> vine h' (Some a) None ((a, x) :: V) -> NoDup (map fst ((a, x) :: V)) ->
  Forall (fun e => e.1 ∉ dom h) ((a, x) :: V) -> placed h' ((a, x) :: V) -> zlen x = c + 1 -> (exists p, ls = p ++ x) -> Forall (fun e => above e.2 ls) ((a, x) :: V) ->
  exists w', (put pl (Some a);; modify_node a (with_parent q);; mret 1) (mk_encoder pk t h' m') = Ok (1, w') /\ w'.(e_pkt) = pk /\ w'.(e_memory) = m' /\ exists L', tree_ok w' L' /\ forall e, e ∈ L -> e ∈ L'.
Proof.
  intros H (l1 & l2 & pl' & t0 & -> & EL & F1 & F2 & Ht & Et & Hfill) Hd Hmax Hlk Hag HV Hnd Hnew Hpl Hx Hsuf Hab. cbn [e_nodes e_tree] in *.
  pose proof (fun e => in_dom _ L e H) as HLd. cbn [e_nodes] in HLd.
  assert (forall b, b ∈ map fst L -> b ∈ dom h) as HLd' by (intros b Hb; apply list_elem_of_fmap_1 in Hb as (e & -> & He); by apply HLd).
  assert (forall b, b ∈ map fst ((a, x) :: V) -> b ∉ dom h) as HVd by (intros b Hb; apply list_elem_of_fmap_1 in Hb as (e & -> & He); rewrite Forall_forall in Hnew; by apply Hnew).
  set (hv := alter (with_parent q) a h'). assert (vine hv (Some a) q ((a, x) :: V)) as HV'.
  { eapply vine_reparent; [exact HV|]. cbn [map fst] in Hnd. by apply NoDup_cons in Hnd as [? _]. }
  assert (a ∉ dom h) as Ha by (apply HVd; by left).
  assert (forall b, b ∈ dom h -> hv !! b = h !! b) as Hhv by (intros b Hb; unfold hv; rewrite lookup_alter_ne by (by intros ->); by apply Hag).
  destruct (vine_shape _ _ _ _ HV') as (v & Hv & Ev). set (L' := l1 ++ ((a, x) :: V) ++ l2).
  assert (exists t', shape (put_at pl' (Some a) hv) (match pl' with AtRoot => Some a | _ => t end) t' /\ inorder t' = L' /\
    (forall b, b ∈ map fst ((a, x) :: V) -> put_at pl' (Some a) hv !! b = hv !! b) /\ match pl' with AtRoot => True | AtLeft b | AtRight b => b ∈ dom h end) as (t' & Ht' & Et' & Hput & Hpl').
  { destruct (decide (t0 = Leaf)) as [->|Hne].
    - subst pl'. cbn in Et. subst L. symmetry in Et. apply app_eq_nil in Et as [-> ->]. exists v. unfold L'. rewrite app_nil_r. done.
    - assert (fills h t t0 pl' l1 l2) as [Hin Hf] by (by destruct t0).
      destruct (Hf hv (Some a) v) as (t' & Hs' & E'); [intros b Hb; rewrite Et in Hb; by rewrite Hhv by (by apply HLd')|done|intros b Hb Hb'; rewrite Ev in Hb; rewrite Et in Hb'; apply HVd in Hb; by apply Hb, HLd'|].
      destruct Hin as (b & Hpb & Hb). rewrite Et in Hb. exists t'. split; [destruct Hpb as [-> | ->]; exact Hs'|]. split; [by rewrite E', Ev|].
      split; [intros d Hdd; apply (put_at_outside _ _ _ t0); [exists b; split; [done|by rewrite Et]|rewrite Et; intros Hd'; apply HVd in Hdd; by apply Hdd, HLd']|].
      destruct Hpb as [-> | ->]; by apply HLd'. }
  assert (match pl' with AtRoot => True | AtLeft b | AtRight b => b ∈ dom h' end) as Hpl''.
  { destruct pl' as [|b|b]; [done|..]; apply elem_of_dom; rewrite Hag by done; by apply elem_of_dom. }
  rewrite (st_bind_ok _ _ _ _ _ (put_ok pk t h' m' pl' (Some a) Hpl'')). cbv beta.
  assert (alter (with_parent q) a (put_at pl' (Some a) h') = put_at pl' (Some a) hv) as Ecomm.
  { unfold hv. destruct pl' as [|b|b]; [done|..]; apply alter_alter_ne; intros ->; by apply Ha. }
  assert (a ∈ dom (put_at pl' (Some a) h')) as Hda.
  { destruct HV as (_ & n & Hn & _). apply elem_of_dom_2 in Hn. destruct pl'; cbn; by rewrite ?dom_alter_L. }
  rewrite (st_bind_ok _ _ _ _ _ (e_modify_ok _ _ _ _ _ _ Hda)), Ecomm. cbv beta. eexists. split; [reflexivity|]. do 2 (split; [done|]).
  assert (forall e, e ∈ L -> e ∈ L') as Hsub by (intros e; rewrite EL; unfold L'; rewrite !elem_of_app; tauto). exists L'. split; [|exact Hsub].
  assert (vine (put_at pl' (Some a) hv) (Some a) q ((a, x) :: V)) as HVf by (by apply (vine_agree hv)).
  split; cbn [e_nodes e_tree].
  - by exists t'.
  - rewrite EL in Hmax. apply (between l1 l2 _ ls c (put_at pl' (Some a) hv) (Some a) q); try done; [rewrite <- EL; apply H| |].
    + pose proof (vine_names _ _ _ _ _ _ HV') as FN. apply Forall_forall. intros e He. rewrite Forall_forall in FN, Hab. split; [|by apply Hab].
      destruct (FN e He) as (p & ->). rewrite zlen_app. pose proof (zlen_nonneg p). lia.
    + intros b y Hlast. destruct (Z.le_gt_cases (shared ls y) 0) as [H0|H0]; [destruct q as [d|]; cbn in Hd; [destruct Hd as (z & _ & ->); pose proof (zlen_nonneg z); lia|lia]|].
      assert ((b, y) ∈ L) as Hby by (rewrite EL; apply elem_of_app; left; by apply last_Some_elem_of).
      destruct (shared_le ls y) as [_ Hle]. destruct (ancestor_loop_ok ok _ _ (shared ls y) H ltac:(lia) (S (length y)) b y Hby) as (d & z & _ & Hz & Hzl & Hza); [lia..|].
      rewrite <- Hzl. apply (Hmax (d, z)); [by rewrite <- EL|]. by apply (shared_above ls y).
  - unfold L'. rewrite !map_app. pose proof (to_nodup _ _ _ H) as HnL. rewrite EL, map_app in HnL. apply NoDup_app in HnL as (N1 & N2 & N3).
    rewrite EL, map_app in HLd'. apply NoDup_app. split; [done|]. split; [|apply NoDup_app; split; [done|]; split; [|done]].
    + intros b Hb [Hb'|Hb']%elem_of_app; [apply HVd in Hb'; apply Hb', HLd'; apply elem_of_app; by left|by apply (N2 b)].
    + intros b Hb Hb'. apply HVd in Hb. apply Hb, HLd', elem_of_app. by right.
  - assert (Forall (entry (put_at pl' (Some a) hv) L') ((a, x) :: V)) as HEV.
    { apply (vine_entries _ L' _ _ _ HVf); [|intros e He; unfold L'; rewrite !elem_of_app; tauto|].
      - apply (placed_agree h'); [done|]. intros b Hb. rewrite Hput by done. unfold hv. destruct (decide (b = a)) as [->|]; [rewrite lookup_alter_eq; by destruct (h' !! a)|by rewrite lookup_alter_ne].
      - destruct Hsuf as (p & Ep). destruct x as [|l y]; [change (zlen []) with 0 in Hx; destruct q as [d|]; cbn in Hd; [destruct Hd as (z & _ & ->); pose proof (zlen_nonneg z); lia|lia]|].
        exists l, y. split; [done|]. eapply linked_sub; [exact Hsub|]. apply (Hlk p l y Ep). rewrite zlen_cons in Hx. lia. }
    pose proof (to_entries _ _ _ H) as HE. cbn [e_nodes] in HE. assert (Forall (entry (put_at pl' (Some a) hv) L') L) as HEL.
    { apply Forall_forall. intros e He. rewrite Forall_forall in HE. eapply entry_agree; [by apply HE| |done]. rewrite <- (Hhv e.1) by (by apply HLd).
      destruct pl' as [|b|b]; cbn [put_at]; [done|..]; (destruct (decide (e.1 = b)) as [->|]; [rewrite lookup_alter_eq; by destruct (hv !! b)|by rewrite lookup_alter_ne]). }
    rewrite EL in HEL. apply Forall_app in HEL as [HE1 HE2]. unfold L'. apply Forall_app. split; [done|]. apply Forall_app. done.
Qed.

(** A name that was written at [off] is stored; [q] and [pl] are from the lookup. *)
Lemma store_ok pk t h m L ls r off q pl : tree_ok (mk_encoder pk t h m) L -> best L ls q -> (complete L ls q \/ opens (mk_encoder pk t h m) L ls pl) ->
  Forall label_ok ls -> 0 <= off -> off + zlen (wire ls) < 2 ^ 64 ->
  (forall p x c, ls = p ++ x -> depth L q c -> c < zlen x -> ok (offset_of ls off x) x) ->
  exists v w', compress_tree_store (wire ls ++ r) (1 + zlen ls) off q pl (mk_encoder pk t h m) = Ok (v, w') /\ w'.(e_pkt) = pk /\
    (mallocs_ok m -> mallocs_ok w'.(e_memory)) /\ ((v = 0 /\ ~ mallocs_ok m) \/ (v = 1 /\ exists L', tree_ok w' L' /\ forall e, e ∈ L -> e ∈ L')).
Proof.
  intros H Hbest Hplace Hls Ho Ho' Hok. destruct (best_depth _ _ _ _ H Hbest) as (c & Hd & Hc & Hmax & Hlk). unfold compress_tree_store.
  assert ((match q with Some a => n ← load_node a; mret (1 + zlen ls - n.(labs)) | None => mret (1 + zlen ls - 1) end : E Z) (mk_encoder pk t h m) = Ok (zlen ls - c, mk_encoder pk t h m)) as E1.
  { destruct q as [a|]; cbn in Hd; [|subst c; unfold mret, ST_ret; do 2 f_equal; lia]. destruct Hd as (x & Hx & ->).
    destruct (entry_in ok _ L a x H Hx) as (n & _ & _ & Ha & Hi & _). cbn in Ha, Hi. rewrite (st_bind_ok _ _ _ n (mk_encoder pk t h m)) by (unfold load_node; cbn; by rewrite Ha).
    unfold mret, ST_ret. rewrite (ni_labs _ _ Hi). do 2 f_equal. lia. }
  rewrite (st_bind_ok _ _ _ _ _ E1). cbv beta. rewrite leb_true by lia. cbn [e_assert]. rewrite (st_bind_ok _ _ _ tt (mk_encoder pk t h m)) by done. cbv beta.
  destruct (store_loop_ok pk t (Z.to_nat (zlen ls - c)) ls r off h m None []) as (res & h' & m' & E2 & Hm & Hag & Hres); try done.
  { unfold zlen in *. lia. }
  { by constructor. }
  { cbn. set_solver. }
  { constructor. }
  { intros p x Ex Hx. apply (Hok p x c); [done|done|lia]. }
  rewrite (st_bind_ok _ _ _ _ _ E2). cbv beta.
  assert (forall a, a ∈ dom h -> h' !! a = h !! a) as Hag' by (intros a Ha; apply Hag; [done|set_solver]).
  pose proof (tree_ok_more pk pk t h h' m m' L H Hag') as H'. destruct res as [v|q'].
  - exists v, (mk_encoder pk t h' m'). split; [done|]. split; [done|]. split; [done|]. destruct Hres as [?| ->]; [by left|]. right. split; [done|]. by exists L.
  - destruct Hres as (V & HV & Hnd & Hnew & Hpl & Hends & Hhd). rewrite app_nil_r in *. destruct V as [|[a x] V].
    + cbn in HV. subst q'. exists 1, (mk_encoder pk t h' m'). split; [done|]. split; [done|]. split; [done|]. right. split; [done|]. by exists L.
    + pose proof HV as (-> & _). assert (zlen x = c + 1) as Hx' by lia. clear Hhd. pose proof (Forall_inv Hends) as Hsuf. cbn in Hsuf.
      destruct Hplace as [[->|(b & y & -> & Hb & Hz)]|Hop].
      { destruct Hsuf as (p & [-> ->]%eq_sym%app_eq_nil). change (zlen []) with 0 in *. lia. }
      { assert (c = zlen y) by (apply (depth_fun _ _ _ _ _ H Hd); by exists y). destruct Hsuf as (p & Ep). apply (f_equal zlen) in Ep. rewrite zlen_app in Ep. pose proof (zlen_nonneg p). lia. }
      assert (Forall (fun e => above e.2 ls) ((a, x) :: V)) as Hab.
      { eapply (Forall_impl (fun e => exists p, ls = p ++ e.2)); [|intros e (p & ->); apply above_end]. exact Hends. }
      destruct (hang_ok pk t h h' m m' L ls q pl c a x V) as (w' & E3 & Hp & Hm' & HL); try done.
      exists 1, w'. split; [exact E3|]. split; [done|]. split; [by rewrite Hm'|]. by right.
Qed.
End Store.
