(* ===== verification/EncodeNames.v ===== *)
(** * Encoding replies: names

    A name is written as the labels that are not in the packet yet, with a pointer to the
    rest of it; what is written spells the name, up to the case of its letters, and so do
    the names that are stored for later. *)

From S2P Require Import Prelude Sbuffer Dname DnameCompare DnamePkt DnameOut PathOrder NameTree RrDef Msgparse MsgPkt PackedRrset Msgreply Msgencode EncodeTree EncodeStore.

(** The message up to [p] without its header, and without the two bytes of a length at [hole] (0: none). *)
Definition solid (hole p i : Z) : Prop := 12 <= i < p /\ ~ (hole <= i < hole + 2).

(** The name stands at [off], up to case; a label comes before every pointer. *)
Definition spelled (d : list Z) (S : Z -> Prop) (off : Z) (ls : name) : Prop :=
  exists k ls' e, chain d S k off ls' e /\ lower_name ls' = lower_name ls /\ k + 1 <= zlen ls.

(** The name was written at [off], in [e] bytes. *)
Definition written (d : list Z) (S : Z -> Prop) (off e : Z) (ls : name) : Prop :=
  exists k ls', chain d S k off ls' e /\ lower_name ls' = lower_name ls /\ k <= zlen ls.

Lemma spelled_agree d d' (S S' : Z -> Prop) off ls : spelled d S off ls -> agree S d d' -> (forall i, S i -> S' i) -> spelled d' S' off ls.
Proof. intros (k & ls' & e & Hc & H) HA HS. exists k, ls', e. split; [by eapply chain_agree|done]. Qed.

Lemma written_agree d d' (S S' : Z -> Prop) off e ls : written d S off e ls -> agree S d d' -> (forall i, S i -> S' i) -> written d' S' off e ls.
Proof. intros (k & ls' & Hc & H) HA HS. exists k, ls'. split; [by eapply chain_agree|done]. Qed.

Lemma solid_more hole p p' i : p <= p' -> solid hole p i -> solid hole p' i.
Proof. unfold solid. lia. Qed.

Lemma tree_ok_mono (ok ok' : Z -> name -> Prop) w w' L : tree_ok ok w L -> (forall o x, ok o x -> ok' o x) -> w'.(e_nodes) = w.(e_nodes) -> w'.(e_tree) = w.(e_tree) -> tree_ok ok' w' L.
Proof.
  intros [H1 H2 H3 H4] Hok En Et. split; rewrite ?En, ?Et; try done. eapply Forall_impl; [exact H4|].
  intros e (n & l & y & E1 & E2 & E3 & E4 & E5 & E6). exists n, l, y. do 5 (split; [done|]). by apply Hok.
Qed.

Lemma depth_best L ls q c e : NoDup (map fst L) -> best L ls q -> depth L q c -> e ∈ L -> above e.2 ls -> zlen e.2 <= c.
Proof.
  intros Hn Hb Hd He Ha. destruct q as [a|]; cbn in Hb, Hd; [|by destruct (Hb e He)]. destruct Hb as (x & Hx & _ & Hm), Hd as (y & Hy & ->).
  assert (x = y) as <-; [|by apply Hm]. apply list_elem_of_lookup in Hx as (i & Hi), Hy as (j & Hj).
  assert (i = j) as <-; [|rewrite Hi in Hj; by injection Hj]. apply (NoDup_lookup (map fst L) i j a Hn); by rewrite list_lookup_fmap, ?Hi, ?Hj.
Qed.

Section Writes.
Context (b0 : sldns_buffer).
Abbreviation lim := (b0.(_limit)).
Definition buffer_at (d : list Z) (p : Z) : sldns_buffer := set_pos (set_data b0 d) p.
Definition encoder_at (w : encoder) (d : list Z) (p : Z) : encoder := mk_encoder (buffer_at d p) w.(e_tree) w.(e_nodes) w.(e_memory).
Abbreviation at_d := buffer_at.
Abbreviation at_e := encoder_at.
Abbreviation good d p := (buf_ok (at_d d p) d).

(** The bytes before [p] are kept. *)
Abbreviation kept p := (agree (fun i => 0 <= i < p)).

(** *** Single writes *)

Lemma at_e_self w d p : w.(e_pkt) = at_d d p -> w = at_e w d p.
Proof. intros E. unfold encoder_at. rewrite <- E. by destruct w. Qed.

Lemma good_range d p : good d p -> 0 <= p <= lim /\ lim <= zlen d /\ zlen d < 2 ^ 63.
Proof. intros []. cbn in *. lia. Qed.

Lemma e_good_move d p p' : good d p -> 0 <= p' <= lim -> good d p'.
Proof. intros H Hp. pose proof (set_pos_ok _ _ p' H Hp) as H'. by destruct b0. Qed.

Lemma write_at_d d p x r : good d p -> bytes_ok x -> p + zlen x <= lim ->
  sldns_buffer_write (at_d d p) (x ++ r) (zlen x) = Ok (at_d (spliced d p x) (p + zlen x)) /\ good (spliced d p x) (p + zlen x).
Proof. intros H Hx Hl. exact (write_append (at_d d p) d x r H Hx Hl). Qed.

Lemma e_write_ok w d p x r n : good d p -> bytes_ok x -> n = zlen x -> p + zlen x <= lim -> e_write (x ++ r) n (at_e w d p) = Ok (tt, at_e w (spliced d p x) (p + zlen x)).
Proof. intros H Hx -> Hl. destruct (write_at_d d p x r H Hx Hl) as [E _]. unfold to_pkt, p_write. cbn [e_pkt encoder_at]. by rewrite E. Qed.

Lemma e_write_all w d p x n : good d p -> bytes_ok x -> n = zlen x -> p + zlen x <= lim -> e_write x n (at_e w d p) = Ok (tt, at_e w (spliced d p x) (p + zlen x)).
Proof. intros H Hx Hn Hl. pose proof (e_write_ok w d p x [] n H Hx Hn Hl) as E. by rewrite app_nil_r in E. Qed.

Lemma good_splice d p x : good d p -> bytes_ok x -> p + zlen x <= lim -> good (spliced d p x) (p + zlen x).
Proof. intros H Hx Hl. by destruct (write_at_d d p x [] H Hx Hl). Qed.

Lemma e_write_u8_ok w d p v : good d p -> is_byte v -> p + 1 <= lim -> e_write_u8 v (at_e w d p) = Ok (tt, at_e w (spliced d p [v]) (p + 1)).
Proof. intros H Hv Hl. destruct (write_u8_append (at_d d p) d v H Hv Hl) as [E _]. unfold to_pkt, p_write_u8. cbn [e_pkt encoder_at]. by rewrite E. Qed.

Lemma e_write_u16_ok w d p v : good d p -> in_u 16 v -> p + 2 <= lim -> e_write_u16 v (at_e w d p) = Ok (tt, at_e w (spliced d p (sldns_write_uint16 v)) (p + 2)).
Proof. intros H Hv Hl. destruct (write_field_spec (at_d d p) d (FU16 v) H Hv Hl) as [E _]. unfold to_pkt, p_write_u16. cbn [e_pkt encoder_at]. cbn [write_field] in E. by rewrite E. Qed.

Lemma e_write_u32_ok w d p v : good d p -> in_u 32 v -> p + 4 <= lim -> e_write_u32 v (at_e w d p) = Ok (tt, at_e w (spliced d p (sldns_write_uint32 v)) (p + 4)).
Proof. intros H Hv Hl. destruct (write_field_spec (at_d d p) d (FU32 v) H Hv Hl) as [E _]. unfold to_pkt, p_write_u32. cbn [e_pkt encoder_at]. cbn [write_field] in E. by rewrite E. Qed.

Lemma e_position_ok w d p : e_position (at_e w d p) = Ok (p, at_e w d p).
Proof. done. Qed.

Lemma e_remaining_ok w d p : good d p -> e_remaining (at_e w d p) = Ok (lim - p, at_e w d p).
Proof. intros H. unfold to_pkt, p_remaining, ask. cbn [e_pkt encoder_at]. by rewrite (remaining_ok _ _ H). Qed.

Lemma e_write_u16_at_ok w d p o v : good d p -> 0 <= o -> o + 2 <= lim -> e_write_u16_at o v (at_e w d p) = Ok (tt, at_e w (spliced d o (sldns_write_uint16 v)) p) /\ good (spliced d o (sldns_write_uint16 v)) p.
Proof.
  intros H Ho Hl. split; [|exact (spliced_ok (at_d d p) d o (sldns_write_uint16 v) H Ho Hl (write_uint16_bytes v))].
  unfold to_pkt, p_write_u16_at, sldns_buffer_write_u16_at. cbn [e_pkt encoder_at]. rewrite (write_raw_at_spec _ d) by done. change (zlen (sldns_write_uint16 v)) with 2. cbn [_limit set_pos set_data buffer_at].
  by rewrite leb_true by lia.
Qed.

Lemma e_skip_ok w d p n : good d p -> 0 <= n -> p + n <= lim -> to_pkt (p_skip n) (at_e w d p) = Ok (tt, at_e w d (p + n)) /\ good d (p + n).
Proof.
  intros H Hn Hl. pose proof (good_range _ _ H). split; [|by apply (e_good_move d p); [|lia]]. unfold to_pkt, p_skip. cbn [e_pkt encoder_at].
  destruct (skip_reads (at_d d p) d _ n (conj H eq_refl)) as [-> _]; [|done]. rewrite zlen_window by done. cbn. lia.
Qed.

Lemma splice_kept d p x : good d p -> p + zlen x <= lim -> kept p d (spliced d p x).
Proof. intros H Hl. pose proof (good_range _ _ H). eapply agree_sub; [apply spliced_agree; lia|]. cbn. lia. Qed.

Lemma splice_has d p x : good d p -> p + zlen x <= lim -> has (spliced d p x) p x.
Proof. intros H Hl. pose proof (good_range _ _ H). apply has_splice; lia. Qed.

Lemma kept_less p p' d d' : kept p d d' -> p' <= p -> kept p' d d'.
Proof. intros H Hp. eapply agree_sub; [exact H|]. cbn. lia. Qed.

Lemma kept_solid hole p d d' : kept p d d' -> agree (solid hole p) d d'.
Proof. intros H. eapply agree_sub; [exact H|]. unfold solid. cbn. lia. Qed.
End Writes.

(** A step on the packet. *)
Ltac estep := first
  [ erewrite st_bind_ok by (apply e_position_ok)
  | erewrite st_bind_ok by (apply e_remaining_ok; eassumption) ]; cbv beta.

Section Names.
Context (b0 : sldns_buffer).
Abbreviation lim := (b0.(_limit)).
Abbreviation at_d := (buffer_at b0).
Abbreviation at_e := (encoder_at b0).
Abbreviation good d p := (buf_ok (at_d d p) d).
Abbreviation kept p := (agree (fun i => 0 <= i < p)).

(** ** The state *)

(** The packet is [d], written up to [p], and the tree has the names [L], which stand in it. *)
Record enc (hole : Z) (d : list Z) (p : Z) (L : list (addr * name)) (w : encoder) : Prop := {
  en_pkt : w.(e_pkt) = at_d d p;
  en_buf : good d p;
  en_pos : 12 <= p;
  en_tree : tree_ok (spelled d (solid hole p)) w L;
}.

(** What is written on leaves what was there. *)
Record onward (p : Z) (d : list Z) (L : list (addr * name)) (w : encoder) (p' : Z) (d' : list Z) (L' : list (addr * name)) (w' : encoder) : Prop := {
  ow_pos : p <= p';
  ow_kept : kept p d d';
  ow_names : forall e, e ∈ L -> e ∈ L';
  ow_mem : mallocs_ok w.(e_memory) -> mallocs_ok w'.(e_memory);
}.

Lemma onward_refl p d L w : onward p d L w p d L w.
Proof. by split. Qed.

Lemma onward_trans p1 d1 L1 w1 p2 d2 L2 w2 p3 d3 L3 w3 : onward p1 d1 L1 w1 p2 d2 L2 w2 -> onward p2 d2 L2 w2 p3 d3 L3 w3 -> onward p1 d1 L1 w1 p3 d3 L3 w3.
Proof.
  intros [A1 A2 A3 A4] [B1 B2 B3 B4]. split; [lia| |auto..]. eapply agree_trans; [exact A2|]. by eapply kept_less.
Qed.

(** It was stopped: the packet is good up to [p]. *)
Definition stopped (p : Z) (d : list Z) (w w' : encoder) : Prop :=
  exists d' p', w'.(e_pkt) = at_d d' p' /\ good d' p' /\ kept p d d' /\ (mallocs_ok w.(e_memory) -> mallocs_ok w'.(e_memory)).

(** So it was, for lack of memory. *)
Definition nomem (p : Z) (d : list Z) (w w' : encoder) : Prop := ~ mallocs_ok w.(e_memory) /\ stopped p d w w'.

(** How a function ends that writes at most [size] bytes: with [Q]; or there is no room for
    [size] bytes; or there is no memory. *)
Definition ends (hole : Z) (d : list Z) (p : Z) (L : list (addr * name)) (w : encoder) (size : Z) (r : Z) (w' : encoder)
  (Q : list Z -> Z -> list (addr * name) -> Prop) : Prop :=
  (r = RETVAL_OK /\ exists d' p' L', enc hole d' p' L' w' /\ onward p d L w p' d' L' w' /\ p' <= p + size /\ Q d' p' L') \/
  (r = RETVAL_TRUNC /\ lim < p + size /\ stopped p d w w') \/
  (r = RETVAL_OUTMEM /\ nomem p d w w').

Lemma enc_at hole d p L w : enc hole d p L w -> w = at_e w d p.
Proof. intros [E _ _ _]. by apply at_e_self. Qed.

Lemma enc_position hole d p L w : enc hole d p L w -> e_position w = Ok (p, w).
Proof. intros [E _ _ _]. unfold to_pkt, p_position, ask. rewrite E. cbn. rewrite <- E. by destruct w. Qed.

Lemma enc_remaining hole d p L w : enc hole d p L w -> e_remaining w = Ok (lim - p, w).
Proof. intros H. rewrite (enc_at _ _ _ _ _ H). by apply e_remaining_ok, H. Qed.

(** Bytes that are not of names. *)
Lemma enc_write hole d p L w x : enc hole d p L w -> bytes_ok x -> p + zlen x <= lim ->
  enc hole (spliced d p x) (p + zlen x) L (at_e w (spliced d p x) (p + zlen x)) /\ onward p d L w (p + zlen x) (spliced d p x) L (at_e w (spliced d p x) (p + zlen x)) /\
  has (spliced d p x) p x.
Proof.
  intros [E B H12 T] Hx Hl. pose proof (zlen_nonneg x). pose proof (splice_kept b0 d p x B Hl) as K. split; [|split; [|by eapply splice_has]].
  - split; [done|by apply good_splice|lia|]. eapply tree_ok_mono; [exact T| |done..]. intros o z Hz. eapply spelled_agree; [exact Hz|by apply kept_solid|]. intros i. apply solid_more. lia.
  - split; [lia|done..].
Qed.

Lemma stopped_at p d w d' p' : good d' p' -> kept p d d' -> stopped p d w (at_e w d' p').
Proof. intros. exists d', p'. done. Qed.

Lemma stopped_onward p d L w p' d' L' w' w'' : onward p d L w p' d' L' w' -> stopped p' d' w' w'' -> stopped p d w w''.
Proof.
  intros [A1 A2 A3 A4] (d2 & p2 & E & B & K & M). exists d2, p2. split; [done|]. split; [done|]. split; [|auto]. eapply agree_trans; [exact A2|]. by eapply kept_less.
Qed.

Lemma nomem_onward p d L w p' d' L' w' w'' : onward p d L w p' d' L' w' -> nomem p' d' w' w'' -> nomem p d w w''.
Proof. intros O [Hm Hs]. split; [|by eapply stopped_onward]. intros Hw. by apply Hm, O. Qed.

Lemma enc_stopped hole d p L w p0 d0 L0 w0 : enc hole d p L w -> onward p0 d0 L0 w0 p d L w -> stopped p0 d0 w0 w.
Proof. intros [E B _ _] [A1 A2 A3 A4]. exists d, p. done. Qed.

(** ** Labels *)

Lemma copy_labels_ok w ls s r : forall d p, good d p -> Forall label_ok ls ->
  if p + zlen (flat ls) <=? lim then copy_labels (length ls) (flat ls ++ s ++ r) (at_e w d p) = Ok (true, at_e w (spliced d p (flat ls)) (p + zlen (flat ls)))
  else exists d' p', copy_labels (length ls) (flat ls ++ s ++ r) (at_e w d p) = Ok (false, at_e w d' p') /\ good d' p' /\ kept p d d'.
Proof.
  induction ls as [|l ls IH]; intros d p B Hls; cbn [length copy_labels].
  - change (flat []) with (@nil Z). pose proof (good_range _ _ _ B). rewrite zlen_nil, Z.add_0_r, leb_true by lia. unfold mret, ST_ret. do 2 f_equal. unfold spliced. rewrite zlen_nil, Z.add_0_r.
    by rewrite app_nil_l, ztake_zdrop.
  - apply Forall_cons in Hls as [[Hl Hb] Hls]. rewrite flat_cons, zlen_cons, zlen_app. pose proof (zlen_nonneg (flat ls)). cbn [app].
    erewrite st_bind_ok by reflexivity. cbv beta iota. estep. zcase.
    { rewrite leb_false by lia. by exists d, p. }
    assert (is_byte (zlen l)) as Hbl by (unfold in_u; lia).
    rewrite (st_bind_ok _ _ _ _ _ (e_write_u8_ok _ w d p (zlen l) B Hbl ltac:(lia))). cbv beta.
    pose proof (good_splice _ d p [zlen l] B ltac:(by constructor) ltac:(change (zlen [zlen l]) with 1; lia)) as B1. change (zlen [zlen l]) with 1 in B1.
    rewrite <- app_assoc. rewrite (st_bind_ok _ _ _ _ _ (e_write_ok _ w _ _ l (flat ls ++ s ++ r) (zlen l) B1 Hb eq_refl ltac:(lia))). cbv beta.
    pose proof (good_splice _ _ _ l B1 Hb ltac:(lia)) as B2. change (p + 1) with (p + zlen [zlen l]) in *. pose proof (good_range _ _ _ B).
    rewrite spliced_spliced in * by (change (zlen [zlen l]) with 1; lia). cbn [app] in *.
    erewrite st_bind_ok by (unfold lift; rewrite advance_app; reflexivity). cbv beta. change (zlen [zlen l]) with 1 in *.
    specialize (IH _ _ B2 Hls). replace (p + 1 + zlen l) with (p + zlen (zlen l :: l)) in * by (rewrite zlen_cons; lia).
    assert (kept p d (spliced d p (zlen l :: l))) as K by (apply (splice_kept b0); [done|rewrite zlen_cons; lia]).
    rewrite zlen_cons in IH. replace (p + (1 + (zlen l + zlen (flat ls)))) with (p + (1 + zlen l) + zlen (flat ls)) by lia. rewrite zlen_cons. zcase.
    + rewrite IH. do 3 f_equal. rewrite <- (zlen_cons (zlen l) l). rewrite spliced_spliced; [done|lia|]. rewrite !zlen_cons. lia.
    + destruct IH as (d' & p' & E & B' & K'). exists d', p'. split; [exact E|]. split; [done|]. eapply agree_trans; [exact K|]. eapply kept_less; [exact K'|lia].
Qed.

Lemma e_load_ok w a n : w.(e_nodes) !! a = Some n -> load_node a w = Ok (n, w).
Proof. intros E. unfold load_node. by rewrite E. Qed.

Lemma zlen_pointer q : zlen (pointer q) = 2.
Proof. done. Qed.

(** The labels of [ls] that are not in the name of the node, and the pointer to that. *)
Lemma write_compressed_ok w d p a n x pre y r : good d p -> w.(e_nodes) !! a = Some n -> node_is n x -> 0 <= n.(offset) <= PTR_MAX_OFFSET ->
  Forall label_ok (pre ++ y) -> zlen y = zlen x -> 1 <= zlen x ->
  let out := flat pre ++ pointer n.(offset) in
  if p + zlen out <=? lim then
    write_compressed_dname (wire (pre ++ y) ++ r) (1 + zlen (pre ++ y)) a (at_e w d p) = Ok (true, at_e w (spliced d p out) (p + zlen out)) /\ bytes_ok out
  else exists d' p', write_compressed_dname (wire (pre ++ y) ++ r) (1 + zlen (pre ++ y)) a (at_e w d p) = Ok (false, at_e w d' p') /\ good d' p' /\ kept p d d'.
Proof.
  intros B Ha Hn Ho Hls Hy Hx out. unfold write_compressed_dname. rewrite (st_bind_ok _ _ _ _ _ (e_load_ok (at_e w d p) a n Ha)). cbv beta.
  rewrite (ni_labs _ _ Hn). pose proof (zlen_nonneg pre). rewrite zlen_app, eqb_false by lia. replace (1 + (zlen pre + zlen y) - (1 + zlen x)) with (zlen pre) by lia.
  rewrite (leb_true 0 (zlen pre)) by lia. rewrite (st_bind_ok (e_assert true) _ _ tt (at_e w d p)) by done. cbv beta. rewrite to_nat_zlen, wire_app, <- app_assoc.
  apply Forall_app in Hls as [Hpre _]. pose proof (copy_labels_ok w pre (wire y) r d p B Hpre) as C.
  assert (zlen out = zlen (flat pre) + 2) as Eo by (unfold out; by rewrite zlen_app, zlen_pointer). pose proof (bytes_ok_flat pre Hpre) as Hb. rewrite Eo.
  destruct (Z.leb_spec (p + zlen (flat pre)) lim) as [Hf|Hf].
  - rewrite (st_bind_ok _ _ _ _ _ C). cbv beta. cbn [negb]. pose proof (good_splice b0 d p (flat pre) B Hb Hf) as B1. estep. destruct (Z.ltb_spec (lim - (p + zlen (flat pre))) 2).
    + rewrite leb_false by lia. exists (spliced d p (flat pre)), (p + zlen (flat pre)). split; [done|]. split; [done|]. by eapply splice_kept.
    + rewrite leb_true by lia. destruct (pointer_ok _ Ho) as (_ & _ & _ & _ & _ & _ & _ & H16 & _).
      rewrite (st_bind_ok _ _ _ _ _ (e_write_u16_ok b0 w _ _ _ B1 H16 ltac:(lia))). cbv beta. split; [|apply Forall_app; split; [done|apply write_uint16_bytes]].
      unfold mret, ST_ret. do 3 f_equal; [|lia]. pose proof (good_range _ _ _ B). unfold out. rewrite <- spliced_spliced; [done|lia|rewrite zlen_pointer; lia].
  - rewrite leb_false by lia. destruct C as (d' & p' & E & B' & K'). rewrite (st_bind_ok _ _ _ _ _ E). cbv beta. cbn [negb]. by exists d', p'.
Qed.

(** ** Storing a name that was written *)

(** The ends of [ls] that are longer than what [q] is the node of, stand in [ls] at [off]. *)
Definition ready (d : list Z) (S : Z -> Prop) (L : list (addr * name)) (ls : name) (q : ptr) (off : Z) : Prop :=
  forall p x c, ls = p ++ x -> depth L q c -> c < zlen x -> spelled d S (offset_of ls off x) x.

Lemma store_names hole d p L w ls r off q pl : enc hole d p L w -> best L ls q -> (complete L ls q \/ opens w L ls pl) -> Forall label_ok ls -> 0 <= off <= p -> zlen (wire ls) <= 255 ->
  ready d (solid hole p) L ls q off ->
  exists v w', compress_tree_store (wire ls ++ r) (1 + zlen ls) off q pl w = Ok (v, w') /\
    ((v = 0 /\ nomem p d w w') \/ (v = 1 /\ exists L', enc hole d p L' w' /\ onward p d L w p d L' w')).
Proof.
  intros [E B H12 T] Hb Hc Hls Ho H255 Hr. destruct w as [pk t h m]. cbn in E. subst pk. pose proof (good_range _ _ _ B).
  destruct (store_ok (spelled d (solid hole p)) (at_d d p) t h m L ls r off q pl T Hb Hc Hls) as (v & w' & E & Ep & Hm & Hv); [lia|lia|done|].
  exists v, w'. split; [exact E|]. destruct Hv as [[-> Hv]|(-> & L' & T' & Hsub)]; [left; split; [done|]; split; [done|by exists d, p]|]. right. split; [done|]. exists L'. split; [by split|by split].
Qed.

(** Something was written that spells the name: [pre] as labels, and the rest somehow. *)
Lemma ready_written hole d p L w d' p' pre y k y' e q : enc hole d p L w -> Forall label_ok (pre ++ y) -> has d' p (flat pre) -> p + zlen (flat pre) <= p' -> (hole + 2 <= p \/ p' <= hole) ->
  chain d' (solid hole p') k (p + zlen (flat pre)) y' e -> lower_name y' = lower_name y -> k <= zlen y -> depth L q (zlen y) ->
  ready d' (solid hole p') L (pre ++ y) q p /\ chain d' (solid hole p') k p (pre ++ y') (zlen (flat pre) + e).
Proof.
  intros [_ B H12 T] Hls Hh Hp Hhole Hch Hlow Hk Hd. apply Forall_app in Hls as [Hpre Hy].
  assert (forall a b, pre = a ++ b -> chain d' (solid hole p') k (p + zlen (flat a)) (b ++ y') (zlen (flat b) + e)) as Hsub.
  { intros a b ->. rewrite flat_app, zlen_app in *. pose proof (zlen_nonneg (flat a)). pose proof (zlen_nonneg (flat b)). apply has_app in Hh as [_ Hh]; [|lia].
    apply Forall_app in Hpre as [_ Hb]. apply chain_flat; [lia|done|done|intros i Hi; unfold solid; lia|by rewrite <- Z.add_assoc]. }
  split; [|specialize (Hsub [] pre eq_refl); change (zlen (flat [])) with 0 in Hsub; by rewrite Z.add_0_r in Hsub].
  intros p0 x c Ex Hc Hx. assert (c = zlen y) as -> by (eapply depth_fun; [exact T|exact Hc|exact Hd]).
  assert (exists b, x = b ++ y /\ pre = p0 ++ b) as (b & -> & ->).
  { apply app_eq_inv in Ex as [(k0 & -> & ->)|(k0 & -> & Ey)]; [by exists k0|]. rewrite Ey, zlen_app in Hx. pose proof (zlen_nonneg k0). lia. }
  rewrite zlen_app in Hx. exists k, (b ++ y'), (zlen (flat b) + e). split; [|split; [|rewrite zlen_app; lia]].
  - replace (offset_of ((p0 ++ b) ++ y) p (b ++ y)) with (p + zlen (flat p0)); [by apply Hsub|]. unfold offset_of. rewrite <- app_assoc, (wire_app p0), zlen_app. lia.
  - unfold lower_name in *. by rewrite !map_app, Hlow.
Qed.

(** What is written for a name of which [q] has the end. *)
Definition out_for (L : list (addr * name)) (w : encoder) (ls : name) (q : ptr) (out : list Z) : Prop :=
  match q with
  | Some a => exists n x pre y, w.(e_nodes) !! a = Some n /\ node_is n x /\ (a, x) ∈ L /\ ls = pre ++ y /\ lower_name y = lower_name x /\ 1 <= zlen x /\
                0 <= n.(offset) <= PTR_MAX_OFFSET /\ out = flat pre ++ pointer n.(offset)
  | None => out = wire ls
  end.

Lemma best_node hole d p L w ls a : enc hole d p L w -> best L ls (Some a) -> exists n x pre y, w.(e_nodes) !! a = Some n /\ node_is n x /\ (a, x) ∈ L /\ ls = pre ++ y /\
  lower_name y = lower_name x /\ 1 <= zlen x /\ 0 <= n.(offset) <= PTR_MAX_OFFSET /\ spelled d (solid hole p) n.(offset) x.
Proof.
  intros [_ _ _ T] (x & Hx & Ha & _). destruct (entry_in _ _ _ _ _ T Hx) as (n & l & y0 & Hn & Hi & Ex & _ & Ho & Hok). cbn in *.
  destruct (above_split _ _ Ha) as (pre & y & -> & Hy). exists n, x, pre, y. do 5 (split; [done|]). split; [rewrite Ex, zlen_cons; pose proof (zlen_nonneg y0); lia|].
  split; [|done]. destruct Hok as (k & ls' & e & Hc & _). by apply chain_start in Hc as (? & _).
Qed.

Lemma zlen_out L w ls q out : Forall label_ok ls -> out_for L w ls q out -> 1 <= zlen out <= zlen (wire ls).
Proof.
  intros Hls H. destruct q as [a|]; cbn in H; [|subst out; pose proof (zlen_wire_pos ls); lia].
  destruct H as (n & x & pre & y & _ & _ & _ & -> & Hy%lower_zlen & Hx & _ & ->). rewrite wire_app, !zlen_app, zlen_pointer. apply Forall_app in Hls as [_ Hls].
  pose proof (wire_labels_bound y Hls). pose proof (zlen_nonneg (flat pre)). unfold zlen in *. lia.
Qed.

Lemma put_name hole d p L w ls q out : enc hole d p L w -> Forall label_ok ls -> best L ls q -> out_for L w ls q out -> p + zlen out <= lim -> hole + 2 <= p ->
  enc hole (spliced d p out) (p + zlen out) L (at_e w (spliced d p out) (p + zlen out)) /\
  onward p d L w (p + zlen out) (spliced d p out) L (at_e w (spliced d p out) (p + zlen out)) /\
  ready (spliced d p out) (solid hole (p + zlen out)) L ls q p /\ written (spliced d p out) (solid hole (p + zlen out)) p (zlen out) ls.
Proof.
  intros H Hls Hb Ho Hl Hhole. pose proof (en_pos _ _ _ _ _ H) as H12.
  assert (bytes_ok out) as Hbytes.
  { destruct q as [a|]; cbn in Ho; [|subst out; by apply bytes_ok_wire]. destruct Ho as (n & x & pre & y & _ & _ & _ & -> & _ & _ & _ & ->).
    apply Forall_app in Hls as [Hp _]. apply Forall_app. split; [by apply bytes_ok_flat|apply write_uint16_bytes]. }
  destruct (enc_write _ _ _ _ _ out H Hbytes Hl) as (H1 & H2 & Hhas). do 2 (split; [done|]). destruct q as [a|].
  - destruct (best_node _ _ _ _ _ _ _ H Hb) as (n0 & x0 & pre0 & y0 & Hn0 & _ & _ & _ & _ & _ & _ & Hsp).
    destruct Ho as (n & x & pre & y & Hn & Hi & Hx & -> & Hy & Hx1 & Hoff & ->). rewrite Hn in Hn0. injection Hn0 as <-.
    destruct (entry_in _ _ _ _ _ (en_tree _ _ _ _ _ H) Hx) as (n1 & _ & _ & Hn1 & _ & _ & _ & _ & k & x' & e & Hc & Hlow & Hk). cbn in Hn1, Hc, Hlow, Hk. rewrite Hn in Hn1. injection Hn1 as <-.
    rewrite zlen_app, zlen_pointer in *. pose proof (zlen_nonneg (flat pre)). apply has_app in Hhas as [G1 G2]; [|lia]. pose proof (lower_zlen _ _ Hy) as Hz.
    set (d' := spliced d p (flat pre ++ pointer n.(offset))) in *. set (p' := p + (zlen (flat pre) + 2)) in *.
    assert (chain d' (solid hole p') (k + 1) (p + zlen (flat pre)) x' 2) as Hc'.
    { apply (chain_ptr _ _ k _ n.(offset) x' e); [lia|done|done|intros i Hi'; unfold solid, p'; lia|]. eapply chain_agree; [exact Hc|apply (kept_solid hole p), H2|intros i; apply solid_more; unfold p'; lia]. }
    destruct (ready_written hole d p L w d' p' pre y (k + 1) x' 2 (Some a) H Hls G1 ltac:(unfold p'; lia) ltac:(lia) Hc' (eq_trans Hlow (eq_sym Hy)) ltac:(cbn in Hk; lia)) as [R C]; [exists x; split; [done|lia]|].
    split; [exact R|]. exists (k + 1), (pre ++ x'). split; [exact C|]. split; [unfold lower_name in *; rewrite !map_app; congruence|rewrite zlen_app; pose proof (zlen_nonneg pre); lia].
  - cbn in Ho. subst out. rewrite wire_flat in Hhas. apply has_app in Hhas as [G1 G2]; [|lia]. rewrite zlen_wire_flat in *. pose proof (zlen_nonneg (flat ls)).
    set (d' := spliced d p (wire ls)) in *. set (p' := p + (zlen (flat ls) + 1)) in *.
    assert (chain d' (solid hole p') 0 (p + zlen (flat ls)) [] 1) as Hc' by (constructor; [lia|done|intros i Hi'; unfold solid, p'; lia]).
    destruct (ready_written hole d p L w d' p' ls [] 0 [] 1 None H) as [R C]; try done; [by rewrite app_nil_r|unfold p'; lia|lia|].
    rewrite !app_nil_r in *. split; [exact R|]. exists 0, ls. split; [exact C|]. split; [done|apply zlen_nonneg].
Qed.

(** *** A name of the rdata *)

Lemma any_dname_ok hole d p L w ls r : enc hole d p L w -> name_ok ls -> hole + 2 <= p ->
  exists ret w', compress_any_dname (wire ls ++ r) (1 + zlen ls) w = Ok (ret, w') /\
    ends hole d p L w (zlen (wire ls)) ret w' (fun d' p' _ => written d' (solid hole p') p (p' - p) ls).
Proof.
  intros H [Hls H255] Hhole. unfold compress_any_dname. pose proof (enc_at _ _ _ _ _ H) as Ew. erewrite st_bind_ok by (by eapply enc_position). cbv beta. pose proof (en_buf _ _ _ _ _ H) as B. pose proof (good_range _ _ _ B).
  destruct (e_lookup_ok _ w L ls r (en_tree _ _ _ _ _ H) Hls) as (q & pl & E & Hb & Hc). rewrite (st_bind_ok _ _ _ _ _ E). cbv beta iota. clear E.
  assert (exists out, out_for L w ls q out /\
    (if p + zlen out <=? lim then
      (match q with Some a => write_compressed_dname (wire ls ++ r) (1 + zlen ls) a | None => rr ← to_pkt (p_dname_write (wire ls ++ r)); mret (negb (rr =? 0)) end : E bool) w =
        Ok (true, at_e w (spliced d p out) (p + zlen out))
    else exists d' p',
      (match q with Some a => write_compressed_dname (wire ls ++ r) (1 + zlen ls) a | None => rr ← to_pkt (p_dname_write (wire ls ++ r)); mret (negb (rr =? 0)) end : E bool) w =
        Ok (false, at_e w d' p') /\ good d' p' /\ kept p d d')) as (out & Ho & Hw).
  { destruct q as [a|].
    - destruct (best_node _ _ _ _ _ _ _ H Hb) as (n & x & pre & y & Hn & Hi & Hx & -> & Hy & Hx1 & Hoff & _). exists (flat pre ++ pointer n.(offset)). split; [by exists n, x, pre, y|].
      pose proof (write_compressed_ok w d p a n x pre y r B Hn Hi Hoff Hls (lower_zlen _ _ Hy) Hx1) as W. rewrite <- Ew in W. cbv zeta in W. destruct (_ <=? _); [by destruct W as [-> _]|exact W].
    - exists (wire ls). split; [done|]. pose proof (dname_buffer_write_wire (at_d d p) d ls r B Hls) as W. cbn [_position _limit buffer_at set_pos set_data] in W.
      rewrite Ew. unfold to_pkt, p_dname_write, mbind, ST_bind. cbn [e_pkt encoder_at]. destruct (_ <=? _).
      + destruct W as [-> _]. done.
      + destruct W as (x & -> & Bx & Hx). exists (spliced d p x), (p + zlen x). split; [done|]. split; [exact Bx|]. by eapply splice_kept. }
  pose proof (zlen_out _ _ _ _ _ Hls Ho) as Hz. destruct (Z.leb_spec (p + zlen out) lim) as [Hf|Hf].
  - rewrite (st_bind_ok _ _ _ _ _ Hw). cbv beta. cbn [negb]. destruct (put_name _ _ _ _ _ _ _ _ H Hls Hb Ho Hf Hhole) as (H1 & H2 & R & Wr).
    destruct (store_names _ _ _ _ _ ls r p q pl H1 Hb) as (v & w' & E & Hv); [destruct Hc as [Hc|Hc]; [by left|by right]|done|pose proof (en_pos _ _ _ _ _ H); lia|done|done|].
    rewrite (st_bind_ok _ _ _ _ _ E). cbv beta. eexists _, w'. split; [reflexivity|]. destruct Hv as [[-> Hm]|(-> & L' & H3 & H4)].
    + right. right. split; [done|]. by eapply nomem_onward.
    + left. split; [done|]. exists (spliced d p out), (p + zlen out), L'. split; [done|]. split; [by eapply onward_trans|]. split; [lia|].
      replace (p + zlen out - p) with (zlen out) by lia. exact Wr.
  - destruct Hw as (d' & p' & Hw & B' & K). rewrite (st_bind_ok _ _ _ _ _ Hw). cbv beta. cbn [negb]. eexists _, _. split; [reflexivity|]. right. left. split; [done|]. split; [lia|].
    by apply stopped_at.
Qed.

(** *** The owner of an RRset *)

(** The ends of [ls] stand in [ls] at [off], those that the tree may not have. *)
Definition placed_from (d : list Z) (S : Z -> Prop) (L : list (addr * name)) (ls : name) (off : Z) : Prop :=
  exists c, (c = 0 \/ exists e, e ∈ L /\ above e.2 ls /\ zlen e.2 = c) /\ forall p x, ls = p ++ x -> c < zlen x -> spelled d S (offset_of ls off x) x.

(** What [*owner_ptr] is for the name [ls], whose first RR is at [off]. *)
Inductive owner_ok (d : list Z) (S : Z -> Prop) (L : list (addr * name)) (p : Z) (ls : name) (off optr : Z) : Prop :=
  | oo_root : ls = [] -> owner_ok d S L p ls off optr
  | oo_ptr q : optr = PTR_CREATE q -> 0 <= q <= PTR_MAX_OFFSET -> spelled d S q ls -> owner_ok d S L p ls off optr
  | oo_first : optr = 0 -> off = p -> owner_ok d S L p ls off optr
  | oo_placed : optr = 0 -> placed_from d S L ls off -> owner_ok d S L p ls off optr.

Lemma placed_ready hole d p L w ls off q : enc hole d p L w -> best L ls q -> placed_from d (solid hole p) L ls off -> ready d (solid hole p) L ls q off.
Proof.
  intros H Hb (c1 & Hc1 & Hp) p0 x c Ex Hd Hx. apply (Hp p0); [done|]. pose proof (to_nodup _ _ _ (en_tree _ _ _ _ _ H)) as Hn.
  destruct Hc1 as [->|(e & He & Ha & <-)]; [destruct q as [a|]; cbn in Hd; [destruct Hd as (y & _ & ->); pose proof (zlen_nonneg y)|]; lia|].
  pose proof (depth_best L ls q c e Hn Hb Hd He Ha). lia.
Qed.

Lemma ready_agree d d' (S S' : Z -> Prop) L ls q off : ready d S L ls q off -> agree S d d' -> (forall i, S i -> S' i) -> ready d' S' L ls q off.
Proof. intros H HA HS p x c Ex Hd Hx. eapply spelled_agree; [by eapply H|done|done]. Qed.

Lemma ready_placed d d' (S S' : Z -> Prop) L L' ls q off : best L ls q -> ready d S L ls q off -> agree S d d' -> (forall i, S i -> S' i) -> (forall e, e ∈ L -> e ∈ L') ->
  placed_from d' S' L' ls off.
Proof.
  intros Hb Hr HA HS HL. assert (exists c, depth L q c /\ (c = 0 \/ exists e, e ∈ L /\ above e.2 ls /\ zlen e.2 = c)) as (c & Hd & Hc).
  { destruct q as [a|]; cbn in *; [|exists 0; split; [done|by left]]. destruct Hb as (x & Hx & Ha & _). exists (zlen x). split; [by exists x|]. right. by exists (a, x). }
  exists c. split; [destruct Hc as [?|(e & He & X)]; [by left|right; exists e; split; [by apply HL|done]]|]. intros p x Ex Hx. eapply spelled_agree; [by eapply Hr|done|done].
Qed.

Lemma owner_agree d d' (S S' : Z -> Prop) L L' p p' ls off optr : owner_ok d S L p ls off optr -> off < p -> agree S d d' -> (forall i, S i -> S' i) -> (forall e, e ∈ L -> e ∈ L') ->
  owner_ok d' S' L' p' ls off optr.
Proof.
  intros [E|q E Hq H|E H|E (c & Hc & H)] Hp HA HS HL; [by apply oo_root| |lia|].
  - apply (oo_ptr _ _ _ _ _ _ _ q); [done..|]. by eapply spelled_agree.
  - apply oo_placed; [done|]. exists c. split; [destruct Hc as [?|(e & He & X)]; [by left|right; exists e; split; [by apply HL|done]]|]. intros p0 x Ex Hx. eapply spelled_agree; [by eapply H|done|done].
Qed.

(** A name that is stored, after its bytes. *)
Lemma put_and_store hole d p L w ls r q pl out off optr : enc hole d p L w -> name_ok ls -> best L ls q -> (complete L ls q \/ opens w L ls pl) -> out_for L w ls q out ->
  p + zlen out <= lim -> hole + 2 <= p -> 0 <= off <= p -> owner_ok d (solid hole p) L p ls off optr -> optr = 0 ->
  exists v w', compress_tree_store (wire ls ++ r) (1 + zlen ls) off q pl (at_e w (spliced d p out) (p + zlen out)) = Ok (v, w') /\
    ((v = 0 /\ nomem p d w w') \/
     (v = 1 /\ exists L', enc hole (spliced d p out) (p + zlen out) L' w' /\ onward p d L w (p + zlen out) (spliced d p out) L' w' /\
       written (spliced d p out) (solid hole (p + zlen out)) p (zlen out) ls /\
       (ls = [] \/ (ready (spliced d p out) (solid hole (p + zlen out)) L ls q off /\ placed_from (spliced d p out) (solid hole (p + zlen out)) L' ls off)))).
Proof.
  intros H [Hls H255] Hb Hc Ho Hf Hhole Hoff Hown Hz. destruct (put_name _ _ _ _ _ _ _ _ H Hls Hb Ho Hf Hhole) as (H1 & H2 & R & Wr). pose proof (zlen_nonneg out).
  assert (ready (spliced d p out) (solid hole (p + zlen out)) L ls q off) as R'.
  { destruct Hown as [->|q0 -> Hq _|_ ->|_ HP]; [|by destruct (pointer_ok q0 Hq) as (_ & _ & _ & _ & _ & _ & _ & _ & Hn)|done|].
    - intros p0 x c Ex Hd Hx. destruct p0, x; try done. change (zlen []) with 0 in Hx. destruct q as [a|]; cbn in Hd; [destruct Hd as (y & _ & ->); pose proof (zlen_nonneg y)|]; lia.
    - eapply ready_agree; [exact (placed_ready _ _ _ _ _ _ _ _ H Hb HP)|apply (kept_solid hole p), H2|intros i; apply solid_more; lia]. }
  destruct (store_names _ _ _ _ _ ls r off q pl H1 Hb Hc Hls) as (v & w' & E & Hv); [lia|done|exact R'|]. exists v, w'. split; [exact E|].
  destruct Hv as [[-> Hv]|(-> & L' & H3 & H4)]; [left; split; [done|by eapply nomem_onward]|]. right. split; [done|]. exists L'. split; [done|]. split; [by eapply onward_trans|]. split; [done|].
  right. split; [done|]. eapply ready_placed; [exact Hb|exact R'|by intros i _|done|apply H4].
Qed.

(** The key has the name [ls]. *)
Definition key_name (key : ub_packed_rrset_key) (ls : name) : Prop :=
  (exists r, key.(rk).(rk_dname) = wire ls ++ r) /\ key.(rk).(rk_dname_len) = zlen (wire ls) /\ name_ok ls.

(** How [compress_owner] ends: the name is written, and there is room for the type, the class, the TTL and the length. *)
Definition owner_ends (hole : Z) (d : list Z) (p : Z) (L : list (addr * name)) (w : encoder) (ls : name) (off : Z) (res : Z * Z) (w' : encoder) : Prop :=
  ends hole d p L w (zlen (wire ls) + 10) res.1 w' (fun d' p' L' =>
    written d' (solid hole p') p (p' - p) ls /\ p < p' <= p + zlen (wire ls) /\ p' + 10 <= lim /\ owner_ok d' (solid hole p') L' p' ls off res.2).

(** Bytes that spell the name by themselves. *)
Lemma owner_written hole d p L w ls off optr x k ls' e : enc hole d p L w -> bytes_ok x -> p + zlen x + 10 <= lim -> hole + 2 <= p -> 1 <= zlen x <= zlen (wire ls) -> off <= p ->
  owner_ok d (solid hole p) L p ls off optr -> (ls = [] \/ optr <> 0) -> e = zlen x ->
  (has (spliced d p x) p x -> chain (spliced d p x) (solid hole (p + zlen x)) k p ls' e) -> lower_name ls' = lower_name ls -> k <= zlen ls ->
  owner_ends hole d p L w ls off (RETVAL_OK, optr) (at_e w (spliced d p x) (p + zlen x)).
Proof.
  intros H Hb Hl Hhole Hz Hoff Hown Hopt -> Hc Hlow Hk. destruct (enc_write _ _ _ _ _ x H Hb ltac:(lia)) as (H1 & H2 & Hh). left. split; [done|]. exists (spliced d p x), (p + zlen x), L.
  split; [done|]. split; [done|]. split; [lia|]. replace (p + zlen x - p) with (zlen x) by lia. split; [exists k, ls'; split; [by apply Hc|done]|]. split; [lia|]. split; [lia|].
  destruct Hown as [->|q E Hq H'|E H'|E H']; [by apply oo_root| |destruct Hopt as [->|]; [by apply oo_root|done]..].
  apply (oo_ptr _ _ _ _ _ _ _ q); [done..|]. eapply spelled_agree; [exact H'|apply (kept_solid hole p), H2|intros i; apply solid_more; lia].
Qed.

(** Later RRs of the RRset: a pointer, or the root. *)
Lemma owner_again hole d p L w key ls off optr : enc hole d p L w -> key_name key ls -> hole + 2 <= p -> off <= p -> owner_ok d (solid hole p) L p ls off optr -> optr <> 0 ->
  exists res w', compress_owner key off optr (1 + zlen ls) w = Ok (res, w') /\ owner_ends hole d p L w ls off res w'.
Proof.
  intros H (_ & _ & [Hls _]) Hhole Hoff Hown Hopt. pose proof (enc_at _ _ _ _ _ H) as Ew. pose proof (en_buf _ _ _ _ _ H) as B. pose proof (en_pos _ _ _ _ _ H). unfold compress_owner. rewrite eqb_false by done.
  pose proof (zlen_nonneg ls). destruct (Z.eqb_spec (1 + zlen ls) 1) as [E1|E1]; rewrite (st_bind_ok _ _ _ _ _ (enc_remaining _ _ _ _ _ H)); cbv beta.
  - assert (ls = []) as -> by (apply zlen_0_inv; lia). destruct (Z.ltb_spec (lim - p) (1 + 4 + 4 + 2)).
    + eexists (_, _), w. split; [reflexivity|]. right. left. split; [done|]. change (zlen (wire [])) with 1. split; [lia|]. by eapply enc_stopped; [|apply onward_refl].
    + pose proof (e_write_u8_ok b0 w d p 0 B ltac:(unfold in_u; lia) ltac:(lia)) as E. rewrite <- Ew in E. rewrite (st_bind_ok _ _ _ _ _ E). cbv beta. eexists (_, _), _. split; [reflexivity|].
      assert (bytes_ok [0]) as Hb by (apply Forall_singleton; unfold in_u; lia). assert (p + zlen [0] + 10 <= lim) as Hl by (change (zlen [0]) with 1; lia).
      apply (owner_written hole d p L w [] off optr [0] 0 [] 1 H Hb Hl Hhole ltac:(done) Hoff Hown ltac:(by left) eq_refl); [|done..].
      intros Hh. constructor; [lia|done|]. intros i Hi. unfold solid. change (zlen [0]) with 1. lia.
  - assert (ls <> []) as Hne by (intros ->; by apply E1). destruct Hown as [|q E Hq Hsp|E _|E _]; [done| |done..].
    assert (3 <= zlen (wire ls)) as Hw by (pose proof (wire_labels_bound ls Hls); unfold zlen in *; lia). destruct (Z.ltb_spec (lim - p) (2 + 4 + 4 + 2)).
    + eexists (_, _), w. split; [reflexivity|]. right. left. split; [done|]. split; [lia|]. by eapply enc_stopped; [|apply onward_refl].
    + pose proof (e_write_all b0 w d p (pointer q) 2 B (write_uint16_bytes _) (eq_sym (zlen_pointer q)) ltac:(rewrite zlen_pointer; lia)) as E'. rewrite <- Ew in E'. unfold pointer in E'. rewrite <- E in E'.
      rewrite (st_bind_ok _ _ _ _ _ E'). cbv beta. eexists (_, _), _. split; [reflexivity|]. rewrite E. fold (pointer q). destruct Hsp as (k & ls' & e & Hc & Hlow & Hk).
      apply (owner_written _ _ _ _ _ _ _ _ (pointer q) (k + 1) ls' 2 H); rewrite ?zlen_pointer; try done; try lia; [apply write_uint16_bytes| |].
      { apply (oo_ptr _ _ _ _ _ _ _ q); [done..|]. by exists k, ls', e. }
      intros Hh. apply (chain_ptr _ _ k p q ls' e); [lia|done|done|intros i Hi; unfold solid; lia|].
      eapply chain_agree; [exact Hc|eapply kept_solid, (splice_kept b0); [exact B|rewrite zlen_pointer; lia]|intros i; apply solid_more; lia].
Qed.

(** The end of [compress_owner] after the name was stored. *)
Lemma owner_stored hole d p L w ls off optr optr' q n v w' : n <= zlen (wire ls) -> 1 <= n -> p + n + 10 <= lim -> off <= p ->
  ((v = 0 /\ nomem p d w w') \/
   (v = 1 /\ exists d' L', enc hole d' (p + n) L' w' /\ onward p d L w (p + n) d' L' w' /\ written d' (solid hole (p + n)) p n ls /\
     (ls = [] \/ (ready d' (solid hole (p + n)) L ls q off /\ placed_from d' (solid hole (p + n)) L' ls off)))) ->
  optr = 0 -> (forall d' L', onward p d L w (p + n) d' L' w' -> ls <> [] -> ready d' (solid hole (p + n)) L ls q off -> optr' = 0 \/ exists t, optr' = PTR_CREATE t /\ 0 <= t <= PTR_MAX_OFFSET /\ spelled d' (solid hole (p + n)) t ls) ->
  owner_ends hole d p L w ls off (if v =? 0 then RETVAL_OUTMEM else RETVAL_OK, optr') w'.
Proof.
  intros Hn H1 Hl Hoff [[-> Hm]|(-> & d' & L' & He & Hw & Hwr & Hr)] _ Hopt; [by right; right|]. left. split; [done|]. exists d', (p + n), L'. split; [done|]. split; [done|]. split; [lia|].
  replace (p + n - p) with n by lia. split; [done|]. split; [lia|]. split; [lia|]. destruct Hr as [->|[R P]]; [by apply oo_root|].
  destruct (decide (ls = [])) as [->|Hne]; [by apply oo_root|]. destruct (Hopt d' L' Hw Hne R) as [->|(t & -> & Ht & Hs)]; [by apply oo_placed|by apply (oo_ptr _ _ _ _ _ _ _ t)].
Qed.

Lemma owner_first_ok hole d p L w key ls off optr : enc hole d p L w -> key_name key ls -> hole + 2 <= p -> 0 <= off <= p -> owner_ok d (solid hole p) L p ls off optr -> optr = 0 ->
  exists res w', compress_owner key off optr (1 + zlen ls) w = Ok (res, w') /\ owner_ends hole d p L w ls off res w'.
Proof.
  intros H ((r & Ek) & Hlen & Hok) Hhole Hoff Hown Hopt. pose proof Hok as [Hls H255]. pose proof (enc_at _ _ _ _ _ H) as Ew. pose proof (en_buf _ _ _ _ _ H) as B. pose proof (good_range _ _ _ B).
  unfold compress_owner. rewrite Hopt, eqb_true, Ek by done. destruct (e_lookup_ok _ w L ls r (en_tree _ _ _ _ _ H) Hls) as (q & pl & E & Hb & Hc).
  rewrite (st_bind_ok _ _ _ _ _ E). cbv beta iota. clear E. destruct q as [a|].
  - destruct (best_node _ _ _ _ _ _ _ H Hb) as (n & x & pre & y & Hn & Hi & Hx & Els & Hy & Hx1 & Ho & Hsp). rewrite (st_bind_ok _ _ _ _ _ (e_load_ok w a n Hn)). cbv beta. subst ls.
    pose proof (write_compressed_ok w d p a n x pre y r B Hn Hi Ho Hls (lower_zlen _ _ Hy) Hx1) as W. rewrite <- Ew in W. cbv zeta in W.
    set (out := flat pre ++ pointer n.(offset)) in *. assert (out_for L w (pre ++ y) (Some a) out) as Hout by (by exists n, x, pre, y). pose proof (zlen_out _ _ _ _ _ Hls Hout) as Hz.
    destruct (Z.leb_spec (p + zlen out) lim) as [Hf|Hf].
    + destruct W as [W _]. rewrite (st_bind_ok _ _ _ _ _ W). cbv beta. cbn [negb]. destruct (put_name _ _ _ _ _ _ _ _ H Hls Hb Hout Hf Hhole) as (H1 & H2 & _ & _).
      rewrite (st_bind_ok _ _ _ _ _ (enc_remaining _ _ _ _ _ H1)). cbv beta. destruct (Z.ltb_spec (lim - (p + zlen out)) (4 + 4 + 2)).
      * eexists (_, _), _. split; [reflexivity|]. right. left. split; [done|]. split; [lia|]. by eapply enc_stopped.
      * destruct (put_and_store hole d p L w (pre ++ y) r (Some a) pl out off optr H Hok Hb Hc Hout Hf Hhole Hoff Hown Hopt) as (v & w' & E & Hv). rewrite (st_bind_ok _ _ _ _ _ E). cbv beta.
        eexists (_, _), w'. split; [reflexivity|]. eapply (owner_stored hole d p L w (pre ++ y) off optr _ (Some a) (zlen out) v w'); try done; try lia.
        { destruct Hv as [Hv|(-> & L' & X)]; [by left|right; split; [done|]; by exists (spliced d p out), L']. }
        intros d' L' Hw Hne _. rewrite (ni_labs _ _ Hi). destruct (Z.eqb_spec (1 + zlen x) (1 + zlen (pre ++ y))) as [E1|]; [|by left]. right. exists n.(offset). split; [done|]. split; [done|].
        rewrite zlen_app, (lower_zlen _ _ Hy) in E1. assert (pre = []) as -> by (apply zlen_0_inv; lia). eapply spelled_agree; [|apply (kept_solid hole p), Hw|intros i; apply solid_more; lia].
        destruct Hsp as (k & ls' & e & Hch & Hlow & Hk). exists k, ls', e. split; [exact Hch|]. cbn [app]. split; [congruence|]. pose proof (lower_zlen _ _ Hy). lia.
    + destruct W as (d' & p' & W & B' & K). rewrite (st_bind_ok _ _ _ _ _ W). cbv beta. cbn [negb]. eexists (_, _), _. split; [reflexivity|]. right. left. split; [done|]. split; [lia|].
      by apply stopped_at.
  - rewrite (st_bind_ok _ _ _ _ _ (enc_remaining _ _ _ _ _ H)), Hlen. cbv beta. pose proof (zlen_wire_pos ls). rewrite wrap_small by (unfold in_u; lia).
    destruct (Z.ltb_spec (lim - p) (zlen (wire ls) + 4 + 4 + 2)).
    { eexists (_, _), w. split; [reflexivity|]. right. left. split; [done|]. split; [lia|]. eapply enc_stopped; [exact H|apply onward_refl]. }
    pose proof (e_write_ok b0 w d p (wire ls) r (zlen (wire ls)) B (bytes_ok_wire ls Hls) eq_refl ltac:(lia)) as W. rewrite <- Ew in W. rewrite (st_bind_ok _ _ _ _ _ W). cbv beta.
    destruct (put_and_store hole d p L w ls r None pl (wire ls) off optr H Hok Hb Hc eq_refl ltac:(lia) Hhole Hoff Hown Hopt) as (v & w' & E & Hv). rewrite (st_bind_ok _ _ _ _ _ E). cbv beta.
    eexists (_, _), w'. split; [reflexivity|]. eapply (owner_stored hole d p L w ls off optr _ None (zlen (wire ls)) v w'); try done; try lia.
    { destruct Hv as [Hv|(-> & L' & X)]; [by left|right; split; [done|]; by exists (spliced d p (wire ls)), L']. }
    intros d' L' _ Hne R. destruct (Z.leb_spec off PTR_MAX_OFFSET); [|by left]. right. exists off. split; [done|]. split; [lia|].
    specialize (R [] ls 0 eq_refl eq_refl). unfold offset_of in R. rewrite Z.sub_diag, Z.add_0_r in R. apply R. destruct ls; [done|]. rewrite zlen_cons. pose proof (zlen_nonneg ls). lia.
Qed.

Lemma compress_owner_ok hole d p L w key ls off optr : enc hole d p L w -> key_name key ls -> hole + 2 <= p -> 0 <= off <= p -> owner_ok d (solid hole p) L p ls off optr ->
  exists res w', compress_owner key off optr (1 + zlen ls) w = Ok (res, w') /\ owner_ends hole d p L w ls off res w'.
Proof.
  intros H Hk Hh Ho Hown. destruct (decide (optr = 0)); [by eapply owner_first_ok|]. eapply owner_again; try done. lia.
Qed.
End Names.
