(* ===== verification/EncodeRdata.v ===== *)
(** * Encoding replies: rdata

    Stored rdata is [plain]: its fields follow each other, the domain names written out.
    [compress_rdata] writes such rdata so that [rdata_in] it stands in the packet: the
    names as they were written, the other bytes as they are. *)

From S2P Require Import Prelude Sbuffer Dname DnameCompare DnamePkt DnameOut PathOrder NameTree RrDef Msgparse MsgPkt MsgRdata PackedRrset Msgreply ReplyRrset Msgencode EncodeTree EncodeStore EncodeNames.

(** [x] is a field that is not a domain name. *)
Definition field_is (f : sldns_rdf_type) (x : list Z) : Prop :=
  f <> LDNS_RDF_TYPE_DNAME /\
  if decide (f = LDNS_RDF_TYPE_STR) then exists n y, x = n :: y /\ n = zlen y else get_rdf_size f = Ok (zlen x).

Inductive plain : list sldns_rdf_type -> Z -> list Z -> Prop :=
  | plain_rest fs count out : out = [] \/ count = 0 -> plain fs count out
  | plain_dname fs count ls out : count <> 0 -> name_ok ls -> plain fs (count - 1) out -> plain (LDNS_RDF_TYPE_DNAME :: fs) count (wire ls ++ out)
  | plain_field f fs count x out : count <> 0 -> field_is f x -> plain fs count out -> plain (f :: fs) count (x ++ out).

(** The rdata [out] stands at [pos], in [len] bytes of [S]. *)
Inductive rdata_in (d : list Z) (S : Z -> Prop) : list sldns_rdf_type -> Z -> Z -> Z -> list Z -> Prop :=
  | ri_rest fs count pos out : out = [] \/ count = 0 -> has d pos out -> covers S pos (zlen out) -> rdata_in d S fs count pos (zlen out) out
  | ri_dname fs count pos len ls e out : count <> 0 -> name_ok ls -> written d S pos e ls -> rdata_in d S fs (count - 1) (pos + e) len out ->
      rdata_in d S (LDNS_RDF_TYPE_DNAME :: fs) count pos (e + len) (wire ls ++ out)
  | ri_field f fs count pos len x out : count <> 0 -> field_is f x -> has d pos x -> covers S pos (zlen x) -> rdata_in d S fs count (pos + zlen x) len out ->
      rdata_in d S (f :: fs) count pos (zlen x + len) (x ++ out).

Lemma field_is_size f x : field_is f x -> 1 <= zlen x.
Proof.
  intros [_ H]. destruct (decide _).
  - destruct H as (n & y & -> & _). rewrite zlen_cons. pose proof (zlen_nonneg y). lia.
  - apply get_rdf_size_range in H. lia.
Qed.

Lemma written_size d S pos e ls : written d S pos e ls -> 1 <= e.
Proof. intros (k & ls' & H & _). by apply chain_start in H as (_ & _ & ?). Qed.

Lemma rdata_in_agree d d' (S S' : Z -> Prop) fs count pos len out : rdata_in d S fs count pos len out -> 0 <= pos -> agree S d d' -> (forall i, S i -> S' i) -> rdata_in d' S' fs count pos len out.
Proof.
  intros H Hp HA HS. induction H as [fs count pos out H1 H2 HC|fs count pos len ls e out H1 H2 Hw _ IH|f fs count pos len x out H1 H2 Hh HC _ IH].
  - constructor; [done|by eapply has_agree|by eapply covers_sub].
  - constructor; [done|done|by eapply written_agree|]. apply IH. apply written_size in Hw. lia.
  - constructor; [done|done|by eapply has_agree|by eapply covers_sub|]. apply IH. pose proof (zlen_nonneg x). lia.
Qed.

Lemma rdata_in_len d S fs count pos len out : rdata_in d S fs count pos len out -> 0 <= len.
Proof.
  induction 1 as [fs count pos out H1 H2 HC|fs count pos len ls e out H1 H2 Hw _ IH|f fs count pos len x out H1 H2 Hh HC _ IH]; [apply zlen_nonneg|apply written_size in Hw; lia|pose proof (zlen_nonneg x); lia].
Qed.

(** Rdata that is copied. *)
Lemma plain_in d (S : Z -> Prop) fs count out : plain fs count out -> forall pos, 0 <= pos -> has d pos out -> covers S pos (zlen out) -> rdata_in d S fs count pos (zlen out) out.
Proof.
  induction 1 as [fs count out H|fs count ls out H1 [H2 H255] _ IH|f fs count x out H1 H2 _ IH]; intros pos Hp Hh HC.
  - by constructor.
  - rewrite zlen_app in *. pose proof (zlen_nonneg (wire ls)). pose proof (zlen_nonneg out). apply has_app in Hh as [G1 G2]; [|done].
    constructor; [done|done| |apply IH; [lia|done|intros i Hi; apply HC; lia]]. exists 0, ls. split; [apply chain_wire; [done..|intros i Hi; apply HC; lia]|]. split; [done|apply zlen_nonneg].
  - rewrite zlen_app in *. pose proof (zlen_nonneg x). pose proof (zlen_nonneg out). apply has_app in Hh as [G1 G2]; [|done].
    constructor; [done|done|done|intros i Hi; apply HC; lia|apply IH; [lia|done|intros i Hi; apply HC; lia]].
Qed.

(** ** Both ways *)

(** Rdata of a packet, written out, is plain. *)
Lemma rdata_plain b d fs count pos len out : buf_ok b d -> rdata b d fs count pos len out -> 0 <= pos -> 0 <= len -> pos + len <= b.(_limit) -> plain fs count out /\ bytes_ok out.
Proof.
  intros B H. pose proof (lim_zlen b d B). assert (forall n p, bytes_ok (ztake n (zdrop p d))) as Hb by (intros; apply bytes_ok_ztake, bytes_ok_zdrop, B).
  induction H as [fs count pos len H1|fs count pos len ls e out H1 H2 N He H IH|f fs count pos len n out H1 H2 Hf Hn Hle H IH]; intros Hp Hl Hlim.
  - split; [|apply Hb]. constructor. destruct H1 as [->|?]; [by left|by right].
  - destruct (name_at_range b d B _ _ _ N) as (_ & He1 & _ & Hok). destruct IH as [IH1 IH2]; [lia..|]. split; [by constructor|]. apply Forall_app. split; [by apply bytes_ok_wire, Hok|done].
  - pose proof (field_size_range b d B _ _ _ Hn). destruct IH as [IH1 IH2]; [lia..|]. split; [|apply Forall_app; by split]. constructor; [done| |done]. split; [done|].
    assert (zlen (ztake n (zdrop pos d)) = n) as Ez by (apply zlen_ztake; rewrite zlen_zdrop; lia). unfold field_size in Hn. destruct (decide _).
    + apply bind_inv in Hn as (x & Hx & Hn). apply Ok_inj in Hn. subst n. pose proof (index_zdrop d pos 0 ltac:(lia)) as Ei. rewrite Z.add_0_r, Hx in Ei. specialize (Ei (Z.le_refl 0)).
      destruct (zdrop pos d) as [|y l] eqn:El; [done|]. cbn in Ei. apply Ok_inj in Ei as ->. replace (ztake (x + 1) (x :: l)) with (x :: ztake x l) in *.
      2:{ unfold ztake. rewrite Z2Nat.inj_add by lia. by rewrite Nat.add_1_r. }
      exists x, (ztake x l). split; [done|]. rewrite zlen_cons in Ez. lia.
    + by rewrite Ez.
Qed.

(** The names are the same but for case. *)
Inductive same_rdata : list sldns_rdf_type -> Z -> list Z -> list Z -> Prop :=
  | sr_rest fs count out : out = [] \/ count = 0 -> same_rdata fs count out out
  | sr_dname fs count ls ls' out out' : count <> 0 -> lower_name ls' = lower_name ls -> same_rdata fs (count - 1) out' out -> same_rdata (LDNS_RDF_TYPE_DNAME :: fs) count (wire ls' ++ out') (wire ls ++ out)
  | sr_field f fs count x out out' : count <> 0 -> field_is f x -> same_rdata fs count out' out -> same_rdata (f :: fs) count (x ++ out') (x ++ out).

Lemma written_name b d S pos e ls : buf_ok b d -> written d S pos e ls -> (forall i, S i -> i < b.(_limit)) -> name_ok ls -> exists ls', name_at b d pos ls' e /\ lower_name ls' = lower_name ls.
Proof.
  intros B (k & ls' & Hc & Hlow & Hk) HS [Hls H255]. exists ls'. split; [|done]. split; [by apply chain_start in Hc as (? & _)|].
  assert (zlen (wire ls') = zlen (wire ls)) as Hz by (by rewrite <- zlen_wire_lower, Hlow, zlen_wire_lower). split; [lia|]. exists k. split; [|by eapply chain_decomp].
  pose proof (wire_labels_bound ls Hls). unfold zlen in *. lia.
Qed.

Lemma has_bytes d pos x : has d pos x -> 0 <= pos -> ztake (zlen x) (zdrop pos d) = x /\ (0 < zlen x -> exists y, x !! 0%nat = Some y /\ index d pos = Ok y).
Proof.
  intros H Hp. destruct (has_drop _ _ _ H) as (r & E). split; [rewrite E; apply ztake_app_zlen|]. intros Hz. destruct x as [|y x]; [done|]. exists y. split; [done|].
  specialize (H 0%nat y eq_refl). rewrite Nat.add_0_r in H. unfold index. rewrite leb_true by done. by rewrite H.
Qed.

Lemma rdata_in_rdata b d S fs count pos len out : buf_ok b d -> rdata_in d S fs count pos len out -> 0 <= pos -> (forall i, S i -> i < b.(_limit)) ->
  exists out', rdata b d fs count pos len out' /\ same_rdata fs count out' out.
Proof.
  intros B H Hp HS. induction H as [fs count pos out H1 H2 HC|fs count pos len ls e out H1 H2 Hw H IH|f fs count pos len x out H1 H2 Hh HC H IH].
  - exists out. split; [|by constructor]. destruct (has_bytes _ _ _ H2 Hp) as [E _]. rewrite <- E at 2. constructor. destruct H1 as [->|?]; [by left|by right].
  - pose proof (written_size _ _ _ _ _ Hw). pose proof (rdata_in_len _ _ _ _ _ _ _ H). destruct (written_name b d S pos e ls B Hw HS H2) as (ls' & N & Hlow). destruct IH as (out' & IH1 & IH2); [lia|]. exists (wire ls' ++ out').
    split; [|by constructor]. apply (rdata_dname b d _ _ _ _ _ e); try done; try lia. by replace (e + len - e) with len by lia.
  - pose proof (field_is_size _ _ H2). pose proof (rdata_in_len _ _ _ _ _ _ _ H). destruct IH as (out' & IH1 & IH2); [lia|]. exists (x ++ out'). split; [|by constructor].
    destruct (has_bytes _ _ _ Hh Hp) as [E Hi]. rewrite <- E at 2. destruct H2 as [Hf Hn]. apply rdata_field; try done; try lia.
    + unfold field_size. destruct (decide _); [|done]. destruct Hn as (n & y & -> & ->). destruct Hi as (z & [= <-] & ->); [lia|]. cbn. rewrite zlen_cons. f_equal. lia.
    + by replace (zlen x + len - zlen x) with len by lia.
Qed.

(** ** [compress_rdata] *)

Section Compress.
Context (b0 : sldns_buffer) (Hlim : b0.(_limit) <= 65535).
Abbreviation lim := (b0.(_limit)).
Abbreviation at_d := (buffer_at b0).
Abbreviation at_e := (encoder_at b0).
Abbreviation enc := (enc b0).
Abbreviation onward := EncodeNames.onward.
Abbreviation ends := (ends b0).

(** The rdata stands at [p], when the [rest] of it comes after [p']. *)
Definition rdata_up_to (hole : Z) (fs : list sldns_rdf_type) (count p : Z) (out rest : list Z) (d' : list Z) (p' : Z) : Prop :=
  forall d2 (S2 : Z -> Prop), agree (solid hole p') d' d2 -> (forall i, solid hole p' i -> S2 i) -> has d2 p' rest -> covers S2 p' (zlen rest) ->
    rdata_in d2 S2 fs count p (p' - p + zlen rest) out.

Lemma up_to_cons hole f fs count p p1 p' d' x out rest : p <= p1 -> rdata_up_to hole fs (count - (if decide (f = LDNS_RDF_TYPE_DNAME) then 1 else 0)) p1 out rest d' p' ->
  (forall d2 (S2 : Z -> Prop), agree (solid hole p') d' d2 -> (forall i, solid hole p' i -> S2 i) -> forall len, rdata_in d2 S2 fs (count - (if decide (f = LDNS_RDF_TYPE_DNAME) then 1 else 0)) p1 len out -> rdata_in d2 S2 (f :: fs) count p (p1 - p + len) (x ++ out)) ->
  rdata_up_to hole (f :: fs) count p (x ++ out) rest d' p'.
Proof.
  intros Hp H Hc d2 S2 HA HS Hh HC. replace (p' - p + zlen rest) with (p1 - p + (p' - p1 + zlen rest)) by lia. apply Hc; [done|done|]. by apply H.
Qed.

(** How the loop over the fields ends: with an error, or before the [rest]. *)
Definition fields_end hole d p L w fs count out r (res : Z + list Z * Z) (w' : encoder) : Prop :=
  match res with
  | inl v => v <> RETVAL_OK /\ ends hole d p L w (zlen out) v w' (fun _ _ _ => False)
  | inr (rdata, todo) => exists rest d' p' L', rdata = rest ++ r /\ todo = zlen rest /\ bytes_ok rest /\ enc hole d' p' L' w' /\ onward p d L w p' d' L' w' /\ p' + zlen rest <= p + zlen out /\
      rdata_up_to hole fs count p out rest d' p'
  end.

(** The loop goes on after [n] bytes of rdata. *)
Lemma fields_step hole d p L w f fs count x out r d1 p1 L1 w1 res w' : enc hole d1 p1 L1 w1 -> onward p d L w p1 d1 L1 w1 -> p1 <= p + zlen x ->
  fields_end hole d1 p1 L1 w1 fs (count - (if decide (f = LDNS_RDF_TYPE_DNAME) then 1 else 0)) out r res w' ->
  (forall d2 (S2 : Z -> Prop) p', p1 <= p' -> agree (solid hole p1) d1 d2 -> (forall i, solid hole p1 i -> S2 i) -> forall len,
    rdata_in d2 S2 fs (count - (if decide (f = LDNS_RDF_TYPE_DNAME) then 1 else 0)) p1 len out -> rdata_in d2 S2 (f :: fs) count p (p1 - p + len) (x ++ out)) ->
  fields_end hole d p L w (f :: fs) count (x ++ out) r res w'.
Proof.
  intros H1 O1 Hx HF Hc. destruct res as [v|[rdata todo]]; cbn [fields_end] in *.
  - destruct HF as [Hv HF]. split; [done|]. rewrite zlen_app. destruct HF as [(-> & d' & p' & L' & _ & _ & _ & [])|[(-> & Hl & Hs)|[-> Hm]]].
    + right. left. split; [done|]. split; [lia|]. by eapply stopped_onward.
    + right. right. split; [done|]. by eapply nomem_onward.
  - destruct HF as (rest & d' & p' & L' & -> & -> & Hb & H' & O' & Hz & U). exists rest, d', p', L'. do 4 (split; [done|]). split; [by eapply onward_trans|]. rewrite zlen_app. split; [lia|].
    destruct O1 as [O1 _ _ _], O' as [P' K' _ _]. eapply up_to_cons; [exact O1|exact U|]. intros d2 S2 HA HS len Hr. apply (Hc d2 S2 p'); [done| |intros i Hi; apply HS; by eapply solid_more|exact Hr].
    eapply agree_trans; [by apply (kept_solid hole p1)|]. eapply agree_sub; [exact HA|]. intros i. by apply solid_more.
Qed.

Lemma compress_fields_ok hole fs count out r : plain fs count out -> forall d p L w, enc hole d p L w -> hole + 2 <= p -> bytes_ok out -> zlen out < 2 ^ 63 -> 0 <= count ->
  exists res w', compress_fields fs (out ++ r) (zlen out) count w = Ok (res, w') /\ fields_end hole d p L w fs count out r res w'.
Proof.
  intros HP. induction HP as [fs count out H|fs count ls out H1 H2 HP IH|f fs count x out H1 H2 HP IH]; intros d p L w H' Hhole Hb Hz Hcount.
  - exists (inr (out ++ r, zlen out)), w. split.
    { destruct H as [->| ->]; destruct fs; cbn [compress_fields]; try done; by rewrite andb_false_r. }
    exists out, d, p, L. do 4 (split; [done|]). split; [apply onward_refl|]. split; [lia|]. intros d2 S2 HA HS Hh HC. rewrite Z.sub_diag. by constructor.
  - pose proof H2 as [Hls H255]. rewrite <- app_assoc, zlen_app in *. pose proof (zlen_wire_pos ls). pose proof (zlen_nonneg out). apply Forall_app in Hb as [_ Hb]. cbn [compress_fields]. rewrite ltb_true, eqb_false by lia. cbn [andb negb].
    destruct (dname_label_counts ls (out ++ r) 0 H2 ltac:(lia)) as (_ & Ec & _).
    erewrite st_bind_ok by (unfold lift; rewrite Ec; reflexivity). cbv beta iota.
    destruct (any_dname_ok b0 hole d p L w ls (out ++ r) H' H2 Hhole) as (ret & w1 & E & Hends). rewrite (st_bind_ok _ _ _ _ _ E). cbv beta.
    destruct Hends as [(-> & d1 & p1 & L1 & H1' & O1 & Hp1 & Hwr)|Hbad].
    + cbn [Z.eqb RETVAL_OK negb]. erewrite st_bind_ok by (unfold lift; rewrite advance_app; reflexivity). cbv beta.
      replace (zlen (wire ls) + zlen out - zlen (wire ls)) with (zlen out) by lia. rewrite wrap_small by (unfold in_u; lia). pose proof (ow_pos _ _ _ _ _ _ _ _ O1).
      destruct (IH d1 p1 L1 w1 H1' ltac:(lia) Hb ltac:(lia) ltac:(lia)) as (res & w' & E' & HF). exists res, w'. split; [exact E'|].
      apply (fields_step hole d p L w _ fs count (wire ls) out r d1 p1 L1 w1); [done|done|lia|by rewrite decide_True by done|]. rewrite decide_True by done.
      intros d2 S2 p' Hp' HA HS len Hr. apply ri_dname; [done|done|by eapply written_agree|]. by replace (p + (p1 - p)) with p1 by lia.
    + destruct Hbad as [(-> & Hl & Hs)|[-> Hm]]; (eexists (inl _), w1; split; [reflexivity|]; split; [done|]).
      * right. left. rewrite zlen_app. split; [done|]. split; [lia|done].
      * right. right. done.
  - pose proof (field_is_size _ _ H2) as Hx. rewrite <- app_assoc, zlen_app in *. pose proof (zlen_nonneg out). apply Forall_app in Hb as [Hbx Hb]. pose proof H2 as [Hf Hn].
    assert (lift (if decide (f = LDNS_RDF_TYPE_STR) then y ← deref (x ++ out ++ r); Ok (y + 1) else get_rdf_size f) w = Ok (zlen x, w)) as Elen.
    { unfold lift. destruct (decide _); [|by rewrite Hn]. destruct Hn as (n & y & -> & ->). cbn. rewrite zlen_cons. do 2 f_equal. lia. }
    pose proof (enc_at _ _ _ _ _ _ H') as Ew. pose proof (en_buf _ _ _ _ _ _ H') as B.
    assert (compress_fields (f :: fs) (x ++ out ++ r) (zlen x + zlen out) count w =
      (if lim - p <? zlen x then mret (inl RETVAL_TRUNC) else e_write (x ++ out ++ r) (zlen x);; rdata ← lift (advance (zlen x) (x ++ out ++ r)); compress_fields fs rdata (u64 (zlen x + zlen out - zlen x)) count) w) as ->.
    { cbn [compress_fields]. rewrite ltb_true, eqb_false by lia. cbn [andb negb].
      destruct f; try done; rewrite (st_bind_ok _ _ _ _ _ Elen); cbv beta; rewrite eqb_false by lia; by rewrite (st_bind_ok _ _ _ _ _ (enc_remaining _ _ _ _ _ _ H')). }
    destruct (Z.ltb_spec (lim - p) (zlen x)).
    { exists (inl RETVAL_TRUNC), w. split; [done|]. split; [done|]. right. left. rewrite zlen_app. split; [done|]. split; [lia|]. eapply enc_stopped; [exact H'|apply onward_refl]. }
    pose proof (e_write_ok b0 w d p x (out ++ r) (zlen x) B Hbx eq_refl ltac:(lia)) as W. rewrite <- Ew in W. rewrite (st_bind_ok _ _ _ _ _ W). cbv beta.
    destruct (enc_write _ _ _ _ _ _ x H' Hbx ltac:(lia)) as (H1' & O1 & Hh). erewrite st_bind_ok by (unfold lift; rewrite advance_app; reflexivity). cbv beta.
    replace (zlen x + zlen out - zlen x) with (zlen out) by lia. rewrite wrap_small by (unfold in_u; lia).
    destruct (IH _ _ L _ H1' ltac:(lia) Hb ltac:(lia) Hcount) as (res & w' & E' & HF). exists res, w'. split; [exact E'|].
    eapply (fields_step hole d p L w _ fs count x out r); [exact H1'|exact O1|lia|by rewrite decide_False, Z.sub_0_r by done|]. rewrite decide_False, Z.sub_0_r by done. pose proof (en_pos _ _ _ _ _ _ H').
    intros d2 S2 p' Hp' HA HS len Hr. replace (p + zlen x - p + len) with (zlen x + len) by lia. assert (covers (solid hole (p + zlen x)) p (zlen x)) as HC by (intros i Hi; unfold solid; lia).
    apply ri_field; [done|done|apply (has_agree _ _ _ _ _ HA HC); [lia|done]|by eapply covers_sub|done].
Qed.

(** The length of the rdata, and the rdata, at [p], in [n] bytes. *)
Definition rdata_at (d : list Z) (S : Z -> Prop) (type p n : Z) (out : list Z) : Prop :=
  2 <= n < 2 + 2 ^ 16 /\ has d p (sldns_write_uint16 (n - 2)) /\ covers S p 2 /\ rdata_in d S (fields type) (dnames type) (p + 2) (n - 2) out.

Lemma solid_hole p i : solid 0 p i -> solid p (p + 2) i.
Proof. unfold solid. lia. Qed.

(** The length is left for later, *)
Lemma enc_skip d p L w : enc 0 d p L w -> p + 2 <= lim -> to_pkt (p_skip 2) w = Ok (tt, at_e w d (p + 2)) /\ enc p d (p + 2) L (at_e w d (p + 2)) /\ onward p d L w (p + 2) d L (at_e w d (p + 2)).
Proof.
  intros [E B H12 T] Hl. rewrite (at_e_self _ _ _ _ E) at 1. destruct (e_skip_ok b0 w d p 2 B ltac:(lia) Hl) as [E1 B1]. split; [exact E1|]. split; [|split; [lia|done..]].
  split; [done|done|lia|]. eapply tree_ok_mono; [exact T| |done..]. intros o z Hz. eapply spelled_agree; [exact Hz|done|apply solid_hole].
Qed.

(** and written then. *)
Lemma enc_fill d p0 d' p p' L w w' L0 v : enc p d' p' L w' -> onward p0 d L0 w p' d' L w' -> p0 <= p -> 12 <= p -> p + 2 <= p' ->
  e_write_u16_at p v w' = Ok (tt, at_e w' (spliced d' p (sldns_write_uint16 v)) p') /\
  enc 0 (spliced d' p (sldns_write_uint16 v)) p' L (at_e w' (spliced d' p (sldns_write_uint16 v)) p') /\
  onward p0 d L0 w p' (spliced d' p (sldns_write_uint16 v)) L (at_e w' (spliced d' p (sldns_write_uint16 v)) p') /\
  has (spliced d' p (sldns_write_uint16 v)) p (sldns_write_uint16 v) /\ agree (solid p p') d' (spliced d' p (sldns_write_uint16 v)).
Proof.
  intros [E B H12 T] [A1 A2 A3 A4] Hp0 Hp Hp'. pose proof (good_range _ _ _ B). rewrite (at_e_self _ _ _ _ E) at 1. destruct (e_write_u16_at_ok b0 w' d' p' p v B ltac:(lia) ltac:(lia)) as [E1 B1].
  pose proof (spliced_agree d' p (sldns_write_uint16 v) ltac:(lia)) as G. change (zlen (sldns_write_uint16 v)) with 2 in G. specialize (G ltac:(lia)).
  assert (agree (solid p p') d' (spliced d' p (sldns_write_uint16 v))) as G2 by (eapply agree_sub; [exact G|]; unfold solid; cbn; lia).
  split; [exact E1|]. split; [|split; [|split; [|done]]].
  - split; [done|done|done|]. eapply tree_ok_mono; [exact T| |done..]. intros o z Hz. eapply spelled_agree; [exact Hz|exact G2|]. unfold solid. lia.
  - split; [done| |done|done]. eapply agree_trans; [exact A2|]. eapply agree_sub; [exact G|]. cbn. lia.
  - apply has_splice; [lia|]. change (zlen (sldns_write_uint16 v)) with 2. lia.
Qed.

Lemma compress_rdata_ok d p L w type out r desc : enc 0 d p L w -> p + 2 <= lim -> plain (fields type) (dnames type) out -> bytes_ok out -> zlen out < 2 ^ 62 -> sldns_rr_descript type = Some desc ->
  exists ret w', compress_rdata (rr_bytes out ++ r) (2 + zlen out) desc w = Ok (ret, w') /\
    ends 0 d p L w (2 + zlen out) ret w' (fun d' p' _ => rdata_at d' (solid 0 p') type p (p' - p) out).
Proof.
  intros H Hl HP Hb Hz Hd. unfold compress_rdata. pose proof (zlen_nonneg out). pose proof (en_pos _ _ _ _ _ _ H) as H12. erewrite st_bind_ok by (by eapply enc_position). cbv beta.
  destruct (enc_skip d p L w H Hl) as (E1 & H1 & O1). rewrite (st_bind_ok _ _ _ _ _ E1). cbv beta. unfold rr_bytes. rewrite <- app_assoc.
  erewrite st_bind_ok by (unfold lift; change 2 with (zlen (sldns_write_uint16 (u16 (zlen out)))); rewrite advance_app; reflexivity). cbv beta. replace (2 + zlen out - 2) with (zlen out) by lia. rewrite wrap_small by (unfold in_u; lia).
  pose proof (type_usable type) as [_ Hc]. assert (desc.(_wireformat) = fields type /\ desc.(_dname_count) = dnames type) as [-> ->] by (unfold fields, dnames; by rewrite Hd).
  destruct (compress_fields_ok p (fields type) (dnames type) out r HP d (p + 2) L _ H1 ltac:(lia) Hb ltac:(lia) ltac:(lia)) as (res & w1 & Ef & HF). rewrite (st_bind_ok _ _ _ _ _ Ef). cbv beta.
  assert (forall v w2, v <> RETVAL_OK -> ends p d (p + 2) L (at_e w d (p + 2)) (zlen out) v w2 (fun _ _ _ => False) -> ends 0 d p L w (2 + zlen out) v w2 (fun d' p' _ => rdata_at d' (solid 0 p') type p (p' - p) out)) as Hbad.
  { intros v w2 Hv [(-> & _)|[(-> & Hl' & Hs)|[-> Hm]]]; [done|right; left; split; [done|]; split; [lia|by eapply stopped_onward]|right; right; split; [done|by eapply nomem_onward]]. }
  destruct res as [v|[rdata todo]]; cbn [fields_end] in HF; [destruct HF as [Hv HF]; exists v, w1; split; [done|by apply Hbad]|].
  destruct HF as (rest & d1 & p1 & L1 & -> & -> & Hbr & He & O2 & Hp1 & U). pose proof (en_buf _ _ _ _ _ _ He) as B1. pose proof (enc_at _ _ _ _ _ _ He) as Ew1. pose proof (zlen_nonneg rest).
  assert (forall w2, w2 = at_e w1 (spliced d1 p1 rest) (p1 + zlen rest) -> p1 + zlen rest <= lim ->
    exists ret w', (here ← e_position; e_write_u16_at p (u16 (here - p - 2));; mret RETVAL_OK : E Z) w2 = Ok (ret, w') /\
    ends 0 d p L w (2 + zlen out) ret w' (fun d' p' _ => rdata_at d' (solid 0 p') type p (p' - p) out)) as Hfin.
  { intros w2 -> Hl2. destruct (enc_write _ _ _ _ _ _ rest He Hbr Hl2) as (G2 & O3 & Hh). erewrite st_bind_ok by (by eapply enc_position). cbv beta.
    pose proof (onward_trans _ _ _ _ _ _ _ _ _ _ _ _ O2 O3) as O4. pose proof (ow_pos _ _ _ _ _ _ _ _ O2). rewrite wrap_small by (unfold in_u; lia).
    destruct (enc_fill d p _ p _ _ w _ L (p1 + zlen rest - p - 2) G2 (onward_trans _ _ _ _ _ _ _ _ _ _ _ _ O1 O4) ltac:(lia) H12 ltac:(lia)) as (E3 & G3 & O5 & Hh3 & A3).
    rewrite (st_bind_ok _ _ _ _ _ E3). cbv beta. exists RETVAL_OK. eexists. split; [reflexivity|]. left. split; [done|]. eexists _, _, L1. split; [exact G3|]. split; [exact O5|]. split; [lia|].
    unfold rdata_at. replace (p1 + zlen rest - p - 2) with (p1 - (p + 2) + zlen rest) in * by lia. split; [lia|]. split; [exact Hh3|]. split; [intros i Hi; unfold solid; lia|]. apply U.
    - eapply agree_trans; [apply (kept_solid p p1), O3|]. eapply agree_sub; [exact A3|]. intros i. apply solid_more. lia.
    - intros i. unfold solid. lia.
    - eapply (has_agree (fun i => p1 <= i < p1 + zlen rest)); [|by intros i|lia|exact Hh]. eapply agree_sub; [exact A3|]. unfold solid. cbn. lia.
    - intros i Hi. unfold solid. lia. }
  zcase.
  - rewrite (st_bind_ok _ _ w1 (if lim - p1 <? zlen rest then false else true) (if lim - p1 <? zlen rest then w1 else at_e w1 (spliced d1 p1 rest) (p1 + zlen rest))).
    2:{ rewrite (st_bind_ok _ _ _ _ _ (enc_remaining _ _ _ _ _ _ He)). cbv beta. destruct (Z.ltb_spec (lim - p1) (zlen rest)); [done|].
        pose proof (e_write_ok b0 w1 d1 p1 rest r (zlen rest) B1 Hbr eq_refl ltac:(lia)) as W. rewrite <- Ew1 in W. by rewrite (st_bind_ok _ _ _ _ _ W). }
    cbv beta. destruct (Z.ltb_spec (lim - p1) (zlen rest)); cbn [negb]; [|apply Hfin; [done|lia]].
    exists RETVAL_TRUNC, w1. split; [done|]. apply Hbad; [done|]. right. left. split; [done|]. split; [lia|]. eapply enc_stopped; [exact He|exact O2].
  - assert (rest = []) as -> by (apply zlen_0_inv; lia). change (zlen []) with 0 in *. rewrite Z.add_0_r in *. rewrite (st_bind_ok _ _ w1 true w1) by done. cbv beta. cbn [negb].
    apply Hfin; [|destruct B1; cbn in *; lia]. rewrite Ew1 at 1. f_equal. unfold spliced. change (zlen []) with 0. by rewrite Z.add_0_r, app_nil_l, ztake_zdrop.
Qed.
End Compress.

(** ** A name, and how it reads *)

(** The functions that parse read the name [ls] at [pos], up to case, in [e] bytes. *)
Definition reads_as (b : sldns_buffer) (d : list Z) (pos : Z) (ls : name) (e : Z) : Prop := exists ls', name_at b d pos ls' e /\ lower_name ls' = lower_name ls.

(** C16. A name that [compress_any_dname] writes reads as that name, up to the case of letters,
    from where it is written, with at most as many bytes as it has uncompressed; what is before it stays, the names of the tree
    keep standing in the message, and none is lost.  It says that there is no room only when there is none
    for the uncompressed name, and that there is no memory only when an allocation fails. *)
Theorem compress_any_dname_reads b0 hole d p L w ls r : EncodeNames.enc b0 hole d p L w -> name_ok ls -> hole + 2 <= p ->
  exists ret w', compress_any_dname (wire ls ++ r) (1 + zlen ls) w = Ok (ret, w') /\
    ((ret = RETVAL_OK /\ exists d' p' L', EncodeNames.enc b0 hole d' p' L' w' /\ p <= p' <= p + zlen (wire ls) /\ ztake p d' = ztake p d /\
        reads_as (buffer_at b0 d' p') d' p ls (p' - p) /\ forall e, e ∈ L -> e ∈ L') \/
     (ret = RETVAL_TRUNC /\ b0.(_limit) < p + zlen (wire ls)) \/
     (ret = RETVAL_OUTMEM /\ ~ mallocs_ok w.(e_memory))).
Proof.
  intros H Hok Hh. destruct (any_dname_ok b0 hole d p L w ls r H Hok Hh) as (ret & w' & E & HE). exists ret, w'. split; [exact E|].
  destruct HE as [(-> & d' & p' & L' & H' & O & Hp & Hw)|[(-> & Hl & _)|(-> & Hm & _)]]; [|by right; left|by right; right].
  left. split; [done|]. exists d', p', L'. pose proof (good_range _ _ _ (en_buf _ _ _ _ _ _ H')). split; [done|]. split; [split; [apply O|done]|]. split; [|split; [|apply O]].
  - pose proof (en_pos _ _ _ _ _ _ H). apply list_eq. intros i. unfold ztake. destruct (decide (i < Z.to_nat p)%nat); [|by rewrite !lookup_take_ge by lia].
    rewrite !lookup_take_lt by lia. pose proof (ow_kept _ _ _ _ _ _ _ _ O (Z.of_nat i) ltac:(cbn; lia)) as Hk. by rewrite Nat2Z.id in Hk.
  - eapply (written_name _ d' (solid hole p')); [exact (en_buf _ _ _ _ _ _ H')|done| |done]. unfold solid. cbn. lia.
Qed.

(** A packet of 40 bytes, at the end of its header. *)
Definition blank_packet : sldns_buffer := mk_buffer 12 40 40 (Some (replicate 40 0)) false false.

Lemma blank_enc : EncodeNames.enc blank_packet 0 (replicate 40 0) 12 [] (mk_encoder blank_packet None ∅ []).
Proof.
  split; [done| |done|split; [by exists Leaf|constructor..]]. split; try done. apply Forall_replicate. unfold in_u. lia.
Qed.

Lemma label_a : name_ok [[97]].
Proof. split; [|by vm_compute]. constructor; [|constructor]. split; [change (zlen [97]) with 1; lia|]. constructor; [unfold in_u; lia|constructor]. Qed.

Lemma compress_any_dname_reads_witness :
  exists ret w', compress_any_dname (wire [[97]] ++ [5]) (1 + zlen [[97]]) (mk_encoder blank_packet None ∅ []) = Ok (ret, w') /\
    ((ret = RETVAL_OK /\ exists d' p' L', EncodeNames.enc blank_packet 0 d' p' L' w' /\ 12 <= p' <= 12 + zlen (wire [[97]]) /\ ztake 12 d' = ztake 12 (replicate 40 0) /\
        reads_as (buffer_at blank_packet d' p') d' 12 [[97]] (p' - 12) /\ forall e, e ∈ [] -> e ∈ L') \/
     (ret = RETVAL_TRUNC /\ blank_packet.(_limit) < 12 + zlen (wire [[97]])) \/
     (ret = RETVAL_OUTMEM /\ ~ mallocs_ok [])).
Proof. exact (compress_any_dname_reads blank_packet 0 (replicate 40 0) 12 [] (mk_encoder blank_packet None ∅ []) [[97]] [5] blank_enc label_a ltac:(lia)). Defined.

(** b.A, and then c.a: its end is where A is, after the first label. *)
Example suffix_shared :
  match (compress_any_dname [1; 98; 1; 65; 0] 3;; compress_any_dname [1; 99; 1; 97; 0] 3) (mk_encoder blank_packet None ∅ []) with
  | Ok (r, w) => option_map (fun d => (r, ztake (w.(e_pkt).(_position) - 12) (zdrop 12 d))) w.(e_pkt).(_data)
  | _ => None end = Some (RETVAL_OK, [1; 98; 1; 65; 0; 1; 99; 192; 14]).
Proof. by vm_compute. Qed.
