(* ===== verification/EncodeRrset.v ===== *)
(** * Encoding replies: RRs and RRsets

    The records of an RRset are its RRs, from the one that the rotation starts with, and
    its signatures.  [packed_rrset_encode] writes them one after the other. *)

From S2P Require Import Prelude Sbuffer Dname DnameCompare DnamePkt DnameOut PathOrder NameTree RrDef Msgparse MsgPkt MsgRdata PackedRrset PackedBlock Msgreply ReplyRrset ReplyMessage Msgencode EncodeTree EncodeStore EncodeNames EncodeRdata.

(** ** Records *)

Record record := mk_record {
  r_name : name;
  r_type : Z;
  r_class : list Z;
  r_ttl : Z;
  r_rdata : list Z;
}.

(** The type, the class and the TTL. *)
Definition middle (r : record) : list Z := sldns_write_uint16 r.(r_type) ++ r.(r_class) ++ sldns_write_uint32 r.(r_ttl).

(** The record stands at [pos], in [n] bytes of [S]. *)
Definition record_in (d : list Z) (S : Z -> Prop) (pos n : Z) (r : record) : Prop :=
  exists e m, written d S pos e r.(r_name) /\ has d (pos + e) (middle r) /\ covers S (pos + e) 8 /\ rdata_at d S r.(r_type) (pos + e + 8) m r.(r_rdata) /\ n = e + 8 + m.

(** The records stand one after the other. *)
Fixpoint records_in (d : list Z) (S : Z -> Prop) (pos n : Z) (l : list record) : Prop :=
  match l with
  | [] => n = 0
  | r :: l' => exists n1, record_in d S pos n1 r /\ records_in d S (pos + n1) (n - n1) l'
  end.

(** Their size when no name is compressed. *)
Definition full_size (r : record) : Z := zlen (wire r.(r_name)) + 10 + zlen r.(r_rdata).
Definition full_sizes (l : list record) : Z := foldr (fun r n => full_size r + n) 0 l.

Record record_ok (r : record) : Prop := {
  ro_name : name_ok r.(r_name);
  ro_type : in_u 16 r.(r_type);
  ro_class : bytes_ok r.(r_class) /\ zlen r.(r_class) = 2;
  ro_ttl : in_u 32 r.(r_ttl);
  ro_rdata : plain (fields r.(r_type)) (dnames r.(r_type)) r.(r_rdata) /\ bytes_ok r.(r_rdata) /\ zlen r.(r_rdata) < 2 ^ 62;
}.

Lemma full_size_pos r : 11 <= full_size r.
Proof. unfold full_size. pose proof (zlen_wire_pos r.(r_name)). pose proof (zlen_nonneg r.(r_rdata)). lia. Qed.

Lemma full_sizes_app l1 l2 : full_sizes (l1 ++ l2) = full_sizes l1 + full_sizes l2.
Proof. unfold full_sizes. induction l1 as [|r l1 IH]; cbn; [done|]. rewrite IH. lia. Qed.

Lemma full_sizes_nonneg l : 0 <= full_sizes l.
Proof. unfold full_sizes. induction l as [|r l IH]; cbn; [done|]. pose proof (full_size_pos r). lia. Qed.

Lemma record_in_size d S pos n r : record_in d S pos n r -> 11 <= n.
Proof. intros (e & m & Hw & _ & _ & (Hm & _) & ->). apply written_size in Hw. lia. Qed.

Lemma record_in_agree d d' (S S' : Z -> Prop) pos n r : record_in d S pos n r -> zlen r.(r_class) = 2 -> 0 <= pos -> agree S d d' -> (forall i, S i -> S' i) -> record_in d' S' pos n r.
Proof.
  intros (e & m & Hw & Hh & HC & (Hm & Hl & HCl & Hr) & ->) Hc Hp HA HS. pose proof (written_size _ _ _ _ _ Hw). exists e, m. split; [by eapply written_agree|].
  split; [eapply has_agree; [exact HA| |lia|exact Hh]; unfold middle; rewrite !zlen_app, Hc; exact HC|]. split; [by eapply covers_sub|]. split; [|done]. split; [done|].
  split; [by eapply has_agree; [exact HA|exact HCl|lia|]|]. split; [by eapply covers_sub|]. eapply rdata_in_agree; [exact Hr|lia|done|done].
Qed.

Lemma records_in_agree d d' (S S' : Z -> Prop) l : forall pos n, records_in d S pos n l -> Forall record_ok l -> 0 <= pos -> agree S d d' -> (forall i, S i -> S' i) -> records_in d' S' pos n l.
Proof.
  induction l as [|r l IH]; intros pos n H Hok Hp HA HS; [done|]. apply Forall_cons in Hok as [Hr Hok]. destruct H as (n1 & H1 & H2). exists n1. pose proof (record_in_size _ _ _ _ _ H1).
  split; [eapply record_in_agree; [exact H1|by apply Hr|done..]|]. apply IH; [done|done|lia|done|done].
Qed.

Lemma records_in_app d S l1 l2 : forall pos n1 n2, records_in d S pos n1 l1 -> records_in d S (pos + n1) n2 l2 -> records_in d S pos (n1 + n2) (l1 ++ l2).
Proof.
  induction l1 as [|r l1 IH]; intros pos n1 n2; cbn [records_in app].
  - intros -> H. by rewrite Z.add_0_r in H.
  - intros (m & H1 & H2) H3. exists m. split; [done|]. replace (n1 + n2 - m) with (n1 - m + n2) by lia. apply IH; [done|]. by replace (pos + m + (n1 - m)) with (pos + n1) by lia.
Qed.

Lemma records_in_size d S l : forall pos n, records_in d S pos n l -> 11 * zlen l <= n.
Proof.
  induction l as [|r l IH]; intros pos n; cbn [records_in]; [intros ->; done|]. intros (m & H1%record_in_size & H2%IH). rewrite zlen_cons. lia.
Qed.

Section Rrset.
Context (cfg : ttl_settings) (b0 : sldns_buffer) (Hlim : b0.(_limit) <= 65535).
Abbreviation lim := (b0.(_limit)).
Abbreviation at_d := (buffer_at b0).
Abbreviation at_e := (encoder_at b0).
Abbreviation enc := (enc b0).
Abbreviation ends := (ends b0).
Abbreviation owner_ends := (owner_ends b0).

(** ** One RR *)

(** The TTL that is written. *)
Definition shown_ttl (ttl adjust : Z) : Z :=
  u32 (if ttl <? adjust then (if cfg.(SERVE_EXPIRED) then cfg.(SERVE_EXPIRED_REPLY_TTL) else 0) else ttl - adjust).

Lemma written_ttl_ok ttl adjust : in_s 63 ttl -> in_s 63 adjust -> written_ttl cfg ttl adjust = Ok (shown_ttl ttl adjust).
Proof. unfold in_s, written_ttl, shown_ttl. intros H1 H2. zcase; [done|]. by rewrite sint_ok by (unfold in_s; lia). Qed.

(** The writes of [middle], one by one. *)
Lemma write_middle w d p x y z : buf_ok (at_d d p) d -> zlen x = 2 -> zlen y = 2 -> p + 2 + 2 + zlen z <= lim ->
  at_e w (spliced (spliced (spliced d p x) (p + 2) y) (p + 2 + 2) z) (p + 2 + 2 + zlen z) = at_e w (spliced d p (x ++ y ++ z)) (p + zlen (x ++ y ++ z)).
Proof.
  intros B Hx Hy Hl. pose proof (good_range _ _ _ B). pose proof (zlen_nonneg z).
  assert (spliced (spliced d p x) (p + 2) y = spliced d p (x ++ y)) as -> by (rewrite <- Hx; apply spliced_spliced; [lia|rewrite Hx, Hy; lia]).
  assert (zlen (x ++ y) = 4) as Hxy by (rewrite zlen_app; lia). replace (p + 2 + 2) with (p + zlen (x ++ y)) by lia.
  rewrite spliced_spliced by lia. rewrite <- app_assoc, !zlen_app. f_equal. lia.
Qed.

(** Rdata that is copied. *)
Lemma copied_rdata d p L w type out : enc 0 d p L w -> plain (fields type) (dnames type) out -> bytes_ok out -> p + (2 + zlen out) <= lim ->
  (forall r, e_write (rr_bytes out ++ r) (2 + zlen out) w = Ok (tt, at_e w (spliced d p (rr_bytes out)) (p + (2 + zlen out)))) /\
  enc 0 (spliced d p (rr_bytes out)) (p + (2 + zlen out)) L (at_e w (spliced d p (rr_bytes out)) (p + (2 + zlen out))) /\
  onward p d L w (p + (2 + zlen out)) (spliced d p (rr_bytes out)) L (at_e w (spliced d p (rr_bytes out)) (p + (2 + zlen out))) /\
  rdata_at (spliced d p (rr_bytes out)) (solid 0 (p + (2 + zlen out))) type p (2 + zlen out) out.
Proof.
  intros H HP Hb Hl. rewrite <- zlen_rr_block in *. pose proof (enc_at _ _ _ _ _ _ H) as Ew. pose proof (en_buf _ _ _ _ _ _ H) as B. pose proof (en_pos _ _ _ _ _ _ H).
  assert (bytes_ok (rr_bytes out)) as Hbb by (apply Forall_app; split; [apply write_uint16_bytes|done]).
  destruct (enc_write _ _ _ _ _ _ (rr_bytes out) H Hbb ltac:(lia)) as (H1 & O1 & Hh). split; [|split; [done|split; [done|]]].
  - intros r. pose proof (e_write_ok b0 w d p (rr_bytes out) r _ B Hbb eq_refl ltac:(lia)) as E1. rewrite <- Ew in E1. exact E1.
  - rewrite zlen_rr_block in *. pose proof (zlen_nonneg out). unfold rdata_at. replace (2 + zlen out - 2) with (zlen out) by lia. unfold rr_bytes in Hh. apply has_app in Hh as [G1 G2]; [|lia].
    assert (u16 (zlen out) = zlen out) as Eu by (apply wrap_small; unfold in_u; lia). unfold rr_bytes. rewrite Eu in *. split; [lia|]. split; [done|]. split; [intros i Hi; unfold solid; lia|]. apply plain_in; [done|lia|exact G2|intros i Hi; unfold solid; lia].
Qed.

(** A record whose name was written, and then the rest of it. *)
Lemma record_done p d L w p1 d1 L1 w1 p2 d2 L2 w2 r : enc 0 d1 p1 L1 w1 -> onward p d L w p1 d1 L1 w1 -> written d1 (solid 0 p1) p (p1 - p) r.(r_name) -> record_ok r -> p1 + 8 <= lim ->
  onward (p1 + 8) (spliced d1 p1 (middle r)) L1 (at_e w1 (spliced d1 p1 (middle r)) (p1 + 8)) p2 d2 L2 w2 ->
  rdata_at d2 (solid 0 p2) r.(r_type) (p1 + 8) (p2 - (p1 + 8)) r.(r_rdata) ->
  record_in d2 (solid 0 p2) p (p2 - p) r.
Proof.
  intros H1 O1 Hw Hok Hl O2 Hr. pose proof (en_buf _ _ _ _ _ _ H1) as B. pose proof (en_pos _ _ _ _ _ _ H1). destruct (ro_class r Hok) as [_ Hc].
  assert (zlen (middle r) = 8) as Hm by (unfold middle; rewrite !zlen_app, Hc; done). pose proof (ow_pos _ _ _ _ _ _ _ _ O2).
  exists (p1 - p), (p2 - (p1 + 8)). replace (p + (p1 - p)) with p1 by lia. split; [|split; [|split; [intros i Hi; unfold solid; lia|split; [done|lia]]]].
  - eapply written_agree; [exact Hw| |intros i; apply solid_more; lia]. eapply agree_trans; [eapply kept_solid, (splice_kept b0); [exact B|by rewrite Hm]|].
    eapply agree_sub; [apply O2|]. unfold solid. cbn. lia.
  - eapply (has_agree (fun i => p1 <= i < p1 + 8)); [|rewrite Hm; by intros i|lia|apply (splice_has b0); [exact B|by rewrite Hm]]. eapply agree_sub; [apply O2|]. cbn. lia.
Qed.

(** *** RRsets that can be encoded *)

Definition rdata_ok (type : Z) (out : list Z) : Prop := plain (fields type) (dnames type) out /\ bytes_ok out /\ zlen out < 2 ^ 62.

(** The RRset has the name [ls], the RRs [l1] and the signatures [l2]. *)
Record encodable (k : ub_packed_rrset_key) (ls : name) (type : Z) (x : packed_rrset_data) (l1 l2 : list rr) : Prop := {
  ec_name : key_name k ls;
  ec_type : k.(rk).(rk_type) = sldns_write_uint16 type /\ in_u 16 type;
  ec_class : bytes_ok k.(rk).(rk_class) /\ zlen k.(rk).(rk_class) = 2;
  ec_data : k.(entry_data) = Some x;
  ec_packed : packed_ok x (bytes_of (l1 ++ l2));
  ec_counts : x.(d_count) = zlen l1 /\ x.(d_rrsig_count) = zlen l2;
  ec_ttls : x.(d_rr_ttl) = map fst (l1 ++ l2) /\ Forall (in_s 63) (map fst (l1 ++ l2)) /\ in_s 63 x.(d_ttl_add);
  ec_rdata : Forall (rdata_ok type) (map snd l1) /\ Forall (rdata_ok LDNS_RR_TYPE_RRSIG) (map snd l2);
}.

Section Key.
Context (k : ub_packed_rrset_key) (ls : name) (type : Z) (x : packed_rrset_data) (l1 l2 : list rr) (K : encodable k ls type x l1 l2).
Context (adjust : Z) (Hadj : in_s 63 adjust).

Definition record_of (t : Z) (r : rr) : record := mk_record ls t k.(rk).(rk_class) (shown_ttl r.1 adjust) r.2.

Lemma record_of_ok t r : in_u 16 t -> rdata_ok t r.2 -> record_ok (record_of t r).
Proof. intros Ht Hr. split; cbn; [apply K|done|apply K|apply wrap_range; lia|done]. Qed.

Lemma rr_ttl_at la r lb : l1 ++ l2 = la ++ r :: lb -> index x.(d_rr_ttl) (zlen la) = Ok r.1 /\ in_s 63 r.1.
Proof.
  intros E. destruct (ec_ttls _ _ _ _ _ _ K) as (-> & H & _). rewrite E, map_app in *. cbn [map] in *. split; [apply index_app; by rewrite zlen_map|]. apply Forall_app in H as [_ H]. by apply Forall_cons in H as [? _].
Qed.

Lemma rr_at la r lb : l1 ++ l2 = la ++ r :: lb -> index x.(d_rr_len) (zlen la) = Ok (2 + zlen r.2) /\ rr_ptr x (zlen la) = Ok (rr_bytes r.2 ++ concat (bytes_of lb)).
Proof.
  intros E. assert (bytes_of (l1 ++ l2) = bytes_of la ++ rr_bytes r.2 :: bytes_of lb) as Eb by (rewrite E; unfold bytes_of; by rewrite map_app).
  assert (zlen la = zlen (bytes_of la)) as -> by (unfold bytes_of; by rewrite zlen_map).
  split; [rewrite (packed_len _ _ (ec_packed _ _ _ _ _ _ K) _ _ _ Eb); by rewrite zlen_rr_block|by apply (packed_ptr _ _ (ec_packed _ _ _ _ _ _ K) _ _ _ Eb)].
Qed.

(** What [packed_rrset_encode] looks up for rdata with names. *)
Definition descriptor : option sldns_rr_descriptor :=
  match sldns_rr_descript type with Some desc => match desc.(_compress) with LDNS_RR_COMPRESS => Some desc | _ => None end | None => None end.

Lemma compressable_ok : type_rdata_compressable k = Ok descriptor.
Proof.
  unfold type_rdata_compressable, ntohs. destruct (ec_type _ _ _ _ _ _ K) as [-> Ht]. pose proof (read_write_uint16 type [] Ht) as E. rewrite app_nil_r in E. by rewrite E.
Qed.

(** The rest of the record, after the name and what is in the middle. *)
Lemma encode_rdata d p L w out r : enc 0 d p L w -> p + 2 <= lim -> rdata_ok type out ->
  exists ret w', (match descriptor with
                  | Some desc => compress_rdata (rr_bytes out ++ r) (2 + zlen out) desc
                  | None => rem ← e_remaining; if rem <? 2 + zlen out then mret RETVAL_TRUNC else e_write (rr_bytes out ++ r) (2 + zlen out);; mret RETVAL_OK
                  end : E Z) w = Ok (ret, w') /\ ends 0 d p L w (2 + zlen out) ret w' (fun d' p' _ => rdata_at d' (solid 0 p') type p (p' - p) out).
Proof.
  intros H Hl (HP & Hb & Hz). destruct descriptor as [desc|] eqn:Ed.
  - apply compress_rdata_ok; try done. unfold descriptor in Ed. destruct (sldns_rr_descript type) as [desc'|]; [|done]. destruct (_compress desc'); [by injection Ed as ->|done].
  - rewrite (st_bind_ok _ _ _ _ _ (enc_remaining _ _ _ _ _ _ H)). cbv beta. destruct (Z.ltb_spec (lim - p) (2 + zlen out)).
    + exists RETVAL_TRUNC, w. split; [done|]. right. left. split; [done|]. split; [lia|]. eapply enc_stopped; [exact H|apply onward_refl].
    + destruct (copied_rdata d p L w type out H HP Hb ltac:(lia)) as (E1 & H1 & O1 & R). rewrite (st_bind_ok _ _ _ _ _ (E1 r)). cbv beta. exists RETVAL_OK. eexists. split; [reflexivity|].
      left. split; [done|]. eexists _, _, L. split; [exact H1|]. split; [exact O1|]. split; [lia|]. by replace (p + (2 + zlen out) - p) with (2 + zlen out) by lia.
Qed.

(** The type, the class and the TTL of a record, after its name. *)
Lemma middle_step {A} d p L w t la r lb (first : E unit) (cont : E A) : enc 0 d p L w -> p + 8 <= lim -> l1 ++ l2 = la ++ r :: lb ->
  first w = Ok (tt, at_e w (spliced d p (sldns_write_uint16 t)) (p + 2)) ->
  let v := record_of t r in let d' := spliced d p (middle v) in
  (first;; e_write k.(rk).(rk_class) 2;; ttl_ ← lift (index x.(d_rr_ttl) (zlen la)); tt_ ← lift (written_ttl cfg ttl_ adjust); e_write_u32 tt_;; cont) w = cont (at_e w d' (p + 8)) /\
  enc 0 d' (p + 8) L (at_e w d' (p + 8)) /\ onward p d L w (p + 8) d' L (at_e w d' (p + 8)).
Proof.
  intros H Hl El E1. cbv zeta. rewrite (st_bind_ok _ _ _ _ _ E1). cbv beta. destruct (ec_class _ _ _ _ _ _ K) as [Hcb Hcz]. pose proof (en_buf _ _ _ _ _ _ H) as B1.
  pose proof (good_splice b0 d p (sldns_write_uint16 t) B1 (write_uint16_bytes _)) as B2. change (zlen (sldns_write_uint16 t)) with 2 in B2. specialize (B2 ltac:(lia)).
  pose proof (e_write_all b0 w _ _ _ 2 B2 Hcb (eq_sym Hcz) ltac:(lia)) as E3. rewrite (st_bind_ok _ _ _ _ _ E3). cbv beta. pose proof (good_splice b0 _ _ _ B2 Hcb ltac:(lia)) as B3. rewrite Hcz in *.
  destruct (rr_ttl_at la r lb El) as [Et Hts]. assert (in_u 32 (shown_ttl r.1 adjust)) as Hu by (apply wrap_range; lia).
  erewrite st_bind_ok by (unfold lift; rewrite Et; reflexivity). cbv beta. erewrite st_bind_ok by (unfold lift; rewrite (written_ttl_ok _ _ Hts Hadj); reflexivity). cbv beta.
  rewrite (st_bind_ok _ _ _ _ _ (e_write_u32_ok b0 w _ _ _ B3 Hu ltac:(lia))). cbv beta.
  pose proof (write_middle w d p (sldns_write_uint16 t) k.(rk).(rk_class) (sldns_write_uint32 (shown_ttl r.1 adjust)) B1 eq_refl Hcz) as Em. change (zlen (sldns_write_uint32 _)) with 4 in Em. rewrite Em by lia.
  set (v := record_of t r). change (sldns_write_uint16 t ++ rk_class (rk k) ++ sldns_write_uint32 (shown_ttl r.1 adjust)) with (middle v).
  assert (zlen (middle v) = 8) as Hmz by (unfold middle; rewrite !zlen_app; cbn [r_class record_of v]; rewrite Hcz; done). rewrite Hmz.
  assert (bytes_ok (middle v)) as Hmb by (unfold middle; repeat (apply Forall_app; split); auto with cwd).
  destruct (enc_write b0 0 d p L w (middle v) H Hmb ltac:(lia)) as (H2 & O2 & _). by rewrite Hmz in *.
Qed.

Lemma encode_rr_ok d p L w off optr la r lb : enc 0 d p L w -> l1 ++ l2 = la ++ r :: lb -> rdata_ok type r.2 -> 0 <= off <= p -> owner_ok d (solid 0 p) L p ls off optr ->
  exists res w', encode_rr cfg k x descriptor off (1 + zlen ls) adjust (zlen la) optr w = Ok (res, w') /\
    ends 0 d p L w (full_size (record_of type r)) res.1 w' (fun d' p' L' => record_in d' (solid 0 p') p (p' - p) (record_of type r) /\ owner_ok d' (solid 0 p') L' p' ls off res.2).
Proof.
  intros H El Hr Hoff Hown. pose proof (en_pos _ _ _ _ _ _ H) as H12. pose proof (zlen_nonneg r.2). unfold encode_rr. assert (full_size (record_of type r) = zlen (wire ls) + 10 + zlen r.2) as -> by done.
  destruct (compress_owner_ok b0 0 d p L w k ls off optr H (ec_name _ _ _ _ _ _ K) ltac:(lia) Hoff Hown) as ([ret optr'] & w1 & E1 & HO). rewrite (st_bind_ok _ _ _ _ _ E1). cbv beta iota. clear E1.
  red in HO. cbn [fst snd] in HO. destruct HO as [(-> & d1 & p1 & L1 & H1 & O1 & _ & Hw & Hp1 & Hl1 & Hown1)|[(-> & Hl & Hs)|[-> Hm]]]; cbn [fst snd] in *.
  2:{ eexists (_, _), w1. split; [reflexivity|]. right. left. split; [done|]. split; [cbn; lia|done]. }
  2:{ eexists (_, _), w1. split; [reflexivity|]. by right; right. }
  cbn [Z.eqb RETVAL_OK negb]. destruct (ec_type _ _ _ _ _ _ K) as [-> Ht]. pose proof (enc_at _ _ _ _ _ _ H1) as Ew1. pose proof (en_buf _ _ _ _ _ _ H1) as B1.
  pose proof (e_write_all b0 w1 d1 p1 (sldns_write_uint16 type) 2 B1 (write_uint16_bytes _) eq_refl) as E2. change (zlen (sldns_write_uint16 type)) with 2 in E2. specialize (E2 ltac:(lia)).
  rewrite <- Ew1 in E2. destruct (rr_at la r lb El) as [Elen Eptr]. set (v := record_of type r).
  destruct (middle_step d1 p1 L1 w1 type la r lb _ (mret tt) H1 ltac:(lia) El E2) as (_ & H2 & O2). rewrite (proj1 (middle_step d1 p1 L1 w1 type la r lb _ _ H1 ltac:(lia) El E2)). fold v in H2, O2 |- *.
  erewrite st_bind_ok by (unfold lift; rewrite Eptr; reflexivity). cbv beta. erewrite st_bind_ok by (unfold lift; rewrite Elen; reflexivity). cbv beta.
  destruct (encode_rdata _ _ L1 _ r.2 (concat (bytes_of lb)) H2 ltac:(lia) Hr) as (ret & w2 & E4 & HE).
  exists (ret, optr'), w2. split.
  { destruct descriptor; [by rewrite (st_bind_ok _ _ _ _ _ E4)|]. revert E4. unfold mbind, ST_bind. destruct (e_remaining _) as [[rem w3]| |]; [|done|done]. destruct (rem <? _); [by intros [= <- <-]|].
    destruct (to_pkt _ w3) as [[[] w4]| |]; [by intros [= <- <-]|done|done]. }
  cbn [fst snd]. destruct HE as [(-> & d3 & p3 & L3 & H3 & O3 & Hp3 & R)|[(-> & Hl & Hs)|[-> Hm]]].
  - left. split; [done|]. exists d3, p3, L3. split; [done|]. pose proof (onward_trans _ _ _ _ _ _ _ _ _ _ _ _ O2 O3) as O4. split; [by eapply onward_trans|]. split; [lia|].
    split; [apply (record_done p d L w p1 d1 L1 w1 p3 d3 L3 w2); try done; [by apply record_of_ok|lia]|]. eapply owner_agree; [exact Hown1|lia|apply (kept_solid 0 p1), O4|intros i; apply solid_more, (ow_pos _ _ _ _ _ _ _ _ O4)|apply O4].
  - right. left. split; [done|]. split; [lia|]. eapply stopped_onward; [exact O1|]. by eapply stopped_onward.
  - right. right. split; [done|]. eapply nomem_onward; [exact O1|]. by eapply nomem_onward.
Qed.

(** *** Signatures *)

(** What [owner_ptr] is when the signatures are written. *)
Definition sig_owner (d : list Z) (S : Z -> Prop) (optr : Z) : Prop :=
  optr = 0 \/ ls = [] \/ exists q, optr = PTR_CREATE q /\ 0 <= q <= PTR_MAX_OFFSET /\ spelled d S q ls.

Lemma sig_owner_agree d d' (S S' : Z -> Prop) optr : sig_owner d S optr -> agree S d d' -> (forall i, S i -> S' i) -> sig_owner d' S' optr.
Proof. intros [?|[?|(q & E & Hq & H)]] HA HS; [by left|by right; left|]. right. right. exists q. do 2 (split; [done|]). by eapply spelled_agree. Qed.

Lemma owner_sig d S L p off optr : owner_ok d S L p ls off optr -> sig_owner d S optr.
Proof. intros [?|q ? ? ?|? ?|? ?]; [by right; left|right; right; by exists q|by left..]. Qed.

(** The name of a signature; there is room for the rest. *)
Lemma sig_name_ok d p L w optr (r : rr) : enc 0 d p L w -> sig_owner d (solid 0 p) optr -> zlen r.2 < 2 ^ 62 ->
  exists ret w', (if negb (optr =? 0) && negb (1 + zlen ls =? 1) then
         rem ← e_remaining;
         if rem <? u64 (2 + 4 + 4 + (2 + zlen r.2)) then mret RETVAL_TRUNC else
         e_write (sldns_write_uint16 optr) 2;; mret RETVAL_OK
       else
         r0 ← compress_any_dname k.(rk).(rk_dname) (1 + zlen ls);
         if negb (r0 =? RETVAL_OK) then mret r0 else
         rem ← e_remaining;
         mret (if rem <? u64 (4 + 4 + (2 + zlen r.2)) then RETVAL_TRUNC else RETVAL_OK) : E Z) w = Ok (ret, w') /\
    ((ret = RETVAL_OK /\ exists d' p' L', enc 0 d' p' L' w' /\ onward p d L w p' d' L' w' /\ p' <= p + zlen (wire ls) /\ p' + 10 + zlen r.2 <= lim /\ written d' (solid 0 p') p (p' - p) ls) \/
     (ret = RETVAL_TRUNC /\ lim < p + zlen (wire ls) + 10 + zlen r.2 /\ stopped b0 p d w w') \/ (ret = RETVAL_OUTMEM /\ nomem b0 p d w w')).
Proof.
  intros H Ho Hz. destruct (ec_name _ _ _ _ _ _ K) as ((rest & Ek) & _ & Hok). pose proof Hok as [Hls _]. pose proof (zlen_nonneg r.2) as Z0. pose proof (zlen_nonneg ls) as Z1. pose proof (en_pos _ _ _ _ _ _ H) as H12.
  pose proof (enc_at _ _ _ _ _ _ H) as Ew. pose proof (en_buf _ _ _ _ _ _ H) as B. pose proof (wire_labels_bound ls Hls) as Hwl.
  destruct (Z.eqb_spec optr 0) as [E0|E0]; cbn [negb andb]; [|destruct (Z.eqb_spec (1 + zlen ls) 1) as [E1|E1]; cbn [negb]].
  2: assert (ls = []) as Els by (apply zlen_0_inv; lia).
  3:{ rewrite (st_bind_ok _ _ _ _ _ (enc_remaining _ _ _ _ _ _ H)), wrap_small by (unfold in_u; lia). cbv beta. destruct Ho as [?|[->|(q & Eq & Hq & Hsp)]]; [done|done|].
      destruct (Z.ltb_spec (lim - p) (2 + 4 + 4 + (2 + zlen r.2))).
      { exists RETVAL_TRUNC, w. split; [done|]. right. left. split; [done|]. split; [unfold zlen in *; lia|]. eapply enc_stopped; [exact H|apply onward_refl]. }
      pose proof (e_write_all b0 w d p (pointer q) 2 B (write_uint16_bytes _) eq_refl ltac:(rewrite zlen_pointer; lia)) as E'. rewrite <- Ew in E'. unfold pointer in E'. rewrite <- Eq in E'. rewrite (st_bind_ok _ _ _ _ _ E'). cbv beta.
      rewrite Eq. fold (pointer q). destruct (enc_write b0 0 d p L w (pointer q) H (write_uint16_bytes _)) as (H1 & O1 & Hh); [rewrite zlen_pointer; lia|]. rewrite zlen_pointer in *. change (zlen (sldns_write_uint16 (PTR_CREATE q))) with 2.
      exists RETVAL_OK. eexists. split; [reflexivity|]. left. split; [done|]. eexists _, _, L. split; [exact H1|]. split; [exact O1|]. split; [unfold zlen in *; lia|]. split; [lia|].
      destruct Hsp as (k' & ls' & e & Hc & Hlow & Hk). exists (k' + 1), ls'. replace (p + 2 - p) with 2 by lia. split; [|split; [done|lia]]. apply (chain_ptr _ _ k' p q ls' e); [lia|done|done|intros i Hi; unfold solid; lia|].
      eapply chain_agree; [exact Hc|apply (kept_solid 0 p), O1|intros i; apply solid_more; lia]. }
  all: rewrite Ek; destruct (any_dname_ok b0 0 d p L w ls rest H Hok ltac:(lia)) as (ret & w1 & E & HE); rewrite (st_bind_ok _ _ _ _ _ E); cbv beta;
    (destruct HE as [(-> & d1 & p1 & L1 & H1 & O1 & Hp1 & Hw)|[(-> & Hl & Hs)|[-> Hm]]];
     [|exists RETVAL_TRUNC, w1; split; [done|]; right; left; split; [done|]; split; [lia|done]|exists RETVAL_OUTMEM, w1; split; [done|]; by right; right]);
    cbn [Z.eqb RETVAL_OK negb]; rewrite (st_bind_ok _ _ _ _ _ (enc_remaining _ _ _ _ _ _ H1)), wrap_small by (unfold in_u; lia); cbv beta;
    (destruct (Z.ltb_spec (lim - p1) (4 + 4 + (2 + zlen r.2)));
     [exists RETVAL_TRUNC, w1; split; [done|]; right; left; split; [done|]; split; [lia|]; by eapply enc_stopped
     |exists RETVAL_OK, w1; split; [done|]; left; split; [done|]; exists d1, p1, L1; do 3 (split; [done|]); split; [lia|done]]).
Qed.

Lemma encode_sig_ok d p L w optr la r lb : enc 0 d p L w -> l1 ++ l2 = la ++ r :: lb -> rdata_ok LDNS_RR_TYPE_RRSIG r.2 -> sig_owner d (solid 0 p) optr ->
  exists ret w', encode_sig cfg k x (1 + zlen ls) adjust (zlen la) optr w = Ok (ret, w') /\
    ends 0 d p L w (full_size (record_of LDNS_RR_TYPE_RRSIG r)) ret w' (fun d' p' L' => record_in d' (solid 0 p') p (p' - p) (record_of LDNS_RR_TYPE_RRSIG r) /\ sig_owner d' (solid 0 p') optr).
Proof.
  intros H El (HP & Hb & Hz) Ho. pose proof (en_pos _ _ _ _ _ _ H) as H12. pose proof (zlen_nonneg r.2). unfold encode_sig. assert (full_size (record_of LDNS_RR_TYPE_RRSIG r) = zlen (wire ls) + 10 + zlen r.2) as -> by done.
  destruct (rr_at la r lb El) as [Elen Eptr]. erewrite st_bind_ok by (unfold lift; rewrite Elen; reflexivity). cbv beta.
  destruct (sig_name_ok d p L w optr r H Ho Hz) as (ret & w1 & E1 & HE). rewrite (st_bind_ok _ _ _ _ _ E1). cbv beta. clear E1.
  destruct HE as [(-> & d1 & p1 & L1 & H1 & O1 & Hp1 & Hl1 & Hw)|[(-> & Hl & Hs)|[-> Hm]]].
  2:{ eexists _, w1. split; [reflexivity|]. right. left. split; [done|]. split; [lia|done]. }
  2:{ eexists _, w1. split; [reflexivity|]. by right; right. }
  cbn [Z.eqb RETVAL_OK negb]. pose proof (enc_at _ _ _ _ _ _ H1) as Ew1. pose proof (en_buf _ _ _ _ _ _ H1) as B1.
  pose proof (e_write_u16_ok b0 w1 d1 p1 LDNS_RR_TYPE_RRSIG B1 ltac:(unfold in_u, LDNS_RR_TYPE_RRSIG; lia) ltac:(lia)) as E2. rewrite <- Ew1 in E2.
  set (v := record_of LDNS_RR_TYPE_RRSIG r). destruct (middle_step d1 p1 L1 w1 LDNS_RR_TYPE_RRSIG la r lb _ (mret tt) H1 ltac:(lia) El E2) as (_ & H2 & O2).
  rewrite (proj1 (middle_step d1 p1 L1 w1 LDNS_RR_TYPE_RRSIG la r lb _ _ H1 ltac:(lia) El E2)). fold v in H2, O2 |- *.
  erewrite st_bind_ok by (unfold lift; rewrite Eptr; reflexivity). cbv beta.
  destruct (copied_rdata _ _ L1 _ LDNS_RR_TYPE_RRSIG r.2 H2 HP Hb ltac:(lia)) as (E4 & H3 & O3 & R). rewrite (st_bind_ok _ _ _ _ _ (E4 _)). cbv beta.
  eexists _, _. split; [reflexivity|]. left. split; [done|]. eexists _, _, L1. split; [exact H3|]. pose proof (onward_trans _ _ _ _ _ _ _ _ _ _ _ _ O2 O3) as O4. split; [by eapply onward_trans|]. split; [lia|].
  split; [eapply (record_done p d L w p1 d1 L1 w1); try done; [by apply record_of_ok|lia|by replace (p1 + 8 + (2 + zlen r.2) - (p1 + 8)) with (2 + zlen r.2) by lia]|].
  pose proof (ow_pos _ _ _ _ _ _ _ _ O1). eapply sig_owner_agree; [exact Ho| |intros i; apply solid_more; lia]. apply (kept_solid 0 p). eapply onward_trans; [exact O1|exact O4].
Qed.

(** *** The loops *)

(** The RRs from the [i]-th on, in the order that starts with the one of number [off]. *)
Fixpoint rotated (n : nat) (l : list rr) (off i : Z) : list rr :=
  match n with
  | O => []
  | S n' => default (0, []) (l !! Z.to_nat (u64 (i + off) mod zlen l)) :: rotated n' l off (i + 1)
  end.

Lemma rotated_S n (l : list rr) off i r : l !! Z.to_nat (u64 (i + off) mod zlen l) = Some r -> rotated (S n) l off i = r :: rotated n l off (i + 1).
Proof. intros E1. cbn [rotated]. by rewrite E1. Qed.

(** The second of two steps. *)
Lemma ends_then d p L w s1 d1 p1 L1 w1 s2 r w2 (Q2 Q : list Z -> Z -> list (addr * name) -> Prop) : onward p d L w p1 d1 L1 w1 -> p1 <= p + s1 -> ends 0 d1 p1 L1 w1 s2 r w2 Q2 ->
  (forall d2 p2 L2, onward p1 d1 L1 w1 p2 d2 L2 w2 -> Q2 d2 p2 L2 -> Q d2 p2 L2) -> ends 0 d p L w (s1 + s2) r w2 Q.
Proof.
  intros O1 Hp1 [(-> & d2 & p2 & L2 & H2 & O2 & Hp2 & HQ)|[(-> & Hl & Hs)|[-> Hm]]] HQ'.
  - left. split; [done|]. exists d2, p2, L2. split; [done|]. split; [by eapply onward_trans|]. split; [lia|]. by apply HQ'.
  - right. left. split; [done|]. split; [lia|]. by eapply stopped_onward.
  - right. right. split; [done|]. by eapply nomem_onward.
Qed.

(** A record, and those after it. *)
Lemma records_cons d1 p p1 d2 p2 L1 L2 w1 w2 r l : record_in d1 (solid 0 p1) p (p1 - p) r -> record_ok r -> 0 <= p -> onward p1 d1 L1 w1 p2 d2 L2 w2 -> records_in d2 (solid 0 p2) p1 (p2 - p1) l ->
  records_in d2 (solid 0 p2) p (p2 - p) (r :: l).
Proof.
  intros H1 Hok Hp O H2. exists (p1 - p). replace (p + (p1 - p)) with p1 by lia. replace (p2 - p - (p1 - p)) with (p2 - p1) by lia. split; [|done].
  eapply record_in_agree; [exact H1|apply Hok|done|apply (kept_solid 0 p1), O|intros i; apply solid_more, (ow_pos _ _ _ _ _ _ _ _ O)].
Qed.

Lemma rr_loop_ok rroff n : forall d p L w off optr i, enc 0 d p L w -> (n = 0%nat \/ 0 < zlen l1) -> 0 <= off <= p -> owner_ok d (solid 0 p) L p ls off optr ->
  exists res w', rr_loop cfg n k x descriptor off (1 + zlen ls) adjust rroff i optr w = Ok (res, w') /\
    ends 0 d p L w (full_sizes (map (record_of type) (rotated n l1 rroff i))) res.1 w' (fun d' p' L' =>
      records_in d' (solid 0 p') p (p' - p) (map (record_of type) (rotated n l1 rroff i)) /\ owner_ok d' (solid 0 p') L' p' ls off res.2).
Proof.
  induction n as [|n IH]; intros d p L w off optr i H Hn Hoff Hown; cbn [rr_loop].
  { exists (RETVAL_OK, optr), w. split; [done|]. left. split; [done|]. exists d, p, L. split; [done|]. split; [apply onward_refl|]. cbn. split; [lia|]. split; [lia|done]. }
  destruct Hn as [|Hn]; [done|]. destruct (ec_counts _ _ _ _ _ _ K) as [Hc _]. rewrite Hc. set (j := u64 (i + rroff) mod zlen l1). assert (0 <= j < zlen l1) as Hj by (apply Z.mod_pos_bound; lia).
  destruct (lookup_lt_is_Some_2 l1 (Z.to_nat j)) as [r Er]; [unfold zlen in Hj; lia|]. rewrite (rotated_S n l1 rroff i r Er). cbn [map].
  assert (zlen (take (Z.to_nat j) l1) = j) as Ez by (unfold zlen in *; rewrite length_take; lia).
  assert (l1 ++ l2 = take (Z.to_nat j) l1 ++ r :: (drop (S (Z.to_nat j)) l1 ++ l2)) as El by (rewrite <- (take_drop_middle l1 _ r Er) at 1; by rewrite <- app_assoc).
  assert (rdata_ok type r.2) as Hr by (destruct (ec_rdata _ _ _ _ _ _ K) as [HF _]; rewrite Forall_map, Forall_forall in HF; apply HF; by eapply list_elem_of_lookup_2).
  destruct (encode_rr_ok d p L w off optr _ r _ H El Hr Hoff Hown) as ([ret optr'] & w1 & E1 & HE). rewrite Ez in E1. rewrite (st_bind_ok _ _ _ _ _ E1). cbv beta iota. cbn [fst snd] in HE.
  change (full_sizes (record_of type r :: ?l)) with (full_size (record_of type r) + full_sizes l).
  pose proof (full_sizes_nonneg (map (record_of type) (rotated n l1 rroff (i + 1)))).
  destruct HE as [(-> & d1 & p1 & L1 & H1 & O1 & Hp1 & Hrec & Hown1)|[(-> & Hl & Hs)|[-> Hm]]]; cbn [Z.eqb RETVAL_OK RETVAL_TRUNC RETVAL_OUTMEM negb].
  - pose proof (ow_pos _ _ _ _ _ _ _ _ O1). destruct (IH d1 p1 L1 w1 off optr' (i + 1) H1 ltac:(by right) ltac:(lia) Hown1) as (res & w2 & E2 & HE). exists res, w2. split; [exact E2|].
    eapply ends_then; [exact O1|exact Hp1|exact HE|]. intros d2 p2 L2 O2 [HR HO]. split; [|done]. eapply records_cons; [exact Hrec| |lia|exact O2|exact HR]. apply record_of_ok; [apply K|done].
  - exists (RETVAL_TRUNC, optr'), w1. split; [done|]. right. left. split; [done|]. split; [lia|done].
  - exists (RETVAL_OUTMEM, optr'), w1. split; [done|]. by right; right.
Qed.

Lemma sig_loop_ok lb : forall la d p L w optr, enc 0 d p L w -> l2 = la ++ lb -> sig_owner d (solid 0 p) optr ->
  exists ret w', sig_loop cfg (length lb) k x (1 + zlen ls) adjust (zlen (l1 ++ la)) optr w = Ok (ret, w') /\
    ends 0 d p L w (full_sizes (map (record_of LDNS_RR_TYPE_RRSIG) lb)) ret w' (fun d' p' L' => records_in d' (solid 0 p') p (p' - p) (map (record_of LDNS_RR_TYPE_RRSIG) lb)).
Proof.
  induction lb as [|r lb IH]; intros la d p L w optr H El Ho; cbn [sig_loop length map].
  { exists RETVAL_OK, w. split; [done|]. left. split; [done|]. exists d, p, L. split; [done|]. split; [apply onward_refl|]. cbn. lia. }
  assert (rdata_ok LDNS_RR_TYPE_RRSIG r.2) as Hr by (destruct (ec_rdata _ _ _ _ _ _ K) as [_ HF]; rewrite El, map_app in HF; apply Forall_app in HF as [_ HF]; by apply Forall_cons in HF as [? _]).
  assert (l1 ++ l2 = (l1 ++ la) ++ r :: lb) as El' by (by rewrite El, app_assoc).
  destruct (encode_sig_ok d p L w optr _ r _ H El' Hr Ho) as (ret & w1 & E1 & HE). rewrite (st_bind_ok _ _ _ _ _ E1). cbv beta.
  change (full_sizes (record_of LDNS_RR_TYPE_RRSIG r :: ?l)) with (full_size (record_of LDNS_RR_TYPE_RRSIG r) + full_sizes l).
  pose proof (full_sizes_nonneg (map (record_of LDNS_RR_TYPE_RRSIG) lb)) as Z0. pose proof (en_pos _ _ _ _ _ _ H) as H12.
  destruct HE as [(-> & d1 & p1 & L1 & H1 & O1 & Hp1 & Hrec & Ho1)|[(-> & Hl & Hs)|[-> Hm]]]; cbn [Z.eqb RETVAL_OK RETVAL_TRUNC RETVAL_OUTMEM negb].
  - destruct (IH (la ++ [r]) d1 p1 L1 w1 optr H1) as (ret & w2 & E2 & HE); [by rewrite El, <- app_assoc|done|]. exists ret, w2.
    split; [rewrite <- E2; f_equal; unfold zlen; rewrite !length_app; cbn; lia|]. eapply ends_then; [exact O1|exact Hp1|exact HE|]. intros d2 p2 L2 O2 HR.
    eapply records_cons; [exact Hrec| |lia|exact O2|exact HR]. apply record_of_ok; [unfold in_u, LDNS_RR_TYPE_RRSIG; lia|done].
  - exists RETVAL_TRUNC, w1. split; [done|]. right. left. split; [done|]. split; [lia|done].
  - exists RETVAL_OUTMEM, w1. split; [done|]. by right; right.
Qed.
End Key.
End Rrset.
