(* ===== verification/EncodeSection.v ===== *)
(** * Encoding replies: sections

    A section is a list of RRsets; it is written up to the end, or up to the first RRset
    that there is no room for, of which nothing stays. *)

From S2P Require Import Prelude Sbuffer Dname DnameCompare DnamePkt DnameOut PathOrder NameTree RrDef Msgparse MsgPkt MsgRdata PackedRrset PackedBlock Msgreply ReplyRrset ReplyMessage Msgencode EncodeTree EncodeStore EncodeNames EncodeRdata EncodeRrset.

(** An RRset with what is in it. *)
Record stored := mk_stored {
  st_key : ub_packed_rrset_key;
  st_name : name;
  st_type : Z;
  st_data : packed_rrset_data;
  st_rrs : list rr;
  st_sigs : list rr;
}.

Definition stored_ok (s : stored) : Prop := encodable s.(st_key) s.(st_name) s.(st_type) s.(st_data) s.(st_rrs) s.(st_sigs).

Section Records.
Context (cfg : ttl_settings).

(** What the TTLs are counted from. *)
Definition adjustment (timenow : Z) (s : stored) : Z :=
  if negb (Z.land s.(st_key).(rk).(rk_flags) PACKED_RRSET_FIXEDTTL =? 0) then 0
  else if cfg.(SERVE_ORIGINAL_TTL) then s.(st_data).(d_ttl_add) else timenow.

Definition rr_record (timenow : Z) (s : stored) (type : Z) (r : rr) : record := record_of cfg s.(st_key) s.(st_name) (adjustment timenow s) type r.

(** The records of the RRs, and those of the signatures, that belong in the section. *)
Definition rrset_records (timenow : Z) (do_data do_sig : bool) (s : sldns_pkt_section) (qtype_ : Z) (dnssec : bool) (off : Z) (x : stored) : list record :=
  if rrset_belongs_in_reply s x.(st_type) qtype_ dnssec then
    (if do_data then map (rr_record timenow x x.(st_type)) (rotated (length x.(st_rrs)) x.(st_rrs) off 0) else []) ++
    (if do_sig && dnssec then map (rr_record timenow x LDNS_RR_TYPE_RRSIG) x.(st_sigs) else [])
  else [].
End Records.

Lemma length_rotated n (l : list rr) off : forall i, length (rotated n l off i) = n.
Proof. induction n as [|n IH]; intros i; [done|]. cbn [rotated length]. by rewrite IH. Qed.

(** The rotation is one: the RRs from number [off] on, and then those before. *)
Lemma rotated_rotate l off : 0 <= off -> off + zlen l <= 2 ^ 64 -> rotated (length l) l off 0 = rotate (Z.to_nat (off mod zlen l)) l.
Proof.
  intros Ho Hl. destruct (decide (l = [])) as [->|Hne]; [unfold rotate; cbn [length rotated]; by rewrite drop_nil, take_nil|]. assert (0 < zlen l) as Hz by (destruct l; [done|]; rewrite zlen_cons; pose proof (zlen_nonneg l); lia).
  assert (forall n i, (0 <= i) -> i + Z.of_nat n <= zlen l -> forall j, rotated n l off i !! j = if decide (j < n)%nat then l !! Z.to_nat ((off + i + Z.of_nat j) mod zlen l) else None) as H.
  { induction n as [|n IH]; intros i Hi Hn j; [rewrite decide_False by lia; apply lookup_nil|]. 
    pose proof (Z.mod_pos_bound (i + off) (zlen l) Hz). destruct (lookup_lt_is_Some_2 l (Z.to_nat ((i + off) mod zlen l))) as [r Er]; [unfold zlen in *; lia|].
    rewrite (rotated_S n l off i r) by (by rewrite wrap_small by (unfold in_u; lia)). destruct j as [|j]; [rewrite decide_True by lia; symmetry; etransitivity; [|exact Er]; do 3 f_equal; lia|]. cbn [lookup list_lookup]. rewrite IH by lia.
    replace (off + (i + 1) + Z.of_nat j) with (off + i + Z.of_nat (S j)) by lia. destruct (decide (j < n)%nat), (decide (S j < S n)%nat); done || lia. }
  apply list_eq. intros j. rewrite H by (unfold zlen; lia). pose proof (Z.mod_pos_bound off (zlen l) Hz).
  destruct (decide (j < length l)%nat) as [Hj|Hj].
  - rewrite lookup_rotate_r by done. f_equal. unfold rotate_nat_add. rewrite Z2Nat.id by lia. change (Z.of_nat (length l)) with (zlen l). by rewrite Z.add_mod_idemp_l, Z.add_0_r by lia.
  - symmetry. apply lookup_ge_None. rewrite length_rotate. lia.
Qed.

Section Sections.
Context (cfg : ttl_settings) (b0 : sldns_buffer) (Hlim : b0.(_limit) <= 65535) (timenow : Z) (Hnow : in_s 63 timenow).
Abbreviation lim := (b0.(_limit)).
Abbreviation at_d := (buffer_at b0).
Abbreviation enc := (enc b0).
Abbreviation ends := (ends b0).
Abbreviation rr_record := (rr_record cfg timenow).
Abbreviation rrset_records := (rrset_records cfg timenow).

Lemma adjustment_range s : stored_ok s -> in_s 63 (adjustment cfg timenow s).
Proof. intros K. unfold adjustment. destruct (negb _); [unfold in_s; lia|]. destruct (SERVE_ORIGINAL_TTL cfg); [apply (ec_ttls _ _ _ _ _ _ K)|done]. Qed.

Lemma rotated_in n l off : forall i r, r ∈ rotated n l off i -> 0 < zlen l -> r ∈ l.
Proof.
  induction n as [|n IH]; intros i r; [by rewrite elem_of_nil|]. intros H Hz. pose proof (Z.mod_pos_bound (u64 (i + off)) (zlen l) Hz).
  destruct (lookup_lt_is_Some_2 l (Z.to_nat (u64 (i + off) mod zlen l))) as [r' Er]; [unfold zlen in *; lia|]. rewrite (rotated_S n l off i r' Er) in H.
  apply elem_of_cons in H as [->|H]; [by eapply list_elem_of_lookup_2|by eapply IH].
Qed.

Lemma rrset_records_ok do_data do_sig sect qt dnssec off s : stored_ok s -> Forall record_ok (rrset_records do_data do_sig sect qt dnssec off s).
Proof.
  intros K. unfold rrset_records, EncodeSection.rrset_records. destruct (rrset_belongs_in_reply _ _ _ _); [|constructor]. destruct (ec_rdata _ _ _ _ _ _ K) as [F1 F2]. rewrite Forall_map, Forall_forall in F1, F2. apply Forall_app. split.
  - destruct do_data; [|constructor]. apply Forall_map, Forall_forall. intros r Hr. destruct (decide (st_rrs s = [])) as [E|Hne]; [rewrite E in Hr; by apply elem_of_nil in Hr|].
    apply rotated_in in Hr; [|destruct (st_rrs s); [done|rewrite zlen_cons; pose proof (zlen_nonneg l); lia]]. eapply record_of_ok; [exact K|apply K|by apply F1].
  - destruct (_ && _); [|constructor]. apply Forall_map, Forall_forall. intros r Hr. eapply record_of_ok; [exact K|unfold in_u, LDNS_RR_TYPE_RRSIG; lia|by apply F2].
Qed.

(** ** One RRset *)

Lemma count_ok num (do_data do_sig : bool) (c1 c2 n1 n2 : Z) : in_u 16 num -> c1 = n1 -> c2 = n2 ->
  (let n := if do_data then u16 (num + c1) else num in if do_sig then u16 (n + c2) else n) = u16 (num + ((if do_data then n1 else 0) + (if do_sig then n2 else 0))).
Proof.
  intros Hn -> ->. cbv zeta. destruct do_data, do_sig; rewrite ?Z.add_0_r, ?Z.add_0_l; [|done|done|by rewrite wrap_small].
  unfold wrap. rewrite Z.add_mod_idemp_l by lia. f_equal. lia.
Qed.

Lemma data_part_ok d p L w s (do_data : bool) off adj : enc 0 d p L w -> stored_ok s -> in_s 63 adj ->
  let rs := if do_data then map (record_of cfg s.(st_key) s.(st_name) adj s.(st_type)) (rotated (length s.(st_rrs)) s.(st_rrs) off 0) else [] in
  exists res w1, (if do_data then c ← lift (type_rdata_compressable s.(st_key));
            rr_loop cfg (Z.to_nat s.(st_data).(d_count)) s.(st_key) s.(st_data) c p (1 + zlen (st_name s)) adj off 0 0 else mret (RETVAL_OK, 0) : E (Z * Z)) w = Ok (res, w1) /\
    ends 0 d p L w (full_sizes rs) res.1 w1 (fun d' p' L' => records_in d' (solid 0 p') p (p' - p) rs /\ sig_owner (st_name s) d' (solid 0 p') res.2).
Proof.
  intros H K Hadj. pose proof (en_pos _ _ _ _ _ _ H) as H12. assert (0 <= p <= p) as Hpp by lia. assert (owner_ok d (solid 0 p) L p (st_name s) p 0) as Hown by (by apply oo_first).
  destruct (ec_counts _ _ _ _ _ _ K) as [C1 C2]. destruct do_data; cbv zeta.
  - erewrite st_bind_ok by (unfold lift; rewrite (compressable_ok _ _ _ _ _ _ K); reflexivity). cbv beta. rewrite C1, to_nat_zlen.
    destruct (rr_loop_ok cfg b0 Hlim _ _ _ _ _ _ K adj Hadj off (length (st_rrs s)) d p L w p 0 0 H) as (res & w1 & E1 & HE); [destruct (st_rrs s); [by left|right; rewrite zlen_cons; pose proof (zlen_nonneg l); lia]|done|done|].
    exists res, w1. split; [exact E1|]. destruct HE as [(E & d1 & p1 & L1 & X1 & X2 & X3 & X4 & X5)|HE]; [|by right]. left. split; [done|]. exists d1, p1, L1. do 4 (split; [done|]). by eapply owner_sig.
  - exists (RETVAL_OK, 0), w. split; [done|]. left. split; [done|]. exists d, p, L. split; [done|]. split; [apply onward_refl|]. cbn. split; [lia|]. split; [lia|by left].
Qed.

Lemma sigs_part_ok d p L w s (do_sig : bool) optr adj : enc 0 d p L w -> stored_ok s -> in_s 63 adj -> sig_owner (st_name s) d (solid 0 p) optr ->
  let rs := if do_sig then map (record_of cfg s.(st_key) s.(st_name) adj LDNS_RR_TYPE_RRSIG) s.(st_sigs) else [] in
  exists ret w1, (if do_sig then sig_loop cfg (Z.to_nat (d_total s.(st_data) - s.(st_data).(d_count))) s.(st_key) s.(st_data) (1 + zlen (st_name s)) adj s.(st_data).(d_count) optr
       else mret RETVAL_OK : E Z) w = Ok (ret, w1) /\ ends 0 d p L w (full_sizes rs) ret w1 (fun d' p' _ => records_in d' (solid 0 p') p (p' - p) rs).
Proof.
  intros H K Hadj Ho. destruct (ec_counts _ _ _ _ _ _ K) as [C1 C2]. destruct do_sig; cbv zeta.
  - rewrite (packed_total _ _ (ec_packed _ _ _ _ _ _ K)), C1. unfold bytes_of. rewrite zlen_map, zlen_app. replace (zlen (st_rrs s) + zlen (st_sigs s) - zlen (st_rrs s)) with (zlen (st_sigs s)) by lia. rewrite to_nat_zlen.
    destruct (sig_loop_ok cfg b0 Hlim _ _ _ _ _ _ K adj Hadj (st_sigs s) [] d p L w optr H eq_refl Ho) as (ret & w2 & E2 & HE). rewrite app_nil_r in E2. by exists ret, w2.
  - exists RETVAL_OK, w. split; [done|]. left. split; [done|]. exists d, p, L. split; [done|]. split; [apply onward_refl|]. cbn. lia.
Qed.

Lemma encode_rrset_ok d p L w s num do_data do_sig sect qt dnssec off : enc 0 d p L w -> stored_ok s -> in_u 16 num ->
  exists res w', packed_rrset_encode cfg s.(st_key) num timenow do_data do_sig sect qt dnssec off w = Ok (res, w') /\
    ends 0 d p L w (full_sizes (rrset_records do_data do_sig sect qt dnssec off s)) res.1 w' (fun d' p' _ =>
      records_in d' (solid 0 p') p (p' - p) (rrset_records do_data do_sig sect qt dnssec off s) /\ res.2 = u16 (num + zlen (rrset_records do_data do_sig sect qt dnssec off s))) /\
    (res.1 <> RETVAL_OK -> res.2 = num).
Proof.
  intros H K Hnum. pose proof (en_pos _ _ _ _ _ _ H) as H12. pose proof (rrset_records_ok do_data do_sig sect qt dnssec off s K) as Hrok. unfold packed_rrset_encode, ntohs. unfold EncodeSection.rrset_records in *.
  destruct (ec_type _ _ _ _ _ _ K) as [Et Ht]. pose proof (read_write_uint16 s.(st_type) [] Ht) as Er. rewrite app_nil_r in Er. erewrite st_bind_ok by (unfold lift; rewrite Et, Er; reflexivity). cbv beta.
  destruct (rrset_belongs_in_reply sect (st_type s) qt dnssec); cbn [negb].
  2:{ exists (RETVAL_OK, num), w. split; [done|]. split; [|done]. left. split; [done|]. exists d, p, L. split; [done|]. split; [apply onward_refl|]. split; [cbn; lia|]. split; [cbn; lia|]. change (zlen []) with 0. by rewrite Z.add_0_r, wrap_small. }
  erewrite st_bind_ok by (unfold lift; rewrite (ec_data _ _ _ _ _ _ K); reflexivity). cbv beta. destruct (ec_name _ _ _ _ _ _ K) as ((rest & Ek) & _ & Hok).
  destruct (dname_label_counts (st_name s) rest 0 Hok ltac:(lia)) as (Ec & _). erewrite st_bind_ok by (unfold lift; rewrite Ek, Ec; reflexivity). cbv beta. clear Ec.
  erewrite st_bind_ok by (by eapply enc_position). cbv beta zeta.
  set (adj := if negb (Z.land s.(st_key).(rk).(rk_flags) PACKED_RRSET_FIXEDTTL =? 0) then 0 else if cfg.(SERVE_ORIGINAL_TTL) then s.(st_data).(d_ttl_add) else timenow). pose proof (adjustment_range s K) as Hadj. fold adj in Hadj. change (adjustment cfg timenow s) with adj in Hadj.
  destruct (ec_counts _ _ _ _ _ _ K) as [C1 C2].
  set (rs1 := if do_data then map (rr_record s (st_type s)) (rotated (length (st_rrs s)) (st_rrs s) off 0) else []) in *.
  set (rs2 := if do_sig && dnssec then map (rr_record s LDNS_RR_TYPE_RRSIG) (st_sigs s) else []) in *. apply Forall_app in Hrok as [Hrok _].
  destruct (data_part_ok d p L w s do_data off adj H K Hadj) as ([ret optr] & w1 & E1 & HE).
  assert (rs1 = if do_data then map (record_of cfg s.(st_key) s.(st_name) adj s.(st_type)) (rotated (length s.(st_rrs)) s.(st_rrs) off 0) else []) as Ers by done. rewrite <- Ers in HE. clear Ers.
  rewrite (st_bind_ok _ _ _ _ _ E1). cbv beta iota. clear E1. cbn [fst snd] in HE.
  rewrite full_sizes_app. pose proof (full_sizes_nonneg rs2).
  destruct HE as [(-> & d1 & p1 & L1 & H1 & O1 & Hp1 & HR1 & Ho1)|[(-> & Hl & Hs)|[-> Hm]]]; cbn [Z.eqb RETVAL_OK RETVAL_TRUNC RETVAL_OUTMEM negb].
  2:{ exists (RETVAL_TRUNC, num), w1. split; [done|]. split; [|done]. right. left. split; [done|]. split; [lia|done]. }
  2:{ exists (RETVAL_OUTMEM, num), w1. split; [done|]. split; [|done]. by right; right. }
  destruct (sigs_part_ok d1 p1 L1 w1 s (do_sig && dnssec) optr adj H1 K Hadj Ho1) as (ret & w2 & E2 & HE).
  assert (rs2 = if do_sig && dnssec then map (record_of cfg s.(st_key) s.(st_name) adj LDNS_RR_TYPE_RRSIG) s.(st_sigs) else []) as Ers by done. rewrite <- Ers in HE. clear Ers.
  rewrite (st_bind_ok _ _ _ _ _ E2). cbv beta. clear E2.
  assert (zlen (rs1 ++ rs2) = (if do_data then zlen (st_rrs s) else 0) + (if do_sig && dnssec then zlen (st_sigs s) else 0)) as Hcount.
  { rewrite zlen_app. unfold rs1, rs2. destruct do_data, (do_sig && dnssec); rewrite ?zlen_map; try done; unfold zlen; rewrite ?length_rotated; done. }
  pose proof (count_ok num do_data (do_sig && dnssec) _ _ _ _ Hnum C1 C2) as Hn. cbv zeta in Hn. rewrite <- Hcount in Hn.
  destruct HE as [HE|[(-> & Hl & Hs)|[-> Hm]]].
  - destruct HE as (-> & HE). cbn [Z.eqb RETVAL_OK negb]. eexists (_, _), w2. split; [reflexivity|]. split; [|done]. cbn [fst snd].
    apply (ends_then b0 d p L w (full_sizes rs1) d1 p1 L1 w1 (full_sizes rs2) RETVAL_OK w2 (fun d' p' _ => records_in d' (solid 0 p') p1 (p' - p1) rs2)); [done|done|by left|].
    intros d2 p2 L2 O2 HR2. split; [|exact Hn]. pose proof (ow_pos _ _ _ _ _ _ _ _ O2). replace (p2 - p) with (p1 - p + (p2 - p1)) by lia. apply records_in_app; [|by replace (p + (p1 - p)) with p1 by lia].
    eapply records_in_agree; [exact HR1|done|lia|apply (kept_solid 0 p1), O2|intros i; apply solid_more; lia].
  - exists (RETVAL_TRUNC, num), w2. split; [done|]. split; [|done]. right. left. split; [done|]. split; [lia|]. by eapply stopped_onward.
  - exists (RETVAL_OUTMEM, num), w2. split; [done|]. split; [|done]. right. right. split; [done|]. by eapply nomem_onward.
Qed.

(** ** Lists of RRsets *)

(** The packet has the records, and nothing is known of the tree any more. *)
Definition cut_at (d : list Z) (p : Z) (w : encoder) (l : list record) (w' : encoder) : Prop :=
  exists d' p', w'.(e_pkt) = at_d d' p' /\ buf_ok (at_d d' p') d' /\ p <= p' /\ agree (fun i => 0 <= i < p) d d' /\ records_in d' (solid 0 p') p (p' - p) l /\
    (mallocs_ok w.(e_memory) -> mallocs_ok w'.(e_memory)).

(** All of the RRsets [R] are in the packet, or the first [n] of them; the count goes with them. *)
Definition section_ends (d : list Z) (p : Z) (L : list (addr * name)) (w : encoder) (R : list (list record)) (num : Z) (res : Z * Z) (w' : encoder) : Prop :=
  (res.1 = RETVAL_OK /\ res.2 = u16 (num + zlen (concat R)) /\ exists d' p' L', enc 0 d' p' L' w' /\ onward p d L w p' d' L' w' /\ p' <= p + full_sizes (concat R) /\
     records_in d' (solid 0 p') p (p' - p) (concat R)) \/
  (res.1 = RETVAL_TRUNC /\ lim < p + full_sizes (concat R) /\ exists n, (n < length R)%nat /\ res.2 = u16 (num + zlen (concat (take n R))) /\ cut_at d p w (concat (take n R)) w') \/
  (res.1 = RETVAL_OUTMEM /\ nomem b0 p d w w').

(** The records before those of a step that was cut. *)
Lemma cut_onward d p L w d1 p1 L1 w1 l1 l2 w' : enc 0 d p L w -> onward p d L w p1 d1 L1 w1 -> records_in d1 (solid 0 p1) p (p1 - p) l1 -> Forall record_ok l1 -> cut_at d1 p1 w1 l2 w' -> cut_at d p w (l1 ++ l2) w'.
Proof.
  intros H [A1 A2 A3 A4] HR Hok (d2 & p2 & E & B & Hp & K & HR2 & Hm). pose proof (en_pos _ _ _ _ _ _ H). exists d2, p2. do 2 (split; [done|]). split; [lia|].
  split; [eapply agree_trans; [exact A2|eapply kept_less; [exact K|lia]]|]. split; [|auto]. replace (p2 - p) with (p1 - p + (p2 - p1)) by lia.
  apply records_in_app; [|by replace (p + (p1 - p)) with p1 by lia]. eapply records_in_agree; [exact HR|done|lia|by apply (kept_solid 0 p1)|intros i; apply solid_more; lia].
Qed.

Lemma u16_plus a b : u16 (u16 a + b) = u16 (a + b).
Proof. unfold wrap. by rewrite Z.add_mod_idemp_l by lia. Qed.

(** RRsets, and those after them. *)
Lemma section_then d p L w d1 p1 L1 w1 R1 R2 num num1 res w' : enc 0 d p L w -> onward p d L w p1 d1 L1 w1 -> p1 <= p + full_sizes (concat R1) -> records_in d1 (solid 0 p1) p (p1 - p) (concat R1) ->
  Forall record_ok (concat R1) -> num1 = u16 (num + zlen (concat R1)) -> section_ends d1 p1 L1 w1 R2 num1 res w' -> section_ends d p L w (R1 ++ R2) num res w'.
Proof.
  intros H O1 Hp1 HR1 Hok -> HE. pose proof (en_pos _ _ _ _ _ _ H) as H12. pose proof (ow_pos _ _ _ _ _ _ _ _ O1).
  destruct HE as [(Er & En & d2 & p2 & L2 & H2 & O2 & Hp2 & HR2)|[(Er & Hl & n & Hn' & En & Hc)|[Er Hm]]].
  - left. split; [done|]. rewrite concat_app, zlen_app, Z.add_assoc. split; [by rewrite En, u16_plus|]. exists d2, p2, L2. split; [done|]. split; [by eapply onward_trans|]. rewrite full_sizes_app. split; [lia|].
    pose proof (ow_pos _ _ _ _ _ _ _ _ O2). replace (p2 - p) with (p1 - p + (p2 - p1)) by lia. apply records_in_app; [|by replace (p + (p1 - p)) with p1 by lia].
    eapply records_in_agree; [exact HR1|done|lia|apply (kept_solid 0 p1), O2|intros j; apply solid_more; lia].
  - right. left. split; [done|]. rewrite concat_app, full_sizes_app. split; [lia|]. exists (length R1 + n)%nat. rewrite length_app, take_app_add, concat_app, zlen_app, Z.add_assoc. split; [lia|]. split; [by rewrite En, u16_plus|].
    by eapply (cut_onward d p L w d1 p1 L1 w1).
  - right. right. split; [done|]. by eapply nomem_onward.
Qed.

(** The packet back at [p]. *)
Lemma back_ok d p w w1 : stopped b0 p d w w1 -> buf_ok (at_d d p) d ->
  exists d', to_pkt (p_set_position p) w1 = Ok (tt, encoder_at b0 w1 d' p) /\ buf_ok (at_d d' p) d' /\ agree (fun i => 0 <= i < p) d d'.
Proof.
  intros (d' & p' & E & B & K & _) B0. pose proof (good_range _ _ _ B0). exists d'. split; [|split; [apply (e_good_move b0 d' p'); [done|lia]|done]].
  rewrite (at_e_self _ _ _ _ E) at 1. unfold to_pkt, p_set_position, sldns_buffer_set_position. cbn [e_pkt encoder_at _limit buffer_at set_pos set_data]. by rewrite leb_true by lia.
Qed.

Lemma e_section_loop_ok rrsets_ do_data do_sig sect qt dnssec off ss : forall d p L w i num, enc 0 d p L w -> Forall stored_ok ss -> in_u 16 num -> 0 <= i ->
  (forall m s, ss !! m = Some s -> rrsets_ !! (Z.to_nat i + m)%nat = Some (Some s.(st_key))) ->
  exists res w', section_loop cfg (length ss) rrsets_ i num timenow do_data do_sig sect qt dnssec off w = Ok (res, w') /\
    section_ends d p L w (map (rrset_records do_data do_sig sect qt dnssec off) ss) num res w'.
Proof.
  induction ss as [|s ss IH]; intros d p L w i num H Hok Hn Hi Hkeys; cbn [section_loop length map].
  { exists (RETVAL_OK, num), w. split; [done|]. left. split; [done|]. cbn. rewrite Z.add_0_r, wrap_small by done. split; [done|]. exists d, p, L. split; [done|]. split; [apply onward_refl|]. lia. }
  apply Forall_cons in Hok as [K Hok]. pose proof (en_pos _ _ _ _ _ _ H) as H12. erewrite st_bind_ok by (by eapply enc_position). cbv beta.
  specialize (Hkeys 0%nat s eq_refl) as H0. rewrite Nat.add_0_r in H0. erewrite st_bind_ok by (unfold lift; rewrite H0; reflexivity). cbv beta. clear H0.
  destruct (encode_rrset_ok d p L w s num do_data do_sig sect qt dnssec off H K Hn) as ([ret num'] & w1 & E1 & HE & Hbad). rewrite (st_bind_ok _ _ _ _ _ E1). cbv beta iota. clear E1. cbn [fst snd] in HE, Hbad.
  set (R := map (rrset_records do_data do_sig sect qt dnssec off) ss) in *. cbn [concat]. pose proof (rrset_records_ok do_data do_sig sect qt dnssec off s K) as Hrok.
  pose proof (full_sizes_nonneg (concat R)).
  destruct HE as [(-> & d1 & p1 & L1 & H1 & O1 & Hp1 & HR1 & ->)|[(-> & Hl & Hs)|[-> Hm]]]; cbn [Z.eqb RETVAL_OK RETVAL_TRUNC RETVAL_OUTMEM negb].
  - destruct (IH d1 p1 L1 w1 (i + 1) (u16 (num + zlen (rrset_records do_data do_sig sect qt dnssec off s))) H1 Hok ltac:(apply wrap_range; lia) ltac:(lia)) as (res & w2 & E2 & HE).
    { intros m s' Hm. specialize (Hkeys (S m) s' Hm). rewrite <- Hkeys. f_equal. lia. }
    exists res, w2. split; [exact E2|]. apply (section_then d p L w d1 p1 L1 w1 [rrset_records do_data do_sig sect qt dnssec off s] R num (u16 (num + zlen (rrset_records do_data do_sig sect qt dnssec off s))) res w2 H O1); cbn [concat]; rewrite ?app_nil_r; done.
  - destruct (back_ok d p w w1 Hs (en_buf _ _ _ _ _ _ H)) as (d' & E3 & B & K'). destruct Hs as (_ & _ & _ & _ & _ & Hm).
    rewrite (st_bind_ok _ _ _ _ _ E3). cbv beta. exists (RETVAL_TRUNC, num'), (encoder_at b0 w1 d' p). split; [done|]. right. left. split; [done|]. cbn [concat]. rewrite full_sizes_app. split; [lia|]. exists 0%nat. cbn [length take concat].
    split; [lia|]. split; [cbn [snd]; rewrite Hbad by done; change (zlen []) with 0; by rewrite Z.add_0_r, wrap_small|]. exists d', p. do 2 (split; [done|]). split; [lia|]. split; [done|]. split; [cbn; lia|done].
  - destruct Hm as [Hm Hs]. destruct (back_ok d p w w1 Hs (en_buf _ _ _ _ _ _ H)) as (d' & E3 & B & K'). rewrite (st_bind_ok _ _ _ _ _ E3). cbv beta. eexists (RETVAL_OUTMEM, num'), _. split; [reflexivity|].
    right. right. split; [done|]. split; [done|]. destruct Hs as (_ & _ & _ & _ & _ & Hs). by exists d', p.
Qed.

(** The RRsets of a section, in the order that they are written. *)
Definition section_records (sect : sldns_pkt_section) (qt : Z) (dnssec : bool) (off : Z) (ss : list stored) : list (list record) :=
  if bool_decide (sect = LDNS_SECTION_ADDITIONAL)
  then map (rrset_records true false sect qt dnssec off) ss ++ (if dnssec then map (rrset_records false true sect qt dnssec off) ss else [])
  else map (rrset_records true true sect qt (dnssec || (bool_decide (sect = LDNS_SECTION_ANSWER) && (qt =? LDNS_RR_TYPE_ANY))) off) ss.

Lemma section_records_ok sect qt dnssec off ss : Forall stored_ok ss -> Forall record_ok (concat (section_records sect qt dnssec off ss)).
Proof.
  intros H. assert (forall a b dn, Forall record_ok (concat (map (rrset_records a b sect qt dn off) ss))) as Hm.
  { intros a b dn. apply Forall_concat, Forall_map. eapply Forall_impl; [exact H|]. intros s K. by apply rrset_records_ok. }
  unfold section_records. destruct (bool_decide _); [|apply Hm]. rewrite concat_app. apply Forall_app. split; [apply Hm|]. destruct dnssec; [apply Hm|constructor].
Qed.

Lemma insert_section_ok rrsets_ sect qt dnssec off ss d p L w i num : enc 0 d p L w -> Forall stored_ok ss -> in_u 16 num -> 0 <= i ->
  (forall m s, ss !! m = Some s -> rrsets_ !! (Z.to_nat i + m)%nat = Some (Some s.(st_key))) ->
  exists res w', insert_section cfg rrsets_ (zlen ss) num i timenow sect qt dnssec off w = Ok (res, w') /\ section_ends d p L w (section_records sect qt dnssec off ss) num res w'.
Proof.
  intros H Hok Hn Hi Hkeys. unfold insert_section, section_records. rewrite to_nat_zlen. destruct (bool_decide (sect = LDNS_SECTION_ADDITIONAL)); cbn [negb]; [|by apply e_section_loop_ok].
  destruct (e_section_loop_ok rrsets_ true false sect qt dnssec off ss d p L w i num H Hok Hn Hi Hkeys) as ([ret num1] & w1 & E1 & HE). rewrite (st_bind_ok _ _ _ _ _ E1). cbv beta iota.
  set (R1 := map (rrset_records true false sect qt dnssec off) ss) in *. destruct HE as [(Er & En & d1 & p1 & L1 & H1 & O1 & Hp1 & HR1)|HE].
  - cbn [fst snd] in Er, En. subst ret num1. cbn [Z.eqb RETVAL_OK negb].
    assert (Forall record_ok (concat R1)) as Hrok by (apply Forall_concat, Forall_map; eapply Forall_impl; [exact Hok|]; intros s K; by apply rrset_records_ok).
    destruct dnssec.
    + destruct (e_section_loop_ok rrsets_ false true sect qt true off ss d1 p1 L1 w1 i (u16 (num + zlen (concat R1))) H1 Hok ltac:(apply wrap_range; lia) Hi Hkeys) as (res & w2 & E2 & HE).
      exists res, w2. split; [exact E2|]. by eapply section_then.
    + rewrite app_nil_r. eexists (_, _), w1. split; [reflexivity|]. left. split; [done|]. split; [done|]. by exists d1, p1, L1.
  - assert (ret <> RETVAL_OK) as Hret by (cbn [fst snd] in HE; by destruct HE as [[-> _]|[-> _]]). rewrite eqb_false by done. cbn [negb]. eexists (_, _), w1. split; [reflexivity|].
    destruct HE as [(Er & Hl & n & Hn' & En & Hc)|[Er Hm]]; [|by right; right]. right. left. split; [done|]. rewrite concat_app, full_sizes_app.
    pose proof (full_sizes_nonneg (concat (if dnssec then map (rrset_records false true sect qt dnssec off) ss else []))). split; [lia|]. exists n. rewrite length_app, take_app_le by lia. split; [lia|]. done.
Qed.
End Sections.
