(* ===== verification/EncodeMessage.v ===== *)
(** * Encoding replies: the header and the sections

    [built] says what is in the packet while it is written: the header with the counts
    that it has then, the question and the records; [message] says it of the packet that
    comes out, with the names and the rdata as the functions that parse read them.  The
    second part writes the answer, authority and additional sections. *)

From S2P Require Import Prelude Sbuffer Dname DnameCompare DnamePkt DnameOut PathOrder NameTree RrDef Msgparse MsgPkt MsgRdata PackedRrset PackedBlock Msgreply ReplyRrset ReplyMessage Msgencode EncodeTree EncodeStore EncodeNames EncodeRdata EncodeRrset EncodeSection.

(** ** The header *)

Definition words (l : list Z) : list Z := concat (map sldns_write_uint16 l).

(** The id and the flags and the counts. *)
Definition header_at (d : list Z) (id_ : list Z) (hs : list Z) : Prop := has d 0 (id_ ++ words hs).

Lemma zlen_words l : zlen (words l) = 2 * zlen l.
Proof. unfold words. induction l as [|x l IH]; [done|]. cbn [map concat]. rewrite zlen_app, IH, zlen_cons. change (zlen (sldns_write_uint16 x)) with 2. lia. Qed.

Lemma has_replace d x y y' z : has d 0 (x ++ y ++ z) -> zlen y = zlen y' -> zlen (x ++ y ++ z) <= zlen d -> has (spliced d (zlen x) y') 0 (x ++ y' ++ z).
Proof.
  intros H Hl Hd. rewrite !zlen_app in Hd. pose proof (zlen_nonneg x) as Zx. pose proof (zlen_nonneg y) as Zy. pose proof (zlen_nonneg z) as Zz. apply has_app in H as [H1 H2]; [|done]. apply has_app in H2 as [H2 H3]; [|lia].
  pose proof (spliced_agree d (zlen x) y' ltac:(lia) ltac:(lia)) as A. rewrite Z.add_0_l in *.
  apply has_app; [done|]. split; [eapply has_agree; [exact A| |done|exact H1]; intros i Hi; lia|]. rewrite Z.add_0_l. apply has_app; [lia|]. split; [apply has_splice; lia|].
  rewrite <- Hl. eapply has_agree; [exact A| |lia|exact H3]. intros i Hi. lia.
Qed.

Lemma set_word d id_ hs i v : header_at d id_ hs -> zlen id_ = 2 -> (i < length hs)%nat -> 2 + 2 * zlen hs <= zlen d ->
  header_at (spliced d (2 + 2 * Z.of_nat i) (sldns_write_uint16 v)) id_ (<[i := v]> hs).
Proof.
  intros H Hid Hi Hd. unfold header_at in *. destruct (lookup_lt_is_Some_2 hs i Hi) as [u Hu]. rewrite <- (take_drop_middle hs i u Hu) in H. rewrite insert_take_drop by done.
  unfold words in *. rewrite !map_app, !concat_app in *. cbn [map concat] in *. rewrite (app_assoc id_) in H |- *.
  assert (2 + 2 * Z.of_nat i = zlen (id_ ++ concat (map sldns_write_uint16 (take i hs)))) as ->.
  { rewrite zlen_app. pose proof (zlen_words (take i hs)) as E1. unfold words in E1. rewrite E1. unfold zlen in *. rewrite length_take. lia. }
  apply (has_replace _ _ (sldns_write_uint16 u)); [done|done|]. rewrite !zlen_app, Hid. pose proof (zlen_words (take i hs)) as E1. pose proof (zlen_words (drop (S i) hs)) as E2. unfold words in E1, E2. rewrite E1, E2.
  change (zlen (sldns_write_uint16 u)) with 2. unfold zlen in *. rewrite length_take, length_drop. lia.
Qed.

(** The bit TC is one of the flags. *)
Lemma tc_word flags : exists x y, sldns_write_uint16 flags = [x; y] /\ is_byte x /\ sldns_write_uint16 (Z.lor flags 512) = [Z.lor x LDNS_TC_MASK; y].
Proof.
  unfold sldns_write_uint16, LDNS_TC_MASK. eexists _, _. split; [reflexivity|]. split; [rewrite land_255; apply Z.mod_pos_bound; lia|]. rewrite Z.shiftr_lor, !Z.land_lor_distr_l. change (Z.shiftr 512 8) with 2. change (Z.land 2 255) with 2. change (Z.land 512 255) with 0.
  by rewrite Z.lor_0_r.
Qed.

Lemma store_spliced d i y : 0 <= i < zlen d -> store d i y = Ok (spliced d i [y]).
Proof.
  intros Hi. unfold store. rewrite leb_true, ltb_true by lia. cbn [andb]. f_equal. unfold spliced. change (zlen [y]) with 1. rewrite insert_take_drop by (unfold zlen in Hi; lia). cbn [app].
  unfold ztake, zdrop. do 3 f_equal. lia.
Qed.

Lemma lor_byte x y : is_byte x -> is_byte y -> is_byte (Z.lor x y).
Proof.
  unfold in_u. intros Hx Hy. assert (0 <= Z.lor x y) as H0 by (apply Z.lor_nonneg; lia). split; [done|]. destruct (Z.eq_dec (Z.lor x y) 0) as [->|Hn]; [lia|]. apply Z.log2_lt_pow2; [lia|].
  assert (forall z, 0 <= z < 2 ^ 8 -> Z.log2 z < 8) as Hz by (intros z Hz; destruct (Z.eq_dec z 0) as [->|]; [done|apply Z.log2_lt_pow2; lia]).
  rewrite Z.log2_lor by lia. apply Z.max_lub_lt; by apply Hz.
Qed.

(** ** What is in the packet *)

Section Header.
Context (b0 : sldns_buffer) (Hlim : b0.(_limit) <= 65535).
Abbreviation lim := (b0.(_limit)).
Abbreviation at_d := (buffer_at b0).
Abbreviation at_e := (encoder_at b0).
Abbreviation enc := (enc b0).

Record built (d : list Z) (p : Z) (id_ hs : list Z) (question : list Z) (l : list record) : Prop := {
  bu_id : zlen id_ = 2;
  bu_words : length hs = 5%nat;
  bu_header : header_at d id_ hs;
  bu_question : has d 12 question;
  bu_end : 12 + zlen question <= p;
  bu_records : records_in d (solid 0 p) (12 + zlen question) (p - (12 + zlen question)) l;
  bu_ok : Forall record_ok l;
}.

Definition stands (d : list Z) (p : Z) (w : encoder) : Prop := w.(e_pkt) = at_d d p /\ buf_ok (at_d d p) d /\ 12 <= p.

Lemma enc_stands hole d p L w : enc hole d p L w -> stands d p w.
Proof. by intros []. Qed.

(** Records that are added. *)
Lemma built_more d p id_ hs q l d' p' l' : built d p id_ hs q l -> p <= p' -> agree (fun i => 0 <= i < p) d d' -> records_in d' (solid 0 p') p (p' - p) l' -> Forall record_ok l' -> built d' p' id_ hs q (l ++ l').
Proof.
  intros [H1 H2 H3 H4 H5 H6 H7] Hp HA HR Hok. pose proof (zlen_nonneg q). split; try done.
  - eapply has_agree; [exact HA| |done|exact H3]. rewrite zlen_app, zlen_words. intros i Hi. unfold zlen in *. lia.
  - eapply has_agree; [exact HA| |done|exact H4]. intros i Hi. lia.
  - lia.
  - replace (p' - (12 + zlen q)) with (p - (12 + zlen q) + (p' - p)) by lia. apply records_in_app; [|by replace (12 + zlen q + (p - (12 + zlen q))) with p by lia].
    eapply records_in_agree; [exact H6|done|lia|by apply (kept_solid 0 p)|intros i; apply solid_more; lia].
  - by apply Forall_app.
Qed.

(** A change of the header. *)
Lemma built_header d p id_ hs q l d' hs' : built d p id_ hs q l -> agree (fun i => 12 <= i) d d' -> header_at d' id_ hs' -> length hs' = 5%nat -> built d' p id_ hs' q l.
Proof.
  intros [H1 H2 H3 H4 H5 H6 H7] HA Hh Hl. pose proof (zlen_nonneg q). split; try done.
  - eapply has_agree; [exact HA| |done|exact H4]. intros i Hi. lia.
  - eapply records_in_agree; [exact H6|done|lia| |done]. eapply agree_sub; [exact HA|]. unfold solid. lia.
Qed.

Lemma word_kept d o v : 0 <= o -> o + 2 <= 12 -> 12 <= zlen d -> agree (fun i => 12 <= i) d (spliced d o (sldns_write_uint16 v)).
Proof. intros Ho Hl Hd. pose proof (spliced_agree d o (sldns_write_uint16 v) Ho) as A. change (zlen (sldns_write_uint16 v)) with 2 in A. eapply agree_sub; [apply A; lia|]. cbn. lia. Qed.

(** A count is written. *)
Lemma put_word d p w id_ hs q l i v : stands d p w -> built d p id_ hs q l -> (i < 5)%nat ->
  let d' := spliced d (2 + 2 * Z.of_nat i) (sldns_write_uint16 v) in
  e_write_u16_at (2 + 2 * Z.of_nat i) v w = Ok (tt, at_e w d' p) /\ stands d' p (at_e w d' p) /\ built d' p id_ (<[i := v]> hs) q l /\ agree (fun i => 12 <= i) d d'.
Proof.
  intros (E1 & B & Hp) Hb Hi d'. pose proof (good_range _ _ _ B). pose proof (bu_words _ _ _ _ _ _ Hb) as Hw. rewrite (at_e_self _ _ _ _ E1) at 1.
  destruct (e_write_u16_at_ok b0 w d p (2 + 2 * Z.of_nat i) v B ltac:(lia) ltac:(lia)) as [E2 B2]. split; [exact E2|]. split; [done|].
  assert (agree (fun i => 12 <= i) d d') as HA by (apply word_kept; lia). split; [|done]. eapply built_header; [exact Hb|exact HA| |by rewrite length_insert]. apply set_word; [apply Hb|apply Hb|lia|unfold zlen in *; lia].
Qed.

Lemma enc_word d p L w i v : enc 0 d p L w -> (i < 5)%nat -> let d' := spliced d (2 + 2 * Z.of_nat i) (sldns_write_uint16 v) in enc 0 d' p L (at_e w d' p).
Proof.
  intros [E1 B Hp T] Hi d'. pose proof (good_range _ _ _ B). destruct (e_write_u16_at_ok b0 w d p (2 + 2 * Z.of_nat i) v B ltac:(lia) ltac:(lia)) as [_ B2].
  split; [done|done|done|]. eapply tree_ok_mono; [exact T| |done..]. intros o x Hx. eapply spelled_agree; [exact Hx| |done]. eapply agree_sub; [apply (word_kept d (2 + 2 * Z.of_nat i) v); lia|]. unfold solid. lia.
Qed.

(** The bit TC is set. *)
Lemma put_tc d p w id_ flags hs q l : stands d p w -> built d p id_ (flags :: hs) q l ->
  exists d', to_pkt LDNS_TC_SET w = Ok (tt, at_e w d' p) /\ stands d' p (at_e w d' p) /\ built d' p id_ (Z.lor flags 512 :: hs) q l.
Proof.
  intros (E1 & B & Hp) Hb. pose proof (good_range _ _ _ B). destruct (tc_word flags) as (x & y & Ef & Hx & Ef'). pose proof (bu_header _ _ _ _ _ _ Hb) as Hh. pose proof (bu_id _ _ _ _ _ _ Hb) as Hid. pose proof (bu_words _ _ _ _ _ _ Hb) as Hw.
  unfold header_at, words in Hh. cbn [map concat] in Hh. rewrite Ef in Hh. change ([x; y] ++ ?l) with ([x] ++ [y] ++ l) in Hh.
  assert (index d 2 = Ok x) as Ei. { apply has_app in Hh as [_ Hh]; [|done]. rewrite Z.add_0_l, Hid in Hh. apply has_app in Hh as [Hh _]; [|done]. apply has_bytes in Hh as [_ Hh]; [|done]. destruct Hh as (z & [= <-] & ->); [done|]. done. }
  exists (spliced d 2 [Z.lor x LDNS_TC_MASK]). assert (is_byte (Z.lor x LDNS_TC_MASK)) as Hb2 by (apply lor_byte; [done|unfold in_u, LDNS_TC_MASK; lia]).
  split; [|split; [split; [done|split; [|done]]; exact (spliced_ok (at_d d p) d 2 [Z.lor x LDNS_TC_MASK] B ltac:(lia) ltac:(change (zlen [Z.lor x LDNS_TC_MASK]) with 1; change (_limit (at_d d p)) with lim; lia) ltac:(by constructor))|]].
  - rewrite (at_e_self _ _ _ _ E1) at 1. unfold to_pkt, LDNS_TC_SET. cbn [e_pkt encoder_at]. unfold sldns_buffer_begin. rewrite (at_ok _ d) by (done || cbn; lia). cbn [mbind outcome_bind]. rewrite (the_data_ok _ _ B). cbn [mbind outcome_bind]. rewrite Ei. cbn [mbind outcome_bind].
    rewrite store_spliced by lia. done.
  - pose proof (spliced_agree d 2 [Z.lor x LDNS_TC_MASK] ltac:(lia)) as A. change (zlen [_]) with 1 in A. eapply built_header; [exact Hb|eapply agree_sub; [apply A; lia|cbn; lia]| |done].
    unfold header_at, words. cbn [map concat]. rewrite Ef'. change ([Z.lor x LDNS_TC_MASK; y] ++ ?l) with ([Z.lor x LDNS_TC_MASK] ++ [y] ++ l). rewrite <- Hid.
    apply (has_replace d id_ [x]); [done|done|]. rewrite !zlen_app, Hid. change (concat (map sldns_write_uint16 hs)) with (words hs). rewrite zlen_words. change (zlen [x]) with 1. change (zlen [y]) with 1. cbn [length] in Hw. unfold zlen in *. lia.
Qed.
End Header.

(** ** Encoding replies: the message

    [reply_info_encode] writes the header, the question and the three sections.  The packet
    that comes out is a [message] of the records of the reply, or of the first of them. *)

(** ** Messages *)

Section View.
Context (b : sldns_buffer) (d : list Z).

(** The record at [pos], in [n] bytes, as the parser reads it: the names are those of [r] but
    for case. *)
Definition record_at (pos n : Z) (r : record) : Prop :=
  exists ls e out, name_at b d pos ls e /\ lower_name ls = lower_name r.(r_name) /\ ztake 8 (zdrop (pos + e) d) = middle r /\
    rdata_of b d r.(r_type) (pos + e + 4) out /\ same_rdata (fields r.(r_type)) (dnames r.(r_type)) out r.(r_rdata) /\ n = e + 10 + u16_at d (pos + e + 8).

Fixpoint records_at (pos n : Z) (l : list record) : Prop :=
  match l with [] => n = 0 | r :: l' => exists n1, record_at pos n1 r /\ records_at (pos + n1) (n - n1) l' end.

(** The packet is the header, the question, and the records. *)
Record message (id_ hs question : list Z) (l : list record) : Prop := {
  me_buf : buf_ok b d;
  me_pos : b.(_position) = 0;
  me_header : header_at d id_ hs;
  me_question : has d 12 question;
  me_records : records_at (12 + zlen question) (b.(_limit) - (12 + zlen question)) l;
}.

Context (B : buf_ok b d).

Lemma record_view pos n r : record_in d (solid 0 b.(_limit)) pos n r -> record_ok r -> 0 <= pos -> pos + n <= b.(_limit) -> record_at pos n r.
Proof.
  intros (e & m & Hw & Hm & _ & (Hm2 & Hl & _ & Hr) & ->) Hok Hp Hn. pose proof (written_size _ _ _ _ _ Hw). assert (forall i, solid 0 b.(_limit) i -> i < b.(_limit)) as HS by (unfold solid; lia).
  destruct (written_name b d _ pos e _ B Hw HS (ro_name _ Hok)) as (ls & N & Hlow). destruct (rdata_in_rdata b d _ _ _ _ _ _ B Hr ltac:(lia) HS) as (out & Hd & Hs).
  assert (zlen (middle r) = 8) as Hz by (unfold middle; rewrite !zlen_app, (proj2 (ro_class r Hok)); done).
  assert (u16_at d (pos + e + 8) = m - 2) as Eu.
  { unfold u16_at. apply has_drop in Hl as (x & ->). by rewrite read_write_uint16 by (unfold in_u; lia). }
  exists ls, e, out. split; [done|]. split; [done|]. split; [rewrite <- Hz; apply (has_bytes _ _ _ Hm); lia|]. rewrite Eu. split; [|split; [done|lia]].
  unfold rdata_of. replace (pos + e + 4 + 4) with (pos + e + 8) by lia. rewrite Eu. split; [lia|]. split; [lia|]. by replace (pos + e + 4 + 6) with (pos + e + 8 + 2) by lia.
Qed.

Lemma records_view l : forall pos n, records_in d (solid 0 b.(_limit)) pos n l -> Forall record_ok l -> 0 <= pos -> pos + n <= b.(_limit) -> records_at pos n l.
Proof.
  induction l as [|r l IH]; intros pos n H Hok Hp Hn; [done|]. apply Forall_cons in Hok as [Hr Hok]. destruct H as (n1 & H1 & H2). pose proof (record_in_size _ _ _ _ _ H1). pose proof (records_in_size _ _ _ _ _ H2). pose proof (zlen_nonneg l).
  exists n1. split; [apply record_view; try done; lia|]. apply IH; try done; lia.
Qed.
End View.

(** ** The sections of a reply *)

Definition has_types (types : list Z) (ss : list stored) : bool := existsb (fun s => existsb (Z.eqb s.(st_type)) types) ss.

(** The answer is there: no need for the other sections. *)
Definition is_positive (flags_ qt : Z) (A N : list stored) : bool :=
  (FLAGS_GET_RCODE flags_ =? LDNS_RCODE_NOERROR) && has_types [qt] A && negb (qt =? LDNS_RR_TYPE_NS) && negb (has_types [LDNS_RR_TYPE_NSEC; LDNS_RR_TYPE_NSEC3] N).

(** The answer is that there is none: no need for the additional section. *)
Definition is_negative (flags_ : Z) (A N : list stored) : bool :=
  let rcode := FLAGS_GET_RCODE flags_ in
  (rcode =? LDNS_RCODE_NXDOMAIN) || ((rcode =? LDNS_RCODE_NOERROR) && bool_decide (A = []) && (has_types [LDNS_RR_TYPE_SOA] N || negb (has_types [LDNS_RR_TYPE_NS] N))).

(** The keys of [ss] are in the reply from the [i]-th on. *)
Definition keys_at (rrsets_ : list (option ub_packed_rrset_key)) (i : Z) (ss : list stored) : Prop :=
  forall m s, ss !! m = Some s -> rrsets_ !! (Z.to_nat i + m)%nat = Some (Some s.(st_key)).

Lemma keys_cons rrsets_ i s ss : 0 <= i -> keys_at rrsets_ i (s :: ss) -> rrsets_ !! Z.to_nat i = Some (Some s.(st_key)) /\ keys_at rrsets_ (i + 1) ss.
Proof.
  intros Hi H. split; [specialize (H 0%nat s eq_refl); by rewrite Nat.add_0_r in H|]. intros m s' Hm. specialize (H (S m) s' Hm). rewrite <- H. f_equal. lia.
Qed.

Lemma key_type s : stored_ok s -> ntohs s.(st_key).(rk).(rk_type) = Ok s.(st_type).
Proof. intros K. destruct (ec_type _ _ _ _ _ _ K) as [-> Ht]. unfold ntohs. pose proof (read_write_uint16 s.(st_type) [] Ht) as E. by rewrite app_nil_r in E. Qed.

Lemma has_type_ok rrsets_ types ss : forall i, 0 <= i -> Forall stored_ok ss -> keys_at rrsets_ i ss -> has_type (length ss) rrsets_ i types = Ok (has_types types ss).
Proof.
  induction ss as [|s ss IH]; intros i Hi Hok Hk; [done|]. apply Forall_cons in Hok as [K Hok]. destruct (keys_cons _ _ _ _ Hi Hk) as [E Hk']. cbn [has_type length]. rewrite E. cbn [mjoin option_join nonnull mbind outcome_bind].
  rewrite (key_type s K). cbn [mbind outcome_bind]. unfold has_types. cbn [existsb]. destruct (existsb (Z.eqb (st_type s)) types); [done|]. apply IH; [lia|done|done].
Qed.

Lemma negative_loop_ok rrsets_ ss : forall i seen, 0 <= i -> Forall stored_ok ss -> keys_at rrsets_ i ss ->
  negative_loop (length ss) rrsets_ i seen = Ok (has_types [LDNS_RR_TYPE_SOA] ss || negb (seen || has_types [LDNS_RR_TYPE_NS] ss)).
Proof.
  induction ss as [|s ss IH]; intros i seen Hi Hok Hk; [by rewrite orb_false_r|]. apply Forall_cons in Hok as [K Hok]. destruct (keys_cons _ _ _ _ Hi Hk) as [E Hk']. cbn [negative_loop length]. rewrite E. cbn [mjoin option_join nonnull mbind outcome_bind].
  rewrite (key_type s K). cbn [mbind outcome_bind]. unfold has_types. cbn [existsb]. rewrite !orb_false_r. destruct (st_type s =? LDNS_RR_TYPE_SOA); [done|]. rewrite IH by (done || lia). by rewrite orb_assoc.
Qed.

(** [rep] is a reply with the RRsets [A], [N] and [D] in its sections. *)
Record reply_ok (rep : reply_info) (A N D : list stored) : Prop := {
  rp_flags : in_u 16 rep.(flags);
  rp_qdcount : in_u 16 rep.(qdcount);
  rp_counts : rep.(an_numrrsets) = zlen A /\ rep.(ns_numrrsets) = zlen N /\ rep.(ar_numrrsets) = zlen D;
  rp_keys : keys_at rep.(rep_rrsets) 0 (A ++ N ++ D);
  rp_stored : Forall stored_ok (A ++ N ++ D);
  rp_total : zlen (A ++ N ++ D) < 2 ^ 63;
}.

Lemma keys_app rrsets_ i s1 s2 : 0 <= i -> keys_at rrsets_ i (s1 ++ s2) -> keys_at rrsets_ i s1 /\ keys_at rrsets_ (i + zlen s1) s2.
Proof.
  intros Hi H. split; intros m s Hm; [apply H; by apply lookup_app_l_Some|]. specialize (H (length s1 + m)%nat s). rewrite lookup_app_r in H by lia. replace (length s1 + m - length s1)%nat with m in H by lia.
  specialize (H Hm). rewrite <- H. f_equal. unfold zlen. lia.
Qed.

Lemma reply_parts_ok rep A N D : reply_ok rep A N D ->
  (keys_at rep.(rep_rrsets) 0 A /\ keys_at rep.(rep_rrsets) (zlen A) N /\ keys_at rep.(rep_rrsets) (zlen A + zlen N) D) /\ (Forall stored_ok A /\ Forall stored_ok N /\ Forall stored_ok D) /\
  u64 (zlen A + zlen N) = zlen A + zlen N.
Proof.
  intros [_ _ _ Hk Hs Ht]. pose proof (zlen_nonneg A). pose proof (zlen_nonneg N). pose proof (zlen_nonneg D). apply keys_app in Hk as [K1 Hk]; [|done]. apply keys_app in Hk as [K2 K3]; [|lia]. rewrite Z.add_0_l in *.
  rewrite !Forall_app in Hs. rewrite !zlen_app in Ht. split; [done|]. split; [tauto|]. apply wrap_small. unfold in_u. lia.
Qed.

Lemma positive_ok rep qt A N D : reply_ok rep A N D -> positive_answer rep qt = Ok (is_positive rep.(flags) qt A N).
Proof.
  intros R. destruct (reply_parts_ok _ _ _ _ R) as ((K1 & K2 & _) & (S1 & S2 & _) & _). destruct (rp_counts _ _ _ _ R) as (C1 & C2 & _). unfold positive_answer, is_positive. rewrite C1, C2, !to_nat_zlen.
  destruct (_ =? LDNS_RCODE_NOERROR); cbn [negb andb]; [|done]. rewrite (has_type_ok _ _ A 0) by done. cbn [mbind outcome_bind]. destruct (has_types [qt] A); cbn [negb andb]; [|done].
  destruct (qt =? LDNS_RR_TYPE_NS); cbn [negb andb]; [done|]. rewrite (has_type_ok _ _ N) by (done || apply zlen_nonneg). done.
Qed.

Lemma negative_ok rep A N D : reply_ok rep A N D -> negative_answer rep = Ok (is_negative rep.(flags) A N).
Proof.
  intros R. destruct (reply_parts_ok _ _ _ _ R) as ((_ & K2 & _) & (_ & S2 & _) & _). destruct (rp_counts _ _ _ _ R) as (C1 & C2 & _). unfold negative_answer, is_negative. rewrite C1, C2, to_nat_zlen. cbv zeta.
  destruct (_ =? LDNS_RCODE_NXDOMAIN) eqn:E1; cbn [orb]; [done|]. destruct (_ =? LDNS_RCODE_NOERROR) eqn:E2; cbn [andb negb]; [|done].
  destruct (Z.eqb_spec (zlen A) 0) as [E|E]; cbn [negb andb].
  - apply zlen_0_inv in E as ->. rewrite (negative_loop_ok _ N) by done. done.
  - by rewrite bool_decide_eq_false_2 by (by intros ->).
Qed.

(** ** The sections are written *)

Section Encode.
Context (cfg : ttl_settings) (b0 : sldns_buffer) (Hlim : b0.(_limit) <= 65535) (timenow : Z) (Hnow : in_s 63 timenow).
Abbreviation lim := (b0.(_limit)).
Abbreviation enc := (enc b0).
Abbreviation stands := (stands b0).
Abbreviation section_records := (section_records cfg timenow).

(** The packet that comes out: of the same memory, and not above the limit. *)
Definition sealed (w' : encoder) (id_ hs question : list Z) (l : list record) : Prop :=
  exists d, message w'.(e_pkt) d id_ hs question l /\ w'.(e_pkt).(_limit) <= lim /\ w'.(e_pkt).(_capacity) = b0.(_capacity).

Lemma built_count d p w id_ hs q l : stands d p w -> built d p id_ hs q l -> 11 * zlen l <= 65535.
Proof. intros (_ & B & _) Hb. pose proof (good_range _ _ _ B). pose proof (records_in_size _ _ _ _ _ (bu_records _ _ _ _ _ _ Hb)). pose proof (zlen_nonneg q). lia. Qed.

Lemma flip_ok d p w id_ hs q l : stands d p w -> built d p id_ hs q l -> exists w', to_pkt p_flip w = Ok (tt, w') /\ sealed w' id_ hs q l.
Proof.
  intros (E1 & B & Hp) Hb. pose proof (good_range _ _ _ B). eexists. split.
  { unfold to_pkt, p_flip, sldns_buffer_flip. rewrite E1, (invariant_ok _ _ B). cbn [c_assert mbind outcome_bind]. reflexivity. }
  set (out := mk_buffer 0 p b0.(_capacity) (Some d) b0.(_fixed) b0.(_status_err)). assert (buf_ok out d) as B' by (destruct B; by split; cbn in *; try lia).
  exists d. cbn [e_pkt]. change (mk_buffer _ _ _ _ _ _) with out. split; [|split; [cbn; lia|done]]. destruct Hb as [H1 H2 H3 H4 H5 H6 H7]. split; try done. pose proof (zlen_nonneg q).
  apply records_view; [done|exact H6|done|lia|]. cbn. lia.
Qed.

(** The flags of a message that was cut, perhaps. *)
Definition flags_with (tc : bool) (flags_ : Z) : Z := if tc then Z.lor flags_ 512 else flags_.

Lemma e_finish_ok d p w id_ flags_ hs q l i v (tc : bool) o : stands d p w -> built d p id_ (flags_ :: hs) q l -> (i < 4)%nat -> o = 4 + 2 * Z.of_nat i ->
  exists w', finish o v tc w = Ok (true, w') /\ sealed w' id_ (flags_with tc flags_ :: <[i := v]> hs) q l.
Proof.
  intros Hs Hb Hi ->. unfold finish. destruct (put_word b0 d p w id_ _ q l (S i) v Hs Hb ltac:(lia)) as (E1 & Hs1 & Hb1 & _). replace (2 + 2 * Z.of_nat (S i)) with (4 + 2 * Z.of_nat i) in * by lia.
  rewrite (st_bind_ok _ _ _ _ _ E1). cbv beta. cbn [insert list_insert] in Hb1. destruct tc.
  - destruct (put_tc b0 _ _ _ _ _ _ _ _ Hs1 Hb1) as (d2 & E2 & Hs2 & Hb2). rewrite (st_bind_ok _ _ _ _ _ E2). cbv beta. destruct (flip_ok _ _ _ _ _ _ _ Hs2 Hb2) as (w' & E3 & Hf).
    rewrite (st_bind_ok _ _ _ _ _ E3). by exists w'.
  - rewrite (st_bind_ok (mret tt) _ _ tt _) by done. cbv beta. destruct (flip_ok _ _ _ _ _ _ _ Hs1 Hb1) as (w' & E3 & Hf). rewrite (st_bind_ok _ _ _ _ _ E3). by exists w'.
Qed.

(** How a section ends: written, or cut, or there is no memory. *)
Definition section_built (d : list Z) (p : Z) (L : list (addr * name)) (w : encoder) (id_ hs q : list Z) (l : list record) (R : list (list record)) (num : Z) (res : Z * Z) (w' : encoder) : Prop :=
  (res = (RETVAL_OK, num + zlen (concat R)) /\ exists d' p' L', enc 0 d' p' L' w' /\ onward p d L w p' d' L' w' /\ p' <= p + full_sizes (concat R) /\ built d' p' id_ hs q (l ++ concat R)) \/
  (exists n, res = (RETVAL_TRUNC, num + zlen (concat (take n R))) /\ (n < length R)%nat /\ lim < p + full_sizes (concat R) /\
     exists d' p', stands d' p' w' /\ built d' p' id_ hs q (l ++ concat (take n R))) \/
  (res.1 = RETVAL_OUTMEM /\ ~ mallocs_ok w.(e_memory)).

Lemma section_is_built d p L w id_ hs q l R num res w' : enc 0 d p L w -> built d p id_ hs q l -> Forall record_ok (concat R) -> 0 <= num <= zlen l -> section_ends b0 d p L w R num res w' ->
  section_built d p L w id_ hs q l R num res w'.
Proof.
  intros H Hb Hok Hn. pose proof (zlen_nonneg (concat R)). destruct res as [ret n']. intros [(Er & En & d' & p' & L' & H' & O & Hp & HR)|[(Er & Hl & n & Hn' & En & d' & p' & E & B & Hp & HA & HR & _)|[Er [Hm _]]]]; cbn [fst snd] in *.
  - left. assert (built d' p' id_ hs q (l ++ concat R)) as Hb' by (eapply built_more; [exact Hb|apply O|apply O|done|done]).
    pose proof (built_count _ _ _ _ _ _ _ (enc_stands b0 _ _ _ _ _ H') Hb') as Hc. rewrite zlen_app in Hc. rewrite wrap_small in En by (unfold in_u; lia). subst. split; [done|]. by exists d', p', L'.
  - right. left. exists n. pose proof (en_pos _ _ _ _ _ _ H). assert (Forall record_ok (concat (take n R))) as Hok' by (rewrite <- (take_drop n R), concat_app in Hok; by apply Forall_app in Hok as [? _]).
    assert (built d' p' id_ hs q (l ++ concat (take n R))) as Hb' by (by eapply built_more). assert (stands d' p' w') as Hs by (split; [done|split; [done|lia]]).
    pose proof (built_count _ _ _ _ _ _ _ Hs Hb') as Hc. rewrite zlen_app in Hc. pose proof (zlen_nonneg (concat (take n R))). rewrite wrap_small in En by (unfold in_u; lia). subst. do 3 (split; [done|]). by exists d', p'.
  - by right; right.
Qed.

Definition authority (rep : reply_info) (qt : Z) (dnssec minimise : bool) (off : Z) (A N : list stored) : list (list record) :=
  if minimise && is_positive rep.(flags) qt A N then [] else section_records LDNS_SECTION_AUTHORITY qt dnssec off N.
Definition additional (rep : reply_info) (qt : Z) (dnssec minimise : bool) (off : Z) (A N D : list stored) : list (list record) :=
  if minimise && (is_positive rep.(flags) qt A N || is_negative rep.(flags) A N) then [] else section_records LDNS_SECTION_ADDITIONAL qt dnssec off D.

Lemma insert_additional_ok qinfo rep dnssec minimise off A N D d p L w id_ flags_ qd an ns q l : reply_ok rep A N D -> enc 0 d p L w -> built d p id_ [flags_; qd; an; ns; 0] q l ->
  let RD := if minimise && is_negative rep.(flags) A N then [] else section_records LDNS_SECTION_ADDITIONAL qinfo.(qtype) dnssec off D in
  exists res w', insert_additional cfg qinfo rep timenow dnssec minimise off w = Ok (res, w') /\
    if res : bool then exists n, sealed w' id_ [flags_; qd; an; ns; zlen (concat (take n RD))] q (l ++ concat (take n RD)) /\ (p + full_sizes (concat RD) <= lim -> (length RD <= n)%nat)
    else ~ mallocs_ok w.(e_memory).
Proof.
  intros R H Hb RD. destruct (reply_parts_ok _ _ _ _ R) as ((_ & _ & K3) & (_ & _ & S3) & Et). destruct (rp_counts _ _ _ _ R) as (C1 & C2 & C3). unfold insert_additional. rewrite C1, C2, C3, Et.
  rewrite (st_bind_ok (lift _) _ w (minimise && is_negative rep.(flags) A N) w).
  2:{ unfold lift. destruct minimise; [by rewrite (negative_ok _ _ _ _ R)|done]. }
  cbv beta. destruct (minimise && is_negative (flags rep) A N) eqn:En.
  { destruct (flip_ok _ _ _ _ _ _ _ (enc_stands b0 _ _ _ _ _ H) Hb) as (w' & E1 & Hf). rewrite (st_bind_ok _ _ _ _ _ E1). exists true, w'. split; [done|]. exists 0%nat. unfold RD. cbn [take concat]. by rewrite app_nil_r. }
  destruct (insert_section_ok cfg b0 Hlim timenow Hnow rep.(rep_rrsets) LDNS_SECTION_ADDITIONAL qinfo.(qtype) dnssec off D d p L w (zlen A + zlen N) 0 H S3 ltac:(unfold in_u; lia) ltac:(pose proof (zlen_nonneg A); pose proof (zlen_nonneg N); lia) K3) as (res & w3 & E1 & HE).
  rewrite (st_bind_ok _ _ _ _ _ E1). cbv beta. clear E1. fold RD in HE. pose proof (section_records_ok cfg timenow LDNS_SECTION_ADDITIONAL qinfo.(qtype) dnssec off D S3) as Rok. fold RD in Rok.
  pose proof (zlen_nonneg l) as Zl. apply (section_is_built _ _ _ _ id_ _ q l _ 0 _ _ H Hb Rok ltac:(lia)) in HE.
  destruct HE as [(-> & d3 & p3 & L3 & H3 & O3 & Hp3 & Hb3)|[(n & -> & Hn & Hl & d3 & p3 & Hs3 & Hb3)|[Er Hm]]]; rewrite ?Z.add_0_l.
  - cbn [Z.eqb RETVAL_OK RETVAL_TRUNC negb]. destruct (put_word b0 d3 p3 w3 id_ _ q _ 4 (zlen (concat RD)) (enc_stands b0 _ _ _ _ _ H3) Hb3 ltac:(lia)) as (E2 & Hs4 & Hb4 & _). change (2 + 2 * Z.of_nat 4) with 10 in *.
    rewrite (st_bind_ok _ _ _ _ _ E2). cbv beta. destruct (flip_ok _ _ _ _ _ _ _ Hs4 Hb4) as (w' & E3 & Hf). rewrite (st_bind_ok _ _ _ _ _ E3). exists true, w'. split; [done|].
    exists (length RD). rewrite firstn_all. split; [exact Hf|lia].
  - cbn [Z.eqb RETVAL_TRUNC]. destruct (e_finish_ok d3 p3 w3 id_ flags_ _ q _ 3 (zlen (concat (take n RD))) false 10 Hs3 Hb3 ltac:(lia) eq_refl) as (w' & E2 & Hf). exists true, w'. split; [exact E2|].
    exists n. split; [exact Hf|lia].
  - destruct res as [ret n']. cbn in Er. subst ret. by exists false, w3.
Qed.

(** [ns] and [ar] are the records of the sections, or those of their first RRsets; whether the bit TC is set. *)
Definition tail_shown (RN RD : list (list record)) (tc : bool) (ns ar : list record) : Prop :=
  (exists n, tc = true /\ (n < length RN)%nat /\ ns = concat (take n RN) /\ ar = []) \/ (exists n, tc = false /\ ns = concat RN /\ ar = concat (take n RD)).

Lemma insert_auth_add_ok qinfo rep dnssec minimise off A N D d p L w id_ flags_ qd an q l : reply_ok rep A N D -> enc 0 d p L w -> built d p id_ [flags_; qd; an; 0; 0] q l ->
  let RN := authority rep qinfo.(qtype) dnssec minimise off A N in let RD := additional rep qinfo.(qtype) dnssec minimise off A N D in
  exists res w', insert_auth_add cfg qinfo rep timenow dnssec minimise off w = Ok (res, w') /\
    if res : bool then exists tc ns ar, tail_shown RN RD tc ns ar /\ sealed w' id_ [flags_with tc flags_; qd; an; zlen ns; zlen ar] q (l ++ ns ++ ar) /\
                         (p + full_sizes (concat RN ++ concat RD) <= lim -> tc = false /\ ar = concat RD)
    else ~ mallocs_ok w.(e_memory).
Proof.
  intros R H Hb RN RD. destruct (reply_parts_ok _ _ _ _ R) as ((_ & K2 & _) & (_ & S2 & _) & _). destruct (rp_counts _ _ _ _ R) as (C1 & C2 & _). unfold insert_auth_add. rewrite C1, C2.
  rewrite (st_bind_ok (lift _) _ w (minimise && is_positive rep.(flags) qinfo.(qtype) A N) w).
  2:{ unfold lift. destruct minimise; [by rewrite (positive_ok _ _ _ _ _ R)|done]. }
  cbv beta. destruct (minimise && is_positive (flags rep) (qtype qinfo) A N) eqn:Ep.
  { assert (RN = [] /\ RD = []) as [-> ->] by (unfold RN, RD, authority, additional; apply andb_true_iff in Ep as [-> ->]; done). destruct (flip_ok _ _ _ _ _ _ _ (enc_stands b0 _ _ _ _ _ H) Hb) as (w' & E1 & Hf). rewrite (st_bind_ok _ _ _ _ _ E1).
    exists true, w'. split; [done|]. exists false, [], []. split; [right; by exists 0%nat|]. by rewrite app_nil_r. }
  assert (RN = section_records LDNS_SECTION_AUTHORITY (qtype qinfo) dnssec off N) as ERN by (unfold RN, authority; by rewrite Ep).
  assert (RD = if minimise && is_negative rep.(flags) A N then [] else section_records LDNS_SECTION_ADDITIONAL (qtype qinfo) dnssec off D) as ERD by (unfold RD, additional; by rewrite andb_orb_distrib_r, Ep).
  destruct (insert_section_ok cfg b0 Hlim timenow Hnow rep.(rep_rrsets) LDNS_SECTION_AUTHORITY qinfo.(qtype) dnssec off N d p L w (zlen A) 0 H S2 ltac:(unfold in_u; lia) (zlen_nonneg A) K2) as (res & w1 & E1 & HE).
  rewrite (st_bind_ok _ _ _ _ _ E1). cbv beta. clear E1. rewrite <- ERN in HE. pose proof (section_records_ok cfg timenow LDNS_SECTION_AUTHORITY qinfo.(qtype) dnssec off N S2) as Rok. rewrite <- ERN in Rok.
  pose proof (full_sizes_nonneg (concat RD)). rewrite full_sizes_app. pose proof (zlen_nonneg l) as Zl. apply (section_is_built _ _ _ _ id_ _ q l _ 0 _ _ H Hb Rok ltac:(lia)) in HE.
  destruct HE as [(-> & d1 & p1 & L1 & H1 & O1 & Hp1 & Hb1)|[(n & -> & Hn & Hl & d1 & p1 & Hs1 & Hb1)|[Er Hm]]]; rewrite ?Z.add_0_l.
  - cbn [Z.eqb RETVAL_OK RETVAL_TRUNC negb]. destruct (put_word b0 d1 p1 w1 id_ _ q _ 3 (zlen (concat RN)) (enc_stands b0 _ _ _ _ _ H1) Hb1 ltac:(lia)) as (E2 & Hs2 & Hb2 & _).
    pose proof (enc_word b0 d1 p1 L1 w1 3 (zlen (concat RN)) H1 ltac:(lia)) as H2. change (2 + 2 * Z.of_nat 3) with 8 in *. rewrite (st_bind_ok _ _ _ _ _ E2). cbv beta zeta. cbn [insert list_insert] in Hb2. cbv zeta in H2.
    destruct (insert_additional_ok qinfo rep dnssec minimise off A N D _ _ _ _ id_ flags_ qd an _ q _ R H2 Hb2) as (res & w' & E3 & HF). rewrite <- ERD in HF. exists res, w'. split; [exact E3|]. destruct res.
    + destruct HF as (n & Hf & Hfit). exists false, (concat RN), (concat (take n RD)). split; [right; by exists n|]. rewrite <- app_assoc in Hf. split; [exact Hf|]. intros Hl. split; [done|]. rewrite take_ge; [done|]. apply Hfit. lia.
    + intros Hw. apply HF. cbn. by apply O1.
  - cbn [Z.eqb RETVAL_TRUNC]. destruct (e_finish_ok d1 p1 w1 id_ flags_ _ q _ 2 (zlen (concat (take n RN))) true 8 Hs1 Hb1 ltac:(lia) eq_refl) as (w' & E2 & Hf). exists true, w'. split; [exact E2|].
    exists true, (concat (take n RN)), []. split; [left; by exists n|]. rewrite app_nil_r. split; [exact Hf|]. lia.
  - destruct res as [ret n']. cbn in Er. subst ret. by exists false, w1.
Qed.

(** *** The answer section *)

(** The local alias is [al]. *)
Definition alias_ok (qinfo : query_info) (al : option stored) : Prop :=
  match qinfo.(local_alias), al with
  | Some k, Some s => k = s.(st_key) /\ stored_ok s
  | None, None => True
  | _, _ => False
  end.

(** The RRset of the local alias, with its TTL as it is, is in front when the answer is authoritative. *)
Definition answer (qt flags_ : Z) (dnssec : bool) (off : Z) (al : option stored) (A : list stored) : list (list record) :=
  (match al with
   | Some s => if negb (Z.land flags_ BIT_AA =? 0) then EncodeSection.section_records cfg 0 LDNS_SECTION_ANSWER qt dnssec off [s] else []
   | None => []
   end) ++ section_records LDNS_SECTION_ANSWER qt dnssec off A.

Definition all_shown (RA RN RD : list (list record)) (tc : bool) (an ns ar : list record) : Prop :=
  (exists n, tc = true /\ (n < length RA)%nat /\ an = concat (take n RA) /\ ns = [] /\ ar = []) \/ (an = concat RA /\ tail_shown RN RD tc ns ar).

(** The alias, as a section of its own. *)
Lemma insert_alias_ok qinfo al qt dnssec off d p L w id_ flags_ hs q l : alias_ok qinfo al -> enc 0 d p L w -> built d p id_ hs q l ->
  let R := match al with Some s => if negb (Z.land flags_ BIT_AA =? 0) then EncodeSection.section_records cfg 0 LDNS_SECTION_ANSWER qt dnssec off [s] else [] | None => [] end in
  exists res w', (match qinfo.(local_alias) with
                   | Some rrset =>
                       if negb (Z.land flags_ BIT_AA =? 0)
                       then insert_section cfg [Some rrset] 1 0 0 0 LDNS_SECTION_ANSWER qt dnssec off
                       else mret (RETVAL_OK, 0)
                   | None => mret (RETVAL_OK, 0)
                   end : E (Z * Z)) w = Ok (res, w') /\ section_built d p L w id_ hs q l R 0 res w' /\ Forall record_ok (concat R).
Proof.
  intros Ha H Hb R. assert (section_built d p L w id_ hs q l [] 0 (RETVAL_OK, 0) w) as H0.
  { left. split; [done|]. exists d, p, L. split; [done|]. split; [apply onward_refl|]. split; [cbn; lia|]. by rewrite app_nil_r. }
  unfold alias_ok in Ha. destruct (local_alias qinfo) as [k|], al as [s|]; try done; [|by exists (RETVAL_OK, 0), w]. destruct Ha as [-> K]. unfold R. destruct (negb (Z.land flags_ BIT_AA =? 0)); [|by exists (RETVAL_OK, 0), w].
  assert (Forall stored_ok [s]) as Hok by (by constructor). pose proof (section_records_ok cfg 0 LDNS_SECTION_ANSWER qt dnssec off [s] Hok) as Rok. pose proof (zlen_nonneg l).
  destruct (insert_section_ok cfg b0 Hlim 0 ltac:(unfold in_s; lia) [Some s.(st_key)] LDNS_SECTION_ANSWER qt dnssec off [s] d p L w 0 0 H Hok ltac:(unfold in_u; lia) ltac:(lia)) as (res & w1 & E1 & HE).
  { intros [|m] s' [= <-]; done. }
  exists res, w1. split; [exact E1|]. split; [|done]. by apply section_is_built; try lia.
Qed.

Lemma insert_answers_ok qinfo al rep flags_ dnssec minimise off A N D d p L w id_ f qd q : alias_ok qinfo al -> reply_ok rep A N D -> enc 0 d p L w -> built d p id_ [f; qd; 0; 0; 0] q [] ->
  let RA := answer qinfo.(qtype) flags_ dnssec off al A in let RN := authority rep qinfo.(qtype) dnssec minimise off A N in let RD := additional rep qinfo.(qtype) dnssec minimise off A N D in
  exists res w', insert_answers cfg qinfo rep flags_ timenow dnssec minimise off w = Ok (res, w') /\
    if res : bool then exists tc an ns ar, all_shown RA RN RD tc an ns ar /\ sealed w' id_ [flags_with tc f; qd; zlen an; zlen ns; zlen ar] q (an ++ ns ++ ar) /\
                         (p + full_sizes (concat RA ++ concat RN ++ concat RD) <= lim -> tc = false /\ ar = concat RD)
    else ~ mallocs_ok w.(e_memory).
Proof.
  intros Hal R H Hb RA RN RD. destruct (reply_parts_ok _ _ _ _ R) as ((K1 & _) & (S1 & _) & _). destruct (rp_counts _ _ _ _ R) as (C1 & _). unfold insert_answers. rewrite C1.
  destruct (insert_alias_ok qinfo al qinfo.(qtype) dnssec off d p L w id_ flags_ _ q [] Hal H Hb) as (res & w1 & E1 & HE & Rok0). rewrite (st_bind_ok _ _ _ _ _ E1). cbv beta. clear E1. unfold answer in RA.
  set (R0 := match al with Some s => if negb (Z.land flags_ BIT_AA =? 0) then _ else [] | None => [] end) in *. set (R1 := section_records LDNS_SECTION_ANSWER qinfo.(qtype) dnssec off A) in *.
  rewrite !full_sizes_app. unfold RA. rewrite concat_app, full_sizes_app. pose proof (full_sizes_nonneg (concat R1)). pose proof (full_sizes_nonneg (concat RN ++ concat RD)) as Zt. rewrite full_sizes_app in Zt.
  pose proof (section_records_ok cfg timenow LDNS_SECTION_ANSWER qinfo.(qtype) dnssec off A S1) as Rok1. fold R1 in Rok1.
  destruct HE as [(-> & d1 & p1 & L1 & H1 & O1 & Hp1 & Hb1)|[(n & -> & Hn & Hl & d1 & p1 & Hs1 & Hb1)|[Er Hm]]]; rewrite ?Z.add_0_l.
  2:{ cbn [Z.eqb RETVAL_TRUNC]. destruct (e_finish_ok d1 p1 w1 id_ f _ q _ 1 (zlen (concat (take n R0))) true 6 Hs1 Hb1 ltac:(lia) eq_refl) as (w' & E2 & Hf). exists true, w'. split; [exact E2|].
      exists true, (concat (take n R0)), [], []. rewrite app_nil_r. split; [left; exists n; rewrite length_app, take_app_le by lia; split; [done|]; split; [lia|done]|]. split; [exact Hf|]. lia. }
  2:{ destruct res as [ret n']. cbn in Er. subst ret. by exists false, w1. }
  cbn [Z.eqb RETVAL_OK RETVAL_TRUNC negb]. cbn [app] in Hb1.
  destruct (insert_section_ok cfg b0 Hlim timenow Hnow rep.(rep_rrsets) LDNS_SECTION_ANSWER qinfo.(qtype) dnssec off A d1 p1 L1 w1 0 (zlen (concat R0)) H1 S1) as (res & w2 & E1 & HE); [|lia|done|].
  { pose proof (built_count _ _ _ _ _ _ _ (enc_stands b0 _ _ _ _ _ H1) Hb1). pose proof (zlen_nonneg (concat R0)). unfold in_u. lia. }
  rewrite (st_bind_ok _ _ _ _ _ E1). cbv beta. clear E1. fold R1 in HE. pose proof (zlen_nonneg (concat R0)). apply (section_is_built _ _ _ _ id_ _ q _ _ (zlen (concat R0)) _ _ H1 Hb1 Rok1 ltac:(lia)) in HE.
  destruct HE as [(-> & d2 & p2 & L2 & G2 & O2 & Hp2 & Hb2)|[(n & -> & Hn & Hl & d2 & p2 & Hs2 & Hb2)|[Er Hm]]].
  - cbn [Z.eqb RETVAL_OK RETVAL_TRUNC negb]. rewrite <- zlen_app. destruct (put_word b0 d2 p2 w2 id_ _ q _ 2 (zlen (concat R0 ++ concat R1)) (enc_stands b0 _ _ _ _ _ G2) Hb2 ltac:(lia)) as (E2 & Hs3 & Hb3 & _).
    pose proof (enc_word b0 d2 p2 L2 w2 2 (zlen (concat R0 ++ concat R1)) G2 ltac:(lia)) as G3. change (2 + 2 * Z.of_nat 2) with 6 in *. rewrite (st_bind_ok _ _ _ _ _ E2). cbv beta zeta. cbn [insert list_insert] in Hb3. cbv zeta in G3.
    destruct (insert_auth_add_ok qinfo rep dnssec minimise off A N D _ _ _ _ id_ f qd _ q _ R G3 Hb3) as (res & w' & E3 & HF). fold RN RD in HF. exists res, w'. split; [exact E3|]. destruct res.
    + destruct HF as (tc & ns & ar & Ht & Hf & Hfit). exists tc, (concat R0 ++ concat R1), ns, ar. split; [right; by rewrite concat_app|]. split; [exact Hf|]. intros Hl. apply Hfit. rewrite full_sizes_app. lia.
    + intros Hw. apply HF. cbn. by apply O2, O1.
  - cbn [Z.eqb RETVAL_TRUNC]. rewrite <- zlen_app. destruct (e_finish_ok d2 p2 w2 id_ f _ q _ 1 (zlen (concat R0 ++ concat (take n R1))) true 6 Hs2 Hb2 ltac:(lia) eq_refl) as (w' & E2 & Hf). exists true, w'. split; [exact E2|].
    exists true, (concat R0 ++ concat (take n R1)), [], []. rewrite app_nil_r. split; [left; exists (length R0 + n)%nat; rewrite length_app, take_app_add, concat_app; split; [done|]; split; [lia|done]|]. split; [exact Hf|]. lia.
  - destruct res as [ret n']. cbn in Er. subst ret. exists false, w2. split; [done|]. intros Hw. by apply Hm, O1.
Qed.
End Encode.
