(* ===== verification/EncodeReply.v ===== *)
(** * Encoding replies: the question, and the whole of [reply_info_encode]

    The header and the question go into the packet first; the sections come after them.  The
    function never faults: it writes the message, or the packet has no room for the header, or
    there is no memory for the nodes of the compression tree.  The last part does that with the
    reply that is made of a packet. *)

From S2P Require Import Prelude Sbuffer Lookup3 Dname DnameCompare DnamePkt DnameOut PathOrder NameTree RrDef Msgparse MsgMemory MsgPkt MsgRdata MsgLists MsgOps MsgSigs MsgChange MsgFind MsgRr MsgSections MsgPacket PackedRrset PackedBlock Msgreply ReplyRrset ReplyMessage ReplyParse Msgencode EncodeTree EncodeStore EncodeNames EncodeRdata EncodeRrset EncodeSection EncodeMessage.

(** ** The question *)

(** The question is for the name [ls]. *)
Record asks (qinfo : query_info) (ls : name) : Prop := {
  as_name : exists r, question_name qinfo = Ok (wire ls ++ r, zlen (wire ls));
  as_ok : name_ok ls;
  as_room : zlen (wire ls) <= qinfo.(qname_len) < 2 ^ 63;
  as_type : in_u 16 qinfo.(qtype);
  as_class : in_u 16 qinfo.(qclass);
}.

Definition question (qinfo : query_info) (ls : name) : list Z := wire ls ++ sldns_write_uint16 qinfo.(qtype) ++ sldns_write_uint16 qinfo.(qclass).

Lemma zlen_question qinfo ls : zlen (question qinfo ls) = zlen (wire ls) + 4.
Proof. unfold question. by rewrite !zlen_app. Qed.

Lemma question_bytes qinfo ls : name_ok ls -> bytes_ok (question qinfo ls).
Proof. intros [H _]. unfold question. rewrite !Forall_app. split; [by apply bytes_ok_wire|]. split; apply write_uint16_bytes. Qed.

Lemma no_tree ok w : w.(e_tree) = None -> tree_ok ok w [].
Proof. intros E. split; [by exists Leaf|constructor..]. Qed.

Section Reply.
Context (b0 : sldns_buffer).
Abbreviation lim := (b0.(_limit)).
Abbreviation at_d := (buffer_at b0).
Abbreviation at_e := (encoder_at b0).
Abbreviation good d p := (buf_ok (at_d d p) d).
Abbreviation enc := (enc b0).

(** The name is stored before its bytes are in the packet; they are when it is used. *)
Lemma store_question d ls r w q : good d 12 -> w = at_e w d 12 -> w.(e_tree) = None -> name_ok ls -> 12 + zlen (wire ls ++ q) <= lim -> bytes_ok q ->
  let d2 := spliced d 12 (wire ls ++ q) in
  exists v w', compress_tree_store (wire ls ++ r) (1 + zlen ls) 12 None (Some AtRoot) w = Ok (v, w') /\ w' = at_e w' d 12 /\ (mallocs_ok w.(e_memory) -> mallocs_ok w'.(e_memory)) /\
    ((v = 0 /\ ~ mallocs_ok w.(e_memory)) \/ (v = 1 /\ exists L, enc 0 d2 (12 + zlen (wire ls ++ q)) L (at_e w' d2 (12 + zlen (wire ls ++ q))))).
Proof.
  intros B Ew Et [Hls H255] Hl Hq d2. set (p2 := 12 + zlen (wire ls ++ q)) in *. pose proof (good_range _ _ _ B). pose proof (zlen_nonneg q).
  assert (bytes_ok (wire ls ++ q)) as Hb by (apply Forall_app; split; [by apply bytes_ok_wire|done]). pose proof (good_splice _ _ _ _ B Hb Hl) as B2. fold d2 p2 in B2.
  pose proof (splice_has _ _ _ _ B Hl) as Hh. fold d2 in Hh. rewrite wire_flat, <- app_assoc in Hh. unfold p2 in *. rewrite zlen_app, zlen_wire_flat in *. pose proof (zlen_nonneg (flat ls)).
  apply has_app in Hh as [G1 G2]; [|lia]. apply has_app in G2 as [G2 _]; [|lia].
  assert (enc 0 d 12 [] w) as HE by (split; [by rewrite Ew|done|done|by apply no_tree]).
  destruct (ready_written b0 0 d 12 [] w d2 (12 + (zlen (flat ls) + 1 + zlen q)) ls [] 0 [] 1 None HE) as [R _]; try done; [by rewrite app_nil_r|lia|lia|constructor; [lia|done|intros i Hi; unfold solid; lia]|].
  rewrite app_nil_r in R. destruct w as [pk t h m]. cbn in Et. subst t.
  destruct (store_ok (spelled d2 (solid 0 (12 + (zlen (flat ls) + 1 + zlen q)))) pk None h m [] ls r 12 None (Some AtRoot)) as (v & w' & E & Ep & Hm & Hv); [by apply no_tree|by intros e He%not_elem_of_nil| |done|lia|rewrite zlen_wire_flat; lia|exact R|].
  { right. exists [], [], AtRoot, Leaf. done. }
  exists v, w'. split; [exact E|]. split; [apply at_e_self; rewrite Ep; by injection Ew|]. split; [done|]. destruct Hv as [?|(-> & L & T & _)]; [by left|]. right. split; [done|]. exists L.
  split; [done|exact B2|lia|]. by eapply tree_ok_mono.
Qed.

(** The question as it is after [insert_query]. *)
Lemma insert_query_ok qinfo ls (inplace : bool) d w : asks qinfo ls -> good d 12 -> w = at_e w d 12 -> w.(e_tree) = None -> (inplace = true -> has d 12 (wire ls)) ->
  exists ret w', insert_query qinfo inplace w = Ok (ret, w') /\
    ((ret = RETVAL_TRUNC /\ lim < 12 + qinfo.(qname_len) + 4 /\ w' = w) \/ (ret = RETVAL_OUTMEM /\ ~ mallocs_ok w.(e_memory)) \/
     (ret = RETVAL_OK /\ exists d' L, let p := 12 + zlen (question qinfo ls) in
        enc 0 d' p L w' /\ agree (fun i => 0 <= i < 12) d d' /\ has d' 12 (question qinfo ls) /\ (mallocs_ok w.(e_memory) -> mallocs_ok w'.(e_memory)))).
Proof.
  intros [[r En] Hok Hroom Ht Hc] B Ew Et Hin. pose proof Hok as [Hls H255]. pose proof (good_range _ _ _ B). pose proof (zlen_wire_pos ls). unfold insert_query.
  rewrite (st_bind_ok (lift _) _ w (wire ls ++ r, zlen (wire ls)) w) by (unfold lift; by rewrite En). cbv beta iota.
  rewrite (st_bind_ok _ _ w (lim - 12) w) by (rewrite Ew; by apply e_remaining_ok). cbv beta. change (2 * 2) with 4. rewrite (wrap_small 64 (qinfo.(qname_len) + 4)) by (unfold in_u; lia).
  destruct (Z.ltb_spec (lim - 12) (qinfo.(qname_len) + 4)); [by exists RETVAL_TRUNC, w; split; [|left; split; [|split; [lia|]]]|].
  rewrite (st_bind_ok (lift _) _ w (1 + zlen ls) w) by (unfold lift; by rewrite dname_count_labels_wire). cbv beta. rewrite (st_bind_ok _ _ w 12 w) by (by rewrite Ew). cbv beta.
  set (q := sldns_write_uint16 qinfo.(qtype) ++ sldns_write_uint16 qinfo.(qclass)). pose proof (zlen_question qinfo ls) as Zq. change (question qinfo ls) with (wire ls ++ q) in *.
  destruct (store_question d ls r w q B Ew Et Hok ltac:(lia)) as (v & w1 & E1 & Ew1 & Hm & Hv); [apply Forall_app; split; apply write_uint16_bytes|].
  rewrite (st_bind_ok _ _ _ _ _ E1). cbv beta. destruct Hv as [[-> Hno]|(-> & L & G1)]; [by exists RETVAL_OUTMEM, w1; split; [|right; left]|]. cbn [Z.eqb].
  assert (good (spliced d 12 (wire ls)) (12 + zlen (wire ls))) as B1 by (apply good_splice; [done|by apply bytes_ok_wire|lia]).
  rewrite (st_bind_ok (if inplace then _ else _) _ w1 tt (at_e w1 (spliced d 12 (wire ls)) (12 + zlen (wire ls)))).
  2:{ rewrite Ew1 at 1. destruct inplace; [|by apply e_write_ok; [done|apply bytes_ok_wire| |lia]]. destruct (e_skip_ok b0 w1 d 12 (zlen (wire ls)) B ltac:(lia) ltac:(lia)) as [-> _]. do 3 f_equal. symmetry.
      apply spliced_same; [lia|by apply Hin]. }
  cbv beta. rewrite (st_bind_ok _ _ _ _ _ (e_write_u16_ok b0 w1 _ _ qinfo.(qtype) B1 Ht ltac:(lia))). cbv beta.
  pose proof (good_splice _ _ _ (sldns_write_uint16 qinfo.(qtype)) B1 (write_uint16_bytes _) ltac:(change (zlen (sldns_write_uint16 _)) with 2; lia)) as B2. change (zlen (sldns_write_uint16 (qtype qinfo))) with 2 in B2.
  rewrite (st_bind_ok _ _ _ _ _ (e_write_u16_ok b0 w1 _ _ qinfo.(qclass) B2 Hc ltac:(lia))). cbv beta.
  assert (spliced d 12 (wire ls ++ q) = spliced (spliced (spliced d 12 (wire ls)) (12 + zlen (wire ls)) (sldns_write_uint16 qinfo.(qtype))) (12 + zlen (wire ls) + 2) (sldns_write_uint16 qinfo.(qclass))) as Ed.
  { pose proof (good_range _ _ _ B1). rewrite zlen_app in Zq. rewrite <- (spliced_spliced d 12 (wire ls) q) by lia. symmetry. apply (spliced_spliced _ _ (sldns_write_uint16 qinfo.(qtype))); [lia|].
    change (zlen (sldns_write_uint16 (qtype qinfo))) with 2. change (zlen (sldns_write_uint16 (qclass qinfo))) with 2. lia. }
  rewrite <- Ed. eexists _, _. split; [reflexivity|]. right. right. split; [done|].
  exists (spliced d 12 (wire ls ++ q)), L. cbv zeta. replace (12 + zlen (wire ls) + 2 + 2) with (12 + zlen (wire ls ++ q)) by lia.
  split; [exact G1|]. split; [apply (splice_kept b0); [done|lia]|]. split; [apply (splice_has b0); [done|lia]|done].
Qed.
End Reply.

(** ** The header *)

Definition cleared (b : sldns_buffer) (udpsize : Z) : sldns_buffer := mk_buffer 0 (Z.min udpsize b.(_capacity)) b.(_capacity) b.(_data) b.(_fixed) b.(_status_err).

Lemma cleared_ok b d udpsize : buf_ok b d -> in_u 16 udpsize -> (cleared b udpsize).(_limit) <= 65535 /\ buf_ok (buffer_at (cleared b udpsize) d 0) d /\ buffer_at (cleared b udpsize) d 0 = cleared b udpsize.
Proof.
  intros B Hu. unfold in_u in Hu. split; [cbn; lia|]. destruct B as [Hd Hz Hp Hl Hc Hb]. pose proof (zlen_nonneg d). split; [by split; cbn; try lia|]. unfold buffer_at, cleared, set_pos, set_data. cbn. by rewrite Hd.
Qed.

(** The packet is cleared, and its limit set. *)
Lemma clear_ok {A} (k : E A) w d udpsize : buf_ok w.(e_pkt) d -> in_u 16 udpsize ->
  (to_pkt p_clear;; limit ← to_pkt (ask (fun b => Ok (sldns_buffer_limit b))); (if udpsize <? limit then to_pkt (p_set_limit udpsize) else mret tt);; k) w =
  k (encoder_at (cleared w.(e_pkt) udpsize) w d 0).
Proof.
  intros B Hu. unfold in_u in Hu. destruct (cleared_ok _ _ _ B Hu) as (_ & _ & Ec). set (b := w.(e_pkt)) in *. set (b1 := mk_buffer 0 b.(_capacity) b.(_capacity) b.(_data) b.(_fixed) b.(_status_err)).
  rewrite (st_bind_ok (to_pkt p_clear) _ w tt (mk_encoder b1 w.(e_tree) w.(e_nodes) w.(e_memory))).
  2:{ unfold to_pkt, p_clear, sldns_buffer_clear. fold b. by rewrite (invariant_ok _ _ B). }
  cbv beta. set (w1 := mk_encoder b1 w.(e_tree) w.(e_nodes) w.(e_memory)). rewrite (st_bind_ok (to_pkt (ask _)) _ w1 b.(_capacity) w1) by done. cbv beta.
  rewrite (st_bind_ok (if udpsize <? b.(_capacity) then to_pkt (p_set_limit udpsize) else mret tt) _ w1 tt (encoder_at (cleared b udpsize) w d 0)); [done|]. unfold encoder_at. rewrite Ec. unfold cleared, w1, b1. destruct (Z.ltb_spec udpsize b.(_capacity)).
  - unfold to_pkt, p_set_limit, sldns_buffer_set_limit. cbn [e_pkt _capacity _position]. rewrite leb_true, ltb_false by lia. cbn. by rewrite Z.min_l by lia.
  - by rewrite Z.min_r by lia.
Qed.

Section Header.
Context (b0 : sldns_buffer).
Abbreviation good d p := (buf_ok (buffer_at b0 d p) d).

(** One more write after [x]. *)
Lemma put_more (d x y : list Z) (p p' n : Z) : 0 <= p -> p' = p + zlen x -> zlen y = n -> p' + n <= zlen d -> spliced (spliced d p x) p' y = spliced d p (x ++ y) /\ p' + n = p + zlen (x ++ y).
Proof. intros Hp -> <- Hl. rewrite zlen_app. split; [apply spliced_spliced; lia|lia]. Qed.

Lemma put_header {A} (k : E A) w (d : list Z) id_ flags_ qd : good d 0 -> 12 <= b0.(_limit) -> bytes_ok id_ -> zlen id_ = 2 -> in_u 16 flags_ -> in_u 16 qd ->
  let h := id_ ++ words [flags_; qd; 0; 0; 0] in let d1 := spliced d 0 h in
  (e_write id_ 2;; e_write_u16 flags_;; e_write_u16 qd;; e_write [0; 0; 0; 0; 0; 0] 6;; k) (encoder_at b0 w d 0) = k (encoder_at b0 w d1 12) /\ good d1 12 /\ zlen h = 12.
Proof.
  intros B Hl Hb Hz Hf Hq h d1. pose proof (good_range _ _ _ B). assert (zlen h = 12) as Zh by (unfold h; rewrite zlen_app, zlen_words, Hz; done).
  assert (bytes_ok h) as Hh by (unfold h, words; cbn [map concat]; rewrite !Forall_app; split_and!; try done; apply write_uint16_bytes).
  pose proof (good_splice _ _ _ h B Hh ltac:(lia)) as B4. fold d1 in B4. rewrite Zh in B4. split; [|done].
  pose proof (good_splice _ _ _ id_ B Hb ltac:(lia)) as B1. rewrite Hz in B1. rewrite (st_bind_ok _ _ _ _ _ (e_write_all b0 w d 0 id_ 2 B Hb ltac:(lia) ltac:(lia))), Hz. cbv beta.
  pose proof (good_splice _ _ _ (sldns_write_uint16 flags_) B1 (write_uint16_bytes _)) as B2. change (zlen (sldns_write_uint16 flags_)) with 2 in B2. specialize (B2 ltac:(lia)).
  rewrite (st_bind_ok _ _ _ _ _ (e_write_u16_ok b0 w _ _ flags_ B1 Hf ltac:(lia))). cbv beta.
  pose proof (good_splice _ _ _ (sldns_write_uint16 qd) B2 (write_uint16_bytes _)) as B3. change (zlen (sldns_write_uint16 qd)) with 2 in B3. specialize (B3 ltac:(lia)).
  rewrite (st_bind_ok _ _ _ _ _ (e_write_u16_ok b0 w _ _ qd B2 Hq ltac:(lia))). cbv beta.
  rewrite (st_bind_ok _ _ _ _ _ (e_write_all b0 w _ _ [0; 0; 0; 0; 0; 0] 6 B3 ltac:(by repeat constructor) eq_refl ltac:(change (zlen [0; 0; 0; 0; 0; 0]) with 6; lia))). cbv beta.
  assert (spliced (spliced (spliced (spliced d 0 id_) (0 + 2) (sldns_write_uint16 flags_)) (0 + 2 + 2) (sldns_write_uint16 qd)) (0 + 2 + 2 + 2) [0; 0; 0; 0; 0; 0] = d1) as ->; [|done].
  destruct (put_more d id_ (sldns_write_uint16 flags_) 0 (0 + 2) 2) as [-> E1]; [lia|lia|done|lia|]. rewrite E1.
  destruct (put_more d (id_ ++ sldns_write_uint16 flags_) (sldns_write_uint16 qd) 0 _ 2 ltac:(lia) eq_refl) as [-> E2]; [done|lia|]. rewrite E2.
  destruct (put_more d ((id_ ++ sldns_write_uint16 flags_) ++ sldns_write_uint16 qd) [0; 0; 0; 0; 0; 0] 0 _ 6 ltac:(lia) eq_refl) as [-> _]; [done|lia|]. unfold d1, h. by rewrite <- !app_assoc.
Qed.
End Header.

(** The id as a number. *)
Lemma id_value id_ : bytes_ok id_ -> zlen id_ = 2 -> ntohs id_ = Ok (u16_at id_ 0) /\ in_u 16 (u16_at id_ 0).
Proof.
  intros Hb Hz. pose proof (u16_at_read id_ 0 ltac:(lia) ltac:(lia)) as E. rewrite zdrop_0 in E. split; [exact E|]. by eapply u16_range.
Qed.

(** ** The whole *)

Section Whole.
Context (cfg : ttl_settings) (roundrobin : bool) (time_now : Z) (Hclock : in_s 63 time_now).

(** What the RRs of the RRsets are rotated by. *)
Definition rr_offset (id_ : list Z) (timenow : Z) : Z := if roundrobin then u64 (u16_at id_ 0 + (if timenow =? 0 then time_now else timenow)) else 0.

(** The question of the reply, and the bytes that are asked for it. *)
Definition asked (qinfo : query_info) (rep : reply_info) (ls : name) : list Z := if rep.(qdcount) =? 0 then [] else question qinfo ls.
Definition asked_size (qinfo : query_info) (rep : reply_info) : Z := if rep.(qdcount) =? 0 then 0 else qinfo.(qname_len) + 4.

(** The records of the reply, per RRset of each section, as they are at [timenow]. *)
Record shown := mk_shown { sh_answer : list (list record); sh_authority : list (list record); sh_additional : list (list record) }.
Definition records_of (qinfo : query_info) (al : option stored) (rep : reply_info) (A N D : list stored) (id_ : list Z) (flags_ timenow : Z) (dnssec minimise : bool) : shown :=
  let off := rr_offset id_ timenow in
  mk_shown (answer cfg timenow qinfo.(qtype) flags_ dnssec off al A) (authority cfg timenow rep qinfo.(qtype) dnssec minimise off A N) (additional cfg timenow rep qinfo.(qtype) dnssec minimise off A N D).

(** Every record of the RRsets; in the additional section the signatures come after all data. *)
Definition every_record (A N D : list stored) (id_ : list Z) (timenow : Z) : shown :=
  let data x := map (rr_record cfg timenow x x.(st_type)) (rotated (length x.(st_rrs)) x.(st_rrs) (rr_offset id_ timenow) 0) in
  let sigs x := map (rr_record cfg timenow x LDNS_RR_TYPE_RRSIG) x.(st_sigs) in
  mk_shown (map (fun x => data x ++ sigs x) A) (map (fun x => data x ++ sigs x) N) (map data D ++ map sigs D).

(** Nothing is left out on purpose when DNSSEC is asked for, and no small answer. *)
Lemma records_complete qinfo rep A N D id_ flags_ timenow : records_of qinfo None rep A N D id_ flags_ timenow true false = every_record A N D id_ timenow.
Proof.
  unfold records_of, every_record, answer, authority, additional, section_records, EncodeSection.rrset_records, rrset_belongs_in_reply. cbn.
  f_equal. f_equal. apply map_ext. intros x. apply app_nil_r.
Qed.

(** The message that comes out: without its question, as there is no room for that; or with the
    records of [s], or the first of them, and then the bit TC unless only additional ones are
    missing; all of them when there is room. *)
Definition encoded (b0 : sldns_buffer) (qinfo : query_info) (rep : reply_info) (ls : name) (id_ : list Z) (flags_ : Z) (s : shown) (w' : encoder) : Prop :=
  let size := LDNS_HEADER_SIZE + asked_size qinfo rep in
  (sealed b0 w' id_ [Z.lor flags_ 512; 0; 0; 0; 0] [] [] /\ b0.(_limit) < size) \/
  (exists tc an ns ar, sealed b0 w' id_ [flags_with tc flags_; rep.(qdcount); zlen an; zlen ns; zlen ar] (asked qinfo rep ls) (an ++ ns ++ ar) /\
     all_shown s.(sh_answer) s.(sh_authority) s.(sh_additional) tc an ns ar /\
     (size + full_sizes (concat s.(sh_answer) ++ concat s.(sh_authority) ++ concat s.(sh_additional)) <= b0.(_limit) -> tc = false /\ ar = concat s.(sh_additional))).

Lemma question_stage b0 qinfo ls (inplace : bool) rep d w id_ flags_ : (rep.(qdcount) <> 0 -> asks qinfo ls) -> in_u 16 rep.(qdcount) -> buf_ok (buffer_at b0 d 12) d -> w = encoder_at b0 w d 12 -> w.(e_tree) = None ->
  header_at d id_ [flags_; rep.(qdcount); 0; 0; 0] -> zlen id_ = 2 -> (inplace = true -> has d 12 (wire ls)) ->
  exists ret w', (if negb (rep.(qdcount) =? 0) then insert_query qinfo inplace else mret RETVAL_OK : E Z) w = Ok (ret, w') /\
    ((ret = RETVAL_TRUNC /\ b0.(_limit) < 12 + asked_size qinfo rep /\ w' = w) \/ (ret = RETVAL_OUTMEM /\ ~ mallocs_ok w.(e_memory)) \/
     (ret = RETVAL_OK /\ exists d' p L, enc b0 0 d' p L w' /\ built d' p id_ [flags_; rep.(qdcount); 0; 0; 0] (asked qinfo rep ls) [] /\ p <= 12 + asked_size qinfo rep /\ (mallocs_ok w.(e_memory) -> mallocs_ok w'.(e_memory)))).
Proof.
  intros Hask Hqd B Ew Et Hh Hid Hin. unfold asked, asked_size. destruct (Z.eqb_spec rep.(qdcount) 0) as [E0|E0]; cbn [negb].
  - exists RETVAL_OK, w. split; [done|]. right. right. split; [done|]. exists d, 12, []. split; [split; [by rewrite Ew|done|done|by apply no_tree]|]. split; [|split; [lia|done]].
    by split.
  - destruct (insert_query_ok b0 qinfo ls inplace d w (Hask E0) B Ew Et Hin) as (ret & w' & E & [(-> & Hl & ->)|[Hm|(-> & d' & L & HE & HA & Hq & Hm)]]); (eexists _, _; split; [exact E|]).
    + left. split; [done|]. split; [lia|done].
    + by right; left.
    + right. right. split; [done|]. exists d', (12 + zlen (question qinfo ls)), L. split; [exact HE|]. split; [|split; [|exact Hm]].
      * split; try done; [|cbn; lia]. eapply has_agree; [exact HA| |done|exact Hh]. rewrite zlen_app, zlen_words, Hid. intros i Hi. change (zlen _) with 5 in Hi. lia.
      * rewrite zlen_question. pose proof (as_room _ _ (Hask E0)). lia.
Qed.

Lemma encode_ok qinfo al (inplace : bool) rep A N D ls id_ flags_ timenow udpsize dnssec minimise w d : buf_ok w.(e_pkt) d -> reply_ok rep A N D -> alias_ok qinfo al -> (rep.(qdcount) <> 0 -> asks qinfo ls) ->
  (inplace = true -> has d 12 (wire ls)) -> bytes_ok id_ -> zlen id_ = 2 -> in_u 16 flags_ -> in_s 63 timenow -> in_u 16 udpsize ->
  let b0 := cleared w.(e_pkt) udpsize in
  exists res w', reply_info_encode cfg roundrobin time_now qinfo inplace rep id_ flags_ timenow udpsize dnssec minimise w = Ok (res, w') /\
    if res then encoded b0 qinfo rep ls id_ flags_ (records_of qinfo al rep A N D id_ flags_ timenow dnssec minimise) w' else b0.(_limit) < LDNS_HEADER_SIZE \/ ~ mallocs_ok w.(e_memory).
Proof.
  intros B R Hal Hask Hin Hb Hid Hf Hnow Hu b0. destruct (cleared_ok _ _ _ B Hu) as (Hlim & B0 & _). fold b0 in Hlim, B0. unfold reply_info_encode.
  rewrite (st_bind_ok (set_tree None) _ w tt (mk_encoder w.(e_pkt) None w.(e_nodes) w.(e_memory))) by done. cbv beta. rewrite (clear_ok _ (mk_encoder w.(e_pkt) None w.(e_nodes) w.(e_memory)) d udpsize B Hu). cbn [e_pkt]. fold b0.
  set (w0 := encoder_at b0 _ d 0). rewrite (st_bind_ok _ _ w0 (b0.(_limit)) w0) by (unfold w0; rewrite (e_remaining_ok _ _ _ _ B0), Z.sub_0_r; done). cbv beta.
  destruct (Z.ltb_spec b0.(_limit) LDNS_HEADER_SIZE) as [Hs|Hs]; [exists false, w0; split; [done|by left]|]. unfold LDNS_HEADER_SIZE in Hs.
  pose proof (rp_qdcount _ _ _ _ R) as Hqd. subst w0. match goal with |- context [(_;; _;; _;; _;; ?k) (encoder_at _ _ _ _)] => destruct (put_header b0 k (mk_encoder w.(e_pkt) None w.(e_nodes) w.(e_memory)) d id_ flags_ _ B0 Hs Hb Hid Hf Hqd) as (-> & B1 & Zh) end.
  set (h := id_ ++ _) in *. set (d1 := spliced d 0 h) in *. set (w1 := encoder_at b0 _ d1 12). pose proof (good_range _ _ _ B0) as Hr.
  assert (has d1 0 h) as Hh by (apply has_splice; lia).
  assert (inplace = true -> has d1 12 (wire ls)) as Hin'.
  { intros Hi. specialize (Hin Hi). eapply has_agree; [apply (spliced_agree d 0 h); lia| |lia|exact Hin]. intros i Hi'. lia. }
  destruct (question_stage b0 qinfo ls inplace rep d1 w1 id_ flags_ Hask Hqd B1 eq_refl eq_refl Hh Hid Hin') as (ret & w2 & E & HE). rewrite (st_bind_ok _ _ _ _ _ E). cbv beta. clear E.
  destruct HE as [(-> & Hl & ->)|[[-> Hm]|(-> & d2 & p & L & HE & Hb2 & Hp & Hm)]].
  - cbn [Z.eqb RETVAL_TRUNC]. assert (built d1 12 id_ [flags_; rep.(qdcount); 0; 0; 0] [] []) as Hb1 by (by split).
    destruct (e_finish_ok b0 d1 12 w1 id_ flags_ _ [] [] 0 0 true 4 ltac:(by split) Hb1 ltac:(lia) eq_refl) as (w' & E2 & HF). exists true, w'. split; [exact E2|]. left. done.
  - exists false, w2. split; [done|]. by right.
  - cbn [Z.eqb RETVAL_OK RETVAL_TRUNC negb]. destruct (id_value id_ Hb Hid) as [Ei Hi]. rewrite (st_bind_ok (lift (ntohs id_)) _ w2 (u16_at id_ 0) w2) by (unfold lift; by rewrite Ei). cbv beta.
    rewrite (st_bind_ok (lift _) _ w2 (if roundrobin then u16_at id_ 0 + (if timenow =? 0 then time_now else timenow) else 0) w2).
    2:{ unfold lift. destruct roundrobin; [|done]. rewrite sint_ok; [done|]. unfold in_s, in_u in *. destruct (timenow =? 0); lia. }
    cbv beta. replace (u64 (if roundrobin then _ else _)) with (rr_offset id_ timenow) by (unfold rr_offset; by destruct roundrobin).
    destruct (insert_answers_ok cfg b0 Hlim timenow Hnow qinfo al rep flags_ dnssec minimise (rr_offset id_ timenow) A N D d2 p L w2 id_ flags_ _ _ Hal R HE Hb2) as (res & w' & E & HF). exists res, w'. split; [exact E|]. destruct res.
    + right. destruct HF as (tc & an & ns & ar & Hs1 & Hf1 & Hfit). exists tc, an, ns, ar. split; [exact Hf1|]. split; [exact Hs1|]. cbn [sh_answer sh_authority sh_additional records_of]. unfold LDNS_HEADER_SIZE. intros Hl. apply Hfit. lia.
    + right. intros Hw. by apply HF, Hm.
Qed.
End Whole.

(** C14. [reply_info_encode] never faults, for any reply with well-formed RRsets, packet, limit and
    answers of the allocator, when the name written as the question is not longer than
    [qname_len], by which its room is looked for (a longer name of a local alias
    faults: [alias_question_unchecked]).  It gives up only if the header does not fit or an
    allocation fails.  Else a message within the limit comes out: the header with the flags and
    the numbers of its records, the question, and the records of the reply
    as a reader finds them, names decompressed, TTLs counted down.
    In the answer and authority sections an RRset is there with its signatures or not
    at all.  In the additional section the RRs of all RRsets come first, then all their
    signatures: the RRs, and the signatures, of an RRset are there whole or not, so
    it can lose its signatures.  TC is added exactly if the question or an RRset of the answer or
    authority section is missing; nothing is if the records would fit without compression. *)
Theorem reply_info_encode_message cfg roundrobin time_now qinfo al (inplace : bool) rep A N D ls id_ flags_ timenow udpsize dnssec minimise w d : in_s 63 time_now ->
  buf_ok w.(e_pkt) d -> reply_ok rep A N D -> alias_ok qinfo al -> (rep.(qdcount) <> 0 -> asks qinfo ls) ->
  (inplace = true -> has d 12 (wire ls)) -> bytes_ok id_ -> zlen id_ = 2 -> in_u 16 flags_ -> in_s 63 timenow -> in_u 16 udpsize ->
  let b0 := cleared w.(e_pkt) udpsize in
  exists res w', reply_info_encode cfg roundrobin time_now qinfo inplace rep id_ flags_ timenow udpsize dnssec minimise w = Ok (res, w') /\
    if res then encoded b0 qinfo rep ls id_ flags_ (records_of cfg roundrobin time_now qinfo al rep A N D id_ flags_ timenow dnssec minimise) w'
    else b0.(_limit) < LDNS_HEADER_SIZE \/ ~ mallocs_ok w.(e_memory).
Proof. intros. by apply (encode_ok cfg roundrobin time_now) with d. Qed.

(** *** A reply *)

Definition sample_data : packed_rrset_data := mk_data 0 60 1 0 rrset_trust_none sec_status_unchecked [6] [rdata_start 1] [60] (rr_bytes [1; 2; 3; 4]).
Definition sample_key : ub_packed_rrset_key := mk_key 0 (Some sample_data) 0 (mk_rk (wire [[97]]) 3 0 [0; 1] [0; 1]).
Definition sample : stored := mk_stored sample_key [[97]] 1 sample_data [(60, [1; 2; 3; 4])] [].
Definition sample_reply : reply_info := mk_rep 33152 0 1 60 6 60 sec_status_unchecked LDNS_EDE_NONE None 1 0 0 1 [Some sample_key].
Definition sample_query : query_info := mk_qi (Some (wire [[97]])) 3 1 1 None.
Definition blank (n : nat) : encoder := mk_encoder (mk_buffer 0 (Z.of_nat n) (Z.of_nat n) (Some (replicate n 0)) false false) None ∅ [].

Lemma e_sample_name : name_ok [[97]].
Proof. split; [|by vm_compute]. constructor; [|constructor]. split; [change (zlen [97]) with 1; lia|]. constructor; [unfold in_u; lia|constructor]. Qed.

Lemma e_sample_ok : stored_ok sample.
Proof.
  assert (bytes_ok [0; 1]) as H1 by (repeat apply Forall_cons_2; try apply Forall_nil_2; unfold in_u; lia).
  assert (bytes_ok [1; 2; 3; 4]) as H4 by (repeat apply Forall_cons_2; try apply Forall_nil_2; unfold in_u; lia).
  split; cbn [sample st_key st_name st_type st_data st_rrs st_sigs].
  - split; [by exists []|]. split; [done|exact e_sample_name].
  - split; [done|]. unfold in_u. lia.
  - by split.
  - done.
  - split; try done; by vm_compute.
  - done.
  - split; [done|]. split; [|unfold in_s; cbn; lia]. apply Forall_cons_2; [unfold in_s; cbn; lia|done].
  - split; [|done]. apply Forall_cons_2; [|done]. split; [constructor; by right|]. done.
Qed.

Lemma e_sample_reply_ok : reply_ok sample_reply [sample] [] [].
Proof.
  split; cbn; try (unfold in_u; lia); try done; [|by repeat constructor; apply e_sample_ok]. intros [|m] s Hs; [by injection Hs as <-|by destruct m].
Qed.

Lemma sample_asks : asks sample_query [[97]].
Proof. split; cbn [sample_query qname_len qtype qclass]; [by exists []|exact e_sample_name|change (zlen (wire [[97]])) with 3; lia|unfold in_u; lia..]. Qed.

Lemma blank_ok n : Z.of_nat n < 2 ^ 63 -> buf_ok (blank n).(e_pkt) (replicate n 0).
Proof. intros Hn. split; cbn; try done; try lia; [unfold zlen; by rewrite length_replicate|]. apply Forall_replicate. unfold in_u. lia. Qed.

Lemma reply_info_encode_message_witness :
  exists res w', reply_info_encode default_settings true 1000 sample_query false sample_reply [0; 7] 33152 0 512 false false (blank 100) = Ok (res, w') /\
    if res then encoded (cleared (blank 100).(e_pkt) 512) sample_query sample_reply [[97]] [0; 7] 33152 (records_of default_settings true 1000 sample_query None sample_reply [sample] [] [] [0; 7] 33152 0 false false) w'
    else (cleared (blank 100).(e_pkt) 512).(_limit) < LDNS_HEADER_SIZE \/ ~ mallocs_ok (blank 100).(e_memory).
Proof.
  refine (reply_info_encode_message default_settings true 1000 sample_query None false sample_reply [sample] [] [] [[97]] [0; 7] 33152 0 512 false false (blank 100) (replicate 100 0)
    _ (blank_ok 100 _) e_sample_reply_ok I (fun _ => sample_asks) _ _ _ _ _ _); try done; try (unfold in_s, in_u; lia). repeat constructor; unfold in_u; lia.
Defined.

(** The message that comes out, with the RR of the answer at 12 + 7. *)
Example sample_encoded :
  match reply_info_encode default_settings true 1000 sample_query false sample_reply [0; 7] 33152 0 512 false false (blank 100) with
  | Ok (res, w) => Some (res, option_map (ztake w.(e_pkt).(_limit)) w.(e_pkt).(_data)) | _ => None end =
  Some (true, Some [0; 7; 129; 128; 0; 1; 0; 1; 0; 0; 0; 0; 1; 97; 0; 0; 1; 0; 1; 192; 12; 0; 1; 0; 1; 0; 0; 0; 60; 0; 4; 1; 2; 3; 4]).
Proof. by vm_compute. Qed.

(** *** Signatures that are left out *)

(** An address in the additional section, with a signature: with room for the address but not for
    its signature, the RRset is there without the signature, and the bit TC is not set. *)
Definition signed_data : packed_rrset_data :=
  mk_data 0 60 1 1 rrset_trust_none sec_status_unchecked [6; 22] [rdata_start 2; rdata_start 2 + 6] [60; 60] (rr_bytes [1; 2; 3; 4] ++ rr_bytes (signature 1)).
Definition additional_reply : reply_info :=
  mk_rep 33152 0 1 60 6 60 sec_status_unchecked LDNS_EDE_NONE None 0 0 1 1 [Some (mk_key 0 (Some signed_data) 0 (mk_rk (wire [[97]]) 3 0 [0; 1] [0; 1]))].
Definition additional_at (n : Z) : option (list Z) :=
  match reply_info_encode default_settings true 1000 sample_query false additional_reply [0; 7] 33152 0 n true false (blank 100) with
  | Ok (true, w) => option_map (ztake w.(e_pkt).(_limit)) w.(e_pkt).(_data) | _ => None end.

Example additional_without_signatures : let head ar := [0; 7; 129; 128; 0; 1; 0; 0; 0; 0; 0; ar; 1; 97; 0; 0; 1; 0; 1] in let rr := [192; 12; 0; 1; 0; 1; 0; 0; 0; 60; 0; 4; 1; 2; 3; 4] in
  additional_at 50 = Some (head 1 ++ rr) /\ additional_at 100 = Some (head 2 ++ rr ++ [192; 12; 0; 46; 0; 1; 0; 0; 0; 60; 0; 20] ++ signature 1).
Proof. by vm_compute. Qed.

(** *** A name that is longer than the one that is asked for *)

(** The room is looked for by the length of the name that is asked for, though the name of the
    alias is written: with a longer one it does not fit. *)
Definition alias_query : query_info := mk_qi (Some (wire [])) 1 1 1 (Some (mk_key 0 None 0 (mk_rk (wire [[97; 97; 97; 97]]) 6 0 [0; 5] [0; 1]))).
Example alias_question_unchecked : reply_info_encode default_settings false 0 alias_query false sample_reply [0; 7] 33152 0 512 false false (blank 18) = Fault Assertion.
Proof. by vm_compute. Qed.

(** ** Encoding replies: the reply of a packet

    What is made of a packet can be encoded again: the reply that [parse_reply_in_temp_region]
    gives is one that [reply_info_encode] writes. *)

Section Parsed.
Context (b : sldns_buffer) (d : list Z) (B : buf_ok b d) (cfg : ttl_settings) (Hset : small_settings cfg).

Lemma copied_rdata_ok N type section xs rs : Forall2 (rr_copied b d cfg N type section) xs rs -> Forall (rdata_ok type) (map snd rs) /\ Forall (in_s 63) (map fst rs).
Proof.
  induction 1 as [|x r xs rs Hr _ [IH1 IH2]]; [split; constructor|]. pose proof (rr_copied_bound b d B cfg _ _ _ _ _ Hr) as Hz. destruct Hr as (rp & _ & _ & HR & _ & Et). split; constructor; try done.
  - destruct HR as (H0 & H1 & HR). pose proof (u16_at_range b d B (rp.(r_ttl_data) + 4)) as Hu. unfold in_u in Hu. destruct (rdata_plain b d _ _ _ _ _ B HR) as [HP Hb]; [lia..|]. split; [done|]. split; [done|lia].
  - rewrite Et. pose proof (ttl_of_small b d B cfg type section rp.(r_ttl_data) Hset). unfold in_s, small_ttl in *. lia.
Qed.

Context (le : bool) (raninit : Z) (w0 : world) (p0 : Z) (L : list addr) (R S : addr -> list addr) (H0 : base b d le raninit w0 p0 L R S).

(** An RRset of the packet, written out. *)
Lemma copied_stored a k : key_copied b d cfg w0 L R S a k -> exists s, s.(st_key) = k /\ stored_ok s.
Proof.
  intros (s & ls & e & l1 & l2 & Hs & N & LC & _ & ->). destruct (b_keys _ _ _ _ _ _ _ _ _ H0 a s Hs) as (_ & _ & _ & _ & [Hc1 Hc2] & [Ht _] & _). cbn in Hc1, Hc2, Ht.
  destruct (name_at_range b d B _ _ _ N) as (_ & _ & _ & Hn). pose proof (data_packed b d B cfg _ _ _ _ _ _ (trust_of (is_AA w0.(msg)) w0.(rrsets) L a s.(s_section)) LC) as X.
  destruct LC as [_ _ _ F1 F2]. destruct (copied_rdata_ok _ _ _ _ _ F1) as [R1 T1]. destruct (copied_rdata_ok _ _ _ _ _ F2) as [R2 T2].
  eexists (mk_stored _ ls s.(s_type) _ l1 l2). split; [reflexivity|]. split; cbn [st_key st_name st_type st_data st_rrs st_sigs rk rk_type rk_class entry_data]; try done.
  - split; [exists []; by rewrite app_nil_r|]. done.
  - split; [cbn; by rewrite app_nil_r|]. split; [by rewrite map_app; apply Forall_app|]. unfold in_s. cbn. lia.
Qed.

Lemma copied_all ks : Forall2 (key_copied b d cfg w0 L R S) L ks -> exists ss, map st_key ss = ks /\ Forall stored_ok ss.
Proof.
  generalize L at 2. intros L1. induction 1 as [|a k L2 ks Hk _ (ss & <- & IH)]; [by exists []|]. destruct (copied_stored a k Hk) as (s & <- & Hs). exists (s :: ss). split; [done|by constructor].
Qed.
End Parsed.

(** ** The reply *)

(** [A], [N] and [D] are the RRsets of the sections of the reply, which is the parsed packet
    [w0] written out, and [ls] is the name that the packet asks for. *)
Record remade (b : sldns_buffer) (d : list Z) (cfg : ttl_settings) (le : bool) (raninit : Z) (w0 : world) (q : query_info) (rep : reply_info) (A N D : list stored) (ls : name) : Prop := {
  rm_written : written_out b d cfg le raninit w0 q rep (map st_key (A ++ N ++ D));
  rm_reply : reply_ok rep A N D;
  rm_query : rep.(qdcount) <> 0 -> asks q ls /\ q.(qname) = Some (wire ls) /\ exists e, name_at (rewound b) d 12 ls e;
  rm_alias : q.(local_alias) = None;
}.

(** The RRsets, by the counts. *)
Lemma keys_parts (ss : list stored) i j : 0 <= i -> 0 <= j -> i + j <= zlen ss ->
  exists A N D, ss = A ++ N ++ D /\ zlen A = i /\ zlen N = j /\ zlen D = zlen ss - i - j.
Proof.
  intros Hi Hj Hl. exists (take (Z.to_nat i) ss), (take (Z.to_nat j) (drop (Z.to_nat i) ss)), (drop (Z.to_nat j) (drop (Z.to_nat i) ss)). split; [by rewrite !take_drop|].
  unfold zlen in *. rewrite !length_take, !length_drop. lia.
Qed.

Lemma keys_all (ss : list stored) : keys_at (map Some (map st_key ss)) 0 ss.
Proof. intros m s Hm. change ((Some <$> (st_key <$> ss)) !! m = Some (Some s.(st_key))). by rewrite !list_lookup_fmap, Hm. Qed.

(** The question of the packet is one that can be asked. *)
Lemma query_asks b d m q : buf_ok b d -> question_ok b d 0 m -> query_of b d m q -> exists ls, m.(m_qdcount) <> 0 -> asks q ls /\ q.(qname) = Some (wire ls) /\ exists e, name_at b d 12 ls e.
Proof.
  intros B [(E0 & _)|(E1 & ls & e & N & Eq & _ & Et & Ec)]; [intros _; by exists []|]. unfold query_of. rewrite Eq. intros (ls' & e' & N' & ->). destruct (pkt_name_fun _ _ _ _ _ _ _ N N') as [<- _].
  destruct (name_at_range b d B _ _ _ N) as (_ & _ & _ & Hn). exists ls. intros _. split; [|split; [done|by exists e]]. pose proof (zlen_wire_pos ls).
  split; cbn; [exists []; by rewrite app_nil_r|done|destruct Hn; lia|rewrite Et; by apply (u16_at_range b d B)|rewrite Ec; by apply (u16_at_range b d B)].
Qed.

Lemma written_remade b d cfg le raninit w0 q rep ks : buf_ok b d -> small_settings cfg -> written_out b d cfg le raninit w0 q rep ks ->
  exists A N D ls, remade b d cfg le raninit w0 q rep A N D ls /\ ks = map st_key (A ++ N ++ D).
Proof.
  intros B Hset W. pose proof (rewound_ok b d B) as B'. pose proof W as [Hq -> (L & R & S & [[q0 Hb] Hh Hqu Hs (T1 & T2 & T3 & _) [HL _]] & HF) _ _ _].
  destruct (copied_all _ _ B' cfg Hset le raninit w0 q0 L R S Hb ks HF) as (ss & <- & Hok).
  assert (total (v_section <$> w0.(rrsets)) = Z.of_nat (size (v_section <$> w0.(rrsets)))) as Ht by (apply count_total; intros a s (y & <- & Hy)%lookup_fmap_Some; by apply (Hs a y)). rewrite map_size_fmap, <- (rrset_list_size w0.(rrsets) L) in Ht by apply Hb. unfold total in Ht.
  pose proof (count_nonneg (v_section <$> w0.(rrsets)) LDNS_SECTION_ANSWER) as C1. pose proof (count_nonneg (v_section <$> w0.(rrsets)) LDNS_SECTION_AUTHORITY) as C2.
  pose proof (count_nonneg (v_section <$> w0.(rrsets)) LDNS_SECTION_ADDITIONAL) as C3. rewrite (zlen_forall2 _ _ _ HF), zlen_map in Ht, HL. rewrite <- T1, <- T2, <- T3 in *.
  destruct (keys_parts ss _ _ C1 C2 ltac:(lia)) as (A & N & D & -> & Z1 & Z2 & Z3). destruct (query_asks _ _ _ _ B' Hqu Hq) as (ls & Hls). exists A, N, D, ls. split; [|done].
  split; [done| |exact Hls|]; [|unfold query_of in Hq; destruct (m_qname _); [destruct Hq as (? & ? & _ & ->)|subst q]; done].
  destruct Hh as (_ & Hf & Hqd & _). split; cbn; try done; [rewrite Hf; by apply (u16_at_range b d B)|rewrite Hqd; by apply (u16_at_range b d B)|lia|apply keys_all|unfold MAX_RRS in HL; lia].
Qed.

Lemma remade_counts b d cfg le raninit w0 q rep A N D ls : remade b d cfg le raninit w0 q rep A N D ls ->
  zlen A = w0.(msg).(m_an_rrsets) /\ zlen N = w0.(msg).(m_ns_rrsets) /\ zlen D = w0.(msg).(m_ar_rrsets).
Proof. intros [[_ -> _ _ _ _] R _ _]. pose proof (rp_counts _ _ _ _ R) as (C1 & C2 & C3). cbn in C1, C2, C3. done. Qed.


(** *** There and back *)

(** What the reply of a packet is encoded to, in a packet of [n] bytes. *)
Definition encoded_again (l : list Z) (id_ : list Z) (flags_ : Z) (n : nat) : option (list Z) :=
  match reply_info_encode default_settings false 0 (reply_parts l).1.1 false (reply_parts l).1.2 id_ flags_ 0 512 true false (blank n) with
  | Ok (true, w) => option_map (ztake w.(e_pkt).(_limit)) w.(e_pkt).(_data)
  | _ => None
  end.

(** The packet with an alias, a signature and names in the rdata comes out as it was. *)
Example alias_again : encoded_again alias_packet [18; 52] 34176 512 = Some alias_packet.
Proof. by vm_compute. Qed.

(** There is room for one RRset; and for the question only; and not for the question. *)
Example alias_cut : encoded_again alias_packet [18; 52] 34176 60 = Some ([18; 52; 135; 128; 0; 1; 0; 1; 0; 0; 0; 0] ++ ztake 23 (zdrop 12 alias_packet)).
Proof. by vm_compute. Qed.
Example alias_question : encoded_again alias_packet [18; 52] 34176 20 = Some ([18; 52; 135; 128; 0; 1; 0; 0; 0; 0; 0; 0] ++ ztake 7 (zdrop 12 alias_packet)).
Proof. by vm_compute. Qed.
Example alias_header : encoded_again alias_packet [18; 52] 34176 18 = Some [18; 52; 135; 128; 0; 0; 0; 0; 0; 0; 0; 0].
Proof. by vm_compute. Qed.

Lemma alias_id : bytes_ok [18; 52].
Proof. repeat apply Forall_cons_2; try apply Forall_nil_2; unfold in_u; lia. Qed.

